(* ===== verification/_CoqProject ===== *)
-Q . S2P
Prelude.v
Words.v
PosixLocks.v
PosixLocksFacts.v
PosixLocksInv.v
PosixLocksProps.v
EcGf8.v
EcGalois.v
EcCodeC.v
EcLanes.v
EcChunks.v
EcPoly.v
EcField.v
EcCode.v
EcCodeFacts.v
EcMatrix.v
EcMethod.v
EcMethodFacts.v
EcCache.v
EcRead.v
EcReadFacts.v
EcProps.v
Bytes.v
DhtHash.v
DhtLayout.v
DhtFacts.v
DhtSelfheal.v
DhtSelfhealFacts.v
DhtOverlap.v
DhtDiskFacts.v
DhtProps.v
Dict.v
DictFacts.v
DictWire.v
DictProps.v
WriteBehind.v
WriteBehindInv.v
WriteBehindOrder.v
WriteBehindProps.v
AfrHeal.v
AfrTxn.v
AfrFacts.v
AfrDecide.v
AfrSystem.v
AfrKept.v
AfrShare.v
AfrClean.v
AfrProps.v
Shard.v
ShardFacts.v
ShardScan.v
ShardOps.v
ShardTrunc.v
ShardKept.v
ShardLru.v
ShardVolume.v
ShardProps.v
Socket.v
SocketRead.v
SocketParse.v
SocketCalls.v
SocketReplies.v
SocketRecords.v
SocketSend.v
SocketOut.v
SocketProps.v
