(* ===== verification/Prelude.v ===== *)
(** * GlusterFS: a verification development

    GlusterFS builds a network file system from a stack of translators
    (xlators): modules that take a file operation, change or answer it, and pass
    it on.  A client runs the distribution (dht), replication (afr) and
    dispersal (ec) translators over its connections to the bricks; a brick runs
    locks and other features over the storage translator.  glusterd manages the
    volumes.  This library models the parts of the program in which data is
    placed, protected and excluded, as executable functions that follow the C
    code statement by statement, and proves them correct.

    ** Locks: [xlators/features/locks]

    [PosixLocks] models the byte-range locks of fcntl: the records of locks.h
    ([posix_lock], [pl_inode], [pl_rw_req]); the lock list of common.c
    ([__insert_and_merge], [subtract_locks], [__is_lock_grantable],
    [grant_blocked_locks], [pl_setlk], [pl_getlk]); the handlers [pl_lk],
    [pl_flush], [pl_readv] and [pl_writev] of posix.c with the queue of blocked
    reads and writes; and the check against reserve locks of reservelk.c.  A
    handler is a function from the state of the inode to the new state and the
    list of its effects (unwinds and winds).  [PosixLocksFacts] has the
    byte-wise meaning of a lock list, [PosixLocksInv] the invariant kept by
    every handler, and [PosixLocksProps] the properties: reachable tables hold
    no two conflicting locks and no request waits for nothing; merging refines
    the byte-wise update that fcntl prescribes and terminates; granting answers
    every request once; F_GETLK agrees with F_SETLK; the range check is exact;
    mandatory locking stops exactly the requests it should.

    ** Dispersal: [xlators/cluster/ec]

    [EcGf8] has the 256 multiplication programs of ec-gf8.c and [EcGalois] the
    field of ec-galois.c; [EcCodeC] the 256 multiply-and-add routines and the
    two row functions of ec-code-c.c; [EcCode] the code builder of ec-code.c
    with the meaning of the operations it emits; [EcMatrix] the encoding matrix
    and its inverse, [EcMethod] the encoder, the decoder and the cache of
    matrices with its sorted array and least-recently-used list (ec-method.c);
    [EcRead] the geometry of ec.c, the alignment helpers of ec-helpers.h and the
    read path of ec-inode-read.c.  [EcLanes], [EcChunks], [EcPoly], [EcField],
    [EcCodeFacts], [EcMethodFacts], [EcCache] and [EcReadFacts] carry the
    proofs: bit slices as symbols, the field of 256 elements, polynomials over
    it and the inverse of a Vandermonde matrix, the invariant of the cache.
    [EcProps] has the properties: what is written is read back from any
    sufficient set of fragments, with portable and with generated code alike;
    the cache never hands out a matrix that is evicted or is not the inverse
    asked for, and fails only without memory; the arithmetic is that of
    GF(2^8); the buffers of the builder are large enough in the cases shown;
    the windows of reads are exact inside of a file.

    ** Distribution: [xlators/cluster/dht]

    [DhtHash] models the Davies-Meyer hash of libglusterfs/src/hashfn.c and the
    rewriting of names in dht-hashfn.c; [DhtLayout] the layouts of dht-layout.c
    (search, on-disk format, merging, sorting, anomalies, normalizing);
    [DhtSelfheal] the computation of layouts in dht-selfheal.c (equal and
    weighted ranges with IEEE doubles, exchange of ranges, the decision to fix a
    layout).  [DhtFacts], [DhtSelfhealFacts], [DhtOverlap] and [DhtDiskFacts]
    carry the proofs and [DhtProps] the properties: a layout is accepted exactly
    when its ranges partition the hash space; the layout of a new directory,
    written, read back and normalized, places every name on one brick; fixing a
    layout gives a partition and loses no overlap.

    ** Dictionaries: [libglusterfs/src/dict.c]

    [Words] has machine words and byte order (byte-order.h), [Bytes] lists of bytes
    with their lengths and offsets as integers.  [Dict] models the dictionaries
    that carry options and extended attributes: lookup, set, add, delete, rename,
    iteration, copy, comparison, and the serialized form with every check of the
    sizes.  [DictFacts] relates a dictionary to a finite map,
    [DictWire] gives the bytes of the serialized form, and [DictProps] has the
    properties: operations refine those of a map, with the allocations that fail as
    arguments (a copy is then partial and does not say so); comparison is equality;
    serialized dictionaries are read back; cut ones give their complete entries.

    ** Write-behind: [xlators/performance/write-behind]

    [WriteBehind] models write-behind.c: the queue of an inode with its lists
    ([todo], [liability], [temptation], [wip]), the arrival of requests, the
    three passes of [wb_process_queue], the writes to the server and their
    answers with errors, short answers and retries, and the handlers.  [wb_step]
    interleaves the parts that run under the inode's lock with the parts that do
    not, and with arbitrary answers.  [WriteBehindInv] shows what every
    operation keeps, [WriteBehindOrder] that every step keeps it and that the
    single-threaded [wb_process_queue] is one of the interleavings, and
    [WriteBehindProps] the properties: writes on their way to the server never
    overlap; a request that conflicts with an acknowledged write waits for it,
    unless it is itself a write that can be collapsed into an older one.
    Its last section has runs in which data is lost or read stale.

    ** Replication: [xlators/cluster/afr]

    [AfrHeal] models how a heal decides: the matrix of changelogs, sources, sinks
    and witnesses (afr-self-heal-common.c), split brain with its policies, the
    data heal (afr-self-heal-data.c) and the changelogs it leaves, and the xattrop
    of a brick (posix-inode-fd-ops.c).  [AfrTxn] models a write
    (afr-transaction.c, afr-inode-write.c): pre-op, quorum, arbiter, the write and
    the bricks that fail it, post-op, and the marks that writes on one descriptor
    share.  What bricks answer is an argument.  [AfrSystem] puts both on a file
    with its bricks, where messages are lost and clients die and where a heal
    truncates its sinks to the size that the source answered, [AfrShare]
    interleaves the writes of a descriptor.  [AfrFacts], [AfrDecide], [AfrKept] and
    [AfrClean] have the lemmas, and [AfrProps] the properties: committed writes
    stay on a quorum and heals keep them; a heal's source is one that nobody
    blames; a brick is marked while it is written, and not after.  Its last part
    has runs in which acknowledged writes or accusations are lost.

    ** Sharding: [xlators/features/shard]

    [Shard] models shard.c, which keeps a file as blocks of a fixed size: block 0
    under the name of the file, the others as objects under /.shard, the size in an
    extended attribute of block 0.  Its state has the objects and attributes of the
    bricks, the contexts of inodes and the list of shards in use; what each call to
    the bricks answers is an argument.  The operations are chains of callbacks, and
    each callback is a definition.  [ShardFacts] has byte lists and vectors,
    [ShardScan] finding and making the shards of a range, [ShardOps] reads and
    writes, [ShardTrunc] truncation, [ShardKept] removal and what concerns other
    files, [ShardLru] the list of shards, [ShardVolume] the volume of flat files
    that the translator implements.  [ShardProps] has the properties: replies are
    those of flat files; a failing write leaves the size and the bytes around it;
    other files are not touched; removal leaves nothing; the list is bounded; a cut
    at a block boundary empties the block before it.  Its last part has runs in
    which data is lost, invented or read from another file.

    ** RPC records: [rpc/rpc-transport/socket]

    [Socket] models how socket.c reads: the bytes of a connection are cut into
    records of fragments, and the calls and replies that carry data are parsed
    while they arrive, so that the data goes to a buffer of its own.  Every state
    of the parser is a definition that does the work of its case; the state is that
    of struct gf_sock_incoming with buffers, pointers and the read-ahead, and an
    access outside of a buffer, to a freed one or to undetermined bytes is undefined
    behaviour.  What the kernel gives to each read is an argument.  [SocketSend]
    models how it writes: headers, partial writes and the queue.  [SocketRead] has
    the rules for the effects and for reading, [SocketParse] the well-formed
    messages and the macros of the parser, [SocketCalls] and [SocketReplies] its
    states, [SocketRecords] the records of a connection, [SocketOut] the way out.
    [SocketProps] has the properties: a connection delivers the messages that were
    sent, in order and whole, and has delivered all of them when all bytes are read;
    an event ends only when the kernel has nothing more; what is accepted is sent.
    The end has the messages that the parser is not safe for.  The fuel of the read
    loop is twice the number of answers of the kernel, that of a program header
    twice the length of the fragment, and both are shown to be enough.

    ** Conventions

    A machine integer is a [Z] whose wrap-around is written where the code can
    reach it; pointers to objects that are shared and compared are natural
    numbers into a heap ([EcMethod]) or names ([DhtLayout]); a list of the
    kernel's style is a list in its order.  Undefined behaviour is an outcome of
    its own ([MERGE_UNDEF], [FIX_UNDEF], [None] where the text says so), never a
    default value.  Recursion that is not structural has fuel: [bfix] below
    unfolds a functional 2^n times, with n a logarithm of a number of bytes, and
    a theorem of [PosixLocksProps] shows it is never used up; [lookup_loop] halves
    an interval and has one step for each of its elements and one more; the fuel of
    [wb_process_queue] bounds how often writing may fail for want of memory.

    Code outside of the sources is a parameter: regular expressions in
    [DhtHash], the signedness of char, the availability of memory and the choice
    of instruction set in [EcMethod].  The counters of changelogs are kept at 32
    bits; the theorems on them count the steps of a run, below 2^31.

    ** What is not modelled

    Disk I/O, the RPC layers above the transport, XDR, SSL and the setting up of
    connections, threads other than through the order of whole handlers (the code
    holds the inode's mutex in each) and the steps of [WriteBehind] and [AfrShare],
    reference counts other than those of write-behind's requests, memory pools and
    log messages.  Of replication: locking, metadata and entry heal, reads, and
    writes during the copying of a heal.  Of sharding: link, readdir, setattr, time
    stamps, and operations on one file at the same time.  Of the socket transport:
    the thread per connection, connecting and accepting, and buffers that cannot be
    had.  Of the locks translator: inode and entry locks, reserve lock commands and
    lock migration.  Of dispersal: the fop state machine, healing, and the encoding
    of x86 instructions.  Of distribution: the callbacks around layouts,
    rebalancing, and linkfiles.  The other translators and daemons are listed with
    their reasons in the manifest of the development. *)

From Stdlib Require Export ZArith Lia.
From stdpp Require Export base numbers option relations list.

#[export] Set Default Goal Selector "!".

Declare Scope gluster_scope.
Delimit Scope gluster_scope with gluster.

Create HintDb locks.
Create Rewrite HintDb locks.
Create HintDb gf.

(** ** Functional iteration with a logarithmic amount of fuel

    [bfix n F g] unfolds the functional [F] up to [2 ^ n] times before it falls
    back on [g].  The inner closures are eta-expanded, so that evaluation only
    pays for the unfoldings that are really used.  Recursive C functions whose
    recursion is bounded by a machine-width quantity (a byte count, for
    instance) are modelled with it: the fuel is a logarithm. *)
Fixpoint bfix {A B : Type} (n : nat) (F : (A -> B) -> A -> B) (g : A -> B) : A -> B :=
  match n with
  | O => fun a => F g a
  | S m => fun a => bfix m F (fun x => bfix m F g x) a
  end.

Section Bfix.
Context {A B : Type} (F : (A -> B) -> A -> B).
Context (P : Z -> (A -> B) -> Prop).
Hypothesis HF : forall k f, (0 <= k)%Z -> P k f -> P (k + 1)%Z (F f).

(** If one unfolding of [F] improves an approximation by one, then [bfix n F]
    improves it by [2 ^ n]. *)
Lemma bfix_approx n k g :
  (0 <= k)%Z -> P k g -> P (k + 2 ^ Z.of_nat n)%Z (bfix n F g).
Proof.
  revert k g. induction n as [|n IH]; intros k g Hk Hg; cbn [bfix].
  - exact (HF k g Hk Hg).
  - rewrite Nat2Z.inj_succ, Z.pow_succ_r by lia.
    replace (k + 2 * 2 ^ Z.of_nat n)%Z
      with (k + 2 ^ Z.of_nat n + 2 ^ Z.of_nat n)%Z by lia.
    apply (IH (k + 2 ^ Z.of_nat n)%Z (fun x => bfix n F g x)); [lia|].
    exact (IH k g Hk Hg).
Qed.
End Bfix.

(** ** Machine integers *)

(** Two's complement wrap-around of a signed 64-bit quantity (off_t). *)
Definition wrap_s64 (z : Z) : Z := (z + 2 ^ 63) mod 2 ^ 64 - 2 ^ 63.

Lemma wrap_s64_id z : (- 2 ^ 63 <= z < 2 ^ 63)%Z -> wrap_s64 z = z.
Proof. intros H. unfold wrap_s64. rewrite Z.mod_small by lia. lia. Qed.

Lemma wrap_s64_over z : (2 ^ 63 <= z < 2 ^ 64)%Z -> (wrap_s64 z < 0)%Z.
Proof.
  intros H. unfold wrap_s64.
  rewrite <- (Z_mod_plus_full (z + 2 ^ 63) (-1)), Z.mod_small by lia. lia.
Qed.

(** ** Lists *)

Lemma Forall_filter {A} (P Q : A -> Prop) `{forall x, Decision (Q x)} (l : list A) :
  Forall P l -> Forall P (filter Q l).
Proof.
  rewrite !Forall_forall. intros H1 x [_ Hx]%list_elem_of_filter. auto.
Qed.

Lemma filter_ext_elem {A} (P Q : A -> Prop) `{forall x, Decision (P x)} `{forall x, Decision (Q x)}
    (l : list A) :
  (forall x, x ∈ l -> (P x <-> Q x)) -> filter P l = filter Q l.
Proof.
  induction l as [|x l IH]; intros Hext; [reflexivity|]. rewrite !filter_cons.
  rewrite IH by (intros y Hy; apply Hext, elem_of_cons; auto).
  destruct (Hext x) as [H1 H2]; [apply elem_of_cons; auto|].
  destruct (decide (P x)), (decide (Q x)); tauto || reflexivity.
Qed.
