(* ===== verification/Words.v ===== *)
(** * Machine words and byte order

    32- and 64-bit integers, their bytes in memory on a little endian host, and the
    conversions of [libglusterfs/src/byte-order.h].  A byte is a [Z] from 0 to
    255. *)

From S2P Require Import Prelude.
Open Scope Z_scope.

(** Wrap-around to uint32_t, uint64_t and int32_t. *)
Definition u32 (x : Z) : Z := x mod 2 ^ 32.
Definition u64 (x : Z) : Z := x mod 2 ^ 64.
Definition s32 (x : Z) : Z := (x + 2 ^ 31) mod 2 ^ 32 - 2 ^ 31.

(** [do_swap2] and [do_swap4] of byte-order.h, on a little endian host. *)
Definition do_swap2 (x : Z) : Z := Z.lor (Z.shiftl (Z.land x 0xff) 8) (Z.shiftr (Z.land x 0xff00) 8).
Definition do_swap4 (x : Z) : Z :=
  Z.lor (Z.shiftl (do_swap2 (Z.land x 0xffff)) 16) (do_swap2 (Z.shiftr (Z.land x 0xffff0000) 16)).
Definition hton32 (x : Z) : Z := u32 (do_swap4 x).

(** The four bytes of a word in memory, and the word they make. *)
Definition store32 (w : Z) : list Z := [w mod 256; (w / 256) mod 256; (w / 2 ^ 16) mod 256; (w / 2 ^ 24) mod 256].
Definition load32 (b0 b1 b2 b3 : Z) : Z := b0 + b1 * 256 + b2 * 2 ^ 16 + b3 * 2 ^ 24.

(** ** Facts *)

Lemma u32_range x : 0 <= u32 x < 2 ^ 32.
Proof. apply Z.mod_pos_bound. lia. Qed.

Lemma u32_id x : 0 <= x < 2 ^ 32 -> u32 x = x.
Proof. apply Z.mod_small. Qed.

Lemma u64_range x : 0 <= u64 x < 2 ^ 64.
Proof. apply Z.mod_pos_bound. lia. Qed.

Lemma u64_id x : 0 <= x < 2 ^ 64 -> u64 x = x.
Proof. apply Z.mod_small. Qed.

Lemma s32_id x : - 2 ^ 31 <= x < 2 ^ 31 -> s32 x = x.
Proof. intros H. unfold s32. rewrite Z.mod_small by lia. lia. Qed.

Lemma lor_shiftl_add a b n : 0 <= n -> 0 <= b < 2 ^ n -> Z.lor (Z.shiftl a n) b = a * 2 ^ n + b.
Proof.
  intros Hn Hb. rewrite <- Z.shiftl_mul_pow2 by lia.
  assert (Hd : Z.land (Z.shiftl a n) b = 0).
  { apply Z.bits_inj'. intros k Hk. rewrite Z.land_spec, Z.bits_0. destruct (Z.lt_ge_cases k n).
    - rewrite Z.shiftl_spec_low by lia. reflexivity.
    - destruct (Z.eq_dec b 0) as [->|]; [rewrite Z.bits_0; apply andb_false_r|].
      rewrite (Z.bits_above_log2 b k); [apply andb_false_r | lia |].
      assert (Z.log2 b < n) by (apply Z.log2_lt_pow2; lia). lia. }
  rewrite Z.add_nocarry_lxor, Z.lxor_lor by exact Hd. reflexivity.
Qed.

Lemma do_swap2_bytes x : 0 <= x -> do_swap2 x = (x mod 256) * 256 + (x / 256) mod 256.
Proof.
  intros Hx. unfold do_swap2. rewrite Z.shiftr_land, Z.shiftr_div_pow2 by lia.
  change (Z.shiftr 0xff00 8) with (Z.ones 8). change 0xff with (Z.ones 8). rewrite !Z.land_ones by lia.
  change (2 ^ 8) with 256. rewrite lor_shiftl_add; [reflexivity | lia |].
  apply Z.mod_pos_bound. lia.
Qed.

Lemma do_swap4_bytes x :
  0 <= x < 2 ^ 32 ->
  do_swap4 x = (x mod 256) * 2 ^ 24 + ((x / 256) mod 256) * 2 ^ 16 + ((x / 2 ^ 16) mod 256) * 256 + x / 2 ^ 24.
Proof.
  intros Hx. unfold do_swap4. rewrite Z.shiftr_land, Z.shiftr_div_pow2 by lia.
  change (Z.shiftr 0xffff0000 16) with (Z.ones 16). change 0xffff with (Z.ones 16). rewrite !Z.land_ones by lia.
  change (2 ^ 16) with 65536. change (2 ^ 24) with 16777216. change (2 ^ 32) with 4294967296 in Hx.
  rewrite !do_swap2_bytes by (apply Z.mod_pos_bound; lia).
  rewrite lor_shiftl_add; [change (2 ^ 16) with 65536; Z.div_mod_to_equations; lia | lia |].
  change (2 ^ 16) with 65536. Z.div_mod_to_equations; lia.
Qed.

Lemma hton32_range x : 0 <= hton32 x < 2 ^ 32.
Proof. apply u32_range. Qed.

Lemma do_swap4_of_bytes b0 b1 b2 b3 :
  0 <= b0 < 256 -> 0 <= b1 < 256 -> 0 <= b2 < 256 -> 0 <= b3 < 256 ->
  do_swap4 (b3 * 2 ^ 24 + b2 * 2 ^ 16 + b1 * 256 + b0) = b0 * 2 ^ 24 + b1 * 2 ^ 16 + b2 * 256 + b3.
Proof.
  intros H0 H1 H2 H3. rewrite do_swap4_bytes by lia. change (2 ^ 24) with 16777216. change (2 ^ 16) with 65536.
  set (x := b3 * 16777216 + b2 * 65536 + b1 * 256 + b0).
  assert (E0 : x mod 256 = b0) by (symmetry; apply (Z.mod_unique x 256 (b3 * 65536 + b2 * 256 + b1)); unfold x; lia).
  assert (E1 : x / 256 = b3 * 65536 + b2 * 256 + b1)
    by (symmetry; apply (Z.div_unique x 256 _ b0); unfold x; lia).
  assert (E2 : x / 65536 = b3 * 256 + b2)
    by (symmetry; apply (Z.div_unique x 65536 _ (b1 * 256 + b0)); unfold x; lia).
  assert (E3 : x / 16777216 = b3)
    by (symmetry; apply (Z.div_unique x 16777216 _ (b2 * 65536 + b1 * 256 + b0)); unfold x; lia).
  assert (E4 : (x / 256) mod 256 = b1)
    by (rewrite E1; symmetry; apply (Z.mod_unique _ 256 (b3 * 256 + b2)); lia).
  assert (E5 : (x / 65536) mod 256 = b2)
    by (rewrite E2; symmetry; apply (Z.mod_unique _ 256 b3); lia).
  rewrite E0, E3, E4, E5. lia.
Qed.

Lemma byte_split x :
  0 <= x < 2 ^ 32 -> exists b0 b1 b2 b3, x = b3 * 2 ^ 24 + b2 * 2 ^ 16 + b1 * 256 + b0 /\
    0 <= b0 < 256 /\ 0 <= b1 < 256 /\ 0 <= b2 < 256 /\ 0 <= b3 < 256.
Proof.
  intros Hx. exists (x mod 256), ((x / 256) mod 256), ((x / 256 / 256) mod 256), (x / 256 / 256 / 256).
  pose proof (Z.div_mod x 256 ltac:(lia)). pose proof (Z.mod_pos_bound x 256 ltac:(lia)).
  pose proof (Z.div_mod (x / 256) 256 ltac:(lia)). pose proof (Z.mod_pos_bound (x / 256) 256 ltac:(lia)).
  pose proof (Z.div_mod (x / 256 / 256) 256 ltac:(lia)).
  pose proof (Z.mod_pos_bound (x / 256 / 256) 256 ltac:(lia)). lia.
Qed.

(** Converting twice gives the value back. *)
Lemma hton32_involutive x : 0 <= x < 2 ^ 32 -> hton32 (hton32 x) = x.
Proof.
  intros Hx. destruct (byte_split x Hx) as (b0 & b1 & b2 & b3 & -> & H0 & H1 & H2 & H3). unfold hton32.
  rewrite do_swap4_of_bytes by auto. rewrite (u32_id (b0 * 2 ^ 24 + _ + _ + _)) by lia.
  rewrite do_swap4_of_bytes by auto. apply u32_id. lia.
Qed.

Lemma load_store32 w : 0 <= w < 2 ^ 32 -> forall b0 b1 b2 b3, store32 w = [b0; b1; b2; b3] -> load32 b0 b1 b2 b3 = w.
Proof.
  intros Hw b0 b1 b2 b3 [= <- <- <- <-]. unfold load32.
  destruct (byte_split w Hw) as (c0 & c1 & c2 & c3 & -> & H0 & H1 & H2 & H3).
  change (2 ^ 24) with 16777216. change (2 ^ 16) with 65536.
  set (x := c3 * 16777216 + c2 * 65536 + c1 * 256 + c0).
  assert (E0 : x mod 256 = c0) by (symmetry; apply (Z.mod_unique x 256 (c3 * 65536 + c2 * 256 + c1)); unfold x; lia).
  assert (E1 : (x / 256) mod 256 = c1).
  { replace (x / 256) with (c3 * 65536 + c2 * 256 + c1) by (apply (Z.div_unique x 256 _ c0); unfold x; lia).
    symmetry. apply (Z.mod_unique _ 256 (c3 * 256 + c2)); lia. }
  assert (E2 : (x / 65536) mod 256 = c2).
  { replace (x / 65536) with (c3 * 256 + c2) by (apply (Z.div_unique x 65536 _ (c1 * 256 + c0)); unfold x; lia).
    symmetry. apply (Z.mod_unique _ 256 c3); lia. }
  assert (E3 : (x / 16777216) mod 256 = c3).
  { replace (x / 16777216) with c3 by (apply (Z.div_unique x 16777216 _ (c2 * 65536 + c1 * 256 + c0)); unfold x; lia).
    apply Z.mod_small. lia. }
  rewrite E0, E1, E2, E3. unfold x. lia.
Qed.
