(* ===== verification/PosixLocks.v ===== *)
(** * The fcntl lock table of the locks translator

    Models [xlators/features/locks/src/common.c] (the byte-range lock list of
    an inode and its merge algorithm), the handlers of
    [xlators/features/locks/src/posix.c] that act on it (lk, flush, the
    mandatory-locking gate of readv and writev) and the part of
    [reservelk.c] those handlers go through.

    An inode's [ext_list] is a list of locks, granted and blocked ones mixed,
    in list order.  A C function that mutates the inode is a function from
    [pl_inode] to [pl_inode]; calls that leave the translator (STACK_UNWIND,
    call_resume) are collected as [event]s in the order they are made.  The
    inode mutex makes every function below atomic.  Allocations succeed. *)

From S2P Require Import Prelude Words.
Open Scope Z_scope.

(** ** Data *)

Inductive lk_type := F_RDLCK | F_WRLCK | F_UNLCK.

#[export] Instance lk_type_eq_dec : EqDecision lk_type.
Proof. solve_decision. Defined.

Definition lk_type_eqb (a b : lk_type) : bool := bool_decide (a = b).

(** [gf_lkowner_t]: the first [len] bytes of [data]. *)
Definition lkowner := list Z.

(** [is_same_lkowner]: equal lengths and equal bytes. *)
Definition is_same_lkowner (l1 l2 : lkowner) : bool :=
  (length l1 =? length l2)%nat &&
  forallb (fun p => fst p =? snd p) (combine l1 l2).

Record gf_flock := mk_flock {
  l_type : lk_type;
  l_whence : Z;
  l_start : Z;
  l_len : Z;
  l_pid : Z;
  l_owner : lkowner
}.

(** [posix_lock_t].  [frame] is the call frame that waits for the lock, an
    opaque identity; [client] and [fd_num] are the addresses the C code
    compares. *)
Record posix_lock := mk_lock {
  fl_type : lk_type;
  fl_start : Z;
  fl_end : Z;
  lk_flags : Z;
  blocked : bool;
  user_flock : gf_flock;
  fd_num : Z;
  frame : option nat;
  client : Z;
  owner : lkowner;
  client_pid : Z;
  blocking : bool
}.

(** A read or write that waits for a mandatory lock to go away. *)
Inductive rw_fop := GF_FOP_READ | GF_FOP_WRITE.

Record pl_rw_req := mk_rw {
  rw_stub : nat;
  rw_op : rw_fop;
  rw_region : posix_lock
}.

Inductive mlk_mode := MLK_NONE | MLK_FILE_BASED | MLK_FORCED | MLK_OPTIMAL.

Record pl_inode := mk_inode {
  ext_list : list posix_lock;
  rw_list : list pl_rw_req;
  reservelk_list : list posix_lock;
  blocked_calls : list posix_lock;
  metalk_list : list nat;
  queued_locks : list posix_lock;
  mandatory : bool;
  migrated : bool
}.

(** What leaves the translator: a reply to an lk call, or a resumed read or
    write. *)
Inductive event :=
| Unwind_lk (fr : option nat) (op_ret op_errno : Z) (fl : gf_flock)
| Resume_rw (rw : pl_rw_req)
| Wind_rw (fr : option nat)
| Unwind_rw (fr : option nat) (op_errno : Z).

Definition LLONG_MAX : Z := 2 ^ 63 - 1.
Definition EAGAIN : Z := 11.
Definition EINVAL : Z := 22.
Definition EREMOTE : Z := 66.
Definition GF_LK_MANDATORY : Z := 1.

(** Field updates. *)
Definition set_blocked (b : bool) (l : posix_lock) : posix_lock :=
  mk_lock (fl_type l) (fl_start l) (fl_end l) (lk_flags l) b (user_flock l)
    (fd_num l) (frame l) (client l) (owner l) (client_pid l) (blocking l).

Definition set_range (s e : Z) (l : posix_lock) : posix_lock :=
  mk_lock (fl_type l) s e (lk_flags l) (blocked l) (user_flock l)
    (fd_num l) (frame l) (client l) (owner l) (client_pid l) (blocking l).

Definition set_type (t : lk_type) (l : posix_lock) : posix_lock :=
  mk_lock t (fl_start l) (fl_end l) (lk_flags l) (blocked l) (user_flock l)
    (fd_num l) (frame l) (client l) (owner l) (client_pid l) (blocking l).

Definition set_user_flock (f : gf_flock) (l : posix_lock) : posix_lock :=
  mk_lock (fl_type l) (fl_start l) (fl_end l) (lk_flags l) (blocked l) f
    (fd_num l) (frame l) (client l) (owner l) (client_pid l) (blocking l).

Definition set_frame (fr : option nat) (l : posix_lock) : posix_lock :=
  mk_lock (fl_type l) (fl_start l) (fl_end l) (lk_flags l) (blocked l)
    (user_flock l) (fd_num l) fr (client l) (owner l) (client_pid l) (blocking l).

Definition set_ext_list (e : list posix_lock) (i : pl_inode) : pl_inode :=
  mk_inode e (rw_list i) (reservelk_list i) (blocked_calls i) (metalk_list i)
    (queued_locks i) (mandatory i) (migrated i).

Definition set_rw_list (r : list pl_rw_req) (i : pl_inode) : pl_inode :=
  mk_inode (ext_list i) r (reservelk_list i) (blocked_calls i) (metalk_list i)
    (queued_locks i) (mandatory i) (migrated i).

Definition set_queued_locks (q : list posix_lock) (i : pl_inode) : pl_inode :=
  mk_inode (ext_list i) (rw_list i) (reservelk_list i) (blocked_calls i)
    (metalk_list i) q (mandatory i) (migrated i).

Definition set_reserve (r b : list posix_lock) (i : pl_inode) : pl_inode :=
  mk_inode (ext_list i) (rw_list i) r b (metalk_list i)
    (queued_locks i) (mandatory i) (migrated i).

(** ** Operations of common.c *)

Definition new_posix_lock (flock : gf_flock) (client client_pid : Z)
    (owner : lkowner) (fd : Z) (lk_flags : Z) (blocking : bool) : posix_lock :=
  let fl_end := if l_len flock =? 0 then LLONG_MAX
                else l_start flock + l_len flock - 1 in
  mk_lock (l_type flock) (l_start flock) fl_end lk_flags false flock fd None
    client owner client_pid blocking.

Definition posix_lock_to_flock (l : posix_lock) (flock : gf_flock) : gf_flock :=
  mk_flock (fl_type l) (l_whence flock) (fl_start l)
    (if fl_end l =? LLONG_MAX then 0 else fl_end l - fl_start l + 1)
    (l_pid (user_flock l)) (owner l).

(** [posix_lock_to_flock (l, &l->user_flock)]. *)
Definition refresh_flock (l : posix_lock) : posix_lock :=
  set_user_flock (posix_lock_to_flock l (user_flock l)) l.

Definition __insert_lock (ext : list posix_lock) (l : posix_lock) : list posix_lock :=
  ext ++ [l].

Definition locks_overlap (l1 l2 : posix_lock) : bool :=
  (fl_start l2 <=? fl_end l1) && (fl_start l1 <=? fl_end l2).

Definition same_owner (l1 l2 : posix_lock) : bool :=
  is_same_lkowner (owner l1) (owner l2) && (client l1 =? client l2).

Definition __delete_unlck_locks (ext : list posix_lock) : list posix_lock :=
  filter (fun l => fl_type l <> F_UNLCK) ext.

Definition add_locks (l1 l2 dst : posix_lock) : posix_lock :=
  refresh_flock
    (set_range (Z.min (fl_start l1) (fl_start l2))
               (Z.max (fl_end l1) (fl_end l2)) dst).

(** The non-NULL slots of [struct _values], in order. *)
Definition subtract_locks (big small : posix_lock) : list posix_lock :=
  if (fl_start big =? fl_start small) && (fl_end big =? fl_end small) then
    let uf := user_flock big in
    [set_user_flock
       (mk_flock (fl_type small) (l_whence uf) (l_start uf) (l_len uf)
          (l_pid uf) (l_owner uf))
       (set_type (fl_type small) big)]
  else if (fl_start big <? fl_start small) && (fl_end small <? fl_end big) then
    [refresh_flock (set_range (fl_start big) (fl_start small - 1) big);
     small;
     refresh_flock (set_range (fl_end small + 1) (fl_end big) big)]
  else if fl_start small =? fl_start big then
    [refresh_flock (set_range (fl_end small + 1) (fl_end big) big); small]
  else if fl_end small =? fl_end big then
    [refresh_flock (set_range (fl_start big) (fl_start small - 1) big); small]
  else [].

Fixpoint first_conflicting_overlap (ext : list posix_lock) (lock : posix_lock)
    : option posix_lock :=
  match ext with
  | [] => None
  | l :: rest =>
      if blocked l then first_conflicting_overlap rest lock
      else if locks_overlap l lock then
        if same_owner l lock then first_conflicting_overlap rest lock
        else if lk_type_eqb (fl_type l) F_WRLCK || lk_type_eqb (fl_type lock) F_WRLCK
        then Some l
        else first_conflicting_overlap rest lock
      else first_conflicting_overlap rest lock
  end.

Fixpoint first_overlap (ext : list posix_lock) (lock : posix_lock)
    : option posix_lock :=
  match ext with
  | [] => None
  | l :: rest =>
      if blocked l then first_overlap rest lock
      else if locks_overlap l lock then Some l
      else first_overlap rest lock
  end.

Fixpoint __is_lock_grantable (ext : list posix_lock) (lock : posix_lock) : bool :=
  match ext with
  | [] => true
  | l :: rest =>
      if negb (blocked l) && locks_overlap lock l &&
         ((lk_type_eqb (fl_type l) F_WRLCK || lk_type_eqb (fl_type lock) F_WRLCK)
          && negb (lk_type_eqb (fl_type lock) F_UNLCK)
          && negb (same_owner l lock))
      then false
      else __is_lock_grantable rest lock
  end.

(** The loop of [__insert_and_merge] up to the point where it acts: what it
    does, and for the two cases that take [conf] out of the list, the list
    without it. *)
Inductive merge_action :=
| Act_insert
| Act_destroy
| Act_merge (rest : list posix_lock) (conf : posix_lock)
| Act_split (rest : list posix_lock) (conf : posix_lock).

Fixpoint merge_scan (seen todo : list posix_lock) (lock : posix_lock) : merge_action :=
  match todo with
  | [] => if lk_type_eqb (fl_type lock) F_UNLCK then Act_destroy else Act_insert
  | conf :: t =>
      if blocked conf then merge_scan (seen ++ [conf]) t lock
      else if negb (locks_overlap conf lock) then merge_scan (seen ++ [conf]) t lock
      else if same_owner conf lock then
        if lk_type_eqb (fl_type conf) (fl_type lock) && (lk_flags conf =? lk_flags lock)
        then Act_merge (seen ++ t) conf
        else Act_split (seen ++ t) conf
      else if lk_type_eqb (fl_type lock) F_UNLCK then merge_scan (seen ++ [conf]) t lock
      else if lk_type_eqb (fl_type conf) F_RDLCK && lk_type_eqb (fl_type lock) F_RDLCK
      then Act_insert
      else merge_scan (seen ++ [conf]) t lock
  end.

(** One activation of [__insert_and_merge]; [self] is the recursive call. *)
Definition insert_and_merge_body
    (self : list posix_lock * posix_lock -> list posix_lock)
    (arg : list posix_lock * posix_lock) : list posix_lock :=
  let '(ext, lock) := arg in
  match merge_scan [] ext lock with
  | Act_insert => __insert_lock ext lock
  | Act_destroy => ext
  | Act_merge rest conf => self (rest, refresh_flock (add_locks lock conf lock))
  | Act_split rest conf =>
      __delete_unlck_locks
        (foldl (fun e p => self (e, p)) rest
           (subtract_locks (add_locks lock conf conf) lock))
  end.

(** Bytes a lock spans, and the bytes a list of locks spans (overlaps counted
    as often as they occur): the measure of the recursion. *)
Definition lock_len (l : posix_lock) : Z := fl_end l - fl_start l + 1.
Definition total_len (ext : list posix_lock) : Z :=
  foldr (fun l n => lock_len l + n) 0 ext.

Definition merge_fuel (ext : list posix_lock) (lock : posix_lock) : nat :=
  Z.to_nat (Z.log2_up (total_len ext + lock_len lock + 1)).

Definition __insert_and_merge (ext : list posix_lock) (lock : posix_lock)
    : list posix_lock :=
  bfix (merge_fuel ext lock) insert_and_merge_body (fun arg => fst arg) (ext, lock).

(** First loop of [__grant_blocked_locks]: blocked locks that overlap no
    granted lock leave the list. *)
Fixpoint grant_candidates (seen todo : list posix_lock)
    : list posix_lock * list posix_lock :=
  match todo with
  | [] => (seen, [])
  | l :: t =>
      if blocked l then
        match first_overlap (seen ++ l :: t) l with
        | Some _ => grant_candidates (seen ++ [l]) t
        | None =>
            let '(ext, tmp) := grant_candidates seen t in
            (ext, set_blocked false l :: tmp)
        end
      else grant_candidates (seen ++ [l]) t
  end.

Definition zero_flock : gf_flock := mk_flock F_RDLCK 0 0 0 0 [].

(** Second loop: each candidate is granted or queued again.  [granted] is the
    list of replies, last granted first. *)
Fixpoint grant_loop (tmp ext : list posix_lock)
    (granted : list (option nat * gf_flock))
    : list posix_lock * list (option nat * gf_flock) :=
  match tmp with
  | [] => (ext, granted)
  | l :: t =>
      if __is_lock_grantable ext l then
        let l' := set_frame None l in
        grant_loop t (__insert_and_merge ext l')
          ((frame l, posix_lock_to_flock l' zero_flock) :: granted)
      else grant_loop t (__insert_lock ext (set_blocked true l)) granted
  end.

Definition __grant_blocked_locks (ext : list posix_lock)
    : list posix_lock * list (option nat * gf_flock) :=
  let '(ext1, tmp) := grant_candidates [] ext in grant_loop tmp ext1 [].

Definition unwind_granted (granted : list (option nat * gf_flock)) : list event :=
  map (fun g => Unwind_lk (fst g) 0 0 (snd g)) granted.

Definition grant_blocked_locks (i : pl_inode) : pl_inode * list event :=
  let '(ext, granted) := __grant_blocked_locks (ext_list i) in
  (set_ext_list ext i, unwind_granted granted).

Definition pl_send_prelock_unlock (i : pl_inode) (old_lock : posix_lock)
    : pl_inode * list event :=
  let uf := user_flock old_lock in
  let flock := mk_flock F_UNLCK (l_whence uf) (l_start uf) (l_len uf) (l_pid uf) [] in
  let unlock_lock :=
    new_posix_lock flock (client old_lock) (client_pid old_lock) (owner old_lock)
      (fd_num old_lock) (lk_flags old_lock) false in
  let ext1 := __insert_and_merge (ext_list i) unlock_lock in
  let '(ext2, granted) := __grant_blocked_locks ext1 in
  (set_ext_list ext2 i, unwind_granted granted).

(** ** Operations of posix.c *)

Section Priv.
(** [priv->mandatory_mode]. *)
Variable mandatory_mode : mlk_mode.

Fixpoint __rw_allowable (ext : list posix_lock) (region : posix_lock) (op : rw_fop)
    : bool :=
  match ext with
  | [] => true
  | l :: rest =>
      if negb (blocked l) && locks_overlap l region && negb (same_owner l region) then
        match op, fl_type l with
        | GF_FOP_READ, F_RDLCK | GF_FOP_READ, F_UNLCK => __rw_allowable rest region op
        | _, _ =>
            match mandatory_mode with
            | MLK_OPTIMAL =>
                if Z.land (lk_flags l) GF_LK_MANDATORY =? 0
                then __rw_allowable rest region op else false
            | _ => false
            end
        end
      else __rw_allowable rest region op
  end.

(** The loop of [do_blocked_rw]: what stays queued, and what is resumed. *)
Fixpoint rw_split (ext : list posix_lock) (rws : list pl_rw_req)
    : list pl_rw_req * list pl_rw_req :=
  match rws with
  | [] => ([], [])
  | rw :: t =>
      let '(keep, wind) := rw_split ext t in
      if __rw_allowable ext (rw_region rw) (rw_op rw)
      then (keep, rw :: wind) else (rw :: keep, wind)
  end.

Definition do_blocked_rw (i : pl_inode) : pl_inode * list event :=
  let '(keep, wind) := rw_split (ext_list i) (rw_list i) in
  (set_rw_list keep i, map Resume_rw wind).

Definition pl_metalock_is_active (i : pl_inode) : bool :=
  match metalk_list i with [] => false | _ => true end.

Definition __pl_queue_lock (i : pl_inode) (reqlock : posix_lock) : pl_inode :=
  set_queued_locks (queued_locks i ++ [reqlock]) i.

(** [pl_setlk]: the inode, the return value and the calls made. *)
Definition pl_setlk (i : pl_inode) (lock : posix_lock) (can_block : bool)
    : pl_inode * Z * list event :=
  let '(i1, ev1) :=
    if can_block && negb (__is_lock_grantable (ext_list i) lock)
    then pl_send_prelock_unlock i lock else (i, []) in
  let finish (i2 : pl_inode) (ret : Z) :=
    let '(i3, ev2) := grant_blocked_locks i2 in
    let '(i4, ev3) := do_blocked_rw i3 in
    (i4, ret, ev1 ++ ev2 ++ ev3) in
  if __is_lock_grantable (ext_list i1) lock then
    if pl_metalock_is_active i1 then (__pl_queue_lock i1 lock, -2, ev1)
    else finish (set_ext_list (__insert_and_merge (ext_list i1) lock) i1) 0
  else if can_block then
    if pl_metalock_is_active i1 then (__pl_queue_lock i1 lock, -2, ev1)
    else finish
           (set_ext_list (__insert_lock (ext_list i1) (set_blocked true lock)) i1)
           (-1)
  else finish i1 (-1).

Definition pl_getlk (ext : list posix_lock) (lock : posix_lock) : posix_lock :=
  match first_conflicting_overlap ext lock with
  | None => set_type F_UNLCK lock
  | Some conf => conf
  end.

Definition pl_locks_by_fd (i : pl_inode) (fd : Z) : bool :=
  existsb (fun l => fd_num l =? fd) (ext_list i).

Definition delete_locks_of_fd (i : pl_inode) (fd : Z) : pl_inode * list event :=
  let keep := filter (fun l => fd_num l <> fd) (ext_list i) in
  let failed := filter (fun l => fd_num l = fd /\ blocked l = true) (ext_list i) in
  let ev1 := map (fun l => Unwind_lk (frame l) (-1) EAGAIN (user_flock l)) failed in
  let '(i2, ev2) := grant_blocked_locks (set_ext_list keep i) in
  let '(i3, ev3) := do_blocked_rw i2 in
  (i3, ev1 ++ ev2 ++ ev3).

Definition owned_by (client_ : Z) (owner_ : lkowner) (l : posix_lock) : bool :=
  (client l =? client_) && is_same_lkowner (owner l) owner_.

Definition __delete_locks_of_owner (ext : list posix_lock) (client_ : Z)
    (owner_ : lkowner) : list posix_lock :=
  filter (fun l => blocked l = true \/ owned_by client_ owner_ l = false) ext.

(** [pl_flush], up to the wind to the child: the error it unwinds with, if
    any, and the calls made before that. *)
Definition pl_flush (i : pl_inode) (client_ : Z) (lk_owner : lkowner) (fd : Z)
    : pl_inode * option Z * list event :=
  if migrated i then (i, Some EREMOTE, [])
  else match lk_owner with
  | [] => let '(i1, ev) := delete_locks_of_fd i fd in (i1, None, ev)
  | _ =>
      let i1 := set_ext_list (__delete_locks_of_owner (ext_list i) client_ lk_owner) i in
      let '(i2, ev2) := grant_blocked_locks i1 in
      let '(i3, ev3) := do_blocked_rw i2 in
      (i3, None, ev2 ++ ev3)
  end.

Definition pl_is_mandatory_locking_enabled (i : pl_inode) : bool :=
  match mandatory_mode with
  | MLK_FILE_BASED => mandatory i
  | MLK_FORCED | MLK_OPTIMAL => true
  | MLK_NONE => false
  end.

(** [pl_is_fop_allowed]: allowed or not, and [can_block] when not. *)
Definition pl_is_fop_allowed (ext : list posix_lock) (region : posix_lock)
    (nonblock : bool) (op : rw_fop) : bool * bool :=
  if __rw_allowable ext region op then (true, true) else (false, negb nonblock).

(** The last byte of the region, an off_t: the size of a read is a size_t, that of
    a write the int of [iov_length].  The sum is reduced to 64 bits, also for a write,
    where C leaves a sum past the largest off_t undefined. *)
Definition region_end (op : rw_fop) (offset size : Z) : Z :=
  match op with
  | GF_FOP_READ => wrap_s64 (offset + size - 1)
  | GF_FOP_WRITE => wrap_s64 (offset + s32 size - 1)
  end.

(** [pl_readv] and [pl_writev] share their body: [size] is the requested size
    of a read and the sum of the vectors of a write, [nonblock] the O_NONBLOCK flag
    of the fd. *)
Definition pl_rw (op : rw_fop) (i : pl_inode) (fr : nat) (pid client_ : Z)
    (lk_owner : lkowner) (fd : Z) (nonblock : bool) (offset size : Z)
    : pl_inode * list event :=
  let enabled := pl_is_mandatory_locking_enabled i && negb (pid <? 0) in
  if negb enabled then (i, [Wind_rw (Some fr)])
  else
    let region :=
      mk_lock F_RDLCK offset (region_end op offset size) 0 false zero_flock fd None client_
        lk_owner pid false in
    let '(allowed, can_block) := pl_is_fop_allowed (ext_list i) region nonblock op in
    if allowed then (i, [Wind_rw (Some fr)])
    else if negb can_block then (i, [Unwind_rw (Some fr) EAGAIN])
    else (set_rw_list (rw_list i ++ [mk_rw fr op region]) i, []).

Definition pl_readv := pl_rw GF_FOP_READ.
Definition pl_writev := pl_rw GF_FOP_WRITE.

(** *** Reserve locks, as far as an lk call meets them (reservelk.c) *)

Definition reservelks_equal (l1 l2 : posix_lock) : bool :=
  (fl_start l1 =? fl_start l2) && (fl_end l1 =? fl_end l2).

(** The result of [__matching_reservelk].  When the list is not empty and no
    entry matches, the loop runs to its end and the function returns the list
    head cast to a lock: [Match_head]. *)
Inductive reserve_match :=
| Match_null
| Match_lock (rest : list posix_lock) (conf : posix_lock)
| Match_head.

Fixpoint reserve_scan (seen todo : list posix_lock) (lock : posix_lock) : reserve_match :=
  match todo with
  | [] => Match_head
  | l :: t => if reservelks_equal l lock then Match_lock (seen ++ t) l
              else reserve_scan (seen ++ [l]) t lock
  end.

Definition __matching_reservelk (i : pl_inode) (lock : posix_lock) : reserve_match :=
  match reservelk_list i with
  | [] => Match_null
  | l => reserve_scan [] l lock
  end.

(** [pl_verify_reservelk] with [__reservelk_conflict]: [None] when the code
    reads the list head as a lock, which is undefined. *)
Definition pl_verify_reservelk (i : pl_inode) (lock : posix_lock) (can_block : bool)
    : option (pl_inode * Z) :=
  match __matching_reservelk i lock with
  | Match_null => Some (i, 0)
  | Match_head => None
  | Match_lock rest conf =>
      if is_same_lkowner (owner lock) (owner conf)
      then Some (set_reserve rest (blocked_calls i) i, 0)
      else Some (set_reserve (reservelk_list i)
                   (blocked_calls i ++ [set_blocked can_block lock]) i, -1)
  end.

(** The commands of [pl_lk] modelled here. *)
Inductive lk_cmd := F_GETLK | F_SETLK | F_SETLKW.

Definition set_flock_range (s len : Z) (f : gf_flock) : gf_flock :=
  mk_flock (l_type f) (l_whence f) s len (l_pid f) (l_owner f).

Definition set_flock_type (t : lk_type) (f : gf_flock) : gf_flock :=
  mk_flock t (l_whence f) (l_start f) (l_len f) (l_pid f) (l_owner f).

(** The range check of [pl_lk] and the rewriting of negative lengths. *)
Definition normalize_flock (flock : gf_flock) : option gf_flock :=
  if (l_start flock <? 0) || (wrap_s64 (l_start flock + l_len flock) <? 0) then None
  else if l_len flock <? 0
  then Some (set_flock_range (l_start flock + l_len flock) (Z.abs (l_len flock)) flock)
  else Some flock.

Definition pl_lk (i : pl_inode) (fr : nat) (client_ pid : Z) (lk_owner : lkowner)
    (fd flags : Z) (cmd : lk_cmd) (flock0 : gf_flock) : option (pl_inode * list event) :=
  match normalize_flock flock0 with
  | None => Some (i, [Unwind_lk (Some fr) (-1) EINVAL flock0])
  | Some flock =>
      let reqlock := new_posix_lock flock client_ pid lk_owner fd flags false in
      match cmd with
      | F_GETLK =>
          let conf := pl_getlk (ext_list i) reqlock in
          Some (i, [Unwind_lk (Some fr) 0 0 (posix_lock_to_flock conf flock)])
      | F_SETLK | F_SETLKW =>
          let can_block := match cmd with F_SETLKW => true | _ => false end in
          let reqlock :=
            mk_lock (fl_type reqlock) (fl_start reqlock) (fl_end reqlock) flags false
              flock fd (Some fr) client_ lk_owner pid can_block in
          if migrated i then Some (i, [Unwind_lk (Some fr) (-1) EREMOTE flock])
          else
            match pl_verify_reservelk i reqlock can_block with
            | None => None
            | Some (i1, ret) =>
                if ret <? 0 then Some (i1, [])
                else
                  let '(i2, ret2, ev) := pl_setlk i1 reqlock can_block in
                  if ret2 =? -1 then
                    if can_block && negb (lk_type_eqb (l_type flock) F_UNLCK)
                    then Some (i2, ev)
                    else Some (i2, ev ++ [Unwind_lk (Some fr) (-1) EAGAIN flock])
                  else if ret2 =? -2 then Some (i2, ev)
                  else if (ret2 =? 0) && lk_type_eqb (l_type flock) F_UNLCK then
                    let t := if pl_locks_by_fd i2 fd then F_RDLCK else F_UNLCK in
                    Some (i2, ev ++ [Unwind_lk (Some fr) 0 0 (set_flock_type t flock)])
                  else Some (i2, ev ++ [Unwind_lk (Some fr) 0 0 flock])
            end
      end
  end.
End Priv.
