(* ===== verification/PosixLocksFacts.v ===== *)
(** * Facts about the fcntl lock table

    The merge algorithm of [PosixLocks] terminates, implements the byte-wise
    meaning of fcntl locks, and keeps locks of different owners compatible;
    the handlers built on it preserve the table's invariant. *)

From S2P Require Import Prelude PosixLocks.
Open Scope Z_scope.

(** ** Owners, ranges, claims *)

Definition own (l : posix_lock) : Z * lkowner := (client l, owner l).
Definition covers (l : posix_lock) (b : Z) : Prop := fl_start l <= b <= fl_end l.
Definition valid (l : posix_lock) : Prop := fl_start l <= fl_end l.

(** Owner [o] holds byte [b] with type [t]. *)
Definition holds (ext : list posix_lock) (o : Z * lkowner) (t : lk_type) (b : Z) : Prop :=
  exists l, l ∈ ext /\ blocked l = false /\ own l = o /\ fl_type l = t /\ covers l b.

Lemma lk_type_eqb_spec a b : reflect (a = b) (lk_type_eqb a b).
Proof. unfold lk_type_eqb. destruct (bool_decide_reflect (a = b)); constructor; auto. Qed.

Lemma is_same_lkowner_spec a b : is_same_lkowner a b = true <-> a = b.
Proof.
  unfold is_same_lkowner. revert b.
  induction a as [|x a IH]; intros [|y b]; cbn; try easy.
  rewrite !andb_true_iff, Z.eqb_eq. specialize (IH b).
  rewrite andb_true_iff in IH. split.
  - intros (Hl & -> & Hf). f_equal. apply IH; auto.
  - intros [= -> ->]. destruct IH as [_ IH]. destruct (IH eq_refl). auto.
Qed.

Lemma same_owner_spec l1 l2 : reflect (own l1 = own l2) (same_owner l1 l2).
Proof.
  apply iff_reflect. unfold same_owner, own.
  rewrite andb_true_iff, is_same_lkowner_spec, Z.eqb_eq.
  split; [intros [=]; auto | intros [-> ->]; auto].
Qed.

Lemma locks_overlap_spec l1 l2 :
  reflect (fl_start l2 <= fl_end l1 /\ fl_start l1 <= fl_end l2) (locks_overlap l1 l2).
Proof. apply iff_reflect. unfold locks_overlap. rewrite andb_true_iff, !Z.leb_le. tauto. Qed.

Lemma locks_overlap_comm l1 l2 : locks_overlap l1 l2 = locks_overlap l2 l1.
Proof. unfold locks_overlap. apply andb_comm. Qed.

(** Case analysis on the boolean tests of the code. *)
Ltac tests :=
  repeat match goal with
  | |- context [lk_type_eqb ?a ?b] => destruct (lk_type_eqb_spec a b)
  | |- context [same_owner ?a ?b] => destruct (same_owner_spec a b)
  | |- context [locks_overlap ?a ?b] => destruct (locks_overlap_spec a b)
  | |- context [?a =? ?b] => destruct (Z.eqb_spec a b)
  | |- context [?a <? ?b] => destruct (Z.ltb_spec a b)
  | |- context [?a <=? ?b] => destruct (Z.leb_spec a b)
  end; cbn [andb orb negb].

Lemma overlap_common_byte l1 l2 :
  valid l1 -> valid l2 ->
  (fl_start l2 <= fl_end l1 /\ fl_start l1 <= fl_end l2) <->
  exists b, covers l1 b /\ covers l2 b.
Proof.
  unfold valid, covers. intros V1 V2. split.
  - intros []. exists (Z.max (fl_start l1) (fl_start l2)). lia.
  - intros (b & ? & ?). lia.
Qed.

(** ** What the scan of the list finds *)

Definition touches (lock conf : posix_lock) : Prop :=
  blocked conf = false /\ (fl_start lock <= fl_end conf /\ fl_start conf <= fl_end lock).

Definition scan_spec (seen todo : list posix_lock) (lock : posix_lock)
    (a : merge_action) : Prop :=
  match a with
  | Act_destroy =>
      fl_type lock = F_UNLCK /\
      forall l, l ∈ todo -> touches lock l -> own l <> own lock
  | Act_insert =>
      fl_type lock <> F_UNLCK /\
      ((forall l, l ∈ todo -> touches lock l -> own l <> own lock) \/
       fl_type lock = F_RDLCK /\
       exists l, l ∈ todo /\ touches lock l /\ own l <> own lock)
  | Act_merge rest conf =>
      touches lock conf /\ own conf = own lock /\ fl_type conf = fl_type lock /\
      exists t1 t2, todo = t1 ++ conf :: t2 /\ rest = seen ++ t1 ++ t2
  | Act_split rest conf =>
      touches lock conf /\ own conf = own lock /\
      exists t1 t2, todo = t1 ++ conf :: t2 /\ rest = seen ++ t1 ++ t2
  end.

Lemma scan_spec_cons seen conf todo lock a :
  (touches lock conf -> own conf <> own lock) ->
  scan_spec (seen ++ [conf]) todo lock a -> scan_spec seen (conf :: todo) lock a.
Proof.
  intros Hc. destruct a as [| |rest c|rest c]; cbn.
  - intros (Ht & [Hn | (HR & l & Hin & H)]); split; auto; [left | right].
    + intros l [->|Hl]%elem_of_cons; auto.
    + split; auto. exists l. rewrite elem_of_cons. auto.
  - intros (Ht & Hn). split; auto. intros l [->|Hl]%elem_of_cons; auto.
  - intros (? & ? & ? & t1 & t2 & -> & ->). do 3 (split; [auto|]).
    exists (conf :: t1), t2. rewrite <- app_assoc. auto.
  - intros (? & ? & t1 & t2 & -> & ->). do 2 (split; [auto|]).
    exists (conf :: t1), t2. rewrite <- app_assoc. auto.
Qed.

Lemma merge_scan_spec seen todo lock :
  scan_spec seen todo lock (merge_scan seen todo lock).
Proof.
  revert seen. induction todo as [|conf t IH]; intros seen; cbn [merge_scan].
  { tests; cbn; split; auto; [|left]; intros l []%elem_of_nil. }
  destruct (blocked conf) eqn:Hb.
  { apply scan_spec_cons; [intros [? _]; congruence | apply IH]. }
  destruct (locks_overlap_spec conf lock) as [Ho|Ho]; cbn [negb].
  2:{ apply scan_spec_cons; [intros [_ ?]; tauto | apply IH]. }
  destruct (same_owner_spec conf lock) as [Hs|Hs].
  { tests; cbn; repeat split; auto; try tauto; exists [], t; auto. }
  destruct (lk_type_eqb_spec (fl_type lock) F_UNLCK) as [Hu|Hu].
  { apply scan_spec_cons; [auto | apply IH]. }
  destruct (lk_type_eqb_spec (fl_type conf) F_RDLCK) as [Hcr|Hcr]; cbn [andb].
  2:{ apply scan_spec_cons; [auto | apply IH]. }
  destruct (lk_type_eqb_spec (fl_type lock) F_RDLCK) as [Hlr|Hlr].
  2:{ apply scan_spec_cons; [auto | apply IH]. }
  cbn. split; auto. right. split; auto. exists conf.
  rewrite elem_of_cons. unfold touches. tauto.
Qed.

(** ** The pieces of a split *)

Section Pieces.
Context (lock conf : posix_lock).
Context (Vl : valid lock) (Vc : valid conf).
Context (Hb : blocked conf = false).
Context (Ho : fl_start lock <= fl_end conf /\ fl_start conf <= fl_end lock).
Context (Hw : own conf = own lock).

Abbreviation pieces := (subtract_locks (add_locks lock conf conf) lock).

Lemma pieces_shape p :
  p ∈ pieces ->
  valid p /\ own p = own lock /\ (blocked lock = false -> blocked p = false) /\
  (fl_type p = fl_type lock /\ (forall b, covers p b <-> covers lock b) \/
   fl_type p = fl_type conf /\ (forall b, covers p b -> covers conf b /\ ~ covers lock b)).
Proof.
  unfold subtract_locks, add_locks, refresh_flock, valid, covers, own in *. cbn.
  tests; intros Hp; repeat (apply elem_of_cons in Hp as [->|Hp]);
    try (apply elem_of_nil in Hp; contradiction); cbn;
    (repeat split; auto; try lia);
    first [ left; split; [reflexivity | intros; lia]
          | right; split; [reflexivity | intros; lia] ].
Qed.

(** Choose the [n]-th piece, whose type is the wanted one. *)
Local Ltac pick n :=
  eexists; split; [apply (list_elem_of_lookup_2 _ n); reflexivity|];
  cbn; split; [reflexivity|].

Lemma pieces_lock :
  exists p, p ∈ pieces /\ fl_type p = fl_type lock /\ (forall b, covers p b <-> covers lock b).
Proof.
  unfold subtract_locks, add_locks, refresh_flock, valid, covers in *. cbn.
  tests; try lia; first [pick 0%nat | pick 1%nat]; intros; lia.
Qed.

Lemma pieces_rest b :
  covers conf b -> ~ covers lock b ->
  exists p, p ∈ pieces /\ fl_type p = fl_type conf /\ covers p b.
Proof.
  unfold subtract_locks, add_locks, refresh_flock, valid, covers in *. cbn.
  intros Hc Hn. destruct (Z.lt_ge_cases b (fl_start lock)); tests; try lia.
  all: first [ pick 0%nat; lia | pick 2%nat; lia ].
Qed.

Lemma pieces_total : total_len pieces < lock_len conf + lock_len lock.
Proof.
  unfold subtract_locks, add_locks, refresh_flock, valid, total_len, lock_len in *.
  cbn. tests; cbn; lia.
Qed.
End Pieces.

(** ** The recursion as a big-step relation

    A derivation of [Merges ext lock ext'] is a terminating run of
    [__insert_and_merge] from list [ext] to list [ext']. *)

Inductive Merges : list posix_lock -> posix_lock -> list posix_lock -> Prop :=
| Merges_insert ext lock :
    merge_scan [] ext lock = Act_insert -> Merges ext lock (__insert_lock ext lock)
| Merges_destroy ext lock :
    merge_scan [] ext lock = Act_destroy -> Merges ext lock ext
| Merges_merge ext lock rest conf ext' :
    merge_scan [] ext lock = Act_merge rest conf ->
    Merges rest (refresh_flock (add_locks lock conf lock)) ext' ->
    Merges ext lock ext'
| Merges_split ext lock rest conf ext' :
    merge_scan [] ext lock = Act_split rest conf ->
    MergesAll rest (subtract_locks (add_locks lock conf conf) lock) ext' ->
    Merges ext lock (__delete_unlck_locks ext')
with MergesAll : list posix_lock -> list posix_lock -> list posix_lock -> Prop :=
| MergesAll_nil ext : MergesAll ext [] ext
| MergesAll_cons ext p ps ext1 ext2 :
    Merges ext p ext1 -> MergesAll ext1 ps ext2 -> MergesAll ext (p :: ps) ext2.

Scheme Merges_mut := Minimality for Merges Sort Prop
with MergesAll_mut := Minimality for MergesAll Sort Prop.

(** What [scan_spec] says of the two cases that take a lock out. *)
Lemma scan_merge ext lock rest conf :
  merge_scan [] ext lock = Act_merge rest conf ->
  touches lock conf /\ own conf = own lock /\ fl_type conf = fl_type lock /\
  ext ≡ₚ conf :: rest.
Proof.
  intros E. pose proof (merge_scan_spec [] ext lock) as H. rewrite E in H.
  destruct H as (? & ? & ? & t1 & t2 & -> & ->). do 3 (split; [auto|]).
  cbn. symmetry. apply Permutation_middle.
Qed.

Lemma scan_split ext lock rest conf :
  merge_scan [] ext lock = Act_split rest conf ->
  touches lock conf /\ own conf = own lock /\ ext ≡ₚ conf :: rest.
Proof.
  intros E. pose proof (merge_scan_spec [] ext lock) as H. rewrite E in H.
  destruct H as (? & ? & t1 & t2 & -> & ->). do 2 (split; [auto|]).
  cbn. symmetry. apply Permutation_middle.
Qed.

(** The merged lock. *)
Abbreviation merged lock conf := (refresh_flock (add_locks lock conf lock)).

Lemma merged_spec lock conf :
  valid lock -> valid conf ->
  fl_start lock <= fl_end conf /\ fl_start conf <= fl_end lock ->
  valid (merged lock conf) /\ own (merged lock conf) = own lock /\
  fl_type (merged lock conf) = fl_type lock /\
  blocked (merged lock conf) = blocked lock /\
  (forall b, covers (merged lock conf) b <-> covers lock b \/ covers conf b) /\
  lock_len (merged lock conf) < lock_len lock + lock_len conf.
Proof.
  unfold valid, own, covers, lock_len. cbn. intros. repeat split; try lia.
Qed.

(** *** Sizes *)

#[export] Instance total_len_Proper : Proper ((≡ₚ) ==> (=)) total_len.
Proof. unfold total_len. induction 1; cbn; lia. Qed.

Lemma total_len_cons l ext : total_len (l :: ext) = lock_len l + total_len ext.
Proof. reflexivity. Qed.

Lemma total_len_nil : total_len [] = 0.
Proof. reflexivity. Qed.

Arguments total_len : simpl never.

#[export] Hint Rewrite total_len_cons total_len_nil : locks.

Lemma total_len_app e1 e2 : total_len (e1 ++ e2) = total_len e1 + total_len e2.
Proof.
  induction e1 as [|l e1 IH]; [reflexivity|].
  rewrite <- app_comm_cons, !total_len_cons. lia.
Qed.

#[export] Hint Rewrite total_len_app : locks.

Lemma total_len_nonneg ext : Forall valid ext -> 0 <= total_len ext.
Proof. induction 1; autorewrite with locks; unfold valid, lock_len in *; lia. Qed.

Lemma delete_unlck_valid ext : Forall valid ext -> Forall valid (__delete_unlck_locks ext).
Proof. apply Forall_filter. Qed.

Lemma delete_unlck_total ext :
  Forall valid ext -> total_len (__delete_unlck_locks ext) <= total_len ext.
Proof.
  unfold __delete_unlck_locks. induction 1 as [|l ext Hl Hv IH]; [reflexivity|].
  rewrite filter_cons. destruct (decide _); autorewrite with locks; [lia|].
  unfold valid, lock_len in *. lia.
Qed.

Definition sized_post ext lock ext' : Prop :=
  Forall valid ext -> valid lock ->
  Forall valid ext' /\ total_len ext' <= total_len ext + lock_len lock.

Definition sized_post_all ext ps ext' : Prop :=
  Forall valid ext -> Forall valid ps ->
  Forall valid ext' /\ total_len ext' <= total_len ext + total_len ps.

Lemma pieces_valid lock conf :
  valid lock -> valid conf -> blocked conf = false ->
  fl_start lock <= fl_end conf /\ fl_start conf <= fl_end lock ->
  own conf = own lock ->
  Forall valid (subtract_locks (add_locks lock conf conf) lock).
Proof.
  intros. apply Forall_forall. intros p Hp.
  edestruct (pieces_shape lock conf) as (V & _); eauto.
Qed.

Lemma Merges_sized ext lock ext' : Merges ext lock ext' -> sized_post ext lock ext'.
Proof.
  revert ext lock ext'. apply (Merges_mut sized_post sized_post_all);
    unfold sized_post, sized_post_all.
  - intros ext lock _ Hv Hl. unfold __insert_lock. autorewrite with locks.
    split; [apply Forall_app; auto | lia].
  - intros ext lock _ Hv Hl. split; auto. unfold valid, lock_len in *. lia.
  - intros ext lock rest conf ext' E _ IH Hv Hl.
    destruct (scan_merge _ _ _ _ E) as ((Hb & Ho) & Hw & Ht & HP).
    rewrite HP in Hv. apply Forall_cons in Hv as [Hc Hr].
    destruct (merged_spec lock conf Hl Hc Ho) as (Vm & _ & _ & _ & _ & Lm).
    destruct (IH Hr Vm). rewrite HP. autorewrite with locks. split; [auto | lia].
  - intros ext lock rest conf ext' E _ IH Hv Hl.
    destruct (scan_split _ _ _ _ E) as ((Hb & Ho) & Hw & HP).
    rewrite HP in Hv. apply Forall_cons in Hv as [Hc Hr].
    destruct IH as [V' T']; [auto | apply pieces_valid; auto |].
    pose proof (pieces_total lock conf Hl Hc Ho).
    pose proof (delete_unlck_total ext' V').
    rewrite HP. autorewrite with locks. split; [apply delete_unlck_valid; auto | lia].
  - intros ext Hv _. autorewrite with locks. split; [auto | lia].
  - intros ext p ps ext1 ext2 _ IH1 _ IH2 Hv [Hp Hps]%Forall_cons.
    destruct (IH1 Hv Hp) as [V1 T1]. destruct (IH2 V1 Hps) as [V2 T2].
    autorewrite with locks. split; [auto | lia].
Qed.

(** *** Termination *)

Definition merge_approx (k : Z)
    (f : list posix_lock * posix_lock -> list posix_lock) : Prop :=
  forall ext lock, Forall valid ext -> valid lock ->
    total_len ext + lock_len lock < k -> Merges ext lock (f (ext, lock)).

Lemma merge_approx_all k f ext ps :
  merge_approx k f -> Forall valid ext -> Forall valid ps ->
  total_len ext + total_len ps < k ->
  MergesAll ext ps (foldl (fun e p => f (e, p)) ext ps).
Proof.
  intros Hf. revert ext. induction ps as [|p ps IH]; intros ext Hv Hps Hk.
  { constructor. }
  apply Forall_cons in Hps as [Hp Hps]. autorewrite with locks in *. cbn [foldl].
  pose proof (total_len_nonneg ps Hps).
  assert (M : Merges ext p (f (ext, p))) by (apply Hf; auto; lia).
  destruct (Merges_sized _ _ _ M Hv Hp) as [V1 T1].
  econstructor; [exact M | apply IH; auto; lia].
Qed.

Lemma merge_approx_step k f :
  0 <= k -> merge_approx k f -> merge_approx (k + 1) (insert_and_merge_body f).
Proof.
  intros _ Hf ext lock Hv Hl Hk. unfold insert_and_merge_body.
  destruct (merge_scan [] ext lock) as [| |rest conf|rest conf] eqn:E.
  - apply Merges_insert; auto.
  - apply Merges_destroy; auto.
  - destruct (scan_merge _ _ _ _ E) as ((Hb & Ho) & Hw & Ht & HP).
    pose proof Hv as Hv'. rewrite HP in Hv'. apply Forall_cons in Hv' as [Hc Hr].
    destruct (merged_spec lock conf Hl Hc Ho) as (Vm & _ & _ & _ & _ & Lm).
    rewrite HP in Hk. autorewrite with locks in Hk.
    eapply Merges_merge; [exact E | apply Hf; auto; lia].
  - destruct (scan_split _ _ _ _ E) as ((Hb & Ho) & Hw & HP).
    pose proof Hv as Hv'. rewrite HP in Hv'. apply Forall_cons in Hv' as [Hc Hr].
    pose proof (pieces_total lock conf Hl Hc Ho). rewrite HP in Hk. autorewrite with locks in Hk.
    eapply Merges_split; [exact E|].
    eapply merge_approx_all; eauto; [apply pieces_valid; auto | lia].
Qed.

(** Lemma behind the termination property: the fuel of [__insert_and_merge] is
    never exhausted. *)
Lemma insert_and_merge_runs ext lock :
  Forall valid ext -> valid lock -> Merges ext lock (__insert_and_merge ext lock).
Proof.
  intros Hv Hl. unfold __insert_and_merge.
  pose proof (bfix_approx insert_and_merge_body merge_approx merge_approx_step
                (merge_fuel ext lock) 0 (fun arg => fst arg)) as H.
  cbn beta in H. rewrite Z.add_0_l in H. apply H; [lia | | auto | auto |].
  - intros e l Hve Hle. pose proof (total_len_nonneg e Hve).
    unfold valid, lock_len in *. lia.
  - pose proof (total_len_nonneg ext Hv).
    assert (0 < lock_len lock) by (unfold valid, lock_len in *; lia).
    unfold merge_fuel. rewrite Z2Nat.id by apply Z.log2_up_nonneg.
    pose proof (Z.log2_up_spec (total_len ext + lock_len lock + 1)). lia.
Qed.

(** ** The byte-wise meaning of a lock request

    Who holds which byte with which type, as a predicate, and the effect that
    fcntl gives a request: on the bytes of the request the requester's type is
    replaced (and dropped by an unlock); nothing else changes. *)

Definition claims := Z * lkowner -> lk_type -> Z -> Prop.

Definition updated (lock : posix_lock) (H : claims) : claims := fun o t b =>
  own lock = o /\ covers lock b /\ t = fl_type lock /\ t <> F_UNLCK \/
  ~ (own lock = o /\ covers lock b) /\ H o t b.

Definition claims_eq (H1 H2 : claims) : Prop := forall o t b, H1 o t b <-> H2 o t b.

#[export] Instance claims_eq_equiv : Equivalence claims_eq.
Proof.
  split.
  - intros H o t b. reflexivity.
  - intros H1 H2 E o t b. symmetry. apply E.
  - intros H1 H2 H3 E1 E2 o t b. rewrite (E1 o t b). apply E2.
Qed.

#[export] Instance updated_Proper lock : Proper (claims_eq ==> claims_eq) (updated lock).
Proof. intros H1 H2 E o t b. unfold updated. rewrite (E o t b). reflexivity. Qed.

#[export] Instance holds_Proper : Proper ((≡ₚ) ==> claims_eq) holds.
Proof. intros e1 e2 E o t b. unfold holds. setoid_rewrite E. reflexivity. Qed.

#[export] Instance covers_dec l b : Decision (covers l b).
Proof. unfold covers. apply _. Defined.

Lemma updated_in lock H o t b :
  own lock = o -> covers lock b -> updated lock H o t b <-> t = fl_type lock /\ t <> F_UNLCK.
Proof. unfold updated. tauto. Qed.

Lemma updated_out lock H o t b :
  ~ (own lock = o /\ covers lock b) -> updated lock H o t b <-> H o t b.
Proof. unfold updated. tauto. Qed.

Lemma holds_cons l ext o t b :
  holds (l :: ext) o t b <->
  (blocked l = false /\ own l = o /\ fl_type l = t /\ covers l b) \/ holds ext o t b.
Proof.
  unfold holds. split.
  - intros (x & [->|Hx]%elem_of_cons & H); [left; tauto | right; eauto].
  - intros [H | (x & Hx & H)]; [exists l | exists x]; rewrite elem_of_cons; tauto.
Qed.

Lemma holds_snoc l ext o t b :
  holds (ext ++ [l]) o t b <->
  (blocked l = false /\ own l = o /\ fl_type l = t /\ covers l b) \/ holds ext o t b.
Proof. rewrite <- holds_cons. apply holds_Proper, Permutation_sym, Permutation_cons_append. Qed.

(** No owner holds a byte with two types. *)
Definition uniq (H : claims) : Prop :=
  forall o t1 t2 b, H o t1 b -> H o t2 b -> t1 = t2.

Lemma uniq_updated lock H : uniq H -> uniq (updated lock H).
Proof.
  intros U o t1 t2 b. unfold updated. intros [?|[? ?]] [?|[? ?]]; try tauto;
    [intuition congruence | eauto].
Qed.

#[export] Instance uniq_Proper : Proper (claims_eq ==> iff) uniq.
Proof.
  intros H1 H2 E. unfold uniq. setoid_rewrite (fun o t b => E o t b). reflexivity.
Qed.

Definition no_unlck (ext : list posix_lock) : Prop :=
  Forall (fun l => fl_type l <> F_UNLCK) ext.

Lemma no_unlck_holds ext o t b : no_unlck ext -> holds ext o t b -> t <> F_UNLCK.
Proof.
  unfold no_unlck. rewrite Forall_forall. intros H (l & Hl & _ & _ & <- & _). auto.
Qed.

(** The requests for which the merge loop does all of the replacement: it stops
    at the first read lock of another owner when the request is a read, so a
    read request over an own write lock is only safe when there is no other
    owner. *)
Definition mergeable (H : claims) (lock : posix_lock) : Prop :=
  fl_type lock = F_RDLCK ->
  (forall t b, H (own lock) t b -> covers lock b -> t = F_RDLCK) \/
  (forall o t b, H o t b -> o = own lock).

#[export] Instance mergeable_Proper : Proper (claims_eq ==> eq ==> iff) mergeable.
Proof.
  intros H1 H2 E l ? <-. unfold mergeable. setoid_rewrite (fun o t b => E o t b).
  reflexivity.
Qed.

Fixpoint chain_ok (H : claims) (ps : list posix_lock) : Prop :=
  match ps with
  | [] => True
  | p :: ps => mergeable H p /\ chain_ok (updated p H) ps
  end.

#[export] Instance chain_ok_Proper : Proper (claims_eq ==> eq ==> iff) chain_ok.
Proof.
  intros H1 H2 E ps ? <-. revert H1 H2 E.
  induction ps as [|p ps IH]; intros H1 H2 E; cbn; [reflexivity|].
  rewrite E at 1. rewrite (IH (updated p H1) (updated p H2)); [reflexivity|].
  now apply updated_Proper.
Qed.

Abbreviation updated_all := (foldl (fun H p => updated p H)).

Lemma updated_all_Proper ps H1 H2 :
  claims_eq H1 H2 -> claims_eq (updated_all H1 ps) (updated_all H2 ps).
Proof.
  revert H1 H2. induction ps as [|p ps IH]; intros H1 H2 E; cbn; [exact E|].
  apply IH. now apply updated_Proper.
Qed.

(** *** One removed lock *)

Section Removed.
Context (ext rest : list posix_lock) (lock conf : posix_lock).
Context (HP : ext ≡ₚ conf :: rest).
Context (Hb : blocked conf = false) (Hw : own conf = own lock).

Lemma holds_removed o t b :
  holds ext o t b <->
  (own lock = o /\ fl_type conf = t /\ covers conf b) \/ holds rest o t b.
Proof. rewrite (holds_Proper _ _ HP o t b), holds_cons, Hw. tauto. Qed.

Lemma uniq_removed : uniq (holds ext) -> uniq (holds rest).
Proof. intros U o t1 t2 b ? ?. apply (U o t1 t2 b); apply holds_removed; auto. Qed.

(** On the bytes of the removed lock its owner holds exactly its type. *)
Lemma holds_on_removed t b :
  uniq (holds ext) -> covers conf b -> holds ext (own lock) t b <-> t = fl_type conf.
Proof.
  intros U Hc. split.
  - intros H. apply (U _ _ _ _ H), holds_removed. auto.
  - intros ->. apply holds_removed. auto.
Qed.

Lemma holds_off_removed o t b :
  ~ (own lock = o /\ covers conf b) -> holds ext o t b <-> holds rest o t b.
Proof. rewrite holds_removed. tauto. Qed.
End Removed.

(** *** Splits *)

Lemma updated_all_app H ps qs :
  updated_all H (ps ++ qs) = updated_all (updated_all H ps) qs.
Proof. apply foldl_app. Qed.

Lemma chain_ok_app H ps qs :
  chain_ok H (ps ++ qs) <-> chain_ok H ps /\ chain_ok (updated_all H ps) qs.
Proof. revert H. induction ps as [|p ps IH]; intros H; cbn; [tauto|]. rewrite IH. tauto. Qed.

Section Split.
Context (ext rest : list posix_lock) (lock conf : posix_lock).
Context (HP : ext ≡ₚ conf :: rest).
Context (Hb : blocked conf = false) (Hw : own conf = own lock).
Context (Vl : valid lock) (Vc : valid conf).
Context (Ho : fl_start lock <= fl_end conf /\ fl_start conf <= fl_end lock).
Context (Hu : fl_type conf <> F_UNLCK) (U : uniq (holds ext)).

(** What is left of [conf] outside [lock]. *)
Definition remnant (p : posix_lock) : Prop :=
  own p = own lock /\ fl_type p = fl_type conf /\
  forall b, covers p b -> covers conf b /\ ~ covers lock b.

Local Ltac rems :=
  repeat apply Forall_cons_2; try apply Forall_nil_2;
  (split; [cbn; auto | split; [cbn; auto | cbn; intros; lia]]).
Local Ltac shape :=
  split; [reflexivity|]; split; [rems|]; split; [rems|];
  do 2 (split; [cbn; auto|]); split; [cbn; intros; lia|].

Lemma pieces_cases :
  exists L m R, subtract_locks (add_locks lock conf conf) lock = L ++ m :: R /\
    Forall remnant L /\ Forall remnant R /\
    own m = own lock /\ fl_type m = fl_type lock /\
    (forall b, covers m b <-> covers lock b) /\
    (forall b, covers conf b -> ~ covers lock b -> Exists (fun p => covers p b) (L ++ R)).
Proof.
  unfold subtract_locks, add_locks, refresh_flock, remnant, own, valid, covers in *.
  cbn in *. injection Hw as Hw1 Hw2.
  assert (Hpair : (client conf, owner conf) = (client lock, owner lock)) by congruence.
  destruct (_ && _) eqn:E1.
  { apply andb_true_iff in E1 as [?%Z.eqb_eq ?%Z.eqb_eq].
    eexists [], _, []. cbn. shape. intros; exfalso; lia. }
  destruct (Z.ltb_spec (Z.min (fl_start lock) (fl_start conf)) (fl_start lock)),
    (Z.ltb_spec (fl_end lock) (Z.max (fl_end lock) (fl_end conf))); cbn.
  - eexists [_], _, [_]. cbn. shape.
    intros b ? ?. destruct (Z.lt_ge_cases b (fl_start lock));
      [apply Exists_cons_hd | apply Exists_cons_tl, Exists_cons_hd]; cbn; lia.
  - destruct (Z.eqb_spec (fl_start lock) (Z.min (fl_start lock) (fl_start conf))); [lia|].
    destruct (Z.eqb_spec (fl_end lock) (Z.max (fl_end lock) (fl_end conf))); [|lia].
    eexists [_], _, []. cbn. shape.
    intros b ? ?. apply Exists_cons_hd; cbn; lia.
  - destruct (Z.eqb_spec (fl_start lock) (Z.min (fl_start lock) (fl_start conf))); [|lia].
    eexists [_], _, []. cbn. shape.
    intros b ? ?. apply Exists_cons_hd; cbn; lia.
  - apply andb_false_iff in E1 as [?%Z.eqb_neq|?%Z.eqb_neq]; lia.
Qed.

Lemma remnants_cover ps b :
  Forall remnant ps -> Exists (fun p => covers p b) ps -> covers conf b /\ ~ covers lock b.
Proof.
  rewrite Forall_forall, Exists_exists. intros H (p & Hp & Hc).
  destruct (H p Hp) as (_ & _ & Hx). auto.
Qed.

Lemma updated_remnants H ps o t b :
  Forall remnant ps ->
  updated_all H ps o t b <->
  (own lock = o /\ Exists (fun p => covers p b) ps /\ t = fl_type conf) \/
  (~ (own lock = o /\ Exists (fun p => covers p b) ps) /\ H o t b).
Proof.
  intros Hr. revert H. induction Hr as [|p ps (Hp1 & Hp2 & Hp3) Hr IH]; intros H; cbn [foldl].
  { rewrite Exists_nil. tauto. }
  rewrite IH, Exists_cons. unfold updated. rewrite Hp1, Hp2.
  destruct (decide (own lock = o)), (decide (covers p b)),
    (decide (Exists (fun p => covers p b) ps)); try tauto.
  split; [intros [?|?]; tauto|]. intros [(_ & _ & ->)|?]; [|tauto]. tauto.
Qed.

Lemma chain_remnants H ps :
  Forall remnant ps ->
  (forall t b, covers conf b -> ~ covers lock b -> H (own lock) t b -> t = fl_type conf) ->
  chain_ok H ps.
Proof.
  intros Hr. revert H. induction Hr as [|p ps (Hp1 & Hp2 & Hp3) Hr IH]; intros H HQ; cbn; auto.
  split.
  - intros HR. left. rewrite Hp1. intros t b Ht Hc. destruct (Hp3 b Hc).
    pose proof (HQ t b). intuition congruence.
  - apply IH. intros t b ? ?. unfold updated. rewrite Hp1, Hp2.
    intros [(_ & _ & ? & _)|[_ ?]]; eauto.
Qed.

Lemma rest_on_conf t b :
  covers conf b -> holds rest (own lock) t b -> t = fl_type conf.
Proof.
  intros Hc H. apply (holds_on_removed ext rest lock conf HP Hb Hw t b U Hc).
  apply (holds_removed ext rest lock conf HP Hb Hw). auto.
Qed.

Lemma split_updated :
  claims_eq (updated_all (holds rest) (subtract_locks (add_locks lock conf conf) lock))
            (updated lock (holds ext)).
Proof.
  destruct pieces_cases as (L & m & R & -> & HL & HR & Hm1 & Hm2 & Hm3 & Hcov).
  intros o t b. rewrite updated_all_app. cbn [foldl].
  rewrite updated_remnants by auto. unfold updated at 1.
  rewrite updated_remnants by auto. rewrite Hm1, Hm2, Hm3.
  destruct (decide (own lock = o)) as [<-|Hno].
  2:{ rewrite updated_out by tauto.
      rewrite (holds_off_removed ext rest lock conf HP Hb Hw) by tauto. tauto. }
  specialize (Hcov b). rewrite Exists_app in Hcov.
  assert (Hrefl : own lock = own lock) by reflexivity.
  pose proof (remnants_cover L b HL) as HLc. pose proof (remnants_cover R b HR) as HRc.
  destruct (decide (covers lock b)) as [Hl|Hl].
  { rewrite updated_in by auto. tauto. }
  rewrite updated_out by tauto.
  destruct (decide (covers conf b)) as [Hc|Hc].
  - rewrite (holds_on_removed ext rest lock conf HP Hb Hw) by auto.
    pose proof (rest_on_conf t b Hc).
    destruct (decide (Exists (fun p => covers p b) R)); tauto.
  - rewrite (holds_off_removed ext rest lock conf HP Hb Hw) by tauto. tauto.
Qed.

Lemma split_chain :
  mergeable (holds ext) lock ->
  chain_ok (holds rest) (subtract_locks (add_locks lock conf conf) lock).
Proof.
  intros HM. destruct pieces_cases as (L & m & R & -> & HL & HR & Hm1 & Hm2 & Hm3 & _).
  assert (Hin : forall o t b, holds rest o t b -> holds ext o t b).
  { intros. apply (holds_removed ext rest lock conf HP Hb Hw). auto. }
  apply chain_ok_app. split; [|split].
  - apply chain_remnants; auto. intros t b Hc _. apply rest_on_conf; auto.
  - intros Hr. rewrite Hm2 in Hr. rewrite Hm1. destruct (HM Hr) as [H|H]; [left | right].
    + intros t b. rewrite updated_remnants, Hm3 by auto. intros [(_ & He & ->)|[_ Hh]] Hl; eauto.
      destruct (remnants_cover L b HL He). tauto.
    + intros o t b. rewrite updated_remnants by auto. intros [(? & _)|[_ Hh]]; eauto.
  - apply chain_remnants; auto. intros t b Hc Hn. unfold updated.
    rewrite updated_remnants, Hm1, Hm3 by auto.
    intros [?|[_ [(_ & _ & ?)|[_ ?]]]]; [tauto | auto | apply (rest_on_conf t b); auto].
Qed.
End Split.

(** *** The merge implements the meaning *)

Lemma Merges_no_unlck ext lock ext' :
  Merges ext lock ext' -> no_unlck ext -> no_unlck ext'.
Proof.
  unfold no_unlck. revert ext lock ext'.
  apply (Merges_mut (fun e _ e' => Forall (fun l => fl_type l <> F_UNLCK) e ->
                                   Forall (fun l => fl_type l <> F_UNLCK) e')
                    (fun e _ e' => Forall (fun l => fl_type l <> F_UNLCK) e ->
                                   Forall (fun l => fl_type l <> F_UNLCK) e')); auto.
  - intros ext lock E H. pose proof (merge_scan_spec [] ext lock) as S. rewrite E in S.
    destruct S as [Ht _]. apply Forall_app; auto.
  - intros ext lock rest conf ext' E _ IH H. apply IH.
    destruct (scan_merge _ _ _ _ E) as (_ & _ & _ & HP). rewrite HP in H.
    inversion H; auto.
  - intros ext lock rest conf ext' E _ IH H. apply Forall_forall.
    unfold __delete_unlck_locks. intros l [Hl _]%list_elem_of_filter. auto.
Qed.

Lemma holds_delete_unlck ext o t b :
  holds (__delete_unlck_locks ext) o t b <-> holds ext o t b /\ t <> F_UNLCK.
Proof.
  unfold holds, __delete_unlck_locks. setoid_rewrite list_elem_of_filter. split.
  - intros (l & [? ?] & ? & ? & <- & ?). eauto 10.
  - intros ((l & ? & ? & ? & <- & ?) & ?). exists l. auto 10.
Qed.

(** An owner without a touching lock holds none of the bytes. *)
Lemma no_touch_no_hold ext lock t b :
  (forall l, l ∈ ext -> touches lock l -> own l <> own lock) ->
  covers lock b -> ~ holds ext (own lock) t b.
Proof.
  intros H Hc (l & Hl & Hb & Ho & _ & Hlb). apply (H l Hl); auto.
  split; auto. unfold covers in *. lia.
Qed.

Definition refines_post ext lock ext' : Prop :=
  Forall valid ext -> valid lock -> blocked lock = false -> no_unlck ext ->
  uniq (holds ext) -> mergeable (holds ext) lock ->
  claims_eq (holds ext') (updated lock (holds ext)).

Definition refines_post_all ext ps ext' : Prop :=
  Forall valid ext -> Forall valid ps -> Forall (fun p => blocked p = false) ps ->
  no_unlck ext -> uniq (holds ext) -> chain_ok (holds ext) ps ->
  claims_eq (holds ext') (updated_all (holds ext) ps).

Lemma refines_insert ext lock :
  merge_scan [] ext lock = Act_insert -> refines_post ext lock (__insert_lock ext lock).
Proof.
  intros E Hv Hl Hb Hn U HM o t b. unfold __insert_lock. rewrite holds_snoc.
  pose proof (merge_scan_spec [] ext lock) as S. rewrite E in S. destruct S as [Ht S].
  destruct (decide (own lock = o)) as [<-|Hno]; [|rewrite updated_out; tauto].
  destruct (decide (covers lock b)) as [Hc|Hc]; [|rewrite updated_out; tauto].
  rewrite updated_in by auto. split.
  2:{ intros [-> _]. auto. }
  intros [(_ & _ & <- & _)|H]; [auto|]. destruct S as [S|(HR & l & Hin & [Hlb Hlo] & Hw)].
  { exfalso. eapply no_touch_no_hold; eauto. }
  destruct (HM HR) as [HM'|HM'].
  - rewrite HR. split; [eauto | rewrite (HM' t b H Hc); discriminate].
  - exfalso. apply Hw. rewrite Forall_forall in Hv. specialize (Hv l Hin).
    apply (HM' (own l) (fl_type l) (fl_start l)). exists l.
    unfold covers, valid in *. repeat split; auto; lia.
Qed.

Lemma refines_destroy ext lock :
  merge_scan [] ext lock = Act_destroy -> refines_post ext lock ext.
Proof.
  intros E Hv Hl Hb Hn U HM o t b.
  pose proof (merge_scan_spec [] ext lock) as S. rewrite E in S. destruct S as [Ht S].
  destruct (decide (own lock = o)) as [<-|Hno]; [|rewrite updated_out; tauto].
  destruct (decide (covers lock b)) as [Hc|Hc]; [|rewrite updated_out; tauto].
  rewrite updated_in by auto. rewrite Ht. split; [|tauto].
  intros H. exfalso. eapply no_touch_no_hold; eauto.
Qed.

Lemma refines_merge ext lock rest conf ext' :
  merge_scan [] ext lock = Act_merge rest conf ->
  refines_post rest (merged lock conf) ext' -> refines_post ext lock ext'.
Proof.
  intros E IH Hv Hl Hb Hn U HM o t b.
  destruct (scan_merge _ _ _ _ E) as ((Hcb & Ho) & Hw & Ht & HP).
  unfold no_unlck in *. rewrite HP in Hv, Hn.
  apply Forall_cons in Hv as [Hc Hr]. apply Forall_cons in Hn as [Hnc Hnr].
  destruct (merged_spec lock conf Hl Hc Ho) as (Vm & Om & Tm & Bm & Cm & _).
  assert (IH' : claims_eq (holds ext') (updated (merged lock conf) (holds rest))).
  { apply IH; auto; [eapply uniq_removed; eauto|]. intros HR. rewrite Tm in HR. rewrite Om.
    destruct (HM HR) as [H|H]; [left; intros t0 b0 Hh Hcv | right; intros o0 t0 b0 Hh].
    - apply Cm in Hcv as [Hcv|Hcv].
      + apply (H t0 b0); auto. apply (holds_removed ext rest lock conf); auto.
      + apply (rest_on_conf ext rest lock conf) in Hh; auto. congruence.
    - apply (H o0 t0 b0), (holds_removed ext rest lock conf); auto. }
  rewrite (IH' o t b). clear IH IH'. destruct (decide (own lock = o)) as [<-|Hno].
  2:{ rewrite !updated_out by (rewrite ?Om; tauto).
      symmetry. apply (holds_off_removed ext rest lock conf); tauto. }
  destruct (decide (covers lock b)) as [Hcv|Hcv].
  { rewrite !updated_in by (rewrite ?Cm; auto). rewrite Tm. tauto. }
  rewrite (updated_out lock) by tauto. destruct (decide (covers conf b)) as [Hcc|Hcc].
  - rewrite updated_in by (rewrite ?Cm; auto).
    rewrite (holds_on_removed ext rest lock conf) by auto. rewrite Tm, <- Ht.
    intuition congruence.
  - rewrite updated_out by (rewrite Cm; tauto).
    symmetry. apply (holds_off_removed ext rest lock conf); tauto.
Qed.

Lemma refines_split ext lock rest conf ext' :
  merge_scan [] ext lock = Act_split rest conf ->
  MergesAll rest (subtract_locks (add_locks lock conf conf) lock) ext' ->
  refines_post_all rest (subtract_locks (add_locks lock conf conf) lock) ext' ->
  refines_post ext lock (__delete_unlck_locks ext').
Proof.
  intros E HA IH Hv Hl Hb Hn U HM o t b.
  destruct (scan_split _ _ _ _ E) as ((Hcb & Ho) & Hw & HP).
  unfold no_unlck in *. rewrite HP in Hv, Hn.
  apply Forall_cons in Hv as [Hc Hr]. apply Forall_cons in Hn as [Hnc Hnr].
  rewrite holds_delete_unlck.
  assert (IH' : claims_eq (holds ext') (updated_all (holds rest)
                  (subtract_locks (add_locks lock conf conf) lock))).
  { apply IH; auto.
    - apply pieces_valid; auto.
    - apply Forall_forall. intros p Hp.
      edestruct (pieces_shape lock conf) as (_ & _ & Hpb & _); eauto.
    - eapply uniq_removed; eauto.
    - apply (split_chain ext); auto. }
  rewrite (IH' o t b), (split_updated ext rest lock conf HP Hcb Hw Hl Hc Ho Hnc U o t b).
  split; [tauto|]. intros Hu. split; [exact Hu|].
  destruct Hu as [?|[_ Hh]]; [tauto|].
  eapply no_unlck_holds; [|exact Hh]. unfold no_unlck. rewrite HP. auto.
Qed.

Lemma Merges_refines ext lock ext' : Merges ext lock ext' -> refines_post ext lock ext'.
Proof.
  revert ext lock ext'. apply (Merges_mut refines_post refines_post_all).
  - apply refines_insert.
  - apply refines_destroy.
  - intros. eapply refines_merge; eauto.
  - intros. eapply refines_split; eauto.
  - intros ext _ _ _ _ _ _. reflexivity.
  - intros ext p ps ext1 ext2 M1 IH1 M2 IH2 Hv [Hp Hps]%Forall_cons
      [Hb Hbs]%Forall_cons Hn U [HM Hch].
    specialize (IH1 Hv Hp Hb Hn U HM).
    destruct (Merges_sized _ _ _ M1 Hv Hp) as [V1 _].
    cbn [foldl]. etransitivity; [apply IH2; auto|].
    4: { apply updated_all_Proper. exact IH1. }
    + eapply Merges_no_unlck; eauto.
    + rewrite IH1. apply uniq_updated. auto.
    + rewrite IH1. auto.
Qed.

(** ** Soundness of the merge without side conditions *)

Definition no_invention ext lock ext' : Prop :=
  Forall valid ext -> valid lock -> blocked lock = false ->
  forall o t b, holds ext' o t b ->
    holds ext o t b \/ own lock = o /\ fl_type lock = t /\ covers lock b.

Definition no_invention_all ext ps ext' : Prop :=
  Forall valid ext -> Forall valid ps -> Forall (fun p => blocked p = false) ps ->
  forall o t b, holds ext' o t b ->
    holds ext o t b \/ exists p, p ∈ ps /\ own p = o /\ fl_type p = t /\ covers p b.

Lemma pieces_unblocked lock conf :
  valid lock -> valid conf -> blocked conf = false -> blocked lock = false ->
  fl_start lock <= fl_end conf /\ fl_start conf <= fl_end lock ->
  own conf = own lock ->
  Forall (fun p => blocked p = false) (subtract_locks (add_locks lock conf conf) lock).
Proof.
  intros. apply Forall_forall. intros p Hp.
  edestruct (pieces_shape lock conf) as (_ & _ & Hpb & _); eauto.
Qed.

Lemma Merges_no_invention ext lock ext' : Merges ext lock ext' -> no_invention ext lock ext'.
Proof.
  revert ext lock ext'. apply (Merges_mut no_invention no_invention_all).
  - intros ext lock E _ _ Hb o t b. unfold __insert_lock. rewrite holds_snoc. tauto.
  - intros ext lock E _ _ Hb o t b. auto.
  - intros ext lock rest conf ext' E _ IH Hv Hl Hb o t b H.
    destruct (scan_merge _ _ _ _ E) as ((Hcb & Ho) & Hw & Ht & HP).
    rewrite HP in Hv. apply Forall_cons in Hv as [Hc Hr].
    destruct (merged_spec lock conf Hl Hc Ho) as (Vm & Om & Tm & Bm & Cm & _).
    rewrite (holds_removed ext rest lock conf HP Hcb Hw).
    destruct (IH Hr Vm ltac:(congruence) o t b H) as [?|(<- & <- & [?|?]%Cm)]; auto.
  - intros ext lock rest conf ext' E _ IH Hv Hl Hb o t b [H _]%holds_delete_unlck.
    destruct (scan_split _ _ _ _ E) as ((Hcb & Ho) & Hw & HP).
    rewrite HP in Hv. apply Forall_cons in Hv as [Hc Hr].
    rewrite (holds_removed ext rest lock conf HP Hcb Hw).
    destruct (IH Hr ltac:(apply pieces_valid; auto) ltac:(apply pieces_unblocked; auto)
                o t b H) as [?|(p & Hp & <- & <- & Hcov)]; auto.
    destruct (pieces_shape lock conf Hl Hc Hcb Ho Hw p Hp) as
      (_ & -> & _ & [[-> Hx]|[-> Hx]]); [right|left; left].
    + rewrite <- Hx. auto.
    + repeat split; auto; apply Hx; auto.
  - intros ext _ _ _ o t b. auto.
  - intros ext p ps ext1 ext2 M1 IH1 M2 IH2 Hv [Hp Hps]%Forall_cons
      [Hb Hbs]%Forall_cons o t b H.
    destruct (Merges_sized _ _ _ M1 Hv Hp) as [V1 _].
    destruct (IH2 V1 Hps Hbs o t b H) as [H1|(q & Hq & ?)].
    + destruct (IH1 Hv Hp Hb o t b H1) as [?|?]; [auto|].
      right. exists p. rewrite elem_of_cons. auto.
    + right. exists q. rewrite elem_of_cons. auto.
Qed.

(** Bytes that somebody holds stay held while nothing is unlocked. *)
Definition covered (ext : list posix_lock) (b : Z) : Prop := exists o t, holds ext o t b.

Definition keeps_cover ext lock ext' : Prop :=
  Forall valid ext -> valid lock -> blocked lock = false -> no_unlck ext ->
  fl_type lock <> F_UNLCK ->
  forall b, covered ext b \/ covers lock b -> covered ext' b.

Definition keeps_cover_all ext ps ext' : Prop :=
  Forall valid ext -> Forall valid ps -> Forall (fun p => blocked p = false) ps ->
  no_unlck ext -> Forall (fun p => fl_type p <> F_UNLCK) ps ->
  no_unlck ext' /\
  forall b, covered ext b \/ Exists (fun p => covers p b) ps -> covered ext' b.

Lemma Merges_keeps_cover ext lock ext' : Merges ext lock ext' -> keeps_cover ext lock ext'.
Proof.
  revert ext lock ext'. apply (Merges_mut keeps_cover keeps_cover_all).
  - intros ext lock E _ _ Hb _ _ b. unfold covered, __insert_lock.
    setoid_rewrite holds_snoc. intros [(o & t & ?)|?]; eauto 10.
  - intros ext lock E _ _ _ _ Hu b.
    pose proof (merge_scan_spec [] ext lock) as S. rewrite E in S. destruct S. contradiction.
  - intros ext lock rest conf ext' E _ IH Hv Hl Hb Hn Hu b H.
    destruct (scan_merge _ _ _ _ E) as ((Hcb & Ho) & Hw & Ht & HP).
    unfold no_unlck in *. rewrite HP in Hv, Hn. apply Forall_cons in Hv as [Hc Hr].
    apply Forall_cons in Hn as [_ Hn].
    destruct (merged_spec lock conf Hl Hc Ho) as (Vm & Om & Tm & Bm & Cm & _).
    apply IH; auto. rewrite Cm. destruct H as [(o & t & H)|H]; [|auto].
    apply (holds_removed ext rest lock conf HP Hcb Hw) in H as [(_ & _ & ?)|?]; auto.
    left. exists o, t. auto.
  - intros ext lock rest conf ext' E _ IH Hv Hl Hb Hn Hu b H.
    destruct (scan_split _ _ _ _ E) as ((Hcb & Ho) & Hw & HP).
    unfold no_unlck in *. rewrite HP in Hv, Hn. apply Forall_cons in Hv as [Hc Hr].
    apply Forall_cons in Hn as [Hnc Hn].
    destruct IH as [Hn' IH]; auto;
      [apply pieces_valid; auto | apply pieces_unblocked; auto | |].
    { apply Forall_forall. intros p Hp.
      destruct (pieces_shape lock conf Hl Hc Hcb Ho Hw p Hp) as
        (_ & _ & _ & [[-> _]|[-> _]]); auto. }
    unfold covered. setoid_rewrite holds_delete_unlck.
    destruct (IH b) as (o & t & Hh);
      [|exists o, t; split; [auto | exact (no_unlck_holds _ _ _ _ Hn' Hh)]].
    rewrite Exists_exists. destruct (decide (covers lock b)) as [Hlb|Hlb].
    { right. destruct (pieces_lock lock conf) as (p & Hp & _ & Hx); auto.
      exists p. rewrite Hx. auto. }
    destruct H as [(o & t & H)|H]; [|tauto].
    apply (holds_removed ext rest lock conf HP Hcb Hw) in H as [(_ & _ & Hcv)|?].
    + right. destruct (pieces_rest lock conf Hl Hc Ho b Hcv Hlb) as (p & Hp & _ & ?). eauto.
    + left. exists o, t. auto.
  - intros ext _ _ _ Hn _. split; [auto|]. intros b [?|?%Exists_nil]; tauto.
  - intros ext p ps ext1 ext2 M1 IH1 M2 IH2 Hv [Hp Hps]%Forall_cons
      [Hb Hbs]%Forall_cons Hn [Hu Hus]%Forall_cons.
    destruct (Merges_sized _ _ _ M1 Hv Hp) as [V1 _].
    destruct IH2 as [Hn2 IH2]; auto; [eapply Merges_no_unlck; eauto|].
    split; [auto|]. intros b H. apply IH2. rewrite Exists_cons in H.
    destruct H as [?|[?|?]]; auto; left; apply IH1; auto.
Qed.

(** Blocked requests are not touched by a merge. *)
Definition waiting (ext : list posix_lock) : list posix_lock :=
  filter (fun l => blocked l = true) ext.

Lemma waiting_delete_unlck ext : no_unlck ext -> waiting (__delete_unlck_locks ext) = waiting ext.
Proof.
  unfold waiting, __delete_unlck_locks. induction 1 as [|l ext Hl Hn IH]; [reflexivity|].
  rewrite (filter_cons (fun l => fl_type l <> F_UNLCK)), decide_True by auto.
  rewrite !filter_cons, IH. reflexivity.
Qed.

Lemma waiting_perm e1 e2 : e1 ≡ₚ e2 -> waiting e1 ≡ₚ waiting e2.
Proof. unfold waiting. intros ->. reflexivity. Qed.

Lemma waiting_app e1 e2 : waiting (e1 ++ e2) = waiting e1 ++ waiting e2.
Proof. apply filter_app. Qed.

Lemma Merges_waiting ext lock ext' :
  Merges ext lock ext' ->
  Forall valid ext -> valid lock -> blocked lock = false -> no_unlck ext ->
  no_unlck ext' /\ waiting ext' ≡ₚ waiting ext.
Proof.
  revert ext lock ext'. apply (Merges_mut
    (fun ext lock ext' => Forall valid ext -> valid lock -> blocked lock = false ->
       no_unlck ext -> no_unlck ext' /\ waiting ext' ≡ₚ waiting ext)
    (fun ext ps ext' => Forall valid ext -> Forall valid ps ->
       Forall (fun p => blocked p = false) ps ->
       no_unlck ext -> no_unlck ext' /\ waiting ext' ≡ₚ waiting ext)).
  - intros ext lock E Hv Hl Hb Hn. split.
    { eapply Merges_no_unlck; [apply Merges_insert|]; eauto. }
    unfold __insert_lock. rewrite waiting_app. unfold waiting at 2.
    rewrite filter_cons_False by congruence. cbn. rewrite app_nil_r. reflexivity.
  - auto.
  - intros ext lock rest conf ext' E _ IH Hv Hl Hb Hn.
    destruct (scan_merge _ _ _ _ E) as ((Hcb & Ho) & Hw & Ht & HP).
    unfold no_unlck in *. rewrite HP in Hv, Hn. apply Forall_cons in Hv as [Hc Hr].
    apply Forall_cons in Hn as [_ Hn].
    destruct (merged_spec lock conf Hl Hc Ho) as (Vm & Om & Tm & Bm & Cm & _).
    rewrite (waiting_perm ext _ HP). unfold waiting at 2.
    rewrite filter_cons_False by congruence. apply IH; auto.
  - intros ext lock rest conf ext' E _ IH Hv Hl Hb Hn.
    destruct (scan_split _ _ _ _ E) as ((Hcb & Ho) & Hw & HP).
    unfold no_unlck in *. rewrite HP in Hv, Hn. apply Forall_cons in Hv as [Hc Hr].
    apply Forall_cons in Hn as [Hnc Hn].
    destruct IH as [Hn' IH]; auto;
      [apply pieces_valid; auto | apply pieces_unblocked; auto |].
    rewrite waiting_delete_unlck by auto. split; [apply Forall_filter; auto|].
    rewrite (waiting_perm ext _ HP), IH. unfold waiting at 2.
    rewrite filter_cons_False by congruence. reflexivity.
  - auto.
  - intros ext p ps ext1 ext2 M1 IH1 M2 IH2 Hv [Hp Hps]%Forall_cons
      [Hb Hbs]%Forall_cons Hn.
    destruct (Merges_sized _ _ _ M1 Hv Hp) as [V1 _].
    destruct (IH1 Hv Hp Hb Hn) as [N1 W1]. destruct (IH2 V1 Hps Hbs N1) as [N2 W2].
    split; [auto | rewrite W2; auto].
Qed.
