(* ===== verification/PosixLocksInv.v ===== *)
(** * Invariant and behaviour of the fcntl lock handlers

    The invariant of an inode's lock table, its preservation by every handler
    of [PosixLocks], and what the handlers promise: locks of different owners
    stay compatible, blocked requests are neither lost nor answered twice, a
    blocked request always has a granted lock in its way, a flush leaves its
    owner without locks. *)

From S2P Require Import Prelude PosixLocks PosixLocksFacts.
Open Scope Z_scope.

(** ** The invariant *)

(** Two owners share a byte only if both read. *)
Definition exclusive (H : claims) : Prop :=
  forall o1 o2 t1 t2 b, H o1 t1 b -> H o2 t2 b -> o1 <> o2 -> t1 = F_RDLCK /\ t2 = F_RDLCK.

Record Inv (ext : list posix_lock) : Prop := {
  inv_valid : Forall valid ext;
  inv_no_unlck : no_unlck ext;
  inv_exclusive : exclusive (holds ext)
}.

(** The test [__is_lock_grantable] makes on one lock of the list. *)
Definition conflicts (lock l : posix_lock) : Prop :=
  touches lock l /\ own l <> own lock /\ fl_type lock <> F_UNLCK /\
  (fl_type l = F_WRLCK \/ fl_type lock = F_WRLCK).

Lemma grantable_cons l ext lock :
  __is_lock_grantable (l :: ext) lock = true <->
  ~ conflicts lock l /\ __is_lock_grantable ext lock = true.
Proof.
  unfold conflicts, touches. cbn [__is_lock_grantable].
  destruct (blocked l) eqn:Hb; cbn [negb andb]; [intuition congruence|].
  tests; intuition congruence.
Qed.

Lemma grantable_spec ext lock :
  __is_lock_grantable ext lock = true <-> forall l, l ∈ ext -> ~ conflicts lock l.
Proof.
  induction ext as [|l ext IH].
  { split; [intros _ l []%elem_of_nil | reflexivity]. }
  rewrite grantable_cons, IH. setoid_rewrite elem_of_cons. split.
  - intros [? ?] x [->|?]; auto.
  - intros H. split; auto.
Qed.

Lemma Inv_merge ext lock :
  Inv ext -> valid lock -> blocked lock = false ->
  __is_lock_grantable ext lock = true -> Inv (__insert_and_merge ext lock).
Proof.
  intros [Hv Hn He] Hl Hb Hg.
  pose proof (insert_and_merge_runs ext lock Hv Hl) as M.
  destruct (Merges_sized _ _ _ M Hv Hl) as [Hv' _].
  pose proof (Merges_no_unlck _ _ _ M Hn) as Hn'.
  split; auto.
  pose proof (Merges_no_invention _ _ _ M Hv Hl Hb) as HA.
  rewrite grantable_spec in Hg.
  assert (Hnew : forall o t b, own lock <> o -> covers lock b -> fl_type lock <> F_UNLCK ->
                   holds ext o t b -> t = F_RDLCK /\ fl_type lock = F_RDLCK).
  { intros o t b Hno Hc Hu Hh. pose proof (no_unlck_holds _ _ _ _ Hn Hh) as Ht.
    destruct Hh as (l & Hin & Hlb & <- & <- & Hlc).
    specialize (Hg l Hin). unfold conflicts, touches, covers in *.
    destruct (fl_type l), (fl_type lock); auto; try contradiction;
      exfalso; apply Hg; repeat split; auto; lia. }
  intros o1 o2 t1 t2 b H1 H2 Hne.
  pose proof (no_unlck_holds _ _ _ _ Hn' H1). pose proof (no_unlck_holds _ _ _ _ Hn' H2).
  destruct (HA _ _ _ H1) as [H1'|(<- & <- & Hc1)], (HA _ _ _ H2) as [H2'|(<- & <- & Hc2)].
  - eauto.
  - destruct (Hnew _ _ _ (not_eq_sym Hne) Hc2 ltac:(auto) H1'). auto.
  - destruct (Hnew _ _ _ Hne Hc1 ltac:(auto) H2'). auto.
  - congruence.
Qed.

(** An unlock needs no permission. *)
Lemma grantable_unlock ext lock : fl_type lock = F_UNLCK -> __is_lock_grantable ext lock = true.
Proof. intros Ht. apply grantable_spec. intros l _ (_ & _ & ? & _). auto. Qed.

(** Removing locks, or adding a blocked one, keeps the invariant. *)
Lemma holds_sub ext ext' :
  (forall l, l ∈ ext' -> blocked l = false -> l ∈ ext) ->
  forall o t b, holds ext' o t b -> holds ext o t b.
Proof. intros H o t b (l & Hl & Hb & Hx). exists l. auto. Qed.

Lemma Inv_sub ext ext' :
  Inv ext -> Forall valid ext' -> no_unlck ext' ->
  (forall l, l ∈ ext' -> blocked l = false -> l ∈ ext) -> Inv ext'.
Proof.
  intros [Hv Hn He] Hv' Hn' Hs. split; auto.
  intros o1 o2 t1 t2 b H1 H2 Hne.
  eapply (He o1 o2 t1 t2 b); eauto; eapply holds_sub; eauto.
Qed.

Lemma Inv_filter ext P `{forall l, Decision (P l)} : Inv ext -> Inv (filter P ext).
Proof.
  intros HI. apply (Inv_sub ext); auto.
  - apply Forall_filter, HI.
  - apply Forall_filter, HI.
  - intros l [_ Hl]%list_elem_of_filter. auto.
Qed.

Lemma Inv_block ext l :
  Inv ext -> valid l -> fl_type l <> F_UNLCK -> Inv (__insert_lock ext (set_blocked true l)).
Proof.
  intros HI Hl Ht. apply (Inv_sub ext); auto; unfold __insert_lock.
  - apply Forall_app. split; [apply HI | constructor; auto].
  - apply Forall_app. split; [apply HI | constructor; auto].
  - intros x [Hx| ->%list_elem_of_singleton]%elem_of_app; [auto | discriminate].
Qed.

(** ** Granting blocked requests *)

Lemma first_overlap_spec ext lock :
  match first_overlap ext lock with
  | Some l => l ∈ ext /\ touches lock l
  | None => forall l, l ∈ ext -> ~ touches lock l
  end.
Proof.
  unfold touches. induction ext as [|l ext IH]; cbn [first_overlap].
  { intros l []%elem_of_nil. }
  destruct (blocked l) eqn:Hb; [|destruct (locks_overlap_spec l lock) as [Ho|Ho]].
  - destruct (first_overlap ext lock).
    + rewrite elem_of_cons. tauto.
    + intros x [->|Hx]%elem_of_cons; [intros [? _]; congruence | auto].
  - rewrite elem_of_cons. tauto.
  - destruct (first_overlap ext lock).
    + rewrite elem_of_cons. tauto.
    + intros x [->|Hx]%elem_of_cons; [tauto | auto].
Qed.

(** A candidate is a formerly blocked request with its flag cleared. *)
Definition candidate_of (l l' : posix_lock) : Prop :=
  blocked l = true /\ l' = set_blocked false l.

Lemma grant_candidates_spec seen todo :
  let '(ext, tmp) := grant_candidates seen todo in
  exists kept cand,
    ext = seen ++ kept /\ todo ≡ₚ kept ++ cand /\ Forall2 candidate_of cand tmp /\
    (forall l, l ∈ kept -> blocked l = true ->
       exists g, g ∈ seen ++ todo /\ touches l g).
Proof.
  revert seen. induction todo as [|l t IH]; intros seen; cbn [grant_candidates].
  { exists [], []. cbn. rewrite app_nil_r. repeat split; auto. intros l []%elem_of_nil. }
  assert (Hkeep : (blocked l = true -> exists g, g ∈ seen ++ l :: t /\ touches l g) ->
    let '(ext, tmp) := grant_candidates (seen ++ [l]) t in
    exists kept cand,
      ext = seen ++ kept /\ l :: t ≡ₚ kept ++ cand /\ Forall2 candidate_of cand tmp /\
      (forall x, x ∈ kept -> blocked x = true ->
         exists g, g ∈ seen ++ l :: t /\ touches x g)).
  { intros Hl. specialize (IH (seen ++ [l])).
    destruct (grant_candidates (seen ++ [l]) t) as [ext tmp].
    destruct IH as (kept & cand & -> & HP & HF & Hg).
    exists (l :: kept), cand. rewrite <- !app_assoc in *. cbn in *. rewrite HP.
    repeat split; auto. intros x [->|Hx]%elem_of_cons; auto. }
  destruct (blocked l) eqn:Hb; [|apply Hkeep; congruence].
  pose proof (first_overlap_spec (seen ++ l :: t) l) as Hf.
  destruct (first_overlap (seen ++ l :: t) l) as [g|] eqn:Eo.
  { apply Hkeep. intros _. exists g. auto. }
  specialize (IH seen). destruct (grant_candidates seen t) as [ext tmp].
  destruct IH as (kept & cand & -> & HP & HF & Hg).
  exists kept, (l :: cand). repeat split; auto.
  - rewrite HP, <- Permutation_middle. reflexivity.
  - constructor; [split; auto | auto].
  - intros x Hx Hxb. destruct (Hg x Hx Hxb) as (g & Hg1 & Hg2). exists g.
    rewrite elem_of_app, elem_of_cons in *. tauto.
Qed.

(** A request that may be granted: a well-formed lock, not an unlock. *)
Definition request (l : posix_lock) : Prop :=
  valid l /\ blocked l = false /\ fl_type l <> F_UNLCK.

#[export] Instance touches_dec l g : Decision (touches l g).
Proof. unfold touches. apply _. Defined.

(** A granted lock stands in the way of [l]. *)
Definition obstructed (ext : list posix_lock) (l : posix_lock) : Prop :=
  exists b, covers l b /\ covered ext b.

Lemma obstructed_iff ext l :
  Forall valid ext -> valid l ->
  obstructed ext l <-> exists g, g ∈ ext /\ touches l g.
Proof.
  intros Hv Hl. unfold obstructed, covered, holds, touches, covers, valid in *.
  rewrite Forall_forall in Hv. split.
  - intros (b & Hb & o & t & g & Hg & ? & ? & ? & ?). exists g. repeat split; auto; lia.
  - intros (g & Hg & Hgb & Ho). specialize (Hv g Hg). cbn in Hv.
    exists (Z.max (fl_start l) (fl_start g)). split; [lia|].
    exists (own g), (fl_type g), g. repeat split; auto; lia.
Qed.

Lemma not_grantable_obstructed ext l :
  Forall valid ext -> valid l -> __is_lock_grantable ext l = false -> obstructed ext l.
Proof.
  intros Hv Hl Hg. apply obstructed_iff; auto.
  assert (H : ~ (forall g, g ∈ ext -> ~ conflicts l g)).
  { rewrite <- grantable_spec. congruence. }
  destruct (decide (Exists (touches l) ext)) as [He|He].
  - apply Exists_exists in He as (g & ? & ?). eauto.
  - exfalso. apply H. intros g Hin [Ht _]. apply He, Exists_exists. eauto.
Qed.

(** What one run of the second loop guarantees. *)
Record granted_spec (tmp ext ext' : list posix_lock)
    (granted granted' : list (option nat * gf_flock)) : Prop := {
  gs_inv : Inv ext';
  gs_cover : forall b, covered ext b -> covered ext' b;
  gs_obstructed : forall l, l ∈ waiting ext' -> l ∈ waiting ext \/ obstructed ext' l;
  gs_frames :
    map frame (waiting ext') ++ map fst granted' ≡ₚ
    map frame (waiting ext) ++ map frame tmp ++ map fst granted
}.

Lemma covered_snoc_blocked ext l b :
  covered ext b -> covered (__insert_lock ext (set_blocked true l)) b.
Proof.
  intros (o & t & H). exists o, t. unfold __insert_lock. apply holds_snoc. auto.
Qed.

Lemma waiting_snoc_blocked ext l :
  waiting (__insert_lock ext (set_blocked true l)) = waiting ext ++ [set_blocked true l].
Proof. unfold __insert_lock. rewrite waiting_app. reflexivity. Qed.

Lemma grant_loop_spec tmp ext granted :
  Inv ext -> Forall request tmp ->
  let '(ext', granted') := grant_loop tmp ext granted in
  granted_spec tmp ext ext' granted granted'.
Proof.
  revert ext granted. induction tmp as [|l t IH]; intros ext granted HI Htmp; cbn [grant_loop].
  { split; auto. }
  apply Forall_cons in Htmp as [(Hl & Hb & Hu) Ht].
  destruct (__is_lock_grantable ext l) eqn:Hg.
  - set (l' := set_frame None l).
    assert (HI1 : Inv (__insert_and_merge ext l')).
    { apply Inv_merge; auto. rewrite grantable_spec in *. exact Hg. }
    pose proof (insert_and_merge_runs ext l' (inv_valid _ HI) Hl) as M.
    destruct (Merges_waiting _ _ _ M (inv_valid _ HI) Hl Hb (inv_no_unlck _ HI)) as [_ HW].
    specialize (IH _ ((frame l, posix_lock_to_flock l' zero_flock) :: granted) HI1 Ht).
    destruct (grant_loop t _ _) as [ext' granted']. destruct IH as [H1 H2 H3 H4].
    split; auto.
    + intros b Hc. apply H2.
      apply (Merges_keeps_cover _ _ _ M (inv_valid _ HI) Hl Hb (inv_no_unlck _ HI) Hu). auto.
    + intros x Hx. rewrite <- HW. auto.
    + rewrite H4, HW. cbn. f_equiv. symmetry. apply Permutation_middle.
  - assert (HI1 : Inv (__insert_lock ext (set_blocked true l))) by (apply Inv_block; auto).
    specialize (IH _ granted HI1 Ht).
    destruct (grant_loop t _ _) as [ext' granted']. destruct IH as [H1 H2 H3 H4].
    rewrite waiting_snoc_blocked in *. split; auto.
    + intros b Hc. apply H2, covered_snoc_blocked, Hc.
    + intros x Hx. destruct (H3 x Hx) as [[?| ->%list_elem_of_singleton]%elem_of_app|?]; auto.
      right. destruct (not_grantable_obstructed ext l (inv_valid _ HI) Hl Hg) as (b & Hlb & Hc).
      exists b. split; [exact Hlb | apply H2, covered_snoc_blocked, Hc].
    + rewrite H4, map_app, <- app_assoc. reflexivity.
Qed.

Lemma candidates_inv ext :
  Inv ext ->
  let '(ext1, tmp) := grant_candidates [] ext in
  Inv ext1 /\ Forall request tmp /\ (forall b, covered ext b <-> covered ext1 b) /\
  (forall l, l ∈ waiting ext1 -> obstructed ext1 l) /\
  map frame (waiting ext1) ++ map frame tmp ≡ₚ map frame (waiting ext).
Proof.
  intros HI. pose proof (grant_candidates_spec [] ext) as H.
  destruct (grant_candidates [] ext) as [ext1 tmp].
  destruct H as (kept & cand & -> & HP & HF & Hg). cbn in *.
  assert (Hcand : forall x, x ∈ cand -> blocked x = true).
  { intros x Hx. apply list_elem_of_lookup in Hx as [i Hi].
    destruct (Forall2_lookup_l _ _ _ _ _ HF Hi) as (y & _ & ? & _). auto. }
  assert (Hsub : forall x, x ∈ kept -> x ∈ ext) by (intros; rewrite HP, elem_of_app; auto).
  assert (HI1 : Inv kept).
  { apply (Inv_sub ext); auto;
      destruct HI as [Hv Hn _]; unfold no_unlck in *; rewrite HP in Hv, Hn;
      [apply (Forall_app _ kept cand) in Hv | apply (Forall_app _ kept cand) in Hn]; tauto. }
  assert (Hcov : forall b, covered ext b <-> covered kept b).
  { intros b. unfold covered, holds. setoid_rewrite HP. setoid_rewrite elem_of_app.
    split; intros (o & t & l & Hl & Hb & Hx); exists o, t, l; [|tauto].
    destruct Hl as [?|Hl]; [auto|]. rewrite (Hcand l Hl) in Hb. discriminate. }
  split; [auto|]. split; [|split; [auto|split]].
  - apply Forall_forall. intros x [i Hi]%list_elem_of_lookup.
    destruct (Forall2_lookup_r _ _ _ _ _ HF Hi) as (y & Hy & Hyb & ->).
    assert (y ∈ ext) by (rewrite HP, elem_of_app; right; eapply list_elem_of_lookup_2; eauto).
    destruct HI as [Hv Hn _]. unfold no_unlck in *. rewrite Forall_forall in Hv, Hn.
    split; [exact (Hv y ltac:(auto)) | split; [reflexivity | exact (Hn y ltac:(auto))]].
  - intros l [Hb Hl]%list_elem_of_filter. destruct HI as [Hv _ _]. 
    pose proof Hv as Hv'. rewrite Forall_forall in Hv'.
    destruct (Hg l Hl Hb) as (g & Hin & Ht).
    assert (Ho : obstructed ext l) by (apply obstructed_iff; auto; eauto).
    destruct Ho as (b & ? & ?). exists b. rewrite <- Hcov. auto.
  - rewrite (waiting_perm _ _ HP), waiting_app, map_app. apply Permutation_app_head.
    clear -HF Hcand. induction HF as [|x y cand tmp [Hb ->] HF IH]; [reflexivity|].
    unfold waiting. rewrite filter_cons_True by exact Hb. cbn. apply Permutation_cons; [reflexivity|].
    apply IH. intros z Hz. apply Hcand. rewrite elem_of_cons. auto.
Qed.

(** Summary of [__grant_blocked_locks]. *)
Lemma grant_spec ext :
  Inv ext ->
  let '(ext', granted) := __grant_blocked_locks ext in
  Inv ext' /\ (forall b, covered ext b -> covered ext' b) /\
  (forall l, l ∈ waiting ext' -> obstructed ext' l) /\
  map frame (waiting ext') ++ map fst granted ≡ₚ map frame (waiting ext).
Proof.
  intros HI. unfold __grant_blocked_locks. pose proof (candidates_inv ext HI) as H.
  destruct (grant_candidates [] ext) as [ext1 tmp].
  destruct H as (HI1 & Htmp & Hcov & Hobs & Hfr).
  pose proof (grant_loop_spec tmp ext1 [] HI1 Htmp) as H.
  destruct (grant_loop tmp ext1 []) as [ext' granted]. destruct H as [H1 H2 H3 H4].
  split; [auto|]. split; [|split].
  - intros b Hb. apply H2, Hcov, Hb.
  - intros l Hl. destruct (H3 l Hl) as [Hw|?]; [|auto].
    destruct (Hobs l Hw) as (b & ? & ?). exists b. auto.
  - rewrite H4. cbn. rewrite app_nil_r. exact Hfr.
Qed.

(** Without waiting requests nothing is granted. *)
Lemma grant_idle ext : waiting ext = [] -> __grant_blocked_locks ext = (ext, []).
Proof.
  intros Hw. unfold __grant_blocked_locks.
  assert (H : forall seen, grant_candidates seen ext = (seen ++ ext, [])).
  { induction ext as [|l t IH]; intros seen; cbn; [rewrite app_nil_r; auto|].
    unfold waiting in Hw. rewrite filter_cons in Hw.
    destruct (decide (blocked l = true)) as [|Hb]; [discriminate|].
    destruct (blocked l); [congruence|]. rewrite IH by exact Hw. rewrite <- app_assoc. reflexivity. }
  rewrite H. reflexivity.
Qed.

(** Granting gives bytes only to owners of waiting requests. *)
Lemma grant_loop_owners tmp ext granted o t b :
  Inv ext -> Forall request tmp ->
  holds (fst (grant_loop tmp ext granted)) o t b ->
  holds ext o t b \/ exists l, l ∈ tmp /\ own l = o.
Proof.
  revert ext granted. induction tmp as [|l tmp IH]; intros ext granted HI Htmp; cbn [grant_loop].
  { auto. }
  apply Forall_cons in Htmp as [(Hl & Hb & Hu) Ht].
  destruct (__is_lock_grantable ext l) eqn:Hg; intros H.
  - assert (HI1 : Inv (__insert_and_merge ext (set_frame None l))).
    { apply Inv_merge; auto. rewrite grantable_spec in *. exact Hg. }
    destruct (IH _ _ HI1 Ht H) as [H1|(x & ? & ?)].
    + pose proof (insert_and_merge_runs ext (set_frame None l) (inv_valid _ HI) Hl) as M.
      destruct (Merges_no_invention _ _ _ M (inv_valid _ HI) Hl Hb _ _ _ H1) as [?|(<- & _)];
        [auto|]. right. exists l. rewrite elem_of_cons. auto.
    + right. exists x. rewrite elem_of_cons. auto.
  - destruct (IH _ _ (Inv_block _ _ HI Hl Hu) Ht H) as [H1|(x & ? & ?)].
    + left. unfold __insert_lock in H1. apply holds_snoc in H1 as [[? _]|?]; [discriminate | auto].
    + right. exists x. rewrite elem_of_cons. auto.
Qed.

Lemma grant_owners ext o t b :
  Inv ext -> holds (fst (__grant_blocked_locks ext)) o t b ->
  holds ext o t b \/ exists l, l ∈ waiting ext /\ own l = o.
Proof.
  intros HI. unfold __grant_blocked_locks.
  pose proof (candidates_inv ext HI) as HC. pose proof (grant_candidates_spec [] ext) as HS.
  destruct (grant_candidates [] ext) as [ext1 tmp].
  destruct HC as (HI1 & Htmp & _). destruct HS as (kept & cand & -> & HP & HF & _). cbn in *.
  intros H. destruct (grant_loop_owners _ _ _ _ _ _ HI1 Htmp H) as [H1|(x & Hx & <-)].
  - left. revert H1. apply holds_sub. intros l Hl _. rewrite HP, elem_of_app. auto.
  - right. apply list_elem_of_lookup in Hx as [i Hi].
    destruct (Forall2_lookup_r _ _ _ _ _ HF Hi) as (y & Hy & Hyb & ->).
    exists y. split; [|reflexivity]. apply list_elem_of_filter. split; [auto|].
    rewrite HP, elem_of_app. right. eapply list_elem_of_lookup_2; eauto.
Qed.

(** ** The handlers keep the invariant *)

(** The invariant of an inode between two calls: the table is consistent, and
    every waiting request has a granted lock in its way. *)
Definition InodeInv (i : pl_inode) : Prop :=
  Inv (ext_list i) /\ forall l, l ∈ waiting (ext_list i) -> obstructed (ext_list i) l.

(** A lock as [pl_lk] hands it to [pl_setlk]: its range is that of the flock
    the caller passed. *)
Definition from_flock (l : posix_lock) : Prop :=
  valid l /\ blocked l = false /\ fl_start l = l_start (user_flock l) /\
  fl_end l = if l_len (user_flock l) =? 0 then LLONG_MAX
             else l_start (user_flock l) + l_len (user_flock l) - 1.

Lemma do_blocked_rw_ext mode i : ext_list (fst (do_blocked_rw mode i)) = ext_list i.
Proof. unfold do_blocked_rw. destruct (rw_split _ _ _). reflexivity. Qed.

Lemma grant_blocked_locks_inv i :
  Inv (ext_list i) -> InodeInv (fst (grant_blocked_locks i)).
Proof.
  intros HI. unfold grant_blocked_locks, InodeInv.
  pose proof (grant_spec (ext_list i) HI) as H.
  destruct (__grant_blocked_locks (ext_list i)) as [ext' granted].
  destruct H as (H1 & _ & H3 & _). cbn. auto.
Qed.

(** The tail every handler ends with. *)
Lemma finish_inv mode i i2 i3 ev2 ev3 :
  Inv (ext_list i) -> grant_blocked_locks i = (i2, ev2) -> do_blocked_rw mode i2 = (i3, ev3) ->
  InodeInv i3.
Proof.
  intros HI E2 E3. pose proof (grant_blocked_locks_inv i HI) as H. rewrite E2 in H.
  pose proof (do_blocked_rw_ext mode i2) as Hx. rewrite E3 in Hx. cbn in *.
  unfold InodeInv in *. rewrite Hx. auto.
Qed.

Lemma prelock_unlock_inv i lock :
  Inv (ext_list i) -> from_flock lock -> InodeInv (fst (pl_send_prelock_unlock i lock)).
Proof.
  intros HI (Hl & Hb & Hs & He). unfold pl_send_prelock_unlock, InodeInv.
  set (u := new_posix_lock _ _ _ _ _ _ _).
  assert (Inv (__insert_and_merge (ext_list i) u)) as HI1.
  { apply Inv_merge; auto; [|apply grantable_unlock; auto].
    unfold valid in *. cbn. rewrite <- Hs, <- He in *. congruence. }
  pose proof (grant_spec _ HI1) as H. destruct (__grant_blocked_locks _) as [ext' granted].
  destruct H as (H1 & _ & H3 & _). cbn. auto.
Qed.

Lemma grantable_not_unlock ext lock :
  __is_lock_grantable ext lock = false -> fl_type lock <> F_UNLCK.
Proof. intros H Ht. rewrite grantable_unlock in H by auto. discriminate. Qed.

Lemma pl_setlk_inv mode i lock can_block :
  InodeInv i -> from_flock lock -> InodeInv (fst (fst (pl_setlk mode i lock can_block))).
Proof.
  intros HI Hf. pose proof Hf as (Hl & Hb & _ & _). unfold pl_setlk.
  assert (H1 : InodeInv (fst (if can_block && negb (__is_lock_grantable (ext_list i) lock)
                              then pl_send_prelock_unlock i lock else (i, [])))).
  { destruct (_ && _); [apply prelock_unlock_inv; [apply HI | auto] | exact HI]. }
  destruct (if can_block && _ then _ else _) as [i1 ev1]. cbn in H1.
  destruct (__is_lock_grantable (ext_list i1) lock) eqn:Hg;
    [|destruct can_block]; [destruct (pl_metalock_is_active i1) | destruct (pl_metalock_is_active i1) |];
    try exact H1;
    destruct (grant_blocked_locks _) as [i3 ev2] eqn:E2;
    destruct (do_blocked_rw mode i3) as [i4 ev3] eqn:E3; cbn;
    eapply finish_inv; eauto; cbn.
  - apply Inv_merge; auto. apply H1.
  - apply Inv_block; auto; [apply H1 | eapply grantable_not_unlock; eauto].
  - apply H1.
Qed.

Lemma InodeInv_ext i j : ext_list i = ext_list j -> InodeInv i -> InodeInv j.
Proof. unfold InodeInv. intros ->. auto. Qed.

(** off_t and the lengths of a flock are 64-bit signed integers. *)
Definition s64 (z : Z) : Prop := - 2 ^ 63 <= z < 2 ^ 63.
Definition flock_s64 (f : gf_flock) : Prop := s64 (l_start f) /\ s64 (l_len f).

(** Lemma behind the range property: an accepted flock describes a non-empty
    range inside [0, LLONG_MAX]. *)
Lemma normalize_flock_range f g :
  flock_s64 f -> normalize_flock f = Some g ->
  0 <= l_start g /\ 0 <= l_len g /\ l_start g + l_len g <= LLONG_MAX.
Proof.
  unfold flock_s64, s64, normalize_flock, LLONG_MAX. intros [Hs Hl].
  destruct (Z.ltb_spec (l_start f) 0); [discriminate|].
  destruct (Z.ltb_spec (wrap_s64 (l_start f + l_len f)) 0) as [|Hw]; [discriminate|].
  cbn [orb]. assert (l_start f + l_len f < 2 ^ 63).
  { destruct (Z.lt_ge_cases (l_start f + l_len f) (2 ^ 63)); [auto|].
    pose proof (wrap_s64_over (l_start f + l_len f)). lia. }
  rewrite wrap_s64_id in Hw by lia.
  destruct (Z.ltb_spec (l_len f) 0); intros [= <-]; cbn; lia.
Qed.

Lemma new_posix_lock_valid f c p o fd flags bl :
  0 <= l_start f -> 0 <= l_len f -> l_start f + l_len f <= LLONG_MAX ->
  valid (new_posix_lock f c p o fd flags bl).
Proof. unfold valid. cbn. intros. destruct (Z.eqb_spec (l_len f) 0); lia. Qed.

Lemma pl_verify_reservelk_ext i lock cb i1 ret :
  pl_verify_reservelk i lock cb = Some (i1, ret) -> ext_list i1 = ext_list i.
Proof.
  unfold pl_verify_reservelk. destruct (__matching_reservelk i lock); [| |discriminate].
  - intros [= <- <-]. reflexivity.
  - destruct (is_same_lkowner _ _); intros [= <- <-]; reflexivity.
Qed.

Lemma pl_lk_inv mode i fr c p o fd flags cmd f i' ev :
  flock_s64 f -> InodeInv i -> pl_lk mode i fr c p o fd flags cmd f = Some (i', ev) ->
  InodeInv i'.
Proof.
  intros Hf HI. unfold pl_lk. destruct (normalize_flock f) as [g|] eqn:Eg; [|intros [= <- <-]; auto].
  destruct (normalize_flock_range f g Hf Eg) as (Hs & Hl & He).
  destruct cmd; [intros [= <- <-]; auto | |];
    (destruct (migrated i); [intros [= <- <-]; auto|]);
    match goal with |- context [pl_verify_reservelk i ?l ?b] =>
      destruct (pl_verify_reservelk i l b) as [[i1 ret]|] eqn:Ev; [|discriminate];
      assert (Hl0 : from_flock l)
        by (split; [apply (new_posix_lock_valid g c p o fd flags false Hs Hl He) | auto])
    end;
    apply pl_verify_reservelk_ext in Ev; symmetry in Ev;
    (destruct (ret <? 0); [intros [= <- <-]; eapply InodeInv_ext; eauto|]);
    match goal with |- context [pl_setlk mode ?j ?l ?b] =>
      pose proof (pl_setlk_inv mode j l b (InodeInv_ext _ _ Ev HI) Hl0) as HS;
      destruct (pl_setlk mode j l b) as [[i2 ret2] ev2]
    end; cbn in HS;
    repeat (match goal with |- context [if ?x then _ else _] => destruct x end);
    intros [= <- <-]; auto.
Qed.

Lemma pl_flush_inv mode i c o fd i' err ev :
  InodeInv i -> pl_flush mode i c o fd = (i', err, ev) -> InodeInv i'.
Proof.
  intros HI. unfold pl_flush. destruct (migrated i); [intros [= <- <- <-]; auto|].
  destruct o as [|x o].
  - unfold delete_locks_of_fd.
    destruct (grant_blocked_locks _) as [i2 ev2] eqn:E2.
    destruct (do_blocked_rw mode i2) as [i3 ev3] eqn:E3. intros [= <- <- <-].
    eapply finish_inv; eauto. cbn. apply Inv_filter, HI.
  - destruct (grant_blocked_locks _) as [i2 ev2] eqn:E2.
    destruct (do_blocked_rw mode i2) as [i3 ev3] eqn:E3. intros [= <- <- <-].
    eapply finish_inv; eauto. cbn. apply Inv_filter, HI.
Qed.

Lemma pl_rw_ext mode op i fr pid c o fd nb off sz :
  ext_list (fst (pl_rw mode op i fr pid c o fd nb off sz)) = ext_list i.
Proof.
  unfold pl_rw, pl_is_fop_allowed.
  repeat (match goal with |- context [if ?x then _ else _] => destruct x end; try reflexivity).
Qed.

(** ** Reachable lock tables *)

(** The calls that reach an inode, in any order. *)
Inductive pl_step (mode : mlk_mode) : pl_inode -> pl_inode -> Prop :=
| step_lk i fr c p o fd flags cmd f i' ev :
    flock_s64 f -> pl_lk mode i fr c p o fd flags cmd f = Some (i', ev) -> pl_step mode i i'
| step_flush i c o fd i' err ev :
    pl_flush mode i c o fd = (i', err, ev) -> pl_step mode i i'
| step_rw op i fr pid c o fd nb off sz i' ev :
    pl_rw mode op i fr pid c o fd nb off sz = (i', ev) -> pl_step mode i i'.

(** [pl_inode_get] on a fresh inode. *)
Definition pl_inode_init (mandatory_ : bool) : pl_inode :=
  mk_inode [] [] [] [] [] [] mandatory_ false.

Lemma reachable_inv mode m i : rtc (pl_step mode) (pl_inode_init m) i -> InodeInv i.
Proof.
  intros H. remember (pl_inode_init m) as i0 eqn:E0.
  assert (H0 : InodeInv i0).
  { subst. split; [|intros l []%elem_of_nil]. split; [apply Forall_nil_2 | apply Forall_nil_2 |].
    intros o1 o2 t1 t2 b (l & []%elem_of_nil & _). }
  clear E0. induction H as [|i j k Hs _ IH]; auto. apply IH.
  destruct Hs as [? ? ? ? ? ? ? ? ? ? ? Hf E | ? ? ? ? ? ? ? E | ? ? ? ? ? ? ? ? ? ? ? ? E].
  - eapply pl_lk_inv; eauto.
  - eapply pl_flush_inv; eauto.
  - eapply InodeInv_ext; [|exact H0]. symmetry.
    pose proof (pl_rw_ext mode op i fr pid c o fd nb off sz) as Hx. rewrite E in Hx. exact Hx.
Qed.
