(* ===== verification/PosixLocksProps.v ===== *)
(** * Properties of the fcntl lock table

    The statements a user of the locks translator relies on, over the
    definitions of [PosixLocks], with a concrete instance of each. *)

From S2P Require Import Prelude Words PosixLocks PosixLocksFacts PosixLocksInv.
Open Scope Z_scope.

(** ** Concrete locks for the instances *)

Definition ex_flock (t : lk_type) (s len : Z) : gf_flock := mk_flock t 0 s len 100 [].

Definition ex_lock (t : lk_type) (c s e : Z) : posix_lock :=
  mk_lock t s e 0 false (ex_flock t s (e - s + 1)) c (Some (Z.to_nat c)) c [c] 100 false.

(** Run a list of lk calls (client, command, flock) on a fresh inode. *)
Definition ex_call (i : option pl_inode) (call : Z * lk_cmd * gf_flock) : option pl_inode :=
  let '(c, cmd, f) := call in
  match i with
  | Some i => fst <$> pl_lk MLK_NONE i (Z.to_nat c) c 100 [c] c 0 cmd f
  | None => None
  end.

Definition ex_run (calls : list (Z * lk_cmd * gf_flock)) : option pl_inode :=
  foldl ex_call (Some (pl_inode_init false)) calls.

Lemma ex_run_from_reachable calls i0 i :
  Forall (fun c => flock_s64 (snd c)) calls ->
  rtc (pl_step MLK_NONE) (pl_inode_init false) i0 ->
  foldl ex_call (Some i0) calls = Some i -> rtc (pl_step MLK_NONE) (pl_inode_init false) i.
Proof.
  intros Hc. revert i0. induction Hc as [|[[c cmd] f] calls Hf Hc IH]; intros i0 H0; cbn [foldl].
  { intros [= <-]. exact H0. }
  cbn [ex_call]. destruct (pl_lk MLK_NONE i0 (Z.to_nat c) c 100 [c] c 0 cmd f)
    as [[i1 ev]|] eqn:E; cbn.
  - apply IH. eapply rtc_r; [exact H0 | eapply step_lk; eauto].
  - clear -calls. induction calls as [|[[? ?] ?] ? IH]; [discriminate | exact IH].
Qed.

Lemma ex_run_reachable calls i :
  Forall (fun c => flock_s64 (snd c)) calls -> ex_run calls = Some i ->
  rtc (pl_step MLK_NONE) (pl_inode_init false) i.
Proof. intros. eapply ex_run_from_reachable; eauto. apply rtc_refl. Qed.

(** Two readers and a blocked writer. *)
Definition ex_calls : list (Z * lk_cmd * gf_flock) :=
  [(1, F_SETLK, ex_flock F_RDLCK 0 100); (2, F_SETLK, ex_flock F_RDLCK 50 100);
   (3, F_SETLKW, ex_flock F_WRLCK 60 10)].

Lemma ex_calls_s64 : Forall (fun c => flock_s64 (snd c)) ex_calls.
Proof. repeat constructor; cbn; lia. Qed.

Definition ex_inode : pl_inode :=
  Eval vm_compute in default (pl_inode_init false) (ex_run ex_calls).

Definition ex_nth (n : nat) : posix_lock := default (ex_lock F_RDLCK 0 0 0) (ext_list ex_inode !! n).

Lemma ex_inode_reachable : rtc (pl_step MLK_NONE) (pl_inode_init false) ex_inode.
Proof. apply (ex_run_reachable ex_calls); [apply ex_calls_s64 | vm_compute; reflexivity]. Qed.

Lemma ex_nth_in n : (n < 3)%nat -> ex_nth n ∈ ext_list ex_inode.
Proof.
  intros H. apply (list_elem_of_lookup_2 _ n).
  destruct n as [|[|[|n]]]; [reflexivity | reflexivity | reflexivity | lia].
Qed.

(** ** Safety *)

(** C2: In every state reachable through lk, flush, readv and writev calls, two
    granted locks that overlap and belong to different owners are both read
    locks: the lock table never grants conflicting locks. *)
Theorem reachable_locks_compatible mode m i l1 l2 :
  rtc (pl_step mode) (pl_inode_init m) i ->
  l1 ∈ ext_list i -> l2 ∈ ext_list i -> blocked l1 = false -> blocked l2 = false ->
  locks_overlap l1 l2 = true -> same_owner l1 l2 = false ->
  fl_type l1 = F_RDLCK /\ fl_type l2 = F_RDLCK.
Proof.
  intros HR H1 H2 B1 B2 Ho Hs. destruct (reachable_inv _ _ _ HR) as [[Hv _ He] _].
  rewrite Forall_forall in Hv.
  destruct (locks_overlap_spec l1 l2) as [Hov|]; [|discriminate].
  destruct (same_owner_spec l1 l2) as [|Hne]; [discriminate|].
  destruct (overlap_common_byte l1 l2 (Hv l1 H1) (Hv l2 H2)) as [Hb _].
  destruct (Hb Hov) as (b & C1 & C2).
  apply (He (own l1) (own l2) _ _ b); [exists l1 | exists l2 | exact Hne]; auto.
Qed.

Lemma reachable_locks_compatible_witness :
  fl_type (ex_nth 0) = F_RDLCK /\ fl_type (ex_nth 1) = F_RDLCK.
Proof.
  apply (reachable_locks_compatible MLK_NONE false ex_inode).
  - exact ex_inode_reachable.
  - apply ex_nth_in. lia.
  - apply ex_nth_in. lia.
  - reflexivity.
  - reflexivity.
  - reflexivity.
  - reflexivity.
Defined.

(** C29: In every reachable state each blocked request overlaps a granted lock:
    no request keeps waiting after the last lock in its range is gone. *)
Theorem reachable_waiters_obstructed mode m i l :
  rtc (pl_step mode) (pl_inode_init m) i ->
  l ∈ ext_list i -> blocked l = true ->
  exists g, first_overlap (ext_list i) l = Some g /\ g ∈ ext_list i /\ blocked g = false.
Proof.
  intros HR Hl Hb. destruct (reachable_inv _ _ _ HR) as [[Hv _ _] Hw].
  assert (Hwl : l ∈ waiting (ext_list i)) by (apply list_elem_of_filter; auto).
  pose proof Hv as Hv'. rewrite Forall_forall in Hv'.
  destruct (proj1 (obstructed_iff _ _ Hv (Hv' l Hl)) (Hw l Hwl)) as (g & Hg & Ht).
  pose proof (first_overlap_spec (ext_list i) l) as Hf.
  destruct (first_overlap (ext_list i) l) as [x|].
  - exists x. destruct Hf as [? [? _]]. auto.
  - exfalso. exact (Hf g Hg Ht).
Qed.

Lemma reachable_waiters_obstructed_witness :
  blocked (ex_nth 2) = true /\
  exists g, first_overlap (ext_list ex_inode) (ex_nth 2) = Some g /\
    g ∈ ext_list ex_inode /\ blocked g = false.
Proof.
  split; [reflexivity|]. apply (reachable_waiters_obstructed MLK_NONE false ex_inode).
  - exact ex_inode_reachable.
  - apply ex_nth_in. lia.
  - reflexivity.
Defined.

(** ** The merge algorithm *)

(** C33: [__insert_and_merge] terminates: its recursion has a finite run (a
    derivation of [Merges]) from every list of non-empty ranges and every
    non-empty range, and the model returns the result of that run.  Each nested
    call works on strictly fewer bytes, so the logarithmic fuel is enough. *)
Theorem insert_and_merge_terminates ext lock :
  Forall valid ext -> valid lock -> Merges ext lock (__insert_and_merge ext lock).
Proof. apply insert_and_merge_runs. Qed.

Lemma insert_and_merge_terminates_witness :
  let ext := [ex_lock F_RDLCK 1 0 99; ex_lock F_WRLCK 1 200 299] in
  let lock := ex_lock F_WRLCK 1 50 (2 ^ 63 - 1) in
  Merges ext lock (__insert_and_merge ext lock).
Proof.
  intros ext lock. apply insert_and_merge_terminates.
  - repeat constructor; unfold valid; cbn; lia.
  - unfold valid; cbn; lia.
Defined.

(** The type with which [o] holds byte [b], read off the table. *)
Definition held (ext : list posix_lock) (o : Z * lkowner) (b : Z) : option lk_type :=
  fl_type <$> head (filter (fun l => blocked l = false /\ own l = o /\ covers l b) ext).

Lemma held_spec ext o b t :
  uniq (holds ext) -> held ext o b = Some t <-> holds ext o t b.
Proof.
  intros U. unfold held.
  assert (Hs : forall l, l ∈ filter (fun l => blocked l = false /\ own l = o /\ covers l b) ext ->
                 holds ext o (fl_type l) b).
  { intros l [(? & ? & ?) ?]%list_elem_of_filter. exists l. auto. }
  destruct (filter _ ext) as [|l r] eqn:E; cbn.
  - split; [discriminate|]. intros (l & Hl & Hb & Ho & _ & Hc).
    assert (Hin : l ∈ filter (fun l => blocked l = false /\ own l = o /\ covers l b) ext)
      by (apply list_elem_of_filter; auto).
    rewrite E in Hin. apply elem_of_nil in Hin. contradiction.
  - specialize (Hs l ltac:(apply elem_of_cons; auto)). split; [intros [= <-]; auto|].
    intros H. f_equal. eapply U; eauto.
Qed.

(** C6: [__insert_and_merge] implements the byte-wise meaning of an fcntl
    request: on the bytes of the request its owner now holds the requested type
    (nothing, for an unlock), every other byte and every other owner is as
    before, and no owner holds a byte with two types.  For a read request this
    is claimed when the owner has no write lock under it, or no other owner has
    a lock (see [read_downgrade_lost] for the remaining case). *)
Theorem insert_and_merge_refines ext lock :
  Forall valid ext -> no_unlck ext -> uniq (holds ext) ->
  valid lock -> blocked lock = false -> mergeable (holds ext) lock ->
  uniq (holds (__insert_and_merge ext lock)) /\
  forall o b, held (__insert_and_merge ext lock) o b =
    if decide (own lock = o /\ covers lock b)
    then (if decide (fl_type lock = F_UNLCK) then None else Some (fl_type lock))
    else held ext o b.
Proof.
  intros Hv Hn U Hl Hb HM.
  pose proof (Merges_refines _ _ _ (insert_and_merge_runs ext lock Hv Hl) Hv Hl Hb Hn U HM) as R.
  assert (U' : uniq (holds (__insert_and_merge ext lock)))
    by (rewrite R; apply uniq_updated; auto).
  split; [exact U'|]. intros o b. apply option_eq. intros t.
  rewrite held_spec, (R o t b) by auto. destruct (decide (own lock = o /\ covers lock b)) as [[Ho Hc]|Hx].
  - rewrite updated_in by auto. destruct (decide (fl_type lock = F_UNLCK)) as [->|].
    + split; [intros [-> ?]; contradiction | discriminate].
    + split; [intros [-> _]; auto | intros [= <-]; auto].
  - rewrite updated_out, held_spec by auto. reflexivity.
Qed.

Definition ex_table : list posix_lock := [ex_lock F_WRLCK 1 0 99; ex_lock F_RDLCK 2 100 199].

Lemma ex_table_holds o t b :
  holds ex_table o t b <->
  (1, [1]) = o /\ F_WRLCK = t /\ 0 <= b <= 99 \/ (2, [2]) = o /\ F_RDLCK = t /\ 100 <= b <= 199.
Proof.
  unfold ex_table. rewrite !holds_cons. cbn. unfold own, covers. cbn. split.
  - intros [?|[?|(l & []%elem_of_nil & _)]]; tauto.
  - tauto.
Qed.

Lemma insert_and_merge_refines_witness :
  held (__insert_and_merge ex_table (ex_lock F_UNLCK 1 40 59)) (1, [1]) 50 = None.
Proof.
  destruct (insert_and_merge_refines ex_table (ex_lock F_UNLCK 1 40 59)) as [_ H].
  - repeat constructor; unfold valid; cbn; lia.
  - repeat constructor; discriminate.
  - intros o t1 t2 b [H1|H1]%ex_table_holds [H2|H2]%ex_table_holds; intuition congruence.
  - unfold valid; cbn; lia.
  - reflexivity.
  - discriminate.
  - rewrite H. reflexivity.
Defined.

(** The remaining case: owner 1 holds a write lock, owner 2 an overlapping read
    lock elsewhere in the request, and owner 1 asks for a read lock over both.
    The loop stops at owner 2's read lock and appends the request, so owner 1
    keeps its write lock and a third reader is refused. *)
Theorem read_downgrade_lost :
  exists i, ex_run [(2, F_SETLK, ex_flock F_RDLCK 0 10); (1, F_SETLK, ex_flock F_WRLCK 50 10);
                    (1, F_SETLK, ex_flock F_RDLCK 0 100)] = Some i /\
    map (fun l => (client l, fl_type l, fl_start l, fl_end l)) (ext_list i) =
      [(2, F_RDLCK, 0, 9); (1, F_WRLCK, 50, 59); (1, F_RDLCK, 0, 99)] /\
    __is_lock_grantable (ext_list i) (ex_lock F_RDLCK 3 50 59) = false.
Proof. eexists. split; [vm_compute; reflexivity | vm_compute; auto]. Qed.

(** ** Granting *)

(** C35: [__grant_blocked_locks] keeps the table consistent, answers each
    request it grants exactly once and loses none: the frames still waiting
    together with the frames answered are the frames that were waiting.  What
    keeps waiting still has a granted lock in its way. *)
Theorem grant_conserves_requests ext ext' granted :
  Inv ext -> __grant_blocked_locks ext = (ext', granted) ->
  Inv ext' /\
  map frame (waiting ext') ++ map fst granted ≡ₚ map frame (waiting ext) /\
  (forall l, l ∈ ext' -> blocked l = true -> exists g, g ∈ ext' /\ touches l g).
Proof.
  intros HI E. pose proof (grant_spec ext HI) as H. rewrite E in H.
  destruct H as (H1 & _ & H3 & H4). split; [auto|]. split; [auto|].
  intros l Hl Hb. pose proof (inv_valid _ H1) as Hv. pose proof Hv as Hv'.
  rewrite Forall_forall in Hv'. apply obstructed_iff; auto.
  apply H3, list_elem_of_filter. auto.
Qed.

Definition ex_waiting : list posix_lock :=
  [set_blocked true (ex_lock F_WRLCK 1 0 9); set_blocked true (ex_lock F_WRLCK 2 5 14);
   set_blocked true (ex_lock F_WRLCK 3 20 29)].

Lemma ex_waiting_inv : Inv ex_waiting.
Proof.
  split.
  - repeat constructor; unfold valid; cbn; lia.
  - repeat constructor; discriminate.
  - intros o1 o2 t1 t2 b (l & Hl & Hb & _).
    repeat (apply elem_of_cons in Hl as [->|Hl]; [discriminate|]).
    apply elem_of_nil in Hl. contradiction.
Qed.

Lemma grant_conserves_requests_witness :
  let '(ext', granted) := __grant_blocked_locks ex_waiting in
  map frame (waiting ext') ++ map fst granted ≡ₚ [Some 1%nat; Some 2%nat; Some 3%nat].
Proof.
  destruct (__grant_blocked_locks ex_waiting) as [ext' granted] eqn:E.
  exact (proj1 (proj2 (grant_conserves_requests ex_waiting ext' granted ex_waiting_inv E))).
Defined.

(** A waiting request is only considered once nothing overlaps it at all, so a
    reader stays blocked behind a compatible read lock: owner 1 writes [0, 4],
    owner 2 reads [5, 9], owner 3 waits for a read lock on [0, 9]; when owner 1
    unlocks, the request of owner 3 is grantable and stays blocked. *)
Theorem compatible_reader_starves :
  exists i, ex_run [(1, F_SETLK, ex_flock F_WRLCK 0 5); (2, F_SETLK, ex_flock F_RDLCK 5 5);
                    (3, F_SETLKW, ex_flock F_RDLCK 0 10); (1, F_SETLK, ex_flock F_UNLCK 0 5)]
              = Some i /\
    map (fun l => (client l, fl_type l, blocked l)) (ext_list i) =
      [(2, F_RDLCK, false); (3, F_RDLCK, true)] /\
    __is_lock_grantable (ext_list i) (ex_lock F_RDLCK 3 0 9) = true.
Proof. eexists. split; [vm_compute; reflexivity | vm_compute; auto]. Qed.

(** ** The lk calls *)

(** C36: F_GETLK and F_SETLK agree: for a request that is not an unlock,
    [pl_getlk] answers F_UNLCK exactly when [__is_lock_grantable] lets F_SETLK
    succeed, and otherwise it answers with a granted lock of another owner that
    overlaps the request and conflicts with it. *)
Theorem getlk_agrees_with_setlk ext lock :
  fl_type lock <> F_UNLCK -> no_unlck ext ->
  if __is_lock_grantable ext lock
  then pl_getlk ext lock = set_type F_UNLCK lock
  else pl_getlk ext lock ∈ ext /\ conflicts lock (pl_getlk ext lock).
Proof.
  intros Ht Hn. unfold pl_getlk.
  assert (H : match first_conflicting_overlap ext lock with
              | None => forall l, l ∈ ext -> ~ conflicts lock l
              | Some c => c ∈ ext /\ conflicts lock c
              end).
  { clear Hn. unfold conflicts, touches.
    induction ext as [|l ext IH]; cbn [first_conflicting_overlap].
    { intros l []%elem_of_nil. }
    assert (Hskip : ~ conflicts lock l ->
      match first_conflicting_overlap ext lock with
      | None => forall x, x ∈ l :: ext -> ~ conflicts lock x
      | Some c => c ∈ l :: ext /\ conflicts lock c
      end).
    { intros Hc. destruct (first_conflicting_overlap ext lock).
      - rewrite elem_of_cons. unfold conflicts, touches. tauto.
      - intros x [->|Hx]%elem_of_cons; [auto | apply IH; auto]. }
    unfold conflicts, touches in Hskip.
    destruct (blocked l) eqn:Hb; [apply Hskip; intuition congruence|].
    tests; try (apply Hskip; intuition congruence); rewrite elem_of_cons; tauto. }
  destruct (__is_lock_grantable ext lock) eqn:Hg.
  - rewrite grantable_spec in Hg.
    destruct (first_conflicting_overlap ext lock) as [c|]; [|reflexivity].
    destruct H as [H1 H2]. exfalso. exact (Hg c H1 H2).
  - destruct (first_conflicting_overlap ext lock); [exact H|].
    apply grantable_spec in H. congruence.
Qed.

Lemma getlk_agrees_with_setlk_witness :
  conflicts (ex_lock F_WRLCK 3 60 69) (pl_getlk ex_table (ex_lock F_WRLCK 3 60 69)).
Proof.
  exact (proj2 (getlk_agrees_with_setlk ex_table (ex_lock F_WRLCK 3 60 69)
    ltac:(discriminate) ltac:(repeat constructor; discriminate))).
Defined.

(** A non-blocking [pl_setlk] on an inode with no waiting request and no
    meta lock returns 0 and leaves the merged table when the request conflicts
    with no granted lock, and otherwise returns -1 and leaves the table as it
    was. *)
Theorem setlk_nonblocking mode i lock i' ret ev :
  waiting (ext_list i) = [] -> metalk_list i = [] -> blocked lock = false ->
  Forall valid (ext_list i) -> no_unlck (ext_list i) -> valid lock ->
  pl_setlk mode i lock false = (i', ret, ev) ->
  if __is_lock_grantable (ext_list i) lock
  then ret = 0 /\ ext_list i' = __insert_and_merge (ext_list i) lock
  else ret = -1 /\ ext_list i' = ext_list i.
Proof.
  intros Hw Hm Hb Hv Hn Hl. unfold pl_setlk, pl_metalock_is_active. cbn [andb]. rewrite Hm.
  unfold grant_blocked_locks. destruct (__is_lock_grantable (ext_list i) lock); cbn.
  - assert (Hw' : waiting (__insert_and_merge (ext_list i) lock) = []).
    { pose proof (insert_and_merge_runs (ext_list i) lock Hv Hl) as M.
      destruct (Merges_waiting _ _ _ M Hv Hl Hb Hn) as [_ HW]. rewrite Hw in HW.
      apply Permutation_nil. symmetry. exact HW. }
    rewrite (grant_idle _ Hw').
    destruct (do_blocked_rw mode _) as [i4 ev3] eqn:E. intros [= <- <- <-].
    pose proof (do_blocked_rw_ext mode
      (set_ext_list (__insert_and_merge (ext_list i) lock)
        (set_ext_list (__insert_and_merge (ext_list i) lock) i))) as Hx.
    rewrite E in Hx. auto.
  - rewrite (grant_idle _ Hw).
    destruct (do_blocked_rw mode _) as [i4 ev3] eqn:E. intros [= <- <- <-].
    pose proof (do_blocked_rw_ext mode (set_ext_list (ext_list i) i)) as Hx.
    rewrite E in Hx. auto.
Qed.

Definition ex_table_inode : pl_inode := set_ext_list ex_table (pl_inode_init false).

Lemma setlk_nonblocking_witness :
  let '(i', ret, _) := pl_setlk MLK_NONE ex_table_inode (ex_lock F_WRLCK 2 150 179) false in
  ret = 0 /\ ext_list i' = __insert_and_merge ex_table (ex_lock F_WRLCK 2 150 179).
Proof.
  destruct (pl_setlk MLK_NONE ex_table_inode (ex_lock F_WRLCK 2 150 179) false)
    as [[i' ret] ev] eqn:E.
  apply (setlk_nonblocking MLK_NONE ex_table_inode (ex_lock F_WRLCK 2 150 179) i' ret ev).
  - reflexivity.
  - reflexivity.
  - reflexivity.
  - repeat constructor; unfold valid; cbn; lia.
  - repeat constructor; discriminate.
  - unfold valid; cbn; lia.
  - exact E.
Defined.

(** The range check of [pl_lk] is exact: it rejects a flock (EINVAL) just
    when the start, or the start of a backwards range, or the end does not fit
    in [0, LLONG_MAX]; an accepted one becomes a lock on the non-empty range
    the fcntl manual gives it, backwards ranges included. *)
Theorem lk_range_check f c p o fd flags bl :
  flock_s64 f ->
  match normalize_flock f with
  | None => l_start f < 0 \/ l_start f + l_len f < 0 \/ LLONG_MAX < l_start f + l_len f
  | Some g =>
      let l := new_posix_lock g c p o fd flags bl in
      0 <= fl_start l <= fl_end l /\ fl_end l <= LLONG_MAX /\
      forall b, covers l b <->
        if l_len f =? 0 then l_start f <= b <= LLONG_MAX
        else if l_len f <? 0 then l_start f + l_len f <= b < l_start f
        else l_start f <= b < l_start f + l_len f
  end.
Proof.
  intros Hf. pose proof (normalize_flock_range f) as Hr. destruct Hf as [Hs Hl].
  unfold normalize_flock, s64, LLONG_MAX, flock_s64 in *.
  destruct (Z.ltb_spec (l_start f) 0); [cbn; lia|]. cbn [orb] in *.
  destruct (Z.ltb_spec (wrap_s64 (l_start f + l_len f)) 0) as [Hw|Hw].
  { destruct (Z.lt_ge_cases (l_start f + l_len f) (2 ^ 63)); [|lia].
    rewrite wrap_s64_id in Hw by lia. lia. }
  destruct (Z.ltb_spec (l_len f) 0) as [Hn|Hn].
  - destruct (Hr _ (conj Hs Hl) eq_refl) as (? & ? & ?). cbn in *. unfold covers. cbn.
    destruct (Z.eqb_spec (Z.abs (l_len f)) 0); [lia|].
    destruct (Z.eqb_spec (l_len f) 0); [lia|].
    repeat split; intros; lia.
  - destruct (Hr _ (conj Hs Hl) eq_refl) as (? & ? & ?). unfold covers, valid. cbn. unfold LLONG_MAX.
    destruct (Z.eqb_spec (l_len f) 0); repeat split; intros; lia.
Qed.

Lemma lk_range_check_witness :
  normalize_flock (ex_flock F_RDLCK 100 (-40)) = Some (ex_flock F_RDLCK 60 40) /\
  covers (new_posix_lock (ex_flock F_RDLCK 60 40) 1 1 [1] 1 0 false) 99.
Proof.
  split; [reflexivity|].
  apply (lk_range_check (ex_flock F_RDLCK 100 (-40)) 1 1 [1] 1 0 false).
  - split; unfold s64; cbn; lia.
  - cbn. lia.
Defined.

(** ** flush *)

Lemma owned_by_spec c o l : owned_by c o l = true <-> own l = (c, o).
Proof.
  unfold owned_by, own. rewrite andb_true_iff, Z.eqb_eq, is_same_lkowner_spec.
  split; [intros [-> ->]; auto | intros [=]; auto].
Qed.

(** C37: After a flush by an owner that has no waiting request, that owner holds
    no byte of the file: closing a descriptor releases every lock its owner
    has on the inode, and granting the requests this unblocks gives nothing
    back to it. *)
Theorem flush_releases_owner mode i c o fd i' err ev :
  InodeInv i -> migrated i = false -> o <> [] ->
  (forall l, l ∈ waiting (ext_list i) -> own l <> (c, o)) ->
  pl_flush mode i c o fd = (i', err, ev) ->
  err = None /\ forall t b, ~ holds (ext_list i') (c, o) t b.
Proof.
  intros [HI _] Hm Ho Hw. unfold pl_flush. rewrite Hm. destruct o as [|x o]; [contradiction|].
  set (ext1 := __delete_locks_of_owner _ _ _).
  assert (HI1 : Inv ext1) by (apply Inv_filter, HI).
  unfold grant_blocked_locks. cbn [ext_list set_ext_list].
  pose proof (grant_owners ext1 (c, x :: o)) as HG.
  destruct (__grant_blocked_locks ext1) as [ext2 granted]. cbn in HG.
  destruct (do_blocked_rw mode _) as [i3 ev3] eqn:E3. intros [= <- <- <-].
  split; [reflexivity|]. intros t b H.
  pose proof (do_blocked_rw_ext mode (set_ext_list ext2 (set_ext_list ext1 i))) as Hx.
  rewrite E3 in Hx. cbn in Hx. rewrite Hx in H.
  destruct (HG t b HI1 H) as [(l & Hl & Hb & Hown & _)|(l & Hl & Hown)].
  - apply list_elem_of_filter in Hl as [[Hbl|Hno] _]; [congruence|].
    apply owned_by_spec in Hown. congruence.
  - apply (Hw l); auto. apply list_elem_of_filter in Hl as [? [_ Hl]%list_elem_of_filter].
    apply list_elem_of_filter. auto.
Qed.

Lemma ex_inode_inv : InodeInv ex_inode.
Proof. exact (reachable_inv _ _ _ ex_inode_reachable). Qed.

Lemma flush_releases_owner_witness :
  let '(i', err, ev) := pl_flush MLK_NONE ex_inode 1 [1] 1 in
  err = None /\ forall t b, ~ holds (ext_list i') (1, [1]) t b.
Proof.
  destruct (pl_flush MLK_NONE ex_inode 1 [1] 1) as [[i' err] ev] eqn:E.
  apply (flush_releases_owner MLK_NONE ex_inode 1 [1] 1 i' err ev).
  - exact ex_inode_inv.
  - reflexivity.
  - discriminate.
  - intros l Hl. vm_compute in Hl. apply list_elem_of_singleton in Hl as ->. discriminate.
  - exact E.
Defined.

(** ** Mandatory locks *)

(** The locks that stop an I/O request of owner [own region] on its region. *)
Definition stops (mode : mlk_mode) (op : rw_fop) (region l : posix_lock) : Prop :=
  touches region l /\ own l <> own region /\
  (op = GF_FOP_WRITE \/ fl_type l = F_WRLCK) /\
  (mode = MLK_OPTIMAL -> Z.land (lk_flags l) GF_LK_MANDATORY <> 0).

Lemma rw_allowable_spec mode ext region op :
  __rw_allowable mode ext region op = true <-> forall l, l ∈ ext -> ~ stops mode op region l.
Proof.
  induction ext as [|l ext IH]; cbn [__rw_allowable].
  { split; [intros _ l []%elem_of_nil | auto]. }
  setoid_rewrite elem_of_cons.
  assert (Hskip : ~ stops mode op region l ->
    __rw_allowable mode ext region op = true <->
    forall x, x = l \/ x ∈ ext -> ~ stops mode op region x).
  { intros Hl. rewrite IH. split; [intros H x [->|?]; auto | intros H x Hx; auto]. }
  assert (Hstop : stops mode op region l ->
    false = true <-> forall x, x = l \/ x ∈ ext -> ~ stops mode op region x).
  { intros Hl. split; [discriminate | intros H; exfalso; exact (H l (or_introl eq_refl) Hl)]. }
  unfold stops, touches in Hskip, Hstop.
  destruct (blocked l) eqn:Hb; cbn [negb andb]; [apply Hskip; intuition congruence|].
  destruct (locks_overlap_spec l region); cbn [andb]; [|apply Hskip; tauto].
  destruct (same_owner_spec l region); cbn [negb]; [apply Hskip; tauto|].
  destruct op, (fl_type l) eqn:El; try (apply Hskip; intuition congruence);
    destruct mode; try (apply Hstop; repeat split; intuition congruence);
    destruct (Z.eqb_spec (Z.land (lk_flags l) GF_LK_MANDATORY) 0);
    first [ apply Hskip; intuition congruence | apply Hstop; intuition congruence ].
Qed.

(** A request whose bytes have offsets of type off_t; the length of a write fits an
    int. *)
Definition within_off_t (op : rw_fop) (off size : Z) : Prop :=
  0 <= off /\ 0 <= size /\ off + size <= 2 ^ 63 /\ (op = GF_FOP_WRITE -> size < 2 ^ 31).

Lemma region_end_exact op off size : within_off_t op off size -> region_end op off size = off + size - 1.
Proof.
  intros (Ho & Hs & Hos & Hw). destruct op; cbn; [|rewrite s32_id by (specialize (Hw eq_refl); lia)]; apply wrap_s64_id; lia.
Qed.

(** C38: With mandatory locking in force, a request of a client (pid not negative)
    whose bytes all have offsets of type off_t, and in the case of a write fewer
    than 2^31 of them, is passed on to the brick by [pl_readv] and [pl_writev]
    exactly when no granted lock of another owner on one of these bytes stops it (any
    lock stops a write, a write lock stops a read, and in optimal mode only a lock
    taken with the mandatory flag does); otherwise the request fails with EAGAIN on
    a non-blocking descriptor and is queued on the inode on a blocking one.  The lock
    table is not changed. *)
Theorem mandatory_gate mode op i fr pid c o fd nonblock off size i' ev :
  pl_is_mandatory_locking_enabled mode i = true -> 0 <= pid -> within_off_t op off size ->
  pl_rw mode op i fr pid c o fd nonblock off size = (i', ev) ->
  let region := mk_lock F_RDLCK off (off + size - 1) 0 false zero_flock fd None c o pid false in
  ext_list i' = ext_list i /\
  (ev = [Wind_rw (Some fr)] <-> forall l, l ∈ ext_list i -> ~ stops mode op region l) /\
  (ev <> [Wind_rw (Some fr)] ->
   if nonblock then ev = [Unwind_rw (Some fr) EAGAIN] /\ i' = i
   else ev = [] /\ rw_list i' = rw_list i ++ [mk_rw fr op region]).
Proof.
  intros He Hp Hr. unfold pl_rw, pl_is_fop_allowed. rewrite He, (region_end_exact _ _ _ Hr).
  destruct (Z.ltb_spec pid 0); [lia|]. cbn [negb andb].
  set (region := mk_lock _ _ _ _ _ _ _ _ _ _ _ _).
  pose proof (rw_allowable_spec mode (ext_list i) region op) as HA.
  destruct (__rw_allowable mode (ext_list i) region op).
  { intros [= <- <-]. split; [auto|]. split; [tauto | congruence]. }
  destruct nonblock; cbn [negb]; intros [= <- <-];
    (split; [reflexivity|]; split; [split; [discriminate | intros H0; apply HA in H0; discriminate] | auto]).
Qed.

Lemma mandatory_gate_witness :
  let '(i', ev) := pl_rw MLK_FORCED GF_FOP_WRITE ex_inode 7 100 9 [9] 9 false 120 10 in
  ext_list i' = ext_list ex_inode /\ rw_list i' <> [].
Proof.
  destruct (pl_rw MLK_FORCED GF_FOP_WRITE ex_inode 7 100 9 [9] 9 false 120 10) as [i' ev] eqn:E.
  destruct (mandatory_gate MLK_FORCED GF_FOP_WRITE ex_inode 7 100 9 [9] 9 false 120 10 i' ev)
    as (H1 & _ & H3).
  - reflexivity.
  - lia.
  - repeat split; lia.
  - exact E.
  - split; [exact H1|].
    destruct H3 as [_ ->]; [vm_compute in E; injection E as _ <-; discriminate | discriminate].
Defined.

(** The end of a read that goes past the last off_t is negative, and no lock stops
    it. *)
Lemma wrapped_read_passes mode i fr pid c o fd nonblock off size :
  off < 2 ^ 63 -> 2 ^ 63 < off + size <= 2 ^ 64 -> Forall (fun l => 0 <= fl_start l) (ext_list i) ->
  pl_rw mode GF_FOP_READ i fr pid c o fd nonblock off size = (i, [Wind_rw (Some fr)]).
Proof.
  intros Ho Hs Hl. unfold pl_rw, pl_is_fop_allowed. destruct (negb _); [reflexivity|].
  set (region := mk_lock _ _ _ _ _ _ _ _ _ _ _ _).
  pose proof (wrap_s64_over (off + size - 1) ltac:(lia)) as Hneg.
  assert (HA : __rw_allowable mode (ext_list i) region GF_FOP_READ = true).
  { apply rw_allowable_spec. intros l Hin (Ht & _). rewrite Forall_forall in Hl. specialize (Hl l Hin).
    unfold touches in Ht. cbn in Ht. lia. }
  rewrite HA. reflexivity.
Qed.
