(* ===== verification/EcGf8.v ===== *)
(** * The multiplication programs of the disperse translator

    Models [xlators/cluster/ec/src/ec-gf8.c] and the types of [ec-types.h] it
    uses: for every factor of GF(2^8), the sequence of register operations
    that multiplies eight bit planes by it, and the renaming [map] of the
    registers that hold the result.  The tables are those of the source, four
    multipliers per definition. *)

From S2P Require Import Prelude.
Open Scope nat_scope.

Inductive ec_gf_opcode :=
  | EC_GF_OP_LOAD | EC_GF_OP_STORE | EC_GF_OP_COPY | EC_GF_OP_XOR2
  | EC_GF_OP_XOR3 | EC_GF_OP_XORM | EC_GF_OP_END.

Record ec_gf_op := mk_op {
  op_code : ec_gf_opcode;
  op_arg1 : nat;
  op_arg2 : nat;
  op_arg3 : nat
}.

(** [mul_map] lists the initialised cells of the array [map]. *)
Record ec_gf_mul_t := mk_mul {
  mul_regs : nat;
  mul_map : list nat;
  mul_ops : list ec_gf_op
}.

(** ec_gf8_mul_00 to ec_gf8_mul_03. *)
Definition ec_gf8_mul_00_03 : list ec_gf_mul_t := [
  mk_mul 0 [0] [
    mk_op EC_GF_OP_END 0 0 0];
  mk_mul 8 [0; 1; 2; 3; 4; 5; 6; 7] [
    mk_op EC_GF_OP_END 0 0 0];
  mk_mul 8 [7; 0; 1; 2; 3; 4; 5; 6] [
    mk_op EC_GF_OP_XOR2 1 7 0;
    mk_op EC_GF_OP_XOR2 2 7 0;
    mk_op EC_GF_OP_XOR2 3 7 0;
    mk_op EC_GF_OP_END 0 0 0];
  mk_mul 9 [0; 1; 2; 3; 4; 5; 6; 7; 8] [
    mk_op EC_GF_OP_XOR2 3 7 0;
    mk_op EC_GF_OP_COPY 8 3 0;
    mk_op EC_GF_OP_XOR2 3 2 0;
    mk_op EC_GF_OP_XOR2 2 1 0;
    mk_op EC_GF_OP_XOR2 1 0 0;
    mk_op EC_GF_OP_XOR2 2 7 0;
    mk_op EC_GF_OP_XOR2 0 7 0;
    mk_op EC_GF_OP_XOR2 7 6 0;
    mk_op EC_GF_OP_XOR2 6 5 0;
    mk_op EC_GF_OP_XOR2 5 4 0;
    mk_op EC_GF_OP_XOR2 4 8 0;
    mk_op EC_GF_OP_END 0 0 0]].

(** ec_gf8_mul_04 to ec_gf8_mul_07. *)
Definition ec_gf8_mul_04_07 : list ec_gf_mul_t := [
  mk_mul 9 [6; 7; 0; 1; 2; 3; 4; 5; 8] [
    mk_op EC_GF_OP_XOR3 8 6 7;
    mk_op EC_GF_OP_XOR2 2 8 0;
    mk_op EC_GF_OP_XOR2 3 7 0;
    mk_op EC_GF_OP_XOR2 1 8 0;
    mk_op EC_GF_OP_XOR2 0 6 0;
    mk_op EC_GF_OP_END 0 0 0];
  mk_mul 8 [0; 1; 2; 6; 7; 3; 4; 5] [
    mk_op EC_GF_OP_XOR2 4 6 0;
    mk_op EC_GF_OP_XOR2 1 7 0;
    mk_op EC_GF_OP_XOR2 5 7 0;
    mk_op EC_GF_OP_XOR2 0 6 0;
    mk_op EC_GF_OP_XOR2 7 4 0;
    mk_op EC_GF_OP_XOR2 6 3 0;
    mk_op EC_GF_OP_XOR2 7 2 0;
    mk_op EC_GF_OP_XOR2 6 1 0;
    mk_op EC_GF_OP_XOR2 3 5 0;
    mk_op EC_GF_OP_XOR2 2 0 0;
    mk_op EC_GF_OP_END 0 0 0];
  mk_mul 9 [7; 0; 1; 2; 8; 3; 4; 5; 6] [
    mk_op EC_GF_OP_XOR2 2 6 0;
    mk_op EC_GF_OP_COPY 8 2 0;
    mk_op EC_GF_OP_XOR2 8 3 0;
    mk_op EC_GF_OP_XOR2 2 1 0;
    mk_op EC_GF_OP_XOR2 3 4 0;
    mk_op EC_GF_OP_XOR2 1 0 0;
    mk_op EC_GF_OP_XOR2 3 7 0;
    mk_op EC_GF_OP_XOR2 0 7 0;
    mk_op EC_GF_OP_XOR2 7 6 0;
    mk_op EC_GF_OP_XOR2 4 5 0;
    mk_op EC_GF_OP_XOR2 1 7 0;
    mk_op EC_GF_OP_XOR2 5 6 0;
    mk_op EC_GF_OP_END 0 0 0];
  mk_mul 8 [6; 0; 1; 3; 2; 4; 5; 7] [
    mk_op EC_GF_OP_XOR2 5 6 0;
    mk_op EC_GF_OP_XOR2 0 7 0;
    mk_op EC_GF_OP_XOR2 3 6 0;
    mk_op EC_GF_OP_XOR2 7 5 0;
    mk_op EC_GF_OP_XOR2 6 0 0;
    mk_op EC_GF_OP_XOR2 0 1 0;
    mk_op EC_GF_OP_XOR2 5 4 0;
    mk_op EC_GF_OP_XOR2 4 3 0;
    mk_op EC_GF_OP_XOR2 1 2 0;
    mk_op EC_GF_OP_XOR2 2 4 0;
    mk_op EC_GF_OP_XOR2 3 1 0;
    mk_op EC_GF_OP_XOR2 4 7 0;
    mk_op EC_GF_OP_XOR2 1 6 0;
    mk_op EC_GF_OP_END 0 0 0]].

(** ec_gf8_mul_08 to ec_gf8_mul_0B. *)
Definition ec_gf8_mul_08_0B : list ec_gf_mul_t := [
  mk_mul 9 [5; 6; 7; 0; 1; 2; 3; 4; 8] [
    mk_op EC_GF_OP_XOR2 0 5 0;
    mk_op EC_GF_OP_XOR2 1 5 0;
    mk_op EC_GF_OP_XOR2 0 6 0;
    mk_op EC_GF_OP_XOR3 8 6 7;
    mk_op EC_GF_OP_XOR2 1 8 0;
    mk_op EC_GF_OP_XOR2 3 7 0;
    mk_op EC_GF_OP_XOR2 7 5 0;
    mk_op EC_GF_OP_XOR2 2 8 0;
    mk_op EC_GF_OP_END 0 0 0];
  mk_mul 8 [0; 1; 2; 3; 5; 6; 7; 4] [
    mk_op EC_GF_OP_XOR2 2 4 0;
    mk_op EC_GF_OP_XOR2 4 7 0;
    mk_op EC_GF_OP_XOR2 0 5 0;
    mk_op EC_GF_OP_XOR2 5 4 0;
    mk_op EC_GF_OP_XOR2 3 6 0;
    mk_op EC_GF_OP_XOR2 2 5 0;
    mk_op EC_GF_OP_XOR2 1 6 0;
    mk_op EC_GF_OP_XOR2 7 3 0;
    mk_op EC_GF_OP_XOR2 6 2 0;
    mk_op EC_GF_OP_XOR2 5 1 0;
    mk_op EC_GF_OP_XOR2 3 0 0;
    mk_op EC_GF_OP_END 0 0 0];
  mk_mul 8 [5; 0; 1; 2; 6; 7; 3; 4] [
    mk_op EC_GF_OP_XOR2 1 5 0;
    mk_op EC_GF_OP_XOR2 4 6 0;
    mk_op EC_GF_OP_XOR2 5 7 0;
    mk_op EC_GF_OP_XOR2 7 4 0;
    mk_op EC_GF_OP_XOR2 0 6 0;
    mk_op EC_GF_OP_XOR2 7 2 0;
    mk_op EC_GF_OP_XOR2 6 1 0;
    mk_op EC_GF_OP_XOR2 2 0 0;
    mk_op EC_GF_OP_XOR2 6 3 0;
    mk_op EC_GF_OP_XOR2 2 5 0;
    mk_op EC_GF_OP_XOR2 3 5 0;
    mk_op EC_GF_OP_END 0 0 0];
  mk_mul 10 [7; 1; 5; 2; 4; 3; 0; 6; 8; 9] [
    mk_op EC_GF_OP_XOR2 4 7 0;
    mk_op EC_GF_OP_XOR2 7 0 0;
    mk_op EC_GF_OP_XOR2 7 5 0;
    mk_op EC_GF_OP_XOR2 3 7 0;
    mk_op EC_GF_OP_COPY 9 3 0;
    mk_op EC_GF_OP_XOR2 5 2 0;
    mk_op EC_GF_OP_XOR2 3 6 0;
    mk_op EC_GF_OP_COPY 8 5 0;
    mk_op EC_GF_OP_XOR2 0 3 0;
    mk_op EC_GF_OP_XOR2 5 1 0;
    mk_op EC_GF_OP_XOR2 6 4 0;
    mk_op EC_GF_OP_XOR2 1 0 0;
    mk_op EC_GF_OP_XOR2 2 3 0;
    mk_op EC_GF_OP_XOR2 4 1 0;
    mk_op EC_GF_OP_XOR3 3 8 6;
    mk_op EC_GF_OP_XOR2 1 9 0;
    mk_op EC_GF_OP_END 0 0 0]].

(** ec_gf8_mul_0C to ec_gf8_mul_0F. *)
Definition ec_gf8_mul_0C_0F : list ec_gf_mul_t := [
  mk_mul 9 [5; 7; 0; 1; 8; 2; 3; 4; 6] [
    mk_op EC_GF_OP_XOR2 1 5 0;
    mk_op EC_GF_OP_COPY 8 1 0;
    mk_op EC_GF_OP_XOR2 8 2 0;
    mk_op EC_GF_OP_XOR2 2 3 0;
    mk_op EC_GF_OP_XOR2 3 4 0;
    mk_op EC_GF_OP_XOR2 0 7 0;
    mk_op EC_GF_OP_XOR2 4 5 0;
    mk_op EC_GF_OP_XOR2 3 7 0;
    mk_op EC_GF_OP_XOR2 5 6 0;
    mk_op EC_GF_OP_XOR2 1 0 0;
    mk_op EC_GF_OP_XOR2 2 6 0;
    mk_op EC_GF_OP_XOR2 7 6 0;
    mk_op EC_GF_OP_XOR2 0 5 0;
    mk_op EC_GF_OP_END 0 0 0];
  mk_mul 9 [5; 6; 7; 3; 1; 0; 2; 4; 8] [
    mk_op EC_GF_OP_XOR2 5 7 0;
    mk_op EC_GF_OP_XOR2 4 5 0;
    mk_op EC_GF_OP_XOR2 5 0 0;
    mk_op EC_GF_OP_XOR2 5 1 0;
    mk_op EC_GF_OP_XOR2 1 7 0;
    mk_op EC_GF_OP_XOR2 0 3 0;
    mk_op EC_GF_OP_XOR2 6 1 0;
    mk_op EC_GF_OP_XOR2 3 5 0;
    mk_op EC_GF_OP_XOR3 8 2 4;
    mk_op EC_GF_OP_XOR2 5 6 0;
    mk_op EC_GF_OP_XOR2 2 5 0;
    mk_op EC_GF_OP_XOR2 1 8 0;
    mk_op EC_GF_OP_XOR2 0 2 0;
    mk_op EC_GF_OP_XOR2 7 2 0;
    mk_op EC_GF_OP_XOR3 2 8 0;
    mk_op EC_GF_OP_END 0 0 0];
  mk_mul 8 [7; 0; 6; 1; 3; 2; 4; 5] [
    mk_op EC_GF_OP_XOR2 0 5 0;
    mk_op EC_GF_OP_XOR2 5 6 0;
    mk_op EC_GF_OP_XOR2 1 0 0;
    mk_op EC_GF_OP_XOR2 7 5 0;
    mk_op EC_GF_OP_XOR2 3 6 0;
    mk_op EC_GF_OP_XOR2 0 7 0;
    mk_op EC_GF_OP_XOR2 5 4 0;
    mk_op EC_GF_OP_XOR2 6 1 0;
    mk_op EC_GF_OP_XOR2 4 3 0;
    mk_op EC_GF_OP_XOR2 1 2 0;
    mk_op EC_GF_OP_XOR2 3 0 0;
    mk_op EC_GF_OP_XOR2 2 4 0;
    mk_op EC_GF_OP_XOR2 3 1 0;
    mk_op EC_GF_OP_XOR2 4 7 0;
    mk_op EC_GF_OP_END 0 0 0];
  mk_mul 8 [1; 0; 5; 6; 7; 2; 3; 4] [
    mk_op EC_GF_OP_XOR2 2 7 0;
    mk_op EC_GF_OP_XOR2 7 1 0;
    mk_op EC_GF_OP_XOR2 7 6 0;
    mk_op EC_GF_OP_XOR2 4 0 0;
    mk_op EC_GF_OP_XOR2 0 7 0;
    mk_op EC_GF_OP_XOR2 5 0 0;
    mk_op EC_GF_OP_XOR2 6 3 0;
    mk_op EC_GF_OP_XOR2 1 5 0;
    mk_op EC_GF_OP_XOR2 5 2 0;
    mk_op EC_GF_OP_XOR2 4 1 0;
    mk_op EC_GF_OP_XOR2 3 4 0;
    mk_op EC_GF_OP_XOR2 6 5 0;
    mk_op EC_GF_OP_XOR2 2 3 0;
    mk_op EC_GF_OP_XOR2 7 2 0;
    mk_op EC_GF_OP_END 0 0 0]].

(** ec_gf8_mul_10 to ec_gf8_mul_13. *)
Definition ec_gf8_mul_10_13 : list ec_gf_mul_t := [
  mk_mul 8 [4; 5; 6; 7; 0; 1; 2; 3] [
    mk_op EC_GF_OP_XOR2 3 7 0;
    mk_op EC_GF_OP_XOR2 7 6 0;
    mk_op EC_GF_OP_XOR2 2 7 0;
    mk_op EC_GF_OP_XOR2 7 5 0;
    mk_op EC_GF_OP_XOR2 6 4 0;
    mk_op EC_GF_OP_XOR2 0 5 0;
    mk_op EC_GF_OP_XOR2 1 7 0;
    mk_op EC_GF_OP_XOR2 0 6 0;
    mk_op EC_GF_OP_XOR2 7 6 0;
    mk_op EC_GF_OP_END 0 0 0];
  mk_mul 8 [4; 1; 2; 6; 0; 5; 7; 3] [
    mk_op EC_GF_OP_XOR2 1 5 0;
    mk_op EC_GF_OP_XOR2 5 6 0;
    mk_op EC_GF_OP_XOR2 6 4 0;
    mk_op EC_GF_OP_XOR2 4 0 0;
    mk_op EC_GF_OP_XOR2 0 5 0;
    mk_op EC_GF_OP_XOR2 5 7 0;
    mk_op EC_GF_OP_XOR2 7 2 0;
    mk_op EC_GF_OP_XOR2 2 6 0;
    mk_op EC_GF_OP_XOR2 6 3 0;
    mk_op EC_GF_OP_XOR2 6 5 0;
    mk_op EC_GF_OP_XOR2 5 1 0;
    mk_op EC_GF_OP_END 0 0 0];
  mk_mul 8 [7; 0; 1; 2; 3; 5; 6; 4] [
    mk_op EC_GF_OP_XOR2 7 4 0;
    mk_op EC_GF_OP_XOR2 6 7 0;
    mk_op EC_GF_OP_XOR2 2 4 0;
    mk_op EC_GF_OP_XOR2 3 6 0;
    mk_op EC_GF_OP_XOR2 4 3 0;
    mk_op EC_GF_OP_XOR2 1 6 0;
    mk_op EC_GF_OP_XOR2 2 5 0;
    mk_op EC_GF_OP_XOR2 0 5 0;
    mk_op EC_GF_OP_XOR2 6 2 0;
    mk_op EC_GF_OP_XOR2 5 1 0;
    mk_op EC_GF_OP_XOR2 3 0 0;
    mk_op EC_GF_OP_END 0 0 0];
  mk_mul 9 [4; 5; 2; 6; 0; 1; 7; 3; 8] [
    mk_op EC_GF_OP_XOR2 4 7 0;
    mk_op EC_GF_OP_XOR2 7 5 0;
    mk_op EC_GF_OP_XOR2 3 6 0;
    mk_op EC_GF_OP_XOR2 5 1 0;
    mk_op EC_GF_OP_XOR2 6 4 0;
    mk_op EC_GF_OP_XOR2 7 2 0;
    mk_op EC_GF_OP_XOR2 4 0 0;
    mk_op EC_GF_OP_XOR2 5 0 0;
    mk_op EC_GF_OP_XOR2 1 6 0;
    mk_op EC_GF_OP_XOR3 8 3 7;
    mk_op EC_GF_OP_XOR2 0 2 0;
    mk_op EC_GF_OP_XOR2 6 8 0;
    mk_op EC_GF_OP_XOR2 2 1 0;
    mk_op EC_GF_OP_XOR2 0 8 0;
    mk_op EC_GF_OP_END 0 0 0]].

(** ec_gf8_mul_14 to ec_gf8_mul_17. *)
Definition ec_gf8_mul_14_17 : list ec_gf_mul_t := [
  mk_mul 8 [6; 7; 0; 1; 2; 4; 5; 3] [
    mk_op EC_GF_OP_XOR2 6 4 0;
    mk_op EC_GF_OP_XOR2 7 5 0;
    mk_op EC_GF_OP_XOR2 5 6 0;
    mk_op EC_GF_OP_XOR2 2 7 0;
    mk_op EC_GF_OP_XOR2 0 4 0;
    mk_op EC_GF_OP_XOR2 1 5 0;
    mk_op EC_GF_OP_XOR2 5 2 0;
    mk_op EC_GF_OP_XOR2 4 3 0;
    mk_op EC_GF_OP_XOR2 2 0 0;
    mk_op EC_GF_OP_XOR2 3 7 0;
    mk_op EC_GF_OP_XOR2 4 1 0;
    mk_op EC_GF_OP_END 0 0 0];
  mk_mul 9 [0; 1; 2; 4; 7; 6; 5; 3; 8] [
    mk_op EC_GF_OP_COPY 8 0 0;
    mk_op EC_GF_OP_XOR2 0 4 0;
    mk_op EC_GF_OP_XOR2 2 0 0;
    mk_op EC_GF_OP_XOR2 0 6 0;
    mk_op EC_GF_OP_XOR2 6 1 0;
    mk_op EC_GF_OP_XOR2 1 5 0;
    mk_op EC_GF_OP_XOR2 4 5 0;
    mk_op EC_GF_OP_XOR2 1 7 0;
    mk_op EC_GF_OP_XOR2 6 3 0;
    mk_op EC_GF_OP_XOR2 7 2 0;
    mk_op EC_GF_OP_XOR2 3 5 0;
    mk_op EC_GF_OP_XOR3 5 8 7;
    mk_op EC_GF_OP_XOR2 7 4 0;
    mk_op EC_GF_OP_XOR2 4 6 0;
    mk_op EC_GF_OP_END 0 0 0];
  mk_mul 8 [6; 7; 4; 1; 2; 3; 5; 0] [
    mk_op EC_GF_OP_XOR2 4 7 0;
    mk_op EC_GF_OP_XOR2 3 6 0;
    mk_op EC_GF_OP_XOR2 7 5 0;
    mk_op EC_GF_OP_XOR2 6 4 0;
    mk_op EC_GF_OP_XOR2 7 0 0;
    mk_op EC_GF_OP_XOR2 2 6 0;
    mk_op EC_GF_OP_XOR2 3 7 0;
    mk_op EC_GF_OP_XOR2 4 1 0;
    mk_op EC_GF_OP_XOR2 5 2 0;
    mk_op EC_GF_OP_XOR2 4 0 0;
    mk_op EC_GF_OP_XOR2 2 3 0;
    mk_op EC_GF_OP_XOR2 0 3 0;
    mk_op EC_GF_OP_XOR2 1 5 0;
    mk_op EC_GF_OP_XOR2 3 4 0;
    mk_op EC_GF_OP_END 0 0 0];
  mk_mul 8 [5; 7; 0; 1; 3; 2; 4; 6] [
    mk_op EC_GF_OP_XOR2 3 5 0;
    mk_op EC_GF_OP_XOR2 6 3 0;
    mk_op EC_GF_OP_XOR2 3 0 0;
    mk_op EC_GF_OP_XOR2 7 5 0;
    mk_op EC_GF_OP_XOR2 3 2 0;
    mk_op EC_GF_OP_XOR2 2 7 0;
    mk_op EC_GF_OP_XOR2 4 2 0;
    mk_op EC_GF_OP_XOR2 0 1 0;
    mk_op EC_GF_OP_XOR2 5 4 0;
    mk_op EC_GF_OP_XOR2 7 0 0;
    mk_op EC_GF_OP_XOR2 0 5 0;
    mk_op EC_GF_OP_XOR2 5 6 0;
    mk_op EC_GF_OP_XOR2 1 5 0;
    mk_op EC_GF_OP_XOR2 5 3 0;
    mk_op EC_GF_OP_XOR2 2 1 0;
    mk_op EC_GF_OP_END 0 0 0]].

(** ec_gf8_mul_18 to ec_gf8_mul_1B. *)
Definition ec_gf8_mul_18_1B : list ec_gf_mul_t := [
  mk_mul 9 [4; 5; 7; 6; 0; 1; 2; 3; 8] [
    mk_op EC_GF_OP_XOR2 7 4 0;
    mk_op EC_GF_OP_XOR2 0 7 0;
    mk_op EC_GF_OP_COPY 8 0 0;
    mk_op EC_GF_OP_XOR2 0 1 0;
    mk_op EC_GF_OP_XOR2 1 2 0;
    mk_op EC_GF_OP_XOR2 4 5 0;
    mk_op EC_GF_OP_XOR2 2 3 0;
    mk_op EC_GF_OP_XOR2 1 5 0;
    mk_op EC_GF_OP_XOR2 3 7 0;
    mk_op EC_GF_OP_XOR2 5 6 0;
    mk_op EC_GF_OP_XOR2 2 6 0;
    mk_op EC_GF_OP_XOR2 7 5 0;
    mk_op EC_GF_OP_XOR2 6 8 0;
    mk_op EC_GF_OP_END 0 0 0];
  mk_mul 8 [0; 5; 2; 6; 7; 1; 3; 4] [
    mk_op EC_GF_OP_XOR2 7 0 0;
    mk_op EC_GF_OP_XOR2 0 4 0;
    mk_op EC_GF_OP_XOR2 6 1 0;
    mk_op EC_GF_OP_XOR2 7 1 0;
    mk_op EC_GF_OP_XOR2 4 3 0;
    mk_op EC_GF_OP_XOR2 0 5 0;
    mk_op EC_GF_OP_XOR2 5 6 0;
    mk_op EC_GF_OP_XOR2 3 2 0;
    mk_op EC_GF_OP_XOR2 1 2 0;
    mk_op EC_GF_OP_XOR2 6 7 0;
    mk_op EC_GF_OP_XOR2 2 0 0;
    mk_op EC_GF_OP_XOR2 2 6 0;
    mk_op EC_GF_OP_XOR2 6 4 0;
    mk_op EC_GF_OP_END 0 0 0];
  mk_mul 8 [7; 0; 4; 5; 3; 1; 2; 6] [
    mk_op EC_GF_OP_XOR2 6 5 0;
    mk_op EC_GF_OP_XOR2 5 4 0;
    mk_op EC_GF_OP_XOR2 4 0 0;
    mk_op EC_GF_OP_XOR2 7 5 0;
    mk_op EC_GF_OP_XOR2 0 6 0;
    mk_op EC_GF_OP_XOR2 4 1 0;
    mk_op EC_GF_OP_XOR2 6 3 0;
    mk_op EC_GF_OP_XOR2 3 4 0;
    mk_op EC_GF_OP_XOR2 5 2 0;
    mk_op EC_GF_OP_XOR2 4 0 0;
    mk_op EC_GF_OP_XOR2 2 6 0;
    mk_op EC_GF_OP_XOR2 1 5 0;
    mk_op EC_GF_OP_XOR2 6 7 0;
    mk_op EC_GF_OP_XOR2 5 0 0;
    mk_op EC_GF_OP_END 0 0 0];
  mk_mul 8 [7; 4; 5; 6; 3; 1; 2; 0] [
    mk_op EC_GF_OP_XOR2 1 0 0;
    mk_op EC_GF_OP_XOR2 0 2 0;
    mk_op EC_GF_OP_XOR2 2 5 0;
    mk_op EC_GF_OP_XOR2 7 2 0;
    mk_op EC_GF_OP_XOR2 2 3 0;
    mk_op EC_GF_OP_XOR2 4 0 0;
    mk_op EC_GF_OP_XOR2 3 1 0;
    mk_op EC_GF_OP_XOR2 1 4 0;
    mk_op EC_GF_OP_XOR2 7 4 0;
    mk_op EC_GF_OP_XOR2 6 1 0;
    mk_op EC_GF_OP_XOR2 5 6 0;
    mk_op EC_GF_OP_XOR2 6 3 0;
    mk_op EC_GF_OP_XOR2 4 5 0;
    mk_op EC_GF_OP_XOR2 0 6 0;
    mk_op EC_GF_OP_END 0 0 0]].

(** ec_gf8_mul_1C to ec_gf8_mul_1F. *)
Definition ec_gf8_mul_1C_1F : list ec_gf_mul_t := [
  mk_mul 8 [5; 4; 3; 0; 1; 7; 2; 6] [
    mk_op EC_GF_OP_XOR2 6 4 0;
    mk_op EC_GF_OP_XOR2 5 6 0;
    mk_op EC_GF_OP_XOR2 6 3 0;
    mk_op EC_GF_OP_XOR2 3 0 0;
    mk_op EC_GF_OP_XOR2 0 1 0;
    mk_op EC_GF_OP_XOR2 2 6 0;
    mk_op EC_GF_OP_XOR2 0 4 0;
    mk_op EC_GF_OP_XOR2 7 5 0;
    mk_op EC_GF_OP_XOR2 1 2 0;
    mk_op EC_GF_OP_XOR2 4 7 0;
    mk_op EC_GF_OP_XOR2 7 1 0;
    mk_op EC_GF_OP_XOR2 6 4 0;
    mk_op EC_GF_OP_XOR2 1 3 0;
    mk_op EC_GF_OP_XOR2 3 6 0;
    mk_op EC_GF_OP_END 0 0 0];
  mk_mul 9 [0; 7; 5; 8; 2; 3; 4; 1; 6] [
    mk_op EC_GF_OP_XOR2 7 1 0;
    mk_op EC_GF_OP_XOR2 1 0 0;
    mk_op EC_GF_OP_XOR2 3 2 0;
    mk_op EC_GF_OP_XOR2 0 4 0;
    mk_op EC_GF_OP_XOR2 2 1 0;
    mk_op EC_GF_OP_XOR2 4 3 0;
    mk_op EC_GF_OP_XOR2 3 7 0;
    mk_op EC_GF_OP_XOR3 8 4 2;
    mk_op EC_GF_OP_XOR2 2 6 0;
    mk_op EC_GF_OP_XOR2 6 5 0;
    mk_op EC_GF_OP_XOR2 5 8 0;
    mk_op EC_GF_OP_XOR2 7 6 0;
    mk_op EC_GF_OP_XOR2 0 6 0;
    mk_op EC_GF_OP_XOR2 1 5 0;
    mk_op EC_GF_OP_XOR2 5 3 0;
    mk_op EC_GF_OP_END 0 0 0];
  mk_mul 8 [4; 7; 5; 1; 6; 0; 2; 3] [
    mk_op EC_GF_OP_XOR2 4 0 0;
    mk_op EC_GF_OP_XOR2 0 5 0;
    mk_op EC_GF_OP_XOR2 0 6 0;
    mk_op EC_GF_OP_XOR2 1 4 0;
    mk_op EC_GF_OP_XOR2 5 1 0;
    mk_op EC_GF_OP_XOR2 2 7 0;
    mk_op EC_GF_OP_XOR2 7 0 0;
    mk_op EC_GF_OP_XOR2 1 2 0;
    mk_op EC_GF_OP_XOR2 6 3 0;
    mk_op EC_GF_OP_XOR2 4 7 0;
    mk_op EC_GF_OP_XOR2 6 1 0;
    mk_op EC_GF_OP_XOR2 3 4 0;
    mk_op EC_GF_OP_XOR2 0 6 0;
    mk_op EC_GF_OP_XOR2 2 3 0;
    mk_op EC_GF_OP_END 0 0 0];
  mk_mul 9 [1; 4; 5; 6; 7; 0; 3; 2; 8] [
    mk_op EC_GF_OP_XOR2 5 2 0;
    mk_op EC_GF_OP_XOR2 5 4 0;
    mk_op EC_GF_OP_XOR2 3 5 0;
    mk_op EC_GF_OP_XOR2 5 0 0;
    mk_op EC_GF_OP_XOR2 5 1 0;
    mk_op EC_GF_OP_XOR2 6 3 0;
    mk_op EC_GF_OP_XOR2 7 5 0;
    mk_op EC_GF_OP_XOR2 2 6 0;
    mk_op EC_GF_OP_XOR2 7 2 0;
    mk_op EC_GF_OP_XOR3 8 3 7;
    mk_op EC_GF_OP_XOR2 4 8 0;
    mk_op EC_GF_OP_XOR2 1 8 0;
    mk_op EC_GF_OP_XOR2 6 4 0;
    mk_op EC_GF_OP_XOR2 0 6 0;
    mk_op EC_GF_OP_END 0 0 0]].

(** ec_gf8_mul_20 to ec_gf8_mul_23. *)
Definition ec_gf8_mul_20_23 : list ec_gf_mul_t := [
  mk_mul 8 [7; 4; 5; 6; 3; 0; 1; 2] [
    mk_op EC_GF_OP_XOR2 6 7 0;
    mk_op EC_GF_OP_XOR2 1 5 0;
    mk_op EC_GF_OP_XOR2 7 3 0;
    mk_op EC_GF_OP_XOR2 1 6 0;
    mk_op EC_GF_OP_XOR2 3 4 0;
    mk_op EC_GF_OP_XOR2 2 6 0;
    mk_op EC_GF_OP_XOR2 6 3 0;
    mk_op EC_GF_OP_XOR2 3 5 0;
    mk_op EC_GF_OP_XOR2 5 7 0;
    mk_op EC_GF_OP_XOR2 0 5 0;
    mk_op EC_GF_OP_XOR2 0 6 0;
    mk_op EC_GF_OP_END 0 0 0];
  mk_mul 10 [0; 1; 2; 7; 5; 4; 3; 6; 8; 9] [
    mk_op EC_GF_OP_COPY 9 0 0;
    mk_op EC_GF_OP_XOR2 0 3 0;
    mk_op EC_GF_OP_XOR2 5 3 0;
    mk_op EC_GF_OP_XOR2 3 1 0;
    mk_op EC_GF_OP_XOR2 1 4 0;
    mk_op EC_GF_OP_XOR2 4 6 0;
    mk_op EC_GF_OP_XOR3 8 7 5;
    mk_op EC_GF_OP_XOR2 0 7 0;
    mk_op EC_GF_OP_XOR2 6 2 0;
    mk_op EC_GF_OP_XOR2 7 4 0;
    mk_op EC_GF_OP_XOR2 3 8 0;
    mk_op EC_GF_OP_XOR2 2 8 0;
    mk_op EC_GF_OP_XOR2 4 9 0;
    mk_op EC_GF_OP_END 0 0 0];
  mk_mul 8 [3; 0; 5; 2; 6; 4; 1; 7] [
    mk_op EC_GF_OP_XOR2 0 4 0;
    mk_op EC_GF_OP_XOR2 4 6 0;
    mk_op EC_GF_OP_XOR2 6 7 0;
    mk_op EC_GF_OP_XOR2 7 2 0;
    mk_op EC_GF_OP_XOR2 2 3 0;
    mk_op EC_GF_OP_XOR2 2 4 0;
    mk_op EC_GF_OP_XOR2 4 5 0;
    mk_op EC_GF_OP_XOR2 5 3 0;
    mk_op EC_GF_OP_XOR2 5 1 0;
    mk_op EC_GF_OP_XOR2 1 6 0;
    mk_op EC_GF_OP_XOR2 6 4 0;
    mk_op EC_GF_OP_XOR2 4 0 0;
    mk_op EC_GF_OP_END 0 0 0];
  mk_mul 9 [0; 4; 3; 2; 5; 6; 1; 8; 7] [
    mk_op EC_GF_OP_COPY 8 2 0;
    mk_op EC_GF_OP_XOR2 2 4 0;
    mk_op EC_GF_OP_XOR2 2 6 0;
    mk_op EC_GF_OP_XOR2 4 0 0;
    mk_op EC_GF_OP_XOR2 6 0 0;
    mk_op EC_GF_OP_XOR2 0 3 0;
    mk_op EC_GF_OP_XOR2 3 5 0;
    mk_op EC_GF_OP_XOR2 3 8 0;
    mk_op EC_GF_OP_XOR2 4 1 0;
    mk_op EC_GF_OP_XOR2 5 7 0;
    mk_op EC_GF_OP_XOR2 3 1 0;
    mk_op EC_GF_OP_XOR2 1 7 0;
    mk_op EC_GF_OP_END 0 0 0]].

(** ec_gf8_mul_24 to ec_gf8_mul_27. *)
Definition ec_gf8_mul_24_27 : list ec_gf_mul_t := [
  mk_mul 8 [6; 7; 0; 1; 2; 4; 5; 3] [
    mk_op EC_GF_OP_XOR2 6 3 0;
    mk_op EC_GF_OP_XOR2 6 7 0;
    mk_op EC_GF_OP_XOR2 5 6 0;
    mk_op EC_GF_OP_XOR2 2 0 0;
    mk_op EC_GF_OP_XOR2 0 5 0;
    mk_op EC_GF_OP_XOR2 7 4 0;
    mk_op EC_GF_OP_XOR2 3 4 0;
    mk_op EC_GF_OP_XOR2 4 0 0;
    mk_op EC_GF_OP_XOR2 1 3 0;
    mk_op EC_GF_OP_XOR2 2 4 0;
    mk_op EC_GF_OP_XOR2 5 1 0;
    mk_op EC_GF_OP_XOR2 3 2 0;
    mk_op EC_GF_OP_END 0 0 0];
  mk_mul 8 [2; 7; 0; 1; 3; 4; 5; 6] [
    mk_op EC_GF_OP_XOR2 2 5 0;
    mk_op EC_GF_OP_XOR2 6 2 0;
    mk_op EC_GF_OP_XOR2 3 7 0;
    mk_op EC_GF_OP_XOR2 3 6 0;
    mk_op EC_GF_OP_XOR2 0 3 0;
    mk_op EC_GF_OP_XOR2 1 4 0;
    mk_op EC_GF_OP_XOR2 2 0 0;
    mk_op EC_GF_OP_XOR2 7 1 0;
    mk_op EC_GF_OP_XOR2 4 2 0;
    mk_op EC_GF_OP_XOR2 5 7 0;
    mk_op EC_GF_OP_END 0 0 0];
  mk_mul 8 [3; 4; 1; 2; 0; 5; 6; 7] [
    mk_op EC_GF_OP_XOR2 1 0 0;
    mk_op EC_GF_OP_XOR2 0 7 0;
    mk_op EC_GF_OP_XOR2 4 0 0;
    mk_op EC_GF_OP_XOR2 3 6 0;
    mk_op EC_GF_OP_XOR2 6 4 0;
    mk_op EC_GF_OP_XOR2 2 5 0;
    mk_op EC_GF_OP_XOR2 7 2 0;
    mk_op EC_GF_OP_XOR2 5 3 0;
    mk_op EC_GF_OP_XOR2 2 6 0;
    mk_op EC_GF_OP_XOR2 6 1 0;
    mk_op EC_GF_OP_XOR2 1 5 0;
    mk_op EC_GF_OP_XOR2 5 0 0;
    mk_op EC_GF_OP_XOR2 0 2 0;
    mk_op EC_GF_OP_XOR2 2 1 0;
    mk_op EC_GF_OP_END 0 0 0];
  mk_mul 8 [3; 0; 1; 2; 6; 7; 4; 5] [
    mk_op EC_GF_OP_XOR2 3 0 0;
    mk_op EC_GF_OP_XOR2 4 1 0;
    mk_op EC_GF_OP_XOR2 5 2 0;
    mk_op EC_GF_OP_XOR2 4 7 0;
    mk_op EC_GF_OP_XOR2 1 5 0;
    mk_op EC_GF_OP_XOR2 3 6 0;
    mk_op EC_GF_OP_XOR2 2 4 0;
    mk_op EC_GF_OP_XOR2 0 4 0;
    mk_op EC_GF_OP_XOR2 6 5 0;
    mk_op EC_GF_OP_XOR2 1 3 0;
    mk_op EC_GF_OP_XOR2 7 3 0;
    mk_op EC_GF_OP_END 0 0 0]].

(** ec_gf8_mul_28 to ec_gf8_mul_2B. *)
Definition ec_gf8_mul_28_2B : list ec_gf_mul_t := [
  mk_mul 8 [5; 6; 3; 0; 1; 2; 4; 7] [
    mk_op EC_GF_OP_XOR2 6 4 0;
    mk_op EC_GF_OP_XOR2 5 7 0;
    mk_op EC_GF_OP_XOR2 7 6 0;
    mk_op EC_GF_OP_XOR2 4 5 0;
    mk_op EC_GF_OP_XOR2 1 3 0;
    mk_op EC_GF_OP_XOR2 5 3 0;
    mk_op EC_GF_OP_XOR2 1 7 0;
    mk_op EC_GF_OP_XOR2 0 4 0;
    mk_op EC_GF_OP_XOR2 4 1 0;
    mk_op EC_GF_OP_XOR2 7 2 0;
    mk_op EC_GF_OP_XOR2 2 0 0;
    mk_op EC_GF_OP_XOR2 0 3 0;
    mk_op EC_GF_OP_END 0 0 0];
  mk_mul 8 [4; 6; 3; 5; 7; 0; 1; 2] [
    mk_op EC_GF_OP_XOR2 6 4 0;
    mk_op EC_GF_OP_XOR2 5 3 0;
    mk_op EC_GF_OP_XOR2 4 3 0;
    mk_op EC_GF_OP_XOR2 3 2 0;
    mk_op EC_GF_OP_XOR2 7 4 0;
    mk_op EC_GF_OP_XOR2 2 6 0;
    mk_op EC_GF_OP_XOR2 6 1 0;
    mk_op EC_GF_OP_XOR2 1 5 0;
    mk_op EC_GF_OP_XOR2 0 7 0;
    mk_op EC_GF_OP_XOR2 5 0 0;
    mk_op EC_GF_OP_XOR2 7 6 0;
    mk_op EC_GF_OP_XOR2 0 3 0;
    mk_op EC_GF_OP_XOR2 4 5 0;
    mk_op EC_GF_OP_END 0 0 0];
  mk_mul 9 [3; 4; 7; 2; 6; 5; 1; 0; 8] [
    mk_op EC_GF_OP_COPY 8 1 0;
    mk_op EC_GF_OP_XOR2 8 0 0;
    mk_op EC_GF_OP_XOR2 4 0 0;
    mk_op EC_GF_OP_XOR2 0 2 0;
    mk_op EC_GF_OP_XOR2 1 3 0;
    mk_op EC_GF_OP_XOR2 3 5 0;
    mk_op EC_GF_OP_XOR2 0 7 0;
    mk_op EC_GF_OP_XOR2 2 3 0;
    mk_op EC_GF_OP_XOR2 7 1 0;
    mk_op EC_GF_OP_XOR2 5 0 0;
    mk_op EC_GF_OP_XOR2 2 4 0;
    mk_op EC_GF_OP_XOR2 0 4 0;
    mk_op EC_GF_OP_XOR2 1 6 0;
    mk_op EC_GF_OP_XOR2 4 6 0;
    mk_op EC_GF_OP_XOR3 6 8 4;
    mk_op EC_GF_OP_END 0 0 0];
  mk_mul 8 [3; 4; 7; 5; 6; 0; 1; 2] [
    mk_op EC_GF_OP_XOR2 7 2 0;
    mk_op EC_GF_OP_XOR2 2 4 0;
    mk_op EC_GF_OP_XOR2 6 1 0;
    mk_op EC_GF_OP_XOR2 4 0 0;
    mk_op EC_GF_OP_XOR2 5 0 0;
    mk_op EC_GF_OP_XOR2 4 6 0;
    mk_op EC_GF_OP_XOR2 1 3 0;
    mk_op EC_GF_OP_XOR2 0 7 0;
    mk_op EC_GF_OP_XOR2 3 5 0;
    mk_op EC_GF_OP_XOR2 7 1 0;
    mk_op EC_GF_OP_XOR2 5 2 0;
    mk_op EC_GF_OP_END 0 0 0]].

(** ec_gf8_mul_2C to ec_gf8_mul_2F. *)
Definition ec_gf8_mul_2C_2F : list ec_gf_mul_t := [
  mk_mul 8 [5; 6; 7; 0; 2; 3; 4; 1] [
    mk_op EC_GF_OP_XOR2 3 4 0;
    mk_op EC_GF_OP_XOR2 4 7 0;
    mk_op EC_GF_OP_XOR2 2 1 0;
    mk_op EC_GF_OP_XOR2 6 4 0;
    mk_op EC_GF_OP_XOR2 2 3 0;
    mk_op EC_GF_OP_XOR2 3 6 0;
    mk_op EC_GF_OP_XOR2 5 3 0;
    mk_op EC_GF_OP_XOR2 1 5 0;
    mk_op EC_GF_OP_XOR2 3 0 0;
    mk_op EC_GF_OP_XOR2 4 1 0;
    mk_op EC_GF_OP_XOR2 7 3 0;
    mk_op EC_GF_OP_XOR2 1 2 0;
    mk_op EC_GF_OP_XOR2 0 4 0;
    mk_op EC_GF_OP_XOR2 3 1 0;
    mk_op EC_GF_OP_END 0 0 0];
  mk_mul 9 [7; 0; 3; 5; 1; 4; 2; 6; 8] [
    mk_op EC_GF_OP_XOR2 3 2 0;
    mk_op EC_GF_OP_XOR2 1 3 0;
    mk_op EC_GF_OP_XOR2 3 0 0;
    mk_op EC_GF_OP_XOR2 4 3 0;
    mk_op EC_GF_OP_XOR2 3 6 0;
    mk_op EC_GF_OP_XOR2 6 1 0;
    mk_op EC_GF_OP_XOR2 2 3 0;
    mk_op EC_GF_OP_XOR3 8 4 6;
    mk_op EC_GF_OP_XOR2 5 8 0;
    mk_op EC_GF_OP_XOR2 7 8 0;
    mk_op EC_GF_OP_XOR2 2 5 0;
    mk_op EC_GF_OP_XOR2 0 7 0;
    mk_op EC_GF_OP_XOR2 6 2 0;
    mk_op EC_GF_OP_XOR2 7 2 0;
    mk_op EC_GF_OP_END 0 0 0];
  mk_mul 9 [5; 0; 7; 3; 2; 6; 4; 1; 8] [
    mk_op EC_GF_OP_XOR2 4 1 0;
    mk_op EC_GF_OP_XOR2 0 1 0;
    mk_op EC_GF_OP_COPY 8 4 0;
    mk_op EC_GF_OP_XOR2 3 6 0;
    mk_op EC_GF_OP_XOR2 1 5 0;
    mk_op EC_GF_OP_XOR2 4 3 0;
    mk_op EC_GF_OP_XOR2 8 7 0;
    mk_op EC_GF_OP_XOR2 5 3 0;
    mk_op EC_GF_OP_XOR2 2 8 0;
    mk_op EC_GF_OP_XOR2 3 0 0;
    mk_op EC_GF_OP_XOR2 6 8 0;
    mk_op EC_GF_OP_XOR2 1 2 0;
    mk_op EC_GF_OP_XOR2 7 3 0;
    mk_op EC_GF_OP_XOR2 0 6 0;
    mk_op EC_GF_OP_XOR2 3 1 0;
    mk_op EC_GF_OP_XOR2 6 3 0;
    mk_op EC_GF_OP_END 0 0 0];
  mk_mul 9 [6; 3; 2; 5; 7; 0; 1; 4; 8] [
    mk_op EC_GF_OP_XOR2 0 2 0;
    mk_op EC_GF_OP_XOR2 0 3 0;
    mk_op EC_GF_OP_XOR2 7 1 0;
    mk_op EC_GF_OP_XOR2 6 0 0;
    mk_op EC_GF_OP_XOR2 7 2 0;
    mk_op EC_GF_OP_XOR2 3 4 0;
    mk_op EC_GF_OP_XOR3 8 7 6;
    mk_op EC_GF_OP_XOR2 1 3 0;
    mk_op EC_GF_OP_XOR2 5 2 0;
    mk_op EC_GF_OP_XOR2 3 8 0;
    mk_op EC_GF_OP_XOR2 2 8 0;
    mk_op EC_GF_OP_XOR2 4 5 0;
    mk_op EC_GF_OP_XOR2 6 5 0;
    mk_op EC_GF_OP_XOR2 5 3 0;
    mk_op EC_GF_OP_END 0 0 0]].

(** ec_gf8_mul_30 to ec_gf8_mul_33. *)
Definition ec_gf8_mul_30_33 : list ec_gf_mul_t := [
  mk_mul 9 [3; 4; 7; 5; 0; 6; 1; 2; 8] [
    mk_op EC_GF_OP_COPY 8 0 0;
    mk_op EC_GF_OP_XOR2 8 1 0;
    mk_op EC_GF_OP_XOR2 1 2 0;
    mk_op EC_GF_OP_XOR2 7 4 0;
    mk_op EC_GF_OP_XOR2 6 3 0;
    mk_op EC_GF_OP_XOR2 3 7 0;
    mk_op EC_GF_OP_XOR2 0 6 0;
    mk_op EC_GF_OP_XOR2 1 5 0;
    mk_op EC_GF_OP_XOR2 4 5 0;
    mk_op EC_GF_OP_XOR2 2 6 0;
    mk_op EC_GF_OP_XOR2 5 6 0;
    mk_op EC_GF_OP_XOR3 6 8 7;
    mk_op EC_GF_OP_XOR2 7 5 0;
    mk_op EC_GF_OP_END 0 0 0];
  mk_mul 8 [7; 1; 4; 5; 6; 0; 2; 3] [
    mk_op EC_GF_OP_XOR2 3 0 0;
    mk_op EC_GF_OP_XOR2 3 4 0;
    mk_op EC_GF_OP_XOR2 4 5 0;
    mk_op EC_GF_OP_XOR2 2 1 0;
    mk_op EC_GF_OP_XOR2 1 4 0;
    mk_op EC_GF_OP_XOR2 5 6 0;
    mk_op EC_GF_OP_XOR2 6 3 0;
    mk_op EC_GF_OP_XOR2 0 7 0;
    mk_op EC_GF_OP_XOR2 2 5 0;
    mk_op EC_GF_OP_XOR2 7 3 0;
    mk_op EC_GF_OP_XOR2 0 1 0;
    mk_op EC_GF_OP_XOR2 3 2 0;
    mk_op EC_GF_OP_XOR2 3 0 0;
    mk_op EC_GF_OP_XOR2 4 3 0;
    mk_op EC_GF_OP_END 0 0 0];
  mk_mul 8 [3; 4; 6; 7; 5; 0; 1; 2] [
    mk_op EC_GF_OP_XOR2 6 5 0;
    mk_op EC_GF_OP_XOR2 5 0 0;
    mk_op EC_GF_OP_XOR2 0 1 0;
    mk_op EC_GF_OP_XOR2 0 7 0;
    mk_op EC_GF_OP_XOR2 7 6 0;
    mk_op EC_GF_OP_XOR2 6 1 0;
    mk_op EC_GF_OP_XOR2 1 2 0;
    mk_op EC_GF_OP_XOR2 2 3 0;
    mk_op EC_GF_OP_XOR2 3 4 0;
    mk_op EC_GF_OP_XOR2 4 5 0;
    mk_op EC_GF_OP_XOR2 6 3 0;
    mk_op EC_GF_OP_XOR2 5 7 0;
    mk_op EC_GF_OP_XOR2 7 2 0;
    mk_op EC_GF_OP_END 0 0 0];
  mk_mul 8 [5; 4; 3; 0; 2; 1; 6; 7] [
    mk_op EC_GF_OP_XOR2 3 2 0;
    mk_op EC_GF_OP_XOR2 2 1 0;
    mk_op EC_GF_OP_XOR2 1 0 0;
    mk_op EC_GF_OP_XOR2 1 5 0;
    mk_op EC_GF_OP_XOR2 4 1 0;
    mk_op EC_GF_OP_XOR2 6 2 0;
    mk_op EC_GF_OP_XOR2 1 7 0;
    mk_op EC_GF_OP_XOR2 2 4 0;
    mk_op EC_GF_OP_XOR2 7 3 0;
    mk_op EC_GF_OP_XOR2 0 6 0;
    mk_op EC_GF_OP_XOR2 3 2 0;
    mk_op EC_GF_OP_XOR2 5 3 0;
    mk_op EC_GF_OP_XOR2 3 0 0;
    mk_op EC_GF_OP_XOR2 0 1 0;
    mk_op EC_GF_OP_XOR2 2 0 0;
    mk_op EC_GF_OP_END 0 0 0]].

(** ec_gf8_mul_34 to ec_gf8_mul_37. *)
Definition ec_gf8_mul_34_37 : list ec_gf_mul_t := [
  mk_mul 8 [7; 5; 3; 0; 2; 4; 1; 6] [
    mk_op EC_GF_OP_XOR2 5 4 0;
    mk_op EC_GF_OP_XOR2 4 3 0;
    mk_op EC_GF_OP_XOR2 2 5 0;
    mk_op EC_GF_OP_XOR2 6 4 0;
    mk_op EC_GF_OP_XOR2 5 7 0;
    mk_op EC_GF_OP_XOR2 4 0 0;
    mk_op EC_GF_OP_XOR2 7 6 0;
    mk_op EC_GF_OP_XOR2 0 5 0;
    mk_op EC_GF_OP_XOR2 6 2 0;
    mk_op EC_GF_OP_XOR2 4 1 0;
    mk_op EC_GF_OP_XOR2 3 0 0;
    mk_op EC_GF_OP_XOR2 1 2 0;
    mk_op EC_GF_OP_XOR2 0 4 0;
    mk_op EC_GF_OP_XOR2 2 3 0;
    mk_op EC_GF_OP_END 0 0 0];
  mk_mul 8 [6; 7; 5; 4; 2; 0; 1; 3] [
    mk_op EC_GF_OP_XOR2 0 1 0;
    mk_op EC_GF_OP_XOR2 1 4 0;
    mk_op EC_GF_OP_XOR2 7 1 0;
    mk_op EC_GF_OP_XOR2 3 7 0;
    mk_op EC_GF_OP_XOR2 0 3 0;
    mk_op EC_GF_OP_XOR2 7 5 0;
    mk_op EC_GF_OP_XOR2 2 0 0;
    mk_op EC_GF_OP_XOR2 4 7 0;
    mk_op EC_GF_OP_XOR2 5 2 0;
    mk_op EC_GF_OP_XOR2 6 0 0;
    mk_op EC_GF_OP_XOR2 1 5 0;
    mk_op EC_GF_OP_XOR2 0 4 0;
    mk_op EC_GF_OP_XOR2 1 6 0;
    mk_op EC_GF_OP_XOR2 3 1 0;
    mk_op EC_GF_OP_END 0 0 0];
  mk_mul 8 [6; 7; 4; 1; 2; 3; 0; 5] [
    mk_op EC_GF_OP_XOR2 5 2 0;
    mk_op EC_GF_OP_XOR2 2 0 0;
    mk_op EC_GF_OP_XOR2 6 4 0;
    mk_op EC_GF_OP_XOR2 4 2 0;
    mk_op EC_GF_OP_XOR2 7 4 0;
    mk_op EC_GF_OP_XOR2 0 1 0;
    mk_op EC_GF_OP_XOR2 6 3 0;
    mk_op EC_GF_OP_XOR2 7 5 0;
    mk_op EC_GF_OP_XOR2 5 3 0;
    mk_op EC_GF_OP_XOR2 3 0 0;
    mk_op EC_GF_OP_XOR2 1 5 0;
    mk_op EC_GF_OP_XOR2 0 4 0;
    mk_op EC_GF_OP_XOR2 4 1 0;
    mk_op EC_GF_OP_END 0 0 0];
  mk_mul 9 [6; 7; 2; 1; 0; 3; 4; 5; 8] [
    mk_op EC_GF_OP_XOR2 1 2 0;
    mk_op EC_GF_OP_XOR2 0 2 0;
    mk_op EC_GF_OP_XOR2 6 1 0;
    mk_op EC_GF_OP_XOR2 0 4 0;
    mk_op EC_GF_OP_XOR2 1 5 0;
    mk_op EC_GF_OP_XOR3 8 0 1;
    mk_op EC_GF_OP_XOR2 3 8 0;
    mk_op EC_GF_OP_XOR2 7 8 0;
    mk_op EC_GF_OP_XOR2 2 3 0;
    mk_op EC_GF_OP_XOR2 3 4 0;
    mk_op EC_GF_OP_XOR2 5 2 0;
    mk_op EC_GF_OP_XOR2 4 6 0;
    mk_op EC_GF_OP_XOR2 6 5 0;
    mk_op EC_GF_OP_XOR2 5 7 0;
    mk_op EC_GF_OP_END 0 0 0]].

(** ec_gf8_mul_38 to ec_gf8_mul_3B. *)
Definition ec_gf8_mul_38_3B : list ec_gf_mul_t := [
  mk_mul 9 [4; 5; 6; 3; 0; 1; 7; 2; 8] [
    mk_op EC_GF_OP_XOR2 6 4 0;
    mk_op EC_GF_OP_XOR2 5 6 0;
    mk_op EC_GF_OP_XOR2 6 3 0;
    mk_op EC_GF_OP_XOR2 3 0 0;
    mk_op EC_GF_OP_XOR2 2 6 0;
    mk_op EC_GF_OP_XOR2 7 5 0;
    mk_op EC_GF_OP_XOR2 0 1 0;
    mk_op EC_GF_OP_XOR3 8 6 7;
    mk_op EC_GF_OP_XOR2 1 2 0;
    mk_op EC_GF_OP_XOR2 7 1 0;
    mk_op EC_GF_OP_XOR2 0 8 0;
    mk_op EC_GF_OP_XOR2 4 8 0;
    mk_op EC_GF_OP_XOR2 1 3 0;
    mk_op EC_GF_OP_END 0 0 0];
  mk_mul 8 [1; 6; 3; 0; 5; 2; 4; 7] [
    mk_op EC_GF_OP_XOR2 5 1 0;
    mk_op EC_GF_OP_XOR2 4 5 0;
    mk_op EC_GF_OP_XOR2 6 4 0;
    mk_op EC_GF_OP_XOR2 2 0 0;
    mk_op EC_GF_OP_XOR2 2 6 0;
    mk_op EC_GF_OP_XOR2 3 0 0;
    mk_op EC_GF_OP_XOR2 5 2 0;
    mk_op EC_GF_OP_XOR2 3 5 0;
    mk_op EC_GF_OP_XOR2 7 3 0;
    mk_op EC_GF_OP_XOR2 4 7 0;
    mk_op EC_GF_OP_XOR2 5 4 0;
    mk_op EC_GF_OP_XOR2 1 5 0;
    mk_op EC_GF_OP_END 0 0 0];
  mk_mul 8 [3; 4; 7; 0; 5; 6; 1; 2] [
    mk_op EC_GF_OP_XOR2 6 1 0;
    mk_op EC_GF_OP_XOR2 7 3 0;
    mk_op EC_GF_OP_XOR2 1 0 0;
    mk_op EC_GF_OP_XOR2 3 4 0;
    mk_op EC_GF_OP_XOR2 0 2 0;
    mk_op EC_GF_OP_XOR2 4 6 0;
    mk_op EC_GF_OP_XOR2 2 3 0;
    mk_op EC_GF_OP_XOR2 6 0 0;
    mk_op EC_GF_OP_XOR2 3 5 0;
    mk_op EC_GF_OP_XOR2 0 7 0;
    mk_op EC_GF_OP_XOR2 5 1 0;
    mk_op EC_GF_OP_XOR2 7 4 0;
    mk_op EC_GF_OP_XOR2 1 0 0;
    mk_op EC_GF_OP_XOR2 4 5 0;
    mk_op EC_GF_OP_END 0 0 0];
  mk_mul 9 [3; 0; 1; 7; 6; 2; 4; 8; 5] [
    mk_op EC_GF_OP_XOR2 2 0 0;
    mk_op EC_GF_OP_XOR2 0 4 0;
    mk_op EC_GF_OP_XOR2 3 0 0;
    mk_op EC_GF_OP_XOR2 7 2 0;
    mk_op EC_GF_OP_XOR3 8 7 3;
    mk_op EC_GF_OP_XOR2 1 6 0;
    mk_op EC_GF_OP_XOR2 3 5 0;
    mk_op EC_GF_OP_XOR2 5 1 0;
    mk_op EC_GF_OP_XOR2 1 8 0;
    mk_op EC_GF_OP_XOR2 0 5 0;
    mk_op EC_GF_OP_XOR2 2 5 0;
    mk_op EC_GF_OP_XOR2 4 1 0;
    mk_op EC_GF_OP_XOR2 6 0 0;
    mk_op EC_GF_OP_END 0 0 0]].

(** ec_gf8_mul_3C to ec_gf8_mul_3F. *)
Definition ec_gf8_mul_3C_3F : list ec_gf_mul_t := [
  mk_mul 8 [3; 6; 4; 1; 7; 2; 0; 5] [
    mk_op EC_GF_OP_XOR2 7 5 0;
    mk_op EC_GF_OP_XOR2 7 4 0;
    mk_op EC_GF_OP_XOR2 1 0 0;
    mk_op EC_GF_OP_XOR2 6 7 0;
    mk_op EC_GF_OP_XOR2 0 3 0;
    mk_op EC_GF_OP_XOR2 3 6 0;
    mk_op EC_GF_OP_XOR2 5 3 0;
    mk_op EC_GF_OP_XOR2 1 5 0;
    mk_op EC_GF_OP_XOR2 2 1 0;
    mk_op EC_GF_OP_XOR2 1 4 0;
    mk_op EC_GF_OP_XOR2 7 2 0;
    mk_op EC_GF_OP_XOR2 4 0 0;
    mk_op EC_GF_OP_XOR2 5 7 0;
    mk_op EC_GF_OP_XOR2 0 5 0;
    mk_op EC_GF_OP_XOR2 5 1 0;
    mk_op EC_GF_OP_END 0 0 0];
  mk_mul 8 [2; 3; 4; 5; 6; 7; 0; 1] [
    mk_op EC_GF_OP_XOR2 2 0 0;
    mk_op EC_GF_OP_XOR2 3 2 0;
    mk_op EC_GF_OP_XOR2 5 1 0;
    mk_op EC_GF_OP_XOR2 4 3 0;
    mk_op EC_GF_OP_XOR2 5 4 0;
    mk_op EC_GF_OP_XOR2 6 5 0;
    mk_op EC_GF_OP_XOR2 7 6 0;
    mk_op EC_GF_OP_XOR2 0 7 0;
    mk_op EC_GF_OP_XOR2 3 7 0;
    mk_op EC_GF_OP_XOR2 1 0 0;
    mk_op EC_GF_OP_XOR2 2 1 0;
    mk_op EC_GF_OP_XOR2 5 1 0;
    mk_op EC_GF_OP_END 0 0 0];
  mk_mul 8 [6; 1; 2; 7; 0; 3; 5; 4] [
    mk_op EC_GF_OP_XOR2 3 5 0;
    mk_op EC_GF_OP_XOR2 4 3 0;
    mk_op EC_GF_OP_XOR2 6 4 0;
    mk_op EC_GF_OP_XOR2 4 2 0;
    mk_op EC_GF_OP_XOR2 1 7 0;
    mk_op EC_GF_OP_XOR2 1 4 0;
    mk_op EC_GF_OP_XOR2 5 1 0;
    mk_op EC_GF_OP_XOR2 0 5 0;
    mk_op EC_GF_OP_XOR2 2 0 0;
    mk_op EC_GF_OP_XOR2 0 6 0;
    mk_op EC_GF_OP_XOR2 3 0 0;
    mk_op EC_GF_OP_XOR2 7 3 0;
    mk_op EC_GF_OP_XOR2 1 7 0;
    mk_op EC_GF_OP_END 0 0 0];
  mk_mul 11 [1; 7; 6; 2; 4; 3; 5; 0; 8; 9; 10] [
    mk_op EC_GF_OP_COPY 8 0 0;
    mk_op EC_GF_OP_XOR2 0 1 0;
    mk_op EC_GF_OP_COPY 10 4 0;
    mk_op EC_GF_OP_XOR2 0 6 0;
    mk_op EC_GF_OP_XOR2 4 5 0;
    mk_op EC_GF_OP_XOR2 4 0 0;
    mk_op EC_GF_OP_XOR2 1 3 0;
    mk_op EC_GF_OP_COPY 9 2 0;
    mk_op EC_GF_OP_XOR2 1 4 0;
    mk_op EC_GF_OP_XOR2 2 0 0;
    mk_op EC_GF_OP_XOR2 7 4 0;
    mk_op EC_GF_OP_XOR3 4 9 7;
    mk_op EC_GF_OP_XOR2 3 4 0;
    mk_op EC_GF_OP_XOR2 5 3 0;
    mk_op EC_GF_OP_XOR2 0 3 0;
    mk_op EC_GF_OP_XOR2 6 5 0;
    mk_op EC_GF_OP_XOR2 3 10 0;
    mk_op EC_GF_OP_XOR2 5 8 0;
    mk_op EC_GF_OP_END 0 0 0]].

(** ec_gf8_mul_40 to ec_gf8_mul_43. *)
Definition ec_gf8_mul_40_43 : list ec_gf_mul_t := [
  mk_mul 9 [5; 7; 4; 6; 2; 3; 0; 1; 8] [
    mk_op EC_GF_OP_XOR2 1 2 0;
    mk_op EC_GF_OP_XOR2 2 3 0;
    mk_op EC_GF_OP_XOR2 2 4 0;
    mk_op EC_GF_OP_XOR2 4 5 0;
    mk_op EC_GF_OP_XOR2 6 4 0;
    mk_op EC_GF_OP_XOR2 0 6 0;
    mk_op EC_GF_OP_XOR2 7 3 0;
    mk_op EC_GF_OP_XOR2 6 2 0;
    mk_op EC_GF_OP_XOR2 3 4 0;
    mk_op EC_GF_OP_XOR3 8 7 6;
    mk_op EC_GF_OP_XOR2 1 8 0;
    mk_op EC_GF_OP_XOR2 5 8 0;
    mk_op EC_GF_OP_XOR2 4 8 0;
    mk_op EC_GF_OP_END 0 0 0];
  mk_mul 9 [0; 7; 6; 5; 3; 4; 8; 1; 2] [
    mk_op EC_GF_OP_COPY 8 0 0;
    mk_op EC_GF_OP_XOR2 8 4 0;
    mk_op EC_GF_OP_XOR2 8 5 0;
    mk_op EC_GF_OP_XOR2 5 6 0;
    mk_op EC_GF_OP_XOR2 0 2 0;
    mk_op EC_GF_OP_XOR2 6 7 0;
    mk_op EC_GF_OP_XOR2 0 6 0;
    mk_op EC_GF_OP_XOR2 7 1 0;
    mk_op EC_GF_OP_XOR2 6 4 0;
    mk_op EC_GF_OP_XOR2 1 5 0;
    mk_op EC_GF_OP_XOR2 7 3 0;
    mk_op EC_GF_OP_XOR2 4 3 0;
    mk_op EC_GF_OP_XOR2 5 2 0;
    mk_op EC_GF_OP_XOR2 3 2 0;
    mk_op EC_GF_OP_END 0 0 0];
  mk_mul 9 [2; 7; 1; 6; 4; 3; 0; 5; 8] [
    mk_op EC_GF_OP_COPY 8 0 0;
    mk_op EC_GF_OP_XOR2 0 2 0;
    mk_op EC_GF_OP_XOR2 8 3 0;
    mk_op EC_GF_OP_XOR2 2 6 0;
    mk_op EC_GF_OP_XOR2 3 5 0;
    mk_op EC_GF_OP_XOR2 4 2 0;
    mk_op EC_GF_OP_XOR2 5 1 0;
    mk_op EC_GF_OP_XOR2 0 4 0;
    mk_op EC_GF_OP_XOR2 6 7 0;
    mk_op EC_GF_OP_XOR2 1 4 0;
    mk_op EC_GF_OP_XOR2 5 7 0;
    mk_op EC_GF_OP_XOR2 4 6 0;
    mk_op EC_GF_OP_XOR2 7 8 0;
    mk_op EC_GF_OP_XOR2 6 3 0;
    mk_op EC_GF_OP_END 0 0 0];
  mk_mul 8 [2; 6; 4; 1; 7; 3; 0; 5] [
    mk_op EC_GF_OP_XOR2 5 1 0;
    mk_op EC_GF_OP_XOR2 1 6 0;
    mk_op EC_GF_OP_XOR2 6 0 0;
    mk_op EC_GF_OP_XOR2 0 4 0;
    mk_op EC_GF_OP_XOR2 4 1 0;
    mk_op EC_GF_OP_XOR2 1 7 0;
    mk_op EC_GF_OP_XOR2 7 2 0;
    mk_op EC_GF_OP_XOR2 2 6 0;
    mk_op EC_GF_OP_XOR2 6 3 0;
    mk_op EC_GF_OP_XOR2 6 1 0;
    mk_op EC_GF_OP_XOR2 1 5 0;
    mk_op EC_GF_OP_END 0 0 0]].

(** ec_gf8_mul_44 to ec_gf8_mul_47. *)
Definition ec_gf8_mul_44_47 : list ec_gf_mul_t := [
  mk_mul 8 [2; 3; 4; 1; 6; 5; 0; 7] [
    mk_op EC_GF_OP_XOR2 1 6 0;
    mk_op EC_GF_OP_XOR2 4 7 0;
    mk_op EC_GF_OP_XOR2 6 5 0;
    mk_op EC_GF_OP_XOR2 5 4 0;
    mk_op EC_GF_OP_XOR2 4 0 0;
    mk_op EC_GF_OP_XOR2 4 2 0;
    mk_op EC_GF_OP_XOR2 0 6 0;
    mk_op EC_GF_OP_XOR2 2 7 0;
    mk_op EC_GF_OP_XOR2 6 3 0;
    mk_op EC_GF_OP_XOR2 7 1 0;
    mk_op EC_GF_OP_XOR2 1 2 0;
    mk_op EC_GF_OP_XOR2 1 6 0;
    mk_op EC_GF_OP_XOR2 6 5 0;
    mk_op EC_GF_OP_END 0 0 0];
  mk_mul 8 [2; 3; 0; 1; 7; 4; 5; 6] [
    mk_op EC_GF_OP_XOR2 2 0 0;
    mk_op EC_GF_OP_XOR2 4 7 0;
    mk_op EC_GF_OP_XOR2 2 7 0;
    mk_op EC_GF_OP_XOR2 7 3 0;
    mk_op EC_GF_OP_XOR2 7 6 0;
    mk_op EC_GF_OP_XOR2 5 0 0;
    mk_op EC_GF_OP_XOR2 6 1 0;
    mk_op EC_GF_OP_XOR2 3 1 0;
    mk_op EC_GF_OP_XOR2 0 4 0;
    mk_op EC_GF_OP_XOR2 1 5 0;
    mk_op EC_GF_OP_XOR2 1 2 0;
    mk_op EC_GF_OP_END 0 0 0];
  mk_mul 9 [2; 0; 1; 3; 4; 5; 6; 7; 8] [
    mk_op EC_GF_OP_XOR3 8 2 4;
    mk_op EC_GF_OP_XOR2 4 6 0;
    mk_op EC_GF_OP_XOR2 8 0 0;
    mk_op EC_GF_OP_XOR2 6 0 0;
    mk_op EC_GF_OP_XOR2 0 3 0;
    mk_op EC_GF_OP_XOR2 3 1 0;
    mk_op EC_GF_OP_XOR2 3 5 0;
    mk_op EC_GF_OP_XOR2 5 7 0;
    mk_op EC_GF_OP_XOR2 7 1 0;
    mk_op EC_GF_OP_XOR2 1 8 0;
    mk_op EC_GF_OP_END 0 0 0];
  mk_mul 9 [2; 3; 4; 5; 6; 7; 0; 1; 8] [
    mk_op EC_GF_OP_XOR3 8 0 1;
    mk_op EC_GF_OP_XOR2 2 0 0;
    mk_op EC_GF_OP_XOR2 3 8 0;
    mk_op EC_GF_OP_XOR2 5 1 0;
    mk_op EC_GF_OP_XOR2 4 8 0;
    mk_op EC_GF_OP_END 0 0 0]].

(** ec_gf8_mul_48 to ec_gf8_mul_4B. *)
Definition ec_gf8_mul_48_4B : list ec_gf_mul_t := [
  mk_mul 8 [4; 5; 6; 0; 1; 3; 7; 2] [
    mk_op EC_GF_OP_XOR2 5 2 0;
    mk_op EC_GF_OP_XOR2 5 4 0;
    mk_op EC_GF_OP_XOR2 6 5 0;
    mk_op EC_GF_OP_XOR2 7 6 0;
    mk_op EC_GF_OP_XOR2 2 3 0;
    mk_op EC_GF_OP_XOR2 4 7 0;
    mk_op EC_GF_OP_XOR2 3 7 0;
    mk_op EC_GF_OP_XOR2 1 3 0;
    mk_op EC_GF_OP_XOR2 0 2 0;
    mk_op EC_GF_OP_XOR2 5 3 0;
    mk_op EC_GF_OP_XOR2 2 1 0;
    mk_op EC_GF_OP_XOR2 7 0 0;
    mk_op EC_GF_OP_END 0 0 0];
  mk_mul 9 [7; 2; 4; 0; 3; 5; 1; 6; 8] [
    mk_op EC_GF_OP_XOR2 3 0 0;
    mk_op EC_GF_OP_XOR2 0 2 0;
    mk_op EC_GF_OP_XOR2 6 5 0;
    mk_op EC_GF_OP_XOR3 8 0 6;
    mk_op EC_GF_OP_XOR2 3 1 0;
    mk_op EC_GF_OP_XOR2 7 8 0;
    mk_op EC_GF_OP_XOR2 1 4 0;
    mk_op EC_GF_OP_XOR2 3 7 0;
    mk_op EC_GF_OP_XOR2 4 6 0;
    mk_op EC_GF_OP_XOR2 5 3 0;
    mk_op EC_GF_OP_XOR2 6 1 0;
    mk_op EC_GF_OP_XOR2 2 5 0;
    mk_op EC_GF_OP_XOR2 5 1 0;
    mk_op EC_GF_OP_XOR3 1 8 5;
    mk_op EC_GF_OP_END 0 0 0];
  mk_mul 8 [5; 6; 7; 0; 1; 3; 4; 2] [
    mk_op EC_GF_OP_XOR2 2 6 0;
    mk_op EC_GF_OP_XOR2 1 4 0;
    mk_op EC_GF_OP_XOR2 3 7 0;
    mk_op EC_GF_OP_XOR2 5 2 0;
    mk_op EC_GF_OP_XOR2 1 5 0;
    mk_op EC_GF_OP_XOR2 0 3 0;
    mk_op EC_GF_OP_XOR2 7 1 0;
    mk_op EC_GF_OP_XOR2 6 0 0;
    mk_op EC_GF_OP_XOR2 3 5 0;
    mk_op EC_GF_OP_XOR2 2 7 0;
    mk_op EC_GF_OP_XOR2 4 6 0;
    mk_op EC_GF_OP_END 0 0 0];
  mk_mul 9 [5; 3; 6; 7; 0; 2; 4; 1; 8] [
    mk_op EC_GF_OP_XOR2 6 7 0;
    mk_op EC_GF_OP_XOR2 7 0 0;
    mk_op EC_GF_OP_XOR2 0 1 0;
    mk_op EC_GF_OP_XOR2 1 4 0;
    mk_op EC_GF_OP_XOR3 8 3 7;
    mk_op EC_GF_OP_XOR2 3 6 0;
    mk_op EC_GF_OP_XOR2 1 5 0;
    mk_op EC_GF_OP_XOR2 4 8 0;
    mk_op EC_GF_OP_XOR2 2 3 0;
    mk_op EC_GF_OP_XOR2 5 8 0;
    mk_op EC_GF_OP_XOR2 3 0 0;
    mk_op EC_GF_OP_XOR2 6 1 0;
    mk_op EC_GF_OP_XOR2 5 2 0;
    mk_op EC_GF_OP_XOR2 0 5 0;
    mk_op EC_GF_OP_END 0 0 0]].

(** ec_gf8_mul_4C to ec_gf8_mul_4F. *)
Definition ec_gf8_mul_4C_4F : list ec_gf_mul_t := [
  mk_mul 8 [5; 3; 4; 7; 0; 6; 2; 1] [
    mk_op EC_GF_OP_XOR2 5 2 0;
    mk_op EC_GF_OP_XOR2 2 0 0;
    mk_op EC_GF_OP_XOR2 3 6 0;
    mk_op EC_GF_OP_XOR2 2 3 0;
    mk_op EC_GF_OP_XOR2 4 5 0;
    mk_op EC_GF_OP_XOR2 1 2 0;
    mk_op EC_GF_OP_XOR2 5 7 0;
    mk_op EC_GF_OP_XOR2 6 4 0;
    mk_op EC_GF_OP_XOR2 7 1 0;
    mk_op EC_GF_OP_XOR2 4 0 0;
    mk_op EC_GF_OP_XOR2 1 6 0;
    mk_op EC_GF_OP_XOR2 2 5 0;
    mk_op EC_GF_OP_XOR2 0 1 0;
    mk_op EC_GF_OP_XOR2 1 2 0;
    mk_op EC_GF_OP_END 0 0 0];
  mk_mul 10 [0; 9; 3; 5; 6; 4; 7; 1; 2; 8] [
    mk_op EC_GF_OP_COPY 8 3 0;
    mk_op EC_GF_OP_XOR2 3 4 0;
    mk_op EC_GF_OP_XOR2 4 6 0;
    mk_op EC_GF_OP_XOR2 0 1 0;
    mk_op EC_GF_OP_XOR2 1 4 0;
    mk_op EC_GF_OP_XOR3 9 3 1;
    mk_op EC_GF_OP_XOR2 5 9 0;
    mk_op EC_GF_OP_XOR2 4 2 0;
    mk_op EC_GF_OP_XOR2 6 5 0;
    mk_op EC_GF_OP_XOR2 0 6 0;
    mk_op EC_GF_OP_XOR2 7 0 0;
    mk_op EC_GF_OP_XOR2 3 0 0;
    mk_op EC_GF_OP_XOR2 2 7 0;
    mk_op EC_GF_OP_XOR3 0 8 2;
    mk_op EC_GF_OP_XOR2 5 2 0;
    mk_op EC_GF_OP_END 0 0 0];
  mk_mul 8 [2; 3; 0; 1; 5; 6; 7; 4] [
    mk_op EC_GF_OP_XOR2 3 0 0;
    mk_op EC_GF_OP_XOR2 4 1 0;
    mk_op EC_GF_OP_XOR2 0 2 0;
    mk_op EC_GF_OP_XOR2 4 7 0;
    mk_op EC_GF_OP_XOR2 2 5 0;
    mk_op EC_GF_OP_XOR2 5 4 0;
    mk_op EC_GF_OP_XOR2 3 6 0;
    mk_op EC_GF_OP_XOR2 0 5 0;
    mk_op EC_GF_OP_XOR2 6 2 0;
    mk_op EC_GF_OP_XOR2 7 3 0;
    mk_op EC_GF_OP_XOR2 1 3 0;
    mk_op EC_GF_OP_END 0 0 0];
  mk_mul 8 [0; 3; 5; 6; 1; 2; 7; 4] [
    mk_op EC_GF_OP_XOR2 4 1 0;
    mk_op EC_GF_OP_XOR2 1 0 0;
    mk_op EC_GF_OP_XOR2 7 0 0;
    mk_op EC_GF_OP_XOR2 0 2 0;
    mk_op EC_GF_OP_XOR2 0 5 0;
    mk_op EC_GF_OP_XOR2 2 6 0;
    mk_op EC_GF_OP_XOR2 5 7 0;
    mk_op EC_GF_OP_XOR2 6 1 0;
    mk_op EC_GF_OP_XOR2 7 3 0;
    mk_op EC_GF_OP_XOR2 1 5 0;
    mk_op EC_GF_OP_XOR2 3 6 0;
    mk_op EC_GF_OP_XOR2 5 4 0;
    mk_op EC_GF_OP_END 0 0 0]].

(** ec_gf8_mul_50 to ec_gf8_mul_53. *)
Definition ec_gf8_mul_50_53 : list ec_gf_mul_t := [
  mk_mul 8 [4; 5; 7; 3; 0; 1; 2; 6] [
    mk_op EC_GF_OP_XOR2 5 3 0;
    mk_op EC_GF_OP_XOR2 4 6 0;
    mk_op EC_GF_OP_XOR2 6 5 0;
    mk_op EC_GF_OP_XOR2 5 7 0;
    mk_op EC_GF_OP_XOR2 7 2 0;
    mk_op EC_GF_OP_XOR2 0 2 0;
    mk_op EC_GF_OP_XOR2 4 7 0;
    mk_op EC_GF_OP_XOR2 0 6 0;
    mk_op EC_GF_OP_XOR2 3 4 0;
    mk_op EC_GF_OP_XOR2 6 1 0;
    mk_op EC_GF_OP_XOR2 2 3 0;
    mk_op EC_GF_OP_XOR2 1 2 0;
    mk_op EC_GF_OP_XOR2 2 0 0;
    mk_op EC_GF_OP_END 0 0 0];
  mk_mul 8 [0; 1; 7; 2; 3; 4; 5; 6] [
    mk_op EC_GF_OP_XOR2 2 1 0;
    mk_op EC_GF_OP_XOR2 3 5 0;
    mk_op EC_GF_OP_XOR2 2 3 0;
    mk_op EC_GF_OP_XOR2 3 7 0;
    mk_op EC_GF_OP_XOR2 1 3 0;
    mk_op EC_GF_OP_XOR2 6 1 0;
    mk_op EC_GF_OP_XOR2 4 6 0;
    mk_op EC_GF_OP_XOR2 2 4 0;
    mk_op EC_GF_OP_XOR2 0 2 0;
    mk_op EC_GF_OP_XOR2 5 0 0;
    mk_op EC_GF_OP_XOR2 3 0 0;
    mk_op EC_GF_OP_END 0 0 0];
  mk_mul 10 [2; 3; 1; 4; 6; 7; 0; 5; 8; 9] [
    mk_op EC_GF_OP_XOR2 0 2 0;
    mk_op EC_GF_OP_XOR2 0 7 0;
    mk_op EC_GF_OP_COPY 8 0 0;
    mk_op EC_GF_OP_XOR2 0 4 0;
    mk_op EC_GF_OP_XOR2 4 6 0;
    mk_op EC_GF_OP_COPY 9 4 0;
    mk_op EC_GF_OP_XOR2 4 3 0;
    mk_op EC_GF_OP_XOR2 3 1 0;
    mk_op EC_GF_OP_XOR2 5 3 0;
    mk_op EC_GF_OP_XOR2 6 3 0;
    mk_op EC_GF_OP_XOR2 1 2 0;
    mk_op EC_GF_OP_XOR3 3 5 8;
    mk_op EC_GF_OP_XOR2 7 6 0;
    mk_op EC_GF_OP_XOR2 2 9 0;
    mk_op EC_GF_OP_XOR2 6 3 0;
    mk_op EC_GF_OP_XOR2 3 1 0;
    mk_op EC_GF_OP_END 0 0 0];
  mk_mul 8 [2; 0; 1; 4; 5; 6; 7; 3] [
    mk_op EC_GF_OP_XOR2 2 0 0;
    mk_op EC_GF_OP_XOR2 3 1 0;
    mk_op EC_GF_OP_XOR2 4 6 0;
    mk_op EC_GF_OP_XOR2 2 4 0;
    mk_op EC_GF_OP_XOR2 5 7 0;
    mk_op EC_GF_OP_XOR2 3 5 0;
    mk_op EC_GF_OP_XOR2 7 2 0;
    mk_op EC_GF_OP_XOR2 5 2 0;
    mk_op EC_GF_OP_XOR2 6 3 0;
    mk_op EC_GF_OP_XOR2 0 3 0;
    mk_op EC_GF_OP_END 0 0 0]].

(** ec_gf8_mul_54 to ec_gf8_mul_57. *)
Definition ec_gf8_mul_54_57 : list ec_gf_mul_t := [
  mk_mul 8 [7; 3; 0; 4; 2; 6; 5; 1] [
    mk_op EC_GF_OP_XOR2 7 2 0;
    mk_op EC_GF_OP_XOR2 0 7 0;
    mk_op EC_GF_OP_XOR2 7 4 0;
    mk_op EC_GF_OP_XOR2 4 1 0;
    mk_op EC_GF_OP_XOR2 2 3 0;
    mk_op EC_GF_OP_XOR2 1 3 0;
    mk_op EC_GF_OP_XOR2 3 5 0;
    mk_op EC_GF_OP_XOR2 1 6 0;
    mk_op EC_GF_OP_XOR2 5 0 0;
    mk_op EC_GF_OP_XOR2 0 6 0;
    mk_op EC_GF_OP_XOR2 6 4 0;
    mk_op EC_GF_OP_XOR2 4 2 0;
    mk_op EC_GF_OP_XOR2 2 5 0;
    mk_op EC_GF_OP_END 0 0 0];
  mk_mul 8 [1; 5; 6; 4; 3; 7; 2; 0] [
    mk_op EC_GF_OP_XOR2 4 2 0;
    mk_op EC_GF_OP_XOR2 7 0 0;
    mk_op EC_GF_OP_XOR2 4 1 0;
    mk_op EC_GF_OP_XOR2 3 1 0;
    mk_op EC_GF_OP_XOR2 6 7 0;
    mk_op EC_GF_OP_XOR2 2 5 0;
    mk_op EC_GF_OP_XOR2 7 4 0;
    mk_op EC_GF_OP_XOR2 5 3 0;
    mk_op EC_GF_OP_XOR2 2 6 0;
    mk_op EC_GF_OP_XOR2 1 7 0;
    mk_op EC_GF_OP_XOR2 3 6 0;
    mk_op EC_GF_OP_XOR2 7 2 0;
    mk_op EC_GF_OP_XOR2 0 3 0;
    mk_op EC_GF_OP_XOR2 3 7 0;
    mk_op EC_GF_OP_END 0 0 0];
  mk_mul 8 [2; 3; 0; 4; 5; 6; 7; 1] [
    mk_op EC_GF_OP_XOR2 5 0 0;
    mk_op EC_GF_OP_XOR2 6 1 0;
    mk_op EC_GF_OP_XOR2 0 2 0;
    mk_op EC_GF_OP_XOR2 1 3 0;
    mk_op EC_GF_OP_XOR2 2 4 0;
    mk_op EC_GF_OP_XOR2 3 5 0;
    mk_op EC_GF_OP_XOR2 4 1 0;
    mk_op EC_GF_OP_XOR2 4 7 0;
    mk_op EC_GF_OP_XOR2 7 0 0;
    mk_op EC_GF_OP_XOR2 0 6 0;
    mk_op EC_GF_OP_END 0 0 0];
  mk_mul 8 [2; 3; 0; 1; 4; 5; 6; 7] [
    mk_op EC_GF_OP_XOR2 2 0 0;
    mk_op EC_GF_OP_XOR2 5 0 0;
    mk_op EC_GF_OP_XOR2 0 1 0;
    mk_op EC_GF_OP_XOR2 0 6 0;
    mk_op EC_GF_OP_XOR2 3 1 0;
    mk_op EC_GF_OP_XOR2 6 7 0;
    mk_op EC_GF_OP_XOR2 1 4 0;
    mk_op EC_GF_OP_XOR2 6 2 0;
    mk_op EC_GF_OP_XOR2 1 7 0;
    mk_op EC_GF_OP_XOR2 2 4 0;
    mk_op EC_GF_OP_XOR2 7 3 0;
    mk_op EC_GF_OP_XOR2 4 5 0;
    mk_op EC_GF_OP_XOR2 3 5 0;
    mk_op EC_GF_OP_XOR2 5 0 0;
    mk_op EC_GF_OP_END 0 0 0]].

(** ec_gf8_mul_58 to ec_gf8_mul_5B. *)
Definition ec_gf8_mul_58_5B : list ec_gf_mul_t := [
  mk_mul 8 [4; 3; 2; 7; 0; 1; 5; 6] [
    mk_op EC_GF_OP_XOR2 3 2 0;
    mk_op EC_GF_OP_XOR2 2 5 0;
    mk_op EC_GF_OP_XOR2 4 3 0;
    mk_op EC_GF_OP_XOR2 5 0 0;
    mk_op EC_GF_OP_XOR2 0 1 0;
    mk_op EC_GF_OP_XOR2 5 4 0;
    mk_op EC_GF_OP_XOR2 3 7 0;
    mk_op EC_GF_OP_XOR2 1 4 0;
    mk_op EC_GF_OP_XOR2 7 5 0;
    mk_op EC_GF_OP_XOR2 0 3 0;
    mk_op EC_GF_OP_XOR2 6 2 0;
    mk_op EC_GF_OP_XOR2 3 6 0;
    mk_op EC_GF_OP_XOR2 6 1 0;
    mk_op EC_GF_OP_XOR2 4 3 0;
    mk_op EC_GF_OP_END 0 0 0];
  mk_mul 8 [7; 3; 5; 6; 1; 2; 0; 4] [
    mk_op EC_GF_OP_XOR2 0 1 0;
    mk_op EC_GF_OP_XOR2 1 3 0;
    mk_op EC_GF_OP_XOR2 1 5 0;
    mk_op EC_GF_OP_XOR2 2 4 0;
    mk_op EC_GF_OP_XOR2 0 6 0;
    mk_op EC_GF_OP_XOR2 2 1 0;
    mk_op EC_GF_OP_XOR2 0 2 0;
    mk_op EC_GF_OP_XOR2 3 0 0;
    mk_op EC_GF_OP_XOR2 7 3 0;
    mk_op EC_GF_OP_XOR2 6 7 0;
    mk_op EC_GF_OP_XOR2 1 6 0;
    mk_op EC_GF_OP_XOR2 3 1 0;
    mk_op EC_GF_OP_XOR2 4 3 0;
    mk_op EC_GF_OP_END 0 0 0];
  mk_mul 8 [6; 7; 0; 1; 2; 3; 5; 4] [
    mk_op EC_GF_OP_XOR2 5 2 0;
    mk_op EC_GF_OP_XOR2 2 1 0;
    mk_op EC_GF_OP_XOR2 4 5 0;
    mk_op EC_GF_OP_XOR2 3 2 0;
    mk_op EC_GF_OP_XOR2 6 4 0;
    mk_op EC_GF_OP_XOR2 4 3 0;
    mk_op EC_GF_OP_XOR2 2 0 0;
    mk_op EC_GF_OP_XOR2 0 4 0;
    mk_op EC_GF_OP_XOR2 1 0 0;
    mk_op EC_GF_OP_XOR2 5 1 0;
    mk_op EC_GF_OP_XOR2 7 5 0;
    mk_op EC_GF_OP_XOR2 0 7 0;
    mk_op EC_GF_OP_XOR2 7 6 0;
    mk_op EC_GF_OP_END 0 0 0];
  mk_mul 8 [6; 0; 7; 5; 2; 1; 3; 4] [
    mk_op EC_GF_OP_XOR2 0 4 0;
    mk_op EC_GF_OP_XOR2 1 5 0;
    mk_op EC_GF_OP_XOR2 4 3 0;
    mk_op EC_GF_OP_XOR2 5 0 0;
    mk_op EC_GF_OP_XOR2 3 2 0;
    mk_op EC_GF_OP_XOR2 2 5 0;
    mk_op EC_GF_OP_XOR2 0 6 0;
    mk_op EC_GF_OP_XOR2 6 2 0;
    mk_op EC_GF_OP_XOR2 7 1 0;
    mk_op EC_GF_OP_XOR2 2 1 0;
    mk_op EC_GF_OP_XOR2 1 3 0;
    mk_op EC_GF_OP_XOR2 4 7 0;
    mk_op EC_GF_OP_XOR2 3 0 0;
    mk_op EC_GF_OP_XOR2 0 4 0;
    mk_op EC_GF_OP_END 0 0 0]].

(** ec_gf8_mul_5C to ec_gf8_mul_5F. *)
Definition ec_gf8_mul_5C_5F : list ec_gf_mul_t := [
  mk_mul 9 [7; 5; 2; 4; 1; 0; 6; 3; 8] [
    mk_op EC_GF_OP_COPY 8 3 0;
    mk_op EC_GF_OP_XOR2 3 6 0;
    mk_op EC_GF_OP_XOR2 4 1 0;
    mk_op EC_GF_OP_XOR2 5 3 0;
    mk_op EC_GF_OP_XOR2 1 0 0;
    mk_op EC_GF_OP_XOR2 0 5 0;
    mk_op EC_GF_OP_XOR2 1 3 0;
    mk_op EC_GF_OP_XOR2 2 0 0;
    mk_op EC_GF_OP_XOR2 3 4 0;
    mk_op EC_GF_OP_XOR2 4 2 0;
    mk_op EC_GF_OP_XOR2 6 2 0;
    mk_op EC_GF_OP_XOR2 7 4 0;
    mk_op EC_GF_OP_XOR2 2 8 0;
    mk_op EC_GF_OP_XOR2 0 7 0;
    mk_op EC_GF_OP_XOR2 7 1 0;
    mk_op EC_GF_OP_END 0 0 0];
  mk_mul 8 [1; 3; 5; 4; 6; 7; 2; 0] [
    mk_op EC_GF_OP_XOR2 4 1 0;
    mk_op EC_GF_OP_XOR2 1 0 0;
    mk_op EC_GF_OP_XOR2 6 0 0;
    mk_op EC_GF_OP_XOR2 4 3 0;
    mk_op EC_GF_OP_XOR2 5 6 0;
    mk_op EC_GF_OP_XOR2 6 4 0;
    mk_op EC_GF_OP_XOR2 3 5 0;
    mk_op EC_GF_OP_XOR2 7 6 0;
    mk_op EC_GF_OP_XOR2 2 3 0;
    mk_op EC_GF_OP_XOR2 0 7 0;
    mk_op EC_GF_OP_XOR2 3 1 0;
    mk_op EC_GF_OP_XOR2 7 2 0;
    mk_op EC_GF_OP_XOR2 4 2 0;
    mk_op EC_GF_OP_XOR2 1 7 0;
    mk_op EC_GF_OP_END 0 0 0];
  mk_mul 8 [4; 3; 6; 2; 5; 7; 0; 1] [
    mk_op EC_GF_OP_XOR2 6 0 0;
    mk_op EC_GF_OP_XOR2 6 5 0;
    mk_op EC_GF_OP_XOR2 1 2 0;
    mk_op EC_GF_OP_XOR2 5 2 0;
    mk_op EC_GF_OP_XOR2 2 3 0;
    mk_op EC_GF_OP_XOR2 7 1 0;
    mk_op EC_GF_OP_XOR2 3 6 0;
    mk_op EC_GF_OP_XOR2 0 2 0;
    mk_op EC_GF_OP_XOR2 6 7 0;
    mk_op EC_GF_OP_XOR2 2 4 0;
    mk_op EC_GF_OP_XOR2 4 5 0;
    mk_op EC_GF_OP_XOR2 1 2 0;
    mk_op EC_GF_OP_XOR2 5 6 0;
    mk_op EC_GF_OP_XOR2 2 6 0;
    mk_op EC_GF_OP_END 0 0 0];
  mk_mul 8 [6; 1; 3; 4; 5; 7; 2; 0] [
    mk_op EC_GF_OP_XOR2 0 3 0;
    mk_op EC_GF_OP_XOR2 1 5 0;
    mk_op EC_GF_OP_XOR2 0 6 0;
    mk_op EC_GF_OP_XOR2 1 0 0;
    mk_op EC_GF_OP_XOR2 7 1 0;
    mk_op EC_GF_OP_XOR2 3 7 0;
    mk_op EC_GF_OP_XOR2 2 0 0;
    mk_op EC_GF_OP_XOR2 4 3 0;
    mk_op EC_GF_OP_XOR2 7 2 0;
    mk_op EC_GF_OP_XOR2 5 4 0;
    mk_op EC_GF_OP_XOR2 6 5 0;
    mk_op EC_GF_OP_XOR2 0 5 0;
    mk_op EC_GF_OP_XOR2 6 7 0;
    mk_op EC_GF_OP_END 0 0 0]].

(** ec_gf8_mul_60 to ec_gf8_mul_63. *)
Definition ec_gf8_mul_60_63 : list ec_gf_mul_t := [
  mk_mul 8 [2; 3; 4; 7; 5; 6; 0; 1] [
    mk_op EC_GF_OP_XOR2 5 2 0;
    mk_op EC_GF_OP_XOR2 7 4 0;
    mk_op EC_GF_OP_XOR2 4 5 0;
    mk_op EC_GF_OP_XOR2 6 3 0;
    mk_op EC_GF_OP_XOR2 2 6 0;
    mk_op EC_GF_OP_XOR2 4 6 0;
    mk_op EC_GF_OP_XOR2 3 7 0;
    mk_op EC_GF_OP_XOR2 6 0 0;
    mk_op EC_GF_OP_XOR2 0 1 0;
    mk_op EC_GF_OP_XOR2 0 7 0;
    mk_op EC_GF_OP_XOR2 1 5 0;
    mk_op EC_GF_OP_XOR2 7 5 0;
    mk_op EC_GF_OP_END 0 0 0];
  mk_mul 8 [0; 5; 6; 7; 4; 2; 1; 3] [
    mk_op EC_GF_OP_XOR2 1 2 0;
    mk_op EC_GF_OP_XOR2 6 2 0;
    mk_op EC_GF_OP_XOR2 2 5 0;
    mk_op EC_GF_OP_XOR2 4 2 0;
    mk_op EC_GF_OP_XOR2 0 3 0;
    mk_op EC_GF_OP_XOR2 3 4 0;
    mk_op EC_GF_OP_XOR2 0 6 0;
    mk_op EC_GF_OP_XOR2 7 3 0;
    mk_op EC_GF_OP_XOR2 2 0 0;
    mk_op EC_GF_OP_XOR2 6 3 0;
    mk_op EC_GF_OP_XOR2 1 7 0;
    mk_op EC_GF_OP_XOR2 5 1 0;
    mk_op EC_GF_OP_XOR2 1 2 0;
    mk_op EC_GF_OP_XOR2 3 5 0;
    mk_op EC_GF_OP_END 0 0 0];
  mk_mul 8 [2; 0; 3; 4; 5; 6; 7; 1] [
    mk_op EC_GF_OP_XOR2 3 7 0;
    mk_op EC_GF_OP_XOR2 1 2 0;
    mk_op EC_GF_OP_XOR2 2 3 0;
    mk_op EC_GF_OP_XOR2 3 4 0;
    mk_op EC_GF_OP_XOR2 4 5 0;
    mk_op EC_GF_OP_XOR2 0 3 0;
    mk_op EC_GF_OP_XOR2 5 2 0;
    mk_op EC_GF_OP_XOR2 7 0 0;
    mk_op EC_GF_OP_XOR2 2 6 0;
    mk_op EC_GF_OP_XOR2 1 5 0;
    mk_op EC_GF_OP_XOR2 6 7 0;
    mk_op EC_GF_OP_XOR2 7 1 0;
    mk_op EC_GF_OP_XOR2 1 2 0;
    mk_op EC_GF_OP_XOR2 3 1 0;
    mk_op EC_GF_OP_END 0 0 0];
  mk_mul 8 [3; 4; 6; 5; 7; 0; 1; 2] [
    mk_op EC_GF_OP_XOR2 4 3 0;
    mk_op EC_GF_OP_XOR2 5 4 0;
    mk_op EC_GF_OP_XOR2 6 5 0;
    mk_op EC_GF_OP_XOR2 1 7 0;
    mk_op EC_GF_OP_XOR2 0 6 0;
    mk_op EC_GF_OP_XOR2 6 1 0;
    mk_op EC_GF_OP_XOR2 7 2 0;
    mk_op EC_GF_OP_XOR2 3 0 0;
    mk_op EC_GF_OP_XOR2 4 6 0;
    mk_op EC_GF_OP_XOR2 7 5 0;
    mk_op EC_GF_OP_XOR2 1 3 0;
    mk_op EC_GF_OP_XOR2 2 4 0;
    mk_op EC_GF_OP_XOR2 3 7 0;
    mk_op EC_GF_OP_XOR2 4 0 0;
    mk_op EC_GF_OP_END 0 0 0]].

(** ec_gf8_mul_64 to ec_gf8_mul_67. *)
Definition ec_gf8_mul_64_67 : list ec_gf_mul_t := [
  mk_mul 9 [2; 3; 4; 6; 5; 7; 8; 1; 0] [
    mk_op EC_GF_OP_COPY 8 1 0;
    mk_op EC_GF_OP_XOR2 8 0 0;
    mk_op EC_GF_OP_XOR2 1 2 0;
    mk_op EC_GF_OP_XOR2 8 7 0;
    mk_op EC_GF_OP_XOR2 2 3 0;
    mk_op EC_GF_OP_XOR2 3 4 0;
    mk_op EC_GF_OP_XOR2 7 6 0;
    mk_op EC_GF_OP_XOR2 4 5 0;
    mk_op EC_GF_OP_XOR2 6 1 0;
    mk_op EC_GF_OP_XOR2 5 7 0;
    mk_op EC_GF_OP_XOR2 6 4 0;
    mk_op EC_GF_OP_XOR2 7 0 0;
    mk_op EC_GF_OP_XOR2 4 2 0;
    mk_op EC_GF_OP_XOR2 4 0 0;
    mk_op EC_GF_OP_END 0 0 0];
  mk_mul 8 [2; 5; 1; 3; 4; 0; 6; 7] [
    mk_op EC_GF_OP_XOR2 6 7 0;
    mk_op EC_GF_OP_XOR2 7 2 0;
    mk_op EC_GF_OP_XOR2 5 6 0;
    mk_op EC_GF_OP_XOR2 2 0 0;
    mk_op EC_GF_OP_XOR2 4 5 0;
    mk_op EC_GF_OP_XOR2 2 3 0;
    mk_op EC_GF_OP_XOR2 6 1 0;
    mk_op EC_GF_OP_XOR2 3 4 0;
    mk_op EC_GF_OP_XOR2 7 1 0;
    mk_op EC_GF_OP_XOR2 6 0 0;
    mk_op EC_GF_OP_XOR2 1 3 0;
    mk_op EC_GF_OP_XOR2 0 5 0;
    mk_op EC_GF_OP_XOR2 3 7 0;
    mk_op EC_GF_OP_XOR2 5 1 0;
    mk_op EC_GF_OP_XOR2 1 6 0;
    mk_op EC_GF_OP_END 0 0 0];
  mk_mul 8 [2; 3; 1; 4; 5; 7; 0; 6] [
    mk_op EC_GF_OP_XOR2 4 0 0;
    mk_op EC_GF_OP_XOR2 0 1 0;
    mk_op EC_GF_OP_XOR2 1 2 0;
    mk_op EC_GF_OP_XOR2 2 3 0;
    mk_op EC_GF_OP_XOR2 3 4 0;
    mk_op EC_GF_OP_XOR2 5 7 0;
    mk_op EC_GF_OP_XOR2 2 7 0;
    mk_op EC_GF_OP_XOR2 0 5 0;
    mk_op EC_GF_OP_XOR2 4 6 0;
    mk_op EC_GF_OP_XOR2 5 3 0;
    mk_op EC_GF_OP_XOR2 6 1 0;
    mk_op EC_GF_OP_XOR2 7 4 0;
    mk_op EC_GF_OP_XOR2 1 5 0;
    mk_op EC_GF_OP_XOR2 4 0 0;
    mk_op EC_GF_OP_XOR2 5 7 0;
    mk_op EC_GF_OP_END 0 0 0];
  mk_mul 8 [2; 4; 5; 6; 7; 3; 1; 0] [
    mk_op EC_GF_OP_XOR2 3 0 0;
    mk_op EC_GF_OP_XOR2 3 1 0;
    mk_op EC_GF_OP_XOR2 1 4 0;
    mk_op EC_GF_OP_XOR2 4 3 0;
    mk_op EC_GF_OP_XOR2 7 4 0;
    mk_op EC_GF_OP_XOR2 5 7 0;
    mk_op EC_GF_OP_XOR2 0 5 0;
    mk_op EC_GF_OP_XOR2 6 0 0;
    mk_op EC_GF_OP_XOR2 3 6 0;
    mk_op EC_GF_OP_XOR2 1 3 0;
    mk_op EC_GF_OP_XOR2 7 1 0;
    mk_op EC_GF_OP_XOR2 2 7 0;
    mk_op EC_GF_OP_XOR2 0 2 0;
    mk_op EC_GF_OP_XOR2 2 3 0;
    mk_op EC_GF_OP_END 0 0 0]].

(** ec_gf8_mul_68 to ec_gf8_mul_6B. *)
Definition ec_gf8_mul_68_6B : list ec_gf_mul_t := [
  mk_mul 8 [5; 7; 2; 3; 0; 6; 4; 1] [
    mk_op EC_GF_OP_XOR2 5 2 0;
    mk_op EC_GF_OP_XOR2 5 4 0;
    mk_op EC_GF_OP_XOR2 4 3 0;
    mk_op EC_GF_OP_XOR2 6 4 0;
    mk_op EC_GF_OP_XOR2 7 6 0;
    mk_op EC_GF_OP_XOR2 4 0 0;
    mk_op EC_GF_OP_XOR2 2 7 0;
    mk_op EC_GF_OP_XOR2 4 1 0;
    mk_op EC_GF_OP_XOR2 0 2 0;
    mk_op EC_GF_OP_XOR2 1 5 0;
    mk_op EC_GF_OP_XOR2 3 0 0;
    mk_op EC_GF_OP_XOR2 5 6 0;
    mk_op EC_GF_OP_XOR2 0 4 0;
    mk_op EC_GF_OP_XOR2 6 3 0;
    mk_op EC_GF_OP_END 0 0 0];
  mk_mul 8 [0; 1; 3; 2; 4; 5; 7; 6] [
    mk_op EC_GF_OP_XOR2 4 6 0;
    mk_op EC_GF_OP_XOR2 4 7 0;
    mk_op EC_GF_OP_XOR2 3 4 0;
    mk_op EC_GF_OP_XOR2 2 1 0;
    mk_op EC_GF_OP_XOR2 1 3 0;
    mk_op EC_GF_OP_XOR2 4 2 0;
    mk_op EC_GF_OP_XOR2 0 1 0;
    mk_op EC_GF_OP_XOR2 5 4 0;
    mk_op EC_GF_OP_XOR2 7 0 0;
    mk_op EC_GF_OP_XOR2 6 5 0;
    mk_op EC_GF_OP_XOR2 2 0 0;
    mk_op EC_GF_OP_XOR2 5 7 0;
    mk_op EC_GF_OP_XOR2 0 6 0;
    mk_op EC_GF_OP_END 0 0 0];
  mk_mul 8 [5; 7; 4; 6; 1; 2; 0; 3] [
    mk_op EC_GF_OP_XOR2 7 3 0;
    mk_op EC_GF_OP_XOR2 3 5 0;
    mk_op EC_GF_OP_XOR2 0 4 0;
    mk_op EC_GF_OP_XOR2 2 6 0;
    mk_op EC_GF_OP_XOR2 6 0 0;
    mk_op EC_GF_OP_XOR2 5 2 0;
    mk_op EC_GF_OP_XOR2 1 3 0;
    mk_op EC_GF_OP_XOR2 0 1 0;
    mk_op EC_GF_OP_XOR2 1 5 0;
    mk_op EC_GF_OP_XOR2 5 7 0;
    mk_op EC_GF_OP_XOR2 4 1 0;
    mk_op EC_GF_OP_XOR2 7 6 0;
    mk_op EC_GF_OP_XOR2 3 4 0;
    mk_op EC_GF_OP_XOR2 2 7 0;
    mk_op EC_GF_OP_END 0 0 0];
  mk_mul 9 [6; 7; 2; 0; 3; 1; 5; 4; 8] [
    mk_op EC_GF_OP_COPY 8 1 0;
    mk_op EC_GF_OP_XOR2 1 2 0;
    mk_op EC_GF_OP_XOR2 1 6 0;
    mk_op EC_GF_OP_XOR2 3 4 0;
    mk_op EC_GF_OP_XOR2 3 1 0;
    mk_op EC_GF_OP_XOR2 2 3 0;
    mk_op EC_GF_OP_XOR2 0 2 0;
    mk_op EC_GF_OP_XOR2 1 5 0;
    mk_op EC_GF_OP_XOR2 7 0 0;
    mk_op EC_GF_OP_XOR2 5 0 0;
    mk_op EC_GF_OP_XOR2 1 7 0;
    mk_op EC_GF_OP_XOR2 4 1 0;
    mk_op EC_GF_OP_XOR2 6 4 0;
    mk_op EC_GF_OP_XOR2 4 0 0;
    mk_op EC_GF_OP_XOR2 0 8 0;
    mk_op EC_GF_OP_END 0 0 0]].

(** ec_gf8_mul_6C to ec_gf8_mul_6F. *)
Definition ec_gf8_mul_6C_6F : list ec_gf_mul_t := [
  mk_mul 8 [5; 6; 7; 0; 1; 2; 3; 4] [
    mk_op EC_GF_OP_XOR2 5 2 0;
    mk_op EC_GF_OP_XOR2 4 3 0;
    mk_op EC_GF_OP_XOR2 5 3 0;
    mk_op EC_GF_OP_XOR2 2 0 0;
    mk_op EC_GF_OP_XOR2 6 4 0;
    mk_op EC_GF_OP_XOR2 4 2 0;
    mk_op EC_GF_OP_XOR2 3 1 0;
    mk_op EC_GF_OP_XOR2 3 0 0;
    mk_op EC_GF_OP_XOR2 7 4 0;
    mk_op EC_GF_OP_XOR2 4 3 0;
    mk_op EC_GF_OP_XOR2 0 4 0;
    mk_op EC_GF_OP_END 0 0 0];
  mk_mul 9 [3; 6; 7; 0; 4; 5; 1; 2; 8] [
    mk_op EC_GF_OP_XOR2 4 1 0;
    mk_op EC_GF_OP_XOR2 1 0 0;
    mk_op EC_GF_OP_XOR2 7 4 0;
    mk_op EC_GF_OP_XOR2 0 2 0;
    mk_op EC_GF_OP_XOR2 1 3 0;
    mk_op EC_GF_OP_XOR2 2 7 0;
    mk_op EC_GF_OP_XOR3 8 3 4;
    mk_op EC_GF_OP_XOR2 7 1 0;
    mk_op EC_GF_OP_XOR2 5 0 0;
    mk_op EC_GF_OP_XOR2 1 6 0;
    mk_op EC_GF_OP_XOR2 0 8 0;
    mk_op EC_GF_OP_XOR2 3 5 0;
    mk_op EC_GF_OP_XOR2 6 8 0;
    mk_op EC_GF_OP_END 0 0 0];
  mk_mul 8 [5; 6; 3; 1; 7; 2; 0; 4] [
    mk_op EC_GF_OP_XOR2 3 1 0;
    mk_op EC_GF_OP_XOR2 1 2 0;
    mk_op EC_GF_OP_XOR2 2 0 0;
    mk_op EC_GF_OP_XOR2 7 3 0;
    mk_op EC_GF_OP_XOR2 0 5 0;
    mk_op EC_GF_OP_XOR2 6 1 0;
    mk_op EC_GF_OP_XOR2 0 3 0;
    mk_op EC_GF_OP_XOR2 2 4 0;
    mk_op EC_GF_OP_XOR2 1 7 0;
    mk_op EC_GF_OP_XOR2 4 6 0;
    mk_op EC_GF_OP_XOR2 3 2 0;
    mk_op EC_GF_OP_XOR2 5 1 0;
    mk_op EC_GF_OP_XOR2 6 3 0;
    mk_op EC_GF_OP_XOR2 1 3 0;
    mk_op EC_GF_OP_END 0 0 0];
  mk_mul 9 [2; 6; 3; 7; 0; 1; 4; 5; 8] [
    mk_op EC_GF_OP_COPY 8 0 0;
    mk_op EC_GF_OP_XOR2 0 1 0;
    mk_op EC_GF_OP_XOR2 0 4 0;
    mk_op EC_GF_OP_XOR2 3 0 0;
    mk_op EC_GF_OP_XOR2 2 5 0;
    mk_op EC_GF_OP_XOR2 7 3 0;
    mk_op EC_GF_OP_XOR2 2 0 0;
    mk_op EC_GF_OP_XOR2 6 3 0;
    mk_op EC_GF_OP_XOR3 0 8 7;
    mk_op EC_GF_OP_XOR2 1 2 0;
    mk_op EC_GF_OP_XOR2 5 6 0;
    mk_op EC_GF_OP_XOR2 2 0 0;
    mk_op EC_GF_OP_XOR2 4 5 0;
    mk_op EC_GF_OP_XOR2 5 2 0;
    mk_op EC_GF_OP_END 0 0 0]].

(** ec_gf8_mul_70 to ec_gf8_mul_73. *)
Definition ec_gf8_mul_70_73 : list ec_gf_mul_t := [
  mk_mul 8 [3; 4; 5; 2; 6; 0; 1; 7] [
    mk_op EC_GF_OP_XOR2 3 2 0;
    mk_op EC_GF_OP_XOR2 5 3 0;
    mk_op EC_GF_OP_XOR2 6 4 0;
    mk_op EC_GF_OP_XOR2 4 2 0;
    mk_op EC_GF_OP_XOR2 7 5 0;
    mk_op EC_GF_OP_XOR2 0 2 0;
    mk_op EC_GF_OP_XOR2 3 6 0;
    mk_op EC_GF_OP_XOR2 4 7 0;
    mk_op EC_GF_OP_XOR2 6 0 0;
    mk_op EC_GF_OP_XOR2 7 1 0;
    mk_op EC_GF_OP_XOR2 1 6 0;
    mk_op EC_GF_OP_XOR2 0 7 0;
    mk_op EC_GF_OP_END 0 0 0];
  mk_mul 8 [4; 7; 5; 3; 6; 0; 2; 1] [
    mk_op EC_GF_OP_XOR2 6 0 0;
    mk_op EC_GF_OP_XOR2 0 1 0;
    mk_op EC_GF_OP_XOR2 1 5 0;
    mk_op EC_GF_OP_XOR2 0 4 0;
    mk_op EC_GF_OP_XOR2 5 3 0;
    mk_op EC_GF_OP_XOR2 4 3 0;
    mk_op EC_GF_OP_XOR2 6 2 0;
    mk_op EC_GF_OP_XOR2 3 2 0;
    mk_op EC_GF_OP_XOR2 7 4 0;
    mk_op EC_GF_OP_XOR2 2 0 0;
    mk_op EC_GF_OP_XOR2 4 6 0;
    mk_op EC_GF_OP_XOR2 0 7 0;
    mk_op EC_GF_OP_XOR2 7 1 0;
    mk_op EC_GF_OP_XOR2 1 3 0;
    mk_op EC_GF_OP_END 0 0 0];
  mk_mul 8 [0; 5; 2; 7; 4; 1; 3; 6] [
    mk_op EC_GF_OP_XOR2 4 0 0;
    mk_op EC_GF_OP_XOR2 3 7 0;
    mk_op EC_GF_OP_XOR2 3 4 0;
    mk_op EC_GF_OP_XOR2 5 3 0;
    mk_op EC_GF_OP_XOR2 1 5 0;
    mk_op EC_GF_OP_XOR2 4 1 0;
    mk_op EC_GF_OP_XOR2 2 4 0;
    mk_op EC_GF_OP_XOR2 6 2 0;
    mk_op EC_GF_OP_XOR2 3 6 0;
    mk_op EC_GF_OP_XOR2 4 3 0;
    mk_op EC_GF_OP_XOR2 0 4 0;
    mk_op EC_GF_OP_END 0 0 0];
  mk_mul 8 [6; 0; 1; 7; 4; 5; 2; 3] [
    mk_op EC_GF_OP_XOR2 1 5 0;
    mk_op EC_GF_OP_XOR2 2 1 0;
    mk_op EC_GF_OP_XOR2 7 3 0;
    mk_op EC_GF_OP_XOR2 1 7 0;
    mk_op EC_GF_OP_XOR2 0 4 0;
    mk_op EC_GF_OP_XOR2 6 2 0;
    mk_op EC_GF_OP_XOR2 2 0 0;
    mk_op EC_GF_OP_XOR2 3 6 0;
    mk_op EC_GF_OP_XOR2 0 1 0;
    mk_op EC_GF_OP_XOR2 6 0 0;
    mk_op EC_GF_OP_XOR2 5 0 0;
    mk_op EC_GF_OP_XOR2 4 6 0;
    mk_op EC_GF_OP_END 0 0 0]].

(** ec_gf8_mul_74 to ec_gf8_mul_77. *)
Definition ec_gf8_mul_74_77 : list ec_gf_mul_t := [
  mk_mul 8 [3; 2; 1; 0; 4; 5; 6; 7] [
    mk_op EC_GF_OP_XOR2 3 2 0;
    mk_op EC_GF_OP_XOR2 2 5 0;
    mk_op EC_GF_OP_XOR2 5 0 0;
    mk_op EC_GF_OP_XOR2 5 1 0;
    mk_op EC_GF_OP_XOR2 1 3 0;
    mk_op EC_GF_OP_XOR2 0 7 0;
    mk_op EC_GF_OP_XOR2 6 5 0;
    mk_op EC_GF_OP_XOR2 7 1 0;
    mk_op EC_GF_OP_XOR2 1 6 0;
    mk_op EC_GF_OP_XOR2 3 4 0;
    mk_op EC_GF_OP_XOR2 6 2 0;
    mk_op EC_GF_OP_XOR2 4 0 0;
    mk_op EC_GF_OP_XOR2 2 3 0;
    mk_op EC_GF_OP_XOR2 0 6 0;
    mk_op EC_GF_OP_END 0 0 0];
  mk_mul 8 [4; 5; 6; 7; 0; 1; 2; 3] [
    mk_op EC_GF_OP_XOR2 2 0 0;
    mk_op EC_GF_OP_XOR2 3 2 0;
    mk_op EC_GF_OP_XOR2 2 1 0;
    mk_op EC_GF_OP_XOR2 1 0 0;
    mk_op EC_GF_OP_XOR2 4 3 0;
    mk_op EC_GF_OP_XOR2 3 1 0;
    mk_op EC_GF_OP_XOR2 0 7 0;
    mk_op EC_GF_OP_XOR2 6 3 0;
    mk_op EC_GF_OP_XOR2 5 2 0;
    mk_op EC_GF_OP_XOR2 7 6 0;
    mk_op EC_GF_OP_XOR2 6 5 0;
    mk_op EC_GF_OP_XOR2 5 4 0;
    mk_op EC_GF_OP_END 0 0 0];
  mk_mul 9 [2; 3; 0; 6; 5; 1; 7; 8; 4] [
    mk_op EC_GF_OP_XOR2 7 3 0;
    mk_op EC_GF_OP_XOR2 6 1 0;
    mk_op EC_GF_OP_XOR2 2 7 0;
    mk_op EC_GF_OP_XOR3 8 6 2;
    mk_op EC_GF_OP_XOR2 0 5 0;
    mk_op EC_GF_OP_XOR2 2 4 0;
    mk_op EC_GF_OP_XOR2 4 0 0;
    mk_op EC_GF_OP_XOR2 0 8 0;
    mk_op EC_GF_OP_XOR2 3 4 0;
    mk_op EC_GF_OP_XOR2 1 4 0;
    mk_op EC_GF_OP_XOR2 7 0 0;
    mk_op EC_GF_OP_XOR2 5 3 0;
    mk_op EC_GF_OP_END 0 0 0];
  mk_mul 8 [7; 4; 3; 6; 0; 1; 5; 2] [
    mk_op EC_GF_OP_XOR2 7 6 0;
    mk_op EC_GF_OP_XOR2 6 1 0;
    mk_op EC_GF_OP_XOR2 1 0 0;
    mk_op EC_GF_OP_XOR2 5 1 0;
    mk_op EC_GF_OP_XOR2 6 3 0;
    mk_op EC_GF_OP_XOR2 0 3 0;
    mk_op EC_GF_OP_XOR2 1 4 0;
    mk_op EC_GF_OP_XOR2 3 5 0;
    mk_op EC_GF_OP_XOR2 4 3 0;
    mk_op EC_GF_OP_XOR2 5 2 0;
    mk_op EC_GF_OP_XOR2 3 7 0;
    mk_op EC_GF_OP_XOR2 2 6 0;
    mk_op EC_GF_OP_XOR2 7 1 0;
    mk_op EC_GF_OP_XOR2 7 2 0;
    mk_op EC_GF_OP_END 0 0 0]].

(** ec_gf8_mul_78 to ec_gf8_mul_7B. *)
Definition ec_gf8_mul_78_7B : list ec_gf_mul_t := [
  mk_mul 9 [4; 7; 3; 2; 5; 1; 6; 0; 8] [
    mk_op EC_GF_OP_XOR2 6 5 0;
    mk_op EC_GF_OP_XOR2 6 0 0;
    mk_op EC_GF_OP_XOR2 1 0 0;
    mk_op EC_GF_OP_XOR2 7 2 0;
    mk_op EC_GF_OP_XOR2 2 6 0;
    mk_op EC_GF_OP_XOR2 0 3 0;
    mk_op EC_GF_OP_XOR2 3 7 0;
    mk_op EC_GF_OP_XOR3 8 0 2;
    mk_op EC_GF_OP_XOR2 4 8 0;
    mk_op EC_GF_OP_XOR2 1 8 0;
    mk_op EC_GF_OP_XOR2 7 4 0;
    mk_op EC_GF_OP_XOR2 5 7 0;
    mk_op EC_GF_OP_XOR2 5 1 0;
    mk_op EC_GF_OP_XOR2 0 5 0;
    mk_op EC_GF_OP_XOR2 6 0 0;
    mk_op EC_GF_OP_END 0 0 0];
  mk_mul 9 [4; 5; 7; 3; 1; 6; 2; 0; 8] [
    mk_op EC_GF_OP_XOR2 7 3 0;
    mk_op EC_GF_OP_XOR3 8 4 7;
    mk_op EC_GF_OP_XOR2 0 8 0;
    mk_op EC_GF_OP_XOR2 2 1 0;
    mk_op EC_GF_OP_XOR2 6 8 0;
    mk_op EC_GF_OP_XOR2 2 0 0;
    mk_op EC_GF_OP_XOR2 1 6 0;
    mk_op EC_GF_OP_XOR2 3 2 0;
    mk_op EC_GF_OP_XOR2 5 1 0;
    mk_op EC_GF_OP_XOR2 6 3 0;
    mk_op EC_GF_OP_XOR2 3 5 0;
    mk_op EC_GF_OP_XOR2 4 3 0;
    mk_op EC_GF_OP_XOR2 1 4 0;
    mk_op EC_GF_OP_XOR2 0 1 0;
    mk_op EC_GF_OP_END 0 0 0];
  mk_mul 8 [1; 2; 3; 4; 5; 6; 7; 0] [
    mk_op EC_GF_OP_XOR2 2 1 0;
    mk_op EC_GF_OP_XOR2 3 2 0;
    mk_op EC_GF_OP_XOR2 4 0 0;
    mk_op EC_GF_OP_XOR2 4 3 0;
    mk_op EC_GF_OP_XOR2 5 4 0;
    mk_op EC_GF_OP_XOR2 6 5 0;
    mk_op EC_GF_OP_XOR2 7 6 0;
    mk_op EC_GF_OP_XOR2 0 7 0;
    mk_op EC_GF_OP_XOR2 2 7 0;
    mk_op EC_GF_OP_XOR2 1 0 0;
    mk_op EC_GF_OP_XOR2 4 0 0;
    mk_op EC_GF_OP_END 0 0 0];
  mk_mul 10 [1; 2; 3; 4; 8; 5; 6; 0; 7; 9] [
    mk_op EC_GF_OP_XOR2 3 1 0;
    mk_op EC_GF_OP_XOR3 8 5 3;
    mk_op EC_GF_OP_XOR2 8 0 0;
    mk_op EC_GF_OP_COPY 9 4 0;
    mk_op EC_GF_OP_XOR2 8 2 0;
    mk_op EC_GF_OP_XOR2 4 6 0;
    mk_op EC_GF_OP_XOR2 4 8 0;
    mk_op EC_GF_OP_XOR2 7 4 0;
    mk_op EC_GF_OP_XOR2 5 4 0;
    mk_op EC_GF_OP_XOR2 0 4 0;
    mk_op EC_GF_OP_XOR2 2 7 0;
    mk_op EC_GF_OP_XOR3 4 1 9;
    mk_op EC_GF_OP_XOR2 6 7 0;
    mk_op EC_GF_OP_XOR2 1 7 0;
    mk_op EC_GF_OP_XOR2 4 2 0;
    mk_op EC_GF_OP_END 0 0 0]].

(** ec_gf8_mul_7C to ec_gf8_mul_7F. *)
Definition ec_gf8_mul_7C_7F : list ec_gf_mul_t := [
  mk_mul 8 [2; 4; 1; 6; 3; 5; 7; 0] [
    mk_op EC_GF_OP_XOR2 5 3 0;
    mk_op EC_GF_OP_XOR2 4 5 0;
    mk_op EC_GF_OP_XOR2 2 4 0;
    mk_op EC_GF_OP_XOR2 4 6 0;
    mk_op EC_GF_OP_XOR2 3 1 0;
    mk_op EC_GF_OP_XOR2 0 4 0;
    mk_op EC_GF_OP_XOR2 7 2 0;
    mk_op EC_GF_OP_XOR2 3 0 0;
    mk_op EC_GF_OP_XOR2 7 3 0;
    mk_op EC_GF_OP_XOR2 5 7 0;
    mk_op EC_GF_OP_XOR2 1 7 0;
    mk_op EC_GF_OP_XOR2 6 5 0;
    mk_op EC_GF_OP_XOR2 0 5 0;
    mk_op EC_GF_OP_END 0 0 0];
  mk_mul 8 [1; 0; 3; 5; 6; 7; 2; 4] [
    mk_op EC_GF_OP_XOR2 2 1 0;
    mk_op EC_GF_OP_XOR2 3 2 0;
    mk_op EC_GF_OP_XOR2 2 6 0;
    mk_op EC_GF_OP_XOR2 1 0 0;
    mk_op EC_GF_OP_XOR2 0 2 0;
    mk_op EC_GF_OP_XOR2 1 5 0;
    mk_op EC_GF_OP_XOR2 7 0 0;
    mk_op EC_GF_OP_XOR2 6 1 0;
    mk_op EC_GF_OP_XOR2 4 3 0;
    mk_op EC_GF_OP_XOR2 3 7 0;
    mk_op EC_GF_OP_XOR2 1 4 0;
    mk_op EC_GF_OP_XOR2 2 3 0;
    mk_op EC_GF_OP_XOR2 0 1 0;
    mk_op EC_GF_OP_XOR2 5 2 0;
    mk_op EC_GF_OP_END 0 0 0];
  mk_mul 9 [5; 1; 2; 0; 7; 3; 4; 6; 8] [
    mk_op EC_GF_OP_XOR2 0 5 0;
    mk_op EC_GF_OP_COPY 8 0 0;
    mk_op EC_GF_OP_XOR2 0 1 0;
    mk_op EC_GF_OP_XOR2 6 3 0;
    mk_op EC_GF_OP_XOR2 6 0 0;
    mk_op EC_GF_OP_XOR2 5 6 0;
    mk_op EC_GF_OP_XOR2 6 4 0;
    mk_op EC_GF_OP_XOR2 7 6 0;
    mk_op EC_GF_OP_XOR2 1 6 0;
    mk_op EC_GF_OP_XOR3 6 2 7;
    mk_op EC_GF_OP_XOR2 3 6 0;
    mk_op EC_GF_OP_XOR2 2 5 0;
    mk_op EC_GF_OP_XOR2 4 6 0;
    mk_op EC_GF_OP_XOR2 5 3 0;
    mk_op EC_GF_OP_XOR2 6 8 0;
    mk_op EC_GF_OP_END 0 0 0];
  mk_mul 10 [4; 1; 0; 5; 6; 7; 2; 3; 8; 9] [
    mk_op EC_GF_OP_COPY 8 0 0;
    mk_op EC_GF_OP_XOR2 0 1 0;
    mk_op EC_GF_OP_XOR2 0 3 0;
    mk_op EC_GF_OP_XOR2 5 0 0;
    mk_op EC_GF_OP_XOR3 9 7 5;
    mk_op EC_GF_OP_XOR2 2 9 0;
    mk_op EC_GF_OP_XOR2 1 2 0;
    mk_op EC_GF_OP_XOR2 0 6 0;
    mk_op EC_GF_OP_XOR2 4 1 0;
    mk_op EC_GF_OP_XOR2 6 9 0;
    mk_op EC_GF_OP_XOR3 9 6 4;
    mk_op EC_GF_OP_XOR2 7 9 0;
    mk_op EC_GF_OP_XOR2 3 9 0;
    mk_op EC_GF_OP_XOR2 1 7 0;
    mk_op EC_GF_OP_XOR2 7 8 0;
    mk_op EC_GF_OP_END 0 0 0]].

(** ec_gf8_mul_80 to ec_gf8_mul_83. *)
Definition ec_gf8_mul_80_83 : list ec_gf_mul_t := [
  mk_mul 8 [7; 5; 6; 4; 1; 2; 3; 0] [
    mk_op EC_GF_OP_XOR2 7 3 0;
    mk_op EC_GF_OP_XOR2 3 4 0;
    mk_op EC_GF_OP_XOR2 1 2 0;
    mk_op EC_GF_OP_XOR2 2 3 0;
    mk_op EC_GF_OP_XOR2 3 5 0;
    mk_op EC_GF_OP_XOR2 5 1 0;
    mk_op EC_GF_OP_XOR2 0 1 0;
    mk_op EC_GF_OP_XOR2 4 5 0;
    mk_op EC_GF_OP_XOR2 1 7 0;
    mk_op EC_GF_OP_XOR2 6 4 0;
    mk_op EC_GF_OP_XOR2 0 6 0;
    mk_op EC_GF_OP_XOR2 6 2 0;
    mk_op EC_GF_OP_XOR2 7 6 0;
    mk_op EC_GF_OP_XOR2 5 7 0;
    mk_op EC_GF_OP_END 0 0 0];
  mk_mul 8 [2; 7; 4; 1; 5; 6; 3; 0] [
    mk_op EC_GF_OP_XOR2 3 5 0;
    mk_op EC_GF_OP_XOR2 4 6 0;
    mk_op EC_GF_OP_XOR2 3 4 0;
    mk_op EC_GF_OP_XOR2 2 3 0;
    mk_op EC_GF_OP_XOR2 6 2 0;
    mk_op EC_GF_OP_XOR2 1 6 0;
    mk_op EC_GF_OP_XOR2 7 1 0;
    mk_op EC_GF_OP_XOR2 4 1 0;
    mk_op EC_GF_OP_XOR2 5 7 0;
    mk_op EC_GF_OP_XOR2 0 5 0;
    mk_op EC_GF_OP_XOR2 7 3 0;
    mk_op EC_GF_OP_XOR2 2 0 0;
    mk_op EC_GF_OP_XOR2 0 4 0;
    mk_op EC_GF_OP_END 0 0 0];
  mk_mul 9 [6; 2; 7; 5; 1; 3; 4; 0; 8] [
    mk_op EC_GF_OP_XOR2 7 6 0;
    mk_op EC_GF_OP_XOR2 6 1 0;
    mk_op EC_GF_OP_COPY 8 6 0;
    mk_op EC_GF_OP_XOR2 6 5 0;
    mk_op EC_GF_OP_XOR2 5 4 0;
    mk_op EC_GF_OP_XOR2 4 3 0;
    mk_op EC_GF_OP_XOR2 1 2 0;
    mk_op EC_GF_OP_XOR2 3 2 0;
    mk_op EC_GF_OP_XOR2 2 0 0;
    mk_op EC_GF_OP_XOR2 2 7 0;
    mk_op EC_GF_OP_XOR2 0 5 0;
    mk_op EC_GF_OP_XOR2 7 5 0;
    mk_op EC_GF_OP_XOR3 5 8 7;
    mk_op EC_GF_OP_XOR2 7 4 0;
    mk_op EC_GF_OP_END 0 0 0];
  mk_mul 8 [3; 5; 6; 7; 1; 2; 4; 0] [
    mk_op EC_GF_OP_XOR2 0 1 0;
    mk_op EC_GF_OP_XOR2 1 2 0;
    mk_op EC_GF_OP_XOR2 2 3 0;
    mk_op EC_GF_OP_XOR2 0 3 0;
    mk_op EC_GF_OP_XOR2 2 5 0;
    mk_op EC_GF_OP_XOR2 7 2 0;
    mk_op EC_GF_OP_XOR2 5 0 0;
    mk_op EC_GF_OP_XOR2 3 6 0;
    mk_op EC_GF_OP_XOR2 1 4 0;
    mk_op EC_GF_OP_XOR2 6 7 0;
    mk_op EC_GF_OP_XOR2 4 3 0;
    mk_op EC_GF_OP_XOR2 7 1 0;
    mk_op EC_GF_OP_XOR2 3 5 0;
    mk_op EC_GF_OP_XOR2 0 7 0;
    mk_op EC_GF_OP_XOR2 5 6 0;
    mk_op EC_GF_OP_END 0 0 0]].

(** ec_gf8_mul_84 to ec_gf8_mul_87. *)
Definition ec_gf8_mul_84_87 : list ec_gf_mul_t := [
  mk_mul 8 [7; 6; 0; 4; 1; 5; 3; 2] [
    mk_op EC_GF_OP_XOR2 3 5 0;
    mk_op EC_GF_OP_XOR2 7 5 0;
    mk_op EC_GF_OP_XOR2 5 6 0;
    mk_op EC_GF_OP_XOR2 6 2 0;
    mk_op EC_GF_OP_XOR2 4 6 0;
    mk_op EC_GF_OP_XOR2 2 0 0;
    mk_op EC_GF_OP_XOR2 2 4 0;
    mk_op EC_GF_OP_XOR2 4 7 0;
    mk_op EC_GF_OP_XOR2 7 1 0;
    mk_op EC_GF_OP_XOR2 1 3 0;
    mk_op EC_GF_OP_XOR2 0 1 0;
    mk_op EC_GF_OP_XOR2 1 5 0;
    mk_op EC_GF_OP_XOR2 5 4 0;
    mk_op EC_GF_OP_END 0 0 0];
  mk_mul 8 [7; 6; 0; 3; 2; 4; 5; 1] [
    mk_op EC_GF_OP_XOR2 3 6 0;
    mk_op EC_GF_OP_XOR2 7 5 0;
    mk_op EC_GF_OP_XOR2 6 2 0;
    mk_op EC_GF_OP_XOR2 5 3 0;
    mk_op EC_GF_OP_XOR2 2 7 0;
    mk_op EC_GF_OP_XOR2 4 2 0;
    mk_op EC_GF_OP_XOR2 7 0 0;
    mk_op EC_GF_OP_XOR2 3 4 0;
    mk_op EC_GF_OP_XOR2 6 1 0;
    mk_op EC_GF_OP_XOR2 7 1 0;
    mk_op EC_GF_OP_XOR2 0 6 0;
    mk_op EC_GF_OP_XOR2 1 3 0;
    mk_op EC_GF_OP_XOR2 0 5 0;
    mk_op EC_GF_OP_XOR2 2 1 0;
    mk_op EC_GF_OP_XOR2 1 0 0;
    mk_op EC_GF_OP_END 0 0 0];
  mk_mul 8 [1; 2; 6; 4; 5; 7; 3; 0] [
    mk_op EC_GF_OP_XOR2 1 5 0;
    mk_op EC_GF_OP_XOR2 5 6 0;
    mk_op EC_GF_OP_XOR2 6 0 0;
    mk_op EC_GF_OP_XOR2 0 4 0;
    mk_op EC_GF_OP_XOR2 4 5 0;
    mk_op EC_GF_OP_XOR2 5 7 0;
    mk_op EC_GF_OP_XOR2 7 2 0;
    mk_op EC_GF_OP_XOR2 2 6 0;
    mk_op EC_GF_OP_XOR2 6 3 0;
    mk_op EC_GF_OP_XOR2 6 5 0;
    mk_op EC_GF_OP_XOR2 5 1 0;
    mk_op EC_GF_OP_END 0 0 0];
  mk_mul 9 [1; 2; 3; 4; 5; 7; 6; 0; 8] [
    mk_op EC_GF_OP_XOR2 1 0 0;
    mk_op EC_GF_OP_COPY 8 1 0;
    mk_op EC_GF_OP_XOR2 8 6 0;
    mk_op EC_GF_OP_XOR2 6 3 0;
    mk_op EC_GF_OP_XOR2 3 0 0;
    mk_op EC_GF_OP_XOR2 0 4 0;
    mk_op EC_GF_OP_XOR2 1 5 0;
    mk_op EC_GF_OP_XOR2 4 5 0;
    mk_op EC_GF_OP_XOR2 0 7 0;
    mk_op EC_GF_OP_XOR2 7 5 0;
    mk_op EC_GF_OP_XOR2 4 6 0;
    mk_op EC_GF_OP_XOR3 5 8 0;
    mk_op EC_GF_OP_XOR2 7 2 0;
    mk_op EC_GF_OP_XOR2 2 8 0;
    mk_op EC_GF_OP_XOR2 3 7 0;
    mk_op EC_GF_OP_END 0 0 0]].

(** ec_gf8_mul_88 to ec_gf8_mul_8B. *)
Definition ec_gf8_mul_88_8B : list ec_gf_mul_t := [
  mk_mul 8 [6; 7; 3; 1; 2; 4; 5; 0] [
    mk_op EC_GF_OP_XOR2 5 6 0;
    mk_op EC_GF_OP_XOR2 6 7 0;
    mk_op EC_GF_OP_XOR2 4 6 0;
    mk_op EC_GF_OP_XOR2 6 1 0;
    mk_op EC_GF_OP_XOR2 7 2 0;
    mk_op EC_GF_OP_XOR2 1 0 0;
    mk_op EC_GF_OP_XOR2 2 3 0;
    mk_op EC_GF_OP_XOR2 1 7 0;
    mk_op EC_GF_OP_XOR2 0 5 0;
    mk_op EC_GF_OP_XOR2 2 5 0;
    mk_op EC_GF_OP_XOR2 1 4 0;
    mk_op EC_GF_OP_XOR2 5 4 0;
    mk_op EC_GF_OP_XOR2 4 3 0;
    mk_op EC_GF_OP_XOR2 3 6 0;
    mk_op EC_GF_OP_END 0 0 0];
  mk_mul 9 [2; 1; 6; 5; 7; 3; 4; 0; 8] [
    mk_op EC_GF_OP_XOR2 7 2 0;
    mk_op EC_GF_OP_XOR2 5 1 0;
    mk_op EC_GF_OP_XOR2 1 7 0;
    mk_op EC_GF_OP_XOR2 2 0 0;
    mk_op EC_GF_OP_XOR2 5 0 0;
    mk_op EC_GF_OP_XOR2 6 1 0;
    mk_op EC_GF_OP_XOR2 2 6 0;
    mk_op EC_GF_OP_XOR3 8 5 2;
    mk_op EC_GF_OP_XOR2 4 8 0;
    mk_op EC_GF_OP_XOR2 6 3 0;
    mk_op EC_GF_OP_XOR2 0 8 0;
    mk_op EC_GF_OP_XOR2 3 4 0;
    mk_op EC_GF_OP_XOR2 7 3 0;
    mk_op EC_GF_OP_XOR2 5 7 0;
    mk_op EC_GF_OP_END 0 0 0];
  mk_mul 8 [1; 2; 3; 0; 6; 7; 4; 5] [
    mk_op EC_GF_OP_XOR2 2 0 0;
    mk_op EC_GF_OP_XOR2 5 0 0;
    mk_op EC_GF_OP_XOR2 1 6 0;
    mk_op EC_GF_OP_XOR2 3 6 0;
    mk_op EC_GF_OP_XOR2 0 1 0;
    mk_op EC_GF_OP_XOR2 6 5 0;
    mk_op EC_GF_OP_XOR2 2 7 0;
    mk_op EC_GF_OP_XOR2 4 7 0;
    mk_op EC_GF_OP_XOR2 6 2 0;
    mk_op EC_GF_OP_XOR2 7 3 0;
    mk_op EC_GF_OP_XOR2 0 4 0;
    mk_op EC_GF_OP_END 0 0 0];
  mk_mul 8 [6; 1; 2; 3; 5; 7; 4; 0] [
    mk_op EC_GF_OP_XOR2 1 0 0;
    mk_op EC_GF_OP_XOR2 3 6 0;
    mk_op EC_GF_OP_XOR2 6 1 0;
    mk_op EC_GF_OP_XOR2 1 7 0;
    mk_op EC_GF_OP_XOR2 7 5 0;
    mk_op EC_GF_OP_XOR2 4 1 0;
    mk_op EC_GF_OP_XOR2 5 2 0;
    mk_op EC_GF_OP_XOR2 0 7 0;
    mk_op EC_GF_OP_XOR2 1 2 0;
    mk_op EC_GF_OP_XOR2 7 3 0;
    mk_op EC_GF_OP_XOR2 2 3 0;
    mk_op EC_GF_OP_XOR2 3 4 0;
    mk_op EC_GF_OP_XOR2 4 6 0;
    mk_op EC_GF_OP_XOR2 5 4 0;
    mk_op EC_GF_OP_END 0 0 0]].

(** ec_gf8_mul_8C to ec_gf8_mul_8F. *)
Definition ec_gf8_mul_8C_8F : list ec_gf_mul_t := [
  mk_mul 8 [1; 2; 0; 7; 3; 4; 5; 6] [
    mk_op EC_GF_OP_XOR2 1 7 0;
    mk_op EC_GF_OP_XOR2 5 7 0;
    mk_op EC_GF_OP_XOR2 7 4 0;
    mk_op EC_GF_OP_XOR2 7 2 0;
    mk_op EC_GF_OP_XOR2 4 6 0;
    mk_op EC_GF_OP_XOR2 7 0 0;
    mk_op EC_GF_OP_XOR2 6 0 0;
    mk_op EC_GF_OP_XOR2 0 3 0;
    mk_op EC_GF_OP_XOR2 3 5 0;
    mk_op EC_GF_OP_XOR2 0 1 0;
    mk_op EC_GF_OP_END 0 0 0];
  mk_mul 8 [7; 1; 3; 2; 4; 5; 0; 6] [
    mk_op EC_GF_OP_XOR2 7 0 0;
    mk_op EC_GF_OP_XOR2 0 5 0;
    mk_op EC_GF_OP_XOR2 5 4 0;
    mk_op EC_GF_OP_XOR2 5 6 0;
    mk_op EC_GF_OP_XOR2 3 7 0;
    mk_op EC_GF_OP_XOR2 6 7 0;
    mk_op EC_GF_OP_XOR2 7 1 0;
    mk_op EC_GF_OP_XOR2 4 3 0;
    mk_op EC_GF_OP_XOR2 1 2 0;
    mk_op EC_GF_OP_XOR2 2 4 0;
    mk_op EC_GF_OP_XOR2 3 1 0;
    mk_op EC_GF_OP_XOR2 4 0 0;
    mk_op EC_GF_OP_XOR2 0 6 0;
    mk_op EC_GF_OP_END 0 0 0];
  mk_mul 8 [1; 2; 3; 4; 5; 6; 7; 0] [
    mk_op EC_GF_OP_XOR2 2 0 0;
    mk_op EC_GF_OP_XOR2 3 0 0;
    mk_op EC_GF_OP_XOR2 4 0 0;
    mk_op EC_GF_OP_END 0 0 0];
  mk_mul 8 [1; 2; 3; 4; 5; 6; 7; 0] [
    mk_op EC_GF_OP_XOR2 1 0 0;
    mk_op EC_GF_OP_XOR2 3 0 0;
    mk_op EC_GF_OP_XOR2 0 7 0;
    mk_op EC_GF_OP_XOR2 7 6 0;
    mk_op EC_GF_OP_XOR2 6 5 0;
    mk_op EC_GF_OP_XOR2 5 4 0;
    mk_op EC_GF_OP_XOR2 4 3 0;
    mk_op EC_GF_OP_XOR2 3 2 0;
    mk_op EC_GF_OP_XOR2 2 1 0;
    mk_op EC_GF_OP_END 0 0 0]].

(** ec_gf8_mul_90 to ec_gf8_mul_93. *)
Definition ec_gf8_mul_90_93 : list ec_gf_mul_t := [
  mk_mul 8 [4; 5; 6; 7; 0; 1; 3; 2] [
    mk_op EC_GF_OP_XOR2 2 1 0;
    mk_op EC_GF_OP_XOR2 7 2 0;
    mk_op EC_GF_OP_XOR2 6 7 0;
    mk_op EC_GF_OP_XOR2 5 1 0;
    mk_op EC_GF_OP_XOR2 5 6 0;
    mk_op EC_GF_OP_XOR2 4 5 0;
    mk_op EC_GF_OP_XOR2 3 4 0;
    mk_op EC_GF_OP_XOR2 4 2 0;
    mk_op EC_GF_OP_XOR2 1 3 0;
    mk_op EC_GF_OP_XOR2 6 3 0;
    mk_op EC_GF_OP_XOR2 0 1 0;
    mk_op EC_GF_OP_XOR2 2 0 0;
    mk_op EC_GF_OP_END 0 0 0];
  mk_mul 10 [2; 3; 1; 4; 0; 6; 7; 5; 8; 9] [
    mk_op EC_GF_OP_XOR2 0 3 0;
    mk_op EC_GF_OP_XOR2 3 4 0;
    mk_op EC_GF_OP_COPY 9 1 0;
    mk_op EC_GF_OP_COPY 8 3 0;
    mk_op EC_GF_OP_XOR2 3 5 0;
    mk_op EC_GF_OP_XOR2 1 2 0;
    mk_op EC_GF_OP_XOR2 1 3 0;
    mk_op EC_GF_OP_XOR2 7 1 0;
    mk_op EC_GF_OP_XOR2 5 7 0;
    mk_op EC_GF_OP_XOR2 7 9 0;
    mk_op EC_GF_OP_XOR2 6 5 0;
    mk_op EC_GF_OP_XOR2 4 5 0;
    mk_op EC_GF_OP_XOR2 3 6 0;
    mk_op EC_GF_OP_XOR2 0 3 0;
    mk_op EC_GF_OP_XOR3 5 8 0;
    mk_op EC_GF_OP_XOR2 2 5 0;
    mk_op EC_GF_OP_XOR2 5 4 0;
    mk_op EC_GF_OP_END 0 0 0];
  mk_mul 8 [6; 7; 0; 1; 2; 3; 5; 4] [
    mk_op EC_GF_OP_XOR2 4 1 0;
    mk_op EC_GF_OP_XOR2 5 4 0;
    mk_op EC_GF_OP_XOR2 6 5 0;
    mk_op EC_GF_OP_XOR2 2 0 0;
    mk_op EC_GF_OP_XOR2 2 6 0;
    mk_op EC_GF_OP_XOR2 3 1 0;
    mk_op EC_GF_OP_XOR2 4 2 0;
    mk_op EC_GF_OP_XOR2 3 0 0;
    mk_op EC_GF_OP_XOR2 7 4 0;
    mk_op EC_GF_OP_XOR2 3 7 0;
    mk_op EC_GF_OP_XOR2 5 3 0;
    mk_op EC_GF_OP_XOR2 4 5 0;
    mk_op EC_GF_OP_XOR2 0 4 0;
    mk_op EC_GF_OP_END 0 0 0];
  mk_mul 8 [6; 4; 5; 1; 7; 2; 3; 0] [
    mk_op EC_GF_OP_XOR2 2 7 0;
    mk_op EC_GF_OP_XOR2 4 2 0;
    mk_op EC_GF_OP_XOR2 1 3 0;
    mk_op EC_GF_OP_XOR2 3 4 0;
    mk_op EC_GF_OP_XOR2 0 2 0;
    mk_op EC_GF_OP_XOR2 5 3 0;
    mk_op EC_GF_OP_XOR2 6 1 0;
    mk_op EC_GF_OP_XOR2 0 5 0;
    mk_op EC_GF_OP_XOR2 2 6 0;
    mk_op EC_GF_OP_XOR2 6 0 0;
    mk_op EC_GF_OP_XOR2 4 6 0;
    mk_op EC_GF_OP_XOR2 7 4 0;
    mk_op EC_GF_OP_END 0 0 0]].

(** ec_gf8_mul_94 to ec_gf8_mul_97. *)
Definition ec_gf8_mul_94_97 : list ec_gf_mul_t := [
  mk_mul 8 [7; 5; 0; 2; 6; 1; 3; 4] [
    mk_op EC_GF_OP_XOR2 0 2 0;
    mk_op EC_GF_OP_XOR2 2 6 0;
    mk_op EC_GF_OP_XOR2 7 2 0;
    mk_op EC_GF_OP_XOR2 3 7 0;
    mk_op EC_GF_OP_XOR2 0 3 0;
    mk_op EC_GF_OP_XOR2 3 5 0;
    mk_op EC_GF_OP_XOR2 1 4 0;
    mk_op EC_GF_OP_XOR2 5 2 0;
    mk_op EC_GF_OP_XOR2 4 0 0;
    mk_op EC_GF_OP_XOR2 1 5 0;
    mk_op EC_GF_OP_XOR2 7 1 0;
    mk_op EC_GF_OP_XOR2 0 7 0;
    mk_op EC_GF_OP_XOR2 6 0 0;
    mk_op EC_GF_OP_END 0 0 0];
  mk_mul 8 [7; 6; 1; 3; 0; 4; 5; 2] [
    mk_op EC_GF_OP_XOR2 3 2 0;
    mk_op EC_GF_OP_XOR2 7 3 0;
    mk_op EC_GF_OP_XOR2 3 6 0;
    mk_op EC_GF_OP_XOR2 0 3 0;
    mk_op EC_GF_OP_XOR2 4 0 0;
    mk_op EC_GF_OP_XOR2 2 4 0;
    mk_op EC_GF_OP_XOR2 4 5 0;
    mk_op EC_GF_OP_XOR2 1 4 0;
    mk_op EC_GF_OP_XOR2 5 7 0;
    mk_op EC_GF_OP_XOR2 6 1 0;
    mk_op EC_GF_OP_XOR2 7 6 0;
    mk_op EC_GF_OP_XOR2 6 2 0;
    mk_op EC_GF_OP_XOR2 0 6 0;
    mk_op EC_GF_OP_XOR2 4 0 0;
    mk_op EC_GF_OP_END 0 0 0];
  mk_mul 9 [4; 0; 1; 6; 7; 2; 3; 5; 8] [
    mk_op EC_GF_OP_XOR2 5 1 0;
    mk_op EC_GF_OP_XOR2 4 5 0;
    mk_op EC_GF_OP_XOR2 5 6 0;
    mk_op EC_GF_OP_XOR2 6 7 0;
    mk_op EC_GF_OP_XOR3 8 0 4;
    mk_op EC_GF_OP_XOR2 3 6 0;
    mk_op EC_GF_OP_XOR2 7 8 0;
    mk_op EC_GF_OP_XOR2 0 1 0;
    mk_op EC_GF_OP_XOR2 8 3 0;
    mk_op EC_GF_OP_XOR2 3 2 0;
    mk_op EC_GF_OP_XOR2 1 8 0;
    mk_op EC_GF_OP_XOR2 2 5 0;
    mk_op EC_GF_OP_XOR2 5 8 0;
    mk_op EC_GF_OP_XOR2 0 2 0;
    mk_op EC_GF_OP_END 0 0 0];
  mk_mul 9 [4; 5; 3; 6; 7; 1; 2; 0; 8] [
    mk_op EC_GF_OP_XOR2 5 0 0;
    mk_op EC_GF_OP_COPY 8 2 0;
    mk_op EC_GF_OP_XOR2 0 3 0;
    mk_op EC_GF_OP_XOR2 8 6 0;
    mk_op EC_GF_OP_XOR2 5 1 0;
    mk_op EC_GF_OP_XOR2 3 7 0;
    mk_op EC_GF_OP_XOR2 1 8 0;
    mk_op EC_GF_OP_XOR2 7 5 0;
    mk_op EC_GF_OP_XOR2 2 3 0;
    mk_op EC_GF_OP_XOR2 6 3 0;
    mk_op EC_GF_OP_XOR2 0 4 0;
    mk_op EC_GF_OP_XOR2 3 1 0;
    mk_op EC_GF_OP_XOR2 4 5 0;
    mk_op EC_GF_OP_XOR2 5 8 0;
    mk_op EC_GF_OP_XOR2 3 4 0;
    mk_op EC_GF_OP_END 0 0 0]].

(** ec_gf8_mul_98 to ec_gf8_mul_9B. *)
Definition ec_gf8_mul_98_9B : list ec_gf_mul_t := [
  mk_mul 8 [4; 2; 3; 6; 7; 5; 1; 0] [
    mk_op EC_GF_OP_XOR2 5 7 0;
    mk_op EC_GF_OP_XOR2 4 1 0;
    mk_op EC_GF_OP_XOR2 2 5 0;
    mk_op EC_GF_OP_XOR2 4 7 0;
    mk_op EC_GF_OP_XOR2 1 2 0;
    mk_op EC_GF_OP_XOR2 3 4 0;
    mk_op EC_GF_OP_XOR2 0 1 0;
    mk_op EC_GF_OP_XOR2 4 6 0;
    mk_op EC_GF_OP_XOR2 5 3 0;
    mk_op EC_GF_OP_XOR2 6 0 0;
    mk_op EC_GF_OP_XOR2 1 4 0;
    mk_op EC_GF_OP_XOR2 0 5 0;
    mk_op EC_GF_OP_XOR2 7 0 0;
    mk_op EC_GF_OP_XOR2 0 1 0;
    mk_op EC_GF_OP_END 0 0 0];
  mk_mul 8 [6; 5; 3; 7; 0; 1; 4; 2] [
    mk_op EC_GF_OP_XOR2 0 2 0;
    mk_op EC_GF_OP_XOR2 7 1 0;
    mk_op EC_GF_OP_XOR2 0 3 0;
    mk_op EC_GF_OP_XOR2 7 2 0;
    mk_op EC_GF_OP_XOR2 3 4 0;
    mk_op EC_GF_OP_XOR2 2 5 0;
    mk_op EC_GF_OP_XOR2 1 3 0;
    mk_op EC_GF_OP_XOR2 5 7 0;
    mk_op EC_GF_OP_XOR2 4 2 0;
    mk_op EC_GF_OP_XOR2 3 7 0;
    mk_op EC_GF_OP_XOR2 6 0 0;
    mk_op EC_GF_OP_XOR2 2 6 0;
    mk_op EC_GF_OP_XOR2 6 3 0;
    mk_op EC_GF_OP_XOR2 7 2 0;
    mk_op EC_GF_OP_END 0 0 0];
  mk_mul 9 [6; 3; 4; 0; 5; 1; 2; 7; 8] [
    mk_op EC_GF_OP_XOR2 5 4 0;
    mk_op EC_GF_OP_XOR2 6 4 0;
    mk_op EC_GF_OP_XOR2 4 3 0;
    mk_op EC_GF_OP_XOR2 3 2 0;
    mk_op EC_GF_OP_XOR2 2 6 0;
    mk_op EC_GF_OP_XOR2 6 1 0;
    mk_op EC_GF_OP_XOR2 1 0 0;
    mk_op EC_GF_OP_XOR2 0 5 0;
    mk_op EC_GF_OP_XOR3 8 4 0;
    mk_op EC_GF_OP_XOR2 0 6 0;
    mk_op EC_GF_OP_XOR2 7 8 0;
    mk_op EC_GF_OP_XOR2 1 8 0;
    mk_op EC_GF_OP_XOR2 3 7 0;
    mk_op EC_GF_OP_XOR2 5 3 0;
    mk_op EC_GF_OP_END 0 0 0];
  mk_mul 10 [4; 5; 8; 6; 7; 1; 2; 0; 3; 9] [
    mk_op EC_GF_OP_XOR2 6 0 0;
    mk_op EC_GF_OP_XOR2 7 2 0;
    mk_op EC_GF_OP_COPY 9 5 0;
    mk_op EC_GF_OP_XOR2 7 0 0;
    mk_op EC_GF_OP_XOR2 2 4 0;
    mk_op EC_GF_OP_XOR2 6 1 0;
    mk_op EC_GF_OP_XOR2 5 1 0;
    mk_op EC_GF_OP_XOR2 4 6 0;
    mk_op EC_GF_OP_XOR3 8 3 2;
    mk_op EC_GF_OP_XOR2 1 3 0;
    mk_op EC_GF_OP_XOR2 5 7 0;
    mk_op EC_GF_OP_XOR2 3 9 0;
    mk_op EC_GF_OP_XOR2 0 3 0;
    mk_op EC_GF_OP_XOR2 6 3 0;
    mk_op EC_GF_OP_END 0 0 0]].

(** ec_gf8_mul_9C to ec_gf8_mul_9F. *)
Definition ec_gf8_mul_9C_9F : list ec_gf_mul_t := [
  mk_mul 8 [3; 2; 1; 0; 4; 5; 6; 7] [
    mk_op EC_GF_OP_XOR2 3 0 0;
    mk_op EC_GF_OP_XOR2 3 6 0;
    mk_op EC_GF_OP_XOR2 7 3 0;
    mk_op EC_GF_OP_XOR2 4 7 0;
    mk_op EC_GF_OP_XOR2 1 4 0;
    mk_op EC_GF_OP_XOR2 3 1 0;
    mk_op EC_GF_OP_XOR2 2 5 0;
    mk_op EC_GF_OP_XOR2 5 3 0;
    mk_op EC_GF_OP_XOR2 6 2 0;
    mk_op EC_GF_OP_XOR2 0 2 0;
    mk_op EC_GF_OP_END 0 0 0];
  mk_mul 8 [0; 1; 2; 3; 7; 4; 5; 6] [
    mk_op EC_GF_OP_XOR2 3 0 0;
    mk_op EC_GF_OP_XOR2 4 1 0;
    mk_op EC_GF_OP_XOR2 6 3 0;
    mk_op EC_GF_OP_XOR2 5 2 0;
    mk_op EC_GF_OP_XOR2 2 6 0;
    mk_op EC_GF_OP_XOR2 4 7 0;
    mk_op EC_GF_OP_XOR2 1 5 0;
    mk_op EC_GF_OP_XOR2 3 5 0;
    mk_op EC_GF_OP_XOR2 7 6 0;
    mk_op EC_GF_OP_XOR2 0 4 0;
    mk_op EC_GF_OP_XOR2 2 4 0;
    mk_op EC_GF_OP_END 0 0 0];
  mk_mul 9 [4; 5; 3; 8; 6; 0; 2; 7; 1] [
    mk_op EC_GF_OP_XOR2 7 0 0;
    mk_op EC_GF_OP_COPY 8 7 0;
    mk_op EC_GF_OP_XOR2 8 5 0;
    mk_op EC_GF_OP_XOR2 5 2 0;
    mk_op EC_GF_OP_XOR2 2 6 0;
    mk_op EC_GF_OP_XOR2 5 0 0;
    mk_op EC_GF_OP_XOR2 6 4 0;
    mk_op EC_GF_OP_XOR2 6 0 0;
    mk_op EC_GF_OP_XOR2 7 3 0;
    mk_op EC_GF_OP_XOR2 0 1 0;
    mk_op EC_GF_OP_XOR2 4 1 0;
    mk_op EC_GF_OP_XOR2 3 6 0;
    mk_op EC_GF_OP_XOR2 0 8 0;
    mk_op EC_GF_OP_END 0 0 0];
  mk_mul 9 [4; 5; 6; 7; 0; 1; 2; 3; 8] [
    mk_op EC_GF_OP_XOR3 8 1 2;
    mk_op EC_GF_OP_XOR2 8 3 0;
    mk_op EC_GF_OP_XOR2 3 0 0;
    mk_op EC_GF_OP_XOR2 4 0 0;
    mk_op EC_GF_OP_XOR2 4 1 0;
    mk_op EC_GF_OP_XOR2 5 3 0;
    mk_op EC_GF_OP_XOR2 0 6 0;
    mk_op EC_GF_OP_XOR2 1 7 0;
    mk_op EC_GF_OP_XOR2 6 4 0;
    mk_op EC_GF_OP_XOR2 7 5 0;
    mk_op EC_GF_OP_XOR2 6 8 0;
    mk_op EC_GF_OP_XOR2 5 8 0;
    mk_op EC_GF_OP_END 0 0 0]].

(** ec_gf8_mul_A0 to ec_gf8_mul_A3. *)
Definition ec_gf8_mul_A0_A3 : list ec_gf_mul_t := [
  mk_mul 8 [3; 1; 6; 7; 5; 2; 4; 0] [
    mk_op EC_GF_OP_XOR2 6 1 0;
    mk_op EC_GF_OP_XOR2 5 6 0;
    mk_op EC_GF_OP_XOR2 6 7 0;
    mk_op EC_GF_OP_XOR2 0 1 0;
    mk_op EC_GF_OP_XOR2 4 6 0;
    mk_op EC_GF_OP_XOR2 1 2 0;
    mk_op EC_GF_OP_XOR2 1 4 0;
    mk_op EC_GF_OP_XOR2 4 3 0;
    mk_op EC_GF_OP_XOR2 3 5 0;
    mk_op EC_GF_OP_XOR2 2 3 0;
    mk_op EC_GF_OP_XOR2 5 1 0;
    mk_op EC_GF_OP_XOR2 7 2 0;
    mk_op EC_GF_OP_XOR2 2 0 0;
    mk_op EC_GF_OP_XOR2 0 5 0;
    mk_op EC_GF_OP_END 0 0 0];
  mk_mul 9 [7; 4; 1; 5; 6; 0; 2; 3; 8] [
    mk_op EC_GF_OP_XOR2 2 6 0;
    mk_op EC_GF_OP_XOR2 1 7 0;
    mk_op EC_GF_OP_XOR2 1 2 0;
    mk_op EC_GF_OP_XOR2 5 1 0;
    mk_op EC_GF_OP_XOR2 0 3 0;
    mk_op EC_GF_OP_XOR2 6 5 0;
    mk_op EC_GF_OP_XOR2 4 1 0;
    mk_op EC_GF_OP_XOR2 0 2 0;
    mk_op EC_GF_OP_XOR2 3 4 0;
    mk_op EC_GF_OP_XOR3 8 0 6;
    mk_op EC_GF_OP_XOR2 2 3 0;
    mk_op EC_GF_OP_XOR2 7 8 0;
    mk_op EC_GF_OP_XOR2 3 8 0;
    mk_op EC_GF_OP_END 0 0 0];
  mk_mul 8 [7; 0; 6; 3; 2; 1; 4; 5] [
    mk_op EC_GF_OP_XOR2 2 1 0;
    mk_op EC_GF_OP_XOR2 2 4 0;
    mk_op EC_GF_OP_XOR2 3 5 0;
    mk_op EC_GF_OP_XOR2 1 6 0;
    mk_op EC_GF_OP_XOR2 2 3 0;
    mk_op EC_GF_OP_XOR2 3 1 0;
    mk_op EC_GF_OP_XOR2 0 2 0;
    mk_op EC_GF_OP_XOR2 7 3 0;
    mk_op EC_GF_OP_XOR2 1 0 0;
    mk_op EC_GF_OP_XOR2 0 7 0;
    mk_op EC_GF_OP_XOR2 4 7 0;
    mk_op EC_GF_OP_XOR2 5 0 0;
    mk_op EC_GF_OP_END 0 0 0];
  mk_mul 9 [3; 7; 2; 6; 1; 4; 0; 5; 8] [
    mk_op EC_GF_OP_COPY 8 2 0;
    mk_op EC_GF_OP_XOR2 2 6 0;
    mk_op EC_GF_OP_XOR2 0 2 0;
    mk_op EC_GF_OP_XOR2 4 0 0;
    mk_op EC_GF_OP_XOR2 1 5 0;
    mk_op EC_GF_OP_XOR2 5 4 0;
    mk_op EC_GF_OP_XOR2 6 1 0;
    mk_op EC_GF_OP_XOR2 4 3 0;
    mk_op EC_GF_OP_XOR2 7 1 0;
    mk_op EC_GF_OP_XOR2 3 8 0;
    mk_op EC_GF_OP_XOR2 0 7 0;
    mk_op EC_GF_OP_XOR2 1 3 0;
    mk_op EC_GF_OP_XOR2 7 5 0;
    mk_op EC_GF_OP_XOR2 3 0 0;
    mk_op EC_GF_OP_XOR2 0 4 0;
    mk_op EC_GF_OP_END 0 0 0]].

(** ec_gf8_mul_A4 to ec_gf8_mul_A7. *)
Definition ec_gf8_mul_A4_A7 : list ec_gf_mul_t := [
  mk_mul 8 [5; 6; 7; 2; 4; 3; 0; 1] [
    mk_op EC_GF_OP_XOR2 0 1 0;
    mk_op EC_GF_OP_XOR2 4 2 0;
    mk_op EC_GF_OP_XOR2 5 3 0;
    mk_op EC_GF_OP_XOR2 7 0 0;
    mk_op EC_GF_OP_XOR2 2 5 0;
    mk_op EC_GF_OP_XOR2 6 4 0;
    mk_op EC_GF_OP_XOR2 5 1 0;
    mk_op EC_GF_OP_XOR2 4 7 0;
    mk_op EC_GF_OP_XOR2 3 6 0;
    mk_op EC_GF_OP_XOR2 1 4 0;
    mk_op EC_GF_OP_XOR2 3 1 0;
    mk_op EC_GF_OP_XOR2 0 3 0;
    mk_op EC_GF_OP_XOR2 3 2 0;
    mk_op EC_GF_OP_XOR2 4 3 0;
    mk_op EC_GF_OP_END 0 0 0];
  mk_mul 9 [1; 4; 2; 5; 6; 7; 3; 0; 8] [
    mk_op EC_GF_OP_XOR2 7 1 0;
    mk_op EC_GF_OP_XOR2 1 5 0;
    mk_op EC_GF_OP_XOR2 7 0 0;
    mk_op EC_GF_OP_XOR2 3 0 0;
    mk_op EC_GF_OP_XOR2 6 1 0;
    mk_op EC_GF_OP_XOR2 5 2 0;
    mk_op EC_GF_OP_XOR2 0 2 0;
    mk_op EC_GF_OP_XOR2 1 3 0;
    mk_op EC_GF_OP_XOR3 8 5 6;
    mk_op EC_GF_OP_XOR2 2 7 0;
    mk_op EC_GF_OP_XOR2 0 4 0;
    mk_op EC_GF_OP_XOR2 3 7 0;
    mk_op EC_GF_OP_XOR2 4 8 0;
    mk_op EC_GF_OP_XOR2 7 8 0;
    mk_op EC_GF_OP_END 0 0 0];
  mk_mul 8 [1; 2; 0; 3; 4; 5; 6; 7] [
    mk_op EC_GF_OP_XOR2 2 0 0;
    mk_op EC_GF_OP_XOR2 4 6 0;
    mk_op EC_GF_OP_XOR2 3 5 0;
    mk_op EC_GF_OP_XOR2 2 4 0;
    mk_op EC_GF_OP_XOR2 3 7 0;
    mk_op EC_GF_OP_XOR2 7 2 0;
    mk_op EC_GF_OP_XOR2 1 3 0;
    mk_op EC_GF_OP_XOR2 5 7 0;
    mk_op EC_GF_OP_XOR2 6 1 0;
    mk_op EC_GF_OP_XOR2 4 1 0;
    mk_op EC_GF_OP_END 0 0 0];
  mk_mul 8 [0; 1; 2; 5; 6; 7; 3; 4] [
    mk_op EC_GF_OP_XOR2 2 0 0;
    mk_op EC_GF_OP_XOR2 3 1 0;
    mk_op EC_GF_OP_XOR2 5 7 0;
    mk_op EC_GF_OP_XOR2 4 2 0;
    mk_op EC_GF_OP_XOR2 3 5 0;
    mk_op EC_GF_OP_XOR2 4 6 0;
    mk_op EC_GF_OP_XOR2 0 3 0;
    mk_op EC_GF_OP_XOR2 6 3 0;
    mk_op EC_GF_OP_XOR2 1 4 0;
    mk_op EC_GF_OP_XOR2 7 4 0;
    mk_op EC_GF_OP_END 0 0 0]].

(** ec_gf8_mul_A8 to ec_gf8_mul_AB. *)
Definition ec_gf8_mul_A8_AB : list ec_gf_mul_t := [
  mk_mul 10 [1; 7; 5; 8; 6; 3; 4; 0; 2; 9] [
    mk_op EC_GF_OP_XOR2 0 2 0;
    mk_op EC_GF_OP_XOR2 0 7 0;
    mk_op EC_GF_OP_COPY 8 0 0;
    mk_op EC_GF_OP_XOR2 8 1 0;
    mk_op EC_GF_OP_XOR2 1 6 0;
    mk_op EC_GF_OP_COPY 9 4 0;
    mk_op EC_GF_OP_XOR2 0 5 0;
    mk_op EC_GF_OP_XOR2 4 1 0;
    mk_op EC_GF_OP_XOR2 5 1 0;
    mk_op EC_GF_OP_XOR2 8 3 0;
    mk_op EC_GF_OP_XOR2 1 3 0;
    mk_op EC_GF_OP_XOR2 3 2 0;
    mk_op EC_GF_OP_XOR2 2 9 0;
    mk_op EC_GF_OP_XOR2 3 0 0;
    mk_op EC_GF_OP_XOR2 7 2 0;
    mk_op EC_GF_OP_XOR2 6 2 0;
    mk_op EC_GF_OP_END 0 0 0];
  mk_mul 8 [3; 7; 6; 1; 2; 0; 4; 5] [
    mk_op EC_GF_OP_XOR2 4 1 0;
    mk_op EC_GF_OP_XOR2 1 0 0;
    mk_op EC_GF_OP_XOR2 5 0 0;
    mk_op EC_GF_OP_XOR2 0 3 0;
    mk_op EC_GF_OP_XOR2 0 7 0;
    mk_op EC_GF_OP_XOR2 5 2 0;
    mk_op EC_GF_OP_XOR2 7 2 0;
    mk_op EC_GF_OP_XOR2 2 6 0;
    mk_op EC_GF_OP_XOR2 6 1 0;
    mk_op EC_GF_OP_XOR2 1 7 0;
    mk_op EC_GF_OP_XOR2 3 6 0;
    mk_op EC_GF_OP_XOR2 7 4 0;
    mk_op EC_GF_OP_XOR2 6 5 0;
    mk_op EC_GF_OP_END 0 0 0];
  mk_mul 8 [0; 4; 5; 3; 6; 7; 1; 2] [
    mk_op EC_GF_OP_XOR2 5 6 0;
    mk_op EC_GF_OP_XOR2 3 0 0;
    mk_op EC_GF_OP_XOR2 4 5 0;
    mk_op EC_GF_OP_XOR2 6 3 0;
    mk_op EC_GF_OP_XOR2 5 7 0;
    mk_op EC_GF_OP_XOR2 2 0 0;
    mk_op EC_GF_OP_XOR2 7 6 0;
    mk_op EC_GF_OP_XOR2 2 5 0;
    mk_op EC_GF_OP_XOR2 0 1 0;
    mk_op EC_GF_OP_XOR2 3 1 0;
    mk_op EC_GF_OP_XOR2 0 7 0;
    mk_op EC_GF_OP_XOR2 1 4 0;
    mk_op EC_GF_OP_XOR2 7 4 0;
    mk_op EC_GF_OP_XOR2 4 2 0;
    mk_op EC_GF_OP_XOR2 6 4 0;
    mk_op EC_GF_OP_END 0 0 0];
  mk_mul 10 [2; 3; 8; 0; 5; 6; 1; 4; 7; 9] [
    mk_op EC_GF_OP_COPY 8 0 0;
    mk_op EC_GF_OP_XOR2 0 1 0;
    mk_op EC_GF_OP_XOR2 1 4 0;
    mk_op EC_GF_OP_XOR2 1 5 0;
    mk_op EC_GF_OP_XOR2 6 1 0;
    mk_op EC_GF_OP_XOR2 2 0 0;
    mk_op EC_GF_OP_COPY 9 6 0;
    mk_op EC_GF_OP_XOR2 6 2 0;
    mk_op EC_GF_OP_XOR2 4 6 0;
    mk_op EC_GF_OP_XOR2 7 4 0;
    mk_op EC_GF_OP_XOR2 8 7 0;
    mk_op EC_GF_OP_XOR2 3 8 0;
    mk_op EC_GF_OP_XOR2 5 3 0;
    mk_op EC_GF_OP_XOR2 6 3 0;
    mk_op EC_GF_OP_XOR2 2 5 0;
    mk_op EC_GF_OP_XOR3 3 9 7;
    mk_op EC_GF_OP_END 0 0 0]].

(** ec_gf8_mul_AC to ec_gf8_mul_AF. *)
Definition ec_gf8_mul_AC_AF : list ec_gf_mul_t := [
  mk_mul 8 [3; 2; 1; 0; 4; 5; 6; 7] [
    mk_op EC_GF_OP_XOR2 5 0 0;
    mk_op EC_GF_OP_XOR2 0 2 0;
    mk_op EC_GF_OP_XOR2 2 4 0;
    mk_op EC_GF_OP_XOR2 4 7 0;
    mk_op EC_GF_OP_XOR2 7 0 0;
    mk_op EC_GF_OP_XOR2 0 3 0;
    mk_op EC_GF_OP_XOR2 0 6 0;
    mk_op EC_GF_OP_XOR2 3 1 0;
    mk_op EC_GF_OP_XOR2 6 1 0;
    mk_op EC_GF_OP_XOR2 1 5 0;
    mk_op EC_GF_OP_END 0 0 0];
  mk_mul 9 [3; 4; 5; 6; 7; 0; 1; 2; 8] [
    mk_op EC_GF_OP_XOR3 8 1 2;
    mk_op EC_GF_OP_XOR2 2 0 0;
    mk_op EC_GF_OP_XOR2 3 1 0;
    mk_op EC_GF_OP_XOR2 5 0 0;
    mk_op EC_GF_OP_XOR2 3 0 0;
    mk_op EC_GF_OP_XOR2 4 8 0;
    mk_op EC_GF_OP_XOR2 5 8 0;
    mk_op EC_GF_OP_XOR2 6 2 0;
    mk_op EC_GF_OP_END 0 0 0];
  mk_mul 9 [7; 0; 5; 6; 3; 4; 1; 2; 8] [
    mk_op EC_GF_OP_XOR2 6 5 0;
    mk_op EC_GF_OP_XOR2 5 0 0;
    mk_op EC_GF_OP_COPY 8 5 0;
    mk_op EC_GF_OP_XOR2 5 7 0;
    mk_op EC_GF_OP_XOR2 7 1 0;
    mk_op EC_GF_OP_XOR2 0 2 0;
    mk_op EC_GF_OP_XOR2 1 6 0;
    mk_op EC_GF_OP_XOR2 7 3 0;
    mk_op EC_GF_OP_XOR2 6 5 0;
    mk_op EC_GF_OP_XOR2 2 6 0;
    mk_op EC_GF_OP_XOR2 0 4 0;
    mk_op EC_GF_OP_XOR2 6 3 0;
    mk_op EC_GF_OP_XOR2 3 4 0;
    mk_op EC_GF_OP_XOR2 4 8 0;
    mk_op EC_GF_OP_END 0 0 0];
  mk_mul 8 [0; 1; 2; 7; 3; 4; 5; 6] [
    mk_op EC_GF_OP_XOR2 4 0 0;
    mk_op EC_GF_OP_XOR2 6 0 0;
    mk_op EC_GF_OP_XOR2 0 1 0;
    mk_op EC_GF_OP_XOR2 0 7 0;
    mk_op EC_GF_OP_XOR2 5 1 0;
    mk_op EC_GF_OP_XOR2 7 6 0;
    mk_op EC_GF_OP_XOR2 1 2 0;
    mk_op EC_GF_OP_XOR2 6 2 0;
    mk_op EC_GF_OP_XOR2 2 5 0;
    mk_op EC_GF_OP_XOR2 1 4 0;
    mk_op EC_GF_OP_XOR2 2 0 0;
    mk_op EC_GF_OP_XOR2 0 3 0;
    mk_op EC_GF_OP_END 0 0 0]].

(** ec_gf8_mul_B0 to ec_gf8_mul_B3. *)
Definition ec_gf8_mul_B0_B3 : list ec_gf_mul_t := [
  mk_mul 8 [4; 0; 7; 2; 3; 1; 6; 5] [
    mk_op EC_GF_OP_XOR2 4 1 0;
    mk_op EC_GF_OP_XOR2 3 6 0;
    mk_op EC_GF_OP_XOR2 7 4 0;
    mk_op EC_GF_OP_XOR2 4 3 0;
    mk_op EC_GF_OP_XOR2 2 4 0;
    mk_op EC_GF_OP_XOR2 1 0 0;
    mk_op EC_GF_OP_XOR2 4 5 0;
    mk_op EC_GF_OP_XOR2 6 2 0;
    mk_op EC_GF_OP_XOR2 1 6 0;
    mk_op EC_GF_OP_XOR2 0 4 0;
    mk_op EC_GF_OP_XOR2 5 1 0;
    mk_op EC_GF_OP_XOR2 1 7 0;
    mk_op EC_GF_OP_XOR2 0 1 0;
    mk_op EC_GF_OP_XOR2 3 1 0;
    mk_op EC_GF_OP_END 0 0 0];
  mk_mul 9 [2; 6; 4; 7; 0; 1; 3; 5; 8] [
    mk_op EC_GF_OP_XOR2 4 1 0;
    mk_op EC_GF_OP_COPY 8 4 0;
    mk_op EC_GF_OP_XOR2 2 7 0;
    mk_op EC_GF_OP_XOR2 4 2 0;
    mk_op EC_GF_OP_XOR2 2 3 0;
    mk_op EC_GF_OP_XOR2 6 4 0;
    mk_op EC_GF_OP_XOR2 1 0 0;
    mk_op EC_GF_OP_XOR2 2 5 0;
    mk_op EC_GF_OP_XOR2 0 6 0;
    mk_op EC_GF_OP_XOR2 7 6 0;
    mk_op EC_GF_OP_XOR2 1 2 0;
    mk_op EC_GF_OP_XOR2 6 5 0;
    mk_op EC_GF_OP_XOR2 3 7 0;
    mk_op EC_GF_OP_XOR2 2 0 0;
    mk_op EC_GF_OP_XOR3 5 8 1;
    mk_op EC_GF_OP_END 0 0 0];
  mk_mul 9 [0; 7; 4; 5; 6; 1; 2; 3; 8] [
    mk_op EC_GF_OP_XOR2 1 3 0;
    mk_op EC_GF_OP_XOR2 2 1 0;
    mk_op EC_GF_OP_XOR2 0 2 0;
    mk_op EC_GF_OP_XOR2 6 0 0;
    mk_op EC_GF_OP_XOR2 1 6 0;
    mk_op EC_GF_OP_XOR3 8 4 5;
    mk_op EC_GF_OP_XOR2 2 8 0;
    mk_op EC_GF_OP_XOR2 8 1 0;
    mk_op EC_GF_OP_XOR2 7 8 0;
    mk_op EC_GF_OP_XOR2 3 8 0;
    mk_op EC_GF_OP_XOR2 0 7 0;
    mk_op EC_GF_OP_XOR2 5 0 0;
    mk_op EC_GF_OP_XOR2 1 5 0;
    mk_op EC_GF_OP_END 0 0 0];
  mk_mul 10 [2; 3; 4; 5; 1; 6; 0; 7; 8; 9] [
    mk_op EC_GF_OP_XOR2 5 0 0;
    mk_op EC_GF_OP_COPY 9 5 0;
    mk_op EC_GF_OP_XOR2 4 2 0;
    mk_op EC_GF_OP_XOR3 8 6 4;
    mk_op EC_GF_OP_XOR2 5 3 0;
    mk_op EC_GF_OP_XOR2 8 5 0;
    mk_op EC_GF_OP_XOR2 0 1 0;
    mk_op EC_GF_OP_XOR2 7 8 0;
    mk_op EC_GF_OP_XOR2 0 8 0;
    mk_op EC_GF_OP_XOR2 1 7 0;
    mk_op EC_GF_OP_XOR2 2 1 0;
    mk_op EC_GF_OP_XOR2 6 1 0;
    mk_op EC_GF_OP_XOR2 3 1 0;
    mk_op EC_GF_OP_XOR2 5 2 0;
    mk_op EC_GF_OP_XOR3 1 9 0;
    mk_op EC_GF_OP_END 0 0 0]].

(** ec_gf8_mul_B4 to ec_gf8_mul_B7. *)
Definition ec_gf8_mul_B4_B7 : list ec_gf_mul_t := [
  mk_mul 8 [5; 6; 7; 0; 1; 2; 3; 4] [
    mk_op EC_GF_OP_XOR2 3 1 0;
    mk_op EC_GF_OP_XOR2 4 3 0;
    mk_op EC_GF_OP_XOR2 1 0 0;
    mk_op EC_GF_OP_XOR2 3 2 0;
    mk_op EC_GF_OP_XOR2 2 1 0;
    mk_op EC_GF_OP_XOR2 5 4 0;
    mk_op EC_GF_OP_XOR2 4 2 0;
    mk_op EC_GF_OP_XOR2 6 3 0;
    mk_op EC_GF_OP_XOR2 7 4 0;
    mk_op EC_GF_OP_XOR2 0 7 0;
    mk_op EC_GF_OP_XOR2 7 6 0;
    mk_op EC_GF_OP_XOR2 6 5 0;
    mk_op EC_GF_OP_END 0 0 0];
  mk_mul 9 [3; 4; 0; 7; 1; 5; 6; 2; 8] [
    mk_op EC_GF_OP_XOR2 1 0 0;
    mk_op EC_GF_OP_XOR2 0 2 0;
    mk_op EC_GF_OP_XOR2 0 3 0;
    mk_op EC_GF_OP_XOR2 6 0 0;
    mk_op EC_GF_OP_COPY 8 6 0;
    mk_op EC_GF_OP_XOR2 6 1 0;
    mk_op EC_GF_OP_XOR2 1 4 0;
    mk_op EC_GF_OP_XOR2 4 2 0;
    mk_op EC_GF_OP_XOR2 5 1 0;
    mk_op EC_GF_OP_XOR2 7 4 0;
    mk_op EC_GF_OP_XOR2 3 5 0;
    mk_op EC_GF_OP_XOR2 0 7 0;
    mk_op EC_GF_OP_XOR2 5 4 0;
    mk_op EC_GF_OP_XOR2 2 0 0;
    mk_op EC_GF_OP_XOR3 4 8 3;
    mk_op EC_GF_OP_XOR2 0 6 0;
    mk_op EC_GF_OP_END 0 0 0];
  mk_mul 8 [5; 3; 6; 4; 7; 0; 1; 2] [
    mk_op EC_GF_OP_XOR2 7 1 0;
    mk_op EC_GF_OP_XOR2 0 4 0;
    mk_op EC_GF_OP_XOR2 1 2 0;
    mk_op EC_GF_OP_XOR2 4 3 0;
    mk_op EC_GF_OP_XOR2 2 3 0;
    mk_op EC_GF_OP_XOR2 7 4 0;
    mk_op EC_GF_OP_XOR2 3 5 0;
    mk_op EC_GF_OP_XOR2 5 7 0;
    mk_op EC_GF_OP_XOR2 6 0 0;
    mk_op EC_GF_OP_XOR2 7 0 0;
    mk_op EC_GF_OP_XOR2 0 1 0;
    mk_op EC_GF_OP_XOR2 2 6 0;
    mk_op EC_GF_OP_XOR2 1 3 0;
    mk_op EC_GF_OP_XOR2 3 2 0;
    mk_op EC_GF_OP_END 0 0 0];
  mk_mul 8 [5; 0; 1; 4; 2; 6; 7; 3] [
    mk_op EC_GF_OP_XOR2 2 1 0;
    mk_op EC_GF_OP_XOR2 0 4 0;
    mk_op EC_GF_OP_XOR2 2 6 0;
    mk_op EC_GF_OP_XOR2 0 2 0;
    mk_op EC_GF_OP_XOR2 1 0 0;
    mk_op EC_GF_OP_XOR2 0 5 0;
    mk_op EC_GF_OP_XOR2 7 1 0;
    mk_op EC_GF_OP_XOR2 3 7 0;
    mk_op EC_GF_OP_XOR2 6 0 0;
    mk_op EC_GF_OP_XOR2 2 3 0;
    mk_op EC_GF_OP_XOR2 5 2 0;
    mk_op EC_GF_OP_XOR2 7 5 0;
    mk_op EC_GF_OP_END 0 0 0]].

(** ec_gf8_mul_B8 to ec_gf8_mul_BB. *)
Definition ec_gf8_mul_B8_BB : list ec_gf_mul_t := [
  mk_mul 8 [6; 4; 5; 1; 2; 0; 7; 3] [
    mk_op EC_GF_OP_XOR2 2 5 0;
    mk_op EC_GF_OP_XOR2 7 2 0;
    mk_op EC_GF_OP_XOR2 2 0 0;
    mk_op EC_GF_OP_XOR2 0 1 0;
    mk_op EC_GF_OP_XOR2 6 3 0;
    mk_op EC_GF_OP_XOR2 3 2 0;
    mk_op EC_GF_OP_XOR2 1 4 0;
    mk_op EC_GF_OP_XOR2 0 6 0;
    mk_op EC_GF_OP_XOR2 4 7 0;
    mk_op EC_GF_OP_XOR2 5 1 0;
    mk_op EC_GF_OP_XOR2 6 1 0;
    mk_op EC_GF_OP_XOR2 7 5 0;
    mk_op EC_GF_OP_XOR2 1 3 0;
    mk_op EC_GF_OP_END 0 0 0];
  mk_mul 9 [6; 7; 0; 2; 1; 4; 5; 3; 8] [
    mk_op EC_GF_OP_COPY 8 0 0;
    mk_op EC_GF_OP_XOR2 0 1 0;
    mk_op EC_GF_OP_XOR2 2 5 0;
    mk_op EC_GF_OP_XOR2 0 4 0;
    mk_op EC_GF_OP_XOR2 2 0 0;
    mk_op EC_GF_OP_XOR2 3 0 0;
    mk_op EC_GF_OP_XOR3 0 8 2;
    mk_op EC_GF_OP_XOR2 6 3 0;
    mk_op EC_GF_OP_XOR2 1 2 0;
    mk_op EC_GF_OP_XOR2 7 0 0;
    mk_op EC_GF_OP_XOR2 5 6 0;
    mk_op EC_GF_OP_XOR2 3 7 0;
    mk_op EC_GF_OP_XOR2 4 5 0;
    mk_op EC_GF_OP_XOR2 5 3 0;
    mk_op EC_GF_OP_END 0 0 0];
  mk_mul 8 [1; 2; 4; 3; 5; 6; 0; 7] [
    mk_op EC_GF_OP_XOR2 2 0 0;
    mk_op EC_GF_OP_XOR2 5 7 0;
    mk_op EC_GF_OP_XOR2 4 5 0;
    mk_op EC_GF_OP_XOR2 3 2 0;
    mk_op EC_GF_OP_XOR2 2 4 0;
    mk_op EC_GF_OP_XOR2 5 3 0;
    mk_op EC_GF_OP_XOR2 1 2 0;
    mk_op EC_GF_OP_XOR2 6 5 0;
    mk_op EC_GF_OP_XOR2 0 1 0;
    mk_op EC_GF_OP_XOR2 7 6 0;
    mk_op EC_GF_OP_XOR2 3 0 0;
    mk_op EC_GF_OP_XOR2 6 0 0;
    mk_op EC_GF_OP_XOR2 1 7 0;
    mk_op EC_GF_OP_END 0 0 0];
  mk_mul 9 [7; 2; 1; 8; 3; 5; 6; 4; 0] [
    mk_op EC_GF_OP_XOR2 3 6 0;
    mk_op EC_GF_OP_COPY 8 3 0;
    mk_op EC_GF_OP_XOR2 1 0 0;
    mk_op EC_GF_OP_XOR2 3 1 0;
    mk_op EC_GF_OP_XOR2 4 3 0;
    mk_op EC_GF_OP_XOR2 8 5 0;
    mk_op EC_GF_OP_XOR2 7 4 0;
    mk_op EC_GF_OP_XOR2 5 4 0;
    mk_op EC_GF_OP_XOR2 8 7 0;
    mk_op EC_GF_OP_XOR2 2 8 0;
    mk_op EC_GF_OP_XOR2 0 2 0;
    mk_op EC_GF_OP_XOR2 1 2 0;
    mk_op EC_GF_OP_XOR2 6 0 0;
    mk_op EC_GF_OP_XOR2 4 0 0;
    mk_op EC_GF_OP_XOR2 3 6 0;
    mk_op EC_GF_OP_END 0 0 0]].

(** ec_gf8_mul_BC to ec_gf8_mul_BF. *)
Definition ec_gf8_mul_BC_BF : list ec_gf_mul_t := [
  mk_mul 9 [2; 6; 3; 4; 5; 1; 7; 0; 8] [
    mk_op EC_GF_OP_COPY 8 1 0;
    mk_op EC_GF_OP_XOR2 8 2 0;
    mk_op EC_GF_OP_XOR2 6 0 0;
    mk_op EC_GF_OP_XOR2 2 3 0;
    mk_op EC_GF_OP_XOR2 6 7 0;
    mk_op EC_GF_OP_XOR2 0 2 0;
    mk_op EC_GF_OP_XOR2 4 2 0;
    mk_op EC_GF_OP_XOR2 1 6 0;
    mk_op EC_GF_OP_XOR2 7 8 0;
    mk_op EC_GF_OP_XOR3 2 8 4;
    mk_op EC_GF_OP_XOR2 5 6 0;
    mk_op EC_GF_OP_XOR2 4 5 0;
    mk_op EC_GF_OP_XOR2 3 4 0;
    mk_op EC_GF_OP_XOR2 6 3 0;
    mk_op EC_GF_OP_XOR2 3 7 0;
    mk_op EC_GF_OP_END 0 0 0];
  mk_mul 8 [4; 5; 0; 2; 7; 1; 6; 3] [
    mk_op EC_GF_OP_XOR2 3 0 0;
    mk_op EC_GF_OP_XOR2 3 1 0;
    mk_op EC_GF_OP_XOR2 1 2 0;
    mk_op EC_GF_OP_XOR2 7 1 0;
    mk_op EC_GF_OP_XOR2 1 4 0;
    mk_op EC_GF_OP_XOR2 4 3 0;
    mk_op EC_GF_OP_XOR2 5 1 0;
    mk_op EC_GF_OP_XOR2 3 7 0;
    mk_op EC_GF_OP_XOR2 0 6 0;
    mk_op EC_GF_OP_XOR2 0 5 0;
    mk_op EC_GF_OP_XOR2 6 7 0;
    mk_op EC_GF_OP_XOR2 7 0 0;
    mk_op EC_GF_OP_XOR2 2 7 0;
    mk_op EC_GF_OP_XOR2 1 2 0;
    mk_op EC_GF_OP_END 0 0 0];
  mk_mul 8 [0; 6; 7; 4; 5; 1; 3; 2] [
    mk_op EC_GF_OP_XOR2 0 3 0;
    mk_op EC_GF_OP_XOR2 0 6 0;
    mk_op EC_GF_OP_XOR2 1 5 0;
    mk_op EC_GF_OP_XOR2 5 0 0;
    mk_op EC_GF_OP_XOR2 4 5 0;
    mk_op EC_GF_OP_XOR2 3 4 0;
    mk_op EC_GF_OP_XOR2 7 3 0;
    mk_op EC_GF_OP_XOR2 3 2 0;
    mk_op EC_GF_OP_XOR2 1 7 0;
    mk_op EC_GF_OP_XOR2 2 0 0;
    mk_op EC_GF_OP_XOR2 6 3 0;
    mk_op EC_GF_OP_XOR2 0 1 0;
    mk_op EC_GF_OP_XOR2 3 1 0;
    mk_op EC_GF_OP_END 0 0 0];
  mk_mul 8 [5; 6; 1; 7; 3; 0; 2; 4] [
    mk_op EC_GF_OP_XOR2 7 1 0;
    mk_op EC_GF_OP_XOR2 6 7 0;
    mk_op EC_GF_OP_XOR2 5 6 0;
    mk_op EC_GF_OP_XOR2 4 5 0;
    mk_op EC_GF_OP_XOR2 0 4 0;
    mk_op EC_GF_OP_XOR2 1 2 0;
    mk_op EC_GF_OP_XOR2 7 0 0;
    mk_op EC_GF_OP_XOR2 2 5 0;
    mk_op EC_GF_OP_XOR2 1 0 0;
    mk_op EC_GF_OP_XOR2 6 1 0;
    mk_op EC_GF_OP_XOR2 4 6 0;
    mk_op EC_GF_OP_XOR2 4 3 0;
    mk_op EC_GF_OP_XOR2 3 7 0;
    mk_op EC_GF_OP_XOR2 5 3 0;
    mk_op EC_GF_OP_END 0 0 0]].

(** ec_gf8_mul_C0 to ec_gf8_mul_C3. *)
Definition ec_gf8_mul_C0_C3 : list ec_gf_mul_t := [
  mk_mul 8 [1; 2; 3; 4; 7; 5; 6; 0] [
    mk_op EC_GF_OP_XOR2 4 1 0;
    mk_op EC_GF_OP_XOR2 6 3 0;
    mk_op EC_GF_OP_XOR2 7 4 0;
    mk_op EC_GF_OP_XOR2 4 6 0;
    mk_op EC_GF_OP_XOR2 5 2 0;
    mk_op EC_GF_OP_XOR2 2 6 0;
    mk_op EC_GF_OP_XOR2 3 5 0;
    mk_op EC_GF_OP_XOR2 6 0 0;
    mk_op EC_GF_OP_XOR2 1 5 0;
    mk_op EC_GF_OP_XOR2 3 7 0;
    mk_op EC_GF_OP_XOR2 0 7 0;
    mk_op EC_GF_OP_END 0 0 0];
  mk_mul 9 [5; 6; 7; 4; 1; 2; 3; 0; 8] [
    mk_op EC_GF_OP_XOR3 8 1 2;
    mk_op EC_GF_OP_XOR2 8 3 0;
    mk_op EC_GF_OP_XOR2 4 1 0;
    mk_op EC_GF_OP_XOR2 3 0 0;
    mk_op EC_GF_OP_XOR2 0 4 0;
    mk_op EC_GF_OP_XOR2 1 7 0;
    mk_op EC_GF_OP_XOR2 5 3 0;
    mk_op EC_GF_OP_XOR2 7 0 0;
    mk_op EC_GF_OP_XOR2 4 6 0;
    mk_op EC_GF_OP_XOR2 7 5 0;
    mk_op EC_GF_OP_XOR2 6 8 0;
    mk_op EC_GF_OP_XOR2 5 8 0;
    mk_op EC_GF_OP_END 0 0 0];
  mk_mul 8 [7; 6; 3; 0; 1; 4; 5; 2] [
    mk_op EC_GF_OP_XOR2 0 2 0;
    mk_op EC_GF_OP_XOR2 1 3 0;
    mk_op EC_GF_OP_XOR2 0 3 0;
    mk_op EC_GF_OP_XOR2 1 4 0;
    mk_op EC_GF_OP_XOR2 6 0 0;
    mk_op EC_GF_OP_XOR2 4 2 0;
    mk_op EC_GF_OP_XOR2 2 6 0;
    mk_op EC_GF_OP_XOR2 4 5 0;
    mk_op EC_GF_OP_XOR2 5 2 0;
    mk_op EC_GF_OP_XOR2 7 1 0;
    mk_op EC_GF_OP_XOR2 3 4 0;
    mk_op EC_GF_OP_XOR2 2 7 0;
    mk_op EC_GF_OP_XOR2 7 3 0;
    mk_op EC_GF_OP_XOR2 0 2 0;
    mk_op EC_GF_OP_END 0 0 0];
  mk_mul 10 [5; 6; 4; 7; 1; 2; 3; 0; 8; 9] [
    mk_op EC_GF_OP_COPY 8 0 0;
    mk_op EC_GF_OP_XOR2 0 1 0;
    mk_op EC_GF_OP_XOR2 0 2 0;
    mk_op EC_GF_OP_XOR2 6 0 0;
    mk_op EC_GF_OP_XOR2 2 4 0;
    mk_op EC_GF_OP_XOR2 7 0 0;
    mk_op EC_GF_OP_XOR3 0 2 6;
    mk_op EC_GF_OP_XOR2 6 3 0;
    mk_op EC_GF_OP_XOR3 9 1 0;
    mk_op EC_GF_OP_XOR2 1 3 0;
    mk_op EC_GF_OP_XOR2 3 5 0;
    mk_op EC_GF_OP_XOR2 5 7 0;
    mk_op EC_GF_OP_XOR2 4 3 0;
    mk_op EC_GF_OP_XOR2 7 9 0;
    mk_op EC_GF_OP_XOR2 3 8 0;
    mk_op EC_GF_OP_END 0 0 0]].

(** ec_gf8_mul_C4 to ec_gf8_mul_C7. *)
Definition ec_gf8_mul_C4_C7 : list ec_gf_mul_t := [
  mk_mul 8 [0; 2; 1; 3; 4; 5; 6; 7] [
    mk_op EC_GF_OP_XOR2 3 7 0;
    mk_op EC_GF_OP_XOR2 2 3 0;
    mk_op EC_GF_OP_XOR2 3 4 0;
    mk_op EC_GF_OP_XOR2 4 5 0;
    mk_op EC_GF_OP_XOR2 5 2 0;
    mk_op EC_GF_OP_XOR2 1 0 0;
    mk_op EC_GF_OP_XOR2 2 6 0;
    mk_op EC_GF_OP_XOR2 1 4 0;
    mk_op EC_GF_OP_XOR2 6 7 0;
    mk_op EC_GF_OP_XOR2 0 3 0;
    mk_op EC_GF_OP_XOR2 7 1 0;
    mk_op EC_GF_OP_XOR2 1 2 0;
    mk_op EC_GF_OP_XOR2 6 0 0;
    mk_op EC_GF_OP_XOR2 0 1 0;
    mk_op EC_GF_OP_XOR2 4 0 0;
    mk_op EC_GF_OP_END 0 0 0];
  mk_mul 8 [4; 3; 5; 7; 6; 2; 0; 1] [
    mk_op EC_GF_OP_XOR2 0 4 0;
    mk_op EC_GF_OP_XOR2 5 0 0;
    mk_op EC_GF_OP_XOR2 6 1 0;
    mk_op EC_GF_OP_XOR2 0 3 0;
    mk_op EC_GF_OP_XOR2 1 5 0;
    mk_op EC_GF_OP_XOR2 6 2 0;
    mk_op EC_GF_OP_XOR2 3 7 0;
    mk_op EC_GF_OP_XOR2 5 6 0;
    mk_op EC_GF_OP_XOR2 7 4 0;
    mk_op EC_GF_OP_XOR2 2 3 0;
    mk_op EC_GF_OP_XOR2 4 5 0;
    mk_op EC_GF_OP_XOR2 3 6 0;
    mk_op EC_GF_OP_XOR2 5 2 0;
    mk_op EC_GF_OP_END 0 0 0];
  mk_mul 10 [6; 3; 0; 4; 5; 7; 2; 1; 8; 9] [
    mk_op EC_GF_OP_XOR2 4 3 0;
    mk_op EC_GF_OP_COPY 8 4 0;
    mk_op EC_GF_OP_XOR2 4 2 0;
    mk_op EC_GF_OP_XOR3 9 5 4;
    mk_op EC_GF_OP_XOR2 6 9 0;
    mk_op EC_GF_OP_XOR2 0 6 0;
    mk_op EC_GF_OP_XOR2 1 7 0;
    mk_op EC_GF_OP_XOR2 2 0 0;
    mk_op EC_GF_OP_XOR2 7 9 0;
    mk_op EC_GF_OP_XOR2 6 1 0;
    mk_op EC_GF_OP_XOR2 3 2 0;
    mk_op EC_GF_OP_XOR2 5 6 0;
    mk_op EC_GF_OP_XOR2 1 3 0;
    mk_op EC_GF_OP_XOR2 6 8 0;
    mk_op EC_GF_OP_XOR2 3 7 0;
    mk_op EC_GF_OP_END 0 0 0];
  mk_mul 8 [7; 0; 6; 2; 5; 3; 4; 1] [
    mk_op EC_GF_OP_XOR2 5 0 0;
    mk_op EC_GF_OP_XOR2 5 3 0;
    mk_op EC_GF_OP_XOR2 2 4 0;
    mk_op EC_GF_OP_XOR2 4 5 0;
    mk_op EC_GF_OP_XOR2 1 3 0;
    mk_op EC_GF_OP_XOR2 6 4 0;
    mk_op EC_GF_OP_XOR2 7 2 0;
    mk_op EC_GF_OP_XOR2 1 6 0;
    mk_op EC_GF_OP_XOR2 3 7 0;
    mk_op EC_GF_OP_XOR2 7 1 0;
    mk_op EC_GF_OP_XOR2 5 7 0;
    mk_op EC_GF_OP_XOR2 0 5 0;
    mk_op EC_GF_OP_END 0 0 0]].

(** ec_gf8_mul_C8 to ec_gf8_mul_CB. *)
Definition ec_gf8_mul_C8_CB : list ec_gf_mul_t := [
  mk_mul 8 [1; 3; 2; 4; 6; 7; 5; 0] [
    mk_op EC_GF_OP_XOR2 6 5 0;
    mk_op EC_GF_OP_XOR2 5 0 0;
    mk_op EC_GF_OP_XOR2 0 1 0;
    mk_op EC_GF_OP_XOR2 0 7 0;
    mk_op EC_GF_OP_XOR2 7 6 0;
    mk_op EC_GF_OP_XOR2 6 4 0;
    mk_op EC_GF_OP_XOR2 4 3 0;
    mk_op EC_GF_OP_XOR2 4 1 0;
    mk_op EC_GF_OP_XOR2 3 2 0;
    mk_op EC_GF_OP_XOR2 1 2 0;
    mk_op EC_GF_OP_XOR2 2 4 0;
    mk_op EC_GF_OP_XOR2 4 5 0;
    mk_op EC_GF_OP_XOR2 5 7 0;
    mk_op EC_GF_OP_END 0 0 0];
  mk_mul 8 [2; 3; 4; 5; 6; 7; 0; 1] [
    mk_op EC_GF_OP_XOR2 1 0 0;
    mk_op EC_GF_OP_XOR2 3 0 0;
    mk_op EC_GF_OP_XOR2 0 7 0;
    mk_op EC_GF_OP_XOR2 7 6 0;
    mk_op EC_GF_OP_XOR2 4 1 0;
    mk_op EC_GF_OP_XOR2 6 5 0;
    mk_op EC_GF_OP_XOR2 5 4 0;
    mk_op EC_GF_OP_XOR2 2 1 0;
    mk_op EC_GF_OP_XOR2 4 3 0;
    mk_op EC_GF_OP_XOR2 3 2 0;
    mk_op EC_GF_OP_END 0 0 0];
  mk_mul 8 [1; 2; 5; 7; 3; 4; 0; 6] [
    mk_op EC_GF_OP_XOR2 6 7 0;
    mk_op EC_GF_OP_XOR2 7 2 0;
    mk_op EC_GF_OP_XOR2 5 6 0;
    mk_op EC_GF_OP_XOR2 2 0 0;
    mk_op EC_GF_OP_XOR2 4 5 0;
    mk_op EC_GF_OP_XOR2 2 3 0;
    mk_op EC_GF_OP_XOR2 6 1 0;
    mk_op EC_GF_OP_XOR2 3 4 0;
    mk_op EC_GF_OP_XOR2 1 7 0;
    mk_op EC_GF_OP_XOR2 6 0 0;
    mk_op EC_GF_OP_XOR2 7 3 0;
    mk_op EC_GF_OP_XOR2 0 5 0;
    mk_op EC_GF_OP_XOR2 5 7 0;
    mk_op EC_GF_OP_XOR2 7 6 0;
    mk_op EC_GF_OP_END 0 0 0];
  mk_mul 8 [2; 3; 4; 5; 7; 6; 0; 1] [
    mk_op EC_GF_OP_XOR2 1 0 0;
    mk_op EC_GF_OP_XOR2 2 1 0;
    mk_op EC_GF_OP_XOR2 1 6 0;
    mk_op EC_GF_OP_XOR2 6 3 0;
    mk_op EC_GF_OP_XOR2 3 2 0;
    mk_op EC_GF_OP_XOR2 2 7 0;
    mk_op EC_GF_OP_XOR2 4 2 0;
    mk_op EC_GF_OP_XOR2 7 5 0;
    mk_op EC_GF_OP_XOR2 5 4 0;
    mk_op EC_GF_OP_XOR2 0 7 0;
    mk_op EC_GF_OP_XOR2 4 3 0;
    mk_op EC_GF_OP_XOR2 7 6 0;
    mk_op EC_GF_OP_XOR2 6 4 0;
    mk_op EC_GF_OP_END 0 0 0]].

(** ec_gf8_mul_CC to ec_gf8_mul_CF. *)
Definition ec_gf8_mul_CC_CF : list ec_gf_mul_t := [
  mk_mul 8 [2; 7; 1; 0; 5; 6; 3; 4] [
    mk_op EC_GF_OP_XOR2 7 2 0;
    mk_op EC_GF_OP_XOR2 4 7 0;
    mk_op EC_GF_OP_XOR2 0 2 0;
    mk_op EC_GF_OP_XOR2 7 3 0;
    mk_op EC_GF_OP_XOR2 2 1 0;
    mk_op EC_GF_OP_XOR2 3 5 0;
    mk_op EC_GF_OP_XOR2 1 7 0;
    mk_op EC_GF_OP_XOR2 2 6 0;
    mk_op EC_GF_OP_XOR2 5 4 0;
    mk_op EC_GF_OP_XOR2 6 3 0;
    mk_op EC_GF_OP_XOR2 4 6 0;
    mk_op EC_GF_OP_XOR2 0 4 0;
    mk_op EC_GF_OP_XOR2 3 0 0;
    mk_op EC_GF_OP_XOR2 1 3 0;
    mk_op EC_GF_OP_XOR2 4 1 0;
    mk_op EC_GF_OP_END 0 0 0];
  mk_mul 8 [0; 6; 1; 2; 7; 3; 4; 5] [
    mk_op EC_GF_OP_XOR2 4 0 0;
    mk_op EC_GF_OP_XOR2 3 6 0;
    mk_op EC_GF_OP_XOR2 0 1 0;
    mk_op EC_GF_OP_XOR2 6 2 0;
    mk_op EC_GF_OP_XOR2 1 3 0;
    mk_op EC_GF_OP_XOR2 2 5 0;
    mk_op EC_GF_OP_XOR2 1 4 0;
    mk_op EC_GF_OP_XOR2 5 0 0;
    mk_op EC_GF_OP_XOR2 4 7 0;
    mk_op EC_GF_OP_XOR2 0 6 0;
    mk_op EC_GF_OP_XOR2 7 2 0;
    mk_op EC_GF_OP_XOR2 6 4 0;
    mk_op EC_GF_OP_XOR2 2 6 0;
    mk_op EC_GF_OP_XOR2 6 1 0;
    mk_op EC_GF_OP_END 0 0 0];
  mk_mul 9 [5; 7; 3; 0; 2; 6; 4; 1; 8] [
    mk_op EC_GF_OP_XOR2 0 2 0;
    mk_op EC_GF_OP_XOR2 3 5 0;
    mk_op EC_GF_OP_XOR2 5 0 0;
    mk_op EC_GF_OP_XOR2 7 5 0;
    mk_op EC_GF_OP_COPY 8 7 0;
    mk_op EC_GF_OP_XOR2 7 3 0;
    mk_op EC_GF_OP_XOR2 3 4 0;
    mk_op EC_GF_OP_XOR2 6 3 0;
    mk_op EC_GF_OP_XOR2 2 3 0;
    mk_op EC_GF_OP_XOR3 3 6 8;
    mk_op EC_GF_OP_XOR2 0 6 0;
    mk_op EC_GF_OP_XOR3 8 2 3;
    mk_op EC_GF_OP_XOR2 1 8 0;
    mk_op EC_GF_OP_XOR2 4 8 0;
    mk_op EC_GF_OP_XOR2 5 1 0;
    mk_op EC_GF_OP_END 0 0 0];
  mk_mul 8 [3; 6; 7; 0; 2; 4; 5; 1] [
    mk_op EC_GF_OP_XOR2 1 2 0;
    mk_op EC_GF_OP_XOR2 5 3 0;
    mk_op EC_GF_OP_XOR2 3 6 0;
    mk_op EC_GF_OP_XOR2 2 5 0;
    mk_op EC_GF_OP_XOR2 1 4 0;
    mk_op EC_GF_OP_XOR2 4 3 0;
    mk_op EC_GF_OP_XOR2 0 4 0;
    mk_op EC_GF_OP_XOR2 7 0 0;
    mk_op EC_GF_OP_XOR2 0 2 0;
    mk_op EC_GF_OP_XOR2 6 7 0;
    mk_op EC_GF_OP_XOR2 5 6 0;
    mk_op EC_GF_OP_XOR2 6 1 0;
    mk_op EC_GF_OP_XOR2 1 0 0;
    mk_op EC_GF_OP_XOR2 3 6 0;
    mk_op EC_GF_OP_END 0 0 0]].

(** ec_gf8_mul_D0 to ec_gf8_mul_D3. *)
Definition ec_gf8_mul_D0_D3 : list ec_gf_mul_t := [
  mk_mul 8 [5; 6; 7; 2; 0; 3; 1; 4] [
    mk_op EC_GF_OP_XOR2 5 2 0;
    mk_op EC_GF_OP_XOR2 0 3 0;
    mk_op EC_GF_OP_XOR2 3 5 0;
    mk_op EC_GF_OP_XOR2 6 3 0;
    mk_op EC_GF_OP_XOR2 4 1 0;
    mk_op EC_GF_OP_XOR2 1 6 0;
    mk_op EC_GF_OP_XOR2 5 4 0;
    mk_op EC_GF_OP_XOR2 7 1 0;
    mk_op EC_GF_OP_XOR2 4 0 0;
    mk_op EC_GF_OP_XOR2 2 7 0;
    mk_op EC_GF_OP_XOR2 0 2 0;
    mk_op EC_GF_OP_XOR2 3 2 0;
    mk_op EC_GF_OP_XOR2 1 0 0;
    mk_op EC_GF_OP_END 0 0 0];
  mk_mul 9 [5; 6; 3; 2; 0; 7; 4; 1; 8] [
    mk_op EC_GF_OP_XOR2 1 2 0;
    mk_op EC_GF_OP_XOR2 0 4 0;
    mk_op EC_GF_OP_XOR2 5 1 0;
    mk_op EC_GF_OP_XOR2 4 6 0;
    mk_op EC_GF_OP_XOR2 6 5 0;
    mk_op EC_GF_OP_XOR2 5 0 0;
    mk_op EC_GF_OP_XOR2 7 6 0;
    mk_op EC_GF_OP_XOR2 6 3 0;
    mk_op EC_GF_OP_XOR2 2 7 0;
    mk_op EC_GF_OP_XOR2 0 2 0;
    mk_op EC_GF_OP_XOR2 3 2 0;
    mk_op EC_GF_OP_XOR3 8 6 0;
    mk_op EC_GF_OP_XOR2 4 8 0;
    mk_op EC_GF_OP_XOR2 1 8 0;
    mk_op EC_GF_OP_END 0 0 0];
  mk_mul 8 [7; 0; 2; 1; 3; 4; 6; 5] [
    mk_op EC_GF_OP_XOR2 3 5 0;
    mk_op EC_GF_OP_XOR2 3 6 0;
    mk_op EC_GF_OP_XOR2 2 3 0;
    mk_op EC_GF_OP_XOR2 3 0 0;
    mk_op EC_GF_OP_XOR2 0 2 0;
    mk_op EC_GF_OP_XOR2 3 1 0;
    mk_op EC_GF_OP_XOR2 7 0 0;
    mk_op EC_GF_OP_XOR2 4 3 0;
    mk_op EC_GF_OP_XOR2 1 2 0;
    mk_op EC_GF_OP_XOR2 6 7 0;
    mk_op EC_GF_OP_XOR2 5 4 0;
    mk_op EC_GF_OP_XOR2 4 6 0;
    mk_op EC_GF_OP_XOR2 7 5 0;
    mk_op EC_GF_OP_END 0 0 0];
  mk_mul 9 [0; 3; 2; 8; 4; 6; 7; 1; 5] [
    mk_op EC_GF_OP_XOR2 4 7 0;
    mk_op EC_GF_OP_COPY 8 4 0;
    mk_op EC_GF_OP_XOR2 2 1 0;
    mk_op EC_GF_OP_XOR2 4 2 0;
    mk_op EC_GF_OP_XOR2 5 4 0;
    mk_op EC_GF_OP_XOR2 6 5 0;
    mk_op EC_GF_OP_XOR2 8 6 0;
    mk_op EC_GF_OP_XOR2 3 8 0;
    mk_op EC_GF_OP_XOR2 2 3 0;
    mk_op EC_GF_OP_XOR2 3 0 0;
    mk_op EC_GF_OP_XOR2 1 3 0;
    mk_op EC_GF_OP_XOR2 0 5 0;
    mk_op EC_GF_OP_XOR2 7 1 0;
    mk_op EC_GF_OP_XOR2 1 5 0;
    mk_op EC_GF_OP_XOR2 4 7 0;
    mk_op EC_GF_OP_END 0 0 0]].

(** ec_gf8_mul_D4 to ec_gf8_mul_D7. *)
Definition ec_gf8_mul_D4_D7 : list ec_gf_mul_t := [
  mk_mul 9 [4; 1; 7; 5; 0; 6; 3; 2; 8] [
    mk_op EC_GF_OP_XOR2 1 5 0;
    mk_op EC_GF_OP_COPY 8 1 0;
    mk_op EC_GF_OP_XOR2 1 2 0;
    mk_op EC_GF_OP_XOR2 0 1 0;
    mk_op EC_GF_OP_XOR2 5 3 0;
    mk_op EC_GF_OP_XOR2 6 1 0;
    mk_op EC_GF_OP_XOR2 3 0 0;
    mk_op EC_GF_OP_XOR3 1 7 8;
    mk_op EC_GF_OP_XOR2 7 3 0;
    mk_op EC_GF_OP_XOR2 3 4 0;
    mk_op EC_GF_OP_XOR2 4 6 0;
    mk_op EC_GF_OP_XOR2 2 3 0;
    mk_op EC_GF_OP_XOR2 6 5 0;
    mk_op EC_GF_OP_XOR2 3 1 0;
    mk_op EC_GF_OP_XOR2 1 6 0;
    mk_op EC_GF_OP_END 0 0 0];
  mk_mul 8 [6; 7; 4; 5; 2; 3; 1; 0] [
    mk_op EC_GF_OP_XOR2 0 4 0;
    mk_op EC_GF_OP_XOR2 1 5 0;
    mk_op EC_GF_OP_XOR2 1 0 0;
    mk_op EC_GF_OP_XOR2 2 1 0;
    mk_op EC_GF_OP_XOR2 6 2 0;
    mk_op EC_GF_OP_XOR2 0 6 0;
    mk_op EC_GF_OP_XOR2 3 0 0;
    mk_op EC_GF_OP_XOR2 7 3 0;
    mk_op EC_GF_OP_XOR2 1 7 0;
    mk_op EC_GF_OP_XOR2 0 1 0;
    mk_op EC_GF_OP_XOR2 4 0 0;
    mk_op EC_GF_OP_END 0 0 0];
  mk_mul 9 [0; 6; 2; 7; 1; 3; 4; 5; 8] [
    mk_op EC_GF_OP_COPY 8 0 0;
    mk_op EC_GF_OP_XOR2 0 2 0;
    mk_op EC_GF_OP_XOR2 2 1 0;
    mk_op EC_GF_OP_XOR2 2 4 0;
    mk_op EC_GF_OP_XOR2 2 6 0;
    mk_op EC_GF_OP_XOR2 3 2 0;
    mk_op EC_GF_OP_XOR2 0 3 0;
    mk_op EC_GF_OP_XOR2 5 0 0;
    mk_op EC_GF_OP_XOR2 2 5 0;
    mk_op EC_GF_OP_XOR2 7 2 0;
    mk_op EC_GF_OP_XOR2 1 7 0;
    mk_op EC_GF_OP_XOR2 4 7 0;
    mk_op EC_GF_OP_XOR2 6 7 0;
    mk_op EC_GF_OP_XOR2 0 7 0;
    mk_op EC_GF_OP_XOR2 7 8 0;
    mk_op EC_GF_OP_END 0 0 0];
  mk_mul 9 [3; 4; 6; 5; 0; 7; 1; 2; 8] [
    mk_op EC_GF_OP_XOR2 7 2 0;
    mk_op EC_GF_OP_XOR2 5 7 0;
    mk_op EC_GF_OP_XOR2 7 0 0;
    mk_op EC_GF_OP_XOR2 0 1 0;
    mk_op EC_GF_OP_XOR3 8 3 5;
    mk_op EC_GF_OP_XOR2 0 4 0;
    mk_op EC_GF_OP_XOR2 0 8 0;
    mk_op EC_GF_OP_XOR2 6 0 0;
    mk_op EC_GF_OP_XOR2 2 6 0;
    mk_op EC_GF_OP_XOR2 1 6 0;
    mk_op EC_GF_OP_XOR2 4 6 0;
    mk_op EC_GF_OP_XOR2 3 6 0;
    mk_op EC_GF_OP_XOR3 6 7 8;
    mk_op EC_GF_OP_XOR2 7 2 0;
    mk_op EC_GF_OP_END 0 0 0]].

(** ec_gf8_mul_D8 to ec_gf8_mul_DB. *)
Definition ec_gf8_mul_D8_DB : list ec_gf_mul_t := [
  mk_mul 8 [4; 5; 6; 7; 0; 1; 2; 3] [
    mk_op EC_GF_OP_XOR2 3 2 0;
    mk_op EC_GF_OP_XOR2 4 1 0;
    mk_op EC_GF_OP_XOR2 5 3 0;
    mk_op EC_GF_OP_XOR2 4 2 0;
    mk_op EC_GF_OP_XOR2 3 1 0;
    mk_op EC_GF_OP_XOR2 2 0 0;
    mk_op EC_GF_OP_XOR2 6 3 0;
    mk_op EC_GF_OP_XOR2 3 2 0;
    mk_op EC_GF_OP_XOR2 7 3 0;
    mk_op EC_GF_OP_END 0 0 0];
  mk_mul 8 [1; 2; 6; 7; 4; 5; 0; 3] [
    mk_op EC_GF_OP_XOR2 4 0 0;
    mk_op EC_GF_OP_XOR2 0 1 0;
    mk_op EC_GF_OP_XOR2 5 1 0;
    mk_op EC_GF_OP_XOR2 1 2 0;
    mk_op EC_GF_OP_XOR2 6 1 0;
    mk_op EC_GF_OP_XOR2 7 0 0;
    mk_op EC_GF_OP_XOR2 1 4 0;
    mk_op EC_GF_OP_XOR2 2 3 0;
    mk_op EC_GF_OP_XOR2 0 6 0;
    mk_op EC_GF_OP_XOR2 3 7 0;
    mk_op EC_GF_OP_XOR2 6 2 0;
    mk_op EC_GF_OP_XOR2 2 5 0;
    mk_op EC_GF_OP_END 0 0 0];
  mk_mul 9 [2; 5; 7; 1; 0; 4; 3; 6; 8] [
    mk_op EC_GF_OP_XOR2 6 2 0;
    mk_op EC_GF_OP_XOR2 2 7 0;
    mk_op EC_GF_OP_XOR2 7 3 0;
    mk_op EC_GF_OP_XOR2 0 7 0;
    mk_op EC_GF_OP_XOR3 8 2 0;
    mk_op EC_GF_OP_XOR2 7 6 0;
    mk_op EC_GF_OP_XOR2 4 1 0;
    mk_op EC_GF_OP_XOR2 1 8 0;
    mk_op EC_GF_OP_XOR2 5 8 0;
    mk_op EC_GF_OP_XOR2 2 4 0;
    mk_op EC_GF_OP_XOR2 6 1 0;
    mk_op EC_GF_OP_XOR2 3 5 0;
    mk_op EC_GF_OP_END 0 0 0];
  mk_mul 9 [7; 5; 6; 2; 3; 4; 1; 0; 8] [
    mk_op EC_GF_OP_COPY 8 0 0;
    mk_op EC_GF_OP_XOR2 0 1 0;
    mk_op EC_GF_OP_XOR2 2 0 0;
    mk_op EC_GF_OP_XOR2 5 2 0;
    mk_op EC_GF_OP_XOR2 1 5 0;
    mk_op EC_GF_OP_XOR2 8 4 0;
    mk_op EC_GF_OP_XOR2 5 3 0;
    mk_op EC_GF_OP_XOR2 4 2 0;
    mk_op EC_GF_OP_XOR2 3 7 0;
    mk_op EC_GF_OP_XOR2 7 4 0;
    mk_op EC_GF_OP_XOR2 4 1 0;
    mk_op EC_GF_OP_XOR2 1 6 0;
    mk_op EC_GF_OP_XOR2 6 3 0;
    mk_op EC_GF_OP_XOR2 3 8 0;
    mk_op EC_GF_OP_XOR2 0 6 0;
    mk_op EC_GF_OP_END 0 0 0]].

(** ec_gf8_mul_DC to ec_gf8_mul_DF. *)
Definition ec_gf8_mul_DC_DF : list ec_gf_mul_t := [
  mk_mul 8 [4; 5; 2; 6; 7; 1; 0; 3] [
    mk_op EC_GF_OP_XOR2 7 3 0;
    mk_op EC_GF_OP_XOR2 3 0 0;
    mk_op EC_GF_OP_XOR2 4 2 0;
    mk_op EC_GF_OP_XOR2 0 4 0;
    mk_op EC_GF_OP_XOR2 3 1 0;
    mk_op EC_GF_OP_XOR2 6 1 0;
    mk_op EC_GF_OP_XOR2 1 7 0;
    mk_op EC_GF_OP_XOR2 4 6 0;
    mk_op EC_GF_OP_XOR2 7 2 0;
    mk_op EC_GF_OP_XOR2 6 3 0;
    mk_op EC_GF_OP_XOR2 2 3 0;
    mk_op EC_GF_OP_XOR2 3 5 0;
    mk_op EC_GF_OP_XOR2 5 7 0;
    mk_op EC_GF_OP_XOR2 7 6 0;
    mk_op EC_GF_OP_END 0 0 0];
  mk_mul 8 [1; 2; 3; 6; 7; 0; 4; 5] [
    mk_op EC_GF_OP_XOR2 3 1 0;
    mk_op EC_GF_OP_XOR2 3 0 0;
    mk_op EC_GF_OP_XOR2 5 7 0;
    mk_op EC_GF_OP_XOR2 5 3 0;
    mk_op EC_GF_OP_XOR2 4 2 0;
    mk_op EC_GF_OP_XOR2 6 0 0;
    mk_op EC_GF_OP_XOR2 0 5 0;
    mk_op EC_GF_OP_XOR2 4 6 0;
    mk_op EC_GF_OP_XOR2 2 0 0;
    mk_op EC_GF_OP_XOR2 1 4 0;
    mk_op EC_GF_OP_XOR2 7 4 0;
    mk_op EC_GF_OP_END 0 0 0];
  mk_mul 8 [0; 5; 2; 6; 7; 1; 3; 4] [
    mk_op EC_GF_OP_XOR2 2 0 0;
    mk_op EC_GF_OP_XOR2 3 7 0;
    mk_op EC_GF_OP_XOR2 2 3 0;
    mk_op EC_GF_OP_XOR2 6 2 0;
    mk_op EC_GF_OP_XOR2 1 4 0;
    mk_op EC_GF_OP_XOR2 7 6 0;
    mk_op EC_GF_OP_XOR2 5 2 0;
    mk_op EC_GF_OP_XOR2 1 3 0;
    mk_op EC_GF_OP_XOR2 0 7 0;
    mk_op EC_GF_OP_XOR2 4 5 0;
    mk_op EC_GF_OP_XOR2 0 1 0;
    mk_op EC_GF_OP_XOR2 3 4 0;
    mk_op EC_GF_OP_XOR2 4 0 0;
    mk_op EC_GF_OP_END 0 0 0];
  mk_mul 10 [7; 2; 8; 4; 3; 1; 0; 6; 5; 9] [
    mk_op EC_GF_OP_COPY 8 0 0;
    mk_op EC_GF_OP_XOR2 0 2 0;
    mk_op EC_GF_OP_XOR2 0 4 0;
    mk_op EC_GF_OP_XOR2 8 3 0;
    mk_op EC_GF_OP_COPY 9 0 0;
    mk_op EC_GF_OP_XOR2 0 6 0;
    mk_op EC_GF_OP_XOR2 8 7 0;
    mk_op EC_GF_OP_XOR2 3 0 0;
    mk_op EC_GF_OP_XOR2 7 0 0;
    mk_op EC_GF_OP_XOR2 0 5 0;
    mk_op EC_GF_OP_XOR2 4 7 0;
    mk_op EC_GF_OP_XOR2 5 1 0;
    mk_op EC_GF_OP_XOR2 7 1 0;
    mk_op EC_GF_OP_XOR2 5 8 0;
    mk_op EC_GF_OP_XOR2 2 5 0;
    mk_op EC_GF_OP_XOR2 6 5 0;
    mk_op EC_GF_OP_XOR3 1 9 2;
    mk_op EC_GF_OP_END 0 0 0]].

(** ec_gf8_mul_E0 to ec_gf8_mul_E3. *)
Definition ec_gf8_mul_E0_E3 : list ec_gf_mul_t := [
  mk_mul 8 [2; 3; 4; 7; 5; 6; 0; 1] [
    mk_op EC_GF_OP_XOR2 4 2 0;
    mk_op EC_GF_OP_XOR2 6 4 0;
    mk_op EC_GF_OP_XOR2 5 3 0;
    mk_op EC_GF_OP_XOR2 3 6 0;
    mk_op EC_GF_OP_XOR2 4 1 0;
    mk_op EC_GF_OP_XOR2 7 1 0;
    mk_op EC_GF_OP_XOR2 5 7 0;
    mk_op EC_GF_OP_XOR2 6 0 0;
    mk_op EC_GF_OP_XOR2 2 5 0;
    mk_op EC_GF_OP_XOR2 0 5 0;
    mk_op EC_GF_OP_XOR2 1 6 0;
    mk_op EC_GF_OP_END 0 0 0];
  mk_mul 10 [0; 7; 1; 3; 4; 5; 6; 2; 8; 9] [
    mk_op EC_GF_OP_COPY 8 1 0;
    mk_op EC_GF_OP_XOR2 8 7 0;
    mk_op EC_GF_OP_XOR2 3 8 0;
    mk_op EC_GF_OP_XOR3 9 5 3;
    mk_op EC_GF_OP_XOR2 0 9 0;
    mk_op EC_GF_OP_XOR2 1 4 0;
    mk_op EC_GF_OP_XOR2 7 0 0;
    mk_op EC_GF_OP_XOR2 6 0 0;
    mk_op EC_GF_OP_XOR2 4 9 0;
    mk_op EC_GF_OP_XOR2 0 2 0;
    mk_op EC_GF_OP_XOR2 2 4 0;
    mk_op EC_GF_OP_XOR2 2 6 0;
    mk_op EC_GF_OP_XOR2 5 2 0;
    mk_op EC_GF_OP_XOR2 2 8 0;
    mk_op EC_GF_OP_XOR2 7 5 0;
    mk_op EC_GF_OP_END 0 0 0];
  mk_mul 8 [2; 3; 7; 1; 5; 6; 0; 4] [
    mk_op EC_GF_OP_XOR2 6 0 0;
    mk_op EC_GF_OP_XOR2 5 1 0;
    mk_op EC_GF_OP_XOR2 6 2 0;
    mk_op EC_GF_OP_XOR2 1 2 0;
    mk_op EC_GF_OP_XOR2 2 3 0;
    mk_op EC_GF_OP_XOR2 0 1 0;
    mk_op EC_GF_OP_XOR2 3 4 0;
    mk_op EC_GF_OP_XOR2 7 2 0;
    mk_op EC_GF_OP_XOR2 4 0 0;
    mk_op EC_GF_OP_XOR2 2 5 0;
    mk_op EC_GF_OP_XOR2 0 7 0;
    mk_op EC_GF_OP_XOR2 7 3 0;
    mk_op EC_GF_OP_XOR2 3 6 0;
    mk_op EC_GF_OP_END 0 0 0];
  mk_mul 9 [5; 4; 7; 2; 1; 3; 6; 0; 8] [
    mk_op EC_GF_OP_XOR2 7 4 0;
    mk_op EC_GF_OP_XOR2 3 1 0;
    mk_op EC_GF_OP_XOR3 8 2 7;
    mk_op EC_GF_OP_XOR2 4 5 0;
    mk_op EC_GF_OP_XOR2 2 3 0;
    mk_op EC_GF_OP_XOR2 5 0 0;
    mk_op EC_GF_OP_XOR2 5 2 0;
    mk_op EC_GF_OP_XOR2 0 1 0;
    mk_op EC_GF_OP_XOR2 6 5 0;
    mk_op EC_GF_OP_XOR2 1 4 0;
    mk_op EC_GF_OP_XOR2 0 8 0;
    mk_op EC_GF_OP_XOR2 4 6 0;
    mk_op EC_GF_OP_XOR2 3 6 0;
    mk_op EC_GF_OP_XOR3 6 8 4;
    mk_op EC_GF_OP_END 0 0 0]].

(** ec_gf8_mul_E4 to ec_gf8_mul_E7. *)
Definition ec_gf8_mul_E4_E7 : list ec_gf_mul_t := [
  mk_mul 8 [7; 0; 1; 6; 3; 4; 2; 5] [
    mk_op EC_GF_OP_XOR2 4 0 0;
    mk_op EC_GF_OP_XOR2 2 6 0;
    mk_op EC_GF_OP_XOR2 2 4 0;
    mk_op EC_GF_OP_XOR2 1 2 0;
    mk_op EC_GF_OP_XOR2 5 1 0;
    mk_op EC_GF_OP_XOR2 4 5 0;
    mk_op EC_GF_OP_XOR2 3 4 0;
    mk_op EC_GF_OP_XOR2 7 3 0;
    mk_op EC_GF_OP_XOR2 2 7 0;
    mk_op EC_GF_OP_XOR2 4 2 0;
    mk_op EC_GF_OP_XOR2 0 4 0;
    mk_op EC_GF_OP_END 0 0 0];
  mk_mul 9 [4; 5; 3; 6; 7; 1; 0; 2; 8] [
    mk_op EC_GF_OP_XOR2 7 5 0;
    mk_op EC_GF_OP_XOR2 5 0 0;
    mk_op EC_GF_OP_XOR2 0 1 0;
    mk_op EC_GF_OP_XOR2 6 3 0;
    mk_op EC_GF_OP_XOR2 0 6 0;
    mk_op EC_GF_OP_XOR2 0 4 0;
    mk_op EC_GF_OP_COPY 8 0 0;
    mk_op EC_GF_OP_XOR2 0 7 0;
    mk_op EC_GF_OP_XOR2 2 0 0;
    mk_op EC_GF_OP_XOR2 5 2 0;
    mk_op EC_GF_OP_XOR2 1 2 0;
    mk_op EC_GF_OP_XOR2 4 2 0;
    mk_op EC_GF_OP_XOR2 7 5 0;
    mk_op EC_GF_OP_XOR2 2 3 0;
    mk_op EC_GF_OP_XOR2 3 8 0;
    mk_op EC_GF_OP_END 0 0 0];
  mk_mul 8 [5; 4; 3; 6; 7; 0; 1; 2] [
    mk_op EC_GF_OP_XOR2 6 2 0;
    mk_op EC_GF_OP_XOR2 1 6 0;
    mk_op EC_GF_OP_XOR2 6 7 0;
    mk_op EC_GF_OP_XOR2 0 3 0;
    mk_op EC_GF_OP_XOR2 5 1 0;
    mk_op EC_GF_OP_XOR2 0 6 0;
    mk_op EC_GF_OP_XOR2 7 5 0;
    mk_op EC_GF_OP_XOR2 4 0 0;
    mk_op EC_GF_OP_XOR2 5 3 0;
    mk_op EC_GF_OP_XOR2 3 4 0;
    mk_op EC_GF_OP_XOR2 1 4 0;
    mk_op EC_GF_OP_XOR2 2 3 0;
    mk_op EC_GF_OP_XOR2 2 7 0;
    mk_op EC_GF_OP_END 0 0 0];
  mk_mul 10 [1; 4; 3; 6; 7; 5; 2; 0; 8; 9] [
    mk_op EC_GF_OP_COPY 8 6 0;
    mk_op EC_GF_OP_XOR2 3 2 0;
    mk_op EC_GF_OP_XOR2 6 7 0;
    mk_op EC_GF_OP_XOR2 6 3 0;
    mk_op EC_GF_OP_XOR3 9 0 6;
    mk_op EC_GF_OP_XOR2 4 9 0;
    mk_op EC_GF_OP_XOR2 5 9 0;
    mk_op EC_GF_OP_XOR2 3 4 0;
    mk_op EC_GF_OP_XOR2 7 5 0;
    mk_op EC_GF_OP_XOR2 4 1 0;
    mk_op EC_GF_OP_XOR2 2 4 0;
    mk_op EC_GF_OP_XOR2 1 7 0;
    mk_op EC_GF_OP_XOR2 7 2 0;
    mk_op EC_GF_OP_XOR2 0 7 0;
    mk_op EC_GF_OP_XOR2 7 8 0;
    mk_op EC_GF_OP_END 0 0 0]].

(** ec_gf8_mul_E8 to ec_gf8_mul_EB. *)
Definition ec_gf8_mul_E8_EB : list ec_gf_mul_t := [
  mk_mul 8 [1; 4; 2; 7; 3; 0; 5; 6] [
    mk_op EC_GF_OP_XOR2 1 0 0;
    mk_op EC_GF_OP_XOR2 0 4 0;
    mk_op EC_GF_OP_XOR2 4 2 0;
    mk_op EC_GF_OP_XOR2 2 5 0;
    mk_op EC_GF_OP_XOR2 4 3 0;
    mk_op EC_GF_OP_XOR2 5 1 0;
    mk_op EC_GF_OP_XOR2 3 6 0;
    mk_op EC_GF_OP_XOR2 6 5 0;
    mk_op EC_GF_OP_XOR2 0 7 0;
    mk_op EC_GF_OP_XOR2 7 6 0;
    mk_op EC_GF_OP_XOR2 1 0 0;
    mk_op EC_GF_OP_XOR2 6 2 0;
    mk_op EC_GF_OP_XOR2 2 1 0;
    mk_op EC_GF_OP_XOR2 1 4 0;
    mk_op EC_GF_OP_END 0 0 0];
  mk_mul 9 [6; 2; 0; 3; 4; 1; 5; 7; 8] [
    mk_op EC_GF_OP_XOR2 1 0 0;
    mk_op EC_GF_OP_COPY 8 1 0;
    mk_op EC_GF_OP_XOR2 1 6 0;
    mk_op EC_GF_OP_XOR2 6 3 0;
    mk_op EC_GF_OP_XOR2 4 6 0;
    mk_op EC_GF_OP_XOR2 2 1 0;
    mk_op EC_GF_OP_XOR2 3 7 0;
    mk_op EC_GF_OP_XOR2 0 4 0;
    mk_op EC_GF_OP_XOR2 7 2 0;
    mk_op EC_GF_OP_XOR2 5 1 0;
    mk_op EC_GF_OP_XOR2 2 0 0;
    mk_op EC_GF_OP_XOR2 6 7 0;
    mk_op EC_GF_OP_XOR2 3 5 0;
    mk_op EC_GF_OP_XOR2 0 3 0;
    mk_op EC_GF_OP_XOR3 1 8 0;
    mk_op EC_GF_OP_END 0 0 0];
  mk_mul 8 [3; 4; 5; 6; 7; 0; 1; 2] [
    mk_op EC_GF_OP_XOR2 2 1 0;
    mk_op EC_GF_OP_XOR2 3 2 0;
    mk_op EC_GF_OP_XOR2 1 0 0;
    mk_op EC_GF_OP_XOR2 2 0 0;
    mk_op EC_GF_OP_XOR2 0 7 0;
    mk_op EC_GF_OP_XOR2 5 2 0;
    mk_op EC_GF_OP_XOR2 7 6 0;
    mk_op EC_GF_OP_XOR2 4 1 0;
    mk_op EC_GF_OP_XOR2 6 5 0;
    mk_op EC_GF_OP_XOR2 5 4 0;
    mk_op EC_GF_OP_XOR2 4 3 0;
    mk_op EC_GF_OP_END 0 0 0];
  mk_mul 8 [3; 4; 5; 6; 7; 0; 1; 2] [
    mk_op EC_GF_OP_XOR2 1 0 0;
    mk_op EC_GF_OP_XOR2 2 1 0;
    mk_op EC_GF_OP_XOR2 3 2 0;
    mk_op EC_GF_OP_XOR2 2 7 0;
    mk_op EC_GF_OP_XOR2 7 5 0;
    mk_op EC_GF_OP_XOR2 5 4 0;
    mk_op EC_GF_OP_XOR2 0 7 0;
    mk_op EC_GF_OP_XOR2 1 6 0;
    mk_op EC_GF_OP_XOR2 4 3 0;
    mk_op EC_GF_OP_XOR2 6 5 0;
    mk_op EC_GF_OP_XOR2 7 6 0;
    mk_op EC_GF_OP_XOR2 6 4 0;
    mk_op EC_GF_OP_END 0 0 0]].

(** ec_gf8_mul_EC to ec_gf8_mul_EF. *)
Definition ec_gf8_mul_EC_EF : list ec_gf_mul_t := [
  mk_mul 9 [7; 4; 3; 0; 2; 5; 1; 6; 8] [
    mk_op EC_GF_OP_XOR2 0 5 0;
    mk_op EC_GF_OP_XOR2 6 1 0;
    mk_op EC_GF_OP_XOR3 8 4 0;
    mk_op EC_GF_OP_XOR2 1 8 0;
    mk_op EC_GF_OP_XOR2 7 3 0;
    mk_op EC_GF_OP_XOR2 6 2 0;
    mk_op EC_GF_OP_XOR2 3 8 0;
    mk_op EC_GF_OP_XOR2 2 7 0;
    mk_op EC_GF_OP_XOR2 7 6 0;
    mk_op EC_GF_OP_XOR2 5 3 0;
    mk_op EC_GF_OP_XOR2 4 2 0;
    mk_op EC_GF_OP_XOR2 6 0 0;
    mk_op EC_GF_OP_XOR2 3 7 0;
    mk_op EC_GF_OP_END 0 0 0];
  mk_mul 8 [5; 6; 7; 0; 1; 4; 3; 2] [
    mk_op EC_GF_OP_XOR2 5 3 0;
    mk_op EC_GF_OP_XOR2 0 5 0;
    mk_op EC_GF_OP_XOR2 2 4 0;
    mk_op EC_GF_OP_XOR2 4 0 0;
    mk_op EC_GF_OP_XOR2 3 1 0;
    mk_op EC_GF_OP_XOR2 6 4 0;
    mk_op EC_GF_OP_XOR2 3 6 0;
    mk_op EC_GF_OP_XOR2 7 3 0;
    mk_op EC_GF_OP_XOR2 2 7 0;
    mk_op EC_GF_OP_XOR2 6 2 0;
    mk_op EC_GF_OP_XOR2 5 2 0;
    mk_op EC_GF_OP_XOR2 1 6 0;
    mk_op EC_GF_OP_END 0 0 0];
  mk_mul 9 [6; 4; 5; 7; 2; 3; 0; 1; 8] [
    mk_op EC_GF_OP_XOR2 5 3 0;
    mk_op EC_GF_OP_XOR2 3 0 0;
    mk_op EC_GF_OP_XOR2 0 1 0;
    mk_op EC_GF_OP_XOR3 8 2 3;
    mk_op EC_GF_OP_XOR2 0 4 0;
    mk_op EC_GF_OP_XOR2 4 8 0;
    mk_op EC_GF_OP_XOR2 6 4 0;
    mk_op EC_GF_OP_XOR2 8 5 0;
    mk_op EC_GF_OP_XOR2 4 7 0;
    mk_op EC_GF_OP_XOR2 5 6 0;
    mk_op EC_GF_OP_XOR2 1 8 0;
    mk_op EC_GF_OP_XOR2 7 8 0;
    mk_op EC_GF_OP_XOR2 6 0 0;
    mk_op EC_GF_OP_END 0 0 0];
  mk_mul 9 [6; 4; 5; 7; 2; 0; 3; 1; 8] [
    mk_op EC_GF_OP_XOR2 5 1 0;
    mk_op EC_GF_OP_XOR2 1 3 0;
    mk_op EC_GF_OP_XOR2 0 1 0;
    mk_op EC_GF_OP_COPY 8 0 0;
    mk_op EC_GF_OP_XOR2 8 2 0;
    mk_op EC_GF_OP_XOR2 0 5 0;
    mk_op EC_GF_OP_XOR2 2 4 0;
    mk_op EC_GF_OP_XOR2 7 8 0;
    mk_op EC_GF_OP_XOR2 3 2 0;
    mk_op EC_GF_OP_XOR2 6 8 0;
    mk_op EC_GF_OP_XOR2 4 7 0;
    mk_op EC_GF_OP_XOR2 3 6 0;
    mk_op EC_GF_OP_XOR2 7 5 0;
    mk_op EC_GF_OP_XOR2 5 3 0;
    mk_op EC_GF_OP_XOR2 1 7 0;
    mk_op EC_GF_OP_END 0 0 0]].

(** ec_gf8_mul_F0 to ec_gf8_mul_F3. *)
Definition ec_gf8_mul_F0_F3 : list ec_gf_mul_t := [
  mk_mul 9 [3; 4; 6; 1; 2; 0; 5; 7; 8] [
    mk_op EC_GF_OP_XOR2 6 1 0;
    mk_op EC_GF_OP_XOR2 6 2 0;
    mk_op EC_GF_OP_XOR2 3 0 0;
    mk_op EC_GF_OP_XOR3 8 3 6;
    mk_op EC_GF_OP_XOR2 5 8 0;
    mk_op EC_GF_OP_XOR2 8 4 0;
    mk_op EC_GF_OP_XOR2 1 5 0;
    mk_op EC_GF_OP_XOR2 7 8 0;
    mk_op EC_GF_OP_XOR2 0 1 0;
    mk_op EC_GF_OP_XOR2 2 7 0;
    mk_op EC_GF_OP_XOR2 4 0 0;
    mk_op EC_GF_OP_XOR2 1 8 0;
    mk_op EC_GF_OP_XOR2 0 2 0;
    mk_op EC_GF_OP_XOR2 3 0 0;
    mk_op EC_GF_OP_END 0 0 0];
  mk_mul 10 [7; 2; 6; 3; 5; 1; 4; 0; 8; 9] [
    mk_op EC_GF_OP_XOR2 3 1 0;
    mk_op EC_GF_OP_XOR2 3 5 0;
    mk_op EC_GF_OP_COPY 8 3 0;
    mk_op EC_GF_OP_XOR2 3 4 0;
    mk_op EC_GF_OP_XOR2 2 3 0;
    mk_op EC_GF_OP_COPY 9 2 0;
    mk_op EC_GF_OP_XOR2 2 6 0;
    mk_op EC_GF_OP_XOR2 9 0 0;
    mk_op EC_GF_OP_XOR2 6 1 0;
    mk_op EC_GF_OP_XOR2 5 2 0;
    mk_op EC_GF_OP_XOR2 7 9 0;
    mk_op EC_GF_OP_XOR2 4 9 0;
    mk_op EC_GF_OP_XOR2 0 5 0;
    mk_op EC_GF_OP_XOR3 9 8 7;
    mk_op EC_GF_OP_XOR2 1 9 0;
    mk_op EC_GF_OP_XOR2 5 9 0;
    mk_op EC_GF_OP_END 0 0 0];
  mk_mul 9 [1; 0; 6; 7; 4; 5; 2; 3; 8] [
    mk_op EC_GF_OP_XOR2 0 1 0;
    mk_op EC_GF_OP_XOR2 5 4 0;
    mk_op EC_GF_OP_XOR2 1 5 0;
    mk_op EC_GF_OP_XOR2 7 2 0;
    mk_op EC_GF_OP_XOR2 0 6 0;
    mk_op EC_GF_OP_XOR2 6 7 0;
    mk_op EC_GF_OP_XOR2 4 0 0;
    mk_op EC_GF_OP_XOR2 2 3 0;
    mk_op EC_GF_OP_XOR2 7 1 0;
    mk_op EC_GF_OP_XOR3 8 6 4;
    mk_op EC_GF_OP_XOR2 1 2 0;
    mk_op EC_GF_OP_XOR2 2 0 0;
    mk_op EC_GF_OP_XOR2 3 8 0;
    mk_op EC_GF_OP_XOR2 5 8 0;
    mk_op EC_GF_OP_XOR2 0 1 0;
    mk_op EC_GF_OP_END 0 0 0];
  mk_mul 8 [5; 6; 7; 0; 1; 2; 3; 4] [
    mk_op EC_GF_OP_XOR2 1 0 0;
    mk_op EC_GF_OP_XOR2 2 1 0;
    mk_op EC_GF_OP_XOR2 3 2 0;
    mk_op EC_GF_OP_XOR2 4 3 0;
    mk_op EC_GF_OP_XOR2 2 7 0;
    mk_op EC_GF_OP_XOR2 0 7 0;
    mk_op EC_GF_OP_XOR2 5 4 0;
    mk_op EC_GF_OP_XOR2 1 6 0;
    mk_op EC_GF_OP_XOR2 7 6 0;
    mk_op EC_GF_OP_XOR2 0 5 0;
    mk_op EC_GF_OP_XOR2 6 5 0;
    mk_op EC_GF_OP_END 0 0 0]].

(** ec_gf8_mul_F4 to ec_gf8_mul_F7. *)
Definition ec_gf8_mul_F4_F7 : list ec_gf_mul_t := [
  mk_mul 8 [0; 1; 2; 3; 4; 5; 6; 7] [
    mk_op EC_GF_OP_XOR2 1 0 0;
    mk_op EC_GF_OP_XOR2 2 1 0;
    mk_op EC_GF_OP_XOR2 3 2 0;
    mk_op EC_GF_OP_XOR2 4 3 0;
    mk_op EC_GF_OP_XOR2 5 4 0;
    mk_op EC_GF_OP_XOR2 6 5 0;
    mk_op EC_GF_OP_XOR2 7 6 0;
    mk_op EC_GF_OP_XOR2 0 7 0;
    mk_op EC_GF_OP_XOR2 1 7 0;
    mk_op EC_GF_OP_XOR2 3 7 0;
    mk_op EC_GF_OP_END 0 0 0];
  mk_mul 8 [7; 0; 1; 2; 3; 4; 5; 6] [
    mk_op EC_GF_OP_XOR2 1 0 0;
    mk_op EC_GF_OP_XOR2 2 1 0;
    mk_op EC_GF_OP_XOR2 3 2 0;
    mk_op EC_GF_OP_XOR2 4 3 0;
    mk_op EC_GF_OP_XOR2 5 4 0;
    mk_op EC_GF_OP_XOR2 6 5 0;
    mk_op EC_GF_OP_XOR2 7 6 0;
    mk_op EC_GF_OP_XOR2 0 7 0;
    mk_op EC_GF_OP_XOR2 2 7 0;
    mk_op EC_GF_OP_END 0 0 0];
  mk_mul 10 [0; 6; 2; 7; 4; 3; 5; 9; 1; 8] [
    mk_op EC_GF_OP_XOR2 3 1 0;
    mk_op EC_GF_OP_COPY 8 3 0;
    mk_op EC_GF_OP_XOR2 3 5 0;
    mk_op EC_GF_OP_XOR2 2 0 0;
    mk_op EC_GF_OP_COPY 9 3 0;
    mk_op EC_GF_OP_XOR2 3 2 0;
    mk_op EC_GF_OP_XOR2 2 7 0;
    mk_op EC_GF_OP_XOR2 4 2 0;
    mk_op EC_GF_OP_XOR2 9 4 0;
    mk_op EC_GF_OP_XOR2 4 1 0;
    mk_op EC_GF_OP_XOR2 6 9 0;
    mk_op EC_GF_OP_XOR2 7 6 0;
    mk_op EC_GF_OP_XOR2 0 7 0;
    mk_op EC_GF_OP_XOR2 5 7 0;
    mk_op EC_GF_OP_XOR2 6 1 0;
    mk_op EC_GF_OP_XOR3 7 8 0;
    mk_op EC_GF_OP_END 0 0 0];
  mk_mul 8 [6; 7; 0; 1; 2; 3; 4; 5] [
    mk_op EC_GF_OP_XOR2 1 0 0;
    mk_op EC_GF_OP_XOR2 2 1 0;
    mk_op EC_GF_OP_XOR2 3 2 0;
    mk_op EC_GF_OP_XOR2 4 3 0;
    mk_op EC_GF_OP_XOR2 5 4 0;
    mk_op EC_GF_OP_XOR2 6 5 0;
    mk_op EC_GF_OP_XOR2 0 7 0;
    mk_op EC_GF_OP_XOR2 2 7 0;
    mk_op EC_GF_OP_XOR2 1 6 0;
    mk_op EC_GF_OP_XOR2 7 6 0;
    mk_op EC_GF_OP_END 0 0 0]].

(** ec_gf8_mul_F8 to ec_gf8_mul_FB. *)
Definition ec_gf8_mul_F8_FB : list ec_gf_mul_t := [
  mk_mul 8 [6; 2; 0; 1; 4; 5; 3; 7] [
    mk_op EC_GF_OP_XOR2 4 0 0;
    mk_op EC_GF_OP_XOR2 3 5 0;
    mk_op EC_GF_OP_XOR2 6 4 0;
    mk_op EC_GF_OP_XOR2 2 0 0;
    mk_op EC_GF_OP_XOR2 4 3 0;
    mk_op EC_GF_OP_XOR2 1 6 0;
    mk_op EC_GF_OP_XOR2 2 4 0;
    mk_op EC_GF_OP_XOR2 5 1 0;
    mk_op EC_GF_OP_XOR2 7 2 0;
    mk_op EC_GF_OP_XOR2 7 5 0;
    mk_op EC_GF_OP_XOR2 3 7 0;
    mk_op EC_GF_OP_XOR2 6 7 0;
    mk_op EC_GF_OP_XOR2 0 3 0;
    mk_op EC_GF_OP_END 0 0 0];
  mk_mul 9 [4; 1; 7; 6; 0; 3; 5; 2; 8] [
    mk_op EC_GF_OP_XOR2 1 5 0;
    mk_op EC_GF_OP_XOR2 5 3 0;
    mk_op EC_GF_OP_XOR2 6 1 0;
    mk_op EC_GF_OP_XOR2 0 5 0;
    mk_op EC_GF_OP_XOR2 7 6 0;
    mk_op EC_GF_OP_XOR2 6 0 0;
    mk_op EC_GF_OP_XOR2 2 6 0;
    mk_op EC_GF_OP_XOR2 6 4 0;
    mk_op EC_GF_OP_XOR2 1 2 0;
    mk_op EC_GF_OP_XOR2 3 6 0;
    mk_op EC_GF_OP_XOR3 8 7 1;
    mk_op EC_GF_OP_XOR2 1 3 0;
    mk_op EC_GF_OP_XOR2 4 8 0;
    mk_op EC_GF_OP_XOR2 5 8 0;
    mk_op EC_GF_OP_END 0 0 0];
  mk_mul 8 [0; 1; 2; 4; 5; 6; 7; 3] [
    mk_op EC_GF_OP_XOR2 1 0 0;
    mk_op EC_GF_OP_XOR2 0 4 0;
    mk_op EC_GF_OP_XOR2 2 1 0;
    mk_op EC_GF_OP_XOR2 0 7 0;
    mk_op EC_GF_OP_XOR2 7 2 0;
    mk_op EC_GF_OP_XOR2 1 5 0;
    mk_op EC_GF_OP_XOR2 3 7 0;
    mk_op EC_GF_OP_XOR2 5 0 0;
    mk_op EC_GF_OP_XOR2 7 6 0;
    mk_op EC_GF_OP_XOR2 0 3 0;
    mk_op EC_GF_OP_XOR2 6 1 0;
    mk_op EC_GF_OP_XOR2 4 7 0;
    mk_op EC_GF_OP_XOR2 1 0 0;
    mk_op EC_GF_OP_XOR2 2 6 0;
    mk_op EC_GF_OP_END 0 0 0];
  mk_mul 8 [4; 5; 6; 7; 0; 1; 2; 3] [
    mk_op EC_GF_OP_XOR2 1 0 0;
    mk_op EC_GF_OP_XOR2 2 1 0;
    mk_op EC_GF_OP_XOR2 0 5 0;
    mk_op EC_GF_OP_XOR2 3 2 0;
    mk_op EC_GF_OP_XOR2 0 7 0;
    mk_op EC_GF_OP_XOR2 2 7 0;
    mk_op EC_GF_OP_XOR2 1 6 0;
    mk_op EC_GF_OP_XOR2 7 6 0;
    mk_op EC_GF_OP_XOR2 4 3 0;
    mk_op EC_GF_OP_XOR2 6 5 0;
    mk_op EC_GF_OP_XOR2 7 4 0;
    mk_op EC_GF_OP_XOR2 5 4 0;
    mk_op EC_GF_OP_END 0 0 0]].

(** ec_gf8_mul_FC to ec_gf8_mul_FF. *)
Definition ec_gf8_mul_FC_FF : list ec_gf_mul_t := [
  mk_mul 10 [5; 6; 3; 7; 1; 8; 0; 4; 2; 9] [
    mk_op EC_GF_OP_XOR2 7 0 0;
    mk_op EC_GF_OP_XOR2 7 4 0;
    mk_op EC_GF_OP_XOR2 5 1 0;
    mk_op EC_GF_OP_COPY 9 3 0;
    mk_op EC_GF_OP_XOR3 8 5 7;
    mk_op EC_GF_OP_XOR2 3 6 0;
    mk_op EC_GF_OP_XOR2 8 3 0;
    mk_op EC_GF_OP_XOR2 2 8 0;
    mk_op EC_GF_OP_XOR2 1 2 0;
    mk_op EC_GF_OP_XOR2 4 2 0;
    mk_op EC_GF_OP_XOR2 0 1 0;
    mk_op EC_GF_OP_XOR2 3 4 0;
    mk_op EC_GF_OP_XOR2 5 0 0;
    mk_op EC_GF_OP_XOR2 6 0 0;
    mk_op EC_GF_OP_XOR3 0 9 2;
    mk_op EC_GF_OP_END 0 0 0];
  mk_mul 9 [5; 3; 7; 6; 1; 2; 4; 0; 8] [
    mk_op EC_GF_OP_XOR2 7 1 0;
    mk_op EC_GF_OP_COPY 8 7 0;
    mk_op EC_GF_OP_XOR2 5 0 0;
    mk_op EC_GF_OP_XOR2 7 5 0;
    mk_op EC_GF_OP_XOR2 4 2 0;
    mk_op EC_GF_OP_XOR2 4 7 0;
    mk_op EC_GF_OP_XOR2 5 6 0;
    mk_op EC_GF_OP_XOR2 0 4 0;
    mk_op EC_GF_OP_XOR2 3 0 0;
    mk_op EC_GF_OP_XOR2 5 3 0;
    mk_op EC_GF_OP_XOR2 2 5 0;
    mk_op EC_GF_OP_XOR2 1 2 0;
    mk_op EC_GF_OP_XOR2 0 1 0;
    mk_op EC_GF_OP_XOR2 6 1 0;
    mk_op EC_GF_OP_XOR3 1 8 0;
    mk_op EC_GF_OP_END 0 0 0];
  mk_mul 9 [3; 4; 8; 2; 5; 0; 6; 1; 7] [
    mk_op EC_GF_OP_XOR2 2 0 0;
    mk_op EC_GF_OP_COPY 8 2 0;
    mk_op EC_GF_OP_XOR2 2 4 0;
    mk_op EC_GF_OP_XOR2 6 2 0;
    mk_op EC_GF_OP_XOR2 8 5 0;
    mk_op EC_GF_OP_XOR2 5 6 0;
    mk_op EC_GF_OP_XOR2 6 1 0;
    mk_op EC_GF_OP_XOR2 0 6 0;
    mk_op EC_GF_OP_XOR2 6 7 0;
    mk_op EC_GF_OP_XOR2 7 3 0;
    mk_op EC_GF_OP_XOR2 7 8 0;
    mk_op EC_GF_OP_XOR2 3 0 0;
    mk_op EC_GF_OP_XOR2 4 7 0;
    mk_op EC_GF_OP_XOR2 1 7 0;
    mk_op EC_GF_OP_XOR2 0 4 0;
    mk_op EC_GF_OP_END 0 0 0];
  mk_mul 10 [6; 5; 0; 1; 2; 4; 9; 3; 7; 8] [
    mk_op EC_GF_OP_XOR2 4 7 0;
    mk_op EC_GF_OP_COPY 9 0 0;
    mk_op EC_GF_OP_COPY 8 4 0;
    mk_op EC_GF_OP_XOR2 9 1 0;
    mk_op EC_GF_OP_XOR2 4 2 0;
    mk_op EC_GF_OP_XOR2 9 4 0;
    mk_op EC_GF_OP_XOR2 0 5 0;
    mk_op EC_GF_OP_XOR2 2 0 0;
    mk_op EC_GF_OP_XOR2 3 9 0;
    mk_op EC_GF_OP_XOR2 7 3 0;
    mk_op EC_GF_OP_XOR2 2 6 0;
    mk_op EC_GF_OP_XOR2 5 3 0;
    mk_op EC_GF_OP_XOR2 6 7 0;
    mk_op EC_GF_OP_XOR2 1 7 0;
    mk_op EC_GF_OP_XOR3 3 8 5;
    mk_op EC_GF_OP_XOR2 4 6 0;
    mk_op EC_GF_OP_END 0 0 0]].

(** The table [ec_gf8_mul], indexed by the factor. *)
Definition ec_gf8_mul : list ec_gf_mul_t :=
  ec_gf8_mul_00_03 ++ ec_gf8_mul_04_07 ++ ec_gf8_mul_08_0B ++ ec_gf8_mul_0C_0F ++
  ec_gf8_mul_10_13 ++ ec_gf8_mul_14_17 ++ ec_gf8_mul_18_1B ++ ec_gf8_mul_1C_1F ++
  ec_gf8_mul_20_23 ++ ec_gf8_mul_24_27 ++ ec_gf8_mul_28_2B ++ ec_gf8_mul_2C_2F ++
  ec_gf8_mul_30_33 ++ ec_gf8_mul_34_37 ++ ec_gf8_mul_38_3B ++ ec_gf8_mul_3C_3F ++
  ec_gf8_mul_40_43 ++ ec_gf8_mul_44_47 ++ ec_gf8_mul_48_4B ++ ec_gf8_mul_4C_4F ++
  ec_gf8_mul_50_53 ++ ec_gf8_mul_54_57 ++ ec_gf8_mul_58_5B ++ ec_gf8_mul_5C_5F ++
  ec_gf8_mul_60_63 ++ ec_gf8_mul_64_67 ++ ec_gf8_mul_68_6B ++ ec_gf8_mul_6C_6F ++
  ec_gf8_mul_70_73 ++ ec_gf8_mul_74_77 ++ ec_gf8_mul_78_7B ++ ec_gf8_mul_7C_7F ++
  ec_gf8_mul_80_83 ++ ec_gf8_mul_84_87 ++ ec_gf8_mul_88_8B ++ ec_gf8_mul_8C_8F ++
  ec_gf8_mul_90_93 ++ ec_gf8_mul_94_97 ++ ec_gf8_mul_98_9B ++ ec_gf8_mul_9C_9F ++
  ec_gf8_mul_A0_A3 ++ ec_gf8_mul_A4_A7 ++ ec_gf8_mul_A8_AB ++ ec_gf8_mul_AC_AF ++
  ec_gf8_mul_B0_B3 ++ ec_gf8_mul_B4_B7 ++ ec_gf8_mul_B8_BB ++ ec_gf8_mul_BC_BF ++
  ec_gf8_mul_C0_C3 ++ ec_gf8_mul_C4_C7 ++ ec_gf8_mul_C8_CB ++ ec_gf8_mul_CC_CF ++
  ec_gf8_mul_D0_D3 ++ ec_gf8_mul_D4_D7 ++ ec_gf8_mul_D8_DB ++ ec_gf8_mul_DC_DF ++
  ec_gf8_mul_E0_E3 ++ ec_gf8_mul_E4_E7 ++ ec_gf8_mul_E8_EB ++ ec_gf8_mul_EC_EF ++
  ec_gf8_mul_F0_F3 ++ ec_gf8_mul_F4_F7 ++ ec_gf8_mul_F8_FB ++ ec_gf8_mul_FC_FF.
