(* ===== verification/EcGalois.v ===== *)
(** * The Galois field of the disperse translator

    Models [xlators/cluster/ec/src/ec-galois.c]: the logarithm and power
    tables of GF(2^8), and addition, multiplication, division and
    exponentiation of uint32_t values through them.  A table is a list indexed
    as the C array is; an out-of-range argument gives the error value
    [gf->size], as in the code.  The tables are allocated without
    initialisation; every cell is written before it is read, so the cells start
    as 0 here.  Allocation succeeds. *)

From S2P Require Import Prelude EcGf8.
Open Scope Z_scope.

Record ec_gf := mk_gf {
  gf_bits : Z;
  gf_size : Z;
  gf_mod : Z;
  gf_min_ops : Z;
  gf_max_ops : Z;
  gf_avg_ops : Z;
  gf_log : list Z;
  gf_pow : list Z;
  gf_table : list ec_gf_mul_t
}.

(** Array access and update by a uint32_t index. *)
Definition aget (t : list Z) (i : Z) : Z := default 0 (t !! Z.to_nat i).
Definition aset (t : list Z) (i v : Z) : list Z := <[Z.to_nat i := v]> t.

Definition ec_gf_alloc (bits mod_ : Z) : ec_gf :=
  let size := Z.shiftl 1 bits in
  let cells := replicate (Z.to_nat (size * 2 - 1)) 0 in
  mk_gf bits size mod_ 0 0 0 cells cells [].

(** The loop of [ec_gf_init_tables], [n] iterations from index [i]. *)
Fixpoint init_loop (size mod_ : Z) (n : nat) (i : Z) (log pow : list Z)
    : list Z * list Z :=
  match n with
  | O => (log, pow)
  | S n' =>
      let tmp := Z.shiftl (aget pow (i - 1)) 1 in
      let tmp := if size <=? tmp then Z.lxor tmp mod_ else tmp in
      let pow := aset (aset pow i tmp) (i + size - 1) tmp in
      let log := aset (aset log tmp i) (tmp + size - 1) i in
      init_loop size mod_ n' (i + 1) log pow
  end.

Definition ec_gf_init_tables (gf : ec_gf) : ec_gf :=
  let size := gf_size gf in
  let log := replicate (Z.to_nat size) (2 ^ 32 - 1) ++ drop (Z.to_nat size) (gf_log gf) in
  let pow := aset (gf_pow gf) 0 1 in
  let log := aset (aset log 0 size) 1 0 in
  let '(log, pow) := init_loop size (gf_mod gf) (Z.to_nat (size - 1)) 1 log pow in
  mk_gf (gf_bits gf) size (gf_mod gf) 0 0 0 log pow [].

(** Operations of a multiplication program before EC_GF_OP_END. *)
Fixpoint ops_count (ops : list ec_gf_op) : Z :=
  match ops with
  | mk_op EC_GF_OP_END _ _ _ :: _ | [] => 0
  | _ :: ops => 1 + ops_count ops
  end.

(** The loop over [tbl[1]], ..., [tbl[size - 1]] that gathers the shortest, the
    longest and the total length of the programs. *)
Fixpoint ops_stats (tbl : list ec_gf_mul_t) (min_ops max_ops avg_ops : Z) : Z * Z * Z :=
  match tbl with
  | [] => (min_ops, max_ops, avg_ops)
  | mul :: tbl =>
      let j := ops_count (mul_ops mul) in
      ops_stats tbl (if j <? min_ops then j else min_ops)
        (if max_ops <? j then j else max_ops) (avg_ops + j)
  end.

(** [ec_gf_prepare]; [None] is EC_ERR (EINVAL). *)
Definition ec_gf_prepare (bits mod_ : Z) : option ec_gf :=
  if negb (bits =? 8) then None
  else
    let tbl := ec_gf8_mul in
    let mod_ := if mod_ =? 0 then 0x11d else mod_ in
    let gf := ec_gf_init_tables (ec_gf_alloc bits mod_) in
    let '(min_ops, max_ops, avg_ops) :=
      ops_stats (take (Z.to_nat (gf_size gf - 1)) (drop 1 tbl)) (bits * bits) 0 0 in
    Some (mk_gf (gf_bits gf) (gf_size gf) (gf_mod gf) min_ops max_ops
            (avg_ops / gf_size gf) (gf_log gf) (gf_pow gf) tbl).

Definition ec_gf_add (gf : ec_gf) (a b : Z) : Z :=
  if (gf_size gf <=? a) || (gf_size gf <=? b) then gf_size gf else Z.lxor a b.

Definition ec_gf_mul (gf : ec_gf) (a b : Z) : Z :=
  if (gf_size gf <=? a) || (gf_size gf <=? b) then gf_size gf
  else if negb (a =? 0) && negb (b =? 0)
  then aget (gf_pow gf) (aget (gf_log gf) a + aget (gf_log gf) b)
  else 0.

Definition ec_gf_div (gf : ec_gf) (a b : Z) : Z :=
  if (gf_size gf <=? a) || (gf_size gf <=? b) then gf_size gf
  else if negb (b =? 0) then
    if negb (a =? 0)
    then aget (gf_pow gf) (gf_size gf - 1 + aget (gf_log gf) a - aget (gf_log gf) b)
    else 0
  else gf_size gf.

(** The square-and-multiply loop; [n] bounds the bits of the exponent. *)
Fixpoint exp_loop (gf : ec_gf) (n : nat) (r a b : Z) : Z :=
  match n with
  | O => r
  | S n' =>
      if b =? 0 then r
      else
        let r := if negb (Z.land b 1 =? 0) then ec_gf_mul gf r a else r in
        exp_loop gf n' r (ec_gf_mul gf a a) (Z.shiftr b 1)
  end.

(** The exponent is a uint32_t: 32 iterations are enough. *)
Definition ec_gf_exp (gf : ec_gf) (a b : Z) : Z :=
  if (gf_size gf <=? a) || ((a =? 0) && (b =? 0)) then gf_size gf
  else exp_loop gf 32 1 a b.

(** The field the translator uses: EC_GF_BITS and EC_GF_MOD of ec-method.h. *)
Definition EC_GF_BITS : Z := 8.
Definition EC_GF_MOD : Z := 0x11D.

Definition gf8_tables : list Z * list Z :=
  Eval vm_compute in
    let gf := ec_gf_init_tables (ec_gf_alloc EC_GF_BITS EC_GF_MOD) in (gf_log gf, gf_pow gf).

Definition gf8_stats : Z * Z * Z :=
  Eval vm_compute in
    let '(min_ops, max_ops, avg_ops) := ops_stats (drop 1 ec_gf8_mul) 64 0 0 in
    (min_ops, max_ops, avg_ops / 256).

Definition gf8 : ec_gf :=
  mk_gf 8 256 EC_GF_MOD (fst (fst gf8_stats)) (snd (fst gf8_stats)) (snd gf8_stats)
    (fst gf8_tables) (snd gf8_tables) ec_gf8_mul.

(** ** Reference: polynomials over GF(2) modulo x^8 + x^4 + x^3 + x^2 + 1 *)

Definition xtime (a : Z) : Z :=
  let t := Z.shiftl a 1 in if 256 <=? t then Z.lxor t EC_GF_MOD else t.

(** Multiplication by [x^n]. *)
Fixpoint xpow (n : nat) (a : Z) : Z :=
  match n with O => a | S k => xtime (xpow k a) end.

(** Sum of [x^k * a] over the bits [k] of [b]. *)
Fixpoint gmul_bits (n : nat) (a b : Z) : Z :=
  match n with
  | O => 0
  | S n' => Z.lxor (gmul_bits n' a b) (if Z.testbit b (Z.of_nat n') then xpow n' a else 0)
  end.

Definition gmul (a b : Z) : Z := gmul_bits 8 a b.

Definition in_field (a : Z) : Prop := 0 <= a < 256.

(** ** Checking a statement on every field element *)

Definition all_elems : list Z := seqZ 0 256.

Lemma in_all_elems a : in_field a -> a ∈ all_elems.
Proof. unfold in_field, all_elems. intros. apply elem_of_seqZ. lia. Qed.

Lemma check1 (P : Z -> bool) : forallb P all_elems = true -> forall a, in_field a -> P a = true.
Proof.
  intros H a Ha. rewrite forallb_forall in H. apply H.
  apply list_elem_of_In, in_all_elems, Ha.
Qed.

(** Nonzero elements. *)
Definition nonzero (a : Z) : Prop := 1 <= a < 256.

Lemma nonzero_field a : nonzero a -> in_field a.
Proof. unfold nonzero, in_field. lia. Qed.

Lemma field_cases a : in_field a -> a = 0 \/ nonzero a.
Proof. unfold nonzero, in_field. lia. Qed.

#[export] Hint Resolve nonzero_field : gf.

(** ** The tables

    Facts read off the tables cell by cell; everything else follows from
    them. *)

(** The tables are those the initialisation loop computes. *)
Lemma gf8_prepare : ec_gf_prepare EC_GF_BITS EC_GF_MOD = Some gf8.
Proof. vm_compute. reflexivity. Qed.

Abbreviation log8 := (aget (gf_log gf8)).
Abbreviation pow8 := (aget (gf_pow gf8)).

Lemma pow_step_check :
  forallb (fun i => pow8 (i + 1) =? xtime (pow8 i)) (seqZ 0 510) = true.
Proof. vm_compute. reflexivity. Qed.

Lemma pow_period_check :
  forallb (fun i => pow8 (i + 255) =? pow8 i) (seqZ 0 256) = true.
Proof. vm_compute. reflexivity. Qed.

Lemma log_check :
  forallb (fun a => (a =? 0) || ((1 <=? log8 a) && (log8 a <=? 255) && (pow8 (log8 a) =? a)))
    all_elems = true.
Proof. vm_compute. reflexivity. Qed.

Lemma xtime_check :
  forallb (fun a => (0 <=? xtime a) && (xtime a <? 256) &&
     (xtime a =? Z.lxor (Z.shiftl a 1) (if Z.testbit a 7 then EC_GF_MOD else 0))) all_elems = true.
Proof. vm_compute. reflexivity. Qed.

Lemma seqZ_check (P : Z -> bool) m n :
  forallb P (seqZ m n) = true -> forall i, m <= i < m + n -> P i = true.
Proof.
  rewrite forallb_forall. intros H i Hi. apply H, list_elem_of_In, elem_of_seqZ. lia.
Qed.

Lemma pow_step i : 0 <= i < 510 -> pow8 (i + 1) = xtime (pow8 i).
Proof. intros. apply Z.eqb_eq, (seqZ_check _ _ _ pow_step_check). lia. Qed.

Lemma pow_period i : 0 <= i < 256 -> pow8 (i + 255) = pow8 i.
Proof. intros. apply Z.eqb_eq, (seqZ_check _ _ _ pow_period_check). lia. Qed.

Lemma log_spec a : nonzero a -> 1 <= log8 a <= 255 /\ pow8 (log8 a) = a.
Proof.
  intros Ha. pose proof (check1 _ log_check a (nonzero_field a Ha)) as H. cbv beta in H.
  unfold nonzero in Ha. destruct (Z.eqb_spec a 0); [lia|]. cbn [orb] in H.
  rewrite !andb_true_iff, !Z.leb_le, Z.eqb_eq in H. tauto.
Qed.

Lemma xtime_field a : in_field a -> in_field (xtime a).
Proof.
  intros Ha. pose proof (check1 _ xtime_check a Ha) as H. cbv beta in H.
  rewrite !andb_true_iff, Z.leb_le, Z.ltb_lt in H. unfold in_field. lia.
Qed.

Lemma xtime_alt a :
  in_field a -> xtime a = Z.lxor (Z.shiftl a 1) (if Z.testbit a 7 then EC_GF_MOD else 0).
Proof.
  intros Ha. pose proof (check1 _ xtime_check a Ha) as H. cbv beta in H.
  rewrite !andb_true_iff, Z.eqb_eq in H. tauto.
Qed.

(** *** Exclusive or stays in the field *)

Lemma lxor_field a b : in_field a -> in_field b -> in_field (Z.lxor a b).
Proof.
  unfold in_field. intros Ha Hb. assert (0 <= Z.lxor a b) by (apply Z.lxor_nonneg; lia).
  split; [auto|]. destruct (Z.eq_dec (Z.lxor a b) 0); [lia|].
  apply (Z.log2_lt_pow2 _ 8); [lia|]. eapply Z.le_lt_trans; [apply Z.log2_lxor; lia|].
  apply Z.max_lub_lt.
  - destruct (Z.eq_dec a 0) as [->|]; [reflexivity | apply Z.log2_lt_pow2; lia].
  - destruct (Z.eq_dec b 0) as [->|]; [reflexivity | apply Z.log2_lt_pow2; lia].
Qed.

Lemma lxor_swap a b c d : Z.lxor (Z.lxor a b) (Z.lxor c d) = Z.lxor (Z.lxor a c) (Z.lxor b d).
Proof.
  rewrite !Z.lxor_assoc. f_equal. rewrite <- !Z.lxor_assoc. f_equal. apply Z.lxor_comm.
Qed.

Lemma xtime_lxor a b :
  in_field a -> in_field b -> xtime (Z.lxor a b) = Z.lxor (xtime a) (xtime b).
Proof.
  intros Ha Hb. rewrite !xtime_alt by auto using lxor_field.
  rewrite lxor_swap, Z.shiftl_lxor, Z.lxor_spec. f_equal.
  destruct (Z.testbit a 7), (Z.testbit b 7); reflexivity.
Qed.

(** *** Iterated multiplication by x *)

Lemma xpow_field n a : in_field a -> in_field (xpow n a).
Proof. intros Ha. induction n; cbn; auto using xtime_field. Qed.

Lemma xpow_lxor n a b :
  in_field a -> in_field b -> xpow n (Z.lxor a b) = Z.lxor (xpow n a) (xpow n b).
Proof.
  intros Ha Hb. induction n as [|k IH]; cbn; [reflexivity|].
  rewrite IH. apply xtime_lxor; apply xpow_field; auto.
Qed.

Lemma xpow_0 n : xpow n 0 = 0.
Proof. induction n as [|k IH]; cbn; [|rewrite IH]; reflexivity. Qed.

Lemma xpow_add n m a : xpow (n + m) a = xpow n (xpow m a).
Proof. induction n as [|k IH]; cbn; [|rewrite IH]; reflexivity. Qed.

Lemma xpow_comm n m a : xpow n (xpow m a) = xpow m (xpow n a).
Proof. rewrite <- !xpow_add, Nat.add_comm. reflexivity. Qed.

Lemma pow_add i j :
  0 <= i -> 0 <= j -> i + j <= 510 -> pow8 (i + j) = xpow (Z.to_nat j) (pow8 i).
Proof.
  intros Hi Hj. rewrite <- (Z2Nat.id j) at 1 2 by lia.
  induction (Z.to_nat j) as [|k IH]; [intros _; rewrite Z.add_0_r; reflexivity|].
  rewrite Nat2Z.inj_succ. intros H. cbn [xpow].
  replace (i + Z.succ (Z.of_nat k)) with ((i + Z.of_nat k) + 1) by lia.
  rewrite pow_step, IH by lia. reflexivity.
Qed.

Lemma pow_field i : 0 <= i <= 510 -> in_field (pow8 i).
Proof.
  intros Hi. replace i with (0 + i) by lia. rewrite pow_add by lia. apply xpow_field.
  change (pow8 0) with 1. unfold in_field. lia.
Qed.

(** ** Multiplication and division *)

Abbreviation mul8 := (ec_gf_mul gf8).
Abbreviation div8 := (ec_gf_div gf8).

Lemma in_range a b : in_field a -> in_field b -> (gf_size gf8 <=? a) || (gf_size gf8 <=? b) = false.
Proof.
  unfold in_field. intros. change (gf_size gf8) with 256.
  apply orb_false_intro; apply Z.leb_gt; lia.
Qed.

Lemma one_field : in_field 1.
Proof. unfold in_field. lia. Qed.

Lemma zero_field : in_field 0.
Proof. unfold in_field. lia. Qed.

#[export] Hint Resolve one_field zero_field : gf.

Lemma mul8_comm a b : in_field a -> in_field b -> mul8 a b = mul8 b a.
Proof.
  intros Ha Hb. unfold ec_gf_mul. rewrite !in_range by auto.
  rewrite Z.add_comm, andb_comm. reflexivity.
Qed.

Lemma mul8_0_l b : in_field b -> mul8 0 b = 0.
Proof. intros Hb. unfold ec_gf_mul. rewrite in_range; [reflexivity | unfold in_field; lia | auto]. Qed.

(** Multiplication by a nonzero element is a power of x. *)
Lemma mul8_xpow a b : nonzero a -> in_field b -> mul8 a b = xpow (Z.to_nat (log8 a)) b.
Proof.
  intros Ha Hb. destruct (log_spec a Ha) as [La Pa].
  destruct (field_cases b Hb) as [->|Hb'].
  { rewrite mul8_comm by auto with gf. rewrite mul8_0_l by auto with gf.
    rewrite xpow_0. reflexivity. }
  destruct (log_spec b Hb') as [Lb Pb]. unfold ec_gf_mul. rewrite in_range by auto with gf.
  unfold nonzero in *.
  destruct (Z.eqb_spec a 0), (Z.eqb_spec b 0); try lia. cbn [negb andb].
  rewrite Z.add_comm, pow_add, Pb by lia. reflexivity.
Qed.

Lemma mul8_field a b : in_field a -> in_field b -> in_field (mul8 a b).
Proof.
  intros Ha Hb. destruct (field_cases a Ha) as [->|Ha'].
  - rewrite mul8_0_l by auto. exact Ha.
  - rewrite mul8_xpow by auto. apply xpow_field; auto.
Qed.

#[export] Hint Resolve mul8_field lxor_field : gf.

Lemma mul8_lxor_r a b c :
  in_field a -> in_field b -> in_field c ->
  mul8 a (Z.lxor b c) = Z.lxor (mul8 a b) (mul8 a c).
Proof.
  intros Ha Hb Hc. destruct (field_cases a Ha) as [->|Ha'].
  - rewrite !mul8_0_l by auto with gf. reflexivity.
  - rewrite !mul8_xpow by auto with gf. apply xpow_lxor; auto.
Qed.

Lemma mul8_assoc a b c :
  in_field a -> in_field b -> in_field c -> mul8 a (mul8 b c) = mul8 (mul8 a b) c.
Proof.
  intros Ha Hb Hc.
  destruct (field_cases a Ha) as [->|Ha']; [rewrite !mul8_0_l by auto with gf; reflexivity|].
  destruct (field_cases c Hc) as [->|Hc'].
  { rewrite (mul8_comm b 0), (mul8_comm (mul8 a b) 0), !mul8_0_l by auto with gf.
    rewrite (mul8_comm a 0), mul8_0_l by auto with gf. reflexivity. }
  rewrite (mul8_comm (mul8 a b) c), (mul8_comm b c) by auto with gf.
  rewrite !mul8_xpow by auto with gf. apply xpow_comm.
Qed.

Lemma mul8_1_l b : in_field b -> mul8 1 b = b.
Proof.
  intros Hb. destruct (field_cases b Hb) as [->|Hb'].
  { rewrite mul8_comm, mul8_0_l by (unfold in_field; lia). reflexivity. }
  destruct (log_spec b Hb') as [Lb Pb].
  assert (H1 : in_field 1) by (unfold in_field; lia).
  unfold ec_gf_mul. rewrite in_range by auto. unfold nonzero in *.
  destruct (Z.eqb_spec b 0); [lia|]. cbn [negb andb Z.eqb].
  change (log8 1) with 255. rewrite Z.add_comm, pow_period by lia. exact Pb.
Qed.

Lemma div8_field a b : in_field a -> nonzero b -> in_field (div8 a b).
Proof.
  intros Ha Hb. unfold ec_gf_div. rewrite in_range by auto with gf.
  destruct (log_spec b Hb) as [Lb _].
  destruct (Z.eqb_spec b 0); [unfold nonzero in Hb; lia|].
  destruct (field_cases a Ha) as [->|Ha']; [exact Ha|].
  destruct (Z.eqb_spec a 0); [unfold nonzero in Ha'; lia|]. cbn [negb].
  destruct (log_spec a Ha') as [La _]. apply pow_field. change (gf_size gf8) with 256. lia.
Qed.

Lemma mul8_div8 a b : in_field a -> nonzero b -> mul8 b (div8 a b) = a.
Proof.
  intros Ha Hb. pose proof (div8_field a b Ha Hb) as Hd. rewrite mul8_xpow by auto.
  unfold ec_gf_div. rewrite in_range by auto with gf. destruct (log_spec b Hb) as [Lb Pb].
  destruct (Z.eqb_spec b 0); [unfold nonzero in Hb; lia|].
  destruct (field_cases a Ha) as [->|Ha']; [apply xpow_0|].
  destruct (Z.eqb_spec a 0); [unfold nonzero in Ha'; lia|]. cbn [negb].
  destruct (log_spec a Ha') as [La Pa]. change (gf_size gf8 - 1) with 255.
  rewrite <- pow_add by lia. replace (255 + log8 a - log8 b + log8 b) with (log8 a + 255) by lia.
  rewrite pow_period by lia. exact Pa.
Qed.

(** ** The tables compute polynomial multiplication *)

Lemma bits_check :
  forallb (fun b => gmul_bits 8 1 b =? b) all_elems = true.
Proof. vm_compute. reflexivity. Qed.

Lemma gmul_bits_mul n a b :
  (n <= 8)%nat -> in_field a -> in_field (gmul_bits n 1 b) /\
  mul8 (gmul_bits n 1 b) a = gmul_bits n a b.
Proof.
  assert (H1 : in_field 1) by (unfold in_field; lia).
  assert (H0 : in_field 0) by (unfold in_field; lia).
  intros Hn Ha. induction n as [|n IH]; cbn [gmul_bits]; [split; [auto | apply mul8_0_l; auto]|].
  destruct IH as [IHf IHm]; [lia|].
  assert (Hx : in_field (if Z.testbit b (Z.of_nat n) then xpow n 1 else 0))
    by (destruct (Z.testbit _ _); auto using xpow_field).
  split; [auto with gf|].
  rewrite mul8_comm, mul8_lxor_r by auto with gf. rewrite (mul8_comm a), IHm by auto. f_equal.
  destruct (Z.testbit b (Z.of_nat n)).
  - destruct (field_cases a Ha) as [->|Ha']; [rewrite mul8_0_l, xpow_0; auto using xpow_field|].
    rewrite mul8_xpow, xpow_comm by auto using xpow_field. f_equal.
    rewrite <- mul8_xpow by auto. rewrite mul8_comm by auto. apply mul8_1_l; auto.
  - rewrite mul8_comm by auto. apply mul8_0_l; auto.
Qed.

Lemma mul8_gmul a b : in_field a -> in_field b -> mul8 a b = gmul a b.
Proof.
  intros Ha Hb. destruct (gmul_bits_mul 8 a b ltac:(lia) Ha) as [Hf Hm].
  unfold gmul. rewrite <- Hm. pose proof (check1 _ bits_check b Hb) as Hbb. cbv beta in Hbb.
  apply Z.eqb_eq in Hbb. rewrite Hbb in *. apply mul8_comm; auto.
Qed.

(** ** Exponentiation *)

Fixpoint gpow (a : Z) (n : nat) : Z :=
  match n with O => 1 | S k => gmul a (gpow a k) end.

Lemma gpow_field a n : in_field a -> in_field (gpow a n).
Proof.
  intros Ha. induction n; cbn [gpow]; [unfold in_field; lia|].
  rewrite <- mul8_gmul by auto. auto with gf.
Qed.

Lemma gpow_add a n m : in_field a -> gpow a (n + m) = gmul (gpow a n) (gpow a m).
Proof.
  intros Ha. pose proof (gpow_field a m Ha). pose proof (gpow_field a n Ha) as Hn.
  induction n as [|n IH]; cbn [Nat.add gpow].
  - rewrite <- mul8_gmul, mul8_1_l; auto with gf.
  - pose proof (gpow_field a n Ha). pose proof (gpow_field a (n + m) Ha).
    rewrite IH, <- !mul8_gmul; rewrite <- ?mul8_gmul; auto with gf. apply mul8_assoc; auto.
Qed.

Lemma gpow_square a n : in_field a -> gpow (gmul a a) n = gpow a (2 * n).
Proof.
  intros Ha. induction n as [|n IH]; [reflexivity|]. cbn [gpow]. rewrite IH.
  replace (2 * S n)%nat with (2 + 2 * n)%nat by lia. rewrite (gpow_add a 2) by auto.
  f_equal. cbn [gpow]. f_equal. rewrite <- mul8_gmul, mul8_comm, mul8_1_l; auto with gf.
Qed.

Lemma exp_loop_gpow n r a b :
  in_field r -> in_field a -> 0 <= b < 2 ^ Z.of_nat n ->
  exp_loop gf8 n r a b = gmul r (gpow a (Z.to_nat b)).
Proof.
  assert (Hone : forall r, in_field r -> gmul r 1 = r).
  { intros x Hx. rewrite <- mul8_gmul, mul8_comm, mul8_1_l; auto with gf. }
  revert r a b. induction n as [|n IH]; intros r a b Hr Ha Hb; cbn [exp_loop].
  { replace b with 0 by lia. symmetry. apply Hone; auto. }
  destruct (Z.eqb_spec b 0) as [->|Hb0]; [symmetry; apply Hone; auto|].
  rewrite Nat2Z.inj_succ, Z.pow_succ_r in Hb by lia.
  change (Z.land b 1) with (Z.land b (Z.ones 1)).
  rewrite Z.land_ones, Z.shiftr_div_pow2 by lia. change (2 ^ 1) with 2.
  pose proof (Z.div_mod b 2 ltac:(lia)) as Hd. pose proof (Z.mod_pos_bound b 2 ltac:(lia)).
  set (q := b / 2) in *.
  assert (Hg : in_field (gpow a (Z.to_nat (2 * q)))) by (apply gpow_field; auto).
  destruct (Z.eqb_spec (b mod 2) 0); cbn [negb]; rewrite IH by (auto with gf; lia);
    rewrite (mul8_gmul a a), gpow_square by auto.
  - do 2 f_equal. lia.
  - replace (Z.to_nat b) with (S (2 * Z.to_nat q)) by lia. cbn [gpow].
    replace (2 * Z.to_nat q)%nat with (Z.to_nat (2 * q)) by lia.
    rewrite <- !mul8_gmul; rewrite <- ?mul8_gmul; auto with gf. symmetry. apply mul8_assoc; auto.
Qed.

Lemma exp8_gpow a b :
  in_field a -> 0 <= b < 2 ^ 32 -> a <> 0 \/ b <> 0 ->
  ec_gf_exp gf8 a b = gpow a (Z.to_nat b).
Proof.
  intros Ha Hb Hab. unfold ec_gf_exp. change (gf_size gf8) with 256.
  assert (H1 : in_field 1) by (unfold in_field; lia).
  destruct (Z.leb_spec 256 a); [unfold in_field in Ha; lia|]. cbn [orb].
  destruct (Z.eqb_spec a 0), (Z.eqb_spec b 0); try lia; cbn [andb];
    rewrite exp_loop_gpow, <- mul8_gmul, mul8_1_l; auto using gpow_field.
Qed.
