(* ===== verification/EcCodeC.v ===== *)
(** * The portable encoding routines of the disperse translator

    Models [xlators/cluster/ec/src/ec-code-c.c].  A chunk of
    EC_METHOD_CHUNK_SIZE bytes is the list of its 64 uint64_t words: eight bit
    planes of WIDTH words.  The routines only copy words and combine them with
    [^], so they are written over any word type [W] with its [^]; the program
    is the instance with 64-bit words and [Z.lxor].

    [gf8_muladd_XX out in] replaces every symbol of [out] by XX times it plus
    the symbol of [in]; the bodies are those of the source, four functions per
    definition. *)

From S2P Require Import Prelude EcGf8 EcGalois.
Open Scope nat_scope.

(** One word of each of the eight planes. *)
Inductive planes (W : Type) := Planes (w0 w1 w2 w3 w4 w5 w6 w7 : W).
Arguments Planes {W}.

Definition WIDTH : nat := 8.

Section routines.
Context {W : Type} `{Inhabited W} (xor : W -> W -> W).
Local Infix "^^" := xor (at level 40, left associativity).

Definition planes_xor (a b : planes W) : planes W :=
  let 'Planes a0 a1 a2 a3 a4 a5 a6 a7 := a in
  let 'Planes b0 b1 b2 b3 b4 b5 b6 b7 := b in
  Planes (a0 ^^ b0) (a1 ^^ b1) (a2 ^^ b2) (a3 ^^ b3) (a4 ^^ b4) (a5 ^^ b5) (a6 ^^ b6) (a7 ^^ b7).

(** The words [ptr[0]], [ptr[WIDTH]], ..., [ptr[WIDTH * 7]] of a pointer at
    word [i] of a chunk, and their assignment. *)
Definition get_planes (c : list W) (i : nat) : planes W :=
  Planes (c !!! i) (c !!! (WIDTH + i)) (c !!! (WIDTH * 2 + i)) (c !!! (WIDTH * 3 + i))
    (c !!! (WIDTH * 4 + i)) (c !!! (WIDTH * 5 + i)) (c !!! (WIDTH * 6 + i))
    (c !!! (WIDTH * 7 + i)).

Definition set_planes (c : list W) (i : nat) (p : planes W) : list W :=
  let 'Planes w0 w1 w2 w3 w4 w5 w6 w7 := p in
  <[WIDTH * 7 + i := w7]> (<[WIDTH * 6 + i := w6]> (<[WIDTH * 5 + i := w5]>
  (<[WIDTH * 4 + i := w4]> (<[WIDTH * 3 + i := w3]> (<[WIDTH * 2 + i := w2]>
  (<[WIDTH + i := w1]> (<[i := w0]> c))))))).

(** The loop [for (i = 0; i < WIDTH; i++)] of every [gf8_muladd_XX], whose body
    rewrites the planes at [out_ptr] from those at [out_ptr] and [in_ptr]. *)
Definition muladd_loop (body : planes W -> planes W -> planes W) (out inp : list W) : list W :=
  foldl (fun out i => set_planes out i (body (get_planes out i) (get_planes inp i)))
    out (seq 0 WIDTH).

(** gf8_muladd_00 to gf8_muladd_03. *)
Definition gf8_muladd_00_03 : list (list W -> list W -> list W) := [
  (fun out inp => take 64 inp ++ drop 64 out);
  muladd_loop (fun out_ptr in_ptr => planes_xor out_ptr in_ptr);
  muladd_loop (fun out_ptr in_ptr =>
    let 'Planes in0 in1 in2 in3 in4 in5 in6 in7 := out_ptr in
    let out0 := in7 in let out1 := in0 in let out7 := in6 in let out5 := in4 in let out6 := in5 in
    let out3 := in2 ^^ in7 in let out4 := in3 ^^ in7 in let out2 := in1 ^^ in7 in
    planes_xor (Planes out0 out1 out2 out3 out4 out5 out6 out7) in_ptr);
  muladd_loop (fun out_ptr in_ptr =>
    let 'Planes in0 in1 in2 in3 in4 in5 in6 in7 := out_ptr in
    let out0 := in0 ^^ in7 in let tmp0 := in2 ^^ in7 in let out1 := in0 ^^ in1 in
    let out7 := in6 ^^ in7 in let out5 := in4 ^^ in5 in let out6 := in5 ^^ in6 in
    let out4 := in3 ^^ in4 ^^ in7 in let out2 := tmp0 ^^ in1 in let out3 := tmp0 ^^ in3 in
    planes_xor (Planes out0 out1 out2 out3 out4 out5 out6 out7) in_ptr)].

(** gf8_muladd_04 to gf8_muladd_07. *)
Definition gf8_muladd_04_07 : list (list W -> list W -> list W) := [
  muladd_loop (fun out_ptr in_ptr =>
    let 'Planes in0 in1 in2 in3 in4 in5 in6 in7 := out_ptr in
    let out0 := in6 in let out1 := in7 in let out7 := in5 in let out6 := in4 in
    let tmp0 := in6 ^^ in7 in let out2 := in0 ^^ in6 in let out5 := in3 ^^ in7 in
    let out3 := tmp0 ^^ in1 in let out4 := tmp0 ^^ in2 in
    planes_xor (Planes out0 out1 out2 out3 out4 out5 out6 out7) in_ptr);
  muladd_loop (fun out_ptr in_ptr =>
    let 'Planes in0 in1 in2 in3 in4 in5 in6 in7 := out_ptr in
    let out0 := in0 ^^ in6 in let out1 := in1 ^^ in7 in let out7 := in5 ^^ in7 in
    let out6 := in4 ^^ in6 in let out2 := out0 ^^ in2 in let out3 := out1 ^^ in3 ^^ in6 in
    let out5 := out7 ^^ in3 in let out4 := out6 ^^ in2 ^^ in7 in
    planes_xor (Planes out0 out1 out2 out3 out4 out5 out6 out7) in_ptr);
  muladd_loop (fun out_ptr in_ptr =>
    let 'Planes in0 in1 in2 in3 in4 in5 in6 in7 := out_ptr in
    let out0 := in6 ^^ in7 in let tmp0 := in1 ^^ in6 in let out1 := in0 ^^ in7 in
    let out7 := in5 ^^ in6 in let out6 := in4 ^^ in5 in let out4 := in2 ^^ in3 ^^ in6 in
    let out5 := in3 ^^ in4 ^^ in7 in let out3 := tmp0 ^^ in2 in let out2 := tmp0 ^^ out1 in
    planes_xor (Planes out0 out1 out2 out3 out4 out5 out6 out7) in_ptr);
  muladd_loop (fun out_ptr in_ptr =>
    let 'Planes in0 in1 in2 in3 in4 in5 in6 in7 := out_ptr in
    let tmp0 := in2 ^^ in6 in let tmp1 := in5 ^^ in6 in let tmp2 := in0 ^^ in7 in
    let tmp3 := tmp0 ^^ in3 in let out6 := tmp1 ^^ in4 in let out7 := tmp1 ^^ in7 in
    let out0 := tmp2 ^^ in6 in let out1 := tmp2 ^^ in1 in let out3 := tmp3 ^^ in1 in
    let out4 := tmp3 ^^ in4 in let out5 := out4 ^^ out7 ^^ in2 in let out2 := tmp0 ^^ out1 in
    planes_xor (Planes out0 out1 out2 out3 out4 out5 out6 out7) in_ptr)].

(** gf8_muladd_08 to gf8_muladd_0B. *)
Definition gf8_muladd_08_0B : list (list W -> list W -> list W) := [
  muladd_loop (fun out_ptr in_ptr =>
    let 'Planes in0 in1 in2 in3 in4 in5 in6 in7 := out_ptr in
    let out0 := in5 in let out1 := in6 in let out7 := in4 in let out6 := in3 ^^ in7 in
    let out3 := in0 ^^ in5 ^^ in6 in let out5 := in2 ^^ in6 ^^ in7 in let out2 := in5 ^^ in7 in
    let out4 := out2 ^^ in1 ^^ in6 in
    planes_xor (Planes out0 out1 out2 out3 out4 out5 out6 out7) in_ptr);
  muladd_loop (fun out_ptr in_ptr =>
    let 'Planes in0 in1 in2 in3 in4 in5 in6 in7 := out_ptr in
    let out0 := in0 ^^ in5 in let tmp0 := in3 ^^ in6 in let out1 := in1 ^^ in6 in
    let out7 := in4 ^^ in7 in let out2 := in2 ^^ in5 ^^ in7 in let out3 := tmp0 ^^ out0 in
    let out6 := tmp0 ^^ in7 in let out4 := out1 ^^ out7 ^^ in5 in let out5 := out2 ^^ in6 in
    planes_xor (Planes out0 out1 out2 out3 out4 out5 out6 out7) in_ptr);
  muladd_loop (fun out_ptr in_ptr =>
    let 'Planes in0 in1 in2 in3 in4 in5 in6 in7 := out_ptr in
    let out0 := in5 ^^ in7 in let out1 := in0 ^^ in6 in let out7 := in4 ^^ in6 in
    let out2 := in1 ^^ in5 in let out6 := out0 ^^ in3 in let out3 := out0 ^^ out1 ^^ in2 in
    let out5 := out7 ^^ in2 ^^ in7 in let out4 := out2 ^^ in3 ^^ in6 in
    planes_xor (Planes out0 out1 out2 out3 out4 out5 out6 out7) in_ptr);
  muladd_loop (fun out_ptr in_ptr =>
    let 'Planes in0 in1 in2 in3 in4 in5 in6 in7 := out_ptr in
    let tmp0 := in2 ^^ in5 in let tmp1 := in0 ^^ in6 in let tmp2 := in4 ^^ in7 in
    let out0 := in0 ^^ in5 ^^ in7 in let out2 := tmp0 ^^ in1 in let out1 := tmp1 ^^ in1 in
    let out6 := tmp1 ^^ out0 ^^ in3 in let out7 := tmp2 ^^ in6 in
    let out4 := tmp2 ^^ out6 ^^ in1 in let out3 := out6 ^^ in0 ^^ in2 in
    let out5 := tmp0 ^^ out7 in
    planes_xor (Planes out0 out1 out2 out3 out4 out5 out6 out7) in_ptr)].

(** gf8_muladd_0C to gf8_muladd_0F. *)
Definition gf8_muladd_0C_0F : list (list W -> list W -> list W) := [
  muladd_loop (fun out_ptr in_ptr =>
    let 'Planes in0 in1 in2 in3 in4 in5 in6 in7 := out_ptr in
    let out0 := in5 ^^ in6 in let out1 := in6 ^^ in7 in let out7 := in4 ^^ in5 in
    let tmp0 := in1 ^^ in5 in let tmp1 := in0 ^^ in7 in let out5 := in2 ^^ in3 ^^ in6 in
    let out6 := in3 ^^ in4 ^^ in7 in let out2 := tmp1 ^^ out0 in let out4 := tmp0 ^^ in2 in
    let out3 := tmp0 ^^ tmp1 in
    planes_xor (Planes out0 out1 out2 out3 out4 out5 out6 out7) in_ptr);
  muladd_loop (fun out_ptr in_ptr =>
    let 'Planes in0 in1 in2 in3 in4 in5 in6 in7 := out_ptr in
    let tmp0 := in4 ^^ in5 in let tmp1 := in5 ^^ in6 in let out1 := in1 ^^ in6 ^^ in7 in
    let out7 := tmp0 ^^ in7 in let out4 := tmp0 ^^ in1 ^^ in2 in let out0 := tmp1 ^^ in0 in
    let tmp2 := tmp1 ^^ in3 in let out6 := tmp2 ^^ out7 in let out2 := out0 ^^ in2 ^^ in7 in
    let out3 := out0 ^^ out1 ^^ in3 in let out5 := tmp2 ^^ in2 in
    planes_xor (Planes out0 out1 out2 out3 out4 out5 out6 out7) in_ptr);
  muladd_loop (fun out_ptr in_ptr =>
    let 'Planes in0 in1 in2 in3 in4 in5 in6 in7 := out_ptr in
    let tmp0 := in0 ^^ in1 in let tmp1 := in2 ^^ in5 in let tmp2 := in5 ^^ in6 in
    let out1 := in0 ^^ in6 ^^ in7 in let out3 := tmp0 ^^ tmp1 in let out2 := tmp0 ^^ tmp2 in
    let tmp3 := tmp1 ^^ in3 in let out7 := tmp2 ^^ in4 in let out0 := tmp2 ^^ in7 in
    let out4 := tmp3 ^^ in1 ^^ in7 in let out5 := tmp3 ^^ out7 in
    let out6 := out0 ^^ out5 ^^ in2 in
    planes_xor (Planes out0 out1 out2 out3 out4 out5 out6 out7) in_ptr);
  muladd_loop (fun out_ptr in_ptr =>
    let 'Planes in0 in1 in2 in3 in4 in5 in6 in7 := out_ptr in
    let tmp0 := in6 ^^ in7 in let tmp1 := tmp0 ^^ in1 in let tmp2 := tmp0 ^^ in5 in
    let out1 := tmp1 ^^ in0 in let out7 := tmp2 ^^ in4 in let out0 := tmp2 ^^ in0 in
    let out6 := out7 ^^ in3 in let out5 := out6 ^^ in2 ^^ in7 in
    let tmp3 := tmp1 ^^ out0 ^^ in2 in let out4 := tmp1 ^^ out5 in let out2 := tmp3 ^^ in6 in
    let out3 := tmp3 ^^ in3 in
    planes_xor (Planes out0 out1 out2 out3 out4 out5 out6 out7) in_ptr)].

(** gf8_muladd_10 to gf8_muladd_13. *)
Definition gf8_muladd_10_13 : list (list W -> list W -> list W) := [
  muladd_loop (fun out_ptr in_ptr =>
    let 'Planes in0 in1 in2 in3 in4 in5 in6 in7 := out_ptr in
    let out0 := in4 in let out1 := in5 in let out7 := in3 ^^ in7 in let tmp0 := in6 ^^ in7 in
    let out2 := in4 ^^ in6 in let tmp1 := out2 ^^ in5 in let out6 := tmp0 ^^ in2 in
    let out3 := tmp0 ^^ tmp1 in let out5 := out2 ^^ out3 ^^ in1 in let out4 := tmp1 ^^ in0 in
    planes_xor (Planes out0 out1 out2 out3 out4 out5 out6 out7) in_ptr);
  muladd_loop (fun out_ptr in_ptr =>
    let 'Planes in0 in1 in2 in3 in4 in5 in6 in7 := out_ptr in
    let out7 := in3 in let out0 := in0 ^^ in4 in let out1 := in1 ^^ in5 in
    let out6 := in2 ^^ in7 in let out4 := in0 ^^ in5 ^^ in6 in let out5 := in1 ^^ in6 ^^ in7 in
    let out2 := in2 ^^ in4 ^^ in6 in let out3 := in3 ^^ in4 ^^ in5 ^^ in7 in
    planes_xor (Planes out0 out1 out2 out3 out4 out5 out6 out7) in_ptr);
  muladd_loop (fun out_ptr in_ptr =>
    let 'Planes in0 in1 in2 in3 in4 in5 in6 in7 := out_ptr in
    let out0 := in4 ^^ in7 in let out1 := in0 ^^ in5 in let out3 := in2 ^^ in4 ^^ in5 in
    let tmp0 := out0 ^^ in6 in let out2 := tmp0 ^^ in1 in let tmp1 := tmp0 ^^ in3 in
    let out6 := tmp0 ^^ out3 in let out5 := out2 ^^ in5 in let out7 := tmp1 ^^ in4 in
    let out4 := tmp1 ^^ out1 in
    planes_xor (Planes out0 out1 out2 out3 out4 out5 out6 out7) in_ptr);
  muladd_loop (fun out_ptr in_ptr =>
    let 'Planes in0 in1 in2 in3 in4 in5 in6 in7 := out_ptr in
    let out7 := in3 ^^ in6 in let tmp0 := in0 ^^ in5 in let tmp1 := in4 ^^ in7 in
    let out6 := in2 ^^ in5 ^^ in7 in let out4 := tmp0 ^^ out7 ^^ in7 in let out1 := tmp0 ^^ in1 in
    let out0 := tmp1 ^^ in0 in let out5 := tmp1 ^^ in1 ^^ in6 in
    let out3 := tmp1 ^^ out6 ^^ in3 in let out2 := out5 ^^ in2 in
    planes_xor (Planes out0 out1 out2 out3 out4 out5 out6 out7) in_ptr)].

(** gf8_muladd_14 to gf8_muladd_17. *)
Definition gf8_muladd_14_17 : list (list W -> list W -> list W) := [
  muladd_loop (fun out_ptr in_ptr =>
    let 'Planes in0 in1 in2 in3 in4 in5 in6 in7 := out_ptr in
    let out0 := in4 ^^ in6 in let out1 := in5 ^^ in7 in let out2 := in0 ^^ in4 in
    let tmp0 := out0 ^^ in5 in let out7 := out1 ^^ in3 in let tmp1 := out1 ^^ in2 in
    let out3 := tmp0 ^^ in1 in let out6 := tmp0 ^^ tmp1 in let out4 := tmp1 ^^ out2 in
    let out5 := out3 ^^ in3 ^^ in4 in
    planes_xor (Planes out0 out1 out2 out3 out4 out5 out6 out7) in_ptr);
  muladd_loop (fun out_ptr in_ptr =>
    let 'Planes in0 in1 in2 in3 in4 in5 in6 in7 := out_ptr in
    let out7 := in3 ^^ in5 in let tmp0 := in0 ^^ in4 in let out1 := in1 ^^ in5 ^^ in7 in
    let out5 := in1 ^^ in3 ^^ in6 in let out0 := tmp0 ^^ in6 in let out2 := tmp0 ^^ in2 in
    let out3 := out5 ^^ in4 ^^ in5 in let out6 := out2 ^^ in0 ^^ in7 in
    let out4 := tmp0 ^^ out6 ^^ in5 in
    planes_xor (Planes out0 out1 out2 out3 out4 out5 out6 out7) in_ptr);
  muladd_loop (fun out_ptr in_ptr =>
    let 'Planes in0 in1 in2 in3 in4 in5 in6 in7 := out_ptr in
    let tmp0 := in0 ^^ in5 in let tmp1 := in4 ^^ in7 in let tmp2 := in2 ^^ in3 ^^ in4 in
    let out1 := tmp0 ^^ in7 in let out4 := tmp0 ^^ tmp2 in let out0 := tmp1 ^^ in6 in
    let tmp3 := tmp1 ^^ in1 in let out6 := out0 ^^ in2 ^^ in5 in let out2 := tmp3 ^^ in0 in
    let out3 := out6 ^^ in1 in let out7 := tmp2 ^^ out6 in let out5 := tmp3 ^^ out7 in
    planes_xor (Planes out0 out1 out2 out3 out4 out5 out6 out7) in_ptr);
  muladd_loop (fun out_ptr in_ptr =>
    let 'Planes in0 in1 in2 in3 in4 in5 in6 in7 := out_ptr in
    let tmp0 := in2 ^^ in5 in let tmp1 := in3 ^^ in6 in let tmp2 := tmp0 ^^ in4 in
    let out4 := tmp0 ^^ in0 ^^ in3 in let out7 := tmp1 ^^ in5 in let tmp3 := tmp1 ^^ in1 in
    let out6 := tmp2 ^^ in7 in let out5 := tmp3 ^^ in4 in let out3 := tmp3 ^^ out6 in
    let out0 := out3 ^^ out4 ^^ in1 in let out2 := out3 ^^ out7 ^^ in0 in
    let out1 := tmp2 ^^ out2 in
    planes_xor (Planes out0 out1 out2 out3 out4 out5 out6 out7) in_ptr)].

(** gf8_muladd_18 to gf8_muladd_1B. *)
Definition gf8_muladd_18_1B : list (list W -> list W -> list W) := [
  muladd_loop (fun out_ptr in_ptr =>
    let 'Planes in0 in1 in2 in3 in4 in5 in6 in7 := out_ptr in
    let out0 := in4 ^^ in5 in let out1 := in5 ^^ in6 in let tmp0 := in4 ^^ in7 in
    let out5 := in1 ^^ in2 ^^ in5 in let out6 := in2 ^^ in3 ^^ in6 in let out2 := tmp0 ^^ out1 in
    let out7 := tmp0 ^^ in3 in let tmp1 := tmp0 ^^ in0 in let out3 := tmp1 ^^ in6 in
    let out4 := tmp1 ^^ in1 in
    planes_xor (Planes out0 out1 out2 out3 out4 out5 out6 out7) in_ptr);
  muladd_loop (fun out_ptr in_ptr =>
    let 'Planes in0 in1 in2 in3 in4 in5 in6 in7 := out_ptr in
    let out5 := in1 ^^ in2 in let out7 := in3 ^^ in4 in let tmp0 := in0 ^^ in7 in
    let out6 := in2 ^^ in3 in let out1 := in1 ^^ in5 ^^ in6 in let out0 := in0 ^^ in4 ^^ in5 in
    let out4 := tmp0 ^^ in1 in let tmp1 := tmp0 ^^ in6 in let out2 := tmp1 ^^ out0 ^^ in2 in
    let out3 := tmp1 ^^ out7 in
    planes_xor (Planes out0 out1 out2 out3 out4 out5 out6 out7) in_ptr);
  muladd_loop (fun out_ptr in_ptr =>
    let 'Planes in0 in1 in2 in3 in4 in5 in6 in7 := out_ptr in
    let tmp0 := in4 ^^ in5 in let tmp1 := in5 ^^ in6 in let tmp2 := tmp0 ^^ in1 in
    let out0 := tmp0 ^^ in7 in let out1 := tmp1 ^^ in0 in let tmp3 := tmp1 ^^ in3 in
    let out5 := tmp2 ^^ in2 in let out2 := tmp2 ^^ in6 in let out7 := tmp3 ^^ out0 in
    let out6 := tmp3 ^^ in2 in let out4 := tmp3 ^^ out2 ^^ in0 in
    let out3 := tmp0 ^^ out1 ^^ in2 in
    planes_xor (Planes out0 out1 out2 out3 out4 out5 out6 out7) in_ptr);
  muladd_loop (fun out_ptr in_ptr =>
    let 'Planes in0 in1 in2 in3 in4 in5 in6 in7 := out_ptr in
    let tmp0 := in2 ^^ in4 in let tmp1 := in2 ^^ in5 in let tmp2 := in3 ^^ in6 in
    let out5 := tmp0 ^^ in1 in let tmp3 := tmp0 ^^ in0 in let out6 := tmp1 ^^ in3 in
    let out0 := tmp1 ^^ tmp3 ^^ in7 in let out7 := tmp2 ^^ in4 in let tmp4 := out5 ^^ in6 in
    let out3 := tmp2 ^^ tmp3 in let out2 := tmp4 ^^ in5 in let out4 := tmp4 ^^ out3 in
    let out1 := tmp3 ^^ out2 in
    planes_xor (Planes out0 out1 out2 out3 out4 out5 out6 out7) in_ptr)].

(** gf8_muladd_1C to gf8_muladd_1F. *)
Definition gf8_muladd_1C_1F : list (list W -> list W -> list W) := [
  muladd_loop (fun out_ptr in_ptr =>
    let 'Planes in0 in1 in2 in3 in4 in5 in6 in7 := out_ptr in
    let tmp0 := in2 ^^ in3 in let tmp1 := in4 ^^ in6 in let tmp2 := in5 ^^ in7 in
    let out6 := tmp0 ^^ tmp1 in let out0 := tmp1 ^^ in5 in let out1 := tmp2 ^^ in6 in
    let tmp3 := tmp2 ^^ in1 in let tmp4 := tmp2 ^^ in4 in let out2 := tmp4 ^^ in0 in
    let out7 := tmp4 ^^ in3 in let out5 := tmp0 ^^ tmp3 in let out3 := tmp3 ^^ out2 in
    let out4 := out3 ^^ in2 ^^ in6 in
    planes_xor (Planes out0 out1 out2 out3 out4 out5 out6 out7) in_ptr);
  muladd_loop (fun out_ptr in_ptr =>
    let 'Planes in0 in1 in2 in3 in4 in5 in6 in7 := out_ptr in
    let tmp0 := in1 ^^ in3 in let tmp1 := in0 ^^ in4 in let tmp2 := in3 ^^ in4 in
    let tmp3 := in2 ^^ in7 in let out3 := tmp0 ^^ tmp1 in let out5 := tmp0 ^^ tmp3 in
    let tmp4 := tmp1 ^^ in5 in let out6 := tmp2 ^^ in2 in let out7 := tmp2 ^^ in5 in
    let out2 := tmp3 ^^ tmp4 in let out4 := out3 ^^ out6 ^^ in6 in let out0 := tmp4 ^^ in6 in
    let out1 := out2 ^^ out4 ^^ in4 in
    planes_xor (Planes out0 out1 out2 out3 out4 out5 out6 out7) in_ptr);
  muladd_loop (fun out_ptr in_ptr =>
    let 'Planes in0 in1 in2 in3 in4 in5 in6 in7 := out_ptr in
    let tmp0 := in0 ^^ in4 in let tmp1 := in2 ^^ in7 in let tmp2 := tmp0 ^^ in1 in
    let out3 := tmp1 ^^ tmp2 in let out2 := tmp2 ^^ in5 in let out4 := out3 ^^ in3 ^^ in6 in
    let tmp3 := out4 ^^ in7 in let out6 := tmp3 ^^ out2 ^^ in4 in let out7 := tmp1 ^^ out6 in
    let out0 := out7 ^^ in3 in let out1 := tmp0 ^^ out0 in let out5 := tmp3 ^^ out1 in
    planes_xor (Planes out0 out1 out2 out3 out4 out5 out6 out7) in_ptr);
  muladd_loop (fun out_ptr in_ptr =>
    let 'Planes in0 in1 in2 in3 in4 in5 in6 in7 := out_ptr in
    let tmp0 := in4 ^^ in6 in let tmp1 := tmp0 ^^ in5 in let out7 := tmp1 ^^ in3 in
    let out0 := tmp1 ^^ in0 ^^ in7 in let out6 := out7 ^^ in2 ^^ in6 in
    let out1 := out0 ^^ in1 ^^ in4 in let out4 := out0 ^^ out6 ^^ in1 in
    let out3 := tmp0 ^^ out4 in let out2 := out4 ^^ out7 ^^ in7 in let out5 := out3 ^^ in0 in
    planes_xor (Planes out0 out1 out2 out3 out4 out5 out6 out7) in_ptr)].

(** gf8_muladd_20 to gf8_muladd_23. *)
Definition gf8_muladd_20_23 : list (list W -> list W -> list W) := [
  muladd_loop (fun out_ptr in_ptr =>
    let 'Planes in0 in1 in2 in3 in4 in5 in6 in7 := out_ptr in
    let out1 := in4 in let out0 := in3 ^^ in7 in let tmp0 := in3 ^^ in4 in
    let tmp1 := in6 ^^ in7 in let out2 := out0 ^^ in5 in let out4 := tmp0 ^^ in5 in
    let out3 := tmp0 ^^ tmp1 in let out7 := tmp1 ^^ in2 in let out6 := tmp1 ^^ in1 ^^ in5 in
    let out5 := out2 ^^ out3 ^^ in0 in
    planes_xor (Planes out0 out1 out2 out3 out4 out5 out6 out7) in_ptr);
  muladd_loop (fun out_ptr in_ptr =>
    let 'Planes in0 in1 in2 in3 in4 in5 in6 in7 := out_ptr in
    let out1 := in1 ^^ in4 in let tmp0 := in4 ^^ in6 in let out4 := in3 ^^ in5 in
    let out7 := in2 ^^ in6 in let out0 := in0 ^^ in3 ^^ in7 in let out6 := in1 ^^ in5 ^^ in7 in
    let out3 := tmp0 ^^ in7 in let out5 := tmp0 ^^ in0 in let out2 := out4 ^^ in2 ^^ in7 in
    planes_xor (Planes out0 out1 out2 out3 out4 out5 out6 out7) in_ptr);
  muladd_loop (fun out_ptr in_ptr =>
    let 'Planes in0 in1 in2 in3 in4 in5 in6 in7 := out_ptr in
    let out0 := in3 in let out1 := in0 ^^ in4 in let out7 := in2 ^^ in7 in
    let out4 := in4 ^^ in5 ^^ in7 in let out5 := in0 ^^ in5 ^^ in6 in
    let out6 := in1 ^^ in6 ^^ in7 in let out3 := in2 ^^ in3 ^^ in4 ^^ in6 in
    let out2 := in1 ^^ in3 ^^ in5 in
    planes_xor (Planes out0 out1 out2 out3 out4 out5 out6 out7) in_ptr);
  muladd_loop (fun out_ptr in_ptr =>
    let 'Planes in0 in1 in2 in3 in4 in5 in6 in7 := out_ptr in
    let out7 := in2 in let out0 := in0 ^^ in3 in let out4 := in5 ^^ in7 in
    let out5 := in0 ^^ in6 in let out6 := in1 ^^ in7 in let out3 := in2 ^^ in4 ^^ in6 in
    let out1 := in0 ^^ in1 ^^ in4 in let out2 := out4 ^^ out6 ^^ in2 ^^ in3 in
    planes_xor (Planes out0 out1 out2 out3 out4 out5 out6 out7) in_ptr)].

(** gf8_muladd_24 to gf8_muladd_27. *)
Definition gf8_muladd_24_27 : list (list W -> list W -> list W) := [
  muladd_loop (fun out_ptr in_ptr =>
    let 'Planes in0 in1 in2 in3 in4 in5 in6 in7 := out_ptr in
    let out1 := in4 ^^ in7 in let tmp0 := in3 ^^ in4 in let out0 := in3 ^^ in6 ^^ in7 in
    let out3 := tmp0 ^^ in1 in let tmp1 := out0 ^^ in5 in let out6 := tmp1 ^^ out3 in
    let out2 := tmp1 ^^ in0 in let out7 := tmp1 ^^ in2 ^^ in3 in let out5 := out2 ^^ in4 in
    let out4 := tmp0 ^^ out7 in
    planes_xor (Planes out0 out1 out2 out3 out4 out5 out6 out7) in_ptr);
  muladd_loop (fun out_ptr in_ptr =>
    let 'Planes in0 in1 in2 in3 in4 in5 in6 in7 := out_ptr in
    let out3 := in1 ^^ in4 in let tmp0 := in2 ^^ in5 in let out1 := out3 ^^ in7 in
    let out7 := tmp0 ^^ in6 in let out6 := out1 ^^ in5 in let out4 := out7 ^^ in3 ^^ in7 in
    let out2 := out4 ^^ in0 in let out0 := tmp0 ^^ out2 in let out5 := out0 ^^ in4 in
    planes_xor (Planes out0 out1 out2 out3 out4 out5 out6 out7) in_ptr);
  muladd_loop (fun out_ptr in_ptr =>
    let 'Planes in0 in1 in2 in3 in4 in5 in6 in7 := out_ptr in
    let out0 := in3 ^^ in6 in let tmp0 := in4 ^^ in7 in let out7 := in2 ^^ in5 ^^ in7 in
    let tmp1 := out0 ^^ in0 ^^ in5 in let out1 := tmp0 ^^ in0 in let tmp2 := tmp0 ^^ in6 in
    let out2 := tmp1 ^^ in1 in let out5 := tmp1 ^^ in7 in let out6 := tmp2 ^^ in1 in
    let out4 := tmp2 ^^ out7 in let out3 := out0 ^^ out6 ^^ in2 in
    planes_xor (Planes out0 out1 out2 out3 out4 out5 out6 out7) in_ptr);
  muladd_loop (fun out_ptr in_ptr =>
    let 'Planes in0 in1 in2 in3 in4 in5 in6 in7 := out_ptr in
    let out7 := in2 ^^ in5 in let out0 := in0 ^^ in3 ^^ in6 in let out6 := in1 ^^ in4 ^^ in7 in
    let out4 := out7 ^^ in6 in let out2 := out0 ^^ out7 ^^ in1 in let out5 := out0 ^^ in7 in
    let out1 := out6 ^^ in0 in let out3 := out6 ^^ in2 in
    planes_xor (Planes out0 out1 out2 out3 out4 out5 out6 out7) in_ptr)].

(** gf8_muladd_28 to gf8_muladd_2B. *)
Definition gf8_muladd_28_2B : list (list W -> list W -> list W) := [
  muladd_loop (fun out_ptr in_ptr =>
    let 'Planes in0 in1 in2 in3 in4 in5 in6 in7 := out_ptr in
    let out2 := in3 in let out1 := in4 ^^ in6 in let out0 := in3 ^^ in5 ^^ in7 in
    let tmp0 := out1 ^^ in7 in let tmp1 := out0 ^^ in4 in let out7 := tmp0 ^^ in2 in
    let tmp2 := tmp0 ^^ in1 in let out3 := tmp1 ^^ in0 in let out6 := tmp1 ^^ tmp2 in
    let out4 := tmp2 ^^ in3 in let out5 := out3 ^^ in2 ^^ in3 in
    planes_xor (Planes out0 out1 out2 out3 out4 out5 out6 out7) in_ptr);
  muladd_loop (fun out_ptr in_ptr =>
    let 'Planes in0 in1 in2 in3 in4 in5 in6 in7 := out_ptr in
    let out2 := in2 ^^ in3 in let tmp0 := in1 ^^ in3 in let tmp1 := in4 ^^ in6 in
    let tmp2 := in0 ^^ in4 ^^ in7 in let out6 := tmp0 ^^ in5 in let out4 := tmp0 ^^ in6 ^^ in7 in
    let out1 := tmp1 ^^ in1 in let out7 := tmp1 ^^ in2 in let out3 := tmp2 ^^ in5 in
    let out5 := tmp2 ^^ in2 in let out0 := out3 ^^ in3 ^^ in4 in
    planes_xor (Planes out0 out1 out2 out3 out4 out5 out6 out7) in_ptr);
  muladd_loop (fun out_ptr in_ptr =>
    let 'Planes in0 in1 in2 in3 in4 in5 in6 in7 := out_ptr in
    let out0 := in3 ^^ in5 in let tmp0 := in1 ^^ in3 in let tmp1 := in0 ^^ in4 in
    let out7 := in2 ^^ in4 ^^ in7 in let out3 := tmp1 ^^ out0 ^^ in2 in let out2 := tmp0 ^^ in7 in
    let out6 := tmp0 ^^ in6 in let out1 := tmp1 ^^ in6 in let out5 := tmp1 ^^ out7 ^^ in5 in
    let out4 := out1 ^^ in0 ^^ in1 in
    planes_xor (Planes out0 out1 out2 out3 out4 out5 out6 out7) in_ptr);
  muladd_loop (fun out_ptr in_ptr =>
    let 'Planes in0 in1 in2 in3 in4 in5 in6 in7 := out_ptr in
    let out4 := in1 ^^ in6 in let out7 := in2 ^^ in4 in let tmp0 := in0 ^^ in5 in
    let tmp1 := in2 ^^ in7 in let out6 := in1 ^^ in3 in let out1 := out4 ^^ in0 ^^ in4 in
    let out3 := tmp0 ^^ out7 in let out0 := tmp0 ^^ in3 in let out5 := tmp1 ^^ in0 in
    let out2 := tmp1 ^^ out6 in
    planes_xor (Planes out0 out1 out2 out3 out4 out5 out6 out7) in_ptr)].

(** gf8_muladd_2C to gf8_muladd_2F. *)
Definition gf8_muladd_2C_2F : list (list W -> list W -> list W) := [
  muladd_loop (fun out_ptr in_ptr =>
    let 'Planes in0 in1 in2 in3 in4 in5 in6 in7 := out_ptr in
    let tmp0 := in2 ^^ in5 in let tmp1 := in2 ^^ in3 ^^ in4 in let tmp2 := tmp0 ^^ in6 in
    let out4 := tmp1 ^^ in1 in let out5 := tmp1 ^^ in0 ^^ in5 in let tmp3 := tmp2 ^^ in4 in
    let out6 := tmp2 ^^ out4 in let out7 := tmp3 ^^ in7 in let out2 := tmp3 ^^ out5 in
    let out3 := out6 ^^ in0 in let out0 := tmp1 ^^ out7 in let out1 := tmp0 ^^ out7 in
    planes_xor (Planes out0 out1 out2 out3 out4 out5 out6 out7) in_ptr);
  muladd_loop (fun out_ptr in_ptr =>
    let 'Planes in0 in1 in2 in3 in4 in5 in6 in7 := out_ptr in
    let tmp0 := in2 ^^ in3 in let out4 := tmp0 ^^ in1 in let tmp1 := tmp0 ^^ in0 in
    let out2 := tmp1 ^^ in6 in let out5 := tmp1 ^^ in4 in let tmp2 := out2 ^^ in2 in
    let tmp3 := tmp2 ^^ in5 in let out0 := tmp3 ^^ in7 in let out7 := tmp3 ^^ out5 in
    let out6 := out4 ^^ out7 ^^ in6 in let out3 := tmp2 ^^ out6 in
    let out1 := out0 ^^ out6 ^^ in0 in
    planes_xor (Planes out0 out1 out2 out3 out4 out5 out6 out7) in_ptr);
  muladd_loop (fun out_ptr in_ptr =>
    let 'Planes in0 in1 in2 in3 in4 in5 in6 in7 := out_ptr in
    let tmp0 := in4 ^^ in7 in let out0 := in3 ^^ in5 ^^ in6 in let tmp1 := tmp0 ^^ in0 in
    let tmp2 := tmp0 ^^ in2 in let out1 := tmp1 ^^ in6 in let out4 := tmp2 ^^ in1 in
    let out7 := tmp2 ^^ in5 in let out3 := out0 ^^ out4 ^^ in0 in
    let out2 := out3 ^^ out7 ^^ in7 in let out6 := tmp1 ^^ out2 in
    let out5 := tmp1 ^^ out7 ^^ in3 in
    planes_xor (Planes out0 out1 out2 out3 out4 out5 out6 out7) in_ptr);
  muladd_loop (fun out_ptr in_ptr =>
    let 'Planes in0 in1 in2 in3 in4 in5 in6 in7 := out_ptr in
    let tmp0 := in0 ^^ in3 in let tmp1 := in2 ^^ in5 in let out4 := in1 ^^ in2 ^^ in7 in
    let out6 := in1 ^^ in3 ^^ in4 in let out5 := tmp0 ^^ in2 in let tmp2 := tmp0 ^^ in6 in
    let out7 := tmp1 ^^ in4 in let out0 := tmp2 ^^ in5 in let out2 := tmp2 ^^ out4 in
    let out1 := tmp2 ^^ out6 ^^ in7 in let out3 := tmp1 ^^ out1 in
    planes_xor (Planes out0 out1 out2 out3 out4 out5 out6 out7) in_ptr)].

(** gf8_muladd_30 to gf8_muladd_33. *)
Definition gf8_muladd_30_33 : list (list W -> list W -> list W) := [
  muladd_loop (fun out_ptr in_ptr =>
    let 'Planes in0 in1 in2 in3 in4 in5 in6 in7 := out_ptr in
    let out1 := in4 ^^ in5 in let tmp0 := in3 ^^ in6 in let tmp1 := in4 ^^ in7 in
    let out6 := in1 ^^ in2 ^^ in5 in let out3 := tmp0 ^^ in5 in let out4 := tmp0 ^^ in0 in
    let out7 := tmp0 ^^ in2 in let out0 := tmp1 ^^ in3 in let out2 := tmp1 ^^ out3 in
    let out5 := tmp1 ^^ in0 ^^ in1 in
    planes_xor (Planes out0 out1 out2 out3 out4 out5 out6 out7) in_ptr);
  muladd_loop (fun out_ptr in_ptr =>
    let 'Planes in0 in1 in2 in3 in4 in5 in6 in7 := out_ptr in
    let out3 := in5 ^^ in6 in let tmp0 := in4 ^^ in5 in let tmp1 := in0 ^^ in3 ^^ in4 in
    let tmp2 := out3 ^^ in2 in let out1 := tmp0 ^^ in1 in let out0 := tmp1 ^^ in7 in
    let out4 := tmp1 ^^ in6 in let out6 := tmp2 ^^ in1 in let out2 := tmp2 ^^ out0 ^^ in0 in
    let out5 := out1 ^^ in0 ^^ in7 in let out7 := tmp0 ^^ out2 in
    planes_xor (Planes out0 out1 out2 out3 out4 out5 out6 out7) in_ptr);
  muladd_loop (fun out_ptr in_ptr =>
    let 'Planes in0 in1 in2 in3 in4 in5 in6 in7 := out_ptr in
    let out0 := in3 ^^ in4 in let out7 := in2 ^^ in3 in let tmp0 := in5 ^^ in6 in
    let tmp1 := in0 ^^ in7 in let out6 := in1 ^^ in2 in let out1 := in0 ^^ in4 ^^ in5 in
    let out2 := tmp0 ^^ out0 ^^ in1 in let out3 := tmp0 ^^ out7 ^^ in7 in
    let out4 := tmp1 ^^ in6 in let out5 := tmp1 ^^ in1 in
    planes_xor (Planes out0 out1 out2 out3 out4 out5 out6 out7) in_ptr);
  muladd_loop (fun out_ptr in_ptr =>
    let 'Planes in0 in1 in2 in3 in4 in5 in6 in7 := out_ptr in
    let tmp0 := in2 ^^ in3 in let tmp1 := in0 ^^ in4 in let tmp2 := in1 ^^ in5 in
    let out6 := in1 ^^ in2 ^^ in6 in let out7 := tmp0 ^^ in7 in let out0 := tmp1 ^^ in3 in
    let out1 := tmp1 ^^ tmp2 in let tmp3 := tmp2 ^^ in7 in let tmp4 := tmp2 ^^ in4 ^^ in6 in
    let out5 := tmp3 ^^ in0 in let out3 := tmp3 ^^ out6 in let out4 := tmp4 ^^ out5 in
    let out2 := tmp0 ^^ tmp4 in
    planes_xor (Planes out0 out1 out2 out3 out4 out5 out6 out7) in_ptr)].

(** gf8_muladd_34 to gf8_muladd_37. *)
Definition gf8_muladd_34_37 : list (list W -> list W -> list W) := [
  muladd_loop (fun out_ptr in_ptr =>
    let 'Planes in0 in1 in2 in3 in4 in5 in6 in7 := out_ptr in
    let tmp0 := in3 ^^ in4 in let tmp1 := in4 ^^ in5 in let tmp2 := tmp0 ^^ in1 in
    let tmp3 := tmp0 ^^ in6 in let out1 := tmp1 ^^ in7 in let tmp4 := tmp1 ^^ in2 in
    let out5 := tmp2 ^^ in0 in let out3 := tmp2 ^^ out1 in let out0 := tmp3 ^^ in7 in
    let out7 := tmp3 ^^ tmp4 in let out6 := tmp4 ^^ in1 in let out2 := out3 ^^ out5 ^^ in3 in
    let out4 := tmp4 ^^ out2 in
    planes_xor (Planes out0 out1 out2 out3 out4 out5 out6 out7) in_ptr);
  muladd_loop (fun out_ptr in_ptr =>
    let 'Planes in0 in1 in2 in3 in4 in5 in6 in7 := out_ptr in
    let tmp0 := in2 ^^ in6 in let tmp1 := in5 ^^ in7 in let out7 := tmp0 ^^ tmp1 ^^ in3 in
    let out3 := tmp1 ^^ in1 in let out1 := out3 ^^ in4 in let tmp2 := out1 ^^ in7 in
    let out5 := tmp2 ^^ in0 ^^ in3 in let out6 := tmp0 ^^ tmp2 in
    let out0 := out3 ^^ out5 ^^ in6 in let out4 := tmp0 ^^ out0 in let out2 := out4 ^^ in5 in
    planes_xor (Planes out0 out1 out2 out3 out4 out5 out6 out7) in_ptr);
  muladd_loop (fun out_ptr in_ptr =>
    let 'Planes in0 in1 in2 in3 in4 in5 in6 in7 := out_ptr in
    let out4 := in0 ^^ in2 in let tmp0 := in1 ^^ in3 in let out0 := in3 ^^ in4 ^^ in6 in
    let out6 := in1 ^^ in2 ^^ in4 in let out5 := tmp0 ^^ in0 in let tmp1 := out5 ^^ in5 in
    let out2 := tmp1 ^^ in4 in let out3 := tmp1 ^^ out4 in let out1 := tmp0 ^^ out2 ^^ in7 in
    let out7 := out3 ^^ in1 in
    planes_xor (Planes out0 out1 out2 out3 out4 out5 out6 out7) in_ptr);
  muladd_loop (fun out_ptr in_ptr =>
    let 'Planes in0 in1 in2 in3 in4 in5 in6 in7 := out_ptr in
    let tmp0 := in1 ^^ in2 in let tmp1 := in2 ^^ in4 in let tmp2 := tmp0 ^^ in6 in
    let out3 := tmp0 ^^ in5 in let out4 := tmp1 ^^ in0 in let out6 := tmp2 ^^ in4 in
    let out1 := out3 ^^ out4 ^^ in7 in let tmp3 := out4 ^^ in1 ^^ in3 in
    let out7 := tmp3 ^^ out1 in let out2 := tmp3 ^^ in5 in let out5 := tmp1 ^^ out2 in
    let out0 := tmp2 ^^ tmp3 in
    planes_xor (Planes out0 out1 out2 out3 out4 out5 out6 out7) in_ptr)].

(** gf8_muladd_38 to gf8_muladd_3B. *)
Definition gf8_muladd_38_3B : list (list W -> list W -> list W) := [
  muladd_loop (fun out_ptr in_ptr =>
    let 'Planes in0 in1 in2 in3 in4 in5 in6 in7 := out_ptr in
    let out3 := in0 ^^ in3 in let tmp0 := in3 ^^ in4 in let tmp1 := in5 ^^ in7 in
    let tmp2 := out3 ^^ in1 in let out2 := tmp0 ^^ in6 in let out0 := tmp0 ^^ tmp1 in
    let out4 := tmp1 ^^ tmp2 in let out7 := out2 ^^ in2 in let out1 := out2 ^^ in3 ^^ in5 in
    let out6 := out4 ^^ in0 ^^ in2 in let out5 := tmp2 ^^ out7 in
    planes_xor (Planes out0 out1 out2 out3 out4 out5 out6 out7) in_ptr);
  muladd_loop (fun out_ptr in_ptr =>
    let 'Planes in0 in1 in2 in3 in4 in5 in6 in7 := out_ptr in
    let out3 := in0 in let tmp0 := in1 ^^ in5 in let tmp1 := tmp0 ^^ in4 in
    let out1 := tmp1 ^^ in6 in let out5 := out1 ^^ in0 ^^ in2 in let tmp2 := tmp0 ^^ out5 in
    let out2 := tmp2 ^^ in0 ^^ in3 in let out7 := out2 ^^ in7 in let out6 := tmp1 ^^ out7 in
    let out4 := tmp2 ^^ out6 in let out0 := out4 ^^ in1 in
    planes_xor (Planes out0 out1 out2 out3 out4 out5 out6 out7) in_ptr);
  muladd_loop (fun out_ptr in_ptr =>
    let 'Planes in0 in1 in2 in3 in4 in5 in6 in7 := out_ptr in
    let tmp0 := in0 ^^ in1 in let tmp1 := in0 ^^ in2 in let tmp2 := in3 ^^ in4 in
    let tmp3 := in1 ^^ in6 in let tmp4 := in3 ^^ in7 in let out4 := tmp0 ^^ in5 in
    let out5 := tmp1 ^^ tmp3 in let out3 := tmp1 ^^ tmp4 in let out0 := tmp2 ^^ in5 in
    let out7 := tmp2 ^^ in2 in let tmp5 := tmp3 ^^ in4 in let out2 := tmp4 ^^ tmp5 in
    let out1 := tmp5 ^^ out4 in let out6 := tmp0 ^^ out3 in
    planes_xor (Planes out0 out1 out2 out3 out4 out5 out6 out7) in_ptr);
  muladd_loop (fun out_ptr in_ptr =>
    let 'Planes in0 in1 in2 in3 in4 in5 in6 in7 := out_ptr in
    let tmp0 := in1 ^^ in6 in let tmp1 := in2 ^^ in7 in let tmp2 := tmp0 ^^ in3 in
    let out3 := tmp1 ^^ in0 in let out6 := tmp1 ^^ tmp2 in let out2 := out6 ^^ in4 in
    let out7 := tmp0 ^^ out2 in let out0 := out3 ^^ out7 ^^ in5 in
    let out5 := out0 ^^ out2 ^^ in7 in let out1 := tmp2 ^^ out0 in let out4 := out1 ^^ in6 in
    planes_xor (Planes out0 out1 out2 out3 out4 out5 out6 out7) in_ptr)].

(** gf8_muladd_3C to gf8_muladd_3F. *)
Definition gf8_muladd_3C_3F : list (list W -> list W -> list W) := [
  muladd_loop (fun out_ptr in_ptr =>
    let 'Planes in0 in1 in2 in3 in4 in5 in6 in7 := out_ptr in
    let tmp0 := in0 ^^ in3 in let tmp1 := in2 ^^ in7 in let tmp2 := in1 ^^ in6 ^^ in7 in
    let out2 := tmp0 ^^ in4 in let out3 := tmp0 ^^ tmp2 in let out4 := tmp1 ^^ out3 ^^ in5 in
    let out5 := tmp2 ^^ out2 ^^ in2 in let out1 := out4 ^^ out5 ^^ in6 in
    let out0 := out1 ^^ in3 in let out7 := tmp1 ^^ out0 in let out6 := tmp2 ^^ out7 in
    planes_xor (Planes out0 out1 out2 out3 out4 out5 out6 out7) in_ptr);
  muladd_loop (fun out_ptr in_ptr =>
    let 'Planes in0 in1 in2 in3 in4 in5 in6 in7 := out_ptr in
    let tmp0 := in0 ^^ in2 in let tmp1 := tmp0 ^^ in3 in let out2 := tmp1 ^^ in4 in
    let tmp2 := out2 ^^ in5 in let out4 := tmp2 ^^ in1 ^^ in6 in let out5 := out4 ^^ in7 in
    let out6 := out5 ^^ in0 in let out7 := out6 ^^ in1 in let out0 := tmp0 ^^ out7 in
    let out1 := tmp1 ^^ out5 in let out3 := tmp2 ^^ out6 in
    planes_xor (Planes out0 out1 out2 out3 out4 out5 out6 out7) in_ptr);
  muladd_loop (fun out_ptr in_ptr =>
    let 'Planes in0 in1 in2 in3 in4 in5 in6 in7 := out_ptr in
    let tmp0 := in3 ^^ in5 in let tmp1 := tmp0 ^^ in4 in let out0 := tmp1 ^^ in6 in
    let out7 := tmp1 ^^ in2 in let out6 := out7 ^^ in1 ^^ in5 ^^ in7 in
    let out2 := out6 ^^ in0 ^^ in2 in let out4 := out0 ^^ out6 ^^ in0 in
    let out5 := tmp0 ^^ out4 in let out3 := out5 ^^ in7 in let out1 := out3 ^^ out6 ^^ in5 in
    planes_xor (Planes out0 out1 out2 out3 out4 out5 out6 out7) in_ptr);
  muladd_loop (fun out_ptr in_ptr =>
    let 'Planes in0 in1 in2 in3 in4 in5 in6 in7 := out_ptr in
    let tmp0 := in0 ^^ in1 in let out3 := tmp0 ^^ in2 ^^ in6 in let tmp1 := out3 ^^ in5 ^^ in7 in
    let out4 := tmp1 ^^ in4 in let out5 := tmp1 ^^ in3 in let out1 := out4 ^^ in2 in
    let out7 := out1 ^^ out3 ^^ in3 in let out2 := tmp0 ^^ out7 ^^ in5 in
    let tmp2 := out2 ^^ in0 in let out6 := tmp2 ^^ in6 in let out0 := tmp1 ^^ tmp2 in
    planes_xor (Planes out0 out1 out2 out3 out4 out5 out6 out7) in_ptr)].

(** gf8_muladd_40 to gf8_muladd_43. *)
Definition gf8_muladd_40_43 : list (list W -> list W -> list W) := [
  muladd_loop (fun out_ptr in_ptr =>
    let 'Planes in0 in1 in2 in3 in4 in5 in6 in7 := out_ptr in
    let out1 := in3 ^^ in7 in let tmp0 := in3 ^^ in4 in let tmp1 := in6 ^^ in7 in
    let out4 := tmp0 ^^ in2 in let out5 := tmp0 ^^ in5 in let out0 := tmp1 ^^ in2 in
    let out7 := tmp1 ^^ in1 ^^ in5 in let out2 := out0 ^^ in4 in
    let out3 := out2 ^^ out5 ^^ in7 in let out6 := out3 ^^ out4 ^^ in0 in
    planes_xor (Planes out0 out1 out2 out3 out4 out5 out6 out7) in_ptr);
  muladd_loop (fun out_ptr in_ptr =>
    let 'Planes in0 in1 in2 in3 in4 in5 in6 in7 := out_ptr in
    let out4 := in2 ^^ in3 in let tmp0 := in5 ^^ in6 in let tmp1 := in6 ^^ in7 in
    let out5 := in3 ^^ in4 in let out1 := in1 ^^ in3 ^^ in7 in let out6 := in0 ^^ in4 ^^ in5 in
    let out3 := tmp0 ^^ in2 in let out7 := tmp0 ^^ in1 in let out2 := tmp1 ^^ in4 in
    let out0 := tmp1 ^^ in0 ^^ in2 in
    planes_xor (Planes out0 out1 out2 out3 out4 out5 out6 out7) in_ptr);
  muladd_loop (fun out_ptr in_ptr =>
    let 'Planes in0 in1 in2 in3 in4 in5 in6 in7 := out_ptr in
    let out0 := in2 ^^ in6 in let out5 := in3 ^^ in5 in let out1 := in0 ^^ in3 ^^ in7 in
    let out7 := in1 ^^ in5 ^^ in7 in let out4 := in2 ^^ in4 ^^ in7 in
    let out6 := in0 ^^ in4 ^^ in6 in let out2 := out0 ^^ in1 ^^ in4 in
    let out3 := out5 ^^ in6 ^^ in7 in
    planes_xor (Planes out0 out1 out2 out3 out4 out5 out6 out7) in_ptr);
  muladd_loop (fun out_ptr in_ptr =>
    let 'Planes in0 in1 in2 in3 in4 in5 in6 in7 := out_ptr in
    let out5 := in3 in let out7 := in1 ^^ in5 in let out4 := in2 ^^ in7 in
    let out6 := in0 ^^ in4 in let out0 := in0 ^^ in2 ^^ in6 in let out3 := in5 ^^ in6 ^^ in7 in
    let out2 := in1 ^^ in4 ^^ in6 in let out1 := in0 ^^ in1 ^^ in3 ^^ in7 in
    planes_xor (Planes out0 out1 out2 out3 out4 out5 out6 out7) in_ptr)].

(** gf8_muladd_44 to gf8_muladd_47. *)
Definition gf8_muladd_44_47 : list (list W -> list W -> list W) := [
  muladd_loop (fun out_ptr in_ptr =>
    let 'Planes in0 in1 in2 in3 in4 in5 in6 in7 := out_ptr in
    let out1 := in3 in let out0 := in2 ^^ in7 in let tmp0 := in4 ^^ in7 in
    let out7 := in1 ^^ in6 ^^ in7 in let out6 := in0 ^^ in5 ^^ in6 in
    let out4 := tmp0 ^^ in3 ^^ in6 in let out3 := out0 ^^ in1 ^^ in3 ^^ in5 in
    let out2 := out0 ^^ in0 ^^ in4 in let out5 := tmp0 ^^ in5 in
    planes_xor (Planes out0 out1 out2 out3 out4 out5 out6 out7) in_ptr);
  muladd_loop (fun out_ptr in_ptr =>
    let 'Planes in0 in1 in2 in3 in4 in5 in6 in7 := out_ptr in
    let out1 := in1 ^^ in3 in let out7 := in1 ^^ in6 in let out5 := in4 ^^ in7 in
    let out6 := in0 ^^ in5 in let out0 := in0 ^^ in2 ^^ in7 in let out4 := in3 ^^ in6 ^^ in7 in
    let out2 := out5 ^^ in0 in let out3 := out0 ^^ out6 ^^ in1 in
    planes_xor (Planes out0 out1 out2 out3 out4 out5 out6 out7) in_ptr);
  muladd_loop (fun out_ptr in_ptr =>
    let 'Planes in0 in1 in2 in3 in4 in5 in6 in7 := out_ptr in
    let out0 := in2 in let out1 := in0 ^^ in3 in let out7 := in1 ^^ in7 in
    let out4 := in4 ^^ in6 in let out5 := in5 ^^ in7 in let out6 := in0 ^^ in6 in
    let out3 := in1 ^^ in3 ^^ in5 in let out2 := out4 ^^ out6 ^^ in1 ^^ in2 in
    planes_xor (Planes out0 out1 out2 out3 out4 out5 out6 out7) in_ptr);
  muladd_loop (fun out_ptr in_ptr =>
    let 'Planes in0 in1 in2 in3 in4 in5 in6 in7 := out_ptr in
    let out4 := in6 in let out7 := in1 in let out5 := in7 in let out6 := in0 in
    let tmp0 := in0 ^^ in1 in let out3 := in1 ^^ in5 in let out0 := in0 ^^ in2 in
    let out1 := tmp0 ^^ in3 in let out2 := tmp0 ^^ in4 in
    planes_xor (Planes out0 out1 out2 out3 out4 out5 out6 out7) in_ptr)].

(** gf8_muladd_48 to gf8_muladd_4B. *)
Definition gf8_muladd_48_4B : list (list W -> list W -> list W) := [
  muladd_loop (fun out_ptr in_ptr =>
    let 'Planes in0 in1 in2 in3 in4 in5 in6 in7 := out_ptr in
    let tmp0 := in2 ^^ in3 in let out1 := in3 ^^ in6 ^^ in7 in let out3 := tmp0 ^^ in0 in
    let out0 := tmp0 ^^ out1 ^^ in5 in let tmp1 := out0 ^^ in4 in let out2 := tmp1 ^^ in7 in
    let out5 := tmp1 ^^ in3 in let out4 := out5 ^^ in1 in let out7 := tmp0 ^^ out4 in
    let out6 := tmp1 ^^ out3 in
    planes_xor (Planes out0 out1 out2 out3 out4 out5 out6 out7) in_ptr);
  muladd_loop (fun out_ptr in_ptr =>
    let 'Planes in0 in1 in2 in3 in4 in5 in6 in7 := out_ptr in
    let out3 := in0 ^^ in2 in let tmp0 := in2 ^^ in5 in let out2 := in4 ^^ in5 ^^ in6 in
    let tmp1 := tmp0 ^^ out2 ^^ in3 in let out7 := out2 ^^ in1 in let out5 := tmp1 ^^ in7 in
    let out4 := out5 ^^ out7 ^^ in6 in let out1 := tmp0 ^^ out4 in
    let out6 := out1 ^^ out7 ^^ in0 in let out0 := tmp1 ^^ out6 in
    planes_xor (Planes out0 out1 out2 out3 out4 out5 out6 out7) in_ptr);
  muladd_loop (fun out_ptr in_ptr =>
    let 'Planes in0 in1 in2 in3 in4 in5 in6 in7 := out_ptr in
    let tmp0 := in2 ^^ in6 in let tmp1 := in3 ^^ in7 in let out0 := tmp0 ^^ in5 in
    let out3 := tmp1 ^^ in0 in let out5 := tmp1 ^^ out0 in let out4 := out0 ^^ in1 ^^ in4 in
    let out1 := out3 ^^ in6 in let out2 := out4 ^^ in7 in let out6 := out1 ^^ in4 in
    let out7 := tmp0 ^^ out2 in
    planes_xor (Planes out0 out1 out2 out3 out4 out5 out6 out7) in_ptr);
  muladd_loop (fun out_ptr in_ptr =>
    let 'Planes in0 in1 in2 in3 in4 in5 in6 in7 := out_ptr in
    let out3 := in0 ^^ in7 in let tmp0 := in1 ^^ in5 in let tmp1 := in2 ^^ in6 in
    let tmp2 := out3 ^^ in3 in let out7 := tmp0 ^^ in4 in let out4 := tmp0 ^^ tmp1 in
    let tmp3 := tmp1 ^^ in0 in let out6 := tmp2 ^^ in4 in let out5 := tmp2 ^^ tmp3 in
    let out1 := tmp2 ^^ in1 ^^ in6 in let out2 := out7 ^^ in6 ^^ in7 in let out0 := tmp3 ^^ in5 in
    planes_xor (Planes out0 out1 out2 out3 out4 out5 out6 out7) in_ptr)].

(** gf8_muladd_4C to gf8_muladd_4F. *)
Definition gf8_muladd_4C_4F : list (list W -> list W -> list W) := [
  muladd_loop (fun out_ptr in_ptr =>
    let 'Planes in0 in1 in2 in3 in4 in5 in6 in7 := out_ptr in
    let out1 := in3 ^^ in6 in let tmp0 := in2 ^^ in5 in let tmp1 := out1 ^^ in5 ^^ in7 in
    let out0 := tmp0 ^^ in7 in let tmp2 := tmp0 ^^ in4 in let out6 := tmp1 ^^ in0 in
    let out2 := tmp2 ^^ in0 in let out5 := tmp2 ^^ in6 in let out3 := tmp0 ^^ out6 ^^ in1 in
    let out7 := out0 ^^ out5 ^^ in1 in let out4 := tmp1 ^^ out7 in
    planes_xor (Planes out0 out1 out2 out3 out4 out5 out6 out7) in_ptr);
  muladd_loop (fun out_ptr in_ptr =>
    let 'Planes in0 in1 in2 in3 in4 in5 in6 in7 := out_ptr in
    let tmp0 := in0 ^^ in5 in let tmp1 := in1 ^^ in6 in let out4 := in1 ^^ in3 ^^ in5 in
    let tmp2 := tmp0 ^^ in7 in let out2 := tmp0 ^^ in4 in let out1 := tmp1 ^^ in3 in
    let out7 := tmp1 ^^ in4 in let out0 := tmp2 ^^ in2 in let out6 := tmp2 ^^ in3 in
    let out5 := out7 ^^ in1 ^^ in2 in let out3 := tmp1 ^^ out0 ^^ in5 in
    planes_xor (Planes out0 out1 out2 out3 out4 out5 out6 out7) in_ptr);
  muladd_loop (fun out_ptr in_ptr =>
    let 'Planes in0 in1 in2 in3 in4 in5 in6 in7 := out_ptr in
    let out0 := in2 ^^ in5 in let out7 := in1 ^^ in4 ^^ in7 in let out1 := in0 ^^ in3 ^^ in6 in
    let out5 := out0 ^^ in6 in let out4 := out7 ^^ in5 in let out3 := out1 ^^ in1 in
    let out6 := out1 ^^ in7 in let out2 := out4 ^^ in0 ^^ in2 in
    planes_xor (Planes out0 out1 out2 out3 out4 out5 out6 out7) in_ptr);
  muladd_loop (fun out_ptr in_ptr =>
    let 'Planes in0 in1 in2 in3 in4 in5 in6 in7 := out_ptr in
    let out5 := in2 ^^ in6 in let out7 := in1 ^^ in4 in let out3 := in0 ^^ in1 ^^ in6 in
    let out4 := in1 ^^ in5 ^^ in7 in let out0 := in0 ^^ in2 ^^ in5 in
    let out6 := in0 ^^ in3 ^^ in7 in let out1 := out3 ^^ in3 in let out2 := out4 ^^ in0 ^^ in4 in
    planes_xor (Planes out0 out1 out2 out3 out4 out5 out6 out7) in_ptr)].

(** gf8_muladd_50 to gf8_muladd_53. *)
Definition gf8_muladd_50_53 : list (list W -> list W -> list W) := [
  muladd_loop (fun out_ptr in_ptr =>
    let 'Planes in0 in1 in2 in3 in4 in5 in6 in7 := out_ptr in
    let out2 := in2 ^^ in7 in let tmp0 := in3 ^^ in5 in let out0 := out2 ^^ in4 ^^ in6 in
    let out1 := tmp0 ^^ in7 in let tmp1 := tmp0 ^^ in6 in let out3 := out0 ^^ in3 in
    let out7 := tmp1 ^^ in1 in let tmp2 := tmp1 ^^ in0 in let out5 := out3 ^^ in1 ^^ in2 in
    let out4 := tmp2 ^^ in2 in let out6 := tmp2 ^^ out3 in
    planes_xor (Planes out0 out1 out2 out3 out4 out5 out6 out7) in_ptr);
  muladd_loop (fun out_ptr in_ptr =>
    let 'Planes in0 in1 in2 in3 in4 in5 in6 in7 := out_ptr in
    let out2 := in7 in let out3 := in2 ^^ in4 ^^ in6 ^^ in7 in let out0 := out3 ^^ in0 in
    let out6 := out0 ^^ in5 in let out4 := out6 ^^ in3 ^^ in7 in
    let out1 := out0 ^^ out4 ^^ in1 in let out7 := out1 ^^ in6 in let out5 := out7 ^^ in4 in
    planes_xor (Planes out0 out1 out2 out3 out4 out5 out6 out7) in_ptr);
  muladd_loop (fun out_ptr in_ptr =>
    let 'Planes in0 in1 in2 in3 in4 in5 in6 in7 := out_ptr in
    let out2 := in1 ^^ in2 in let tmp0 := in2 ^^ in4 in let tmp1 := in3 ^^ in5 in
    let tmp2 := in3 ^^ in6 in let tmp3 := in0 ^^ in7 in let out0 := tmp0 ^^ in6 in
    let out6 := tmp0 ^^ tmp3 in let out7 := tmp1 ^^ in1 in let out1 := tmp1 ^^ tmp3 in
    let out3 := tmp2 ^^ in4 in let out5 := tmp2 ^^ in1 ^^ in7 in
    let out4 := tmp2 ^^ out1 ^^ in2 in
    planes_xor (Planes out0 out1 out2 out3 out4 out5 out6 out7) in_ptr);
  muladd_loop (fun out_ptr in_ptr =>
    let 'Planes in0 in1 in2 in3 in4 in5 in6 in7 := out_ptr in
    let out2 := in1 in let out3 := in4 ^^ in6 in let out0 := out3 ^^ in0 ^^ in2 in
    let out6 := out0 ^^ in7 in let out4 := out6 ^^ in5 in
    let out7 := out0 ^^ out4 ^^ in1 ^^ in3 in let out1 := out7 ^^ in0 in
    let out5 := out7 ^^ in6 in
    planes_xor (Planes out0 out1 out2 out3 out4 out5 out6 out7) in_ptr)].

(** gf8_muladd_54 to gf8_muladd_57. *)
Definition gf8_muladd_54_57 : list (list W -> list W -> list W) := [
  muladd_loop (fun out_ptr in_ptr =>
    let 'Planes in0 in1 in2 in3 in4 in5 in6 in7 := out_ptr in
    let out1 := in3 ^^ in5 in let tmp0 := in1 ^^ in3 in let tmp1 := in2 ^^ in4 in
    let tmp2 := in0 ^^ in7 in let out5 := in1 ^^ in4 ^^ in6 in let out4 := tmp2 ^^ out1 in
    let out7 := tmp0 ^^ in6 in let out3 := tmp0 ^^ tmp1 in let out0 := tmp1 ^^ in7 in
    let tmp3 := tmp2 ^^ in2 in let out2 := tmp3 ^^ in6 in let out6 := tmp3 ^^ in5 in
    planes_xor (Planes out0 out1 out2 out3 out4 out5 out6 out7) in_ptr);
  muladd_loop (fun out_ptr in_ptr =>
    let 'Planes in0 in1 in2 in3 in4 in5 in6 in7 := out_ptr in
    let tmp0 := in1 ^^ in3 in let tmp1 := in1 ^^ in4 in let tmp2 := in6 ^^ in7 in
    let out7 := tmp0 ^^ tmp2 in let out1 := tmp0 ^^ in5 in let out3 := tmp1 ^^ in2 in
    let out5 := tmp1 ^^ in5 ^^ in6 in let out2 := tmp2 ^^ in0 in
    let out4 := out5 ^^ out7 ^^ in0 in let out6 := out2 ^^ in2 ^^ in5 in
    let out0 := out5 ^^ out6 ^^ in1 in
    planes_xor (Planes out0 out1 out2 out3 out4 out5 out6 out7) in_ptr);
  muladd_loop (fun out_ptr in_ptr =>
    let 'Planes in0 in1 in2 in3 in4 in5 in6 in7 := out_ptr in
    let out0 := in2 ^^ in4 in let tmp0 := in0 ^^ in2 in let out4 := in0 ^^ in5 in
    let out7 := in1 ^^ in3 in let out5 := in1 ^^ in6 in let out6 := tmp0 ^^ in7 in
    let out2 := tmp0 ^^ out5 in let out1 := out4 ^^ in3 in let out3 := out7 ^^ in4 ^^ in7 in
    planes_xor (Planes out0 out1 out2 out3 out4 out5 out6 out7) in_ptr);
  muladd_loop (fun out_ptr in_ptr =>
    let 'Planes in0 in1 in2 in3 in4 in5 in6 in7 := out_ptr in
    let tmp0 := in0 ^^ in5 in let tmp1 := in1 ^^ in7 in let out0 := in0 ^^ in2 ^^ in4 in
    let out5 := in1 ^^ in5 ^^ in6 in let out4 := tmp0 ^^ in4 in let out1 := tmp0 ^^ in1 ^^ in3 in
    let out2 := tmp0 ^^ out5 in let out3 := tmp1 ^^ in4 in let out7 := tmp1 ^^ in3 in
    let out6 := tmp1 ^^ out2 ^^ in2 in
    planes_xor (Planes out0 out1 out2 out3 out4 out5 out6 out7) in_ptr)].

(** gf8_muladd_58 to gf8_muladd_5B. *)
Definition gf8_muladd_58_5B : list (list W -> list W -> list W) := [
  muladd_loop (fun out_ptr in_ptr =>
    let 'Planes in0 in1 in2 in3 in4 in5 in6 in7 := out_ptr in
    let out2 := in2 ^^ in5 in let tmp0 := in2 ^^ in3 ^^ in4 in let out5 := tmp0 ^^ in1 in
    let out6 := tmp0 ^^ in0 ^^ in5 in let out3 := out6 ^^ in7 in let tmp1 := out2 ^^ out5 in
    let out7 := tmp1 ^^ in6 in let out4 := tmp1 ^^ out3 ^^ in3 in
    let out0 := out4 ^^ out7 ^^ in0 in let out1 := tmp0 ^^ out0 in
    planes_xor (Planes out0 out1 out2 out3 out4 out5 out6 out7) in_ptr);
  muladd_loop (fun out_ptr in_ptr =>
    let 'Planes in0 in1 in2 in3 in4 in5 in6 in7 := out_ptr in
    let out2 := in5 in let tmp0 := in0 ^^ in5 ^^ in7 in let out3 := tmp0 ^^ in2 ^^ in4 in
    let out0 := out3 ^^ in6 in let tmp1 := out0 ^^ in7 in let out6 := tmp1 ^^ in3 in
    let out5 := out6 ^^ in0 ^^ in1 ^^ in6 in let out4 := tmp0 ^^ out5 in
    let out1 := tmp1 ^^ out4 in let out7 := out1 ^^ in4 in
    planes_xor (Planes out0 out1 out2 out3 out4 out5 out6 out7) in_ptr);
  muladd_loop (fun out_ptr in_ptr =>
    let 'Planes in0 in1 in2 in3 in4 in5 in6 in7 := out_ptr in
    let tmp0 := in1 ^^ in2 in let tmp1 := in2 ^^ in5 in let out5 := tmp0 ^^ in3 in
    let out4 := tmp0 ^^ in0 in let tmp2 := tmp1 ^^ in4 in let out2 := tmp1 ^^ in1 ^^ in7 in
    let out7 := tmp2 ^^ out5 in let out6 := out4 ^^ out7 ^^ in5 in let out0 := tmp2 ^^ in6 in
    let out1 := out0 ^^ out6 ^^ in7 in let out3 := tmp1 ^^ out6 in
    planes_xor (Planes out0 out1 out2 out3 out4 out5 out6 out7) in_ptr);
  muladd_loop (fun out_ptr in_ptr =>
    let 'Planes in0 in1 in2 in3 in4 in5 in6 in7 := out_ptr in
    let tmp0 := in2 ^^ in3 in let tmp1 := in0 ^^ in4 in let tmp2 := in1 ^^ in5 in
    let out5 := tmp0 ^^ tmp2 in let tmp3 := tmp1 ^^ in6 in let out3 := tmp1 ^^ in5 in
    let out2 := tmp2 ^^ in7 in let tmp4 := out3 ^^ in2 in let out7 := out2 ^^ in3 ^^ in4 in
    let out0 := tmp4 ^^ in6 in let out6 := tmp0 ^^ tmp3 in let out4 := tmp2 ^^ tmp4 in
    let out1 := tmp3 ^^ out7 in
    planes_xor (Planes out0 out1 out2 out3 out4 out5 out6 out7) in_ptr)].

(** gf8_muladd_5C to gf8_muladd_5F. *)
Definition gf8_muladd_5C_5F : list (list W -> list W -> list W) := [
  muladd_loop (fun out_ptr in_ptr =>
    let 'Planes in0 in1 in2 in3 in4 in5 in6 in7 := out_ptr in
    let tmp0 := in3 ^^ in6 in let tmp1 := in0 ^^ in2 ^^ in5 in let out1 := tmp0 ^^ in5 in
    let tmp2 := tmp0 ^^ in1 in let out2 := tmp1 ^^ in6 in let out6 := tmp1 ^^ in3 in
    let out4 := tmp2 ^^ in0 in let out7 := tmp2 ^^ in4 in let out3 := tmp1 ^^ out7 in
    let out0 := out3 ^^ out4 ^^ in7 in let out5 := out0 ^^ in1 ^^ in5 in
    planes_xor (Planes out0 out1 out2 out3 out4 out5 out6 out7) in_ptr);
  muladd_loop (fun out_ptr in_ptr =>
    let 'Planes in0 in1 in2 in3 in4 in5 in6 in7 := out_ptr in
    let tmp0 := in0 ^^ in1 in let tmp1 := in0 ^^ in6 in let out2 := tmp1 ^^ in5 in
    let tmp2 := out2 ^^ in3 in let out6 := tmp2 ^^ in2 in let out1 := tmp0 ^^ tmp2 in
    let tmp3 := out1 ^^ in4 ^^ in5 in let out4 := tmp3 ^^ in0 in let out7 := tmp3 ^^ in7 in
    let tmp4 := out4 ^^ out6 in let out5 := tmp4 ^^ in7 in let out0 := tmp0 ^^ out5 in
    let out3 := tmp1 ^^ tmp4 in
    planes_xor (Planes out0 out1 out2 out3 out4 out5 out6 out7) in_ptr);
  muladd_loop (fun out_ptr in_ptr =>
    let 'Planes in0 in1 in2 in3 in4 in5 in6 in7 := out_ptr in
    let tmp0 := in2 ^^ in5 in let tmp1 := in3 ^^ in5 in let tmp2 := in1 ^^ in7 in
    let out7 := in1 ^^ in3 ^^ in4 in let out0 := tmp0 ^^ in4 in let tmp3 := tmp1 ^^ in0 in
    let out5 := tmp2 ^^ in2 in let out1 := tmp3 ^^ in6 in let out6 := tmp0 ^^ tmp3 in
    let tmp4 := tmp2 ^^ out1 in let out3 := tmp4 ^^ in4 in let out4 := tmp1 ^^ tmp4 in
    let out2 := tmp0 ^^ out4 in
    planes_xor (Planes out0 out1 out2 out3 out4 out5 out6 out7) in_ptr);
  muladd_loop (fun out_ptr in_ptr =>
    let 'Planes in0 in1 in2 in3 in4 in5 in6 in7 := out_ptr in
    let tmp0 := in1 ^^ in5 in let tmp1 := in0 ^^ in6 in let tmp2 := tmp0 ^^ in7 in
    let tmp3 := tmp1 ^^ in3 in let out2 := tmp1 ^^ tmp2 in let out5 := tmp2 ^^ in2 in
    let out6 := tmp3 ^^ in2 in let out3 := out2 ^^ in4 in let out4 := out3 ^^ in5 in
    let out1 := tmp0 ^^ tmp3 in let out7 := tmp3 ^^ out4 in let out0 := out4 ^^ out5 ^^ in6 in
    planes_xor (Planes out0 out1 out2 out3 out4 out5 out6 out7) in_ptr)].

(** gf8_muladd_60 to gf8_muladd_63. *)
Definition gf8_muladd_60_63 : list (list W -> list W -> list W) := [
  muladd_loop (fun out_ptr in_ptr =>
    let 'Planes in0 in1 in2 in3 in4 in5 in6 in7 := out_ptr in
    let out4 := in2 ^^ in5 in let tmp0 := in3 ^^ in6 in let out1 := in3 ^^ in4 ^^ in7 in
    let out7 := out4 ^^ in1 in let tmp1 := out4 ^^ in4 in let out0 := tmp0 ^^ in2 in
    let out5 := tmp0 ^^ in0 in let out2 := tmp0 ^^ tmp1 in let out3 := tmp1 ^^ in7 in
    let out6 := out3 ^^ out7 ^^ in0 in
    planes_xor (Planes out0 out1 out2 out3 out4 out5 out6 out7) in_ptr);
  muladd_loop (fun out_ptr in_ptr =>
    let 'Planes in0 in1 in2 in3 in4 in5 in6 in7 := out_ptr in
    let tmp0 := in2 ^^ in5 in let out4 := tmp0 ^^ in4 in let tmp1 := out4 ^^ in3 in
    let out3 := tmp1 ^^ in7 in let out2 := tmp1 ^^ in2 ^^ in6 in
    let out1 := tmp0 ^^ out3 ^^ in1 in let out0 := out2 ^^ out4 ^^ in0 in
    let out7 := tmp1 ^^ out1 in let out6 := out0 ^^ out1 ^^ in2 in let out5 := tmp0 ^^ out0 in
    planes_xor (Planes out0 out1 out2 out3 out4 out5 out6 out7) in_ptr);
  muladd_loop (fun out_ptr in_ptr =>
    let 'Planes in0 in1 in2 in3 in4 in5 in6 in7 := out_ptr in
    let out3 := in4 ^^ in5 in let tmp0 := in0 ^^ in3 ^^ in4 in let out1 := tmp0 ^^ in7 in
    let out5 := tmp0 ^^ in6 in let tmp1 := out1 ^^ in0 in let tmp2 := tmp1 ^^ out3 in
    let out4 := tmp2 ^^ in2 in let tmp3 := tmp2 ^^ in1 in let out0 := out4 ^^ in5 ^^ in6 in
    let out7 := tmp3 ^^ out0 in let out6 := tmp0 ^^ tmp3 in let out2 := tmp1 ^^ out7 in
    planes_xor (Planes out0 out1 out2 out3 out4 out5 out6 out7) in_ptr);
  muladd_loop (fun out_ptr in_ptr =>
    let 'Planes in0 in1 in2 in3 in4 in5 in6 in7 := out_ptr in
    let tmp0 := in3 ^^ in4 in let tmp1 := in1 ^^ in7 in let out3 := tmp0 ^^ in5 in
    let tmp2 := out3 ^^ in6 in let out4 := out3 ^^ in2 ^^ in7 in let out5 := tmp2 ^^ in0 in
    let tmp3 := out5 ^^ in3 in let out0 := tmp3 ^^ out4 in let out2 := tmp1 ^^ tmp2 in
    let out6 := tmp1 ^^ tmp3 in let tmp4 := tmp0 ^^ out2 in let out1 := tmp4 ^^ out5 in
    let out7 := tmp4 ^^ in2 in
    planes_xor (Planes out0 out1 out2 out3 out4 out5 out6 out7) in_ptr)].

(** gf8_muladd_64 to gf8_muladd_67. *)
Definition gf8_muladd_64_67 : list (list W -> list W -> list W) := [
  muladd_loop (fun out_ptr in_ptr =>
    let 'Planes in0 in1 in2 in3 in4 in5 in6 in7 := out_ptr in
    let out0 := in2 ^^ in3 in let out1 := in3 ^^ in4 in let out7 := in1 ^^ in2 in
    let tmp0 := in4 ^^ in5 in let tmp1 := in0 ^^ in7 in let out4 := in5 ^^ in6 ^^ in7 in
    let out2 := tmp0 ^^ out0 ^^ in0 in let out3 := tmp0 ^^ out7 ^^ in6 in
    let out5 := tmp1 ^^ in6 in let out6 := tmp1 ^^ in1 in
    planes_xor (Planes out0 out1 out2 out3 out4 out5 out6 out7) in_ptr);
  muladd_loop (fun out_ptr in_ptr =>
    let 'Planes in0 in1 in2 in3 in4 in5 in6 in7 := out_ptr in
    let tmp0 := in0 ^^ in3 in let tmp1 := in4 ^^ in5 in let tmp2 := in6 ^^ in7 in
    let out7 := in1 ^^ in2 ^^ in7 in let out1 := in1 ^^ in3 ^^ in4 in let out0 := tmp0 ^^ in2 in
    let out2 := tmp0 ^^ tmp1 in let out4 := tmp1 ^^ tmp2 in let tmp3 := tmp2 ^^ in0 in
    let out3 := out4 ^^ out7 ^^ in3 in let out5 := tmp3 ^^ in5 in let out6 := tmp3 ^^ in1 in
    planes_xor (Planes out0 out1 out2 out3 out4 out5 out6 out7) in_ptr);
  muladd_loop (fun out_ptr in_ptr =>
    let 'Planes in0 in1 in2 in3 in4 in5 in6 in7 := out_ptr in
    let tmp0 := in1 ^^ in2 in let tmp1 := in2 ^^ in3 in let tmp2 := in0 ^^ in4 in
    let out7 := tmp0 ^^ in6 in let out0 := tmp1 ^^ in7 in let out1 := tmp2 ^^ in3 in
    let tmp3 := tmp2 ^^ in6 in let tmp4 := out1 ^^ in5 in let out5 := tmp3 ^^ in7 in
    let out4 := tmp3 ^^ tmp4 in let out2 := tmp0 ^^ tmp4 ^^ in7 in
    let out6 := tmp1 ^^ out2 ^^ in4 in let out3 := tmp3 ^^ out6 in
    planes_xor (Planes out0 out1 out2 out3 out4 out5 out6 out7) in_ptr);
  muladd_loop (fun out_ptr in_ptr =>
    let 'Planes in0 in1 in2 in3 in4 in5 in6 in7 := out_ptr in
    let tmp0 := in0 ^^ in3 in let tmp1 := tmp0 ^^ in1 in let tmp2 := tmp0 ^^ in7 in
    let out1 := tmp1 ^^ in4 in let out0 := tmp2 ^^ in2 in let tmp3 := out1 ^^ in7 in
    let out2 := tmp3 ^^ in5 in let out3 := out2 ^^ in0 ^^ in6 in
    let out7 := tmp1 ^^ out0 ^^ in6 in let out5 := tmp1 ^^ out3 in let out4 := tmp2 ^^ out5 in
    let out6 := tmp3 ^^ out4 in
    planes_xor (Planes out0 out1 out2 out3 out4 out5 out6 out7) in_ptr)].

(** gf8_muladd_68 to gf8_muladd_6B. *)
Definition gf8_muladd_68_6B : list (list W -> list W -> list W) := [
  muladd_loop (fun out_ptr in_ptr =>
    let 'Planes in0 in1 in2 in3 in4 in5 in6 in7 := out_ptr in
    let tmp0 := in3 ^^ in4 in let tmp1 := in2 ^^ in3 ^^ in5 in let tmp2 := tmp0 ^^ in1 in
    let tmp3 := tmp0 ^^ in6 in let out0 := tmp1 ^^ in6 in let out6 := tmp2 ^^ in0 in
    let out7 := tmp1 ^^ tmp2 in let out1 := tmp3 ^^ in7 in let out2 := out1 ^^ in2 in
    let out4 := tmp2 ^^ out2 in let out3 := out4 ^^ out6 ^^ in3 in let out5 := tmp3 ^^ out3 in
    planes_xor (Planes out0 out1 out2 out3 out4 out5 out6 out7) in_ptr);
  muladd_loop (fun out_ptr in_ptr =>
    let 'Planes in0 in1 in2 in3 in4 in5 in6 in7 := out_ptr in
    let tmp0 := in6 ^^ in7 in let out2 := tmp0 ^^ in3 ^^ in4 in let out1 := out2 ^^ in1 in
    let out3 := out2 ^^ in0 ^^ in2 in let out4 := out1 ^^ in2 ^^ in3 in
    let out6 := out1 ^^ in0 ^^ in7 in let out7 := out4 ^^ in5 ^^ in6 in
    let out5 := out4 ^^ out6 ^^ in5 in let out0 := tmp0 ^^ out5 in
    planes_xor (Planes out0 out1 out2 out3 out4 out5 out6 out7) in_ptr);
  muladd_loop (fun out_ptr in_ptr =>
    let 'Planes in0 in1 in2 in3 in4 in5 in6 in7 := out_ptr in
    let tmp0 := in2 ^^ in6 in let out3 := in0 ^^ in4 ^^ in6 in let tmp1 := tmp0 ^^ in3 in
    let out4 := tmp1 ^^ in1 in let tmp2 := tmp1 ^^ in7 in let out2 := out4 ^^ in4 in
    let out0 := tmp2 ^^ in5 in let out5 := tmp2 ^^ out3 in let out7 := out2 ^^ in3 ^^ in5 in
    let out1 := tmp0 ^^ out5 in let out6 := tmp1 ^^ out7 ^^ in0 in
    planes_xor (Planes out0 out1 out2 out3 out4 out5 out6 out7) in_ptr);
  muladd_loop (fun out_ptr in_ptr =>
    let 'Planes in0 in1 in2 in3 in4 in5 in6 in7 := out_ptr in
    let tmp0 := in4 ^^ in6 in let out2 := tmp0 ^^ in1 ^^ in3 in let out4 := out2 ^^ in2 in
    let tmp1 := out2 ^^ in0 in let out7 := out4 ^^ in3 ^^ in5 ^^ in7 in let out1 := tmp1 ^^ in7 in
    let out3 := tmp1 ^^ in1 in let out6 := tmp1 ^^ in5 in let out0 := tmp1 ^^ out7 ^^ in6 in
    let out5 := tmp0 ^^ out0 in
    planes_xor (Planes out0 out1 out2 out3 out4 out5 out6 out7) in_ptr)].

(** gf8_muladd_6C to gf8_muladd_6F. *)
Definition gf8_muladd_6C_6F : list (list W -> list W -> list W) := [
  muladd_loop (fun out_ptr in_ptr =>
    let 'Planes in0 in1 in2 in3 in4 in5 in6 in7 := out_ptr in
    let out4 := in1 in let tmp0 := in2 ^^ in3 in let out5 := in0 ^^ in2 in
    let out1 := in3 ^^ in4 ^^ in6 in let tmp1 := out5 ^^ in1 in let out0 := tmp0 ^^ in5 in
    let out6 := tmp0 ^^ tmp1 in let out3 := tmp1 ^^ in4 in let out7 := out3 ^^ in0 in
    let out2 := out6 ^^ out7 ^^ in7 in
    planes_xor (Planes out0 out1 out2 out3 out4 out5 out6 out7) in_ptr);
  muladd_loop (fun out_ptr in_ptr =>
    let 'Planes in0 in1 in2 in3 in4 in5 in6 in7 := out_ptr in
    let out4 := in1 ^^ in4 in let tmp0 := in0 ^^ in2 in let tmp1 := out4 ^^ in3 in
    let out7 := out4 ^^ in2 ^^ in7 in let out5 := tmp0 ^^ in5 in let out3 := tmp0 ^^ tmp1 in
    let out1 := tmp1 ^^ in6 in let out0 := out5 ^^ in3 in let out2 := out3 ^^ out7 ^^ in4 in
    let out6 := out1 ^^ in0 ^^ in4 in
    planes_xor (Planes out0 out1 out2 out3 out4 out5 out6 out7) in_ptr);
  muladd_loop (fun out_ptr in_ptr =>
    let 'Planes in0 in1 in2 in3 in4 in5 in6 in7 := out_ptr in
    let tmp0 := in1 ^^ in3 in let tmp1 := in0 ^^ in4 in let out4 := tmp0 ^^ in7 in
    let out6 := tmp0 ^^ in0 ^^ in5 in let out5 := tmp1 ^^ in2 in let tmp2 := tmp1 ^^ in3 in
    let out3 := tmp2 ^^ out4 in let out1 := tmp2 ^^ in6 in let out2 := tmp0 ^^ out5 in
    let out0 := out2 ^^ out3 ^^ in5 in let out7 := out1 ^^ out2 ^^ in4 in
    planes_xor (Planes out0 out1 out2 out3 out4 out5 out6 out7) in_ptr);
  muladd_loop (fun out_ptr in_ptr =>
    let 'Planes in0 in1 in2 in3 in4 in5 in6 in7 := out_ptr in
    let tmp0 := in3 ^^ in7 in let tmp1 := tmp0 ^^ in4 in let tmp2 := tmp0 ^^ in0 ^^ in2 in
    let out4 := tmp1 ^^ in1 in let out0 := tmp2 ^^ in5 in let out3 := out4 ^^ in0 in
    let out2 := out3 ^^ in7 in let out1 := out2 ^^ in6 in let out6 := out1 ^^ in4 ^^ in5 in
    let out7 := tmp2 ^^ out1 in let out5 := tmp1 ^^ out0 in
    planes_xor (Planes out0 out1 out2 out3 out4 out5 out6 out7) in_ptr)].

(** gf8_muladd_70 to gf8_muladd_73. *)
Definition gf8_muladd_70_73 : list (list W -> list W -> list W) := [
  muladd_loop (fun out_ptr in_ptr =>
    let 'Planes in0 in1 in2 in3 in4 in5 in6 in7 := out_ptr in
    let out3 := in2 in let tmp0 := in2 ^^ in4 in let out2 := in2 ^^ in3 ^^ in5 in
    let tmp1 := tmp0 ^^ in6 in let tmp2 := out2 ^^ in7 in let out0 := tmp1 ^^ in3 in
    let out4 := tmp1 ^^ in0 in let out7 := tmp2 ^^ in1 in let out6 := out4 ^^ in1 in
    let out5 := out7 ^^ in0 ^^ in2 in let out1 := tmp0 ^^ tmp2 in
    planes_xor (Planes out0 out1 out2 out3 out4 out5 out6 out7) in_ptr);
  muladd_loop (fun out_ptr in_ptr =>
    let 'Planes in0 in1 in2 in3 in4 in5 in6 in7 := out_ptr in
    let out2 := in3 ^^ in5 in let out3 := in2 ^^ in3 in let tmp0 := in0 ^^ in2 in
    let tmp1 := out2 ^^ in1 in let out4 := tmp0 ^^ in6 in let tmp2 := tmp0 ^^ in1 in
    let out7 := tmp1 ^^ in2 in let out1 := tmp1 ^^ in4 ^^ in7 in let out0 := out4 ^^ in3 ^^ in4 in
    let out6 := tmp2 ^^ in4 in let out5 := tmp2 ^^ out3 ^^ in7 in
    planes_xor (Planes out0 out1 out2 out3 out4 out5 out6 out7) in_ptr);
  muladd_loop (fun out_ptr in_ptr =>
    let 'Planes in0 in1 in2 in3 in4 in5 in6 in7 := out_ptr in
    let out3 := in7 in let tmp0 := in0 ^^ in4 in let tmp1 := tmp0 ^^ in3 ^^ in7 in
    let out1 := tmp1 ^^ in5 in let out5 := out1 ^^ in1 in let tmp2 := tmp0 ^^ out5 in
    let out2 := tmp2 ^^ in2 in let out7 := out2 ^^ in6 in let out6 := tmp1 ^^ out7 in
    let out4 := tmp2 ^^ out6 in let out0 := out4 ^^ in0 in
    planes_xor (Planes out0 out1 out2 out3 out4 out5 out6 out7) in_ptr);
  muladd_loop (fun out_ptr in_ptr =>
    let 'Planes in0 in1 in2 in3 in4 in5 in6 in7 := out_ptr in
    let out3 := in3 ^^ in7 in let out2 := out3 ^^ in1 ^^ in5 in let out1 := out2 ^^ in0 ^^ in4 in
    let out5 := out1 ^^ in5 in let out6 := out1 ^^ out3 ^^ in2 in
    let out0 := out2 ^^ out6 ^^ in6 in let out7 := out0 ^^ out1 ^^ in3 in
    let out4 := out0 ^^ in4 in
    planes_xor (Planes out0 out1 out2 out3 out4 out5 out6 out7) in_ptr)].

(** gf8_muladd_74 to gf8_muladd_77. *)
Definition gf8_muladd_74_77 : list (list W -> list W -> list W) := [
  muladd_loop (fun out_ptr in_ptr =>
    let 'Planes in0 in1 in2 in3 in4 in5 in6 in7 := out_ptr in
    let tmp0 := in3 ^^ in4 in let tmp1 := in1 ^^ in2 ^^ in6 in let out4 := in0 ^^ in4 ^^ in7 in
    let out5 := in0 ^^ in1 ^^ in5 in let out0 := tmp0 ^^ in2 in let out1 := tmp0 ^^ in5 in
    let out3 := tmp1 ^^ in7 in let out6 := tmp1 ^^ in0 in let out2 := tmp1 ^^ out5 ^^ in3 in
    let out7 := out3 ^^ in3 ^^ in6 in
    planes_xor (Planes out0 out1 out2 out3 out4 out5 out6 out7) in_ptr);
  muladd_loop (fun out_ptr in_ptr =>
    let 'Planes in0 in1 in2 in3 in4 in5 in6 in7 := out_ptr in
    let out4 := in0 ^^ in7 in let tmp0 := in1 ^^ in3 in let out5 := in0 ^^ in1 in
    let out7 := tmp0 ^^ in2 in let tmp1 := tmp0 ^^ in4 in let out6 := out5 ^^ in2 in
    let tmp2 := out7 ^^ in6 in let out1 := tmp1 ^^ in5 in let out0 := tmp1 ^^ out6 in
    let out3 := tmp2 ^^ in7 in let out2 := tmp2 ^^ out6 ^^ in5 in
    planes_xor (Planes out0 out1 out2 out3 out4 out5 out6 out7) in_ptr);
  muladd_loop (fun out_ptr in_ptr =>
    let 'Planes in0 in1 in2 in3 in4 in5 in6 in7 := out_ptr in
    let out3 := in1 ^^ in6 in let tmp0 := in0 ^^ in5 in let tmp1 := in3 ^^ in7 in
    let tmp2 := tmp0 ^^ in4 in let tmp3 := tmp1 ^^ in2 in let out5 := tmp2 ^^ in1 in
    let out1 := tmp2 ^^ in3 in let out0 := tmp3 ^^ in4 in let out4 := out1 ^^ in5 in
    let out7 := tmp3 ^^ out3 in let out2 := tmp0 ^^ out7 in let out6 := tmp1 ^^ out2 in
    planes_xor (Planes out0 out1 out2 out3 out4 out5 out6 out7) in_ptr);
  muladd_loop (fun out_ptr in_ptr =>
    let 'Planes in0 in1 in2 in3 in4 in5 in6 in7 := out_ptr in
    let out4 := in0 ^^ in3 in let tmp0 := in1 ^^ in4 in let tmp1 := in1 ^^ in6 in
    let tmp2 := out4 ^^ in5 in let out5 := tmp0 ^^ in0 in let out1 := tmp0 ^^ tmp2 in
    let out3 := tmp1 ^^ in3 in let out2 := tmp1 ^^ tmp2 ^^ in7 in let out7 := out3 ^^ in2 in
    let tmp3 := out7 ^^ in6 in let out6 := tmp2 ^^ tmp3 in let out0 := tmp3 ^^ out5 ^^ in7 in
    planes_xor (Planes out0 out1 out2 out3 out4 out5 out6 out7) in_ptr)].

(** gf8_muladd_78 to gf8_muladd_7B. *)
Definition gf8_muladd_78_7B : list (list W -> list W -> list W) := [
  muladd_loop (fun out_ptr in_ptr =>
    let 'Planes in0 in1 in2 in3 in4 in5 in6 in7 := out_ptr in
    let tmp0 := in0 ^^ in3 in let tmp1 := in2 ^^ in7 in let tmp2 := in0 ^^ in5 ^^ in6 in
    let out2 := tmp1 ^^ in3 in let out3 := tmp2 ^^ in2 in let out5 := out3 ^^ in1 ^^ in3 in
    let out0 := tmp0 ^^ out3 ^^ in4 in let out1 := tmp1 ^^ out0 in
    let out4 := out1 ^^ out5 ^^ in5 in let out7 := tmp0 ^^ out4 in let out6 := tmp2 ^^ out7 in
    planes_xor (Planes out0 out1 out2 out3 out4 out5 out6 out7) in_ptr);
  muladd_loop (fun out_ptr in_ptr =>
    let 'Planes in0 in1 in2 in3 in4 in5 in6 in7 := out_ptr in
    let out2 := in3 ^^ in7 in let tmp0 := in3 ^^ in4 in let tmp1 := in1 ^^ in5 in
    let tmp2 := tmp1 ^^ in2 in let out4 := tmp2 ^^ in0 ^^ in7 in let tmp3 := out4 ^^ in5 in
    let out5 := tmp3 ^^ out2 ^^ in6 in let out7 := tmp0 ^^ tmp2 in let out6 := tmp0 ^^ tmp3 in
    let out3 := tmp1 ^^ out5 in let out0 := out3 ^^ in4 in let out1 := tmp3 ^^ out0 in
    planes_xor (Planes out0 out1 out2 out3 out4 out5 out6 out7) in_ptr);
  muladd_loop (fun out_ptr in_ptr =>
    let 'Planes in0 in1 in2 in3 in4 in5 in6 in7 := out_ptr in
    let tmp0 := in1 ^^ in2 in let out2 := tmp0 ^^ in3 in let tmp1 := out2 ^^ in4 in
    let out4 := tmp1 ^^ in0 ^^ in5 in let out5 := out4 ^^ in6 in let out6 := out5 ^^ in7 in
    let out7 := out6 ^^ in0 in let out0 := out7 ^^ in1 in let out1 := tmp0 ^^ out6 in
    let out3 := tmp1 ^^ out6 in
    planes_xor (Planes out0 out1 out2 out3 out4 out5 out6 out7) in_ptr);
  muladd_loop (fun out_ptr in_ptr =>
    let 'Planes in0 in1 in2 in3 in4 in5 in6 in7 := out_ptr in
    let out2 := in1 ^^ in3 in let tmp0 := in0 ^^ in5 in let out4 := tmp0 ^^ out2 ^^ in2 in
    let tmp1 := out4 ^^ in4 in let out6 := tmp1 ^^ in7 in let out5 := tmp1 ^^ in5 ^^ in6 in
    let out0 := out6 ^^ in1 ^^ in6 in let tmp2 := out0 ^^ in2 in let out1 := tmp2 ^^ in1 in
    let out3 := tmp2 ^^ in4 in let out7 := tmp0 ^^ out5 in
    planes_xor (Planes out0 out1 out2 out3 out4 out5 out6 out7) in_ptr)].

(** gf8_muladd_7C to gf8_muladd_7F. *)
Definition gf8_muladd_7C_7F : list (list W -> list W -> list W) := [
  muladd_loop (fun out_ptr in_ptr =>
    let 'Planes in0 in1 in2 in3 in4 in5 in6 in7 := out_ptr in
    let tmp0 := in3 ^^ in5 in let tmp1 := tmp0 ^^ in4 in let out0 := tmp1 ^^ in2 in
    let out1 := tmp1 ^^ in6 in let out7 := out0 ^^ in1 ^^ in5 ^^ in7 in
    let out5 := out1 ^^ out7 ^^ in0 in let out3 := out5 ^^ in6 in let out6 := tmp0 ^^ out5 in
    let out2 := out6 ^^ in1 in let out4 := out2 ^^ out7 ^^ in5 in
    planes_xor (Planes out0 out1 out2 out3 out4 out5 out6 out7) in_ptr);
  muladd_loop (fun out_ptr in_ptr =>
    let 'Planes in0 in1 in2 in3 in4 in5 in6 in7 := out_ptr in
    let tmp0 := in1 ^^ in2 in let tmp1 := tmp0 ^^ in3 in let tmp2 := tmp0 ^^ in6 in
    let out7 := tmp1 ^^ in4 in let tmp3 := tmp2 ^^ in0 in let out5 := tmp3 ^^ in7 in
    let out4 := tmp3 ^^ in2 ^^ in5 in let out2 := tmp1 ^^ out5 in let out6 := tmp2 ^^ out2 in
    let out0 := out4 ^^ out7 ^^ in6 in let out1 := tmp3 ^^ out0 in let out3 := out6 ^^ in5 in
    planes_xor (Planes out0 out1 out2 out3 out4 out5 out6 out7) in_ptr);
  muladd_loop (fun out_ptr in_ptr =>
    let 'Planes in0 in1 in2 in3 in4 in5 in6 in7 := out_ptr in
    let tmp0 := in3 ^^ in4 in let tmp1 := in0 ^^ in5 in let out1 := tmp0 ^^ tmp1 ^^ in6 in
    let out3 := tmp1 ^^ in1 in let out4 := out1 ^^ in1 ^^ in7 in let tmp2 := out4 ^^ in3 in
    let out5 := tmp2 ^^ in2 in let out6 := tmp0 ^^ out5 in let out7 := tmp1 ^^ out4 ^^ in2 in
    let out2 := out6 ^^ in5 ^^ in7 in let out0 := tmp2 ^^ out2 in
    planes_xor (Planes out0 out1 out2 out3 out4 out5 out6 out7) in_ptr);
  muladd_loop (fun out_ptr in_ptr =>
    let 'Planes in0 in1 in2 in3 in4 in5 in6 in7 := out_ptr in
    let tmp0 := in2 ^^ in7 in let tmp1 := tmp0 ^^ in3 ^^ in5 in let tmp2 := tmp1 ^^ in0 in
    let out0 := tmp2 ^^ in4 in let out6 := tmp2 ^^ in1 in let out3 := tmp0 ^^ out6 in
    let tmp3 := out3 ^^ in6 in let out1 := tmp3 ^^ in4 in let out2 := tmp3 ^^ in5 in
    let out4 := tmp3 ^^ in7 in let out5 := tmp1 ^^ out1 in let out7 := out0 ^^ out4 ^^ in3 in
    planes_xor (Planes out0 out1 out2 out3 out4 out5 out6 out7) in_ptr)].

(** gf8_muladd_80 to gf8_muladd_83. *)
Definition gf8_muladd_80_83 : list (list W -> list W -> list W) := [
  muladd_loop (fun out_ptr in_ptr =>
    let 'Planes in0 in1 in2 in3 in4 in5 in6 in7 := out_ptr in
    let tmp0 := in2 ^^ in3 in let tmp1 := in4 ^^ in5 in let out1 := in2 ^^ in6 ^^ in7 in
    let out5 := tmp0 ^^ in4 in let tmp2 := tmp0 ^^ in1 in let out6 := tmp1 ^^ in3 in
    let out7 := tmp1 ^^ in0 ^^ in6 in let out4 := tmp2 ^^ in7 in let out3 := tmp2 ^^ out6 in
    let out2 := out3 ^^ out5 ^^ in6 in let out0 := out2 ^^ in3 ^^ in7 in
    planes_xor (Planes out0 out1 out2 out3 out4 out5 out6 out7) in_ptr);
  muladd_loop (fun out_ptr in_ptr =>
    let 'Planes in0 in1 in2 in3 in4 in5 in6 in7 := out_ptr in
    let tmp0 := in4 ^^ in6 in let tmp1 := tmp0 ^^ in3 in let out6 := tmp1 ^^ in5 in
    let out5 := out6 ^^ in2 ^^ in6 in let out3 := out5 ^^ in1 in let out2 := tmp0 ^^ out3 in
    let out1 := out3 ^^ out6 ^^ in7 in let out4 := tmp1 ^^ out1 in
    let out7 := out2 ^^ out4 ^^ in0 in let out0 := out7 ^^ in1 ^^ in4 in
    planes_xor (Planes out0 out1 out2 out3 out4 out5 out6 out7) in_ptr);
  muladd_loop (fun out_ptr in_ptr =>
    let 'Planes in0 in1 in2 in3 in4 in5 in6 in7 := out_ptr in
    let out4 := in1 ^^ in2 in let tmp0 := in6 ^^ in7 in let out5 := in2 ^^ in3 in
    let out6 := in3 ^^ in4 in let out7 := in0 ^^ in4 ^^ in5 in let out0 := in1 ^^ in5 ^^ in6 in
    let out1 := tmp0 ^^ in0 ^^ in2 in let out2 := tmp0 ^^ in3 ^^ in5 in
    let out3 := tmp0 ^^ out0 ^^ in4 in
    planes_xor (Planes out0 out1 out2 out3 out4 out5 out6 out7) in_ptr);
  muladd_loop (fun out_ptr in_ptr =>
    let 'Planes in0 in1 in2 in3 in4 in5 in6 in7 := out_ptr in
    let tmp0 := in0 ^^ in1 in let tmp1 := in2 ^^ in5 in let tmp2 := in3 ^^ in6 in
    let out4 := in1 ^^ in2 ^^ in4 in let out0 := tmp0 ^^ in5 ^^ in6 in let out5 := tmp1 ^^ in3 in
    let tmp3 := tmp1 ^^ in7 in let out6 := tmp2 ^^ in4 in let out2 := tmp2 ^^ tmp3 in
    let tmp4 := tmp3 ^^ out4 in let out1 := tmp3 ^^ out0 in let out3 := tmp4 ^^ in3 in
    let out7 := tmp0 ^^ tmp4 in
    planes_xor (Planes out0 out1 out2 out3 out4 out5 out6 out7) in_ptr)].

(** gf8_muladd_84 to gf8_muladd_87. *)
Definition gf8_muladd_84_87 : list (list W -> list W -> list W) := [
  muladd_loop (fun out_ptr in_ptr =>
    let 'Planes in0 in1 in2 in3 in4 in5 in6 in7 := out_ptr in
    let out1 := in2 ^^ in6 in let out6 := in3 ^^ in5 in let out0 := in1 ^^ in5 ^^ in7 in
    let out7 := in0 ^^ in4 ^^ in6 in let out4 := in1 ^^ in3 ^^ in6 in
    let out5 := in2 ^^ in4 ^^ in7 in let out2 := out6 ^^ in0 ^^ in1 in
    let out3 := out5 ^^ in5 ^^ in6 in
    planes_xor (Planes out0 out1 out2 out3 out4 out5 out6 out7) in_ptr);
  muladd_loop (fun out_ptr in_ptr =>
    let 'Planes in0 in1 in2 in3 in4 in5 in6 in7 := out_ptr in
    let tmp0 := in1 ^^ in6 in let tmp1 := in3 ^^ in6 in let tmp2 := tmp0 ^^ in4 in
    let out1 := tmp0 ^^ in2 in let out6 := tmp1 ^^ in5 in let out4 := tmp2 ^^ in3 in
    let tmp3 := out1 ^^ out6 in let out2 := tmp3 ^^ in0 in let out3 := tmp2 ^^ tmp3 ^^ in7 in
    let out7 := out2 ^^ out3 ^^ in1 in let out5 := tmp1 ^^ out3 in
    let out0 := tmp2 ^^ out7 ^^ in5 in
    planes_xor (Planes out0 out1 out2 out3 out4 out5 out6 out7) in_ptr);
  muladd_loop (fun out_ptr in_ptr =>
    let 'Planes in0 in1 in2 in3 in4 in5 in6 in7 := out_ptr in
    let out6 := in3 in let out7 := in0 ^^ in4 in let out0 := in1 ^^ in5 in
    let out5 := in2 ^^ in7 in let out3 := in4 ^^ in5 ^^ in6 in let out1 := in0 ^^ in2 ^^ in6 in
    let out4 := in1 ^^ in6 ^^ in7 in let out2 := in0 ^^ in3 ^^ in5 ^^ in7 in
    planes_xor (Planes out0 out1 out2 out3 out4 out5 out6 out7) in_ptr);
  muladd_loop (fun out_ptr in_ptr =>
    let 'Planes in0 in1 in2 in3 in4 in5 in6 in7 := out_ptr in
    let out6 := in3 ^^ in6 in let tmp0 := in0 ^^ in1 in let out7 := in0 ^^ in4 ^^ in7 in
    let out5 := in2 ^^ in5 ^^ in7 in let out3 := out6 ^^ in4 ^^ in5 in let out0 := tmp0 ^^ in5 in
    let tmp1 := tmp0 ^^ in6 in let out2 := out5 ^^ in0 ^^ in3 in let out1 := tmp1 ^^ in2 in
    let out4 := tmp1 ^^ out7 in
    planes_xor (Planes out0 out1 out2 out3 out4 out5 out6 out7) in_ptr)].

(** gf8_muladd_88 to gf8_muladd_8B. *)
Definition gf8_muladd_88_8B : list (list W -> list W -> list W) := [
  muladd_loop (fun out_ptr in_ptr =>
    let 'Planes in0 in1 in2 in3 in4 in5 in6 in7 := out_ptr in
    let out1 := in2 ^^ in7 in let tmp0 := in5 ^^ in6 in let out0 := in1 ^^ in6 ^^ in7 in
    let out6 := in4 ^^ in5 ^^ in7 in let out3 := out0 ^^ out1 ^^ in0 ^^ in4 in
    let out7 := tmp0 ^^ in0 in let tmp1 := tmp0 ^^ in3 in let out2 := out0 ^^ in3 in
    let out4 := tmp1 ^^ in2 in let out5 := tmp1 ^^ out6 in
    planes_xor (Planes out0 out1 out2 out3 out4 out5 out6 out7) in_ptr);
  muladd_loop (fun out_ptr in_ptr =>
    let 'Planes in0 in1 in2 in3 in4 in5 in6 in7 := out_ptr in
    let tmp0 := in0 ^^ in7 in let tmp1 := in2 ^^ in7 in let tmp2 := tmp0 ^^ in6 in
    let out1 := tmp1 ^^ in1 in let out7 := tmp2 ^^ in5 in let out0 := tmp2 ^^ in1 in
    let out2 := out1 ^^ in3 ^^ in6 in let out6 := out7 ^^ in0 ^^ in4 in let out5 := out6 ^^ in3 in
    let out3 := tmp0 ^^ out2 ^^ in4 in let out4 := tmp1 ^^ out5 in
    planes_xor (Planes out0 out1 out2 out3 out4 out5 out6 out7) in_ptr);
  muladd_loop (fun out_ptr in_ptr =>
    let 'Planes in0 in1 in2 in3 in4 in5 in6 in7 := out_ptr in
    let out0 := in1 ^^ in6 in let out7 := in0 ^^ in5 in let out2 := in3 ^^ in6 in
    let out6 := in4 ^^ in7 in let out1 := in0 ^^ in2 ^^ in7 in let out3 := out0 ^^ out6 ^^ in0 in
    let out4 := out1 ^^ out7 ^^ in6 in let out5 := out2 ^^ in7 in
    planes_xor (Planes out0 out1 out2 out3 out4 out5 out6 out7) in_ptr);
  muladd_loop (fun out_ptr in_ptr =>
    let 'Planes in0 in1 in2 in3 in4 in5 in6 in7 := out_ptr in
    let tmp0 := in0 ^^ in1 in let tmp1 := in3 ^^ in6 in let tmp2 := in5 ^^ in7 in
    let tmp3 := tmp0 ^^ in7 in let out0 := tmp0 ^^ in6 in let out2 := tmp1 ^^ in2 in
    let out5 := tmp1 ^^ tmp2 in let out7 := tmp2 ^^ in0 in let tmp4 := tmp3 ^^ in4 in
    let out1 := tmp3 ^^ in2 in let out6 := tmp4 ^^ out0 in let out4 := out6 ^^ in2 ^^ in5 in
    let out3 := tmp1 ^^ tmp4 in
    planes_xor (Planes out0 out1 out2 out3 out4 out5 out6 out7) in_ptr)].

(** gf8_muladd_8C to gf8_muladd_8F. *)
Definition gf8_muladd_8C_8F : list (list W -> list W -> list W) := [
  muladd_loop (fun out_ptr in_ptr =>
    let 'Planes in0 in1 in2 in3 in4 in5 in6 in7 := out_ptr in
    let out1 := in2 in let out0 := in1 ^^ in7 in let out7 := in0 ^^ in6 in
    let out5 := in4 ^^ in6 in let out6 := in5 ^^ in7 in let out2 := out0 ^^ in0 ^^ in3 in
    let out3 := out5 ^^ out7 ^^ in2 ^^ in7 in let out4 := out6 ^^ in3 in
    planes_xor (Planes out0 out1 out2 out3 out4 out5 out6 out7) in_ptr);
  muladd_loop (fun out_ptr in_ptr =>
    let 'Planes in0 in1 in2 in3 in4 in5 in6 in7 := out_ptr in
    let out1 := in1 ^^ in2 in let tmp0 := in6 ^^ in7 in let out0 := in0 ^^ in1 ^^ in7 in
    let out5 := in4 ^^ in5 ^^ in6 in let out6 := tmp0 ^^ in5 in let out7 := tmp0 ^^ in0 in
    let out4 := tmp0 ^^ out5 ^^ in3 in let out2 := out0 ^^ in2 ^^ in3 in
    let out3 := out2 ^^ in1 ^^ in4 in
    planes_xor (Planes out0 out1 out2 out3 out4 out5 out6 out7) in_ptr);
  muladd_loop (fun out_ptr in_ptr =>
    let 'Planes in0 in1 in2 in3 in4 in5 in6 in7 := out_ptr in
    let out0 := in1 in let out4 := in5 in let out7 := in0 in let out5 := in6 in let out6 := in7 in
    let out3 := in0 ^^ in4 in let out1 := in0 ^^ in2 in let out2 := in0 ^^ in3 in
    planes_xor (Planes out0 out1 out2 out3 out4 out5 out6 out7) in_ptr);
  muladd_loop (fun out_ptr in_ptr =>
    let 'Planes in0 in1 in2 in3 in4 in5 in6 in7 := out_ptr in
    let out0 := in0 ^^ in1 in let tmp0 := in0 ^^ in3 in let out4 := in4 ^^ in5 in
    let out7 := in0 ^^ in7 in let out5 := in5 ^^ in6 in let out6 := in6 ^^ in7 in
    let out1 := out0 ^^ in2 in let out2 := tmp0 ^^ in2 in let out3 := tmp0 ^^ in4 in
    planes_xor (Planes out0 out1 out2 out3 out4 out5 out6 out7) in_ptr)].

(** gf8_muladd_90 to gf8_muladd_93. *)
Definition gf8_muladd_90_93 : list (list W -> list W -> list W) := [
  muladd_loop (fun out_ptr in_ptr =>
    let 'Planes in0 in1 in2 in3 in4 in5 in6 in7 := out_ptr in
    let tmp0 := in1 ^^ in2 in let tmp1 := in2 ^^ in6 ^^ in7 in let out3 := tmp0 ^^ in7 in
    let out1 := tmp1 ^^ in5 in let tmp2 := out1 ^^ in4 in let out6 := tmp2 ^^ in3 in
    let out5 := out6 ^^ in1 in let out4 := out5 ^^ in0 in let out0 := tmp0 ^^ tmp2 in
    let out7 := tmp0 ^^ out4 in let out2 := tmp1 ^^ out5 in
    planes_xor (Planes out0 out1 out2 out3 out4 out5 out6 out7) in_ptr);
  muladd_loop (fun out_ptr in_ptr =>
    let 'Planes in0 in1 in2 in3 in4 in5 in6 in7 := out_ptr in
    let tmp0 := in2 ^^ in4 in let tmp1 := tmp0 ^^ in3 ^^ in5 in let out2 := tmp1 ^^ in1 in
    let out6 := tmp1 ^^ in7 in let tmp2 := out2 ^^ in5 ^^ in7 in let out3 := tmp2 ^^ in4 in
    let out5 := tmp2 ^^ in6 in let out1 := tmp1 ^^ out5 ^^ in2 in let tmp3 := out1 ^^ in0 in
    let out4 := tmp3 ^^ in3 in let out0 := tmp0 ^^ tmp3 in let out7 := tmp2 ^^ tmp3 in
    planes_xor (Planes out0 out1 out2 out3 out4 out5 out6 out7) in_ptr);
  muladd_loop (fun out_ptr in_ptr =>
    let 'Planes in0 in1 in2 in3 in4 in5 in6 in7 := out_ptr in
    let out3 := in1 in let tmp0 := in4 ^^ in5 in let tmp1 := tmp0 ^^ in1 in
    let out2 := tmp0 ^^ in3 ^^ in7 in let out0 := tmp1 ^^ in6 in let out7 := out2 ^^ in0 in
    let out4 := out0 ^^ in0 ^^ in2 in let out5 := out4 ^^ out7 ^^ in5 in
    let out6 := tmp1 ^^ out5 in let out1 := out6 ^^ out7 ^^ in7 in
    planes_xor (Planes out0 out1 out2 out3 out4 out5 out6 out7) in_ptr);
  muladd_loop (fun out_ptr in_ptr =>
    let 'Planes in0 in1 in2 in3 in4 in5 in6 in7 := out_ptr in
    let out3 := in1 ^^ in3 in let tmp0 := in2 ^^ in7 in let tmp1 := out3 ^^ in6 in
    let tmp2 := tmp0 ^^ in4 in let out5 := tmp0 ^^ tmp1 in let out6 := tmp2 ^^ in3 in
    let out2 := out6 ^^ in5 in let out0 := out2 ^^ out5 ^^ in0 in let out7 := tmp1 ^^ out0 in
    let out1 := tmp2 ^^ out0 in let out4 := out1 ^^ in7 in
    planes_xor (Planes out0 out1 out2 out3 out4 out5 out6 out7) in_ptr)].

(** gf8_muladd_94 to gf8_muladd_97. *)
Definition gf8_muladd_94_97 : list (list W -> list W -> list W) := [
  muladd_loop (fun out_ptr in_ptr =>
    let 'Planes in0 in1 in2 in3 in4 in5 in6 in7 := out_ptr in
    let out3 := in2 ^^ in6 in let tmp0 := in1 ^^ in4 ^^ in5 in let out1 := out3 ^^ in5 in
    let out5 := tmp0 ^^ out3 in let out0 := tmp0 ^^ in7 in let out4 := tmp0 ^^ in0 ^^ in3 in
    let out6 := out1 ^^ in3 ^^ in7 in let out2 := out4 ^^ in6 in
    let out7 := out0 ^^ out2 ^^ in4 in
    planes_xor (Planes out0 out1 out2 out3 out4 out5 out6 out7) in_ptr);
  muladd_loop (fun out_ptr in_ptr =>
    let 'Planes in0 in1 in2 in3 in4 in5 in6 in7 := out_ptr in
    let tmp0 := in2 ^^ in3 in let out3 := tmp0 ^^ in6 in let tmp1 := tmp0 ^^ in7 in
    let tmp2 := out3 ^^ in0 in let out6 := tmp1 ^^ in5 in let tmp3 := tmp2 ^^ in4 in
    let out7 := tmp3 ^^ in2 in let tmp4 := tmp3 ^^ in5 in let out2 := tmp4 ^^ in1 in
    let tmp5 := out2 ^^ in6 in let out0 := tmp1 ^^ tmp5 in let out1 := tmp5 ^^ out7 in
    let out4 := tmp2 ^^ out1 in let out5 := tmp4 ^^ out4 in
    planes_xor (Planes out0 out1 out2 out3 out4 out5 out6 out7) in_ptr);
  muladd_loop (fun out_ptr in_ptr =>
    let 'Planes in0 in1 in2 in3 in4 in5 in6 in7 := out_ptr in
    let out3 := in6 ^^ in7 in let tmp0 := in1 ^^ in5 in let tmp1 := in5 ^^ in6 in
    let out6 := out3 ^^ in2 ^^ in3 in let out0 := tmp0 ^^ in4 in let tmp2 := tmp1 ^^ in2 in
    let out4 := out0 ^^ in0 ^^ in7 in let out1 := tmp2 ^^ in0 in let out5 := tmp2 ^^ in1 in
    let out7 := tmp0 ^^ out4 ^^ in3 in let out2 := tmp1 ^^ out7 in
    planes_xor (Planes out0 out1 out2 out3 out4 out5 out6 out7) in_ptr);
  muladd_loop (fun out_ptr in_ptr =>
    let 'Planes in0 in1 in2 in3 in4 in5 in6 in7 := out_ptr in
    let tmp0 := in0 ^^ in4 in let tmp1 := in2 ^^ in6 in let out3 := in3 ^^ in6 ^^ in7 in
    let out7 := tmp0 ^^ in3 in let tmp2 := tmp0 ^^ in5 in let out5 := tmp1 ^^ in1 in
    let out6 := tmp1 ^^ out3 in let out0 := tmp2 ^^ in1 in let out2 := tmp2 ^^ out3 ^^ in2 in
    let tmp3 := out0 ^^ in4 in let out4 := tmp3 ^^ in7 in let out1 := tmp1 ^^ tmp3 in
    planes_xor (Planes out0 out1 out2 out3 out4 out5 out6 out7) in_ptr)].

(** gf8_muladd_98 to gf8_muladd_9B. *)
Definition gf8_muladd_98_9B : list (list W -> list W -> list W) := [
  muladd_loop (fun out_ptr in_ptr =>
    let 'Planes in0 in1 in2 in3 in4 in5 in6 in7 := out_ptr in
    let tmp0 := in5 ^^ in7 in let tmp1 := in1 ^^ in4 ^^ in7 in let out1 := tmp0 ^^ in2 in
    let out0 := tmp1 ^^ in6 in let out2 := tmp1 ^^ in3 in let out6 := out0 ^^ out1 ^^ in1 in
    let out5 := tmp0 ^^ out2 in let out3 := tmp1 ^^ out6 ^^ in0 in
    let out7 := out0 ^^ out5 ^^ in0 in let out4 := out6 ^^ out7 ^^ in7 in
    planes_xor (Planes out0 out1 out2 out3 out4 out5 out6 out7) in_ptr);
  muladd_loop (fun out_ptr in_ptr =>
    let 'Planes in0 in1 in2 in3 in4 in5 in6 in7 := out_ptr in
    let tmp0 := in0 ^^ in3 in let out5 := in1 ^^ in3 ^^ in4 in let out6 := in2 ^^ in4 ^^ in5 in
    let out4 := tmp0 ^^ in2 in let tmp1 := tmp0 ^^ in6 in let tmp2 := out5 ^^ in7 in
    let out7 := tmp1 ^^ in5 in let out0 := tmp1 ^^ tmp2 in let out2 := tmp2 ^^ in2 in
    let out3 := out0 ^^ out6 ^^ in3 in let out1 := tmp1 ^^ out3 in
    planes_xor (Planes out0 out1 out2 out3 out4 out5 out6 out7) in_ptr);
  muladd_loop (fun out_ptr in_ptr =>
    let 'Planes in0 in1 in2 in3 in4 in5 in6 in7 := out_ptr in
    let out2 := in3 ^^ in4 in let tmp0 := in0 ^^ in5 in let tmp1 := in1 ^^ in6 in
    let out5 := in1 ^^ in3 ^^ in5 in let tmp2 := tmp0 ^^ in7 in let out3 := tmp0 ^^ tmp1 in
    let out0 := tmp1 ^^ in4 in let out7 := tmp2 ^^ in3 in let out1 := tmp2 ^^ in2 in
    let out6 := out0 ^^ in1 ^^ in2 in let out4 := out1 ^^ in4 ^^ in5 in
    planes_xor (Planes out0 out1 out2 out3 out4 out5 out6 out7) in_ptr);
  muladd_loop (fun out_ptr in_ptr =>
    let 'Planes in0 in1 in2 in3 in4 in5 in6 in7 := out_ptr in
    let out5 := in1 ^^ in3 in let tmp0 := in3 ^^ in5 in let out6 := in2 ^^ in4 in
    let out4 := in0 ^^ in2 ^^ in7 in let out7 := tmp0 ^^ in0 in let out2 := out6 ^^ in3 in
    let out1 := out4 ^^ in1 ^^ in5 in let out3 := out7 ^^ in1 ^^ in6 in
    let out0 := tmp0 ^^ out3 ^^ in4 in
    planes_xor (Planes out0 out1 out2 out3 out4 out5 out6 out7) in_ptr)].

(** gf8_muladd_9C to gf8_muladd_9F. *)
Definition gf8_muladd_9C_9F : list (list W -> list W -> list W) := [
  muladd_loop (fun out_ptr in_ptr =>
    let 'Planes in0 in1 in2 in3 in4 in5 in6 in7 := out_ptr in
    let out1 := in2 ^^ in5 in let tmp0 := in0 ^^ in3 ^^ in6 in let out3 := out1 ^^ in0 in
    let out6 := out1 ^^ in6 in let out7 := tmp0 ^^ in7 in let out4 := out7 ^^ in4 in
    let out2 := out4 ^^ in1 in let out0 := tmp0 ^^ out2 in let out5 := out0 ^^ in5 in
    planes_xor (Planes out0 out1 out2 out3 out4 out5 out6 out7) in_ptr);
  muladd_loop (fun out_ptr in_ptr =>
    let 'Planes in0 in1 in2 in3 in4 in5 in6 in7 := out_ptr in
    let out6 := in2 ^^ in5 in let tmp0 := in0 ^^ in3 in let out5 := in1 ^^ in4 ^^ in7 in
    let out1 := out6 ^^ in1 in let out3 := tmp0 ^^ out6 in let out7 := tmp0 ^^ in6 in
    let out0 := out5 ^^ in0 in let out4 := out7 ^^ in7 in let out2 := out5 ^^ out7 ^^ in2 in
    planes_xor (Planes out0 out1 out2 out3 out4 out5 out6 out7) in_ptr);
  muladd_loop (fun out_ptr in_ptr =>
    let 'Planes in0 in1 in2 in3 in4 in5 in6 in7 := out_ptr in
    let out0 := in1 ^^ in4 in let tmp0 := in0 ^^ in5 in let out6 := in2 ^^ in6 in
    let out7 := in0 ^^ in3 ^^ in7 in let out4 := in0 ^^ in4 ^^ in6 in
    let out5 := in1 ^^ in5 ^^ in7 in let out1 := tmp0 ^^ in2 in let out3 := tmp0 ^^ in7 in
    let out2 := out4 ^^ in3 in
    planes_xor (Planes out0 out1 out2 out3 out4 out5 out6 out7) in_ptr);
  muladd_loop (fun out_ptr in_ptr =>
    let 'Planes in0 in1 in2 in3 in4 in5 in6 in7 := out_ptr in
    let out6 := in2 in let out7 := in0 ^^ in3 in let tmp0 := in0 ^^ in1 in
    let out4 := in0 ^^ in6 in let out5 := in1 ^^ in7 in let out1 := tmp0 ^^ in2 ^^ in5 in
    let out2 := out7 ^^ in2 ^^ in4 ^^ in6 in let out3 := out7 ^^ in5 ^^ in7 in
    let out0 := tmp0 ^^ in4 in
    planes_xor (Planes out0 out1 out2 out3 out4 out5 out6 out7) in_ptr)].

(** gf8_muladd_A0 to gf8_muladd_A3. *)
Definition gf8_muladd_A0_A3 : list (list W -> list W -> list W) := [
  muladd_loop (fun out_ptr in_ptr =>
    let 'Planes in0 in1 in2 in3 in4 in5 in6 in7 := out_ptr in
    let tmp0 := in1 ^^ in6 in let out2 := tmp0 ^^ in7 in let tmp1 := tmp0 ^^ in5 in
    let out6 := out2 ^^ in3 ^^ in4 in let out0 := tmp1 ^^ in3 in let tmp2 := out0 ^^ in2 in
    let out3 := tmp2 ^^ in7 in let tmp3 := tmp2 ^^ in1 in let out5 := tmp3 ^^ in0 in
    let out4 := tmp3 ^^ out6 in let out7 := out5 ^^ out6 ^^ in1 in let out1 := tmp1 ^^ out4 in
    planes_xor (Planes out0 out1 out2 out3 out4 out5 out6 out7) in_ptr);
  muladd_loop (fun out_ptr in_ptr =>
    let 'Planes in0 in1 in2 in3 in4 in5 in6 in7 := out_ptr in
    let tmp0 := in2 ^^ in5 in let tmp1 := tmp0 ^^ in1 in let tmp2 := tmp0 ^^ in4 in
    let out4 := tmp1 ^^ in7 in let out7 := tmp2 ^^ in0 in let out6 := tmp2 ^^ out4 ^^ in3 in
    let out3 := out4 ^^ in6 in let out2 := out3 ^^ in5 in let out1 := out2 ^^ in4 in
    let out5 := out1 ^^ out6 ^^ in0 in let out0 := tmp1 ^^ out5 in
    planes_xor (Planes out0 out1 out2 out3 out4 out5 out6 out7) in_ptr);
  muladd_loop (fun out_ptr in_ptr =>
    let 'Planes in0 in1 in2 in3 in4 in5 in6 in7 := out_ptr in
    let out2 := in6 in let tmp0 := in1 ^^ in3 ^^ in5 in let out3 := tmp0 ^^ in6 in
    let out4 := tmp0 ^^ in2 ^^ in4 in let out0 := out3 ^^ in7 in let out6 := out0 ^^ in4 in
    let out1 := out0 ^^ out4 ^^ in0 in let out7 := out1 ^^ in5 in
    let out5 := out7 ^^ in3 ^^ in7 in
    planes_xor (Planes out0 out1 out2 out3 out4 out5 out6 out7) in_ptr);
  muladd_loop (fun out_ptr in_ptr =>
    let 'Planes in0 in1 in2 in3 in4 in5 in6 in7 := out_ptr in
    let out2 := in2 ^^ in6 in let out3 := in1 ^^ in5 ^^ in6 in let tmp0 := out2 ^^ in0 in
    let out4 := out2 ^^ out3 ^^ in3 in let tmp1 := tmp0 ^^ in4 in
    let out0 := tmp0 ^^ out4 ^^ in7 in let out5 := tmp1 ^^ in3 in let out7 := tmp1 ^^ in5 in
    let out1 := tmp1 ^^ in1 ^^ in7 in let out6 := tmp1 ^^ out0 ^^ in2 in
    planes_xor (Planes out0 out1 out2 out3 out4 out5 out6 out7) in_ptr)].

(** gf8_muladd_A4 to gf8_muladd_A7. *)
Definition gf8_muladd_A4_A7 : list (list W -> list W -> list W) := [
  muladd_loop (fun out_ptr in_ptr =>
    let 'Planes in0 in1 in2 in3 in4 in5 in6 in7 := out_ptr in
    let tmp0 := in1 ^^ in3 in let tmp1 := in2 ^^ in4 in let tmp2 := in2 ^^ in5 in
    let tmp3 := in0 ^^ in7 in let out0 := tmp0 ^^ in5 in let out6 := tmp0 ^^ in6 ^^ in7 in
    let out1 := tmp1 ^^ in6 in let out7 := tmp1 ^^ tmp3 in let out3 := tmp2 ^^ in3 in
    let tmp4 := tmp2 ^^ out1 in let out2 := tmp3 ^^ in1 in let out5 := tmp4 ^^ out7 in
    let out4 := tmp4 ^^ in1 in
    planes_xor (Planes out0 out1 out2 out3 out4 out5 out6 out7) in_ptr);
  muladd_loop (fun out_ptr in_ptr =>
    let 'Planes in0 in1 in2 in3 in4 in5 in6 in7 := out_ptr in
    let out3 := in2 ^^ in5 in let tmp0 := in1 ^^ in6 in let tmp1 := in0 ^^ in1 in
    let tmp2 := in2 ^^ in4 in let out6 := in1 ^^ in3 ^^ in7 in let out4 := tmp0 ^^ in5 in
    let out1 := tmp0 ^^ tmp2 in let out0 := tmp1 ^^ in3 ^^ in5 in
    let out2 := tmp1 ^^ in2 ^^ in7 in let out7 := tmp2 ^^ in0 in let out5 := tmp0 ^^ out2 in
    planes_xor (Planes out0 out1 out2 out3 out4 out5 out6 out7) in_ptr);
  muladd_loop (fun out_ptr in_ptr =>
    let 'Planes in0 in1 in2 in3 in4 in5 in6 in7 := out_ptr in
    let out2 := in0 in let out3 := in3 ^^ in5 ^^ in7 in let out1 := in0 ^^ in2 ^^ in4 ^^ in6 in
    let out0 := out3 ^^ in1 in let out7 := out1 ^^ in7 in let out6 := out0 ^^ in6 in
    let out5 := out7 ^^ in5 in let out4 := out6 ^^ in4 in
    planes_xor (Planes out0 out1 out2 out3 out4 out5 out6 out7) in_ptr);
  muladd_loop (fun out_ptr in_ptr =>
    let 'Planes in0 in1 in2 in3 in4 in5 in6 in7 := out_ptr in
    let out2 := in0 ^^ in2 in let out3 := in5 ^^ in7 in let out7 := out2 ^^ in4 ^^ in6 in
    let out6 := out3 ^^ in1 ^^ in3 in let out1 := out7 ^^ in1 in let out5 := out7 ^^ in7 in
    let out0 := out6 ^^ in0 in let out4 := out6 ^^ in6 in
    planes_xor (Planes out0 out1 out2 out3 out4 out5 out6 out7) in_ptr)].

(** gf8_muladd_A8 to gf8_muladd_AB. *)
Definition gf8_muladd_A8_AB : list (list W -> list W -> list W) := [
  muladd_loop (fun out_ptr in_ptr =>
    let 'Planes in0 in1 in2 in3 in4 in5 in6 in7 := out_ptr in
    let tmp0 := in2 ^^ in4 in let tmp1 := in1 ^^ in6 in let tmp2 := in0 ^^ in2 ^^ in7 in
    let out1 := tmp0 ^^ in7 in let out4 := tmp0 ^^ in6 in let out0 := tmp1 ^^ in3 in
    let out2 := tmp1 ^^ in5 in let out6 := tmp1 ^^ in4 in let out7 := tmp2 ^^ in5 in
    let out3 := tmp2 ^^ out0 ^^ in6 in let out5 := out7 ^^ in2 ^^ in3 in
    planes_xor (Planes out0 out1 out2 out3 out4 out5 out6 out7) in_ptr);
  muladd_loop (fun out_ptr in_ptr =>
    let 'Planes in0 in1 in2 in3 in4 in5 in6 in7 := out_ptr in
    let out4 := in2 ^^ in6 in let out6 := in1 ^^ in4 in let out7 := in0 ^^ in2 ^^ in5 in
    let out5 := in0 ^^ in3 ^^ in7 in let out2 := out4 ^^ in1 ^^ in5 in
    let out1 := out6 ^^ in2 ^^ in7 in let out0 := out2 ^^ out7 ^^ in3 in
    let out3 := out1 ^^ in0 ^^ in4 in
    planes_xor (Planes out0 out1 out2 out3 out4 out5 out6 out7) in_ptr);
  muladd_loop (fun out_ptr in_ptr =>
    let 'Planes in0 in1 in2 in3 in4 in5 in6 in7 := out_ptr in
    let tmp0 := in0 ^^ in2 in let tmp1 := in1 ^^ in3 in let tmp2 := in6 ^^ in7 in
    let out1 := tmp0 ^^ in4 ^^ in7 in let out3 := tmp1 ^^ in0 in let out0 := tmp1 ^^ tmp2 in
    let out2 := tmp2 ^^ in5 in let out7 := tmp0 ^^ out2 in let out6 := out1 ^^ out7 ^^ in1 in
    let out5 := out0 ^^ out6 ^^ in0 in let out4 := out5 ^^ out7 ^^ in7 in
    planes_xor (Planes out0 out1 out2 out3 out4 out5 out6 out7) in_ptr);
  muladd_loop (fun out_ptr in_ptr =>
    let 'Planes in0 in1 in2 in3 in4 in5 in6 in7 := out_ptr in
    let out3 := in0 ^^ in1 in let tmp0 := in1 ^^ in4 in let tmp1 := in0 ^^ in7 in
    let out6 := tmp0 ^^ in5 in let out1 := tmp0 ^^ tmp1 ^^ in2 in
    let out5 := tmp1 ^^ in3 ^^ in4 in let out0 := tmp0 ^^ out5 ^^ in6 in
    let out4 := out0 ^^ out3 ^^ in2 in let out2 := out4 ^^ in3 ^^ in5 in
    let out7 := tmp1 ^^ out2 in
    planes_xor (Planes out0 out1 out2 out3 out4 out5 out6 out7) in_ptr)].

(** gf8_muladd_AC to gf8_muladd_AF. *)
Definition gf8_muladd_AC_AF : list (list W -> list W -> list W) := [
  muladd_loop (fun out_ptr in_ptr =>
    let 'Planes in0 in1 in2 in3 in4 in5 in6 in7 := out_ptr in
    let out0 := in1 ^^ in3 in let out1 := in2 ^^ in4 in let tmp0 := in0 ^^ in2 in
    let out4 := in4 ^^ in7 in let out5 := in0 ^^ in5 in let out6 := in1 ^^ in6 in
    let out7 := tmp0 ^^ in7 in let out3 := tmp0 ^^ in3 ^^ in6 in let out2 := out5 ^^ in1 in
    planes_xor (Planes out0 out1 out2 out3 out4 out5 out6 out7) in_ptr);
  muladd_loop (fun out_ptr in_ptr =>
    let 'Planes in0 in1 in2 in3 in4 in5 in6 in7 := out_ptr in
    let out4 := in7 in let out5 := in0 in let out6 := in1 in let out7 := in0 ^^ in2 in
    let out0 := in0 ^^ in1 ^^ in3 in let out2 := out7 ^^ in1 ^^ in5 in
    let out1 := in1 ^^ in2 ^^ in4 in let out3 := out7 ^^ in6 in
    planes_xor (Planes out0 out1 out2 out3 out4 out5 out6 out7) in_ptr);
  muladd_loop (fun out_ptr in_ptr =>
    let 'Planes in0 in1 in2 in3 in4 in5 in6 in7 := out_ptr in
    let out4 := in3 ^^ in4 in let tmp0 := in0 ^^ in4 in let tmp1 := in0 ^^ in7 in
    let out0 := in1 ^^ in3 ^^ in7 in let out1 := tmp0 ^^ in2 in let out5 := tmp0 ^^ in5 in
    let tmp2 := tmp1 ^^ in6 in let out2 := tmp1 ^^ in5 in let out3 := tmp2 ^^ in3 in
    let out7 := tmp2 ^^ in2 in let out6 := tmp2 ^^ out2 ^^ in1 in
    planes_xor (Planes out0 out1 out2 out3 out4 out5 out6 out7) in_ptr);
  muladd_loop (fun out_ptr in_ptr =>
    let 'Planes in0 in1 in2 in3 in4 in5 in6 in7 := out_ptr in
    let out4 := in3 in let tmp0 := in0 ^^ in7 in let out5 := in0 ^^ in4 in
    let out6 := in1 ^^ in5 in let out7 := in0 ^^ in2 ^^ in6 in let out0 := tmp0 ^^ in1 ^^ in3 in
    let out3 := tmp0 ^^ in6 in let out2 := tmp0 ^^ in2 ^^ in5 in let out1 := out5 ^^ in1 ^^ in2 in
    planes_xor (Planes out0 out1 out2 out3 out4 out5 out6 out7) in_ptr)].

(** gf8_muladd_B0 to gf8_muladd_B3. *)
Definition gf8_muladd_B0_B3 : list (list W -> list W -> list W) := [
  muladd_loop (fun out_ptr in_ptr =>
    let 'Planes in0 in1 in2 in3 in4 in5 in6 in7 := out_ptr in
    let tmp0 := in1 ^^ in4 in let tmp1 := in3 ^^ in6 in let out2 := tmp0 ^^ in7 in
    let tmp2 := tmp0 ^^ tmp1 in let out0 := tmp2 ^^ in5 in let out3 := tmp2 ^^ in2 in
    let out6 := out3 ^^ in6 in let tmp3 := out6 ^^ in0 ^^ in1 in let out7 := tmp3 ^^ in5 in
    let out5 := tmp3 ^^ out2 in let out1 := out0 ^^ out5 ^^ in0 in let out4 := tmp1 ^^ out5 in
    planes_xor (Planes out0 out1 out2 out3 out4 out5 out6 out7) in_ptr);
  muladd_loop (fun out_ptr in_ptr =>
    let 'Planes in0 in1 in2 in3 in4 in5 in6 in7 := out_ptr in
    let tmp0 := in1 ^^ in4 in let out2 := tmp0 ^^ in2 ^^ in7 in let tmp1 := out2 ^^ in6 in
    let out1 := tmp1 ^^ in5 in let out3 := tmp1 ^^ in7 in let out4 := tmp1 ^^ in0 in
    let out6 := out3 ^^ in3 in let out0 := out6 ^^ in0 ^^ in2 ^^ in5 in
    let out5 := tmp1 ^^ out0 ^^ in1 in let out7 := tmp0 ^^ out5 in
    planes_xor (Planes out0 out1 out2 out3 out4 out5 out6 out7) in_ptr);
  muladd_loop (fun out_ptr in_ptr =>
    let 'Planes in0 in1 in2 in3 in4 in5 in6 in7 := out_ptr in
    let out2 := in4 in let tmp0 := in4 ^^ in7 in let tmp1 := in1 ^^ in3 ^^ in6 in
    let out3 := tmp0 ^^ tmp1 in let tmp2 := tmp1 ^^ in0 in let out0 := out3 ^^ in5 in
    let out4 := tmp2 ^^ in2 in let tmp3 := out4 ^^ in6 in let out5 := tmp0 ^^ tmp3 in
    let out1 := tmp3 ^^ out0 in let tmp4 := out1 ^^ in7 in let out7 := tmp4 ^^ in3 in
    let out6 := tmp2 ^^ tmp4 in
    planes_xor (Planes out0 out1 out2 out3 out4 out5 out6 out7) in_ptr);
  muladd_loop (fun out_ptr in_ptr =>
    let 'Planes in0 in1 in2 in3 in4 in5 in6 in7 := out_ptr in
    let out2 := in2 ^^ in4 in let tmp0 := in0 ^^ in5 in let tmp1 := in1 ^^ in6 in
    let out3 := tmp1 ^^ in4 ^^ in7 in let tmp2 := tmp0 ^^ out3 in let out0 := tmp2 ^^ in3 in
    let out1 := tmp2 ^^ in2 in let out5 := out0 ^^ in2 ^^ in6 in let out7 := tmp1 ^^ out5 in
    let out4 := out7 ^^ in1 ^^ in5 ^^ in7 in let out6 := tmp0 ^^ out4 in
    planes_xor (Planes out0 out1 out2 out3 out4 out5 out6 out7) in_ptr)].

(** gf8_muladd_B4 to gf8_muladd_B7. *)
Definition gf8_muladd_B4_B7 : list (list W -> list W -> list W) := [
  muladd_loop (fun out_ptr in_ptr =>
    let 'Planes in0 in1 in2 in3 in4 in5 in6 in7 := out_ptr in
    let out4 := in0 ^^ in1 in let out5 := out4 ^^ in2 in let tmp0 := out4 ^^ in4 in
    let out6 := out5 ^^ in0 ^^ in3 in let out7 := tmp0 ^^ out6 in
    let out2 := tmp0 ^^ in6 ^^ in7 in let out3 := out7 ^^ in0 ^^ in7 in
    let out0 := out5 ^^ out7 ^^ in5 in let out1 := out0 ^^ out6 ^^ in6 in
    planes_xor (Planes out0 out1 out2 out3 out4 out5 out6 out7) in_ptr);
  muladd_loop (fun out_ptr in_ptr =>
    let 'Planes in0 in1 in2 in3 in4 in5 in6 in7 := out_ptr in
    let tmp0 := in0 ^^ in1 in let tmp1 := in2 ^^ in4 in let out4 := tmp0 ^^ in4 in
    let out3 := tmp1 ^^ in7 in let tmp2 := out4 ^^ in5 in let out7 := out3 ^^ in0 ^^ in3 in
    let out0 := tmp2 ^^ in3 in let out2 := tmp0 ^^ out3 ^^ in6 in let out5 := tmp1 ^^ tmp2 in
    let out6 := out2 ^^ out7 ^^ in2 in let out1 := tmp0 ^^ out0 ^^ out6 in
    planes_xor (Planes out0 out1 out2 out3 out4 out5 out6 out7) in_ptr);
  muladd_loop (fun out_ptr in_ptr =>
    let 'Planes in0 in1 in2 in3 in4 in5 in6 in7 := out_ptr in
    let out3 := in3 ^^ in4 in let tmp0 := in1 ^^ in2 in let tmp1 := in0 ^^ in4 in
    let tmp2 := in3 ^^ in5 in let tmp3 := out3 ^^ in1 ^^ in7 in let out5 := tmp0 ^^ tmp1 in
    let out6 := tmp0 ^^ tmp2 in let out2 := tmp1 ^^ in6 in let out4 := tmp1 ^^ tmp3 in
    let out0 := tmp3 ^^ in5 in let out1 := out2 ^^ in2 ^^ in5 in let out7 := tmp2 ^^ out1 in
    planes_xor (Planes out0 out1 out2 out3 out4 out5 out6 out7) in_ptr);
  muladd_loop (fun out_ptr in_ptr =>
    let 'Planes in0 in1 in2 in3 in4 in5 in6 in7 := out_ptr in
    let out3 := in4 in let tmp0 := in0 ^^ in4 in let out2 := tmp0 ^^ in2 ^^ in6 in
    let tmp1 := out2 ^^ in7 in let out1 := out2 ^^ in1 ^^ in5 in let out7 := tmp1 ^^ in3 in
    let out5 := out1 ^^ in6 in let out6 := tmp0 ^^ out1 ^^ in3 in let out0 := tmp1 ^^ out6 in
    let out4 := out0 ^^ in5 in
    planes_xor (Planes out0 out1 out2 out3 out4 out5 out6 out7) in_ptr)].

(** gf8_muladd_B8 to gf8_muladd_BB. *)
Definition gf8_muladd_B8_BB : list (list W -> list W -> list W) := [
  muladd_loop (fun out_ptr in_ptr =>
    let 'Planes in0 in1 in2 in3 in4 in5 in6 in7 := out_ptr in
    let tmp0 := in1 ^^ in4 in let tmp1 := in2 ^^ in5 in let out2 := tmp0 ^^ in5 in
    let out4 := tmp1 ^^ in0 in let tmp2 := tmp1 ^^ in7 in let out6 := tmp2 ^^ out2 in
    let out7 := out4 ^^ in3 in let out1 := tmp2 ^^ in4 in let out3 := tmp0 ^^ out7 in
    let out0 := out3 ^^ out4 ^^ in6 in let out5 := out0 ^^ in0 ^^ in4 in
    planes_xor (Planes out0 out1 out2 out3 out4 out5 out6 out7) in_ptr);
  muladd_loop (fun out_ptr in_ptr =>
    let 'Planes in0 in1 in2 in3 in4 in5 in6 in7 := out_ptr in
    let tmp0 := in0 ^^ in2 in let tmp1 := in4 ^^ in5 in let out4 := tmp0 ^^ tmp1 in
    let tmp2 := tmp0 ^^ in3 ^^ in7 in let out3 := out4 ^^ in1 in let out7 := tmp2 ^^ in5 in
    let out2 := out3 ^^ in0 in let out1 := out2 ^^ in7 in let out6 := out1 ^^ in5 ^^ in6 in
    let out0 := tmp2 ^^ out6 in let out5 := tmp1 ^^ out0 in
    planes_xor (Planes out0 out1 out2 out3 out4 out5 out6 out7) in_ptr);
  muladd_loop (fun out_ptr in_ptr =>
    let 'Planes in0 in1 in2 in3 in4 in5 in6 in7 := out_ptr in
    let tmp0 := in5 ^^ in7 in let out2 := tmp0 ^^ in4 in let tmp1 := out2 ^^ in2 in
    let out1 := tmp1 ^^ in0 in let out6 := tmp1 ^^ in1 in let out4 := out1 ^^ in3 ^^ in4 in
    let tmp2 := out4 ^^ out6 in let out7 := out4 ^^ in6 ^^ in7 in let out5 := tmp2 ^^ in6 in
    let out3 := tmp0 ^^ tmp2 in let out0 := out6 ^^ out7 ^^ in0 in
    planes_xor (Planes out0 out1 out2 out3 out4 out5 out6 out7) in_ptr);
  muladd_loop (fun out_ptr in_ptr =>
    let 'Planes in0 in1 in2 in3 in4 in5 in6 in7 := out_ptr in
    let out2 := in2 ^^ in4 ^^ in5 ^^ in7 in let tmp0 := out2 ^^ in1 in
    let out4 := out2 ^^ in0 ^^ in3 in let out1 := tmp0 ^^ in0 in let out6 := tmp0 ^^ in6 in
    let out3 := out1 ^^ in2 in let tmp1 := out4 ^^ out6 ^^ in4 in let out0 := tmp1 ^^ in7 in
    let out5 := tmp1 ^^ in5 in let out7 := tmp0 ^^ tmp1 in
    planes_xor (Planes out0 out1 out2 out3 out4 out5 out6 out7) in_ptr)].

(** gf8_muladd_BC to gf8_muladd_BF. *)
Definition gf8_muladd_BC_BF : list (list W -> list W -> list W) := [
  muladd_loop (fun out_ptr in_ptr =>
    let 'Planes in0 in1 in2 in3 in4 in5 in6 in7 := out_ptr in
    let tmp0 := in0 ^^ in2 in let tmp1 := in2 ^^ in4 in let out0 := in1 ^^ in3 ^^ in4 in
    let out6 := in1 ^^ in2 ^^ in7 in let out7 := tmp0 ^^ in3 in let out5 := tmp0 ^^ out6 ^^ in6 in
    let out1 := tmp1 ^^ in5 in let tmp2 := out1 ^^ out5 ^^ in1 in let out3 := tmp2 ^^ in3 in
    let out4 := tmp1 ^^ tmp2 in let out2 := tmp2 ^^ out6 in
    planes_xor (Planes out0 out1 out2 out3 out4 out5 out6 out7) in_ptr);
  muladd_loop (fun out_ptr in_ptr =>
    let 'Planes in0 in1 in2 in3 in4 in5 in6 in7 := out_ptr in
    let tmp0 := in0 ^^ in3 in let tmp1 := in1 ^^ in4 in let out0 := tmp0 ^^ tmp1 in
    let out7 := tmp0 ^^ in2 ^^ in7 in let out1 := tmp1 ^^ in2 ^^ in5 in let tmp2 := out1 ^^ in0 in
    let out2 := tmp2 ^^ in6 in let out3 := out2 ^^ in1 ^^ in7 in let out4 := out3 ^^ in2 in
    let out5 := tmp1 ^^ out4 in let out6 := tmp2 ^^ out4 in
    planes_xor (Planes out0 out1 out2 out3 out4 out5 out6 out7) in_ptr);
  muladd_loop (fun out_ptr in_ptr =>
    let 'Planes in0 in1 in2 in3 in4 in5 in6 in7 := out_ptr in
    let tmp0 := in0 ^^ in3 ^^ in6 in let out4 := tmp0 ^^ in5 in let out7 := tmp0 ^^ in2 in
    let out3 := out4 ^^ in4 in let out1 := out3 ^^ out7 ^^ in0 in
    let out2 := out3 ^^ in3 ^^ in7 in let out0 := out2 ^^ out4 ^^ in1 in
    let out5 := tmp0 ^^ out0 in let out6 := out1 ^^ out5 ^^ in6 in
    planes_xor (Planes out0 out1 out2 out3 out4 out5 out6 out7) in_ptr);
  muladd_loop (fun out_ptr in_ptr =>
    let 'Planes in0 in1 in2 in3 in4 in5 in6 in7 := out_ptr in
    let tmp0 := in0 ^^ in4 in let out3 := tmp0 ^^ in5 ^^ in6 in let out4 := out3 ^^ in3 in
    let tmp1 := out3 ^^ in7 in let out2 := tmp1 ^^ in2 in let out5 := tmp1 ^^ in1 in
    let tmp2 := out2 ^^ in5 in let out7 := tmp2 ^^ in3 ^^ in4 in let tmp3 := tmp0 ^^ out5 in
    let out0 := tmp3 ^^ out4 in let out1 := tmp2 ^^ tmp3 in let out6 := tmp3 ^^ in2 in
    planes_xor (Planes out0 out1 out2 out3 out4 out5 out6 out7) in_ptr)].

(** gf8_muladd_C0 to gf8_muladd_C3. *)
Definition gf8_muladd_C0_C3 : list (list W -> list W -> list W) := [
  muladd_loop (fun out_ptr in_ptr =>
    let 'Planes in0 in1 in2 in3 in4 in5 in6 in7 := out_ptr in
    let out5 := in2 ^^ in5 in let tmp0 := in1 ^^ in4 in let tmp1 := in3 ^^ in6 in
    let out0 := out5 ^^ in1 in let out4 := tmp0 ^^ in7 in let out3 := tmp0 ^^ tmp1 in
    let out1 := tmp1 ^^ in2 in let out6 := tmp1 ^^ in0 in let out7 := out4 ^^ in0 in
    let out2 := out4 ^^ out5 ^^ in3 in
    planes_xor (Planes out0 out1 out2 out3 out4 out5 out6 out7) in_ptr);
  muladd_loop (fun out_ptr in_ptr =>
    let 'Planes in0 in1 in2 in3 in4 in5 in6 in7 := out_ptr in
    let out5 := in2 in let tmp0 := in0 ^^ in1 in let out4 := in1 ^^ in7 in
    let out6 := in0 ^^ in3 in let out3 := in1 ^^ in4 ^^ in6 in let tmp1 := tmp0 ^^ in2 in
    let out7 := tmp0 ^^ in4 in let out0 := tmp1 ^^ in5 in let out1 := tmp1 ^^ out6 ^^ in6 in
    let out2 := out6 ^^ out7 ^^ in5 ^^ in7 in
    planes_xor (Planes out0 out1 out2 out3 out4 out5 out6 out7) in_ptr);
  muladd_loop (fun out_ptr in_ptr =>
    let 'Planes in0 in1 in2 in3 in4 in5 in6 in7 := out_ptr in
    let out4 := in1 ^^ in3 ^^ in4 in let tmp0 := in0 ^^ in3 ^^ in6 in
    let out5 := in2 ^^ in4 ^^ in5 in let tmp1 := out4 ^^ in7 in let out1 := tmp0 ^^ in2 in
    let out6 := tmp0 ^^ in5 in let out2 := out5 ^^ in3 in let out7 := tmp0 ^^ tmp1 in
    let out3 := tmp1 ^^ in2 ^^ in6 in let out0 := tmp1 ^^ out2 in
    planes_xor (Planes out0 out1 out2 out3 out4 out5 out6 out7) in_ptr);
  muladd_loop (fun out_ptr in_ptr =>
    let 'Planes in0 in1 in2 in3 in4 in5 in6 in7 := out_ptr in
    let out4 := in1 ^^ in3 in let tmp0 := in0 ^^ in2 in let tmp1 := in3 ^^ in5 in
    let out5 := in2 ^^ in4 in let tmp2 := tmp0 ^^ out4 in let out2 := tmp1 ^^ in4 in
    let out6 := tmp1 ^^ in0 in let out0 := tmp1 ^^ tmp2 ^^ in7 in let out1 := tmp2 ^^ in6 in
    let out7 := out1 ^^ out5 ^^ in3 in let out3 := tmp0 ^^ out7 ^^ in7 in
    planes_xor (Planes out0 out1 out2 out3 out4 out5 out6 out7) in_ptr)].

(** gf8_muladd_C4 to gf8_muladd_C7. *)
Definition gf8_muladd_C4_C7 : list (list W -> list W -> list W) := [
  muladd_loop (fun out_ptr in_ptr =>
    let 'Planes in0 in1 in2 in3 in4 in5 in6 in7 := out_ptr in
    let tmp0 := in3 ^^ in7 in let out3 := tmp0 ^^ in4 in let tmp1 := tmp0 ^^ in2 in
    let out1 := tmp1 ^^ in6 in let out5 := tmp1 ^^ in5 in let out4 := out1 ^^ out3 ^^ in1 in
    let out0 := out4 ^^ in4 ^^ in5 in let out2 := out0 ^^ out3 ^^ in0 in
    let out7 := out1 ^^ out2 ^^ in7 in let out6 := tmp1 ^^ out0 ^^ out7 in
    planes_xor (Planes out0 out1 out2 out3 out4 out5 out6 out7) in_ptr);
  muladd_loop (fun out_ptr in_ptr =>
    let 'Planes in0 in1 in2 in3 in4 in5 in6 in7 := out_ptr in
    let out3 := in4 ^^ in7 in let tmp0 := in3 ^^ in7 in let out4 := in1 ^^ in2 ^^ in6 in
    let out6 := in0 ^^ in3 ^^ in4 in let out5 := tmp0 ^^ in2 in let out1 := tmp0 ^^ out4 in
    let out0 := out4 ^^ in0 ^^ in5 in let out2 := out0 ^^ out5 ^^ in4 in
    let out7 := tmp0 ^^ out2 ^^ in6 in
    planes_xor (Planes out0 out1 out2 out3 out4 out5 out6 out7) in_ptr);
  muladd_loop (fun out_ptr in_ptr =>
    let 'Planes in0 in1 in2 in3 in4 in5 in6 in7 := out_ptr in
    let tmp0 := in5 ^^ in6 in let tmp1 := in1 ^^ in7 in let tmp2 := tmp0 ^^ in0 in
    let tmp3 := tmp0 ^^ tmp1 in let tmp4 := tmp2 ^^ in4 in let out0 := tmp3 ^^ in2 in
    let out6 := tmp4 ^^ in3 in let out2 := out6 ^^ in2 in let out7 := tmp1 ^^ tmp4 in
    let out3 := tmp2 ^^ out2 in let tmp5 := out3 ^^ in5 in let out5 := tmp5 ^^ in7 in
    let out4 := tmp3 ^^ tmp5 in let out1 := tmp4 ^^ out5 in
    planes_xor (Planes out0 out1 out2 out3 out4 out5 out6 out7) in_ptr);
  muladd_loop (fun out_ptr in_ptr =>
    let 'Planes in0 in1 in2 in3 in4 in5 in6 in7 := out_ptr in
    let out3 := in2 ^^ in4 in let tmp0 := in3 ^^ in5 in let tmp1 := out3 ^^ in7 in
    let out6 := tmp0 ^^ in0 ^^ in4 in let out5 := tmp1 ^^ in3 in let out2 := out6 ^^ in6 in
    let out7 := out2 ^^ in1 ^^ in3 in let out0 := tmp1 ^^ out7 in let out1 := tmp0 ^^ out0 in
    let out4 := out1 ^^ in0 in
    planes_xor (Planes out0 out1 out2 out3 out4 out5 out6 out7) in_ptr)].

(** gf8_muladd_C8 to gf8_muladd_CB. *)
Definition gf8_muladd_C8_CB : list (list W -> list W -> list W) := [
  muladd_loop (fun out_ptr in_ptr =>
    let 'Planes in0 in1 in2 in3 in4 in5 in6 in7 := out_ptr in
    let out0 := in1 ^^ in2 in let out1 := in2 ^^ in3 in let tmp0 := in5 ^^ in6 in
    let tmp1 := in0 ^^ in7 in let out2 := out1 ^^ in1 ^^ in4 in let out4 := tmp0 ^^ in4 in
    let out5 := tmp0 ^^ in7 in let out6 := tmp1 ^^ in6 in let out7 := tmp1 ^^ in1 in
    let out3 := out2 ^^ in0 ^^ in2 ^^ in5 in
    planes_xor (Planes out0 out1 out2 out3 out4 out5 out6 out7) in_ptr);
  muladd_loop (fun out_ptr in_ptr =>
    let 'Planes in0 in1 in2 in3 in4 in5 in6 in7 := out_ptr in
    let out4 := in5 ^^ in6 in let out7 := in0 ^^ in1 in let tmp0 := in1 ^^ in3 in
    let out5 := in6 ^^ in7 in let out6 := in0 ^^ in7 in let out0 := out7 ^^ in2 in
    let out3 := out7 ^^ in4 ^^ in5 in let out1 := tmp0 ^^ in2 in let out2 := tmp0 ^^ in4 in
    planes_xor (Planes out0 out1 out2 out3 out4 out5 out6 out7) in_ptr);
  muladd_loop (fun out_ptr in_ptr =>
    let 'Planes in0 in1 in2 in3 in4 in5 in6 in7 := out_ptr in
    let tmp0 := in0 ^^ in7 in let tmp1 := in2 ^^ in7 in let tmp2 := tmp0 ^^ in6 in
    let out0 := tmp1 ^^ in1 in let tmp3 := tmp1 ^^ in3 in let out6 := tmp2 ^^ in5 in
    let out7 := tmp2 ^^ in1 in let out2 := tmp3 ^^ in4 in let out5 := out6 ^^ in0 ^^ in4 in
    let out4 := out5 ^^ in3 in let out1 := tmp0 ^^ tmp3 in let out3 := tmp3 ^^ out5 ^^ out7 in
    planes_xor (Planes out0 out1 out2 out3 out4 out5 out6 out7) in_ptr);
  muladd_loop (fun out_ptr in_ptr =>
    let 'Planes in0 in1 in2 in3 in4 in5 in6 in7 := out_ptr in
    let tmp0 := in4 ^^ in7 in let tmp1 := in5 ^^ in7 in let out7 := in0 ^^ in1 ^^ in6 in
    let out5 := tmp0 ^^ in6 in let out2 := tmp0 ^^ in3 in let out6 := tmp1 ^^ in0 in
    let out4 := tmp1 ^^ in3 ^^ in6 in let tmp2 := out5 ^^ out7 ^^ in2 in
    let out1 := tmp2 ^^ out2 in let out0 := tmp2 ^^ in4 in let out3 := tmp2 ^^ in5 in
    planes_xor (Planes out0 out1 out2 out3 out4 out5 out6 out7) in_ptr)].

(** gf8_muladd_CC to gf8_muladd_CF. *)
Definition gf8_muladd_CC_CF : list (list W -> list W -> list W) := [
  muladd_loop (fun out_ptr in_ptr =>
    let 'Planes in0 in1 in2 in3 in4 in5 in6 in7 := out_ptr in
    let tmp0 := in3 ^^ in5 in let tmp1 := in1 ^^ in6 in let out1 := in2 ^^ in3 ^^ in7 in
    let out5 := tmp0 ^^ in6 in let out0 := tmp1 ^^ in2 in let tmp2 := out5 ^^ in0 ^^ in7 in
    let out3 := tmp2 ^^ in4 in let out6 := tmp0 ^^ out3 in let out7 := tmp1 ^^ tmp2 ^^ in3 in
    let tmp3 := out1 ^^ out6 in let out4 := tmp2 ^^ tmp3 in let out2 := tmp3 ^^ in1 in
    planes_xor (Planes out0 out1 out2 out3 out4 out5 out6 out7) in_ptr);
  muladd_loop (fun out_ptr in_ptr =>
    let 'Planes in0 in1 in2 in3 in4 in5 in6 in7 := out_ptr in
    let out5 := in3 ^^ in6 in let tmp0 := in0 ^^ in1 in let tmp1 := in2 ^^ in7 in
    let out6 := in0 ^^ in4 ^^ in7 in let out2 := tmp0 ^^ out5 ^^ in4 in let out7 := tmp0 ^^ in5 in
    let out0 := tmp0 ^^ in2 ^^ in6 in let out4 := tmp1 ^^ in5 in let out1 := tmp1 ^^ in1 ^^ in3 in
    let out3 := out6 ^^ in5 ^^ in6 in
    planes_xor (Planes out0 out1 out2 out3 out4 out5 out6 out7) in_ptr);
  muladd_loop (fun out_ptr in_ptr =>
    let 'Planes in0 in1 in2 in3 in4 in5 in6 in7 := out_ptr in
    let tmp0 := in2 ^^ in5 in let tmp1 := tmp0 ^^ in3 in let out4 := tmp1 ^^ in4 in
    let tmp2 := out4 ^^ in6 in let out3 := tmp2 ^^ in0 in let out5 := tmp2 ^^ in2 in
    let out2 := out3 ^^ in5 ^^ in7 in let out6 := tmp1 ^^ out2 in
    let out7 := out2 ^^ out4 ^^ in1 in let out1 := tmp2 ^^ out6 in
    let out0 := tmp0 ^^ out7 ^^ in0 in
    planes_xor (Planes out0 out1 out2 out3 out4 out5 out6 out7) in_ptr);
  muladd_loop (fun out_ptr in_ptr =>
    let 'Planes in0 in1 in2 in3 in4 in5 in6 in7 := out_ptr in
    let tmp0 := in3 ^^ in6 in let tmp1 := in0 ^^ in1 ^^ in5 in let out4 := in2 ^^ in3 ^^ in5 in
    let out5 := tmp0 ^^ in4 in let out7 := tmp1 ^^ in6 in let out1 := tmp1 ^^ out4 ^^ in7 in
    let tmp2 := out5 ^^ in0 in let out2 := tmp2 ^^ in7 in let out3 := tmp2 ^^ out4 in
    let out6 := tmp0 ^^ out2 ^^ in5 in let out0 := tmp0 ^^ out1 in
    planes_xor (Planes out0 out1 out2 out3 out4 out5 out6 out7) in_ptr)].

(** gf8_muladd_D0 to gf8_muladd_D3. *)
Definition gf8_muladd_D0_D3 : list (list W -> list W -> list W) := [
  muladd_loop (fun out_ptr in_ptr =>
    let 'Planes in0 in1 in2 in3 in4 in5 in6 in7 := out_ptr in
    let tmp0 := in0 ^^ in3 in let tmp1 := in1 ^^ in4 in let tmp2 := in2 ^^ in5 in
    let out7 := tmp0 ^^ tmp1 in let out0 := tmp1 ^^ tmp2 in let tmp3 := tmp2 ^^ in3 in
    let out1 := tmp3 ^^ in6 in let tmp4 := out1 ^^ in1 in let out2 := tmp4 ^^ in7 in
    let out3 := out2 ^^ in2 in let out4 := tmp0 ^^ out3 in let out5 := tmp3 ^^ out3 in
    let out6 := tmp4 ^^ out4 in
    planes_xor (Planes out0 out1 out2 out3 out4 out5 out6 out7) in_ptr);
  muladd_loop (fun out_ptr in_ptr =>
    let 'Planes in0 in1 in2 in3 in4 in5 in6 in7 := out_ptr in
    let tmp0 := in3 ^^ in5 ^^ in6 in let tmp1 := tmp0 ^^ in1 in let out1 := tmp1 ^^ in2 in
    let out2 := tmp1 ^^ in7 in let out3 := out2 ^^ in3 in let out5 := out3 ^^ in2 in
    let tmp2 := out3 ^^ in0 in let out4 := tmp2 ^^ in4 in let out7 := tmp0 ^^ out4 in
    let out6 := tmp2 ^^ out1 ^^ in6 in let out0 := out2 ^^ out6 ^^ in4 in
    planes_xor (Planes out0 out1 out2 out3 out4 out5 out6 out7) in_ptr);
  muladd_loop (fun out_ptr in_ptr =>
    let 'Planes in0 in1 in2 in3 in4 in5 in6 in7 := out_ptr in
    let tmp0 := in5 ^^ in6 in let out2 := tmp0 ^^ in2 ^^ in3 in let out1 := out2 ^^ in0 in
    let out3 := out2 ^^ in1 in let out4 := out1 ^^ in1 ^^ in2 in let out6 := out1 ^^ in6 ^^ in7 in
    let out7 := out4 ^^ in4 ^^ in5 in let out5 := out4 ^^ out6 ^^ in4 in
    let out0 := tmp0 ^^ out5 in
    planes_xor (Planes out0 out1 out2 out3 out4 out5 out6 out7) in_ptr);
  muladd_loop (fun out_ptr in_ptr =>
    let 'Planes in0 in1 in2 in3 in4 in5 in6 in7 := out_ptr in
    let out2 := in3 ^^ in5 ^^ in6 in let tmp0 := out2 ^^ in2 in let tmp1 := tmp0 ^^ in1 in
    let out1 := tmp1 ^^ in0 in let out3 := tmp1 ^^ in3 in let out4 := out1 ^^ in2 ^^ in4 in
    let tmp2 := out4 ^^ in5 in let out7 := tmp2 ^^ in7 in let out0 := tmp0 ^^ out7 in
    let tmp3 := out0 ^^ in0 in let out5 := tmp3 ^^ in6 in let out6 := tmp2 ^^ tmp3 in
    planes_xor (Planes out0 out1 out2 out3 out4 out5 out6 out7) in_ptr)].

(** gf8_muladd_D4 to gf8_muladd_D7. *)
Definition gf8_muladd_D4_D7 : list (list W -> list W -> list W) := [
  muladd_loop (fun out_ptr in_ptr =>
    let 'Planes in0 in1 in2 in3 in4 in5 in6 in7 := out_ptr in
    let out3 := in3 ^^ in5 in let tmp0 := in1 ^^ in5 in let tmp1 := tmp0 ^^ in2 in
    let out4 := tmp1 ^^ in0 in let tmp2 := tmp1 ^^ in6 in let out2 := out4 ^^ in3 ^^ in7 in
    let out0 := tmp2 ^^ in4 in let out5 := tmp2 ^^ out3 in let out1 := tmp0 ^^ out5 ^^ in7 in
    let out6 := tmp0 ^^ out2 ^^ in4 in let out7 := tmp1 ^^ out6 ^^ in7 in
    planes_xor (Planes out0 out1 out2 out3 out4 out5 out6 out7) in_ptr);
  muladd_loop (fun out_ptr in_ptr =>
    let 'Planes in0 in1 in2 in3 in4 in5 in6 in7 := out_ptr in
    let out3 := in5 in let tmp0 := in0 ^^ in4 in let tmp1 := tmp0 ^^ in1 ^^ in5 in
    let out4 := tmp1 ^^ in2 in let out0 := out4 ^^ in6 in let tmp2 := tmp0 ^^ out0 in
    let out5 := tmp2 ^^ in3 in let out1 := out5 ^^ in7 in let out6 := tmp1 ^^ out1 in
    let out7 := tmp2 ^^ out6 in let out2 := out7 ^^ in4 in
    planes_xor (Planes out0 out1 out2 out3 out4 out5 out6 out7) in_ptr);
  muladd_loop (fun out_ptr in_ptr =>
    let 'Planes in0 in1 in2 in3 in4 in5 in6 in7 := out_ptr in
    let tmp0 := in1 ^^ in2 ^^ in4 ^^ in6 in let out5 := tmp0 ^^ in3 in
    let out0 := tmp0 ^^ in5 ^^ in7 in let out3 := out0 ^^ out5 ^^ in2 in
    let tmp1 := out3 ^^ in0 in let out1 := tmp1 ^^ in6 in let out2 := tmp1 ^^ in7 in
    let out4 := tmp1 ^^ in1 in let out6 := tmp1 ^^ in4 in let out7 := tmp0 ^^ out2 in
    planes_xor (Planes out0 out1 out2 out3 out4 out5 out6 out7) in_ptr);
  muladd_loop (fun out_ptr in_ptr =>
    let 'Planes in0 in1 in2 in3 in4 in5 in6 in7 := out_ptr in
    let tmp0 := in0 ^^ in3 in let out3 := in2 ^^ in5 ^^ in7 in let out2 := tmp0 ^^ in5 in
    let tmp1 := tmp0 ^^ out3 ^^ in1 in let out1 := tmp1 ^^ in6 in let out4 := tmp1 ^^ in4 in
    let tmp2 := out1 ^^ in4 in let out6 := tmp2 ^^ in1 in let out7 := tmp2 ^^ in2 in
    let out0 := tmp2 ^^ in3 in let out5 := tmp2 ^^ in0 ^^ in7 in
    planes_xor (Planes out0 out1 out2 out3 out4 out5 out6 out7) in_ptr)].

(** gf8_muladd_D8 to gf8_muladd_DB. *)
Definition gf8_muladd_D8_DB : list (list W -> list W -> list W) := [
  muladd_loop (fun out_ptr in_ptr =>
    let 'Planes in0 in1 in2 in3 in4 in5 in6 in7 := out_ptr in
    let out4 := in0 in let out5 := in1 in let tmp0 := in1 ^^ in2 in let out6 := in0 ^^ in2 in
    let out0 := tmp0 ^^ in4 in let tmp1 := tmp0 ^^ in3 in let out7 := tmp1 ^^ out6 in
    let out2 := tmp1 ^^ in6 in let out3 := out7 ^^ in7 in let out1 := tmp1 ^^ in1 ^^ in5 in
    planes_xor (Planes out0 out1 out2 out3 out4 out5 out6 out7) in_ptr);
  muladd_loop (fun out_ptr in_ptr =>
    let 'Planes in0 in1 in2 in3 in4 in5 in6 in7 := out_ptr in
    let out4 := in0 ^^ in4 in let out5 := in1 ^^ in5 in let out2 := in1 ^^ in3 ^^ in6 in
    let out3 := in0 ^^ in1 ^^ in7 in let out6 := in0 ^^ in2 ^^ in6 in
    let out0 := out4 ^^ in1 ^^ in2 in let out1 := out5 ^^ in2 ^^ in3 in let out7 := out3 ^^ in3 in
    planes_xor (Planes out0 out1 out2 out3 out4 out5 out6 out7) in_ptr);
  muladd_loop (fun out_ptr in_ptr =>
    let 'Planes in0 in1 in2 in3 in4 in5 in6 in7 := out_ptr in
    let out5 := in1 ^^ in4 in let tmp0 := in2 ^^ in7 in let tmp1 := in0 ^^ in2 ^^ in3 in
    let out0 := tmp0 ^^ out5 in let out4 := tmp0 ^^ tmp1 in let out2 := tmp0 ^^ in3 ^^ in6 in
    let out1 := tmp1 ^^ in5 in let out3 := tmp1 ^^ in1 in let out6 := out1 ^^ in3 in
    let out7 := out3 ^^ in2 ^^ in6 in
    planes_xor (Planes out0 out1 out2 out3 out4 out5 out6 out7) in_ptr);
  muladd_loop (fun out_ptr in_ptr =>
    let 'Planes in0 in1 in2 in3 in4 in5 in6 in7 := out_ptr in
    let tmp0 := in0 ^^ in1 in let tmp1 := in1 ^^ in5 in let tmp2 := in3 ^^ in7 in
    let out3 := tmp0 ^^ in2 in let out5 := tmp1 ^^ in4 in let out6 := tmp1 ^^ out3 ^^ in6 in
    let out2 := tmp2 ^^ in6 in let tmp3 := tmp2 ^^ in4 in let tmp4 := out3 ^^ in3 in
    let out4 := tmp3 ^^ in0 in let out1 := tmp4 ^^ in5 in let out0 := tmp3 ^^ tmp4 in
    let out7 := tmp0 ^^ out2 in
    planes_xor (Planes out0 out1 out2 out3 out4 out5 out6 out7) in_ptr)].

(** gf8_muladd_DC to gf8_muladd_DF. *)
Definition gf8_muladd_DC_DF : list (list W -> list W -> list W) := [
  muladd_loop (fun out_ptr in_ptr =>
    let 'Planes in0 in1 in2 in3 in4 in5 in6 in7 := out_ptr in
    let tmp0 := in0 ^^ in2 in let tmp1 := in0 ^^ in3 in let out6 := tmp0 ^^ in4 in
    let tmp2 := tmp0 ^^ in7 in let out3 := tmp1 ^^ in6 in let tmp3 := tmp1 ^^ in1 in
    let out1 := tmp1 ^^ tmp2 ^^ in5 in let out4 := tmp2 ^^ in6 in let out2 := tmp3 ^^ in2 in
    let out7 := tmp3 ^^ in5 in let out5 := tmp2 ^^ out2 in let out0 := out2 ^^ out3 ^^ in4 in
    planes_xor (Planes out0 out1 out2 out3 out4 out5 out6 out7) in_ptr);
  muladd_loop (fun out_ptr in_ptr =>
    let 'Planes in0 in1 in2 in3 in4 in5 in6 in7 := out_ptr in
    let out3 := in0 ^^ in6 in let out2 := in0 ^^ in1 ^^ in3 in let out6 := out3 ^^ in2 ^^ in4 in
    let out7 := out2 ^^ in5 ^^ in7 in let out0 := out6 ^^ in1 in let out4 := out6 ^^ in7 in
    let out5 := out7 ^^ in0 in let out1 := out5 ^^ in2 in
    planes_xor (Planes out0 out1 out2 out3 out4 out5 out6 out7) in_ptr);
  muladd_loop (fun out_ptr in_ptr =>
    let 'Planes in0 in1 in2 in3 in4 in5 in6 in7 := out_ptr in
    let tmp0 := in2 ^^ in3 ^^ in6 in let tmp1 := in3 ^^ in4 ^^ in7 in let out4 := tmp0 ^^ in0 in
    let out5 := tmp1 ^^ in1 in let out3 := out4 ^^ in7 in let out2 := out3 ^^ in6 in
    let out1 := out2 ^^ in5 in let out6 := tmp1 ^^ out1 in let out0 := tmp0 ^^ out5 in
    let out7 := out0 ^^ out1 ^^ in4 in
    planes_xor (Planes out0 out1 out2 out3 out4 out5 out6 out7) in_ptr);
  muladd_loop (fun out_ptr in_ptr =>
    let 'Planes in0 in1 in2 in3 in4 in5 in6 in7 := out_ptr in
    let out2 := in0 ^^ in3 ^^ in7 in let tmp0 := out2 ^^ in1 ^^ in5 in let out1 := tmp0 ^^ in2 in
    let out7 := tmp0 ^^ in6 in let out5 := tmp0 ^^ in0 ^^ in4 in
    let tmp1 := out1 ^^ out5 ^^ in6 in let out4 := tmp1 ^^ in3 in let out6 := tmp1 ^^ in5 in
    let tmp2 := tmp1 ^^ in7 in let out0 := tmp2 ^^ in1 in let out3 := tmp2 ^^ in4 in
    planes_xor (Planes out0 out1 out2 out3 out4 out5 out6 out7) in_ptr)].

(** gf8_muladd_E0 to gf8_muladd_E3. *)
Definition gf8_muladd_E0_E3 : list (list W -> list W -> list W) := [
  muladd_loop (fun out_ptr in_ptr =>
    let 'Planes in0 in1 in2 in3 in4 in5 in6 in7 := out_ptr in
    let out3 := in1 ^^ in7 in let tmp0 := in2 ^^ in4 in let out4 := out3 ^^ in3 ^^ in5 in
    let out2 := tmp0 ^^ in1 in let tmp1 := tmp0 ^^ in6 in let out0 := out4 ^^ in2 in
    let out6 := out4 ^^ in0 in let out1 := tmp1 ^^ in3 in let out5 := tmp1 ^^ in0 in
    let out7 := out5 ^^ in1 in
    planes_xor (Planes out0 out1 out2 out3 out4 out5 out6 out7) in_ptr);
  muladd_loop (fun out_ptr in_ptr =>
    let 'Planes in0 in1 in2 in3 in4 in5 in6 in7 := out_ptr in
    let out2 := in1 ^^ in4 in let tmp0 := in1 ^^ in7 in let out3 := tmp0 ^^ in3 in
    let tmp1 := out3 ^^ in5 in let out4 := tmp1 ^^ in4 in let tmp2 := tmp1 ^^ in0 in
    let out0 := tmp2 ^^ in2 in let out6 := tmp2 ^^ in6 in let tmp3 := out0 ^^ out4 ^^ in6 in
    let out5 := tmp3 ^^ in5 in let out7 := tmp0 ^^ tmp3 in let out1 := tmp2 ^^ out5 ^^ in7 in
    planes_xor (Planes out0 out1 out2 out3 out4 out5 out6 out7) in_ptr);
  muladd_loop (fun out_ptr in_ptr =>
    let 'Planes in0 in1 in2 in3 in4 in5 in6 in7 := out_ptr in
    let out3 := in1 ^^ in2 in let out4 := in1 ^^ in5 in let out2 := in2 ^^ in4 ^^ in7 in
    let out5 := in0 ^^ in2 ^^ in6 in let out0 := out3 ^^ in3 ^^ in5 in
    let out7 := out3 ^^ in0 ^^ in4 in let out6 := out2 ^^ out7 ^^ in3 in
    let out1 := out5 ^^ in3 ^^ in4 in
    planes_xor (Planes out0 out1 out2 out3 out4 out5 out6 out7) in_ptr);
  muladd_loop (fun out_ptr in_ptr =>
    let 'Planes in0 in1 in2 in3 in4 in5 in6 in7 := out_ptr in
    let out2 := in4 ^^ in7 in let tmp0 := in1 ^^ in3 in let out3 := tmp0 ^^ in2 in
    let tmp1 := out3 ^^ in0 in let out0 := tmp1 ^^ in5 in let tmp2 := tmp1 ^^ in4 in
    let out1 := tmp2 ^^ in6 in let tmp3 := tmp2 ^^ in3 in let out7 := tmp3 ^^ in7 in
    let out6 := out1 ^^ out2 ^^ in2 in let tmp4 := tmp0 ^^ out0 in let out5 := tmp4 ^^ in6 in
    let out4 := tmp3 ^^ tmp4 in
    planes_xor (Planes out0 out1 out2 out3 out4 out5 out6 out7) in_ptr)].

(** gf8_muladd_E4 to gf8_muladd_E7. *)
Definition gf8_muladd_E4_E7 : list (list W -> list W -> list W) := [
  muladd_loop (fun out_ptr in_ptr =>
    let 'Planes in0 in1 in2 in3 in4 in5 in6 in7 := out_ptr in
    let out3 := in6 in let tmp0 := in0 ^^ in4 in let tmp1 := tmp0 ^^ in2 ^^ in6 in
    let out2 := tmp1 ^^ in1 in let out7 := out2 ^^ in5 in let tmp2 := tmp0 ^^ out7 in
    let out4 := tmp2 ^^ in3 in let out0 := out4 ^^ in7 in let out6 := tmp1 ^^ out0 in
    let out5 := tmp2 ^^ out6 in let out1 := out5 ^^ in0 in
    planes_xor (Planes out0 out1 out2 out3 out4 out5 out6 out7) in_ptr);
  muladd_loop (fun out_ptr in_ptr =>
    let 'Planes in0 in1 in2 in3 in4 in5 in6 in7 := out_ptr in
    let out3 := in3 ^^ in6 in let tmp0 := in0 ^^ in1 in let tmp1 := in5 ^^ in7 in
    let out2 := tmp0 ^^ in4 ^^ in6 in let tmp2 := tmp1 ^^ out2 in let out6 := tmp2 ^^ in3 in
    let out7 := tmp2 ^^ in2 in let out0 := out6 ^^ in2 ^^ in4 in let out5 := out6 ^^ in1 ^^ in2 in
    let out1 := tmp0 ^^ out5 ^^ in5 in let out4 := tmp1 ^^ out1 in
    planes_xor (Planes out0 out1 out2 out3 out4 out5 out6 out7) in_ptr);
  muladd_loop (fun out_ptr in_ptr =>
    let 'Planes in0 in1 in2 in3 in4 in5 in6 in7 := out_ptr in
    let out3 := in2 ^^ in6 ^^ in7 in let out2 := out3 ^^ in0 ^^ in4 in
    let out4 := out3 ^^ in1 ^^ in5 in let out1 := out2 ^^ in3 in
    let out7 := out2 ^^ out4 ^^ in2 in let out0 := out4 ^^ in3 ^^ in7 in
    let out5 := out1 ^^ in4 in let out6 := out0 ^^ out2 ^^ in5 in
    planes_xor (Planes out0 out1 out2 out3 out4 out5 out6 out7) in_ptr);
  muladd_loop (fun out_ptr in_ptr =>
    let 'Planes in0 in1 in2 in3 in4 in5 in6 in7 := out_ptr in
    let tmp0 := in2 ^^ in3 in let out3 := tmp0 ^^ in6 ^^ in7 in let tmp1 := out3 ^^ in0 in
    let out5 := tmp1 ^^ in5 in let tmp2 := tmp1 ^^ in4 in let tmp3 := out5 ^^ in7 in
    let out1 := tmp2 ^^ in1 in let out0 := tmp3 ^^ in1 in let out6 := out1 ^^ in2 in
    let out2 := tmp0 ^^ tmp2 in let tmp4 := tmp3 ^^ out6 in let out4 := tmp4 ^^ in6 in
    let out7 := tmp4 ^^ in0 in
    planes_xor (Planes out0 out1 out2 out3 out4 out5 out6 out7) in_ptr)].

(** gf8_muladd_E8 to gf8_muladd_EB. *)
Definition gf8_muladd_E8_EB : list (list W -> list W -> list W) := [
  muladd_loop (fun out_ptr in_ptr =>
    let 'Planes in0 in1 in2 in3 in4 in5 in6 in7 := out_ptr in
    let out4 := in3 ^^ in6 in let tmp0 := in4 ^^ in7 in let out1 := in2 ^^ in3 ^^ in4 in
    let out5 := tmp0 ^^ in0 in let tmp1 := tmp0 ^^ in1 in let tmp2 := tmp1 ^^ in5 in
    let out0 := tmp1 ^^ out1 in let out2 := tmp2 ^^ in2 in let out6 := tmp2 ^^ out5 in
    let tmp3 := out6 ^^ in6 in let out3 := tmp3 ^^ in7 in let out7 := tmp3 ^^ in2 ^^ in5 in
    planes_xor (Planes out0 out1 out2 out3 out4 out5 out6 out7) in_ptr);
  muladd_loop (fun out_ptr in_ptr =>
    let 'Planes in0 in1 in2 in3 in4 in5 in6 in7 := out_ptr in
    let tmp0 := in0 ^^ in1 in let tmp1 := in3 ^^ in6 in let tmp2 := tmp0 ^^ in6 in
    let out4 := tmp1 ^^ in4 in let out6 := tmp2 ^^ in5 in let out7 := tmp2 ^^ in2 ^^ in7 in
    let out3 := out6 ^^ in3 ^^ in7 in let out0 := tmp1 ^^ out7 in
    let out2 := out3 ^^ out4 ^^ in0 in let out5 := tmp0 ^^ out2 in
    let out1 := out0 ^^ out5 ^^ in5 in
    planes_xor (Planes out0 out1 out2 out3 out4 out5 out6 out7) in_ptr);
  muladd_loop (fun out_ptr in_ptr =>
    let 'Planes in0 in1 in2 in3 in4 in5 in6 in7 := out_ptr in
    let out4 := in6 ^^ in7 in let out5 := in0 ^^ in7 in let out6 := in0 ^^ in1 in
    let out0 := in1 ^^ in2 ^^ in3 in let out2 := in2 ^^ in4 ^^ in5 in let out7 := out6 ^^ in2 in
    let out1 := out0 ^^ out6 ^^ in4 in let out3 := out7 ^^ in5 ^^ in6 in
    planes_xor (Planes out0 out1 out2 out3 out4 out5 out6 out7) in_ptr);
  muladd_loop (fun out_ptr in_ptr =>
    let 'Planes in0 in1 in2 in3 in4 in5 in6 in7 := out_ptr in
    let out2 := in4 ^^ in5 in let tmp0 := in0 ^^ in1 in let out4 := in4 ^^ in6 ^^ in7 in
    let out5 := in0 ^^ in5 ^^ in7 in let out6 := tmp0 ^^ in6 in let tmp1 := tmp0 ^^ in2 in
    let out0 := tmp1 ^^ in3 in let out7 := tmp1 ^^ in7 in let out1 := out0 ^^ in4 in
    let out3 := out0 ^^ in5 ^^ in6 in
    planes_xor (Planes out0 out1 out2 out3 out4 out5 out6 out7) in_ptr)].

(** gf8_muladd_EC to gf8_muladd_EF. *)
Definition gf8_muladd_EC_EF : list (list W -> list W -> list W) := [
  muladd_loop (fun out_ptr in_ptr =>
    let 'Planes in0 in1 in2 in3 in4 in5 in6 in7 := out_ptr in
    let out3 := in0 ^^ in5 in let out4 := in2 ^^ in3 ^^ in7 in let out5 := in0 ^^ in3 ^^ in4 in
    let out6 := out3 ^^ in1 ^^ in4 in let out1 := out4 ^^ in4 in let out0 := out4 ^^ in1 ^^ in6 in
    let out2 := out0 ^^ out5 ^^ in5 in let out7 := out2 ^^ in4 ^^ in7 in
    planes_xor (Planes out0 out1 out2 out3 out4 out5 out6 out7) in_ptr);
  muladd_loop (fun out_ptr in_ptr =>
    let 'Planes in0 in1 in2 in3 in4 in5 in6 in7 := out_ptr in
    let tmp0 := in2 ^^ in4 in let tmp1 := in3 ^^ in5 in let out4 := tmp0 ^^ in3 ^^ in7 in
    let out3 := tmp1 ^^ in0 in let out1 := out4 ^^ in1 in let out5 := out3 ^^ in4 in
    let out7 := out1 ^^ out5 ^^ in6 in let out2 := tmp0 ^^ out7 in let out0 := tmp1 ^^ out7 in
    let out6 := out2 ^^ in7 in
    planes_xor (Planes out0 out1 out2 out3 out4 out5 out6 out7) in_ptr);
  muladd_loop (fun out_ptr in_ptr =>
    let 'Planes in0 in1 in2 in3 in4 in5 in6 in7 := out_ptr in
    let out4 := in2 in let tmp0 := in0 ^^ in1 in let out5 := in0 ^^ in3 in
    let tmp1 := tmp0 ^^ in2 in let out6 := tmp0 ^^ in4 in let tmp2 := tmp1 ^^ out5 in
    let out7 := tmp1 ^^ in5 in let out1 := tmp2 ^^ out6 ^^ in7 in let out0 := tmp2 ^^ in6 in
    let tmp3 := out7 ^^ in1 in let out3 := tmp3 ^^ in7 in let out2 := tmp3 ^^ in4 ^^ in6 in
    planes_xor (Planes out0 out1 out2 out3 out4 out5 out6 out7) in_ptr);
  muladd_loop (fun out_ptr in_ptr =>
    let 'Planes in0 in1 in2 in3 in4 in5 in6 in7 := out_ptr in
    let out4 := in2 ^^ in4 in let tmp0 := in0 ^^ in5 in let tmp1 := in4 ^^ in6 in
    let out5 := tmp0 ^^ in3 in let out2 := tmp0 ^^ tmp1 in let out6 := tmp1 ^^ in0 ^^ in1 in
    let out3 := out5 ^^ in2 ^^ in7 in let out7 := out3 ^^ in1 ^^ in3 in
    let out0 := out4 ^^ out6 ^^ in3 in let out1 := tmp1 ^^ out0 ^^ in7 in
    planes_xor (Planes out0 out1 out2 out3 out4 out5 out6 out7) in_ptr)].

(** gf8_muladd_F0 to gf8_muladd_F3. *)
Definition gf8_muladd_F0_F3 : list (list W -> list W -> list W) := [
  muladd_loop (fun out_ptr in_ptr =>
    let 'Planes in0 in1 in2 in3 in4 in5 in6 in7 := out_ptr in
    let tmp0 := in1 ^^ in2 in let tmp1 := in4 ^^ in5 in let out2 := tmp0 ^^ in6 in
    let out3 := tmp1 ^^ in1 in let tmp2 := tmp1 ^^ in7 in let out1 := out2 ^^ out3 ^^ in3 in
    let tmp3 := tmp0 ^^ tmp2 in let out0 := tmp3 ^^ in3 in let out5 := tmp3 ^^ in0 in
    let out4 := out1 ^^ out5 ^^ in4 in let out7 := out4 ^^ in2 in let out6 := tmp2 ^^ out7 in
    planes_xor (Planes out0 out1 out2 out3 out4 out5 out6 out7) in_ptr);
  muladd_loop (fun out_ptr in_ptr =>
    let 'Planes in0 in1 in2 in3 in4 in5 in6 in7 := out_ptr in
    let out2 := in1 ^^ in6 in let tmp0 := in3 ^^ in5 in let out3 := tmp0 ^^ in1 ^^ in4 in
    let tmp1 := out3 ^^ in2 in let out1 := tmp1 ^^ in6 in let tmp2 := tmp1 ^^ in0 in
    let tmp3 := out1 ^^ in5 in let out0 := tmp2 ^^ in7 in let out6 := tmp2 ^^ in4 in
    let out7 := tmp3 ^^ in0 in let out5 := tmp0 ^^ out0 in let out4 := tmp3 ^^ out5 ^^ in1 in
    planes_xor (Planes out0 out1 out2 out3 out4 out5 out6 out7) in_ptr);
  muladd_loop (fun out_ptr in_ptr =>
    let 'Planes in0 in1 in2 in3 in4 in5 in6 in7 := out_ptr in
    let tmp0 := in4 ^^ in5 in let out2 := in2 ^^ in6 ^^ in7 in let tmp1 := tmp0 ^^ in1 in
    let tmp2 := tmp1 ^^ in2 in let out0 := tmp2 ^^ in3 in let out3 := tmp2 ^^ in7 in
    let out5 := out3 ^^ in0 ^^ in4 in let tmp3 := tmp0 ^^ out5 in let out7 := tmp3 ^^ in3 in
    let out4 := tmp3 ^^ out2 in let out1 := out0 ^^ out4 ^^ in4 in let out6 := tmp1 ^^ out1 in
    planes_xor (Planes out0 out1 out2 out3 out4 out5 out6 out7) in_ptr);
  muladd_loop (fun out_ptr in_ptr =>
    let 'Planes in0 in1 in2 in3 in4 in5 in6 in7 := out_ptr in
    let out2 := in6 ^^ in7 in let tmp0 := in0 ^^ in1 in let out4 := tmp0 ^^ in6 in
    let tmp1 := tmp0 ^^ in2 in let out5 := tmp1 ^^ in7 in let out6 := tmp1 ^^ in3 in
    let out7 := out6 ^^ in4 in let out0 := out7 ^^ in5 in let out1 := out0 ^^ in6 in
    let out3 := out0 ^^ in0 ^^ in7 in
    planes_xor (Planes out0 out1 out2 out3 out4 out5 out6 out7) in_ptr)].

(** gf8_muladd_F4 to gf8_muladd_F7. *)
Definition gf8_muladd_F4_F7 : list (list W -> list W -> list W) := [
  muladd_loop (fun out_ptr in_ptr =>
    let 'Planes in0 in1 in2 in3 in4 in5 in6 in7 := out_ptr in
    let out2 := in0 ^^ in1 ^^ in2 in let tmp0 := out2 ^^ in3 in let out4 := tmp0 ^^ in4 in
    let out5 := out4 ^^ in5 in let out6 := out5 ^^ in6 in let out7 := out6 ^^ in7 in
    let out0 := out7 ^^ in0 in let out1 := out0 ^^ in1 in let out3 := tmp0 ^^ out7 in
    planes_xor (Planes out0 out1 out2 out3 out4 out5 out6 out7) in_ptr);
  muladd_loop (fun out_ptr in_ptr =>
    let 'Planes in0 in1 in2 in3 in4 in5 in6 in7 := out_ptr in
    let out2 := in0 ^^ in1 in let tmp0 := out2 ^^ in2 in let out4 := tmp0 ^^ in3 in
    let out5 := out4 ^^ in4 in let out6 := out5 ^^ in5 in let out7 := out6 ^^ in6 in
    let out0 := out7 ^^ in7 in let out1 := out0 ^^ in0 in let out3 := tmp0 ^^ out0 in
    planes_xor (Planes out0 out1 out2 out3 out4 out5 out6 out7) in_ptr);
  muladd_loop (fun out_ptr in_ptr =>
    let 'Planes in0 in1 in2 in3 in4 in5 in6 in7 := out_ptr in
    let tmp0 := in0 ^^ in7 in let out2 := tmp0 ^^ in2 in let out4 := out2 ^^ in1 ^^ in4 in
    let out7 := out4 ^^ in3 ^^ in5 in let out5 := out7 ^^ in4 ^^ in7 in
    let out0 := tmp0 ^^ out7 ^^ in6 in let tmp1 := out0 ^^ in1 in
    let out6 := out0 ^^ in0 ^^ in5 in let out3 := tmp1 ^^ in3 in let out1 := tmp0 ^^ tmp1 in
    planes_xor (Planes out0 out1 out2 out3 out4 out5 out6 out7) in_ptr);
  muladd_loop (fun out_ptr in_ptr =>
    let 'Planes in0 in1 in2 in3 in4 in5 in6 in7 := out_ptr in
    let out2 := in0 ^^ in7 in let tmp0 := out2 ^^ in1 in let out4 := tmp0 ^^ in2 in
    let out5 := out4 ^^ in3 ^^ in7 in let out6 := out5 ^^ in4 in let out7 := out6 ^^ in5 in
    let out0 := out7 ^^ in6 in let out1 := out0 ^^ in7 in let out3 := tmp0 ^^ out1 in
    planes_xor (Planes out0 out1 out2 out3 out4 out5 out6 out7) in_ptr)].

(** gf8_muladd_F8 to gf8_muladd_FB. *)
Definition gf8_muladd_F8_FB : list (list W -> list W -> list W) := [
  muladd_loop (fun out_ptr in_ptr =>
    let 'Planes in0 in1 in2 in3 in4 in5 in6 in7 := out_ptr in
    let tmp0 := in0 ^^ in4 in let tmp1 := in3 ^^ in5 in let tmp2 := tmp0 ^^ in6 in
    let out4 := tmp0 ^^ tmp1 in let out1 := tmp1 ^^ in2 ^^ in4 in let out3 := tmp2 ^^ in1 in
    let out5 := out3 ^^ in5 in let out7 := out1 ^^ out5 ^^ in7 in let out6 := tmp1 ^^ out7 in
    let out0 := tmp2 ^^ out7 in let out2 := out6 ^^ in0 in
    planes_xor (Planes out0 out1 out2 out3 out4 out5 out6 out7) in_ptr);
  muladd_loop (fun out_ptr in_ptr =>
    let 'Planes in0 in1 in2 in3 in4 in5 in6 in7 := out_ptr in
    let tmp0 := in3 ^^ in5 in let tmp1 := in0 ^^ in6 in let out4 := tmp0 ^^ in0 in
    let tmp2 := tmp1 ^^ in4 in let tmp3 := tmp1 ^^ in2 in let out5 := tmp2 ^^ in1 in
    let out3 := out5 ^^ in3 in let tmp4 := tmp3 ^^ out3 in let out1 := tmp4 ^^ in5 in
    let out0 := tmp4 ^^ in0 ^^ in7 in let out6 := tmp0 ^^ out0 ^^ in4 in
    let out7 := tmp2 ^^ tmp4 in let out2 := tmp3 ^^ out6 in
    planes_xor (Planes out0 out1 out2 out3 out4 out5 out6 out7) in_ptr);
  muladd_loop (fun out_ptr in_ptr =>
    let 'Planes in0 in1 in2 in3 in4 in5 in6 in7 := out_ptr in
    let tmp0 := in0 ^^ in1 in let tmp1 := tmp0 ^^ in2 in let tmp2 := tmp0 ^^ in5 in
    let tmp3 := tmp1 ^^ in7 in let out5 := tmp2 ^^ in6 in let out6 := tmp3 ^^ in6 in
    let out7 := tmp3 ^^ in3 in let out3 := out6 ^^ in4 in let out2 := tmp1 ^^ out5 in
    let out4 := out2 ^^ out3 ^^ in1 in let out0 := out4 ^^ out7 ^^ in5 in
    let out1 := tmp2 ^^ out0 in
    planes_xor (Planes out0 out1 out2 out3 out4 out5 out6 out7) in_ptr);
  muladd_loop (fun out_ptr in_ptr =>
    let 'Planes in0 in1 in2 in3 in4 in5 in6 in7 := out_ptr in
    let out2 := in5 ^^ in6 in let tmp0 := in0 ^^ in1 in let out4 := in0 ^^ in5 ^^ in7 in
    let out5 := tmp0 ^^ in6 in let tmp1 := tmp0 ^^ in2 in let out6 := tmp1 ^^ in7 in
    let out7 := tmp1 ^^ in3 in let out0 := out7 ^^ in4 in let out1 := out0 ^^ in5 in
    let out3 := out0 ^^ in6 ^^ in7 in
    planes_xor (Planes out0 out1 out2 out3 out4 out5 out6 out7) in_ptr)].

(** gf8_muladd_FC to gf8_muladd_FF. *)
Definition gf8_muladd_FC_FF : list (list W -> list W -> list W) := [
  muladd_loop (fun out_ptr in_ptr =>
    let 'Planes in0 in1 in2 in3 in4 in5 in6 in7 := out_ptr in
    let tmp0 := in1 ^^ in2 in let tmp1 := in0 ^^ in7 in let out2 := tmp0 ^^ tmp1 ^^ in5 in
    let out3 := tmp1 ^^ in4 in let tmp2 := out2 ^^ in6 in let out6 := tmp2 ^^ in4 in
    let out7 := tmp2 ^^ in3 in let out4 := out6 ^^ in1 ^^ in3 in let tmp3 := out4 ^^ in0 in
    let out1 := tmp3 ^^ in6 in let out0 := tmp3 ^^ in1 ^^ in5 in let out5 := tmp0 ^^ out4 in
    planes_xor (Planes out0 out1 out2 out3 out4 out5 out6 out7) in_ptr);
  muladd_loop (fun out_ptr in_ptr =>
    let 'Planes in0 in1 in2 in3 in4 in5 in6 in7 := out_ptr in
    let tmp0 := in0 ^^ in5 in let tmp1 := in1 ^^ in7 in let out2 := tmp0 ^^ tmp1 in
    let out6 := out2 ^^ in2 ^^ in4 in let tmp2 := out6 ^^ in0 in let out1 := tmp2 ^^ in3 in
    let out0 := tmp0 ^^ out1 ^^ in6 in let out5 := out0 ^^ in2 in let tmp3 := out5 ^^ in1 in
    let out3 := tmp3 ^^ in6 in let out7 := tmp2 ^^ tmp3 in let out4 := tmp1 ^^ out7 in
    planes_xor (Planes out0 out1 out2 out3 out4 out5 out6 out7) in_ptr);
  muladd_loop (fun out_ptr in_ptr =>
    let 'Planes in0 in1 in2 in3 in4 in5 in6 in7 := out_ptr in
    let tmp0 := in0 ^^ in2 in let out2 := tmp0 ^^ in5 in let out3 := tmp0 ^^ in4 in
    let tmp1 := out3 ^^ in6 in let out4 := tmp1 ^^ in5 in let tmp2 := tmp1 ^^ in1 in
    let out6 := tmp2 ^^ in7 in let tmp3 := tmp2 ^^ in0 in let out0 := tmp3 ^^ in3 in
    let tmp4 := out0 ^^ out4 ^^ in7 in let out5 := tmp4 ^^ in6 in let out7 := tmp4 ^^ in2 in
    let out1 := tmp3 ^^ out5 in
    planes_xor (Planes out0 out1 out2 out3 out4 out5 out6 out7) in_ptr);
  muladd_loop (fun out_ptr in_ptr =>
    let 'Planes in0 in1 in2 in3 in4 in5 in6 in7 := out_ptr in
    let out2 := in0 ^^ in5 in let tmp0 := in4 ^^ in7 in let tmp1 := out2 ^^ in2 in
    let out4 := tmp1 ^^ in6 in let out7 := tmp1 ^^ in1 ^^ in3 in let out1 := tmp0 ^^ out7 in
    let tmp2 := out1 ^^ in5 in let out6 := tmp2 ^^ in3 in let tmp3 := tmp2 ^^ in7 in
    let out0 := tmp3 ^^ in6 in let out3 := tmp3 ^^ in1 in let out5 := tmp0 ^^ out0 ^^ in2 in
    planes_xor (Planes out0 out1 out2 out3 out4 out5 out6 out7) in_ptr)].

(** The function table [gf8_muladd], indexed by the factor. *)
Definition gf8_muladd : list (list W -> list W -> list W) :=
  gf8_muladd_00_03 ++ gf8_muladd_04_07 ++ gf8_muladd_08_0B ++ gf8_muladd_0C_0F ++
  gf8_muladd_10_13 ++ gf8_muladd_14_17 ++ gf8_muladd_18_1B ++ gf8_muladd_1C_1F ++
  gf8_muladd_20_23 ++ gf8_muladd_24_27 ++ gf8_muladd_28_2B ++ gf8_muladd_2C_2F ++
  gf8_muladd_30_33 ++ gf8_muladd_34_37 ++ gf8_muladd_38_3B ++ gf8_muladd_3C_3F ++
  gf8_muladd_40_43 ++ gf8_muladd_44_47 ++ gf8_muladd_48_4B ++ gf8_muladd_4C_4F ++
  gf8_muladd_50_53 ++ gf8_muladd_54_57 ++ gf8_muladd_58_5B ++ gf8_muladd_5C_5F ++
  gf8_muladd_60_63 ++ gf8_muladd_64_67 ++ gf8_muladd_68_6B ++ gf8_muladd_6C_6F ++
  gf8_muladd_70_73 ++ gf8_muladd_74_77 ++ gf8_muladd_78_7B ++ gf8_muladd_7C_7F ++
  gf8_muladd_80_83 ++ gf8_muladd_84_87 ++ gf8_muladd_88_8B ++ gf8_muladd_8C_8F ++
  gf8_muladd_90_93 ++ gf8_muladd_94_97 ++ gf8_muladd_98_9B ++ gf8_muladd_9C_9F ++
  gf8_muladd_A0_A3 ++ gf8_muladd_A4_A7 ++ gf8_muladd_A8_AB ++ gf8_muladd_AC_AF ++
  gf8_muladd_B0_B3 ++ gf8_muladd_B4_B7 ++ gf8_muladd_B8_BB ++ gf8_muladd_BC_BF ++
  gf8_muladd_C0_C3 ++ gf8_muladd_C4_C7 ++ gf8_muladd_C8_CB ++ gf8_muladd_CC_CF ++
  gf8_muladd_D0_D3 ++ gf8_muladd_D4_D7 ++ gf8_muladd_D8_DB ++ gf8_muladd_DC_DF ++
  gf8_muladd_E0_E3 ++ gf8_muladd_E4_E7 ++ gf8_muladd_E8_EB ++ gf8_muladd_EC_EF ++
  gf8_muladd_F0_F3 ++ gf8_muladd_F4_F7 ++ gf8_muladd_F8_FB ++ gf8_muladd_FC_FF.

(** A call through the table. *)
Definition muladd (v : Z) (out inp : list W) : list W :=
  match gf8_muladd !! Z.to_nat v with Some f => f out inp | None => out end.

(** The chunk at byte [offset] of a buffer of words. *)
Definition chunk_at (buf : list W) (offset : nat) : list W := take 64 (drop (offset / 8) buf).

Definition EC_METHOD_CHUNK_SIZE : nat := 512.

(** The loop [while (--count > 0)] of [ec_code_c_linear], [n] iterations. *)
Fixpoint linear_loop (n : nat) (dst src : list W) (offset : nat) (values : list Z) : list W :=
  match n, values with
  | S n', value :: values' =>
      let offset := offset + EC_METHOD_CHUNK_SIZE in
      linear_loop n' (muladd value dst (chunk_at src offset)) src offset values'
  | _, _ => dst
  end.

Definition ec_code_c_linear (dst src : list W) (offset : nat) (values : list Z) (count : nat)
    : list W :=
  linear_loop (count - 1) (muladd 0 dst (chunk_at src offset)) src offset values.

(** The loop [while ((last = *values++) == 0)]: the first nonzero value, the
    values after it and its index.  [None] runs past the end of the values. *)
Fixpoint skip_zeros (values : list Z) (i : nat) : option (Z * list Z * nat) :=
  match values with
  | [] => None
  | v :: values' => if (v =? 0)%Z then skip_zeros values' (S i) else Some (v, values', i)
  end.

(** The loop [while (i < count)]; gives [dst] and [last]. *)
Fixpoint interleaved_loop (n : nat) (dst : list W) (src : list (list W)) (offset : nat)
    (values : list Z) (i : nat) (last : Z) : list W * Z :=
  match n, values with
  | S n', tmp :: values' =>
      if negb (tmp =? 0)%Z
      then interleaved_loop n' (muladd last dst (chunk_at (src !!! i) offset)) src offset
             values' (S i) tmp
      else interleaved_loop n' dst src offset values' (S i) last
  | _, _ => (dst, last)
  end.

(** [zero] is the static buffer of zeros. *)
Definition ec_code_c_interleaved (zero : list W) (dst : list W) (src : list (list W))
    (offset : nat) (values : list Z) (count : nat) : option (list W) :=
  match skip_zeros values 0 with
  | None => None
  | Some (last, values', i) =>
      let dst := muladd 0 dst (chunk_at (src !!! i) offset) in
      let '(dst, last) := interleaved_loop (count - S i) dst src offset values' (S i) last in
      Some (muladd last dst zero)
  end.

End routines.

(** The loop of [ec_code_c_prepare], from index [n - 1] down to 0. *)
Fixpoint prepare_loop (gf : ec_gf) (n : nat) (last : Z) (values : list Z) : list Z :=
  match n with
  | O => values
  | S k =>
      let tmp := values !!! k in
      if negb (tmp =? 0)%Z
      then prepare_loop gf k tmp (<[k := ec_gf_div gf tmp last]> values)
      else prepare_loop gf k last values
  end.

(** [ec_code_c_prepare] updates the coefficients in place. *)
Definition ec_code_c_prepare (gf : ec_gf) (values : list Z) (count : nat) : list Z :=
  prepare_loop gf count 1 values.
