(* ===== verification/EcLanes.v ===== *)
(** * Symbols of a chunk and the correctness of the multiplication routines

    The eight words [i], [WIDTH + i], ..., [WIDTH * 7 + i] of a chunk hold 64
    symbols of GF(2^8): bit [b] of the j-th word is bit [j] of the symbol in
    lane [(i, b)].  Every [gf8_muladd_XX] is shown to act on each symbol as
    multiplication by XX followed by an addition.

    Each body is first turned into the eight exclusive-or terms it computes
    (checked by conversion), then the terms are compared as bit masks with the
    rows of the multiplication by XX (checked by computation), so no fact about
    a single function is proved by hand. *)

From S2P Require Import Prelude EcGf8 EcGalois EcCodeC.
Open Scope Z_scope.

(** ** Exclusive-or terms *)

Inductive term := Leaf (n : nat) | Xor (a b : term).

#[export] Instance term_inhabited : Inhabited term := populate (Leaf 0).

Fixpoint term_eval {W} (xor : W -> W -> W) (env : nat -> W) (t : term) : W :=
  match t with
  | Leaf n => env n
  | Xor a b => xor (term_eval xor env a) (term_eval xor env b)
  end.

Fixpoint term_mask (t : term) : Z :=
  match t with
  | Leaf n => 2 ^ Z.of_nat n
  | Xor a b => Z.lxor (term_mask a) (term_mask b)
  end.

Fixpoint term_below (k : nat) (t : term) : bool :=
  match t with
  | Leaf n => (n <? k)%nat
  | Xor a b => term_below k a && term_below k b
  end.

Definition planes_map {A B} (f : A -> B) (p : planes A) : planes B :=
  let 'Planes a0 a1 a2 a3 a4 a5 a6 a7 := p in
  Planes (f a0) (f a1) (f a2) (f a3) (f a4) (f a5) (f a6) (f a7).

Definition planes_list {A} (p : planes A) : list A :=
  let 'Planes a0 a1 a2 a3 a4 a5 a6 a7 := p in [a0; a1; a2; a3; a4; a5; a6; a7].

(** Leaves 0 to 7 are the planes of [out], 8 to 15 those of [in]. *)
Definition planes_env {W} `{Inhabited W} (p q : planes W) (n : nat) : W :=
  (planes_list p ++ planes_list q) !!! n.

(** Exclusive or of [f 0], ..., [f (n - 1)]. *)
Fixpoint xorsum (n : nat) (f : nat -> bool) : bool :=
  match n with O => false | S k => xorb (xorsum k f) (f k) end.

(** The symbol whose bits are given. *)
Definition sym8 (p : planes bool) : Z :=
  let 'Planes a0 a1 a2 a3 a4 a5 a6 a7 := p in
  Z.b2z a0 + 2 * (Z.b2z a1 + 2 * (Z.b2z a2 + 2 * (Z.b2z a3 + 2 * (Z.b2z a4 +
    2 * (Z.b2z a5 + 2 * (Z.b2z a6 + 2 * Z.b2z a7)))))).

(** The symbol in lane [(i, b)] of a chunk. *)
Definition symbol (c : list Z) (i : nat) (b : Z) : Z :=
  sym8 (planes_map (fun w => Z.testbit w b) (get_planes c i)).

(** A chunk: 64 words of 64 bits. *)
Definition word_ok (w : Z) : Prop := 0 <= w < 2 ^ 64.
Definition chunk_ok (c : list Z) : Prop := length c = 64%nat /\ Forall word_ok c.

(** ** Facts *)

Section xorsum_facts.
Lemma xorsum_ext n f g : (forall k, (k < n)%nat -> f k = g k) -> xorsum n f = xorsum n g.
Proof.
  induction n as [|n IH]; cbn; intros Hfg; [reflexivity|].
  rewrite IH, Hfg by (intros; try apply Hfg; lia). reflexivity.
Qed.

Lemma xorsum_xorb n f g : xorsum n (fun k => xorb (f k) (g k)) = xorb (xorsum n f) (xorsum n g).
Proof.
  induction n as [|n IH]; cbn; [reflexivity|]. rewrite IH.
  destruct (xorsum n f), (xorsum n g), (f n), (g n); reflexivity.
Qed.

Lemma xorsum_false n f : (forall k, (k < n)%nat -> f k = false) -> xorsum n f = false.
Proof.
  intros Hf. rewrite (xorsum_ext n f (fun _ => false)) by auto.
  induction n as [|n IH]; cbn; [reflexivity|]. rewrite IH; [reflexivity|]. intros. apply Hf. lia.
Qed.

Lemma xorsum_single n m f :
  (m < n)%nat -> (forall k, (k < n)%nat -> k <> m -> f k = false) -> xorsum n f = f m.
Proof.
  induction n as [|n IH]; cbn; intros Hm Hf; [lia|].
  destruct (decide (m = n)) as [->|].
  - rewrite xorsum_false; [destruct (f n); reflexivity|]. intros. apply Hf; lia.
  - rewrite IH, (Hf n) by (intros; try apply Hf; lia). apply xorb_false_r.
Qed.

Lemma xorsum_add n m f : xorsum (n + m) f = xorb (xorsum n f) (xorsum m (fun k => f (n + k)%nat)).
Proof.
  induction m as [|m IH]; cbn; [rewrite Nat.add_0_r, xorb_false_r; reflexivity|].
  rewrite Nat.add_succ_r. cbn. rewrite IH, xorb_assoc. reflexivity.
Qed.
End xorsum_facts.

(** A map that respects the exclusive or commutes with evaluation. *)
Lemma term_eval_hom {W W'} (xor : W -> W -> W) (xor' : W' -> W' -> W') (h : W -> W') env t :
  (forall a b, h (xor a b) = xor' (h a) (h b)) ->
  h (term_eval xor env t) = term_eval xor' (fun n => h (env n)) t.
Proof. intros Hh. induction t as [|a IHa b IHb]; cbn; [|rewrite Hh, IHa, IHb]; reflexivity. Qed.

Lemma term_eval_ext {W} (xor : W -> W -> W) k env env' t :
  term_below k t = true -> (forall n, (n < k)%nat -> env n = env' n) ->
  term_eval xor env t = term_eval xor env' t.
Proof.
  intros Ht He. induction t as [n|a IHa b IHb]; cbn in *; [apply He, Nat.ltb_lt, Ht|].
  apply andb_true_iff in Ht as [Ha Hb]. rewrite IHa, IHb by auto. reflexivity.
Qed.

(** Over booleans a term is the exclusive or of the leaves in its mask. *)
Lemma term_eval_mask k env t :
  term_below k t = true ->
  term_eval xorb env t = xorsum k (fun n => Z.testbit (term_mask t) (Z.of_nat n) && env n).
Proof.
  induction t as [n|a IHa b IHb]; cbn; intros Hb.
  - apply Nat.ltb_lt in Hb. rewrite (xorsum_single k n).
    + rewrite Z.pow2_bits_true by lia. reflexivity.
    + exact Hb.
    + intros m _ Hm. rewrite Z.pow2_bits_false by lia. reflexivity.
  - apply andb_true_iff in Hb as [Ha Hb]. rewrite IHa, IHb, <- xorsum_xorb by auto.
    apply xorsum_ext. intros n _. rewrite Z.lxor_spec.
    destruct (Z.testbit _ _), (Z.testbit _ _), (env n); reflexivity.
Qed.

(** *** Symbols *)

Lemma sym8_field p : in_field (sym8 p).
Proof.
  unfold in_field. destruct p as [a0 a1 a2 a3 a4 a5 a6 a7]. cbn [sym8].
  destruct a0, a1, a2, a3, a4, a5, a6, a7; cbn; lia.
Qed.

Lemma sym8_testbit p k :
  (k < 8)%nat -> Z.testbit (sym8 p) (Z.of_nat k) = planes_list p !!! k.
Proof.
  intros Hk. destruct p as [a0 a1 a2 a3 a4 a5 a6 a7].
  do 8 (destruct k as [|k];
    [destruct a0, a1, a2, a3, a4, a5, a6, a7; reflexivity|]). lia.
Qed.

Lemma field_bits_eq x y :
  in_field x -> in_field y ->
  (forall k, (k < 8)%nat -> Z.testbit x (Z.of_nat k) = Z.testbit y (Z.of_nat k)) -> x = y.
Proof.
  intros Hx Hy Hxy. apply Z.bits_inj'. intros n Hn.
  destruct (Z.lt_ge_cases n 8) as [Hn'|Hn'].
  - specialize (Hxy (Z.to_nat n)). rewrite Z2Nat.id in Hxy by lia. apply Hxy. lia.
  - assert (Hhigh : forall z, in_field z -> Z.testbit z n = false).
    { intros z Hz. destruct (Z.eq_dec z 0) as [->|]; [apply Z.bits_0|].
      unfold in_field in Hz. apply Z.bits_above_log2; [lia|].
      apply Z.lt_le_trans with 8; [apply Z.log2_lt_pow2; lia | lia]. }
    rewrite !Hhigh by auto. reflexivity.
Qed.

(** Bit [i] of a product, from the bits of the right factor. *)
Lemma gmul_bits_testbit n a b i :
  Z.testbit (gmul_bits n a b) i =
  xorsum n (fun j => Z.testbit (xpow j a) i && Z.testbit b (Z.of_nat j)).
Proof.
  induction n as [|n IH]; cbn [gmul_bits xorsum]; [apply Z.bits_0|].
  rewrite Z.lxor_spec, IH. f_equal. destruct (Z.testbit b _).
  - rewrite andb_true_r. reflexivity.
  - rewrite andb_false_r. apply Z.bits_0.
Qed.

(** ** The terms of the routines *)

Definition leaf_chunk (base : nat) : list term :=
  concat (map (fun j => Leaf (base + j) :: replicate 7 (Leaf 0)) (seq 0 8)).

(** The planes every routine but the first computes, as terms. *)
Definition muladd_terms : list (planes term) :=
  Eval vm_compute in
    map (fun f => get_planes (f (leaf_chunk 0) (leaf_chunk 8)) 0) (drop 1 (gf8_muladd Xor)).

(** A routine is the loop over a body that computes the terms. *)
Definition computes {W} `{Inhabited W} (xor : W -> W -> W)
    (f : list W -> list W -> list W) (ts : planes term) : Prop :=
  exists body, f = muladd_loop body /\
    forall p q, body p q = planes_map (term_eval xor (planes_env p q)) ts.

Lemma muladd_computes {W} `{Inhabited W} (xor : W -> W -> W) :
  Forall2 (computes xor) (drop 1 (gf8_muladd xor)) muladd_terms.
Proof.
  unfold gf8_muladd, muladd_terms. cbn [app drop].
  repeat (apply Forall2_cons; split; [eexists; split; [reflexivity|]; intros [] []; reflexivity|]).
  apply Forall2_nil_2.
Qed.

(** *** Comparison with multiplication *)

(** Term [i] of the routine for [c]: row [i] of the multiplication by [c] on
    the leaves of [out], and leaf [i] of [in]. *)
Definition row_ok (c : Z) (i : nat) (t : term) : bool :=
  term_below 16 t &&
  forallb (fun n => eqb (Z.testbit (term_mask t) (Z.of_nat n))
                        (Z.testbit (xpow n c) (Z.of_nat i))) (seq 0 8) &&
  forallb (fun n => eqb (Z.testbit (term_mask t) (Z.of_nat (8 + n))) (n =? i)%nat) (seq 0 8).

Definition rows_ok (c : Z) (ts : planes term) : bool :=
  forallb (fun '(i, t) => row_ok c i t) (zip (seq 0 8) (planes_list ts)).

Lemma muladd_terms_check :
  forallb (fun '(c, ts) => rows_ok c ts) (zip (seqZ 1 255) muladd_terms) = true.
Proof. vm_compute. reflexivity. Qed.

Lemma forallb_seq (P : nat -> bool) a n k :
  forallb P (seq a n) = true -> (a <= k < a + n)%nat -> P k = true.
Proof. rewrite forallb_forall. intros HP Hk. apply HP, in_seq. exact Hk. Qed.

Lemma planes_map_lookup {A B} `{Inhabited A} `{Inhabited B} (f : A -> B) p k :
  (k < 8)%nat -> planes_list (planes_map f p) !!! k = f (planes_list p !!! k).
Proof. intros Hk. destruct p. do 8 (destruct k as [|k]; [reflexivity|]). lia. Qed.

Lemma rows_ok_row c ts i : rows_ok c ts = true -> (i < 8)%nat -> row_ok c i (planes_list ts !!! i) = true.
Proof.
  unfold rows_ok. destruct ts. cbn -[row_ok].
  rewrite !andb_true_iff. intros Hts Hi.
  do 8 (destruct i as [|i]; [cbn -[row_ok]; tauto|]). lia.
Qed.

(** The value of a row that passed the comparison, on the bits of two symbols. *)
Lemma row_ok_eval c i t (p q : planes bool) :
  row_ok c i t = true -> (i < 8)%nat ->
  term_eval xorb (planes_env p q) t =
  xorb (Z.testbit (gmul c (sym8 p)) (Z.of_nat i)) (Z.testbit (sym8 q) (Z.of_nat i)).
Proof.
  unfold row_ok. rewrite !andb_true_iff. intros [[Hb Hc] Hq] Hi.
  rewrite (term_eval_mask 16), (xorsum_add 8 8) by auto. unfold gmul. f_equal.
  - rewrite gmul_bits_testbit. apply xorsum_ext. intros k Hk.
    pose proof (forallb_seq _ _ _ k Hc ltac:(lia)) as E. apply eqb_prop in E. rewrite E.
    f_equal. rewrite sym8_testbit by lia. destruct p, q.
    do 8 (destruct k as [|k]; [reflexivity|]). lia.
  - rewrite sym8_testbit, (xorsum_single 8 i) by
      (auto; intros k Hk Hne; pose proof (forallb_seq _ _ _ k Hq ltac:(lia)) as E;
       apply eqb_prop in E; rewrite E, (proj2 (Nat.eqb_neq k i)) by auto; reflexivity).
    pose proof (forallb_seq _ _ _ i Hq ltac:(lia)) as E. apply eqb_prop in E.
    rewrite E, Nat.eqb_refl. destruct p, q.
    do 8 (destruct i as [|i]; [reflexivity|]). lia.
Qed.

(** The planes such terms compute over words, lane by lane. *)
Lemma rows_ok_sym c ts (p q : planes Z) b :
  nonzero c -> rows_ok c ts = true ->
  let bits := planes_map (fun w => Z.testbit w b) in
  sym8 (bits (planes_map (term_eval Z.lxor (planes_env p q)) ts)) =
  Z.lxor (mul8 c (sym8 (bits p))) (sym8 (bits q)).
Proof.
  intros Hc Hts bits. pose proof (sym8_field (bits p)). pose proof (sym8_field (bits q)).
  apply field_bits_eq; [apply sym8_field | auto with gf|]. intros k Hk.
  rewrite sym8_testbit, Z.lxor_spec, mul8_gmul by auto with gf.
  unfold bits at 1. rewrite !planes_map_lookup by auto.
  rewrite (term_eval_hom _ xorb (fun w => Z.testbit w b)) by (intros; apply Z.lxor_spec).
  rewrite <- (row_ok_eval c k (planes_list ts !!! k) (bits p) (bits q)) by auto using rows_ok_row.
  apply (term_eval_ext _ 16).
  - pose proof (rows_ok_row c ts k Hts Hk) as Hr. unfold row_ok in Hr.
    rewrite !andb_true_iff in Hr. tauto.
  - intros n Hn. unfold planes_env. destruct p, q. cbn -[lookup_total].
    do 16 (destruct n as [|n]; [reflexivity|]). lia.
Qed.
