(* ===== verification/EcChunks.v ===== *)
(** * Encoding and decoding chunks

    The routines of [ec-code-c.c] on whole chunks: [gf8_muladd_XX] multiplies
    and adds symbol by symbol, [ec_code_c_linear] and [ec_code_c_interleaved]
    with the coefficients prepared by [ec_code_c_prepare] compute the linear
    combination of their input chunks with the original coefficients. *)

From S2P Require Import Prelude EcGf8 EcGalois EcCodeC EcLanes.
Open Scope Z_scope.

(** The program's instance of the routines. *)
Abbreviation muladdZ := (muladd Z.lxor).

(** ** One iteration of the loop *)

Lemma set_planes_length {W} (c : list W) i p : length (set_planes c i p) = length c.
Proof. destruct p. cbn. rewrite !length_insert. reflexivity. Qed.

Lemma get_set_planes {W} `{Inhabited W} (c : list W) i p :
  length c = 64%nat -> (i < 8)%nat -> get_planes (set_planes c i p) i = p.
Proof.
  intros Hc Hi. destruct p. unfold get_planes, set_planes, WIDTH.
  f_equal; repeat first
    [ rewrite list_lookup_total_insert_eq by (rewrite ?length_insert; lia); reflexivity
    | rewrite list_lookup_total_insert_ne by lia ].
Qed.

Lemma get_set_planes_ne {W} `{Inhabited W} (c : list W) i j p :
  (i < 8)%nat -> (j < 8)%nat -> i <> j -> get_planes (set_planes c i p) j = get_planes c j.
Proof.
  intros Hi Hj Hij. destruct p. unfold get_planes, set_planes, WIDTH.
  f_equal; repeat rewrite list_lookup_total_insert_ne by lia; reflexivity.
Qed.

(** ** The loop *)

Lemma muladd_steps_get {W} `{Inhabited W} (body : planes W -> planes W -> planes W) (inp : list W) l
    (out : list W) j :
  NoDup l -> Forall (fun i => (i < 8)%nat) l -> length out = 64%nat -> (j < 8)%nat ->
  let out' := foldl (fun out i =>
    set_planes out i (body (get_planes out i) (get_planes inp i))) out l in
  length out' = 64%nat /\
  get_planes out' j =
    if decide (j ∈ l) then body (get_planes out j) (get_planes inp j) else get_planes out j.
Proof.
  intros Hnd Hl Hout Hj. cbn. revert out Hout.
  induction l as [|i l IH]; intros out Hout; cbn [foldl]; [split; [auto | reflexivity]|].
  apply NoDup_cons in Hnd as [Hil Hnd]. apply Forall_cons in Hl as [Hi Hl].
  destruct (IH Hnd Hl (set_planes out i (body (get_planes out i) (get_planes inp i))))
    as [Hlen Hget]; [rewrite set_planes_length; auto|]. split; [exact Hlen|].
  rewrite Hget. destruct (decide (j = i)) as [->|Hij].
  - rewrite (decide_False (P := i ∈ l)) by auto. rewrite decide_True by (rewrite elem_of_cons; tauto).
    rewrite get_set_planes by auto. reflexivity.
  - rewrite get_set_planes_ne by auto. destruct (decide (j ∈ l)).
    + rewrite decide_True by (rewrite elem_of_cons; tauto). reflexivity.
    + rewrite decide_False by (rewrite elem_of_cons; tauto). reflexivity.
Qed.

Lemma muladd_loop_get {W} `{Inhabited W} body (out inp : list W) j :
  length out = 64%nat -> (j < 8)%nat ->
  length (muladd_loop body out inp) = 64%nat /\
  get_planes (muladd_loop body out inp) j = body (get_planes out j) (get_planes inp j).
Proof.
  intros Hout Hj. destruct (muladd_steps_get body inp (seq 0 8) out j) as [Hlen Hget]; auto.
  - apply NoDup_ListNoDup, seq_NoDup.
  - apply Forall_forall. intros i Hi%elem_of_seq. lia.
  - split; [exact Hlen|]. rewrite decide_True in Hget by (apply elem_of_seq; lia). exact Hget.
Qed.

(** *** Words stay within 64 bits *)

Lemma word_lxor a b : word_ok a -> word_ok b -> word_ok (Z.lxor a b).
Proof.
  unfold word_ok. intros Ha Hb. assert (0 <= Z.lxor a b) by (apply Z.lxor_nonneg; lia).
  split; [auto|]. destruct (Z.eq_dec (Z.lxor a b) 0) as [->|]; [lia|].
  apply (Z.log2_lt_pow2 _ 64); [lia|]. eapply Z.le_lt_trans; [apply Z.log2_lxor; lia|].
  apply Z.max_lub_lt.
  - destruct (Z.eq_dec a 0) as [->|]; [reflexivity | apply Z.log2_lt_pow2; lia].
  - destruct (Z.eq_dec b 0) as [->|]; [reflexivity | apply Z.log2_lt_pow2; lia].
Qed.

Lemma term_eval_word env t :
  (forall n, word_ok (env n)) -> word_ok (term_eval Z.lxor env t).
Proof. intros He. induction t; cbn; auto using word_lxor. Qed.

Lemma lookup_word c n : Forall word_ok c -> word_ok (c !!! n).
Proof.
  intros Hc. rewrite list_lookup_total_alt. destruct (c !! n) as [w|] eqn:E; cbn.
  - eapply Forall_lookup_1; eauto.
  - unfold word_ok. lia.
Qed.

Definition planes_ok (p : planes Z) : Prop := Forall word_ok (planes_list p).

Lemma get_planes_ok c i : Forall word_ok c -> planes_ok (get_planes c i).
Proof. intros Hc. unfold planes_ok, get_planes. cbn. repeat constructor; apply lookup_word, Hc. Qed.

Lemma set_planes_ok c i p : Forall word_ok c -> planes_ok p -> Forall word_ok (set_planes c i p).
Proof.
  intros Hc Hp. destruct p. unfold planes_ok in Hp. cbn in Hp.
  repeat match goal with H : Forall _ (_ :: _) |- _ => apply Forall_cons in H as [? H] end.
  unfold set_planes. repeat (apply Forall_insert; [|assumption]). exact Hc.
Qed.

Lemma terms_planes_ok ts p q :
  planes_ok p -> planes_ok q ->
  planes_ok (planes_map (term_eval Z.lxor (planes_env p q)) ts).
Proof.
  unfold planes_ok. intros Hp Hq. destruct ts. cbn.
  repeat constructor; apply term_eval_word; intros n; apply lookup_word, Forall_app; auto.
Qed.

Lemma muladd_loop_ok body out inp :
  (forall p q, planes_ok p -> planes_ok q -> planes_ok (body p q)) ->
  chunk_ok out -> Forall word_ok inp -> chunk_ok (muladd_loop body out inp).
Proof.
  intros Hb [Hl Hout] Hin. split.
  - destruct (muladd_loop_get body out inp 0) as [Hlen _]; auto. lia.
  - unfold muladd_loop. revert out Hl Hout. induction (seq 0 WIDTH) as [|i l IH]; cbn; auto.
    intros out Hl Hout. apply IH; [rewrite set_planes_length; auto|].
    apply set_planes_ok; auto. apply Hb; apply get_planes_ok; auto.
Qed.

(** ** Multiplication and addition of chunks *)

(** The routine of a nonzero factor and the terms it computes. *)
Lemma muladd_routine c :
  nonzero c -> exists f ts,
    gf8_muladd Z.lxor !! Z.to_nat c = Some f /\ computes Z.lxor f ts /\ rows_ok c ts = true.
Proof.
  intros Hc. unfold nonzero in Hc. pose proof (muladd_computes Z.lxor) as HF.
  set (n := Z.to_nat (c - 1)).
  assert (Hn : (n < length (drop 1 (gf8_muladd Z.lxor)))%nat).
  { rewrite (Forall2_length _ _ _ HF). unfold n. change (length muladd_terms) with 255%nat. lia. }
  destruct (lookup_lt_is_Some_2 _ _ Hn) as [f Hf].
  destruct (Forall2_lookup_l _ _ _ _ _ HF Hf) as (ts & Hts & Hcomp).
  exists f, ts. split; [|split; [exact Hcomp|]].
  - rewrite lookup_drop in Hf. rewrite <- Hf. f_equal. lia.
  - pose proof muladd_terms_check as Hck. rewrite forallb_forall in Hck.
    apply (Hck (c, ts)), list_elem_of_In, list_elem_of_lookup. exists n.
    apply lookup_zip_with_Some. exists c, ts. split; [reflexivity|]. split; [|exact Hts].
    apply lookup_seqZ. unfold n. lia.
Qed.

Lemma muladd_symbol c out inp i b :
  nonzero c -> chunk_ok out -> (i < 8)%nat ->
  symbol (muladdZ c out inp) i b = Z.lxor (mul8 c (symbol out i b)) (symbol inp i b).
Proof.
  intros Hc [Hlen Hout] Hi. destruct (muladd_routine c Hc) as (f & ts & Hf & (body & -> & Hbody) & Hts).
  unfold muladd, symbol. rewrite Hf.
  destruct (muladd_loop_get body out inp i) as [_ ->]; [auto..|]. rewrite Hbody.
  apply rows_ok_sym; auto.
Qed.

Lemma muladd_ok c out inp :
  nonzero c -> chunk_ok out -> Forall word_ok inp -> chunk_ok (muladdZ c out inp).
Proof.
  intros Hc Hout Hin. destruct (muladd_routine c Hc) as (f & ts & Hf & (body & -> & Hbody) & Hts).
  unfold muladd. rewrite Hf. apply muladd_loop_ok; auto.
  intros p q Hp Hq. rewrite Hbody. apply terms_planes_ok; auto.
Qed.

(** Function 0 copies. *)
Lemma muladd_copy (out inp : list Z) :
  chunk_ok out -> chunk_ok inp -> muladdZ 0 out inp = inp.
Proof.
  intros [Ho _] [Hi _]. change (muladdZ 0 out inp) with (take 64 inp ++ drop 64 out).
  rewrite take_ge, drop_ge, app_nil_r by lia. reflexivity.
Qed.

(** A chunk is determined by its symbols. *)
Lemma symbol_bit c i b k :
  (k < 8)%nat -> Z.testbit (symbol c i b) (Z.of_nat k) = Z.testbit (c !!! (8 * k + i)%nat) b.
Proof.
  intros Hk. unfold symbol. rewrite sym8_testbit by auto.
  do 8 (destruct k as [|k]; [cbn [planes_list planes_map get_planes]; reflexivity|]). lia.
Qed.

Lemma symbol_field c i b : in_field (symbol c i b).
Proof. apply sym8_field. Qed.

Lemma word_high w b : word_ok w -> 64 <= b -> Z.testbit w b = false.
Proof.
  unfold word_ok. intros Hw Hb. destruct (Z.eq_dec w 0) as [->|]; [apply Z.bits_0|].
  apply Z.bits_above_log2; [lia|]. apply Z.lt_le_trans with 64; [apply Z.log2_lt_pow2; lia | lia].
Qed.

Lemma chunk_ext c c' :
  chunk_ok c -> chunk_ok c' ->
  (forall i b, (i < 8)%nat -> 0 <= b < 64 -> symbol c i b = symbol c' i b) -> c = c'.
Proof.
  intros [Hl Hc] [Hl' Hc'] Hs. apply list_eq_same_length with 64%nat; auto.
  intros n x y Hn Hx Hy. apply Z.bits_inj'. intros b Hb.
  assert (Hxw : c !!! n = x) by (apply list_lookup_total_correct; auto).
  assert (Hyw : c' !!! n = y) by (apply list_lookup_total_correct; auto).
  destruct (Z.lt_ge_cases b 64) as [Hb'|Hb'].
  - pose proof (symbol_bit c (n mod 8) b (n / 8)) as E.
    pose proof (symbol_bit c' (n mod 8) b (n / 8)) as E'.
    assert (n / 8 < 8)%nat by (apply Nat.Div0.div_lt_upper_bound; lia).
    rewrite <- Nat.div_mod_eq, Hxw in E by lia. rewrite <- Nat.div_mod_eq, Hyw in E' by lia.
    rewrite <- E, <- E' by auto. rewrite Hs; auto. apply Nat.mod_upper_bound. lia.
  - rewrite !word_high; auto.
    + eapply Forall_lookup_1 in Hy; eauto.
    + eapply Forall_lookup_1 in Hx; eauto.
Qed.

(** ** Prepared coefficients *)

(** The first nonzero coefficient, 1 if there is none. *)
Fixpoint next_value (vs : list Z) : Z :=
  match vs with [] => 1 | v :: vs => if v =? 0 then next_value vs else v end.

(** Every nonzero coefficient divided by the next nonzero one. *)
Fixpoint ratios (vs : list Z) : list Z :=
  match vs with
  | [] => []
  | v :: vs => (if v =? 0 then 0 else div8 v (next_value vs)) :: ratios vs
  end.

Lemma ratios_length vs : length (ratios vs) = length vs.
Proof. induction vs; cbn; auto. Qed.

Lemma next_value_nonzero vs : Forall in_field vs -> nonzero (next_value vs).
Proof.
  induction 1 as [|v vs Hv _ IH]; cbn; [unfold nonzero; lia|].
  destruct (Z.eqb_spec v 0); auto. destruct (field_cases v Hv); auto. lia.
Qed.

Lemma prepare_loop_ratios l1 l2 :
  prepare_loop gf8 (length l1) (next_value l2) (l1 ++ ratios l2) = ratios (l1 ++ l2).
Proof.
  revert l2. induction l1 as [|v l1 IH] using rev_ind; intros l2; [reflexivity|].
  rewrite length_app. cbn [length]. rewrite Nat.add_1_r. cbn [prepare_loop].
  rewrite <- !(assoc_L (++)). cbn [app].
  rewrite list_lookup_total_middle by auto. specialize (IH (v :: l2)). cbn in IH.
  destruct (v =? 0) eqn:E; cbn [negb].
  - apply Z.eqb_eq in E. subst v. exact IH.
  - rewrite insert_app_r_alt, Nat.sub_diag by lia. exact IH.
Qed.

Lemma prepare_ratios vs : ec_code_c_prepare gf8 vs (length vs) = ratios vs.
Proof.
  pose proof (prepare_loop_ratios vs []) as H. cbn in H. rewrite !app_nil_r in H. exact H.
Qed.

(** ** Linear combinations *)

Fixpoint lincomb (vs xs : list Z) : Z :=
  match vs, xs with
  | v :: vs, x :: xs => Z.lxor (mul8 v x) (lincomb vs xs)
  | _, _ => 0
  end.

Lemma lincomb_field vs xs : Forall in_field vs -> Forall in_field xs -> in_field (lincomb vs xs).
Proof.
  intros Hv. revert xs. induction Hv as [|v vs Hv _ IH]; cbn; auto with gf.
  intros [|x xs] Hx; auto with gf. apply Forall_cons in Hx as [??]. auto with gf.
Qed.

Lemma lincomb_symbols_field vs cs i b :
  Forall in_field vs -> in_field (lincomb vs (map (fun c => symbol c i b) cs)).
Proof.
  intros Hv. apply lincomb_field; auto. apply Forall_fmap, Forall_forall.
  intros c _. apply symbol_field.
Qed.

(** Scaling step of both routines. *)
Lemma ratio_step v w d s :
  in_field v -> nonzero w -> in_field d -> in_field s ->
  mul8 w (Z.lxor (mul8 (div8 v w) d) s) = Z.lxor (mul8 v d) (mul8 w s).
Proof.
  intros Hv Hw Hd Hs. assert (in_field (div8 v w)) by (apply div8_field; auto).
  rewrite mul8_lxor_r by auto with gf. f_equal.
  rewrite mul8_assoc, mul8_div8 by auto with gf. reflexivity.
Qed.

Lemma div8_1 v : in_field v -> div8 v 1 = v.
Proof.
  intros Hv. pose proof (mul8_div8 v 1 Hv ltac:(unfold nonzero; lia)) as H.
  rewrite mul8_1_l in H; auto. apply div8_field; auto. unfold nonzero; lia.
Qed.

Lemma div8_nonzero v w : nonzero v -> nonzero w -> nonzero (div8 v w).
Proof.
  intros Hv Hw. pose proof (div8_field v w (nonzero_field v Hv) Hw) as Hd.
  destruct (field_cases _ Hd) as [E|]; auto.
  pose proof (mul8_div8 v w (nonzero_field v Hv) Hw) as H. rewrite E in H.
  rewrite mul8_comm, mul8_0_l in H by auto with gf. unfold nonzero in *. lia.
Qed.

(** ** The routine over separate buffers *)

Definition zero_buf : list Z := replicate 512 0.

Lemma zero_symbol i b : (i < 8)%nat -> symbol zero_buf i b = 0.
Proof.
  intros Hi. apply field_bits_eq; [apply symbol_field | auto with gf|]. intros k Hk.
  rewrite symbol_bit, Z.bits_0 by auto. unfold zero_buf.
  rewrite lookup_total_replicate_2 by lia. apply Z.bits_0.
Qed.

Lemma zero_words : Forall word_ok zero_buf.
Proof. apply Forall_replicate. unfold word_ok. lia. Qed.

Section interleaved.
Context (src : list (list Z)) (offset : nat).
Local Abbreviation chunk buf := (chunk_at buf offset).

Lemma interleaved_loop_spec vs i dst v :
  length vs = length (drop i src) -> Forall in_field vs -> nonzero v -> chunk_ok dst ->
  Forall (fun buf => chunk_ok (chunk buf)) (drop i src) ->
  let '(dst', last) := interleaved_loop Z.lxor (length vs) dst src offset (ratios vs) i
                         (div8 v (next_value vs)) in
  nonzero last /\ chunk_ok dst' /\
  forall l b, (l < 8)%nat ->
    mul8 last (symbol dst' l b) =
    Z.lxor (mul8 v (symbol dst l b))
      (lincomb vs (map (fun buf => symbol (chunk buf) l b) (drop i src))).
Proof.
  revert i dst v. induction vs as [|w vs IH]; intros i dst v Hlen Hvs Hv Hdst Hsrc.
  { cbn. rewrite div8_1 by auto with gf. destruct (drop i src); [|discriminate].
    split; [auto|]. split; [auto|]. intros. cbn. rewrite Z.lxor_0_r. reflexivity. }
  destruct (drop i src) as [|buf rest] eqn:Ed; [discriminate|].
  assert (Hi : src !!! i = buf).
  { apply list_lookup_total_correct. rewrite <- (Nat.add_0_r i), <- lookup_drop, Ed. reflexivity. }
  assert (Hr : drop (S i) src = rest).
  { rewrite <- Nat.add_1_r, <- drop_drop, Ed. reflexivity. }
  apply Forall_cons in Hvs as [Hw Hvs]. apply Forall_cons in Hsrc as [Hbuf Hsrc].
  injection Hlen as Hlen. rewrite <- Hr in Hlen, Hsrc.
  cbn [interleaved_loop length ratios next_value map lincomb].
  destruct (Z.eqb_spec w 0) as [->|Hw0]; cbn [negb].
  { cbn [Z.eqb negb]. specialize (IH (S i) dst v Hlen Hvs Hv Hdst Hsrc). rewrite Hr in IH.
    destruct (interleaved_loop _ _ _ _ _ _ _ _) as [dst' last]. destruct IH as (? & ? & IH).
    split; [auto|]. split; [auto|]. intros l b Hl. rewrite IH, mul8_0_l, Z.lxor_0_l; auto.
    apply symbol_field. }
  assert (Hwn : nonzero w) by (destruct (field_cases w Hw); [lia | auto]).
  pose proof (div8_nonzero w _ Hwn (next_value_nonzero vs Hvs)) as Hq.
  pose proof (div8_nonzero v w Hv Hwn) as Hvw.
  destruct (Z.eqb_spec (div8 w (next_value vs)) 0); [unfold nonzero in Hq; lia|]. cbn [negb].
  rewrite Hi. destruct Hbuf as [Hbl Hbw].
  specialize (IH (S i) (muladdZ (div8 v w) dst (chunk buf)) w Hlen Hvs Hwn
    (muladd_ok _ _ _ Hvw Hdst Hbw) Hsrc). rewrite Hr in IH.
  destruct (interleaved_loop _ _ _ _ _ _ _ _) as [dst' last]. destruct IH as (? & ? & IH).
  split; [auto|]. split; [auto|]. intros l b Hl. rewrite IH, muladd_symbol by auto.
  rewrite ratio_step by auto using symbol_field with gf. apply Z.lxor_assoc.
Qed.

Lemma skip_zeros_ratios vs i :
  Forall in_field vs -> Exists (fun v => v <> 0) vs ->
  exists n v vs', vs = replicate n 0 ++ v :: vs' /\ nonzero v /\
    skip_zeros (ratios vs) i = Some (div8 v (next_value vs'), ratios vs', (i + n)%nat).
Proof.
  intros Hvs He. revert i. induction vs as [|v vs IH]; intros i; [inversion He|].
  apply Forall_cons in Hvs as [Hv Hvs]. cbn. destruct (Z.eqb_spec v 0) as [->|Hv0].
  - apply Exists_cons in He as [|He]; [congruence|].
    destruct (IH Hvs He (S i)) as (n & v & vs' & -> & Hv' & Hs).
    exists (S n), v, vs'. split; [reflexivity|]. split; [auto|]. rewrite Hs. do 2 f_equal. lia.
  - assert (Hvn : nonzero v) by (destruct (field_cases v Hv); [lia | auto]).
    exists 0%nat, v, vs. rewrite Nat.add_0_r.
    pose proof (div8_nonzero v _ Hvn (next_value_nonzero vs Hvs)).
    destruct (Z.eqb_spec (div8 v (next_value vs)) 0); [unfold nonzero in *; lia|]. auto.
Qed.

Lemma lincomb_zeros n vs xs :
  Forall in_field xs -> lincomb (replicate n 0 ++ vs) xs = lincomb vs (drop n xs).
Proof.
  revert xs. induction n as [|n IH]; intros xs Hx; [reflexivity|].
  destruct xs as [|x xs]; [destruct vs; reflexivity|]. apply Forall_cons in Hx as [Hx Hxs].
  cbn. rewrite mul8_0_l, Z.lxor_0_l by auto. apply IH; auto.
Qed.

(** [ec_code_c_interleaved] with prepared coefficients computes the linear
    combination of the chunks with the original coefficients. *)
Lemma interleaved_spec vs dst :
  length vs = length src -> Forall in_field vs -> Exists (fun v => v <> 0) vs -> chunk_ok dst ->
  Forall (fun buf => chunk_ok (chunk buf)) src ->
  exists dst',
    ec_code_c_interleaved Z.lxor zero_buf dst src offset
      (ec_code_c_prepare gf8 vs (length vs)) (length vs) = Some dst' /\
    chunk_ok dst' /\
    forall l b, (l < 8)%nat ->
      symbol dst' l b = lincomb vs (map (fun buf => symbol (chunk buf) l b) src).
Proof.
  intros Hlen Hvs He Hdst Hsrc. rewrite prepare_ratios. unfold ec_code_c_interleaved.
  destruct (skip_zeros_ratios vs 0 Hvs He) as (n & v & vs' & Evs & Hv & ->). cbn [Nat.add].
  assert (El : length vs = (n + S (length vs'))%nat)
    by (rewrite Evs, length_app, length_replicate; reflexivity).
  assert (Hvs' : Forall in_field vs').
  { rewrite Evs in Hvs. apply Forall_app in Hvs as [_ Hvs]. apply Forall_cons in Hvs. tauto. }
  destruct (lookup_lt_is_Some_2 src n) as [buf Hbuf]; [lia|].
  assert (Hn : chunk_ok (chunk buf)) by (eapply Forall_lookup_1 in Hsrc; eauto).
  rewrite (list_lookup_total_correct _ _ _ Hbuf), muladd_copy by auto.
  replace (length vs - S n)%nat with (length vs') by lia.
  pose proof (interleaved_loop_spec vs' (S n) (chunk buf) v) as Hloop.
  destruct (interleaved_loop _ _ _ _ _ _ _ _) as [dst' last].
  destruct Hloop as (Hlast & Hdst' & Hsym); [|auto..|apply Forall_drop; auto|].
  { rewrite length_drop. lia. }
  exists (muladdZ last dst' zero_buf). split; [reflexivity|].
  split; [apply muladd_ok; auto using zero_words|]. intros l b Hl.
  rewrite muladd_symbol, zero_symbol, Z.lxor_0_r, Hsym by auto.
  rewrite Evs, lincomb_zeros by (apply Forall_fmap, Forall_forall; intros; apply symbol_field).
  change (@map (list Z) Z) with (@fmap list _ (list Z) Z). rewrite <- fmap_drop.
  rewrite (drop_S _ _ _ Hbuf). reflexivity.
Qed.
End interleaved.

(** ** The routine over one buffer *)

Section linear.
Context (src : list Z).

(** The [n] chunks from byte [offset]. *)
Fixpoint chunks_from (n offset : nat) : list (list Z) :=
  match n with
  | O => []
  | S k => chunk_at src offset :: chunks_from k (offset + EC_METHOD_CHUNK_SIZE)
  end.

Lemma linear_loop_spec vs offset dst v :
  Forall nonzero (v :: vs) -> List.last (v :: vs) 1 = 1 -> chunk_ok dst ->
  Forall chunk_ok (chunks_from (length vs) (offset + EC_METHOD_CHUNK_SIZE)) ->
  let dst' := linear_loop Z.lxor (length vs) dst src offset (ratios (v :: vs)) in
  chunk_ok dst' /\
  forall l b, (l < 8)%nat ->
    symbol dst' l b = Z.lxor (mul8 v (symbol dst l b))
      (lincomb vs (map (fun c => symbol c l b)
        (chunks_from (length vs) (offset + EC_METHOD_CHUNK_SIZE)))).
Proof.
  revert offset dst v. induction vs as [|w vs IH]; intros offset dst v Hvs Hlast Hdst Hc.
  { cbn in *. subst v. split; [auto|]. intros.
    rewrite mul8_1_l, Z.lxor_0_r by apply symbol_field. reflexivity. }
  apply Forall_cons in Hvs as [Hv Hws]. pose proof Hws as [Hw Hvs]%Forall_cons.
  cbn [length chunks_from] in Hc. apply Forall_cons in Hc as [Hc Hcs].
  assert (Ev : (v =? 0) = false) by (apply Z.eqb_neq; unfold nonzero in Hv; lia).
  assert (Ew : (w =? 0) = false) by (apply Z.eqb_neq; unfold nonzero in Hw; lia).
  cbn zeta. cbn [length linear_loop chunks_from map lincomb].
  change (ratios (v :: w :: vs)) with ((if v =? 0 then 0 else div8 v (next_value (w :: vs))) :: ratios (w :: vs)).
  cbn [next_value]. rewrite Ev, Ew.
  pose proof (div8_nonzero v w Hv Hw) as Hvw.
  destruct (IH (offset + EC_METHOD_CHUNK_SIZE)%nat
    (muladdZ (div8 v w) dst (chunk_at src (offset + EC_METHOD_CHUNK_SIZE))) w)
    as [Hok Hsym]; auto.
  { apply muladd_ok; auto. apply Hc. }
  split; [exact Hok|]. intros l b Hl. rewrite Hsym, muladd_symbol by auto.
  rewrite ratio_step by auto using symbol_field with gf. apply Z.lxor_assoc.
Qed.

(** [ec_code_c_linear] with prepared coefficients computes the linear
    combination of consecutive chunks, when no coefficient is zero and the
    last one is 1. *)
Lemma linear_spec vs offset dst :
  vs <> [] -> Forall nonzero vs -> List.last vs 1 = 1 -> chunk_ok dst ->
  Forall chunk_ok (chunks_from (length vs) offset) ->
  let dst' := ec_code_c_linear Z.lxor dst src offset
                (ec_code_c_prepare gf8 vs (length vs)) (length vs) in
  chunk_ok dst' /\
  forall l b, (l < 8)%nat ->
    symbol dst' l b = lincomb vs (map (fun c => symbol c l b) (chunks_from (length vs) offset)).
Proof.
  intros Hne Hvs Hlast Hdst Hc. rewrite prepare_ratios. unfold ec_code_c_linear.
  destruct vs as [|v vs]; [congruence|]. cbn [length chunks_from] in *.
  apply Forall_cons in Hc as [Hc Hcs]. rewrite muladd_copy by auto.
  rewrite Nat.sub_succ, Nat.sub_0_r. apply linear_loop_spec; auto.
Qed.
End linear.
