(* ===== verification/EcPoly.v ===== *)
(** * Interpolation over a field

    Polynomials as coefficient lists, the highest degree first.  The facts are
    those behind the decoding matrix: a polynomial with more distinct roots
    than its degree is zero, and a polynomial of degree below [k] is recovered
    from its values at [k] distinct points with the quotients of the product
    of the [X - x] by each factor. *)

From S2P Require Import Prelude.
From Stdlib Require Import Field_theory Field.

Section interpolation.
Context {F : Type} {EqF : EqDecision F} (f0 f1 : F) (add mul sub : F -> F -> F) (opp : F -> F)
  (div : F -> F -> F) (inv : F -> F).
Context (Fth : field_theory f0 f1 add mul sub opp div inv (@eq F)).

Declare Scope field_scope.
Local Open Scope field_scope.
Local Notation "0" := f0 : field_scope.
Local Notation "1" := f1 : field_scope.
Local Infix "+" := add : field_scope.
Local Infix "*" := mul : field_scope.
Local Infix "-" := sub : field_scope.
Local Infix "/" := div : field_scope.

Add Field Ffield : Fth.

(** ** Definitions *)

(** Horner evaluation of the coefficients [c] after the accumulator [acc]. *)
Definition horner (acc : F) (c : list F) (y : F) : F := foldl (fun s a => s * y + a) acc c.

Fixpoint fpow (x : F) (n : nat) : F := match n with O => 1 | S k => x * fpow x k end.

(** Quotient of the polynomial [acc :: c] by [X - x]. *)
Fixpoint quot (x acc : F) (c : list F) : list F :=
  match c with [] => [] | a :: c => acc :: quot x (a + x * acc) c end.

(** Product of the polynomial [prev :: c] by [X - v], without its first
    coefficient. *)
Fixpoint mulx (v prev : F) (c : list F) : list F :=
  match c with
  | [] => [opp (v * prev)]
  | a :: c => (a - v * prev) :: mulx v a c
  end.

(** The coefficients but the leading one of the product of [X - v]. *)
Definition roots_poly (v0 : F) (vs : list F) : list F :=
  foldl (fun c v => mulx v 1 c) [opp v0] vs.

(** Sum and scaling of coefficient lists. *)
Definition padd (p q : list F) : list F := zip_with add p q.
Definition pscale (a : F) (p : list F) : list F := map (mul a) p.

(** The polynomial with value [val x] at every [x] of [xs]. *)
Fixpoint interp (Q : F -> list F) (val : F -> F) (k : nat) (xs : list F) : list F :=
  match xs with
  | [] => replicate k 0
  | x :: xs => padd (pscale (val x / horner 0 (Q x) x) (Q x)) (interp Q val k xs)
  end.

(** ** Facts *)

Lemma horner_acc s c y : horner s c y = s * fpow y (length c) + horner 0 c y.
Proof.
  revert s. induction c as [|a c IH]; intros s; unfold horner; cbn; [ring|].
  change (horner (s * y + a) c y = s * (y * fpow y (length c)) + horner (0 * y + a) c y).
  rewrite IH, (IH (0 * y + a)). ring.
Qed.

Lemma horner_cons s a c y : horner s (a :: c) y = horner (s * y + a) c y.
Proof. reflexivity. Qed.

Lemma quot_length x acc c : length (quot x acc c) = length c.
Proof. revert acc. induction c; intros; cbn; auto. Qed.

Lemma quot_spec x acc c y :
  horner acc c y = (y - x) * horner 0 (quot x acc c) y + horner acc c x.
Proof.
  revert acc. induction c as [|a c IH]; intros acc; [unfold horner; cbn; ring|].
  cbn [quot]. rewrite !horner_cons, (horner_acc (0 * y + acc)), quot_length.
  specialize (IH (a + x * acc)). rewrite (horner_acc (a + x * acc) c y) in IH.
  rewrite (horner_acc (acc * y + a)). replace (acc * x + a) with (a + x * acc) by ring.
  set (h := horner 0 c y) in *. set (P := fpow y (length c)) in *.
  set (q := horner 0 (quot x (a + x * acc) c) y) in *. set (r := horner (a + x * acc) c x) in *.
  assert (E : h = (y - x) * q + r - (a + x * acc) * P) by (rewrite <- IH; ring).
  rewrite E. ring.
Qed.

Lemma mul_zero a b : a * b = 0 -> a = 0 \/ b = 0.
Proof.
  intros H. destruct (decide (a = 0)) as [|Ha]; [auto|]. right.
  transitivity (inv a * (a * b)); [field; auto | rewrite H; ring].
Qed.

Lemma sub_zero a b : a - b = 0 -> a = b.
Proof. intros H. transitivity ((a - b) + b); [ring | rewrite H; ring]. Qed.

Lemma quot_zero x acc c :
  quot x acc c = replicate (length c) 0 -> horner acc c x = 0 ->
  acc :: c = replicate (S (length c)) 0.
Proof.
  revert acc. induction c as [|a c IH]; intros acc Hq Hr.
  - unfold horner in Hr. cbn in *. congruence.
  - cbn in Hq. injection Hq as -> Hq. rewrite horner_cons in Hr.
    replace (0 * x + a) with a in Hr by ring. replace (a + x * 0) with a in Hq by ring.
    change (0 :: a :: c = 0 :: replicate (S (length c)) 0). f_equal. apply IH; auto.
Qed.

(** More distinct roots than the degree: the zero polynomial. *)
Lemma too_many_roots n c xs :
  length c = n -> NoDup xs -> (n <= length xs)%nat -> (forall x, x ∈ xs -> horner 0 c x = 0) ->
  c = replicate n 0.
Proof.
  revert c xs. induction n as [|n IH]; intros c xs El Hnd Hl Hr.
  { destruct c; [reflexivity | discriminate]. }
  destruct c as [|a c]; [discriminate|]. injection El as El.
  destruct xs as [|x xs]; [cbn in Hl; lia|]. apply NoDup_cons in Hnd as [Hx Hnd].
  assert (Hh : forall y, y ∈ x :: xs -> horner a c y = 0).
  { intros y Hy. rewrite <- (Hr y Hy), horner_cons. f_equal. ring. }
  pose proof (Hh x ltac:(apply elem_of_cons; auto)) as Hx0.
  subst n. apply quot_zero with x; [|exact Hx0].
  apply (IH (quot x a c) xs); [apply quot_length | auto | cbn in Hl; lia|].
  intros y Hy. pose proof (Hh y ltac:(apply elem_of_cons; auto)) as Hy0.
  rewrite (quot_spec x a c y), Hx0 in Hy0.
  destruct (mul_zero (y - x) (horner 0 (quot x a c) y)) as [H0|]; [|apply sub_zero in H0|auto].
  - etransitivity; [|exact Hy0]. ring.
  - subst. contradiction.
Qed.

(** *** The product of the factors *)

Lemma mulx_length v prev c : length (mulx v prev c) = S (length c).
Proof. revert prev. induction c; intros; cbn; auto. Qed.

Lemma mulx_horner v prev c s y :
  horner (s * (y - v) + prev) (mulx v prev c) y =
  (y - v) * (s * fpow y (S (length c)) + prev * fpow y (length c) + horner 0 c y).
Proof.
  revert prev s. induction c as [|a c IH]; intros prev s.
  { unfold horner. cbn. ring. }
  cbn [mulx length]. rewrite horner_cons.
  replace ((s * (y - v) + prev) * y + (a - v * prev)) with ((s * y + prev) * (y - v) + a) by ring.
  rewrite IH, horner_cons. rewrite (horner_acc (0 * y + a)). cbn. ring.
Qed.

Lemma mulx_monic v c y : horner 1 (mulx v 1 c) y = (y - v) * horner 1 c y.
Proof.
  replace 1 with (0 * (y - v) + 1) at 1 by ring. rewrite mulx_horner, (horner_acc 1). ring.
Qed.

Lemma roots_poly_length v0 vs : length (roots_poly v0 vs) = S (length vs).
Proof.
  unfold roots_poly. replace (S (length vs)) with (length [opp v0] + length vs)%nat by reflexivity.
  generalize [opp v0]. induction vs as [|v vs IH]; intros c; cbn; [lia|].
  rewrite IH, mulx_length. cbn. lia.
Qed.

Lemma roots_poly_root v0 vs y : y ∈ v0 :: vs -> horner 1 (roots_poly v0 vs) y = 0.
Proof.
  intros Hy. unfold roots_poly.
  assert (Hc : horner 1 [opp v0] y = 0 \/ y ∈ vs).
  { apply elem_of_cons in Hy as [->|]; auto. left. unfold horner. cbn. ring. }
  clear Hy. revert Hc. generalize [opp v0].
  induction vs as [|v vs IH]; intros c Hc; cbn; [destruct Hc as [|Hc%elem_of_nil]; tauto|].
  apply IH. rewrite elem_of_cons in Hc. destruct Hc as [Hc|[->|Hc]]; auto; left;
    rewrite mulx_monic; [rewrite Hc|]; ring.
Qed.

(** *** Sums of scaled polynomials *)

Lemma padd_horner p q s t y :
  length p = length q -> horner (s + t) (padd p q) y = horner s p y + horner t q y.
Proof.
  revert q s t. induction p as [|a p IH]; intros [|b q] s t Hl; try discriminate.
  { unfold horner. cbn. ring. }
  injection Hl as Hl. unfold padd. cbn [zip_with]. fold (padd p q).
  rewrite !horner_cons, <- IH by auto. f_equal. ring.
Qed.

Lemma pscale_horner a p s y : horner (a * s) (pscale a p) y = a * horner s p y.
Proof.
  revert s. induction p as [|b p IH]; intros s; [unfold horner; cbn; ring|].
  cbn [pscale map]. rewrite !horner_cons. fold (pscale a p). rewrite <- IH. f_equal. ring.
Qed.

Lemma zeros_horner k y : horner 0 (replicate k 0) y = 0.
Proof.
  induction k as [|k IH]; [reflexivity|]. cbn [replicate]. rewrite horner_cons.
  replace (0 * y + 0) with 0 by ring. exact IH.
Qed.

Section interp_facts.
Context (Q : F -> list F) (val : F -> F) (k : nat) (Hk : forall x, length (Q x) = k).

Lemma interp_length xs : length (interp Q val k xs) = k.
Proof.
  induction xs; cbn; [apply length_replicate|].
  unfold padd, pscale. rewrite length_zip_with, length_map, Hk. lia.
Qed.

Lemma interp_horner_cons x xs y :
  horner 0 (interp Q val k (x :: xs)) y =
  val x / horner 0 (Q x) x * horner 0 (Q x) y + horner 0 (interp Q val k xs) y.
Proof.
  cbn [interp]. replace 0 with (0 + 0) at 1 by ring.
  rewrite padd_horner by (unfold pscale; rewrite length_map, Hk, interp_length; reflexivity).
  f_equal. rewrite <- pscale_horner. f_equal. ring.
Qed.

(** The value at a point, when each [Q x] vanishes at the other points. *)
Lemma interp_value xs y :
  NoDup xs -> (forall x, x ∈ xs -> x <> y -> horner 0 (Q x) y = 0) ->
  horner 0 (Q y) y <> 0 ->
  horner 0 (interp Q val k xs) y = if decide (y ∈ xs) then val y else 0.
Proof.
  intros Hnd Hz Hy. induction xs as [|x xs IH]; [apply zeros_horner|].
  apply NoDup_cons in Hnd as [Hx Hnd]. rewrite interp_horner_cons, IH;
    [|auto | intros; apply Hz; auto; apply elem_of_cons; auto].
  destruct (decide (x = y)) as [->|Hxy].
  - rewrite decide_False, decide_True by (rewrite ?elem_of_cons; auto). field; auto.
  - rewrite Hz by (rewrite ?elem_of_cons; auto).
    destruct (decide (y ∈ xs)); [rewrite decide_True by (rewrite elem_of_cons; auto)
      | rewrite decide_False by (rewrite elem_of_cons; intuition)]; ring.
Qed.
End interp_facts.

(** Two polynomials of degree below the number of points that agree there. *)
Lemma agree_equal p q xs :
  length p = length q -> NoDup xs -> (length p <= length xs)%nat ->
  (forall x, x ∈ xs -> horner 0 p x = horner 0 q x) -> p = q.
Proof.
  intros Hl Hnd Hle Hpq.
  assert (Hz : padd p (pscale (opp 1) q) = replicate (length p) 0).
  { apply too_many_roots with xs; auto.
    - unfold padd, pscale. rewrite length_zip_with, length_map. lia.
    - intros x Hx. replace 0 with (0 + opp 1 * 0) at 1 by ring.
      rewrite padd_horner, pscale_horner, Hpq by (unfold pscale; rewrite ?length_map; auto). ring. }
  clear Hnd Hle Hpq. revert q Hl Hz. induction p as [|a p IH]; intros [|b q] Hl Hz; try discriminate; auto.
  cbn in Hz. injection Hz as Hab Hz. injection Hl as Hl. f_equal; [|apply IH; auto].
  transitivity (a + opp 1 * b + b); [ring | rewrite Hab; ring].
Qed.

(** ** Recovering a polynomial from its values *)

Section recover.
Context (v0 : F) (vs : list F) (Hnd : NoDup (v0 :: vs)).
Let A : list F := roots_poly v0 vs.
Let Q (x : F) : list F := quot x 1 A.

Lemma recover_quot_other x y :
  x ∈ v0 :: vs -> y ∈ v0 :: vs -> x <> y -> horner 0 (Q x) y = 0.
Proof.
  intros Hx Hy Hxy. pose proof (quot_spec x 1 A y) as H.
  unfold A in H. rewrite !roots_poly_root in H by auto. symmetry in H.
  destruct (mul_zero (y - x) (horner 0 (quot x 1 (roots_poly v0 vs)) y)) as [H0|H0].
  - etransitivity; [|exact H]. ring.
  - apply sub_zero in H0. congruence.
  - exact H0.
Qed.

Lemma recover_quot_self x : x ∈ v0 :: vs -> horner 0 (Q x) x <> 0.
Proof.
  intros Hx H0. assert (Hz : Q x = replicate (S (length vs)) 0).
  { apply too_many_roots with (v0 :: vs); auto.
    - unfold Q, A. rewrite quot_length. apply roots_poly_length.
    - intros y Hy. destruct (decide (x = y)) as [->|]; auto using recover_quot_other. }
  unfold Q in Hz. pose proof (roots_poly_length v0 vs) as Hl. fold A in Hl.
  destruct A as [|a A']; [discriminate|]. cbn in Hz. injection Hz as H1 _.
  exact (F_1_neq_0 Fth H1).
Qed.

(** The interpolation of the values of [D] at these points, in any order, is
    [D]. *)
Lemma recover ys D :
  NoDup ys -> (forall x, x ∈ ys <-> x ∈ v0 :: vs) -> length ys = length D ->
  length D = S (length vs) -> interp Q (horner 0 D) (S (length vs)) ys = D.
Proof.
  intros Hys Hin Hl HD. assert (HQ : forall x, length (Q x) = S (length vs))
    by (intros; unfold Q, A; rewrite quot_length; apply roots_poly_length).
  apply agree_equal with ys; auto.
  - rewrite interp_length; auto.
  - rewrite interp_length by auto. lia.
  - intros x Hx. rewrite interp_value.
    + rewrite decide_True by auto. reflexivity.
    + auto.
    + auto.
    + intros y Hy Hne. apply recover_quot_other; auto; apply Hin; auto.
    + apply recover_quot_self, Hin, Hx.
Qed.
End recover.
End interpolation.
