(* ===== verification/EcField.v ===== *)
(** * GF(2^8) as a field

    The elements below 256 with the table operations of [ec-galois.c] form a
    field; the interpolation facts are instantiated with it. *)

From S2P Require Import Prelude EcGalois EcPoly.
From Stdlib Require Import Field_theory Eqdep_dec.
Open Scope Z_scope.

Definition in_fieldb (a : Z) : bool := (0 <=? a) && (a <? 256).

Record gf256 := mk_gf256 { gfv : Z; gfv_ok : in_fieldb gfv = true }.

Lemma in_fieldb_spec a : in_fieldb a = true <-> in_field a.
Proof. unfold in_fieldb, in_field. rewrite andb_true_iff, Z.leb_le, Z.ltb_lt. tauto. Qed.

Lemma gfv_field x : in_field (gfv x).
Proof. apply in_fieldb_spec, gfv_ok. Qed.

#[export] Hint Resolve gfv_field : gf.

Lemma gfv_inj x y : gfv x = gfv y -> x = y.
Proof.
  destruct x as [a Ha], y as [b Hb]; cbn; intros ->. f_equal.
  apply UIP_dec. decide equality.
Qed.

(** The element of a value; values out of range give 0. *)
Definition gf_of (a : Z) : gf256 :=
  match bool_dec (in_fieldb a) true with
  | left H => mk_gf256 a H
  | right _ => mk_gf256 0 eq_refl
  end.

Lemma gfv_of a : in_field a -> gfv (gf_of a) = a.
Proof.
  intros Ha. unfold gf_of. destruct (bool_dec _ _) as [|Hn]; [reflexivity|].
  apply in_fieldb_spec in Ha. contradiction.
Qed.

Lemma gf_of_gfv x : gf_of (gfv x) = x.
Proof. apply gfv_inj, gfv_of, gfv_field. Qed.

#[export] Instance gf256_eq_dec : EqDecision gf256.
Proof.
  intros x y. destruct (decide (gfv x = gfv y)) as [E|E]; [left; apply gfv_inj, E|].
  right. congruence.
Defined.

Definition fadd (x y : gf256) : gf256 := gf_of (ec_gf_add gf8 (gfv x) (gfv y)).
Definition fmul (x y : gf256) : gf256 := gf_of (mul8 (gfv x) (gfv y)).
Definition fdiv (x y : gf256) : gf256 :=
  if gfv y =? 0 then gf_of 0 else gf_of (div8 (gfv x) (gfv y)).
Definition finv (x : gf256) : gf256 := fdiv (gf_of 1) x.
Definition fopp (x : gf256) : gf256 := x.

Lemma gfv_0 : gfv (gf_of 0) = 0.
Proof. reflexivity. Qed.

Lemma gfv_1 : gfv (gf_of 1) = 1.
Proof. reflexivity. Qed.

Lemma gfv_add x y : gfv (fadd x y) = Z.lxor (gfv x) (gfv y).
Proof.
  unfold fadd, ec_gf_add. rewrite in_range by auto with gf. apply gfv_of. auto with gf.
Qed.

Lemma gfv_mul x y : gfv (fmul x y) = mul8 (gfv x) (gfv y).
Proof. apply gfv_of. auto with gf. Qed.

Lemma gfv_div x y : gfv y <> 0 -> gfv (fdiv x y) = div8 (gfv x) (gfv y).
Proof.
  intros Hy. unfold fdiv. destruct (Z.eqb_spec (gfv y) 0); [contradiction|].
  apply gfv_of, div8_field; auto with gf. pose proof (gfv_field y). unfold in_field, nonzero in *. lia.
Qed.

Create Rewrite HintDb gfv.
#[export] Hint Rewrite gfv_0 gfv_1 gfv_add gfv_mul : gfv.

Ltac gf_solve := intros; apply gfv_inj; autorewrite with gfv.

(** The operations of the translator satisfy the field laws. *)
Lemma gf256_field :
  field_theory (gf_of 0) (gf_of 1) fadd fmul fadd fopp fdiv finv (@eq gf256).
Proof.
  constructor; [constructor| | |].
  - gf_solve. apply Z.lxor_0_l.
  - gf_solve. apply Z.lxor_comm.
  - gf_solve. symmetry. apply Z.lxor_assoc.
  - gf_solve. apply mul8_1_l. auto with gf.
  - gf_solve. apply mul8_comm; auto with gf.
  - gf_solve. apply mul8_assoc; auto with gf.
  - gf_solve. rewrite mul8_comm, mul8_lxor_r by auto with gf.
    f_equal; apply mul8_comm; auto with gf.
  - reflexivity.
  - unfold fopp. gf_solve. apply Z.lxor_nilpotent.
  - intros H. apply (f_equal gfv) in H. discriminate.
  - intros p q. destruct (decide (gfv q = 0)) as [E|E]; gf_solve.
    + unfold finv, fdiv. rewrite E. cbn. rewrite mul8_comm, mul8_0_l; auto with gf.
    + unfold finv. rewrite !gfv_div by auto. autorewrite with gfv.
      assert (Hq : nonzero (gfv q)) by (destruct (field_cases _ (gfv_field q)); [contradiction | auto]).
      pose proof (div8_field _ _ one_field Hq) as Hd. pose proof (div8_field _ _ (gfv_field p) Hq) as Hp.
      rewrite <- (mul8_1_l (div8 (gfv p) (gfv q))) by auto.
      rewrite <- (mul8_div8 1 (gfv q)) at 1 by auto with gf.
      rewrite (mul8_comm (gfv q)), <- mul8_assoc, mul8_div8 by auto with gf.
      apply mul8_comm; auto with gf.
  - intros p Hp. gf_solve. assert (Hn : gfv p <> 0) by (contradict Hp; gf_solve; exact Hp).
    unfold finv. rewrite gfv_div by auto. autorewrite with gfv.
    assert (Hq : nonzero (gfv p)) by (destruct (field_cases _ (gfv_field p)); [contradiction | auto]).
    rewrite mul8_comm by auto using div8_field with gf. apply mul8_div8; auto with gf.
Qed.
