(* ===== verification/EcCode.v ===== *)
(** * The dynamic code generator of the disperse translator

    Models the builder of [xlators/cluster/ec/src/ec-code.c]: the sequence of
    register operations generated for a row of coefficients, and the choice
    between generated code and the portable routines.  The operations are given
    their meaning on a register file; their translation into x86 instructions
    ([ec-code-intel.c] and the avx, sse and x64 generators) and the memory the
    instructions live in are not modelled: whether [ec_code_compile] succeeds
    is the parameter [compiles]. *)

From S2P Require Import Prelude EcGf8 EcGalois EcCodeC.
Open Scope nat_scope.

Definition EC_GF_MAX_REGS : nat := 16.

Record ec_code_op := mk_code_op {
  co_op : ec_gf_opcode;
  co_arg1 : nat;
  co_arg2 : nat;
  co_arg3 : nat
}.

(** Of a generator, only whether it provides [xor3] matters here. *)
Record ec_code_gen := mk_gen { gen_xor3 : bool }.

Record ec_code := mk_code { code_gf : ec_gf; code_gen : option ec_code_gen }.

(** [bld_size] is the number of operations allocated by [ec_code_prepare],
    [bld_ops] those written so far, [bld_map] the register each logical
    register lives in. *)
Record ec_code_builder := mk_builder {
  bld_size : nat;
  bld_ops : list ec_code_op;
  bld_regs : nat;
  bld_map : list nat
}.

Section builder.
Context (gf : ec_gf) (gen : ec_code_gen).

(** [ec_code_op_next] and the assignments to the fields of the operation. *)
Definition ec_code_op_next (b : ec_code_builder) (op : ec_code_op) : ec_code_builder :=
  mk_builder (bld_size b) (bld_ops b ++ [op]) (bld_regs b) (bld_map b).

(** [ec_code_arg_assign] also accounts for the register. *)
Definition ec_code_arg_assign (b : ec_code_builder) (reg : nat) : ec_code_builder :=
  mk_builder (bld_size b) (bld_ops b) (if bld_regs b <=? reg then S reg else bld_regs b) (bld_map b).

Definition ec_code_load (b : ec_code_builder) (bit offset : nat) : ec_code_builder :=
  let reg := bld_map b !!! bit in
  ec_code_op_next (ec_code_arg_assign b reg) (mk_code_op EC_GF_OP_LOAD reg offset bit).

Definition ec_code_store (b : ec_code_builder) (reg bit : nat) : ec_code_builder :=
  ec_code_op_next b (mk_code_op EC_GF_OP_STORE (bld_map b !!! reg) 0 bit).

Definition ec_code_copy (b : ec_code_builder) (dst src : nat) : ec_code_builder :=
  let reg := bld_map b !!! dst in
  ec_code_op_next (ec_code_arg_assign b reg) (mk_code_op EC_GF_OP_COPY reg (bld_map b !!! src) 0).

Definition ec_code_xor2 (b : ec_code_builder) (dst src : nat) : ec_code_builder :=
  ec_code_op_next b (mk_code_op EC_GF_OP_XOR2 (bld_map b !!! dst) (bld_map b !!! src) 0).

Definition ec_code_xor3 (b : ec_code_builder) (dst src1 src2 : nat) : ec_code_builder :=
  if negb (gen_xor3 gen) then ec_code_xor2 (ec_code_copy b dst src1) dst src2
  else
    let reg := bld_map b !!! dst in
    ec_code_op_next (ec_code_arg_assign b reg)
      (mk_code_op EC_GF_OP_XOR3 reg (bld_map b !!! src1) (bld_map b !!! src2)).

Definition ec_code_xorm (b : ec_code_builder) (bit offset : nat) : ec_code_builder :=
  ec_code_op_next b (mk_code_op EC_GF_OP_XORM (bld_map b !!! bit) offset bit).

Definition ec_code_dup (b : ec_code_builder) (op : ec_gf_op) : ec_code_builder :=
  match op_code op with
  | EC_GF_OP_COPY => ec_code_copy b (op_arg1 op) (op_arg2 op)
  | EC_GF_OP_XOR2 => ec_code_xor2 b (op_arg1 op) (op_arg2 op)
  | EC_GF_OP_XOR3 => ec_code_xor3 b (op_arg1 op) (op_arg2 op) (op_arg3 op)
  | _ => b
  end.

Definition gf_nbits : nat := Z.to_nat (gf_bits gf).

Definition ec_code_gf_load (b : ec_code_builder) (offset : nat) : ec_code_builder :=
  foldl (fun b i => ec_code_load b i offset) b (seq 0 gf_nbits).

Definition ec_code_gf_load_xor (b : ec_code_builder) (offset : nat) : ec_code_builder :=
  foldl (fun b i => ec_code_xorm b i offset) b (seq 0 gf_nbits).

Definition ec_code_gf_store (b : ec_code_builder) : ec_code_builder :=
  foldl (fun b i => ec_code_store b i i) b (seq 0 gf_nbits).

Definition ec_code_gf_clear (b : ec_code_builder) : ec_code_builder :=
  foldl (fun b i => ec_code_store b 0 i) (ec_code_xor2 b 0 0) (seq 0 gf_nbits).

(** The loop over [mul->ops] up to EC_GF_OP_END. *)
Fixpoint dup_ops (b : ec_code_builder) (ops : list ec_gf_op) : ec_code_builder :=
  match ops with
  | [] => b
  | op :: ops =>
      match op_code op with
      | EC_GF_OP_END => b
      | _ => dup_ops (ec_code_dup b op) ops
      end
  end.

Definition ec_code_gf_mul (b : ec_code_builder) (value : Z) : ec_code_builder :=
  match gf_table gf !! Z.to_nat value with
  | None => b
  | Some mul =>
      let b := dup_ops b (mul_ops mul) in
      let map := map (fun i => bld_map b !!! (mul_map mul !!! i)) (seq 0 (mul_regs mul)) in
      mk_builder (bld_size b) (bld_ops b) (bld_regs b) (map ++ drop (mul_regs mul) (bld_map b))
  end.

Definition ec_code_prepare (count : nat) : ec_code_builder :=
  let size := count * (gf_nbits + Z.to_nat (gf_max_ops gf)) + gf_nbits in
  mk_builder size [] 0 (seq 0 EC_GF_MAX_REGS).

(** [ec_code_value_next] from index [i] on: the first nonzero value and its
    index, or 0 and [count]. *)
Fixpoint value_next (values : list Z) (i : nat) : Z * nat :=
  match values with
  | [] => (0%Z, i)
  | v :: values' => if negb (v =? 0)%Z then (v, i) else value_next values' (S i)
  end.

Definition ec_code_value_next (values : list Z) (start : nat) : Z * nat :=
  value_next (drop start values) start.

(** The [do ... while (next != 0)] loop after the first load; [start] is
    [offset + 1].  Each iteration moves past a value, so [length values]
    iterations are enough. *)
Fixpoint build_loop (fuel : nat) (values : list Z) (b : ec_code_builder) (val : Z) (start : nat)
    : ec_code_builder * Z :=
  match fuel with
  | O => (b, val)
  | S fuel' =>
      let '(next, offset) := ec_code_value_next values start in
      if negb (next =? 0)%Z then
        let b := ec_code_gf_mul b (ec_gf_div gf val next) in
        let b := ec_code_gf_load_xor b offset in
        build_loop fuel' values b next (S offset)
      else (b, val)
  end.

(** [ec_code_build_dynamic] up to [ec_code_compile]; [values] holds [count]
    coefficients. *)
Definition ec_code_build_ops (values : list Z) : ec_code_builder :=
  let b := ec_code_prepare (length values) in
  let '(next, offset) := ec_code_value_next values 0 in
  if negb (next =? 0)%Z then
    let b := ec_code_gf_load b offset in
    let '(b, val) := build_loop (S (length values)) values b next (S offset) in
    ec_code_gf_store (ec_code_gf_mul b val)
  else ec_code_gf_clear b.
End builder.

(** ** Meaning of the operations *)

Section machine.
Context {W : Type} `{Inhabited W} (xor : W -> W -> W) (inp : nat -> list W) (i : nat).

(** Registers and destination chunk. *)
Definition mstate : Type := list W * list W.

(** One operation at word [i] of every plane; [inp k] is input chunk [k]. *)
Definition exec_op (s : mstate) (op : ec_code_op) : mstate :=
  let '(r, out) := s in
  let a1 := co_arg1 op in
  let a2 := co_arg2 op in
  let a3 := co_arg3 op in
  match co_op op with
  | EC_GF_OP_LOAD => (<[a1 := inp a2 !!! (WIDTH * a3 + i)]> r, out)
  | EC_GF_OP_STORE => (r, <[WIDTH * a3 + i := r !!! a1]> out)
  | EC_GF_OP_COPY => (<[a1 := r !!! a2]> r, out)
  | EC_GF_OP_XOR2 => (<[a1 := xor (r !!! a1) (r !!! a2)]> r, out)
  | EC_GF_OP_XOR3 => (<[a1 := xor (r !!! a2) (r !!! a3)]> r, out)
  | EC_GF_OP_XORM => (<[a1 := xor (r !!! a1) (inp a2 !!! (WIDTH * a3 + i))]> r, out)
  | EC_GF_OP_END => s
  end.

Definition exec_ops (s : mstate) (ops : list ec_code_op) : mstate := foldl exec_op s ops.
End machine.

(** The loop the prolog and epilog of a generator put around the operations:
    all the words of a plane, the registers keeping what they held. *)
Definition run_code {W} `{Inhabited W} (xor : W -> W -> W) (ops : list ec_code_op)
    (inp : nat -> list W) (regs out : list W) : list W * list W :=
  foldl (fun s i => exec_ops xor inp i s ops) (regs, out) (seq 0 WIDTH).

(** ** The function of a row *)

Inductive ec_code_func :=
  | FUNC_NULL
  | FUNC_C_LINEAR
  | FUNC_C_INTERLEAVED
  | FUNC_DYNAMIC (ops : list ec_code_op).

(** [ec_code_build]: the function, the coefficients as it leaves them and the
    code object, whose generator is dropped after a failure. *)
Definition ec_code_build (compiles : list ec_code_op -> bool) (code : ec_code) (values : list Z)
    (linear : bool) : ec_code * ec_code_func * list Z :=
  let portable code :=
    (code, if linear then FUNC_C_LINEAR else FUNC_C_INTERLEAVED,
     ec_code_c_prepare (code_gf code) values (length values)) in
  match code_gen code with
  | Some gen =>
      let b := ec_code_build_ops (code_gf code) gen values in
      if compiles (bld_ops b) then (code, FUNC_DYNAMIC (bld_ops b), values)
      else portable (mk_code (code_gf code) None)
  | None => portable code
  end.
