(* ===== verification/EcCodeFacts.v ===== *)
(** * Correctness of the generated code

    The operations generated for a row of coefficients compute the linear
    combination of the input chunks with those coefficients.  The proof follows
    the builder: registers are seen through the builder's map as logical
    registers, the multiplication programs of [ec-gf8.c] are compared with
    multiplication by computation on exclusive-or terms, and each builder step
    transforms the symbol held by the first eight logical registers. *)

From S2P Require Import Prelude EcGf8 EcGalois EcCodeC EcLanes EcChunks EcCode.
Open Scope nat_scope.

(** ** Logical registers *)

Definition wf_map (m : list nat) : Prop := length m = 16 /\ NoDup m /\ Forall (fun r => r < 16) m.

Definition view {W} `{Inhabited W} (m : list nat) (r : list W) : list W := map (fun k => r !!! k) m.

Lemma wf_map_lt m k : wf_map m -> k < 16 -> m !!! k < 16.
Proof.
  intros (Hl & _ & Hf) Hk. destruct (lookup_lt_is_Some_2 m k) as [x Hx]; [lia|].
  rewrite (list_lookup_total_correct _ _ _ Hx). eapply Forall_lookup_1 in Hf; eauto.
Qed.

Lemma wf_map_inj m j k : wf_map m -> j < 16 -> k < 16 -> m !!! j = m !!! k -> j = k.
Proof.
  intros (Hl & Hnd & _) Hj Hk Hjk.
  destruct (lookup_lt_is_Some_2 m j) as [x Hx]; [lia|].
  destruct (lookup_lt_is_Some_2 m k) as [y Hy]; [lia|].
  rewrite (list_lookup_total_correct _ _ _ Hx), (list_lookup_total_correct _ _ _ Hy) in Hjk.
  subst y. eapply NoDup_lookup; eauto.
Qed.

Section views.
Context {W : Type} `{Inhabited W}.

Lemma view_length m (r : list W) : length (view m r) = length m.
Proof. apply length_map. Qed.

Lemma view_lookup m (r : list W) k : k < length m -> view m r !!! k = r !!! (m !!! k).
Proof.
  intros Hk. destruct (lookup_lt_is_Some_2 m k Hk) as [x Hx].
  rewrite (list_lookup_total_correct _ _ _ Hx). apply list_lookup_total_correct.
  unfold view. change (map (fun k => r !!! k) m) with ((fun k => r !!! k) <$> m).
  rewrite list_lookup_fmap, Hx. reflexivity.
Qed.

Lemma list_eq_total (l1 l2 : list W) :
  length l1 = length l2 -> (forall k, k < length l1 -> l1 !!! k = l2 !!! k) -> l1 = l2.
Proof.
  intros Hl He. apply list_eq_same_length with (length l1); auto.
  intros k x y Hk Hx Hy. specialize (He k Hk).
  rewrite (list_lookup_total_correct _ _ _ Hx), (list_lookup_total_correct _ _ _ Hy) in He. exact He.
Qed.

Lemma view_insert m (r : list W) k w :
  wf_map m -> length r = 16 -> k < 16 -> view m (<[m !!! k := w]> r) = <[k := w]> (view m r).
Proof.
  intros Hm Hr Hk. pose proof Hm as (Hl & _). apply list_eq_total.
  { rewrite length_insert, !view_length. reflexivity. }
  rewrite view_length. intros j Hj. rewrite view_lookup by auto. destruct (decide (j = k)) as [->|].
  - rewrite !list_lookup_total_insert_eq; auto; [rewrite view_length; lia|].
    rewrite Hr. apply wf_map_lt; auto.
  - rewrite !list_lookup_total_insert_ne; [rewrite view_lookup by auto; reflexivity | auto|].
    intros E. apply wf_map_inj in E; auto; lia.
Qed.
End views.

(** ** Multiplication programs on logical registers *)

Definition exec_gf_op {W} `{Inhabited W} (xor : W -> W -> W) (L : list W) (op : ec_gf_op) : list W :=
  let a1 := op_arg1 op in
  let a2 := op_arg2 op in
  let a3 := op_arg3 op in
  match op_code op with
  | EC_GF_OP_COPY => <[a1 := L !!! a2]> L
  | EC_GF_OP_XOR2 => <[a1 := xor (L !!! a1) (L !!! a2)]> L
  | EC_GF_OP_XOR3 => <[a1 := xor (L !!! a2) (L !!! a3)]> L
  | _ => L
  end.

Fixpoint exec_gf_ops {W} `{Inhabited W} (xor : W -> W -> W) (L : list W) (ops : list ec_gf_op) : list W :=
  match ops with
  | [] => L
  | op :: ops =>
      match op_code op with
      | EC_GF_OP_END => L
      | _ => exec_gf_ops xor (exec_gf_op xor L op) ops
      end
  end.

(** The operands of a program are logical registers, and a three-operand
    exclusive or does not overwrite its second source with the copy that may
    replace it. *)
Definition gf_op_ok (op : ec_gf_op) : bool :=
  (op_arg1 op <? 16) && (op_arg2 op <? 16) && (op_arg3 op <? 16) &&
  match op_code op with
  | EC_GF_OP_XOR3 => negb (op_arg1 op =? op_arg3 op)
  | _ => true
  end.

(** The registers after [ec_code_gf_mul], seen through the new map. *)
Definition mul_view {W} `{Inhabited W} (mul : ec_gf_mul_t) (L : list W) : list W :=
  map (fun i => L !!! (mul_map mul !!! i)) (seq 0 (mul_regs mul)) ++ drop (mul_regs mul) L.

Definition exec_mul {W} `{Inhabited W} (xor : W -> W -> W) (mul : ec_gf_mul_t) (L : list W) : list W :=
  mul_view mul (exec_gf_ops xor L (mul_ops mul)).

(** *** The builder follows the programs *)

Lemma exec_ops_app {W} `{Inhabited W} (xor : W -> W -> W) inp i s ops1 ops2 :
  exec_ops xor inp i s (ops1 ++ ops2) = exec_ops xor inp i (exec_ops xor inp i s ops1) ops2.
Proof. apply foldl_app. Qed.

(** The effect of one added operation. *)
Ltac one_op :=
  eexists; split; [reflexivity|]; intros r out Hr; unfold exec_ops; cbn [foldl]; unfold exec_op;
  cbn [co_op co_arg1 co_arg2 co_arg3]; eexists; split; [reflexivity|].

Section dup.
Context (gen : ec_code_gen) (inp : nat -> list Z) (i : nat).

(** Running what was added to a builder. *)
Definition adds (b b' : ec_code_builder) (f : list Z -> list Z) : Prop :=
  bld_map b' = bld_map b /\ bld_size b' = bld_size b /\
  exists new, bld_ops b' = bld_ops b ++ new /\
    forall r out, length r = 16 ->
      exists r', exec_ops Z.lxor inp i (r, out) new = (r', out) /\ length r' = 16 /\
        view (bld_map b) r' = f (view (bld_map b) r).

Lemma adds_refl b : adds b b (fun L => L).
Proof.
  split; [reflexivity|]. split; [reflexivity|]. exists []. rewrite app_nil_r. split; [reflexivity|].
  intros r out Hr. exists r. auto.
Qed.

Lemma adds_trans b b' b'' f g : adds b b' f -> adds b' b'' g -> adds b b'' (fun L => g (f L)).
Proof.
  intros (Hm & Hs & new & Ho & Hf) (Hm' & Hs' & new' & Ho' & Hg).
  split; [congruence|]. split; [congruence|]. exists (new ++ new').
  split; [rewrite Ho', Ho; symmetry; apply (assoc_L (++))|].
  intros r out Hr. destruct (Hf r out Hr) as (r' & He & Hr' & Hv).
  destruct (Hg r' out Hr') as (r'' & He' & Hr'' & Hv').
  exists r''. split; [rewrite exec_ops_app, He; exact He'|]. split; [exact Hr''|].
  rewrite Hm in Hv'. rewrite Hv', Hv. reflexivity.
Qed.

Lemma adds_ext b b' f g : (forall L, length L = 16 -> f L = g L) -> wf_map (bld_map b) ->
  adds b b' f -> adds b b' g.
Proof.
  intros Hfg (Hl & _) (Hm & Hs & new & Ho & Hf). split; [auto|]. split; [auto|]. exists new.
  split; [auto|]. intros r out Hr. destruct (Hf r out Hr) as (r' & He & Hr' & Hv).
  exists r'. rewrite <- Hfg by (rewrite view_length; auto). auto.
Qed.

Lemma copy_adds b d s : wf_map (bld_map b) -> d < 16 -> s < 16 ->
  adds b (ec_code_copy b d s) (fun L => <[d := L !!! s]> L).
Proof.
  intros Hm Hd Hs. pose proof Hm as (Hl & _). split; [reflexivity|]. split; [reflexivity|].
  one_op.
  split; [rewrite length_insert; auto|].
  rewrite view_insert, view_lookup by (auto; lia). reflexivity.
Qed.

Lemma xor2_adds b d s : wf_map (bld_map b) -> d < 16 -> s < 16 ->
  adds b (ec_code_xor2 b d s) (fun L => <[d := Z.lxor (L !!! d) (L !!! s)]> L).
Proof.
  intros Hm Hd Hs. pose proof Hm as (Hl & _). split; [reflexivity|]. split; [reflexivity|].
  one_op.
  split; [rewrite length_insert; auto|].
  rewrite view_insert, !view_lookup by (auto; lia). reflexivity.
Qed.

Lemma xor3_adds b d s1 s2 : wf_map (bld_map b) -> d < 16 -> s1 < 16 -> s2 < 16 -> d <> s2 ->
  adds b (ec_code_xor3 gen b d s1 s2) (fun L => <[d := Z.lxor (L !!! s1) (L !!! s2)]> L).
Proof.
  intros Hm Hd Hs1 Hs2 Hds. pose proof Hm as (Hl & _). unfold ec_code_xor3.
  destruct (gen_xor3 gen); cbn [negb].
  - split; [reflexivity|]. split; [reflexivity|].
    one_op.
    split; [rewrite length_insert; auto|].
    rewrite view_insert, !view_lookup by (auto; lia). reflexivity.
  - eapply adds_ext; [|exact Hm | eapply adds_trans; [apply copy_adds | apply xor2_adds]; auto].
    intros L HL. cbn beta. rewrite list_lookup_total_insert_eq, list_lookup_total_insert_ne by lia.
    apply list_insert_insert_eq.
Qed.

Lemma dup_adds b op : wf_map (bld_map b) -> gf_op_ok op = true ->
  adds b (ec_code_dup gen b op) (fun L => exec_gf_op Z.lxor L op).
Proof.
  intros Hm Hop. unfold gf_op_ok in Hop. rewrite !andb_true_iff, !Nat.ltb_lt in Hop.
  destruct Hop as [[[H1 H2] H3] H4]. unfold ec_code_dup, exec_gf_op.
  destruct (op_code op); auto using adds_refl, copy_adds, xor2_adds.
  apply negb_true_iff, Nat.eqb_neq in H4. apply xor3_adds; auto.
Qed.

Lemma dup_ops_adds ops b : wf_map (bld_map b) -> forallb gf_op_ok ops = true ->
  adds b (dup_ops gen b ops) (fun L => exec_gf_ops Z.lxor L ops).
Proof.
  revert b. induction ops as [|op ops IH]; intros b Hm Hops; [apply adds_refl|].
  cbn in Hops. apply andb_true_iff in Hops as [Hop Hops]. cbn [dup_ops exec_gf_ops].
  assert (Hstep : adds b (dup_ops gen (ec_code_dup gen b op) ops)
    (fun L => exec_gf_ops Z.lxor (exec_gf_op Z.lxor L op) ops)).
  { apply (adds_trans _ _ _ _ (fun L => exec_gf_ops Z.lxor L ops) (dup_adds b op Hm Hop)).
    apply IH; auto.
    destruct (dup_adds b op Hm Hop) as (-> & _). exact Hm. }
  destruct (op_code op); auto using adds_refl.
Qed.
End dup.

(** ** The programs multiply *)

Definition leaves : list term := map Leaf (seq 0 16).

(** The renaming a program ends with, as a map of all the registers. *)
Definition mul_perm (mul : ec_gf_mul_t) : list nat :=
  map (fun i => mul_map mul !!! i) (seq 0 (mul_regs mul)) ++ seq (mul_regs mul) (16 - mul_regs mul).

Definition wf_mapb (m : list nat) : bool :=
  (length m =? 16) && bool_decide (NoDup m) && forallb (fun r => r <? 16) m.

(** Row [i] of the multiplication by [c], on leaves 0 to 7. *)
Definition mulrow_ok (c : Z) (i : nat) (t : term) : bool :=
  term_below 8 t &&
  forallb (fun n => eqb (Z.testbit (term_mask t) (Z.of_nat n))
                        (Z.testbit (xpow n c) (Z.of_nat i))) (seq 0 8).

Definition mul_ok (c : Z) (mul : ec_gf_mul_t) : bool :=
  forallb gf_op_ok (mul_ops mul) && (mul_regs mul <=? 16) && wf_mapb (mul_perm mul) &&
  forallb (fun i => mulrow_ok c i (exec_mul Xor mul leaves !!! i)) (seq 0 8).

Lemma gf8_mul_check :
  forallb (fun '(c, mul) => mul_ok c mul) (zip (seqZ 1 255) (drop 1 ec_gf8_mul)) = true.
Proof. vm_compute. reflexivity. Qed.

Lemma gf8_mul_ok c :
  nonzero c -> exists mul, gf_table gf8 !! Z.to_nat c = Some mul /\ mul_ok c mul = true.
Proof.
  intros Hc. unfold nonzero in Hc. change (gf_table gf8) with ec_gf8_mul.
  destruct (lookup_lt_is_Some_2 ec_gf8_mul (Z.to_nat c)) as [mul Hmul].
  { change (length ec_gf8_mul) with 256. lia. }
  exists mul. split; [exact Hmul|].
  pose proof gf8_mul_check as Hck. rewrite forallb_forall in Hck.
  apply (Hck (c, mul)), list_elem_of_In, list_elem_of_lookup. exists (Z.to_nat (c - 1)).
  apply lookup_zip_with_Some. exists c, mul. split; [reflexivity|]. split.
  - apply lookup_seqZ. lia.
  - rewrite lookup_drop, <- Hmul. f_equal. lia.
Qed.

Lemma wf_mapb_spec m : wf_mapb m = true -> wf_map m.
Proof.
  unfold wf_mapb, wf_map. rewrite !andb_true_iff, Nat.eqb_eq, bool_decide_eq_true.
  intros [[Hl Hnd] Hf]. split; [auto|]. split; [auto|]. apply Forall_forall. intros x Hx.
  rewrite forallb_forall in Hf. apply Nat.ltb_lt, Hf, list_elem_of_In, Hx.
Qed.

Lemma mul_view_perm {W} `{Inhabited W} mul (L : list W) :
  length L = 16 -> mul_regs mul <= 16 -> mul_view mul L = view (mul_perm mul) L.
Proof.
  intros HL Hr. unfold mul_view, mul_perm, view. rewrite map_app, map_map. f_equal.
  apply list_eq_total.
  - rewrite length_drop, length_map, length_seq. lia.
  - intros k Hk. rewrite length_drop in Hk. rewrite lookup_total_drop. symmetry.
    change (view (seq (mul_regs mul) (16 - mul_regs mul)) L !!! k = L !!! (mul_regs mul + k)).
    rewrite view_lookup, lookup_total_seq_lt by (rewrite ?length_seq; lia). reflexivity.
Qed.

Lemma view_view {W} `{Inhabited W} p m (r : list W) :
  wf_map p -> wf_map m -> view (view p m) r = view p (view m r).
Proof.
  intros Hp Hm. pose proof Hp as (Hpl & _). pose proof Hm as (Hml & _). apply list_eq_total.
  { rewrite !view_length. reflexivity. }
  rewrite !view_length. intros k Hk. rewrite !view_lookup; rewrite ?view_length; auto.
  rewrite Hml. apply wf_map_lt; auto. lia.
Qed.

Lemma wf_view p m : wf_map p -> wf_map m -> wf_map (view p m).
Proof.
  intros Hp Hm. pose proof Hp as (Hpl & _). pose proof Hm as (Hml & _).
  split; [rewrite view_length; auto|]. split.
  - apply NoDup_alt. intros j k x Hj Hk.
    pose proof (lookup_lt_Some _ _ _ Hj) as Hj'. pose proof (lookup_lt_Some _ _ _ Hk) as Hk'.
    rewrite view_length in Hj', Hk'. apply list_lookup_total_correct in Hj, Hk.
    rewrite view_lookup in Hj, Hk by auto.
    assert (E : p !!! j = p !!! k).
    { apply (wf_map_inj m); auto; try congruence; apply wf_map_lt; auto; lia. }
    apply (wf_map_inj p) in E; auto; lia.
  - apply Forall_lookup. intros k x Hx. pose proof (lookup_lt_Some _ _ _ Hx) as Hk.
    rewrite view_length in Hk. apply list_lookup_total_correct in Hx.
    rewrite view_lookup in Hx by auto. subst x. apply wf_map_lt; auto. apply wf_map_lt; auto. lia.
Qed.

(** *** Terms describe the registers *)

Section describe.
Context {W : Type} `{Inhabited W} (xor : W -> W -> W) (env : nat -> W).

Definition described (L : list W) (T : list term) : Prop :=
  length L = 16 /\ length T = 16 /\ forall k, k < 16 -> L !!! k = term_eval xor env (T !!! k).

Lemma described_insert L T k w t :
  described L T -> k < 16 -> w = term_eval xor env t -> described (<[k := w]> L) (<[k := t]> T).
Proof.
  intros (HL & HT & Hd) Hk Hw. split; [rewrite length_insert; auto|].
  split; [rewrite length_insert; auto|]. intros j Hj. destruct (decide (k = j)) as [->|].
  - rewrite !list_lookup_total_insert_eq by lia. auto.
  - rewrite !list_lookup_total_insert_ne by auto. auto.
Qed.

Lemma described_op L T op :
  described L T -> gf_op_ok op = true -> described (exec_gf_op xor L op) (exec_gf_op Xor T op).
Proof.
  intros Hd Hop. unfold gf_op_ok in Hop. rewrite !andb_true_iff, !Nat.ltb_lt in Hop.
  destruct Hop as [[[H1 H2] H3] _]. pose proof Hd as (_ & _ & He). unfold exec_gf_op.
  destruct (op_code op); auto; apply described_insert; auto; cbn; rewrite ?He by auto; reflexivity.
Qed.

Lemma described_ops ops L T :
  described L T -> forallb gf_op_ok ops = true ->
  described (exec_gf_ops xor L ops) (exec_gf_ops Xor T ops).
Proof.
  revert L T. induction ops as [|op ops IH]; intros L T Hd Hops; [exact Hd|].
  cbn in Hops. apply andb_true_iff in Hops as [Hop Hops].
  assert (Hstep := IH _ _ (described_op L T op Hd Hop) Hops). cbn.
  destruct (op_code op); auto.
Qed.

Lemma described_view p L T : described L T -> wf_map p -> described (view p L) (view p T).
Proof.
  intros (HL & HT & Hd) Hp. pose proof Hp as (Hpl & _).
  split; [rewrite view_length; auto|]. split; [rewrite view_length; auto|].
  intros k Hk. rewrite !view_lookup by lia. apply Hd, wf_map_lt; auto.
Qed.
End describe.

Lemma described_leaves {W} `{Inhabited W} (xor : W -> W -> W) (L : list W) :
  length L = 16 -> described xor (fun n => L !!! n) L leaves.
Proof.
  intros HL. split; [auto|]. split; [reflexivity|]. intros k Hk.
  do 16 (destruct k as [|k]; [reflexivity|]). lia.
Qed.

(** ** Symbols of the logical registers *)

Open Scope Z_scope.

Definition reg_planes (L : list Z) : planes Z :=
  Planes (L !!! 0%nat) (L !!! 1%nat) (L !!! 2%nat) (L !!! 3%nat) (L !!! 4%nat) (L !!! 5%nat)
    (L !!! 6%nat) (L !!! 7%nat).

Definition reg_symbol (L : list Z) (b : Z) : Z :=
  sym8 (planes_map (fun w => Z.testbit w b) (reg_planes L)).

Lemma reg_symbol_field L b : in_field (reg_symbol L b).
Proof. apply sym8_field. Qed.

#[local] Hint Resolve reg_symbol_field symbol_field : gf.

Lemma reg_symbol_bit L b k :
  (k < 8)%nat -> Z.testbit (reg_symbol L b) (Z.of_nat k) = Z.testbit (L !!! k) b.
Proof.
  intros Hk. unfold reg_symbol. rewrite sym8_testbit by auto.
  do 8 (destruct k as [|k]; [reflexivity|]). lia.
Qed.

(** Two register files with the same bits in a lane hold the same symbol. *)
Lemma reg_symbol_eq L b x :
  in_field x -> (forall k, (k < 8)%nat -> Z.testbit (L !!! k) b = Z.testbit x (Z.of_nat k)) ->
  reg_symbol L b = x.
Proof.
  intros Hx Hk. apply field_bits_eq; auto with gf. intros k Hk'.
  rewrite reg_symbol_bit by auto. apply Hk; auto.
Qed.

Lemma exec_mul_symbol c mul L b :
  nonzero c -> mul_ok c mul = true -> length L = 16%nat ->
  reg_symbol (exec_mul Z.lxor mul L) b = mul8 c (reg_symbol L b).
Proof.
  intros Hc Hmul HL. unfold mul_ok in Hmul. rewrite !andb_true_iff in Hmul.
  destruct Hmul as [[[Hops Hregs] Hperm] Hrows]. apply Nat.leb_le in Hregs.
  apply wf_mapb_spec in Hperm. rewrite mul8_gmul by auto with gf. apply reg_symbol_eq.
  { rewrite <- mul8_gmul; auto with gf. }
  intros k Hk. pose proof (forallb_seq _ _ _ k Hrows ltac:(lia)) as Hrow. cbv beta in Hrow.
  pose proof (described_ops Z.lxor _ _ _ _ (described_leaves Z.lxor L HL) Hops) as Hd.
  pose proof Hd as (HdL & HdT & _). unfold exec_mul in *.
  rewrite mul_view_perm in Hrow by auto. rewrite mul_view_perm by auto.
  pose proof (described_view Z.lxor _ _ _ _ Hd Hperm) as (_ & _ & He).
  rewrite He by lia. set (t := view (mul_perm mul) _ !!! k) in *.
  unfold mulrow_ok in Hrow. apply andb_true_iff in Hrow as [Hb Hm].
  rewrite (term_eval_hom _ xorb (fun w => Z.testbit w b)) by (intros; apply Z.lxor_spec).
  rewrite (term_eval_mask 8) by auto. unfold gmul. rewrite gmul_bits_testbit.
  apply xorsum_ext. intros n Hn. pose proof (forallb_seq _ _ _ n Hm ltac:(lia)) as E.
  apply eqb_prop in E. rewrite E, reg_symbol_bit by auto. reflexivity.
Qed.

(** Updating the registers of a list one by one. *)
Definition update_regs (g : nat -> Z -> Z) (L : list Z) (ks : list nat) : list Z :=
  foldl (fun L k => <[k := g k (L !!! k)]> L) L ks.

Lemma update_regs_lookup g ks L k :
  NoDup ks -> Forall (fun j => (j < 16)%nat) ks -> length L = 16%nat -> (k < 16)%nat ->
  update_regs g L ks !!! k = if decide (k ∈ ks) then g k (L !!! k) else L !!! k.
Proof.
  unfold update_regs. revert L. induction ks as [|j ks IH]; intros L Hnd Hks HL Hk; [reflexivity|].
  apply NoDup_cons in Hnd as [Hj Hnd]. apply Forall_cons in Hks as [Hj' Hks]. cbn [foldl].
  rewrite IH by (rewrite ?length_insert; auto). destruct (decide (k = j)) as [->|Hkj].
  - rewrite (decide_False (P := j ∈ ks)), decide_True by (rewrite ?elem_of_cons; auto).
    apply list_lookup_total_insert_eq. lia.
  - rewrite list_lookup_total_insert_ne by auto. destruct (decide (k ∈ ks)).
    + rewrite decide_True by (rewrite elem_of_cons; auto). reflexivity.
    + rewrite decide_False by (rewrite elem_of_cons; tauto). reflexivity.
Qed.

Lemma update_planes_lookup g L k :
  length L = 16%nat -> (k < 8)%nat -> update_regs g L (seq 0 8) !!! k = g k (L !!! k).
Proof.
  intros HL Hk. rewrite update_regs_lookup, decide_True; [reflexivity|..]; auto; try lia.
  - apply elem_of_seq. lia.
  - apply NoDup_ListNoDup, seq_NoDup.
  - apply Forall_forall. intros j Hj%elem_of_seq. lia.
Qed.

(** ** The builder steps on symbols *)

Section steps.
Context (gen : ec_code_gen) (inp : nat -> list Z) (i : nat) (Hi : (i < 8)%nat).

(** Whatever the registers held, the code of [b] leaves the symbols [S] in the
    logical registers and the destination untouched. *)
Definition holds_symbols (b : ec_code_builder) (S : Z -> Z) : Prop :=
  wf_map (bld_map b) /\
  forall r out, length r = 16%nat ->
    exists r', exec_ops Z.lxor inp i (r, out) (bld_ops b) = (r', out) /\ length r' = 16%nat /\
      forall bit, reg_symbol (view (bld_map b) r') bit = S bit.

Lemma adds_symbols b b' f S S' :
  adds inp i b b' f -> holds_symbols b S ->
  (forall L bit, length L = 16%nat -> reg_symbol L bit = S bit -> reg_symbol (f L) bit = S' bit) ->
  holds_symbols b' S'.
Proof.
  intros (Hm & _ & new & Ho & Hf) (Hwf & Hb) HS. split; [rewrite Hm; auto|].
  intros r out Hr. destruct (Hb r out Hr) as (r1 & He & Hr1 & Hs).
  destruct (Hf r1 out Hr1) as (r2 & He2 & Hr2 & Hv).
  exists r2. split; [rewrite Ho, exec_ops_app, He; exact He2|]. split; [auto|].
  intros bit. rewrite Hm, Hv. apply HS; auto. destruct Hwf as (Hl & _). rewrite view_length. auto.
Qed.

Lemma gf_mul_symbols b c S :
  nonzero c -> holds_symbols b S -> holds_symbols (ec_code_gf_mul gf8 gen b c) (fun x => mul8 c (S x)).
Proof.
  intros Hc Hb. unfold ec_code_gf_mul. destruct (gf8_mul_ok c Hc) as (mul & -> & Hmul).
  pose proof Hmul as Hmul'. unfold mul_ok in Hmul'. rewrite !andb_true_iff in Hmul'.
  destruct Hmul' as [[[Hops Hregs] Hperm] _]. apply Nat.leb_le in Hregs. apply wf_mapb_spec in Hperm.
  pose proof Hb as (Hwf & _). pose proof Hwf as (Hl & _).
  pose proof (dup_ops_adds gen inp i (mul_ops mul) b Hwf Hops) as Ha.
  destruct Hb as (_ & Hb). destruct Ha as (Hm & _ & new & Ho & Hf).
  set (b1 := dup_ops gen b (mul_ops mul)) in *. cbv zeta.
  fold (mul_view mul (bld_map b1)). rewrite mul_view_perm by (rewrite ?Hm; auto).
  split; [apply wf_view; rewrite ?Hm; auto|]. intros r out Hr. cbn [bld_ops bld_map].
  destruct (Hb r out Hr) as (r1 & He & Hr1 & Hs). destruct (Hf r1 out Hr1) as (r2 & He2 & Hr2 & Hv).
  exists r2. split; [rewrite Ho, exec_ops_app, He; exact He2|]. split; [auto|].
  intros bit. rewrite Hm, view_view, Hv by auto.
  rewrite <- mul_view_perm by (rewrite <- ?Hv, ?view_length; auto).
  rewrite <- Hs, <- exec_mul_symbol with (mul := mul) by (rewrite ?view_length; auto). reflexivity.
Qed.

(** A loop that adds, for each logical register, an operation that updates it. *)
Lemma loop_adds step g ks b :
  (forall b k, wf_map (bld_map b) -> (k < 16)%nat ->
    adds inp i b (step b k) (fun L => <[k := g k (L !!! k)]> L)) ->
  wf_map (bld_map b) -> Forall (fun k => (k < 16)%nat) ks ->
  adds inp i b (foldl step b ks) (fun L => update_regs g L ks).
Proof.
  intros Hstep. revert b. induction ks as [|k ks IH]; intros b Hm Hks; [apply adds_refl|].
  apply Forall_cons in Hks as [Hk Hks]. pose proof (Hstep b k Hm Hk) as Ha. cbn [foldl].
  apply (adds_trans _ _ _ _ _ _ (fun L => update_regs g L ks) Ha).
  apply IH; auto. destruct Ha as (-> & _). exact Hm.
Qed.

Lemma planes_range : Forall (fun k => (k < 16)%nat) (seq 0 8).
Proof. apply Forall_forall. intros k Hk%elem_of_seq. lia. Qed.

Lemma gf_load_adds b offset :
  wf_map (bld_map b) ->
  adds inp i b (ec_code_gf_load gf8 b offset)
    (fun L => update_regs (fun k _ => inp offset !!! (WIDTH * k + i)%nat) L (seq 0 8)).
Proof.
  intros Hm. apply (loop_adds (fun b k => ec_code_load b k offset)); auto using planes_range.
  intros b' k Hm' Hk. split; [reflexivity|]. split; [reflexivity|]. one_op.
  split; [rewrite length_insert; auto|]. apply view_insert; auto.
Qed.

Lemma gf_load_xor_adds b offset :
  wf_map (bld_map b) ->
  adds inp i b (ec_code_gf_load_xor gf8 b offset)
    (fun L => update_regs (fun k w => Z.lxor w (inp offset !!! (WIDTH * k + i)%nat)) L (seq 0 8)).
Proof.
  intros Hm. apply (loop_adds (fun b k => ec_code_xorm b k offset)); auto using planes_range.
  intros b' k Hm' Hk. pose proof Hm' as (Hl & _). split; [reflexivity|]. split; [reflexivity|]. one_op.
  split; [rewrite length_insert; auto|]. rewrite view_insert, view_lookup by (auto; lia). reflexivity.
Qed.

Lemma gf_load_symbols b offset :
  bld_ops b = [] -> wf_map (bld_map b) ->
  holds_symbols (ec_code_gf_load gf8 b offset) (fun x => symbol (inp offset) i x).
Proof.
  intros Hb Hm. destruct (gf_load_adds b offset Hm) as (Hm' & _ & new & Ho & Hf).
  split; [rewrite Hm'; auto|]. intros r out Hr. destruct (Hf r out Hr) as (r' & He & Hr' & Hv).
  exists r'. rewrite Ho, Hb. split; [exact He|]. split; [auto|]. intros bit. rewrite Hm', Hv.
  apply reg_symbol_eq; auto with gf. intros k Hk.
  rewrite update_planes_lookup by (rewrite ?view_length; auto; apply Hm).
  rewrite symbol_bit by auto. reflexivity.
Qed.

Lemma gf_load_xor_symbols b offset S :
  (forall x, in_field (S x)) -> holds_symbols b S ->
  holds_symbols (ec_code_gf_load_xor gf8 b offset)
    (fun x => Z.lxor (S x) (symbol (inp offset) i x)).
Proof.
  intros HS Hb. eapply adds_symbols; [apply gf_load_xor_adds; apply Hb | exact Hb|].
  intros L bit HL HLS. apply reg_symbol_eq; auto with gf. intros k Hk.
  rewrite update_planes_lookup, Z.lxor_spec, Z.lxor_spec, <- HLS by auto.
  rewrite reg_symbol_bit, symbol_bit by auto. reflexivity.
Qed.

(** Storing the planes. *)
Lemma stores_exec (reg : nat -> nat) r out ks (m : list nat) :
  exec_ops Z.lxor inp i (r, out)
    (map (fun k => mk_code_op EC_GF_OP_STORE (m !!! reg k) 0 k) ks) =
  (r, foldl (fun out k => <[(WIDTH * k + i)%nat := r !!! (m !!! reg k)]> out) out ks).
Proof.
  unfold exec_ops. revert out. induction ks as [|k ks IH]; intros out; [reflexivity|].
  cbn [map foldl]. rewrite <- IH. reflexivity.
Qed.

Lemma stores_ops reg ks b :
  foldl (fun b k => ec_code_store b (reg k) k) b ks =
  mk_builder (bld_size b)
    (bld_ops b ++ map (fun k => mk_code_op EC_GF_OP_STORE (bld_map b !!! (reg k)) 0 k) ks)
    (bld_regs b) (bld_map b).
Proof.
  revert b. induction ks as [|k ks IH]; intros b; [destruct b; cbn; rewrite app_nil_r; reflexivity|].
  cbn [foldl map]. rewrite IH. cbn. rewrite <- (assoc_L (++)). reflexivity.
Qed.

(** Whatever the registers held, the code writes planes with the symbols [T]. *)
Definition writes_symbols (ops : list ec_code_op) (T : Z -> Z) : Prop :=
  forall r out, length r = 16%nat ->
    exists r' p, exec_ops Z.lxor inp i (r, out) ops = (r', set_planes out i p) /\
      length r' = 16%nat /\
      forall bit, sym8 (planes_map (fun w => Z.testbit w bit) p) = T bit.

Lemma gf_store_symbols b S :
  holds_symbols b S -> writes_symbols (bld_ops (ec_code_gf_store gf8 b)) S.
Proof.
  intros (Hm & Hb) r out Hr. destruct (Hb r out Hr) as (r' & He & Hr' & Hs).
  exists r', (reg_planes (view (bld_map b) r')). split; [|split; [exact Hr' | exact Hs]].
  unfold ec_code_gf_store. rewrite (stores_ops (fun k => k)). cbn [bld_ops].
  rewrite exec_ops_app, He.
  rewrite (stores_exec (fun k => k)). f_equal.
  pose proof Hm as (Hl & _). unfold reg_planes. rewrite !view_lookup by lia. reflexivity.
Qed.

Lemma gf_clear_symbols b :
  bld_ops b = [] -> wf_map (bld_map b) ->
  writes_symbols (bld_ops (ec_code_gf_clear gf8 b)) (fun _ => 0).
Proof.
  intros Hb Hm r out Hr. unfold ec_code_gf_clear. rewrite (stores_ops (fun _ => 0%nat)).
  destruct (xor2_adds inp i b 0 0 Hm ltac:(lia) ltac:(lia)) as (Hm' & _ & new & Ho & Hf).
  rewrite Hm', Ho, Hb. cbn [app bld_ops]. destruct (Hf r out Hr) as (r' & He & Hr' & Hv).
  set (z := r' !!! (bld_map b !!! 0%nat)).
  exists r', (Planes z z z z z z z z). split; [|split; [exact Hr'|]].
  - rewrite exec_ops_app, He, (stores_exec (fun _ => 0%nat)). reflexivity.
  - assert (Hz : z = 0).
    { pose proof Hm as (Hl & _). unfold z. rewrite <- view_lookup, Hv by lia.
      rewrite list_lookup_total_insert_eq by (rewrite view_length; lia). apply Z.lxor_nilpotent. }
    intros bit. rewrite Hz. cbn [planes_map]. rewrite Z.bits_0. reflexivity.
Qed.
End steps.

(** ** The generated code of a row *)

Section row.
Context (gen : ec_code_gen) (values : list Z) (Hvalues : Forall in_field values).

Lemma value_next_spec vs j :
  match value_next vs j with
  | (v, n) => (v = 0 /\ Forall (fun x => x = 0) vs) \/
              (v <> 0 /\ exists k vs', vs = replicate k 0 ++ v :: vs' /\ n = (j + k)%nat)
  end.
Proof.
  revert j. induction vs as [|v vs IH]; intros j; cbn; [left; auto|].
  destruct (Z.eqb_spec v 0) as [->|Hv]; cbn [negb].
  - specialize (IH (S j)). destruct (value_next vs (S j)) as [w n].
    destruct IH as [[-> Hz]|(Hw & k & vs' & -> & ->)]; [left; auto|].
    right. split; [auto|]. exists (S k), vs'. split; [reflexivity | lia].
  - right. split; [auto|]. exists 0%nat, vs. split; [reflexivity | lia].
Qed.

Lemma lincomb_all_zero vs xs :
  Forall in_field xs -> Forall (fun v => v = 0) vs -> lincomb vs xs = 0.
Proof.
  intros Hx Hv. revert xs Hx. induction Hv as [|v vs -> _ IH]; intros xs Hx; [reflexivity|].
  destruct Hx as [|x xs Hx Hxs]; [reflexivity|]. cbn. rewrite mul8_0_l, Z.lxor_0_l by auto. auto.
Qed.

Context (inp : nat -> list Z) (i : nat) (Hi : (i < 8)%nat).

(** The symbols of the inputs from number [start] on. *)
Definition inputs_from (start n : nat) (bit : Z) : list Z :=
  map (fun k => symbol (inp k) i bit) (seq start n).

Lemma inputs_field start n bit : Forall in_field (inputs_from start n bit).
Proof. apply Forall_forall. intros x [k [-> _]]%list_elem_of_fmap. apply symbol_field. Qed.

Definition rest (start : nat) (bit : Z) : Z :=
  lincomb (drop start values) (inputs_from start (length values - start) bit).

Lemma rest_field start bit : in_field (rest start bit).
Proof. apply lincomb_field; [apply Forall_drop; auto | apply inputs_field]. Qed.

(** Skipping zeros and taking the next coefficient. *)
Lemma rest_next start k v vs' bit :
  (start <= length values)%nat -> drop start values = replicate k 0 ++ v :: vs' ->
  vs' = drop (S (start + k)) values /\ (start + k < length values)%nat /\
  rest start bit = Z.lxor (mul8 v (symbol (inp (start + k)) i bit)) (rest (S (start + k)) bit).
Proof.
  intros Hs Hd. assert (Hvs' : vs' = drop (S (start + k)) values).
  { replace (S (start + k)) with (start + (k + 1))%nat by lia.
    rewrite <- drop_drop, Hd, drop_app, drop_ge by (rewrite length_replicate; lia).
    rewrite length_replicate. replace (k + 1 - k)%nat with 1%nat by lia. reflexivity. }
  assert (Hlen : (length values - start = k + S (length vs'))%nat).
  { rewrite <- length_drop, Hd, length_app, length_replicate. reflexivity. }
  split; [exact Hvs'|]. split; [lia|].
  unfold rest at 1. rewrite Hd, lincomb_zeros by apply inputs_field. unfold inputs_from.
  rewrite skipn_map, drop_seq.
  replace (length values - start - k)%nat with (S (length values - S (start + k))) by lia.
  cbn [seq map lincomb]. rewrite Hvs'. reflexivity.
Qed.

Lemma build_loop_symbols fuel b val start Y :
  nonzero val -> (forall x, in_field (Y x)) -> holds_symbols inp i b Y ->
  (start <= length values)%nat -> (length values - start < fuel)%nat ->
  let '(b', val') := build_loop gf8 gen fuel values b val start in
  nonzero val' /\ exists S', holds_symbols inp i b' S' /\ (forall x, in_field (S' x)) /\
    forall x, mul8 val' (S' x) = Z.lxor (mul8 val (Y x)) (rest start x).
Proof.
  revert b val start Y. induction fuel as [|fuel IH]; intros b val start Y Hval HS Hb Hst Hf; [lia|].
  cbn [build_loop]. unfold ec_code_value_next.
  pose proof (value_next_spec (drop start values) start) as Hn.
  destruct (value_next (drop start values) start) as [next offset].
  destruct Hn as [[-> Hz]|(Hne & k & vs' & Hd & ->)].
  { cbn. split; [auto|]. exists Y. split; [auto|]. split; [auto|]. intros x.
    unfold rest. rewrite lincomb_all_zero by auto using inputs_field. rewrite Z.lxor_0_r. reflexivity. }
  destruct (Z.eqb_spec next 0); [contradiction|]. cbn [negb].
  assert (Hnext : nonzero next).
  { assert (Hin : in_field next).
    { pose proof (Forall_drop _ start _ Hvalues) as Hfd. rewrite Hd in Hfd.
      apply Forall_app in Hfd as [_ Hfd]. apply Forall_cons in Hfd. tauto. }
    destruct (field_cases next Hin); [contradiction | auto]. }
  pose proof (div8_nonzero val next Hval Hnext) as Hq.
  destruct (rest_next start k next vs' 0 Hst Hd) as (_ & Hlt & _).
  specialize (IH _ next (S (start + k)) _ Hnext
    (fun x => lxor_field _ _ (mul8_field _ _ (nonzero_field _ Hq) (HS x)) (symbol_field _ _ _))
    (gf_load_xor_symbols inp i Hi _ (start + k)%nat _
       (fun x => mul8_field _ _ (nonzero_field _ Hq) (HS x)) (gf_mul_symbols gen inp i b _ Y Hq Hb))
    ltac:(lia) ltac:(lia)).
  destruct (build_loop _ _ _ _ _ _ _) as [b' val']. destruct IH as (Hv' & S' & Hb' & HS' & HE).
  split; [auto|]. exists S'. split; [auto|]. split; [auto|]. intros x. rewrite HE.
  destruct (rest_next start k next vs' x Hst Hd) as (_ & _ & ->).
  rewrite ratio_step by auto with gf. apply Z.lxor_assoc.
Qed.

(** The code of a row writes the linear combination of the inputs. *)
Lemma build_ops_symbols :
  writes_symbols inp i (bld_ops (ec_code_build_ops gf8 gen values))
    (fun bit => lincomb values (inputs_from 0 (length values) bit)).
Proof.
  unfold ec_code_build_ops, ec_code_value_next. rewrite drop_0.
  assert (Hwf : wf_map (bld_map (ec_code_prepare gf8 (length values)))).
  { apply wf_mapb_spec. reflexivity. }
  pose proof (value_next_spec values 0) as Hn. destruct (value_next values 0) as [next offset].
  destruct Hn as [[-> Hz]|(Hne & k & vs' & Hd & ->)]; cbn [Z.eqb negb].
  { intros r out Hr. destruct (gf_clear_symbols inp i Hi (ec_code_prepare gf8 (length values)) eq_refl Hwf r out Hr) as (r' & p & He & Hr' & Hp).
    exists r', p. split; [exact He|]. split; [auto|]. intros bit.
    rewrite Hp, lincomb_all_zero; auto using inputs_field. }
  destruct (Z.eqb_spec next 0); [contradiction|]. cbn [negb Nat.add].
  assert (Hnext : nonzero next).
  { assert (Hin : in_field next).
    { rewrite Hd in Hvalues. apply Forall_app in Hvalues as [_ H']. apply Forall_cons in H'. tauto. }
    destruct (field_cases next Hin); [contradiction | auto]. }
  destruct (rest_next 0 k next vs' 0 ltac:(lia) Hd) as (_ & Hlt & _). cbn in Hlt.
  pose proof (build_loop_symbols (S (length values)) _ next (S k) _ Hnext
    (fun x => symbol_field _ _ _)
    (gf_load_symbols inp i Hi (ec_code_prepare gf8 (length values)) k eq_refl Hwf) ltac:(lia) ltac:(lia)) as Hloop.
  destruct (build_loop _ _ _ _ _ _ _) as [b val]. destruct Hloop as (Hv & S' & Hb & HS' & HE).
  pose proof (gf_store_symbols inp i Hi _ _ (gf_mul_symbols gen inp i b val S' Hv Hb)) as Hw.
  intros r out Hr. destruct (Hw r out Hr) as (r' & p & He & Hr' & Hp). exists r', p.
  split; [exact He|]. split; [auto|]. intros bit. rewrite Hp, HE.
  destruct (rest_next 0 k next vs' bit ltac:(lia) Hd) as (_ & _ & E). unfold rest at 1 in E.
  rewrite drop_0, Nat.sub_0_r in E. rewrite E. reflexivity.
Qed.
End row.

(** ** Whole chunks *)

Lemma word_ok_bits w : (forall b, 64 <= b -> Z.testbit w b = false) -> word_ok w.
Proof.
  intros Hb. assert (E : w = Z.land w (Z.ones 64)).
  { apply Z.bits_inj'. intros n Hn. rewrite Z.land_spec. destruct (Z.lt_ge_cases n 64).
    - rewrite Z.ones_spec_low by lia. rewrite andb_true_r. reflexivity.
    - rewrite Hb by lia. reflexivity. }
  rewrite Z.land_ones in E by lia. pose proof (Z.mod_pos_bound w (2 ^ 64) ltac:(lia)).
  unfold word_ok. lia.
Qed.

(** The loop over the words, when every iteration writes the symbols [T i]. *)
Lemma run_code_symbols ops inp T regs out :
  (forall i, (i < 8)%nat -> writes_symbols inp i ops (T i)) ->
  length regs = 16%nat -> length out = 64%nat ->
  let '(regs', out') := run_code Z.lxor ops inp regs out in
  length regs' = 16%nat /\ length out' = 64%nat /\
  forall i b, (i < 8)%nat -> symbol out' i b = T i b.
Proof.
  intros Hw Hr Ho. unfold run_code.
  assert (Hgen : forall js, NoDup js -> Forall (fun i => (i < 8)%nat) js -> forall regs out,
    length regs = 16%nat -> length out = 64%nat ->
    let '(regs', out') := foldl (fun s i => exec_ops Z.lxor inp i s ops) (regs, out) js in
    length regs' = 16%nat /\ length out' = 64%nat /\
    (forall i b, i ∈ js -> symbol out' i b = T i b) /\
    (forall i, (i < 8)%nat -> i ∉ js -> get_planes out' i = get_planes out i)).
  { induction js as [|i js IH]; intros Hnd Hjs regs0 out0 Hr0 Ho0; cbn [foldl].
    { split; [auto|]. split; [auto|]. split; [intros ? ? []%elem_of_nil | auto]. }
    apply NoDup_cons in Hnd as [Hi Hnd]. apply Forall_cons in Hjs as [Hi8 Hjs].
    destruct (Hw i Hi8 regs0 out0 Hr0) as (r1 & p & -> & Hr1 & Hp).
    specialize (IH Hnd Hjs r1 (set_planes out0 i p) Hr1 ltac:(rewrite set_planes_length; auto)).
    destruct (foldl _ _ _) as [regs' out']. destruct IH as (Hr' & Ho' & Hs & Hu).
    split; [auto|]. split; [auto|]. split.
    - intros j b Hj. apply elem_of_cons in Hj as [->|]; [|auto].
      unfold symbol. rewrite Hu, get_set_planes by auto. apply Hp.
    - intros j Hj Hji. rewrite elem_of_cons in Hji. rewrite Hu by tauto.
      apply get_set_planes_ne; auto; tauto. }
  specialize (Hgen (seq 0 WIDTH)). destruct (foldl _ _ _) as [regs' out'] eqn:E.
  specialize (Hgen ltac:(apply NoDup_ListNoDup, seq_NoDup)
    ltac:(apply Forall_forall; intros j Hj%elem_of_seq; exact (proj2 Hj)) regs out Hr Ho).
  rewrite E in Hgen. destruct Hgen as (? & ? & Hs & _). split; [auto|]. split; [auto|].
  intros i b Hi. apply Hs, elem_of_seq. unfold WIDTH. lia.
Qed.

(** ** Room for the operations *)

Open Scope nat_scope.

(** Operations [ec_code_gf_mul] emits for a program. *)
Fixpoint ops_cost (gen : ec_code_gen) (ops : list ec_gf_op) : nat :=
  match ops with
  | [] => 0
  | op :: ops =>
      match op_code op with
      | EC_GF_OP_END => 0
      | EC_GF_OP_COPY | EC_GF_OP_XOR2 => S (ops_cost gen ops)
      | EC_GF_OP_XOR3 => (if gen_xor3 gen then 1 else 2) + ops_cost gen ops
      | _ => ops_cost gen ops
      end
  end.

(** The most any factor costs: [max_ops], and one more without [xor3]. *)
Definition mul_cost (gen : ec_code_gen) : nat := if gen_xor3 gen then 18 else 19.

Lemma mul_cost_check :
  forallb (fun xor3 => forallb (fun mul =>
    ops_cost (mk_gen xor3) (mul_ops mul) <=? mul_cost (mk_gen xor3)) ec_gf8_mul) [true; false] = true.
Proof. vm_compute. reflexivity. Qed.

Section room.
Context (gen : ec_code_gen).

Lemma mul_cost_ok mul : mul ∈ ec_gf8_mul -> ops_cost gen (mul_ops mul) <= mul_cost gen.
Proof.
  intros Hm%list_elem_of_In. pose proof mul_cost_check as Hck. rewrite forallb_forall in Hck.
  destruct gen as [xor3]. specialize (Hck xor3 ltac:(destruct xor3; cbn; auto)).
  rewrite forallb_forall in Hck. apply Nat.leb_le, Hck, Hm.
Qed.

Lemma dup_ops_length ops b :
  length (bld_ops (dup_ops gen b ops)) = length (bld_ops b) + ops_cost gen ops /\
  bld_size (dup_ops gen b ops) = bld_size b.
Proof.
  revert b. induction ops as [|op ops IH]; intros b; cbn [dup_ops ops_cost]; [split; [lia | auto]|].
  assert (Hdup : bld_size (ec_code_dup gen b op) = bld_size b).
  { unfold ec_code_dup, ec_code_xor3. destruct (op_code op), (gen_xor3 gen); reflexivity. }
  specialize (IH (ec_code_dup gen b op)) as [IHl IHs]. rewrite Hdup in IHs.
  revert IHl. unfold ec_code_dup at 2, ec_code_xor3. destruct (op_code op), (gen_xor3 gen);
    cbn [negb bld_ops ec_code_copy ec_code_xor2 ec_code_op_next ec_code_arg_assign];
    rewrite ?length_app; cbn [length]; intros; split; auto; lia.
Qed.

Lemma gf_mul_room b c :
  nonzero c -> length (bld_ops (ec_code_gf_mul gf8 gen b c)) <= length (bld_ops b) + mul_cost gen /\
  bld_size (ec_code_gf_mul gf8 gen b c) = bld_size b.
Proof.
  intros Hc. unfold ec_code_gf_mul. destruct (gf8_mul_ok c Hc) as (mul & Hmul & _). rewrite Hmul.
  destruct (dup_ops_length (mul_ops mul) b) as [Hl Hs]. cbn [bld_ops bld_size].
  pose proof (mul_cost_ok mul (list_elem_of_lookup_2 _ _ _ Hmul)). split; [lia | exact Hs].
Qed.

Lemma steps_room (step : ec_code_builder -> nat -> ec_code_builder) ks b :
  (forall b k, length (bld_ops (step b k)) = S (length (bld_ops b)) /\ bld_size (step b k) = bld_size b) ->
  length (bld_ops (foldl step b ks)) = length (bld_ops b) + length ks /\
  bld_size (foldl step b ks) = bld_size b.
Proof.
  intros Hstep. revert b. induction ks as [|k ks IH]; intros b; cbn [foldl length]; [split; [lia | auto]|].
  destruct (Hstep b k) as [Hl Hs]. destruct (IH (step b k)) as [IHl IHs]. split; [lia | congruence].
Qed.

Ltac plane_steps := apply (steps_room _ (seq 0 8)); intros b0 k0; cbn; rewrite length_app; cbn; lia.

Lemma load_xor_room b offset :
  length (bld_ops (ec_code_gf_load_xor gf8 b offset)) = length (bld_ops b) + 8 /\
  bld_size (ec_code_gf_load_xor gf8 b offset) = bld_size b.
Proof. plane_steps. Qed.

Lemma load_room b offset :
  length (bld_ops (ec_code_gf_load gf8 b offset)) = length (bld_ops b) + 8 /\
  bld_size (ec_code_gf_load gf8 b offset) = bld_size b.
Proof. plane_steps. Qed.

Lemma store_room b :
  length (bld_ops (ec_code_gf_store gf8 b)) = length (bld_ops b) + 8 /\
  bld_size (ec_code_gf_store gf8 b) = bld_size b.
Proof. plane_steps. Qed.

Lemma clear_room b :
  length (bld_ops (ec_code_gf_clear gf8 b)) = length (bld_ops b) + 9 /\
  bld_size (ec_code_gf_clear gf8 b) = bld_size b.
Proof.
  pose proof (steps_room (fun b i => ec_code_store b 0 i) (seq 0 8) (ec_code_xor2 b 0 0)) as H.
  destruct H as [Hl Hs]; [intros; cbn; rewrite length_app; cbn; lia|].
  split; [|exact Hs]. etransitivity; [exact Hl|]. cbn. rewrite length_app. cbn. lia.
Qed.

Lemma build_loop_room fuel values b val start :
  Forall in_field values -> nonzero val -> start <= length values ->
  let '(b', val') := build_loop gf8 gen fuel values b val start in
  nonzero val' /\ bld_size b' = bld_size b /\
  length (bld_ops b') <= length (bld_ops b) + (length values - start) * (8 + mul_cost gen).
Proof.
  intros Hvs. revert b val start. induction fuel as [|fuel IH]; intros b val start Hval Hst;
    cbn [build_loop]; [split; [auto | split; [auto | apply Nat.le_add_r]]|].
  unfold ec_code_value_next. pose proof (value_next_spec (drop start values) start) as Hn.
  destruct (value_next (drop start values) start) as [next offset].
  destruct Hn as [[-> _]|(Hne & k & vs' & Hd & ->)]; [cbn [Z.eqb negb]; split; [auto | split; [auto | apply Nat.le_add_r]]|].
  destruct (Z.eqb_spec next 0); [contradiction|]. cbn [negb].
  assert (Hnext : nonzero next).
  { assert (Hin : in_field next).
    { pose proof (Forall_drop _ start _ Hvs) as Hfd. rewrite Hd in Hfd.
      apply Forall_app in Hfd as [_ Hfd]. apply Forall_cons in Hfd. tauto. }
    destruct (field_cases next Hin); [contradiction | auto]. }
  assert (Hlen : length values - start = k + S (length vs')).
  { rewrite <- length_drop, Hd, length_app, length_replicate. reflexivity. }
  destruct (gf_mul_room b _ (div8_nonzero val next Hval Hnext)) as [Hm Hms].
  destruct (load_xor_room (ec_code_gf_mul gf8 gen b (div8 val next)) (start + k)) as [Hx Hxs].
  specialize (IH (ec_code_gf_load_xor gf8 (ec_code_gf_mul gf8 gen b (div8 val next)) (start + k))
    next (S (start + k)) Hnext ltac:(lia)).
  destruct (build_loop _ _ _ _ _ _ _) as [b' val']. destruct IH as (Hv & Hs & Hl).
  split; [auto|]. split; [congruence|].
  replace (length values - S (start + k)) with (length vs') in Hl by lia.
  rewrite Hlen. nia.
Qed.

(** The operations of a row fit in the allocation, up to one operation per
    coefficient when the generator has no [xor3]. *)
Lemma build_ops_room values :
  Forall in_field values -> values <> [] ->
  let b := ec_code_build_ops gf8 gen values in
  bld_size b = length values * (8 + 18) + 8 /\
  length (bld_ops b) <= length values * (8 + mul_cost gen) + 8.
Proof.
  intros Hvs Hne0. cbv zeta. unfold ec_code_build_ops, ec_code_value_next. rewrite drop_0.
  assert (Hpos : 1 <= length values) by (destruct values; cbn; [congruence | lia]).
  set (b0 := ec_code_prepare gf8 (length values)).
  assert (Hb0 : bld_size b0 = length values * (8 + 18) + 8 /\ length (bld_ops b0) = 0) by (split; reflexivity).
  destruct Hb0 as [Hsz0 Hl0].
  pose proof (value_next_spec values 0) as Hn. destruct (value_next values 0) as [next offset].
  destruct Hn as [[-> Hz]|(Hne & k & vs' & Hd & ->)]; cbn [Z.eqb negb].
  { destruct (clear_room b0) as [Hl Hs]. split; [rewrite Hs; exact Hsz0 | rewrite Hl; nia]. }
  destruct (Z.eqb_spec next 0); [contradiction|]. cbn [negb Nat.add].
  assert (Hnext : nonzero next).
  { assert (Hin : in_field next).
    { rewrite Hd in Hvs. apply Forall_app in Hvs as [_ Hvs]. apply Forall_cons in Hvs. tauto. }
    destruct (field_cases next Hin); [contradiction | auto]. }
  assert (Hk : k < length values) by (rewrite Hd, length_app, length_replicate; cbn; lia).
  destruct (load_room b0 k) as [Hll Hls].
  pose proof (build_loop_room (S (length values)) values (ec_code_gf_load gf8 b0 k) next (S k)
    Hvs Hnext ltac:(lia)) as Hloop.
  destruct (build_loop _ _ _ _ _ _ _) as [b val]. destruct Hloop as (Hv & Hs & Hl).
  destruct (gf_mul_room b val Hv) as [Hml Hms].
  destruct (store_room (ec_code_gf_mul gf8 gen b val)) as [Hsl Hss].
  split; [rewrite Hss, Hms, Hs, Hls; exact Hsz0|]. rewrite Hsl. nia.
Qed.
End room.
