(* ===== verification/EcMatrix.v ===== *)
(** * The matrices of the disperse translator

    Models [ec_method_matrix_normal] and [ec_method_matrix_inverse] of
    [xlators/cluster/ec/src/ec-method.c].  A matrix is the flat uint32_t array
    of the source, written through a moving index.  The first gives the rows of
    a Vandermonde matrix, the second the inverse of the square matrix of the
    given rows: encoding followed by decoding is the identity on symbols. *)

From S2P Require Import Prelude EcGalois EcPoly EcField EcChunks.
From Stdlib Require Import Field.
Open Scope Z_scope.

(** ** The operations *)

(** The inner loop of [ec_method_matrix_normal]: [n] successive divisions. *)
Fixpoint normal_row (gf : ec_gf) (n : nat) (tmp v : Z) : list Z :=
  match n with
  | O => []
  | S n' => let tmp := ec_gf_div gf tmp v in tmp :: normal_row gf n' tmp v
  end.

(** What [ec_method_matrix_normal] writes from [matrix] on. *)
Definition ec_method_matrix_normal (gf : ec_gf) (columns : nat) (values : list Z) : list Z :=
  let columns := (columns - 1)%nat in
  concat (map (fun v =>
    let tmp := ec_gf_exp gf v (Z.of_nat columns) in tmp :: normal_row gf columns tmp v) values).

(** [for (j = i - 1; j < last; j++)], [n] iterations. *)
Fixpoint coeffs_loop (gf : ec_gf) (n : nat) (v : Z) (j : nat) (a : list Z) : list Z :=
  match n with
  | O => a
  | S n' =>
      coeffs_loop gf n' v (S j)
        (<[j := Z.lxor (a !!! S j) (ec_gf_mul gf v (a !!! j))]> a)
  end.

(** [for (i = last; i > 0; i--)]. *)
Fixpoint coeffs (gf : ec_gf) (i : nat) (last : nat) (values a : list Z) : list Z :=
  match i with
  | O => a
  | S i' =>
      let v := values !!! i in
      let a := coeffs_loop gf (last - i') v i' a in
      coeffs gf i' last values (<[last := ec_gf_mul gf v (a !!! last)]> a)
  end.

(** [for (j = 1; j < last; j++)]: matrix, index, [tmp] and [p]. *)
Fixpoint column_up (gf : ec_gf) (n : nat) (count j : nat) (v : Z) (a : list Z)
    (st : list Z * nat * Z * Z) : list Z * nat * Z * Z :=
  match n with
  | O => st
  | S n' =>
      let '(mat, m, tmp, p) := st in
      let m := (m + count)%nat in
      let tmp := Z.lxor (a !!! j) (ec_gf_mul gf v tmp) in
      let p := Z.lxor tmp (ec_gf_mul gf v p) in
      column_up gf n' count (S j) v a (<[m := tmp]> mat, m, tmp, p)
  end.

(** [for (j = 0; j < last; j++)]: the division of the column by [p]. *)
Fixpoint column_down (gf : ec_gf) (n : nat) (count : nat) (p : Z) (st : list Z * nat)
    : list Z * nat :=
  match n with
  | O => st
  | S n' =>
      let '(mat, m) := st in
      column_down gf n' count p (<[m := ec_gf_div gf (mat !!! m) p]> mat, (m - count)%nat)
  end.

(** One iteration of [for (i = 0; i < count; i++)]: the column of [v]. *)
Definition inverse_column (gf : ec_gf) (count last : nat) (a : list Z) (v : Z)
    (st : list Z * nat) : list Z * nat :=
  let '(mat, m) := st in
  let p := a !!! 0%nat in
  let m := (m + count)%nat in
  let tmp := Z.lxor p v in
  let '(mat, m, _, p) := column_up gf (last - 1) count 1 v a (<[m := tmp]> mat, m, tmp, p) in
  let '(mat, m) := column_down gf last count p (mat, m) in
  (<[m := ec_gf_div gf 1 p]> mat, S m).

(** [ec_method_matrix_inverse] on the array [matrix]; [values] holds [count]
    rows. *)
Definition ec_method_matrix_inverse (gf : ec_gf) (matrix values : list Z) : list Z :=
  let count := length values in
  let last := (count - 1)%nat in
  let a := replicate last 1 ++ [values !!! 0%nat] in
  let a := coeffs gf last last values a in
  fst (foldl (fun st v => inverse_column gf count last a v st) (matrix, 0%nat) values).

(** Row [i] of a flat matrix. *)
Definition matrix_row (columns : nat) (mat : list Z) (i : nat) : list Z :=
  take columns (drop (i * columns) mat).

(** ** Instances of the polynomial operations *)

Abbreviation f0 := (gf_of 0).
Abbreviation f1 := (gf_of 1).
Abbreviation hornerF := (horner fadd fmul).
Abbreviation quotF := (quot fadd fmul).
Abbreviation mulxF := (mulx fmul fadd fopp).
Abbreviation rootsF := (roots_poly f1 fmul fadd fopp).
Abbreviation interpF := (interp f0 fadd fmul fdiv).
Abbreviation fpowF := (fpow f1 fmul).

Add Field gf256_Field : gf256_field.

#[export] Instance gf256_inhabited : Inhabited gf256 := populate f0.

(** ** Rows of the encoding matrix *)

Fixpoint powers (x : gf256) (n : nat) : list gf256 :=
  match n with O => [] | S k => fpowF x k :: powers x k end.

Lemma gfv_fpow x n : gfv (fpowF x n) = gpow (gfv x) n.
Proof.
  induction n as [|n IH]; [reflexivity|]. cbn [fpow gpow]. rewrite gfv_mul, IH.
  apply mul8_gmul; auto using gpow_field with gf.
Qed.

Lemma fdiv_mul x y : gfv y <> 0 -> fdiv (fmul y x) y = x.
Proof.
  intros Hy. assert (y <> f0) by (contradict Hy; subst; reflexivity). field. auto.
Qed.

Lemma normal_row_powers x n :
  gfv x <> 0 -> normal_row gf8 n (gfv (fpowF x n)) (gfv x) = map gfv (powers x n).
Proof.
  intros Hx. induction n as [|n IH]; [reflexivity|]. cbn [normal_row powers map].
  rewrite <- gfv_div by auto. cbn [fpow]. rewrite fdiv_mul by auto. rewrite IH. reflexivity.
Qed.

(** Row of [x]: its powers, from the highest. *)
Lemma normal_row_full x n :
  gfv x <> 0 -> Z.of_nat n < 2 ^ 32 ->
  let tmp := ec_gf_exp gf8 (gfv x) (Z.of_nat n) in
  tmp :: normal_row gf8 n tmp (gfv x) = map gfv (powers x (S n)).
Proof.
  intros Hx Hn. cbv zeta. rewrite exp8_gpow by (auto with gf; lia). rewrite Nat2Z.id.
  rewrite <- gfv_fpow, normal_row_powers by auto. reflexivity.
Qed.

Lemma powers_length x n : length (powers x n) = n.
Proof. induction n; cbn; auto. Qed.

(** ** Dot products *)

Fixpoint dot (cs ds : list gf256) : gf256 :=
  match cs, ds with c :: cs, d :: ds => fadd (fmul c d) (dot cs ds) | _, _ => f0 end.

Lemma lincomb_dot cs ds : lincomb (map gfv cs) (map gfv ds) = gfv (dot cs ds).
Proof.
  revert ds. induction cs as [|c cs IH]; intros [|d ds]; try reflexivity.
  cbn [map lincomb dot]. rewrite IH, gfv_add, gfv_mul. reflexivity.
Qed.

Lemma dot_powers x ds : dot (powers x (length ds)) ds = hornerF f0 ds x.
Proof.
  induction ds as [|d ds IH]; [reflexivity|]. cbn [length powers dot]. rewrite IH.
  rewrite horner_cons, (horner_acc _ _ _ _ _ _ _ _ gf256_field (fadd (fmul f0 x) d)). ring.
Qed.

(** ** The coefficients of the product of the factors *)

Lemma coeffs_loop_mulx v x c pre :
  let a := coeffs_loop gf8 (length c) (gfv v) (length pre) (pre ++ map gfv (x :: c)) in
  let last := (length pre + length c)%nat in
  <[last := mul8 (gfv v) (a !!! last)]> a = pre ++ map gfv (mulxF v x c).
Proof.
  revert x pre. induction c as [|y c IH]; intros x pre; cbv zeta; cbn [length coeffs_loop].
  - rewrite Nat.add_0_r. cbn [map]. rewrite list_lookup_total_middle by auto.
    rewrite insert_app_r_alt, Nat.sub_diag by lia. cbn. unfold fopp. rewrite gfv_mul. reflexivity.
  - cbn [map]. rewrite (list_lookup_total_middle pre _ _ (length pre)) by auto.
    replace (pre ++ gfv x :: gfv y :: map gfv c) with ((pre ++ [gfv x]) ++ gfv y :: map gfv c)
      by (rewrite <- app_assoc; reflexivity).
    rewrite list_lookup_total_middle by (rewrite length_app; cbn; lia).
    rewrite <- gfv_mul, <- gfv_add. rewrite <- app_assoc.
    rewrite insert_app_r_alt, Nat.sub_diag by lia. cbn [app insert list_insert].
    specialize (IH y (pre ++ [gfv (fadd y (fmul v x))])). cbv zeta in IH.
    rewrite length_app in IH. cbn [length] in IH. rewrite Nat.add_1_r in IH.
    rewrite <- !app_assoc in IH. cbn [app] in IH. rewrite Nat.add_succ_r.
    cbn [map] in IH. exact IH.
Qed.

Lemma coeffs_roots i last v0 vs c :
  (i <= length vs)%nat -> length vs = last -> (length c + i = S last)%nat ->
  coeffs gf8 i last (map gfv (v0 :: vs)) (replicate i 1 ++ map gfv c) =
  map gfv (foldl (fun c v => mulxF v f1 c) c (rev (take i vs))).
Proof.
  revert c. induction i as [|i IH]; intros c Hi Hl Hc; [reflexivity|]. cbn [coeffs].
  destruct (lookup_lt_is_Some_2 vs i) as [v Hv]; [lia|].
  assert (Ev : map gfv (v0 :: vs) !!! S i = gfv v).
  { apply list_lookup_total_correct. change (map gfv) with (@fmap list _ _ _ gfv).
    rewrite list_lookup_fmap. change ((v0 :: vs) !! S i) with (vs !! i). rewrite Hv. reflexivity. }
  rewrite Ev. rewrite replicate_S_end, <- app_assoc. cbn [app].
  pose proof (coeffs_loop_mulx v f1 c (replicate i 1)) as Hm. cbv zeta in Hm.
  rewrite length_replicate in Hm. replace (last - i)%nat with (length c) by lia.
  replace (i + length c)%nat with last in Hm by lia. cbn [map] in Hm. rewrite gfv_1 in Hm.
  rewrite Hm, IH by (rewrite ?mulx_length; lia).
  rewrite (take_S_r _ _ _ Hv), rev_app_distr. reflexivity.
Qed.

(** The array [a] of [ec_method_matrix_inverse]. *)
Lemma coeffs_final v0 vs :
  coeffs gf8 (length vs) (length vs) (map gfv (v0 :: vs)) (replicate (length vs) 1 ++ [gfv v0]) =
  map gfv (rootsF v0 (rev vs)).
Proof.
  pose proof (coeffs_roots (length vs) (length vs) v0 vs [v0]) as H.
  rewrite take_ge in H by lia. apply H; cbn; lia.
Qed.

(** ** One column of the inverse *)

(** Successive coefficients of a quotient. *)
Fixpoint scan (x q : gf256) (c : list gf256) : list gf256 :=
  match c with [] => [] | a :: c => let q := fadd a (fmul x q) in q :: scan x q c end.

Lemma quot_scan x q c z : quotF x q (c ++ [z]) = q :: scan x q c.
Proof. revert q. induction c as [|a c IH]; intros q; [reflexivity|]. cbn. rewrite IH. reflexivity. Qed.

Lemma scan_length x q c : length (scan x q c) = length c.
Proof. revert q. induction c; intros; cbn; auto. Qed.

Section column.
Context (count : nat) (Hcount : (0 < count)%nat) (a : list Z) (x : gf256).

Lemma column_up_spec c : forall j mat m q p,
  (forall t, (t < length c)%nat -> a !!! (j + t)%nat = gfv (c !!! t)) ->
  (m + length c * count < length mat)%nat ->
  exists mat' tmp,
    column_up gf8 (length c) count j (gfv x) a (mat, m, gfv q, gfv p) =
      (mat', (m + length c * count)%nat, tmp, gfv (hornerF p (scan x q c) x)) /\
    length mat' = length mat /\
    (forall t, (t < length c)%nat -> mat' !!! (m + S t * count)%nat = gfv (scan x q c !!! t)) /\
    (forall n, (forall t, (t < length c)%nat -> n <> (m + S t * count)%nat) -> mat' !!! n = mat !!! n).
Proof.
  induction c as [|y c IH]; intros j mat m q p Ha Hm; cbn [length column_up scan].
  { exists mat, (gfv q). rewrite Nat.add_0_r. split; [reflexivity|]. split; [auto|]. split; [lia | auto]. }
  pose proof (Ha 0%nat ltac:(cbn; lia)) as Ha0. rewrite Nat.add_0_r in Ha0. cbn in Ha0. rewrite Ha0.
  rewrite <- gfv_mul, <- gfv_add, <- gfv_mul, <- gfv_add. cbn [length] in Hm.
  destruct (IH (S j) (<[(m + count)%nat := gfv (fadd y (fmul x q))]> mat) (m + count)%nat
    (fadd y (fmul x q)) (fadd (fadd y (fmul x q)) (fmul x p))) as (mat' & tmp & He & Hl & Hc & Ho).
  { intros t Ht. rewrite Nat.add_succ_l, <- Nat.add_succ_r. rewrite Ha by (cbn; lia). reflexivity. }
  { rewrite length_insert. nia. }
  exists mat', tmp. rewrite length_insert in Hl. split; [|split; [exact Hl|split]].
  - rewrite He. rewrite horner_cons. f_equal; [f_equal; f_equal; lia|].
    do 2 f_equal. ring.
  - intros [|t] Ht.
    + rewrite Ho by nia. replace (m + 1 * count)%nat with (m + count)%nat by lia.
      rewrite list_lookup_total_insert_eq by nia. reflexivity.
    + replace (m + S (S t) * count)%nat with (m + count + S t * count)%nat by lia. apply Hc. cbn in Ht. lia.
  - intros n Hn. rewrite Ho.
    + apply list_lookup_total_insert_ne. specialize (Hn 0%nat ltac:(cbn; lia)). lia.
    + intros t Ht. specialize (Hn (S t) ltac:(cbn; lia)). lia.
Qed.

Lemma column_down_spec p n : forall mat m,
  (n * count <= m)%nat -> (m < length mat)%nat ->
  exists mat', column_down gf8 n count p (mat, m) = (mat', (m - n * count)%nat) /\
    length mat' = length mat /\
    (forall t, (t < n)%nat -> mat' !!! (m - t * count)%nat = div8 (mat !!! (m - t * count)%nat) p) /\
    (forall k, (forall t, (t < n)%nat -> k <> (m - t * count)%nat) -> mat' !!! k = mat !!! k).
Proof.
  induction n as [|n IH]; intros mat m Hm Hl; cbn [column_down].
  { exists mat. rewrite Nat.sub_0_r. split; [reflexivity|]. split; [auto|]. split; [lia | auto]. }
  destruct (IH (<[m := div8 (mat !!! m) p]> mat) (m - count)%nat) as (mat' & He & Hl' & Hc & Ho).
  { nia. } { rewrite length_insert. lia. }
  exists mat'. rewrite length_insert in Hl'. split; [|split; [exact Hl'|split]].
  - rewrite He. f_equal. nia.
  - intros [|t] Ht.
    + rewrite Nat.mul_0_l, Nat.sub_0_r, Ho by nia. apply list_lookup_total_insert_eq. lia.
    + replace (m - S t * count)%nat with (m - count - t * count)%nat by nia.
      rewrite Hc by lia. rewrite list_lookup_total_insert_ne by nia. reflexivity.
  - intros k Hk. rewrite Ho.
    + apply list_lookup_total_insert_ne. specialize (Hk 0%nat ltac:(lia)). lia.
    + intros t Ht. specialize (Hk (S t) ltac:(lia)). nia.
Qed.
End column.

Lemma fadd_self x : fadd x x = f0.
Proof. apply gfv_inj. rewrite gfv_add. apply Z.lxor_nilpotent. Qed.

(** The quotient by [X - x], split the way the loops write it. *)
Lemma quot_split x a0 B z :
  let q1 := fadd a0 x in
  quotF x f1 (a0 :: B ++ [z]) = f1 :: q1 :: scan x q1 B /\
  hornerF f0 (quotF x f1 (a0 :: B ++ [z])) x = hornerF a0 (scan x q1 B) x.
Proof.
  cbv zeta. assert (E : quotF x f1 (a0 :: B ++ [z]) = f1 :: fadd a0 x :: scan x (fadd a0 x) B).
  { cbn [quot]. rewrite quot_scan. do 2 f_equal; [|f_equal]; ring. }
  split; [exact E|]. rewrite E, !horner_cons. f_equal.
  transitivity (fadd a0 (fadd x x)); [ring|]. rewrite fadd_self. ring.
Qed.

Lemma inverse_column_spec x a0 B z mat i :
  let A := a0 :: B ++ [z] in
  let count := length A in
  let Q := quotF x f1 A in
  let p := hornerF f0 Q x in
  p <> f0 -> (i + (count - 1) * count < length mat)%nat ->
  exists mat', inverse_column gf8 count (count - 1) (map gfv A) (gfv x) (mat, i) = (mat', S i) /\
    length mat' = length mat /\
    (forall j, (j < count)%nat -> mat' !!! (i + j * count)%nat = gfv (fdiv (Q !!! j) p)) /\
    (forall n, (forall j, (j < count)%nat -> n <> (i + j * count)%nat) -> mat' !!! n = mat !!! n).
Proof.
  cbv zeta. intros Hp Hi. destruct (quot_split x a0 B z) as [EQ Ep]. cbv zeta in EQ, Ep.
  rewrite Ep in *. set (q1 := fadd a0 x) in *. set (p := hornerF a0 (scan x q1 B) x) in *.
  assert (Hl : length (a0 :: B ++ [z]) = (length B + 2)%nat) by (cbn; rewrite length_app; cbn; lia).
  rewrite EQ, Hl in *. replace (length B + 2 - 1)%nat with (S (length B)) in * by lia.
  assert (Hpz : gfv p <> 0) by (contradict Hp; apply gfv_inj; exact Hp).
  unfold inverse_column. cbn [map]. change ((gfv a0 :: map gfv (B ++ [z])) !!! 0%nat) with (gfv a0).
  rewrite Nat.sub_succ, Nat.sub_0_r, <- gfv_add. fold q1.
  set (count := (length B + 2)%nat) in *.
  destruct (column_up_spec count ltac:(lia) (gfv a0 :: map gfv (B ++ [z])) x B 1
    (<[(i + count)%nat := gfv q1]> mat) (i + count)%nat q1 a0) as (m1 & tmp & He & Hl1 & Hc1 & Ho1).
  { intros t Ht. cbn [Nat.add]. change ((gfv a0 :: map gfv (B ++ [z])) !!! S t) with (map gfv (B ++ [z]) !!! t).
    rewrite map_app, lookup_total_app_l by (rewrite length_map; auto).
    change (map gfv B) with (gfv <$> B). apply list_lookup_total_fmap; auto. }
  { rewrite length_insert. nia. }
  rewrite He. rewrite length_insert in Hl1. fold p.
  destruct (column_down_spec count ltac:(lia) (gfv p) (S (length B)) m1
    (i + count + length B * count)%nat) as (m2 & He2 & Hl2 & Hc2 & Ho2); [nia | nia|].
  rewrite He2. replace (i + count + length B * count - S (length B) * count)%nat with i by nia.
  eexists. split; [reflexivity|]. split; [rewrite length_insert; lia|]. split.
  - intros [|j] Hj.
    + rewrite Nat.add_0_r, list_lookup_total_insert_eq by nia.
      rewrite <- gfv_1, <- gfv_div by auto. reflexivity.
    + rewrite list_lookup_total_insert_ne by nia.
      pose proof (Hc2 (length B - j)%nat ltac:(lia)) as E2.
      replace (i + count + length B * count - (length B - j) * count)%nat
        with (i + S j * count)%nat in E2 by nia.
      rewrite E2. rewrite gfv_div by auto. f_equal. destruct j as [|j].
      * rewrite Ho1 by nia. replace (i + 1 * count)%nat with (i + count)%nat by lia.
        rewrite list_lookup_total_insert_eq by nia. reflexivity.
      * replace (i + S (S j) * count)%nat with (i + count + S j * count)%nat by lia.
        rewrite Hc1 by lia. reflexivity.
  - intros n Hn. rewrite list_lookup_total_insert_ne by (specialize (Hn 0%nat ltac:(lia)); lia).
    rewrite Ho2.
    + rewrite Ho1; [apply list_lookup_total_insert_ne; specialize (Hn 1%nat ltac:(lia)); lia|].
      intros t Ht. specialize (Hn (S (S t)) ltac:(lia)). nia.
    + intros t Ht. specialize (Hn (S (length B) - t)%nat ltac:(lia)). nia.
Qed.

(** ** The whole inverse *)

Lemma cell_ne count i j i' j' :
  (i < count)%nat -> (i' < count)%nat -> i <> i' -> (i + j * count <> i' + j' * count)%nat.
Proof.
  intros Hi Hi' Hne E. apply Hne. apply (f_equal (fun n => n mod count)%nat) in E.
  rewrite !Nat.Div0.mod_add, !Nat.mod_small in E by auto. exact E.
Qed.

(** The entry in row [j] and the column of [x]. *)
Definition entry (A : list gf256) (x : gf256) (j : nat) : gf256 :=
  let Q := quotF x f1 A in fdiv (Q !!! j) (hornerF f0 Q x).

Lemma columns_spec a0 B z :
  let A := a0 :: B ++ [z] in
  let count := length A in
  forall xs mat i,
  (i + length xs <= count)%nat -> (count * count <= length mat)%nat ->
  Forall (fun x => hornerF f0 (quotF x f1 A) x <> f0) xs ->
  exists mat',
    foldl (fun st v => inverse_column gf8 count (count - 1) (map gfv A) v st) (mat, i) (map gfv xs) =
      (mat', (i + length xs)%nat) /\
    length mat' = length mat /\
    (forall k j, (k < length xs)%nat -> (j < count)%nat ->
      mat' !!! (i + k + j * count)%nat = gfv (entry A (xs !!! k) j)) /\
    (forall n, (forall k j, (k < length xs)%nat -> (j < count)%nat -> n <> (i + k + j * count)%nat) ->
      mat' !!! n = mat !!! n).
Proof.
  cbv zeta. set (A := a0 :: B ++ [z]). set (count := length A).
  assert (Hcount : (2 <= count)%nat) by (unfold count, A; cbn; rewrite length_app; cbn; lia).
  induction xs as [|x xs IH]; intros mat i Hi Hmat Hps; cbn [map foldl length].
  { exists mat. rewrite Nat.add_0_r. split; [reflexivity|]. split; [auto|]. split; [lia | auto]. }
  apply Forall_cons in Hps as [Hp Hps]. cbn [length] in Hi.
  destruct (inverse_column_spec x a0 B z mat i) as (m1 & He & Hl1 & Hc1 & Ho1);
    [exact Hp | fold A; fold count; nia |].
  fold A in He, Hc1, Ho1. fold count in He, Hc1, Ho1.
  destruct (IH m1 (S i)) as (m2 & He2 & Hl2 & Hc2 & Ho2); [lia | lia | auto |].
  rewrite He, He2. exists m2. split; [f_equal; lia|]. split; [lia|]. split.
  - intros [|k] j Hk Hj; cbn in Hk.
    + rewrite Nat.add_0_r, Ho2; [apply Hc1; auto|].
      intros k' j' Hk' Hj'. apply cell_ne; lia.
    + replace (i + S k)%nat with (S i + k)%nat by lia. rewrite Hc2 by lia. reflexivity.
  - intros n Hn. rewrite Ho2, Ho1; [reflexivity|..].
    + intros j Hj. specialize (Hn 0%nat j ltac:(lia) Hj). lia.
    + intros k j Hk Hj. specialize (Hn (S k) j ltac:(lia) Hj). lia.
Qed.

Section inverse.
Context (v0 : gf256) (vs : list gf256) (Hnd : NoDup (v0 :: vs)) (Hvs : vs <> []).
Let xs : list gf256 := v0 :: vs.
Let A : list gf256 := rootsF v0 (rev vs).
Let count : nat := length xs.

Lemma roots_length : length A = count.
Proof. unfold A, count, xs. rewrite roots_poly_length, length_rev. reflexivity. Qed.

Lemma roots_split : exists a0 B z, A = a0 :: B ++ [z].
Proof.
  pose proof roots_length as Hl.
  assert (2 <= count)%nat by (unfold count, xs; destruct vs; cbn; [congruence | lia]).
  revert Hl. generalize A. intros [|a0 A'] Hl; [cbn [length] in Hl; lia|]. exists a0.
  induction A' as [|z B _] using rev_ind; [cbn [length] in Hl; lia|]. exists B, z. reflexivity.
Qed.

Lemma rev_nodup : NoDup (v0 :: rev vs).
Proof. rewrite <- (Permutation_rev vs). exact Hnd. Qed.

Lemma rev_elem x : x ∈ v0 :: vs <-> x ∈ v0 :: rev vs.
Proof. rewrite <- (Permutation_rev vs). reflexivity. Qed.

Lemma denominators : Forall (fun x => hornerF f0 (quotF x f1 A) x <> f0) xs.
Proof.
  apply Forall_forall. intros x Hx%rev_elem.
  apply (recover_quot_self _ _ _ _ _ _ _ _ gf256_field v0 (rev vs) rev_nodup x Hx).
Qed.

(** The cells of the computed matrix. *)
Lemma inverse_cells mat :
  (count * count <= length mat)%nat ->
  let M := ec_method_matrix_inverse gf8 mat (map gfv xs) in
  length M = length mat /\
  forall k j, (k < count)%nat -> (j < count)%nat -> M !!! (k + j * count)%nat = gfv (entry A (xs !!! k) j).
Proof.
  intros Hmat. cbv zeta. unfold ec_method_matrix_inverse. rewrite length_map. fold count.
  assert (Hc : (count - 1)%nat = length vs) by (unfold count, xs; cbn; lia).
  rewrite Hc. change (map gfv xs !!! 0%nat) with (gfv v0). pose proof (coeffs_final v0 vs) as Ha.
  fold xs A in Ha. rewrite Ha. destruct roots_split as (a0 & B & z & EA).
  destruct (columns_spec a0 B z xs mat 0) as (M & He & Hl & Hcells & _).
  { rewrite <- EA, roots_length. fold count. lia. }
  { rewrite <- EA, roots_length. exact Hmat. }
  { rewrite <- EA. apply denominators. }
  rewrite <- EA, roots_length in He, Hcells. rewrite Hc in He. rewrite He. cbn [fst].
  split; [exact Hl|]. intros k j Hk Hj. apply (Hcells k j Hk Hj).
Qed.

(** Row [j]: the entries of all the points. *)
Lemma inverse_row mat j :
  (count * count <= length mat)%nat -> (j < count)%nat ->
  matrix_row count (ec_method_matrix_inverse gf8 mat (map gfv xs)) j = map (fun x => gfv (entry A x j)) xs.
Proof.
  intros Hmat Hj. destruct (inverse_cells mat Hmat) as [Hl Hcells].
  set (M := ec_method_matrix_inverse gf8 mat (map gfv xs)) in *.
  assert (Hlen : length (matrix_row count M j) = count).
  { unfold matrix_row. rewrite length_take, length_drop. nia. }
  apply list_eq_same_length with count; [apply length_map | exact Hlen |].
  intros k y1 y2 Hk Hy1 Hy2. apply list_lookup_total_correct in Hy1.
  unfold matrix_row in Hy1. rewrite lookup_total_take_lt, lookup_total_drop in Hy1 by lia.
  rewrite Nat.add_comm, Hcells in Hy1 by auto. subst y1.
  change (map (fun x => gfv (entry A x j)) xs) with ((fun x => gfv (entry A x j)) <$> xs) in Hy2.
  rewrite list_lookup_fmap in Hy2. destruct (xs !! k) as [x|] eqn:Ex; [|discriminate].
  injection Hy2 as <-. rewrite (list_lookup_total_correct _ _ _ Ex). reflexivity.
Qed.

(** A row of the inverse applied to the values of a polynomial at the points
    gives one of its coefficients. *)
Lemma interp_lookup Q val k ys j :
  (forall x, length (Q x) = k) -> (j < k)%nat ->
  interpF Q val k ys !!! j =
  dot (map (fun x => fdiv (Q x !!! j) (hornerF f0 (Q x) x)) ys) (map val ys).
Proof.
  intros HQ Hj. induction ys as [|y ys IH]; [apply lookup_total_replicate_2; auto|].
  cbn [interp map dot]. rewrite <- IH. unfold padd.
  assert (Hl : length (interpF Q val k ys) = k) by (apply interp_length; auto).
  destruct (lookup_lt_is_Some_2 (Q y) j) as [q Hq]; [rewrite HQ; auto|].
  destruct (lookup_lt_is_Some_2 (interpF Q val k ys) j) as [r Hr]; [lia|].
  apply list_lookup_total_correct. rewrite lookup_zip_with. unfold pscale.
  change (map (fmul (fdiv (val y) (hornerF f0 (Q y) y))) (Q y))
    with (fmul (fdiv (val y) (hornerF f0 (Q y) y)) <$> Q y).
  rewrite list_lookup_fmap, Hq, Hr. cbn.
  rewrite (list_lookup_total_correct _ _ _ Hq), (list_lookup_total_correct _ _ _ Hr). do 2 f_equal.
  rewrite (Fdiv_def gf256_field (val y)), (Fdiv_def gf256_field q). ring.
Qed.


Lemma inverse_dot D j :
  length D = count -> (j < count)%nat ->
  dot (map (fun x => entry A x j) xs) (map (hornerF f0 D) xs) = D !!! j.
Proof.
  intros HD Hj. set (Q := fun x => quotF x f1 A).
  assert (HQ : forall x, length (Q x) = count) by (intros; unfold Q; rewrite quot_length; apply roots_length).
  pose proof (interp_lookup Q (hornerF f0 D) count xs j HQ Hj) as E.
  etransitivity; [symmetry; exact E|]. f_equal. assert (Hc : count = S (length (rev vs))) by (rewrite length_rev; reflexivity).
  rewrite Hc in *. unfold Q, A. apply (recover _ _ _ _ _ _ _ _ gf256_field v0 (rev vs) rev_nodup); auto.
  - apply rev_elem.
  - rewrite HD. exact Hc.
Qed.
End inverse.

(** ** Statements on uint32_t values *)

Definition lift (zs : list Z) : list gf256 := map gf_of zs.

Lemma lift_gfv zs : Forall in_field zs -> map gfv (lift zs) = zs.
Proof.
  induction 1 as [|z zs Hz _ IH]; [reflexivity|]. unfold lift in *. cbn [map].
  rewrite gfv_of, IH by auto. reflexivity.
Qed.

Lemma lift_nodup zs : Forall in_field zs -> NoDup zs -> NoDup (lift zs).
Proof.
  intros Hz Hnd. apply (NoDup_fmap_1 gfv). change (gfv <$> lift zs) with (map gfv (lift zs)).
  rewrite lift_gfv by auto. exact Hnd.
Qed.

(** Row of the value [v] in the encoding matrix. *)
Definition encode_row (k : nat) (v : Z) : list Z := map gfv (powers (gf_of v) k).

Lemma encode_row_length k v : length (encode_row k v) = k.
Proof. unfold encode_row. rewrite length_map. apply powers_length. Qed.

Lemma normal_matrix_rows k values :
  (0 < k)%nat -> Z.of_nat k <= 2 ^ 32 -> Forall nonzero values ->
  ec_method_matrix_normal gf8 k values = concat (map (encode_row k) values).
Proof.
  intros Hk Hk32 Hv. unfold ec_method_matrix_normal. f_equal. apply map_ext_Forall.
  eapply Forall_impl; [exact Hv|]. intros v Hvz. cbv beta. unfold encode_row.
  assert (Hg : gfv (gf_of v) = v) by (apply gfv_of; auto with gf).
  pose proof (normal_row_full (gf_of v) (k - 1)) as E. rewrite Hg in E.
  replace (S (k - 1)) with k in E by lia. apply E; [unfold nonzero in Hvz; lia | lia].
Qed.

Lemma matrix_row_concat k rows i r :
  Forall (fun r => length r = k) rows -> rows !! i = Some r -> matrix_row k (concat rows) i = r.
Proof.
  intros Hl. revert i. induction Hl as [|r0 rows Hr0 _ IH]; intros i Hi; [discriminate|].
  unfold matrix_row in *. cbn [concat]. destruct i as [|i].
  - injection Hi as ->. cbn [Nat.mul]. rewrite drop_0, take_app_le, take_ge by lia. reflexivity.
  - rewrite drop_app, (drop_ge r0) by (cbn; lia). cbn [app].
    replace (S i * k - length r0)%nat with (i * k)%nat by (cbn; lia). apply IH. exact Hi.
Qed.

(** The rows of the encoding matrix: no zero, the last coefficient is 1. *)
Lemma fpow_nonzero x n : gfv x <> 0 -> gfv (fpowF x n) <> 0.
Proof.
  intros Hx. induction n as [|n IH]; [discriminate|]. cbn [fpow]. intros E.
  destruct (mul_zero _ _ _ _ _ _ _ _ gf256_field x (fpowF x n)) as [E'|E'].
  - apply gfv_inj. exact E.
  - apply Hx. rewrite E'. reflexivity.
  - apply IH. rewrite E'. reflexivity.
Qed.

Lemma encode_row_spec k v :
  (0 < k)%nat -> nonzero v -> Forall nonzero (encode_row k v) /\ List.last (encode_row k v) 1 = 1.
Proof.
  intros Hk Hv. assert (Hg : gfv (gf_of v) <> 0).
  { rewrite gfv_of by auto with gf. unfold nonzero in Hv. lia. }
  unfold encode_row. destruct k as [|k]; [lia|]. clear Hk. split.
  - induction (S k) as [|n IH]; cbn [powers map]; constructor; auto.
    pose proof (fpow_nonzero _ n Hg). pose proof (gfv_field (fpowF (gf_of v) n)).
    unfold nonzero, in_field in *. lia.
  - induction k as [|k IH]; [reflexivity|]. cbn [powers map] in *. exact IH.
Qed.

Lemma encode_row_dot k v ds :
  length ds = k -> Forall in_field ds -> nonzero v ->
  lincomb (encode_row k v) ds = gfv (hornerF f0 (lift ds) (gf_of v)).
Proof.
  intros Hl Hds Hv. rewrite <- (lift_gfv ds) at 1 by auto. unfold encode_row.
  rewrite lincomb_dot. f_equal. rewrite <- dot_powers. unfold lift. rewrite length_map, Hl. reflexivity.
Qed.

Section round_trip.
Context (rows : list Z) (Hnz : Forall nonzero rows) (Hnd : NoDup rows) (H2 : (2 <= length rows)%nat).
Let k : nat := length rows.

Lemma rows_field : Forall in_field rows.
Proof. eapply Forall_impl; [exact Hnz|]. apply nonzero_field. Qed.

Lemma inverse_row_lift mat j :
  (k * k <= length mat)%nat -> (j < k)%nat ->
  exists A, matrix_row k (ec_method_matrix_inverse gf8 mat rows) j =
      map gfv (map (fun x => entry A x j) (lift rows)) /\
    forall D, length D = k ->
      dot (map (fun x => entry A x j) (lift rows)) (map (hornerF f0 D) (lift rows)) = D !!! j.
Proof.
  intros Hmat Hj. pose proof (lift_nodup rows rows_field Hnd) as Hnd'.
  pose proof (lift_gfv rows rows_field) as Hg.
  assert (Hlen : length (lift rows) = k) by (apply length_map).
  destruct (lift rows) as [|v0 vs] eqn:El; [cbn in Hlen; unfold k in *; lia|].
  assert (Hvs : vs <> []) by (intros ->; cbn in Hlen; unfold k in *; lia).
  exists (rootsF v0 (rev vs)). rewrite <- Hlen in *. split.
  - rewrite <- Hg, map_map. apply (inverse_row v0 vs Hnd' Hvs); auto.
  - intros D HD. apply (inverse_dot v0 vs Hnd'); auto.
Qed.

(** Decoding the encoded symbols gives the original symbols. *)
Lemma decode_encode_symbols mat ds j :
  (k * k <= length mat)%nat -> length ds = k -> Forall in_field ds -> (j < k)%nat ->
  lincomb (matrix_row k (ec_method_matrix_inverse gf8 mat rows) j)
    (map (fun v => lincomb (encode_row k v) ds) rows) = ds !!! j.
Proof.
  intros Hmat Hds Hdf Hj. destruct (inverse_row_lift mat j Hmat Hj) as (A & -> & HD).
  assert (E : map (fun v => lincomb (encode_row k v) ds) rows =
              map gfv (map (hornerF f0 (lift ds)) (lift rows))).
  { unfold lift at 2. rewrite !map_map. apply map_ext_Forall. eapply Forall_impl; [exact Hnz|].
    intros v Hv. apply encode_row_dot; auto. }
  rewrite E, lincomb_dot, HD by (unfold lift; rewrite length_map; auto).
  unfold lift. change (map gf_of ds) with (gf_of <$> ds).
  destruct (lookup_lt_is_Some_2 ds j) as [d Hd]; [lia|].
  rewrite (list_lookup_total_correct (gf_of <$> ds) j (gf_of d)) by (rewrite list_lookup_fmap, Hd; reflexivity).
  rewrite gfv_of; [symmetry; apply list_lookup_total_correct, Hd|].
  eapply Forall_lookup_1 in Hdf; eauto.
Qed.

(** A row of the inverse holds field elements, not all zero. *)
Lemma inverse_row_ok mat j :
  (k * k <= length mat)%nat -> (j < k)%nat ->
  let row := matrix_row k (ec_method_matrix_inverse gf8 mat rows) j in
  length row = k /\ Forall in_field row /\ Exists (fun v => v <> 0) row.
Proof.
  intros Hmat Hj. cbv zeta. destruct (inverse_row_lift mat j Hmat Hj) as (A & Er & HD). rewrite Er.
  split; [unfold lift; rewrite !length_map; reflexivity|]. split.
  { apply Forall_forall. intros x [y [-> _]]%list_elem_of_fmap. apply gfv_field. }
  destruct (decide (Exists (fun v => v <> 0) (map gfv (map (fun x => entry A x j) (lift rows)))))
    as [|Hn]; [auto|]. exfalso.
  assert (Hz : Forall (fun v => v = 0) (map gfv (map (fun x => entry A x j) (lift rows)))).
  { apply Forall_forall. intros v Hv. destruct (decide (v = 0)); [auto|]. exfalso. apply Hn.
    apply Exists_exists. eauto. }
  pose proof (HD (<[j := f1]> (replicate k f0)) ltac:(rewrite length_insert, length_replicate; auto)) as E.
  rewrite list_lookup_total_insert_eq in E by (rewrite length_replicate; auto).
  apply (f_equal gfv) in E. rewrite <- lincomb_dot in E.
  assert (E0 : forall vs xs, Forall (fun v => v = 0) vs -> Forall in_field xs -> lincomb vs xs = 0).
  { intros vs xs Hvs. revert xs. induction Hvs as [|v vs -> _ IH]; intros [|x xs] Hx; try reflexivity.
    apply Forall_cons in Hx as [Hx Hxs]. cbn. rewrite mul8_0_l, Z.lxor_0_l; auto. }
  rewrite E0 in E; [discriminate | auto |].
  apply Forall_forall. intros x [y [-> _]]%list_elem_of_fmap. apply gfv_field.
Qed.
End round_trip.
