(* ===== verification/EcMethod.v ===== *)
(** * Encoding, decoding and the cache of decoding matrices

    Models [xlators/cluster/ec/src/ec-method.c] (the matrices themselves are in
    [EcMatrix]).  Matrices are objects of a heap, named by numbers; the array
    [objects] of a list is the list of its used cells, ordered by mask, and the
    list head [lru] the list of the matrices no one refers to.  A pointer into
    a matrix's value array ([row_data[i].values]) is the row number.

    [fresh] is what [mem_get0] returns: a new name, or [None] for NULL.  Other
    allocations succeed.  [compiles] says whether code generation succeeds and
    [regs] is what the machine registers hold when generated code starts.  The
    list's lock makes each operation atomic. *)

From S2P Require Import Prelude EcGf8 EcGalois EcCodeC EcLanes EcChunks EcCode EcMatrix.
From stdpp Require Import gmap.
Open Scope Z_scope.

Record ec_matrix := mk_matrix {
  mx_refs : Z;
  mx_columns : nat;
  mx_rows : nat;
  mx_mask : Z;
  mx_values : list Z;
  mx_func : list ec_code_func
}.

Record ec_matrix_list := mk_list {
  ml_lru : list nat;
  ml_columns : nat;
  ml_rows : nat;
  ml_max : Z;
  ml_count : Z;
  ml_stripe : nat;
  ml_code : ec_code;
  ml_encode : ec_matrix;
  ml_objects : list nat;
  ml_heap : gmap nat ec_matrix
}.

(** Field updates. *)
Definition set_lru (l : ec_matrix_list) v :=
  mk_list v (ml_columns l) (ml_rows l) (ml_max l) (ml_count l) (ml_stripe l) (ml_code l)
    (ml_encode l) (ml_objects l) (ml_heap l).
Definition set_objects (l : ec_matrix_list) count v :=
  mk_list (ml_lru l) (ml_columns l) (ml_rows l) (ml_max l) count (ml_stripe l) (ml_code l)
    (ml_encode l) v (ml_heap l).
Definition set_code (l : ec_matrix_list) v :=
  mk_list (ml_lru l) (ml_columns l) (ml_rows l) (ml_max l) (ml_count l) (ml_stripe l) v
    (ml_encode l) (ml_objects l) (ml_heap l).
Definition set_heap (l : ec_matrix_list) v :=
  mk_list (ml_lru l) (ml_columns l) (ml_rows l) (ml_max l) (ml_count l) (ml_stripe l) (ml_code l)
    (ml_encode l) (ml_objects l) v.

(** uint32_t increments and decrements. *)
Definition u32_incr (n : Z) : Z := (n + 1) mod 2 ^ 32.
Definition u32_decr (n : Z) : Z := (n - 1) mod 2 ^ 32.

(** Replacing row [i] of a flat matrix. *)
Definition set_matrix_row (columns : nat) (mat : list Z) (i : nat) (row : list Z) : list Z :=
  take (i * columns) mat ++ row ++ drop (S i * columns) mat.

Definition list_del (x : nat) (xs : list nat) : list nat := filter (fun y => y <> x) xs.

Section method.
Context (compiles : list ec_code_op -> bool) (regs : list Z).

(** The loops of [ec_method_matrix_init] that build the function of each row;
    building may change the row's values and drop the code generator. *)
Fixpoint build_rows (n i : nat) (linear : bool) (columns : nat)
    (st : ec_code * list Z * list ec_code_func) : ec_code * list Z * list ec_code_func :=
  match n with
  | O => st
  | S n' =>
      let '(code, values, funcs) := st in
      let '(code, func, row) := ec_code_build compiles code (matrix_row columns values i) linear in
      build_rows n' (S i) linear columns
        (code, set_matrix_row columns values i row, funcs ++ [func])
  end.

(** [ec_method_matrix_init]; gives the code object and the matrix.  [values]
    is the content of the matrix's value array. *)
Definition ec_method_matrix_init (l : ec_matrix_list) (values : list Z) (mask : Z) (rows : list Z)
    (inverse : bool) : ec_code * ec_matrix :=
  let columns := ml_columns l in
  let code := ml_code l in
  if inverse then
    let values := ec_method_matrix_inverse (code_gf code) values (take columns rows) in
    let '(code, values, funcs) := build_rows columns 0 false columns (code, values, []) in
    (code, mk_matrix 1 columns columns mask values funcs)
  else
    let values := ec_method_matrix_normal (code_gf code) columns (take (ml_rows l) rows) in
    let '(code, values, funcs) := build_rows (ml_rows l) 0 true columns (code, values, []) in
    (code, mk_matrix 1 columns (ml_rows l) mask values funcs).

(** [ec_method_matrix_release]: the code of the rows is freed. *)
Definition ec_method_matrix_release (m : ec_matrix) : ec_matrix :=
  mk_matrix (mx_refs m) (mx_columns m) (mx_rows m) (mx_mask m) (mx_values m)
    (map (fun _ => FUNC_NULL) (mx_func m)).

Definition ec_method_matrix_destroy (l : ec_matrix_list) (id : nat) : ec_matrix_list :=
  let l := set_lru l (list_del id (ml_lru l)) in
  let l := set_heap l (delete id (ml_heap l)) in
  set_objects l (u32_decr (ml_count l)) (ml_objects l).

Definition ec_method_matrix_unref (l : ec_matrix_list) (id : nat) : ec_matrix_list :=
  match ml_heap l !! id with
  | None => l
  | Some m =>
      let refs := u32_decr (mx_refs m) in
      let m := mk_matrix refs (mx_columns m) (mx_rows m) (mx_mask m) (mx_values m) (mx_func m) in
      let l := set_heap l (<[id := m]> (ml_heap l)) in
      if refs =? 0 then
        let l := set_lru l (ml_lru l ++ [id]) in
        if ml_max l <? ml_count l then
          match ml_lru l with
          | first :: _ => ec_method_matrix_destroy l first
          | [] => l
          end
        else l
      else l
  end.

Definition object_mask (l : ec_matrix_list) (k : nat) : Z :=
  match ml_objects l !! k with
  | Some id => match ml_heap l !! id with Some m => mx_mask m | None => 0 end
  | None => 0
  end.

(** The binary search of [ec_method_matrix_lookup]: whether the mask is there,
    and the position found or the position to insert at. *)
Fixpoint lookup_loop (fuel : nat) (l : ec_matrix_list) (mask : Z) (i j : nat) : bool * nat :=
  match fuel with
  | O => (false, i)
  | S fuel' =>
      if (i <? j)%nat then
        let k := Nat.div2 (i + j) in
        let m := object_mask l k in
        if m =? mask then (true, k)
        else if m <? mask then lookup_loop fuel' l mask (S k) j
        else lookup_loop fuel' l mask i k
      else (false, i)
  end.

(** The interval shrinks at every iteration: [count] and one more iterations
    are enough. *)
Definition ec_method_matrix_lookup (l : ec_matrix_list) (mask : Z) : bool * nat :=
  lookup_loop (S (Z.to_nat (ml_count l))) l mask 0 (Z.to_nat (ml_count l)).

Definition ec_method_matrix_remove (l : ec_matrix_list) (mask : Z) : ec_matrix_list :=
  match ec_method_matrix_lookup l mask with
  | (true, pos) => set_objects l (u32_decr (ml_count l)) (delete pos (ml_objects l))
  | (false, _) => l
  end.

(** The assertion that the mask is absent only logs. *)
Definition ec_method_matrix_insert (l : ec_matrix_list) (id : nat) : ec_matrix_list :=
  match ml_heap l !! id with
  | None => l
  | Some m =>
      let pos := snd (ec_method_matrix_lookup l (mx_mask m)) in
      set_objects l (u32_incr (ml_count l)) (take pos (ml_objects l) ++ id :: drop pos (ml_objects l))
  end.

(** The matrix [ec_method_matrix_get] initialises: the least recently used one
    when the list is full, a new one otherwise.  [None] when there is no
    memory. *)
Definition get_victim (l : ec_matrix_list) (fresh : option nat)
    : option (ec_matrix_list * nat * list Z) :=
  match (ml_max l <=? ml_count l), ml_lru l with
  | true, id :: _ =>
      let l := set_lru l (list_del id (ml_lru l)) in
      match ml_heap l !! id with
      | None => None
      | Some m =>
          let l := ec_method_matrix_remove l (mx_mask m) in
          let l := set_heap l (<[id := ec_method_matrix_release m]> (ml_heap l)) in
          Some (l, id, mx_values m)
      end
  | _, _ =>
      match fresh with
      | None => None
      | Some id => Some (l, id, replicate (ml_columns l * ml_columns l) 0)
      end
  end.

Definition set_mask (m : ec_matrix) (mask : Z) : ec_matrix :=
  mk_matrix (mx_refs m) (mx_columns m) (mx_rows m) mask (mx_values m) (mx_func m).

(** [ec_method_matrix_get]; [None] is EC_ERR (ENOMEM). *)
Definition ec_method_matrix_get (l : ec_matrix_list) (mask : Z) (rows : list Z)
    (fresh : option nat) : ec_matrix_list * option nat :=
  match ec_method_matrix_lookup l mask with
  | (true, pos) =>
      match ml_objects l !! pos with
      | None => (l, None)
      | Some id =>
          match ml_heap l !! id with
          | None => (l, None)
          | Some m =>
              let l := set_lru l (list_del id (ml_lru l)) in
              let m := mk_matrix (u32_incr (mx_refs m)) (mx_columns m) (mx_rows m) (mx_mask m)
                         (mx_values m) (mx_func m) in
              (set_heap l (<[id := m]> (ml_heap l)), Some id)
          end
      end
  | (false, _) =>
      match get_victim l fresh with
      | None => (l, None)
      | Some (l, id, values) =>
          let '(code, m) := ec_method_matrix_init l values mask rows true in
          let l := set_code l code in
          if ml_count l <? ml_max l then
            let l := set_heap l (<[id := m]> (ml_heap l)) in
            (ec_method_matrix_insert l id, Some id)
          else (set_heap l (<[id := set_mask m 0]> (ml_heap l)), Some id)
      end
  end.

Definition ec_method_matrix_put (l : ec_matrix_list) (id : nat) : ec_matrix_list :=
  ec_method_matrix_unref l id.

(** [ec_method_init] with [ec_method_setup]; [gen] is what [ec_code_detect]
    returns.  [None] is the error of [ec_gf_prepare]. *)
Definition ec_method_init (columns rows : nat) (max : Z) (gen : option ec_code_gen)
    : option ec_matrix_list :=
  match ec_gf_prepare EC_GF_BITS EC_GF_MOD with
  | None => None
  | Some gf =>
      let l := mk_list [] columns rows max 0 (EC_METHOD_CHUNK_SIZE * columns) (mk_code gf gen)
                 (mk_matrix 0 0 0 0 [] []) [] empty in
      let values := map (fun i => Z.of_nat i + 1) (seq 0 rows) in
      let '(code, m) := ec_method_matrix_init l [] 0 values false in
      Some (mk_list [] columns rows max 0 (EC_METHOD_CHUNK_SIZE * columns) code m [] empty)
  end.

(** [ec_method_fini] up to the assertion on the count, for a list that was set
    up: the final list; the assertion holds if its count is 0. *)
Fixpoint fini_loop (fuel : nat) (l : ec_matrix_list) : ec_matrix_list :=
  match fuel, ml_lru l with
  | S fuel', id :: _ => fini_loop fuel' (ec_method_matrix_destroy l id)
  | _, _ => l
  end.

Definition ec_method_fini (l : ec_matrix_list) : ec_matrix_list :=
  fini_loop (length (ml_lru l)) l.

(** ** Encoding and decoding *)

(** Storing a chunk at byte [offset] of a buffer. *)
Definition write_chunk (buf : list Z) (offset : nat) (c : list Z) : list Z :=
  take (offset / 8) buf ++ c ++ drop (offset / 8 + 64) buf.

(** A call of a row's function; [None] is undefined behaviour. *)
Definition call_linear (func : ec_code_func) (dst src : list Z) (offset : nat) (values : list Z)
    (count : nat) : option (list Z) :=
  match func with
  | FUNC_C_LINEAR => Some (ec_code_c_linear Z.lxor dst src offset values count)
  | FUNC_DYNAMIC ops =>
      Some (snd (run_code Z.lxor ops
        (fun k => chunk_at src (offset + k * EC_METHOD_CHUNK_SIZE)) regs dst))
  | _ => None
  end.

Definition call_interleaved (func : ec_code_func) (dst : list Z) (src : list (list Z))
    (offset : nat) (values : list Z) (count : nat) : option (list Z) :=
  match func with
  | FUNC_C_INTERLEAVED => ec_code_c_interleaved Z.lxor zero_buf dst src offset values count
  | FUNC_DYNAMIC ops =>
      Some (snd (run_code Z.lxor ops (fun k => chunk_at (src !!! k) offset) regs dst))
  | _ => None
  end.

(** The loop over the rows of [ec_method_encode]; [out] holds the buffers, all
    the pointers are at byte [opos]. *)
Fixpoint encode_rows (n i : nat) (m : ec_matrix) (columns : nat) (inp : list Z) (pos opos : nat)
    (out : list (list Z)) : option (list (list Z)) :=
  match n with
  | O => Some out
  | S n' =>
      let buf := out !!! i in
      match mx_func m !! i with
      | None => None
      | Some func =>
          match call_linear func (chunk_at buf opos) inp pos
                  (matrix_row (mx_columns m) (mx_values m) i) columns with
          | None => None
          | Some c => encode_rows n' (S i) m columns inp pos opos (<[i := write_chunk buf opos c]> out)
          end
      end
  end.

(** [for (pos = 0; pos < size; pos += list->stripe)]. *)
Fixpoint encode_loop (fuel : nat) (l : ec_matrix_list) (size : nat) (inp : list Z) (pos opos : nat)
    (out : list (list Z)) : option (list (list Z)) :=
  match fuel with
  | O => Some out
  | S fuel' =>
      if (pos <? size)%nat then
        match encode_rows (mx_rows (ml_encode l)) 0 (ml_encode l) (ml_columns l) inp pos opos out with
        | None => None
        | Some out =>
            encode_loop fuel' l size inp (pos + ml_stripe l) (opos + EC_METHOD_CHUNK_SIZE) out
        end
      else Some out
  end.

Definition ec_method_encode (l : ec_matrix_list) (size : nat) (inp : list Z) (out : list (list Z))
    : option (list (list Z)) :=
  encode_loop size l size inp 0 0 out.

(** The loop over the rows of [ec_method_decode]; gives the output and its
    pointer. *)
Fixpoint decode_rows (n i : nat) (m : ec_matrix) (columns : nat) (inp : list (list Z)) (pos : nat)
    (out : list Z) (opos : nat) : option (list Z * nat) :=
  match n with
  | O => Some (out, opos)
  | S n' =>
      match mx_func m !! i with
      | None => None
      | Some func =>
          match call_interleaved func (chunk_at out opos) inp pos
                  (matrix_row (mx_columns m) (mx_values m) i) columns with
          | None => None
          | Some c =>
              decode_rows n' (S i) m columns inp pos (write_chunk out opos c)
                (opos + EC_METHOD_CHUNK_SIZE)
          end
      end
  end.

Fixpoint decode_loop (fuel : nat) (m : ec_matrix) (columns size : nat) (inp : list (list Z))
    (pos : nat) (out : list Z) (opos : nat) : option (list Z) :=
  match fuel with
  | O => Some out
  | S fuel' =>
      if (pos <? size)%nat then
        match decode_rows (mx_rows m) 0 m columns inp pos out opos with
        | None => None
        | Some (out, opos) =>
            decode_loop fuel' m columns size inp (pos + EC_METHOD_CHUNK_SIZE) out opos
        end
      else Some out
  end.

(** Outcome of [ec_method_decode]: 0 with the output, or the error of
    [ec_method_matrix_get]; DEC_UNDEF is undefined behaviour. *)
Inductive decode_result := DEC_OK (out : list Z) | DEC_ENOMEM | DEC_UNDEF.

Definition ec_method_decode (l : ec_matrix_list) (size : nat) (mask : Z) (rows : list Z)
    (inp : list (list Z)) (out : list Z) (fresh : option nat) : ec_matrix_list * decode_result :=
  match ec_method_matrix_get l mask rows fresh with
  | (l, None) => (l, DEC_ENOMEM)
  | (l, Some id) =>
      match ml_heap l !! id with
      | None => (l, DEC_UNDEF)
      | Some m =>
          match decode_loop size m (ml_columns l) size inp 0 out 0 with
          | None => (l, DEC_UNDEF)
          | Some out => (ec_method_matrix_put l id, DEC_OK out)
          end
      end
  end.
End method.
