(* ===== verification/EcMethodFacts.v ===== *)
(** * Correctness of encoding and decoding

    The functions built for the rows of a matrix compute the linear
    combinations with those rows, whichever way they were built; the cache of
    decoding matrices always hands out a matrix that fits the requested mask
    and never changes one that is in use; decoding what was encoded gives the
    original data. *)

From S2P Require Import Prelude EcGf8 EcGalois EcCodeC EcLanes EcChunks EcCode EcCodeFacts.
From S2P Require Import EcPoly EcField EcMatrix EcMethod.
From stdpp Require Import gmap.
Open Scope Z_scope.

Lemma symbol_high c i b : chunk_ok c -> (i < 8)%nat -> 64 <= b -> symbol c i b = 0.
Proof.
  intros [Hl Hw] Hi Hb. apply field_bits_eq; [apply symbol_field | auto with gf|].
  intros k Hk. rewrite symbol_bit, Z.bits_0 by auto. apply word_high; auto using lookup_word.
Qed.

Lemma lincomb_zero_r vs xs : Forall in_field vs -> Forall (fun x => x = 0) xs -> lincomb vs xs = 0.
Proof.
  intros Hv. revert xs. induction Hv as [|v vs Hv _ IH]; intros [|x xs] Hx; try reflexivity.
  apply Forall_cons in Hx as [-> Hx]. cbn. rewrite mul8_comm, mul8_0_l, IH by auto with gf. reflexivity.
Qed.

Lemma chunks_from_seq src n offset :
  chunks_from src n offset = map (fun k => chunk_at src (offset + k * EC_METHOD_CHUNK_SIZE)) (seq 0 n).
Proof.
  revert offset. induction n as [|n IH]; intros offset; [reflexivity|].
  cbn [chunks_from seq map]. rewrite Nat.add_0_r, IH. f_equal.
  rewrite <- (fmap_S_seq 0 n). change (S <$> seq 0 n) with (map S (seq 0 n)). rewrite map_map.
  apply map_ext. intros k. f_equal. rewrite Nat.mul_succ_l. lia.
Qed.

Section rows.
Context (compiles : list ec_code_op -> bool) (regs : list Z) (Hregs : length regs = 16%nat).

(** ** Functions of a row *)

(** [func] with the values [row] computes the combination with [vs]. *)
Definition linear_computes (func : ec_code_func) (row vs : list Z) : Prop :=
  forall dst src offset, chunk_ok dst -> Forall chunk_ok (chunks_from src (length vs) offset) ->
  exists c, call_linear regs func dst src offset row (length vs) = Some c /\ chunk_ok c /\
    forall i b, (i < 8)%nat ->
      symbol c i b = lincomb vs (map (fun c => symbol c i b) (chunks_from src (length vs) offset)).

Definition interleaved_computes (func : ec_code_func) (row vs : list Z) : Prop :=
  forall dst src offset, chunk_ok dst -> length src = length vs ->
  Forall (fun buf => chunk_ok (chunk_at buf offset)) src ->
  exists c, call_interleaved regs func dst src offset row (length vs) = Some c /\ chunk_ok c /\
    forall i b, (i < 8)%nat ->
      symbol c i b = lincomb vs (map (fun buf => symbol (chunk_at buf offset) i b) src).

(** Generated code writes a chunk. *)
Lemma dynamic_computes gen vs inp dst :
  Forall in_field vs -> length dst = 64%nat -> (forall k, (k < length vs)%nat -> chunk_ok (inp k)) ->
  let c := snd (run_code Z.lxor (bld_ops (ec_code_build_ops gf8 gen vs)) inp regs dst) in
  chunk_ok c /\
  forall i b, (i < 8)%nat ->
    symbol c i b = lincomb vs (map (fun k => symbol (inp k) i b) (seq 0 (length vs))).
Proof.
  intros Hvs Hdst Hinp. cbv zeta.
  pose proof (run_code_symbols (bld_ops (ec_code_build_ops gf8 gen vs)) inp
    (fun i bit => lincomb vs (inputs_from inp i 0 (length vs) bit)) regs dst
    (fun i Hi => build_ops_symbols gen vs Hvs inp i Hi) Hregs Hdst) as H.
  destruct (run_code _ _ _ _ _) as [regs' c]. cbn [snd]. destruct H as (_ & Hl & Hs).
  split; [|exact Hs]. split; [exact Hl|]. apply Forall_lookup. intros n w Hw. apply word_ok_bits.
  intros b Hb. pose proof (lookup_lt_Some _ _ _ Hw) as Hn. apply list_lookup_total_correct in Hw. subst w.
  assert (Hi : (n mod 8 < 8)%nat) by (apply Nat.mod_upper_bound; lia).
  pose proof (symbol_bit c (n mod 8) b (n / 8)) as E.
  rewrite <- Nat.div_mod_eq in E by lia. rewrite <- E by (apply Nat.Div0.div_lt_upper_bound; lia).
  rewrite Hs, lincomb_zero_r, Z.bits_0; auto. apply Forall_forall.
  intros x [k [-> Hk]]%list_elem_of_fmap. apply elem_of_seq in Hk. apply symbol_high; auto.
  apply Hinp. lia.
Qed.

(** What [ec_code_build] gives for an encoding row. *)
Lemma build_linear code vs code' func row :
  code_gf code = gf8 -> vs <> [] -> Forall nonzero vs -> List.last vs 1 = 1 ->
  ec_code_build compiles code vs true = (code', func, row) ->
  code_gf code' = gf8 /\ length row = length vs /\ linear_computes func row vs.
Proof.
  intros Hgf Hne Hnz Hlast Hb. assert (Hvs : Forall in_field vs)
    by (eapply Forall_impl; [exact Hnz | apply nonzero_field]).
  assert (Hport : forall dst src offset, chunk_ok dst -> Forall chunk_ok (chunks_from src (length vs) offset) ->
    exists c, call_linear regs FUNC_C_LINEAR dst src offset (ec_code_c_prepare gf8 vs (length vs)) (length vs)
      = Some c /\ chunk_ok c /\ forall i b, (i < 8)%nat ->
      symbol c i b = lincomb vs (map (fun c => symbol c i b) (chunks_from src (length vs) offset))).
  { intros dst src offset Hd Hc. eexists. split; [reflexivity|]. apply linear_spec; auto. }
  assert (Hpl : length (ec_code_c_prepare gf8 vs (length vs)) = length vs)
    by (rewrite prepare_ratios; apply ratios_length).
  unfold ec_code_build in Hb. rewrite Hgf in Hb.
  destruct (code_gen code) as [gen|]; [destruct (compiles _)|]; injection Hb as <- <- <-;
    rewrite ?Hgf; (split; [reflexivity || exact Hgf|]); (split; [reflexivity || exact Hpl|]);
    [|exact Hport | exact Hport].
  intros dst src offset [Hd _] Hc. eexists. split; [reflexivity|].
  destruct (dynamic_computes gen vs (fun k => chunk_at src (offset + k * EC_METHOD_CHUNK_SIZE)) dst Hvs Hd)
    as [Hok Hs].
  - intros k Hk. rewrite chunks_from_seq in Hc. rewrite Forall_forall in Hc. apply Hc.
    apply list_elem_of_fmap. exists k. split; [reflexivity|]. apply elem_of_seq. lia.
  - split; [exact Hok|]. intros i b Hi. rewrite Hs by auto. rewrite chunks_from_seq, map_map. reflexivity.
Qed.

(** What [ec_code_build] gives for a decoding row. *)
Lemma build_interleaved code vs code' func row :
  code_gf code = gf8 -> Forall in_field vs -> Exists (fun v => v <> 0) vs ->
  ec_code_build compiles code vs false = (code', func, row) ->
  code_gf code' = gf8 /\ length row = length vs /\ interleaved_computes func row vs.
Proof.
  intros Hgf Hvs Hex Hb.
  assert (Hport : interleaved_computes FUNC_C_INTERLEAVED (ec_code_c_prepare gf8 vs (length vs)) vs).
  { intros dst src offset Hd Hl Hc. apply interleaved_spec; auto. }
  assert (Hpl : length (ec_code_c_prepare gf8 vs (length vs)) = length vs)
    by (rewrite prepare_ratios; apply ratios_length).
  unfold ec_code_build in Hb. rewrite Hgf in Hb.
  destruct (code_gen code) as [gen|]; [destruct (compiles _)|]; injection Hb as <- <- <-;
    rewrite ?Hgf; (split; [reflexivity || exact Hgf|]); (split; [reflexivity || exact Hpl|]);
    [|exact Hport | exact Hport].
  intros dst src offset [Hd _] Hl Hc. eexists. split; [reflexivity|].
  destruct (dynamic_computes gen vs (fun k => chunk_at (src !!! k) offset) dst Hvs Hd) as [Hok Hs].
  - intros k Hk. destruct (lookup_lt_is_Some_2 src k) as [buf Hbuf]; [lia|].
    rewrite (list_lookup_total_correct _ _ _ Hbuf). eapply Forall_lookup_1 in Hc; eauto.
  - split; [exact Hok|]. intros i b Hi. rewrite Hs by auto. f_equal. rewrite <- Hl.
    apply list_eq_total; [rewrite !length_map, length_seq; reflexivity|].
    rewrite length_map, length_seq. intros k Hk.
    destruct (lookup_lt_is_Some_2 src k Hk) as [buf Hbuf].
    transitivity (symbol (chunk_at buf offset) i b); [|symmetry]; apply list_lookup_total_correct.
    + change (map (fun k => symbol (chunk_at (src !!! k) offset) i b) (seq 0 (length src)))
        with ((fun k => symbol (chunk_at (src !!! k) offset) i b) <$> seq 0 (length src)).
      rewrite list_lookup_fmap, lookup_seq_lt by auto. cbn.
      rewrite (list_lookup_total_correct _ _ _ Hbuf). reflexivity.
    + change (map (fun buf => symbol (chunk_at buf offset) i b) src)
        with ((fun buf => symbol (chunk_at buf offset) i b) <$> src).
      rewrite list_lookup_fmap, Hbuf. reflexivity.
Qed.
End rows.

(** ** Building all the rows *)

Lemma matrix_row_length c mat j : (S j * c <= length mat)%nat -> length (matrix_row c mat j) = c.
Proof. intros H. unfold matrix_row. rewrite length_take, length_drop. nia. Qed.

Lemma matrix_row_lookup c mat j t :
  (t < c)%nat -> matrix_row c mat j !!! t = mat !!! (j * c + t)%nat.
Proof. intros Ht. unfold matrix_row. rewrite lookup_total_take_lt, lookup_total_drop by auto. reflexivity. Qed.

Lemma set_matrix_row_length c mat i row :
  length row = c -> (S i * c <= length mat)%nat -> length (set_matrix_row c mat i row) = length mat.
Proof.
  intros Hr Hm. unfold set_matrix_row. rewrite !length_app, length_take, length_drop. nia.
Qed.

Lemma set_matrix_row_eq c mat i row :
  length row = c -> (S i * c <= length mat)%nat -> matrix_row c (set_matrix_row c mat i row) i = row.
Proof.
  intros Hr Hm. unfold matrix_row, set_matrix_row.
  rewrite drop_app, drop_ge, length_take by (rewrite length_take; nia). cbn [app].
  rewrite Nat.min_l, Nat.sub_diag by nia. rewrite drop_0, take_app_le, take_ge by lia. reflexivity.
Qed.

Lemma set_matrix_row_ne c mat i j row :
  length row = c -> (S i * c <= length mat)%nat -> (S j * c <= length mat)%nat -> i <> j ->
  matrix_row c (set_matrix_row c mat i row) j = matrix_row c mat j.
Proof.
  intros Hr Hi Hj Hij. apply list_eq_total.
  { rewrite !matrix_row_length; auto. rewrite set_matrix_row_length; auto. }
  rewrite matrix_row_length by (rewrite set_matrix_row_length; auto). intros t Ht.
  rewrite !matrix_row_lookup by auto. unfold set_matrix_row.
  destruct (decide (j < i)%nat) as [Hlt|Hge].
  - rewrite lookup_total_app_l by (rewrite length_take; nia). apply lookup_total_take_lt. nia.
  - rewrite lookup_total_app_r by (rewrite length_take; nia). rewrite length_take.
    rewrite lookup_total_app_r by nia. rewrite lookup_total_drop. f_equal. nia.
Qed.

Section build.
Context (compiles : list ec_code_op -> bool) (linear : bool) (c : nat)
  (R : ec_code_func -> list Z -> list Z -> Prop) (values : list Z).

Definition builds (i : nat) : Prop :=
  forall code code' func row, code_gf code = gf8 ->
    ec_code_build compiles code (matrix_row c values i) linear = (code', func, row) ->
    code_gf code' = gf8 /\ length row = c /\ R func row (matrix_row c values i).

Lemma build_rows_spec n : forall i code values0 funcs,
  code_gf code = gf8 -> length values0 = length values -> ((i + n) * c <= length values)%nat ->
  (forall j, (i <= j < i + n)%nat -> builds j /\ matrix_row c values0 j = matrix_row c values j) ->
  exists code' values' fs,
    build_rows compiles n i linear c (code, values0, funcs) = (code', values', funcs ++ fs) /\
    code_gf code' = gf8 /\ length values' = length values /\ length fs = n /\
    (forall j, (j < i)%nat -> matrix_row c values' j = matrix_row c values0 j) /\
    (forall j, (j < n)%nat -> exists func, fs !! j = Some func /\
      R func (matrix_row c values' (i + j)) (matrix_row c values (i + j))).
Proof.
  induction n as [|n IH]; intros i code values0 funcs Hgf Hl Hc Hb; cbn [build_rows].
  { exists code, values0, []. rewrite app_nil_r. repeat split; auto. lia. }
  destruct (ec_code_build compiles code (matrix_row c values0 i) linear) as [[code1 func] row] eqn:E.
  destruct (Hb i ltac:(lia)) as [Hbi Hri]. rewrite Hri in E.
  destruct (Hbi code code1 func row Hgf E) as (Hgf1 & Hrow & HR).
  assert (Hi : (S i * c <= length values0)%nat) by nia.
  destruct (IH (S i) code1 (set_matrix_row c values0 i row) (funcs ++ [func]))
    as (code' & values' & fs & He & Hgf' & Hl' & Hfs & Hbelow & HRs).
  { auto. } { rewrite set_matrix_row_length; auto. } { nia. }
  { intros j Hj. destruct (Hb j ltac:(lia)) as [Hbj Hrj]. split; [auto|].
    rewrite set_matrix_row_ne by (auto; nia). exact Hrj. }
  exists code', values', (func :: fs). rewrite He, <- app_assoc.
  repeat split; auto; [cbn; lia|..].
  - intros j Hj. rewrite Hbelow by lia. apply set_matrix_row_ne; auto; nia.
  - intros [|j] Hj.
    + exists func. split; [reflexivity|]. rewrite Nat.add_0_r, Hbelow by lia.
      rewrite set_matrix_row_eq by auto. exact HR.
    + destruct (HRs j ltac:(lia)) as (f & Hf & HRf). exists f. split; [exact Hf|].
      replace (i + S j)%nat with (S i + j)%nat by lia. exact HRf.
Qed.
End build.

(** ** Initialised matrices *)

(** Rows fit for decoding: [k] distinct nonzero field elements. *)
Definition rows_ok (k : nat) (rows : list Z) : Prop := length rows = k /\ Forall nonzero rows /\ NoDup rows.

Lemma inverse_length k mat rows :
  (2 <= k)%nat ->
  rows_ok k rows -> length mat = (k * k)%nat ->
  length (ec_method_matrix_inverse gf8 mat rows) = (k * k)%nat.
Proof.
  intros Hk (Hl & Hnz & Hnd) Hmat. pose proof (rows_field rows Hnz) as Hf.
  pose proof (lift_nodup rows Hf Hnd) as Hnd'. pose proof (lift_gfv rows Hf) as Hg.
  assert (Hlen : length (lift rows) = k) by (unfold lift; rewrite length_map; auto).
  destruct (lift rows) as [|v0 vs]; [cbn in Hlen; lia|].
  assert (Hvs : vs <> []) by (intros ->; cbn in Hlen; lia).
  rewrite <- Hg. destruct (inverse_cells v0 vs Hnd' Hvs mat) as [E _]; [|rewrite E; exact Hmat].
  rewrite Hlen, Hmat. lia.
Qed.

Section matrices.
Context (compiles : list ec_code_op -> bool) (regs : list Z) (Hregs : length regs = 16%nat)
  (k : nat) (Hk : (2 <= k)%nat) (Hk32 : Z.of_nat k <= 2 ^ 32).

(** The functions of [m] compute the inverse of the given rows. *)
Definition decodes (m : ec_matrix) (rows : list Z) : Prop :=
  mx_columns m = k /\ mx_rows m = k /\ length (mx_values m) = (k * k)%nat /\
  exists mat, length mat = (k * k)%nat /\
    forall j, (j < k)%nat -> exists func, mx_func m !! j = Some func /\
      interleaved_computes regs func (matrix_row k (mx_values m) j)
        (matrix_row k (ec_method_matrix_inverse gf8 mat rows) j).

(** The functions of [m] compute the encoding rows of 1 to [n]. *)
Definition encodes (m : ec_matrix) (n : nat) : Prop :=
  mx_columns m = k /\ mx_rows m = n /\
  forall i, (i < n)%nat -> exists func, mx_func m !! i = Some func /\
    linear_computes regs func (matrix_row k (mx_values m) i) (encode_row k (Z.of_nat i + 1)).

Lemma init_decodes l values mask rows code m :
  ml_columns l = k -> code_gf (ml_code l) = gf8 -> length values = (k * k)%nat -> rows_ok k rows ->
  ec_method_matrix_init compiles l values mask rows true = (code, m) ->
  code_gf code = gf8 /\ mx_refs m = 1 /\ mx_mask m = mask /\ decodes m rows.
Proof.
  intros Hc Hgf Hv Hrows He. pose proof Hrows as (Hl & Hnz & Hnd).
  unfold ec_method_matrix_init in He. rewrite Hc, Hgf, take_ge in He by lia.
  set (M := ec_method_matrix_inverse gf8 values rows) in *.
  assert (HM : length M = (k * k)%nat) by (apply inverse_length; auto).
  destruct (build_rows_spec compiles false k (interleaved_computes regs) M k 0 (ml_code l) M [])
    as (code' & values' & fs & Hb & Hgf' & Hl' & Hfs & _ & HR); auto.
  { rewrite HM. lia. }
  { intros j Hj. split; [|reflexivity]. intros code1 code2 func row Hgf1 Hb.
    destruct (inverse_row_ok rows Hnz Hnd ltac:(lia) values j) as (Hrl & Hrf & Hre); [nia | lia |].
    rewrite Hl in Hrl, Hrf, Hre. fold M in Hrl, Hrf, Hre.
    destruct (build_interleaved compiles regs Hregs _ _ _ _ _ Hgf1 Hrf Hre Hb) as (? & ? & ?).
    repeat split; auto. lia. }
  rewrite Hb in He. injection He as <- <-. split; [auto|]. split; [reflexivity|]. split; [reflexivity|].
  split; [reflexivity|]. split; [reflexivity|]. split; [cbn; congruence|].
  exists values. split; [auto|]. intros j Hj. apply (HR j Hj).
Qed.

Lemma encode_rows_concat n :
  (n <= 255)%nat ->
  let vs := map (fun i => Z.of_nat i + 1) (seq 0 n) in
  let M := concat (map (encode_row k) vs) in
  Forall nonzero vs /\ length M = (n * k)%nat /\
  forall i, (i < n)%nat -> matrix_row k M i = encode_row k (Z.of_nat i + 1).
Proof.
  intros Hn vs M. assert (Hl : Forall (fun r => length r = k) (map (encode_row k) vs)).
  { apply Forall_forall. intros r [v [-> _]]%list_elem_of_fmap. apply encode_row_length. }
  split; [|split].
  - apply Forall_forall. intros v [i [-> Hi]]%list_elem_of_fmap. apply elem_of_seq in Hi.
    unfold nonzero. lia.
  - unfold M. assert (Hlv : length (map (encode_row k) vs) = n)
      by (unfold vs; rewrite !length_map, length_seq; reflexivity).
    rewrite <- Hlv. clear - Hl. induction Hl as [|r rs Hr _ IH]; [reflexivity|].
    cbn. rewrite length_app, IH, Hr. reflexivity.
  - intros i Hi. apply matrix_row_concat; [exact Hl|]. unfold vs. rewrite map_map.
    change (map (fun i => encode_row k (Z.of_nat i + 1)) (seq 0 n))
      with ((fun i => encode_row k (Z.of_nat i + 1)) <$> seq 0 n).
    rewrite list_lookup_fmap, lookup_seq_lt by auto. reflexivity.
Qed.

Lemma init_encodes l values n code m :
  ml_columns l = k -> ml_rows l = n -> code_gf (ml_code l) = gf8 -> (n <= 255)%nat ->
  ec_method_matrix_init compiles l values 0 (map (fun i => Z.of_nat i + 1) (seq 0 n)) false = (code, m) ->
  code_gf code = gf8 /\ encodes m n.
Proof.
  intros Hc Hr Hgf Hn He. unfold ec_method_matrix_init in He.
  rewrite Hc, Hr, Hgf, take_ge in He by (rewrite length_map, length_seq; lia).
  destruct (encode_rows_concat n Hn) as (Hvs & HM & Hrow). cbv zeta in *.
  rewrite normal_matrix_rows in He by (auto; lia).
  set (M := concat _) in *.
  destruct (build_rows_spec compiles true k (linear_computes regs) M n 0 (ml_code l) M [])
    as (code' & values' & fs & Hb & Hgf' & Hl' & Hfs & _ & HR); auto.
  { lia. }
  { intros i Hi. split; [|reflexivity]. intros code1 code2 func row Hgf1 Hb.
    rewrite Hrow in Hb |- * by lia.
    destruct (encode_row_spec k (Z.of_nat i + 1)) as [Hnz Hlast]; [lia | unfold nonzero; lia |].
    pose proof (encode_row_length k (Z.of_nat i + 1)) as Hel.
    destruct (build_linear compiles regs Hregs code1 (encode_row k (Z.of_nat i + 1)) code2 func row)
      as (? & ? & ?); auto.
    - intros E. rewrite E in Hel. cbn in Hel. lia.
    - repeat split; auto. lia. }
  rewrite Hb in He. injection He as <- <-. split; [auto|]. split; [reflexivity|]. split; [reflexivity|].
  intros i Hi. destruct (HR i Hi) as (f & Hf & HRf). cbn [Nat.add] in HRf. rewrite Hrow in HRf by auto.
  exists f. auto.
Qed.
End matrices.

(** ** Buffers as sequences of chunks *)

Abbreviation chunk_no := (matrix_row 64).

Definition buf_ok (n : nat) (buf : list Z) : Prop := length buf = (n * 64)%nat /\ Forall word_ok buf.

Lemma chunk_offset t : (t * EC_METHOD_CHUNK_SIZE / 8)%nat = (t * 64)%nat.
Proof.
  unfold EC_METHOD_CHUNK_SIZE. replace (t * 512)%nat with (t * 64 * 8)%nat by lia.
  apply Nat.div_mul. lia.
Qed.

Lemma chunk_at_no buf t : chunk_at buf (t * EC_METHOD_CHUNK_SIZE) = chunk_no buf t.
Proof. unfold chunk_at. rewrite chunk_offset. reflexivity. Qed.

Lemma write_chunk_no buf t c : write_chunk buf (t * EC_METHOD_CHUNK_SIZE) c = set_matrix_row 64 buf t c.
Proof.
  unfold write_chunk, set_matrix_row. rewrite chunk_offset. do 3 f_equal. lia.
Qed.

Lemma chunk_no_ok n buf t : buf_ok n buf -> (t < n)%nat -> chunk_ok (chunk_no buf t).
Proof.
  intros [Hl Hw] Ht. split; [apply matrix_row_length; nia|]. apply Forall_take, Forall_drop, Hw.
Qed.

Lemma write_buf_ok n buf t c :
  buf_ok n buf -> (t < n)%nat -> chunk_ok c -> buf_ok n (set_matrix_row 64 buf t c).
Proof.
  intros [Hl Hw] Ht [Hcl Hcw]. split; [rewrite set_matrix_row_length; auto; nia|].
  unfold set_matrix_row. apply Forall_app. split; [apply Forall_take, Hw|].
  apply Forall_app. split; [exact Hcw | apply Forall_drop, Hw].
Qed.

Lemma buf_ext n buf buf' :
  buf_ok n buf -> buf_ok n buf' -> (forall t, (t < n)%nat -> chunk_no buf t = chunk_no buf' t) ->
  buf = buf'.
Proof.
  intros [Hl _] [Hl' _] He. apply list_eq_total; [congruence|]. intros x Hx.
  assert (Ht : (x / 64 < n)%nat) by (apply Nat.Div0.div_lt_upper_bound; lia).
  assert (Hm : (x mod 64 < 64)%nat) by (apply Nat.mod_upper_bound; lia).
  pose proof (f_equal (fun r => r !!! (x mod 64)%nat) (He _ Ht)) as E. cbv beta in E.
  rewrite !matrix_row_lookup in E by auto.
  replace (x / 64 * 64 + x mod 64)%nat with x in E by (rewrite Nat.mul_comm; apply Nat.div_mod_eq).
  exact E.
Qed.

(** Lane [(i, b)] of [n] consecutive chunks from number [t]. *)
Definition lanes (buf : list Z) (t n : nat) (i : nat) (b : Z) : list Z :=
  map (fun j => symbol (chunk_no buf (t + j)) i b) (seq 0 n).

Lemma chunks_from_lanes buf t n i b :
  map (fun c => symbol c i b) (chunks_from buf n (t * EC_METHOD_CHUNK_SIZE)) = lanes buf t n i b.
Proof.
  rewrite chunks_from_seq, map_map. apply map_ext. intros j.
  rewrite <- Nat.mul_add_distr_r, chunk_at_no. reflexivity.
Qed.

Section encode.
Context (regs : list Z) (k n S_ : nat) (Hk : (2 <= k)%nat).

(** Chunk [s] of the fragment of [v]. *)
Definition encoded (inp : list Z) (v : Z) (s : nat) (c : list Z) : Prop :=
  forall i b, (i < 8)%nat -> symbol c i b = lincomb (encode_row k v) (lanes inp (s * k) k i b).

Lemma encode_rows_spec m inp s :
  encodes regs k m n -> buf_ok (S_ * k) inp -> (s < S_)%nat ->
  forall r i out, (i + r = n)%nat -> length out = n -> Forall (buf_ok S_) out ->
  exists out', encode_rows regs r i m k inp (s * k * EC_METHOD_CHUNK_SIZE) (s * EC_METHOD_CHUNK_SIZE) out
      = Some out' /\ length out' = n /\ Forall (buf_ok S_) out' /\
    (forall j, (j < i)%nat -> out' !!! j = out !!! j) /\
    (forall j, (i <= j < n)%nat -> encoded inp (Z.of_nat j + 1) s (chunk_no (out' !!! j) s) /\
      forall t, (t < S_)%nat -> t <> s -> chunk_no (out' !!! j) t = chunk_no (out !!! j) t).
Proof.
  intros (Hmc & Hmr & Hm) Hinp Hs. induction r as [|r IH]; intros i out Hi Hl Hout; cbn [encode_rows].
  { exists out. split; [reflexivity|]. split; [auto|]. split; [auto|]. split; [auto | lia]. }
  destruct (Hm i ltac:(lia)) as (func & Hf & Hcomp). rewrite Hf, Hmc.
  destruct (lookup_lt_is_Some_2 out i) as [buf Hbuf]; [lia|].
  rewrite (list_lookup_total_correct _ _ _ Hbuf).
  assert (Hb : buf_ok S_ buf) by (eapply Forall_lookup_1 in Hout; eauto).
  pose proof (encode_row_length k (Z.of_nat i + 1)) as Hel.
  destruct (Hcomp (chunk_at buf (s * EC_METHOD_CHUNK_SIZE)) inp (s * k * EC_METHOD_CHUNK_SIZE)%nat)
    as (c & Hcall & Hc & Hsym).
  { rewrite chunk_at_no. eapply chunk_no_ok; eauto. }
  { rewrite Hel, chunks_from_seq. apply Forall_forall. intros x [j [-> Hj]]%list_elem_of_fmap.
    apply elem_of_seq in Hj. rewrite <- Nat.mul_add_distr_r, chunk_at_no.
    eapply chunk_no_ok; [exact Hinp | nia]. }
  rewrite Hel in Hcall, Hsym. rewrite Hcall, write_chunk_no.
  destruct (IH (S i) (<[i := set_matrix_row 64 buf s c]> out)) as (out' & He & Hl' & Ho' & Hlow & Hhigh).
  { lia. } { rewrite length_insert. auto. }
  { apply Forall_insert; auto. apply write_buf_ok; auto. }
  exists out'. split; [exact He|]. split; [auto|]. split; [auto|].
  assert (Hbl : length c = 64%nat) by apply Hc. assert (HS : (S s * 64 <= length buf)%nat) by (destruct Hb; nia).
  split.
  - intros j Hj. rewrite Hlow, list_lookup_total_insert_ne by lia. reflexivity.
  - intros j Hj. destruct (decide (j = i)) as [->|].
    + rewrite Hlow, list_lookup_total_insert_eq by lia. rewrite set_matrix_row_eq by auto. split.
      * intros i0 b Hi0. rewrite Hsym by auto. rewrite chunks_from_lanes. reflexivity.
      * intros t Ht Hts. rewrite (list_lookup_total_correct _ _ _ Hbuf).
        apply set_matrix_row_ne; auto. destruct Hb. nia.
    + destruct (Hhigh j ltac:(lia)) as [He1 He2]. split; [exact He1|].
      intros t Ht Hts. rewrite He2, list_lookup_total_insert_ne by auto. reflexivity.
Qed.

Lemma encode_loop_spec l inp :
  encodes regs k (ml_encode l) n -> ml_columns l = k -> ml_stripe l = (EC_METHOD_CHUNK_SIZE * k)%nat ->
  buf_ok (S_ * k) inp ->
  forall fuel s out, (s <= S_)%nat -> (S_ - s <= fuel)%nat -> length out = n -> Forall (buf_ok S_) out ->
  exists out', encode_loop regs fuel l (S_ * k * EC_METHOD_CHUNK_SIZE) inp
      (s * k * EC_METHOD_CHUNK_SIZE) (s * EC_METHOD_CHUNK_SIZE) out = Some out' /\
    length out' = n /\ Forall (buf_ok S_) out' /\
    forall j, (j < n)%nat ->
      (forall t, (t < s)%nat -> chunk_no (out' !!! j) t = chunk_no (out !!! j) t) /\
      (forall t, (s <= t < S_)%nat -> encoded inp (Z.of_nat j + 1) t (chunk_no (out' !!! j) t)).
Proof.
  intros Henc Hc Hst Hinp. induction fuel as [|fuel IH]; intros s out Hs Hf Hl Hout; cbn [encode_loop].
  { exists out. split; [reflexivity|]. split; [auto|]. split; [auto|]. intros j Hj. split; [auto | lia]. }
  assert (HC : (0 < EC_METHOD_CHUNK_SIZE)%nat) by (unfold EC_METHOD_CHUNK_SIZE; lia).
  destruct (Nat.ltb_spec (s * k * EC_METHOD_CHUNK_SIZE) (S_ * k * EC_METHOD_CHUNK_SIZE)) as [Hlt|Hge].
  2: { exists out. split; [reflexivity|]. split; [auto|]. split; [auto|]. intros j Hj.
       split; [auto|]. intros t Ht. assert (s < S_)%nat by lia. exfalso.
       assert (s * k < S_ * k)%nat by nia. nia. }
  assert (Hs' : (s < S_)%nat).
  { destruct (decide (s = S_)) as [->|]; [lia|]. lia. }
  pose proof Henc as (_ & Hmr & _). rewrite Hmr, Hc.
  destruct (encode_rows_spec (ml_encode l) inp s Henc Hinp Hs' n 0 out) as (out1 & -> & Hl1 & Ho1 & _ & H1); auto.
  rewrite Hst. replace (s * k * EC_METHOD_CHUNK_SIZE + EC_METHOD_CHUNK_SIZE * k)%nat
    with (S s * k * EC_METHOD_CHUNK_SIZE)%nat by lia.
  replace (s * EC_METHOD_CHUNK_SIZE + EC_METHOD_CHUNK_SIZE)%nat with (S s * EC_METHOD_CHUNK_SIZE)%nat by lia.
  destruct (IH (S s) out1) as (out' & He & Hl' & Ho' & H'); [lia | lia | auto | auto |].
  exists out'. split; [exact He|]. split; [auto|]. split; [auto|]. intros j Hj.
  destruct (H' j Hj) as [Hlow Hhigh]. destruct (H1 j ltac:(lia)) as [Henc1 Hrest]. split.
  - intros t Ht. rewrite Hlow, Hrest by lia. reflexivity.
  - intros t Ht. destruct (decide (t = s)) as [->|]; [rewrite Hlow by lia; exact Henc1|].
    apply Hhigh. lia.
Qed.

(** [ec_method_encode] on whole stripes. *)
Lemma encode_spec l inp out :
  encodes regs k (ml_encode l) n -> ml_columns l = k -> ml_stripe l = (EC_METHOD_CHUNK_SIZE * k)%nat ->
  buf_ok (S_ * k) inp -> length out = n -> Forall (buf_ok S_) out ->
  exists out', ec_method_encode regs l (S_ * k * EC_METHOD_CHUNK_SIZE) inp out = Some out' /\
    length out' = n /\ Forall (buf_ok S_) out' /\
    forall j s, (j < n)%nat -> (s < S_)%nat ->
      encoded inp (Z.of_nat j + 1) s (chunk_no (out' !!! j) s).
Proof.
  intros Henc Hc Hst Hinp Hl Hout. assert (1 <= EC_METHOD_CHUNK_SIZE)%nat by (unfold EC_METHOD_CHUNK_SIZE; lia).
  destruct (encode_loop_spec l inp Henc Hc Hst Hinp (S_ * k * EC_METHOD_CHUNK_SIZE) 0 out)
    as (out' & He & Hl' & Ho' & H'); auto; [lia | nia |].
  exists out'. split; [exact He|]. split; [auto|]. split; [auto|]. intros j s Hj Hs.
  apply (proj2 (H' j Hj)). lia.
Qed.
End encode.

Section decode.
Context (regs : list Z) (k S_ : nat) (Hk : (2 <= k)%nat) (m : ec_matrix) (mat rows : list Z).
Let M : list Z := ec_method_matrix_inverse gf8 mat rows.
Context (Hcols : mx_columns m = k) (Hrows : mx_rows m = k) (HMl : length M = (k * k)%nat)
  (Hfunc : forall j, (j < k)%nat -> exists func, mx_func m !! j = Some func /\
    interleaved_computes regs func (matrix_row k (mx_values m) j) (matrix_row k M j)).
Context (inp : list (list Z)) (Hinl : length inp = k) (Hinp : Forall (buf_ok S_) inp).

Definition decoded (s j : nat) (c : list Z) : Prop :=
  chunk_ok c /\ forall i b, (i < 8)%nat ->
    symbol c i b = lincomb (matrix_row k M j) (map (fun buf => symbol (chunk_no buf s) i b) inp).

Lemma decode_rows_spec s :
  (s < S_)%nat -> forall r j out, (j + r = k)%nat -> buf_ok (S_ * k) out ->
  exists out', decode_rows regs r j m k inp (s * EC_METHOD_CHUNK_SIZE) out
      ((s * k + j) * EC_METHOD_CHUNK_SIZE) = Some (out', (S s * k * EC_METHOD_CHUNK_SIZE)%nat) /\
    buf_ok (S_ * k) out' /\
    (forall t, (t < s * k + j)%nat -> chunk_no out' t = chunk_no out t) /\
    (forall j', (j <= j' < k)%nat -> decoded s j' (chunk_no out' (s * k + j'))).
Proof.
  intros Hs. induction r as [|r IH]; intros j out Hj Hout; cbn [decode_rows].
  { exists out. replace (s * k + j)%nat with (S s * k)%nat by lia.
    split; [reflexivity|]. split; [auto|]. split; [auto | lia]. }
  destruct (Hfunc j ltac:(lia)) as (func & -> & Hcomp). rewrite Hcols.
  assert (Hrl : length (matrix_row k M j) = k) by (apply matrix_row_length; nia).
  assert (Hpos : (s * k + j < S_ * k)%nat) by nia.
  destruct (Hcomp (chunk_at out ((s * k + j) * EC_METHOD_CHUNK_SIZE)) inp (s * EC_METHOD_CHUNK_SIZE)%nat)
    as (c & Hcall & Hc & Hsym).
  { rewrite chunk_at_no. eapply chunk_no_ok; eauto. }
  { rewrite Hrl. exact Hinl. }
  { eapply Forall_impl; [exact Hinp|]. intros buf Hb. cbv beta. rewrite chunk_at_no.
    eapply chunk_no_ok; eauto. }
  rewrite Hrl in Hcall. rewrite Hcall, write_chunk_no.
  replace ((s * k + j) * EC_METHOD_CHUNK_SIZE + EC_METHOD_CHUNK_SIZE)%nat
    with ((s * k + S j) * EC_METHOD_CHUNK_SIZE)%nat by lia.
  destruct (IH (S j) (set_matrix_row 64 out (s * k + j) c)) as (out' & He & Ho' & Hlow & Hhigh); [lia | |].
  { apply write_buf_ok; auto. }
  assert (Hcl : length c = 64%nat) by apply Hc. pose proof Hout as [Hol _].
  exists out'. split; [exact He|]. split; [auto|]. split.
  - intros t Ht. rewrite Hlow by lia. apply set_matrix_row_ne; auto; nia.
  - intros j' Hj'. destruct (decide (j' = j)) as [->|]; [|apply Hhigh; lia].
    rewrite Hlow, set_matrix_row_eq by (auto; nia). split; [exact Hc|]. intros i b Hi.
    rewrite Hsym by auto. f_equal. apply map_ext. intros buf. rewrite chunk_at_no. reflexivity.
Qed.

Lemma decode_loop_spec fuel : forall s out,
  (s <= S_)%nat -> (S_ - s <= fuel)%nat -> buf_ok (S_ * k) out ->
  exists out', decode_loop regs fuel m k (S_ * EC_METHOD_CHUNK_SIZE) inp (s * EC_METHOD_CHUNK_SIZE) out
      (s * k * EC_METHOD_CHUNK_SIZE) = Some out' /\
    buf_ok (S_ * k) out' /\
    (forall t, (t < s * k)%nat -> chunk_no out' t = chunk_no out t) /\
    (forall s' j, (s <= s' < S_)%nat -> (j < k)%nat -> decoded s' j (chunk_no out' (s' * k + j))).
Proof.
  assert (HC : (0 < EC_METHOD_CHUNK_SIZE)%nat) by (unfold EC_METHOD_CHUNK_SIZE; lia).
  induction fuel as [|fuel IH]; intros s out Hs Hf Hout; cbn [decode_loop].
  { exists out. split; [reflexivity|]. split; [auto|]. split; [auto | lia]. }
  destruct (Nat.ltb_spec (s * EC_METHOD_CHUNK_SIZE) (S_ * EC_METHOD_CHUNK_SIZE)) as [Hlt|Hge].
  2: { exists out. split; [reflexivity|]. split; [auto|]. split; [auto|]. intros s' j Hs'. nia. }
  assert (Hs' : (s < S_)%nat) by nia. rewrite Hrows.
  destruct (decode_rows_spec s Hs' k 0 out) as (out1 & He1 & Ho1 & Hlow1 & Hh1); [lia | auto |].
  rewrite Nat.add_0_r in He1, Hlow1. rewrite He1.
  replace (s * EC_METHOD_CHUNK_SIZE + EC_METHOD_CHUNK_SIZE)%nat with (S s * EC_METHOD_CHUNK_SIZE)%nat by lia.
  destruct (IH (S s) out1) as (out' & He & Ho' & Hlow & Hh); [lia | lia | auto |].
  exists out'. split; [exact He|]. split; [auto|]. split.
  - intros t Ht. rewrite Hlow, Hlow1 by nia. reflexivity.
  - intros s' j Hss Hj. destruct (decide (s' = s)) as [->|]; [|apply Hh; auto; lia].
    rewrite Hlow by nia. apply Hh1. lia.
Qed.
End decode.

(** ** Decoding what was encoded, with a matrix that fits *)

Lemma decode_recovers regs k S_ m rows data inp out :
  (2 <= k)%nat -> rows_ok k rows -> decodes regs k m rows -> buf_ok (S_ * k) data ->
  length inp = k -> Forall (buf_ok S_) inp ->
  (forall x s, (x < k)%nat -> (s < S_)%nat -> encoded k data (rows !!! x) s (chunk_no (inp !!! x) s)) ->
  buf_ok (S_ * k) out ->
  decode_loop regs (S_ * EC_METHOD_CHUNK_SIZE) m k (S_ * EC_METHOD_CHUNK_SIZE) inp 0 out 0 = Some data.
Proof.
  intros Hk Hrows (Hmc & Hmr & _ & mat & Hmat & Hf) Hdata Hil Hinp Henc Hout.
  assert (HC : (1 <= EC_METHOD_CHUNK_SIZE)%nat) by (unfold EC_METHOD_CHUNK_SIZE; lia).
  pose proof (inverse_length k mat rows Hk Hrows Hmat) as HM. pose proof Hrows as (<- & Hnz & Hnd). set (k := length rows) in *.
  destruct (decode_loop_spec regs k S_ Hk m mat rows Hmc Hmr HM Hf inp Hil Hinp
    (S_ * EC_METHOD_CHUNK_SIZE) 0 out) as (out' & He & Ho' & _ & Hdec); [lia | nia | auto |].
  cbn [Nat.mul] in He. rewrite He. f_equal. apply (buf_ext (S_ * k)); auto. intros t Ht.
  assert (Hs : (t / k < S_)%nat) by (apply Nat.Div0.div_lt_upper_bound; lia).
  assert (Hj : (t mod k < k)%nat) by (apply Nat.mod_upper_bound; lia).
  assert (Et : (t / k * k + t mod k)%nat = t) by (rewrite Nat.mul_comm; symmetry; apply Nat.div_mod_eq).
  destruct (Hdec (t / k)%nat (t mod k)%nat ltac:(lia) Hj) as [Hc Hsym]. rewrite Et in Hc, Hsym.
  apply chunk_ext; [exact Hc | eapply chunk_no_ok; eauto |]. intros i b Hi _. rewrite Hsym by auto.
  set (ds := lanes data (t / k * k) k i b).
  assert (Hds : length ds = k) by (unfold ds, lanes; rewrite length_map, length_seq; reflexivity).
  replace (map (fun buf => symbol (chunk_no buf (t / k)) i b) inp)
    with (map (fun v => lincomb (encode_row k v) ds) rows).
  - unfold k. rewrite decode_encode_symbols; auto; [|fold k; nia|].
    + unfold ds, lanes. rewrite <- Et at 2. apply list_lookup_total_correct.
      change (map (fun j => symbol (chunk_no data (t / k * k + j)) i b) (seq 0 k))
        with ((fun j => symbol (chunk_no data (t / k * k + j)) i b) <$> seq 0 k).
      rewrite list_lookup_fmap, lookup_seq_lt by auto. reflexivity.
    + unfold ds, lanes. apply Forall_forall. intros x [j [-> _]]%list_elem_of_fmap. apply symbol_field.
  - apply list_eq_total; [rewrite !length_map; lia|]. rewrite length_map. intros x Hx.
    destruct (lookup_lt_is_Some_2 rows x Hx) as [v Hv].
    destruct (lookup_lt_is_Some_2 inp x) as [buf Hbuf]; [lia|].
    transitivity (lincomb (encode_row k v) ds); [|symmetry]; apply list_lookup_total_correct.
    + change (map (fun v => lincomb (encode_row k v) ds) rows) with ((fun v => lincomb (encode_row k v) ds) <$> rows).
      rewrite list_lookup_fmap, Hv. reflexivity.
    + change (map (fun buf => symbol (chunk_no buf (t / k)) i b) inp)
        with ((fun buf => symbol (chunk_no buf (t / k)) i b) <$> inp).
      rewrite list_lookup_fmap, Hbuf. cbn. f_equal.
      pose proof (Henc x (t / k)%nat ltac:(lia) Hs i b Hi) as E.
      rewrite (list_lookup_total_correct _ _ _ Hv), (list_lookup_total_correct _ _ _ Hbuf) in E. exact E.
Qed.
