(* ===== verification/EcCache.v ===== *)
(** * The cache of decoding matrices

    Invariant of [ec_matrix_list] under any sequence of [ec_method_matrix_get]
    and [ec_method_matrix_put]: the objects are ordered by mask, every object
    decodes the rows of its mask, the unused matrices are those in the LRU list
    and a matrix someone holds is never changed. *)

From S2P Require Import Prelude EcGf8 EcGalois EcCodeC EcLanes EcChunks EcCode EcCodeFacts.
From S2P Require Import EcPoly EcField EcMatrix EcMethod EcMethodFacts.
From stdpp Require Import gmap.
Open Scope Z_scope.

(** ** Ordered masks *)

Definition mask_of (heap : gmap nat ec_matrix) (id : nat) : Z :=
  match heap !! id with Some m => mx_mask m | None => 0 end.

Definition masks (heap : gmap nat ec_matrix) (objs : list nat) : list Z := map (mask_of heap) objs.

Definition ascending (ms : list Z) : Prop :=
  forall i j x y, (i < j)%nat -> ms !! i = Some x -> ms !! j = Some y -> x < y.

Lemma object_mask_lookup l k :
  (k < length (ml_objects l))%nat -> masks (ml_heap l) (ml_objects l) !! k = Some (object_mask l k).
Proof.
  intros Hk. destruct (lookup_lt_is_Some_2 (ml_objects l) k Hk) as [id Hid].
  unfold masks, object_mask. change (map (mask_of (ml_heap l)) (ml_objects l))
    with (mask_of (ml_heap l) <$> ml_objects l).
  rewrite list_lookup_fmap, Hid. reflexivity.
Qed.

(** Where a mask is, or where it belongs. *)
Definition found_at (ms : list Z) (mask : Z) (r : bool * nat) : Prop :=
  match r with
  | (true, pos) => ms !! pos = Some mask
  | (false, pos) => (pos <= length ms)%nat /\
      (forall x v, ms !! x = Some v -> (x < pos)%nat -> v < mask) /\
      (forall x v, ms !! x = Some v -> (pos <= x)%nat -> mask < v)
  end.

Lemma lookup_loop_spec l mask ms fuel : forall i j,
  ms = masks (ml_heap l) (ml_objects l) ->
  ascending ms -> (i <= j)%nat -> (j <= length ms)%nat -> (j - i < fuel)%nat ->
  (forall x v, ms !! x = Some v -> (x < i)%nat -> v < mask) ->
  (forall x v, ms !! x = Some v -> (j <= x)%nat -> mask < v) ->
  found_at ms mask (lookup_loop fuel l mask i j).
Proof.
  induction fuel as [|fuel IH]; intros i j Hms Hasc Hij Hj Hf Hlow Hhigh; [lia|].
  cbn [lookup_loop]. destruct (Nat.ltb_spec i j) as [Hlt|Hge].
  2: { assert (i = j) by lia. subst j. split; [auto|]. split; auto. }
  assert (Hml : length ms = length (ml_objects l)) by (subst ms; apply length_map).
  pose proof (Nat.div2_div (i + j)) as Hd. set (k := Nat.div2 (i + j)) in *.
  assert (Hk : (i <= k < j)%nat).
  { rewrite Hd. split; [apply Nat.div_le_lower_bound; lia | apply Nat.Div0.div_lt_upper_bound; lia]. }
  pose proof (object_mask_lookup l k ltac:(lia)) as Hm. rewrite <- Hms in Hm.
  destruct (Z.eqb_spec (object_mask l k) mask) as [E|Hne]; [rewrite E in Hm; exact Hm|].
  destruct (Z.ltb_spec (object_mask l k) mask) as [Hlt2|Hge2].
  - apply IH; auto; [lia | lia |]. intros x v Hx Hxk.
    destruct (decide (x = k)) as [->|]; [assert (v = object_mask l k) by congruence; lia|].
    transitivity (object_mask l k); [|auto]. apply (Hasc x k); auto. lia.
  - apply IH; auto; [lia | lia | lia |]. intros x v Hx Hxk.
    destruct (decide (x = k)) as [->|]; [assert (v = object_mask l k) by congruence; lia|].
    transitivity (object_mask l k); [lia|]. apply (Hasc k x); auto. lia.
Qed.

Lemma lookup_spec l mask :
  let ms := masks (ml_heap l) (ml_objects l) in
  ml_count l = Z.of_nat (length (ml_objects l)) -> ascending ms ->
  found_at ms mask (ec_method_matrix_lookup l mask).
Proof.
  intros ms Hc Hasc. unfold ec_method_matrix_lookup. rewrite Hc, Nat2Z.id.
  assert (Hml : length ms = length (ml_objects l)) by (apply length_map).
  apply lookup_loop_spec; auto; try lia.
  intros x v Hx Hle. apply lookup_lt_Some in Hx. lia.
Qed.

(** Removing and inserting keep the order. *)
Lemma ascending_delete ms pos : ascending ms -> ascending (delete pos ms).
Proof.
  intros Hasc i j x y Hij Hx Hy. rewrite !list_lookup_delete in Hx, Hy.
  destruct (decide (i < pos)%nat), (decide (j < pos)%nat).
  all: eapply Hasc; [| exact Hx | exact Hy]; lia.
Qed.

Lemma ascending_insert ms mask pos :
  ascending ms -> found_at ms mask (false, pos) -> ascending (take pos ms ++ mask :: drop pos ms).
Proof.
  intros Hasc (Hpos & Hlow & Hhigh) i j x y Hij Hx Hy.
  assert (Hl : length (take pos ms) = pos) by (rewrite length_take; lia).
  assert (Hnth : forall n v, (take pos ms ++ mask :: drop pos ms) !! n = Some v ->
    ((n < pos)%nat /\ ms !! n = Some v) \/ (n = pos /\ v = mask) \/
    ((pos < n)%nat /\ ms !! (n - 1)%nat = Some v)).
  { intros n v Hn. destruct (Nat.lt_trichotomy n pos) as [H|[->|H]].
    - left. rewrite lookup_app_l, lookup_take_lt in Hn by lia. auto.
    - right; left. rewrite lookup_app_r, Hl, Nat.sub_diag in Hn by lia. split; [auto|]. cbn in Hn. congruence.
    - right; right. rewrite lookup_app_r, Hl in Hn by lia.
      destruct (n - pos)%nat as [|d] eqn:Ed; [lia|].
      change ((mask :: drop pos ms) !! S d) with (drop pos ms !! d) in Hn. rewrite lookup_drop in Hn.
      split; [lia|]. rewrite <- Hn. f_equal. lia. }
  destruct (Hnth i x Hx) as [[Hi Hx']|[[-> ->]|[Hi Hx']]];
    destruct (Hnth j y Hy) as [[Hj Hy']|[[-> ->]|[Hj Hy']]]; try lia.
  - exact (Hasc i j x y Hij Hx' Hy').
  - eapply Hlow; eauto.
  - transitivity mask; [eapply Hlow | eapply Hhigh]; eauto. lia.
  - eapply Hhigh; eauto. lia.
  - eapply (Hasc (i - 1)%nat (j - 1)%nat); eauto. lia.
Qed.

(** ** The invariant *)

Section cache.
Context (compiles : list ec_code_op -> bool) (regs : list Z) (Hregs : length regs = 16%nat)
  (k : nat) (Hk : (2 <= k)%nat) (Hk32 : Z.of_nat k <= 2 ^ 32).

(** The masks the users of the list ask for and the rows each one stands for;
    0 is not a mask. *)
Context (valid : Z -> Prop) (rows_of : Z -> list Z)
  (Hvalid0 : ~ valid 0) (Hrows : forall mask, valid mask -> rows_ok k (rows_of mask)).

(** References held: matrix and the mask it was asked for with. *)
Definition held_count (held : list (nat * Z)) (id : nat) : nat :=
  length (filter (fun p => p.1 = id) held).

Record cache_inv (l : ec_matrix_list) (held : list (nat * Z)) : Prop := {
  ci_cols : ml_columns l = k;
  ci_gf : code_gf (ml_code l) = gf8;
  ci_max : 0 <= ml_max l < 2 ^ 32;
  ci_count : ml_count l = Z.of_nat (length (ml_objects l));
  ci_le : ml_count l <= ml_max l;
  ci_objs : NoDup (ml_objects l);
  ci_asc : ascending (masks (ml_heap l) (ml_objects l));
  ci_obj : forall id, id ∈ ml_objects l -> exists m, ml_heap l !! id = Some m /\
    valid (mx_mask m) /\ decodes regs k m (rows_of (mx_mask m));
  ci_free : forall id m, ml_heap l !! id = Some m -> id ∉ ml_objects l -> mx_mask m = 0;
  ci_vals : forall id m, ml_heap l !! id = Some m -> length (mx_values m) = (k * k)%nat;
  ci_lru_nodup : NoDup (ml_lru l);
  ci_lru : forall id, id ∈ ml_lru l <-> exists m, ml_heap l !! id = Some m /\ mx_refs m = 0;
  ci_refs : forall id m, ml_heap l !! id = Some m -> mx_refs m = Z.of_nat (held_count held id);
  ci_held : forall id mask, (id, mask) ∈ held -> exists m, ml_heap l !! id = Some m /\
    decodes regs k m (rows_of mask);
  ci_bound : Z.of_nat (length held) < 2 ^ 32
}.

Lemma held_count_le held id : (held_count held id <= length held)%nat.
Proof. apply length_filter. Qed.

Lemma held_count_cons held id mask id' :
  held_count ((id, mask) :: held) id' =
  (if decide (id = id') then S (held_count held id') else held_count held id').
Proof.
  unfold held_count. rewrite filter_cons. cbn. destruct (decide (id = id')); reflexivity.
Qed.

Lemma held_count_zero held id : held_count held id = 0%nat -> forall mask, (id, mask) ∉ held.
Proof.
  unfold held_count. intros Hz mask Hin. apply nil_length_inv in Hz.
  assert (Hf : (id, mask) ∈ filter (fun p => p.1 = id) held) by (apply list_elem_of_filter; auto).
  rewrite Hz in Hf. apply elem_of_nil in Hf. exact Hf.
Qed.

Lemma list_del_spec x xs y : y ∈ list_del x xs <-> y ∈ xs /\ y <> x.
Proof. unfold list_del. rewrite list_elem_of_filter. tauto. Qed.

Lemma list_del_nodup x xs : NoDup xs -> NoDup (list_del x xs).
Proof. apply NoDup_filter. Qed.

Lemma masks_ext heap heap' objs :
  (forall id, id ∈ objs -> mask_of heap' id = mask_of heap id) -> masks heap' objs = masks heap objs.
Proof. intros H. apply map_ext_Forall, Forall_forall. exact H. Qed.

Lemma mask_in_objects l held pos mask :
  cache_inv l held -> masks (ml_heap l) (ml_objects l) !! pos = Some mask ->
  exists id m, ml_objects l !! pos = Some id /\ ml_heap l !! id = Some m /\ mx_mask m = mask /\
    valid mask /\ decodes regs k m (rows_of mask).
Proof.
  intros Hi Hp. unfold masks in Hp. change (map (mask_of (ml_heap l)) (ml_objects l))
    with (mask_of (ml_heap l) <$> ml_objects l) in Hp.
  rewrite list_lookup_fmap in Hp. destruct (ml_objects l !! pos) as [id|] eqn:E; [|discriminate].
  destruct (ci_obj _ _ Hi id) as (m & Hm & Hv & Hd); [eapply list_elem_of_lookup_2; eauto|].
  cbn in Hp. unfold mask_of in Hp. rewrite Hm in Hp. injection Hp as <-.
  exists id, m. auto.
Qed.

(** ** Taking a reference to a cached matrix *)

Lemma get_hit l held id m mask :
  cache_inv l held -> Z.of_nat (length held) + 1 < 2 ^ 32 ->
  ml_heap l !! id = Some m -> decodes regs k m (rows_of mask) ->
  let m' := mk_matrix (u32_incr (mx_refs m)) (mx_columns m) (mx_rows m) (mx_mask m)
              (mx_values m) (mx_func m) in
  cache_inv (set_heap (set_lru l (list_del id (ml_lru l))) (<[id := m']> (ml_heap l)))
    ((id, mask) :: held).
Proof.
  intros Hi Hb Hm Hd m'. pose proof (ci_refs _ _ Hi id m Hm) as Hr.
  pose proof (held_count_le held id) as Hle.
  assert (Hm' : mx_refs m' = mx_refs m + 1).
  { cbn. unfold u32_incr. apply Z.mod_small. lia. }
  assert (Hlk : forall id0 m0, <[id := m']> (ml_heap l) !! id0 = Some m0 ->
    (id0 = id /\ m0 = m') \/ (id0 <> id /\ ml_heap l !! id0 = Some m0)).
  { intros id0 m0 H0. destruct (decide (id0 = id)) as [->|Hne].
    - rewrite lookup_insert_eq in H0. left. split; congruence.
    - rewrite lookup_insert_ne in H0 by auto. auto. }
  split; cbn [ml_columns ml_code ml_max ml_count ml_objects ml_heap ml_lru set_heap set_lru].
  - apply Hi. - apply Hi. - apply Hi. - apply Hi. - apply Hi. - apply Hi.
  - rewrite (masks_ext (ml_heap l)); [apply Hi|]. intros id0 _. unfold mask_of.
    destruct (decide (id0 = id)) as [->|]; [rewrite lookup_insert_eq, Hm; reflexivity|].
    rewrite lookup_insert_ne by auto. reflexivity.
  - intros id0 H0. destruct (ci_obj _ _ Hi id0 H0) as (m0 & Hm0 & Hv & Hd0).
    destruct (decide (id0 = id)) as [->|].
    + exists m'. rewrite lookup_insert_eq. rewrite Hm in Hm0. injection Hm0 as <-. auto.
    + exists m0. rewrite lookup_insert_ne by auto. auto.
  - intros id0 m0 [[-> ->]|[_ H0]]%Hlk Hno; [apply (ci_free _ _ Hi id m); auto | eapply ci_free; eauto].
  - intros id0 m0 [[-> ->]|[_ H0]]%Hlk; [apply (ci_vals _ _ Hi id m); auto | eapply ci_vals; eauto].
  - apply list_del_nodup, Hi.
  - intros id0. rewrite list_del_spec, (ci_lru _ _ Hi). split.
    + intros [(m0 & H0 & Hz) Hne]. exists m0. rewrite lookup_insert_ne by auto. auto.
    + intros (m0 & [[-> ->]|[Hne H0]]%Hlk & Hz); [lia|]. split; [eauto | auto].
  - intros id0 m0 [[-> ->]|[Hne H0]]%Hlk; rewrite held_count_cons.
    + rewrite decide_True by auto. lia.
    + rewrite decide_False by auto. eapply ci_refs; eauto.
  - intros id0 mask0 [[= -> ->]|H0]%elem_of_cons.
    + exists m'. rewrite lookup_insert_eq. auto.
    + destruct (ci_held _ _ Hi id0 mask0 H0) as (m0 & Hm0 & Hd0). destruct (decide (id0 = id)) as [->|].
      * exists m'. rewrite lookup_insert_eq. rewrite Hm in Hm0. injection Hm0 as <-. auto.
      * exists m0. rewrite lookup_insert_ne by auto. auto.
  - cbn [length]. lia.
Qed.

(** ** Installing a new matrix *)

Lemma not_in_heap l held id :
  cache_inv l held -> ml_heap l !! id = None ->
  (id ∉ ml_objects l) /\ (id ∉ ml_lru l) /\ (forall mask, (id, mask) ∉ held).
Proof.
  intros Hi Hn. split; [|split].
  - intros H. destruct (ci_obj _ _ Hi id H) as (m & Hm & _). congruence.
  - intros H. apply (ci_lru _ _ Hi) in H as (m & Hm & _). congruence.
  - intros mask H. destruct (ci_held _ _ Hi id mask H) as (m & Hm & _). congruence.
Qed.

Lemma held_count_absent held id : (forall mask, (id, mask) ∉ held) -> held_count held id = 0%nat.
Proof.
  intros H. unfold held_count. destruct (filter (fun p => p.1 = id) held) as [|[id' mask] r] eqn:E; [reflexivity|].
  assert (Hin : (id', mask) ∈ filter (fun p => p.1 = id) held) by (rewrite E; apply elem_of_cons; auto).
  apply list_elem_of_filter in Hin as [Hid Hin]. cbn in Hid. subst id'. exfalso. exact (H mask Hin).
Qed.

(** A matrix fit for [mask], in the heap but not (yet) among the objects. *)
Lemma install_private l held id m mask :
  cache_inv l held -> ml_heap l !! id = None -> Z.of_nat (length held) + 1 < 2 ^ 32 ->
  mx_refs m = 1 -> mx_mask m = 0 -> decodes regs k m (rows_of mask) ->
  cache_inv (set_heap l (<[id := m]> (ml_heap l))) ((id, mask) :: held).
Proof.
  intros Hi Hn Hb Hr Hm0 Hd. destruct (not_in_heap l held id Hi Hn) as (Ho & Hl & Hh).
  assert (Hlk : forall id0 m0, <[id := m]> (ml_heap l) !! id0 = Some m0 ->
    (id0 = id /\ m0 = m) \/ (id0 <> id /\ ml_heap l !! id0 = Some m0)).
  { intros id0 m0 H0. destruct (decide (id0 = id)) as [->|Hne].
    - rewrite lookup_insert_eq in H0. left. split; congruence.
    - rewrite lookup_insert_ne in H0 by auto. auto. }
  assert (Hother : forall id0, id0 <> id -> <[id := m]> (ml_heap l) !! id0 = ml_heap l !! id0)
    by (intros; apply lookup_insert_ne; auto).
  split; cbn [ml_columns ml_code ml_max ml_count ml_objects ml_heap ml_lru set_heap].
  - apply Hi. - apply Hi. - apply Hi. - apply Hi. - apply Hi. - apply Hi.
  - rewrite (masks_ext (ml_heap l)); [apply Hi|]. intros id0 H0. unfold mask_of.
    rewrite Hother by congruence. reflexivity.
  - intros id0 H0. rewrite Hother by congruence. apply (ci_obj _ _ Hi id0 H0).
  - intros id0 m0 [[-> ->]|[_ H0]]%Hlk Hno; [auto | eapply ci_free; eauto].
  - intros id0 m0 [[-> ->]|[_ H0]]%Hlk; [apply Hd | eapply ci_vals; eauto].
  - apply Hi.
  - intros id0. rewrite (ci_lru _ _ Hi). split.
    + intros (m0 & H0 & Hz). exists m0. rewrite Hother by congruence. auto.
    + intros (m0 & [[-> ->]|[Hne H0]]%Hlk & Hz); [lia | eauto].
  - intros id0 m0 [[-> ->]|[Hne H0]]%Hlk; rewrite held_count_cons.
    + rewrite decide_True, held_count_absent by auto. exact Hr.
    + rewrite decide_False by auto. eapply ci_refs; eauto.
  - intros id0 mask0 [[= -> ->]|H0]%elem_of_cons.
    + exists m. rewrite lookup_insert_eq. auto.
    + rewrite Hother by (intros ->; exact (Hh mask0 H0)). apply (ci_held _ _ Hi id0 mask0 H0).
  - cbn [length]. lia.
Qed.

(** Making it an object. *)
Lemma install_object l held id m mask :
  cache_inv l held -> ml_heap l !! id = None -> Z.of_nat (length held) + 1 < 2 ^ 32 ->
  mx_refs m = 1 -> mx_mask m = mask -> valid mask -> decodes regs k m (rows_of mask) ->
  ml_count l < ml_max l -> (mask ∉ masks (ml_heap l) (ml_objects l)) ->
  cache_inv (ec_method_matrix_insert (set_heap l (<[id := m]> (ml_heap l))) id) ((id, mask) :: held).
Proof.
  intros Hi Hn Hb Hr Hmm Hv Hd Hlt Habs. destruct (not_in_heap l held id Hi Hn) as (Ho & Hl & Hh).
  assert (Hp : cache_inv (set_heap l (<[id := set_mask m 0]> (ml_heap l))) ((id, mask) :: held))
    by (apply install_private; auto).
  unfold ec_method_matrix_insert. cbn [ml_heap set_heap]. rewrite lookup_insert_eq.
  set (l1 := set_heap l (<[id := m]> (ml_heap l))).
  assert (Hms : masks (ml_heap l1) (ml_objects l1) = masks (ml_heap l) (ml_objects l)).
  { apply masks_ext. intros id0 H0. unfold mask_of. cbn. rewrite lookup_insert_ne by congruence. reflexivity. }
  pose proof (lookup_spec l1 mask (ci_count _ _ Hi)) as Hf. cbv zeta in Hf.
  rewrite Hms in Hf. specialize (Hf (ci_asc _ _ Hi)). rewrite Hmm.
  destruct (ec_method_matrix_lookup l1 mask) as [[] pos];
    [exfalso; eapply Habs, list_elem_of_lookup_2; exact Hf|].
  cbn [snd]. pose proof Hf as (Hpos & _ & _).
  assert (Hml : length (masks (ml_heap l) (ml_objects l)) = length (ml_objects l)) by (apply length_map).
  set (objs := take pos (ml_objects l1) ++ id :: drop pos (ml_objects l1)).
  assert (Hin : forall id0, id0 ∈ objs <-> id0 = id \/ id0 ∈ ml_objects l).
  { intros id0. unfold objs. rewrite <- (take_drop pos (ml_objects l)) at 1.
    rewrite !elem_of_app, elem_of_cons. cbn. tauto. }
  assert (Hlk : forall id0 m0, <[id := m]> (ml_heap l) !! id0 = Some m0 ->
    (id0 = id /\ m0 = m) \/ (id0 <> id /\ <[id := set_mask m 0]> (ml_heap l) !! id0 = Some m0)).
  { intros id0 m0 H0. destruct (decide (id0 = id)) as [->|Hne].
    - rewrite lookup_insert_eq in H0. left. split; congruence.
    - right. rewrite lookup_insert_ne in H0 |- * by auto. auto. }
  assert (Hup : forall id0 m0, <[id := set_mask m 0]> (ml_heap l) !! id0 = Some m0 ->
    exists m1, <[id := m]> (ml_heap l) !! id0 = Some m1 /\ mx_refs m1 = mx_refs m0 /\
      forall rows, decodes regs k m0 rows -> decodes regs k m1 rows).
  { intros id0 m0 H0. destruct (decide (id0 = id)) as [->|Hne].
    - rewrite lookup_insert_eq in H0. injection H0 as <-. exists m. rewrite lookup_insert_eq. auto.
    - rewrite lookup_insert_ne in H0 by auto. exists m0. rewrite lookup_insert_ne by auto. auto. }
  pose proof (ci_max _ _ Hi) as Hmax. pose proof (ci_count _ _ Hi) as Hc.
  split; cbn [ml_columns ml_code ml_max ml_count ml_objects ml_heap ml_lru set_heap set_objects l1].
  - apply Hi. - apply Hi. - apply Hi.
  - unfold u32_incr, objs. rewrite Z.mod_small by lia. rewrite length_app. cbn [length].
    rewrite length_take, length_drop. cbn. lia.
  - unfold u32_incr. rewrite Z.mod_small by lia. lia.
  - unfold objs. rewrite NoDup_app, NoDup_cons. pose proof (ci_objs _ _ Hi) as Hnd. cbn [ml_objects l1 set_heap].
    rewrite <- (take_drop pos (ml_objects l)) in Hnd, Ho. apply NoDup_app in Hnd as (Hn1 & Hn2 & Hn3).
    rewrite elem_of_app in Ho. split; [auto|]. split; [|split; [tauto | auto]].
    intros x Hx [->|Hx']%elem_of_cons; [tauto | exact (Hn2 x Hx Hx')].
  - unfold objs, masks. rewrite map_app. cbn [map]. unfold mask_of at 2. rewrite lookup_insert_eq, Hmm.
    cbn [ml_objects l1 set_heap]. rewrite <- firstn_map, <- skipn_map.
    change (map (mask_of (<[id := m]> (ml_heap l))) (ml_objects l)) with (masks (ml_heap l1) (ml_objects l1)).
    rewrite Hms. apply ascending_insert; [apply Hi | exact Hf].
  - intros id0 [->|H0]%Hin; [exists m; rewrite lookup_insert_eq, Hmm; auto|].
    rewrite lookup_insert_ne by congruence. apply (ci_obj _ _ Hi id0 H0).
  - intros id0 m0 [[-> ->]|[Hne H0]]%Hlk Hno; [exfalso; apply Hno, Hin; auto|].
    apply (ci_free _ _ Hp id0 m0 H0). cbn. rewrite Hin in Hno. tauto.
  - intros id0 m0 [[-> ->]|[Hne H0]]%Hlk; [apply Hd | apply (ci_vals _ _ Hp id0 m0 H0)].
  - apply Hi.
  - intros id0. rewrite (ci_lru _ _ Hp). cbn [ml_heap set_heap]. split.
    + intros (m0 & (m1 & H1 & Hr1 & _)%Hup & Hz). exists m1. split; [auto | lia].
    + intros (m0 & [[-> ->]|[Hne H0]]%Hlk & Hz); [lia | eauto].
  - intros id0 m0 [[-> ->]|[Hne H0]]%Hlk; [|apply (ci_refs _ _ Hp id0 m0 H0)].
    rewrite held_count_cons, decide_True, held_count_absent by auto. exact Hr.
  - intros id0 mask0 H0. destruct (ci_held _ _ Hp id0 mask0 H0) as (m0 & (m1 & H1 & _ & Hd1)%Hup & Hd0). eauto.
  - apply Hp.
Qed.

(** ** Recycling an unused matrix *)

(** The list without matrix [id], which nobody refers to. *)
Definition without (l : ec_matrix_list) (id : nat) (objs : list nat) : ec_matrix_list :=
  set_heap (set_objects (set_lru l (list_del id (ml_lru l))) (Z.of_nat (length objs)) objs)
    (delete id (ml_heap l)).

Lemma without_inv l held id objs :
  cache_inv l held -> id ∈ ml_lru l -> NoDup objs -> ascending (masks (ml_heap l) objs) ->
  (forall id0, id0 ∈ objs <-> id0 ∈ ml_objects l /\ id0 <> id) -> (length objs <= length (ml_objects l))%nat ->
  cache_inv (without l id objs) held.
Proof.
  intros Hi Hlru Hnd Hasc Hin Hlen.
  apply (ci_lru _ _ Hi) in Hlru as (m & Hm & Hz).
  assert (Hh : forall mask, (id, mask) ∉ held).
  { apply held_count_zero. pose proof (ci_refs _ _ Hi id m Hm). lia. }
  assert (Hlk : forall id0 m0, delete id (ml_heap l) !! id0 = Some m0 ->
    id0 <> id /\ ml_heap l !! id0 = Some m0) by (intros id0 m0 [??]%lookup_delete_Some; auto).
  assert (Hother : forall id0, id0 <> id -> delete id (ml_heap l) !! id0 = ml_heap l !! id0)
    by (intros; apply lookup_delete_ne; auto).
  pose proof (ci_count _ _ Hi) as Hc. pose proof (ci_le _ _ Hi) as Hle.
  split; cbn [ml_columns ml_code ml_max ml_count ml_objects ml_heap ml_lru set_heap set_objects set_lru without].
  - apply Hi. - apply Hi. - apply Hi. - reflexivity. - lia. - exact Hnd.
  - rewrite (masks_ext (ml_heap l)); [exact Hasc|]. intros id0 [_ Hne]%Hin. unfold mask_of.
    rewrite Hother by auto. reflexivity.
  - intros id0 [H0 Hne]%Hin. rewrite Hother by auto. apply (ci_obj _ _ Hi id0 H0).
  - intros id0 m0 [Hne H0]%Hlk Hno. apply (ci_free _ _ Hi id0 m0 H0). rewrite Hin in Hno. tauto.
  - intros id0 m0 [Hne H0]%Hlk. apply (ci_vals _ _ Hi id0 m0 H0).
  - apply list_del_nodup, Hi.
  - intros id0. rewrite list_del_spec, (ci_lru _ _ Hi). split.
    + intros [(m0 & H0 & Hz0) Hne]. exists m0. rewrite Hother by auto. auto.
    + intros (m0 & [Hne H0]%Hlk & Hz0). eauto.
  - intros id0 m0 [Hne H0]%Hlk. apply (ci_refs _ _ Hi id0 m0 H0).
  - intros id0 mask0 H0. rewrite Hother by (intros ->; exact (Hh mask0 H0)).
    apply (ci_held _ _ Hi id0 mask0 H0).
  - apply Hi.
Qed.

(** [ec_method_matrix_remove] takes the recycled matrix off the objects, if it
    was there. *)
Lemma masks_without heap id objs objs' mask :
  (forall id0, id0 ∈ objs' -> id0 ∈ objs /\ id0 <> id) ->
  mask ∈ masks (delete id heap) objs' -> mask ∈ masks heap objs.
Proof.
  intros Hin [id0 [-> H0]]%list_elem_of_fmap. destruct (Hin id0 H0) as [Ho Hne].
  apply list_elem_of_fmap. exists id0. split; [|exact Ho]. unfold mask_of.
  rewrite lookup_delete_ne by auto. reflexivity.
Qed.

(** An object is where its mask is found. *)
Lemma object_position l held id m pos :
  cache_inv l held -> ml_heap l !! id = Some m ->
  masks (ml_heap l) (ml_objects l) !! pos = Some (mx_mask m) -> ml_objects l !! pos = Some id.
Proof.
  intros Hi Hm Hf. destruct (mask_in_objects l held pos (mx_mask m) Hi Hf) as (id' & m' & Hpos & Hm' & Hmm & Hv & _).
  assert (Hobj : id ∈ ml_objects l).
  { destruct (decide (id ∈ ml_objects l)) as [|Hno]; [auto|].
    rewrite (ci_free _ _ Hi id m Hm Hno) in Hv. contradiction. }
  apply list_elem_of_lookup in Hobj as [pos' Hpos'].
  assert (Hp' : masks (ml_heap l) (ml_objects l) !! pos' = Some (mx_mask m)).
  { unfold masks. change (map (mask_of (ml_heap l)) (ml_objects l)) with (mask_of (ml_heap l) <$> ml_objects l).
    rewrite list_lookup_fmap, Hpos'. cbn. unfold mask_of. rewrite Hm. reflexivity. }
  destruct (Nat.lt_trichotomy pos pos') as [Hlt|[->|Hlt]]; [|congruence|].
  - pose proof (ci_asc _ _ Hi _ _ _ _ Hlt Hf Hp'). lia.
  - pose proof (ci_asc _ _ Hi _ _ _ _ Hlt Hp' Hf). lia.
Qed.

Lemma remove_victim l held id m :
  cache_inv l held -> id ∈ ml_lru l -> ml_heap l !! id = Some m ->
  exists objs, ec_method_matrix_remove (set_lru l (list_del id (ml_lru l))) (mx_mask m) =
      set_objects (set_lru l (list_del id (ml_lru l))) (Z.of_nat (length objs)) objs /\
    cache_inv (without l id objs) held /\
    (forall mask, mask ∈ masks (delete id (ml_heap l)) objs -> mask ∈ masks (ml_heap l) (ml_objects l)).
Proof.
  intros Hi Hlru Hm. set (l1 := set_lru l (list_del id (ml_lru l))).
  pose proof (lookup_spec l1 (mx_mask m) (ci_count _ _ Hi) (ci_asc _ _ Hi)) as Hf. cbv zeta in Hf.
  unfold ec_method_matrix_remove. destruct (ec_method_matrix_lookup l1 (mx_mask m)) as [[] pos].
  - pose proof (object_position l held id m pos Hi Hm Hf) as Hpos. set (objs := delete pos (ml_objects l)).
    assert (Hlen : length objs = (length (ml_objects l) - 1)%nat) by (apply length_delete; eauto).
    pose proof (lookup_lt_Some _ _ _ Hpos) as Hlt. pose proof (ci_count _ _ Hi) as Hc.
    pose proof (ci_le _ _ Hi) as Hle. pose proof (ci_max _ _ Hi) as Hmx.
    assert (Hperm : ml_objects l ≡ₚ id :: objs) by (apply delete_Permutation; auto).
    pose proof (ci_objs _ _ Hi) as Hnd. rewrite Hperm in Hnd. apply NoDup_cons in Hnd as [Hno Hnd].
    assert (Hin : forall id0, id0 ∈ objs <-> id0 ∈ ml_objects l /\ id0 <> id).
    { intros id0. rewrite (elem_of_Permutation_proper id0 _ _ Hperm), elem_of_cons.
      split; [intros H0; split; [auto | intros ->; auto] | tauto]. }
    exists objs. split; [|split].
    + cbn. f_equal. unfold u32_decr. rewrite Z.mod_small; lia.
    + apply without_inv; auto; [|lia]. unfold objs, masks.
      change (map (mask_of (ml_heap l)) (delete pos (ml_objects l)))
        with (mask_of (ml_heap l) <$> delete pos (ml_objects l)).
      rewrite list_fmap_delete. apply ascending_delete. apply Hi.
    + intros mask. apply masks_without. intros id0. apply Hin.
  - assert (Hno : id ∉ ml_objects l).
    { intros Hobj. destruct Hf as (_ & Hlow & Hhigh). apply list_elem_of_lookup in Hobj as [x Hx].
      assert (Hmx : masks (ml_heap l) (ml_objects l) !! x = Some (mx_mask m)).
      { unfold masks. change (map (mask_of (ml_heap l)) (ml_objects l)) with (mask_of (ml_heap l) <$> ml_objects l).
        rewrite list_lookup_fmap, Hx. cbn. unfold mask_of. rewrite Hm. reflexivity. }
      destruct (decide (x < pos)%nat).
      - specialize (Hlow x _ Hmx ltac:(auto)). lia.
      - specialize (Hhigh x _ Hmx ltac:(lia)). lia. }
    assert (Hin : forall id0, id0 ∈ ml_objects l <-> id0 ∈ ml_objects l /\ id0 <> id)
      by (intros; split; [intros; split; [auto | congruence] | tauto]).
    exists (ml_objects l). split; [|split].
    + unfold l1. cbn. rewrite <- (ci_count _ _ Hi). destruct l; reflexivity.
    + apply without_inv; auto; apply Hi.
    + intros mask. apply masks_without. intros id0. apply Hin.
Qed.

(** What the operations leave alone. *)
Definition same_setup (l l' : ec_matrix_list) : Prop :=
  ml_columns l' = ml_columns l /\ ml_rows l' = ml_rows l /\ ml_max l' = ml_max l /\
  ml_stripe l' = ml_stripe l /\ ml_encode l' = ml_encode l.

(** Initialising matrix [id] in a list it is not part of, as the end of
    [ec_method_matrix_get] does. *)
Lemma get_install l held id values mask l1 r :
  cache_inv (set_heap l (delete id (ml_heap l))) held -> Z.of_nat (length held) + 1 < 2 ^ 32 ->
  valid mask -> length values = (k * k)%nat ->
  (mask ∉ masks (delete id (ml_heap l)) (ml_objects l)) ->
  (let '(code, m) := ec_method_matrix_init compiles l values mask (rows_of mask) true in
   let l := set_code l code in
   if ml_count l <? ml_max l then
     let l := set_heap l (<[id := m]> (ml_heap l)) in
     (ec_method_matrix_insert l id, Some id)
   else (set_heap l (<[id := set_mask m 0]> (ml_heap l)), Some id)) = (l1, r) ->
  r = Some id /\ cache_inv l1 ((id, mask) :: held) /\ same_setup l l1.
Proof.
  intros Hi Hb Hv Hvals Habs He. pose proof (ci_cols _ _ Hi) as Hcols. pose proof (ci_gf _ _ Hi) as Hgf.
  cbn in Hcols, Hgf.
  destruct (ec_method_matrix_init compiles l values mask (rows_of mask) true) as [code m] eqn:Ei.
  destruct (init_decodes compiles regs Hregs k Hk Hk32 l values mask (rows_of mask) code m Hcols Hgf Hvals
    (Hrows mask Hv) Ei) as (Hgf' & Hr & Hmm & Hd).
  set (l0 := set_code (set_heap l (delete id (ml_heap l))) code).
  assert (Hi0 : cache_inv l0 held) by (destruct Hi; split; auto).
  assert (Hn : ml_heap l0 !! id = None) by apply lookup_delete_eq.
  cbn [ml_count ml_max ml_heap set_code] in He. destruct (Z.ltb_spec (ml_count l) (ml_max l)) as [Hlt|Hge].
  - injection He as <- <-. split; [reflexivity|].
    pose proof (install_object l0 held id m mask Hi0 Hn Hb Hr Hmm Hv Hd Hlt Habs) as Hres.
    replace (set_heap l0 (<[id := m]> (ml_heap l0))) with
      (set_heap (set_code l code) (<[id := m]> (ml_heap l))) in Hres
      by (unfold l0; cbn; rewrite insert_delete_eq; reflexivity).
    split; [exact Hres|]. unfold ec_method_matrix_insert. cbn. rewrite lookup_insert_eq.
    repeat split; reflexivity.
  - injection He as <- <-. split; [reflexivity|].
    pose proof (install_private l0 held id (set_mask m 0) mask Hi0 Hn Hb Hr eq_refl Hd) as Hres.
    replace (set_heap l0 (<[id := set_mask m 0]> (ml_heap l0))) with
      (set_heap (set_code l code) (<[id := set_mask m 0]> (ml_heap l))) in Hres
      by (unfold l0; cbn; rewrite insert_delete_eq; reflexivity).
    split; [exact Hres | repeat split; reflexivity].
Qed.

(** ** [ec_method_matrix_get] and [ec_method_matrix_put] *)

Lemma get_inv l held mask fresh l1 r :
  cache_inv l held -> valid mask -> Z.of_nat (length held) + 1 < 2 ^ 32 ->
  (forall id, fresh = Some id -> ml_heap l !! id = None) ->
  ec_method_matrix_get compiles l mask (rows_of mask) fresh = (l1, r) ->
  match r with
  | Some id => cache_inv l1 ((id, mask) :: held) /\ same_setup l l1
  | None => l1 = l /\ fresh = None
  end.
Proof.
  intros Hi Hv Hb Hfresh He. unfold ec_method_matrix_get in He.
  pose proof (lookup_spec l mask (ci_count _ _ Hi) (ci_asc _ _ Hi)) as Hf. cbv zeta in Hf.
  destruct (ec_method_matrix_lookup l mask) as [[] pos].
  { destruct (mask_in_objects l held pos mask Hi Hf) as (id & m & Hpos & Hm & Hmm & _ & Hd).
    rewrite Hpos, Hm in He. injection He as <- <-.
    split; [apply get_hit; auto | repeat split; reflexivity]. }
  assert (Habs : mask ∉ masks (ml_heap l) (ml_objects l)).
  { intros [x Hx]%list_elem_of_lookup. destruct Hf as (_ & Hlow & Hhigh). destruct (decide (x < pos)%nat).
    - specialize (Hlow x _ Hx ltac:(auto)). lia.
    - specialize (Hhigh x _ Hx ltac:(lia)). lia. }
  assert (Hnew : forall id, fresh = Some id ->
    cache_inv (set_heap l (delete id (ml_heap l))) held /\
    (mask ∉ masks (delete id (ml_heap l)) (ml_objects l))).
  { intros id E. pose proof (Hfresh id E) as Hn. rewrite delete_id by exact Hn.
    split; [destruct l; exact Hi | exact Habs]. }
  unfold get_victim in He. destruct (ml_max l <=? ml_count l), (ml_lru l) as [|id lru] eqn:El.
  2: { assert (Hlru : id ∈ ml_lru l) by (rewrite El; apply elem_of_cons; auto). rewrite <- El in He.
       pose proof (proj1 (ci_lru _ _ Hi id) Hlru) as (m & Hm & _).
       change (ml_heap (set_lru l (list_del id (ml_lru l)))) with (ml_heap l) in He. rewrite Hm in He.
       destruct (remove_victim l held id m Hi Hlru Hm) as (objs & Hrm & Hinv & Hsub). rewrite Hrm in He.
       set (l2 := set_heap (set_objects (set_lru l (list_del id (ml_lru l))) (Z.of_nat (length objs)) objs)
         (<[id := ec_method_matrix_release m]> (ml_heap l))).
       destruct (get_install l2 held id (mx_values m) mask l1 r) as (-> & Hres & Hs); auto.
       - unfold l2. cbn. rewrite delete_insert_eq. exact Hinv.
       - apply (ci_vals _ _ Hi id m Hm).
       - unfold l2. cbn. rewrite delete_insert_eq. intros H. apply Habs, Hsub, H. }
  all: destruct fresh as [id'|]; [|injection He as <- <-; auto].
  all: destruct (Hnew id' eq_refl) as [Hinv Hno].
  all: destruct (get_install l held id' (replicate (ml_columns l * ml_columns l) 0) mask l1 r)
    as (-> & Hres & Hs); auto; rewrite (ci_cols _ _ Hi); apply length_replicate.
Qed.

Lemma put_inv l held1 id mask held2 :
  cache_inv l (held1 ++ (id, mask) :: held2) ->
  cache_inv (ec_method_matrix_put l id) (held1 ++ held2) /\ same_setup l (ec_method_matrix_put l id).
Proof.
  intros Hi. set (held := held1 ++ (id, mask) :: held2) in *.
  assert (Hcnt : forall id0, held_count held id0 =
    (if decide (id = id0) then S (held_count (held1 ++ held2) id0) else held_count (held1 ++ held2) id0)).
  { intros id0. unfold held_count, held. rewrite !filter_app, filter_cons, !length_app. cbn.
    destruct (decide (id = id0)); cbn; lia. }
  destruct (ci_held _ _ Hi id mask) as (m & Hm & Hd0); [apply elem_of_app; right; apply elem_of_cons; auto|].
  pose proof (ci_refs _ _ Hi id m Hm) as Hr. rewrite Hcnt, decide_True in Hr by auto.
  pose proof (ci_bound _ _ Hi) as Hb. pose proof (held_count_le (held1 ++ held2) id) as Hle.
  assert (Hlen : length held = S (length (held1 ++ held2))) by (unfold held; rewrite !length_app; cbn; lia).
  assert (Hdec : u32_decr (mx_refs m) = Z.of_nat (held_count (held1 ++ held2) id)).
  { unfold u32_decr. rewrite Z.mod_small; lia. }
  set (m' := mk_matrix (Z.of_nat (held_count (held1 ++ held2) id)) (mx_columns m) (mx_rows m) (mx_mask m)
    (mx_values m) (mx_func m)).
  set (lru := if Z.of_nat (held_count (held1 ++ held2) id) =? 0 then ml_lru l ++ [id] else ml_lru l).
  assert (Hput : ec_method_matrix_put l id = set_lru (set_heap l (<[id := m']> (ml_heap l))) lru).
  { unfold ec_method_matrix_put, ec_method_matrix_unref, lru. rewrite Hm, Hdec. fold m'.
    pose proof (ci_le _ _ Hi). destruct (_ =? 0); [|destruct l; reflexivity].
    cbn [ml_max ml_count set_lru set_heap]. destruct (Z.ltb_spec (ml_max l) (ml_count l)); [lia | reflexivity]. }
  rewrite Hput. split; [|repeat split; reflexivity].
  assert (Hnl : id ∉ ml_lru l) by (intros (m0 & Hm0 & Hz)%(ci_lru _ _ Hi); rewrite Hm in Hm0; injection Hm0 as <-; lia).
  assert (Hlk : forall id0 m0, <[id := m']> (ml_heap l) !! id0 = Some m0 ->
    (id0 = id /\ m0 = m') \/ (id0 <> id /\ ml_heap l !! id0 = Some m0)).
  { intros id0 m0 H0. destruct (decide (id0 = id)) as [->|Hne].
    - rewrite lookup_insert_eq in H0. left. split; congruence.
    - rewrite lookup_insert_ne in H0 by auto. auto. }
  assert (Hup : forall id0 m0, ml_heap l !! id0 = Some m0 -> exists m1, <[id := m']> (ml_heap l) !! id0 = Some m1 /\
    mx_mask m1 = mx_mask m0 /\ forall rows, decodes regs k m0 rows -> decodes regs k m1 rows).
  { intros id0 m0 H0. destruct (decide (id0 = id)) as [->|Hne].
    - rewrite Hm in H0. injection H0 as <-. exists m'. rewrite lookup_insert_eq. auto.
    - exists m0. rewrite lookup_insert_ne by auto. auto. }
  split; cbn [ml_columns ml_code ml_max ml_count ml_objects ml_heap ml_lru set_heap set_lru].
  - apply Hi. - apply Hi. - apply Hi. - apply Hi. - apply Hi. - apply Hi.
  - rewrite (masks_ext (ml_heap l)); [apply Hi|]. intros id0 _. unfold mask_of.
    destruct (decide (id0 = id)) as [->|]; [rewrite lookup_insert_eq, Hm; reflexivity|].
    rewrite lookup_insert_ne by auto. reflexivity.
  - intros id0 H0. destruct (ci_obj _ _ Hi id0 H0) as (m0 & (m1 & H1 & Hmm & Hd1)%Hup & Hv & Hd).
    exists m1. rewrite Hmm. auto.
  - intros id0 m0 [[-> ->]|[_ H0]]%Hlk Hno; [apply (ci_free _ _ Hi id m); auto | eapply ci_free; eauto].
  - intros id0 m0 [[-> ->]|[_ H0]]%Hlk; [apply (ci_vals _ _ Hi id m); auto | eapply ci_vals; eauto].
  - unfold lru. destruct (_ =? 0); [|apply Hi]. apply NoDup_app. split; [apply Hi|].
    split; [intros x Hx ->%list_elem_of_singleton; contradiction | apply NoDup_singleton].
  - intros id0. assert (Hl : id0 ∈ lru <-> id0 ∈ ml_lru l \/
      (id0 = id /\ Z.of_nat (held_count (held1 ++ held2) id) = 0)).
    { unfold lru. destruct (Z.eqb_spec (Z.of_nat (held_count (held1 ++ held2) id)) 0) as [E|E];
        rewrite ?elem_of_app, ?list_elem_of_singleton; tauto. }
    rewrite Hl, (ci_lru _ _ Hi). split.
    + intros [(m0 & H0 & Hz)|[-> Hz]].
      * exists m0. rewrite lookup_insert_ne; [auto|]. intros <-. rewrite Hm in H0. injection H0 as <-. lia.
      * exists m'. rewrite lookup_insert_eq. auto.
    + intros (m0 & [[-> ->]|[Hne H0]]%Hlk & Hz); [right; auto | left; eauto].
  - intros id0 m0 [[-> ->]|[Hne H0]]%Hlk; [reflexivity|].
    rewrite (ci_refs _ _ Hi id0 m0 H0), Hcnt, decide_False by auto. reflexivity.
  - intros id0 mask0 H0. destruct (ci_held _ _ Hi id0 mask0) as (m0 & (m1 & H1 & _ & Hd1)%Hup & Hd).
    { unfold held. apply elem_of_app in H0 as [|]; apply elem_of_app; [auto|].
      right. apply elem_of_cons. auto. }
    eauto.
  - lia.
Qed.

(** ** Reachable lists *)

(** Users take and return references in any order. *)
Inductive cache_step : ec_matrix_list * list (nat * Z) -> ec_matrix_list * list (nat * Z) -> Prop :=
  | step_get l held mask fresh l' id :
      valid mask -> Z.of_nat (length held) + 1 < 2 ^ 32 ->
      (forall i, fresh = Some i -> ml_heap l !! i = None) ->
      ec_method_matrix_get compiles l mask (rows_of mask) fresh = (l', Some id) ->
      cache_step (l, held) (l', (id, mask) :: held)
  | step_get_fail l held mask fresh l' :
      valid mask -> Z.of_nat (length held) + 1 < 2 ^ 32 ->
      (forall i, fresh = Some i -> ml_heap l !! i = None) ->
      ec_method_matrix_get compiles l mask (rows_of mask) fresh = (l', None) ->
      cache_step (l, held) (l', held)
  | step_put l held1 id mask held2 :
      cache_step (l, held1 ++ (id, mask) :: held2) (ec_method_matrix_put l id, held1 ++ held2).

Lemma same_setup_trans l1 l2 l3 : same_setup l1 l2 -> same_setup l2 l3 -> same_setup l1 l3.
Proof. intros (?&?&?&?&?) (?&?&?&?&?). repeat split; congruence. Qed.

Lemma cache_step_inv s s' :
  cache_step s s' -> cache_inv s.1 s.2 -> cache_inv s'.1 s'.2 /\ same_setup s.1 s'.1.
Proof.
  intros [l held mask fresh l' id Hv Hb Hf He|l held mask fresh l' Hv Hb Hf He|l held1 id mask held2] Hi;
    cbn in *.
  - exact (get_inv l held mask fresh l' (Some id) Hi Hv Hb Hf He).
  - destruct (get_inv l held mask fresh l' None Hi Hv Hb Hf He) as [-> _]. split; [auto | repeat split].
  - apply put_inv with mask; auto.
Qed.

Lemma cache_reach_inv s s' :
  rtc cache_step s s' -> cache_inv s.1 s.2 -> cache_inv s'.1 s'.2 /\ same_setup s.1 s'.1.
Proof.
  induction 1 as [s|s1 s2 s3 Hs _ IH]; intros Hi; [split; [auto | repeat split]|].
  destruct (cache_step_inv s1 s2 Hs Hi) as [Hi2 Hs12]. destruct (IH Hi2) as [Hi3 Hs23].
  split; [auto | eapply same_setup_trans; eauto].
Qed.

Lemma init_unfold n max gen :
  ec_method_init compiles k n max gen =
  let l := mk_list [] k n max 0 (EC_METHOD_CHUNK_SIZE * k) (mk_code gf8 gen)
             (mk_matrix 0 0 0 0 [] []) [] empty in
  let '(code, m) := ec_method_matrix_init compiles l [] 0 (map (fun i => Z.of_nat i + 1) (seq 0 n)) false in
  Some (mk_list [] k n max 0 (EC_METHOD_CHUNK_SIZE * k) code m [] empty).
Proof. unfold ec_method_init. rewrite gf8_prepare. reflexivity. Qed.

Lemma init_inv n max gen l :
  0 <= max < 2 ^ 32 -> (n <= 255)%nat ->
  ec_method_init compiles k n max gen = Some l ->
  cache_inv l [] /\ encodes regs k (ml_encode l) n /\ ml_columns l = k /\
  ml_stripe l = (EC_METHOD_CHUNK_SIZE * k)%nat /\ ml_max l = max.
Proof.
  intros Hmax Hn He. rewrite init_unfold in He. cbv zeta in He.
  set (l0 := mk_list _ _ _ _ _ _ _ _ _ _) in He.
  destruct (ec_method_matrix_init compiles l0 _ _ _ _) as [code m] eqn:Ei.
  destruct (init_encodes compiles regs Hregs k Hk Hk32 l0 _ n _ _ eq_refl eq_refl eq_refl Hn Ei) as [Hgf Henc].
  injection He as <-. split; [|split; [exact Henc | repeat split; reflexivity]].
  assert (Hempty : forall id m0, (∅ : gmap nat ec_matrix) !! id = Some m0 -> False)
    by (intros id m0 H0; rewrite lookup_empty in H0; discriminate).
  split; cbn [ml_columns ml_code ml_max ml_count ml_objects ml_heap ml_lru].
  - reflexivity. - exact Hgf. - exact Hmax. - reflexivity. - lia. - apply NoDup_nil_2.
  - intros i j x y _ Hx. discriminate.
  - intros id []%elem_of_nil.
  - intros id m0 []%Hempty.
  - intros id m0 []%Hempty.
  - apply NoDup_nil_2.
  - intros id. split; [intros []%elem_of_nil | intros (m0 & []%Hempty & _)].
  - intros id m0 []%Hempty.
  - intros id mask []%elem_of_nil.
  - cbn. lia.
Qed.
End cache.
