(* ===== verification/EcRead.v ===== *)
(** * Geometry, alignment and reads of the disperse translator

    Models [ec_parse_options] and the node limit of [ec_prepare_childs]
    ([xlators/cluster/ec/src/ec.c]), the alignment helpers of [ec-helpers.h],
    the start of [ec_manager_readv] and [ec_readv_rebuild]
    ([ec-inode-read.c]).  Integers are kept at their width: uint64_t and size_t
    modulo 2^64, off_t in two's complement. *)

From S2P Require Import Prelude Words EcCodeC EcMethod.
Open Scope Z_scope.

Definition wrap_u64 (x : Z) : Z := x mod 2 ^ 64.

(** ** Geometry *)

Definition EC_MAX_FRAGMENTS : Z := 16.
Definition EC_METHOD_MAX_NODES : Z := 255.
Definition EC_MAX_NODES : Z := Z.min (EC_MAX_FRAGMENTS * 2 - 1) EC_METHOD_MAX_NODES.

Record ec_t := mk_ec {
  ec_nodes : Z;
  ec_fragments : Z;
  ec_redundancy : Z;
  ec_bits_for_nodes : Z;
  ec_node_mask : Z;
  ec_fragment_size : Z;
  ec_stripe_size : Z
}.

(** [while (ec->nodes > mask)]; nodes are at most 31, so 5 iterations are
    enough. *)
Fixpoint bits_loop (fuel : nat) (nodes bits mask : Z) : Z :=
  match fuel with
  | O => bits
  | S fuel' => if mask <? nodes then bits_loop fuel' nodes (bits + 1) (Z.shiftl mask 1) else bits
  end.

(** [ec_parse_options] for [nodes] children; [None] is EINVAL. *)
Definition ec_parse_options (nodes redundancy : Z) : option ec_t :=
  let fragments := nodes - redundancy in
  if (redundancy <? 1) || (fragments <=? redundancy) || (EC_MAX_FRAGMENTS <? fragments) then None
  else
    Some (mk_ec nodes fragments redundancy (bits_loop 5 nodes 1 2) (Z.shiftl 1 nodes - 1)
            (Z.of_nat EC_METHOD_CHUNK_SIZE) (Z.of_nat EC_METHOD_CHUNK_SIZE * fragments)).

(** [ec_prepare_childs] followed by [ec_parse_options]. *)
Definition ec_geometry (children redundancy : Z) : option ec_t :=
  if EC_MAX_NODES <? children then None else ec_parse_options children redundancy.

(** ** Alignment *)

(** The returned head and the new value. *)
Definition ec_adjust_size_down (ec : ec_t) (value : Z) (scale : bool) : Z * Z :=
  let head := value mod ec_stripe_size ec in
  let tmp := value - head in
  (head, if scale then tmp / ec_fragments ec else tmp).

Definition ec_adjust_size_up (ec : ec_t) (value : Z) (scale : bool) : Z * Z :=
  let '(tail, tmp) := ec_adjust_size_down ec value scale in
  if negb (tail =? 0) then
    let tail := ec_stripe_size ec - tail in
    if scale then (tail, wrap_u64 (tmp + ec_fragment_size ec))
    else
      let tmp := wrap_u64 (tmp + ec_stripe_size ec) in
      if tmp <? ec_stripe_size ec then (- tail, 2 ^ 64 - 1) else (tail, tmp)
  else (tail, tmp).

(** The same on off_t, with C's division. *)
Definition ec_adjust_offset_down (ec : ec_t) (value : Z) (scale : bool) : Z * Z :=
  let head := Z.rem value (ec_stripe_size ec) in
  let tmp := value - head in
  (head, if scale then Z.quot tmp (ec_fragments ec) else tmp).

Definition GF_OFF_MAX : Z := 2 ^ 63 - 1.

Definition ec_adjust_offset_up (ec : ec_t) (value : Z) (scale : bool) : Z * Z :=
  let tmp := wrap_u64 value in
  let stripe := ec_stripe_size ec in
  let tail := wrap_u64 (stripe - (wrap_u64 (tmp + stripe - 1) mod stripe + 1)) in
  let tmp := wrap_u64 (tmp + tail) in
  if scale then (tail, wrap_s64 (tmp / ec_fragments ec))
  else if wrap_s64 tmp <? 0 then (- tail, GF_OFF_MAX) else (tail, wrap_s64 tmp).

(** ** Reads *)

(** The fields of a read set at EC_STATE_INIT of [ec_manager_readv]. *)
Record read_fop := mk_read {
  fop_user_size : Z;
  fop_head : Z;
  fop_offset : Z;
  fop_size : Z
}.

Definition ec_manager_readv_init (ec : ec_t) (offset size : Z) : read_fop :=
  let '(head, off) := ec_adjust_offset_down ec offset true in
  let '(_, size') := ec_adjust_size_up ec (wrap_u64 (size + head)) true in
  mk_read size head off size'.

(** The part of the decoded buffer [ec_readv_rebuild] returns: where it starts and
    how long it is, for answers of [op_ret] bytes, an int32_t, and a file of
    [ia_size]; then the [op_ret] it answers, again an int32_t. *)
Definition rebuild_window (ec : ec_t) (fop : read_fop) (op_ret ia_size : Z) : Z * Z * Z :=
  let size := wrap_u64 (op_ret * ec_fragments ec) in
  let iov_len := wrap_u64 (size - fop_head fop) in
  let max := wrap_u64 (fop_offset fop * ec_fragments ec + size) in
  let max := if ia_size <? max then ia_size else max in
  let max := wrap_u64 (max - (fop_offset fop * ec_fragments ec + fop_head fop)) in
  let max := if fop_user_size fop <? max then fop_user_size fop else max in
  let size := wrap_u64 (size - fop_head fop) in
  let iov_len := if max <? size then wrap_u64 (iov_len - (size - max)) else iov_len in
  (fop_head fop, iov_len, s32 (if max <? size then max else size)).

(** *** The rows and the blocks of the answers *)

(** Number of bits set. *)
Definition gf_bits_count (n : Z) : nat := length (filter (fun i => Z.testbit n i) (seqZ 0 64)).

(** The loop of [ec_readv_rebuild] over the combined answers, which fills
    [values] and [blocks]; an answer is the index of its node and its data (an
    answer in several or unaligned pieces is first copied to one buffer, which
    holds the same data). *)
Definition rebuild_arrays (mask : Z) (answers : list (nat * list Z))
    (st : list Z * list (list Z)) : list Z * list (list Z) :=
  foldl (fun '(values, blocks) '(idx, block) =>
    let pos := gf_bits_count (Z.land mask (Z.shiftl 1 (Z.of_nat idx) - 1)) in
    (<[pos := Z.of_nat idx + 1]> values, <[pos := block]> blocks)) st answers.

(** [ec_combine] of answers that agree: the mask of all of them. *)
Definition answers_mask (answers : list (nat * list Z)) : Z :=
  foldr (fun '(idx, _) m => Z.lor (Z.shiftl 1 (Z.of_nat idx)) m) 0 answers.
