(* ===== verification/EcReadFacts.v ===== *)
(** * Facts on geometry, alignment and reads

    Accepted geometries, the alignment helpers on every branch, the window of a
    read, and the independence of the decoding rows from the order in which
    the answers arrived. *)

From S2P Require Import Prelude Words EcGalois EcCodeC EcMethod EcMethodFacts EcRead.
Open Scope Z_scope.

(** ** Geometry *)

Lemma geometry_spec children redundancy ec :
  ec_geometry children redundancy = Some ec ->
  ec_nodes ec = children /\ ec_fragments ec = children - redundancy /\
  ec_redundancy ec = redundancy /\ 1 <= redundancy < ec_fragments ec /\
  2 <= ec_fragments ec <= 16 /\ ec_fragments ec < ec_nodes ec <= 31 /\
  ec_node_mask ec = 2 ^ children - 1 /\
  ec_fragment_size ec = 512 /\ ec_stripe_size ec = 512 * ec_fragments ec.
Proof.
  unfold ec_geometry, ec_parse_options. change EC_MAX_NODES with 31. change EC_MAX_FRAGMENTS with 16.
  destruct (Z.ltb_spec 31 children); [discriminate|].
  destruct (Z.ltb_spec redundancy 1); [discriminate|].
  destruct (Z.leb_spec (children - redundancy) redundancy); [discriminate|].
  destruct (Z.ltb_spec 16 (children - redundancy)); [discriminate|].
  cbn [orb]. intros [= <-].
  cbn [ec_nodes ec_fragments ec_redundancy ec_node_mask ec_fragment_size ec_stripe_size].
  rewrite Z.shiftl_1_l. change (Z.of_nat EC_METHOD_CHUNK_SIZE) with 512. repeat split; lia.
Qed.

Lemma bits_for_nodes_spec children redundancy ec :
  ec_geometry children redundancy = Some ec ->
  ec_nodes ec <= 2 ^ ec_bits_for_nodes ec /\ (3 <= children -> 2 ^ (ec_bits_for_nodes ec - 1) < ec_nodes ec).
Proof.
  intros He. destruct (geometry_spec _ _ _ He) as (Hn & _ & _ & Hr & Hf & Hfn & _).
  assert (Hb : 0 <= children < 32) by lia. clear Hn Hr Hf Hfn.
  unfold ec_geometry, ec_parse_options in He.
  destruct (EC_MAX_NODES <? children); [discriminate|].
  destruct (_ || _ || _); [discriminate|]. injection He as <-.
  cbn [ec_bits_for_nodes ec_nodes].
  assert (Hc : In children (map Z.of_nat (seq 0 32))).
  { apply in_map_iff. exists (Z.to_nat children). split; [lia|]. apply in_seq. lia. }
  assert (Hck : forallb (fun n => (n <=? 2 ^ bits_loop 5 n 1 2) &&
    ((n <? 3) || (2 ^ (bits_loop 5 n 1 2 - 1) <? n))) (map Z.of_nat (seq 0 32)) = true) by reflexivity.
  rewrite forallb_forall in Hck. specialize (Hck children Hc).
  rewrite andb_true_iff, orb_true_iff, Z.leb_le, !Z.ltb_lt in Hck.
  split; [apply Hck|]. intros H3. destruct Hck as [_ [Hck|Hck]]; [lia | exact Hck].
Qed.

(** ** Alignment *)

Section align.
Context (ec : ec_t) (Hf : 2 <= ec_fragments ec <= 16) (Hfs : ec_fragment_size ec = 512)
  (Hs : ec_stripe_size ec = 512 * ec_fragments ec).

Lemma adjust_size_down_spec value :
  0 <= value < 2 ^ 64 ->
  let q := value / ec_stripe_size ec in
  ec_adjust_size_down ec value true = (value mod ec_stripe_size ec, q * ec_fragment_size ec) /\
  ec_adjust_size_down ec value false = (value mod ec_stripe_size ec, q * ec_stripe_size ec).
Proof.
  intros Hv q. unfold ec_adjust_size_down. pose proof (Z.div_mod value (ec_stripe_size ec)) as Hd.
  replace (value - value mod ec_stripe_size ec) with (q * ec_stripe_size ec) by (unfold q; lia).
  split; f_equal. rewrite Hs, Hfs. replace (q * (512 * ec_fragments ec)) with (q * 512 * ec_fragments ec) by lia.
  apply Z.div_mul. lia.
Qed.

(** Number of stripes that cover [value] bytes. *)
Definition stripes (value : Z) : Z := (value + ec_stripe_size ec - 1) / ec_stripe_size ec.

Lemma stripes_spec value :
  0 <= value ->
  (value mod ec_stripe_size ec = 0 -> stripes value = value / ec_stripe_size ec) /\
  (value mod ec_stripe_size ec <> 0 -> stripes value = value / ec_stripe_size ec + 1).
Proof.
  intros Hv. unfold stripes. set (s := ec_stripe_size ec) in *. assert (0 < s) by lia.
  pose proof (Z.div_mod value s ltac:(lia)) as Hd. pose proof (Z.mod_pos_bound value s ltac:(lia)) as Hm.
  set (q := value / s) in *. set (m := value mod s) in *. split; intros Hz.
  - replace (value + s - 1) with (q * s + (s - 1)) by lia. rewrite Z.div_add_l, Z.div_small by lia. lia.
  - replace (value + s - 1) with ((q + 1) * s + (m - 1)) by lia. rewrite Z.div_add_l, Z.div_small by lia. lia.
Qed.

Lemma adjust_size_up_scaled value :
  0 <= value < 2 ^ 64 ->
  ec_adjust_size_up ec value true =
  (stripes value * ec_stripe_size ec - value, stripes value * ec_fragment_size ec).
Proof.
  intros Hv. destruct (adjust_size_down_spec value Hv) as [Hd _]. destruct (stripes_spec value) as [Hz Hnz]; [lia|].
  unfold ec_adjust_size_up. rewrite Hd.
  pose proof (Z.div_mod value (ec_stripe_size ec) ltac:(lia)) as He.
  pose proof (Z.mod_pos_bound value (ec_stripe_size ec) ltac:(lia)) as Hm.
  set (q := value / ec_stripe_size ec) in *. set (m := value mod ec_stripe_size ec) in *.
  destruct (Z.eqb_spec m 0) as [E|E]; cbn [negb].
  - rewrite Hz by auto. f_equal; lia.
  - rewrite Hnz by auto. unfold wrap_u64. rewrite Z.mod_small; [f_equal; lia|].
    assert (q * 512 <= value) by nia. assert (q <= value / 512) by (apply Z.div_le_lower_bound; nia).
    assert (0 <= q) by (apply Z.div_pos; lia). rewrite Hfs. nia.
Qed.

(** Without scaling the next multiple may not fit in 64 bits. *)
Lemma adjust_size_up_unscaled value :
  0 <= value < 2 ^ 64 ->
  ec_adjust_size_up ec value false =
  if stripes value * ec_stripe_size ec <? 2 ^ 64
  then (stripes value * ec_stripe_size ec - value, stripes value * ec_stripe_size ec)
  else (- (stripes value * ec_stripe_size ec - value), 2 ^ 64 - 1).
Proof.
  intros Hv. destruct (adjust_size_down_spec value Hv) as [_ Hd]. destruct (stripes_spec value) as [Hz Hnz]; [lia|].
  unfold ec_adjust_size_up. rewrite Hd.
  pose proof (Z.div_mod value (ec_stripe_size ec) ltac:(lia)) as He.
  pose proof (Z.mod_pos_bound value (ec_stripe_size ec) ltac:(lia)) as Hm.
  set (q := value / ec_stripe_size ec) in *. set (m := value mod ec_stripe_size ec) in *.
  set (s := ec_stripe_size ec) in *.
  destruct (Z.eqb_spec m 0) as [E|E]; cbn [negb].
  - rewrite Hz by auto. destruct (Z.ltb_spec (q * s) (2 ^ 64)); [f_equal; lia | lia].
  - rewrite Hnz by auto. unfold wrap_u64.
    assert (0 <= q) by (apply Z.div_pos; lia). assert (0 <= q * s) by (apply Z.mul_nonneg_nonneg; lia).
    destruct (Z.ltb_spec ((q + 1) * s) (2 ^ 64)).
    + rewrite Z.mod_small by lia. destruct (Z.ltb_spec (q * s + s) s); [lia | f_equal; lia].
    + replace (q * s + s) with ((q * s + s - 2 ^ 64) + 1 * 2 ^ 64) by lia.
      rewrite Z.mod_add, Z.mod_small by lia.
      destruct (Z.ltb_spec (q * s + s - 2 ^ 64) s); [f_equal; lia | lia].
Qed.

Lemma adjust_offset_down_spec value :
  0 <= value ->
  ec_adjust_offset_down ec value true =
  (value mod ec_stripe_size ec, value / ec_stripe_size ec * ec_fragment_size ec).
Proof.
  intros Hv. unfold ec_adjust_offset_down. rewrite Z.rem_mod_nonneg by lia.
  pose proof (Z.div_mod value (ec_stripe_size ec) ltac:(lia)) as Hd.
  set (q := value / ec_stripe_size ec) in *.
  replace (value - value mod ec_stripe_size ec) with (q * ec_stripe_size ec) by lia.
  assert (0 <= q) by (apply Z.div_pos; lia).
  rewrite Z.quot_div_nonneg by nia. f_equal. rewrite Hs, Hfs.
  replace (q * (512 * ec_fragments ec)) with (q * 512 * ec_fragments ec) by lia. apply Z.div_mul. lia.
Qed.

(** A next multiple that is not an off_t gives GF_OFF_MAX. *)
Lemma adjust_offset_up_spec value :
  0 <= value <= GF_OFF_MAX ->
  let up := stripes value * ec_stripe_size ec in
  ec_adjust_offset_up ec value true = (up - value, stripes value * ec_fragment_size ec) /\
  ec_adjust_offset_up ec value false =
    if up <=? GF_OFF_MAX then (up - value, up) else (- (up - value), GF_OFF_MAX).
Proof.
  unfold GF_OFF_MAX. intros Hv. set (up := stripes value * ec_stripe_size ec). unfold ec_adjust_offset_up, wrap_u64.
  rewrite (Z.mod_small value) by lia. set (s := ec_stripe_size ec) in *.
  rewrite (Z.mod_small (value + s - 1)) by lia.
  pose proof (Z.div_mod (value + s - 1) s ltac:(lia)) as Hd.
  pose proof (Z.mod_pos_bound (value + s - 1) s ltac:(lia)) as Hm.
  unfold stripes in up. fold s in up. set (q := (value + s - 1) / s) in *.
  set (m := (value + s - 1) mod s) in *.
  assert (Et : s - (m + 1) = up - value) by (unfold up; lia). rewrite Et.
  assert (Hup : 0 <= up - value < s) by lia. rewrite (Z.mod_small (up - value)) by lia.
  replace (value + (up - value)) with up by lia. rewrite (Z.mod_small up) by lia.
  assert (Eu : up / ec_fragments ec = q * 512).
  { unfold up. rewrite Hs. replace (q * (512 * ec_fragments ec)) with (q * 512 * ec_fragments ec) by lia.
    apply Z.div_mul. lia. }
  unfold stripes. fold s. fold q. split.
  - rewrite Eu, Hfs, wrap_s64_id; [reflexivity|]. assert (0 <= q) by (apply Z.div_pos; lia). unfold up in *. nia.
  - destruct (Z.leb_spec up (2 ^ 63 - 1)).
    + rewrite wrap_s64_id by lia. destruct (Z.ltb_spec up 0); [lia | reflexivity].
    + unfold wrap_s64. replace (up + 2 ^ 63) with ((up - 2 ^ 63) + 1 * 2 ^ 64) by lia.
      rewrite Z.mod_add, Z.mod_small by lia. destruct (Z.ltb_spec (up - 2 ^ 63 - 2 ^ 63) 0); [reflexivity | lia].
Qed.
End align.

(** ** The rows of a read *)

(** The nodes of a mask, in ascending order, and their rows. *)
Definition nodes_of (mask : Z) : list Z := filter (fun i => Z.testbit mask i) (seqZ 0 64).
Definition rows_of_mask (mask : Z) : list Z := map (fun i => i + 1) (nodes_of mask).

Lemma nodes_of_nodup mask : NoDup (nodes_of mask).
Proof. apply NoDup_filter, NoDup_seqZ. Qed.

Lemma nodes_of_elem mask i : i ∈ nodes_of mask <-> 0 <= i < 64 /\ Z.testbit mask i.
Proof. unfold nodes_of. rewrite list_elem_of_filter, elem_of_seqZ. intuition lia. Qed.

Lemma nodes_of_split mask idx :
  0 <= idx < 64 -> Z.testbit mask idx ->
  nodes_of mask = filter (fun i => Z.testbit mask i) (seqZ 0 idx) ++ idx ::
    filter (fun i => Z.testbit mask i) (seqZ (idx + 1) (63 - idx)).
Proof.
  intros Hi Hb. unfold nodes_of. replace 64 with (idx + (1 + (63 - idx))) by lia.
  rewrite seqZ_app, filter_app by lia. f_equal.
  rewrite Z.add_0_l, seqZ_app, filter_app by lia. rewrite seqZ_cons by lia. cbn [filter list_filter app].
  rewrite decide_True by exact Hb. reflexivity.
Qed.

(** The bits below [idx] are counted by masking them. *)
Lemma bits_count_below mask idx :
  0 <= idx < 64 ->
  gf_bits_count (Z.land mask (Z.shiftl 1 idx - 1)) =
  length (filter (fun i => Z.testbit mask i) (seqZ 0 idx)).
Proof.
  intros Hi. unfold gf_bits_count. replace 64 with (idx + (64 - idx)) by lia.
  rewrite seqZ_app, filter_app, length_app by lia.
  assert (Hbit : forall i, 0 <= i -> Z.testbit (Z.land mask (Z.shiftl 1 idx - 1)) i =
    Z.testbit mask i && (i <? idx)).
  { intros i H0. rewrite Z.land_spec, Z.shiftl_1_l.
    replace (2 ^ idx - 1) with (Z.ones idx) by (rewrite Z.ones_equiv; lia).
    rewrite Z.testbit_ones_nonneg by lia. reflexivity. }
  assert (Hn : filter (fun i => Z.testbit (Z.land mask (Z.shiftl 1 idx - 1)) i) (seqZ (0 + idx) (64 - idx)) = []).
  { apply elem_of_nil_inv. intros i [Ht Hs]%list_elem_of_filter. apply elem_of_seqZ in Hs.
    rewrite Hbit in Ht by lia. destruct (Z.ltb_spec i idx); [lia|].
    rewrite andb_false_r in Ht. exact Ht. }
  rewrite Hn, Nat.add_0_r. f_equal. apply filter_ext_elem. intros i Hs. apply elem_of_seqZ in Hs.
  rewrite Hbit by lia. destruct (Z.ltb_spec i idx); [|lia]. rewrite andb_true_r. tauto.
Qed.

(** The answer of node [idx] goes to the position of the node in the mask. *)
Definition answer_pos (mask : Z) (idx : nat) : nat :=
  gf_bits_count (Z.land mask (Z.shiftl 1 (Z.of_nat idx) - 1)).

Lemma answer_pos_lookup mask idx :
  Z.of_nat idx < 64 -> Z.testbit mask (Z.of_nat idx) ->
  nodes_of mask !! answer_pos mask idx = Some (Z.of_nat idx).
Proof.
  intros Hi Hb. unfold answer_pos. rewrite bits_count_below by lia.
  rewrite (nodes_of_split mask (Z.of_nat idx)) by (auto; lia).
  rewrite lookup_app_r, Nat.sub_diag by lia. reflexivity.
Qed.

Lemma answers_mask_testbit answers i :
  0 <= i -> Z.testbit (answers_mask answers) i <-> exists idx b, (idx, b) ∈ answers /\ Z.of_nat idx = i.
Proof.
  intros Hi. induction answers as [|[idx b] answers IH].
  - cbn. rewrite Z.testbit_0_l. split; [intros [] | intros (? & ? & []%elem_of_nil & _)].
  - cbn [answers_mask foldr]. fold (answers_mask answers). rewrite Z.lor_spec, Z.shiftl_1_l, orb_True, IH.
    rewrite Z.pow2_bits_eqb by lia. split.
    + intros [He|(idx' & b' & Hin & He)].
      * exists idx, b. split; [apply elem_of_cons; auto|]. apply Is_true_true, Z.eqb_eq in He. exact He.
      * exists idx', b'. split; [apply elem_of_cons; auto | exact He].
    + intros (idx' & b' & [He|Hin]%elem_of_cons & Hi').
      * injection He as -> ->. left. apply Is_true_true, Z.eqb_eq. exact Hi'.
      * right. eauto.
Qed.

Lemma answers_mask_nodes answers :
  Forall (fun a => (a.1 < 64)%nat) answers ->
  forall i, i ∈ nodes_of (answers_mask answers) <-> i ∈ map (fun a => Z.of_nat a.1) answers.
Proof.
  intros Hlt i. rewrite nodes_of_elem. split.
  - intros [Hi (idx & b & Hin & <-)%answers_mask_testbit]; [|lia].
    apply list_elem_of_fmap. exists (idx, b). auto.
  - intros ([idx b] & -> & Hin)%list_elem_of_fmap. rewrite Forall_forall in Hlt.
    specialize (Hlt _ Hin). cbn in *. split; [lia|]. apply answers_mask_testbit; [lia|]. eauto.
Qed.

Section arrays.
Context (mask : Z) (n : nat) (Hn : length (nodes_of mask) = n).

(** Writing the answers one by one. *)
Lemma rebuild_arrays_spec answers : forall values blocks,
  Forall (fun a => (a.1 < 64)%nat /\ Z.testbit mask (Z.of_nat a.1)) answers ->
  NoDup (map fst answers) -> length values = n -> length blocks = n ->
  let '(values', blocks') := rebuild_arrays mask answers (values, blocks) in
  length values' = n /\ length blocks' = n /\
  (forall idx b, (idx, b) ∈ answers ->
     values' !! answer_pos mask idx = Some (Z.of_nat idx + 1) /\ blocks' !! answer_pos mask idx = Some b) /\
  (forall p, (forall idx b, (idx, b) ∈ answers -> answer_pos mask idx <> p) ->
     values' !! p = values !! p /\ blocks' !! p = blocks !! p).
Proof.
  induction answers as [|[idx b] answers IH]; intros values blocks Hok Hnd Hv Hb;
    unfold rebuild_arrays in *; cbn [foldl].
  { split; [auto|]. split; [auto|]. split; [|auto]. intros idx b Hin. apply elem_of_nil in Hin as []. }
  fold (answer_pos mask idx).
  apply Forall_cons in Hok as [[H64 Hbit] Hok]. apply NoDup_cons in Hnd as [Hnot Hnd].
  pose proof (answer_pos_lookup mask idx ltac:(cbn in H64; lia) Hbit) as Hp.
  pose proof (lookup_lt_Some _ _ _ Hp) as Hlt. rewrite Hn in Hlt.
  specialize (IH (<[answer_pos mask idx := Z.of_nat idx + 1]> values) (<[answer_pos mask idx := b]> blocks)
    Hok Hnd ltac:(rewrite length_insert; auto) ltac:(rewrite length_insert; auto)).
  destruct (foldl _ _ answers) as [values' blocks'].
  destruct IH as (Hv' & Hb' & Hin & Hout). split; [auto|]. split; [auto|].
  assert (Hsep : forall idx' b', (idx', b') ∈ answers -> answer_pos mask idx' <> answer_pos mask idx).
  { intros idx' b' Hin' E. rewrite Forall_forall in Hok. destruct (Hok _ Hin') as [H64' Hbit']. cbn in H64', Hbit'.
    pose proof (answer_pos_lookup mask idx' ltac:(lia) Hbit') as Hp'. rewrite E, Hp in Hp'.
    injection Hp' as Hp'. apply Nat2Z.inj in Hp' as <-. apply Hnot. apply list_elem_of_fmap. exists (idx, b'). auto. }
  split.
  - intros idx' b' [E|Hin']%elem_of_cons; [|apply Hin; exact Hin'].
    injection E as -> ->. destruct (Hout (answer_pos mask idx) Hsep) as [-> ->].
    rewrite !list_lookup_insert_eq by lia. auto.
  - intros p Hp'. destruct (Hout p) as [-> ->].
    { intros idx' b' Hin'. apply (Hp' idx' b'). apply elem_of_cons. auto. }
    specialize (Hp' idx b ltac:(apply elem_of_cons; auto)). rewrite !list_lookup_insert_ne by auto. auto.
Qed.
End arrays.

Lemma answers_nodes_length answers :
  Forall (fun a => (a.1 < 64)%nat) answers -> NoDup (map fst answers) ->
  length (nodes_of (answers_mask answers)) = length answers.
Proof.
  intros Hlt Hnd. rewrite <- (length_map (fun a => Z.of_nat a.1) answers). apply Permutation_length.
  apply NoDup_Permutation; [apply nodes_of_nodup | | apply answers_mask_nodes; auto].
  rewrite <- map_map. apply (NoDup_fmap_2 Z.of_nat). exact Hnd.
Qed.

(** Whatever the order of the answers, the rows are those of the mask and every
    block stands beside the row of its node. *)
Lemma rebuild_rows answers values blocks :
  Forall (fun a => (a.1 < 64)%nat) answers -> NoDup (map fst answers) ->
  length values = length answers -> length blocks = length answers ->
  let '(values', blocks') := rebuild_arrays (answers_mask answers) answers (values, blocks) in
  values' = rows_of_mask (answers_mask answers) /\ length blocks' = length answers /\
  forall x i, nodes_of (answers_mask answers) !! x = Some i ->
    exists idx b, (idx, b) ∈ answers /\ Z.of_nat idx = i /\ blocks' !! x = Some b.
Proof.
  intros Hlt Hnd Hv Hb. set (mask := answers_mask answers).
  pose proof (answers_nodes_length answers Hlt Hnd) as Hlen. fold mask in Hlen.
  assert (Hok : Forall (fun a => (a.1 < 64)%nat /\ Z.testbit mask (Z.of_nat a.1)) answers).
  { apply Forall_forall. intros [idx b] Hin. rewrite Forall_forall in Hlt. split; [apply (Hlt _ Hin)|].
    apply answers_mask_testbit; [lia | eauto]. }
  pose proof (rebuild_arrays_spec mask _ Hlen answers values blocks Hok Hnd Hv Hb) as Hspec.
  destruct (rebuild_arrays mask answers (values, blocks)) as [values' blocks'].
  destruct Hspec as (Hv' & Hb' & Hin & _).
  assert (Hat : forall x i, nodes_of mask !! x = Some i -> exists idx b, (idx, b) ∈ answers /\
    Z.of_nat idx = i /\ values' !! x = Some (i + 1) /\ blocks' !! x = Some b).
  { intros x i Hx. assert (Hi : i ∈ nodes_of mask) by (eapply list_elem_of_lookup_2; eauto).
    apply nodes_of_elem in Hi as [Hi (idx & b & Ha & <-)%answers_mask_testbit]; [|lia].
    exists idx, b. destruct (Hin idx b Ha) as [H1 H2].
    rewrite Forall_forall in Hok. destruct (Hok _ Ha) as [H64 Hbit]. cbn in H64, Hbit.
    pose proof (answer_pos_lookup mask idx ltac:(lia) Hbit) as Hp.
    assert (x = answer_pos mask idx) as -> by exact (NoDup_lookup _ _ _ _ (nodes_of_nodup mask) Hx Hp). auto. }
  split; [|split; [exact Hb'|]].
  - apply list_eq. intros x. unfold rows_of_mask.
    change (map (fun i => i + 1) (nodes_of mask)) with ((fun i => i + 1) <$> nodes_of mask).
    rewrite list_lookup_fmap. destruct (nodes_of mask !! x) as [i|] eqn:Hx; cbn.
    + destruct (Hat x i Hx) as (idx & b & _ & _ & H1 & _). exact H1.
    + apply lookup_ge_None in Hx. apply lookup_ge_None. lia.
  - intros x i (idx & b & Ha & He & _ & H2)%Hat. eauto.
Qed.

(** A mask of [k] of the nodes below 64 gives a legal set of rows. *)
Definition read_mask (k : nat) (mask : Z) : Prop := length (nodes_of mask) = k.

Lemma read_mask_rows k mask : read_mask k mask -> rows_ok k (rows_of_mask mask).
Proof.
  intros Hm. split; [unfold rows_of_mask; rewrite length_map; exact Hm|]. split.
  - apply Forall_forall. intros v (i & -> & Hi)%list_elem_of_fmap. apply nodes_of_elem in Hi.
    unfold nonzero. lia.
  - assert (Inj (=) (=) (fun i : Z => i + 1)) by (intros x y Hxy; lia).
    apply (NoDup_fmap_2 (fun i => i + 1)), nodes_of_nodup.
Qed.

Lemma read_mask_zero k : (2 <= k)%nat -> ~ read_mask k 0.
Proof. unfold read_mask. change (nodes_of 0) with (@nil Z). cbn. lia. Qed.

(** ** The window of a read *)

Lemma rebuild_window_spec ec fop op_ret ia_size :
  let base := fop_offset fop * ec_fragments ec in
  let size := op_ret * ec_fragments ec in
  0 < op_ret -> 0 < ec_fragments ec -> 0 <= fop_head fop <= size -> 0 <= fop_user_size fop < 2 ^ 64 ->
  0 <= base -> base + size < 2 ^ 64 -> base + fop_head fop <= ia_size < 2 ^ 64 ->
  rebuild_window ec fop op_ret ia_size =
  let len := Z.min (fop_user_size fop) (Z.min ia_size (base + size) - (base + fop_head fop)) in
  (fop_head fop, len, s32 len).
Proof.
  intros base size Ho Hk Hh Hu Hb Hs Hi. unfold rebuild_window. fold base size. unfold wrap_u64.
  rewrite !(Z.mod_small size) by lia. rewrite (Z.mod_small (base + size)) by lia.
  rewrite !(Z.mod_small (size - fop_head fop)) by lia.
  replace (if ia_size <? base + size then ia_size else base + size) with (Z.min ia_size (base + size))
    by (destruct (Z.ltb_spec ia_size (base + size)); lia).
  rewrite (Z.mod_small (Z.min _ _ - _)) by lia.
  set (m := Z.min ia_size (base + size) - (base + fop_head fop)).
  replace (if fop_user_size fop <? m then fop_user_size fop else m) with (Z.min (fop_user_size fop) m)
    by (destruct (Z.ltb_spec (fop_user_size fop) m); lia).
  destruct (Z.ltb_spec (Z.min (fop_user_size fop) m) (size - fop_head fop)).
  - rewrite Z.mod_small by lia. do 2 f_equal. lia.
  - replace (Z.min (fop_user_size fop) m) with (size - fop_head fop) by lia. reflexivity.
Qed.
