(* ===== verification/EcProps.v ===== *)
(** * The disperse translator: theorems

    The encoder, the cache of decoding matrices, the code generator and the
    read path composed: what was written is read back from any [k] fragments,
    in whatever order their answers arrive and whatever was asked of the cache
    before. *)

From S2P Require Import Prelude Words EcGf8 EcGalois EcCodeC EcLanes EcChunks EcPoly EcField.
From S2P Require Import EcCode EcCodeFacts EcMatrix EcMethod EcMethodFacts EcCache EcRead EcReadFacts.
From stdpp Require Import gmap.
Open Scope Z_scope.

Definition ec_k (ec : ec_t) : nat := Z.to_nat (ec_fragments ec).
Definition ec_n (ec : ec_t) : nat := Z.to_nat (ec_nodes ec).

(** Steps of the users of the list of an accepted volume. *)
Definition ec_step (compiles : list ec_code_op -> bool) (ec : ec_t) :=
  cache_step compiles (read_mask (ec_k ec)) rows_of_mask.

(** The lists [ec_method_init] and the users of the list can reach, with the
    references handed out. *)
Definition ec_reach (compiles : list ec_code_op -> bool) (ec : ec_t) (max : Z) (gen : option ec_code_gen)
    (l : ec_matrix_list) (held : list (nat * Z)) : Prop :=
  exists l0, ec_method_init compiles (ec_k ec) (ec_n ec) max gen = Some l0 /\
    rtc (ec_step compiles ec) (l0, []) (l, held).

Lemma ec_init_reach compiles ec max gen :
  exists l, ec_reach compiles ec max gen l [] /\ ml_heap l = ∅.
Proof.
  unfold ec_reach. rewrite init_unfold. cbv zeta.
  destruct (ec_method_matrix_init _ _ _ _ _ _) as [code m].
  eexists. split; [eauto using rtc_refl | reflexivity].
Qed.

Lemma ec_geometry_dims children redundancy ec :
  ec_geometry children redundancy = Some ec ->
  (2 <= ec_k ec)%nat /\ Z.of_nat (ec_k ec) <= 2 ^ 32 /\ (ec_k ec < ec_n ec <= 31)%nat.
Proof.
  intros Hgeo.
  destruct (geometry_spec _ _ _ Hgeo) as (_ & _ & _ & _ & Hf & Hn & _). unfold ec_k, ec_n. lia.
Qed.

Section volume.
Context (children redundancy : Z) (ec : ec_t) (Hgeo : ec_geometry children redundancy = Some ec)
  (compiles : list ec_code_op -> bool) (regs : list Z) (Hregs : length regs = 16%nat)
  (max : Z) (Hmax : 0 <= max < 2 ^ 32) (gen : option ec_code_gen).

Lemma ec_reach_inv l held :
  ec_reach compiles ec max gen l held ->
  cache_inv regs (ec_k ec) (read_mask (ec_k ec)) rows_of_mask l held /\
  encodes regs (ec_k ec) (ml_encode l) (ec_n ec) /\ ml_columns l = ec_k ec /\
  ml_stripe l = (EC_METHOD_CHUNK_SIZE * ec_k ec)%nat /\ ml_max l = max.
Proof.
  intros (l0 & Hi & Hr). destruct (ec_geometry_dims _ _ _ Hgeo) as (Hk & Hk32 & Hn).
  destruct (init_inv compiles regs Hregs (ec_k ec) Hk Hk32 (read_mask (ec_k ec)) rows_of_mask
    (ec_n ec) max gen l0 Hmax ltac:(lia) Hi) as (Hinv & Henc & Hc & Hs & Hm).
  destruct (cache_reach_inv compiles regs Hregs (ec_k ec) Hk Hk32 (read_mask (ec_k ec)) rows_of_mask
    (read_mask_zero _ Hk) (read_mask_rows _) _ _ Hr Hinv) as (Hinv' & Hc' & _ & Hm' & Hs' & He').
  cbn [fst snd] in *. rewrite He', Hc', Hs', Hm'. auto.
Qed.

(** Decoding a full set of answers, from any state of the cache. *)
Lemma decode_answers l held S_ data answers mask inp buf id :
  ec_reach compiles ec max gen l held -> Z.of_nat (length held) + 1 < 2 ^ 32 -> ml_heap l !! id = None ->
  buf_ok (S_ * ec_k ec) data -> mask = answers_mask answers -> read_mask (ec_k ec) mask ->
  length inp = ec_k ec ->
  (forall x i, nodes_of mask !! x = Some i -> exists b, inp !! x = Some b /\ buf_ok S_ b /\
    forall s, (s < S_)%nat -> encoded (ec_k ec) data (i + 1) s (chunk_no b s)) ->
  buf_ok (S_ * ec_k ec) buf ->
  (ec_method_decode compiles regs l (S_ * EC_METHOD_CHUNK_SIZE) mask (rows_of_mask mask) inp buf (Some id)).2
    = DEC_OK data.
Proof.
  intros Hr Hb Hid Hdata -> Hmask Hinp Hblocks Hbuf. set (mask := answers_mask answers) in *.
  destruct (ec_reach_inv l held Hr) as (Hinv & _ & Hcols & _). destruct (ec_geometry_dims _ _ _ Hgeo) as (Hk & Hk32 & _).
  unfold ec_method_decode.
  destruct (ec_method_matrix_get compiles l mask (rows_of_mask mask) (Some id)) as [l' r] eqn:Hget.
  pose proof (get_inv compiles regs Hregs (ec_k ec) Hk Hk32 (read_mask (ec_k ec)) rows_of_mask
    (read_mask_zero _ Hk) (read_mask_rows _) l held mask (Some id) l' r Hinv Hmask Hb
    ltac:(intros i [= <-]; exact Hid) Hget) as Hres.
  destruct r as [id'|]; [|destruct Hres; discriminate]. destruct Hres as [Hinv' [Hcols' _]].
  destruct (ci_held _ _ _ _ _ _ Hinv' id' mask) as (m & Hm & Hd); [apply elem_of_cons; auto|].
  rewrite Hm, Hcols', Hcols.
  pose proof (read_mask_rows (ec_k ec) mask Hmask) as Hrows.
  rewrite (decode_recovers regs (ec_k ec) S_ m (rows_of_mask mask) data inp buf Hk Hrows Hd); auto.
  - apply Forall_lookup. intros x b Hx. pose proof (lookup_lt_Some _ _ _ Hx) as Hlt.
    destruct (lookup_lt_is_Some_2 (nodes_of mask) x) as [i Hi]; [rewrite Hmask; lia|].
    destruct (Hblocks x i Hi) as (b' & Hb' & Hok & _). congruence.
  - intros x s Hx Hs. destruct (lookup_lt_is_Some_2 (nodes_of mask) x) as [i Hi]; [rewrite Hmask; lia|].
    destruct (Hblocks x i Hi) as (b & Hxb & _ & Henc).
    rewrite (list_lookup_total_correct _ _ _ Hxb).
    replace (rows_of_mask mask !!! x) with (i + 1); [auto|]. symmetry. apply list_lookup_total_correct.
    unfold rows_of_mask. change (map (fun i => i + 1) (nodes_of mask)) with ((fun i => i + 1) <$> nodes_of mask).
    rewrite list_lookup_fmap, Hi. reflexivity.
Qed.

Lemma encode_then_decode l1 held1 l2 held2 S_ data out id :
  ec_reach compiles ec max gen l1 held1 -> ec_reach compiles ec max gen l2 held2 ->
  Z.of_nat (length held2) + 1 < 2 ^ 32 -> ml_heap l2 !! id = None ->
  buf_ok (S_ * ec_k ec) data -> length out = ec_n ec -> Forall (buf_ok S_) out ->
  exists frags,
    ec_method_encode regs l1 (S_ * ec_k ec * EC_METHOD_CHUNK_SIZE) data out = Some frags /\
    forall answers values blocks buf,
      length answers = ec_k ec -> NoDup (map fst answers) ->
      Forall (fun a => (a.1 < ec_n ec)%nat /\ frags !! a.1 = Some a.2) answers ->
      length values = ec_k ec -> length blocks = ec_k ec -> buf_ok (S_ * ec_k ec) buf ->
      let '(rows, inp) := rebuild_arrays (answers_mask answers) answers (values, blocks) in
      (ec_method_decode compiles regs l2 (S_ * EC_METHOD_CHUNK_SIZE) (answers_mask answers) rows inp buf
         (Some id)).2 = DEC_OK data.
Proof.
  intros Hr1 Hr2 Hb Hid Hdata Hol Hout. destruct (ec_reach_inv l1 held1 Hr1) as (_ & Henc & Hc & Hs & _).
  destruct (ec_geometry_dims _ _ _ Hgeo) as (Hk & _ & Hn).
  destruct (encode_spec regs (ec_k ec) (ec_n ec) S_ Hk l1 data out Henc Hc Hs Hdata Hol Hout)
    as (frags & He & Hfl & Hfo & Hfe).
  exists frags. split; [exact He|]. intros answers values blocks buf Hal Hnd Ha Hvl Hbl Hbuf.
  assert (H64 : Forall (fun a => (a.1 < 64)%nat) answers)
    by (eapply Forall_impl; [exact Ha|]; intros [idx b] [Hlt _]; cbn in *; lia).
  pose proof (rebuild_rows answers values blocks H64 Hnd ltac:(lia) ltac:(lia)) as Hreb.
  destruct (rebuild_arrays (answers_mask answers) answers (values, blocks)) as [rows inp].
  destruct Hreb as (-> & Hil & Hinp).
  apply (decode_answers l2 held2 S_ data answers); auto; try lia.
  - unfold read_mask. rewrite answers_nodes_length; auto.
  - intros x i Hx. destruct (Hinp x i Hx) as (idx & b & Hin & <- & Hxb).
    rewrite Forall_forall in Ha. destruct (Ha _ Hin) as [Hidx Hb']. cbn in Hidx, Hb'.
    exists b. split; [exact Hxb|]. split; [eapply Forall_lookup_1 in Hfo; eauto|].
    intros s Hs'. pose proof (Hfe idx s Hidx Hs') as E.
    rewrite (list_lookup_total_correct _ _ _ Hb') in E. exact E.
Qed.
End volume.

(** A volume of three nodes whose list has handed out the matrix of the first
    two. *)
Lemma ec_three_nodes :
  exists ec l l' id, ec_geometry 3 1 = Some ec /\ ec_k ec = 2%nat /\
    ec_reach (fun _ => false) ec 6 None l [] /\ ml_heap l = ∅ /\
    ec_method_matrix_get (fun _ => false) l 3 (rows_of_mask 3) (Some 0%nat) = (l', Some id) /\
    ec_reach (fun _ => false) ec 6 None l' [(id, 3)].
Proof.
  destruct (ec_geometry 3 1) as [ec|] eqn:Hgeo; [|discriminate Hgeo].
  destruct (ec_init_reach (fun _ => false) ec 6 None) as (l & Hl & Hh).
  destruct (ec_geometry_dims _ _ _ Hgeo) as (Hk & Hk32 & _).
  assert (Ek : ec_k ec = 2%nat) by (injection Hgeo as <-; reflexivity).
  assert (Hm : read_mask (ec_k ec) 3) by (rewrite Ek; reflexivity).
  assert (Hf : forall i, Some 0%nat = Some i -> ml_heap l !! i = None) by (intros i _; rewrite Hh; apply lookup_empty).
  destruct (ec_method_matrix_get (fun _ => false) l 3 (rows_of_mask 3) (Some 0%nat)) as [l' r] eqn:Hget.
  destruct (ec_reach_inv _ _ _ Hgeo (fun _ => false) (replicate 16 0) eq_refl 6 ltac:(lia) None l [] Hl) as (Hi & _).
  pose proof (get_inv (fun _ => false) (replicate 16 0) eq_refl (ec_k ec) Hk Hk32 (read_mask (ec_k ec)) rows_of_mask
    (read_mask_zero _ Hk) (read_mask_rows _) l [] 3 (Some 0%nat) l' r Hi Hm ltac:(cbn [length]; lia) Hf Hget) as H.
  destruct r as [id|]; [|destruct H; discriminate].
  exists ec, l, l', id. split; [reflexivity|]. split; [exact Ek|]. split; [exact Hl|]. split; [exact Hh|].
  split; [exact Hget|].
  destruct Hl as (l0 & H0 & Hr). exists l0. split; [exact H0|]. eapply rtc_r; [exact Hr|].
  eapply step_get; eauto. cbn [length]. lia.
Qed.

(** ** Storing and reading back *)

(** C1: data encoded into [n] fragments is recovered by decoding any [k] of
    them.  The list of matrices may be in any state its users can bring it to
    (cached, evicted and private matrices, references held), with generated
    code, portable code or both; the answers may come from any [k] distinct
    nodes in any order; buffers may hold anything beforehand. *)
Theorem ec_read_recovers_write children redundancy ec compiles regs max gen
    l1 held1 l2 held2 S_ data out id :
  ec_geometry children redundancy = Some ec -> length regs = 16%nat -> 0 <= max < 2 ^ 32 ->
  ec_reach compiles ec max gen l1 held1 -> ec_reach compiles ec max gen l2 held2 ->
  Z.of_nat (length held2) + 1 < 2 ^ 32 -> ml_heap l2 !! id = None ->
  buf_ok (S_ * ec_k ec) data -> length out = ec_n ec -> Forall (buf_ok S_) out ->
  exists frags,
    ec_method_encode regs l1 (S_ * ec_k ec * EC_METHOD_CHUNK_SIZE) data out = Some frags /\
    forall answers values blocks buf,
      length answers = ec_k ec -> NoDup (map fst answers) ->
      Forall (fun a => (a.1 < ec_n ec)%nat /\ frags !! a.1 = Some a.2) answers ->
      length values = ec_k ec -> length blocks = ec_k ec -> buf_ok (S_ * ec_k ec) buf ->
      let '(rows, inp) := rebuild_arrays (answers_mask answers) answers (values, blocks) in
      (ec_method_decode compiles regs l2 (S_ * EC_METHOD_CHUNK_SIZE) (answers_mask answers) rows inp buf
         (Some id)).2 = DEC_OK data.
Proof. intros Hgeo Hregs Hmax. eapply encode_then_decode; eauto. Qed.

(** Three nodes, one of them redundant, a stripe of ones. *)
Lemma ec_read_recovers_write_witness :
  exists ec l frags, ec_geometry 3 1 = Some ec /\
    ec_reach (fun _ => false) ec 6 None l [] /\
    ec_method_encode (replicate 16 0) l 1024 (replicate 128 1) (replicate 3 (replicate 64 0)) = Some frags /\
    forall b0 b2, frags !! 0%nat = Some b0 -> frags !! 2%nat = Some b2 ->
    let '(rows, inp) := rebuild_arrays 5 [(2%nat, b2); (0%nat, b0)] ([0; 0], [[]; []]) in
    (ec_method_decode (fun _ => false) (replicate 16 0) l 512 5 rows inp (replicate 128 7) (Some 0%nat)).2
      = DEC_OK (replicate 128 1).
Proof.
  destruct (ec_geometry 3 1) as [ec|] eqn:Hgeo; [|discriminate Hgeo].
  assert (Hk : ec_k ec = 2%nat) by (injection Hgeo as <-; reflexivity).
  assert (Hn : ec_n ec = 3%nat) by (injection Hgeo as <-; reflexivity).
  destruct (ec_init_reach (fun _ => false) ec 6 None) as (l & Hl & Hh).
  destruct (ec_read_recovers_write 3 1 ec (fun _ => false) (replicate 16 0) 6 None l [] l [] 1
    (replicate 128 1) (replicate 3 (replicate 64 0)) 0) as (frags & He & Hd).
  - exact Hgeo.
  - reflexivity.
  - lia.
  - exact Hl.
  - exact Hl.
  - cbn [length]. lia.
  - rewrite Hh. apply lookup_empty.
  - rewrite Hk. split; [reflexivity|]. apply Forall_replicate. unfold word_ok. lia.
  - rewrite Hn. reflexivity.
  - apply Forall_replicate. split; [reflexivity|]. apply Forall_replicate. unfold word_ok. lia.
  - rewrite Hk, Hn in *. exists ec, l, frags. split; [reflexivity|]. split; [exact Hl|]. split; [exact He|].
    intros b0 b2 H0 H2. change 5 with (answers_mask [(2%nat, b2); (0%nat, b0)]).
    apply (Hd [(2%nat, b2); (0%nat, b0)] [0; 0] [[]; []] (replicate 128 7)); try reflexivity.
    + apply NoDup_cons. split; [|apply NoDup_singleton]. cbn. intros E%list_elem_of_singleton. discriminate.
    + repeat apply Forall_cons_2; [split; [cbn; lia | exact H2] | split; [cbn; lia | exact H0] | apply Forall_nil_2].
    + split; [reflexivity|]. apply Forall_replicate. unfold word_ok. lia.
Defined.

(** ** The cache of decoding matrices *)

(** C7: in every list its users can reach, the count is the number of cached
    matrices and never exceeds the maximum, the cached matrices are strictly
    ordered by mask, so that the binary search finds a mask exactly when it is
    there; every matrix handed out is in use, is not up for eviction, and its
    functions compute the inverse of the rows it was asked for. *)
Theorem ec_cache_safe children redundancy ec compiles regs max gen l held :
  ec_geometry children redundancy = Some ec -> length regs = 16%nat -> 0 <= max < 2 ^ 32 ->
  ec_reach compiles ec max gen l held ->
  ml_count l = Z.of_nat (length (ml_objects l)) /\ ml_count l <= max /\
  ascending (masks (ml_heap l) (ml_objects l)) /\
  (forall mask, found_at (masks (ml_heap l) (ml_objects l)) mask (ec_method_matrix_lookup l mask)) /\
  (forall id mask, (id, mask) ∈ held -> (id ∉ ml_lru l) /\ exists m, ml_heap l !! id = Some m /\
     mx_refs m = Z.of_nat (held_count held id) /\ decodes regs (ec_k ec) m (rows_of_mask mask)).
Proof.
  intros Hgeo Hregs Hmax Hr.
  destruct (ec_reach_inv _ _ _ Hgeo compiles regs Hregs max Hmax gen l held Hr) as (Hi & _ & _ & _ & Hm).
  split; [apply Hi|]. split; [rewrite <- Hm; apply Hi|]. split; [apply Hi|]. split.
  { intros mask. apply lookup_spec; apply Hi. }
  intros id mask Hin. destruct (ci_held _ _ _ _ _ _ Hi id mask Hin) as (m & Hid & Hd).
  pose proof (ci_refs _ _ _ _ _ _ Hi id m Hid) as Hrf. split; [|eauto].
  intros (m' & Hm' & Hz)%(ci_lru _ _ _ _ _ _ Hi). rewrite Hid in Hm'. injection Hm' as <-.
  assert (Hc : held_count held id = 0%nat) by lia. exact (held_count_zero held id Hc mask Hin).
Qed.

Lemma ec_cache_safe_witness :
  exists ec l id, ec_reach (fun _ => false) ec 6 None l [(id, 3)] /\ ml_count l <= 6 /\
    exists m, ml_heap l !! id = Some m /\ mx_refs m = 1 /\ decodes (replicate 16 0) 2 m [1; 2].
Proof.
  destruct ec_three_nodes as (ec & l & l' & id & Hgeo & Hk & Hl & Hh & Hget & Hl').
  destruct (ec_cache_safe 3 1 ec (fun _ => false) (replicate 16 0) 6 None l' [(id, 3)] Hgeo eq_refl
    ltac:(lia) Hl') as (_ & Hc & _ & _ & H).
  exists ec, l', id. split; [exact Hl'|]. split; [exact Hc|].
  destruct (H id 3 ltac:(apply elem_of_cons; auto)) as (_ & m & Hm & Hr & Hd).
  exists m. rewrite Hk in Hd. split; [exact Hm|]. split; [|exact Hd].
  rewrite Hr. unfold held_count. rewrite filter_cons_True by reflexivity. reflexivity.
Defined.

(** C30: asking the cache for a matrix fails only when there is no memory for a
    new one, and then changes nothing; otherwise the matrix computes the
    inverse of the rows asked for, those already handed out still serve their
    holders, and giving a reference back leaves the others valid. *)
Theorem ec_cache_get children redundancy ec compiles regs max gen l held mask fresh l' r :
  ec_geometry children redundancy = Some ec -> length regs = 16%nat -> 0 <= max < 2 ^ 32 ->
  ec_reach compiles ec max gen l held -> Z.of_nat (length held) + 1 < 2 ^ 32 ->
  read_mask (ec_k ec) mask -> (forall id, fresh = Some id -> ml_heap l !! id = None) ->
  ec_method_matrix_get compiles l mask (rows_of_mask mask) fresh = (l', r) ->
  match r with
  | None => fresh = None /\ l' = l
  | Some id =>
      (forall id' mask', (id', mask') ∈ (id, mask) :: held ->
         exists m, ml_heap l' !! id' = Some m /\ decodes regs (ec_k ec) m (rows_of_mask mask')) /\
      (forall id' mask', (id', mask') ∈ held ->
         exists m, ml_heap (ec_method_matrix_put l' id) !! id' = Some m /\
           decodes regs (ec_k ec) m (rows_of_mask mask'))
  end.
Proof.
  intros Hgeo Hregs Hmax Hr Hb Hm Hf Hget. destruct (ec_geometry_dims _ _ _ Hgeo) as (Hk & Hk32 & _).
  destruct (ec_reach_inv _ _ _ Hgeo compiles regs Hregs max Hmax gen l held Hr) as (Hi & _).
  pose proof (get_inv compiles regs Hregs (ec_k ec) Hk Hk32 (read_mask (ec_k ec)) rows_of_mask
    (read_mask_zero _ Hk) (read_mask_rows _) l held mask fresh l' r Hi Hm Hb Hf Hget) as H.
  destruct r as [id|]; [|tauto]. destruct H as [Hi' _]. split; [apply Hi'|].
  destruct (put_inv regs Hregs (ec_k ec) Hk (read_mask (ec_k ec)) rows_of_mask l' [] id mask held Hi') as [Hp _].
  apply Hp.
Qed.

Lemma ec_cache_get_witness :
  exists ec l l' id m, ec_reach (fun _ => false) ec 6 None l [] /\
    ec_method_matrix_get (fun _ => false) l 3 (rows_of_mask 3) (Some 0%nat) = (l', Some id) /\
    ml_heap l' !! id = Some m /\ decodes (replicate 16 0) 2 m [1; 2].
Proof.
  destruct ec_three_nodes as (ec & l & l' & id & Hgeo & Hk & Hl & Hh & Hget & _).
  destruct (ec_cache_get 3 1 ec (fun _ => false) (replicate 16 0) 6 None l [] 3 (Some 0%nat) l' (Some id))
    as [H _]; auto.
  - lia.
  - cbn [length]. lia.
  - rewrite Hk. reflexivity.
  - intros i _. rewrite Hh. apply lookup_empty.
  - destruct (H id 3 ltac:(apply elem_of_cons; auto)) as (m & Hm & Hd). rewrite Hk in Hd.
    exists ec, l, l', id, m. auto.
Defined.

(** ** Code for a row of coefficients *)

(** C31: generated code and the portable routines compute the same chunk for
    every encoding and decoding row, whatever the destination and the registers
    held, for generators with and without three operand xor, and whether or not
    compilation succeeds. *)
Theorem generated_code_equivalent compiles code regs vs :
  code_gf code = gf8 -> length regs = 16%nat -> Forall in_field vs ->
  (forall code' func row dst src offset,
     vs <> [] -> Forall nonzero vs -> List.last vs 1 = 1 ->
     ec_code_build compiles code vs true = (code', func, row) ->
     chunk_ok dst -> Forall chunk_ok (chunks_from src (length vs) offset) ->
     call_linear regs func dst src offset row (length vs) =
     Some (ec_code_c_linear Z.lxor dst src offset (ec_code_c_prepare gf8 vs (length vs)) (length vs))) /\
  (forall code' func row dst src offset,
     Exists (fun v => v <> 0) vs ->
     ec_code_build compiles code vs false = (code', func, row) ->
     chunk_ok dst -> length src = length vs -> Forall (fun buf => chunk_ok (chunk_at buf offset)) src ->
     call_interleaved regs func dst src offset row (length vs) =
     ec_code_c_interleaved Z.lxor zero_buf dst src offset (ec_code_c_prepare gf8 vs (length vs)) (length vs)).
Proof.
  intros Hgf Hregs Hvs. split.
  - intros code' func row dst src offset Hne Hnz Hlast Hb Hd Hc.
    destruct (build_linear compiles regs Hregs code vs code' func row Hgf Hne Hnz Hlast Hb) as (_ & _ & Hcomp).
    destruct (Hcomp dst src offset Hd Hc) as (c & -> & Hok & Hs). f_equal.
    destruct (linear_spec src vs offset dst Hne Hnz Hlast Hd Hc) as [Hok' Hs'].
    apply chunk_ext; auto. intros i b Hi _. rewrite Hs, Hs' by auto. reflexivity.
  - intros code' func row dst src offset Hex Hb Hd Hl Hc.
    destruct (build_interleaved compiles regs Hregs code vs code' func row Hgf Hvs Hex Hb) as (_ & _ & Hcomp).
    destruct (Hcomp dst src offset Hd Hl Hc) as (c & -> & Hok & Hs).
    destruct (interleaved_spec src offset vs dst (eq_sym Hl) Hvs Hex Hd Hc) as (c' & -> & Hok' & Hs').
    f_equal. apply chunk_ext; auto. intros i b Hi _. rewrite Hs, Hs' by auto. reflexivity.
Qed.

(** The row 2, 1 over two chunks, with a generator that has no xor3. *)
Lemma generated_code_equivalent_witness :
  exists func row,
    ec_code_build (fun _ => true) (mk_code gf8 (Some (mk_gen false))) [2; 1] true =
      (mk_code gf8 (Some (mk_gen false)), func, row) /\
    call_linear (replicate 16 0) func (replicate 64 0) (replicate 128 5) 0 row 2 =
    Some (ec_code_c_linear Z.lxor (replicate 64 0) (replicate 128 5) 0 (ec_code_c_prepare gf8 [2; 1] 2) 2).
Proof.
  destruct (ec_code_build (fun _ => true) (mk_code gf8 (Some (mk_gen false))) [2; 1] true)
    as [[code' func] row] eqn:Hb.
  assert (Hc : code' = mk_code gf8 (Some (mk_gen false))) by (injection Hb as <- _ _; reflexivity).
  exists func, row. split; [rewrite Hc; reflexivity|].
  assert (Hok : forall w, 0 <= w < 2 ^ 64 -> chunk_ok (replicate 64 w))
    by (intros w Hw; split; [reflexivity | apply Forall_replicate; exact Hw]).
  apply (generated_code_equivalent (fun _ => true) (mk_code gf8 (Some (mk_gen false))) (replicate 16 0) [2; 1]
    eq_refl eq_refl) with (code' := code').
  - repeat apply Forall_cons_2; unfold in_field; try lia. apply Forall_nil_2.
  - discriminate.
  - repeat apply Forall_cons_2; unfold nonzero; try lia. apply Forall_nil_2.
  - reflexivity.
  - exact Hb.
  - apply Hok. lia.
  - repeat apply Forall_cons_2; [apply (Hok 5); lia | apply (Hok 5); lia | apply Forall_nil_2].
Defined.

(** C32: each of the 255 multiply-and-add routines multiplies every symbol of
    the destination by its coefficient and adds the symbol of the source. *)
Theorem muladd_symbols c out inp :
  nonzero c -> chunk_ok out -> chunk_ok inp ->
  chunk_ok (muladd Z.lxor c out inp) /\
  forall i b, (i < 8)%nat ->
    symbol (muladd Z.lxor c out inp) i b = Z.lxor (gmul c (symbol out i b)) (symbol inp i b).
Proof.
  intros Hc Hout Hinp. split; [apply muladd_ok; auto; apply Hinp|]. intros i b Hi.
  rewrite muladd_symbol by auto. rewrite mul8_gmul; auto using symbol_field, nonzero_field.
Qed.

Lemma muladd_symbols_witness :
  symbol (muladd Z.lxor 3 (replicate 64 1) (replicate 64 2)) 0 0 =
    Z.lxor (gmul 3 (symbol (replicate 64 1) 0 0)) (symbol (replicate 64 2) 0 0).
Proof.
  apply muladd_symbols; [unfold nonzero; lia | | | lia];
    (split; [reflexivity | apply Forall_replicate; unfold word_ok; lia]).
Defined.

(** ** Arithmetic and matrices *)

(** [ec_gf_prepare] builds the tables of GF(2^8); with them addition is
    exclusive or, multiplication is multiplication of polynomials modulo
    x^8 + x^4 + x^3 + x^2 + 1, division inverts it, exponentiation is the
    iterated product, and arguments outside of the field or division by zero
    give the size of the field. *)
Theorem gf8_arithmetic a b :
  ec_gf_prepare EC_GF_BITS EC_GF_MOD = Some gf8 /\
  (in_field a -> in_field b ->
     ec_gf_add gf8 a b = Z.lxor a b /\ ec_gf_mul gf8 a b = gmul a b /\
     (b <> 0 -> gmul b (ec_gf_div gf8 a b) = a) /\ (b = 0 -> ec_gf_div gf8 a b = 256)) /\
  (in_field a -> 0 <= b < 2 ^ 32 -> a <> 0 \/ b <> 0 -> ec_gf_exp gf8 a b = gpow a (Z.to_nat b)) /\
  (256 <= a \/ 256 <= b -> ec_gf_add gf8 a b = 256 /\ ec_gf_mul gf8 a b = 256 /\ ec_gf_div gf8 a b = 256).
Proof.
  split; [exact gf8_prepare|]. split; [|split].
  - intros Ha Hb. split; [|split; [apply mul8_gmul; auto | split]].
    + unfold ec_gf_add. rewrite in_range by auto. reflexivity.
    + intros Hz. assert (Hn : nonzero b) by (unfold in_field in Hb; unfold nonzero; lia).
      rewrite <- mul8_gmul by auto using div8_field. apply mul8_div8; auto.
    + intros ->. unfold ec_gf_div. rewrite in_range by auto. reflexivity.
  - apply exp8_gpow.
  - intros Hab. unfold ec_gf_add, ec_gf_mul, ec_gf_div. change (gf_size gf8) with 256.
    assert (Hr : (256 <=? a) || (256 <=? b) = true) by (apply orb_true_iff; rewrite !Z.leb_le; exact Hab).
    rewrite Hr. auto.
Qed.

Lemma gf8_arithmetic_witness : gmul 7 (ec_gf_div gf8 5 7) = 5 /\ ec_gf_exp gf8 2 8 = 29.
Proof.
  assert (H5 : in_field 5) by (unfold in_field; lia). assert (H7 : in_field 7) by (unfold in_field; lia).
  split.
  - destruct (gf8_arithmetic 5 7) as (_ & H & _). apply (H H5 H7). lia.
  - destruct (gf8_arithmetic 2 8) as (_ & _ & H & _). rewrite H; [reflexivity | unfold in_field; lia | lia | lia].
Defined.

(** C39: the matrix of [ec_method_matrix_inverse] for any [k] distinct rows
    turns the symbols encoded with those rows of [ec_method_matrix_normal] back
    into the original symbols, whatever the array held before. *)
Theorem inverse_matrix_decodes rows mat ds :
  Forall nonzero rows -> NoDup rows -> (2 <= length rows)%nat ->
  (length rows * length rows <= length mat)%nat -> length ds = length rows -> Forall in_field ds ->
  let k := length rows in
  let apply m ds := map (fun j => lincomb (matrix_row k m j) ds) (seq 0 k) in
  apply (ec_method_matrix_inverse gf8 mat rows) (apply (ec_method_matrix_normal gf8 k rows) ds) = ds.
Proof.
  intros Hnz Hnd H2 Hmat Hds Hf k apply.
  assert (H255 : (k <= 255)%nat).
  { apply (submseteq_length rows (seqZ 1 255)), NoDup_submseteq; [exact Hnd|]. intros v Hv.
    rewrite Forall_forall in Hnz. specialize (Hnz v Hv). apply elem_of_seqZ. unfold nonzero in Hnz. lia. }
  assert (Henc : apply (ec_method_matrix_normal gf8 k rows) ds = map (fun v => lincomb (encode_row k v) ds) rows).
  { unfold apply. rewrite normal_matrix_rows by (auto; lia).
    apply list_eq_total; [rewrite !length_map, length_seq; reflexivity|].
    rewrite length_map, length_seq. intros j Hj. destruct (lookup_lt_is_Some_2 rows j Hj) as [v Hv].
    transitivity (lincomb (encode_row k v) ds); [|symmetry]; apply list_lookup_total_correct.
    - change (map ?f (seq 0 k)) with (f <$> seq 0 k). rewrite list_lookup_fmap, lookup_seq_lt by auto. cbn.
      do 2 f_equal. apply matrix_row_concat.
      + apply Forall_forall. intros r (x & -> & _)%list_elem_of_fmap. apply encode_row_length.
      + change (map ?f rows) with (f <$> rows). rewrite list_lookup_fmap, Hv. reflexivity.
    - change (map ?f rows) with (f <$> rows). rewrite list_lookup_fmap, Hv. reflexivity. }
  rewrite Henc. apply list_eq_total; [unfold apply; rewrite length_map, length_seq; auto|].
  unfold apply. rewrite length_map, length_seq. intros j Hj. apply list_lookup_total_correct.
  change (map ?f (seq 0 k)) with (f <$> seq 0 k). rewrite list_lookup_fmap, lookup_seq_lt by auto. cbn.
  f_equal. apply decode_encode_symbols; auto.
Qed.

Lemma inverse_matrix_decodes_witness :
  let apply m ds := map (fun j => lincomb (matrix_row 2 m j) ds) (seq 0 2) in
  apply (ec_method_matrix_inverse gf8 (replicate 4 9) [1; 3])
    (apply (ec_method_matrix_normal gf8 2 [1; 3]) [7; 200]) = [7; 200].
Proof.
  apply (inverse_matrix_decodes [1; 3] (replicate 4 9) [7; 200]).
  - repeat apply Forall_cons_2; unfold nonzero; try lia. apply Forall_nil_2.
  - apply NoDup_cons. split; [|apply NoDup_singleton]. intros E%list_elem_of_singleton. discriminate.
  - cbn. lia.
  - cbn. lia.
  - reflexivity.
  - repeat apply Forall_cons_2; unfold in_field; try lia. apply Forall_nil_2.
Defined.

(** ** Bounds *)

(** the operations generated for a row fit in the array
    [ec_code_prepare] allocates when the generator has a three operand xor;
    without it they can exceed it by at most one per coefficient. *)
Theorem builder_room gen values :
  Forall in_field values -> values <> [] ->
  let b := ec_code_build_ops gf8 gen values in
  (gen_xor3 gen = true -> (length (bld_ops b) <= bld_size b)%nat) /\
  (length (bld_ops b) <= bld_size b + length values)%nat.
Proof.
  intros Hv Hne. pose proof (build_ops_room gen values Hv Hne) as H. cbv zeta in *. destruct H as [-> Hl].
  unfold mul_cost in Hl. split; [intros E; rewrite E in Hl; lia | destruct (gen_xor3 gen); lia].
Qed.

Lemma builder_room_witness :
  (length (bld_ops (ec_code_build_ops gf8 (mk_gen true) [7; 0; 63]%Z))
   <= bld_size (ec_code_build_ops gf8 (mk_gen true) [7; 0; 63]%Z))%nat.
Proof.
  apply (builder_room (mk_gen true) [7; 0; 63]); [|discriminate | reflexivity].
  repeat apply Forall_cons_2; unfold in_field; try lia. apply Forall_nil_2.
Defined.

(** the bound is reached: for the row 0x3C, 0x3F and a generator without a
    three operand xor, the builder writes past the end of the array. *)
Theorem builder_overflow :
  let b := ec_code_build_ops gf8 (mk_gen false) [ec_gf_mul gf8 0x3F 0x3F; 0x3F] in
  (bld_size b < length (bld_ops b))%nat.
Proof. vm_compute. lia. Qed.

(** ** Geometry and alignment *)

(** a volume is accepted exactly when it has at least one redundant brick,
    fewer redundant bricks than fragments, at most 16 fragments and 31 bricks;
    then its mask has one bit per node, every node number fits in the bits
    reserved for it in directory offsets and a stripe is one chunk per
    fragment. *)
Theorem ec_geometry_accepts children redundancy :
  match ec_geometry children redundancy with
  | Some ec =>
      1 <= redundancy < children - redundancy /\ children - redundancy <= 16 /\ children <= 31 /\
      ec_nodes ec = children /\ ec_fragments ec = children - redundancy /\
      ec_node_mask ec = 2 ^ children - 1 /\
      2 ^ (ec_bits_for_nodes ec - 1) < ec_nodes ec <= 2 ^ ec_bits_for_nodes ec /\
      ec_stripe_size ec = ec_fragment_size ec * ec_fragments ec
  | None => ~ (1 <= redundancy < children - redundancy /\ children - redundancy <= 16 /\ children <= 31)
  end.
Proof.
  destruct (ec_geometry children redundancy) as [ec|] eqn:E.
  - destruct (geometry_spec _ _ _ E) as (Hn & Hf & Hr & H1 & H2 & H3 & Hm & Hfs & Hs).
    destruct (bits_for_nodes_spec _ _ _ E) as [Hb1 Hb2]. specialize (Hb2 ltac:(lia)).
    rewrite Hfs, Hs, Hm. lia.
  - revert E. unfold ec_geometry, ec_parse_options. change EC_MAX_NODES with 31. change EC_MAX_FRAGMENTS with 16.
    destruct (Z.ltb_spec 31 children); [lia|]. destruct (Z.ltb_spec redundancy 1); [lia|].
    destruct (Z.leb_spec (children - redundancy) redundancy); [lia|].
    destruct (Z.ltb_spec 16 (children - redundancy)); [lia|]. discriminate.
Qed.

(** the alignment helpers round to the previous and to the next stripe,
    scaled to the size of a fragment on request, and return the distance; when
    the next stripe is not a number of the type they return the largest one
    and the distance negated, and scaled values never overflow. *)
Theorem ec_alignment children redundancy ec value :
  ec_geometry children redundancy = Some ec -> 0 <= value ->
  let stripe := ec_stripe_size ec in
  let down := value / stripe in
  let up := (value + stripe - 1) / stripe in
  (value < 2 ^ 64 ->
    ec_adjust_size_down ec value true = (value mod stripe, down * 512) /\
    ec_adjust_size_down ec value false = (value mod stripe, down * stripe) /\
    ec_adjust_size_up ec value true = (up * stripe - value, up * 512) /\
    ec_adjust_size_up ec value false =
      (if up * stripe <? 2 ^ 64 then (up * stripe - value, up * stripe)
       else (- (up * stripe - value), 2 ^ 64 - 1))) /\
  (value <= GF_OFF_MAX ->
    ec_adjust_offset_down ec value true = (value mod stripe, down * 512) /\
    ec_adjust_offset_up ec value true = (up * stripe - value, up * 512) /\
    ec_adjust_offset_up ec value false =
      (if up * stripe <=? GF_OFF_MAX then (up * stripe - value, up * stripe)
       else (- (up * stripe - value), GF_OFF_MAX))).
Proof.
  intros Hgeo Hv stripe down up. destruct (geometry_spec _ _ _ Hgeo) as (_ & _ & _ & _ & Hf & _ & _ & Hfs & Hs).
  rewrite <- Hfs. split; intros Hb.
  - destruct (adjust_size_down_spec ec Hf Hfs Hs value ltac:(lia)) as [H1 H2].
    split; [exact H1|]. split; [exact H2|].
    split; [apply adjust_size_up_scaled | apply adjust_size_up_unscaled]; auto.
  - split; [apply adjust_offset_down_spec; auto|]. apply adjust_offset_up_spec; auto.
Qed.

Lemma ec_alignment_witness :
  exists ec, ec_geometry 6 2 = Some ec /\
    ec_adjust_size_up ec (2 ^ 64 - 5) false = (-5, 2 ^ 64 - 1) /\
    ec_adjust_offset_down ec 5000 true = (904, 1024).
Proof.
  destruct (ec_geometry 6 2) as [ec|] eqn:Hgeo; [|discriminate Hgeo]. exists ec. split; [reflexivity|].
  split.
  - destruct (ec_alignment 6 2 ec (2 ^ 64 - 5) Hgeo ltac:(lia)) as [H _].
    destruct (H ltac:(lia)) as (_ & _ & _ & ->). injection Hgeo as <-. reflexivity.
  - destruct (ec_alignment 6 2 ec 5000 Hgeo ltac:(lia)) as [_ H].
    destruct (H ltac:(unfold GF_OFF_MAX; lia)) as (-> & _). injection Hgeo as <-. reflexivity.
Defined.

(** ** Reads *)

(** What a brick holds of a file of [ia_size] bytes, and what it answers to a
    read of [size] bytes at [offset] of its fragment, an int32_t. *)
Definition fragment_bytes (ec : ec_t) (ia_size : Z) : Z := stripes ec ia_size * ec_fragment_size ec.
Definition brick_answer (ec : ec_t) (ia_size offset size : Z) : Z :=
  s32 (Z.max 0 (Z.min size (fragment_bytes ec ia_size - offset))).

Lemma stripes_cover ec value :
  0 < ec_stripe_size ec -> 0 <= value -> value <= stripes ec value * ec_stripe_size ec < value + ec_stripe_size ec.
Proof.
  intros Hs Hv. unfold stripes. set (s := ec_stripe_size ec) in *.
  pose proof (Z.div_mod (value + s - 1) s ltac:(lia)). pose proof (Z.mod_pos_bound (value + s - 1) s ltac:(lia)). lia.
Qed.

(** C40: a read of fewer than 2^31 bytes (the count that is answered is an int32_t)
    that starts inside of a file (offsets and sizes below 2^62) returns exactly the bytes the user asked for that
    the file has: the window starts at the byte of the decoded buffer that stands
    for the user's offset, holds the smaller of the size asked for and what is left
    of the file, and that is the count that is answered. *)
Theorem read_window_exact children redundancy ec offset size ia_size :
  ec_geometry children redundancy = Some ec ->
  0 <= offset < ia_size -> 0 < size < 2 ^ 31 -> offset + size < 2 ^ 62 -> ia_size < 2 ^ 62 ->
  let fop := ec_manager_readv_init ec offset size in
  let op_ret := brick_answer ec ia_size (fop_offset fop) (fop_size fop) in
  let '(start, len, ret) := rebuild_window ec fop op_ret ia_size in
  fop_offset fop * ec_fragments ec + start = offset /\
  len = Z.min size (ia_size - offset) /\ start + len <= op_ret * ec_fragments ec /\ ret = len.
Proof.
  intros Hgeo Ho Hsz Hos Hia. destruct (geometry_spec _ _ _ Hgeo) as (_ & _ & _ & _ & Hf & _ & _ & Hfs & Hs).
  assert (Hst : 0 < ec_stripe_size ec <= 2 ^ 13) by lia.
  unfold ec_manager_readv_init. rewrite adjust_offset_down_spec by (auto; lia).
  pose proof (Z.div_mod offset (ec_stripe_size ec) ltac:(lia)) as Hd.
  pose proof (Z.mod_pos_bound offset (ec_stripe_size ec) ltac:(lia)) as Hm.
  set (head := offset mod ec_stripe_size ec) in *. set (q := offset / ec_stripe_size ec) in *.
  unfold wrap_u64. rewrite Z.mod_small by lia. rewrite adjust_size_up_scaled by (auto; lia).
  cbv zeta. cbn [fop_offset fop_size].
  pose proof (stripes_cover ec (size + head) ltac:(lia) ltac:(lia)) as Hc1.
  pose proof (stripes_cover ec ia_size ltac:(lia) ltac:(lia)) as Hc2.
  set (s1 := stripes ec (size + head)) in *. set (s2 := stripes ec ia_size) in *.
  unfold brick_answer, fragment_bytes. fold s2. rewrite Hfs.
  assert (Hq : 0 <= q) by (apply Z.div_pos; lia).
  assert (Hs2 : q < s2) by nia. assert (Hs1 : 0 < s1) by nia.
  replace (Z.max 0 (Z.min (s1 * 512) (s2 * 512 - q * 512))) with (Z.min s1 (s2 - q) * 512) by lia.
  set (r := Z.min s1 (s2 - q)).
  assert (Eb : q * 512 * ec_fragments ec = q * ec_stripe_size ec) by lia.
  assert (Er : r * 512 * ec_fragments ec = r * ec_stripe_size ec) by lia.
  assert (Hr1 : r * ec_stripe_size ec <= s1 * ec_stripe_size ec) by (apply Z.mul_le_mono_nonneg_r; lia).
  assert (Hcase : r = s1 \/ r = s2 - q) by lia.
  assert (Hr0 : ec_stripe_size ec <= r * ec_stripe_size ec) by nia.
  assert (Hfit : 0 < r * 512 < 2 ^ 31) by nia. rewrite (s32_id (r * 512)) by lia.
  rewrite rebuild_window_spec; cbn [fop_offset fop_head fop_user_size]; rewrite ?Eb, ?Er; try lia.
  rewrite s32_id by lia. repeat split; lia.
Qed.

Lemma read_window_exact_witness :
  exists ec, ec_geometry 4 1 = Some ec /\
    let fop := ec_manager_readv_init ec 700 100 in
    rebuild_window ec fop (brick_answer ec 750 (fop_offset fop) (fop_size fop)) 750 = (700, 50, 50).
Proof.
  destruct (ec_geometry 4 1) as [ec|] eqn:Hgeo; [|discriminate Hgeo]. exists ec. split; [reflexivity|].
  pose proof (read_window_exact 4 1 ec 700 100 750 Hgeo ltac:(lia) ltac:(lia) ltac:(lia) ltac:(lia)) as H.
  cbv zeta in *. destruct (rebuild_window _ _ _ _) as [[start len] ret]. destruct H as (H1 & -> & _ & ->).
  do 2 f_equal. injection Hgeo as <-. change (fop_offset _ * ec_fragments _) with 0 in H1. lia.
Defined.

(** a read that starts after the end of the file but inside of its last
    stripe does not return 0 bytes: the subtraction wraps around and the user
    gets what the padding of the stripe holds. *)
Theorem read_past_eof_returns_padding ec fop op_ret ia_size :
  let base := fop_offset fop * ec_fragments ec in
  let size := op_ret * ec_fragments ec in
  0 <= base -> 0 <= fop_head fop < size -> base + size < 2 ^ 63 -> 0 < fop_user_size fop < 2 ^ 63 ->
  0 <= ia_size < base + fop_head fop ->
  rebuild_window ec fop op_ret ia_size =
    (let len := Z.min (fop_user_size fop) (size - fop_head fop) in (fop_head fop, len, s32 len)) /\
  0 < Z.min (fop_user_size fop) (size - fop_head fop).
Proof.
  intros base size Hb Hh Hs Hu Hi. split; [|lia]. unfold rebuild_window. fold base size. unfold wrap_u64.
  rewrite !(Z.mod_small size) by lia. rewrite (Z.mod_small (base + size)) by lia.
  rewrite !(Z.mod_small (size - fop_head fop)) by lia.
  destruct (Z.ltb_spec ia_size (base + size)); [|lia].
  replace (ia_size - (base + fop_head fop)) with ((2 ^ 64 + ia_size - (base + fop_head fop)) + (-1) * 2 ^ 64) by lia.
  rewrite Z.mod_add, Z.mod_small by lia.
  destruct (Z.ltb_spec (fop_user_size fop) (2 ^ 64 + ia_size - (base + fop_head fop))); [|lia].
  destruct (Z.ltb_spec (fop_user_size fop) (size - fop_head fop)).
  - rewrite Z.mod_small by lia. replace (Z.min _ _) with (fop_user_size fop) by lia. do 2 f_equal. lia.
  - replace (Z.min _ _) with (size - fop_head fop) by lia. reflexivity.
Qed.

Lemma read_past_eof_returns_padding_witness :
  exists ec, ec_geometry 4 1 = Some ec /\
    rebuild_window ec (ec_manager_readv_init ec 1200 100) 512 1000 = (1200, 100, 100).
Proof.
  destruct (ec_geometry 4 1) as [ec|] eqn:Hgeo; [|discriminate Hgeo]. exists ec. split; [reflexivity|].
  injection Hgeo as <-. set (ec := mk_ec _ _ _ _ _ _ _).
  destruct (read_past_eof_returns_padding ec (ec_manager_readv_init ec 1200 100) 512 1000) as [-> _];
    [vm_compute; intuition congruence .. | reflexivity].
Defined.

(** ** Tearing the list down *)

(** Taking the matrices of some masks, with new names for new objects, and
    giving all references back. *)
Fixpoint take_all (compiles : list ec_code_op -> bool) (l : ec_matrix_list) (held : list (nat * Z))
    (ms : list Z) : ec_matrix_list * list (nat * Z) :=
  match ms with
  | [] => (l, held)
  | mask :: ms =>
      match ec_method_matrix_get compiles l mask (rows_of_mask mask)
              (Some (fresh (dom (D := gset nat) (ml_heap l)))) with
      | (l', Some id) => take_all compiles l' ((id, mask) :: held) ms
      | (l', None) => (l', held)
      end
  end.

Fixpoint put_all (l : ec_matrix_list) (held : list (nat * Z)) : ec_matrix_list :=
  match held with
  | [] => l
  | (id, _) :: held => put_all (ec_method_matrix_put l id) held
  end.

Lemma take_all_steps compiles ec ms : forall l held,
  Forall (read_mask (ec_k ec)) ms -> Z.of_nat (length held + length ms) < 2 ^ 32 ->
  rtc (ec_step compiles ec) (l, held) (take_all compiles l held ms).
Proof.
  induction ms as [|mask ms IH]; intros l held Hms Hlen; [apply rtc_refl|].
  apply Forall_cons in Hms as [Hm Hms]. cbn [take_all length] in *.
  assert (Hf : forall i, Some (fresh (dom (D := gset nat) (ml_heap l))) = Some i -> ml_heap l !! i = None).
  { intros i [= <-]. apply (not_elem_of_dom (D := gset nat)), is_fresh. }
  destruct (ec_method_matrix_get _ _ _ _ _) as [l' [id|]] eqn:Hg.
  - eapply rtc_l; [eapply step_get; eauto; lia|]. apply IH; [auto | cbn; lia].
  - apply rtc_once. eapply step_get_fail; eauto. lia.
Qed.

Lemma put_all_steps compiles ec held : forall l,
  rtc (ec_step compiles ec) (l, held) (put_all l held, []).
Proof.
  induction held as [|[id mask] held IH]; intros l; [apply rtc_refl|].
  eapply rtc_l; [apply (step_put _ _ _ l [] id mask held)|]. apply IH.
Qed.

(** the count of the list is not the number of live matrices: after 13
    simultaneous decodes of a 4 + 2 volume, whose list holds at most 12, all
    references are returned and yet tearing the list down leaves a count of
    2^32 - 1 instead of 0. *)
Theorem fini_count_underflow :
  exists ec l, ec_geometry 6 2 = Some ec /\
    ec_reach (fun _ => false) ec (2 * ec_nodes ec) None l [] /\ ml_count (ec_method_fini l) = 2 ^ 32 - 1.
Proof.
  destruct (ec_geometry 6 2) as [ec|] eqn:Hgeo; [|discriminate Hgeo].
  set (ms := [15; 23; 27; 29; 30; 39; 43; 45; 46; 51; 53; 54; 57]).
  assert (Hk : ec_k ec = 4%nat /\ ec_n ec = 6%nat /\ ec_nodes ec = 6)
    by (injection Hgeo as <-; repeat split; reflexivity). destruct Hk as (Hk & Hn & Hnodes).
  destruct (ec_method_init (fun _ => false) 4 6 12 None) as [l0|] eqn:Hi.
  2: { rewrite init_unfold in Hi. cbv zeta in Hi.
       destruct (ec_method_matrix_init _ _ _ _ _ _) as [code m]. discriminate. }
  exists ec, (put_all (take_all (fun _ => false) l0 [] ms).1 (take_all (fun _ => false) l0 [] ms).2).
  split; [reflexivity|]. split.
  - exists l0. rewrite Hk, Hn, Hnodes. split; [exact Hi|].
    etransitivity; [apply (take_all_steps _ ec ms) | ].
    + rewrite Hk. unfold ms. repeat apply Forall_cons_2; try reflexivity. apply Forall_nil_2.
    + cbn. lia.
    + rewrite (surjective_pairing (take_all (fun _ => false) l0 [] ms)) at 1. apply put_all_steps.
  - assert (H : match ec_method_init (fun _ => false) 4 6 12 None with
      | Some l => ml_count (ec_method_fini
          (put_all (take_all (fun _ => false) l [] ms).1 (take_all (fun _ => false) l [] ms).2))
      | None => 0 end = 2 ^ 32 - 1) by (vm_compute; reflexivity).
    rewrite Hi in H. exact H.
Qed.
