(* ===== verification/Bytes.v ===== *)
(** * Lists of bytes

    Lengths, prefixes and suffixes counted in [Z], and the byte at a position: 0
    outside of the list. *)

From S2P Require Import Prelude.
Open Scope Z_scope.

Definition zlen {A} (l : list A) : Z := Z.of_nat (length l).
Definition byte (l : list Z) (p : Z) : Z := if p <? 0 then 0 else nth (Z.to_nat p) l 0.
Definition zeros (n : Z) : list Z := replicate (Z.to_nat n) 0.
Definition ztake {A} (n : Z) (l : list A) : list A := take (Z.to_nat n) l.
Definition zdrop {A} (n : Z) (l : list A) : list A := drop (Z.to_nat n) l.
Definition pad (l : list Z) (n : Z) : list Z := l ++ zeros (n - zlen l).

Lemma zlen_nonneg {A} (l : list A) : 0 <= zlen l.
Proof. unfold zlen. lia. Qed.

Lemma zlen_app {A} (l k : list A) : zlen (l ++ k) = zlen l + zlen k.
Proof. unfold zlen. rewrite length_app. lia. Qed.

Lemma zlen_zeros n : zlen (zeros n) = Z.max 0 n.
Proof. unfold zlen, zeros. rewrite length_replicate. lia. Qed.

Lemma zlen_pad l n : zlen (pad l n) = Z.max (zlen l) n.
Proof. unfold pad. rewrite zlen_app, zlen_zeros. pose proof (zlen_nonneg l). lia. Qed.

Lemma zlen_ztake {A} n (l : list A) : zlen (ztake n l) = Z.min (Z.max 0 n) (zlen l).
Proof. unfold zlen, ztake. rewrite length_take. lia. Qed.

Lemma zlen_zdrop {A} n (l : list A) : zlen (zdrop n l) = Z.max 0 (zlen l - Z.max 0 n).
Proof. unfold zlen, zdrop. rewrite length_drop. lia. Qed.

Lemma byte_lookup l p : 0 <= p -> byte l p = default 0 (l !! Z.to_nat p).
Proof. intros Hp. unfold byte. rewrite (proj2 (Z.ltb_ge _ _) Hp). apply nth_lookup. Qed.

Lemma byte_neg l p : p < 0 -> byte l p = 0.
Proof. intros Hp. unfold byte. rewrite (proj2 (Z.ltb_lt _ _) Hp). reflexivity. Qed.

Lemma byte_over l p : zlen l <= p -> byte l p = 0.
Proof.
  intros Hp. pose proof (zlen_nonneg l). unfold byte, zlen in *. rewrite (proj2 (Z.ltb_ge p 0)) by lia.
  apply nth_overflow. lia.
Qed.

Lemma byte_app l k p : byte (l ++ k) p = if p <? zlen l then byte l p else byte k (p - zlen l).
Proof.
  destruct (Z.ltb_spec p (zlen l)) as [Hp|Hp].
  - destruct (Z_lt_le_dec p 0); [rewrite !byte_neg by lia; reflexivity|].
    unfold zlen in Hp. rewrite !byte_lookup, lookup_app_l by lia. reflexivity.
  - pose proof (zlen_nonneg l). rewrite !byte_lookup by lia. unfold zlen in *.
    rewrite lookup_app_r by lia. do 2 f_equal. lia.
Qed.

Lemma byte_zeros n p : byte (zeros n) p = 0.
Proof.
  destruct (Z_lt_le_dec p 0); [apply byte_neg; lia|]. rewrite byte_lookup by lia. unfold zeros.
  destruct (replicate _ _ !! _) eqn:E; [|reflexivity]. apply lookup_replicate in E as [-> _]. reflexivity.
Qed.

Lemma byte_pad l n p : byte (pad l n) p = byte l p.
Proof.
  unfold pad. rewrite byte_app. destruct (Z.ltb_spec p (zlen l)); [reflexivity|].
  rewrite byte_zeros, byte_over by lia. reflexivity.
Qed.

Lemma byte_ztake l n p : byte (ztake n l) p = if p <? n then byte l p else 0.
Proof.
  destruct (Z_lt_le_dec p 0); [rewrite !byte_neg by lia; destruct (p <? n); reflexivity|].
  destruct (Z.ltb_spec p n).
  - rewrite !byte_lookup by lia. unfold ztake. rewrite lookup_take_lt by lia. reflexivity.
  - rewrite byte_over; [reflexivity|]. rewrite zlen_ztake. lia.
Qed.

Lemma byte_zdrop l n p : 0 <= n -> 0 <= p -> byte (zdrop n l) p = byte l (n + p).
Proof.
  intros Hn Hp. rewrite !byte_lookup by lia. unfold zdrop. rewrite lookup_drop. do 2 f_equal. lia.
Qed.

Lemma byte_ext l k : zlen l = zlen k -> (forall p, 0 <= p < zlen l -> byte l p = byte k p) -> l = k.
Proof.
  unfold zlen. intros Hl Hb. apply list_eq. intros i.
  destruct (Nat.lt_ge_cases i (length l)) as [Hi|Hi].
  - specialize (Hb (Z.of_nat i) ltac:(lia)). rewrite !byte_lookup, Nat2Z.id in Hb by lia.
    destruct (lookup_lt_is_Some_2 l i Hi) as [x Hx].
    destruct (lookup_lt_is_Some_2 k i ltac:(lia)) as [y Hy]. rewrite Hx, Hy in *. cbn in Hb. congruence.
  - rewrite !lookup_ge_None_2 by lia. reflexivity.
Qed.
