(* ===== verification/DhtHash.v ===== *)
(** * Hashing of names

    Models the Davies-Meyer hash of [libglusterfs/src/hashfn.c] and
    [xlators/cluster/dht/src/dht-hashfn.c], which decide on what subvolume of a
    distributed volume a name lives.

    A name is the list of its bytes, each from 0 to 255, without the
    terminating NUL.  Unsigned 32-bit arithmetic is written out modulo 2^32,
    words are read from memory in little endian order.  Whether the type char
    is signed depends on the platform and is the argument [char_signed] of the
    functions that convert a char.  POSIX regular expressions are not part of
    the sources: a compiled expression is the function that gives the first
    submatch of a name, as regexec does. *)

From S2P Require Import Prelude Words.
Open Scope Z_scope.

Definition DM_DELTA : Z := 0x9E3779B9.
Definition DM_FULLROUNDS : nat := 10.
Definition DM_PARTROUNDS : nat := 6.

Record dm_key := mk_key { key0 : Z; key1 : Z; key2 : Z; key3 : Z }.

(** One half of a round: what is added to a word of the block. *)
Definition dm_mix (b k k' sum : Z) : Z :=
  Z.lxor (Z.lxor (u32 (u32 (Z.shiftl b 4) + k)) (u32 (b + sum))) (u32 (Z.shiftr b 5 + k')).

(** The [do ... while (--n)] loop of [dm_round]. *)
Fixpoint dm_rounds (n : nat) (array : dm_key) (sum b0 b1 : Z) : Z * Z :=
  match n with
  | O => (b0, b1)
  | S n' =>
      let sum := u32 (sum + DM_DELTA) in
      let b0 := u32 (b0 + dm_mix b1 (key0 array) (key1 array) sum) in
      let b1 := u32 (b1 + dm_mix b0 (key2 array) (key3 array) sum) in
      dm_rounds n' array sum b0 b1
  end.

Definition dm_round (rounds : nat) (array : dm_key) (h : Z * Z) : Z * Z :=
  let '(h0, h1) := h in
  let '(b0, b1) := dm_rounds rounds array 0 h0 h1 in
  (u32 (h0 + b0), u32 (h1 + b1)).

Definition __pad (len : Z) : Z :=
  let pad := Z.lor (u32 len) (u32 (Z.shiftl len 8)) in
  Z.lor pad (u32 (Z.shiftl pad 16)).

(** A word of four bytes read from memory. *)
Definition word_at (msg : list Z) (pos : nat) : Z :=
  (msg !!! pos) + Z.shiftl (msg !!! (pos + 1)%nat) 8 + Z.shiftl (msg !!! (pos + 2)%nat) 16 +
  Z.shiftl (msg !!! (pos + 3)%nat) 24.

Section hash.
Context (char_signed : bool).

(** A char converted to uint32_t. *)
Definition char_u32 (c : Z) : Z := if char_signed && (128 <=? c) then u32 (c - 256) else c.

(** [while (full_bytes)]: the remaining bytes shifted into the word. *)
Fixpoint tail_loop (w : Z) (bytes : list Z) : Z :=
  match bytes with
  | [] => w
  | c :: bytes => tail_loop (Z.lor (u32 (Z.shiftl w 8)) (char_u32 c)) bytes
  end.

(** The quads read in full. *)
Fixpoint quads_loop (n : nat) (msg : list Z) (pos : nat) (h : Z * Z) : Z * Z :=
  match n with
  | O => h
  | S n' =>
      let array := mk_key (word_at msg pos) (word_at msg (pos + 4)) (word_at msg (pos + 8))
                     (word_at msg (pos + 12)) in
      quads_loop n' msg (pos + 16) (dm_round DM_PARTROUNDS array h)
  end.

(** One iteration of the last loop, [for (j = 0; j < 4; j++)]: the word, and
    the full words, the full bytes and the position left. *)
Definition last_word (msg : list Z) (pad : Z) (st : nat * nat * nat) : Z * (nat * nat * nat) :=
  let '(full_words, full_bytes, pos) := st in
  match full_words with
  | S full_words => (word_at msg pos, (full_words, (full_bytes - 4)%nat, (pos + 4)%nat))
  | O => (tail_loop pad (drop (length msg - full_bytes) msg), (O, O, pos))
  end.

Definition gf_dm_hashfn (msg : list Z) : Z :=
  let len := length msg in
  let pad := __pad (Z.of_nat len) in
  let full_quads := (len / 16)%nat in
  let h := quads_loop full_quads msg 0 (0x9464a485, 0x542e1a94) in
  let st := ((len / 4 - full_quads * 4)%nat, (len - full_quads * 16)%nat, (full_quads * 16)%nat) in
  let '(a0, st) := last_word msg pad st in
  let '(a1, st) := last_word msg pad st in
  let '(a2, st) := last_word msg pad st in
  let '(a3, _) := last_word msg pad st in
  let '(h0, h1) := dm_round DM_FULLROUNDS (mk_key a0 a1 a2 a3) h in
  Z.lxor h0 h1.

Definition DHT_HASH_TYPE_DM : Z := 0.
Definition DHT_HASH_TYPE_DM_USER : Z := 1.

(** [None] is -1. *)
Definition dht_hash_compute_internal (type : Z) (name : list Z) : option Z :=
  if (type =? DHT_HASH_TYPE_DM) || (type =? DHT_HASH_TYPE_DM_USER) then Some (gf_dm_hashfn name) else None.

(** ** Munging *)

(** What regexec reports: no match, or a match whose first group took no part,
    or took the bytes from the first position to before the second. *)
Inductive re_result := RE_NOMATCH | RE_NOGROUP | RE_GROUP (so eo : nat).
Definition regex : Type := list Z -> re_result.

(** [dht_munge_name]: whether the name was munged, and the new name.  [len] is
    the size of the destination. *)
Definition dht_munge_name (original : list Z) (len : nat) (re : regex) : bool * list Z :=
  match re original with
  | RE_GROUP so eo =>
      let new_len := (eo - so)%nat in
      if (new_len <? len)%nat then (true, take new_len (drop so original)) else (false, original)
  | _ => (false, original)
  end.

(** The two expressions of the configuration; [None] when not valid. *)
Record hash_conf := mk_hash_conf { extra_regex : option regex; rsync_regex : option regex }.

Definition dht_hash_compute (conf : hash_conf) (type : Z) (name : list Z) : option Z :=
  let len := S (length name) in
  let '(munged, friendly) :=
    match extra_regex conf with
    | Some re => dht_munge_name name len re
    | None => (false, name)
    end in
  let '(munged, friendly) :=
    if munged then (true, friendly)
    else match rsync_regex conf with
         | Some re => dht_munge_name name len re
         | None => (false, friendly)
         end in
  dht_hash_compute_internal type (if munged then friendly else name).
End hash.

(** ** Facts *)

Lemma lxor_u32 x y : 0 <= x < 2 ^ 32 -> 0 <= y < 2 ^ 32 -> 0 <= Z.lxor x y < 2 ^ 32.
Proof.
  intros Hx Hy. split; [apply Z.lxor_nonneg; lia|].
  destruct (Z.eq_dec (Z.lxor x y) 0) as [->|Hn]; [lia|].
  assert (0 <= Z.lxor x y) by (apply Z.lxor_nonneg; lia).
  apply Z.log2_lt_pow2; [lia|]. eapply Z.le_lt_trans; [apply Z.log2_lxor; lia|].
  apply Z.max_lub_lt; (destruct (Z.eq_dec x 0) as [->|], (Z.eq_dec y 0) as [->|]; cbn; try lia);
    apply Z.log2_lt_pow2; lia.
Qed.

Lemma gf_dm_hashfn_range s msg : 0 <= gf_dm_hashfn s msg < 2 ^ 32.
Proof.
  unfold gf_dm_hashfn. cbv zeta.
  destruct (last_word _ _ _ _) as [a0 st0]. destruct (last_word _ _ _ _) as [a1 st1].
  destruct (last_word _ _ _ _) as [a2 st2]. destruct (last_word _ _ _ _) as [a3 st3].
  unfold dm_round. destruct (quads_loop _ _ _ _) as [h0 h1]. destruct (dm_rounds _ _ _ _ _) as [b0 b1].
  apply lxor_u32; apply u32_range.
Qed.
