(* ===== verification/DhtLayout.v ===== *)
(** * Directory layouts of a distributed volume

    Models [xlators/cluster/dht/src/dht-layout.c] and the functions of
    [dht-selfheal.c] that compute and repair layouts.

    A layout assigns ranges of hash values to subvolumes.  A subvolume is known
    by its name, which is unique in a graph; [None] stands for NULL.  The array
    [list] is a list and [cnt] its length, which is at least 1 wherever the
    code reads [list[0]].  Errors are errno values, or -1 for a directory
    without a layout.  Reference counts and the inode context that owns a
    layout are not modelled. *)

From S2P Require Import Prelude Words DhtHash.
From stdpp Require Import strings.
Open Scope Z_scope.

Definition ENOENT : Z := 2.
Definition EINVAL : Z := 22.
Definition ENOSPC : Z := 28.
Definition ENOTCONN : Z := 107.
Definition ESTALE : Z := 116.

Definition xlator : Type := string.

Record layout_entry := mk_entry {
  le_err : Z;
  le_start : Z;
  le_stop : Z;
  le_commit_hash : Z;
  le_xlator : option xlator
}.

Record dht_layout := mk_layout {
  spread_cnt : Z;
  preset : bool;
  commit_hash : Z;
  layout_type : Z;
  layout_list : list layout_entry
}.

Definition layout_cnt (l : dht_layout) : nat := length (layout_list l).

Definition set_list (l : dht_layout) v := mk_layout (spread_cnt l) (preset l) (commit_hash l) (layout_type l) v.
Definition set_commit_hash (l : dht_layout) v := mk_layout (spread_cnt l) (preset l) v (layout_type l) (layout_list l).
Definition set_type (l : dht_layout) v := mk_layout (spread_cnt l) (preset l) (commit_hash l) v (layout_list l).
Definition set_err (e : layout_entry) v := mk_entry v (le_start e) (le_stop e) (le_commit_hash e) (le_xlator e).
Definition set_range (e : layout_entry) start stop := mk_entry (le_err e) start stop (le_commit_hash e) (le_xlator e).

#[global] Instance layout_entry_inhabited : Inhabited layout_entry := populate (mk_entry 0 0 0 0 None).

(** The zeroed entries of [GF_CALLOC]; [spread] is [conf->dir_spread_cnt]. *)
Definition dht_layout_new (spread : Z) (cnt : nat) : dht_layout :=
  mk_layout spread false 0 DHT_HASH_TYPE_DM (replicate cnt (mk_entry 0 0 0 0 None)).

(** ** Search *)

(** The loop of [dht_layout_search]. *)
Fixpoint search_hash (l : list layout_entry) (hash : Z) : option xlator :=
  match l with
  | [] => None
  | e :: l => if (le_start e <=? hash) && (hash <=? le_stop e) then le_xlator e else search_hash l hash
  end.

Definition dht_layout_search (char_signed : bool) (conf : hash_conf) (layout : dht_layout) (name : list Z)
    : option xlator :=
  match dht_hash_compute char_signed conf (layout_type layout) name with
  | Some hash => search_hash (layout_list layout) hash
  | None => None
  end.

Definition same_xlator (x y : option xlator) : bool := bool_decide (x = y).

Fixpoint index_of (l : list layout_entry) (subvol : xlator) (i : nat) : option nat :=
  match l with
  | [] => None
  | e :: l => if same_xlator (le_xlator e) (Some subvol) then Some i else index_of l subvol (S i)
  end.

(** [None] is -1. *)
Definition dht_layout_index_for_subvol (layout : dht_layout) (subvol : xlator) : option nat :=
  index_of (layout_list layout) subvol 0.

(** ** Layouts on disk *)

(** The four words of the extended attribute, as they are in memory. *)
Definition dht_disk_layout_extract (layout : dht_layout) (pos : nat) : list Z :=
  let e := layout_list layout !!! pos in
  [hton32 (le_commit_hash e); hton32 (layout_type layout); hton32 (le_start e); hton32 (le_stop e)].

Definition dht_disk_layout_extract_for_subvol (layout : dht_layout) (subvol : xlator) : option (list Z) :=
  match dht_layout_index_for_subvol layout subvol with
  | Some i => Some (dht_disk_layout_extract layout i)
  | None => None
  end.

(** Outcome of merging a layout found on disk: 0, -1, or undefined behaviour
    when the attribute is longer than the four words of the buffer it is copied
    to (the assertion on the length only logs) and when words were not
    written. *)
Inductive merge_result := MERGE_OK (l : dht_layout) | MERGE_ERR (l : dht_layout) | MERGE_UNDEF.

Definition dht_disk_layout_merge (layout : dht_layout) (pos : nat) (raw : list Z) : merge_result :=
  match raw with
  | [d0; d1; d2; d3] =>
      let type := hton32 d1 in
      if (type =? DHT_HASH_TYPE_DM_USER) || (type =? DHT_HASH_TYPE_DM) then
        let layout := if type =? DHT_HASH_TYPE_DM_USER then set_type layout type else layout in
        let e := layout_list layout !!! pos in
        let e := mk_entry (le_err e) (hton32 d2) (hton32 d3) (hton32 d0) (le_xlator e) in
        MERGE_OK (set_list layout (<[pos := e]> (layout_list layout)))
      else MERGE_ERR layout
  | _ => MERGE_UNDEF
  end.

(** First entry without a subvolume; the length when there is none. *)
Fixpoint free_entry (l : list layout_entry) : nat :=
  match l with
  | [] => O
  | e :: l => match le_xlator e with None => O | Some _ => S (free_entry l) end
  end.

Definition DHT_LAYOUT_HASH_INVALID : Z := 1.

(** [dht_layout_merge]: the answer of a subvolume to a lookup or mkdir.
    [xattr] is [None] without a dictionary or when it has no layout (the value
    of the layout's key otherwise).  When all entries have a subvolume the code
    writes past the array. *)
Definition dht_layout_merge (layout : dht_layout) (subvol : xlator) (op_ret op_errno : Z)
    (xattr : option (list Z)) : merge_result :=
  let err := if op_ret =? 0 then -1 else op_errno in
  let i := free_entry (layout_list layout) in
  if (layout_cnt layout <=? i)%nat then if op_ret =? 0 then MERGE_UNDEF else MERGE_OK layout
  else
    let e := layout_list layout !!! i in
    let e := mk_entry err (le_start e) (le_stop e) (le_commit_hash e) (Some subvol) in
    let layout := set_list layout (<[i := e]> (layout_list layout)) in
    if negb (op_ret =? 0) then MERGE_OK layout
    else
      match xattr with
      | None => MERGE_OK (set_list layout (<[i := set_err e 0]> (layout_list layout)))
      | Some raw =>
          match dht_disk_layout_merge layout i raw with
          | MERGE_OK layout =>
              let e := layout_list layout !!! i in
              let layout :=
                if commit_hash layout =? 0 then set_commit_hash layout (le_commit_hash e)
                else if negb (commit_hash layout =? le_commit_hash e)
                then set_commit_hash layout DHT_LAYOUT_HASH_INVALID else layout in
              MERGE_OK (set_list layout (<[i := set_err e 0]> (layout_list layout)))
          | r => r
          end
      end.

(** ** Sorting *)

Definition dht_layout_entry_swap (l : list layout_entry) (i j : nat) : list layout_entry :=
  <[j := l !!! i]> (<[i := l !!! j]> l).

Definition dht_layout_range_swap (l : list layout_entry) (i j : nat) : list layout_entry :=
  let ei := l !!! i in
  let ej := l !!! j in
  let l := <[i := set_range ei (le_start ej) (le_stop ej)]> l in
  <[j := set_range (l !!! j) (le_start ei) (le_stop ei)]> l.

(** [dht_layout_entry_cmp] of entries [a] at [i] and [b] at [j]. *)
Definition dht_layout_entry_cmp (a b : layout_entry) : Z :=
  if (le_start b =? 0) && (le_stop b =? 0) then le_stop a - le_stop b else le_start a - le_start b.

(** strcmp of the names of the subvolumes, up to its sign. *)
Definition dht_layout_entry_cmp_volname (a b : layout_entry) : Z :=
  match le_xlator a, le_xlator b with
  | Some x, Some y => match String.compare x y with Lt => -1 | Eq => 0 | Gt => 1 end
  | _, _ => 0
  end.

(** The body of the two nested loops. *)
Definition sort_step (cmp : layout_entry -> layout_entry -> Z) (i : nat) (l : list layout_entry) (j : nat)
    : list layout_entry :=
  if 0 <? cmp (l !!! i) (l !!! j) then dht_layout_entry_swap l i j else l.

Definition sort_with (cmp : layout_entry -> layout_entry -> Z) (l : list layout_entry) : list layout_entry :=
  let cnt := length l in
  foldl (fun l i => foldl (sort_step cmp i) l (seq (S i) (cnt - S i))) l (seq 0 (cnt - 1)).

Definition dht_layout_sort (layout : dht_layout) : dht_layout :=
  set_list layout (sort_with dht_layout_entry_cmp (layout_list layout)).

Definition dht_layout_sort_volname (layout : dht_layout) : dht_layout :=
  set_list layout (sort_with dht_layout_entry_cmp_volname (layout_list layout)).

(** ** Anomalies *)

Record anomalies := mk_anomalies {
  an_missing : Z;
  an_down : Z;
  an_no_space : Z;
  an_misc : Z;
  an_holes : Z;
  an_overlaps : Z;
  an_prev_stop : Z;
  an_virgin : bool
}.

(** One entry of the scan. *)
Definition anomaly_step (a : anomalies) (e : layout_entry) : anomalies :=
  let '(mk_anomalies missing down no_space misc holes overlaps prev_stop virgin) := a in
  let err := le_err e in
  if (err =? -1) || (err =? ENOENT) || (err =? ESTALE)
  then mk_anomalies (missing + 1) down no_space misc holes overlaps prev_stop virgin
  else if err =? ENOTCONN then mk_anomalies missing (down + 1) no_space misc holes overlaps prev_stop virgin
  else if err =? ENOSPC then mk_anomalies missing down (no_space + 1) misc holes overlaps prev_stop virgin
  else if err =? 0 then
    if le_start e =? le_stop e then a
    else
      let holes := if u32 (prev_stop + 1) <? le_start e then holes + 1 else holes in
      let overlaps := if le_start e <? u32 (prev_stop + 1) then overlaps + 1 else overlaps in
      mk_anomalies missing down no_space misc holes overlaps (le_stop e) false
  else mk_anomalies missing down no_space (misc + 1) holes overlaps prev_stop virgin.

(** [dht_layout_anomalies]; the counts are in the result. *)
Definition dht_layout_anomalies (l : list layout_entry) : anomalies :=
  let last_stop := u32 (le_start (l !!! O) - 1) in
  let a := foldl anomaly_step (mk_anomalies 0 0 0 0 0 0 last_stop true) l in
  if negb (u32 (last_stop - an_prev_stop a) =? 0) || an_virgin a
  then mk_anomalies (an_missing a) (an_down a) (an_no_space a) (an_misc a) (an_holes a + 1) (an_overlaps a)
         (an_prev_stop a) (an_virgin a)
  else a.

Definition missing_dir (e : layout_entry) : bool :=
  (le_err e =? ENOENT) || ((le_err e =? -1) && (le_start e =? 0) && (le_stop e =? 0)).

Definition dht_layout_missing_dirs (l : list layout_entry) : Z :=
  Z.of_nat (length (filter (fun e => missing_dir e) l)).

(** [dht_layout_normalize]: the sorted layout and the result. *)
Definition dht_layout_normalize (layout : dht_layout) : dht_layout * Z :=
  let layout := dht_layout_sort layout in
  let a := dht_layout_anomalies (layout_list layout) in
  if negb (an_holes a =? 0) || negb (an_overlaps a =? 0) then (layout, -1)
  else (layout, dht_layout_missing_dirs (layout_list layout)).

(** [dht_layout_dir_mismatch]; [xattr] is [None] without a dictionary, and
    [Some None] when the dictionary has no layout.  A value shorter than four
    words is read past its end; longer ones are cut. *)
Definition dht_layout_dir_mismatch (layout : dht_layout) (subvol : xlator) (xattr : option (option (list Z)))
    : option Z :=
  match dht_layout_index_for_subvol layout subvol with
  | None => Some 1
  | Some pos =>
      let e := layout_list layout !!! pos in
      match xattr with
      | None => Some (if le_err e =? 0 then -1 else 0)
      | Some None => Some (if (le_err e =? 0) && negb (le_stop e =? 0) then -1 else 0)
      | Some (Some (d0 :: _ :: d2 :: d3 :: _)) =>
          Some (if negb (le_start e =? hton32 d2) || negb (le_stop e =? hton32 d3)
                   || negb (le_commit_hash e =? hton32 d0) then 1 else 0)
      | Some (Some _) => None
      end
  end.

(** Whether a subvolume has a range; two subvolumes are compared by name. *)
Fixpoint in_layout (l : list layout_entry) (subvol : xlator) : bool :=
  match l with
  | [] => false
  | e :: l =>
      if same_xlator (le_xlator e) (Some subvol) then negb (le_start e =? le_stop e) else in_layout l subvol
  end.

Definition dht_is_subvol_in_layout (layout : dht_layout) (subvol : xlator) : bool :=
  in_layout (layout_list layout) subvol.
