(* ===== verification/DhtFacts.v ===== *)
(** * Facts on layouts: sorting, anomalies, search, disk format *)

From S2P Require Import Prelude Words DhtHash DhtLayout.
From stdpp Require Import strings.
From Stdlib Require Import Sorting.Sorted.
Open Scope Z_scope.

(** ** The exchange sort *)

Section exchange.
Context (cmp : layout_entry -> layout_entry -> Z) (ok : layout_entry -> Prop) (R : relation layout_entry).
Context (Hswap : forall a b, ok a -> ok b -> 0 < cmp a b -> R b a)
  (Hkeep : forall a b, ok a -> ok b -> cmp a b <= 0 -> R a b)
  (Htrans : forall a b c, R a b -> R b c -> R a c).

Lemma entry_swap_perm l i j : (i < length l)%nat -> (j < length l)%nat -> dht_layout_entry_swap l i j ≡ₚ l.
Proof using Type.
  intros Hi Hj. unfold dht_layout_entry_swap.
  destruct (lookup_lt_is_Some_2 l i Hi) as [x Hx]. destruct (lookup_lt_is_Some_2 l j Hj) as [y Hy].
  rewrite (list_lookup_total_correct _ _ _ Hx), (list_lookup_total_correct _ _ _ Hy).
  apply Permutation_insert_swap; assumption.
Qed.

Lemma entry_swap_lookup l i j k :
  (i < length l)%nat -> (j < length l)%nat ->
  dht_layout_entry_swap l i j !!! k =
    if decide (k = j) then l !!! i else if decide (k = i) then l !!! j else l !!! k.
Proof using Type.
  intros Hi Hj. unfold dht_layout_entry_swap. destruct (decide (k = j)) as [->|].
  { apply list_lookup_total_insert_eq. rewrite length_insert. exact Hj. }
  rewrite list_lookup_total_insert_ne by auto. destruct (decide (k = i)) as [->|].
  - apply list_lookup_total_insert_eq. exact Hi.
  - apply list_lookup_total_insert_ne. auto.
Qed.

Lemma ok_lookup l k : Forall ok l -> (k < length l)%nat -> ok (l !!! k).
Proof using Type.
  intros Hl Hk. destruct (lookup_lt_is_Some_2 l k Hk) as [x Hx].
  rewrite (list_lookup_total_correct _ _ _ Hx). eapply Forall_lookup_1 in Hl; eauto.
Qed.

(** What an inner loop over [i + 1 .. i + m] does. *)
Definition inner_done (i m : nat) (l l' : list layout_entry) : Prop :=
  l' ≡ₚ l /\ (forall t, (t < i)%nat -> l' !!! t = l !!! t) /\
  (forall u, (i <= u < length l)%nat -> exists u', (i <= u' < length l)%nat /\ l' !!! u = l !!! u') /\
  (forall j, (i < j <= i + m)%nat -> R (l' !!! i) (l' !!! j)).

Lemma inner_loop i m l :
  Forall ok l -> (i + m < length l)%nat ->
  inner_done i m l (foldl (sort_step cmp i) l (seq (S i) m)).
Proof using All.
  intros Hok. induction m as [|m IH]; intros Hm.
  { repeat split; [auto | intros u Hu; exists u; auto | lia]. }
  rewrite seq_S, foldl_app. cbn [foldl]. destruct (IH ltac:(lia)) as (Hp & Hlow & Hfrom & Hmin).
  set (l1 := foldl _ l _) in *. set (j := (S i + m)%nat).
  pose proof (Permutation_length Hp) as Hlen.
  assert (Hok1 : Forall ok l1) by (rewrite Hp; exact Hok).
  assert (Hoi : ok (l1 !!! i)) by (apply ok_lookup; [exact Hok1 | lia]).
  assert (Hoj : ok (l1 !!! j)) by (apply ok_lookup; [exact Hok1 | unfold j; lia]).
  unfold sort_step. destruct (Z.ltb_spec 0 (cmp (l1 !!! i) (l1 !!! j))) as [Hgt|Hle].
  - assert (Hlk := entry_swap_lookup l1 i j). specialize (Hswap _ _ Hoi Hoj Hgt).
    repeat split.
    + rewrite entry_swap_perm by (unfold j; lia). exact Hp.
    + intros t Ht. rewrite Hlk, !decide_False by (unfold j; lia). auto.
    + intros u Hu. rewrite Hlk by (unfold j; lia). destruct (decide (u = j)); [apply Hfrom; lia|].
      destruct (decide (u = i)); apply Hfrom; unfold j; lia.
    + intros k Hk. rewrite !Hlk by (unfold j; lia). rewrite (decide_False (P := i = j)) by (unfold j; lia).
      rewrite (decide_True (P := i = i)) by auto. destruct (decide (k = j)) as [->|]; [exact Hswap|].
      rewrite decide_False by lia. eapply Htrans; [exact Hswap | apply Hmin; unfold j in *; lia].
  - repeat split; auto. intros k Hk. destruct (decide (k = j)) as [->|]; [apply Hkeep; auto|].
    apply Hmin. unfold j in *. lia.
Qed.

Definition ordered (l : list layout_entry) : Prop :=
  forall i j, (i < j < length l)%nat -> R (l !!! i) (l !!! j).

Lemma outer_loop l n :
  Forall ok l -> (n <= length l - 1)%nat ->
  let l' := foldl (fun l0 i => foldl (sort_step cmp i) l0 (seq (S i) (length l - S i))) l (seq 0 n) in
  l' ≡ₚ l /\ forall i j, (i < n)%nat -> (i < j < length l)%nat -> R (l' !!! i) (l' !!! j).
Proof using All.
  intros Hok. induction n as [|n IH]; intros Hn; [split; [reflexivity | lia]|].
  rewrite seq_S, foldl_app. cbn [foldl]. destruct (IH ltac:(lia)) as [Hp Hs]. cbv zeta in *.
  set (l1 := foldl _ l _) in *. pose proof (Permutation_length Hp) as Hlen. cbn [Nat.add].
  destruct (inner_loop n (length l - S n) l1) as (Hp2 & Hlow & Hfrom & Hmin); [rewrite Hp; exact Hok | lia |].
  set (l2 := foldl _ l1 _) in *. split; [rewrite Hp2; exact Hp|]. intros i j Hi Hj.
  destruct (decide (i = n)) as [->|]; [apply Hmin; lia|]. rewrite (Hlow i) by lia.
  destruct (decide (j < n)%nat); [rewrite (Hlow j) by lia; apply Hs; lia|].
  destruct (Hfrom j ltac:(lia)) as (u' & Hu' & ->). apply Hs; lia.
Qed.

Lemma sort_with_spec l : Forall ok l -> sort_with cmp l ≡ₚ l /\ ordered (sort_with cmp l).
Proof using All.
  intros Hok. destruct (outer_loop l (length l - 1) Hok ltac:(lia)) as [Hp Hs]. split; [exact Hp|].
  intros i j Hj. unfold sort_with in *. rewrite (Permutation_length Hp) in Hj. apply Hs; lia.
Qed.
End exchange.

(** ** Ranges *)

(** Bounds are 32-bit values in order. *)
Definition entry_ok (e : layout_entry) : Prop := 0 <= le_start e <= le_stop e /\ le_stop e < 2 ^ 32.

(** Entries that take part in the distribution. *)
Definition participates (e : layout_entry) : bool := (le_err e =? 0) && negb (le_start e =? le_stop e).
Definition participants (l : list layout_entry) : list layout_entry := filter (fun e => participates e) l.

Definition contains (e : layout_entry) (h : Z) : Prop := le_start e <= h <= le_stop e.

#[global] Instance contains_dec e h : Decision (contains e h).
Proof. unfold contains. apply _. Defined.

(** The participants whose range has a hash value. *)
Definition owners (l : list layout_entry) (h : Z) : list layout_entry :=
  filter (fun e => contains e h) (participants l).

(** Every hash value is in the range of exactly one participant. *)
Definition hash_partition (l : list layout_entry) : Prop :=
  forall h, 0 <= h < 2 ^ 32 -> length (owners l h) = 1%nat.

Definition sort_key (e : layout_entry) : Z :=
  if (le_start e =? 0) && (le_stop e =? 0) then -1 else le_start e.

Lemma entry_cmp_key a b :
  entry_ok a -> entry_ok b -> 0 < dht_layout_entry_cmp a b <-> sort_key b < sort_key a.
Proof.
  unfold entry_ok, dht_layout_entry_cmp, sort_key. intros Ha Hb.
  destruct (Z.eqb_spec (le_start a) 0), (Z.eqb_spec (le_stop a) 0), (Z.eqb_spec (le_start b) 0),
    (Z.eqb_spec (le_stop b) 0); cbn [andb]; lia.
Qed.

Lemma layout_sort_spec l :
  Forall entry_ok l ->
  let l' := sort_with dht_layout_entry_cmp l in
  l' ≡ₚ l /\ Forall entry_ok l' /\ ordered (fun a b => le_start a <= le_start b) l'.
Proof.
  intros Hok. destruct (sort_with_spec dht_layout_entry_cmp entry_ok (fun a b => sort_key a <= sort_key b)) with (l := l)
    as [Hp Ho]; auto.
  - intros a b Ha Hb H. apply entry_cmp_key in H; auto. lia.
  - intros a b Ha Hb H. destruct (Z.le_gt_cases (sort_key a) (sort_key b)) as [|Hk]; [auto|].
    apply entry_cmp_key in Hk; auto. lia.
  - intros a b c H1 H2. lia.
  - cbv zeta. assert (Hok' : Forall entry_ok (sort_with dht_layout_entry_cmp l)) by (rewrite Hp; exact Hok).
    split; [exact Hp|]. split; [exact Hok'|]. intros i j Hij. specialize (Ho i j Hij).
    assert (Hi := ok_lookup entry_ok _ i Hok' ltac:(lia)). assert (Hj := ok_lookup entry_ok _ j Hok' ltac:(lia)).
    unfold sort_key, entry_ok in *. revert Ho.
    destruct (Z.eqb_spec (le_start (sort_with dht_layout_entry_cmp l !!! i)) 0),
      (Z.eqb_spec (le_stop (sort_with dht_layout_entry_cmp l !!! i)) 0),
      (Z.eqb_spec (le_start (sort_with dht_layout_entry_cmp l !!! j)) 0),
      (Z.eqb_spec (le_stop (sort_with dht_layout_entry_cmp l !!! j)) 0); cbn [andb]; lia.
Qed.

(** ** The scan for anomalies *)

(** Ranges that follow one another from [s] on, and what follows the last. *)
Fixpoint chained (s : Z) (l : list layout_entry) : Prop :=
  match l with
  | [] => True
  | e :: l => le_start e = s /\ chained (u32 (le_stop e + 1)) l
  end.

Fixpoint chain_end (s : Z) (l : list layout_entry) : Z :=
  match l with
  | [] => s
  | e :: l => chain_end (u32 (le_stop e + 1)) l
  end.

(** The counts the scan only adds to. *)
Definition same_counts (a b : anomalies) : Prop :=
  an_holes a = an_holes b /\ an_overlaps a = an_overlaps b /\ an_prev_stop a = an_prev_stop b /\
  an_virgin a = an_virgin b.

Lemma anomaly_step_skip a e : participates e = false -> same_counts (anomaly_step a e) a.
Proof.
  unfold participates, anomaly_step. destruct a as [m d n x h o p v]. intros Hp.
  destruct (_ || _ || _); [repeat split|]. destruct (le_err e =? ENOTCONN); [repeat split|].
  destruct (le_err e =? ENOSPC); [repeat split|]. destruct (le_err e =? 0); [|repeat split].
  cbn in Hp. apply negb_false_iff in Hp. rewrite Hp. repeat split.
Qed.

Lemma anomaly_step_part a e :
  participates e = true ->
  let a' := anomaly_step a e in
  let next := u32 (an_prev_stop a + 1) in
  an_holes a' = an_holes a + (if next <? le_start e then 1 else 0) /\
  an_overlaps a' = an_overlaps a + (if le_start e <? next then 1 else 0) /\
  an_prev_stop a' = le_stop e /\ an_virgin a' = false.
Proof.
  unfold participates, anomaly_step. destruct a as [m d n x h o p v]. intros [He Hs]%andb_true_iff.
  apply Z.eqb_eq in He. rewrite He. apply negb_true_iff in Hs. cbn [Z.eqb ENOENT ESTALE ENOTCONN ENOSPC orb].
  rewrite Hs. cbn. destruct (_ <? _), (_ <? _); lia.
Qed.

Lemma u32_succ x : 0 <= x < 2 ^ 32 -> u32 (x + 1) = if x =? 2 ^ 32 - 1 then 0 else x + 1.
Proof.
  intros Hx. destruct (Z.eqb_spec x (2 ^ 32 - 1)) as [->|]; [reflexivity|]. apply u32_id. lia.
Qed.

Lemma u32_sub_zero x y : 0 <= x < 2 ^ 32 -> 0 <= y < 2 ^ 32 -> u32 (x - y) = 0 <-> u32 (x + 1) = u32 (y + 1).
Proof.
  intros Hx Hy. rewrite !u32_succ by auto. unfold u32. split.
  - intros H. apply Z.mod_divide in H as [k Hk]; [|lia]. assert (x = y) as -> by nia. reflexivity.
  - intros H. assert (x = y) as -> by (destruct (Z.eqb_spec x (2 ^ 32 - 1)), (Z.eqb_spec y (2 ^ 32 - 1)); lia).
    rewrite Z.sub_diag. reflexivity.
Qed.

Lemma scan_spec l : forall a,
  0 <= an_holes a -> 0 <= an_overlaps a ->
  let a' := foldl anomaly_step a l in
  let next := u32 (an_prev_stop a + 1) in
  0 <= an_holes a' /\ 0 <= an_overlaps a' /\
  (an_holes a' = 0 /\ an_overlaps a' = 0 <->
     an_holes a = 0 /\ an_overlaps a = 0 /\ chained next (participants l)) /\
  u32 (an_prev_stop a' + 1) = chain_end next (participants l) /\
  an_virgin a' = an_virgin a && bool_decide (participants l = []).
Proof.
  induction l as [|e l IH]; intros a Hh Ho; cbv zeta; cbn [foldl].
  { change (participants []) with (@nil layout_entry). rewrite bool_decide_true, andb_true_r by reflexivity.
    cbn [chained chain_end]. intuition lia. }
  unfold participants. destruct (participates e) eqn:Hp.
  - rewrite filter_cons_True by (rewrite Hp; exact I). fold (participants l).
    destruct (anomaly_step_part a e Hp) as (E1 & E2 & E3 & E4). cbv zeta in *.
    destruct (IH (anomaly_step a e)) as (I1 & I2 & I3 & I4 & I5).
    { rewrite E1. case (_ <? _); lia. } { rewrite E2. case (_ <? _); lia. }
    rewrite E3 in I3, I4. rewrite E1, E2 in I3. rewrite E4 in I5.
    split; [exact I1|]. split; [exact I2|]. split; [|split; [exact I4|]].
    + rewrite I3. cbn [chained].
      destruct (Z.ltb_spec (u32 (an_prev_stop a + 1)) (le_start e)),
        (Z.ltb_spec (le_start e) (u32 (an_prev_stop a + 1))); intuition lia.
    + rewrite I5. symmetry. apply andb_false_iff. right. apply bool_decide_false. discriminate.
  - rewrite filter_cons_False by (rewrite Hp; tauto). fold (participants l).
    destruct (anomaly_step_skip a e Hp) as (E1 & E2 & E3 & E4).
    specialize (IH (anomaly_step a e)). cbv zeta in IH. rewrite E1, E2, E3, E4 in IH. apply IH; auto.
Qed.

(** No anomaly is found exactly when the participants follow one another around
    the whole space from the start of the first entry. *)
Lemma no_anomalies_chain l :
  Forall entry_ok l -> l <> [] ->
  let a := dht_layout_anomalies l in
  let s := le_start (l !!! O) in
  an_holes a = 0 /\ an_overlaps a = 0 <->
  participants l <> [] /\ chained s (participants l) /\ chain_end s (participants l) = s.
Proof.
  intros Hok Hne. cbv zeta. unfold dht_layout_anomalies.
  assert (Hs : 0 <= le_start (l !!! O) < 2 ^ 32).
  { assert (H : entry_ok (l !!! O)) by (apply ok_lookup; [auto | destruct l; [congruence | cbn; lia]]).
    unfold entry_ok in H. lia. }
  set (s := le_start (l !!! O)) in *.
  assert (Hl : u32 (u32 (s - 1) + 1) = s).
  { unfold u32. rewrite Zplus_mod_idemp_l. replace (s - 1 + 1) with s by lia. apply Z.mod_small. exact Hs. }
  set (a0 := mk_anomalies 0 0 0 0 0 0 (u32 (s - 1)) true).
  destruct (scan_spec l a0 ltac:(cbn; lia) ltac:(cbn; lia)) as (I1 & I2 & I3 & I4 & I5). cbv zeta in *.
  change (an_prev_stop a0) with (u32 (s - 1)) in I3, I4. change (an_virgin a0) with true in I5.
  rewrite Hl in I3, I4. set (a := foldl anomaly_step a0 l) in *.
  assert (Hprev : 0 <= an_prev_stop a < 2 ^ 32).
  { clear I1 I2 I3 I4 I5. unfold a. assert (H0 : 0 <= an_prev_stop a0 < 2 ^ 32) by apply u32_range.
    clearbody a0. clear a Hl Hs s Hne. revert a0 H0. induction Hok as [|e l He Hok IH]; intros a0 H0; [exact H0|].
    cbn [foldl]. apply IH. destruct (participates e) eqn:Hp.
    - destruct (anomaly_step_part a0 e Hp) as (_ & _ & -> & _). unfold entry_ok in He. lia.
    - destruct (anomaly_step_skip a0 e Hp) as (_ & _ & -> & _). exact H0. }
  assert (Hz : u32 (u32 (s - 1) - an_prev_stop a) = 0 <-> chain_end s (participants l) = s).
  { rewrite u32_sub_zero by (auto using u32_range). rewrite Hl, I4. split; congruence. }
  rewrite I5. cbn [an_holes an_overlaps a0] in I3.
  destruct (Z.eqb_spec (u32 (u32 (s - 1) - an_prev_stop a)) 0) as [E|E]; cbn [negb orb].
  - destruct (bool_decide_reflect (participants l = [])) as [En|En]; cbn [andb]; [|rewrite I3; tauto].
    cbn [an_holes an_overlaps]. split; [lia | tauto].
  - cbn [an_holes an_overlaps]. split; [lia|]. tauto.
Qed.

(** ** Chains and partitions *)

Abbreviation by_start := (StronglySorted (fun a b => le_start a <= le_start b)).

Lemma ordered_sorted (R : relation layout_entry) l : ordered R l -> StronglySorted R l.
Proof.
  induction l as [|e l IH]; intros Ho; constructor.
  - apply IH. intros i j Hij. apply (Ho (S i) (S j)). cbn. lia.
  - apply Forall_lookup. intros i x Hx. specialize (Ho O (S i)). pose proof (lookup_lt_Some _ _ _ Hx).
    rewrite <- (list_lookup_total_correct _ _ _ Hx). apply Ho. cbn. lia.
Qed.

Lemma sorted_participants l : by_start l -> by_start (participants l).
Proof.
  induction 1 as [|e l Hs IH Hf]; [constructor|]. unfold participants. rewrite filter_cons.
  destruct (decide (participates e)); [|exact IH]. constructor; [exact IH|]. apply Forall_filter. exact Hf.
Qed.

Lemma participants_ok l : Forall entry_ok l -> Forall entry_ok (participants l).
Proof. apply Forall_filter. Qed.

Lemma participants_wide l : Forall entry_ok l -> Forall (fun e => le_start e < le_stop e) (participants l).
Proof.
  intros Hok. apply Forall_forall. intros e [Hp He]%list_elem_of_filter. rewrite Forall_forall in Hok.
  specialize (Hok e He). unfold entry_ok in Hok. apply Is_true_true, andb_true_iff in Hp as [_ Hp].
  apply negb_true_iff, Z.eqb_neq in Hp. lia.
Qed.

(** A chain that ends at 0 covers everything from its start. *)
Lemma chain_covers l : forall s,
  Forall entry_ok l -> chained s l -> chain_end s l = 0 -> 0 <= s -> l <> [] ->
  forall h, s <= h < 2 ^ 32 -> exists e, e ∈ l /\ contains e h.
Proof.
  induction l as [|e l IH]; intros s Hok Hc He Hs Hne h Hh; [congruence|]. cbn [chained chain_end] in *.
  apply Forall_cons in Hok as [Hoe Hok]. destruct Hc as [Hst Hc]. unfold entry_ok in Hoe.
  destruct (Z.le_gt_cases h (le_stop e)).
  { exists e. split; [apply elem_of_cons; auto | unfold contains; lia]. }
  rewrite u32_id in Hc, He by lia. destruct l as [|e' l]; [cbn in He; lia|].
  destruct (IH (le_stop e + 1) Hok Hc He ltac:(lia) ltac:(discriminate) h ltac:(lia)) as (x & Hx & Hxc).
  exists x. split; [apply elem_of_cons; auto | exact Hxc].
Qed.

(** In a sorted chain that goes around, the start is 0. *)
Lemma chain_start_zero l s :
  Forall entry_ok l -> l <> [] -> chained s l -> chain_end s l = s ->
  Forall (fun e => s <= le_start e) l -> 0 <= s -> s = 0.
Proof.
  intros Hok Hne _ He Hmin Hs. destruct (Z.eq_dec s 0) as [|Hnz]; [auto|]. exfalso.
  assert (Hlast : forall l t, Forall entry_ok l -> Forall (fun e => s <= le_start e) l ->
    chain_end t l = s -> l = [] \/ False).
  { clear - Hnz Hs. induction l as [|e l IH]; intros t Hok Hmin He; [auto|]. right.
    apply Forall_cons in Hok as [Hoe Hok]. apply Forall_cons in Hmin as [Hme Hmin]. cbn [chain_end] in He.
    destruct (IH _ Hok Hmin He) as [->|[]]. cbn [chain_end] in He. unfold entry_ok in Hoe.
    rewrite u32_succ in He by lia. destruct (_ =? _); lia. }
  destruct (Hlast l s Hok Hmin He) as [|[]]; auto.
Qed.

(** Two entries of a sorted chain only share a value when the first of them has
    the whole space. *)
Lemma chain_shared l : forall s i j h,
  Forall entry_ok l -> by_start l -> chained s l -> (i < j < length l)%nat ->
  contains (l !!! i) h -> contains (l !!! j) h ->
  le_start (l !!! i) = 0 /\ le_stop (l !!! i) = 2 ^ 32 - 1.
Proof.
  induction l as [|e l IH]; intros s i j h Hok Hso Hc Hij Hi Hj; [cbn in Hij; lia|].
  apply Forall_cons in Hok as [Hoe Hok]. inversion Hso as [|? ? Hso' Hf]; subst. destruct Hc as [Hst Hc].
  destruct j as [|j]; [lia|]. destruct i as [|i].
  2: { apply (IH (u32 (le_stop e + 1)) i j h); auto. cbn in Hij. lia. }
  change ((e :: l) !!! O) with e in *. change ((e :: l) !!! S j) with (l !!! j) in Hj. cbn [length] in Hij.
  unfold contains, entry_ok in *. destruct l as [|e' l]; [cbn in Hij; lia|].
  destruct Hc as [Hs' _]. rewrite u32_succ in Hs' by lia.
  assert (Hge : le_start e' <= le_start ((e' :: l) !!! j)).
  { inversion Hso' as [|? ? _ Hf']; subst. destruct j as [|j]; [change ((e' :: l) !!! O) with e'; lia|].
    destruct (lookup_lt_is_Some_2 l j) as [x Hx]; [cbn in Hij; lia|].
    change ((e' :: l) !!! S j) with (l !!! j). rewrite (list_lookup_total_correct _ _ _ Hx). rewrite Forall_lookup in Hf'. eauto. }
  apply Forall_cons in Hf as [Hf0 _].
  destruct (Z.eqb_spec (le_stop e) (2 ^ 32 - 1)); lia.
Qed.

(** A sorted partition is a chain that ends at 0. *)
Lemma partition_chain l : forall s,
  Forall (fun e => le_start e < le_stop e) l -> Forall entry_ok l -> by_start l ->
  Forall (fun e => s <= le_start e) l -> 0 <= s < 2 ^ 32 ->
  (forall h, s <= h < 2 ^ 32 -> exists e, e ∈ l /\ contains e h) ->
  (forall i j h, (i < j < length l)%nat -> contains (l !!! i) h -> contains (l !!! j) h -> False) ->
  l <> [] /\ chained s l /\ chain_end s l = 0.
Proof.
  induction l as [|e l IH]; intros s Hw Hok Hso Hmin Hs Hcov Hdis.
  { destruct (Hcov s) as (x & Hx & _); [lia|]. apply elem_of_nil in Hx as []. }
  apply Forall_cons in Hok as [Hoe Hok]. apply Forall_cons in Hw as [Hwe Hw]. inversion Hso as [|? ? Hso' Hf]; subst.
  apply Forall_cons in Hmin as [Hme Hmin]. unfold entry_ok, contains in *.
  assert (Hst : le_start e = s).
  { destruct (Hcov s ltac:(lia)) as (x & [->|Hx]%elem_of_cons & Hxc); [lia|].
    rewrite Forall_forall in Hf. specialize (Hf x Hx). lia. }
  assert (Hafter : Forall (fun x => le_stop e + 1 <= le_start x) l).
  { apply Forall_lookup. intros k x Hx. rewrite Forall_lookup in Hf, Hok. specialize (Hf k x Hx).
    specialize (Hok k x Hx). pose proof (lookup_lt_Some _ _ _ Hx).
    destruct (Z.le_gt_cases (le_stop e + 1) (le_start x)) as [|Hgt]; [auto|]. exfalso.
    apply (Hdis O (S k) (le_start x)); [cbn; lia | change ((e :: l) !!! O) with e; lia |].
    change ((e :: l) !!! S k) with (l !!! k). rewrite (list_lookup_total_correct _ _ _ Hx). lia. }
  split; [discriminate|]. cbn [chained chain_end]. rewrite u32_succ by lia.
  destruct (Z.eqb_spec (le_stop e) (2 ^ 32 - 1)) as [E|E].
  - destruct l as [|x l]; [cbn; auto|]. exfalso. apply Forall_cons in Hafter as [Ha _].
    apply Forall_cons in Hok as [Ho _]. lia.
  - destruct (IH (le_stop e + 1)) as (_ & Hc & He); auto; [lia | |].
    + intros h Hh. destruct (Hcov h ltac:(lia)) as (x & [->|Hx]%elem_of_cons & Hxc); [lia | eauto].
    + intros i j h Hij. apply (Hdis (S i) (S j) h). cbn. lia.
Qed.

(** ** Counting *)

Lemma filter_one {A} `{Inhabited A} (P : A -> Prop) `{forall x, Decision (P x)} (l : list A) :
  length (filter P l) = 1%nat <->
  (exists x, x ∈ l /\ P x) /\ (forall i j, (i < j < length l)%nat -> P (l !!! i) -> P (l !!! j) -> False).
Proof.
  induction l as [|x l IH].
  { split; [discriminate | intros [(x & Hx & _) _]; apply elem_of_nil in Hx as []]. }
  assert (Hnone : length (filter P l) = 0%nat <-> forall y, y ∈ l -> ~ P y).
  { rewrite length_zero_iff_nil. split.
    - intros E y Hy Hp. assert (Hin : y ∈ filter P l) by (apply list_elem_of_filter; auto).
      rewrite E in Hin. apply elem_of_nil in Hin as [].
    - intros Hn. apply elem_of_nil_inv. intros y [Hp Hy]%list_elem_of_filter. exact (Hn y Hy Hp). }
  rewrite filter_cons. destruct (decide (P x)) as [Hx|Hx]; cbn [length].
  - split.
    + intros E. assert (Hn : forall y, y ∈ l -> ~ P y) by (apply Hnone; lia).
      split; [exists x; split; [apply elem_of_cons; auto | exact Hx]|].
      intros i j Hij _ Hj. destruct j as [|j]; [lia|]. change ((x :: l) !!! S j) with (l !!! j) in Hj.
      destruct (lookup_lt_is_Some_2 l j) as [y Hy]; [lia|]. rewrite (list_lookup_total_correct _ _ _ Hy) in Hj.
      exact (Hn y (list_elem_of_lookup_2 _ _ _ Hy) Hj).
    + intros [_ Hd]. f_equal. apply Hnone. intros y [k Hk]%list_elem_of_lookup Hp.
      apply (Hd O (S k)); [pose proof (lookup_lt_Some _ _ _ Hk); lia | exact Hx |].
      change ((x :: l) !!! S k) with (l !!! k). rewrite (list_lookup_total_correct _ _ _ Hk). exact Hp.
  - rewrite IH. split; intros [(y & Hy & Hp) Hd].
    + split; [exists y; split; [apply elem_of_cons; auto | exact Hp]|].
      intros [|i] [|j] Hij Hi Hj; [lia | exact (Hx Hi) | lia |]. apply (Hd i j); auto. lia.
    + apply elem_of_cons in Hy as [->|Hy]; [contradiction|]. split; [eauto|].
      intros i j Hij Hi Hj. apply (Hd (S i) (S j)); auto. lia.
Qed.

Lemma owners_perm l l' h : l ≡ₚ l' -> length (owners l h) = length (owners l' h).
Proof. intros Hp. unfold owners, participants. rewrite Hp. reflexivity. Qed.

Lemma partition_perm l l' : l ≡ₚ l' -> hash_partition l -> hash_partition l'.
Proof. intros Hp Hpart h Hh. rewrite <- (owners_perm l l' h Hp). auto. Qed.

(** A range that is the whole space. *)
Definition whole (e : layout_entry) : Prop := le_start e = 0 /\ le_stop e = 2 ^ 32 - 1.

Lemma no_anomalies_sound l :
  Forall entry_ok l -> by_start l -> l <> [] ->
  an_holes (dht_layout_anomalies l) = 0 -> an_overlaps (dht_layout_anomalies l) = 0 ->
  (forall h, 0 <= h < 2 ^ 32 -> owners l h <> []) /\
  ((forall e, e ∈ participants l -> ~ whole e) \/ length (participants l) = 1%nat -> hash_partition l).
Proof.
  intros Hok Hso Hne H1 H2. destruct (proj1 (no_anomalies_chain l Hok Hne) (conj H1 H2)) as (Hpn & Hc & He).
  pose proof (participants_ok l Hok) as Hpo. pose proof (sorted_participants l Hso) as Hps.
  assert (Hmin : Forall (fun e => le_start (l !!! O) <= le_start e) (participants l)).
  { apply Forall_filter. destruct l as [|e l]; [congruence|]. inversion Hso; subst.
    constructor; [cbn; lia | assumption]. }
  assert (Hs : 0 <= le_start (l !!! O)).
  { assert (H : entry_ok (l !!! O)) by (apply ok_lookup; [auto | destruct l; [congruence | cbn; lia]]).
    unfold entry_ok in H. lia. }
  pose proof (chain_start_zero _ _ Hpo Hpn Hc He Hmin Hs) as Hz. rewrite Hz in Hc, He.
  assert (Hcov := chain_covers _ 0 Hpo Hc He ltac:(lia) Hpn).
  split.
  - intros h Hh E. destruct (Hcov h Hh) as (e & Hin & Hcon).
    assert (Hin' : e ∈ owners l h) by (apply list_elem_of_filter; auto).
    rewrite E in Hin'. apply elem_of_nil in Hin' as [].
  - intros Hw h Hh. apply filter_one. split; [apply Hcov; exact Hh|]. intros i j Hij Hi Hj.
    destruct (chain_shared _ 0 i j h Hpo Hps Hc Hij Hi Hj) as [Hw1 Hw2].
    destruct Hw as [Hw|Hw]; [|lia]. destruct (lookup_lt_is_Some_2 (participants l) i) as [e Hi']; [lia|].
    apply (Hw e); [eapply list_elem_of_lookup_2; eauto|].
    rewrite (list_lookup_total_correct _ _ _ Hi') in Hw1, Hw2. split; assumption.
Qed.

Lemma no_anomalies_complete l :
  Forall entry_ok l -> by_start l -> hash_partition l ->
  an_holes (dht_layout_anomalies l) = 0 /\ an_overlaps (dht_layout_anomalies l) = 0.
Proof.
  intros Hok Hso Hpart. pose proof (participants_ok l Hok) as Hpo.
  assert (Hcd : (forall h, 0 <= h < 2 ^ 32 -> exists e, e ∈ participants l /\ contains e h) /\
    (forall i j h, (i < j < length (participants l))%nat ->
       contains (participants l !!! i) h -> contains (participants l !!! j) h -> False)).
  { split; [intros h Hh; apply (proj1 (proj1 (filter_one _ _) (Hpart h Hh)))|].
    intros i j h Hij Hi Hj. assert (Hh : 0 <= h < 2 ^ 32).
    { assert (Ho := ok_lookup entry_ok _ i Hpo ltac:(lia)). unfold entry_ok, contains in *. lia. }
    exact (proj2 (proj1 (filter_one _ _) (Hpart h Hh)) i j Hij Hi Hj). }
  destruct Hcd as [Hcov Hdis].
  assert (Hmin : Forall (fun e => 0 <= le_start e) (participants l))
    by (eapply Forall_impl; [exact Hpo|]; unfold entry_ok; intros; lia).
  destruct (partition_chain _ 0 (participants_wide l Hok) Hpo (sorted_participants l Hso) Hmin ltac:(lia) Hcov Hdis)
    as (Hne & Hc & He).
  assert (Hln : l <> []) by (intros ->; apply Hne; reflexivity).
  apply no_anomalies_chain; auto.
  assert (Hz : le_start (l !!! O) = 0).
  { destruct (Hcov 0 ltac:(lia)) as (e & [_ Hin]%list_elem_of_filter & Hc0). unfold contains in Hc0.
    destruct l as [|e0 l]; [congruence|]. change ((e0 :: l) !!! O) with e0.
    apply Forall_cons in Hok as [Ho0 Hok]. unfold entry_ok in Ho0. inversion Hso as [|? ? _ Hf]; subst.
    apply elem_of_cons in Hin as [->|Hin]; [lia|]. rewrite Forall_forall in Hf. specialize (Hf e Hin). lia. }
  rewrite Hz. auto.
Qed.

(** ** Search *)

(** With one owner of a hash value and no other entry that has it, the search
    gives the owner. *)
Lemma search_owner l h e :
  owners l h = [e] -> (forall x, x ∈ l -> contains x h -> participates x) -> search_hash l h = le_xlator e.
Proof.
  induction l as [|x l IH]; intros Ho Hall; [discriminate|]. cbn [search_hash].
  unfold owners, participants in Ho. rewrite filter_cons in Ho.
  assert (Hb : (le_start x <=? h) && (h <=? le_stop x) = bool_decide (contains x h)).
  { unfold contains. destruct (Z.leb_spec (le_start x) h), (Z.leb_spec h (le_stop x)); cbn [andb];
      symmetry; (apply bool_decide_true; lia) || (apply bool_decide_false; lia). }
  rewrite Hb. case_bool_decide as Hc.
  - specialize (Hall x ltac:(apply elem_of_cons; auto) Hc). rewrite decide_True in Ho by exact Hall.
    rewrite filter_cons_True in Ho by exact Hc. congruence.
  - apply IH.
    + destruct (decide (participates x)); [rewrite filter_cons_False in Ho by exact Hc|]; exact Ho.
    + intros y Hy. apply Hall. apply elem_of_cons. auto.
Qed.

