(* ===== verification/DhtSelfheal.v ===== *)
(** * Computing directory layouts

    Models the functions of [xlators/cluster/dht/src/dht-selfheal.c] that give
    the ranges of a directory: the choice of the bricks, the assignment of the
    hash space in equal parts or in proportion to the size of the bricks, and
    the exchange of ranges that keeps as much of an old layout as possible.

    Doubles are those of IEEE 754, as [SpecFloat] defines them. *)

From Corelib Require Import SpecFloat.
From S2P Require Import Prelude Words DhtHash DhtLayout.
From stdpp Require Import strings.
Open Scope Z_scope.

(** What the functions use of [dht_conf_t]; [chunks] is [None] without
    du_stats, and otherwise gives the size of each child. *)
Record dht_conf := mk_dht_conf {
  subvolumes : list xlator;
  decommissioned : list xlator;
  do_weighting : bool;
  chunks : option (list Z)
}.

(** ** Doubles *)

Definition dbl_of_Z (z : Z) : spec_float := binary_normalize 53 1024 z 0 false.
Definition dbl_div : spec_float -> spec_float -> spec_float := SFdiv 53 1024.
Definition dbl_mul : spec_float -> spec_float -> spec_float := SFmul 53 1024.

(** Conversion to uint32_t; undefined outside of the range of the type. *)
Definition dbl_to_u32 (f : spec_float) : option Z :=
  match f with
  | S754_zero _ => Some 0
  | S754_finite false m e =>
      let z := if 0 <=? e then Z.pos m * 2 ^ e else Z.pos m / 2 ^ (- e) in
      if z <? 2 ^ 32 then Some z else None
  | _ => None
  end.

(** ** Bricks *)

Definition decommissioned_xl (conf : dht_conf) (x : option xlator) : bool :=
  match x with
  | Some x => bool_decide (x ∈ decommissioned conf)
  | None => false
  end.

(** Entries that are given a range. *)
Definition assignable (e : layout_entry) : bool := (le_err e =? -1) || (le_err e =? ENOENT).

(** Entries that can be used. *)
Definition usable_err (e : layout_entry) : bool := (le_err e =? -1) || (le_err e =? 0) || (le_err e =? ENOENT).

(** [dht_get_layout_count] with [new_layout] set: the layout with the errors it
    marks, and the number of bricks to use. *)
Definition dht_get_layout_count (conf : dht_conf) (layout : dht_layout) : dht_layout * Z :=
  let l := map (fun e => if decommissioned_xl conf (le_xlator e) then set_err e EINVAL else e)
             (layout_list layout) in
  let count := Z.of_nat (length (filter (fun e => usable_err e) l)) in
  let l := map (fun e => if le_err e =? 0 then set_err e (-1) else e) l in
  let '(l, count) :=
    if count =? 0 then
      (map (fun e => if le_err e =? ENOSPC then set_err e (-1) else e) l,
       count + Z.of_nat (length (filter (fun e => le_err e = ENOSPC) l)))
    else (l, count) in
  (set_list layout l,
   if negb (spread_cnt layout =? 0) && (spread_cnt layout <=? count) then spread_cnt layout
   else if negb (count =? 0) then count else 1).

(** Position of a child among the children. *)
Fixpoint child_chunks (children : list xlator) (stats : list Z) (child : option xlator) : Z :=
  match children, stats with
  | c :: children, s :: stats => if same_xlator (Some c) child then s else child_chunks children stats child
  | _, _ => 0
  end.

Definition dht_get_chunks_from_xl (conf : dht_conf) (child : option xlator) : Z :=
  match chunks conf with
  | None => 0
  | Some stats => child_chunks (subvolumes conf) stats child
  end.

(** ** A new layout *)

(** The first loop of [dht_selfheal_layout_new_directory]: whether all the
    bricks have a size, and the total. *)
Fixpoint size_loop (conf : dht_conf) (l : list layout_entry) (bricks_used bricks_to_use total : Z)
    (weight : bool) : bool * Z :=
  match l with
  | [] => (weight, total)
  | e :: l =>
      if negb (assignable e) then size_loop conf l bricks_used bricks_to_use total weight
      else
        let curr_size := dht_get_chunks_from_xl conf (le_xlator e) in
        if curr_size =? 0 then (false, total)
        else
          let total := total + curr_size in
          let bricks_used := bricks_used + 1 in
          if bricks_to_use <=? bricks_used then (weight, total)
          else size_loop conf l bricks_used bricks_to_use total weight
  end.

(** The size of the range of a brick; [None] when the conversion of the double
    is undefined.  In equal parts the product is exact. *)
Definition range_size_of (conf : dht_conf) (weight : bool) (total bricks_to_use : Z) (e : layout_entry)
    : option Z :=
  if weight then
    dbl_to_u32 (dbl_mul (dbl_div (dbl_of_Z 0xffffffff) (dbl_of_Z total))
                  (dbl_of_Z (dht_get_chunks_from_xl conf (le_xlator e))))
  else Some (0xffffffff / bricks_to_use).

(** DHT_SET_LAYOUT_RANGE. *)
Definition set_layout_range (layout : dht_layout) (i : nat) (start chunk : Z) : dht_layout :=
  let e := layout_list layout !!! i in
  set_list layout (<[i := mk_entry (le_err e) start (u32 (start + chunk - 1)) (commit_hash layout)
                            (le_xlator e)]> (layout_list layout)).

(** The loop that hands out the ranges, over the positions in the order they
    are visited. *)
Fixpoint assign_loop (conf : dht_conf) (weight : bool) (total bricks_to_use : Z) (order : list nat)
    (layout : dht_layout) (start bricks_used : Z) : option dht_layout :=
  match order with
  | [] => Some layout
  | i :: order =>
      let e := layout_list layout !!! i in
      if negb (assignable e) then assign_loop conf weight total bricks_to_use order layout start bricks_used
      else if weight && (dht_get_chunks_from_xl conf (le_xlator e) =? 0)
      then assign_loop conf weight total bricks_to_use order layout start bricks_used
      else
        match range_size_of conf weight total bricks_to_use e with
        | None => None
        | Some range_size =>
            let layout := set_layout_range layout i start range_size in
            let bricks_used := bricks_used + 1 in
            if bricks_to_use <=? bricks_used then
              let e := layout_list layout !!! i in
              Some (set_list layout (<[i := set_range e (le_start e) 0xffffffff]> (layout_list layout)))
            else assign_loop conf weight total bricks_to_use order layout (u32 (start + range_size)) bricks_used
        end
  end.

(** DHT_RESET_LAYOUT_RANGE. *)
Definition reset_layout_range (layout : dht_layout) : dht_layout :=
  set_list layout (map (fun e => set_range e 0 0) (layout_list layout)).

(** The positions from [start_subvol] on, around the array. *)
Definition rotation (cnt start_subvol : nat) : list nat :=
  map (fun real_i => ((real_i + start_subvol) mod cnt)%nat) (seq 0 cnt).

(** [dht_selfheal_layout_alloc_start]; [hash] is the hash of the path or the
    gfid of the directory, [None] when it cannot be computed. *)
Definition dht_selfheal_layout_alloc_start (layout : dht_layout) (hash : option Z) : nat :=
  match hash with
  | Some h => Z.to_nat (h mod Z.of_nat (layout_cnt layout))
  | None => 0%nat
  end.

Definition dht_selfheal_layout_new_directory (conf : dht_conf) (hash : option Z) (layout : dht_layout)
    : option dht_layout :=
  let '(layout, bricks_to_use) := dht_get_layout_count conf layout in
  let '(weight, total) := size_loop conf (layout_list layout) 0 bricks_to_use 0 (do_weighting conf) in
  let weight := weight && negb (total =? 0) in
  let start_subvol := dht_selfheal_layout_alloc_start layout hash in
  let layout := reset_layout_range layout in
  assign_loop conf weight total bricks_to_use (rotation (layout_cnt layout) start_subvol) layout 0 0.

(** ** Keeping an old layout *)

Definition dht_overlap_calc (old : list layout_entry) (o : nat) (new : list layout_entry) (n : nat) : Z :=
  if (length old <=? o)%nat || (length new <=? n)%nat then 0
  else
    let eo := old !!! o in
    let en := new !!! n in
    if (0 <? le_err eo) || (0 <? le_err en) then 0
    else if le_start eo =? le_stop eo then 0
    else if le_start en =? le_stop en then 0
    else if (le_stop en <? le_start eo) || (le_stop eo <? le_start en) then 0
    else u32 (Z.min (le_stop eo) (le_stop en) - Z.max (le_start eo) (le_start en) + 1).

(** OV_ENTRY(x, y), with [n] entries in the new layout. *)
Definition ov_entry (n : nat) (table : list Z) (x y : nat) : Z := table !!! (x * n + y)%nat.

(** The nested loops that fill the table; rows of the new layout's length. *)
Definition ov_table (old new : list layout_entry) : list Z :=
  let n := length new in
  foldl (fun table i => foldl (fun table j => <[(i * n + j)%nat := dht_overlap_calc old j new i]> table)
           table (seq 0 (length old)))
    (replicate (length old * n) 0) (seq 0 n).

(** One [j] of the search for the best exchange: the gain and its position. *)
Definition best_step (new : list layout_entry) (table : list Z) (i : nat) (best : Z * nat) (j : nat) : Z * nat :=
  let ov := ov_entry (length new) table in
  let '(max_overlap, max_overlap_idx) := best in
  if 0 <? le_err (new !!! j) then best
  else
    let curr_overlap := u32 (ov i i + ov j j) in
    let overlap := u32 (ov i j + ov j i) in
    if curr_overlap <? overlap then
      let overlap := overlap - curr_overlap in
      if max_overlap <? overlap then (overlap, j) else best
    else best.

(** Exchanging two rows of the table. *)
Definition swap_rows (n m : nat) (table : list Z) (i k : nat) : list Z :=
  foldl (fun table j =>
    let overlap := ov_entry n table i j in
    let table := <[(i * n + j)%nat := ov_entry n table k j]> table in
    <[(k * n + j)%nat := overlap]> table) table (seq 0 m).

Definition maximize_step (old : list layout_entry) (st : list layout_entry * list Z) (i : nat)
    : list layout_entry * list Z :=
  let '(new, table) := st in
  let n := length new in
  if 0 <? le_err (new !!! i) then st
  else
    let '(_, idx) := foldl (best_step new table i) (0, i) (seq (S i) (n - S i)) in
    if negb (Nat.eqb idx i)
    then (dht_layout_range_swap new i idx, swap_rows n (length old) table i idx)
    else st.

(** [dht_selfheal_layout_maximize_overlap]; gives the new entries. *)
Definition dht_selfheal_layout_maximize_overlap (new old : dht_layout) : dht_layout :=
  let old := layout_list (dht_layout_sort_volname old) in
  let '(l, _) := foldl (maximize_step old) (layout_list new, ov_table old (layout_list new))
                   (seq 0 (layout_cnt new)) in
  set_list new l.

(** All sizes are the same. *)
Definition same_chunks (conf : dht_conf) : bool :=
  match chunks conf with
  | Some (c :: cs) => forallb (fun c' => c' =? c) cs
  | _ => true
  end.

(** Outcome of [dht_fix_layout_of_directory]: the layout, NULL, or undefined
    behaviour (a read past a layout with fewer entries than subvolumes, or a
    double out of range). *)
Inductive fix_result := FIX_OK (l : dht_layout) | FIX_NULL | FIX_UNDEF.

Definition dht_fix_layout_of_directory (conf : dht_conf) (spread : Z) (hash : option Z) (layout : dht_layout)
    : fix_result :=
  if layout_type layout =? DHT_HASH_TYPE_DM_USER then FIX_OK layout
  else if negb (an_down (dht_layout_anomalies (layout_list layout)) =? 0) then FIX_NULL
  else if (layout_cnt layout <? length (subvolumes conf))%nat then FIX_UNDEF
  else
    let new := dht_layout_new spread (length (subvolumes conf)) in
    let new := set_list new (map (fun e => mk_entry (if le_err e =? ENOSPC then -1 else le_err e) 0 0 0 (le_xlator e))
                 (take (length (subvolumes conf)) (layout_list layout))) in
    let new := set_commit_hash new (commit_hash layout) in
    match dht_selfheal_layout_new_directory conf hash (dht_layout_sort_volname new) with
    | None => FIX_UNDEF
    | Some new =>
        if same_chunks conf || negb (do_weighting conf)
        then FIX_OK (dht_selfheal_layout_maximize_overlap new layout) else FIX_OK new
    end.

(** [dht_selfheal_dir_getafix]: the layout and 0 or -1; the counts are those of
    the directory's anomalies. *)
Definition dht_selfheal_dir_getafix (conf : dht_conf) (hash : option Z) (holes overlaps : Z) (layout : dht_layout)
    : option (dht_layout * Z) :=
  let absent l := existsb (fun e => le_err e =? ENOENT) (layout_list l) in
  if negb (holes =? 0) || negb (overlaps =? 0) then
    match dht_selfheal_layout_new_directory conf hash (set_commit_hash layout DHT_LAYOUT_HASH_INVALID) with
    | None => None
    | Some layout => Some (layout, 0)
    end
  else Some (layout, if absent layout then 0 else -1).

(** [dht_selfheal_new_directory] up to the lock. *)
Definition new_directory_layout (conf : dht_conf) (hash : option Z) (layout : dht_layout) : option dht_layout :=
  dht_selfheal_layout_new_directory conf hash (dht_layout_sort_volname layout).

(** ** Is a layout worth fixing *)

Definition dht_layout_span (l : list layout_entry) : Z :=
  Z.of_nat (length (filter (fun e => (le_err e =? 0) && negb (le_start e =? le_stop e)) l)).

Definition dht_decommissioned_bricks_in_layout (conf : dht_conf) (l : list layout_entry) : Z :=
  Z.of_nat (length (filter (fun e => decommissioned_xl conf (le_xlator e)) l)).

Inductive dht_distribution := GF_DHT_EQUAL_DISTRIBUTION | GF_DHT_WEIGHTED_DISTRIBUTION.

Fixpoint distribution_loop (cnt start_range : Z) (l : list layout_entry) : dht_distribution :=
  match l with
  | [] => GF_DHT_EQUAL_DISTRIBUTION
  | e :: l =>
      let range := u32 (le_stop e - le_start e) in
      if start_range =? 0 then distribution_loop cnt range l
      else if negb (range =? 0) && (cnt <? Z.abs (range - start_range)) then GF_DHT_WEIGHTED_DISTRIBUTION
      else distribution_loop cnt start_range l
  end.

Definition dht_distribution_type (l : list layout_entry) : dht_distribution :=
  distribution_loop (Z.of_nat (length l)) 0 l.

Definition distribution_eqb (x y : dht_distribution) : bool :=
  match x, y with
  | GF_DHT_EQUAL_DISTRIBUTION, GF_DHT_EQUAL_DISTRIBUTION
  | GF_DHT_WEIGHTED_DISTRIBUTION, GF_DHT_WEIGHTED_DISTRIBUTION => true
  | _, _ => false
  end.

Definition dht_should_fix_layout (conf : dht_conf) (inmem ondisk : dht_layout) : bool :=
  let a := dht_layout_anomalies (layout_list ondisk) in
  if negb (an_down a =? 0) || negb (an_misc a =? 0) then false
  else if negb (an_holes a =? 0) || negb (an_overlaps a =? 0) then true
  else if negb (commit_hash inmem =? commit_hash ondisk) then true
  else
    negb ((dht_decommissioned_bricks_in_layout conf (layout_list ondisk) =? 0)
          && (dht_layout_span (layout_list ondisk)
              =? Z.of_nat (length (subvolumes conf)) - Z.of_nat (length (decommissioned conf)))
          && distribution_eqb (dht_distribution_type (layout_list inmem)) (dht_distribution_type (layout_list ondisk))).
