(* ===== verification/DhtSelfhealFacts.v ===== *)
(** * Facts on computed layouts

    The ranges handed out cover the hash space, one after the other, and
    exchanging ranges keeps them while it brings the layout closer to the old
    one. *)

From S2P Require Import Prelude Words DhtHash DhtLayout DhtFacts DhtSelfheal.
From stdpp Require Import strings.
Open Scope Z_scope.

(** ** Sums over lists *)

Lemma sum_insert {A} (f : A -> nat) (l : list A) i x y :
  l !! i = Some x -> (sum_list_with f (<[i := y]> l) + f x = sum_list_with f l + f y)%nat.
Proof.
  revert i. induction l as [|z l IH]; intros i Hi; [discriminate|]. destruct i as [|i].
  - injection Hi as ->. cbn. lia.
  - change (<[S i := y]> (z :: l)) with (z :: <[i := y]> l). cbn [sum_list_with].
    specialize (IH i Hi). lia.
Qed.

Lemma length_filter_sum {A} (P : A -> Prop) `{forall x, Decision (P x)} (l : list A) :
  length (filter P l) = sum_list_with (fun x => if decide (P x) then 1%nat else 0%nat) l.
Proof.
  induction l as [|x l IH]; [reflexivity|]. rewrite filter_cons. cbn. destruct (decide (P x)); cbn; lia.
Qed.

(** ** Covering *)

(** A range, once it is stored on the brick. *)
Definition stored (e : layout_entry) : layout_entry := set_err e 0.

Definition owns (h : Z) (e : layout_entry) : nat :=
  if decide (le_start e <> le_stop e /\ contains e h) then 1%nat else 0%nat.

Lemma owners_stored l h : length (owners (map stored l) h) = sum_list_with (owns h) l.
Proof.
  induction l as [|e l IH]; [reflexivity|]. cbn [map sum_list_with]. rewrite <- IH.
  unfold owners, participants. rewrite filter_cons. unfold owns.
  assert (Hp : participates (stored e) <-> le_start e <> le_stop e).
  { unfold participates, stored. cbn. rewrite <- Z.eqb_neq. destruct (le_start e =? le_stop e); cbn; naive_solver. }
  destruct (decide (participates (stored e))) as [Hs|Hs].
  - rewrite filter_cons. assert (Hc : contains (stored e) h <-> contains e h) by reflexivity.
    destruct (decide (contains (stored e) h)), (decide (le_start e <> le_stop e /\ contains e h));
      reflexivity || tauto.
  - rewrite decide_False by tauto. reflexivity.
Qed.

(** The ranges have every value below [s] once and no other. *)
Definition covers (s : Z) (l : list layout_entry) : Prop :=
  forall h, 0 <= h < 2 ^ 32 -> sum_list_with (owns h) l = if h <? s then 1%nat else 0%nat.

Lemma covers_all l : covers (2 ^ 32) l -> hash_partition (map stored l).
Proof.
  intros Hc h Hh. rewrite owners_stored, Hc by exact Hh. destruct (Z.ltb_spec h (2 ^ 32)); lia.
Qed.

Lemma covers_insert s l i e e' stop :
  covers s l -> l !! i = Some e -> le_start e = le_stop e ->
  le_start e' = s -> le_stop e' = stop -> 0 <= s < stop -> stop < 2 ^ 32 ->
  covers (stop + 1) (<[i := e']> l).
Proof.
  intros Hc Hi Hz Hs Hst Hlt H32 h Hh. pose proof (sum_insert (owns h) l i e e' Hi) as E. rewrite Hc in E by exact Hh.
  assert (E0 : owns h e = 0%nat) by (unfold owns; rewrite decide_False; [reflexivity | tauto]).
  assert (E1 : owns h e' = if (s <=? h) && (h <=? stop) then 1%nat else 0%nat).
  { unfold owns, contains. destruct (Z.leb_spec s h), (Z.leb_spec h stop); cbn [andb];
      [rewrite decide_True by lia | rewrite decide_False by lia ..]; reflexivity. }
  rewrite E0, E1 in E. destruct (Z.ltb_spec h s), (Z.ltb_spec h (stop + 1)), (Z.leb_spec s h),
    (Z.leb_spec h stop); cbn [andb] in E; lia.
Qed.

(** ** Handing out ranges *)

(** No range, or bounds in order. *)
Definition tidy (e : layout_entry) : Prop :=
  le_start e = 0 /\ le_stop e = 0 \/ 0 <= le_start e < le_stop e /\ le_stop e < 2 ^ 32.

Lemma tidy_ok e : tidy e -> entry_ok e.
Proof. unfold tidy, entry_ok. lia. Qed.

Section assign.
Context (conf : dht_conf) (weight : bool) (total bricks_to_use : Z).

(** The entries that get a range. *)
Definition picked (e : layout_entry) : bool :=
  assignable e && negb (weight && (dht_get_chunks_from_xl conf (le_xlator e) =? 0)).

Definition sz (e : layout_entry) : option Z := range_size_of conf weight total bricks_to_use e.

(** The sizes of these entries leave room for the last one. *)
Fixpoint fits (s : Z) (es : list layout_entry) : Prop :=
  match es with
  | [] => False
  | [e] => (exists r, sz e = Some r) /\ s < 2 ^ 32 - 1
  | e :: es => exists r, sz e = Some r /\ 2 <= r /\ fits (s + r) es
  end.

Lemma fits_bound es : forall s, fits s es -> s < 2 ^ 32 - 1.
Proof.
  induction es as [|e es IH]; intros s Hf; [destruct Hf|]. destruct es as [|e' es]; [apply Hf|].
  destruct Hf as (r & _ & Hr & Hf). specialize (IH _ Hf). lia.
Qed.

(** What the loop leaves alone. *)
Definition same_bricks (l l' : list layout_entry) : Prop :=
  map le_err l' = map le_err l /\ map le_xlator l' = map le_xlator l.

Lemma same_bricks_insert l i e :
  le_err e = le_err (l !!! i) -> le_xlator e = le_xlator (l !!! i) -> same_bricks l (<[i := e]> l).
Proof.
  intros He Hx. unfold same_bricks. destruct (decide (i < length l)%nat) as [Hi|].
  2: { rewrite list_insert_ge by lia. auto. }
  destruct (lookup_lt_is_Some_2 l i Hi) as [y Hy]. rewrite (list_lookup_total_correct _ _ _ Hy) in He, Hx.
  split.
  - change (le_err <$> <[i := e]> l = le_err <$> l). rewrite list_fmap_insert, He.
    apply list_insert_id. rewrite list_lookup_fmap, Hy. reflexivity.
  - change (le_xlator <$> <[i := e]> l = le_xlator <$> l). rewrite list_fmap_insert, Hx.
    apply list_insert_id. rewrite list_lookup_fmap, Hy. reflexivity.
Qed.

Lemma same_bricks_trans l1 l2 l3 : same_bricks l1 l2 -> same_bricks l2 l3 -> same_bricks l1 l3.
Proof. intros [H1 H2] [H3 H4]. split; congruence. Qed.

Lemma map_lookup_insert_ne (l : list layout_entry) order i e :
  i ∉ order -> map (fun j => <[i := e]> l !!! j) order = map (fun j => l !!! j) order.
Proof.
  intros Hi. apply map_ext_in. intros j Hj. apply list_lookup_total_insert_ne.
  intros <-. apply Hi, list_elem_of_In, Hj.
Qed.

Lemma assign_loop_spec order : forall layout start used,
  let l := layout_list layout in
  let m := Z.to_nat (bricks_to_use - used) in
  let es := filter (fun e => picked e) (map (fun i => l !!! i) order) in
  NoDup order -> Forall (fun i => (i < length l)%nat /\ le_start (l !!! i) = le_stop (l !!! i)) order ->
  Forall tidy l -> 0 <= start -> covers start l -> used < bricks_to_use ->
  (m <= length es)%nat -> fits start (take m es) ->
  exists layout', assign_loop conf weight total bricks_to_use order layout start used = Some layout' /\
    covers (2 ^ 32) (layout_list layout') /\ same_bricks l (layout_list layout') /\
    Forall tidy (layout_list layout').
Proof.
  induction order as [|i order IH]; intros layout start used; cbv zeta.
  { intros _ _ _ _ _ Hu Hm. cbn in Hm. lia. }
  set (l := layout_list layout). intros Hnd Hz Hok Hs Hc Hu Hm Hf.
  apply NoDup_cons in Hnd as [Hni Hnd]. apply Forall_cons in Hz as [[Hil Hiz] Hz].
  cbn [map] in Hm, Hf. rewrite filter_cons in Hm, Hf. cbn [assign_loop]. fold l.
  destruct (lookup_lt_is_Some_2 l i Hil) as [e He]. assert (Et := list_lookup_total_correct _ _ _ He).
  rewrite Et in *. destruct (decide (picked e)) as [Hp|Hp].
  2: { destruct (assignable e) eqn:Ea; cbn [negb].
       - destruct (weight && (dht_get_chunks_from_xl conf (le_xlator e) =? 0)) eqn:Ew.
         + apply IH; auto.
         + exfalso. apply Hp. unfold picked. rewrite Ea, Ew. exact I.
       - apply IH; auto. }
  unfold picked in Hp. apply Is_true_true, andb_true_iff in Hp as [-> Hp]. apply negb_true_iff in Hp.
  rewrite Hp. cbn [negb]. fold (sz e).
  assert (Em : Z.to_nat (bricks_to_use - used) = S (Z.to_nat (bricks_to_use - (used + 1)))) by lia.
  rewrite Em in Hm, Hf. cbn [length] in Hm. rewrite firstn_cons in Hf.
  pose proof (fits_bound _ _ Hf) as Hsb.
  set (es := filter (fun e => picked e) (map (fun i => l !!! i) order)) in *.
  assert (Hput : forall e1 stop, le_err e1 = le_err e -> le_xlator e1 = le_xlator e -> le_start e1 = start ->
    le_stop e1 = stop -> start < stop < 2 ^ 32 ->
    covers (stop + 1) (<[i := e1]> l) /\ same_bricks l (<[i := e1]> l) /\ Forall tidy (<[i := e1]> l)).
  { intros e1 stop E1 E2 E3 E4 Hlt. split; [apply (covers_insert start l i e e1 stop); auto; lia|].
    split; [apply same_bricks_insert; congruence|]. apply Forall_insert; [exact Hok|]. unfold tidy. lia. }
  destruct (Z.leb_spec bricks_to_use (used + 1)) as [Hlast|Hmore].
  - replace (Z.to_nat (bricks_to_use - (used + 1))) with O in Hf by lia. cbn [take fits] in Hf.
    destruct Hf as [[r Hr] _]. rewrite Hr. eexists. split; [reflexivity|].
    unfold set_layout_range. cbn [layout_list set_list]. fold l. rewrite Et.
    rewrite list_lookup_total_insert_eq, list_insert_insert_eq by exact Hil.
    apply (Hput _ (2 ^ 32 - 1)); cbn; auto; lia.
  - destruct (take (Z.to_nat (bricks_to_use - (used + 1))) es) as [|e2 es2] eqn:Ees.
    { exfalso. apply (f_equal length) in Ees. rewrite length_take in Ees. cbn in Ees. lia. }
    destruct Hf as (r & Hr & Hr2 & Hf). fold (fits (start + r) (e2 :: es2)) in Hf. rewrite Hr.
    pose proof (fits_bound _ _ Hf) as Hsb2. rewrite u32_id by lia.
    destruct (Hput (mk_entry (le_err e) start (u32 (start + r - 1)) (commit_hash layout) (le_xlator e))
      (start + r - 1)) as (Hc1 & Hb1 & Hok1); cbn; auto; [apply u32_id; lia | lia |].
    replace (start + r - 1 + 1) with (start + r) in Hc1 by lia.
    set (e1 := mk_entry _ _ _ _ _) in *.
    assert (El : layout_list (set_layout_range layout i start r) = <[i := e1]> l)
      by (unfold set_layout_range; cbn; fold l; rewrite Et; reflexivity).
    destruct (IH (set_layout_range layout i start r) (start + r) (used + 1)) as (layout' & Ha & Hc' & Hb' & Hok');
      rewrite ?El, ?map_lookup_insert_ne by exact Hni; auto; try lia.
    + apply Forall_forall. intros j Hj. rewrite length_insert. rewrite Forall_forall in Hz.
      destruct (Hz j Hj) as [Hjl Hjz]. split; [exact Hjl|]. rewrite list_lookup_total_insert_ne; [exact Hjz|].
      intros <-. contradiction.
    + fold es. lia.
    + fold es. rewrite Ees. exact Hf.
    + rewrite El in Hb'. exists layout'. split; [exact Ha|]. split; [exact Hc'|].
      split; [eapply same_bricks_trans; eauto | exact Hok'].
Qed.
End assign.

(** ** The order of the bricks *)

Lemma rotation_split cnt s : (s < cnt)%nat -> rotation cnt s = seq s (cnt - s) ++ seq 0 s.
Proof.
  intros Hs. unfold rotation.
  assert (E : seq 0 cnt = seq 0 (cnt - s) ++ seq (0 + (cnt - s)) s) by (rewrite <- seq_app; f_equal; lia).
  rewrite E, map_app. f_equal.
  - apply (list_eq_same_length _ _ (cnt - s)); [rewrite length_seq; auto | rewrite length_map, length_seq; auto |].
    intros k x y Hk Hx Hy. change (map ?f ?l) with (f <$> l) in Hx. rewrite list_lookup_fmap in Hx.
    rewrite lookup_seq_lt in Hx by lia. rewrite lookup_seq_lt in Hy by lia. cbn in Hx.
    injection Hx as <-. injection Hy as <-. rewrite Nat.mod_small by lia. lia.
  - apply (list_eq_same_length _ _ s); [rewrite length_seq; auto | rewrite length_map, length_seq; auto |].
    intros k x y Hk Hx Hy. change (map ?f ?l) with (f <$> l) in Hx. rewrite list_lookup_fmap in Hx.
    rewrite lookup_seq_lt in Hx by lia. rewrite lookup_seq_lt in Hy by lia. cbn in Hx.
    injection Hx as <-. injection Hy as <-. replace (cnt - s + k + s)%nat with (k + 1 * cnt)%nat by lia.
    rewrite Nat.Div0.mod_add. apply Nat.mod_small. lia.
Qed.

Lemma map_lookup_seq (l : list layout_entry) a n :
  (a + n <= length l)%nat -> map (fun i => l !!! i) (seq a n) = take n (drop a l).
Proof.
  revert a. induction n as [|n IH]; intros a Hn; [reflexivity|]. cbn [seq map].
  destruct (lookup_lt_is_Some_2 l a) as [x Hx]; [lia|]. rewrite (drop_S l x a Hx). cbn [take].
  rewrite IH by lia. f_equal. apply list_lookup_total_correct, Hx.
Qed.

Lemma rotation_spec (l : list layout_entry) s :
  (s < length l)%nat ->
  NoDup (rotation (length l) s) /\ Forall (fun i => (i < length l)%nat) (rotation (length l) s) /\
  map (fun i => l !!! i) (rotation (length l) s) ≡ₚ l.
Proof.
  intros Hs. rewrite rotation_split by exact Hs. split; [|split].
  - apply NoDup_app. split; [apply NoDup_seq|]. split; [|apply NoDup_seq].
    intros x H1%elem_of_seq H2%elem_of_seq. lia.
  - apply Forall_app. split; apply Forall_forall; intros x Hx%elem_of_seq; lia.
  - rewrite map_app, !map_lookup_seq by lia. rewrite drop_0, (take_ge (drop s l)) by (rewrite length_drop; lia).
    rewrite Permutation_app_comm, take_drop. reflexivity.
Qed.

(** ** The number of bricks *)

Lemma length_filter_map {A B} (f : A -> B) (P : B -> Prop) (Q : A -> Prop)
    `{forall x, Decision (P x)} `{forall x, Decision (Q x)} (l : list A) :
  (forall x, x ∈ l -> (P (f x) <-> Q x)) -> length (filter P (map f l)) = length (filter Q l).
Proof.
  induction l as [|x l IH]; intros Hext; [reflexivity|]. cbn [map]. rewrite !filter_cons.
  specialize (IH ltac:(intros y Hy; apply Hext, elem_of_cons; auto)).
  destruct (Hext x) as [H1 H2]; [apply elem_of_cons; auto|].
  destruct (decide (P (f x))), (decide (Q x)); try tauto; cbn [length]; lia.
Qed.

(** The marked entries that will get a range are those counted, and at least
    one and at most all of them are used. *)
Lemma layout_count_spec conf layout :
  0 <= spread_cnt layout ->
  let '(layout', n) := dht_get_layout_count conf layout in
  let c := Z.of_nat (length (filter (fun e => assignable e) (layout_list layout'))) in
  length (layout_list layout') = length (layout_list layout) /\
  map le_xlator (layout_list layout') = map le_xlator (layout_list layout) /\
  (0 < c -> 1 <= n <= c) /\
  ((exists e, e ∈ layout_list layout /\ decommissioned_xl conf (le_xlator e) = false /\
      (usable_err e || (le_err e =? ENOSPC))) -> 0 < c).
Proof.
  intros Hsp. unfold dht_get_layout_count.
  set (mark := fun e => if decommissioned_xl conf (le_xlator e) then set_err e EINVAL else e).
  set (l1 := map mark (layout_list layout)).
  set (zero := fun e => if le_err e =? 0 then set_err e (-1) else e).
  set (space := fun e => if le_err e =? ENOSPC then set_err e (-1) else e).
  assert (Hx : forall f l, (forall e, le_xlator (f e) = le_xlator e) -> map le_xlator (map f l) = map le_xlator l)
    by (intros f l Hf; rewrite map_map; apply map_ext; exact Hf).
  assert (Hxm : forall e, le_xlator (mark e) = le_xlator e) by (intros e; unfold mark; destruct (decommissioned_xl _ _); reflexivity).
  assert (Hxz : forall e, le_xlator (zero e) = le_xlator e) by (intros e; unfold zero; destruct (_ =? _); reflexivity).
  assert (Hxs : forall e, le_xlator (space e) = le_xlator e) by (intros e; unfold space; destruct (_ =? _); reflexivity).
  assert (Hcz : length (filter (fun e => assignable e) (map zero l1)) = length (filter (fun e => usable_err e) l1)).
  { apply length_filter_map. intros e _. unfold zero, assignable, usable_err.
    destruct (Z.eqb_spec (le_err e) 0) as [E|E]; cbn [le_err set_err].
    - rewrite E. cbn. tauto.
    - rewrite orb_false_r. tauto. }
  assert (Hin : forall e (Q : layout_entry -> bool) l, e ∈ l -> Q e -> (0 < length (filter (fun e => Q e) l))%nat).
  { intros e Q l He HQ. assert (Hf : e ∈ filter (fun e => Q e) l) by (apply list_elem_of_filter; auto).
    destruct (filter (fun e => Q e) l); [apply elem_of_nil in Hf as [] | cbn; lia]. }
  assert (Hmem : forall e, e ∈ layout_list layout -> decommissioned_xl conf (le_xlator e) = false -> e ∈ l1).
  { intros e He Hd. apply list_elem_of_fmap. exists e. unfold mark. rewrite Hd. auto. }
  destruct (Z.eqb_spec (Z.of_nat (length (filter (fun e => usable_err e) l1))) 0) as [E0|E0];
    cbn [layout_list set_list spread_cnt].
  - set (l2 := map zero l1) in *.
    assert (Hno : forall e, e ∈ l2 -> assignable e = false).
    { intros e He. destruct (assignable e) eqn:Ea; [|reflexivity].
      pose proof (Hin e assignable l2 He ltac:(rewrite Ea; exact I)). lia. }
    assert (Hcs : length (filter (fun e => assignable e) (map space l2)) = length (filter (fun e => le_err e = ENOSPC) l2)).
    { apply length_filter_map. intros e He. specialize (Hno e He). unfold space.
      destruct (Z.eqb_spec (le_err e) ENOSPC) as [E|E]; [cbn; tauto | rewrite Hno; cbn; tauto]. }
    rewrite Hcs, E0. split; [unfold l2, l1; rewrite !length_map; reflexivity|].
    split; [unfold l2, l1; rewrite !Hx by auto; reflexivity|]. rewrite !Z.add_0_l.
    set (c := Z.of_nat (length (filter (fun e => le_err e = ENOSPC) l2))). split.
    + intros Hc. destruct (Z.eqb_spec (spread_cnt layout) 0), (Z.leb_spec (spread_cnt layout) c),
        (Z.eqb_spec c 0); cbn [negb andb]; lia.
    + intros (e & He & Hd & Hu). specialize (Hmem e He Hd). apply Is_true_true, orb_true_iff in Hu as [Hu|Hu].
      * pose proof (Hin e usable_err l1 Hmem ltac:(rewrite Hu; exact I)). lia.
      * apply Z.eqb_eq in Hu. assert (Hl2 : e ∈ l2).
        { apply list_elem_of_fmap. exists e. unfold zero. rewrite Hu. auto. }
        assert (Hf : e ∈ filter (fun e => le_err e = ENOSPC) l2) by (apply list_elem_of_filter; auto).
        unfold c. destruct (filter (fun e => le_err e = ENOSPC) l2); [apply elem_of_nil in Hf as [] | cbn; lia].
  - rewrite Hcz. split; [unfold l1; rewrite !length_map; reflexivity|].
    split; [unfold l1; rewrite !Hx by auto; reflexivity|].
    set (c := Z.of_nat (length (filter (fun e => usable_err e) l1))) in *. split; [|lia].
    intros Hc. destruct (Z.eqb_spec (spread_cnt layout) 0), (Z.leb_spec (spread_cnt layout) c),
      (Z.eqb_spec c 0); cbn [negb andb]; lia.
Qed.

(** ** A new layout *)

Lemma covers_zero l : Forall (fun e => le_start e = le_stop e) l -> covers 0 l.
Proof.
  intros Hz h Hh. destruct (Z.ltb_spec h 0); [lia|]. induction Hz as [|e l He _ IH]; [reflexivity|].
  cbn [sum_list_with]. rewrite IH. unfold owns. rewrite decide_False by tauto. reflexivity.
Qed.

(** What [dht_selfheal_layout_new_directory] works with: the marked layout, the
    number of bricks, whether sizes count, and their total. *)
Definition new_directory_plan (conf : dht_conf) (layout : dht_layout) : dht_layout * Z * bool * Z :=
  let '(layout, n) := dht_get_layout_count conf layout in
  let '(weight, total) := size_loop conf (layout_list layout) 0 n 0 (do_weighting conf) in
  (layout, n, weight && negb (total =? 0), total).

(** The bricks in the order they are visited. *)
Definition visited (layout : dht_layout) (hash : option Z) : list layout_entry :=
  map (fun i => layout_list layout !!! i)
    (rotation (layout_cnt layout) (dht_selfheal_layout_alloc_start layout hash)).

Lemma picked_range conf weight e e' :
  le_err e = le_err e' -> le_xlator e = le_xlator e' -> picked conf weight e = picked conf weight e'.
Proof. unfold picked, assignable. intros -> ->. reflexivity. Qed.

Lemma fits_ext conf weight total n es : forall es' s,
  Forall2 (fun e e' => le_xlator e = le_xlator e') es es' ->
  fits conf weight total n s es -> fits conf weight total n s es'.
Proof.
  assert (Hsz : forall e e', le_xlator e = le_xlator e' -> sz conf weight total n e = sz conf weight total n e').
  { intros e e' E. unfold sz, range_size_of. rewrite E. reflexivity. }
  induction es as [|e es IH]; intros es' s Hf H; inversion Hf as [|? e' ? es2 He Hes]; subst; [exact H|].
  destruct Hes as [|e1 e1' es1 es1' He1 Hes]; cbn [fits] in *.
  - rewrite <- (Hsz e e' He). exact H.
  - destruct H as (r & Hr & H2 & H). exists r. rewrite <- (Hsz e e' He). split; [exact Hr|]. split; [exact H2|].
    apply (IH (e1' :: es1') (s + r)); [constructor; auto | exact H].
Qed.

Lemma filter_picked_reset conf weight (f : layout_entry -> layout_entry) l :
  (forall e, le_err (f e) = le_err e /\ le_xlator (f e) = le_xlator e) ->
  filter (fun e => picked conf weight e) (map f l) = map f (filter (fun e => picked conf weight e) l).
Proof.
  intros Hf. induction l as [|e l IH]; [reflexivity|]. cbn [map]. rewrite !filter_cons, IH.
  destruct (Hf e) as [H1 H2]. rewrite (picked_range conf weight (f e) e H1 H2).
  destruct (decide (picked conf weight e)); reflexivity.
Qed.

Lemma new_directory_spec conf hash layout :
  layout_list layout <> [] -> 0 <= spread_cnt layout ->
  let '(marked, n, weight, total) := new_directory_plan conf layout in
  let es := filter (fun e => picked conf weight e) (visited marked hash) in
  0 < n -> (Z.to_nat n <= length es)%nat -> fits conf weight total n 0 (take (Z.to_nat n) es) ->
  exists layout', dht_selfheal_layout_new_directory conf hash layout = Some layout' /\
    hash_partition (map stored (layout_list layout')) /\ Forall tidy (layout_list layout') /\
    map le_xlator (layout_list layout') = map le_xlator (layout_list layout).
Proof.
  intros Hne Hsp. unfold new_directory_plan, dht_selfheal_layout_new_directory.
  pose proof (layout_count_spec conf layout Hsp) as Hcount.
  destruct (dht_get_layout_count conf layout) as [marked n]. destruct Hcount as (Hlen & Hxl & _ & _).
  destruct (size_loop _ _ _ _ _ _) as [w total]. cbv zeta. set (weight := w && negb (total =? 0)).
  intros Hn Hm Hf. set (s := dht_selfheal_layout_alloc_start marked hash) in *.
  set (f := fun e => set_range e 0 0). set (l0 := layout_list marked) in *.
  assert (Hl0 : (0 < length l0)%nat) by (rewrite Hlen; destruct (layout_list layout); [congruence | cbn; lia]).
  assert (Hs : (s < length l0)%nat).
  { unfold s, dht_selfheal_layout_alloc_start. fold l0. unfold layout_cnt. fold l0. destruct hash as [h|]; [|lia].
    pose proof (Z.mod_pos_bound h (Z.of_nat (length l0)) ltac:(lia)). lia. }
  assert (El : layout_list (reset_layout_range marked) = map f l0) by reflexivity.
  assert (Elen : length (map f l0) = length l0) by apply length_map.
  unfold layout_cnt. rewrite El, Elen. destruct (rotation_spec l0 s Hs) as (Hnd & Hin & _).
  assert (Hvis : map (fun i => map f l0 !!! i) (rotation (length l0) s) = map f (visited marked hash)).
  { unfold visited, layout_cnt. fold l0 s. rewrite map_map. apply map_ext_in. intros i Hi%list_elem_of_In.
    rewrite Forall_forall in Hin. specialize (Hin i Hi). destruct (lookup_lt_is_Some_2 l0 i Hin) as [x Hx].
    rewrite (list_lookup_total_correct _ _ _ Hx). apply list_lookup_total_correct.
    change (map f l0) with (f <$> l0). rewrite list_lookup_fmap, Hx. reflexivity. }
  assert (Hff : forall e, le_err (f e) = le_err e /\ le_xlator (f e) = le_xlator e) by (intros e; split; reflexivity).
  assert (Hzero : Forall (fun e => le_start e = 0 /\ le_stop e = 0) (map f l0)).
  { apply Forall_forall. intros e (x & -> & _)%list_elem_of_fmap. split; reflexivity. }
  destruct (assign_loop_spec conf weight total n (rotation (length l0) s) (reset_layout_range marked) 0 0)
    as (layout' & Ha & Hc & [_ Hb] & Hok); rewrite ?El, ?Hvis, ?(filter_picked_reset _ _ f) by exact Hff;
    rewrite ?Z.sub_0_r; auto; try lia.
  - apply Forall_forall. intros i Hi. rewrite Forall_forall in Hin. specialize (Hin i Hi). rewrite Elen.
    split; [exact Hin|]. destruct (lookup_lt_is_Some_2 (map f l0) i) as [x Hx]; [lia|].
    rewrite (list_lookup_total_correct _ _ _ Hx). eapply Forall_lookup_1 in Hzero as [-> ->]; eauto.
  - eapply Forall_impl; [exact Hzero|]. unfold tidy. lia.
  - apply covers_zero. eapply Forall_impl; [exact Hzero|]. intros e [-> ->]. reflexivity.
  - rewrite length_map. exact Hm.
  - rewrite firstn_map. eapply fits_ext; [|exact Hf].
    apply Forall2_fmap_r. apply Forall_Forall2_diag, Forall_forall. intros e _. reflexivity.
  - exists layout'. rewrite El in Hb. split; [exact Ha|]. split; [apply covers_all; exact Hc|]. split; [exact Hok|].
    rewrite Hb, <- Hxl. fold l0. rewrite map_map. apply map_ext. intros e. apply Hff.
Qed.

(** ** Equal parts *)

Lemma fits_equal conf total n es : forall k,
  (0 < length es)%nat -> 0 <= k -> k + Z.of_nat (length es) = n -> n < 2 ^ 31 ->
  fits conf false total n (k * (0xffffffff / n)) es.
Proof.
  set (c := 0xffffffff / n).
  induction es as [|e es IH]; intros k Hl Hk Hn H31; [cbn in Hl; lia|]. cbn [length] in Hn.
  assert (Hc : 2 <= c) by (apply Z.div_le_lower_bound; lia).
  assert (Hnc : n * c <= 0xffffffff) by (apply Z.mul_div_le; lia).
  destruct es as [|e' es]; cbn [fits].
  - split; [exists c; reflexivity|]. nia.
  - exists c. split; [reflexivity|]. split; [exact Hc|].
    replace (k * c + c) with ((k + 1) * c) by lia. apply IH; cbn [length] in *; lia.
Qed.

Lemma size_loop_unweighted conf l : forall used n total,
  fst (size_loop conf l used n total false) = false.
Proof.
  induction l as [|e l IH]; intros used n total; [reflexivity|]. cbn [size_loop].
  destruct (negb (assignable e)); [apply IH|]. destruct (_ =? 0); [reflexivity|].
  destruct (_ <=? _); [reflexivity | apply IH].
Qed.

Lemma size_loop_no_stats conf l : forall used n weight,
  chunks conf = None ->
  let '(w, total) := size_loop conf l used n 0 weight in w && negb (total =? 0) = false.
Proof.
  induction l as [|e l IH]; intros used n weight Hc; cbn [size_loop]; [apply andb_false_r|].
  destruct (negb (assignable e)); [apply IH; exact Hc|].
  unfold dht_get_chunks_from_xl. rewrite Hc. cbn. reflexivity.
Qed.

Lemma new_directory_equal conf hash layout :
  layout_list layout <> [] -> Z.of_nat (layout_cnt layout) < 2 ^ 31 -> 0 <= spread_cnt layout ->
  (exists e, e ∈ layout_list layout /\ decommissioned_xl conf (le_xlator e) = false /\
     (usable_err e || (le_err e =? ENOSPC))) ->
  do_weighting conf = false \/ chunks conf = None ->
  exists layout', dht_selfheal_layout_new_directory conf hash layout = Some layout' /\
    hash_partition (map stored (layout_list layout')) /\ Forall tidy (layout_list layout') /\
    map le_xlator (layout_list layout') = map le_xlator (layout_list layout).
Proof.
  intros Hne H31 Hsp Huse Hw. pose proof (new_directory_spec conf hash layout Hne Hsp) as Hspec.
  unfold new_directory_plan in Hspec. pose proof (layout_count_spec conf layout Hsp) as Hcount.
  destruct (dht_get_layout_count conf layout) as [marked n]. destruct Hcount as (Hlen & _ & Hn & Hpos).
  specialize (Hpos Huse). specialize (Hn Hpos).
  assert (Hwf : let '(w, total) := size_loop conf (layout_list marked) 0 n 0 (do_weighting conf) in
    w && negb (total =? 0) = false).
  { destruct Hw as [Hw|Hw]; [|apply size_loop_no_stats; exact Hw]. rewrite Hw.
    pose proof (size_loop_unweighted conf (layout_list marked) 0 n 0) as E.
    destruct (size_loop conf (layout_list marked) 0 n 0 false) as [w total]. cbn in E. rewrite E. reflexivity. }
  destruct (size_loop _ _ _ _ _ _) as [w total]. rewrite Hwf in Hspec. cbv zeta in Hspec.
  set (es := filter (fun e => picked conf false e) (visited marked hash)) in *.
  assert (Hes : length es = length (filter (fun e => assignable e) (layout_list marked))).
  { assert (Hs : (dht_selfheal_layout_alloc_start marked hash < length (layout_list marked))%nat).
    { unfold dht_selfheal_layout_alloc_start, layout_cnt.
      assert (0 < length (layout_list marked))%nat by (rewrite Hlen; destruct (layout_list layout); [congruence | cbn; lia]).
      destruct hash as [h|]; [|lia].
      pose proof (Z.mod_pos_bound h (Z.of_nat (length (layout_list marked))) ltac:(lia)). lia. }
    destruct (rotation_spec (layout_list marked) _ Hs) as (_ & _ & Hperm). unfold es, visited, layout_cnt.
    rewrite Hperm. f_equal. apply list_filter_iff. intros e. unfold picked. rewrite andb_true_r. reflexivity. }
  apply Hspec; [lia | lia |].
  assert (Htl : length (take (Z.to_nat n) es) = Z.to_nat n) by (rewrite length_take; lia).
  pose proof (length_filter (fun e => assignable e) (layout_list marked)) as Hle.
  unfold layout_cnt in H31.
  apply (fits_equal conf total n (take (Z.to_nat n) es) 0); rewrite ?Htl; lia.
Qed.
