(* ===== verification/DhtOverlap.v ===== *)
(** * Exchanging ranges to keep an old layout

    [dht_selfheal_layout_maximize_overlap] permutes the ranges of a layout, and
    no exchange loses overlap with the old layout. *)

From S2P Require Import Prelude Words DhtHash DhtLayout DhtFacts DhtSelfheal DhtSelfhealFacts.
From stdpp Require Import strings.
Open Scope Z_scope.

(** ** Tables *)

Lemma cell_eq (n x y x' y' : nat) : (y < n)%nat -> (y' < n)%nat -> (x * n + y = x' * n + y')%nat -> x = x' /\ y = y'.
Proof. intros Hy Hy' E. assert (x = x') by nia. subst. lia. Qed.

Lemma cell_lt (n x y : nat) : (x < n)%nat -> (y < n)%nat -> (x * n + y < n * n)%nat.
Proof. nia. Qed.

Section table.
Context (n : nat).

(** Filling a row. *)
Lemma fill_row (f : nat -> Z) i m : forall table,
  (m <= n)%nat -> (i < n)%nat -> length table = (n * n)%nat ->
  let t' := foldl (fun table j => <[(i * n + j)%nat := f j]> table) table (seq 0 m) in
  length t' = (n * n)%nat /\
  forall x y, (x < n)%nat -> (y < n)%nat ->
    ov_entry n t' x y = if decide (x = i /\ (y < m)%nat) then f y else ov_entry n table x y.
Proof.
  induction m as [|m IH]; intros table Hm Hi Hl; cbv zeta.
  { split; [exact Hl|]. intros x y _ _. rewrite decide_False by lia. reflexivity. }
  rewrite seq_S, foldl_app. cbn [foldl Nat.add]. destruct (IH table ltac:(lia) Hi Hl) as [Hl' Ht].
  set (t1 := foldl _ table _) in *. split; [rewrite length_insert; exact Hl'|]. intros x y Hx Hy.
  unfold ov_entry in *. destruct (decide (x = i /\ y = m)) as [[-> ->]|Hne].
  - rewrite decide_True by lia. apply list_lookup_total_insert_eq. rewrite Hl'. apply cell_lt; lia.
  - rewrite list_lookup_total_insert_ne by (intros E; apply cell_eq in E; lia). rewrite Ht by auto.
    destruct (decide (x = i /\ (y < m)%nat)), (decide (x = i /\ (y < S m)%nat)); auto; lia.
Qed.

Lemma fill_table (f : nat -> nat -> Z) m : forall table,
  (m <= n)%nat -> length table = (n * n)%nat ->
  let t' := foldl (fun table i => foldl (fun table j => <[(i * n + j)%nat := f i j]> table) table (seq 0 n))
              table (seq 0 m) in
  length t' = (n * n)%nat /\
  forall x y, (x < n)%nat -> (y < n)%nat ->
    ov_entry n t' x y = if decide (x < m)%nat then f x y else ov_entry n table x y.
Proof.
  induction m as [|m IH]; intros table Hm Hl; cbv zeta.
  { split; [exact Hl|]. intros x y _ _. rewrite decide_False by lia. reflexivity. }
  rewrite seq_S, foldl_app. cbn [foldl Nat.add]. destruct (IH table ltac:(lia) Hl) as [Hl' Ht].
  set (t1 := foldl _ table _) in *.
  destruct (fill_row (f m) m n t1 ltac:(lia) ltac:(lia) Hl') as [Hl2 Ht2]. split; [exact Hl2|].
  intros x y Hx Hy. rewrite Ht2 by auto. destruct (decide (x = m /\ (y < n)%nat)) as [[-> _]|Hne].
  - rewrite decide_True by lia. reflexivity.
  - rewrite Ht by auto. destruct (decide (x < m)%nat), (decide (x < S m)%nat); auto; lia.
Qed.

Lemma swap_rows_spec i k m : forall table,
  (m <= n)%nat -> (i < n)%nat -> (k < n)%nat -> i <> k -> length table = (n * n)%nat ->
  let t' := swap_rows n m table i k in
  length t' = (n * n)%nat /\
  forall x y, (x < n)%nat -> (y < n)%nat ->
    ov_entry n t' x y =
      if decide (y < m)%nat
      then ov_entry n table (if decide (x = i) then k else if decide (x = k) then i else x) y
      else ov_entry n table x y.
Proof.
  unfold swap_rows. induction m as [|m IH]; intros table Hm Hi Hk Hne Hl; cbv zeta.
  { split; [exact Hl|]. intros x y _ _. rewrite decide_False by lia. reflexivity. }
  rewrite seq_S, foldl_app. cbn [foldl Nat.add]. destruct (IH table ltac:(lia) Hi Hk Hne Hl) as [Hl' Ht].
  set (t1 := foldl _ table _) in *. split; [rewrite !length_insert; exact Hl'|]. intros x y Hx Hy.
  assert (Hik : ov_entry n t1 i m = ov_entry n table i m /\ ov_entry n t1 k m = ov_entry n table k m)
    by (rewrite !Ht, !decide_False by lia; auto). destruct Hik as [-> ->].
  unfold ov_entry at 1. destruct (decide (y = m)) as [->|Hym].
  - rewrite (decide_True (P := (m < S m)%nat)) by lia. destruct (decide (x = k)) as [->|Hxk].
    + rewrite list_lookup_total_insert_eq by (rewrite length_insert, Hl'; apply cell_lt; lia).
      rewrite decide_False by auto. reflexivity.
    + rewrite list_lookup_total_insert_ne by (intros E; apply cell_eq in E; lia).
      destruct (decide (x = i)) as [->|Hxi].
      * apply list_lookup_total_insert_eq. rewrite Hl'. apply cell_lt; lia.
      * rewrite list_lookup_total_insert_ne by (intros E; apply cell_eq in E; lia).
        fold (ov_entry n t1 x m). rewrite Ht, decide_False by lia. reflexivity.
  - rewrite !list_lookup_total_insert_ne by (intros E; apply cell_eq in E; lia). fold (ov_entry n t1 x y).
    rewrite Ht by auto. destruct (decide (y < m)%nat), (decide (y < S m)%nat); auto; lia.
Qed.
End table.

(** ** Exchanging the ranges of two entries *)

Lemma range_swap_lookup (l : list layout_entry) i k t :
  (i < length l)%nat -> (k < length l)%nat -> i <> k ->
  dht_layout_range_swap l i k !!! t =
    if decide (t = i) then set_range (l !!! i) (le_start (l !!! k)) (le_stop (l !!! k))
    else if decide (t = k) then set_range (l !!! k) (le_start (l !!! i)) (le_stop (l !!! i))
    else l !!! t.
Proof.
  intros Hi Hk Hne. unfold dht_layout_range_swap. cbv zeta.
  rewrite (list_lookup_total_insert_ne l i k) by exact Hne.
  destruct (decide (t = i)) as [->|]; [|destruct (decide (t = k)) as [->|]].
  - rewrite list_lookup_total_insert_ne by auto. apply list_lookup_total_insert_eq, Hi.
  - apply list_lookup_total_insert_eq. rewrite length_insert. exact Hk.
  - rewrite !list_lookup_total_insert_ne by auto. reflexivity.
Qed.

Lemma range_swap_length (l : list layout_entry) i k : length (dht_layout_range_swap l i k) = length l.
Proof. unfold dht_layout_range_swap. cbv zeta. rewrite !length_insert. reflexivity. Qed.

Lemma owns_set_range h e s t e' : le_start e' = s -> le_stop e' = t -> owns h (set_range e s t) = owns h e'.
Proof. intros <- <-. reflexivity. Qed.

Lemma range_swap_owns (l : list layout_entry) i k h :
  (i < length l)%nat -> (k < length l)%nat -> i <> k ->
  sum_list_with (owns h) (dht_layout_range_swap l i k) = sum_list_with (owns h) l.
Proof.
  intros Hi Hk Hne. unfold dht_layout_range_swap. cbv zeta.
  rewrite (list_lookup_total_insert_ne l i k) by exact Hne.
  set (e1 := set_range (l !!! i) _ _). set (e2 := set_range (l !!! k) _ _).
  pose proof (sum_insert (owns h) l i (l !!! i) e1 (list_lookup_lookup_total_lt l i Hi)) as E1.
  assert (Hk2 : <[i := e1]> l !! k = Some (l !!! k))
    by (rewrite list_lookup_insert_ne by exact Hne; apply list_lookup_lookup_total_lt, Hk).
  pose proof (sum_insert (owns h) _ k _ e2 Hk2) as E2.
  assert (H1 : owns h e1 = owns h (l !!! k)) by (apply owns_set_range; reflexivity).
  assert (H2 : owns h e2 = owns h (l !!! i)) by (apply owns_set_range; reflexivity). lia.
Qed.

Lemma range_swap_bricks (l : list layout_entry) i k : same_bricks l (dht_layout_range_swap l i k).
Proof.
  unfold dht_layout_range_swap. cbv zeta. eapply same_bricks_trans; apply same_bricks_insert; reflexivity.
Qed.

(** ** Overlap *)

(** Two entries share no hash. *)
Definition apart (e e' : layout_entry) : Prop :=
  le_start e <> le_stop e -> le_start e' <> le_stop e' -> le_stop e < le_start e' \/ le_stop e' < le_start e.

Definition disjoint_ranges (l : list layout_entry) : Prop :=
  forall i j, (i < length l)%nat -> (j < length l)%nat -> i <> j -> apart (l !!! i) (l !!! j).

Definition total_overlap (old new : list layout_entry) : Z :=
  foldr Z.add 0 (map (fun t => dht_overlap_calc old t new t) (seq 0 (length new))).

Lemma sum_two (f g : nat -> Z) i k n :
  (i < n)%nat -> (k < n)%nat -> i <> k -> (forall t, t <> i -> t <> k -> g t = f t) ->
  foldr Z.add 0 (map g (seq 0 n)) = foldr Z.add 0 (map f (seq 0 n)) - f i - f k + g i + g k.
Proof.
  intros Hi Hk Hne Heq.
  assert (Hgen : forall m a, foldr Z.add 0 (map g (seq a m)) = foldr Z.add 0 (map f (seq a m))
      + (if decide (a <= i < a + m)%nat then g i - f i else 0)
      + (if decide (a <= k < a + m)%nat then g k - f k else 0)).
  { induction m as [|m IH]; intros a; [rewrite !decide_False by lia; cbn; lia|]. cbn [seq map foldr]. rewrite IH.
    destruct (decide (a = i)) as [->|Hai]; [|destruct (decide (a = k)) as [->|Hak]; [|rewrite (Heq a) by auto]];
      repeat case_decide; lia. }
  rewrite Hgen, !decide_True by lia. lia.
Qed.

(** The ranges of [new] exchanged: the overlap of an entry is the one of the
    entry its range comes from. *)
Lemma overlap_calc_moved old o new n new' n' :
  (n < length new)%nat -> (n' < length new')%nat ->
  (0 <? le_err (new' !!! n')) = (0 <? le_err (new !!! n)) ->
  le_start (new' !!! n') = le_start (new !!! n) -> le_stop (new' !!! n') = le_stop (new !!! n) ->
  dht_overlap_calc old o new' n' = dht_overlap_calc old o new n.
Proof.
  intros Hn Hn' He Hs Ht. unfold dht_overlap_calc. cbv zeta. rewrite He, Hs, Ht.
  rewrite (proj2 (Nat.leb_gt _ _) Hn), (proj2 (Nat.leb_gt _ _) Hn'). reflexivity.
Qed.

Lemma overlap_swap old new i k :
  (i < length new)%nat -> (k < length new)%nat -> i <> k ->
  le_err (new !!! i) <= 0 -> le_err (new !!! k) <= 0 ->
  let new' := dht_layout_range_swap new i k in
  forall o t, (t < length new)%nat ->
  dht_overlap_calc old o new' t =
    dht_overlap_calc old o new (if decide (t = i) then k else if decide (t = k) then i else t).
Proof.
  intros Hi Hk Hne Hei Hek new' o t Ht.
  assert (El : (0 <? le_err (new !!! i)) = (0 <? le_err (new !!! k))).
  { destruct (Z.ltb_spec 0 (le_err (new !!! i))), (Z.ltb_spec 0 (le_err (new !!! k))); lia. }
  pose proof (range_swap_lookup new i k t Hi Hk Hne) as El'. fold new' in El'.
  apply overlap_calc_moved; try (unfold new'; rewrite range_swap_length); try exact Ht;
    try rewrite El'; repeat case_decide; subst; auto.
Qed.

(** Bounds on the overlap [v] of two ranges. *)
Definition overlap_is (v : Z) (eo en : layout_entry) : Prop :=
  v = 0 \/
  le_start eo <> le_stop eo /\ le_start en <> le_stop en /\ 0 < v < 2 ^ 32 /\
  v <= le_stop eo - le_start en + 1 /\ v <= le_stop en - le_start eo + 1 /\
  v <= le_stop eo - le_start eo + 1 /\ v <= le_stop en - le_start en + 1.

Lemma overlap_cases old o new n :
  (o < length old)%nat -> (n < length new)%nat -> entry_ok (old !!! o) -> entry_ok (new !!! n) ->
  overlap_is (dht_overlap_calc old o new n) (old !!! o) (new !!! n).
Proof.
  unfold entry_ok, overlap_is, dht_overlap_calc. intros Ho Hn Oo On. cbv zeta.
  rewrite !(proj2 (Nat.leb_gt _ _)) by lia. cbn [orb].
  destruct (_ || _); [auto|]. destruct (Z.eqb_spec (le_start (old !!! o)) (le_stop (old !!! o))); [auto|].
  destruct (Z.eqb_spec (le_start (new !!! n)) (le_stop (new !!! n))); [auto|].
  destruct (_ || _) eqn:E; [auto|]. apply orb_false_iff in E as [E1 E2]. apply Z.ltb_ge in E1, E2.
  unfold u32. set (v := Z.min _ _ - Z.max _ _ + 1). assert (0 < v <= 2 ^ 32) by lia.
  destruct (decide (v = 2 ^ 32)) as [->|]; [left; reflexivity|]. right. rewrite Z.mod_small by lia.
  repeat split; auto; lia.
Qed.

Lemma entry_ok_total (l : list layout_entry) t : Forall entry_ok l -> (t < length l)%nat -> entry_ok (l !!! t).
Proof. intros Hf Ht. rewrite Forall_lookup in Hf. apply (Hf t), list_lookup_lookup_total_lt, Ht. Qed.

Lemma overlap_pair_bound v w eo en fo fn :
  entry_ok en -> entry_ok fn -> apart en fn -> overlap_is v eo en -> overlap_is w fo fn -> 0 <= v + w <= 2 ^ 32.
Proof.
  unfold entry_ok.
  intros Oe Of Ha [->|(_ & He & Hv & _ & _ & _ & V)] [->|(_ & Hf & Hw & _ & _ & _ & W)]; [lia | lia | lia |].
  specialize (Ha He Hf). lia.
Qed.

(** Two ranges that together are every hash and lie in two old ranges share
    nothing with them crosswise. *)
Lemma overlap_pair_full v w v' w' eo en fo fn :
  entry_ok en -> entry_ok fn -> apart en fn -> apart eo fo -> overlap_is v eo en -> overlap_is w fo fn ->
  overlap_is v' fo en -> overlap_is w' eo fn -> v + w = 2 ^ 32 -> v' + w' = 0.
Proof.
  unfold entry_ok. intros Oe Of Ha Hb [->|(Ho & He & Hv & V1 & V2 & _ & V4)] [->|(Hp & Hf & Hw & W1 & W2 & _ & W4)] C D E;
    [lia | lia | lia |].
  specialize (Ha He Hf). specialize (Hb Ho Hp).
  assert (In1 : le_start eo <= le_start en /\ le_stop en <= le_stop eo) by lia.
  assert (In2 : le_start fo <= le_start fn /\ le_stop fn <= le_stop fo) by lia. clear V1 V2 V4 W1 W2 W4 Hv Hw E Ha.
  assert (v' = 0) as -> by (destruct C as [|(_ & _ & C1 & C2 & C3 & _)]; [assumption | lia]).
  assert (w' = 0) as -> by (destruct D as [|(_ & _ & D1 & D2 & D3 & _)]; [assumption | lia]). reflexivity.
Qed.

(** Exchanging two ranges of layouts without overlaps never loses by the
    wrap-around of the sums. *)
Lemma exchange_gain old new i k :
  Forall entry_ok old -> Forall entry_ok new -> disjoint_ranges old -> disjoint_ranges new ->
  (i < length new)%nat -> (k < length new)%nat -> i <> k -> length old = length new ->
  let ov x y := dht_overlap_calc old y new x in
  u32 (ov i i + ov k k) < u32 (ov i k + ov k i) -> ov i i + ov k k < ov i k + ov k i.
Proof.
  intros Ho Hn Do Dn Hi Hk Hne Hl ov.
  assert (Hio : (i < length old)%nat) by lia. assert (Hko : (k < length old)%nat) by lia.
  pose proof (entry_ok_total _ _ Ho Hio) as O1. pose proof (entry_ok_total _ _ Ho Hko) as O2.
  pose proof (entry_ok_total _ _ Hn Hi) as N1. pose proof (entry_ok_total _ _ Hn Hk) as N2.
  pose proof (overlap_cases old i new i Hio Hi O1 N1) as A. pose proof (overlap_cases old k new k Hko Hk O2 N2) as B.
  pose proof (overlap_cases old k new i Hko Hi O2 N1) as C. pose proof (overlap_cases old i new k Hio Hk O1 N2) as D.
  specialize (Do i k Hio Hko Hne). specialize (Dn i k Hi Hk Hne).
  pose proof (overlap_pair_bound _ _ _ _ _ _ N1 N2 Dn A B) as Hd.
  pose proof (overlap_pair_bound _ _ _ _ _ _ N1 N2 Dn C D) as Hc.
  pose proof (overlap_pair_full _ _ _ _ _ _ _ _ N1 N2 Dn Do A B C D) as Hdc.
  fold (ov i i) (ov k k) (ov i k) (ov k i) in Hd, Hc, Hdc. clear A B C D.
  unfold u32. intros Hlt.
  destruct (decide (ov i k + ov k i = 2 ^ 32)) as [E|Ec].
  { rewrite E, Z_mod_same_full in Hlt. pose proof (Z.mod_pos_bound (ov i i + ov k k) (2 ^ 32) ltac:(lia)). lia. }
  rewrite (Z.mod_small (ov i k + ov k i)) in Hlt by lia.
  destruct (decide (ov i i + ov k k = 2 ^ 32)) as [E|Ed]; [specialize (Hdc E); rewrite E, Z_mod_same_full in Hlt; lia|].
  rewrite Z.mod_small in Hlt by lia. lia.
Qed.

(** ** The search and the loop *)

Section maximize.
Context (old : list layout_entry) (Ho : Forall entry_ok old) (Do : disjoint_ranges old).

(** The best exchange found is an exchange that gains. *)
Lemma best_spec new table i m : forall a best,
  (i < a)%nat ->
  let good := fun b : Z * nat =>
    snd b = i \/
    (i < snd b < a + m)%nat /\ le_err (new !!! snd b) <= 0 /\
    let ov := ov_entry (length new) table in
    u32 (ov i i + ov (snd b) (snd b)) < u32 (ov i (snd b) + ov (snd b) i) in
  good best -> good (foldl (best_step new table i) best (seq a m)).
Proof.
  induction m as [|m IH]; intros a [g b] Ha good Hb; [exact Hb|]. cbn [seq foldl].
  assert (E : (S a + m = a + S m)%nat) by lia. specialize (IH (S a)). rewrite E in IH.
  apply IH; [lia|]. cbn [snd] in Hb. unfold best_step. cbv zeta.
  destruct (Z.ltb_spec 0 (le_err (new !!! a))) as [|He]; [exact Hb|].
  match goal with |- context [if ?x <? ?y then if _ then _ else _ else _] => destruct (Z.ltb_spec x y) as [Hlt|]; [|exact Hb] end.
  destruct (g <? _); [|exact Hb]. right. cbn [snd]. repeat split; auto; lia.
Qed.

Record kept (new0 new : list layout_entry) (table : list Z) : Prop := {
  kept_bricks : same_bricks new0 new;
  kept_ok : Forall entry_ok new;
  kept_apart : disjoint_ranges new;
  kept_owns : forall h, sum_list_with (owns h) new = sum_list_with (owns h) new0;
  kept_size : length table = (length new * length new)%nat;
  kept_table : forall x y, (x < length new)%nat -> (y < length new)%nat ->
    ov_entry (length new) table x y = dht_overlap_calc old y new x;
  kept_gain : total_overlap old new0 <= total_overlap old new }.

Lemma range_swap_ok new i k :
  (i < length new)%nat -> (k < length new)%nat -> i <> k ->
  Forall entry_ok new -> Forall entry_ok (dht_layout_range_swap new i k).
Proof.
  intros Hi Hk Hne Hf. apply Forall_lookup. intros t e Ht. pose proof (lookup_lt_Some _ _ _ Ht) as Hl.
  rewrite range_swap_length in Hl. apply list_lookup_total_correct in Ht. subst e.
  rewrite range_swap_lookup by auto. unfold set_range.
  pose proof (entry_ok_total new i Hf Hi). pose proof (entry_ok_total new k Hf Hk).
  pose proof (entry_ok_total new t Hf Hl). repeat case_decide; assumption.
Qed.

Lemma range_swap_apart new i k :
  (i < length new)%nat -> (k < length new)%nat -> i <> k ->
  disjoint_ranges new -> disjoint_ranges (dht_layout_range_swap new i k).
Proof.
  intros Hi Hk Hne D x y Hx Hy Hxy. rewrite range_swap_length in Hx, Hy. rewrite !range_swap_lookup by auto.
  set (p t := if decide (t = i) then k else if decide (t = k) then i else t).
  assert (Hp : (p x < length new)%nat /\ (p y < length new)%nat /\ p x <> p y).
  { unfold p. repeat case_decide; subst; repeat split; auto; lia. }
  destruct Hp as (Hpx & Hpy & Hpn). specialize (D _ _ Hpx Hpy Hpn). unfold p in D.
  repeat case_decide; subst; try done; exact D.
Qed.

Lemma total_overlap_swap new i k :
  (i < length new)%nat -> (k < length new)%nat -> i <> k ->
  le_err (new !!! i) <= 0 -> le_err (new !!! k) <= 0 ->
  let ov x y := dht_overlap_calc old y new x in
  total_overlap old (dht_layout_range_swap new i k) =
    total_overlap old new - ov i i - ov k k + ov k i + ov i k.
Proof.
  intros Hi Hk Hne Hei Hek ov. pose proof (overlap_swap old new i k Hi Hk Hne Hei Hek) as Hov.
  unfold total_overlap. rewrite range_swap_length.
  set (p t := if decide (t = i) then k else if decide (t = k) then i else t).
  rewrite (map_ext_in _ (fun t => ov (p t) t)) by (intros t Ht%in_seq; apply Hov; lia).
  assert (Hp : forall t, t <> i -> t <> k -> p t = t) by (intros; unfold p; rewrite !decide_False; auto).
  rewrite (sum_two (fun t => ov t t) (fun t => ov (p t) t) i k) by (auto; intros; rewrite Hp; auto).
  assert (Ei : p i = k) by (unfold p; rewrite decide_True; auto).
  assert (Ek : p k = i) by (unfold p; rewrite decide_False, decide_True; auto).
  rewrite Ei, Ek. unfold ov. lia.
Qed.

Lemma exchange_kept new0 new table i k :
  kept new0 new table -> length old = length new ->
  (i < length new)%nat -> (k < length new)%nat -> i <> k ->
  le_err (new !!! i) <= 0 -> le_err (new !!! k) <= 0 ->
  (let ov := ov_entry (length new) table in u32 (ov i i + ov k k) < u32 (ov i k + ov k i)) ->
  kept new0 (dht_layout_range_swap new i k) (swap_rows (length new) (length old) table i k).
Proof.
  intros [Kb Ko Ka Kw Ks Kt Kg] Hl Hi Hk Hne Hei Hek Hgain. cbv zeta in Hgain. rewrite !Kt in Hgain by auto.
  apply exchange_gain in Hgain; auto.
  destruct (swap_rows_spec (length new) i k (length old) table) as [Hs Ht]; auto; [lia|].
  pose proof (overlap_swap old new i k Hi Hk Hne Hei Hek) as Hov. cbv zeta in Hov.
  constructor; try rewrite !range_swap_length.
  - eapply same_bricks_trans; [exact Kb | apply range_swap_bricks].
  - apply range_swap_ok; auto.
  - apply range_swap_apart; auto.
  - intros h. rewrite range_swap_owns by auto. apply Kw.
  - exact Hs.
  - intros x y Hx Hy. rewrite Ht, Hov, decide_True by (auto; lia). apply Kt; [|exact Hy].
    repeat case_decide; auto.
  - etrans; [exact Kg|]. rewrite total_overlap_swap by auto. lia.
Qed.

Lemma maximize_kept new0 new table l :
  kept new0 new table -> length old = length new -> Forall (fun i => (i < length new)%nat) l ->
  let '(new', table') := foldl (maximize_step old) (new, table) l in kept new0 new' table'.
Proof.
  revert new table. induction l as [|i l IH]; intros new table K Hl Hr; [exact K|]. cbn [foldl].
  inversion Hr as [|? ? Hi Hr']; subst. unfold maximize_step at 2. cbv zeta.
  destruct (Z.ltb_spec 0 (le_err (new !!! i))) as [|Hei]; [apply IH; auto|].
  pose proof (best_spec new table i (length new - S i) (S i) (0, i) ltac:(lia) (or_introl eq_refl)) as Hb.
  cbv zeta in Hb. destruct (foldl (best_step new table i) (0, i) _) as [g k]. cbn [snd] in Hb.
  destruct (Nat.eqb_spec k i) as [->|Hki]; cbn [negb]; [apply IH; auto|].
  destruct Hb as [|(Hk & Hek & Hg)]; [contradiction|].
  apply IH; rewrite ?range_swap_length; auto. apply exchange_kept; auto; lia.
Qed.
End maximize.

Lemma ov_table_spec old new :
  length old = length new ->
  length (ov_table old new) = (length new * length new)%nat /\
  forall x y, (x < length new)%nat -> (y < length new)%nat ->
    ov_entry (length new) (ov_table old new) x y = dht_overlap_calc old y new x.
Proof.
  intros Hl. unfold ov_table. rewrite Hl.
  destruct (fill_table (length new) (fun i j => dht_overlap_calc old j new i) (length new)
    (replicate (length new * length new)%nat 0) ltac:(lia) (length_replicate _ _)) as [H1 H2].
  split; [exact H1|]. intros x y Hx Hy. rewrite H2, decide_True by auto. reflexivity.
Qed.

Lemma maximize_overlap_spec new old :
  let o := layout_list (dht_layout_sort_volname old) in
  let n := layout_list new in
  let new' := dht_selfheal_layout_maximize_overlap new old in
  Forall entry_ok o -> Forall entry_ok n -> disjoint_ranges o -> disjoint_ranges n -> length o = length n ->
  same_bricks n (layout_list new') /\ Forall entry_ok (layout_list new') /\
  (forall h, sum_list_with (owns h) (layout_list new') = sum_list_with (owns h) n) /\
  total_overlap o n <= total_overlap o (layout_list new').
Proof.
  intros o n new' Ho Hn Do Dn Hl. destruct (ov_table_spec o n Hl) as [Hs Ht].
  assert (K : kept o n n (ov_table o n)) by (constructor; auto; [split; reflexivity | lia]).
  pose proof (maximize_kept o Ho Do n n (ov_table o n) (seq 0 (length n)) K Hl) as Hm.
  unfold new', dht_selfheal_layout_maximize_overlap. fold o. cbv zeta. unfold layout_cnt. fold n.
  destruct (foldl _ _ _) as [l t]. cbn [set_list layout_list].
  destruct Hm as [Kb Ko _ Kw _ _ Kg]; [|auto]. apply Forall_forall. intros x Hx%elem_of_seq. lia.
Qed.

(** ** Layouts without overlaps *)

Lemma sum_two_le {A} (f : A -> nat) (l : list A) `{Inhabited A} : forall i j,
  (i < j < length l)%nat -> (f (l !!! i) + f (l !!! j) <= sum_list_with f l)%nat.
Proof.
  induction l as [|x l IH]; intros i j Hij; [cbn in Hij; lia|]. cbn [length] in Hij.
  destruct j as [|j]; [lia|]. change ((x :: l) !!! S j) with (l !!! j). cbn [sum_list_with]. destruct i as [|i].
  - change ((x :: l) !!! 0%nat) with x.
    assert (Hj : l !! j = Some (l !!! j)) by (apply list_lookup_lookup_total_lt; lia).
    rewrite <- (take_drop_middle l j _ Hj), sum_list_with_app. cbn [sum_list_with].
    rewrite take_drop_middle by exact Hj. lia.
  - change ((x :: l) !!! S i) with (l !!! i). specialize (IH i j ltac:(lia)). lia.
Qed.

(** No hash value is in the ranges of two entries. *)
Definition no_shared_hash (l : list layout_entry) : Prop :=
  forall h, 0 <= h < 2 ^ 32 -> (sum_list_with (owns h) l <= 1)%nat.

Lemma owns_inside h e : le_start e <> le_stop e -> contains e h -> owns h e = 1%nat.
Proof. intros Hn Hc. unfold owns. rewrite decide_True by auto. reflexivity. Qed.

Lemma no_shared_disjoint l : Forall entry_ok l -> no_shared_hash l -> disjoint_ranges l.
Proof.
  intros Hok Hs.
  assert (Hlt : forall i j, (i < j < length l)%nat -> apart (l !!! i) (l !!! j)).
  { intros i j Hij Hi Hj. destruct (entry_ok_total l i Hok ltac:(lia)) as [O1 O2].
    destruct (entry_ok_total l j Hok ltac:(lia)) as [O3 O4].
    destruct (Z.lt_ge_cases (le_stop (l !!! i)) (le_start (l !!! j))); [auto|].
    destruct (Z.lt_ge_cases (le_stop (l !!! j)) (le_start (l !!! i))); [auto|]. exfalso.
    set (h := Z.max (le_start (l !!! i)) (le_start (l !!! j))).
    specialize (Hs h ltac:(unfold h; lia)). pose proof (sum_two_le (owns h) l i j Hij) as Hle.
    rewrite !owns_inside in Hle by (auto; unfold contains, h; lia). lia. }
  intros i j Hi Hj Hne. destruct (decide (i < j)%nat).
  - apply Hlt. lia.
  - intros H1 H2. destruct (Hlt j i ltac:(lia) H2 H1); auto.
Qed.

Lemma sum_perm {A} (f : A -> nat) l l' : l ≡ₚ l' -> sum_list_with f l = sum_list_with f l'.
Proof. induction 1; cbn; lia. Qed.

(** ** Sorting by name *)

Lemma sort_with_map cmp (f : layout_entry -> layout_entry) l :
  (forall a b, cmp (f a) (f b) = cmp a b) ->
  sort_with cmp (map f l) = map f (sort_with cmp l).
Proof.
  intros Hf. unfold sort_with. rewrite length_map. cbv zeta.
  assert (Hin : forall i js l, Forall (fun j => (i < length l /\ j < length l)%nat) js ->
    foldl (sort_step cmp i) (map f l) js = map f (foldl (sort_step cmp i) l js) /\
    length (foldl (sort_step cmp i) l js) = length l).
  { intros i js. clear l. induction js as [|j js IH]; intros l Hj; [auto|]. cbn [foldl].
    apply Forall_cons in Hj as [[Hil Hjl] Hj].
    assert (Hlk : forall k, (k < length l)%nat -> map f l !!! k = f (l !!! k)).
    { intros k Hk. apply list_lookup_total_correct. change (map f l) with (f <$> l).
      rewrite list_lookup_fmap, (list_lookup_lookup_total_lt l k Hk). reflexivity. }
    assert (E : sort_step cmp i (map f l) j = map f (sort_step cmp i l j)).
    { unfold sort_step. rewrite !Hlk, Hf by auto. destruct (_ <? _); [|reflexivity].
      unfold dht_layout_entry_swap. rewrite !Hlk by auto.
      change (map f (<[j := l !!! i]> (<[i := l !!! j]> l))) with (f <$> <[j := l !!! i]> (<[i := l !!! j]> l)).
      rewrite !list_fmap_insert. reflexivity. }
    assert (El : length (sort_step cmp i l j) = length l).
    { unfold sort_step, dht_layout_entry_swap. destruct (_ <? _); [rewrite !length_insert|]; reflexivity. }
    rewrite E. destruct (IH (sort_step cmp i l j)) as [H1 H2]; [rewrite El; exact Hj|]. split; [exact H1 | lia]. }
  set (n := length l). assert (Hn : length l = n) by reflexivity. clearbody n.
  assert (His : Forall (fun i => (i < n)%nat) (seq 0 (n - 1))) by (apply Forall_forall; intros i Hi%elem_of_seq; lia).
  revert l Hn. induction (seq 0 (n - 1)) as [|i js IH]; intros l Hn; [reflexivity|]. cbn [foldl].
  apply Forall_cons in His as [Hi His].
  destruct (Hin i (seq (S i) (n - S i)) l) as [H1 H2].
  { apply Forall_forall. intros j Hj%elem_of_seq. lia. }
  rewrite H1. apply IH; [exact His | lia].
Qed.

Lemma sort_volname_perm l : sort_with dht_layout_entry_cmp_volname l ≡ₚ l.
Proof.
  destruct (sort_with_spec dht_layout_entry_cmp_volname (fun _ => True) (fun _ _ => True)) with (l := l) as [Hp _]; auto.
  apply Forall_forall. auto.
Qed.
