(* ===== verification/DhtDiskFacts.v ===== *)
(** * Layouts written to and read from the bricks

    Reading back with [dht_layout_merge] what [dht_disk_layout_extract] wrote on
    every brick gives the ranges of the layout again. *)

From S2P Require Import Prelude Words DhtHash DhtLayout DhtFacts DhtSelfheal DhtSelfhealFacts.
From stdpp Require Import strings.
Open Scope Z_scope.

(** The fields that are written are 32-bit values. *)
Definition words_ok (e : layout_entry) : Prop :=
  0 <= le_start e < 2 ^ 32 /\ 0 <= le_stop e < 2 ^ 32 /\ 0 <= le_commit_hash e < 2 ^ 32.

Definition valid_type (type : Z) : Prop := type = DHT_HASH_TYPE_DM \/ type = DHT_HASH_TYPE_DM_USER.

(** Answers of the bricks of a directory whose layout was written, in their
    order: the name of the brick and the attribute. *)
Definition answers (layout : dht_layout) : list (option xlator * list Z) :=
  map (fun i => (le_xlator (layout_list layout !!! i), dht_disk_layout_extract layout i)) (seq 0 (layout_cnt layout)).

(** Merging the answers of bricks that all succeed. *)
Fixpoint merge_answers (layout : dht_layout) (l : list (option xlator * list Z)) : merge_result :=
  match l with
  | [] => MERGE_OK layout
  | (Some subvol, raw) :: l =>
      match dht_layout_merge layout subvol 0 0 (Some raw) with
      | MERGE_OK layout => merge_answers layout l
      | r => r
      end
  | (None, _) :: _ => MERGE_UNDEF
  end.

(** ** Facts *)

Lemma disk_merge_extract layout pos layout' pos' :
  (pos' < layout_cnt layout')%nat -> words_ok (layout_list layout !!! pos) -> valid_type (layout_type layout) ->
  let e := layout_list layout !!! pos in
  let e' := layout_list layout' !!! pos' in
  dht_disk_layout_merge layout' pos' (dht_disk_layout_extract layout pos) =
    MERGE_OK (mk_layout (spread_cnt layout') (preset layout') (commit_hash layout')
      (if layout_type layout =? DHT_HASH_TYPE_DM_USER then DHT_HASH_TYPE_DM_USER else layout_type layout')
      (<[pos' := mk_entry (le_err e') (le_start e) (le_stop e) (le_commit_hash e) (le_xlator e')]>
         (layout_list layout'))).
Proof.
  intros Hp (Hs & Ht & Hc) Hv. cbv zeta. unfold dht_disk_layout_merge, dht_disk_layout_extract. cbv zeta.
  rewrite !hton32_involutive by (auto; destruct Hv as [-> | ->]; unfold DHT_HASH_TYPE_DM, DHT_HASH_TYPE_DM_USER; lia).
  destruct Hv as [-> | ->]; reflexivity.
Qed.

Lemma free_entry_app (l r : list layout_entry) e :
  Forall (fun e => le_xlator e <> None) l -> le_xlator e = None -> free_entry (l ++ e :: r) = length l.
Proof.
  intros Hl He. induction Hl as [|x l Hx Hf IH]; cbn [app free_entry length]; [rewrite He; reflexivity|].
  destruct (le_xlator x); [|congruence]. rewrite IH. reflexivity.
Qed.

Lemma lookup_middle (l r : list layout_entry) e : (l ++ e :: r) !!! length l = e.
Proof. apply list_lookup_total_correct. rewrite lookup_app_r, Nat.sub_diag by lia. reflexivity. Qed.

Lemma insert_middle (l r : list layout_entry) e e' : <[length l := e']> (l ++ e :: r) = l ++ e' :: r.
Proof. rewrite insert_app_r_alt, Nat.sub_diag by lia. reflexivity. Qed.

(** The commit hash of a layout after an entry with commit hash [c]. *)
Definition merged_commit (ch c : Z) : Z :=
  if ch =? 0 then c else if negb (ch =? c) then DHT_LAYOUT_HASH_INVALID else ch.

(** Merging the answer of one more brick. *)
Lemma merge_next layout pos sp pr ch ty l r subvol :
  let e := layout_list layout !!! pos in
  Forall (fun e => le_xlator e <> None) l -> words_ok e -> valid_type (layout_type layout) ->
  le_xlator e = Some subvol ->
  dht_layout_merge (mk_layout sp pr ch ty (l ++ mk_entry 0 0 0 0 None :: r)) subvol 0 0
    (Some (dht_disk_layout_extract layout pos)) =
  MERGE_OK (mk_layout sp pr (merged_commit ch (le_commit_hash e))
    (if layout_type layout =? DHT_HASH_TYPE_DM_USER then DHT_HASH_TYPE_DM_USER else ty) (l ++ stored e :: r)).
Proof.
  intros e Hl Hw Hv He. unfold dht_layout_merge, layout_cnt. cbv zeta. cbn [layout_list].
  rewrite free_entry_app by auto.
  rewrite (proj2 (Nat.leb_gt _ _)) by (rewrite length_app; cbn; lia). cbn [Z.eqb negb].
  rewrite disk_merge_extract; auto.
  2: { unfold layout_cnt. cbn [set_list layout_list]. rewrite length_insert, length_app. cbn. lia. }
  cbn [set_list layout_list spread_cnt preset commit_hash layout_type].
  rewrite !insert_middle, !lookup_middle. cbn [le_err le_start le_stop le_commit_hash le_xlator]. fold e.
  unfold merged_commit, stored, set_err. rewrite He.
  destruct (ch =? 0); [|destruct (negb _)]; cbn [set_commit_hash set_list spread_cnt preset commit_hash layout_type layout_list];
    rewrite insert_middle; reflexivity.
Qed.

Lemma merge_answers_spec layout : forall m k sp pr ch ty l,
  Forall (fun e => words_ok e /\ le_xlator e <> None) (layout_list layout) -> valid_type (layout_type layout) ->
  ty = DHT_HASH_TYPE_DM \/ ty = layout_type layout ->
  (k + m = layout_cnt layout)%nat -> l = map stored (take k (layout_list layout)) ->
  exists ch' ty',
  merge_answers (mk_layout sp pr ch ty (l ++ replicate m (mk_entry 0 0 0 0 None)))
    (map (fun i => (le_xlator (layout_list layout !!! i), dht_disk_layout_extract layout i)) (seq k m)) =
  MERGE_OK (mk_layout sp pr ch' ty' (map stored (layout_list layout))) /\
  (ty' = ty \/ ty' = layout_type layout) /\ (m <> O -> ty' = layout_type layout) /\
  (forall c, Forall (fun e => le_commit_hash e = c) (layout_list layout) -> ch = 0 \/ ch = c ->
     ch' = if Nat.eqb m 0 then ch else c).
Proof.
  induction m as [|m IH]; intros k sp pr ch ty l Hall Hv Hty Hk Hl.
  { exists ch, ty. cbn [seq map merge_answers replicate]. rewrite app_nil_r, Hl, take_ge by (unfold layout_cnt in Hk; lia).
    repeat split; auto. congruence. }
  assert (Hkl : (k < length (layout_list layout))%nat) by (unfold layout_cnt in Hk; lia).
  pose proof (list_lookup_lookup_total_lt (layout_list layout) k Hkl) as Hx.
  set (e := layout_list layout !!! k) in *.
  destruct (Forall_lookup_1 _ _ _ _ Hall Hx) as [Hw Hn]. destruct (le_xlator e) as [subvol|] eqn:Es; [|congruence].
  cbn [seq map merge_answers replicate]. fold e. rewrite Es.
  rewrite merge_next; auto.
  2: { rewrite Hl. apply Forall_forall. intros y Hy. apply list_elem_of_fmap in Hy as (z & -> & Hz).
       rewrite Forall_forall in Hall. apply list_elem_of_lookup in Hz as (i & Hi). apply lookup_take_Some in Hi as [Hi _].
       apply (Hall z), list_elem_of_lookup. exists i. exact Hi. }
  set (ty1 := if _ : bool then _ else ty).
  assert (Ht1 : ty1 = layout_type layout).
  { unfold ty1. destruct Hv as [Ev|Ev]; rewrite Ev in *; cbn; [|reflexivity]. destruct Hty as [->| ->]; reflexivity. }
  destruct (IH (S k) sp pr (merged_commit ch (le_commit_hash e)) ty1 (l ++ [stored e])) as (ch' & ty' & Eq & H1 & H2 & H3);
    auto; [lia | rewrite Hl, (take_S_r _ _ _ Hx), map_app; reflexivity |].
  exists ch', ty'. rewrite <- app_assoc in Eq. cbn [app] in Eq. split; [exact Eq|].
  split; [destruct H1; [right; congruence | auto]|]. split; [intros _; destruct H1; congruence|].
  intros c Hc Hch. pose proof (Forall_lookup_1 _ _ _ _ Hc Hx) as Ec. cbn beta in Ec.
  assert (Hm : merged_commit ch (le_commit_hash e) = c).
  { unfold merged_commit. rewrite Ec. destruct (Z.eqb_spec ch 0); [auto|]. destruct Hch as [| ->]; [contradiction|].
    rewrite Z.eqb_refl. reflexivity. }
  rewrite (H3 c Hc) by auto. cbn [Nat.eqb]. destruct (Nat.eqb m 0); auto.
Qed.

Lemma read_back layout sp :
  layout_list layout <> [] -> valid_type (layout_type layout) ->
  Forall (fun e => words_ok e /\ le_xlator e <> None) (layout_list layout) ->
  exists ch,
  merge_answers (dht_layout_new sp (layout_cnt layout)) (answers layout) =
    MERGE_OK (mk_layout sp false ch (layout_type layout) (map stored (layout_list layout))) /\
  forall c, Forall (fun e => le_commit_hash e = c) (layout_list layout) -> ch = c.
Proof.
  intros Hne Hv Hall.
  destruct (merge_answers_spec layout (layout_cnt layout) 0 sp false 0 DHT_HASH_TYPE_DM [])
    as (ch & ty & Eq & _ & Hty & Hch); auto.
  assert (Hn : layout_cnt layout <> O) by (unfold layout_cnt; destruct (layout_list layout); [congruence | discriminate]).
  exists ch. rewrite Hty in Eq by exact Hn. split; [exact Eq|]. intros c Hc. rewrite (Hch c Hc) by auto.
  rewrite (proj2 (Nat.eqb_neq _ _) Hn). reflexivity.
Qed.

(** ** What a new layout has to write *)

Lemma assign_loop_header conf weight total n order : forall layout start used layout',
  assign_loop conf weight total n order layout start used = Some layout' ->
  layout_type layout' = layout_type layout /\
  (0 <= commit_hash layout < 2 ^ 32 -> Forall (fun e => 0 <= le_commit_hash e < 2 ^ 32) (layout_list layout) ->
   Forall (fun e => 0 <= le_commit_hash e < 2 ^ 32) (layout_list layout')).
Proof.
  induction order as [|i order IH]; intros layout start used layout' Ha; cbn [assign_loop] in Ha.
  { injection Ha as <-. auto. }
  destruct (negb (assignable _)); [eauto|]. destruct (weight && _); [eauto|].
  destruct (range_size_of _ _ _ _ _) as [r|]; [|discriminate].
  assert (Hset : layout_type (set_layout_range layout i start r) = layout_type layout /\
    commit_hash (set_layout_range layout i start r) = commit_hash layout /\
    (0 <= commit_hash layout < 2 ^ 32 -> Forall (fun e => 0 <= le_commit_hash e < 2 ^ 32) (layout_list layout) ->
     Forall (fun e => 0 <= le_commit_hash e < 2 ^ 32) (layout_list (set_layout_range layout i start r)))).
  { split; [reflexivity|]. split; [reflexivity|]. intros Hc Hf. apply Forall_insert; [exact Hf | exact Hc]. }
  destruct Hset as (Ht & Hch & Hf). destruct (n <=? used + 1).
  - injection Ha as <-. split; [exact Ht|]. intros Hc Hall. specialize (Hf Hc Hall). cbn [set_list layout_list].
    set (l := layout_list (set_layout_range layout i start r)) in *.
    destruct (decide (i < length l)%nat) as [Hi|]; [|rewrite (list_insert_ge l i) by (apply Nat.le_ngt; assumption); exact Hf].
    apply Forall_insert; [exact Hf|]. cbn. apply (Forall_lookup_1 _ _ i _ Hf), list_lookup_lookup_total_lt, Hi.
  - destruct (IH _ _ _ _ Ha) as [IH1 IH2]. rewrite Hch in IH2. split; [congruence | auto].
Qed.

Lemma new_directory_header conf hash layout layout' :
  dht_selfheal_layout_new_directory conf hash layout = Some layout' ->
  layout_type layout' = layout_type layout /\
  (0 <= commit_hash layout < 2 ^ 32 -> Forall (fun e => 0 <= le_commit_hash e < 2 ^ 32) (layout_list layout) ->
   Forall (fun e => 0 <= le_commit_hash e < 2 ^ 32) (layout_list layout')).
Proof.
  unfold dht_selfheal_layout_new_directory.
  assert (Hm : let '(marked, _) := dht_get_layout_count conf layout in
    layout_type marked = layout_type layout /\ commit_hash marked = commit_hash layout /\
    map le_commit_hash (layout_list marked) = map le_commit_hash (layout_list layout)).
  { unfold dht_get_layout_count. cbv zeta. destruct (_ =? 0); cbn [set_list layout_type commit_hash layout_list];
      (split; [reflexivity|]); (split; [reflexivity|]); rewrite !map_map; apply map_ext; intros e;
      destruct (decommissioned_xl _ _); cbn; repeat (destruct (_ =? _); cbn); reflexivity. }
  destruct (dht_get_layout_count conf layout) as [marked n]. destruct (size_loop _ _ _ _ _ _) as [w total].
  destruct Hm as (Ht & Hc & Hl). intros Ha. destruct (assign_loop_header _ _ _ _ _ _ _ _ _ Ha) as [H1 H2].
  cbn [reset_layout_range set_list layout_type commit_hash layout_list] in H1, H2. split; [congruence|].
  intros Hch Hall. apply H2; [rewrite Hc; exact Hch|].
  assert (Hall' : Forall (fun c => 0 <= c < 2 ^ 32) (map le_commit_hash (layout_list marked))).
  { rewrite Hl. apply Forall_fmap. exact Hall. }
  apply Forall_fmap in Hall'. apply Forall_fmap. exact Hall'.
Qed.
