(* ===== verification/DhtProps.v ===== *)
(** * Properties of the distribution of names

    The properties of the layouts of a distributed volume, and examples that
    show where the code departs from them. *)

From S2P Require Import Prelude Words DhtHash DhtLayout DhtFacts DhtSelfheal DhtSelfhealFacts DhtOverlap DhtDiskFacts.
From stdpp Require Import strings.
Open Scope Z_scope.

(** ** Normalizing *)

Lemma normalize_sorts layout :
  Forall entry_ok (layout_list layout) ->
  let l' := layout_list (fst (dht_layout_normalize layout)) in
  l' ≡ₚ layout_list layout /\ Forall entry_ok l' /\ by_start l' /\
  layout_type (fst (dht_layout_normalize layout)) = layout_type layout.
Proof.
  intros Hok. destruct (layout_sort_spec (layout_list layout) Hok) as (Hp & Hok' & Ho).
  unfold dht_layout_normalize. cbv zeta.
  destruct (_ || _); cbn [fst]; repeat split; auto; apply ordered_sorted, Ho.
Qed.

Lemma normalize_result layout :
  let a := dht_layout_anomalies (layout_list (fst (dht_layout_normalize layout))) in
  0 <= snd (dht_layout_normalize layout) <-> an_holes a = 0 /\ an_overlaps a = 0.
Proof.
  cbv zeta. unfold dht_layout_normalize. cbv zeta. set (l := dht_layout_sort layout).
  destruct (Z.eqb_spec (an_holes (dht_layout_anomalies (layout_list l))) 0) as [E1|E1];
    destruct (Z.eqb_spec (an_overlaps (dht_layout_anomalies (layout_list l))) 0) as [E2|E2];
    cbn [negb orb fst snd]; split; auto; try lia.
  intros _. unfold dht_layout_missing_dirs. lia.
Qed.

Lemma perm_nonempty {A} (l l' : list A) : l ≡ₚ l' -> l' <> [] -> l <> [].
Proof. intros Hp Hn ->. apply Permutation_nil in Hp. contradiction. Qed.

Lemma normalize_accepts layout :
  Forall entry_ok (layout_list layout) -> hash_partition (layout_list layout) ->
  0 <= snd (dht_layout_normalize layout).
Proof.
  intros Hok Hpart. destruct (normalize_sorts layout Hok) as (Hp & Hok' & Hso & _).
  apply normalize_result, no_anomalies_complete; auto.
  apply (partition_perm (layout_list layout)); [symmetry; exact Hp | exact Hpart].
Qed.

(** C22: a layout is accepted by [dht_layout_normalize] exactly when its ranges
    partition the hash space.  The entries are only put in order; a partition
    is accepted; an accepted layout has an owner for every hash value, and just
    one unless a range is the whole space and is not the only one. *)
Theorem normalize_iff_partition layout :
  layout_list layout <> [] -> Forall entry_ok (layout_list layout) ->
  let '(layout', ret) := dht_layout_normalize layout in
  let l' := layout_list layout' in
  l' ≡ₚ layout_list layout /\ by_start l' /\
  (hash_partition (layout_list layout) -> 0 <= ret) /\
  (0 <= ret -> ret = dht_layout_missing_dirs l' /\ forall h, 0 <= h < 2 ^ 32 -> owners l' h <> []) /\
  ((forall e, e ∈ participants l' -> ~ whole e) \/ length (participants l') = 1%nat ->
   0 <= ret -> hash_partition l').
Proof.
  intros Hne Hok. destruct (normalize_sorts layout Hok) as (Hp & Hok' & Hso & _).
  pose proof (normalize_accepts layout Hok) as Hacc. pose proof (normalize_result layout) as Hres.
  assert (Hret : 0 <= snd (dht_layout_normalize layout) ->
    snd (dht_layout_normalize layout) = dht_layout_missing_dirs (layout_list (fst (dht_layout_normalize layout)))).
  { unfold dht_layout_normalize. cbv zeta. destruct (_ || _); cbn [fst snd]; [lia | reflexivity]. }
  destruct (dht_layout_normalize layout) as [layout' ret]. cbn [fst snd] in *. cbv zeta in Hres.
  pose proof (perm_nonempty _ _ Hp Hne) as Hne'.
  assert (Hsound := fun H => no_anomalies_sound (layout_list layout') Hok' Hso Hne' (proj1 (proj1 Hres H)) (proj2 (proj1 Hres H))).
  split; [exact Hp|]. split; [exact Hso|]. split; [exact Hacc|].
  split; [intros H; split; [auto | apply Hsound, H] | intros Hw H; apply Hsound; auto].
Qed.

Lemma normalize_iff_partition_witness :
  let layout := mk_layout 0 false 0 0
    [mk_entry 0 (2 ^ 31) (2 ^ 32 - 1) 0 (Some "b"%string); mk_entry 0 0 (2 ^ 31 - 1) 0 (Some "a"%string)] in
  let '(layout', ret) := dht_layout_normalize layout in
  ret = 0 /\ hash_partition (layout_list layout').
Proof.
  set (layout := mk_layout _ _ _ _ _). pose proof (normalize_iff_partition layout) as H.
  destruct (dht_layout_normalize layout) as [layout' ret] eqn:E. vm_compute in E. injection E as <- <-. cbv zeta in H.
  destruct H as (_ & _ & _ & _ & H5).
  - discriminate.
  - repeat constructor; cbn; lia.
  - split; [reflexivity|]. apply H5; [|lia]. left. intros e He [H1 H2].
    apply list_elem_of_In in He. vm_compute in He.
    destruct He as [<-|[<-|[]]]; [vm_compute in H2 | vm_compute in H1]; discriminate.
Defined.

(** ** Layouts read back *)

(** C24: writing the layout of a directory on all its bricks and merging what
    the bricks answer gives back every range, commit hash and name in order,
    with no error, and the type of the layout; the commit hash of the layout
    is the one all entries have, when they have the same. *)
Theorem saved_layout_read_back layout sp :
  layout_list layout <> [] -> valid_type (layout_type layout) ->
  Forall (fun e => words_ok e /\ le_xlator e <> None) (layout_list layout) ->
  exists ch,
  merge_answers (dht_layout_new sp (layout_cnt layout)) (answers layout) =
    MERGE_OK (mk_layout sp false ch (layout_type layout) (map stored (layout_list layout))) /\
  forall c, Forall (fun e => le_commit_hash e = c) (layout_list layout) -> ch = c.
Proof. apply read_back. Qed.

Lemma saved_layout_read_back_witness :
  let layout := mk_layout 0 false 7 0
    [mk_entry (-1) 0x12345678 0x9abcdef0 7 (Some "b"%string); mk_entry 2 0 0xff 7 (Some "a"%string)] in
  exists ch,
  merge_answers (dht_layout_new 0 2) (answers layout) =
    MERGE_OK (mk_layout 0 false ch 0 (map stored (layout_list layout))).
Proof.
  intros layout. destruct (saved_layout_read_back layout 0) as (ch & H & _).
  - discriminate.
  - left. reflexivity.
  - repeat constructor; cbn; try lia; discriminate.
  - exists ch. exact H.
Defined.

(** ** New directories *)

(** A brick that can take a range. *)
Definition usable_brick (conf : dht_conf) (layout : dht_layout) : Prop :=
  exists e, e ∈ layout_list layout /\ decommissioned_xl conf (le_xlator e) = false /\
    (usable_err e || (le_err e =? ENOSPC)).

Definition equal_parts (conf : dht_conf) : Prop := do_weighting conf = false \/ chunks conf = None.

Lemma stored_ok l : Forall tidy l -> Forall entry_ok (map stored l).
Proof. intros H. apply Forall_fmap. eapply Forall_impl; [exact H|]. intros e He. apply tidy_ok, He. Qed.

Lemma Forall_same_image {A B} (f : A -> B) (P : B -> Prop) l l' :
  map f l' = map f l -> Forall (fun x => P (f x)) l -> Forall (fun x => P (f x)) l'.
Proof.
  revert l. induction l' as [|x l' IH]; intros [|y l] E Hf; try discriminate; [constructor|].
  injection E as E1 E2. apply Forall_cons in Hf as [Hy Hf]. constructor; [rewrite E1; exact Hy | apply (IH l); auto].
Qed.

(** Searching a normalized layout whose entries have no error. *)
Lemma search_normalized signed rc layout l name h :
  layout_list layout = map stored l -> Forall tidy l -> hash_partition (map stored l) ->
  dht_hash_compute signed rc (layout_type layout) name = Some h -> h <> 0 -> 0 <= h < 2 ^ 32 ->
  let final := fst (dht_layout_normalize layout) in
  exists e, owners (layout_list final) h = [e] /\ e ∈ map stored l /\
    dht_layout_search signed rc final name = le_xlator e.
Proof.
  intros El Ht Hpart Hh Hnz Hr final.
  assert (Hok : Forall entry_ok (layout_list layout)) by (rewrite El; apply stored_ok, Ht).
  destruct (normalize_sorts layout Hok) as (Hp & _ & _ & Hty). fold final in Hp, Hty.
  assert (Hin : forall e, e ∈ layout_list final -> exists x, e = stored x /\ x ∈ l /\ tidy x).
  { intros e He. rewrite Hp, El in He. apply list_elem_of_fmap in He as (x & -> & Hx). exists x.
    rewrite Forall_forall in Ht. auto. }
  pose proof (partition_perm _ (layout_list final) (symmetry Hp)) as Hpf. rewrite El in Hpf.
  specialize (Hpf Hpart h Hr). destruct (owners (layout_list final) h) as [|e [|? ?]] eqn:Eo; [discriminate | | discriminate].
  exists e. split; [reflexivity|]. split.
  - rewrite <- El, <- Hp. assert (He : e ∈ owners (layout_list final) h) by (rewrite Eo; apply elem_of_cons; auto).
    unfold owners, participants in He. apply list_elem_of_filter in He as [_ He].
    apply list_elem_of_filter in He as [_ He]. exact He.
  - unfold dht_layout_search. rewrite Hty, Hh. apply search_owner; [exact Eo|].
    intros x Hx Hc. destruct (Hin x Hx) as (y & -> & _ & Hty'). unfold participates, contains, tidy in *. cbn in *.
    destruct (Z.eqb_spec (le_start y) (le_stop y)); [lia | exact I].
Qed.

Lemma hash_compute_range signed rc type name h : dht_hash_compute signed rc type name = Some h -> 0 <= h < 2 ^ 32.
Proof.
  unfold dht_hash_compute. cbv zeta.
  destruct (match extra_regex rc with Some _ => _ | None => _ end) as [m f].
  destruct (if m : bool then _ else _) as [m' f'].
  unfold dht_hash_compute_internal. destruct (_ || _); [|discriminate]. intros [= <-]. apply gf_dm_hashfn_range.
Qed.

(** C3: after a directory is given a layout in equal parts, and the layout is
    written to the bricks, merged from their answers and normalized, the layout
    is accepted and every name whose hash is not 0 is found on the one brick
    that owns the hash. *)
Theorem created_directory_places_names conf hash layout sp :
  layout_list layout <> [] -> Z.of_nat (layout_cnt layout) < 2 ^ 31 -> 0 <= spread_cnt layout ->
  usable_brick conf layout -> equal_parts conf -> valid_type (layout_type layout) ->
  0 <= commit_hash layout < 2 ^ 32 ->
  Forall (fun e => 0 <= le_commit_hash e < 2 ^ 32 /\ le_xlator e <> None) (layout_list layout) ->
  exists created read,
  dht_selfheal_layout_new_directory conf hash layout = Some created /\
  merge_answers (dht_layout_new sp (layout_cnt created)) (answers created) = MERGE_OK read /\
  let '(final, ret) := dht_layout_normalize read in
  0 <= ret /\
  forall signed rc name h, dht_hash_compute signed rc (layout_type layout) name = Some h -> h <> 0 ->
    exists e, owners (layout_list final) h = [e] /\ le_xlator e ∈ map le_xlator (layout_list layout) /\
      dht_layout_search signed rc final name = le_xlator e.
Proof.
  intros Hne Hcnt Hsp Hu Heq Hv Hch Hall.
  destruct (new_directory_equal conf hash layout Hne Hcnt Hsp Hu Heq) as (created & Hnew & Hpart & Ht & Hx).
  destruct (new_directory_header _ _ _ _ Hnew) as [Hty Hcw].
  specialize (Hcw Hch (Forall_impl _ _ _ Hall (fun e => @proj1 _ _))).
  assert (Hxs : Forall (fun e => le_xlator e <> None) (layout_list created)).
  { apply (Forall_same_image le_xlator (fun x => x <> None) (layout_list layout) _ Hx).
    eapply Forall_impl; [exact Hall|]. intros e [_ He]. exact He. }
  destruct (read_back created sp) as (ch & Hm & _).
  { intros E. apply (f_equal length) in Hx. rewrite !length_map, E in Hx. destruct (layout_list layout); [congruence | discriminate]. }
  { rewrite Hty. exact Hv. }
  { apply Forall_forall. intros e He. rewrite Forall_forall in Hcw, Hxs, Ht. split; [|auto].
    specialize (Ht e He). specialize (Hcw e He). unfold words_ok, tidy in *. lia. }
  exists created. eexists. split; [exact Hnew|]. split; [exact Hm|].
  set (read := mk_layout _ _ _ _ _).
  pose proof (normalize_accepts read (stored_ok _ Ht) Hpart) as Hacc.
  pose proof (fun signed rc name h => search_normalized signed rc read (layout_list created) name h eq_refl Ht Hpart) as Hs.
  destruct (dht_layout_normalize read) as [final ret]. cbn [fst snd] in *. split; [exact Hacc|].
  intros signed rc name h Hh Hnz. change (layout_type read) with (layout_type created) in Hs. rewrite Hty in Hs.
  destruct (Hs signed rc name h Hh Hnz (hash_compute_range _ _ _ _ _ Hh)) as (e & Ho & He & Hse).
  exists e. split; [exact Ho|]. split; [|exact Hse]. rewrite <- Hx.
  apply list_elem_of_fmap in He as (y & -> & Hy). apply list_elem_of_fmap. exists y. auto.
Qed.

(** Three bricks, the second without space, started from the hash 5. *)
Lemma created_directory_places_names_witness :
  let conf := mk_dht_conf ["a"; "b"; "c"]%string [] false None in
  let layout := mk_layout 0 false 9 0
    [mk_entry (-1) 0 0 0 (Some "a"%string); mk_entry ENOSPC 0 0 0 (Some "b"%string);
     mk_entry ENOENT 0 0 0 (Some "c"%string)] in
  exists created read,
  dht_selfheal_layout_new_directory conf (Some 5) layout = Some created /\
  merge_answers (dht_layout_new 0 (layout_cnt created)) (answers created) = MERGE_OK read /\
  0 <= snd (dht_layout_normalize read).
Proof.
  intros conf layout.
  destruct (created_directory_places_names conf (Some 5) layout 0) as (created & read & H1 & H2 & H3).
  - discriminate.
  - reflexivity.
  - cbn. lia.
  - exists (mk_entry (-1) 0 0 0 (Some "a"%string)). split; [apply elem_of_cons; left; reflexivity|].
    split; [reflexivity | exact I].
  - left. reflexivity.
  - left. reflexivity.
  - cbn. lia.
  - repeat constructor; cbn; try lia; discriminate.
  - exists created, read. split; [exact H1|]. split; [exact H2|].
    destruct (dht_layout_normalize read) as [final ret]. exact (proj1 H3).
Defined.

(** ** Fixing the layout of a directory *)





(** ** Names *)

Lemma tail_loop_ascii bytes : forall w,
  Forall (fun c => c < 128) bytes -> tail_loop true w bytes = tail_loop false w bytes.
Proof.
  induction bytes as [|c bytes IH]; intros w Hf; [reflexivity|]. apply Forall_cons in Hf as [Hc Hf]. cbn [tail_loop].
  assert (E : char_u32 true c = char_u32 false c) by (unfold char_u32; destruct (Z.leb_spec 128 c); [lia | reflexivity]).
  rewrite E. apply IH, Hf.
Qed.

Lemma last_word_ascii msg pad st : Forall (fun c => c < 128) msg -> last_word true msg pad st = last_word false msg pad st.
Proof.
  intros Hf. destruct st as [[[|w] b] p]; [|reflexivity]. unfold last_word. rewrite tail_loop_ascii; [reflexivity|].
  apply Forall_drop, Hf.
Qed.

(** the hash of a name without bytes of 128 and more is the same whether
    the type char is signed or not: bricks and clients of different platforms
    place such names alike. *)
Theorem ascii_hash_portable msg :
  Forall (fun c => c < 128) msg -> gf_dm_hashfn true msg = gf_dm_hashfn false msg.
Proof.
  intros Hf. unfold gf_dm_hashfn. cbv zeta. rewrite last_word_ascii by exact Hf.
  destruct (last_word false msg _ _) as [a0 s0]. rewrite last_word_ascii by exact Hf.
  destruct (last_word false msg _ s0) as [a1 s1]. rewrite last_word_ascii by exact Hf.
  destruct (last_word false msg _ s1) as [a2 s2]. rewrite last_word_ascii by exact Hf. reflexivity.
Qed.

Lemma ascii_hash_portable_witness : gf_dm_hashfn true [102; 111; 111; 46; 99] = gf_dm_hashfn false [102; 111; 111; 46; 99].
Proof. apply ascii_hash_portable. repeat constructor; lia. Defined.

(** ** Where the code departs *)

(** Names with bytes of 128 and more: the hash depends on the platform, and
    where char is signed the bytes before such a byte at the end of a name are
    lost (both names end in the two bytes of an accented letter). *)
Lemma high_byte_hash_differs :
  gf_dm_hashfn true [195; 169] <> gf_dm_hashfn false [195; 169] /\
  gf_dm_hashfn true [97; 195; 169] = gf_dm_hashfn true [98; 195; 169] /\
  gf_dm_hashfn false [97; 195; 169] <> gf_dm_hashfn false [98; 195; 169].
Proof. vm_compute. repeat split; discriminate. Qed.

(** Two bricks that both have the whole space are not reported: every hash has
    two owners. *)
Lemma two_whole_ranges_accepted :
  let layout := mk_layout 0 false 0 0
    [mk_entry 0 0 0xffffffff 0 (Some "a"%string); mk_entry 0 0 0xffffffff 0 (Some "b"%string)] in
  snd (dht_layout_normalize layout) = 0 /\ length (owners (layout_list layout) 0) = 2%nat.
Proof. vm_compute. split; reflexivity. Qed.

(** A name whose hash is 0 is searched on a brick without a range, here one
    where the directory is missing, and not on the brick that owns 0. *)
Lemma zero_hash_searched_elsewhere :
  let layout := mk_layout 0 false 0 0
    [mk_entry 0 0 0xffffffff 0 (Some "a"%string); mk_entry ENOENT 0 0 0 (Some "b"%string)] in
  let l := layout_list (fst (dht_layout_normalize layout)) in
  map le_xlator (owners l 0) = [Some "a"%string] /\ search_hash l 0 = Some "b"%string /\
  search_hash l 1 = Some "a"%string.
Proof. vm_compute. repeat split. Qed.

(** Two bricks whose new ranges are the old ones exchanged: the overlap after
    the exchange is all of the space, which is 0 in 32 bits, and the exchange
    is not done. *)
Lemma full_exchange_missed :
  let a := Some "a"%string in
  let b := Some "b"%string in
  let old := mk_layout 0 false 0 0 [mk_entry 0 0 0x7fffffff 0 a; mk_entry 0 0x80000000 0xffffffff 0 b] in
  let new := mk_layout 0 false 0 0 [mk_entry (-1) 0x80000000 0xffffffff 0 a; mk_entry (-1) 0 0x7fffffff 0 b] in
  dht_selfheal_layout_maximize_overlap new old = new /\
  total_overlap (layout_list old) (layout_list new) = 0 /\
  total_overlap (layout_list old) (dht_layout_range_swap (layout_list new) 0 1) = 2 ^ 32.
Proof. vm_compute. repeat split. Qed.

(** With a spread of less than the bricks, sizes are summed over the first
    bricks and ranges are given to others: they can wrap around, and the layout
    of a new directory is then rejected by [dht_layout_normalize]; or the double
    is out of range for the integer it is converted to. *)
Lemma weighted_spread_overlaps :
  let bricks := map (fun x => mk_entry (-1) 0 0 0 (Some x)) ["a"; "b"; "c"; "d"]%string in
  let created d := dht_selfheal_layout_new_directory
    (mk_dht_conf ["a"; "b"; "c"; "d"]%string [] true (Some [2; 2; 2; d])) (Some 3) (mk_layout 3 false 0 0 bricks) in
  match created 5 with
  | Some layout => snd (dht_layout_normalize (set_list layout (map stored (layout_list layout)))) = -1
  | None => False
  end /\
  created 600 = None.
Proof. vm_compute. split; reflexivity. Qed.
