(* ===== verification/Dict.v ===== *)
(** * Dictionaries

    Models [libglusterfs/src/dict.c]: the dictionaries in which options and
    extended attributes travel between translators and, serialized, between
    machines; and the hash [SuperFastHash] of [libglusterfs/src/hashfn.c].

    A key is the list of its bytes without the terminating NUL, and is not NULL.
    A dictionary has one hash bucket, as [dict_new] makes it, so that the hash
    chain and the list of members are one list.  The pair kept inside of the
    dictionary ([free_pair]) is told from the others by a flag.  Values are
    shared by reference and never changed in place, so that reference counts
    leave no trace here.  Whether an allocation succeeds is an argument.
    Pointers into a buffer are positions, which may leave it; reading or writing
    outside of the buffer is undefined. *)

From S2P Require Import Prelude Words.
Open Scope Z_scope.

Definition ENOENT : Z := 2.
Definition ENOMEM : Z := 12.
Definition EINVAL : Z := 22.
Definition ENODATA : Z := 61.

Inductive gf_dict_data_type :=
| GF_DATA_TYPE_UNKNOWN | GF_DATA_TYPE_INT | GF_DATA_TYPE_UINT | GF_DATA_TYPE_DOUBLE | GF_DATA_TYPE_STR
| GF_DATA_TYPE_PTR | GF_DATA_TYPE_GFUUID | GF_DATA_TYPE_IATT | GF_DATA_TYPE_MAX.

(** [data] is [None] when the pointer is NULL. *)
Record data_t := mk_data { len : Z; data : option (list Z); data_type : gf_dict_data_type }.

Record data_pair := mk_pair { key : list Z; key_hash : Z; value : data_t; in_free_pair : bool }.

Record dict_t := mk_dict {
  count : Z;
  members_list : list data_pair;
  free_pair_in_use : bool;
  max_count : Z
}.

Definition set_members (d : dict_t) v := mk_dict (count d) v (free_pair_in_use d) (max_count d).
Definition set_count (d : dict_t) v := mk_dict v (members_list d) (free_pair_in_use d) (max_count d).
Definition set_value (p : data_pair) v := mk_pair (key p) (key_hash p) v (in_free_pair p).

Definition dict_new : dict_t := mk_dict 0 [] false 0.

(** ** The hash of keys *)

Section hash.
Context (char_signed : bool).

Definition char_val (c : Z) : Z := if char_signed && (128 <=? c) then c - 256 else c.

Definition get16bits (b0 b1 : Z) : Z := b0 + b1 * 256.

(** The main loop and the end cases; structural on the bytes left. *)
Fixpoint hash_loop (bytes : list Z) (hash : Z) : Z :=
  match bytes with
  | b0 :: b1 :: b2 :: b3 :: bytes =>
      let hash := u32 (hash + get16bits b0 b1) in
      let tmp := Z.lxor (Z.shiftl (get16bits b2 b3) 11) hash in
      let hash := Z.lxor (u32 (Z.shiftl hash 16)) tmp in
      hash_loop bytes (u32 (hash + Z.shiftr hash 11))
  | [b0; b1; b2] =>
      let hash := u32 (hash + get16bits b0 b1) in
      let hash := Z.lxor hash (u32 (Z.shiftl hash 16)) in
      let hash := Z.lxor hash (u32 (Z.shiftl (char_val b2) 18)) in
      u32 (hash + Z.shiftr hash 11)
  | [b0; b1] =>
      let hash := u32 (hash + get16bits b0 b1) in
      let hash := Z.lxor hash (u32 (Z.shiftl hash 11)) in
      u32 (hash + Z.shiftr hash 17)
  | [b0] =>
      let hash := u32 (hash + char_val b0) in
      let hash := Z.lxor hash (u32 (Z.shiftl hash 10)) in
      u32 (hash + Z.shiftr hash 1)
  | [] => hash
  end.

Definition SuperFastHash (bytes : list Z) : Z :=
  if (length bytes <=? 1)%nat then 1
  else
    let hash := hash_loop bytes (Z.of_nat (length bytes)) in
    let hash := Z.lxor hash (u32 (Z.shiftl hash 3)) in
    let hash := u32 (hash + Z.shiftr hash 5) in
    let hash := Z.lxor hash (u32 (Z.shiftl hash 4)) in
    let hash := u32 (hash + Z.shiftr hash 17) in
    let hash := Z.lxor hash (u32 (Z.shiftl hash 25)) in
    u32 (hash + Z.shiftr hash 6).

(** ** Members *)

(** The test of a pair in a hash chain. *)
Definition pair_matches (hash : Z) (k : list Z) (p : data_pair) : bool :=
  (hash =? key_hash p) && bool_decide (key p = k).

Fixpoint lookup_chain (l : list data_pair) (k : list Z) (hash : Z) : option data_pair :=
  match l with
  | [] => None
  | p :: l => if pair_matches hash k p then Some p else lookup_chain l k hash
  end.

Definition dict_lookup_common (d : dict_t) (k : list Z) (hash : Z) : option data_pair :=
  lookup_chain (members_list d) k hash.

(** The pair found by [dict_lookup_common] with its value changed. *)
Fixpoint replace_value (l : list data_pair) (k : list Z) (hash : Z) (v : data_t) : list data_pair :=
  match l with
  | [] => []
  | p :: l => if pair_matches hash k p then set_value p v :: l else p :: replace_value l k hash v
  end.

Definition dict_get (d : dict_t) (k : list Z) : option data_t :=
  option_map value (dict_lookup_common d k (SuperFastHash k)).

Definition dict_lookup (d : dict_t) (k : list Z) : Z * option data_t :=
  match dict_lookup_common d k (SuperFastHash k) with
  | Some p => (0, Some (value p))
  | None => (-1, None)
  end.

Definition dict_get_with_ref (d : dict_t) (k : list Z) : Z * option data_t :=
  match dict_lookup_common d k (SuperFastHash k) with
  | Some p => (0, Some (value p))
  | None => (- ENOENT, None)
  end.

(** [pair_ok] and [key_ok]: the pair and the copy of the key can be
    allocated. *)
Definition dict_set_lk (pair_ok key_ok : bool) (d : dict_t) (k : list Z) (v : data_t) (replace : bool)
    : Z * dict_t :=
  let hash := SuperFastHash k in
  match (if replace then dict_lookup_common d k hash else None) with
  | Some _ => (0, set_members d (replace_value (members_list d) k hash v))
  | None =>
      if free_pair_in_use d && negb pair_ok then (-1, d)
      else if negb key_ok then (-1, d)
      else
        let c := count d + 1 in
        let pair := mk_pair k hash v (negb (free_pair_in_use d)) in
        (0, mk_dict c (pair :: members_list d) true (if max_count d <? c then c else max_count d))
  end.

Definition dict_set (pair_ok key_ok : bool) (d : dict_t) (k : list Z) (v : data_t) : Z * dict_t :=
  dict_set_lk pair_ok key_ok d k v true.

Definition dict_add (pair_ok key_ok : bool) (d : dict_t) (k : list Z) (v : data_t) : Z * dict_t :=
  dict_set_lk pair_ok key_ok d k v false.

Definition dict_key_count (d : dict_t) : Z := count d.

(** The loop of [dict_del]: the pair that is taken out, and the others. *)
Fixpoint del_chain (l : list data_pair) (k : list Z) (hash : Z) : option (data_pair * list data_pair) :=
  match l with
  | [] => None
  | p :: l =>
      if pair_matches hash k p then Some (p, l)
      else match del_chain l k hash with
           | Some (q, l) => Some (q, p :: l)
           | None => None
           end
  end.

Definition dict_del (d : dict_t) (k : list Z) : dict_t :=
  match del_chain (members_list d) k (SuperFastHash k) with
  | Some (p, l) =>
      mk_dict (count d - 1) l (if in_free_pair p then false else free_pair_in_use d) (max_count d)
  | None => d
  end.

(** The pair looked up is the one that is renamed: a value is set under the new
    key before the old one is deleted. *)
Definition dict_rename_key (pair_ok key_ok : bool) (d : dict_t) (k replace_key : list Z) : Z * dict_t :=
  if bool_decide (k = replace_key) then (0, d)
  else
    match dict_lookup_common d k (SuperFastHash k) with
    | None => (- ENODATA, d)
    | Some p =>
        let '(ret, d) := dict_set_lk pair_ok key_ok d replace_key (value p) true in
        if ret =? 0 then (ret, dict_del d k) else (ret, d)
    end.

(** ** Iteration *)

(** [dict_foreach_match] on the members; the action has a state and its
    negative result stops the loop.  The next member is taken before the action
    is called, so that the action may delete the current one. *)
Fixpoint foreach_loop {S : Type} (matches : list Z -> data_t -> bool) (action : S -> list Z -> data_t -> Z * S)
    (l : list data_pair) (n : Z) (s : S) : Z * S :=
  match l with
  | [] => (n, s)
  | p :: l =>
      if matches (key p) (value p) then
        let '(ret, s) := action s (key p) (value p) in
        if ret <? 0 then (ret, s) else foreach_loop matches action l (n + 1) s
      else foreach_loop matches action l n s
  end.

Definition dict_foreach_match {S : Type} (d : dict_t) matches (action : S -> list Z -> data_t -> Z * S) (s : S)
    : Z * S :=
  foreach_loop matches action (members_list d) 0 s.

Definition dict_match_everything (k : list Z) (v : data_t) : bool := true.
Definition dict_null_foreach_fn (s : unit) (k : list Z) (v : data_t) : Z * unit := (0, s).

Definition dict_foreach {S : Type} (d : dict_t) (fn : S -> list Z -> data_t -> Z * S) (s : S) : Z * S :=
  let '(ret, s) := dict_foreach_match d dict_match_everything fn s in (if 0 <? ret then 0 else ret, s).

Definition dict_remove_foreach_fn (d : dict_t) (k : list Z) (v : data_t) : Z * dict_t := (0, dict_del d k).

Definition dict_reset (d : dict_t) : Z * dict_t := (0, snd (dict_foreach d dict_remove_foreach_fn d)).

(** [mem i] are the allocations of the pair and of the key in the [i]-th call of
    [dict_set], which fails on a [new] that is NULL. *)
Definition dict_copy_one (mem : nat -> bool * bool) (st : nat * option dict_t) (k : list Z) (v : data_t)
    : Z * (nat * option dict_t) :=
  let '(i, new) := st in
  match new with
  | None => (-1, (S i, None))
  | Some new => let '(ret, new) := dict_set (fst (mem i)) (snd (mem i)) new k v in (ret, (S i, Some new))
  end.

(** [new_ok] is the allocation of a new dictionary where the caller gives none.  The
    result of [dict_foreach] is not looked at. *)
Definition dict_copy (new_ok : bool) (mem : nat -> bool * bool) (d : dict_t) (new : option dict_t) : option dict_t :=
  let new := match new with Some new => Some new | None => if new_ok then Some dict_new else None end in
  snd (snd (dict_foreach d (dict_copy_one mem) (0%nat, new))).

(** ** Comparison *)

(** [is_data_equal] of two values that are not the same object; memory is
    compared up to the length of the first. *)
Definition is_data_equal (one two : data_t) : Z :=
  match data one, data two with
  | Some a, Some b =>
      if negb (len one =? len two) then 0
      else if bool_decide (take (Z.to_nat (len one)) a = take (Z.to_nat (len one)) b) then 1 else 0
  | _, _ => -1
  end.

Definition key_value_cmp (two : dict_t) (value_ignore : option (list Z -> bool)) (s : unit) (k : list Z)
    (value1 : data_t) : Z * unit :=
  match dict_get two k with
  | Some value2 =>
      if match value_ignore with Some f => f k | None => false end then (0, s)
      else if is_data_equal value1 value2 =? 1 then (0, s) else (-1, s)
  | None => (-1, s)
  end.

(** [are_dicts_equal] of different pointers, each possibly NULL; a NULL first
    one makes [dict_foreach_match] fail, and its count is not read then. *)
Definition are_dicts_equal (one two : option dict_t) (matches : option (list Z -> data_t -> bool))
    (value_ignore : option (list Z -> bool)) : bool :=
  let matches := default dict_match_everything matches in
  match one, two with
  | None, None => true
  | None, Some _ => false
  | Some one, None => fst (dict_foreach_match one matches dict_null_foreach_fn tt) =? 0
  | Some one, Some two =>
      let num_matches1 := fst (dict_foreach_match one matches (key_value_cmp two value_ignore) tt) in
      if num_matches1 =? -1 then false
      else if (num_matches1 =? count one) && (count one =? count two) then true
      else num_matches1 =? fst (dict_foreach_match two matches dict_null_foreach_fn tt)
  end.
End hash.

(** ** Serialization *)

Definition DICT_HDR_LEN : Z := 4.
Definition DICT_DATA_HDR_KEY_LEN : Z := 4.
Definition DICT_DATA_HDR_VAL_LEN : Z := 4.

(** The loop of [dict_serialized_length_lk]; the sum is an int, and wraps
    around as compilers have it. *)
Fixpoint length_loop (cnt : nat) (l : list data_pair) (n : Z) : Z :=
  match cnt with
  | O => n
  | S cnt =>
      match l with
      | [] => - EINVAL
      | p :: l =>
          let n := s32 (n + (DICT_DATA_HDR_KEY_LEN + DICT_DATA_HDR_VAL_LEN)) in
          let n := s32 (n + (Z.of_nat (length (key p)) + 1)) in
          if len (value p) <? 0 then - EINVAL else length_loop cnt l (s32 (n + len (value p)))
      end
  end.

Definition dict_serialized_length_lk (d : dict_t) : Z :=
  if count d <? 0 then - EINVAL else length_loop (Z.to_nat (count d)) (members_list d) DICT_HDR_LEN.

(** [memcpy] to a position of a buffer. *)
Definition write_at (buf : list Z) (pos : nat) (bytes : list Z) : option (list Z) :=
  if (pos + length bytes <=? length buf)%nat then Some (take pos buf ++ bytes ++ drop (pos + length bytes) buf)
  else None.

(** Result of serializing: 0 and the buffer, a negative result, or undefined. *)
Inductive ser_result := SER_OK (buf : list Z) | SER_ERR (ret : Z) | SER_UNDEF.

Definition net_word (n : Z) : list Z := store32 (hton32 (u32 n)).

(** What is copied of a value: [n] bytes of its data. *)
Definition value_bytes (v : data_t) : option (list Z) :=
  match data v with
  | None => Some []
  | Some b => if (0 <=? len v) && (len v <=? Z.of_nat (length b)) then Some (take (Z.to_nat (len v)) b) else None
  end.

Fixpoint serialize_loop (cnt : nat) (l : list data_pair) (buf : list Z) (pos : nat) : ser_result :=
  match cnt with
  | O => SER_OK buf
  | S cnt =>
      match l with
      | [] => SER_ERR (-1)
      | p :: l =>
          let keylen := length (key p) in
          match value_bytes (value p) with
          | None => SER_UNDEF
          | Some v =>
              match write_at buf pos (net_word (Z.of_nat keylen) ++ net_word (len (value p)) ++ key p ++ [0] ++ v) with
              | None => SER_UNDEF
              | Some buf => serialize_loop cnt l buf (pos + (4 + 4 + keylen + 1 + length v))
              end
          end
      end
  end.

Definition dict_serialize_lk (d : dict_t) (buf : list Z) : ser_result :=
  if count d <? 0 then SER_ERR (-1)
  else
    match write_at buf 0 (net_word (count d)) with
    | None => SER_UNDEF
    | Some buf => serialize_loop (Z.to_nat (count d)) (members_list d) buf (Z.to_nat DICT_HDR_LEN)
    end.

(** [buf_ok]: the buffer can be allocated; it is zeroed. *)
Definition dict_allocate_and_serialize (buf_ok : bool) (d : dict_t) : ser_result :=
  let n := dict_serialized_length_lk d in
  if n <? 0 then SER_ERR n
  else if negb buf_ok then SER_ERR (- ENOMEM)
  else dict_serialize_lk d (replicate (Z.to_nat n) 0).

(** ** Unserialization *)

Definition size_of (buf : list Z) : Z := Z.of_nat (length buf).

(** [n] bytes from a position. *)
Definition read_at (buf : list Z) (pos n : Z) : option (list Z) :=
  if n =? 0 then Some []
  else if (0 <=? pos) && (0 <? n) && (pos + n <=? size_of buf)
  then Some (take (Z.to_nat n) (drop (Z.to_nat pos) buf)) else None.

(** A word in network order, as int32_t. *)
Definition read_word (buf : list Z) (pos : Z) : option Z :=
  match read_at buf pos 4 with
  | Some [b0; b1; b2; b3] => Some (s32 (hton32 (load32 b0 b1 b2 b3)))
  | _ => None
  end.

(** The bytes up to the NUL that [strlen] finds. *)
Fixpoint until_nul (bytes : list Z) : option (list Z) :=
  match bytes with
  | [] => None
  | b :: bytes => if b =? 0 then Some [] else option_map (cons b) (until_nul bytes)
  end.

Definition c_string (buf : list Z) (pos : Z) : option (list Z) :=
  if (0 <=? pos) && (pos <? size_of buf) then until_nul (drop (Z.to_nat pos) buf) else None.

(** Which allocations of an iteration succeed: the value, the copy of its data,
    the pair and the copy of the key. *)
Record unser_mem := mk_unser_mem { data_ok : bool; dup_ok : bool; pair_ok : bool; key_ok : bool }.

Inductive unser_result := UNSER (ret : Z) (d : dict_t) | UNSER_UNDEF.

(** What one iteration gives: the result, the position and the dictionary to go
    on with, or the end. *)
Inductive unser_step := NEXT (ret pos : Z) (d : dict_t) | STOP (r : unser_result).

Section unserialize.
Context (char_signed : bool) (buf : list Z).

(** One iteration; [ret] is the result so far, which the checks of the size of
    the buffer leave as it is.  A value of negative length is undefined: the
    length is converted to size_t, and either the allocation or the copy goes
    wrong. *)
Definition unserialize_one (mem : unser_mem) (ret pos : Z) (d : dict_t) : unser_step :=
  let size := size_of buf in
  if size <? pos + DICT_DATA_HDR_KEY_LEN then STOP (UNSER ret d)
  else
    match read_word buf pos with
    | None => STOP UNSER_UNDEF
    | Some keylen =>
        let pos := pos + DICT_DATA_HDR_KEY_LEN in
        if size <? pos + DICT_DATA_HDR_VAL_LEN then STOP (UNSER ret d)
        else
          match read_word buf pos with
          | None => STOP UNSER_UNDEF
          | Some vallen =>
              let pos := pos + DICT_DATA_HDR_VAL_LEN in
              if size <? pos + keylen then STOP (UNSER ret d)
              else
                let kpos := pos in
                let pos := pos + keylen + 1 in
                if size <? pos + vallen then STOP (UNSER ret d)
                else if negb (data_ok mem) then STOP (UNSER (-1) d)
                else if vallen <? 0 then STOP UNSER_UNDEF
                else
                  match (if dup_ok mem then option_map Some (read_at buf pos vallen) else Some None), c_string buf kpos with
                  | Some bytes, Some k =>
                      let '(ret, d) := dict_add char_signed (pair_ok mem) (key_ok mem) d k
                                         (mk_data vallen bytes GF_DATA_TYPE_STR) in
                      if ret <? 0 then STOP (UNSER ret d) else NEXT ret (pos + vallen) d
                  | _, _ => STOP UNSER_UNDEF
                  end
          end
    end.

Fixpoint unserialize_loop (mem : nat -> unser_mem) (cnt i : nat) (ret pos : Z) (d : dict_t) : unser_result :=
  match cnt with
  | O => UNSER 0 d
  | S cnt =>
      match unserialize_one (mem i) ret pos d with
      | STOP r => r
      | NEXT ret pos d => unserialize_loop mem cnt (S i) ret pos d
      end
  end.
End unserialize.

Definition dict_unserialize (char_signed : bool) (mem : nat -> unser_mem) (buf : list Z) (fill : dict_t) : unser_result :=
  if size_of buf =? 0 then UNSER (-1) fill
  else if size_of buf <? DICT_HDR_LEN then UNSER (-1) fill
  else
    match read_word buf 0 with
    | None => UNSER_UNDEF
    | Some cnt =>
        if cnt <? 0 then UNSER (-1) fill
        else unserialize_loop char_signed buf mem (Z.to_nat cnt) 0 (-1) DICT_HDR_LEN (set_count fill 0)
    end.
