(* ===== verification/DictFacts.v ===== *)
(** * Facts on dictionaries

    A dictionary as a finite map from keys to values, and the bytes of a
    serialized one. *)

From S2P Require Import Prelude Words Dict.
From stdpp Require Import gmap.
Open Scope Z_scope.

(** ** Dictionaries as maps *)

Definition kv (p : data_pair) : list Z * data_t := (key p, value p).
Definition to_map (d : dict_t) : gmap (list Z) data_t := list_to_map (map kv (members_list d)).

(** The pairs found in a dictionary: keys are unique and hashed, the count is
    right, and the pair inside of the dictionary is used at most once, and
    known to be. *)
Record dict_ok (cs : bool) (d : dict_t) : Prop := {
  ok_hash : Forall (fun p => key_hash p = SuperFastHash cs (key p)) (members_list d);
  ok_keys : NoDup (map key (members_list d));
  ok_count : count d = Z.of_nat (length (members_list d));
  ok_free : length (filter (fun p => in_free_pair p) (members_list d)) = if free_pair_in_use d then 1%nat else 0%nat }.

Section map.
Context (cs : bool).
Local Abbreviation hashed l := (Forall (fun p => key_hash p = SuperFastHash cs (key p)) l).

Lemma pair_matches_spec p k :
  key_hash p = SuperFastHash cs (key p) -> pair_matches (SuperFastHash cs k) k p = bool_decide (key p = k).
Proof.
  intros Hh. unfold pair_matches. case_bool_decide as E; [|apply andb_false_r].
  rewrite Hh, E, Z.eqb_refl. reflexivity.
Qed.

Lemma lookup_chain_spec l k :
  hashed l -> option_map value (lookup_chain l k (SuperFastHash cs k)) = (list_to_map (map kv l) : gmap _ _) !! k.
Proof.
  induction 1 as [|p l Hp Hf IH]; [reflexivity|]. cbn [lookup_chain map kv list_to_map foldr].
  rewrite pair_matches_spec by exact Hp. case_bool_decide as E.
  - subst k. cbn. rewrite lookup_insert_eq. reflexivity.
  - cbn. rewrite lookup_insert_ne by exact E. exact IH.
Qed.

Lemma replace_value_spec l k v :
  hashed l -> is_Some (lookup_chain l k (SuperFastHash cs k)) ->
  let l' := replace_value l k (SuperFastHash cs k) v in
  list_to_map (map kv l') = <[k := v]> (list_to_map (map kv l) : gmap (list Z) data_t) /\
  map key l' = map key l /\ map in_free_pair l' = map in_free_pair l /\ hashed l'.
Proof.
  induction 1 as [|p l Hp Hf IH]; cbn [lookup_chain replace_value]; [intros [? ?]; discriminate|].
  rewrite pair_matches_spec by exact Hp. case_bool_decide as E; intros Hs.
  - subst k. cbn. rewrite insert_insert_eq. repeat split. constructor; [exact Hp | exact Hf].
  - destruct (IH Hs) as (H1 & H2 & H3 & H4). cbn in *. rewrite H1, H2, H3. repeat split.
    + apply insert_insert_ne. auto.
    + constructor; assumption.
Qed.

Lemma del_chain_spec l k :
  hashed l -> NoDup (map key l) ->
  match del_chain l k (SuperFastHash cs k) with
  | Some (p, l') =>
      l ≡ₚ p :: l' /\ key p = k /\ hashed l' /\ NoDup (map key l') /\
      list_to_map (map kv l') = delete k (list_to_map (map kv l) : gmap (list Z) data_t)
  | None => (list_to_map (map kv l) : gmap (list Z) data_t) !! k = None
  end.
Proof.
  induction 1 as [|p l Hp Hf IH]; intros Hnd; cbn [del_chain map]; [reflexivity|].
  cbn [map] in Hnd. apply NoDup_cons in Hnd as [Hni Hnd]. rewrite pair_matches_spec by exact Hp.
  assert (Hnone : (list_to_map (map kv l) : gmap (list Z) data_t) !! key p = None).
  { apply not_elem_of_list_to_map_1. rewrite map_map. exact Hni. }
  case_bool_decide as E.
  - subst k. split; [reflexivity|]. split; [reflexivity|]. split; [exact Hf|]. split; [exact Hnd|].
    cbn. rewrite delete_insert_id by exact Hnone. reflexivity.
  - specialize (IH Hnd). destruct (del_chain l k _) as [[q l']|]; cbn.
    + destruct IH as (Hpm & Hq & Hh & Hn & Hm). split; [rewrite Hpm; apply Permutation_swap|].
      split; [exact Hq|]. split; [constructor; assumption|]. split.
      * apply NoDup_cons. split; [|exact Hn]. intros Hin. apply Hni. rewrite Hpm. cbn. apply elem_of_cons. auto.
      * rewrite Hm. symmetry. apply delete_insert_ne. auto.
    + rewrite lookup_insert_ne by exact E. exact IH.
Qed.

Lemma dict_get_map d k : dict_ok cs d -> dict_get cs d k = to_map d !! k.
Proof. intros Hd. apply lookup_chain_spec, Hd. Qed.

Lemma lookup_common_none d k : dict_ok cs d -> dict_lookup_common d k (SuperFastHash cs k) = None <-> to_map d !! k = None.
Proof.
  intros Hd. rewrite <- (dict_get_map d k Hd). unfold dict_get. destruct (dict_lookup_common _ _ _); cbn; split; congruence.
Qed.

Lemma filter_map_length {A} (f : A -> bool) l l' :
  map f l = map f l' -> length (filter (fun x => f x) l) = length (filter (fun x => f x) l').
Proof.
  revert l'. induction l as [|x l IH]; intros [|y l'] E; try discriminate; [reflexivity|].
  injection E as E1 E2. rewrite !filter_cons, E1. specialize (IH l' E2). destruct (decide (f y)); cbn; lia.
Qed.

(** A pair is put in front. *)
Lemma dict_push d k v :
  dict_ok cs d -> to_map d !! k = None ->
  let d' := snd (dict_add cs true true d k v) in
  fst (dict_add cs true true d k v) = 0 /\ dict_ok cs d' /\ to_map d' = <[k := v]> (to_map d).
Proof.
  intros [Hh Hk Hc Hf] Hn. unfold dict_add, dict_set_lk. cbn [negb]. rewrite andb_false_r. cbv zeta. cbn [fst snd].
  split; [reflexivity|]. split; [|reflexivity]. constructor; cbn [members_list count free_pair_in_use map key length].
  - constructor; [reflexivity | exact Hh].
  - apply NoDup_cons. split; [|exact Hk]. intros Hin. apply not_elem_of_list_to_map in Hn. apply Hn.
    rewrite map_map. exact Hin.
  - lia.
  - rewrite filter_cons. cbn [in_free_pair]. destruct (free_pair_in_use d); cbn [negb].
    + rewrite decide_False by exact id. exact Hf.
    + rewrite decide_True by exact I. cbn [length]. rewrite Hf. reflexivity.
Qed.

Lemma dict_set_map pair_ok key_ok d k v :
  dict_ok cs d ->
  let '(ret, d') := dict_set cs pair_ok key_ok d k v in
  ret = 0 /\ dict_ok cs d' /\ to_map d' = <[k := v]> (to_map d) \/
  ret = -1 /\ d' = d /\ to_map d !! k = None /\ (pair_ok = false \/ key_ok = false).
Proof.
  intros Hd. unfold dict_set, dict_set_lk. cbv zeta.
  destruct (dict_lookup_common d k (SuperFastHash cs k)) as [p|] eqn:E.
  - left. split; [reflexivity|]. destruct Hd as [Hh Hk Hc Hf].
    destruct (replace_value_spec (members_list d) k v Hh) as (H1 & H2 & H3 & H4); [exists p; exact E|].
    split; [|exact H1]. constructor; cbn; [exact H4 | rewrite H2; exact Hk | | ].
    + apply (f_equal length) in H2. rewrite !length_map in H2. lia.
    + rewrite (filter_map_length in_free_pair _ _ H3). exact Hf.
  - pose proof (proj1 (lookup_common_none d k Hd) E) as Hn.
    destruct (free_pair_in_use d && negb pair_ok) eqn:E1.
    { right. apply andb_true_iff in E1 as [_ E1]. apply negb_true_iff in E1. auto. }
    destruct key_ok; cbn [negb]; [|right; auto]. left.
    destruct (dict_push d k v Hd Hn) as (_ & H2 & H3). unfold dict_add, dict_set_lk in H2, H3.
    cbn [negb] in H2, H3. rewrite andb_false_r in H2, H3. auto.
Qed.

Lemma dict_del_map d k : dict_ok cs d -> dict_ok cs (dict_del cs d k) /\ to_map (dict_del cs d k) = delete k (to_map d).
Proof.
  intros Hd. pose proof Hd as [Hh Hk Hc Hf]. pose proof (del_chain_spec (members_list d) k Hh Hk) as H.
  unfold dict_del. destruct (del_chain _ _ _) as [[p l']|].
  - destruct H as (Hp & _ & Hh' & Hn & Hm). split; [|exact Hm]. constructor; cbn; auto.
    + apply Permutation_length in Hp. cbn in Hp. lia.
    + assert (E : length (filter (fun p => in_free_pair p) (members_list d)) =
        length (filter (fun p => in_free_pair p) (p :: l'))) by (rewrite Hp; reflexivity).
      rewrite filter_cons, Hf in E. destruct (in_free_pair p).
      * rewrite decide_True in E by exact I. cbn [length] in E. destruct (free_pair_in_use d); lia.
      * rewrite decide_False in E by exact id. symmetry. exact E.
  - split; [exact Hd|]. symmetry. apply delete_id. exact H.
Qed.

Lemma dict_size d : dict_ok cs d -> Z.of_nat (size (to_map d)) = count d.
Proof.
  intros Hd. rewrite (ok_count _ _ Hd). unfold to_map. rewrite map_size_list_to_map; [rewrite length_map; reflexivity|].
  change ((map kv (members_list d)).*1) with (map fst (map kv (members_list d))). rewrite map_map. apply Hd.
Qed.

Lemma dict_member d p : dict_ok cs d -> p ∈ members_list d -> to_map d !! key p = Some (value p).
Proof.
  intros Hd Hp. apply elem_of_list_to_map_1.
  - change ((map kv (members_list d)).*1) with (map fst (map kv (members_list d))). rewrite map_map. apply Hd.
  - apply list_elem_of_fmap. exists p. auto.
Qed.

Lemma dict_member_inv d k v : to_map d !! k = Some v -> exists p, p ∈ members_list d /\ key p = k /\ value p = v.
Proof. intros H%elem_of_list_to_map_2. apply list_elem_of_fmap in H as (p & [= -> ->] & Hp). eauto. Qed.

Lemma dict_rename_map pair_ok key_ok d k k' :
  dict_ok cs d ->
  let '(ret, d') := dict_rename_key cs pair_ok key_ok d k k' in
  match to_map d !! k with
  | None => (k = k' \/ ret = - ENODATA) /\ d' = d
  | Some v =>
      ret = 0 /\ dict_ok cs d' /\ to_map d' = <[k' := v]> (delete k (to_map d)) \/
      ret = -1 /\ d' = d /\ to_map d !! k' = None /\ (pair_ok = false \/ key_ok = false)
  end.
Proof.
  intros Hd. unfold dict_rename_key. case_bool_decide as E.
  { subst k'. destruct (to_map d !! k) as [v|] eqn:Ev; [|auto]. left. split; [reflexivity|]. split; [exact Hd|].
    symmetry. rewrite insert_delete_eq. apply insert_id. exact Ev. }
  pose proof (dict_get_map d k Hd) as Hg. unfold dict_get in Hg.
  destruct (dict_lookup_common d k (SuperFastHash cs k)) as [p|]; cbn in Hg; rewrite <- Hg; [|auto].
  pose proof (dict_set_map pair_ok key_ok d k' (value p) Hd) as Hs. unfold dict_set in Hs.
  destruct (dict_set_lk _ _ _ _ _ _ _) as [ret d1]. destruct Hs as [(-> & Ho & Hm)|(-> & -> & Hn & Hm)]; cbn.
  - left. split; [reflexivity|]. destruct (dict_del_map d1 k Ho) as [H1 H2]. split; [exact H1|].
    rewrite H2, Hm. apply delete_insert_ne. auto.
  - right. auto.
Qed.

(** ** Iteration *)

Lemma foreach_all {S} (action : S -> list Z -> data_t -> Z * S) l : forall n s,
  (forall s k v, fst (action s k v) = 0) ->
  foreach_loop dict_match_everything action l n s =
    (n + Z.of_nat (length l), foldl (fun s p => snd (action s (key p) (value p))) s l).
Proof.
  induction l as [|p l IH]; intros n s Ha; cbn [foreach_loop foldl length]; [f_equal; lia|].
  pose proof (Ha s (key p) (value p)) as E. cbn [dict_match_everything].
  destruct (action s (key p) (value p)) as [ret s']. cbn in E. subst ret. cbn [Z.ltb Z.compare snd]. rewrite IH by exact Ha.
  f_equal. lia.
Qed.

Lemma dict_reset_map d : dict_ok cs d -> dict_ok cs (snd (dict_reset cs d)) /\ members_list (snd (dict_reset cs d)) = [].
Proof.
  intros Hd. unfold dict_reset, dict_foreach, dict_foreach_match. rewrite foreach_all by reflexivity. cbn [snd].
  set (d' := foldl _ d _).
  assert (H : forall l d0, dict_ok cs d0 ->
    let d1 := foldl (fun s p => snd (dict_remove_foreach_fn cs s (key p) (value p))) d0 l in
    dict_ok cs d1 /\ forall k, to_map d1 !! k = if decide (k ∈ map key l) then None else to_map d0 !! k).
  { induction l as [|p l IH]; intros d0 H0; cbn [foldl].
    - split; [exact H0|]. intros k. rewrite decide_False; [reflexivity|]. apply not_elem_of_nil.
    - destruct (dict_del_map d0 (key p) H0) as [H1 H2]. destruct (IH _ H1) as [H3 H4]. split; [exact H3|].
      intros k. rewrite H4, H2. cbn [map]. destruct (decide (k ∈ map key l)) as [Hin|Hni].
      + rewrite decide_True; [reflexivity|]. apply elem_of_cons. auto.
      + destruct (decide (k = key p)) as [->|Hne].
        * rewrite lookup_delete_eq, decide_True; [reflexivity|]. apply elem_of_cons. auto.
        * rewrite lookup_delete_ne by auto. rewrite decide_False; [reflexivity|]. rewrite elem_of_cons. tauto. }
  destruct (H (members_list d) d Hd) as [H1 H2]. fold d' in H1, H2. split; [exact H1|].
  destruct (members_list d') as [|p l] eqn:E; [reflexivity|]. exfalso.
  pose proof (dict_member d' p H1 ltac:(rewrite E; apply elem_of_cons; auto)) as Hp. rewrite H2 in Hp.
  case_decide as Hin; [discriminate|]. apply dict_member_inv in Hp as (q & Hq & Ek & _). apply Hin.
  rewrite <- Ek. apply list_elem_of_fmap. exists q. auto.
Qed.

(** The loop of a copy: all members, or those before the one whose allocation failed. *)
Lemma copy_loop mem l : forall n i d0,
  dict_ok cs d0 -> NoDup (map key l) ->
  exists j d1, snd (foreach_loop dict_match_everything (dict_copy_one cs mem) l n (i, Some d0)) = (j, Some d1) /\ dict_ok cs d1 /\
  (to_map d1 = list_to_map (map kv l) ∪ to_map d0 \/
   exists l1 p l2 i', l = l1 ++ p :: l2 /\ mem i' <> (true, true) /\ to_map d1 = list_to_map (map kv l1) ∪ to_map d0 /\
     to_map d1 !! key p = None).
Proof.
  induction l as [|p l IH]; intros n i d0 H0 Hnd; cbn [foreach_loop].
  { exists i, d0. split; [reflexivity|]. split; [exact H0|]. left. symmetry. apply (left_id_L ∅ (∪)). }
  cbn [map] in Hnd. apply NoDup_cons in Hnd as [Hni Hnd]. cbn [dict_match_everything]. unfold dict_copy_one at 1.
  pose proof (dict_set_map (fst (mem i)) (snd (mem i)) d0 (key p) (value p) H0) as H.
  destruct (dict_set cs _ _ d0 (key p) (value p)) as [ret d1]. destruct H as [(-> & H1 & H2)|(-> & -> & H1 & H2)]; cbn [Z.ltb Z.compare].
  - destruct (IH (n + 1) (S i) d1 H1 Hnd) as (j & d2 & -> & H3 & H4). exists j, d2. split; [reflexivity|]. split; [exact H3|].
    assert (Hins : forall k, (key p) ∉ map key k -> list_to_map (map kv k) ∪ to_map d1 = list_to_map (map kv (p :: k)) ∪ to_map d0).
    { intros k Hk. rewrite H2. cbn. rewrite <- insert_union_l, insert_union_r; [reflexivity|].
      apply not_elem_of_list_to_map_1. rewrite map_map. exact Hk. }
    destruct H4 as [H4|(l1 & q & l2 & i' & -> & Hm & H4 & H5)]; [left; rewrite H4; auto|right].
    exists (p :: l1), q, l2, i'. rewrite map_app, not_elem_of_app in Hni. rewrite H4 in *. rewrite Hins in * by tauto. auto.
  - exists (S i), d0. split; [reflexivity|]. split; [exact H0|]. right. exists [], p, l, i. split; [reflexivity|].
    split; [intros E; rewrite E in H2; destruct H2; discriminate|]. split; [symmetry; apply (left_id_L ∅ (∪))|exact H1].
Qed.

(** A copy has all members of its source, or some of them when an allocation fails. *)
Lemma dict_copy_map new_ok mem d new :
  dict_ok cs d -> dict_ok cs new ->
  exists new', dict_copy cs new_ok mem d (Some new) = Some new' /\ dict_ok cs new' /\
  (to_map new' = to_map d ∪ to_map new \/
   exists part k i, part ⊆ to_map d /\ is_Some (to_map d !! k) /\ mem i <> (true, true) /\
     to_map new' = part ∪ to_map new /\ to_map new' !! k = None).
Proof.
  intros Hd Hn. unfold dict_copy, dict_foreach, dict_foreach_match.
  destruct (copy_loop mem (members_list d) 0 0%nat new Hn (ok_keys _ _ Hd)) as (j & d1 & E & H1 & H2).
  destruct (foreach_loop _ _ _ _ _) as [r st]. cbn [snd] in *. subst st. exists d1. split; [reflexivity|]. split; [exact H1|].
  destruct H2 as [H2|(l1 & p & l2 & i & El & Hm & H2 & H3)]; [left; exact H2|right].
  exists (list_to_map (map kv l1)), (key p), i. pose proof (ok_keys _ _ Hd) as Hk. rewrite El, map_app in Hk. apply NoDup_app in Hk as (Hk & _).
  split; [|split; [|auto]].
  - apply map_subseteq_spec. intros k v Hl. apply elem_of_list_to_map_2 in Hl. apply list_elem_of_fmap in Hl as (q & [= -> ->] & Hq).
    apply dict_member; [exact Hd|]. rewrite El. apply elem_of_app. auto.
  - exists (value p). apply dict_member; [exact Hd|]. rewrite El. apply elem_of_app. right. left.
Qed.
End map.

(** ** Comparison *)

(** A value whose length is that of its bytes. *)
Definition value_ok (v : data_t) : Prop := exists b, data v = Some b /\ len v = Z.of_nat (length b).
Definition values_ok (d : dict_t) : Prop := Forall (fun p => value_ok (value p)) (members_list d).

Lemma data_equal_spec v w : value_ok v -> value_ok w -> is_data_equal v w = 1 <-> data v = data w.
Proof.
  intros (b & Eb & Lb) (c & Ec & Lc). unfold is_data_equal. rewrite Eb, Ec, Lb, Lc.
  destruct (Z.eqb_spec (Z.of_nat (length b)) (Z.of_nat (length c))) as [E|E]; cbn [negb].
  - rewrite (take_ge c), (take_ge b) by lia. case_bool_decide; split; congruence.
  - split; [discriminate|]. congruence.
Qed.

Section compare.
Context (cs : bool) (two : dict_t) (Htwo : dict_ok cs two) (Hv : values_ok two).

(** The key is in both with the same bytes. *)
Definition same_in (p : data_pair) : Prop := data <$> to_map two !! key p = Some (data (value p)).

Lemma key_value_cmp_spec p s :
  value_ok (value p) ->
  key_value_cmp cs two None s (key p) (value p) = (0, s) /\ same_in p \/
  key_value_cmp cs two None s (key p) (value p) = (-1, s) /\ ~ same_in p.
Proof.
  intros Hp. unfold key_value_cmp, same_in. rewrite dict_get_map by exact Htwo.
  destruct (to_map two !! key p) as [w|] eqn:E; [|right; split; [reflexivity | discriminate]].
  apply dict_member_inv in E as (q & Hq & _ & <-).
  assert (Hw : value_ok (value q)) by (unfold values_ok in Hv; rewrite Forall_forall in Hv; auto).
  pose proof (data_equal_spec _ _ Hp Hw) as Hs. cbn [fmap option_fmap option_map].
  destruct (Z.eqb_spec (is_data_equal (value p) (value q)) 1) as [Ed|Ed].
  - left. split; [reflexivity|]. f_equal. symmetry. apply Hs, Ed.
  - right. split; [reflexivity|]. intros [= Eq]. apply Ed, Hs. auto.
Qed.

Lemma foreach_cmp l : forall n,
  Forall (fun p => value_ok (value p)) l -> 0 <= n ->
  let r := fst (foreach_loop dict_match_everything (key_value_cmp cs two None) l n tt) in
  r = n + Z.of_nat (length l) /\ Forall same_in l \/ r = -1 /\ ~ Forall same_in l.
Proof.
  induction l as [|p l IH]; intros n Hl Hn; cbn [foreach_loop length fst].
  { left. split; [lia | constructor]. }
  apply Forall_cons in Hl as [Hp Hl]. cbn [dict_match_everything].
  destruct (key_value_cmp_spec p tt Hp) as [[-> Hs]|[-> Hs]]; cbn [Z.ltb Z.compare].
  - destruct (IH (n + 1) Hl ltac:(lia)) as [[-> H]|[-> H]].
    + left. split; [lia | constructor; assumption].
    + right. split; [reflexivity|]. rewrite Forall_cons. tauto.
  - right. split; [reflexivity|]. rewrite Forall_cons. tauto.
Qed.
End compare.

Lemma are_dicts_equal_spec cs one two :
  dict_ok cs one -> dict_ok cs two -> values_ok one -> values_ok two ->
  are_dicts_equal cs (Some one) (Some two) None None = true <-> data <$> to_map one = data <$> to_map two.
Proof.
  intros H1 H2 V1 V2. unfold are_dicts_equal, dict_foreach_match. cbn [default].
  assert (Hsz : size (to_map one) = size (data <$> to_map one) /\ size (to_map two) = size (data <$> to_map two))
    by (rewrite !map_size_fmap; auto).
  pose proof (dict_size cs one H1) as S1. pose proof (dict_size cs two H2) as S2.
  assert (Hsub : Forall (same_in two) (members_list one) <-> data <$> to_map one ⊆ data <$> to_map two).
  { rewrite Forall_forall. split.
    - intros H. apply map_subseteq_spec. intros k b. rewrite !lookup_fmap.
      destruct (to_map one !! k) as [v|] eqn:E; [|discriminate]. intros [= <-].
      apply dict_member_inv in E as (p & Hp & <- & <-). apply (H p Hp).
    - intros H p Hp. pose proof (dict_member cs one p H1 Hp) as Hm. unfold same_in.
      rewrite map_subseteq_spec in H. specialize (H (key p) (data (value p))). rewrite !lookup_fmap, Hm in H. auto. }
  rewrite (foreach_all dict_null_foreach_fn (members_list two)) by reflexivity. cbn [fst].
  rewrite <- (ok_count _ _ H2), Z.add_0_l.
  destruct (foreach_cmp cs two H2 V2 (members_list one) 0 V1 ltac:(lia)) as [[-> H]|[-> H]].
  - rewrite Z.add_0_l, <- (ok_count _ _ H1), Z.eqb_refl. rewrite (proj2 (Z.eqb_neq (count one) (-1))) by lia. cbn [andb].
    apply Hsub in H. destruct (Z.eqb_spec (count one) (count two)) as [E|E].
    + split; [intros _ | reflexivity]. apply (map_subseteq_size_eq _ _ H). lia.
    + split; [discriminate|]. intros Eq. rewrite Eq in Hsz. lia.
  - cbn. split; [discriminate|]. intros Eq. exfalso. apply H, Hsub. rewrite Eq. reflexivity.
Qed.
