(* ===== verification/DictWire.v ===== *)
(** * The wire format of dictionaries

    The bytes that [dict_allocate_and_serialize] writes, and what
    [dict_unserialize] makes of them and of their prefixes. *)

From S2P Require Import Prelude Words Dict DictFacts.
From stdpp Require Import gmap.
Open Scope Z_scope.

(** A pair that can be written: no NUL in the key, as many bytes as the length
    says. *)
Definition pair_wire (p : data_pair) : Prop := Forall (fun b => b <> 0) (key p) /\ value_ok (value p).

Definition bytes_of (v : data_t) : list Z := default [] (data v).

Definition entry_bytes (p : data_pair) : list Z :=
  net_word (Z.of_nat (length (key p))) ++ net_word (len (value p)) ++ key p ++ [0] ++ bytes_of (value p).

Definition body (l : list data_pair) : list Z := concat (map entry_bytes l).

Definition entry_size (p : data_pair) : nat := (4 + 4 + length (key p) + 1 + length (bytes_of (value p)))%nat.

Definition wire (d : dict_t) : list Z := net_word (count d) ++ body (members_list d).

(** ** Writing *)

Lemma value_bytes_ok v : value_ok v -> value_bytes v = Some (bytes_of v) /\ len v = Z.of_nat (length (bytes_of v)).
Proof.
  intros (b & E & L). unfold value_bytes, bytes_of. rewrite E, L. cbn [default].
  rewrite (proj2 (Z.leb_le 0 _)), Z.leb_refl by lia. cbn [andb]. rewrite take_ge by lia. auto.
Qed.

Lemma length_entry p : length (entry_bytes p) = entry_size p.
Proof. unfold entry_bytes, entry_size. rewrite !length_app. cbn [length net_word store32]. lia. Qed.

Lemma length_body l : length (body l) = sum_list_with entry_size l.
Proof.
  induction l as [|p l IH]; [reflexivity|]. unfold body in *. cbn [map concat sum_list_with].
  rewrite length_app, length_entry, IH. reflexivity.
Qed.

Lemma length_loop_spec l : forall n,
  Forall pair_wire l -> 0 <= n -> n + Z.of_nat (length (body l)) < 2 ^ 31 ->
  length_loop (length l) l n = n + Z.of_nat (length (body l)).
Proof.
  induction l as [|p l IH]; intros n Hl Hn Hb; cbn [length_loop length]; [cbn; lia|].
  apply Forall_cons in Hl as [[_ Hp] Hl]. destruct (value_bytes_ok _ Hp) as [_ Hlen].
  rewrite length_body in Hb |- *. cbn [sum_list_with] in Hb |- *. unfold entry_size in Hb at 1. unfold entry_size at 1.
  unfold DICT_DATA_HDR_KEY_LEN, DICT_DATA_HDR_VAL_LEN. cbv zeta.
  rewrite (s32_id (n + (4 + 4))), (s32_id (n + (4 + 4) + _)), s32_id by lia.
  rewrite (proj2 (Z.ltb_ge _ 0)) by lia. rewrite IH; rewrite ?length_body; auto; lia.
Qed.

Lemma write_at_end pre bytes m :
  (length bytes <= m)%nat ->
  write_at (pre ++ replicate m 0) (length pre) bytes = Some (pre ++ bytes ++ replicate (m - length bytes) 0).
Proof.
  intros Hm. unfold write_at. rewrite length_app, length_replicate, (proj2 (Nat.leb_le _ _)) by lia. f_equal.
  rewrite take_app_length, drop_app_add, drop_replicate. reflexivity.
Qed.

Lemma serialize_loop_spec l : forall pre m,
  Forall pair_wire l -> length (body l) = m ->
  serialize_loop (length l) l (pre ++ replicate m 0) (length pre) = SER_OK (pre ++ body l).
Proof.
  induction l as [|p l IH]; intros pre m Hl Hm; cbn [serialize_loop length].
  { cbn in Hm. subst m. reflexivity. }
  apply Forall_cons in Hl as [[_ Hp] Hl]. destruct (value_bytes_ok _ Hp) as [-> _]. fold (entry_bytes p).
  assert (E : body (p :: l) = entry_bytes p ++ body l) by reflexivity. rewrite E, length_app, length_entry in Hm.
  rewrite write_at_end by (rewrite length_entry; lia). rewrite app_assoc.
  replace (length pre + _)%nat with (length (pre ++ entry_bytes p))
    by (rewrite length_app, length_entry; unfold entry_size; lia).
  rewrite IH; [rewrite E, app_assoc; reflexivity | exact Hl | rewrite length_entry; lia].
Qed.

Lemma serialize_spec cs d :
  dict_ok cs d -> Forall pair_wire (members_list d) -> Z.of_nat (length (wire d)) < 2 ^ 31 ->
  dict_serialized_length_lk d = Z.of_nat (length (wire d)) /\ dict_allocate_and_serialize true d = SER_OK (wire d).
Proof.
  intros Hd Hw Hs. pose proof (ok_count _ _ Hd) as Hc.
  assert (Hl : length (wire d) = (4 + length (body (members_list d)))%nat) by (unfold wire; rewrite length_app; reflexivity).
  assert (Hn : dict_serialized_length_lk d = Z.of_nat (length (wire d))).
  { unfold dict_serialized_length_lk. rewrite (proj2 (Z.ltb_ge _ 0)) by lia. rewrite Hc, Nat2Z.id.
    unfold DICT_HDR_LEN. rewrite length_loop_spec by (auto; lia). lia. }
  split; [exact Hn|]. unfold dict_allocate_and_serialize. rewrite Hn, (proj2 (Z.ltb_ge _ 0)) by lia. cbn [negb].
  unfold dict_serialize_lk. rewrite (proj2 (Z.ltb_ge _ 0)) by lia. rewrite Nat2Z.id.
  pose proof (write_at_end [] (net_word (count d)) (length (wire d)) ltac:(rewrite Hl; cbn [length net_word store32]; lia)) as Hwr.
  cbn [app length] in Hwr. rewrite Hwr.
  replace (Z.to_nat (count d)) with (length (members_list d)) by lia.
  change (Z.to_nat DICT_HDR_LEN) with (length (net_word (count d))). apply serialize_loop_spec; [exact Hw|].
  rewrite Hl. cbn [length net_word store32]. lia.
Qed.

(** ** Reading *)

Lemma read_at_middle pre mid suf n :
  n = Z.of_nat (length mid) -> read_at (pre ++ mid ++ suf) (Z.of_nat (length pre)) n = Some mid.
Proof.
  intros ->. unfold read_at, size_of. destruct (Z.eqb_spec (Z.of_nat (length mid)) 0) as [E|E].
  { destruct mid; [reflexivity | cbn in E; lia]. }
  rewrite !length_app. rewrite (proj2 (Z.leb_le 0 _)), (proj2 (Z.ltb_lt 0 _)), (proj2 (Z.leb_le _ _)) by lia. cbn [andb].
  rewrite !Nat2Z.id, drop_app_length, take_app_length. reflexivity.
Qed.

Lemma read_net_word pre n suf :
  0 <= n < 2 ^ 31 -> read_word (pre ++ net_word n ++ suf) (Z.of_nat (length pre)) = Some n.
Proof.
  intros Hn. unfold read_word. rewrite read_at_middle by reflexivity. unfold net_word. rewrite (u32_id n) by lia.
  destruct (store32 (hton32 n)) as [|b0 [|b1 [|b2 [|b3 [|]]]]] eqn:E; try discriminate.
  rewrite (load_store32 _ (hton32_range n) _ _ _ _ E), hton32_involutive by lia. rewrite s32_id by lia. reflexivity.
Qed.

Lemma until_nul_spec k suf : Forall (fun b => b <> 0) k -> until_nul (k ++ 0 :: suf) = Some k.
Proof.
  induction 1 as [|b k Hb Hk IH]; [reflexivity|]. cbn. rewrite (proj2 (Z.eqb_neq b 0)), IH by exact Hb. reflexivity.
Qed.

Lemma c_string_middle pre k suf :
  Forall (fun b => b <> 0) k -> c_string (pre ++ k ++ 0 :: suf) (Z.of_nat (length pre)) = Some k.
Proof.
  intros Hk. unfold c_string, size_of. rewrite !length_app. cbn [length].
  rewrite (proj2 (Z.leb_le 0 _)), (proj2 (Z.ltb_lt _ _)) by lia. cbn [andb].
  rewrite Nat2Z.id, drop_app_length. apply until_nul_spec, Hk.
Qed.

(** The allocations of an iteration all succeed. *)
Definition mem_all : unser_mem := mk_unser_mem true true true true.

(** The value as it is read. *)
Definition retype (v : data_t) : data_t := mk_data (len v) (data v) GF_DATA_TYPE_STR.

Definition add_read (cs : bool) (d : dict_t) (p : data_pair) : dict_t :=
  snd (dict_add cs true true d (key p) (retype (value p))).

(** Bounds of a pair that is written. *)
Definition pair_small (p : data_pair) : Prop := Z.of_nat (entry_size p) < 2 ^ 31.

Section read.
Context (cs : bool).

Lemma read_entry pre p suf ret d :
  pair_wire p -> pair_small p ->
  unserialize_one cs (pre ++ entry_bytes p ++ suf) mem_all ret (Z.of_nat (length pre)) d =
    NEXT 0 (Z.of_nat (length (pre ++ entry_bytes p))) (add_read cs d p).
Proof.
  intros [Hk Hv] Hs. destruct (value_bytes_ok _ Hv) as [_ Hlen]. destruct Hv as (b & Eb & Lb).
  unfold pair_small, entry_size in Hs. set (buf := pre ++ entry_bytes p ++ suf).
  assert (Hsz : size_of buf = Z.of_nat (length pre) + Z.of_nat (entry_size p) + Z.of_nat (length suf))
    by (unfold size_of, buf; rewrite !length_app, length_entry; lia). unfold entry_size in Hsz.
  set (w1 := net_word (Z.of_nat (length (key p)))). set (w2 := net_word (len (value p))).
  assert (L1 : length w1 = 4%nat) by reflexivity. assert (L2 : length w2 = 4%nat) by reflexivity.
  assert (B1 : buf = pre ++ w1 ++ (w2 ++ key p ++ [0] ++ bytes_of (value p) ++ suf))
    by (unfold buf, entry_bytes; rewrite <- !app_assoc; reflexivity).
  assert (B2 : buf = (pre ++ w1) ++ w2 ++ (key p ++ [0] ++ bytes_of (value p) ++ suf))
    by (rewrite B1, <- !app_assoc; reflexivity).
  assert (B3 : buf = (pre ++ w1 ++ w2) ++ key p ++ 0 :: (bytes_of (value p) ++ suf))
    by (rewrite B1, <- !app_assoc; reflexivity).
  assert (B4 : buf = (pre ++ w1 ++ w2 ++ key p ++ [0]) ++ bytes_of (value p) ++ suf)
    by (rewrite B1, <- !app_assoc; reflexivity).
  assert (R1 : read_word buf (Z.of_nat (length pre)) = Some (Z.of_nat (length (key p))))
    by (rewrite B1; apply read_net_word; lia).
  assert (R2 : read_word buf (Z.of_nat (length pre) + 4) = Some (len (value p))).
  { rewrite B2. replace (Z.of_nat (length pre) + 4) with (Z.of_nat (length (pre ++ w1))) by (rewrite length_app, L1; lia).
    apply read_net_word. lia. }
  assert (R3 : c_string buf (Z.of_nat (length pre) + 4 + 4) = Some (key p)).
  { rewrite B3. replace (Z.of_nat (length pre) + 4 + 4) with (Z.of_nat (length (pre ++ w1 ++ w2)))
      by (rewrite !length_app, L1, L2; lia). apply c_string_middle, Hk. }
  assert (R4 : read_at buf (Z.of_nat (length pre) + 4 + 4 + Z.of_nat (length (key p)) + 1) (len (value p)) =
    Some (bytes_of (value p))).
  { rewrite B4. replace (_ + 1) with (Z.of_nat (length (pre ++ w1 ++ w2 ++ key p ++ [0])))
      by (rewrite !length_app, L1, L2; cbn [length]; lia). apply read_at_middle. exact Hlen. }
  unfold unserialize_one, DICT_DATA_HDR_KEY_LEN, DICT_DATA_HDR_VAL_LEN. cbv zeta.
  rewrite R1, R2, R3, R4. rewrite !(proj2 (Z.ltb_ge _ _)) by lia. cbn [mem_all data_ok dup_ok pair_ok key_ok negb option_map].
  unfold add_read. assert (Er : mk_data (len (value p)) (Some (bytes_of (value p))) GF_DATA_TYPE_STR = retype (value p))
    by (unfold retype, bytes_of; rewrite Eb; reflexivity). rewrite Er.
  assert (Hret : fst (dict_add cs true true d (key p) (retype (value p))) = 0)
    by (unfold dict_add, dict_set_lk; cbn [negb]; rewrite andb_false_r; reflexivity).
  destruct (dict_add _ _ _ _ _ _) as [r d']. cbn in Hret. subst r. cbn [Z.ltb Z.compare snd]. f_equal.
  rewrite length_app, length_entry. unfold entry_size. lia.
Qed.

(** An entry that is cut short stops the loop with the result so far. *)
Lemma read_cut pre p r ret d :
  pair_wire p -> pair_small p -> (r < entry_size p)%nat ->
  unserialize_one cs (pre ++ take r (entry_bytes p)) mem_all ret (Z.of_nat (length pre)) d = STOP (UNSER ret d).
Proof.
  intros [_ Hv] Hs Hr. destruct (value_bytes_ok _ Hv) as [_ Hlen]. unfold pair_small in Hs. unfold entry_size in Hs, Hr.
  set (buf := pre ++ take r (entry_bytes p)).
  assert (Hsz : size_of buf = Z.of_nat (length pre) + Z.of_nat r)
    by (unfold size_of, buf; rewrite length_app, length_take, length_entry; unfold entry_size; lia).
  set (w1 := net_word (Z.of_nat (length (key p)))). set (w2 := net_word (len (value p))).
  unfold unserialize_one, DICT_DATA_HDR_KEY_LEN, DICT_DATA_HDR_VAL_LEN. cbv zeta. rewrite Hsz.
  destruct (Z.ltb_spec (Z.of_nat (length pre) + Z.of_nat r) (Z.of_nat (length pre) + 4)); [reflexivity|].
  assert (B1 : exists suf, buf = pre ++ w1 ++ suf).
  { unfold buf, entry_bytes. exists (take (r - 4) (w2 ++ key p ++ [0] ++ bytes_of (value p))).
    rewrite take_app_ge by (change (length (net_word _)) with 4%nat; lia). reflexivity. }
  destruct B1 as [suf1 B1]. assert (R1 : read_word buf (Z.of_nat (length pre)) = Some (Z.of_nat (length (key p))))
    by (rewrite B1; apply read_net_word; lia). rewrite R1.
  destruct (Z.ltb_spec (Z.of_nat (length pre) + Z.of_nat r) (Z.of_nat (length pre) + 4 + 4)); [reflexivity|].
  assert (B2 : exists suf, buf = (pre ++ w1) ++ w2 ++ suf).
  { unfold buf, entry_bytes. exists (take (r - 8) (key p ++ [0] ++ bytes_of (value p))).
    rewrite take_app_ge by (change (length (net_word _)) with 4%nat; lia).
    change (length (net_word (Z.of_nat (length (key p))))) with 4%nat.
    rewrite take_app_ge by (change (length (net_word _)) with 4%nat; lia).
    change (length (net_word (len (value p)))) with 4%nat.
    replace (r - 4 - 4)%nat with (r - 8)%nat by lia. rewrite <- app_assoc. reflexivity. }
  destruct B2 as [suf2 B2]. assert (R2 : read_word buf (Z.of_nat (length pre) + 4) = Some (len (value p))).
  { rewrite B2. replace (Z.of_nat (length pre) + 4) with (Z.of_nat (length (pre ++ w1)))
      by (rewrite length_app; change (length w1) with 4%nat; lia). apply read_net_word. lia. }
  rewrite R2.
  destruct (Z.ltb_spec (Z.of_nat (length pre) + Z.of_nat r) (Z.of_nat (length pre) + 4 + 4 + Z.of_nat (length (key p))));
    [reflexivity|].
  rewrite (proj2 (Z.ltb_lt _ _)) by lia. reflexivity.
Qed.

(** The entries that are complete in [r] bytes. *)
Fixpoint complete (r : nat) (l : list data_pair) : list data_pair :=
  match l with
  | [] => []
  | p :: l => if (entry_size p <=? r)%nat then p :: complete (r - entry_size p) l else []
  end.

Lemma complete_all r l : (sum_list_with entry_size l <= r)%nat -> complete r l = l.
Proof.
  revert r. induction l as [|p l IH]; intros r Hr; [reflexivity|]. cbn [sum_list_with complete] in *.
  rewrite (proj2 (Nat.leb_le _ _)), IH by lia. reflexivity.
Qed.

(** What is returned for [r] bytes of the entries, when it is [ret] before. *)
Definition read_ret (ret : Z) (r : nat) (l : list data_pair) : Z :=
  if (sum_list_with entry_size l <=? r)%nat then 0
  else match complete r l with [] => ret | _ => 0 end.

Lemma unserialize_loop_spec l : forall pre r i ret d,
  Forall pair_wire l -> Forall pair_small l ->
  unserialize_loop cs (pre ++ take r (body l)) (fun _ => mem_all) (length l) i ret (Z.of_nat (length pre)) d =
    UNSER (read_ret ret r l) (foldl (add_read cs) d (complete r l)).
Proof.
  induction l as [|p l IH]; intros pre r i ret d Hw Hs; cbn [unserialize_loop length]; [reflexivity|].
  apply Forall_cons in Hw as [Hp Hw]. apply Forall_cons in Hs as [Hps Hs].
  assert (E : body (p :: l) = entry_bytes p ++ body l) by reflexivity. rewrite E.
  unfold read_ret. cbn [complete sum_list_with]. destruct (Nat.leb_spec (entry_size p) r) as [Hle|Hlt].
  - rewrite take_app_ge by (rewrite length_entry; exact Hle). rewrite length_entry, read_entry by auto.
    rewrite app_assoc, IH by auto. cbn [foldl]. f_equal. unfold read_ret.
    destruct (Nat.leb_spec (sum_list_with entry_size l) (r - entry_size p)),
      (Nat.leb_spec (entry_size p + sum_list_with entry_size l) r); try lia.
    destruct (complete _ l); reflexivity.
  - rewrite take_app_le by (rewrite length_entry; lia). rewrite read_cut by auto.
    rewrite (proj2 (Nat.leb_gt _ _)) by lia. reflexivity.
Qed.

Lemma unserialize_prefix d t :
  dict_ok cs d -> Forall pair_wire (members_list d) -> Z.of_nat (length (wire d)) < 2 ^ 31 -> (4 <= t)%nat ->
  let l := members_list d in
  dict_unserialize cs (fun _ => mem_all) (take t (wire d)) dict_new =
    UNSER (read_ret (-1) (t - 4) l)
      (foldl (add_read cs) dict_new (complete (t - 4) l)).
Proof.
  intros Hd Hw Hs Ht l.
  assert (Hl : length (wire d) = (4 + sum_list_with entry_size l)%nat)
    by (unfold wire; rewrite length_app, length_body; reflexivity).
  assert (Hcnt : (length l <= sum_list_with entry_size l)%nat).
  { clear. induction l as [|p l IH]; [reflexivity|]. cbn [length sum_list_with]. unfold entry_size at 1. lia. }
  assert (E : take t (wire d) = net_word (count d) ++ take (t - 4) (body l)).
  { unfold wire. rewrite take_app_ge by exact Ht. reflexivity. }
  rewrite E. pose proof (ok_count _ _ Hd) as Hc. fold l in Hc. unfold dict_unserialize.
  assert (Hsz : 4 <= size_of (net_word (count d) ++ take (t - 4) (body l)))
    by (unfold size_of; rewrite length_app; change (length (net_word (count d))) with 4%nat; lia).
  rewrite (proj2 (Z.eqb_neq _ 0)), (proj2 (Z.ltb_ge _ _)) by (unfold DICT_HDR_LEN; lia).
  pose proof (read_net_word [] (count d) (take (t - 4) (body l)) ltac:(lia)) as R. cbn [app length] in R. change (Z.of_nat 0) with 0 in R. rewrite R.
  rewrite (proj2 (Z.ltb_ge _ 0)) by lia. rewrite Hc, Nat2Z.id, <- Hc.
  change DICT_HDR_LEN with (Z.of_nat (length (net_word (count d)))). apply unserialize_loop_spec; [exact Hw|].
  apply Forall_forall. intros p Hp. unfold pair_small.
  assert (entry_size p <= sum_list_with entry_size l)%nat by (apply sum_list_with_in, Hp). lia.
Qed.

(** ** The dictionary that is read *)

Lemma add_read_all l : forall d,
  dict_ok cs d -> NoDup (map key l) -> (forall p, p ∈ l -> to_map d !! key p = None) ->
  let d' := foldl (add_read cs) d l in
  dict_ok cs d' /\ to_map d' = (retype <$> (list_to_map (map kv l) : gmap (list Z) data_t)) ∪ to_map d.
Proof.
  induction l as [|p l IH]; intros d Hd Hnd Hn; cbn [foldl].
  { split; [exact Hd|]. cbn. rewrite fmap_empty. symmetry. apply (left_id_L ∅ (∪)). }
  cbn [map] in Hnd. apply NoDup_cons in Hnd as [Hni Hnd].
  destruct (dict_push cs d (key p) (retype (value p)) Hd) as (_ & H1 & H2); [apply Hn, elem_of_cons; auto|].
  fold (add_read cs d p) in H1, H2. destruct (IH (add_read cs d p) H1 Hnd) as [H3 H4].
  - intros q Hq. rewrite H2, lookup_insert_ne; [apply Hn, elem_of_cons; auto|].
    intros Ek. apply Hni. rewrite Ek. apply list_elem_of_fmap. exists q. auto.
  - split; [exact H3|]. rewrite H4, H2. cbn. rewrite fmap_insert. rewrite <- insert_union_l, insert_union_r; [reflexivity|].
    rewrite lookup_fmap, not_elem_of_list_to_map_1; [reflexivity|]. rewrite map_map. exact Hni.
Qed.

Lemma complete_sub r l : exists k, complete r l = take k l.
Proof.
  revert r. induction l as [|p l IH]; intros r; [exists O; reflexivity|]. cbn [complete].
  destruct (_ <=? _)%nat; [|exists O; reflexivity]. destruct (IH (r - entry_size p)%nat) as [k ->]. exists (S k). reflexivity.
Qed.

Lemma dict_new_ok : dict_ok cs dict_new.
Proof. constructor; cbn; [constructor | constructor | reflexivity | reflexivity]. Qed.

(** Any complete entries make a dictionary with just their keys. *)
Lemma read_complete d r :
  dict_ok cs d ->
  let l := complete r (members_list d) in
  let d' := foldl (add_read cs) dict_new l in
  dict_ok cs d' /\ to_map d' = retype <$> (list_to_map (map kv l) : gmap (list Z) data_t).
Proof.
  intros Hd l d'. destruct (complete_sub r (members_list d)) as [k Hk].
  destruct (add_read_all l dict_new dict_new_ok) as [H1 H2].
  - unfold l. rewrite Hk, <- firstn_map. eapply sublist_NoDup; [apply Hd | apply sublist_take].
  - reflexivity.
  - split; [exact H1|]. fold d' in H2. rewrite H2. apply (right_id_L ∅ (∪)).
Qed.
End read.
