(* ===== verification/DictProps.v ===== *)
(** * Properties of dictionaries *)

From S2P Require Import Prelude Words Dict DictFacts DictWire.
From stdpp Require Import gmap.
Open Scope Z_scope.

(** ** Operations *)

(** The operations that change a dictionary, with the allocations that
    succeed; in a copy those of each pair. *)
Inductive dict_op :=
| Op_set (pair_ok key_ok : bool) (k : list Z) (v : data_t)
| Op_del (k : list Z)
| Op_rename (pair_ok key_ok : bool) (k k' : list Z)
| Op_copy_to (src : dict_t) (mem : nat -> bool * bool)
| Op_reset.

Definition run_op (cs : bool) (d : dict_t) (op : dict_op) : Z * dict_t :=
  match op with
  | Op_set po ko k v => dict_set cs po ko d k v
  | Op_del k => (0, dict_del cs d k)
  | Op_rename po ko k k' => dict_rename_key cs po ko d k k'
  | Op_copy_to src mem => (0, default d (dict_copy cs true mem src (Some d)))
  | Op_reset => dict_reset cs d
  end.

(** What an operation does to a finite map, with its result.  A copy has no result:
    [Step_copy_nomem] is the one that stops at a key for which there is no memory. *)
Inductive map_step (m : gmap (list Z) data_t) : dict_op -> Z -> gmap (list Z) data_t -> Prop :=
| Step_set po ko k v : map_step m (Op_set po ko k v) 0 (<[k := v]> m)
| Step_set_nomem po ko k v : m !! k = None -> po && ko = false -> map_step m (Op_set po ko k v) (-1) m
| Step_del k : map_step m (Op_del k) 0 (delete k m)
| Step_rename po ko k k' v : m !! k = Some v -> map_step m (Op_rename po ko k k') 0 (<[k' := v]> (delete k m))
| Step_rename_nomem po ko k k' v :
    m !! k = Some v -> m !! k' = None -> po && ko = false -> map_step m (Op_rename po ko k k') (-1) m
| Step_rename_absent po ko k k' : m !! k = None -> k <> k' -> map_step m (Op_rename po ko k k') (- ENODATA) m
| Step_rename_same po ko k : map_step m (Op_rename po ko k k) 0 m
| Step_copy src mem : map_step m (Op_copy_to src mem) 0 (to_map src ∪ m)
| Step_copy_nomem src mem part k i :
    part ⊆ to_map src -> is_Some (to_map src !! k) -> (part ∪ m) !! k = None -> mem i <> (true, true) ->
    map_step m (Op_copy_to src mem) 0 (part ∪ m)
| Step_reset : map_step m Op_reset 0 ∅.

(** Dictionaries that operations make from new ones. *)
Inductive dict_reach (cs : bool) : dict_t -> Prop :=
| Reach_new : dict_reach cs dict_new
| Reach_op d op :
    dict_reach cs d -> (forall src mem, op = Op_copy_to src mem -> dict_reach cs src) ->
    dict_reach cs (snd (run_op cs d op)).

Lemma run_op_sim cs d op :
  dict_ok cs d -> (forall src mem, op = Op_copy_to src mem -> dict_ok cs src) ->
  dict_ok cs (snd (run_op cs d op)) /\
  map_step (to_map d) op (fst (run_op cs d op)) (to_map (snd (run_op cs d op))).
Proof.
  intros Hd Hsrc. destruct op as [po ko k v|k|po ko k k'|src mem|]; cbn [run_op fst snd].
  - pose proof (dict_set_map cs po ko d k v Hd) as H. destruct (dict_set _ _ _ _ _ _) as [ret d']. cbn.
    destruct H as [(-> & Ho & ->)|(-> & -> & Hn & Hm)]; (split; [assumption|]); constructor; auto.
    destruct Hm as [-> | ->]; [reflexivity | apply andb_false_r].
  - destruct (dict_del_map cs d k Hd) as [Ho ->]. split; [exact Ho | constructor].
  - pose proof (dict_rename_map cs po ko d k k' Hd) as H. destruct (decide (k = k')) as [<-|Hne].
    + unfold dict_rename_key. rewrite bool_decide_true by reflexivity. split; [exact Hd | constructor].
    + destruct (dict_rename_key _ _ _ _ _ _) as [ret d']. cbn. destruct (to_map d !! k) as [v|] eqn:E.
      * destruct H as [(-> & Ho & ->)|(-> & -> & Hn & Hm)]; (split; [assumption|]); econstructor; eauto.
        destruct Hm as [-> | ->]; [reflexivity | apply andb_false_r].
      * destruct H as [[H| ->] ->]; [contradiction|]. split; [exact Hd | constructor; auto].
  - destruct (dict_copy_map cs true mem src d (Hsrc src mem eq_refl) Hd) as (d' & -> & Ho & H). split; [exact Ho|]. cbn.
    destruct H as [->|(part & k & i & Hp & Hk & Hm & -> & Hn)]; [constructor|]. apply (Step_copy_nomem _ src mem part k i); assumption.
  - destruct (dict_reset_map cs d Hd) as [Ho He]. split; [exact Ho|].
    assert (E : to_map (snd (dict_reset cs d)) = ∅) by (unfold to_map; rewrite He; reflexivity). rewrite E. constructor.
Qed.

Lemma reach_ok cs d : dict_reach cs d -> dict_ok cs d.
Proof. induction 1 as [|d op Hd IHd Hs IHs]; [apply dict_new_ok | apply run_op_sim; assumption]. Qed.

(** C25: a dictionary is a finite map.  In every dictionary made by setting,
    deleting, renaming, copying and resetting, the lookups are those of a finite
    map whose size is the count; every operation changes the map as it should
    and returns 0, or fails, for lack of memory or of the key to rename, and
    changes nothing; the pair inside of the dictionary is never given out
    twice.  A copy, which does not report a failure, adds all members of its
    source, or, when an allocation fails, those before some key that it lacks. *)
Theorem dict_refines_map cs d :
  dict_reach cs d ->
  dict_ok cs d /\ (forall k, dict_get cs d k = to_map d !! k) /\
  dict_key_count d = Z.of_nat (size (to_map d)) /\
  forall op, (forall src mem, op = Op_copy_to src mem -> dict_reach cs src) ->
    let '(ret, d') := run_op cs d op in dict_reach cs d' /\ map_step (to_map d) op ret (to_map d').
Proof.
  intros Hr. pose proof (reach_ok cs d Hr) as Hd. split; [exact Hd|]. split; [intros k; apply dict_get_map, Hd|].
  split; [symmetry; apply (dict_size cs), Hd|]. intros op Hop.
  pose proof (run_op_sim cs d op Hd (fun src mem E => reach_ok cs src (Hop src mem E))) as [_ Hs]. pose proof (Reach_op cs d op Hr Hop) as Hn.
  destruct (run_op cs d op) as [ret d']. auto.
Qed.

Lemma dict_refines_map_witness :
  let v := mk_data 1 (Some [55]) GF_DATA_TYPE_STR in
  let d := snd (run_op true dict_new (Op_set true true [97; 98] v)) in
  dict_get true d [97; 98] = Some v.
Proof.
  intros v d. destruct (dict_refines_map true d) as (_ & Hg & _ & _).
  - apply Reach_op; [apply Reach_new | discriminate].
  - rewrite Hg. vm_compute. reflexivity.
Defined.

(** A copy for which there is no memory is returned like a complete one. *)
Lemma partial_copy_returned :
  let v := mk_data 1 (Some [55]) GF_DATA_TYPE_STR in
  let set d k := snd (run_op true d (Op_set true true k v)) in
  let src := set (set dict_new [97]) [98] in
  exists new, dict_copy true true (fun i => (true, bool_decide (i = 0%nat))) src None = Some new /\
    to_map src !! [97] = Some v /\ dict_get true new [97] = None /\ dict_get true new [98] = Some v.
Proof. eexists. split; [vm_compute; reflexivity|]. vm_compute. auto. Qed.

(** ** Equality *)

(** [are_dicts_equal] without filters is equality of finite maps: it holds
    exactly when both dictionaries have the same keys with the same bytes. *)
Theorem dicts_equal_iff cs one two :
  dict_reach cs one -> dict_reach cs two -> values_ok one -> values_ok two ->
  are_dicts_equal cs (Some one) (Some two) None None = true <-> data <$> to_map one = data <$> to_map two.
Proof. intros H1 H2. apply are_dicts_equal_spec; apply reach_ok; assumption. Qed.

Lemma dicts_equal_iff_witness :
  let v := mk_data 1 (Some [55]) GF_DATA_TYPE_STR in
  let w := mk_data 1 (Some [55]) GF_DATA_TYPE_UINT in
  let set d k x := snd (run_op true d (Op_set true true k x)) in
  let one := set (set dict_new [97; 98] v) [99] v in
  let two := set (set dict_new [99] w) [97; 98] v in
  data <$> to_map one = data <$> to_map two.
Proof.
  intros v w set one two. apply (dicts_equal_iff true one two).
  - unfold one, set. repeat (apply Reach_op; [|discriminate]). apply Reach_new.
  - unfold two, set. repeat (apply Reach_op; [|discriminate]). apply Reach_new.
  - repeat constructor; exists [55]; split; reflexivity.
  - repeat constructor; exists [55]; split; reflexivity.
  - vm_compute. reflexivity.
Defined.

(** ** Wire format *)

(** C21: serializing a dictionary and unserializing the buffer into a new one
    succeeds and gives the same keys with the same bytes (the types of the
    values become strings).  The buffer is filled exactly, without writing or
    reading outside of it. *)
Theorem dict_wire_roundtrip cs d :
  dict_reach cs d -> Forall pair_wire (members_list d) -> Z.of_nat (length (wire d)) < 2 ^ 31 ->
  exists buf d',
  dict_serialized_length_lk d = size_of buf /\
  dict_allocate_and_serialize true d = SER_OK buf /\
  dict_unserialize cs (fun _ => mem_all) buf dict_new = UNSER 0 d' /\
  dict_ok cs d' /\ to_map d' = retype <$> to_map d.
Proof.
  intros Hr Hw Hs. pose proof (reach_ok cs d Hr) as Hd. destruct (serialize_spec cs d Hd Hw Hs) as [H1 H2].
  assert (Hl : length (wire d) = (4 + sum_list_with entry_size (members_list d))%nat)
    by (unfold wire; rewrite length_app, length_body; reflexivity).
  pose proof (unserialize_prefix cs d (length (wire d)) Hd Hw Hs ltac:(lia)) as H3.
  rewrite take_ge in H3 by lia. unfold read_ret in H3.
  rewrite (proj2 (Nat.leb_le _ _)) in H3 by lia.
  destruct (read_complete cs d (length (wire d) - 4) Hd) as [H4 H5].
  rewrite complete_all in H3, H4, H5 by lia.
  exists (wire d). eexists. split; [exact H1|]. split; [exact H2|]. split; [exact H3|]. split; [exact H4 | exact H5].
Qed.

Lemma dict_wire_roundtrip_witness :
  let v := mk_data 2 (Some [0; 255]) GF_DATA_TYPE_PTR in
  let w := mk_data 0 (Some []) GF_DATA_TYPE_STR in
  let d := snd (run_op true (snd (run_op true dict_new (Op_set true true [97; 98] v))) (Op_set true true [99] w)) in
  exists buf d',
  dict_allocate_and_serialize true d = SER_OK buf /\
  dict_unserialize true (fun _ => mem_all) buf dict_new = UNSER 0 d' /\ to_map d' = retype <$> to_map d.
Proof.
  intros v w d. destruct (dict_wire_roundtrip true d) as (buf & d' & _ & H1 & H2 & _ & H3).
  - unfold d. repeat (apply Reach_op; [|discriminate]). apply Reach_new.
  - constructor; [|constructor; [|constructor]]; split.
    + repeat constructor; discriminate.
    + exists []. split; reflexivity.
    + repeat constructor; discriminate.
    + exists [0; 255]. split; reflexivity.
  - vm_compute. reflexivity.
  - exists buf, d'. auto.
Defined.

(** C26: what [dict_unserialize] makes of a serialized dictionary that is cut
    short.  Nothing is read outside of the buffer; the result has exactly the
    entries that are complete; the cut is reported when no entry is complete,
    and 0 is returned when at least one is. *)
Theorem dict_truncated cs d t :
  dict_reach cs d -> Forall pair_wire (members_list d) -> Z.of_nat (length (wire d)) < 2 ^ 31 ->
  (t < length (wire d))%nat ->
  let l := complete (t - 4) (members_list d) in
  exists d',
  dict_unserialize cs (fun _ => mem_all) (take t (wire d)) dict_new =
    UNSER (match l with [] => -1 | _ => 0 end) d' /\
  dict_ok cs d' /\ to_map d' = retype <$> (list_to_map (map kv l) : gmap (list Z) data_t).
Proof.
  intros Hr Hw Hs Ht l. pose proof (reach_ok cs d Hr) as Hd.
  assert (Hl : length (wire d) = (4 + sum_list_with entry_size (members_list d))%nat)
    by (unfold wire; rewrite length_app, length_body; reflexivity).
  destruct (le_lt_dec 4 t) as [Hle|Hlt].
  - pose proof (unserialize_prefix cs d t Hd Hw Hs Hle) as H. cbv zeta in H. fold l in H. unfold read_ret in H. fold l in H.
    rewrite (proj2 (Nat.leb_gt _ _)) in H by lia. eexists. split; [exact H|].
    destruct (read_complete cs d (t - 4) Hd) as [H1 H2]. auto.
  - assert (El : l = []).
    { unfold l. replace (t - 4)%nat with O by lia. destruct (members_list d); reflexivity. }
    rewrite El. exists dict_new. split; [|split; [apply dict_new_ok | reflexivity]].
    unfold dict_unserialize, size_of. rewrite length_take.
    destruct (_ =? 0); [reflexivity|]. unfold DICT_HDR_LEN. rewrite (proj2 (Z.ltb_lt _ _)) by lia. reflexivity.
Qed.

(** Two entries, the last byte missing: the second is dropped and 0 returned. *)
Lemma dict_truncated_witness :
  let v := mk_data 2 (Some [0; 255]) GF_DATA_TYPE_PTR in
  let d := snd (run_op true (snd (run_op true dict_new (Op_set true true [97; 98] v))) (Op_set true true [99] v)) in
  exists d',
  dict_unserialize true (fun _ => mem_all) (take 28 (wire d)) dict_new = UNSER 0 d' /\
  length (wire d) = 29%nat /\ to_map d' !! [99] = Some (retype v) /\ to_map d' !! [97; 98] = None.
Proof.
  intros v d. destruct (dict_truncated true d 28) as (d' & H1 & _ & H2).
  - unfold d. repeat (apply Reach_op; [|discriminate]). apply Reach_new.
  - constructor; [|constructor; [|constructor]]; split.
    + repeat constructor; discriminate.
    + exists [0; 255]. split; reflexivity.
    + repeat constructor; discriminate.
    + exists [0; 255]. split; reflexivity.
  - vm_compute. reflexivity.
  - vm_compute. lia.
  - exists d'. split; [exact H1|]. rewrite H2. vm_compute. repeat split.
Defined.

(** ** Where the code departs *)

(** Lengths from the wire are not checked for their sign, and the key is not
    checked for its NUL: the copy of a value starts before the buffer, and the
    length of a key is counted past its end. *)
Lemma hostile_lengths_undefined :
  dict_unserialize true (fun _ => mem_all) ([0; 0; 0; 1] ++ [255; 255; 255; 156] ++ [0; 0; 0; 4]) dict_new = UNSER_UNDEF /\
  dict_unserialize true (fun _ => mem_all) ([0; 0; 0; 1] ++ [0; 0; 0; 1] ++ [0; 0; 0; 0] ++ [97; 98]) dict_new = UNSER_UNDEF.
Proof. vm_compute. split; reflexivity. Qed.

(** An empty dictionary is equal to none, and none is not equal to it. *)
Lemma equal_to_null_asymmetric :
  are_dicts_equal true (Some dict_new) None None None = true /\
  are_dicts_equal true None (Some dict_new) None None = false.
Proof. split; reflexivity. Qed.
