(* ===== verification/WriteBehind.v ===== *)
(** * Write-behind

    Models the engine of [xlators/performance/write-behind/src/write-behind.c]:
    writes are acknowledged before they reach the server, small ones are
    collapsed, and requests that depend on them are held back.

    A request is known by a number, which is never used again.  The lists of an
    inode are lists of these numbers.  The links [winds] join the requests of one
    write to the server in a ring; before that, [winds] and [unwinds] link the
    local lists of a running [wb_process_queue], which are part of the state
    here ([calls]) since freeing a request takes it out of them.  A freed
    request is no longer in [reqs].

    Each function of the code that takes the lock of the inode is one step; what
    is done without the lock is a step for each request.  The child translator
    answers with any result at any later step. *)

From S2P Require Import Prelude.
From stdpp Require Import gmap.
Open Scope Z_scope.

Definition MAX_VECTOR_COUNT : nat := 8.
Definition ULLONG_MAX : Z := 2 ^ 64 - 1.
Definition ENOMEM : Z := 12.

(** What the engine uses of [wb_conf_t], and [ctx->page_size]. *)
Record wb_conf := mk_conf {
  aggregate_size : Z;
  window_size : Z;
  trickling_writes : bool;
  strict_write_ordering : bool;
  resync_after_fsync : bool;
  page_size : Z
}.

Inductive glusterfs_fop :=
| GF_FOP_WRITE | GF_FOP_READ | GF_FOP_TRUNCATE | GF_FOP_FTRUNCATE | GF_FOP_FLUSH | GF_FOP_FSYNC | GF_FOP_OTHER.

#[global] Instance glusterfs_fop_eq_dec : EqDecision glusterfs_fop.
Proof. solve_decision. Defined.

(** The arguments of a fop that are used: [args.fd] and whether it is opened
    with O_APPEND, [args.offset], [args.size] of a read, [args.vector], and the
    lock owner of the frame. *)
Record call_stub := mk_stub {
  sfop : glusterfs_fop;
  sfd : option nat;
  sappend : bool;
  soffset : Z;
  ssize : Z;
  svector : list (list Z);
  sowner : Z
}.

Record ordering_t := mk_ordering {
  o_size : Z;
  o_off : Z;
  append : bool;
  tempted : bool;
  lied : bool;
  fulfilled : bool;
  go : bool
}.

Record wb_request := mk_request {
  stub : call_stub;
  write_size : Z;
  orig_size : Z;
  total_size : Z;
  op_ret : Z;
  op_errno : Z;
  refcount : Z;
  rgen : Z;
  wind_count : Z;
  ordering : ordering_t
}.

(** The local lists of a running [wb_process_queue]. *)
Record call := mk_call { lies : list nat; tasks : list nat; liabilities : list nat }.

Record wb_inode := mk_inode {
  window_conf : Z;
  window_current : Z;
  transit : Z;
  all : list nat;
  todo : list nat;
  liability : list nat;
  temptation : list nat;
  wip : list nat;
  gen : Z;
  isize : Z;
  dontsync : Z;
  reqs : gmap nat wb_request;
  rings : list (list nat);
  calls : list call;
  next_id : nat
}.

(** ** Fields *)

Definition set_stub v r := mk_request v (write_size r) (orig_size r) (total_size r) (op_ret r) (op_errno r)
  (refcount r) (rgen r) (wind_count r) (ordering r).
Definition set_write_size v r := mk_request (stub r) v (orig_size r) (total_size r) (op_ret r) (op_errno r)
  (refcount r) (rgen r) (wind_count r) (ordering r).
Definition set_total_size v r := mk_request (stub r) (write_size r) (orig_size r) v (op_ret r) (op_errno r)
  (refcount r) (rgen r) (wind_count r) (ordering r).
Definition set_op ret errno r := mk_request (stub r) (write_size r) (orig_size r) (total_size r) ret errno
  (refcount r) (rgen r) (wind_count r) (ordering r).
Definition set_refcount v r := mk_request (stub r) (write_size r) (orig_size r) (total_size r) (op_ret r) (op_errno r)
  v (rgen r) (wind_count r) (ordering r).
Definition incr_wind_count r := mk_request (stub r) (write_size r) (orig_size r) (total_size r) (op_ret r) (op_errno r)
  (refcount r) (rgen r) (wind_count r + 1) (ordering r).
Definition set_ordering v r := mk_request (stub r) (write_size r) (orig_size r) (total_size r) (op_ret r) (op_errno r)
  (refcount r) (rgen r) (wind_count r) v.
Definition o_set_lied v o := mk_ordering (o_size o) (o_off o) (append o) (tempted o) v (fulfilled o) (go o).
Definition o_set_fulfilled v o := mk_ordering (o_size o) (o_off o) (append o) (tempted o) (lied o) v (go o).
Definition o_set_go v o := mk_ordering (o_size o) (o_off o) (append o) (tempted o) (lied o) (fulfilled o) v.
Definition o_grow n o := mk_ordering (o_size o + n) (o_off o) (append o) (tempted o) (lied o) (fulfilled o) (go o).

Section fields.
Context (i : wb_inode).
Definition set_window (cur tr : Z) := mk_inode (window_conf i) cur tr (all i) (todo i) (liability i) (temptation i)
  (wip i) (gen i) (isize i) (dontsync i) (reqs i) (rings i) (calls i) (next_id i).
Definition set_todo v := mk_inode (window_conf i) (window_current i) (transit i) (all i) v (liability i) (temptation i)
  (wip i) (gen i) (isize i) (dontsync i) (reqs i) (rings i) (calls i) (next_id i).
Definition set_lie (li te : list nat) := mk_inode (window_conf i) (window_current i) (transit i) (all i) (todo i) li te
  (wip i) (gen i) (isize i) (dontsync i) (reqs i) (rings i) (calls i) (next_id i).
Definition set_wip v := mk_inode (window_conf i) (window_current i) (transit i) (all i) (todo i) (liability i)
  (temptation i) v (gen i) (isize i) (dontsync i) (reqs i) (rings i) (calls i) (next_id i).
Definition set_gen v := mk_inode (window_conf i) (window_current i) (transit i) (all i) (todo i) (liability i)
  (temptation i) (wip i) v (isize i) (dontsync i) (reqs i) (rings i) (calls i) (next_id i).
Definition set_isize v := mk_inode (window_conf i) (window_current i) (transit i) (all i) (todo i) (liability i)
  (temptation i) (wip i) (gen i) v (dontsync i) (reqs i) (rings i) (calls i) (next_id i).
Definition set_dontsync v := mk_inode (window_conf i) (window_current i) (transit i) (all i) (todo i) (liability i)
  (temptation i) (wip i) (gen i) (isize i) v (reqs i) (rings i) (calls i) (next_id i).
Definition set_reqs v := mk_inode (window_conf i) (window_current i) (transit i) (all i) (todo i) (liability i)
  (temptation i) (wip i) (gen i) (isize i) (dontsync i) v (rings i) (calls i) (next_id i).
Definition set_rings v := mk_inode (window_conf i) (window_current i) (transit i) (all i) (todo i) (liability i)
  (temptation i) (wip i) (gen i) (isize i) (dontsync i) (reqs i) v (calls i) (next_id i).
Definition set_calls v := mk_inode (window_conf i) (window_current i) (transit i) (all i) (todo i) (liability i)
  (temptation i) (wip i) (gen i) (isize i) (dontsync i) (reqs i) (rings i) v (next_id i).
(** A member of a request is written. *)
Definition upd (id : nat) (f : wb_request -> wb_request) := set_reqs (alter f id (reqs i)).
Definition upd_ordering (id : nat) (f : ordering_t -> ordering_t) :=
  upd id (fun r => set_ordering (f (ordering r)) r).
End fields.

(** [list_del_init]. *)
Definition list_del (id : nat) (l : list nat) : list nat := filter (fun x => x <> id) l.

(** ** Conflicts *)

(** Last byte of a range, in 64 bits. *)
Definition range_end (r : wb_request) : Z :=
  if o_size (ordering r) =? 0 then ULLONG_MAX else (o_off (ordering r) + o_size (ordering r) - 1) mod 2 ^ 64.

Definition wb_requests_overlap (req1 req2 : wb_request) : bool :=
  (o_off (ordering req2) <=? range_end req1) && (o_off (ordering req1) <=? range_end req2).

(** The request [lie] against [req], which is another one. *)
Definition wb_requests_conflict (conf : wb_conf) (lie req : wb_request) : bool :=
  if rgen req <=? rgen lie then false
  else if match sfd (stub req) with
          | Some fd => negb (bool_decide (sfd (stub lie) = Some fd))
          | None => false
          end then false
  else if append (ordering lie) then true
  else if strict_write_ordering conf then true
  else wb_requests_overlap lie req.

Fixpoint liability_conflict (conf : wb_conf) (rs : gmap nat wb_request) (l : list nat) (id : nat) (req : wb_request)
    : option nat :=
  match l with
  | [] => None
  | each :: l =>
      match rs !! each with
      | Some e =>
          if negb (each =? id)%nat && wb_requests_conflict conf e req && negb (fulfilled (ordering e)) then Some each
          else liability_conflict conf rs l id req
      | None => liability_conflict conf rs l id req
      end
  end.

Definition wb_liability_has_conflict (conf : wb_conf) (i : wb_inode) (id : nat) (req : wb_request) : option nat :=
  liability_conflict conf (reqs i) (liability i) id req.

Fixpoint wip_conflict (rs : gmap nat wb_request) (l : list nat) (id : nat) (req : wb_request) : option nat :=
  match l with
  | [] => None
  | each :: l =>
      match rs !! each with
      | Some e =>
          if negb (each =? id)%nat && wb_requests_overlap e req then Some each else wip_conflict rs l id req
      | None => wip_conflict rs l id req
      end
  end.

Definition wb_wip_has_conflict (i : wb_inode) (id : nat) (req : wb_request) : option nat :=
  if bool_decide (sfop (stub req) = GF_FOP_WRITE) then wip_conflict (reqs i) (wip i) id req else None.

(** ** References *)

(** The last reference is gone: the request leaves all the lists, and with the
    last request the generation and the window start again. *)
Definition destroy (i : wb_inode) (id : nat) : wb_inode :=
  let all' := list_del id (all i) in
  let empty := match all' with [] => true | _ => false end in
  mk_inode (window_conf i) (if empty then 0 else window_current i) (transit i) all' (list_del id (todo i))
    (list_del id (liability i)) (list_del id (temptation i)) (list_del id (wip i)) (if empty then 0 else gen i)
    (isize i) (dontsync i) (delete id (reqs i)) (map (list_del id) (rings i))
    (map (fun c => mk_call (list_del id (lies c)) (list_del id (tasks c)) (list_del id (liabilities c))) (calls i))
    (next_id i).

Definition __wb_request_unref (i : wb_inode) (id : nat) : wb_inode :=
  match reqs i !! id with
  | None => i
  | Some r =>
      if refcount r <=? 0 then i
      else
        let i := upd i id (set_refcount (refcount r - 1)) in
        if refcount r - 1 =? 0 then destroy i id else i
  end.

Definition __wb_request_ref (i : wb_inode) (id : nat) : wb_inode :=
  upd i id (fun r => if refcount r <? 0 then r else set_refcount (refcount r + 1) r).

(** ** Arrival *)

Definition iov_length (v : list (list Z)) : Z := Z.of_nat (length (concat v)).

(** The range of a request, and the new size of the file. *)
Definition arrival_range (s : call_stub) (wsize isize : Z) : Z * Z * Z :=
  match sfop s with
  | GF_FOP_WRITE =>
      let '(off, size) := if isize <? soffset s then (isize, soffset s + wsize - isize) else (soffset s, wsize) in
      (off, size, if isize <? soffset s + wsize then soffset s + wsize else isize)
  | GF_FOP_READ => (soffset s, ssize s, isize)
  | GF_FOP_TRUNCATE | GF_FOP_FTRUNCATE => (soffset s, 0, soffset s)
  | _ => (0, 0, isize)
  end.

(** [wb_enqueue_common] when memory is there. *)
Definition wb_enqueue_common (i : wb_inode) (s : call_stub) (tempt : bool) : wb_inode :=
  let write := bool_decide (sfop s = GF_FOP_WRITE) in
  let wsize := if write then iov_length (svector s) else 0 in
  let '(off, size, isz) := arrival_range s wsize (isize i) in
  let o := mk_ordering size off (write && sappend s) tempt false false false in
  let refs := if tempt then 2 else 1 in
  let r := mk_request s wsize wsize 0 wsize 0 refs (gen i) 0 o in
  let id := next_id i in
  mk_inode (window_conf i) (window_current i) (transit i) (all i ++ [id]) (todo i ++ [id]) (liability i)
    (if tempt then temptation i ++ [id] else temptation i) (wip i) (gen i) isz (dontsync i)
    (<[id := r]> (reqs i)) (rings i) (calls i) (S id).

(** ** Answers of the server *)

(** The other requests of a ring, in order, seen from one of them. *)
Fixpoint ring_rest (rs : list (list nat)) (id : nat) : list nat :=
  match rs with
  | [] => []
  | r :: rs =>
      match list_find (fun x => x = id) r with
      | Some (k, _) => drop (S k) r ++ take k r
      | None => ring_rest rs id
      end
  end.

Definition __wb_fulfill_request (i : wb_inode) (id : nat) : wb_inode :=
  match reqs i !! id with
  | None => i
  | Some r =>
      let i := upd_ordering i id (o_set_fulfilled true) in
      let i := set_window i (window_current i - total_size r) (transit i - total_size r) in
      let i := if lied (ordering r) then set_lie i (list_del id (liability i)) (list_del id (temptation i)) else i in
      __wb_request_unref i id
  end.

(** The first flush or fsync of the same fd that arrived later. *)
Fixpoint waiting_on (rs : gmap nat wb_request) (l : list nat) (req : wb_request) : option nat :=
  match l with
  | [] => None
  | trav :: l =>
      match rs !! trav with
      | Some t =>
          if bool_decide (sfd (stub t) = sfd (stub req))
             && (bool_decide (sfop (stub t) = GF_FOP_FLUSH) || bool_decide (sfop (stub t) = GF_FOP_FSYNC))
             && (rgen req <=? rgen t)
          then Some trav else waiting_on rs l req
      | None => waiting_on rs l req
      end
  end.

Definition __wb_request_waiting_on (i : wb_inode) (req : wb_request) : option nat := waiting_on (reqs i) (todo i) req.

Definition __wb_add_request_for_retry (i : wb_inode) (id : nat) : wb_inode :=
  match reqs i !! id with
  | None => i
  | Some r =>
      let i := set_window i (window_current i) (transit i - total_size r) in
      let i := upd i id (set_total_size 0) in
      let i := set_rings i (map (list_del id) (rings i)) in
      let i := set_wip i (list_del id (wip i)) in
      let i := upd_ordering i id (o_set_go false) in
      set_todo i (id :: list_del id (todo i))
  end.

Definition __wb_add_head_for_retry (i : wb_inode) (head : nat) : wb_inode :=
  __wb_add_request_for_retry (foldl __wb_add_request_for_retry i (reverse (ring_rest (rings i) head))) head.

Definition __wb_fulfill_request_err (conf : wb_conf) (i : wb_inode) (id : nat) (errno : Z) : wb_inode :=
  match reqs i !! id with
  | None => i
  | Some r =>
      let i := upd i id (set_op (-1) errno) in
      let waiter := if lied (ordering r) then __wb_request_waiting_on i r else None in
      match lied (ordering r), waiter with
      | false, _ => __wb_fulfill_request i id
      | true, Some w =>
          let i := upd i w (set_op (-1) errno) in
          if match reqs i !! w with
             | Some wr => bool_decide (sfop (stub wr) = GF_FOP_FLUSH)
                          || (bool_decide (sfop (stub wr) = GF_FOP_FSYNC) && negb (resync_after_fsync conf))
             | None => false
             end
          then __wb_fulfill_request i id else __wb_add_request_for_retry i id
      | true, None => __wb_add_request_for_retry i id
      end
  end.

Definition wb_head_done (i : wb_inode) (head : nat) : wb_inode :=
  __wb_fulfill_request (foldl __wb_fulfill_request i (ring_rest (rings i) head)) head.

Definition __wb_fulfill_err (conf : wb_conf) (i : wb_inode) (head : nat) (errno : Z) : wb_inode :=
  let i := set_dontsync i (dontsync i + 1) in
  let i := foldl (fun i id => __wb_fulfill_request_err conf i id errno) i (reverse (ring_rest (rings i) head)) in
  __wb_fulfill_request_err conf i head errno.

(** [iov_subset] from [n] bytes on, in place. *)
Fixpoint iov_skip (n : nat) (v : list (list Z)) : list (list Z) :=
  match v with
  | [] => []
  | b :: v => if (length b <? n)%nat then iov_skip (n - length b) v else drop n b :: v
  end.

Definition __wb_modify_write_request (i : wb_inode) (id : nat) (synced : Z) : wb_inode :=
  if synced =? 0 then i
  else
    upd i id (fun r =>
      let s := stub r in
      set_write_size (write_size r - synced)
        (set_stub (mk_stub (sfop s) (sfd s) (sappend s) (soffset s + synced) (ssize s)
                     (iov_skip (Z.to_nat synced) (svector s)) (sowner s)) r)).

(** What is accounted for, and whether the request is done. *)
Definition __wb_fulfill_short_write (i : wb_inode) (id : nat) (size : Z) : wb_inode * Z * bool :=
  match reqs i !! id with
  | None => (i, 0, false)
  | Some r =>
      if write_size r <=? size then (__wb_fulfill_request i id, write_size r, true)
      else (__wb_modify_write_request i id size, size, false)
  end.

(** The loop over the ring; gives the request the retry starts from, which is
    the head when the loop comes to its end. *)
Fixpoint short_loop (i : wb_inode) (l : list nat) (size : Z) (head : nat) : wb_inode * nat :=
  match l with
  | [] => (i, head)
  | id :: l =>
      let '(i, accounted, done) := __wb_fulfill_short_write i id size in
      let size := size - accounted in
      if size =? 0 then (i, match l with next :: _ => if done then next else id | [] => id end)
      else short_loop i l size head
  end.

(** The part of [wb_fulfill_short_write] under the lock; gives the request the
    retry starts from. *)
Definition short_account (i : wb_inode) (head : nat) (size : Z) : wb_inode * nat :=
  let i := __wb_request_ref i head in
  let rest := ring_rest (rings i) head in
  let '(i, accounted, done) := __wb_fulfill_short_write i head size in
  let size := size - accounted in
  let '(i, req) :=
    if size =? 0 then (i, match rest with next :: _ => if done then next else head | [] => head end)
    else short_loop i rest size head in
  (__wb_request_unref i head, req).

Definition wb_fulfill_short_write (i : wb_inode) (head : nat) (size : Z) : wb_inode :=
  let '(i, req) := short_account i head size in __wb_add_head_for_retry i req.

(** [wb_fulfill_cbk] without the call of [wb_process_queue]; [ret] is compared as
    an unsigned number. *)
Definition wb_fulfill_cbk (conf : wb_conf) (i : wb_inode) (head : nat) (ret errno : Z) : wb_inode :=
  match reqs i !! head with
  | None => i
  | Some h =>
      if ret =? -1 then __wb_fulfill_err conf i head errno
      else if ret mod 2 ^ 64 <? total_size h then wb_fulfill_short_write i head ret
      else wb_head_done i head
  end.

(** ** Going out *)

(** What is seen from outside: the reply to a write, the failure of a request,
    a request passed on, the write of a group of requests (the offset, the data,
    and the requests), and a write whose vectors do not fit the array they are
    loaded into. *)
Inductive event :=
| Ev_unwind (id : nat) (ret errno : Z)
| Ev_error (id : nat) (ret errno : Z)
| Ev_resume (id : nat)
| Ev_writev (ids : list nat) (offset : Z) (data : list Z)
| Ev_overflow (ids : list nat).

Definition vector_of (i : wb_inode) (id : nat) : list (list Z) :=
  match reqs i !! id with Some r => svector (stub r) | None => [] end.
Definition write_size_of (i : wb_inode) (id : nat) : Z :=
  match reqs i !! id with Some r => write_size r | None => 0 end.

(** [frame_ok]: the frame can be created and the buffers merged. *)
Definition wb_fulfill_head (conf : wb_conf) (frame_ok : bool) (i : wb_inode) (head : nat) : wb_inode * Z * list event :=
  match reqs i !! head with
  | None => (i, 0, [])
  | Some h =>
      let ids := head :: ring_rest (rings i) head in
      let vectors := concat (map (vector_of i) ids) in
      let total := total_size h + foldr Z.add 0 (map (write_size_of i) ids) in
      let i := upd i head (set_total_size total) in
      if (MAX_VECTOR_COUNT <? length vectors)%nat then (i, 0, [Ev_overflow ids])
      else if frame_ok then
        (set_window i (window_current i) (transit i + total), 0, [Ev_writev ids (soffset (stub h)) (concat vectors)])
      else (__wb_fulfill_err conf i head ENOMEM, ENOMEM, [])
  end.

(** The state of the loop of [wb_fulfill]: the head, the expected offset, the
    sizes and vectors behind the head, and what [wb_fulfill_head] returned. *)
Record fulfill_state := mk_fs {
  fs_inode : wb_inode;
  fs_head : option nat;
  fs_expected : Z;
  fs_aggregate : Z;
  fs_vectors : nat;
  fs_ret : Z;
  fs_events : list event
}.

Definition fs_flush (conf : wb_conf) (frame_ok : nat -> bool) (s : fulfill_state) : wb_inode * Z * list event :=
  match fs_head s with
  | Some h =>
      let '(i, ret, ev) := wb_fulfill_head conf (frame_ok h) (fs_inode s) h in
      (i, Z.lor (fs_ret s) ret, fs_events s ++ ev)
  | None => (fs_inode s, fs_ret s, fs_events s)
  end.

(** NEXT_HEAD. *)
Definition next_head (conf : wb_conf) (frame_ok : nat -> bool) (s : fulfill_state) (id : nat) (r : wb_request)
    : fulfill_state :=
  let '(i, ret, ev) := fs_flush conf frame_ok s in
  mk_fs i (Some id) (soffset (stub r) + write_size r) 0 0 ret ev.

Definition add_to_ring (rs : list (list nat)) (head id : nat) : list (list nat) :=
  map (fun r => if bool_decide (head ∈ r) then r ++ [id] else r) rs.

Definition fulfill_step (conf : wb_conf) (frame_ok : nat -> bool) (s : fulfill_state) (id : nat) : fulfill_state :=
  match reqs (fs_inode s) !! id with
  | None => s
  | Some r =>
      match fs_head s with
      | None =>
          let s := next_head conf frame_ok s id r in
          mk_fs (set_rings (fs_inode s) ([id] :: rings (fs_inode s))) (fs_head s) (fs_expected s) (fs_aggregate s)
            (fs_vectors s) (fs_ret s) (fs_events s)
      | Some h =>
          let hr := default r (reqs (fs_inode s) !! h) in
          if negb (bool_decide (sfd (stub r) = sfd (stub hr)))
             || negb (sowner (stub r) =? sowner (stub hr))
             || negb (fs_expected s =? soffset (stub r))
             || (aggregate_size conf <? fs_aggregate s + write_size r)
             || (MAX_VECTOR_COUNT <? fs_vectors s + length (svector (stub r)))%nat
          then
            let s := next_head conf frame_ok s id r in
            mk_fs (set_rings (fs_inode s) ([id] :: rings (fs_inode s))) (fs_head s) (fs_expected s) (fs_aggregate s)
              (fs_vectors s) (fs_ret s) (fs_events s)
          else
            mk_fs (set_rings (fs_inode s) (add_to_ring (rings (fs_inode s)) h id)) (Some h) (fs_expected s)
              (fs_aggregate s + write_size r) (fs_vectors s + length (svector (stub r))) (fs_ret s) (fs_events s)
      end
  end.

Definition wb_fulfill (conf : wb_conf) (frame_ok : nat -> bool) (i : wb_inode) (l : list nat)
    : wb_inode * Z * list event :=
  fs_flush conf frame_ok (foldl (fulfill_step conf frame_ok) (mk_fs i None 0 0 0 0 []) l).

(** ** Picking *)

(** One request of [__wb_pick_unwinds]. *)
Definition unwind_step (st : wb_inode * list nat) (id : nat) : wb_inode * list nat :=
  let '(i, l) := st in
  match reqs i !! id with
  | None => st
  | Some r =>
      if negb (fulfilled (ordering r)) && (window_conf i <? window_current i) then st
      else
        let i := set_lie i (list_del id (liability i)) (list_del id (temptation i)) in
        let i := set_window i (window_current i + orig_size r) (transit i) in
        let i :=
          if negb (fulfilled (ordering r)) then
            let i := set_lie i (liability i ++ [id]) (temptation i) in
            let i := upd_ordering i id (o_set_lied true) in
            set_gen i (gen i + 1)
          else i in
        (i, l ++ [id])
  end.

Definition __wb_pick_unwinds (i : wb_inode) : wb_inode * list nat := foldl unwind_step (i, []) (temptation i).

(** The data of [req] goes behind that of [holder], in one buffer.  The length
    of the first vector of the holder grows by the size of [req], whatever the
    other vectors held. *)
Definition __wb_collapse_small_writes (i : wb_inode) (holder : nat) (req : wb_request) : wb_inode :=
  upd i holder (fun h =>
    let s := stub h in
    let buffer := take (Z.to_nat (write_size h)) (concat (svector s)) ++ concat (svector (stub req)) in
    let iov_len := (length (default [] (head (svector s))) + Z.to_nat (write_size req))%nat in
    let h := set_stub (mk_stub (sfop s) (sfd s) (sappend s) (soffset s) (ssize s) [take iov_len buffer] (sowner s)) h in
    set_write_size (write_size h + write_size req) (set_ordering (o_grow (write_size req) (ordering h)) h)).

(** One request of [__wb_preprocess_winds]; [mem_ok]: the buffer for collapsing
    can be allocated. *)
Definition preprocess_step (conf : wb_conf) (mem_ok : nat -> bool) (st : wb_inode * option nat) (id : nat)
    : wb_inode * option nat :=
  let '(i, holder) := st in
  match reqs i !! id with
  | None => st
  | Some req =>
      if (0 <? dontsync i) && lied (ordering req) then st
      else if negb (tempted (ordering req)) then
        match holder with
        | Some h =>
            match reqs i !! h with
            | Some hr =>
                if wb_requests_conflict conf hr req then (upd_ordering i h (o_set_go true), holder) else st
            | None => st
            end
        | None => st
        end
      else
        match holder with
        | None => (i, Some id)
        | Some h =>
            match reqs i !! h with
            | None => st
            | Some hr =>
                if negb (soffset (stub req) =? soffset (stub hr) + write_size hr)
                   || negb (sowner (stub req) =? sowner (stub hr))
                   || negb (bool_decide (sfd (stub req) = sfd (stub hr)))
                   || (page_size conf - write_size hr <? write_size req)
                then (upd_ordering i h (o_set_go true), Some id)
                else if mem_ok h then
                  let i := __wb_collapse_small_writes i h req in
                  let i := set_todo i (list_del id (todo i)) in
                  (__wb_fulfill_request i id, holder)
                else st
            end
        end
  end.

Definition __wb_preprocess_winds (conf : wb_conf) (mem_ok : nat -> bool) (i : wb_inode) : wb_inode :=
  let '(i, holder) := foldl (preprocess_step conf mem_ok) (i, None) (todo i) in
  let i :=
    match holder with
    | Some h => if trickling_writes conf && (transit i =? 0) then upd_ordering i h (o_set_go true) else i
    | None => i
    end in
  if 0 <? dontsync i then set_dontsync i (dontsync i - 1) else i.

(** A request that conflicts with a liability that failed. *)
Definition __wb_handle_failed_conflict (conf : wb_conf) (st : wb_inode * list nat) (id : nat) (req : wb_request)
    (conflict : nat) : wb_inode * list nat :=
  let '(i, ts) := st in
  let fop := sfop (stub req) in
  if negb (bool_decide (fop = GF_FOP_FLUSH)) && (negb (bool_decide (fop = GF_FOP_FSYNC)) || resync_after_fsync conf)
  then
    if negb (lied (ordering req)) && negb (bool_decide (conflict ∈ wip i)) then
      let errno := match reqs i !! conflict with Some c => op_errno c | None => 0 end in
      let i := upd i id (set_op (-1) errno) in
      let i := set_todo i (list_del id (todo i)) in
      let ts := ts ++ [id] in
      if tempted (ordering req) then
        let i := set_lie i (list_del id (liability i)) (list_del id (temptation i)) in
        let i := __wb_fulfill_request i id in
        (i, if decide (is_Some (reqs i !! id)) then ts else list_del id ts)
      else (i, ts)
    else st
  else st.

(** One request of [__wb_pick_winds]. *)
Definition pick_step (conf : wb_conf) (st : wb_inode * list nat * list nat) (id : nat)
    : wb_inode * list nat * list nat :=
  let '(i, ts, ls) := st in
  match reqs i !! id with
  | None => st
  | Some req =>
      match wb_liability_has_conflict conf i id req with
      | Some c =>
          if match reqs i !! c with Some cr => op_ret cr =? -1 | None => false end
          then let '(i, ts) := __wb_handle_failed_conflict conf (i, ts) id req c in (i, ts, ls)
          else st
      | None =>
          if tempted (ordering req) && negb (go (ordering req)) then st
          else
            let write := bool_decide (sfop (stub req) = GF_FOP_WRITE) in
            match (if write then wb_wip_has_conflict i id req else None) with
            | Some _ => st
            | None =>
                let i :=
                  if write then
                    let i := set_wip i (wip i ++ [id]) in
                    let i := upd i id incr_wind_count in
                    if negb (tempted (ordering req)) then __wb_request_ref i id else i
                  else i in
                let i := set_todo i (list_del id (todo i)) in
                if tempted (ordering req) then (i, ts, ls ++ [id]) else (i, ts ++ [id], ls)
            end
      end
  end.

Definition __wb_pick_winds (conf : wb_conf) (i : wb_inode) : wb_inode * list nat * list nat :=
  foldl (pick_step conf) (i, [], []) (todo i).

(** What [wb_process_queue] does under the lock. *)
Definition wb_pick (conf : wb_conf) (mem_ok : nat -> bool) (i : wb_inode) : wb_inode * call :=
  let i := __wb_preprocess_winds conf mem_ok i in
  let '(i, ts, ls) := __wb_pick_winds conf i in
  let '(i, us) := __wb_pick_unwinds i in
  (i, mk_call us ts ls).

(** ** The rest of [wb_process_queue] *)

(** One request of [wb_do_unwinds]. *)
Definition wb_do_unwind (i : wb_inode) (id : nat) : wb_inode * list event :=
  match reqs i !! id with
  | None => (i, [])
  | Some r => (__wb_request_unref i id, [Ev_unwind id (op_ret r) (op_errno r)])
  end.

(** One request of [wb_do_winds]. *)
Definition wb_do_wind (i : wb_inode) (id : nat) : wb_inode * list event :=
  match reqs i !! id with
  | None => (i, [])
  | Some r =>
      (__wb_request_unref i id,
       [if op_ret r =? -1 then Ev_error id (op_ret r) (op_errno r) else Ev_resume id])
  end.

(** [wb_writev_cbk] without the call of [wb_process_queue]: the answer to a
    write that was passed on. *)
Definition wb_writev_cbk (i : wb_inode) (id : nat) : wb_inode := __wb_request_unref i id.

Definition wb_set_inode_size (i : wb_inode) (size : Z) : wb_inode := set_isize i size.

Definition __wb_inode_create (conf : wb_conf) : wb_inode :=
  mk_inode (window_size conf) 0 0 [] [] [] [] [] 0 0 0 ∅ [] [] 0.

(** ** Steps *)

Section steps.
Context (conf : wb_conf).

(** The requests that arrive: offsets and sizes of files, and no empty write. *)
Definition stub_ok (s : call_stub) : Prop :=
  0 <= soffset s /\
  match sfop s with
  | GF_FOP_WRITE => 0 < iov_length (svector s) /\ soffset s + iov_length (svector s) < 2 ^ 63
  | GF_FOP_READ => 0 <= ssize s /\ soffset s + ssize s < 2 ^ 63
  | _ => soffset s < 2 ^ 63
  end.

(** Steps of the threads that run in the translator for one inode: a request
    arrives (only a write can be tempted), and its range was taken from the size
    of the file at an earlier moment, since the lock is released in between; the
    part of [wb_process_queue] under the lock, at any time; a request of its
    local lists is unwound, then passed on, then the writes go out; an answer to
    a write, and to a write that was passed on, even for one that never went
    out (a short answer takes the lock twice, so it is also two steps of its
    own); the size is set.  [wb_fulfill] works on its own requests and is one
    step. *)
Inductive wb_step : wb_inode -> list event -> wb_inode -> Prop :=
| St_enqueue i s t size :
    stub_ok s -> (t = true -> sfop s = GF_FOP_WRITE) -> 0 <= size < 2 ^ 63 ->
    wb_step i [] (wb_enqueue_common (wb_set_inode_size i size) s t)
| St_pick i mem_ok i' c : wb_pick conf mem_ok i = (i', c) -> wb_step i [] (set_calls i' (c :: calls i'))
| St_unwind i cs id us ts ls cs' i' ev :
    calls i = cs ++ mk_call (id :: us) ts ls :: cs' ->
    wb_do_unwind (set_calls i (cs ++ mk_call us ts ls :: cs')) id = (i', ev) -> wb_step i ev i'
| St_wind i cs id ts ls cs' i' ev :
    calls i = cs ++ mk_call [] (id :: ts) ls :: cs' ->
    wb_do_wind (set_calls i (cs ++ mk_call [] ts ls :: cs')) id = (i', ev) -> wb_step i ev i'
| St_fulfill i cs ls cs' frame_ok i' ret ev :
    calls i = cs ++ mk_call [] [] ls :: cs' ->
    wb_fulfill conf frame_ok (set_calls i (cs ++ cs')) ls = (i', ret, ev) -> wb_step i ev i'
| St_fulfill_cbk i head ret errno : wb_step i [] (wb_fulfill_cbk conf i head ret errno)
| St_short i head size i' req : short_account i head size = (i', req) -> wb_step i [] i'
| St_retry i req : wb_step i [] (__wb_add_head_for_retry i req)
| St_writev_cbk i id : wb_step i [] (wb_writev_cbk i id)
| St_size i size : 0 <= size < 2 ^ 63 -> wb_step i [] (wb_set_inode_size i size).

(** Runs, with the events of each step. *)
Inductive wb_run : wb_inode -> list (list event) -> wb_inode -> Prop :=
| Run_nil i : wb_run i [] i
| Run_step i ev i' evs i'' : wb_step i ev i' -> wb_run i' evs i'' -> wb_run i (ev :: evs) i''.

Definition wb_reach (i : wb_inode) : Prop := exists evs, wb_run (__wb_inode_create conf) evs i.

(** ** [wb_process_queue] in one thread *)

(** The head of the stack of calls runs to its end. *)
Fixpoint run_unwinds (fuel : nat) (i : wb_inode) : wb_inode * list event :=
  match fuel, calls i with
  | S fuel, mk_call (id :: us) ts ls :: cs =>
      let '(i, ev) := wb_do_unwind (set_calls i (mk_call us ts ls :: cs)) id in
      let '(i, evs) := run_unwinds fuel i in (i, ev ++ evs)
  | _, _ => (i, [])
  end.

Fixpoint run_winds (fuel : nat) (i : wb_inode) : wb_inode * list event :=
  match fuel, calls i with
  | S fuel, mk_call us (id :: ts) ls :: cs =>
      let '(i, ev) := wb_do_wind (set_calls i (mk_call us ts ls :: cs)) id in
      let '(i, evs) := run_winds fuel i in (i, ev ++ evs)
  | _, _ => (i, [])
  end.

(** The loop is repeated while a write could not be sent; [fuel] bounds the
    repetitions. *)
Fixpoint wb_process_queue (fuel : nat) (mem_ok frame_ok : nat -> bool) (i : wb_inode) : wb_inode * list event :=
  match fuel with
  | O => (i, [])
  | S fuel =>
      let '(i, c) := wb_pick conf mem_ok i in
      let '(i, ev1) := run_unwinds (length (lies c)) (set_calls i (c :: calls i)) in
      let '(i, ev2) := run_winds (length (tasks c)) i in
      match calls i with
      | c :: cs =>
          let '(i, ret, ev3) := wb_fulfill conf frame_ok (set_calls i cs) (liabilities c) in
          let '(i, ev4) := if ret =? 0 then (i, []) else wb_process_queue fuel mem_ok frame_ok i in
          (i, ev1 ++ ev2 ++ ev3 ++ ev4)
      | [] => (i, ev1 ++ ev2)
      end
  end.

(** ** Handlers *)

(** What a handler does: pass the fop on, fail, or queue it. *)
Inductive outcome :=
| H_wind
| H_unwind (errno : Z)
| H_queued (i : wb_inode) (ev : list event).

(** Whether the stub and the request can be allocated, and the choices of
    [wb_process_queue]. *)
Record resources := mk_resources {
  stub_mem : bool;
  req_mem : bool;
  collapse_mem : nat -> bool;
  frame_mem : nat -> bool;
  retries : nat
}.

Definition EINVAL : Z := 22.
Definition O_DSYNC : Z := 4096.
Definition O_SYNC : Z := 1052672.
Definition O_DIRECT : Z := 16384.

Context (res : resources).

(** Stub, [wb_enqueue] or [wb_enqueue_tempted], [wb_process_queue]. *)
Definition enqueue_and_process (i : wb_inode) (s : call_stub) (tempt : bool) (errno : Z) : outcome :=
  if stub_mem res && req_mem res then
    let '(i, ev) := wb_process_queue (retries res) (collapse_mem res) (frame_mem res) (wb_enqueue_common i s tempt) in
    H_queued i ev
  else H_unwind errno.

(** [ctx] is the context of the inode, if there is one; [created] the one that
    [wb_inode_create] gives. *)
Definition queued_or_wind (ctx : option wb_inode) (s : call_stub) (errno : Z) : outcome :=
  match ctx with
  | Some i => enqueue_and_process i s false errno
  | None => H_wind
  end.

Definition wb_disabled (strict_O_DIRECT : bool) (fd_flags flags : Z) : bool :=
  let o_direct := if strict_O_DIRECT then O_DIRECT else 0 in
  let mask := Z.lor (Z.lor O_SYNC O_DSYNC) o_direct in
  negb (Z.land fd_flags mask =? 0) || negb (Z.land flags mask =? 0).

Definition wb_writev (created : option wb_inode) (strict_O_DIRECT : bool) (fd_flags flags : Z) (s : call_stub) : outcome :=
  match created with
  | None => H_unwind ENOMEM
  | Some i => enqueue_and_process i s (negb (wb_disabled strict_O_DIRECT fd_flags flags)) ENOMEM
  end.

Definition wb_readv (ctx : option wb_inode) (fd : nat) (size offset owner : Z) : outcome :=
  queued_or_wind ctx (mk_stub GF_FOP_READ (Some fd) false offset size [] owner) ENOMEM.
Definition wb_flush (ctx : option wb_inode) (fd : nat) (owner : Z) : outcome :=
  queued_or_wind ctx (mk_stub GF_FOP_FLUSH (Some fd) false 0 0 [] owner) ENOMEM.
Definition wb_fsync (ctx : option wb_inode) (fd : nat) (owner : Z) : outcome :=
  queued_or_wind ctx (mk_stub GF_FOP_FSYNC (Some fd) false 0 0 [] owner) EINVAL.
Definition wb_stat (ctx : option wb_inode) (owner : Z) : outcome :=
  queued_or_wind ctx (mk_stub GF_FOP_OTHER None false 0 0 [] owner) ENOMEM.
Definition wb_fstat (ctx : option wb_inode) (fd : nat) (owner : Z) : outcome :=
  queued_or_wind ctx (mk_stub GF_FOP_OTHER (Some fd) false 0 0 [] owner) ENOMEM.
Definition wb_setattr (ctx : option wb_inode) (owner : Z) : outcome :=
  queued_or_wind ctx (mk_stub GF_FOP_OTHER None false 0 0 [] owner) ENOMEM.
Definition wb_fsetattr (ctx : option wb_inode) (fd : nat) (owner : Z) : outcome :=
  queued_or_wind ctx (mk_stub GF_FOP_OTHER (Some fd) false 0 0 [] owner) ENOMEM.
Definition wb_lookup (ctx : option wb_inode) (owner : Z) : outcome :=
  queued_or_wind ctx (mk_stub GF_FOP_OTHER None false 0 0 [] owner) ENOMEM.
Definition wb_link (ctx : option wb_inode) (owner : Z) : outcome :=
  queued_or_wind ctx (mk_stub GF_FOP_OTHER None false 0 0 [] owner) ENOMEM.
Definition wb_fallocate (ctx : option wb_inode) (fd : nat) (owner : Z) : outcome :=
  queued_or_wind ctx (mk_stub GF_FOP_OTHER (Some fd) false 0 0 [] owner) ENOMEM.
Definition wb_discard (ctx : option wb_inode) (fd : nat) (owner : Z) : outcome :=
  queued_or_wind ctx (mk_stub GF_FOP_OTHER (Some fd) false 0 0 [] owner) ENOMEM.
Definition wb_zerofill (ctx : option wb_inode) (fd : nat) (owner : Z) : outcome :=
  queued_or_wind ctx (mk_stub GF_FOP_OTHER (Some fd) false 0 0 [] owner) ENOMEM.

Definition wb_truncate (created : option wb_inode) (offset owner : Z) : outcome :=
  match created with
  | None => H_unwind ENOMEM
  | Some i => enqueue_and_process i (mk_stub GF_FOP_TRUNCATE None false offset 0 [] owner) false ENOMEM
  end.
Definition wb_ftruncate (created : option wb_inode) (fd : nat) (offset owner : Z) : outcome :=
  match created with
  | None => H_unwind ENOMEM
  | Some i => enqueue_and_process i (mk_stub GF_FOP_FTRUNCATE (Some fd) false offset 0 [] owner) false ENOMEM
  end.

(** The callback of lookup, truncate and ftruncate. *)
Definition size_cbk (i : wb_inode) (op_ret ia_size : Z) : wb_inode :=
  if op_ret =? 0 then wb_set_inode_size i ia_size else i.

(** [wb_open] and [wb_create]: the size of a file that is truncated. *)
Definition O_WRONLY : Z := 1.
Definition O_RDWR : Z := 2.
Definition O_TRUNC : Z := 512.
Definition wb_open (i : wb_inode) (flags : Z) : wb_inode :=
  if (negb (Z.land flags O_RDWR =? 0) || negb (Z.land flags O_WRONLY =? 0)) && negb (Z.land flags O_TRUNC =? 0)
  then wb_set_inode_size i 0 else i.

(** [wb_readdirp_cbk] for one entry of a regular file: whether its attributes
    are kept. *)
Definition readdirp_keeps (ctx : option wb_inode) : bool :=
  match ctx with
  | Some i => match liability i with [] => true | _ => false end
  | None => true
  end.
End steps.
