(* ===== verification/WriteBehindInv.v ===== *)
(** * Write-behind: what every step keeps

    The invariant [Inv] of an inode and the relation [calm] between the states
    before and after an operation, for every operation of [WriteBehind]. *)

From S2P Require Import Prelude WriteBehind.
From stdpp Require Import gmap.
Open Scope Z_scope.

(** How a request changes while it lives: its range only grows at its end. *)
Record grown (r r' : wb_request) : Prop := {
  gr_fop : sfop (stub r') = sfop (stub r);
  gr_fd : sfd (stub r') = sfd (stub r);
  gr_gen : rgen r' = rgen r;
  gr_append : append (ordering r') = append (ordering r);
  gr_tempted : tempted (ordering r') = tempted (ordering r);
  gr_off : o_off (ordering r') = o_off (ordering r);
  gr_size : o_size (ordering r) <= o_size (ordering r');
  gr_fixed : sfop (stub r) <> GF_FOP_WRITE -> o_size (ordering r') = o_size (ordering r);
  gr_lied : lied (ordering r) = true -> lied (ordering r') = true;
  gr_failed : op_ret r = -1 -> op_ret r' = -1
}.

(** The range of a write ends where its data ends. *)
Record req_ok (r : wb_request) : Prop := {
  ok_tempted : tempted (ordering r) = true -> sfop (stub r) = GF_FOP_WRITE;
  ok_size : sfop (stub r) = GF_FOP_WRITE -> 0 < o_size (ordering r);
  ok_wsize : sfop (stub r) = GF_FOP_WRITE -> 0 < write_size r;
  ok_off : 0 <= o_off (ordering r);
  ok_end : sfop (stub r) = GF_FOP_WRITE ->
    o_off (ordering r) + o_size (ordering r) = soffset (stub r) + write_size r /\
    soffset (stub r) + write_size r < 2 ^ 63
}.

Record Inv (i : wb_inode) : Prop := {
  inv_lists id : id ∈ todo i \/ id ∈ liability i \/ id ∈ temptation i \/ id ∈ wip i -> id ∈ all i;
  inv_dom id : id ∈ all i <-> is_Some (reqs i !! id);
  inv_fresh id : id ∈ all i -> (id < next_id i)%nat;
  inv_todo : NoDup (todo i);
  inv_wip : NoDup (wip i);
  inv_temptation : NoDup (temptation i);
  inv_apart id : id ∈ todo i -> id ∉ wip i;
  inv_gen id r : reqs i !! id = Some r -> rgen r <= gen i /\ (id ∈ liability i -> rgen r < gen i);
  inv_lied id r : reqs i !! id = Some r -> id ∈ liability i ->
    lied (ordering r) = true /\ fulfilled (ordering r) = false;
  inv_unlied id r : reqs i !! id = Some r -> id ∈ temptation i -> lied (ordering r) = false;
  inv_ok id r : reqs i !! id = Some r -> req_ok r;
  inv_disjoint a b ra rb : a ∈ wip i -> b ∈ wip i -> a <> b -> reqs i !! a = Some ra -> reqs i !! b = Some rb ->
    wb_requests_overlap ra rb = false
}.

(** Nothing new: requests only grow or go, only those not yet lied about become
    liabilities, and the rings and local lists lose members only. *)
Record calm (i i' : wb_inode) : Prop := {
  calm_next : next_id i' = next_id i;
  calm_reqs id r' : reqs i' !! id = Some r' -> exists r, reqs i !! id = Some r /\ grown r r';
  calm_liability id : id ∈ liability i' ->
    id ∈ liability i \/ exists r, reqs i !! id = Some r /\ lied (ordering r) = false;
  calm_rings id l' : l' ∈ rings i' -> id ∈ l' -> exists l, l ∈ rings i /\ id ∈ l;
  calm_calls c' : c' ∈ calls i' ->
    exists c, c ∈ calls i /\ (forall id, id ∈ tasks c' -> id ∈ tasks c) /\
              (forall id, id ∈ liabilities c' -> id ∈ liabilities c)
}.

(** An operation that keeps the invariant and adds nothing. *)
Definition keep (i i' : wb_inode) : Prop := Inv i -> Inv i' /\ calm i i'.

Create HintDb wb.
#[global] Arguments list_del : simpl never.

Lemma elem_of_list_del x id l : x ∈ list_del id l <-> x ∈ l /\ x <> id.
Proof. unfold list_del. rewrite list_elem_of_filter. tauto. Qed.

Lemma list_del_NoDup id l : NoDup l -> NoDup (list_del id l).
Proof. apply NoDup_filter. Qed.
#[export] Hint Resolve list_del_NoDup : wb.

Lemma grown_refl r : grown r r.
Proof. constructor; auto. lia. Qed.
#[export] Hint Resolve grown_refl : wb.

Lemma grown_trans r1 r2 r3 : grown r1 r2 -> grown r2 r3 -> grown r1 r3.
Proof.
  intros [] []. constructor; try congruence; auto.
  - lia.
  - intros H. rewrite gr_fixed1, gr_fixed0; congruence.
Qed.

Lemma calm_refl i : calm i i.
Proof. constructor; eauto with wb. Qed.
#[export] Hint Resolve calm_refl : wb.

Lemma calm_trans i1 i2 i3 : calm i1 i2 -> calm i2 i3 -> calm i1 i3.
Proof.
  intros [N1 R1 L1 G1 C1] [N2 R2 L2 G2 C2]. constructor.
  - congruence.
  - intros id r3 H. destruct (R2 _ _ H) as (r2 & H2 & Hg2). destruct (R1 _ _ H2) as (r1 & H1 & Hg1).
    eauto using grown_trans.
  - intros id H. destruct (L2 _ H) as [H2|(r2 & H2 & Hl)]; [auto|]. right.
    destruct (R1 _ _ H2) as (r1 & H1 & Hg). exists r1. split; [assumption|].
    destruct (lied (ordering r1)) eqn:E; [|reflexivity]. apply (gr_lied _ _ Hg) in E. congruence.
  - intros id l3 H Hin. destruct (G2 _ _ H Hin) as (l2 & H2 & Hin2). eauto.
  - intros c3 H. destruct (C2 _ H) as (c2 & H2 & T2 & A2). destruct (C1 _ H2) as (c1 & H1 & T1 & A1).
    exists c1. auto.
Qed.

Lemma keep_refl i : keep i i.
Proof. intros H. auto with wb. Qed.

Lemma keep_trans i1 i2 i3 : keep i1 i2 -> keep i2 i3 -> keep i1 i3.
Proof. intros H1 H2 I1. destruct (H1 I1) as [I2 C1]. destruct (H2 I2) as [I3 C2]. eauto using calm_trans. Qed.
#[export] Hint Resolve keep_refl : wb.

Lemma keep_foldl {A} (f : wb_inode -> A -> wb_inode) l i : (forall i x, keep i (f i x)) -> keep i (foldl f i l).
Proof.
  intros Hf. revert i. induction l as [|x l IH]; intros i; cbn [foldl]; [apply keep_refl|].
  eapply keep_trans; [apply Hf|apply IH].
Qed.

(** ** The fields *)

Ltac keep_fields :=
  intros Hinv; split; constructor; cbn;
  try first [ reflexivity | exact (inv_lists _ Hinv) | exact (inv_dom _ Hinv) | exact (inv_fresh _ Hinv)
            | exact (inv_todo _ Hinv) | exact (inv_wip _ Hinv) | exact (inv_temptation _ Hinv)
            | exact (inv_apart _ Hinv) | exact (inv_gen _ Hinv) | exact (inv_lied _ Hinv)
            | exact (inv_unlied _ Hinv) | exact (inv_ok _ Hinv) | exact (inv_disjoint _ Hinv)
            | exact (calm_reqs _ _ (calm_refl _)) | exact (calm_liability _ _ (calm_refl _))
            | exact (calm_rings _ _ (calm_refl _)) | exact (calm_calls _ _ (calm_refl _))
            | apply list_del_NoDup; apply Hinv ];
  try destruct Hinv.

Lemma keep_window i a b : keep i (set_window i a b).
Proof. keep_fields. Qed.
Lemma keep_dontsync i v : keep i (set_dontsync i v).
Proof. keep_fields. Qed.
Lemma keep_isize i v : keep i (set_isize i v).
Proof. keep_fields. Qed.

Lemma keep_rings_del i id : keep i (set_rings i (map (list_del id) (rings i))).
Proof.
  keep_fields. intros x l' (l & -> & Hl)%list_elem_of_fmap [H _]%elem_of_list_del. eauto.
Qed.

Lemma keep_todo_del i id : keep i (set_todo i (list_del id (todo i))).
Proof.
  keep_fields.
  - intros x [[H _]%elem_of_list_del|H]; auto.
  - intros x [H _]%elem_of_list_del. auto.
Qed.

Lemma keep_wip_del i id : keep i (set_wip i (list_del id (wip i))).
Proof.
  keep_fields.
  - intros x [H|[H|[H|[H _]%elem_of_list_del]]]; auto.
  - intros x H [H' _]%elem_of_list_del. exact (inv_apart0 _ H H').
  - intros a b ra rb [Ha _]%elem_of_list_del [Hb _]%elem_of_list_del. eauto.
Qed.

Lemma keep_lie_del i id : keep i (set_lie i (list_del id (liability i)) (list_del id (temptation i))).
Proof.
  keep_fields.
  - intros x [H|[[H _]%elem_of_list_del|[[H _]%elem_of_list_del|H]]]; auto.
  - intros x r H. destruct (inv_gen0 _ _ H). split; [assumption|]. intros [H' _]%elem_of_list_del. auto.
  - intros x r H [H' _]%elem_of_list_del. eauto.
  - intros x r H [H' _]%elem_of_list_del. eauto.
  - intros x [H _]%elem_of_list_del. auto.
Qed.
#[export] Hint Resolve keep_window keep_dontsync keep_isize keep_rings_del keep_todo_del keep_wip_del keep_lie_del : wb.

(** ** A member of a request *)

(** A change of request [id] that keeps the invariant. *)
Record change_ok (i : wb_inode) (id : nat) (r r' : wb_request) : Prop := {
  ch_grown : grown r r';
  ch_ok : req_ok r';
  ch_liability : id ∈ liability i -> lied (ordering r') = true /\ fulfilled (ordering r') = false;
  ch_temptation : id ∈ temptation i -> lied (ordering r') = false;
  ch_wip : id ∈ wip i -> o_size (ordering r') = o_size (ordering r)
}.

Lemma overlap_same r1 r1' r2 r2' :
  o_off (ordering r1') = o_off (ordering r1) -> o_size (ordering r1') = o_size (ordering r1) ->
  o_off (ordering r2') = o_off (ordering r2) -> o_size (ordering r2') = o_size (ordering r2) ->
  wb_requests_overlap r1' r2' = wb_requests_overlap r1 r2.
Proof. intros H1 H2 H3 H4. unfold wb_requests_overlap, range_end. rewrite H1, H2, H3, H4. reflexivity. Qed.

Lemma upd_lookup i id f x r' :
  reqs (upd i id f) !! x = Some r' ->
  exists r, reqs i !! x = Some r /\ (x = id /\ r' = f r \/ x <> id /\ r' = r).
Proof.
  cbn. destruct (decide (x = id)) as [-> |Hne].
  - rewrite lookup_alter_eq. intros (r & H & ->)%fmap_Some. eauto.
  - rewrite lookup_alter_ne by congruence. eauto.
Qed.

Lemma keep_upd i id f : (Inv i -> forall r, reqs i !! id = Some r -> change_ok i id r (f r)) -> keep i (upd i id f).
Proof.
  intros Hf Hinv. specialize (Hf Hinv).
  assert (Hch : forall x r', reqs (upd i id f) !! x = Some r' ->
                exists r, reqs i !! x = Some r /\ change_ok i x r r').
  { intros x r' (r & Hx & [[-> ->]|[Hne ->]])%upd_lookup; [eauto|]. exists r. split; [assumption|].
    destruct Hinv. constructor; eauto with wb. }
  revert Hinv. keep_fields.
  - intros x. rewrite inv_dom0. destruct (decide (x = id)) as [-> |Hne].
    + rewrite lookup_alter_eq, fmap_is_Some. tauto.
    + rewrite lookup_alter_ne by congruence. tauto.
  - intros x r' (r & Hx & Hc)%Hch. rewrite (gr_gen _ _ (ch_grown _ _ _ _ Hc)). eauto.
  - intros x r' (r & Hx & Hc)%Hch. apply Hc.
  - intros x r' (r & Hx & Hc)%Hch. apply Hc.
  - intros x r' (r & Hx & Hc)%Hch. apply Hc.
  - intros a b ra' rb' Ha Hb Hne (ra & Hra & Ca)%Hch (rb & Hrb & Cb)%Hch.
    rewrite (overlap_same ra ra' rb rb'); [eauto|apply Ca|exact (ch_wip _ _ _ _ Ca Ha)|apply Cb|exact (ch_wip _ _ _ _ Cb Hb)].
  - intros x r' (r & Hx & Hc)%Hch. exists r. split; [assumption|apply Hc].
Qed.

(** A change that leaves the range and the marks. *)
Lemma change_plain i id r r' :
  Inv i -> reqs i !! id = Some r ->
  sfop (stub r') = sfop (stub r) -> sfd (stub r') = sfd (stub r) -> rgen r' = rgen r ->
  (op_ret r = -1 -> op_ret r' = -1) ->
  soffset (stub r') + write_size r' = soffset (stub r) + write_size r ->
  (0 < write_size r -> 0 < write_size r') ->
  append (ordering r') = append (ordering r) -> tempted (ordering r') = tempted (ordering r) ->
  o_off (ordering r') = o_off (ordering r) -> o_size (ordering r') = o_size (ordering r) ->
  lied (ordering r') = lied (ordering r) -> fulfilled (ordering r') = fulfilled (ordering r) ->
  change_ok i id r r'.
Proof.
  intros [] Hr E1 E2 E3 E4 E5 E6 E7 E8 E9 E10 E11 E12.
  destruct (inv_ok0 _ _ Hr). constructor.
  - constructor; auto; [lia|congruence].
  - constructor; rewrite ?E1, ?E5, ?E8, ?E9, ?E10; auto.
  - rewrite E11, E12. eauto.
  - rewrite E11. eauto.
  - auto.
Qed.

Ltac plain := apply keep_upd; intros Hinv r0 Hr0; apply (change_plain _ _ _ _ Hinv Hr0); cbn; auto.

Lemma keep_refcount i id n : keep i (upd i id (set_refcount n)).
Proof. plain. Qed.
Lemma keep_total_size i id n : keep i (upd i id (set_total_size n)).
Proof. plain. Qed.
Lemma keep_op i id errno : keep i (upd i id (set_op (-1) errno)).
Proof. plain. Qed.
Lemma keep_wind_count i id : keep i (upd i id incr_wind_count).
Proof. plain. Qed.
Lemma keep_go i id b : keep i (upd_ordering i id (o_set_go b)).
Proof. plain. Qed.
Lemma keep_ref i id : keep i (__wb_request_ref i id).
Proof. unfold __wb_request_ref. plain; destruct (_ <? _); auto. Qed.
#[export] Hint Resolve keep_refcount keep_total_size keep_op keep_wind_count keep_go keep_ref : wb.

(** ** References *)

Lemma keep_destroy i id : keep i (destroy i id).
Proof.
  keep_fields.
  - intros x. rewrite !elem_of_list_del. specialize (inv_lists0 x). tauto.
  - intros x. rewrite elem_of_list_del, inv_dom0. destruct (decide (x = id)) as [-> |Hne].
    + rewrite lookup_delete_eq. split; [tauto|intros [? [=]]].
    + rewrite lookup_delete_ne by congruence. tauto.
  - intros x [H _]%elem_of_list_del. auto.
  - intros x [H _]%elem_of_list_del [H' _]%elem_of_list_del. exact (inv_apart0 _ H H').
  - intros x r [Hne H]%lookup_delete_Some. rewrite elem_of_list_del.
    assert (Hx : x ∈ list_del id (all i)) by (rewrite elem_of_list_del; split; [apply inv_dom0; eauto|congruence]).
    destruct (list_del id (all i)); [set_solver|]. destruct (inv_gen0 _ _ H). tauto.
  - intros x r [Hne H]%lookup_delete_Some [H' _]%elem_of_list_del. eauto.
  - intros x r [Hne H]%lookup_delete_Some [H' _]%elem_of_list_del. eauto.
  - intros x r [Hne H]%lookup_delete_Some. eauto.
  - intros a b ra rb [Ha _]%elem_of_list_del [Hb _]%elem_of_list_del Hab
      [_ Hra]%lookup_delete_Some [_ Hrb]%lookup_delete_Some. eauto.
  - intros x r [Hne H]%lookup_delete_Some. eauto with wb.
  - intros x [H _]%elem_of_list_del. auto.
  - intros x l' (l & -> & Hl)%list_elem_of_fmap [H _]%elem_of_list_del. eauto.
  - intros c' (c & -> & Hc)%list_elem_of_fmap. exists c. split; [assumption|]. cbn.
    split; intros x [H _]%elem_of_list_del; assumption.
Qed.

Lemma keep_unref i id : keep i (__wb_request_unref i id).
Proof.
  unfold __wb_request_unref. destruct (reqs i !! id) as [r|]; [|apply keep_refl].
  destruct (_ <=? _); [apply keep_refl|].
  destruct (_ =? _); [eapply keep_trans; [|apply keep_destroy]|]; apply keep_refcount.
Qed.
#[export] Hint Resolve keep_unref : wb.

(** ** Answers *)

Lemma keep_fulfilled i id : (Inv i -> id ∉ liability i) -> keep i (upd_ordering i id (o_set_fulfilled true)).
Proof.
  intros Hl. apply keep_upd. intros Hinv r Hr. destruct (inv_ok _ Hinv _ _ Hr).
  constructor; cbn; auto.
  - constructor; cbn; auto. lia.
  - constructor; cbn; auto.
  - intros H. destruct (Hl Hinv H).
  - exact (inv_unlied _ Hinv _ _ Hr).
Qed.

Lemma keep_fulfill_request i id : keep i (__wb_fulfill_request i id).
Proof.
  unfold __wb_fulfill_request. destruct (reqs i !! id) as [r|] eqn:Hr; [|apply keep_refl].
  eapply keep_trans; [|apply keep_unref]. destruct (lied (ordering r)) eqn:Hl.
  - set (i1 := set_lie i (list_del id (liability i)) (list_del id (temptation i))).
    apply (keep_trans i i1); [apply keep_lie_del|].
    apply (keep_trans i1 (upd_ordering i1 id (o_set_fulfilled true))); [|apply (keep_window (upd_ordering i1 id _))].
    apply keep_fulfilled. intros _. cbn. rewrite elem_of_list_del. tauto.
  - eapply keep_trans; [|apply keep_window]. apply keep_fulfilled.
    intros Hinv H. destruct (inv_lied _ Hinv _ _ Hr H). congruence.
Qed.
#[export] Hint Resolve keep_fulfill_request : wb.

Lemma keep_todo_front i id :
  id ∉ wip i -> is_Some (reqs i !! id) -> keep i (set_todo i (id :: list_del id (todo i))).
Proof.
  intros Hw Hs. keep_fields.
  - intros x [[-> |[H _]%elem_of_list_del]%elem_of_cons|H]; [apply inv_dom0, Hs|auto|auto].
  - apply NoDup_cons. split; [rewrite elem_of_list_del; tauto|auto using list_del_NoDup].
  - intros x [-> |[H _]%elem_of_list_del]%elem_of_cons; auto.
Qed.

Lemma upd_is_Some i id f x : is_Some (reqs (upd i id f) !! x) <-> is_Some (reqs i !! x).
Proof.
  cbn. destruct (decide (x = id)) as [-> |Hne].
  - rewrite lookup_alter_eq. apply fmap_is_Some.
  - rewrite lookup_alter_ne by congruence. reflexivity.
Qed.

Lemma keep_retry i id : keep i (__wb_add_request_for_retry i id).
Proof.
  unfold __wb_add_request_for_retry. destruct (reqs i !! id) as [r|] eqn:Hr; [|apply keep_refl].
  eapply keep_trans; [|apply keep_todo_front].
  - eapply keep_trans; [|apply keep_go]. eapply keep_trans; [|apply keep_wip_del].
    eapply keep_trans; [|apply keep_rings_del]. eapply keep_trans; [|apply keep_total_size]. apply keep_window.
  - cbn. rewrite elem_of_list_del. tauto.
  - apply upd_is_Some. cbn [set_wip set_rings reqs]. apply upd_is_Some. cbn. eauto.
Qed.
#[export] Hint Resolve keep_retry : wb.

Lemma keep_head_retry i head : keep i (__wb_add_head_for_retry i head).
Proof. eapply keep_trans; [|apply keep_retry]. apply keep_foldl. auto with wb. Qed.

Lemma keep_fulfill_request_err conf i id errno : keep i (__wb_fulfill_request_err conf i id errno).
Proof.
  unfold __wb_fulfill_request_err. destruct (reqs i !! id) as [r|]; [|apply keep_refl].
  destruct (lied (ordering r)).
  - destruct (__wb_request_waiting_on _ r) as [w|].
    + destruct (match reqs _ !! w with Some _ => _ | None => _ end);
        (eapply keep_trans; [apply (keep_op _ id errno)|]; eapply keep_trans; [apply (keep_op _ w errno)|]; auto with wb).
    + eapply keep_trans; [apply (keep_op _ id errno)|]. auto with wb.
  - eapply keep_trans; [apply (keep_op _ id errno)|]. auto with wb.
Qed.
#[export] Hint Resolve keep_fulfill_request_err : wb.

Lemma keep_head_done i head : keep i (wb_head_done i head).
Proof. eapply keep_trans; [|apply keep_fulfill_request]. apply keep_foldl. auto with wb. Qed.

Lemma keep_fulfill_err conf i head errno : keep i (__wb_fulfill_err conf i head errno).
Proof.
  eapply keep_trans; [|apply keep_fulfill_request_err].
  eapply keep_trans; [apply keep_dontsync|]. apply keep_foldl. auto with wb.
Qed.

Lemma keep_short_write i id size i' acc done :
  __wb_fulfill_short_write i id size = (i', acc, done) -> keep i i'.
Proof.
  unfold __wb_fulfill_short_write. destruct (reqs i !! id) as [r|] eqn:Hr; [|intros [= <- _ _]; apply keep_refl].
  destruct (Z.leb_spec (write_size r) size); intros [= <- _ _]; [auto with wb|].
  unfold __wb_modify_write_request. destruct (_ =? _); [apply keep_refl|].
  apply keep_upd. intros Hinv r' Hr'. rewrite Hr in Hr'. injection Hr' as <-.
  apply (change_plain _ _ _ _ Hinv Hr); cbn; auto; lia.
Qed.

Lemma keep_short_loop l : forall i size head i' req, short_loop i l size head = (i', req) -> keep i i'.
Proof.
  induction l as [|id l IH]; intros i size head i' req; cbn [short_loop].
  - intros [= <- _]. apply keep_refl.
  - destruct (__wb_fulfill_short_write i id size) as [[i1 acc] done] eqn:E. apply keep_short_write in E.
    destruct (_ =? _); [intros [= <- _]; exact E|]. intros H. exact (keep_trans _ _ _ E (IH _ _ _ _ _ H)).
Qed.

Lemma keep_short_account i head size i' req : short_account i head size = (i', req) -> keep i i'.
Proof.
  unfold short_account. set (i0 := __wb_request_ref i head).
  destruct (__wb_fulfill_short_write i0 head size) as [[i1 acc] done] eqn:E. apply keep_short_write in E.
  assert (H1 : keep i i1) by (eapply keep_trans; [apply keep_ref|exact E]).
  destruct (_ =? _).
  - intros [= <- _]. exact (keep_trans _ _ _ H1 (keep_unref _ _)).
  - destruct (short_loop i1 (ring_rest (rings i0) head) (size - acc) head) as [i2 req2] eqn:E2.
    apply keep_short_loop in E2. intros [= <- _].
    exact (keep_trans _ _ _ H1 (keep_trans _ _ _ E2 (keep_unref _ _))).
Qed.

Lemma keep_fulfill_cbk conf i head ret errno : keep i (wb_fulfill_cbk conf i head ret errno).
Proof.
  unfold wb_fulfill_cbk. destruct (reqs i !! head) as [h|]; [|apply keep_refl].
  destruct (_ =? _); [apply keep_fulfill_err|]. destruct (_ <? _); [|apply keep_head_done].
  unfold wb_fulfill_short_write. destruct (short_account i head ret) as [i1 req] eqn:E.
  exact (keep_trans _ _ _ (keep_short_account _ _ _ _ _ E) (keep_head_retry _ _)).
Qed.

(** ** Picking *)

Lemma wip_fulfill_request i id x : x ∈ wip (__wb_fulfill_request i id) -> x ∈ wip i.
Proof.
  unfold __wb_fulfill_request, __wb_request_unref. destruct (reqs i !! id) as [r|]; [|auto].
  match goal with |- context [match ?e with Some _ => _ | None => _ end] => destruct e as [r'|] end;
    destruct (lied (ordering r)); try destruct (_ <=? _); try destruct (_ =? _); cbn;
    rewrite ?elem_of_list_del; tauto.
Qed.

Lemma keep_collapse i h req id hr :
  h ∉ wip i -> reqs i !! id = Some req -> tempted (ordering req) = true ->
  reqs i !! h = Some hr -> tempted (ordering hr) = true ->
  soffset (stub req) = soffset (stub hr) + write_size hr ->
  keep i (__wb_collapse_small_writes i h req).
Proof.
  intros Hw Hreq Ht Hhr Hth Hoff. apply keep_upd. intros Hinv r Hr. rewrite Hhr in Hr. injection Hr as <-.
  destruct (inv_ok _ Hinv _ _ Hreq) as [T1 _ W1 _ E1], (inv_ok _ Hinv _ _ Hhr) as [T2 S2 W2 O2 E2].
  specialize (T1 Ht). specialize (T2 Hth). specialize (W1 T1). specialize (E1 T1).
  constructor; cbn.
  - constructor; cbn; auto; [lia|congruence].
  - specialize (S2 T2). specialize (W2 T2). specialize (E2 T2). constructor; cbn; auto; intros _; lia.
  - exact (inv_lied _ Hinv _ _ Hhr).
  - exact (inv_unlied _ Hinv _ _ Hhr).
  - intros H. destruct (Hw H).
Qed.

(** The holder of [__wb_preprocess_winds] is a write not being written. *)
Definition holder_ok (i : wb_inode) (holder : option nat) : Prop :=
  match holder with
  | Some h => (h ∉ wip i) /\ forall hr, reqs i !! h = Some hr -> tempted (ordering hr) = true
  | None => True
  end.

Lemma holder_calm i i' holder :
  calm i i' -> (forall x, x ∈ wip i' -> x ∈ wip i) -> holder_ok i holder -> holder_ok i' holder.
Proof.
  intros Hc Hw. destruct holder as [h|]; [|auto]. intros [H1 H2]. split; [auto|].
  intros hr' (hr & Hr & Hg)%(calm_reqs _ _ Hc). rewrite (gr_tempted _ _ Hg). auto.
Qed.

Lemma keep_preprocess_step conf mem_ok i holder id i' holder' :
  preprocess_step conf mem_ok (i, holder) id = (i', holder') ->
  Inv i -> holder_ok i holder -> id ∉ wip i ->
  Inv i' /\ calm i i' /\ (forall x, x ∈ wip i' -> x ∈ wip i) /\ holder_ok i' holder'.
Proof.
  intros E Hinv Hh Hid.
  enough (keep i i' /\ (forall x, x ∈ wip i' -> x ∈ wip i) /\
          (holder' = holder \/ holder' = Some id /\ holder_ok i (Some id))) as (Hk & Hw & Hor).
  { destruct (Hk Hinv) as [I' C]. split; [exact I'|]. split; [exact C|]. split; [exact Hw|].
    destruct Hor as [-> |[-> Hok]]; eauto using holder_calm. }
  assert (Hst : preprocess_step conf mem_ok (i, holder) id = (i, holder) ->
    keep i i' /\ (forall x, x ∈ wip i' -> x ∈ wip i) /\ (holder' = holder \/ holder' = Some id /\ holder_ok i (Some id))).
  { rewrite E. intros [= -> ->]. auto with wb. }
  unfold preprocess_step in E, Hst. destruct (reqs i !! id) as [req|] eqn:Hreq; [|auto].
  destruct (_ && _); [auto|]. destruct (tempted (ordering req)) eqn:Ht; cbn [negb] in E, Hst.
  - assert (Hid' : holder_ok i (Some id)) by (split; [exact Hid|congruence]).
    destruct holder as [h|]; [|injection E as <- <-; auto with wb].
    destruct Hh as [Hw Hth]. destruct (reqs i !! h) as [hr|] eqn:Hhr; [|auto]. specialize (Hth _ eq_refl).
    destruct (soffset (stub req) =? soffset (stub hr) + write_size hr) eqn:Eo; cbn [negb orb] in E, Hst;
      [|injection E as <- <-; auto with wb].
    destruct (negb _ || _ || _); [injection E as <- <-; auto with wb|].
    destruct (mem_ok h); [|auto]. injection E as <- <-. split; [|split; [|auto]].
    + eapply keep_trans; [|apply keep_fulfill_request]. eapply keep_trans; [|apply (keep_todo_del (__wb_collapse_small_writes i h req))].
      eapply keep_collapse; eauto. lia.
    + intros x Hx%wip_fulfill_request. exact Hx.
  - destruct holder as [h|]; [|auto]. destruct (reqs i !! h) as [hr|]; [|auto].
    destruct (wb_requests_conflict conf hr req); [|auto]. injection E as <- <-. auto with wb.
Qed.

Lemma keep_preprocess_fold conf mem_ok l : forall i holder i' holder',
  foldl (preprocess_step conf mem_ok) (i, holder) l = (i', holder') ->
  Inv i -> holder_ok i holder -> (forall x, x ∈ l -> x ∉ wip i) ->
  Inv i' /\ calm i i' /\ (forall x, x ∈ wip i' -> x ∈ wip i).
Proof.
  induction l as [|id l IH]; intros i holder i' holder' E Hinv Hh Hl; cbn [foldl] in E.
  - injection E as <- <-. auto with wb.
  - destruct (preprocess_step conf mem_ok (i, holder) id) as [i1 h1] eqn:E1.
    apply keep_preprocess_step in E1 as (I1 & C1 & W1 & H1); [|assumption..|apply Hl, elem_of_cons; auto].
    apply IH in E as (I2 & C2 & W2); eauto 10 using calm_trans.
    intros x Hx H. apply (Hl x); [apply elem_of_cons; auto|auto].
Qed.

Lemma keep_preprocess conf mem_ok i : keep i (__wb_preprocess_winds conf mem_ok i).
Proof.
  intros Hinv. unfold __wb_preprocess_winds.
  destruct (foldl _ _ _) as [i1 holder] eqn:E.
  apply keep_preprocess_fold in E as (I1 & C1 & _); [|exact Hinv|exact I|exact (inv_apart _ Hinv)].
  match goal with |- Inv ?i2 /\ _ => enough (Hk : keep i1 i2) by (destruct (Hk I1); eauto using calm_trans) end.
  destruct holder as [h|]; [destruct (_ && _)|]; cbn; destruct (0 <? _); auto with wb.
  eapply keep_trans; [apply keep_go|apply keep_dontsync].
Qed.

Lemma wip_conflict_None rs l id req :
  wip_conflict rs l id req = None ->
  forall x e, x ∈ l -> x <> id -> rs !! x = Some e -> wb_requests_overlap e req = false.
Proof.
  induction l as [|y l IH]; cbn [wip_conflict]; [intros _ x e []%not_elem_of_nil|].
  intros H x e [-> |Hx]%elem_of_cons Hne Hr.
  - rewrite Hr in H. destruct (Nat.eqb_spec y id); [congruence|].
    destruct (wb_requests_overlap e req); [discriminate|reflexivity].
  - eapply IH; eauto. destruct (rs !! y) as [r|]; [|exact H]. destruct (_ && _); [discriminate|exact H].
Qed.

Lemma overlap_sym r1 r2 : wb_requests_overlap r1 r2 = wb_requests_overlap r2 r1.
Proof. apply andb_comm. Qed.

Lemma keep_wip_add i id r :
  reqs i !! id = Some r -> id ∉ wip i -> id ∉ todo i -> wip_conflict (reqs i) (wip i) id r = None ->
  keep i (set_wip i (wip i ++ [id])).
Proof.
  intros Hr Hw Ht Hc. pose proof (wip_conflict_None _ _ _ _ Hc) as Hno. keep_fields.
  - intros x [H|[H|[H|[H| ->%list_elem_of_singleton]%elem_of_app]]]; auto. apply inv_dom0. eauto.
  - apply NoDup_app. split; [assumption|]. split; [intros x H ->%list_elem_of_singleton; auto|apply NoDup_singleton].
  - intros x Hx [H| ->%list_elem_of_singleton]%elem_of_app; [exact (inv_apart0 _ Hx H)|auto].
  - intros a b ra rb [Ha| ->%list_elem_of_singleton]%elem_of_app [Hb| ->%list_elem_of_singleton]%elem_of_app Hab Hra Hrb.
    + eauto.
    + rewrite Hr in Hrb. injection Hrb as <-. eauto.
    + rewrite Hr in Hra. injection Hra as <-. rewrite overlap_sym. eauto.
    + congruence.
Qed.

Lemma keep_failed_conflict conf i ts id req c i' ts' :
  __wb_handle_failed_conflict conf (i, ts) id req c = (i', ts') -> Inv i ->
  Inv i' /\ calm i i' /\ (forall x, x ∈ wip i' -> x ∈ wip i) /\
  (forall x, x ∈ ts' -> x ∈ ts \/ x = id /\ forall r, reqs i' !! x = Some r -> op_ret r = -1).
Proof.
  intros E Hinv. unfold __wb_handle_failed_conflict in E.
  destruct (_ && _); [|injection E as <- <-; auto with wb].
  destruct (_ && _); [|injection E as <- <-; auto with wb].
  set (errno := match reqs i !! c with Some _ => _ | None => _ end) in E. clearbody errno.
  set (i1 := set_todo (upd i id (set_op (-1) errno)) _) in E.
  assert (K1 : keep i i1) by (eapply keep_trans; [apply keep_op|apply keep_todo_del]).
  destruct (K1 Hinv) as [I1 C1].
  assert (F1 : forall r, reqs i1 !! id = Some r -> op_ret r = -1).
  { intros r H. change (reqs (upd i id (set_op (-1) errno)) !! id = Some r) in H.
    apply upd_lookup in H as (r0 & _ & [[_ ->]|[Hn _]]); [reflexivity|congruence]. }
  destruct (tempted (ordering req)).
  - set (i2 := __wb_fulfill_request _ id) in E. injection E as <- <-.
    assert (K2 : keep i1 i2) by (eapply keep_trans; [apply (keep_lie_del i1)|apply keep_fulfill_request]).
    destruct (K2 I1) as [I2 C2]. split; [exact I2|]. split; [exact (calm_trans _ _ _ C1 C2)|]. split.
    + intros x Hx%wip_fulfill_request. exact Hx.
    + intros x Hx.
      assert (Hor : x ∈ ts \/ x = id).
      { destruct (decide _); [|apply elem_of_list_del in Hx as [Hx _]];
          apply elem_of_app in Hx as [Hx|Hx%list_elem_of_singleton]; auto. }
      destruct Hor as [H| ->]; [auto|]. right. split; [reflexivity|].
      intros r (r1 & H1 & Hg)%(calm_reqs _ _ C2). exact (gr_failed _ _ Hg (F1 _ H1)).
  - injection E as <- <-. split; [exact I1|]. split; [exact C1|]. split; [auto|].
    intros x [Hx| ->%list_elem_of_singleton]%elem_of_app; auto.
Qed.

(** No liability is in the way of request [id]. *)
Definition clear (conf : wb_conf) (i : wb_inode) (id : nat) : Prop :=
  exists req, reqs i !! id = Some req /\ wb_liability_has_conflict conf i id req = None.

Definition failed (i : wb_inode) (id : nat) : Prop := forall r, reqs i !! id = Some r -> op_ret r = -1.

Lemma failed_calm i i' id : calm i i' -> failed i id -> failed i' id.
Proof. intros Hc Hf r (r1 & H1 & Hg)%(calm_reqs _ _ Hc). exact (gr_failed _ _ Hg (Hf _ H1)). Qed.

(** The write [id] goes from [todo] to [wip]. *)
Lemma keep_pick_write i id req :
  reqs i !! id = Some req -> id ∉ wip i -> sfop (stub req) = GF_FOP_WRITE ->
  wb_wip_has_conflict i id req = None ->
  keep i (upd (set_wip (set_todo i (list_del id (todo i))) (wip i ++ [id])) id incr_wind_count).
Proof.
  intros Hr Hw Hfop Hc. unfold wb_wip_has_conflict in Hc. rewrite bool_decide_true in Hc by assumption.
  eapply keep_trans; [|apply keep_wind_count]. eapply keep_trans; [apply (keep_todo_del i id)|].
  apply (keep_wip_add (set_todo i (list_del id (todo i))) id req); try assumption.
  cbn. rewrite elem_of_list_del. tauto.
Qed.

Lemma keep_pick_step conf i ts ls id i' ts' ls' :
  pick_step conf (i, ts, ls) id = (i', ts', ls') -> Inv i -> id ∉ wip i ->
  Inv i' /\ calm i i' /\ (forall x, x ∈ wip i' -> x ∈ wip i \/ x = id) /\
  (forall x, x ∈ ls' -> x ∈ ls \/ x = id /\ clear conf i id) /\
  (forall x, x ∈ ts' -> x ∈ ts \/ x = id /\ (failed i' id \/ clear conf i id)).
Proof.
  intros E Hinv Hw. unfold pick_step in E.
  assert (Hst : Inv i /\ calm i i /\ (forall x, x ∈ wip i -> x ∈ wip i \/ x = id) /\
    (forall x, x ∈ ls -> x ∈ ls \/ x = id /\ clear conf i id) /\
    (forall x, x ∈ ts -> x ∈ ts \/ x = id /\ (failed i id \/ clear conf i id))) by auto 10 with wb.
  destruct (reqs i !! id) as [req|] eqn:Hr; [|injection E as <- <- <-; exact Hst].
  destruct (wb_liability_has_conflict conf i id req) as [c|] eqn:Hc.
  { destruct (match reqs i !! c with Some _ => _ | None => _ end); [|injection E as <- <- <-; exact Hst].
    destruct (__wb_handle_failed_conflict conf (i, ts) id req c) as [i1 ts1] eqn:E1. injection E as <- <- <-.
    apply keep_failed_conflict in E1 as (I1 & C1 & W1 & T1); [|exact Hinv].
    split; [exact I1|]. split; [exact C1|]. split; [auto|]. split; [auto|].
    intros x [H|[-> H]]%T1; auto. }
  assert (Hclear : clear conf i id) by (exists req; auto).
  destruct (_ && _); [injection E as <- <- <-; exact Hst|].
  destruct (if bool_decide (sfop (stub req) = GF_FOP_WRITE) then _ else None) eqn:Hwc;
    [injection E as <- <- <-; exact Hst|]. clear Hst.
  assert (Hlists : forall l l' : list nat,
    (forall x, x ∈ l' ++ [id] -> x ∈ l' \/ x = id /\ clear conf i id) /\ (forall x, x ∈ l -> x ∈ l \/ x = id /\ clear conf i id)).
  { intros l l'. split; [|auto]. intros x [H| ->%list_elem_of_singleton]%elem_of_app; auto. }
  enough (Hk : keep i i' /\ (forall x, x ∈ wip i' -> x ∈ wip i \/ x = id) /\
               (ls' = ls ++ [id] /\ ts' = ts \/ ls' = ls /\ ts' = ts ++ [id])).
  { destruct Hk as (Hk & Hwip & Hor). destruct (Hk Hinv) as [I' C']. split; [exact I'|]. split; [exact C'|].
    split; [exact Hwip|]. destruct Hor as [[-> ->]|[-> ->]].
    - split; [apply (Hlists ls)|auto].
    - split; [auto|]. intros x Hx. destruct (proj1 (Hlists ts ts) x Hx) as [H|[H1 H2]]; auto. }
  split; [|split].
  - destruct (bool_decide_reflect (sfop (stub req) = GF_FOP_WRITE)) as [Hfop|Hfop].
    + pose proof (keep_pick_write i id req Hr Hw Hfop Hwc) as Hk.
      destruct (tempted (ordering req)); cbn [negb] in E; injection E as <- _ _; [exact Hk|].
      exact (keep_trans _ _ _ Hk (keep_ref _ id)).
    + destruct (tempted (ordering req)); injection E as <- _ _; apply keep_todo_del.
  - intros x. destruct (bool_decide _), (tempted (ordering req)); cbn [negb] in E; injection E as <- _ _; cbn;
      rewrite ?elem_of_app, ?list_elem_of_singleton; tauto.
  - destruct (tempted (ordering req)); injection E as _ <- <-; auto.
Qed.

Lemma keep_set_lied i id :
  id ∉ liability i -> id ∉ temptation i ->
  (forall r, reqs i !! id = Some r -> fulfilled (ordering r) = false) ->
  keep i (upd_ordering i id (o_set_lied true)).
Proof.
  intros Hl Ht Hf. apply keep_upd. intros Hinv r Hr. destruct (inv_ok _ Hinv _ _ Hr).
  constructor; cbn; [constructor; cbn; auto; lia|constructor; cbn; auto|auto|tauto|auto].
Qed.

(** A request that has been lied about becomes a liability of a new generation. *)
Lemma Inv_new_liability i id r :
  reqs i !! id = Some r -> lied (ordering r) = true -> fulfilled (ordering r) = false -> id ∉ temptation i ->
  Inv i -> Inv (set_gen (set_lie i (liability i ++ [id]) (temptation i)) (gen i + 1)).
Proof.
  intros Hr Hl Hf Ht Hinv. destruct Hinv. constructor; cbn; auto.
  - intros x [H|[[H| ->%list_elem_of_singleton]%elem_of_app|H]]; auto. apply inv_dom0. eauto.
  - intros x rx Hx. destruct (inv_gen0 _ _ Hx). split; [lia|]. intros _. lia.
  - intros x rx Hx [H| ->%list_elem_of_singleton]%elem_of_app; [eauto|]. rewrite Hr in Hx. injection Hx as <-. auto.
Qed.

Lemma keep_lie_about i id r :
  reqs i !! id = Some r -> lied (ordering r) = false -> fulfilled (ordering r) = false ->
  id ∉ liability i -> id ∉ temptation i ->
  keep i (set_gen (upd_ordering (set_lie i (liability i ++ [id]) (temptation i)) id (o_set_lied true)) (gen i + 1)).
Proof.
  intros Hr Hl Hf Hli Hte Hinv.
  destruct (keep_set_lied i id Hli Hte ltac:(congruence) Hinv) as [I1 C1].
  split.
  - eapply (Inv_new_liability (upd_ordering i id (o_set_lied true))); [|..|exact I1].
    + cbn. rewrite lookup_alter_eq, Hr. reflexivity.
    + reflexivity.
    + exact Hf.
    + exact Hte.
  - destruct C1. constructor; cbn in *; auto.
    intros x [H| ->%list_elem_of_singleton]%elem_of_app; eauto.
Qed.

Lemma keep_unwind_step i us id i' us' :
  unwind_step (i, us) id = (i', us') -> Inv i ->
  (forall r, reqs i !! id = Some r -> lied (ordering r) = false) ->
  Inv i' /\ calm i i' /\ forall x, x <> id -> reqs i' !! x = reqs i !! x.
Proof.
  intros E Hinv Hl. unfold unwind_step in E.
  destruct (reqs i !! id) as [r|] eqn:Hr; [|injection E as <- _; auto with wb].
  destruct (_ && _); [injection E as <- _; auto with wb|].
  set (i1 := set_window (set_lie i (list_del id (liability i)) (list_del id (temptation i)))
               (window_current i + orig_size r) (transit i)).
  assert (K1 : keep i i1) by (eapply keep_trans; [apply (keep_lie_del i id)|apply keep_window]).
  destruct (K1 Hinv) as [I1 C1].
  destruct (fulfilled (ordering r)) eqn:Hf; cbn [negb] in E; injection E as <- _; [auto|].
  assert (K2 : keep i1 (set_gen (upd_ordering (set_lie i1 (liability i1 ++ [id]) (temptation i1)) id (o_set_lied true))
                          (gen i1 + 1))).
  { apply (keep_lie_about i1 id r Hr); auto; cbn; rewrite elem_of_list_del; tauto. }
  destruct (K2 I1) as [I2 C2]. split; [exact I2|]. split; [exact (calm_trans _ _ _ C1 C2)|].
  intros x Hx. cbn. apply lookup_alter_ne. congruence.
Qed.

Lemma keep_unwind_fold l : forall i us i' us',
  foldl unwind_step (i, us) l = (i', us') -> NoDup l -> Inv i ->
  (forall x r, x ∈ l -> reqs i !! x = Some r -> lied (ordering r) = false) -> Inv i' /\ calm i i'.
Proof.
  induction l as [|id l IH]; intros i us i' us' E Hnd Hinv Hl; cbn [foldl] in E.
  - injection E as <- _. auto with wb.
  - apply NoDup_cons in Hnd as [Hid Hnd]. destruct (unwind_step (i, us) id) as [i1 us1] eqn:E1.
    apply keep_unwind_step in E1 as (I1 & C1 & R1);
      [|exact Hinv|intros r; apply Hl, elem_of_cons; auto].
    apply IH in E as [I2 C2]; [eauto using calm_trans|exact Hnd|exact I1|].
    intros x r Hx. rewrite R1 by congruence. apply Hl, elem_of_cons. auto.
Qed.

Lemma keep_pick_unwinds i i' us : __wb_pick_unwinds i = (i', us) -> keep i i'.
Proof.
  intros E Hinv. eapply keep_unwind_fold; [exact E|apply Hinv|exact Hinv|].
  intros x r Hx Hr. exact (inv_unlied _ Hinv _ _ Hr Hx).
Qed.

(** ** Going out *)

(** The writes [ls] are about to go out: [wb_fulfill] makes rings of them, and
    adds nothing to a state that has them in a ring. *)
Definition with_ring (ls : list nat) (i : wb_inode) : wb_inode := set_rings i (ls :: rings i).

(** The requests of a write were in a ring or on the list. *)
Definition events_from (ls : list nat) (i : wb_inode) (ev : list event) : Prop :=
  forall e, e ∈ ev ->
    match e with
    | Ev_writev ids _ _ | Ev_overflow ids => forall id, id ∈ ids -> exists l, l ∈ rings (with_ring ls i) /\ id ∈ l
    | _ => False
    end.

Lemma ring_rest_elem rs id x : x ∈ ring_rest rs id -> exists l, l ∈ rs /\ x ∈ l.
Proof.
  induction rs as [|r rs IH]; cbn [ring_rest]; [intros []%not_elem_of_nil|].
  destruct (list_find _ r) as [[k y]|].
  - intros H. exists r. split; [apply elem_of_cons; auto|].
    apply elem_of_app in H as [H|H]; [|exact (subseteq_take _ _ _ H)].
    apply list_elem_of_lookup in H as [n H]. rewrite lookup_drop in H. apply list_elem_of_lookup. eauto.
  - intros (l & Hl & Hx)%IH. exists l. split; [apply elem_of_cons; auto|exact Hx].
Qed.

Lemma keep_fulfill_head conf ls frame_ok i0 i head i' ret ev :
  wb_fulfill_head conf frame_ok i head = (i', ret, ev) -> head ∈ ls ->
  Inv i -> calm (with_ring ls i0) i -> Inv i' /\ calm (with_ring ls i0) i' /\ events_from ls i0 ev.
Proof.
  intros E Hhead Hinv Hc. unfold wb_fulfill_head in E.
  destruct (reqs i !! head) as [h|]; [|injection E as <- _ <-; split; [auto|split; [auto|intros e []%not_elem_of_nil]]].
  set (total := total_size h + _) in E.
  assert (K1 : keep i (upd i head (set_total_size total))) by auto with wb.
  destruct (K1 Hinv) as [I1 C1]. pose proof (calm_trans _ _ _ Hc C1) as C01.
  assert (Hids : forall x, x ∈ head :: ring_rest (rings i) head -> exists l, l ∈ rings (with_ring ls i0) /\ x ∈ l).
  { intros x [-> |(l & Hl & Hx)%ring_rest_elem]%elem_of_cons; [|exact (calm_rings _ _ Hc _ _ Hl Hx)].
    exists ls. split; [apply elem_of_cons; auto|exact Hhead]. }
  destruct (_ <? _)%nat.
  - injection E as <- _ <-. split; [exact I1|]. split; [exact C01|]. intros e ->%list_elem_of_singleton. exact Hids.
  - destruct frame_ok; injection E as <- _ <-.
    + destruct (keep_window (upd i head (set_total_size total)) (window_current i) (transit i + total) I1) as [I2 C2].
      split; [exact I2|]. split; [exact (calm_trans _ _ _ C01 C2)|]. intros e ->%list_elem_of_singleton. exact Hids.
    + destruct (keep_fulfill_err conf (upd i head (set_total_size total)) head ENOMEM I1) as [I2 C2].
      split; [exact I2|]. split; [exact (calm_trans _ _ _ C01 C2)|intros e []%not_elem_of_nil].
Qed.

(** The state of the loop of [wb_fulfill]. *)
Definition loop_ok (ls : list nat) (i0 : wb_inode) (s : fulfill_state) : Prop :=
  Inv (fs_inode s) /\ calm (with_ring ls i0) (fs_inode s) /\ events_from ls i0 (fs_events s) /\
  (forall h, fs_head s = Some h -> h ∈ ls).

Lemma events_from_app ls i ev1 ev2 : events_from ls i ev1 -> events_from ls i ev2 -> events_from ls i (ev1 ++ ev2).
Proof. intros H1 H2 e [H|H]%elem_of_app; [exact (H1 e H)|exact (H2 e H)]. Qed.

Lemma loop_flush conf frame_ok ls i0 s i ret ev :
  fs_flush conf frame_ok s = (i, ret, ev) -> loop_ok ls i0 s ->
  Inv i /\ calm (with_ring ls i0) i /\ events_from ls i0 ev.
Proof.
  intros E (I1 & C1 & E1 & H1). unfold fs_flush in E. destruct (fs_head s) as [h|]; [|injection E as <- _ <-; auto].
  destruct (wb_fulfill_head conf (frame_ok h) (fs_inode s) h) as [[i1 ret1] ev1] eqn:Eh. injection E as <- _ <-.
  apply (keep_fulfill_head _ ls _ i0) in Eh as (I2 & C2 & E2); auto using events_from_app.
Qed.

Lemma loop_rings ls i0 i rs :
  (forall l x, l ∈ rs -> x ∈ l -> x ∈ ls \/ exists l, l ∈ rings i /\ x ∈ l) ->
  Inv i -> calm (with_ring ls i0) i -> Inv (set_rings i rs) /\ calm (with_ring ls i0) (set_rings i rs).
Proof.
  intros Hrs Hinv Hc. split; [destruct Hinv; constructor; assumption|].
  destruct Hc. constructor; cbn in *; auto.
  intros x l' Hl' Hx. destruct (Hrs _ _ Hl' Hx) as [H|(l & Hl & H)]; [|eauto].
  exists ls. split; [apply elem_of_cons; auto|exact H].
Qed.

Lemma loop_step conf frame_ok ls i0 s id :
  id ∈ ls -> loop_ok ls i0 s -> loop_ok ls i0 (fulfill_step conf frame_ok s id).
Proof.
  intros Hid Hok. unfold fulfill_step. destruct (reqs (fs_inode s) !! id) as [r|]; [|exact Hok].
  assert (Hnew : let s1 := next_head conf frame_ok s id r in
    loop_ok ls i0 (mk_fs (set_rings (fs_inode s1) ([id] :: rings (fs_inode s1))) (fs_head s1) (fs_expected s1)
                     (fs_aggregate s1) (fs_vectors s1) (fs_ret s1) (fs_events s1))).
  { unfold next_head. destruct (fs_flush conf frame_ok s) as [[i1 ret1] ev1] eqn:E.
    apply (loop_flush _ _ ls i0) in E as (I1 & C1 & E1); [|exact Hok].
    destruct (loop_rings ls i0 i1 ([id] :: rings i1)) as [I2 C2]; [|exact I1|exact C1|].
    - intros l x [-> |Hl]%elem_of_cons Hx; [|eauto]. apply list_elem_of_singleton in Hx as ->. auto.
    - split; [exact I2|]. split; [exact C2|]. split; [exact E1|]. cbn. intros h [= <-]. exact Hid. }
  destruct (fs_head s) as [h|] eqn:Eh; [|exact Hnew]. destruct (_ || _ || _ || _ || _); [exact Hnew|].
  destruct Hok as (I1 & C1 & E1 & H1).
  destruct (loop_rings ls i0 (fs_inode s) (add_to_ring (rings (fs_inode s)) h id)) as [I2 C2]; [|exact I1|exact C1|].
  - intros l x (l0 & -> & Hl0)%list_elem_of_fmap Hx. destruct (bool_decide (h ∈ l0)); [|eauto].
    apply elem_of_app in Hx as [Hx| ->%list_elem_of_singleton]; eauto.
  - split; [exact I2|]. split; [exact C2|]. split; [exact E1|]. cbn. intros h' [= <-]. auto.
Qed.

Lemma loop_steps conf frame_ok ls i0 l : forall s,
  (forall x, x ∈ l -> x ∈ ls) -> loop_ok ls i0 s -> loop_ok ls i0 (foldl (fulfill_step conf frame_ok) s l).
Proof.
  induction l as [|x l IH]; intros s Hsub Hs; cbn [foldl]; [exact Hs|].
  apply IH; [intros y Hy; apply Hsub, elem_of_cons; auto|].
  apply loop_step; [apply Hsub, elem_of_cons; auto|exact Hs].
Qed.

Lemma keep_fulfill conf frame_ok i ls i' ret ev :
  wb_fulfill conf frame_ok i ls = (i', ret, ev) -> Inv i ->
  Inv i' /\ calm (with_ring ls i) i' /\ events_from ls i ev.
Proof.
  intros E Hinv. eapply loop_flush; [exact E|]. apply loop_steps; [auto|].
  split; [exact Hinv|]. split; [|split; [intros e []%not_elem_of_nil|discriminate]].
  destruct (calm_refl i). constructor; cbn; auto. intros x l Hl Hx. exists l. split; [apply elem_of_cons; auto|auto].
Qed.
