(* ===== verification/WriteBehindOrder.v ===== *)
(** * Write-behind: every step, and the order of requests

    The invariant holds in every reachable state.  A request that conflicts with
    an acknowledged write stays behind it. *)

From S2P Require Import Prelude WriteBehind WriteBehindInv.
From stdpp Require Import gmap.
Open Scope Z_scope.

(** ** Arrival *)

Lemma arrival_ok s wsize size off osize isz :
  stub_ok s -> 0 <= size -> (sfop s = GF_FOP_WRITE -> wsize = iov_length (svector s)) ->
  arrival_range s wsize size = (off, osize, isz) ->
  0 <= off /\ (sfop s = GF_FOP_WRITE -> 0 < osize /\ off + osize = soffset s + wsize).
Proof.
  intros [H0 H1] Hs Hw E. unfold arrival_range in E.
  destruct (sfop s); try (injection E as <- <- <-; split; [lia|discriminate]).
  specialize (Hw eq_refl).
  destruct (Z.ltb_spec size (soffset s)); injection E as <- <- <-; split; [lia|intros _; lia|lia|intros _; lia].
Qed.

Lemma enqueue_fields i s t :
  exists r, let i' := wb_enqueue_common i s t in
  all i' = all i ++ [next_id i] /\ todo i' = todo i ++ [next_id i] /\ liability i' = liability i /\
  temptation i' = (if t then temptation i ++ [next_id i] else temptation i) /\ wip i' = wip i /\ gen i' = gen i /\
  reqs i' = <[next_id i := r]> (reqs i) /\ rings i' = rings i /\ calls i' = calls i /\ next_id i' = S (next_id i) /\
  rgen r = gen i /\ sfd (stub r) = sfd s /\ lied (ordering r) = false /\ tempted (ordering r) = t /\
  (stub_ok s -> (t = true -> sfop s = GF_FOP_WRITE) -> 0 <= isize i -> req_ok r).
Proof.
  unfold wb_enqueue_common.
  destruct (arrival_range s _ (isize i)) as [[off osize] isz] eqn:E. eexists. cbn.
  repeat (split; [reflexivity|]). intros Hs Ht Hsize.
  apply (arrival_ok _ _ _ _ _ _ Hs Hsize) in E as [E1 E2].
  - constructor; cbn; [exact Ht|apply E2| |exact E1|]; intros Hw; specialize (E2 Hw);
      destruct Hs as [H0 H1]; rewrite Hw in H1; rewrite bool_decide_true by exact Hw; [lia|].
    rewrite bool_decide_true in E2 by exact Hw. lia.
  - intros Hw. rewrite bool_decide_true by exact Hw. reflexivity.
Qed.

Lemma Inv_enqueue i s t :
  Inv i -> stub_ok s -> (t = true -> sfop s = GF_FOP_WRITE) -> 0 <= isize i -> Inv (wb_enqueue_common i s t).
Proof.
  intros Hinv Hs Ht Hsize.
  destruct (enqueue_fields i s t) as (r & Ea & Et & El & Ete & Ew & Eg & Er & _ & _ & En & Hg & _ & Hl & _ & Hok).
  specialize (Hok Hs Ht Hsize). destruct Hinv.
  assert (Hnew : next_id i ∉ all i) by (intros H%inv_fresh; lia).
  assert (Hold : forall x, x ∈ all i -> x <> next_id i) by (intros x H ->; auto).
  assert (Hte : forall x, x ∈ temptation (wb_enqueue_common i s t) -> x ∈ temptation i \/ x = next_id i).
  { intros x. rewrite Ete. destruct t; [rewrite elem_of_app, list_elem_of_singleton|]; auto. }
  constructor; rewrite ?Ea, ?Et, ?El, ?Ew, ?Eg, ?Er, ?En.
  - intros x. rewrite !elem_of_app, list_elem_of_singleton. intros H. destruct H as [[H|H]|[H|[H|H]]]; auto 10.
    destruct (Hte _ H); auto 10.
  - intros x. rewrite elem_of_app, list_elem_of_singleton, inv_dom. destruct (decide (x = next_id i)) as [-> |Hne].
    + rewrite lookup_insert_eq. split; eauto.
    + rewrite lookup_insert_ne by congruence. tauto.
  - intros x. rewrite elem_of_app, list_elem_of_singleton. intros [H%inv_fresh| ->]; lia.
  - apply NoDup_app. split; [assumption|]. split; [|apply NoDup_singleton].
    intros x H ->%list_elem_of_singleton. apply Hnew, inv_lists. auto.
  - assumption.
  - rewrite Ete. destruct t; [|assumption]. apply NoDup_app. split; [assumption|]. split; [|apply NoDup_singleton].
    intros x H ->%list_elem_of_singleton. apply Hnew, inv_lists. auto.
  - intros x [H| ->%list_elem_of_singleton]%elem_of_app; [auto|]. intros H. apply Hnew, inv_lists. auto.
  - intros x rx [[<- <-]|[Hne H]]%lookup_insert_Some; [split; [lia|]|eauto]. intros H. destruct Hnew. apply inv_lists. auto.
  - intros x rx [[<- <-]|[Hne H]]%lookup_insert_Some; [|eauto]. intros H. destruct Hnew. apply inv_lists. auto.
  - intros x rx [[<- <-]|[Hne H]]%lookup_insert_Some; [auto|].
    intros [H'|H']%Hte; [eauto|congruence].
  - intros x rx [[<- <-]|[Hne H]]%lookup_insert_Some; eauto.
  - intros a b ra rb Ha Hb Hab. rewrite !lookup_insert_ne by (apply not_eq_sym, Hold, inv_lists; auto). eauto.
Qed.

(** ** Every step *)

Lemma keep_calls i cs c c' cs' :
  calls i = cs ++ c :: cs' ->
  (forall x, x ∈ tasks c' -> x ∈ tasks c) -> (forall x, x ∈ liabilities c' -> x ∈ liabilities c) ->
  keep i (set_calls i (cs ++ c' :: cs')).
Proof.
  intros E Ht Hl Hinv. split; [destruct Hinv; constructor; assumption|].
  destruct (calm_refl i). constructor; cbn; auto.
  intros d [H|[-> |H]%elem_of_cons]%elem_of_app; rewrite E.
  - exists d. rewrite elem_of_app. auto.
  - exists c. rewrite elem_of_app, elem_of_cons. auto.
  - exists d. rewrite elem_of_app, elem_of_cons. auto.
Qed.

Lemma keep_calls_gone i cs c cs' : calls i = cs ++ c :: cs' -> keep i (set_calls i (cs ++ cs')).
Proof.
  intros E Hinv. split; [destruct Hinv; constructor; assumption|].
  destruct (calm_refl i). constructor; cbn; auto.
  intros d H. exists d. rewrite E, elem_of_app, elem_of_cons. apply elem_of_app in H. tauto.
Qed.

Lemma Inv_calls i cs : Inv i -> Inv (set_calls i cs).
Proof. intros []. constructor; assumption. Qed.

Lemma keep_pick_fold conf l : forall i ts ls i' ts' ls',
  foldl (pick_step conf) (i, ts, ls) l = (i', ts', ls') -> Inv i -> NoDup l -> (forall x, x ∈ l -> x ∉ wip i) ->
  Inv i' /\ calm i i'.
Proof.
  induction l as [|id l IH]; intros i ts ls i' ts' ls' E Hinv Hnd Hw; cbn [foldl] in E.
  - injection E as <- _ _. auto with wb.
  - apply NoDup_cons in Hnd as [Hid Hnd]. destruct (pick_step conf (i, ts, ls) id) as [[i1 ts1] ls1] eqn:E1.
    apply keep_pick_step in E1 as (I1 & C1 & W1 & _); [|exact Hinv|apply Hw, elem_of_cons; auto].
    apply IH in E as [I2 C2]; [eauto using calm_trans|exact I1|exact Hnd|].
    intros x Hx [H| ->]%W1; [|auto]. apply (Hw x); [apply elem_of_cons|]; auto.
Qed.

(** ** Conflicts last while requests grow *)

Lemma range_end_grown r r' : grown r r' -> req_ok r -> req_ok r' -> range_end r <= range_end r'.
Proof.
  intros [] [] []. destruct (decide (sfop (stub r) = GF_FOP_WRITE)) as [Hw|Hw].
  - rewrite gr_fop in *. specialize (ok_size Hw). specialize (ok_size0 Hw). specialize (ok_end Hw). specialize (ok_end0 Hw).
    unfold range_end. rewrite gr_off in *.
    destruct (Z.eqb_spec (o_size (ordering r)) 0), (Z.eqb_spec (o_size (ordering r')) 0); try lia.
    rewrite !Z.mod_small by lia. lia.
  - unfold range_end. rewrite gr_fixed by exact Hw. rewrite gr_off. lia.
Qed.

Lemma conflict_grown conf w w' r r' :
  wb_requests_conflict conf w r = true -> grown w w' -> grown r r' ->
  req_ok w -> req_ok w' -> req_ok r -> req_ok r' -> wb_requests_conflict conf w' r' = true.
Proof.
  intros H Gw Gr Ow Ow' Or Or'.
  pose proof (range_end_grown _ _ Gw Ow Ow') as Ew. pose proof (range_end_grown _ _ Gr Or Or') as Er.
  unfold wb_requests_conflict, wb_requests_overlap in *.
  rewrite (gr_gen _ _ Gw), (gr_gen _ _ Gr), (gr_fd _ _ Gw), (gr_fd _ _ Gr), (gr_append _ _ Gw),
    (gr_off _ _ Gw), (gr_off _ _ Gr).
  destruct (_ <=? _); [discriminate|]. destruct (match sfd (stub r) with Some _ => _ | None => _ end); [discriminate|].
  destruct (append _); [reflexivity|]. destruct (strict_write_ordering conf); [reflexivity|].
  apply andb_prop in H as [H1%Z.leb_le H2%Z.leb_le]. apply andb_true_intro. split; apply Z.leb_le; lia.
Qed.

Lemma liability_conflict_None conf rs l id req :
  liability_conflict conf rs l id req = None ->
  forall x e, x ∈ l -> x <> id -> rs !! x = Some e -> fulfilled (ordering e) = false ->
  wb_requests_conflict conf e req = false.
Proof.
  induction l as [|y l IH]; cbn [liability_conflict]; [intros _ x e []%not_elem_of_nil|].
  intros H x e [-> |Hx]%elem_of_cons Hne Hr Hf.
  - rewrite Hr, Hf in H. destruct (Nat.eqb_spec y id); [congruence|].
    destruct (wb_requests_conflict conf e req); [discriminate|reflexivity].
  - eapply IH; eauto. destruct (rs !! y) as [r|]; [|exact H]. destruct (_ && _ && _); [discriminate|exact H].
Qed.

(** ** The requests on the lists have arrived *)

Record known (i : wb_inode) : Prop := {
  kn_rings l x : l ∈ rings i -> x ∈ l -> (x < next_id i)%nat;
  kn_liabilities c x : c ∈ calls i -> x ∈ liabilities c -> (x < next_id i)%nat;
  kn_tasks c x : c ∈ calls i -> x ∈ tasks c -> (x < next_id i)%nat
}.

Lemma known_calm i i' : calm i i' -> known i -> known i'.
Proof.
  intros Hc [K1 K2 K3]. constructor; rewrite (calm_next _ _ Hc).
  - intros l x Hl Hx. destruct (calm_rings _ _ Hc _ _ Hl Hx) as (l0 & Hl0 & Hx0). eauto.
  - intros c x (c0 & Hc0 & _ & Hl)%(calm_calls _ _ Hc) Hx. eauto.
  - intros c x (c0 & Hc0 & Ht & _)%(calm_calls _ _ Hc) Hx. eauto.
Qed.

(** What is picked was on the list. *)
Lemma pick_fold_from conf l : forall i ts ls i' ts' ls',
  foldl (pick_step conf) (i, ts, ls) l = (i', ts', ls') -> Inv i -> NoDup l -> (forall x, x ∈ l -> x ∉ wip i) ->
  forall x, (x ∈ ts' -> x ∈ ts \/ x ∈ l) /\ (x ∈ ls' -> x ∈ ls \/ x ∈ l).
Proof.
  induction l as [|id l IH]; intros i ts ls i' ts' ls' E Hinv Hnd Hw x; cbn [foldl] in E.
  - injection E as _ <- <-. auto.
  - apply NoDup_cons in Hnd as [Hid Hnd]. destruct (pick_step conf (i, ts, ls) id) as [[i1 ts1] ls1] eqn:E1.
    apply keep_pick_step in E1 as (I1 & _ & W1 & L1 & T1); [|exact Hinv|apply Hw, elem_of_cons; auto].
    destruct (IH _ _ _ _ _ _ E I1 Hnd) with (x := x) as [H1 H2].
    { intros y Hy [H| ->]%W1; [|auto]. apply (Hw y); [apply elem_of_cons|]; auto. }
    rewrite elem_of_cons. split.
    + intros [[H|[-> _]]%T1|H]%H1; auto.
    + intros [[H|[-> _]]%L1|H]%H2; auto.
Qed.

(** ** A write and a request that waits for it *)

Section order.
Context (conf : wb_conf) (W R : nat) (t : bool).

(** [W] was acknowledged, and [R], which is tempted or not, conflicts with it. *)
Record ahead (i : wb_inode) : Prop := {
  ah_ne : W <> R;
  ah_W : (W < next_id i)%nat;
  ah_R : (R < next_id i)%nat;
  ah_lied w : reqs i !! W = Some w -> lied (ordering w) = true;
  ah_tempted r : reqs i !! R = Some r -> tempted (ordering r) = t;
  ah_conflict w r : reqs i !! W = Some w -> reqs i !! R = Some r -> wb_requests_conflict conf w r = true
}.

(** While [W] is not done, [R] does not go out, except to fail. *)
Record held (i : wb_inode) : Prop := {
  hd_rings l : W ∈ liability i -> l ∈ rings i -> R ∉ l;
  hd_liabilities c : W ∈ liability i -> c ∈ calls i -> R ∉ liabilities c;
  hd_tasks c : W ∈ liability i -> c ∈ calls i -> R ∈ tasks c -> failed i R
}.

Lemma ahead_calm i i' : Inv i -> Inv i' -> calm i i' -> ahead i -> ahead i'.
Proof.
  intros Hi Hi' Hc []. constructor; rewrite ?(calm_next _ _ Hc); auto.
  - intros w' (w & Hw & Hg)%(calm_reqs _ _ Hc). apply Hg. eauto.
  - intros r' (r & Hr & Hg)%(calm_reqs _ _ Hc). rewrite (gr_tempted _ _ Hg). eauto.
  - intros w' r' Hw' Hr'. destruct (calm_reqs _ _ Hc _ _ Hw') as (w & Hw & Gw).
    destruct (calm_reqs _ _ Hc _ _ Hr') as (r & Hr & Gr).
    eapply (conflict_grown conf w w' r r'); [eauto|exact Gw|exact Gr|..];
      [exact (inv_ok _ Hi _ _ Hw)|exact (inv_ok _ Hi' _ _ Hw')|exact (inv_ok _ Hi _ _ Hr)|exact (inv_ok _ Hi' _ _ Hr')].
Qed.

Lemma liability_calm i i' : calm i i' -> ahead i -> W ∈ liability i' -> W ∈ liability i.
Proof.
  intros Hc Ha H. destruct (calm_liability _ _ Hc _ H) as [H'|(w & Hw & Hl)]; [exact H'|].
  rewrite (ah_lied _ Ha _ Hw) in Hl. discriminate.
Qed.

Lemma held_calm i i' : calm i i' -> ahead i -> held i -> held i'.
Proof.
  intros Hc Ha [H1 H2 H3]. pose proof (liability_calm _ _ Hc Ha) as HW. constructor.
  - intros l HL Hl HR. destruct (calm_rings _ _ Hc _ _ Hl HR) as (l0 & Hl0 & HR0). exact (H1 _ (HW HL) Hl0 HR0).
  - intros c' HL (c & Hcc & _ & Hls)%(calm_calls _ _ Hc) HR. exact (H2 _ (HW HL) Hcc (Hls _ HR)).
  - intros c' HL (c & Hcc & Hts & _)%(calm_calls _ _ Hc) HR. eapply failed_calm; [exact Hc|]. exact (H3 _ (HW HL) Hcc (Hts _ HR)).
Qed.

Lemma not_clear i : Inv i -> ahead i -> W ∈ liability i -> clear conf i R -> False.
Proof.
  intros Hinv Ha HW (r & Hr & Hn).
  destruct (proj1 (inv_dom _ Hinv W) (inv_lists _ Hinv _ (or_intror (or_introl HW)))) as [w Hw].
  destruct (inv_lied _ Hinv _ _ Hw HW) as [_ Hf].
  pose proof (liability_conflict_None _ _ _ _ _ Hn _ _ HW (ah_ne _ Ha) Hw Hf) as H.
  rewrite (ah_conflict _ Ha _ _ Hw Hr) in H. discriminate.
Qed.

Lemma held_pick_fold l : forall i ts ls i' ts' ls',
  foldl (pick_step conf) (i, ts, ls) l = (i', ts', ls') -> Inv i -> NoDup l -> (forall x, x ∈ l -> x ∉ wip i) ->
  ahead i -> (W ∈ liability i -> (R ∉ ls) /\ (R ∈ ts -> failed i R)) ->
  W ∈ liability i' -> (R ∉ ls') /\ (R ∈ ts' -> failed i' R).
Proof.
  induction l as [|id l IH]; intros i ts ls i' ts' ls' E Hinv Hnd Hw Ha Hh; cbn [foldl] in E.
  - injection E as <- <- <-. exact Hh.
  - apply NoDup_cons in Hnd as [Hid Hnd]. destruct (pick_step conf (i, ts, ls) id) as [[i1 ts1] ls1] eqn:E1.
    apply keep_pick_step in E1 as (I1 & C1 & W1 & L1 & T1); [|exact Hinv|apply Hw, elem_of_cons; auto].
    apply (IH _ _ _ _ _ _ E I1 Hnd).
    + intros x Hx [H| ->]%W1; [|auto]. apply (Hw x); [apply elem_of_cons|]; auto.
    + exact (ahead_calm _ _ Hinv I1 C1 Ha).
    + intros HW%(liability_calm _ _ C1 Ha). destruct (Hh HW) as [HR HT]. split.
      * intros [H|[<- H]]%L1; [auto|]. exact (not_clear _ Hinv Ha HW H).
      * intros [H|[<- [H|H]]]%T1; [exact (failed_calm _ _ _ C1 (HT H))|exact H|].
        destruct (not_clear _ Hinv Ha HW H).
Qed.

(** The request [id] is passed on, or written. *)
Definition goes_out (id : nat) (ev : list event) : Prop :=
  Ev_resume id ∈ ev \/ exists ids offset data, Ev_writev ids offset data ∈ ev /\ id ∈ ids.

Lemma goes_out_nil id : ~ goes_out id [].
Proof. intros [H|(? & ? & ? & H & _)]; exact (not_elem_of_nil _ H). Qed.

(** What a step has to show. *)
Definition step_ok (i : wb_inode) (ev : list event) (i' : wb_inode) : Prop :=
  Inv i' /\ (known i -> known i') /\
  (ahead i -> held i -> ahead i' /\ held i' /\ (W ∈ liability i -> ~ goes_out R ev)).

Lemma step_keep i ev i' : Inv i -> keep i i' -> (forall id, ~ goes_out id ev) -> step_ok i ev i'.
Proof.
  intros Hinv Hk Hev. destruct (Hk Hinv) as [I1 C1]. split; [exact I1|]. split; [exact (known_calm _ _ C1)|].
  intros Ha Hh.
  split; [exact (ahead_calm _ _ Hinv I1 C1 Ha)|]. split; [exact (held_calm _ _ C1 Ha Hh)|auto].
Qed.

Lemma step_enqueue i s te size :
  Inv i -> stub_ok s -> (te = true -> sfop s = GF_FOP_WRITE) -> 0 <= size ->
  step_ok i [] (wb_enqueue_common (wb_set_inode_size i size) s te).
Proof.
  intros Hinv Hs Ht Hsize. pose proof (proj1 (keep_isize i size Hinv)) as I1.
  split; [exact (Inv_enqueue _ s te I1 Hs Ht Hsize)|].
  destruct (enqueue_fields (wb_set_inode_size i size) s te)
    as (r & _ & _ & El & _ & _ & _ & Er & Eri & Ec & En & _). cbn in El, Er, Eri, Ec, En.
  split.
  { intros [K1 K2 K3]. constructor; rewrite ?Eri, ?Ec, En; intros; apply Nat.lt_lt_succ_r; eauto. }
  intros [Hne HW HR Hl Hte Hc] [H1 H2 H3].
  split; [|split; [|intros _; apply goes_out_nil]].
  - constructor; rewrite ?En, ?Er; auto; try lia.
    + intros w. rewrite lookup_insert_ne by lia. auto.
    + intros w. rewrite lookup_insert_ne by lia. auto.
    + intros w r'. rewrite !lookup_insert_ne by lia. auto.
  - constructor; rewrite ?El, ?Eri, ?Ec; auto.
    intros c HL Hcc HRc r'. rewrite Er, lookup_insert_ne by lia. exact (H3 _ HL Hcc HRc r').
Qed.

Lemma step_pick i mem_ok i' c :
  Inv i -> wb_pick conf mem_ok i = (i', c) -> step_ok i [] (set_calls i' (c :: calls i')).
Proof.
  intros Hinv E. unfold wb_pick in E. destruct (keep_preprocess conf mem_ok i Hinv) as [I1 C1].
  set (i1 := __wb_preprocess_winds conf mem_ok i) in *.
  destruct (__wb_pick_winds conf i1) as [[i2 ts] ls] eqn:E2. destruct (__wb_pick_unwinds i2) as [i3 us] eqn:E3.
  injection E as <- <-. unfold __wb_pick_winds in E2.
  destruct (keep_pick_fold _ _ _ _ _ _ _ _ E2 I1 (inv_todo _ I1) (inv_apart _ I1)) as [I2 C2].
  destruct (keep_pick_unwinds _ _ _ E3 I2) as [I3 C3].
  pose proof (calm_trans _ _ _ C1 (calm_trans _ _ _ C2 C3)) as C.
  split; [apply Inv_calls, I3|]. split.
  { intros [K1 K2 K3]%(known_calm _ _ C).
    pose proof (pick_fold_from _ _ _ _ _ _ _ _ E2 I1 (inv_todo _ I1) (inv_apart _ I1)) as Hf.
    assert (Hn : forall x, x ∈ todo i1 -> (x < next_id i3)%nat).
    { intros x Hx. rewrite (calm_next _ _ C), <- (calm_next _ _ C1). apply (inv_fresh _ I1), (inv_lists _ I1). auto. }
    constructor; cbn; [exact K1| |].
    - intros c x [-> |Hc]%elem_of_cons Hx; [|eauto]. apply Hn.
      destruct (proj2 (Hf x) Hx) as [[]%not_elem_of_nil|H]; exact H.
    - intros c x [-> |Hc]%elem_of_cons Hx; [|eauto]. apply Hn.
      destruct (proj1 (Hf x) Hx) as [[]%not_elem_of_nil|H]; exact H. }
  intros Ha Hh.
  pose proof (ahead_calm _ _ Hinv I1 C1 Ha) as A1. pose proof (ahead_calm _ _ I1 I2 C2 A1) as A2.
  pose proof (held_pick_fold _ _ _ _ _ _ _ E2 I1 (inv_todo _ I1) (inv_apart _ I1) A1) as Hl.
  destruct (ahead_calm _ _ Hinv I3 C Ha). destruct (held_calm _ _ C Ha Hh).
  split; [constructor; assumption|]. split; [|intros _; apply goes_out_nil].
  assert (Hl' : W ∈ liability i3 -> (R ∉ ls) /\ (R ∈ ts -> failed i3 R)).
  { intros HW%(liability_calm _ _ C3 A2). destruct Hl as [HR HT]; [|exact HW|].
    - intros _. split; [apply not_elem_of_nil|intros []%not_elem_of_nil].
    - split; [exact HR|]. intros H. exact (failed_calm _ _ _ C3 (HT H)). }
  constructor; cbn; auto.
  - intros c HW [-> |Hc]%elem_of_cons; [apply (Hl' HW)|auto].
  - intros c HW [-> |Hc]%elem_of_cons; [apply (Hl' HW)|eauto].
Qed.

Lemma step_wind i cs id ts ls cs' i' ev :
  Inv i -> calls i = cs ++ mk_call [] (id :: ts) ls :: cs' ->
  wb_do_wind (set_calls i (cs ++ mk_call [] ts ls :: cs')) id = (i', ev) -> step_ok i ev i'.
Proof.
  intros Hinv E0 E. unfold wb_do_wind in E.
  assert (K0 : keep i (set_calls i (cs ++ mk_call [] ts ls :: cs'))).
  { apply (keep_calls _ _ _ _ _ E0); cbn; [|auto]. intros x. rewrite elem_of_cons. auto. }
  cbn [set_calls reqs] in E. destruct (reqs i !! id) as [r|] eqn:Hr;
    [|injection E as <- <-; apply step_keep; [exact Hinv|exact K0|apply goes_out_nil]].
  injection E as <- <-.
  assert (K1 : keep i (__wb_request_unref (set_calls i (cs ++ mk_call [] ts ls :: cs')) id))
    by exact (keep_trans _ _ _ K0 (keep_unref _ id)).
  destruct (K1 Hinv) as [I1 C1]. split; [exact I1|]. split; [exact (known_calm _ _ C1)|]. intros Ha Hh.
  split; [exact (ahead_calm _ _ Hinv I1 C1 Ha)|]. split; [exact (held_calm _ _ C1 Ha Hh)|].
  intros HW [H%list_elem_of_singleton|(ids & o & d & H%list_elem_of_singleton & _)].
  - destruct (Z.eqb_spec (op_ret r) (-1)) as [Hf|Hf]; [discriminate|]. injection H as <-.
    apply Hf. apply (hd_tasks _ Hh (mk_call [] (R :: ts) ls) HW); [|apply elem_of_cons; auto|exact Hr].
    rewrite E0, elem_of_app, elem_of_cons. auto.
  - destruct (_ =? _); discriminate.
Qed.

Lemma step_fulfill i cs ls cs' frame_ok i' ret ev :
  Inv i -> calls i = cs ++ mk_call [] [] ls :: cs' ->
  wb_fulfill conf frame_ok (set_calls i (cs ++ cs')) ls = (i', ret, ev) -> step_ok i ev i'.
Proof.
  intros Hinv E0 E. destruct (keep_calls_gone _ _ _ _ E0 Hinv) as [I0 C0].
  destruct (keep_fulfill _ _ _ _ _ _ _ E I0) as (I1 & C1 & Ev). split; [exact I1|].
  set (i0 := set_calls i (cs ++ cs')) in *. split.
  { intros Hk. destruct (known_calm _ _ C0 Hk) as [K1 K2 K3]. apply (known_calm _ _ C1). constructor; auto.
    intros l x [-> |Hl]%elem_of_cons Hx; [|exact (K1 _ _ Hl Hx)].
    apply (kn_liabilities _ Hk (mk_call [] [] ls)); [|exact Hx]. rewrite E0, elem_of_app, elem_of_cons. auto. }
  intros Ha Hh.
  assert (A0 : ahead (with_ring ls i0)) by (destruct (ahead_calm _ _ Hinv I0 C0 Ha); constructor; assumption).
  assert (Ir : Inv (with_ring ls i0)) by (destruct I0; constructor; assumption).
  assert (Hr : forall l, W ∈ liability i -> l ∈ rings (with_ring ls i0) -> R ∉ l).
  { intros l HW [-> |Hl]%elem_of_cons; [|exact (hd_rings _ Hh _ HW Hl)].
    apply (hd_liabilities _ Hh (mk_call [] [] ls) HW). rewrite E0, elem_of_app, elem_of_cons. auto. }
  assert (H0 : held (with_ring ls i0)).
  { destruct (held_calm _ _ C0 Ha Hh). constructor; assumption. }
  split; [exact (ahead_calm _ _ Ir I1 C1 A0)|]. split; [exact (held_calm _ _ C1 A0 H0)|].
  intros HW [H|(ids & o & d & H & HR)]; [exact (Ev _ H)|].
  destruct (Ev _ H _ HR) as (l & Hl & HRl). exact (Hr l HW Hl HRl).
Qed.

Lemma step_step_ok i ev i' : wb_step conf i ev i' -> Inv i -> step_ok i ev i'.
Proof.
  intros H Hinv. destruct H as [i s te size Hs Ht Hz|i mem_ok i' c E|i cs id us ts ls cs' i' ev E0 E
    |i cs id ts ls cs' i' ev E0 E|i cs ls cs' frame_ok i' ret ev E0 E|i h ret errno|i h size i' req E|i req|i id|i size Hz].
  - apply step_enqueue; auto. lia.
  - exact (step_pick _ _ _ _ Hinv E).
  - unfold wb_do_unwind in E.
    assert (K0 : keep i (set_calls i (cs ++ mk_call us ts ls :: cs'))) by (apply (keep_calls _ _ _ _ _ E0); auto).
    destruct (reqs _ !! id) as [r|]; injection E as <- <-;
      apply step_keep; [exact Hinv|exact (keep_trans _ _ _ K0 (keep_unref _ id))| |exact Hinv|exact K0|apply goes_out_nil].
    intros x [H%list_elem_of_singleton|(ids & o & d & H%list_elem_of_singleton & _)]; discriminate.
  - exact (step_wind _ _ _ _ _ _ _ _ Hinv E0 E).
  - exact (step_fulfill _ _ _ _ _ _ _ _ Hinv E0 E).
  - apply step_keep; [exact Hinv|apply keep_fulfill_cbk|apply goes_out_nil].
  - apply step_keep; [exact Hinv|exact (keep_short_account _ _ _ _ _ E)|apply goes_out_nil].
  - apply step_keep; [exact Hinv|apply keep_head_retry|apply goes_out_nil].
  - apply step_keep; [exact Hinv|apply keep_unref|apply goes_out_nil].
  - apply step_keep; [exact Hinv|apply keep_isize|apply goes_out_nil].
Qed.

Lemma run_held i evs i' : wb_run conf i evs i' -> Inv i -> ahead i -> held i -> Inv i' /\ ahead i' /\ held i'.
Proof.
  induction 1 as [i|i ev i' evs i'' Hs _ IH]; intros Hinv Ha Hh; [auto|].
  destruct (step_step_ok _ _ _ Hs Hinv) as (I1 & _ & H1). destruct (H1 Ha Hh) as (A1 & H1' & _). auto.
Qed.
End order.

Lemma Inv_create conf : Inv (__wb_inode_create conf).
Proof.
  constructor; cbn; try apply NoDup_nil_2.
  - intros x [H|[H|[H|H]]]; exact H.
  - intros x. rewrite lookup_empty. split; [intros []%not_elem_of_nil|intros [? [=]]].
  - intros x []%not_elem_of_nil.
  - intros x []%not_elem_of_nil.
  - intros x r. rewrite lookup_empty. discriminate.
  - intros x r. rewrite lookup_empty. discriminate.
  - intros x r. rewrite lookup_empty. discriminate.
  - intros x r. rewrite lookup_empty. discriminate.
  - intros a b ra rb []%not_elem_of_nil.
Qed.

Lemma run_Inv conf i evs i' : wb_run conf i evs i' -> Inv i -> known i -> Inv i' /\ known i'.
Proof.
  induction 1 as [i|i ev i' evs i'' Hs _ IH]; intros Hinv Hk; [auto|].
  destruct (step_step_ok conf 0 0 true _ _ _ Hs Hinv) as (I1 & K1 & _). auto.
Qed.

Lemma reach_Inv conf i : wb_reach conf i -> Inv i /\ known i.
Proof.
  intros [evs H]. apply (run_Inv _ _ _ _ H (Inv_create conf)).
  constructor; intros ? x []%not_elem_of_nil.
Qed.

(** A request that arrives behind a conflicting liability. *)
Lemma arrival_ahead conf i W w s t size r :
  let R := next_id i in
  let i1 := wb_enqueue_common (wb_set_inode_size i size) s t in
  Inv i -> known i -> W ∈ liability i -> reqs i !! W = Some w -> reqs i1 !! R = Some r ->
  sfd s = None \/ sfd (stub w) = sfd s ->
  append (ordering w) = true \/ strict_write_ordering conf = true \/ wb_requests_overlap w r = true ->
  ahead conf W R t i1 /\ held W R i1.
Proof.
  intros R i1 Hinv Hk HW Hw Hr Hfd Hc.
  destruct (enqueue_fields (wb_set_inode_size i size) s t)
    as (r' & _ & _ & El & _ & _ & _ & Er & Eri & Ec & En & Hg & Hsfd & _ & Hte & _).
  fold i1 in El, Er, Eri, Ec, En. cbn in El, Er, Eri, Ec, En, Hg.
  rewrite Er in Hr. unfold R in Hr. rewrite lookup_insert_eq in Hr. injection Hr as ->.
  assert (HWn : (W < next_id i)%nat) by (apply (inv_fresh _ Hinv), (inv_lists _ Hinv); auto).
  destruct (inv_gen _ Hinv _ _ Hw) as [_ Hgen]. specialize (Hgen HW).
  destruct (inv_lied _ Hinv _ _ Hw HW) as [Hl _]. split.
  - constructor; unfold R; rewrite ?En; try lia.
    + intros w'. rewrite Er, lookup_insert_ne by lia. congruence.
    + intros r'. rewrite Er, lookup_insert_eq. intros [= <-]. exact Hte.
    + intros w' r'. rewrite Er, lookup_insert_ne, lookup_insert_eq by lia. intros H1 [= <-].
      rewrite Hw in H1. injection H1 as <-. unfold wb_requests_conflict. rewrite Hg, Hsfd.
      destruct (Z.leb_spec (gen i) (rgen w)); [lia|].
      replace (match sfd s with Some _ => _ | None => _ end) with false.
      * destruct Hc as [-> |[-> | ->]]; [reflexivity|destruct (append _); reflexivity|].
        destruct (append _), (strict_write_ordering conf); reflexivity.
      * destruct Hfd as [-> | ->]; [reflexivity|]. destruct (sfd s); [|reflexivity].
        rewrite bool_decide_true by reflexivity. reflexivity.
  - constructor; unfold R; rewrite ?Eri, ?Ec.
    + intros l _ Hl' H. pose proof (kn_rings _ Hk _ _ Hl' H). lia.
    + intros c _ Hcc H. pose proof (kn_liabilities _ Hk _ _ Hcc H). lia.
    + intros c _ Hcc H. pose proof (kn_tasks _ Hk _ _ Hcc H). lia.
Qed.

(** ** Collapsing *)

(** When the queue is preprocessed, the turn of [id] makes another write longer. *)
Definition collapsed (conf : wb_conf) (mem_ok : nat -> bool) (i : wb_inode) (id : nat) : Prop :=
  exists before after, todo i = before ++ id :: after /\
    let st := foldl (preprocess_step conf mem_ok) (i, None) before in
    exists h, h <> id /\ write_size_of (preprocess_step conf mem_ok st id).1 h <> write_size_of st.1 h.

(** Only tempted writes are collapsed. *)
Lemma untempted_not_collapsed conf mem_ok i id :
  Inv i -> (forall r, reqs i !! id = Some r -> tempted (ordering r) = false) -> ~ collapsed conf mem_ok i id.
Proof.
  intros Hinv Ht (before & after & E & h & Hne & Hw). apply Hw. clear Hw.
  destruct (foldl _ _ before) as [i1 holder] eqn:E1.
  apply keep_preprocess_fold in E1 as (_ & C1 & _); [|exact Hinv|exact I|].
  2:{ intros x Hx. apply (inv_apart _ Hinv). rewrite E. apply elem_of_app. auto. }
  cbn [fst]. unfold preprocess_step. destruct (reqs i1 !! id) as [req|] eqn:Hr; [|reflexivity].
  destruct (calm_reqs _ _ C1 _ _ Hr) as (r & Hr0 & Hg). rewrite (gr_tempted _ _ Hg), (Ht _ Hr0). cbn [negb].
  destruct (_ && _); [reflexivity|]. destruct holder as [k|]; [|reflexivity]. destruct (reqs i1 !! k) as [kr|] eqn:Hk; [|reflexivity].
  destruct (wb_requests_conflict conf kr req); [|reflexivity]. unfold write_size_of, upd_ordering, upd. cbn [fst reqs set_reqs].
  destruct (decide (h = k)) as [-> |Hhk]; [rewrite lookup_alter_eq, Hk; reflexivity|]. rewrite lookup_alter_ne by congruence. reflexivity.
Qed.

(** ** [wb_process_queue] is a run *)

Lemma run_app conf i1 ev1 i2 ev2 i3 : wb_run conf i1 ev1 i2 -> wb_run conf i2 ev2 i3 -> wb_run conf i1 (ev1 ++ ev2) i3.
Proof. induction 1; cbn [app]; eauto using Run_step. Qed.

(** The calls are those of before, without some requests. *)
Definition shrunk (c c' : call) : Prop :=
  (length (lies c') <= length (lies c) /\ length (tasks c') <= length (tasks c))%nat.

Lemma calls_unref i id c cs :
  calls i = c :: cs -> exists c' cs', calls (__wb_request_unref i id) = c' :: cs' /\ shrunk c c'.
Proof.
  intros E. unfold __wb_request_unref. destruct (reqs i !! id) as [r|]; [|exists c, cs; repeat split; auto].
  destruct (_ <=? _); [exists c, cs; repeat split; auto|].
  destruct (_ =? _); [|exists c, cs; repeat split; auto]. cbn. rewrite E. cbn. eexists _, _.
  split; [reflexivity|]. split; cbn; apply length_filter.
Qed.

Lemma run_unwinds_run conf fuel : forall i c cs i' ev,
  run_unwinds fuel i = (i', ev) -> calls i = c :: cs -> (length (lies c) <= fuel)%nat ->
  exists evs c' cs', wb_run conf i evs i' /\ concat evs = ev /\ calls i' = c' :: cs' /\ lies c' = [] /\
    (length (tasks c') <= length (tasks c))%nat.
Proof.
  induction fuel as [|fuel IH]; intros i [us ts ls] cs i' ev E Ec Hf; cbn [run_unwinds] in E.
  - injection E as <- <-. destruct us; [|cbn in Hf; lia]. exists [], (mk_call [] ts ls), cs.
    repeat split; auto using Run_nil.
  - rewrite Ec in E. destruct us as [|id us].
    { injection E as <- <-. exists [], (mk_call [] ts ls), cs. repeat split; auto using Run_nil. }
    destruct (wb_do_unwind _ id) as [i1 ev1] eqn:E1. destruct (run_unwinds fuel i1) as [i2 ev2] eqn:E2.
    injection E as <- <-.
    assert (Hc : exists c1 cs1, calls i1 = c1 :: cs1 /\ shrunk (mk_call us ts ls) c1).
    { unfold wb_do_unwind in E1. cbn [set_calls reqs] in E1. destruct (reqs i !! id); injection E1 as <- _.
      - apply (calls_unref _ id (mk_call us ts ls) cs). reflexivity.
      - exists (mk_call us ts ls), cs. repeat split; auto. }
    destruct Hc as (c1 & cs1 & Ec1 & Hl & Ht). cbn in Hl, Ht, Hf.
    destruct (IH _ _ _ _ _ E2 Ec1 ltac:(lia)) as (evs & c' & cs' & Hr & <- & Ec' & Hl' & Ht').
    exists (ev1 :: evs), c', cs'. repeat split; auto; [|cbn in *; lia].
    eapply Run_step; [|exact Hr]. apply (St_unwind _ i [] id us ts ls cs i1 ev1 Ec E1).
Qed.

Lemma run_winds_run conf fuel : forall i c cs i' ev,
  run_winds fuel i = (i', ev) -> calls i = c :: cs -> lies c = [] -> (length (tasks c) <= fuel)%nat ->
  exists evs c' cs', wb_run conf i evs i' /\ concat evs = ev /\ calls i' = c' :: cs' /\ lies c' = [] /\ tasks c' = [].
Proof.
  induction fuel as [|fuel IH]; intros i [us ts ls] cs i' ev E Ec Hu Hf; cbn in Hu; subst us; cbn [run_winds] in E.
  - injection E as <- <-. destruct ts; [|cbn in Hf; lia]. exists [], (mk_call [] [] ls), cs.
    repeat split; auto using Run_nil.
  - rewrite Ec in E. destruct ts as [|id ts].
    { injection E as <- <-. exists [], (mk_call [] [] ls), cs. repeat split; auto using Run_nil. }
    destruct (wb_do_wind _ id) as [i1 ev1] eqn:E1. destruct (run_winds fuel i1) as [i2 ev2] eqn:E2.
    injection E as <- <-.
    assert (Hc : exists c1 cs1, calls i1 = c1 :: cs1 /\ shrunk (mk_call [] ts ls) c1).
    { unfold wb_do_wind in E1. cbn [set_calls reqs] in E1. destruct (reqs i !! id); injection E1 as <- _.
      - apply (calls_unref _ id (mk_call [] ts ls) cs). reflexivity.
      - exists (mk_call [] ts ls), cs. repeat split; auto. }
    destruct Hc as (c1 & cs1 & Ec1 & Hl & Ht). cbn in Hl, Ht, Hf.
    destruct (IH _ _ _ _ _ E2 Ec1) as (evs & c' & cs' & Hr & <- & Ec' & Hl' & Ht'); [|lia|].
    { destruct (lies c1); [reflexivity|cbn in Hl; lia]. }
    exists (ev1 :: evs), c', cs'. repeat split; auto.
    eapply Run_step; [|exact Hr]. apply (St_wind _ i [] id ts ls cs i1 ev1 Ec E1).
Qed.

(** Processing the queue in one thread is one of the interleavings. *)
Lemma process_queue_run conf fuel mem_ok frame_ok : forall i i' ev,
  wb_process_queue conf fuel mem_ok frame_ok i = (i', ev) -> exists evs, wb_run conf i evs i' /\ concat evs = ev.
Proof.
  induction fuel as [|fuel IH]; intros i i' ev E; cbn [wb_process_queue] in E.
  - injection E as <- <-. exists []. auto using Run_nil.
  - destruct (wb_pick conf mem_ok i) as [i1 c] eqn:E1.
    destruct (run_unwinds _ _) as [i2 ev1] eqn:E2. destruct (run_winds _ i2) as [i3 ev2] eqn:E3.
    destruct (run_unwinds_run conf _ _ c (calls i1) _ _ E2 eq_refl (le_n _))
      as (evs1 & c1 & cs1 & R1 & <- & Ec1 & L1 & T1).
    destruct (run_winds_run conf _ _ _ _ _ _ E3 Ec1 L1 T1) as (evs2 & [us ts ls] & cs2 & R2 & <- & Ec2 & L2 & T2).
    cbn in L2, T2. subst us ts. rewrite Ec2 in E. cbn [liabilities] in E.
    destruct (wb_fulfill _ _ _ _) as [[i4 ret] ev3] eqn:E4.
    destruct (if ret =? 0 then _ else _) as [i5 ev4] eqn:E5. injection E as <- <-.
    assert (R5 : exists evs, wb_run conf i4 evs i5 /\ concat evs = ev4).
    { destruct (ret =? 0); [injection E5 as <- <-; exists []; auto using Run_nil|exact (IH _ _ _ E5)]. }
    destruct R5 as (evs5 & R5 & <-).
    exists (([] :: evs1) ++ evs2 ++ ev3 :: evs5). split.
    + eapply run_app; [eapply Run_step; [|exact R1]; eapply St_pick; exact E1|].
      eapply run_app; [exact R2|]. eapply Run_step; [|exact R5].
      apply (St_fulfill _ i3 [] ls cs2 frame_ok i4 ret ev3 Ec2 E4).
    + rewrite !concat_app. reflexivity.
Qed.

Lemma enqueue_reach conf res i s t errno i' ev :
  enqueue_and_process conf res i s t errno = H_queued i' ev ->
  stub_ok s -> (t = true -> sfop s = GF_FOP_WRITE) -> 0 <= isize i < 2 ^ 63 -> wb_reach conf i -> wb_reach conf i'.
Proof.
  unfold enqueue_and_process. destruct (_ && _); [|discriminate].
  destruct (wb_process_queue _ _ _ _ _) as [i1 ev1] eqn:E. intros [= <- _] Hs Ht Hz [evs Hr].
  destruct (process_queue_run _ _ _ _ _ _ _ E) as (evs' & Hr' & _).
  exists (evs ++ [] :: evs'). eapply run_app; [exact Hr|]. eapply Run_step; [|exact Hr'].
  replace i with (wb_set_inode_size i (isize i)) at 2 by (destruct i; reflexivity). apply St_enqueue; assumption.
Qed.
