(* ===== verification/WriteBehindProps.v ===== *)
(** * Write-behind: properties

    Writes on their way to the server never overlap, and a request that
    conflicts with an acknowledged write waits for it.  The runs at the end are
    ones where the engine does not keep what it promised. *)

From S2P Require Import Prelude WriteBehind WriteBehindInv WriteBehindOrder.
From stdpp Require Import gmap.
Open Scope Z_scope.

(** ** Runs in one thread *)

Definition write_stub (off : Z) (v : list (list Z)) : call_stub :=
  mk_stub GF_FOP_WRITE (Some 1%nat) false off 0 v 7.
Definition read_stub (off size : Z) : call_stub := mk_stub GF_FOP_READ (Some 1%nat) false off size [] 7.

(** A page of 8 bytes, and a window of [window]. *)
Definition small_conf (window : Z) : wb_conf := mk_conf 8 window true false false 8.

Definition yes (_ : nat) : bool := true.

Definition plenty : resources := mk_resources true true yes yes 5.

(** The handler [h] runs on the inode; its events are added. *)
Definition arrive (h : option wb_inode -> outcome) (st : wb_inode * list event) : wb_inode * list event :=
  match h (Some st.1) with
  | H_queued i ev => (i, st.2 ++ ev)
  | _ => st
  end.
Definition writes (conf : wb_conf) (off : Z) (v : list (list Z)) (c : option wb_inode) : outcome :=
  wb_writev conf plenty c false 0 0 (write_stub off v).
Definition reads (conf : wb_conf) (off size : Z) (c : option wb_inode) : outcome :=
  wb_readv conf plenty c 1 size off 7.

(** An inode of a file of 200 bytes. *)
Definition start (conf : wb_conf) : wb_inode * list event :=
  (wb_set_inode_size (__wb_inode_create conf) 200, []).

(** Two writes that are picked together. *)
Definition two_writes : wb_inode :=
  let conf := small_conf 100 in
  let i := wb_enqueue_common (wb_set_inode_size (__wb_inode_create conf) 50) (write_stub 0 [[1]]) true in
  let i := wb_enqueue_common (wb_set_inode_size i 50) (write_stub 10 [[2]]) true in
  let '(i, c) := wb_pick conf yes i in set_calls i (c :: calls i).

Ltac stub_tac := repeat split; vm_compute; first [reflexivity | discriminate].

Lemma two_writes_reach : wb_reach (small_conf 100) two_writes.
Proof.
  eexists. eapply Run_step.
  { apply (St_enqueue _ _ (write_stub 0 [[1]]) true 50); [stub_tac|reflexivity|lia]. }
  eapply Run_step.
  { apply (St_enqueue _ _ (write_stub 10 [[2]]) true 50); [stub_tac|reflexivity|lia]. }
  eapply Run_step; [|apply Run_nil].
  unfold two_writes. destruct (wb_pick _ yes _) as [i c] eqn:E. eapply St_pick. exact E.
Qed.

(** ** Claims *)

(** C12: in every state that any interleaving of the engine's steps can reach,
    and whatever the server answers, the writes on their way to the server have
    pairwise disjoint ranges: the server may perform them in any order. *)
Theorem writes_in_progress_disjoint (conf : wb_conf) (i : wb_inode) (a b : nat) (ra rb : wb_request) :
  wb_reach conf i -> a ∈ wip i -> b ∈ wip i -> a <> b -> reqs i !! a = Some ra -> reqs i !! b = Some rb ->
  wb_requests_overlap ra rb = false.
Proof. intros [H _]%reach_Inv. exact (inv_disjoint _ H a b ra rb). Qed.

Lemma writes_in_progress_disjoint_witness :
  wip two_writes = [0%nat; 1%nat] /\
  match reqs two_writes !! 0%nat, reqs two_writes !! 1%nat with
  | Some ra, Some rb => wb_requests_overlap ra rb = false
  | _, _ => False
  end.
Proof.
  split; [vm_compute; reflexivity|].
  destruct (reqs two_writes !! 0%nat) as [ra|] eqn:Ea; [|vm_compute in Ea; discriminate].
  destruct (reqs two_writes !! 1%nat) as [rb|] eqn:Eb; [|vm_compute in Eb; discriminate].
  apply (writes_in_progress_disjoint (small_conf 100) two_writes 0 1 ra rb); [exact two_writes_reach| | |discriminate|..].
  - vm_compute. apply elem_of_cons. auto.
  - vm_compute. apply elem_of_cons. right. apply elem_of_cons. auto.
  - exact Ea.
  - exact Eb.
Defined.

(** C11: take a liability [W], a write that was acknowledged and is neither written nor
    collapsed into an earlier one, and a request [R] that arrives then and is not
    tempted: anything but a write that may be acknowledged early (a read, flush,
    fsync, truncation, stat, a synchronous write).  It is on the same descriptor or
    on none, and its range overlaps that of [W] (or [W] appends, or strict ordering
    is set).  In whatever way the steps interleave, as long as [W] is a liability [R]
    is neither passed on nor written, and its data is not collapsed into another
    write.  For tempted writes see [collapsed_write_overtakes]. *)
Theorem acknowledged_write_first (conf : wb_conf) (i0 i1 i2 i3 : wb_inode) (W : nat) (w r : wb_request)
    (s : call_stub) (size : Z) (evs : list (list event)) (ev : list event) :
  wb_reach conf i0 -> W ∈ liability i0 -> reqs i0 !! W = Some w -> stub_ok s -> 0 <= size < 2 ^ 63 ->
  i1 = wb_enqueue_common (wb_set_inode_size i0 size) s false -> reqs i1 !! next_id i0 = Some r ->
  sfd s = None \/ sfd (stub w) = sfd s ->
  append (ordering w) = true \/ strict_write_ordering conf = true \/ wb_requests_overlap w r = true ->
  wb_run conf i1 evs i2 -> wb_step conf i2 ev i3 -> W ∈ liability i2 ->
  ~ goes_out (next_id i0) ev /\ forall mem_ok, ~ collapsed conf mem_ok i2 (next_id i0).
Proof.
  intros [I0 K0]%reach_Inv HW Hw Hs Hz -> Hr Hfd Hc Hrun Hstep HW2.
  pose proof (proj1 (step_enqueue conf 0 0 false i0 s false size I0 Hs ltac:(discriminate) (proj1 Hz))) as I1.
  destruct (arrival_ahead conf i0 W w s false size r I0 K0 HW Hw Hr Hfd Hc) as [A1 H1].
  destruct (run_held _ _ _ _ _ _ _ Hrun I1 A1 H1) as (I2 & A2 & H2).
  destruct (step_step_ok conf W (next_id i0) false _ _ _ Hstep I2) as (_ & _ & H3).
  destruct (H3 A2 H2) as (_ & _ & H4). split; [exact (H4 HW2)|].
  intros mem_ok. apply untempted_not_collapsed; [exact I2|]. exact (ah_tempted _ _ _ _ _ A2).
Qed.

(** A write was acknowledged, and a read of its range arrives. *)
Definition one_write : wb_inode :=
  let conf := small_conf 100 in
  let i := wb_enqueue_common (wb_set_inode_size (__wb_inode_create conf) 0) (write_stub 0 [[1]]) true in
  let '(i, c) := wb_pick conf yes i in set_calls i (c :: calls i).
Definition read_behind : wb_inode := wb_enqueue_common (wb_set_inode_size one_write 1) (read_stub 0 1) false.

(** Then the write goes out. *)
Definition unwound : wb_inode := (wb_do_unwind (set_calls read_behind [mk_call [] [] [0%nat]]) 0).1.
Definition written : wb_inode * Z * list event :=
  wb_fulfill (small_conf 100) yes (set_calls unwound []) [0%nat].

Lemma acknowledged_write_first_witness :
  liability one_write = [0%nat] /\ written.2 = [Ev_writev [0%nat] 0 [1]] /\
  (~ goes_out 1 written.2 /\ forall mem_ok, ~ collapsed (small_conf 100) mem_ok unwound 1).
Proof.
  split; [vm_compute; reflexivity|]. split; [vm_compute; reflexivity|].
  destruct (reqs one_write !! 0%nat) as [w|] eqn:Hw; [|vm_compute in Hw; discriminate].
  destruct (reqs read_behind !! 1%nat) as [r|] eqn:Hr; [|vm_compute in Hr; discriminate].
  apply (acknowledged_write_first (small_conf 100) one_write read_behind unwound written.1.1
           0 w r (read_stub 0 1) 1 [[Ev_unwind 0 1 0]] written.2).
  - eexists. eapply Run_step.
    { apply (St_enqueue _ _ (write_stub 0 [[1]]) true 0); [stub_tac|reflexivity|lia]. }
    eapply Run_step; [|apply Run_nil].
    unfold one_write. destruct (wb_pick _ yes _) as [i' c'] eqn:E'. eapply St_pick. exact E'.
  - vm_compute. apply elem_of_cons. auto.
  - exact Hw.
  - stub_tac.
  - lia.
  - reflexivity.
  - exact Hr.
  - right. vm_compute in Hw. injection Hw as <-. reflexivity.
  - right. right. vm_compute in Hw, Hr. injection Hw as <-. injection Hr as <-. reflexivity.
  - eapply Run_step; [|apply Run_nil]. apply (St_unwind _ _ [] 0 [] [] [0%nat] []); vm_compute; reflexivity.
  - apply (St_fulfill _ _ [] [0%nat] [] yes _ written.1.2); [vm_compute; reflexivity|].
    unfold written. cbn [app]. destruct (wb_fulfill _ _ _ _) as [[i' ret] ev]. reflexivity.
  - vm_compute. apply elem_of_cons. auto.
Defined.

(** ** Runs that break a promise *)

(** With the window full, a write that is collapsed into one that waits is
    acknowledged, but it is no liability: a read of its range on the same
    descriptor is passed on before the data was written. *)
Lemma collapsed_write_read_stale :
  let conf := small_conf 1 in
  (arrive (reads conf 101 1) (arrive (writes conf 101 [[9]]) (arrive (writes conf 100 [[8]])
    (arrive (writes conf 0 [[1; 2]]) (start conf))))).2 =
  [Ev_unwind 0 2 0; Ev_writev [0%nat] 0 [1; 2]; Ev_unwind 2 1 0; Ev_resume 3].
Proof. vm_compute. reflexivity. Qed.

(** A write that waits in the queue with another thread about to process it. *)
Definition waiting (conf : wb_conf) (off : Z) (v : list (list Z)) : wb_inode * list event :=
  (wb_enqueue_common (start conf).1 (write_stub off v) true, []).

(** The write 0 is acknowledged and fails, so that it has to be written again.  The
    write 1 came before that acknowledgement and waits.  Before the queue is
    processed, the write 2 of the range of write 0 arrives: it is collapsed into
    write 1, acknowledged, and goes out with it, though write 0 is a liability that
    it conflicts with.  Write 0 is then written over the newer data. *)
Lemma collapsed_write_overtakes :
  let conf := mk_conf 8 2 false false false 8 in
  let sent := arrive (writes conf 8 [[8; 9]]) (waiting conf 10 [[1; 2; 3]]) in
  let failed := wb_fulfill_cbk conf sent.1 0 (-1) 5 in
  let next := wb_enqueue_common failed (write_stub 10 [[4; 5]]) true in
  let gone := arrive (writes conf 50 [[6]]) (next, []) in
  sent.2 = [Ev_unwind 0 3 0; Ev_writev [0%nat] 10 [1; 2; 3]] /\ liability failed = [0%nat] /\ collapsed conf yes next 2 /\
  gone.2 = [Ev_unwind 2 2 0; Ev_writev [1%nat] 8 [8; 9; 4; 5]] /\ liability gone.1 = [0%nat] /\
  (arrive (writes conf 70 [[7]]) (wb_process_queue conf 5 yes yes (wb_fulfill_cbk conf gone.1 1 4 0))).2 =
    [Ev_unwind 1 2 0; Ev_writev [0%nat] 10 [1; 2; 3]; Ev_writev [3%nat] 50 [6]].
Proof.
  cbn zeta. split; [vm_compute; reflexivity|]. split; [vm_compute; reflexivity|]. split; [|vm_compute; auto].
  exists [0%nat; 1%nat], []. split; [vm_compute; reflexivity|]. exists 1%nat. split; [discriminate|]. vm_compute. discriminate.
Qed.

(** The vectors of the head of a group are not counted: two writes of five
    vectors each do not fit the array of eight. *)
Lemma group_overflows_vectors :
  let conf := small_conf 100 in
  (arrive (writes conf 5 [[6]; [7]; [8]; [9]; [10]]) (waiting conf 0 [[1]; [2]; [3]; [4]; [5]])).2 =
  [Ev_unwind 0 5 0; Ev_unwind 1 5 0; Ev_overflow [0%nat; 1%nat]].
Proof. vm_compute. reflexivity. Qed.

(** A holder with two vectors loses data when a write is collapsed into it:
    the length of its first vector alone grows. *)
Lemma collapse_truncates :
  let conf := small_conf 100 in
  (arrive (writes conf 2 [[3]]) (waiting conf 0 [[1]; [2]])).2 =
  [Ev_unwind 0 2 0; Ev_unwind 1 1 0; Ev_writev [0%nat] 0 [1; 2]].
Proof. vm_compute. reflexivity. Qed.

(** The first of two writes that went out together is answered short: the
    window is given back the size of both, though the second is still a
    liability. *)
Lemma short_write_window :
  let conf := mk_conf 8 100 true false false 1 in
  let i := (arrive (writes conf 1 [[2]]) (waiting conf 0 [[1]])).1 in
  let i' := wb_fulfill_cbk conf i 0 1 0 in
  (window_current i, liability i) = (2, [0%nat; 1%nat]) /\ (window_current i', liability i') = (0, [1%nat]).
Proof. vm_compute. auto. Qed.
