(* ===== verification/AfrHeal.v ===== *)
(** * Replication: the direction of self-heal

    Models the part of [xlators/cluster/afr/src] that decides which bricks are
    good: the changelogs of afr-self-heal-common.c (matrix of pending
    operations, sources, sinks, witnesses, split brain), the choice of the
    source in afr-self-heal-data.c, and the changelogs that are written after a
    heal.

    The arrays of the code, indexed by the children, are lists; [tab] makes one.
    A changelog on disk is an array of three 32-bit numbers in network order,
    for data, metadata and entries. *)

From S2P Require Import Prelude Words.
Open Scope Z_scope.

(** ** Arrays *)

Definition tab {A} (n : nat) (f : nat -> A) : list A := map f (seq 0 n).
Definition on (l : list bool) (i : nat) : bool := nth i l false.
Definition val (l : list Z) (i : nat) : Z := nth i l 0.
Definition cell (m : list (list Z)) (i j : nat) : Z := val (nth i m []) j.
Definition nonzero (z : Z) : bool := negb (z =? 0).

(** [sources[i] = v]. *)
Definition set_at (l : list bool) (i : nat) (v : bool) : list bool := <[i := v]> l.

Definition AFR_COUNT (l : list bool) (max : nat) : nat := length (List.filter (on l) (seq 0 max)).
Definition AFR_INTERSECT (src1 src2 : list bool) (max : nat) : list bool := tab max (fun i => on src1 i && on src2 i).
(** Whether the arrays differ. *)
Definition AFR_CMP (a1 a2 : list bool) (len : nat) : bool :=
  existsb (fun i => negb (Bool.eqb (on a1 i) (on a2 i))) (seq 0 len).

Definition AFR_NUM_CHANGE_LOGS : nat := 3.
Definition AFR_SH_MIN_PARTICIPANTS : nat := 2.
Definition ARBITER_BRICK_INDEX : nat := 2.

Inductive afr_transaction_type :=
| AFR_DATA_TRANSACTION | AFR_METADATA_TRANSACTION | AFR_ENTRY_TRANSACTION | AFR_ENTRY_RENAME_TRANSACTION.

Definition is_data (t : afr_transaction_type) : bool := match t with AFR_DATA_TRANSACTION => true | _ => false end.
Definition is_metadata (t : afr_transaction_type) : bool :=
  match t with AFR_METADATA_TRANSACTION => true | _ => false end.
Definition is_entry (t : afr_transaction_type) : bool := match t with AFR_ENTRY_TRANSACTION => true | _ => false end.

Definition afr_index_for_transaction_type (t : afr_transaction_type) : nat :=
  match t with
  | AFR_DATA_TRANSACTION => 0
  | AFR_METADATA_TRANSACTION => 1
  | AFR_ENTRY_TRANSACTION | AFR_ENTRY_RENAME_TRANSACTION => 2
  end.

Inductive afr_favorite_child_policy :=
| AFR_FAV_CHILD_NONE | AFR_FAV_CHILD_BY_SIZE | AFR_FAV_CHILD_BY_CTIME | AFR_FAV_CHILD_BY_MTIME
| AFR_FAV_CHILD_BY_MAJORITY.

(** What is used of [afr_private_t]. *)
Record afr_private := mk_priv {
  child_count : nat;
  local_children : list bool;
  arbiter_count : nat;
  quorum_count : Z;
  fav_child_policy : afr_favorite_child_policy
}.

Definition AFR_IS_ARBITER_BRICK (priv : afr_private) (i : nat) : bool :=
  (arbiter_count priv =? 1)%nat && (i =? ARBITER_BRICK_INDEX)%nat.

(** What is used of [struct iatt], and the other attributes that are compared. *)
Record iatt := mk_iatt {
  ia_type : Z;
  ia_uid : Z;
  ia_gid : Z;
  ia_prot : Z;
  ia_size : Z;
  ia_mtime : Z;
  ia_mtime_nsec : Z;
  ia_ctime : Z;
  ia_ctime_nsec : Z
}.

(** The changelogs in an answer: [trusted.afr.dirty], and the key of each
    child.  [user] stands for the extended attributes of the user. *)
Record changelogs := mk_changelogs { x_dirty : option (list Z); x_pending : list (option (list Z)); user : list Z }.

Record afr_reply := mk_reply {
  valid : bool;
  r_ret : Z;
  r_errno : Z;
  xdata : option changelogs;
  poststat : iatt
}.

Definition no_iatt : iatt := mk_iatt 0 0 0 0 0 0 0 0 0.
Definition no_reply : afr_reply := mk_reply false 0 0 None no_iatt.
Definition reply_of (replies : list afr_reply) (i : nat) : afr_reply := nth i replies no_reply.
Definition succeeded (r : afr_reply) : bool := valid r && (r_ret r =? 0).
Definition size_of (replies : list afr_reply) (i : nat) : Z := ia_size (poststat (reply_of replies i)).

Definition afr_success_count (replies : list afr_reply) (count : nat) : nat :=
  length (List.filter (fun i => succeeded (reply_of replies i)) (seq 0 count)).

Section children.
Context (priv : afr_private).
Abbreviation n := (child_count priv).

(** ** The matrix *)

(** A number of a changelog. *)
Definition changelog_value (raw : list Z) (idx : nat) : Z := s32 (hton32 (val raw idx)).

Definition afr_selfheal_fill_dirty (idx : nat) (x : changelogs) : Z :=
  match x_dirty x with Some raw => changelog_value raw idx | None => 0 end.

Definition afr_selfheal_fill_matrix (idx : nat) (x : changelogs) : list Z :=
  tab n (fun i => match nth i (x_pending x) None with Some raw => changelog_value raw idx | None => 0 end).

Definition afr_selfheal_extract_xattr (replies : list afr_reply) (type : afr_transaction_type)
    : list Z * list (list Z) :=
  let idx := afr_index_for_transaction_type type in
  let of_child {A} (f : changelogs -> A) (d : A) (i : nat) :=
    let r := reply_of replies i in
    if succeeded r then match xdata r with Some x => f x | None => d end else d in
  (tab n (of_child (afr_selfheal_fill_dirty idx) 0),
   tab n (of_child (afr_selfheal_fill_matrix idx) (tab n (fun _ => 0)))).

(** ** Direction *)

Record direction := mk_direction { sources : list bool; sinks : list bool; witness : list Z; pflag : bool }.

Definition find_self_accused (matrix : list (list Z)) : list bool := tab n (fun i => nonzero (cell matrix i i)).
(** Self-accused bricks do not accuse others. *)
Definition find_accused (matrix : list (list Z)) : list bool :=
  let self_accused := find_self_accused matrix in
  tab n (fun j => existsb (fun i => nonzero (cell matrix i j) && negb (on self_accused i)) (seq 0 n)).
Definition find_pending (matrix : list (list Z)) : list bool :=
  tab n (fun i => existsb (fun j => nonzero (cell matrix i j) && negb (i =? j)%nat) (seq 0 n)).

Definition sum_over (l : list nat) (f : nat -> Z) : Z := foldl (fun acc j => u64 (acc + f j)) 0 l.

Definition find_witness (dirty : list Z) (matrix : list (list Z)) : list Z :=
  let self_accused := find_self_accused matrix in
  let pending := find_pending matrix in
  let none_pending := (AFR_COUNT pending n =? 0)%nat in
  tab n (fun i =>
    let w := if on self_accused i then sum_over (List.filter (fun j => negb (i =? j)%nat) (seq 0 n)) (cell matrix i) else 0 in
    let w := if on self_accused i && (none_pending || on pending i) then u64 (w + cell matrix i i) else w in
    u64 (w + val dirty i)).

(** [None]: ENOTCONN. *)
Definition afr_selfheal_find_direction (replies : list afr_reply) (type : afr_transaction_type) (locked_on : list bool)
    : option direction :=
  let '(dirty, matrix) := afr_selfheal_extract_xattr replies type in
  let pflag := existsb (fun i => existsb (fun j => nonzero (cell matrix i j)) (seq 0 n)) (seq 0 n) in
  if (afr_success_count replies n <? AFR_SH_MIN_PARTICIPANTS)%nat then None
  else
    let self_accused := find_self_accused matrix in
    let accused := find_accused matrix in
    let sources := tab n (fun i => negb (on accused i) && on locked_on i) in
    let sinks := tab n (fun j =>
      existsb (fun i => on sources i && negb (on self_accused i) && nonzero (cell matrix i j)) (seq 0 n)) in
    let sinks :=
      if (AFR_COUNT sources n =? 0)%nat then tab n (fun i => on sinks i || on locked_on i) else sinks in
    Some (mk_direction sources sinks (find_witness dirty matrix) pflag).

(** ** Choosing among sources *)

Definition afr_mark_largest_file_as_source (sources : list bool) (replies : list afr_reply) : list bool :=
  let answered := tab n (fun i => on sources i && succeeded (reply_of replies i)) in
  let size := foldl (fun s i => if on answered i && (s <=? size_of replies i) then size_of replies i else s) 0 (seq 0 n) in
  tab n (fun i => on answered i && negb (size_of replies i <? size)).

(** The seconds are kept in 32 bits. *)
Definition later (sec nsec : Z) (s : iatt) : bool :=
  (sec <? ia_mtime s) || ((sec =? ia_mtime s) && (nsec <? ia_mtime_nsec s)).
Definition afr_mark_latest_mtime_file_as_source (sources : list bool) (replies : list afr_reply) : list bool :=
  let answered := tab n (fun i => on sources i && succeeded (reply_of replies i)) in
  let '(mtime, nsec) := foldl (fun '(m, ns) i =>
      let s := poststat (reply_of replies i) in
      if on answered i && later m ns s then (u32 (ia_mtime s), ia_mtime_nsec s) else (m, ns)) (0, 0) (seq 0 n) in
  tab n (fun i =>
    let s := poststat (reply_of replies i) in
    on answered i && negb ((ia_mtime s <? mtime) || ((mtime =? ia_mtime s) && (ia_mtime_nsec s <? nsec)))).

Definition afr_mark_biggest_witness_as_source (sources : list bool) (witness : list Z) : list bool :=
  let biggest := foldl (fun b i => if on sources i && (b <? val witness i) then val witness i else b) 0 (seq 0 n) in
  tab n (fun i => on sources i && negb (val witness i <? biggest)).

(** [None]: no source is found, and [sources[-1]] is written. *)
Definition afr_mark_newest_file_as_source (sources : list bool) (replies : list afr_reply) : option (list bool) :=
  let '(source, _) := foldl (fun '(source, max_ctime) i =>
      let c := ia_ctime (poststat (reply_of replies i)) in
      if on sources i && (max_ctime <=? c) then (Some i, u32 c) else (source, max_ctime)) (None, 0) (seq 0 n) in
  match source with
  | Some s => Some (tab n (fun i => (i =? s)%nat))
  | None => None
  end.

Definition afr_mark_active_sinks (sources locked_on : list bool) : list bool :=
  tab n (fun i => negb (on sources i) && on locked_on i).

Definition afr_choose_source_by_policy (sources : list bool) (type : afr_transaction_type) : option nat :=
  match List.find (fun i => on (local_children priv) i && on sources i
                            && negb (is_data type && AFR_IS_ARBITER_BRICK priv i)) (seq 0 n) with
  | Some s => Some s
  | None => List.find (on sources) (seq 0 n)
  end.

Definition afr_has_source_witnesses (sources : list bool) (witness : list Z) : bool :=
  existsb (fun i => on sources i && nonzero (val witness i)) (seq 0 n).

(** Smallest and largest of the sizes that count. *)
Definition afr_does_size_mismatch (sources : list bool) (replies : list afr_reply) : bool :=
  let counts i := let r := reply_of replies i in
    valid r && negb (r_ret r <? 0) && on sources i && negb (AFR_IS_ARBITER_BRICK priv i && (size_of replies i =? 0)) in
  let '(min, max) := foldl (fun '(min, max) i =>
      if counts i then
        let s := size_of replies i in
        let min := default s min in
        let max := default s max in
        (Some (if s <? min then s else min), Some (if max <? s then s else max))
      else (min, max)) (None, None) (seq 0 n) in
  match min, max with
  | Some a, Some b => negb (a =? b)
  | _, _ => false
  end.

(** ** Split brain *)

(** The three arrays a heal works on. *)
Record marks := mk_marks { m_sources : list bool; m_sinks : list bool; m_healed : list bool }.

Definition afr_can_decide_split_brain_source_sinks (replies : list afr_reply) : bool :=
  forallb (fun i => succeeded (reply_of replies i)) (seq 0 n).

(** The request of an administrator to heal a file in split brain. *)
Inductive heal_op :=
| GF_SHD_OP_SBRAIN_HEAL_FROM_BIGGER_FILE
| GF_SHD_OP_SBRAIN_HEAL_FROM_LATEST_MTIME
| GF_SHD_OP_SBRAIN_HEAL_FROM_BRICK (brick : option nat)
| HEAL_OP_OTHER.

Definition clear_sources (m : marks) : marks := mk_marks (tab n (fun _ => false)) (m_sinks m) (m_healed m).

Definition afr_mark_split_brain_source_sinks_by_heal_op (m : marks) (locked_on : list bool) (replies : list afr_reply)
    (type : afr_transaction_type) (op : heal_op) : option nat * marks :=
  let fail := (None, clear_sources m) in
  if existsb (fun i => on locked_on i && (on (m_sources m) i || negb (on (m_sinks m) i) || negb (on (m_healed m) i)))
       (seq 0 n) then fail
  else if negb (afr_can_decide_split_brain_source_sinks replies) then fail
  else
    let srcs := tab n (fun i => on (m_sources m) i || on locked_on i) in
    let one srcs := if (AFR_COUNT srcs n =? 1)%nat then Some srcs else None in
    let chosen :=
      match op with
      | GF_SHD_OP_SBRAIN_HEAL_FROM_BIGGER_FILE =>
          if is_metadata type then None else one (afr_mark_largest_file_as_source srcs replies)
      | GF_SHD_OP_SBRAIN_HEAL_FROM_LATEST_MTIME =>
          if is_metadata type then None else one (afr_mark_latest_mtime_file_as_source srcs replies)
      | GF_SHD_OP_SBRAIN_HEAL_FROM_BRICK (Some b) =>
          if on locked_on b then Some (tab n (fun i => (i =? b)%nat)) else None
      | _ => None
      end in
    match chosen with
    | None => fail
    | Some srcs =>
        match List.find (on srcs) (seq 0 n) with
        | Some s => (Some s, mk_marks srcs (set_at (m_sinks m) s false) (set_at (m_healed m) s false))
        | None => fail
        end
    end.

Definition same_mtime_and_size (a b : iatt) : bool := (ia_mtime a =? ia_mtime b) && (ia_size a =? ia_size b).
Definition afr_sh_fav_by_majority (replies : list afr_reply) : option nat :=
  let stat i := poststat (reply_of replies i) in
  List.find (fun i => valid (reply_of replies i)
    && (n / 2 <? length (List.filter (fun k => same_mtime_and_size (stat k) (stat i)) (seq 0 n)))%nat) (seq 0 n).

(** The latest of the times [time]; seconds are kept in 32 bits. *)
Definition fav_by_time (time : iatt -> Z * Z) (replies : list afr_reply) : option nat :=
  (foldl (fun '(fav, cmp, cmp_nsec) i =>
     let r := reply_of replies i in
     let '(sec, nsec) := time (poststat r) in
     if valid r && ((cmp <? sec) || ((sec =? cmp) && (cmp_nsec <? nsec))) then (Some i, u32 sec, nsec)
     else (fav, cmp, cmp_nsec)) (None, 0, 0) (seq 0 n)).1.1.
Definition afr_sh_fav_by_mtime : list afr_reply -> option nat := fav_by_time (fun s => (ia_mtime s, ia_mtime_nsec s)).
Definition afr_sh_fav_by_ctime : list afr_reply -> option nat := fav_by_time (fun s => (ia_ctime s, ia_ctime_nsec s)).
Definition afr_sh_fav_by_size (replies : list afr_reply) : option nat :=
  (foldl (fun '(fav, cmp) i =>
     if valid (reply_of replies i) && (cmp <? size_of replies i) then (Some i, size_of replies i) else (fav, cmp))
     (None, 0) (seq 0 n)).1.

Definition afr_sh_get_fav_by_policy (replies : list afr_reply) : option nat :=
  if negb (afr_can_decide_split_brain_source_sinks replies) then None
  else match fav_child_policy priv with
       | AFR_FAV_CHILD_BY_SIZE => afr_sh_fav_by_size replies
       | AFR_FAV_CHILD_BY_CTIME => afr_sh_fav_by_ctime replies
       | AFR_FAV_CHILD_BY_MTIME => afr_sh_fav_by_mtime replies
       | AFR_FAV_CHILD_BY_MAJORITY => afr_sh_fav_by_majority replies
       | AFR_FAV_CHILD_NONE => None
       end.

Definition afr_mark_split_brain_source_sinks_by_policy (m : marks) (replies : list afr_reply) : option nat * marks :=
  match afr_sh_get_fav_by_policy replies with
  | Some f =>
      (Some f, mk_marks (set_at (m_sources m) f true) (set_at (m_sinks m) f false) (set_at (m_healed m) f false))
  | None => (None, m)
  end.

(** [afr_xattrs_are_equal] compares the attributes of the user. *)
Definition same_metadata (a b : afr_reply) : bool :=
  let s := poststat a in
  let t := poststat b in
  (ia_type s =? ia_type t) && (ia_uid s =? ia_uid t) && (ia_gid s =? ia_gid t) && (ia_prot s =? ia_prot t).
Definition same_xattrs (a b : afr_reply) : bool :=
  bool_decide (option_map user (xdata a) = option_map user (xdata b)).

Definition afr_mark_source_sinks_if_file_empty (m : marks) (locked_on : list bool) (replies : list afr_reply)
    (type : afr_transaction_type) : option nat * marks :=
  if (AFR_COUNT locked_on n <? n)%nat || (afr_success_count replies n <? n)%nat then (None, m)
  else
    let same :=
      if is_data type then forallb (fun i => size_of replies i =? 0) (seq 0 n)
      else forallb (fun i => same_metadata (reply_of replies 0) (reply_of replies i)) (seq 1 (n - 1))
           && forallb (fun i => same_xattrs (reply_of replies 0) (reply_of replies i)) (seq 1 (n - 1)) in
    if same then
      (if (n =? 0)%nat then None else Some 0%nat,
       mk_marks (tab n (fun i => (i =? 0)%nat)) (tab n (fun i => negb (i =? 0)%nat)) (tab n (fun i => negb (i =? 0)%nat)))
    else (None, m).

(** Gives the source, and whether it was chosen by the policy. *)
Definition afr_mark_split_brain_source_sinks (m : marks) (locked_on : list bool) (replies : list afr_reply)
    (type : afr_transaction_type) (op : option heal_op) : option nat * marks * bool :=
  match afr_mark_source_sinks_if_file_empty m locked_on replies type with
  | (Some s, m) => (Some s, m, false)
  | (None, m) =>
      match op with
      | Some op =>
          let '(s, m) := afr_mark_split_brain_source_sinks_by_heal_op m locked_on replies type op in (s, m, false)
      | None =>
          match fav_child_policy priv with
          | AFR_FAV_CHILD_NONE => (None, m, false)
          | _ => let '(s, m) := afr_mark_split_brain_source_sinks_by_policy m replies in
                 (s, m, match s with Some _ => true | None => false end)
          end
      end
  end.

(** ** The source of a data heal *)

(** [FZ_undef]: an access outside of the arrays. *)
Inductive finalized :=
| FZ_eio
| FZ_undef
| FZ_source (source : nat) (m : marks) (by_policy : bool).

(** From the label [out] on. *)
Definition finalize_out (m : marks) (locked_on : list bool) (by_policy : bool) : finalized :=
  let m := mk_marks (m_sources m) (m_sinks m) (afr_mark_active_sinks (m_sources m) locked_on) in
  match afr_choose_source_by_policy (m_sources m) AFR_DATA_TRANSACTION with
  | Some s => FZ_source s m by_policy
  | None => FZ_eio
  end.

Definition __afr_selfheal_data_finalize_source (m : marks) (locked_on : list bool) (replies : list afr_reply)
    (witness : list Z) (op : option heal_op) : finalized :=
  if negb (AFR_CMP locked_on (m_healed m) n) || (AFR_COUNT (m_sources m) n =? 0)%nat then
    match afr_mark_split_brain_source_sinks m locked_on replies AFR_DATA_TRANSACTION op with
    | (Some _, m, by_policy) => finalize_out m locked_on by_policy
    | (None, _, _) => FZ_eio
    end
  else match op with
  | Some _ => FZ_eio
  | None =>
      if negb (afr_does_size_mismatch (m_sources m) replies) && negb (afr_has_source_witnesses (m_sources m) witness)
      then finalize_out m locked_on false
      else
        let srcs := afr_mark_largest_file_as_source (m_sources m) replies in
        let srcs := afr_mark_biggest_witness_as_source srcs witness in
        match afr_mark_newest_file_as_source srcs replies with
        | None => FZ_undef
        | Some srcs =>
            let m := mk_marks srcs (m_sinks m) (m_healed m) in
            let m := if (0 <? arbiter_count priv)%nat
                     then (afr_mark_source_sinks_if_file_empty m locked_on replies AFR_DATA_TRANSACTION).2 else m in
            finalize_out m locked_on false
        end
  end.

(** [None]: ENOTCONN. *)
Definition __afr_selfheal_data_prepare (locked_on : list bool) (replies : list afr_reply) (op : option heal_op)
    : option finalized :=
  match afr_selfheal_find_direction replies AFR_DATA_TRANSACTION locked_on with
  | None => None
  | Some d =>
      let m := mk_marks (sources d) (sinks d) (AFR_INTERSECT (sinks d) locked_on n) in
      Some (__afr_selfheal_data_finalize_source m locked_on replies (witness d) op)
  end.

(** ** Changelogs after a heal *)

(** An argument of xattrop: numbers to add to [trusted.afr.dirty] and to the key
    of each child. *)
Record xattrop := mk_xattrop { a_dirty : list Z; a_pending : list (list Z) }.

(** An array that is zero but for [v] at [idx]. *)
Definition raw_at (idx : nat) (v : Z) : list Z :=
  tab AFR_NUM_CHANGE_LOGS (fun k => if (k =? idx)%nat then hton32 (u32 v) else 0).

(** Without a full crawl. *)
Definition afr_selfheal_output_xattr (type : afr_transaction_type) (output_dirty : list Z)
    (output_matrix : list (list Z)) (subvol : nat) : xattrop :=
  let idx := afr_index_for_transaction_type type in
  mk_xattrop (raw_at idx (val output_dirty subvol)) (tab n (fun j => raw_at idx (cell output_matrix subvol j))).

(** The xattrops that are sent, with their bricks. *)
Definition afr_selfheal_undo_pending (m : marks) (undid_pending : list bool) (type : afr_transaction_type)
    (replies : list afr_reply) (locked_on : list bool) : list (nat * xattrop) :=
  let '(input_dirty, input_matrix) := afr_selfheal_extract_xattr replies type in
  let pending := tab n (fun i => on (m_sinks m) i && negb (on (m_healed m) i)) in
  let output_matrix := tab n (fun i => tab n (fun j =>
    if on pending j then 1 else if on locked_on j then - cell input_matrix i j else 0)) in
  let output_dirty := tab n (fun i => if on pending i then 0 else - val input_dirty i) in
  map (fun i => (i, afr_selfheal_output_xattr type output_dirty output_matrix i))
    (List.filter (fun i => on locked_on i && negb (on undid_pending i)) (seq 0 n)).

(** Gives the xattrops and [undid_pending]. *)
Definition _afr_fav_child_reset_sink_xattrs (by_policy : bool) (source : nat) (healed_sinks locked_on : list bool)
    (type : afr_transaction_type) (replies : list afr_reply) : list (nat * xattrop) * list bool :=
  if negb by_policy then ([], tab n (fun _ => false))
  else
    let '(input_dirty, input_matrix) := afr_selfheal_extract_xattr replies type in
    let resets i := negb (i =? source)%nat && on healed_sinks i in
    let output_dirty := tab n (fun i => if resets i then - val input_dirty i else 0) in
    let output_matrix := tab n (fun i => tab n (fun j =>
      if resets i && (j =? source)%nat then - cell input_matrix i source else 0)) in
    let done i := on healed_sinks i && on locked_on i in
    (map (fun i => (i, afr_selfheal_output_xattr type output_dirty output_matrix i)) (List.filter done (seq 0 n)),
     tab n done).

(** ** A data heal *)

(** What happens to the sinks: which truncations succeed, what is left of the
    sinks after the copy (or its failure), and the second lock. *)
Record heal_run := mk_run {
  truncate_ok : list bool;
  copy : list bool -> option (list bool);
  relock : list bool
}.

Record heal_result := mk_result {
  h_source : option nat;     (** the source, when data was copied *)
  h_size : Z;                (** the size the sinks are truncated to *)
  h_copied : list bool;      (** the sinks that have all the data *)
  h_xattrops : list (nat * xattrop)
}.

Definition no_heal : heal_result := mk_result None 0 (tab n (fun _ => false)) [].

(** The arbiter has no data; it is left out while data is copied. *)
Definition without_arbiter (l : list bool) : list bool :=
  if (0 <? arbiter_count priv)%nat then set_at l ARBITER_BRICK_INDEX false else l.
Definition with_arbiter (old l : list bool) : list bool :=
  if (0 <? arbiter_count priv)%nat && on old ARBITER_BRICK_INDEX then set_at l ARBITER_BRICK_INDEX true else l.

(** [__afr_selfheal_data] with the bricks [data_lock] locked; [None] for an
    access outside of the arrays. *)
Definition __afr_selfheal_data (data_lock : list bool) (replies : list afr_reply) (op : option heal_op) (run : heal_run)
    : option heal_result :=
  if (AFR_COUNT data_lock n <? AFR_SH_MIN_PARTICIPANTS)%nat then Some no_heal
  else
    match __afr_selfheal_data_prepare data_lock replies op with
    | None | Some FZ_eio => Some no_heal
    | Some FZ_undef => None
    | Some (FZ_source source m by_policy) =>
        let '(resets, undid) :=
          _afr_fav_child_reset_sink_xattrs by_policy source (m_healed m) data_lock AFR_DATA_TRANSACTION replies in
        let stop := mk_result None 0 (tab n (fun _ => false)) resets in
        if (AFR_COUNT (m_healed m) n =? 0)%nat || AFR_IS_ARBITER_BRICK priv source then Some stop
        else
          let size := size_of replies source in
          let only_arbiter := (0 <? arbiter_count priv)%nat && (AFR_COUNT (m_healed m) n =? 1)%nat
                              && on (m_healed m) ARBITER_BRICK_INDEX in
          if only_arbiter then
            Some (mk_result (Some source) size (m_healed m)
                    (resets ++ afr_selfheal_undo_pending m undid AFR_DATA_TRANSACTION replies data_lock))
          else
            let truncated := tab n (fun i => on (without_arbiter (m_healed m)) i && on (truncate_ok run) i) in
            let healed := with_arbiter (m_healed m) truncated in
            match copy run (without_arbiter healed) with
            | None => Some (mk_result (Some source) size (tab n (fun _ => false)) resets)
            | Some copied =>
                let healed := with_arbiter healed copied in
                if (AFR_COUNT (relock run) n <? AFR_SH_MIN_PARTICIPANTS)%nat
                then Some (mk_result (Some source) size healed resets)
                else
                  let m := mk_marks (m_sources m) (m_sinks m) healed in
                  Some (mk_result (Some source) size healed
                          (resets ++ afr_selfheal_undo_pending m undid AFR_DATA_TRANSACTION replies (relock run)))
            end
    end.
End children.

(** ** The brick *)

(** [__add_array] of the storage translator. *)
Definition __add_array (dest src : list Z) : list Z :=
  tab (length dest) (fun i => hton32 (u32 (s32 (hton32 (val dest i)) + s32 (hton32 (val src i))))).

Definition mem_0filled (a : list Z) : bool := forallb (fun x => x =? 0) a.

(** One key of an xattrop with ADD_ARRAY: nothing is stored for an array of
    zeros, and an attribute that does not exist is zero. *)
Definition _posix_handle_xattr_keyvalue_pair (stored : option (list Z)) (v : list Z) : option (list Z) :=
  if mem_0filled v then stored
  else Some (__add_array (default (tab (length v) (fun _ => 0)) stored) v).

Definition do_xattrop (c : changelogs) (x : xattrop) : changelogs :=
  mk_changelogs (_posix_handle_xattr_keyvalue_pair (x_dirty c) (a_dirty x))
    (tab (length (x_pending c)) (fun i =>
       _posix_handle_xattr_keyvalue_pair (nth i (x_pending c) None) (nth i (a_pending x) [])))
    (user c).
