(* ===== verification/AfrTxn.v ===== *)
(** * Replication: write transactions

    Models the transaction of [xlators/cluster/afr/src/afr-transaction.c] for
    writes (afr-inode-write.c): the pre-op that marks the file dirty, quorum,
    the write on every brick, the bricks that count as failed, the post-op that
    accuses them, and the sharing of pre-ops among the writes on one descriptor.

    The steps of a transaction are functions on the transaction and on the
    descriptor's context; what the bricks answer is given.  Allocations are
    taken to succeed. *)

From S2P Require Import Prelude Words AfrHeal.
Open Scope Z_scope.

(** The part of [afr_fd_ctx_t] for one type of transaction. *)
Record afr_fd_ctx := mk_fd_ctx { on_disk : nat; inherited : nat; pre_op_done : list bool }.

(** What is used of [local->transaction], and [local->op_ret]. *)
Record transaction := mk_txn {
  pre_op : list bool;
  failed_subvols : list bool;
  dirtied : bool;
  txn_inherited : bool;
  no_uninherit : bool;
  uninherit_done : option bool;     (** with [uninherit_value] *)
  pre_op_sources : list bool;
  in_flight_sb : bool;
  op_ret : Z
}.

Definition set_failed (f : list bool) (t : transaction) : transaction :=
  mk_txn (pre_op t) f (dirtied t) (txn_inherited t) (no_uninherit t) (uninherit_done t) (pre_op_sources t)
    (in_flight_sb t) (op_ret t).
Definition set_inherited (t : transaction) : transaction :=
  mk_txn (pre_op t) (failed_subvols t) (dirtied t) true (no_uninherit t) (uninherit_done t) (pre_op_sources t)
    (in_flight_sb t) (op_ret t).
Definition set_no_uninherit (t : transaction) : transaction :=
  mk_txn (pre_op t) (failed_subvols t) (dirtied t) (txn_inherited t) true (uninherit_done t) (pre_op_sources t)
    (in_flight_sb t) (op_ret t).
Definition set_uninherit (v : bool) (t : transaction) : transaction :=
  mk_txn (pre_op t) (failed_subvols t) (dirtied t) (txn_inherited t) (no_uninherit t) (Some v) (pre_op_sources t)
    (in_flight_sb t) (op_ret t).
Definition set_dirtied (t : transaction) : transaction :=
  mk_txn (pre_op t) (failed_subvols t) true (txn_inherited t) (no_uninherit t) (uninherit_done t) (pre_op_sources t)
    (in_flight_sb t) (op_ret t).
Definition set_pre_op_sources (s : list bool) (t : transaction) : transaction :=
  mk_txn (pre_op t) (failed_subvols t) (dirtied t) (txn_inherited t) (no_uninherit t) (uninherit_done t) s
    (in_flight_sb t) (op_ret t).
Definition set_in_flight_sb (b : bool) (t : transaction) : transaction :=
  mk_txn (pre_op t) (failed_subvols t) (dirtied t) (txn_inherited t) (no_uninherit t) (uninherit_done t)
    (pre_op_sources t) b (op_ret t).
Definition set_op_ret (r : Z) (t : transaction) : transaction :=
  mk_txn (pre_op t) (failed_subvols t) (dirtied t) (txn_inherited t) (no_uninherit t) (uninherit_done t)
    (pre_op_sources t) (in_flight_sb t) r.

Definition AFR_QUORUM_AUTO : Z := 2 ^ 31 - 1.
Definition ENOTCONN : Z := 107.

Section children.
Context (priv : afr_private).
Abbreviation n := (child_count priv).

(** ** Quorum *)

Definition afr_has_quorum (subvols : list bool) : bool :=
  let up := AFR_COUNT subvols n in
  if (quorum_count priv =? AFR_QUORUM_AUTO) && (up * 2 =? n)%nat then on subvols 0
  else
    let quorum := if quorum_count priv =? AFR_QUORUM_AUTO then Z.of_nat (n / 2 + 1) else u32 (quorum_count priv) in
    quorum <=? Z.of_nat up.

(** The bricks that take part and have not failed. *)
Definition alive (t : transaction) : list bool := tab n (fun i => on (pre_op t) i && negb (on (failed_subvols t) i)).

Definition afr_has_fop_cbk_quorum (t : transaction) : bool := afr_has_quorum (alive t).

Definition afr_txn_nothing_failed (t : transaction) : bool :=
  negb (existsb (fun i => on (pre_op t) i && on (failed_subvols t) i) (seq 0 n)).

(** [afr_transaction_fop_failed] for the bricks of [f]. *)
Definition fops_failed (f : nat -> bool) (t : transaction) : transaction :=
  set_failed (tab n (fun i => on (failed_subvols t) i || f i)) t.

Definition afr_has_arbiter_fop_cbk_quorum (t : transaction) : bool * transaction :=
  let srcs := tab n (fun i => on (pre_op_sources t) i && negb (on (failed_subvols t) i)) in
  let ok := match AFR_COUNT srcs n with
            | 0%nat => false
            | 1%nat => negb (on srcs ARBITER_BRICK_INDEX)
            | _ => true
            end in
  (ok, set_pre_op_sources srcs t).

Definition afr_handle_quorum (t : transaction) : transaction :=
  if (quorum_count priv =? 0) || (op_ret t =? -1) then t
  else
    let '(ok, t) := if (0 <? arbiter_count priv)%nat then afr_has_arbiter_fop_cbk_quorum t
                    else (afr_has_fop_cbk_quorum t, t) in
    if ok then t else set_op_ret (-1) (fops_failed (on (pre_op t)) t).

(** ** Sharing pre-ops *)

Definition same_bricks (a b : list bool) : bool := negb (AFR_CMP a b n).

Definition afr_changelog_pre_op_inherit (type : afr_transaction_type) (fd : option afr_fd_ctx) (t : transaction)
    : bool * option afr_fd_ctx * transaction :=
  match fd with
  | Some c =>
      if is_data type && negb (on_disk c =? 0)%nat && same_bricks (pre_op t) (pre_op_done c)
      then (true, Some (mk_fd_ctx (on_disk c) (S (inherited c)) (pre_op_done c)), set_inherited t)
      else (false, fd, t)
  | None => (false, fd, t)
  end.

Definition afr_changelog_pre_op_update (fd : option afr_fd_ctx) (t : transaction) : option afr_fd_ctx * transaction :=
  match fd with
  | None => (fd, t)
  | Some c =>
      if txn_inherited t || negb (dirtied t) || negb (afr_txn_nothing_failed t) then (fd, t)
      else
        let good := tab n (fun i => negb (on (failed_subvols t) i)) in
        if (on_disk c =? 0)%nat then (Some (mk_fd_ctx (S (on_disk c)) (inherited c) good), t)
        else if same_bricks (pre_op_done c) good then (Some (mk_fd_ctx (S (on_disk c)) (inherited c) (pre_op_done c)), t)
        else (fd, set_no_uninherit t)
  end.

(** [true]: the mark of this transaction is left to another. *)
Definition afr_changelog_pre_op_uninherit (type : afr_transaction_type) (fd : option afr_fd_ctx) (t : transaction)
    : bool * option afr_fd_ctx * transaction :=
  match fd with
  | Some c =>
      if negb (is_data type) then (negb (dirtied t), fd, t)
      else if no_uninherit t then (false, fd, t)
      else match uninherit_done t with
      | Some v => (v, fd, t)
      | None =>
          if negb (same_bricks (pre_op t) (pre_op_done c)) then
            (negb (dirtied t), fd, set_uninherit (negb (dirtied t)) t)
          else
            let '(ret, disk, inh) :=
              match inherited c, on_disk c with
              | S k, d => (true, d, k)
              | 0%nat, S d => (false, d, 0%nat)
              | 0%nat, 0%nat => (false, 0%nat, 0%nat)
              end in
            let bricks := if (inh =? 0)%nat && (disk =? 0)%nat then tab n (fun _ => false) else pre_op_done c in
            (ret, Some (mk_fd_ctx disk inh bricks), set_uninherit ret t)
      end
  | None => (negb (dirtied t), fd, t)
  end.

(** ** Pre-op *)

Definition afr_needs_changelog_update (type : afr_transaction_type) (optimistic : bool) : bool :=
  is_data type || negb optimistic.

(** How the pre-op goes on: it gives up, goes on to the write, or first sends an
    xattrop to the bricks. *)
Inductive pre_op_next :=
| Pre_err
| Pre_next (fd : option afr_fd_ctx) (t : transaction)
| Pre_do (x : xattrop) (fd : option afr_fd_ctx) (t : transaction).

Definition new_txn (locked_nodes : list bool) : transaction :=
  mk_txn (tab n (on locked_nodes)) (tab n (fun i => negb (on locked_nodes i))) false false false None
    (tab n (fun _ => false)) false (-1).

Definition zeros : list Z := tab AFR_NUM_CHANGE_LOGS (fun _ => 0).

Definition afr_changelog_pre_op (type : afr_transaction_type) (optimistic_change_log : bool) (fd : option afr_fd_ctx)
    (locked_nodes : list bool) : pre_op_next :=
  let idx := afr_index_for_transaction_type type in
  let t := new_txn locked_nodes in
  let call_count := AFR_COUNT (pre_op t) n in
  let optimistic := optimistic_change_log && (call_count =? n)%nat in
  if (call_count =? 0)%nat then Pre_err
  else if negb (quorum_count priv =? 0) && negb (afr_has_quorum locked_nodes) then Pre_err
  else
    match afr_changelog_pre_op_inherit type fd t with
    | (true, fd, t) => Pre_next fd t
    | (false, fd, t) =>
        let pending := tab n (fun _ => zeros) in
        if afr_needs_changelog_update type optimistic
        then Pre_do (mk_xattrop (raw_at idx 1) pending) fd (set_dirtied t)
        else if (call_count <? n)%nat then Pre_do (mk_xattrop zeros pending) fd t
        else Pre_next fd t
    end.

(** [afr_changelog_cbk] of every brick that was asked. *)
Definition afr_changelog_cbk (answered : list bool) (t : transaction) : transaction :=
  fops_failed (fun i => on (alive t) i && negb (on answered i)) t.

(** ** The write *)

(** Sources as far as the pre-op's answers show. *)
Definition afr_compute_pre_op_sources (type : afr_transaction_type) (pre_op_xdata : list (option changelogs))
    (t : transaction) : transaction :=
  let idx := afr_index_for_transaction_type type in
  let matrix := tab n (fun i => match nth i pre_op_xdata None with
                                | Some x => afr_selfheal_fill_matrix priv idx x
                                | None => tab n (fun _ => 0)
                                end) in
  set_pre_op_sources (tab n (fun j => negb (on (failed_subvols t) j)
                                      && negb (existsb (fun i => nonzero (cell matrix i j)) (seq 0 n)))) t.

(** Whether the write goes on. *)
Definition afr_txn_arbitrate_fop (type : afr_transaction_type) (pre_op_xdata : list (option changelogs))
    (t : transaction) : bool * transaction :=
  let t := afr_compute_pre_op_sources type pre_op_xdata t in
  if (AFR_COUNT (pre_op_sources t) n <? 2)%nat && on (pre_op_sources t) ARBITER_BRICK_INDEX
  then (false, set_op_ret (-1) t) else (true, t).

Definition afr_transaction_perform_fop (type : afr_transaction_type) (pre_op_xdata : list (option changelogs))
    (fd : option afr_fd_ctx) (t : transaction) : bool * option afr_fd_ctx * transaction :=
  let '(fd, t) := afr_changelog_pre_op_update fd t in
  if (arbiter_count priv =? 1)%nat then
    let '(go, t) := afr_txn_arbitrate_fop type pre_op_xdata t in (go, fd, t)
  else (true, fd, t).

(** An answer to the write: [op_ret] and [op_errno]. *)
Definition answers := list (option (Z * Z)).
Definition answer (replies : answers) (i : nat) : option (Z * Z) := nth i replies None.

(** What is kept of the answer of brick [i].  The arbiter is sent one byte,
    whatever the size of the write. *)
Definition __afr_inode_write_fill (size : Z) (i : nat) (r : Z * Z) : Z * Z :=
  (if AFR_IS_ARBITER_BRICK priv i && (r.1 =? 1) then size else r.1, r.2).

(** The write on every brick that is left, and the bricks that fail. *)
Definition __afr_txn_write_fop (rets : list (Z * Z)) (size : Z) (t : transaction) : answers * transaction :=
  let replies := tab n (fun i =>
    if on (alive t) i then Some (__afr_inode_write_fill size i (nth i rets (-1, ENOTCONN))) else None) in
  (replies, fops_failed (fun i => match answer replies i with Some (ret, _) => ret <? 0 | None => false end) t).

Definition afr_is_symmetric_error (replies : answers) : bool :=
  match foldl (fun acc i =>
      match acc, answer replies i with
      | Some op_errno, Some (ret, errno) =>
          if negb (ret =? -1) || (errno =? ENOTCONN) then None
          else if op_errno =? 0 then Some errno
          else if op_errno =? errno then Some op_errno else None
      | _, _ => acc
      end) (Some 0) (seq 0 n) with
  | Some _ => true
  | None => false
  end.

(** [datamap] is the readable bricks kept for writes in the inode. *)
Definition __afr_set_in_flight_sb_status (datamap : list bool) (t : transaction) : transaction :=
  if (AFR_COUNT datamap n =? 1)%nat && negb (existsb (fun i => on datamap i && negb (on (failed_subvols t) i)) (seq 0 n))
  then set_in_flight_sb true t else t.

Definition afr_set_in_flight_sb_status (replies : answers) (datamap : list bool) (t : transaction) : transaction :=
  if (AFR_COUNT (failed_subvols t) n =? 0)%nat || afr_is_symmetric_error replies then t
  else __afr_set_in_flight_sb_status datamap t.

Definition __afr_inode_write_finalize (replies : answers) (datamap : list bool) (t : transaction) : transaction :=
  let best := foldl (fun r i => match answer replies i with
                                | Some (ret, _) => if (0 <=? ret) && (r <? ret) then ret else r
                                | None => r
                                end) (-1) (seq 0 n) in
  afr_set_in_flight_sb_status replies datamap (set_op_ret best t).

Definition afr_writev_handle_short_writes (replies : answers) (t : transaction) : transaction :=
  fops_failed (fun i => match answer replies i with
                        | Some (ret, _) => negb (ret =? -1) && (ret <? op_ret t)
                        | None => false
                        end) t.

Definition afr_process_post_writev (replies : answers) (datamap : list bool) (t : transaction) : transaction :=
  afr_writev_handle_short_writes replies (__afr_inode_write_finalize replies datamap t).

(** ** Post-op *)

Definition __mark_all_success (t : transaction) : transaction := set_failed (tab n (fun _ => false)) t.
Definition afr_handle_symmetric_errors (replies : answers) (t : transaction) : transaction :=
  if afr_is_symmetric_error replies then __mark_all_success t else t.

(** The xattrop that is sent to [alive], if one is. *)
Definition afr_changelog_post_op_now (type : afr_transaction_type) (fd : option afr_fd_ctx) (t : transaction)
    : option xattrop * option afr_fd_ctx * transaction :=
  let idx := afr_index_for_transaction_type type in
  let t := afr_handle_quorum t in
  let nothing_failed := afr_txn_nothing_failed t in
  let '(uninherited, fd, t) := afr_changelog_pre_op_uninherit type fd t in
  let need_undirty := negb uninherited in
  if (op_ret t <? 0) && negb nothing_failed then (None, fd, t)
  else if nothing_failed && negb need_undirty then (None, fd, t)
  else if in_flight_sb t then (None, fd, set_op_ret (-1) t)
  else if (AFR_COUNT (alive t) n =? 0)%nat then (None, fd, t)
  else
    let pending := tab n (fun i => raw_at idx (if on (failed_subvols t) i then 1 else 0)) in
    (Some (mk_xattrop (raw_at idx (if need_undirty then -1 else 0)) pending), fd, t).

(** [afr_changelog_fsync]: [synced] are the bricks whose fsync succeeds. *)
Definition afr_changelog_fsync (synced : list bool) (t : transaction) : transaction :=
  fops_failed (fun i => on (pre_op t) i && negb (on synced i)) t.

(** [unstable]: an unstable write was seen on the descriptor and durability is
    asked for. *)
Definition afr_changelog_post_op_safe (unstable : bool) (synced : list bool) (type : afr_transaction_type)
    (fd : option afr_fd_ctx) (t : transaction) : option xattrop * option afr_fd_ctx * transaction :=
  match fd with
  | Some _ =>
      if negb (is_data type) then afr_changelog_post_op_now type fd t
      else
        let '(uninherited, fd, t) := afr_changelog_pre_op_uninherit type fd t in
        if uninherited && afr_txn_nothing_failed t then afr_changelog_post_op_now type fd t
        else if unstable then afr_changelog_post_op_now type fd (afr_changelog_fsync synced t)
        else afr_changelog_post_op_now type fd t
  | None => afr_changelog_post_op_now type fd t
  end.

(** ** A write *)

(** What a write meets.  The context of the descriptor is shared with other
    writes, so it is given at the three moments it is used. *)
Record outcome := mk_outcome {
  o_locked : list bool;                (** bricks that are locked *)
  o_fd_pre : afr_fd_ctx;
  o_pre_ok : list bool;                (** bricks whose pre-op succeeds *)
  o_pre_xdata : list (option changelogs);
  o_fd_mid : afr_fd_ctx;
  o_size : Z;
  o_rets : list (Z * Z);               (** what the bricks answer to the write *)
  o_datamap : list bool;               (** readable bricks *)
  o_delayed : bool;                    (** the post-op may be delayed *)
  o_unstable : bool;
  o_synced : list bool;
  o_fd_post : afr_fd_ctx
}.

(** What it sends, and what it tells the application. *)
Record sent := mk_sent {
  s_pre : option (list bool * xattrop);   (** pre-op: bricks and argument *)
  s_fop : list bool;                      (** bricks that are sent the write *)
  s_post : option (list bool * xattrop);
  s_ack : bool
}.

Definition is_afr_delayed_changelog_post_op_needed (delayed : bool) (t : transaction) : bool :=
  delayed && afr_txn_nothing_failed t.

(** The post-op, with the transaction after it. *)
Definition afr_transaction_resume (o : outcome) (replies : answers) (t : transaction) : option xattrop * transaction :=
  let t := afr_handle_symmetric_errors replies t in
  let '(x, _, t) :=
    if is_afr_delayed_changelog_post_op_needed (o_delayed o) t
    then afr_changelog_post_op_now AFR_DATA_TRANSACTION (Some (o_fd_post o)) t
    else afr_changelog_post_op_safe (o_unstable o) (o_synced o) AFR_DATA_TRANSACTION (Some (o_fd_post o)) t in
  (x, t).

(** [afr_writev_wind_cbk] of the last answer.  Gives what the application is told
    before the post-op: when nothing failed, it is told of the result. *)
Definition afr_writev_wind_cbk (o : outcome) (replies : answers) (t : transaction) : option bool * transaction :=
  let t := afr_process_post_writev replies (o_datamap o) t in
  (if afr_txn_nothing_failed t then Some (0 <=? op_ret t) else None, t).

(** From the pre-op on.  When no brick is left to write to, the transaction is
    resumed at once. *)
Definition afr_writev_fop (o : outcome) (pre : option (list bool * xattrop)) (t : transaction) : sent :=
  match afr_transaction_perform_fop AFR_DATA_TRANSACTION (o_pre_xdata o) (Some (o_fd_mid o)) t with
  | (false, _, _) => mk_sent pre (tab n (fun _ => false)) None false
  | (true, _, t) =>
      let '(replies, t') := __afr_txn_write_fop (o_rets o) (o_size o) t in
      let '(told, t') := if (AFR_COUNT (alive t) n =? 0)%nat then (None, t') else afr_writev_wind_cbk o replies t' in
      let '(post, t') := afr_transaction_resume o replies t' in
      mk_sent pre (alive t) (option_map (fun x => (alive t', x)) post) (default (0 <=? op_ret t') told)
  end.

Definition afr_writev (o : outcome) : sent :=
  match afr_changelog_pre_op AFR_DATA_TRANSACTION true (Some (o_fd_pre o)) (o_locked o) with
  | Pre_err => mk_sent None (tab n (fun _ => false)) None false
  | Pre_next _ t => afr_writev_fop o None t
  | Pre_do x _ t => afr_writev_fop o (Some (alive t, x)) (afr_changelog_cbk (o_pre_ok o) t)
  end.
End children.
