(* ===== verification/AfrFacts.v ===== *)
(** * Replication: facts

    Arrays, quorums, the numbers in changelogs, and what the choice of a source
    gives. *)

From S2P Require Import Prelude Words AfrHeal AfrTxn.
Open Scope Z_scope.

(** The number a brick keeps for child [j]. *)
Definition acc (c : changelogs) (j : nat) : Z :=
  match nth j (x_pending c) None with Some raw => changelog_value raw 0 | None => 0 end.

(** A changelog on disk has three words. *)
Definition raw_ok (raw : list Z) : Prop := length raw = AFR_NUM_CHANGE_LOGS /\ forall k, 0 <= val raw k < 2 ^ 32.
Definition logs_ok (n : nat) (c : changelogs) : Prop :=
  length (x_pending c) = n /\ forall j raw, nth j (x_pending c) None = Some raw -> raw_ok raw.

(** ** Arrays *)

Lemma nth_tab {A} n (f : nat -> A) i d : nth i (tab n f) d = if (i <? n)%nat then f i else d.
Proof.
  unfold tab. destruct (Nat.ltb_spec i n) as [Hi | Hi].
  - rewrite (nth_indep _ d (f 0%nat)) by (rewrite length_map, length_seq; lia).
    rewrite (map_nth f (seq 0 n) 0%nat i), seq_nth by lia. reflexivity.
  - apply nth_overflow. rewrite length_map, length_seq. lia.
Qed.

Lemma length_tab {A} n (f : nat -> A) : length (tab n f) = n.
Proof. unfold tab. rewrite length_map, length_seq. reflexivity. Qed.

Lemma on_tab n f i : on (tab n f) i = (i <? n)%nat && f i.
Proof. unfold on. rewrite nth_tab. destruct (i <? n)%nat; reflexivity. Qed.

Lemma on_tab_lt n f i : (i < n)%nat -> on (tab n f) i = f i.
Proof. intros H. rewrite on_tab. apply Nat.ltb_lt in H. rewrite H. reflexivity. Qed.

Lemma val_tab n f i : (i < n)%nat -> val (tab n f) i = f i.
Proof. intros H. unfold val. rewrite nth_tab. apply Nat.ltb_lt in H. rewrite H. reflexivity. Qed.

Lemma cell_tab n f i j : (i < n)%nat -> cell (tab n f) i j = val (f i) j.
Proof. intros H. unfold cell. rewrite nth_tab. apply Nat.ltb_lt in H. rewrite H. reflexivity. Qed.

Lemma existsb_seq n f : existsb f (seq 0 n) = true <-> exists i, (i < n)%nat /\ f i = true.
Proof.
  rewrite existsb_exists. split; intros (i & Hi & E); exists i; split; try exact E.
  - apply in_seq in Hi. lia.
  - apply in_seq. lia.
Qed.

Lemma existsb_seq_false n f : existsb f (seq 0 n) = false <-> forall i, (i < n)%nat -> f i = false.
Proof.
  rewrite <- not_true_iff_false, existsb_seq. split.
  - intros H i Hi. destruct (f i) eqn:E; [|reflexivity]. destruct H. exists i. auto.
  - intros H (i & Hi & E). rewrite H in E by exact Hi. discriminate.
Qed.

Lemma find_seq n f i : List.find f (seq 0 n) = Some i -> (i < n)%nat /\ f i = true.
Proof. intros H. apply find_some in H as [Hi E]. apply in_seq in Hi. split; [lia | exact E]. Qed.

Lemma count_pos l n : AFR_COUNT l n <> 0%nat <-> exists i, (i < n)%nat /\ on l i = true.
Proof.
  unfold AFR_COUNT. destruct (List.filter (on l) (seq 0 n)) as [|i r] eqn:E.
  - split; [intros H; destruct H; reflexivity|]. intros (i & Hi & Hon). exfalso.
    assert (Hin : In i (List.filter (on l) (seq 0 n))) by (apply filter_In; split; [apply in_seq; lia | exact Hon]).
    rewrite E in Hin. destruct Hin.
  - split; [|discriminate]. intros _. exists i.
    assert (Hin : In i (List.filter (on l) (seq 0 n))) by (rewrite E; left; reflexivity).
    apply filter_In in Hin as [Hin Hon]. apply in_seq in Hin. split; [lia | exact Hon].
Qed.

Lemma count_zero l n : AFR_COUNT l n = 0%nat <-> forall i, (i < n)%nat -> on l i = false.
Proof.
  split.
  - intros H i Hi. destruct (on l i) eqn:E; [|reflexivity].
    assert (AFR_COUNT l n <> 0%nat) by (apply count_pos; eauto). lia.
  - intros H. destruct (decide (AFR_COUNT l n = 0%nat)) as [E | E]; [exact E|].
    apply count_pos in E as (i & Hi & Hon). rewrite H in Hon by exact Hi. discriminate.
Qed.

Lemma filter_length_mono {A} (f g : A -> bool) l :
  (forall x, In x l -> f x = true -> g x = true) -> (length (List.filter f l) <= length (List.filter g l))%nat.
Proof.
  induction l as [|x l IH]; intros H; [reflexivity|]. cbn.
  assert (IH' := IH (fun y Hy => H y (or_intror Hy))). assert (Hx := H x (or_introl eq_refl)).
  destruct (f x), (g x); cbn; try lia; discriminate (Hx eq_refl).
Qed.

Lemma count_mono a b n :
  (forall i, (i < n)%nat -> on a i = true -> on b i = true) -> (AFR_COUNT a n <= AFR_COUNT b n)%nat.
Proof. intros H. apply filter_length_mono. intros x Hx. apply in_seq in Hx. apply H. lia. Qed.

Lemma filter_length_disjoint {A} (f g : A -> bool) l :
  (forall x, In x l -> f x = true -> g x = false) ->
  (length (List.filter f l) + length (List.filter g l) <= length l)%nat.
Proof.
  induction l as [|x l IH]; intros H; [reflexivity|]. cbn.
  assert (IH' := IH (fun y Hy => H y (or_intror Hy))). assert (Hx := H x (or_introl eq_refl)).
  destruct (f x), (g x); cbn; try lia; discriminate (Hx eq_refl).
Qed.

(** Two arrays with more than [n] marks have one in common. *)
Lemma count_meet a b n :
  (n < AFR_COUNT a n + AFR_COUNT b n)%nat -> exists i, (i < n)%nat /\ on a i = true /\ on b i = true.
Proof.
  intros H. destruct (existsb (fun i => on a i && on b i) (seq 0 n)) eqn:E.
  - apply existsb_seq in E as (i & Hi & E). apply andb_true_iff in E as [Ha Hb]. eauto.
  - exfalso. rewrite existsb_seq_false in E.
    assert (D := filter_length_disjoint (on a) (on b) (seq 0 n)). rewrite length_seq in D.
    unfold AFR_COUNT in H. enough (length (List.filter (on a) (seq 0 n)) + length (List.filter (on b) (seq 0 n)) <= n)%nat by lia.
    apply D. intros x Hx Hon. apply in_seq in Hx. specialize (E x ltac:(lia)). rewrite Hon in E. exact E.
Qed.

(** ** Quorums *)

Lemma quorum_mono priv a b :
  (forall i, (i < child_count priv)%nat -> on a i = true -> on b i = true) -> (0 < child_count priv)%nat ->
  afr_has_quorum priv a = true -> afr_has_quorum priv b = true.
Proof.
  intros H Hn. assert (C := count_mono a b (child_count priv) H). unfold afr_has_quorum.
  destruct (quorum_count priv =? AFR_QUORUM_AUTO) eqn:Eq; cbn [andb]; [|intros Q; apply Z.leb_le in Q; apply Z.leb_le; lia].
  assert (D := Nat.div_mod_eq (child_count priv) 2). assert (D2 := Nat.mod_upper_bound (child_count priv) 2 ltac:(lia)).
  destruct (Nat.eqb_spec (AFR_COUNT a (child_count priv) * 2) (child_count priv)) as [E | E],
    (Nat.eqb_spec (AFR_COUNT b (child_count priv) * 2) (child_count priv)) as [E' | E']; intros Q.
  - apply H; [exact Hn | exact Q].
  - apply Z.leb_le. lia.
  - apply Z.leb_le in Q. lia.
  - apply Z.leb_le in Q. apply Z.leb_le. lia.
Qed.

(** With automatic quorum, any two quorums share a brick. *)
Lemma quorum_meet priv a b :
  quorum_count priv = AFR_QUORUM_AUTO -> (0 < child_count priv)%nat ->
  afr_has_quorum priv a = true -> afr_has_quorum priv b = true ->
  exists i, (i < child_count priv)%nat /\ on a i = true /\ on b i = true.
Proof.
  intros Hq Hn. unfold afr_has_quorum. rewrite Hq, Z.eqb_refl. cbn [andb].
  assert (D := Nat.div_mod_eq (child_count priv) 2). assert (D2 := Nat.mod_upper_bound (child_count priv) 2 ltac:(lia)).
  destruct (Nat.eqb_spec (AFR_COUNT a (child_count priv) * 2) (child_count priv)) as [E | E],
    (Nat.eqb_spec (AFR_COUNT b (child_count priv) * 2) (child_count priv)) as [E' | E']; intros Qa Qb;
    try apply Z.leb_le in Qa; try apply Z.leb_le in Qb.
  - exists 0%nat. auto.
  - apply count_meet. lia.
  - apply count_meet. lia.
  - apply count_meet. lia.
Qed.

(** ** Numbers in changelogs *)

Lemma s32_range x : - 2 ^ 31 <= s32 x < 2 ^ 31.
Proof. unfold s32. assert (H := Z.mod_pos_bound (x + 2 ^ 31) (2 ^ 32) ltac:(lia)). lia. Qed.

Lemma s32_congr x y : x mod 2 ^ 32 = y mod 2 ^ 32 -> s32 x = s32 y.
Proof.
  intros H. unfold s32. f_equal. rewrite (Z.add_mod x), (Z.add_mod y) by lia. rewrite H. reflexivity.
Qed.

Lemma s32_mod x : s32 x mod 2 ^ 32 = x mod 2 ^ 32.
Proof.
  unfold s32. rewrite Zminus_mod, Zmod_mod, <- Zminus_mod. f_equal. lia.
Qed.

Lemma s32_u32 x : s32 (u32 x) = s32 x.
Proof. apply s32_congr. unfold u32. apply Zmod_mod. Qed.

Lemma s32_add_s32 a b : s32 (a + s32 b) = s32 (a + b).
Proof. apply s32_congr. rewrite Z.add_mod, s32_mod, <- Z.add_mod by lia. reflexivity. Qed.

Lemma acc_range c j : - 2 ^ 31 <= acc c j < 2 ^ 31.
Proof. unfold acc. destruct (nth j (x_pending c) None); [apply s32_range | lia]. Qed.

Lemma raw_at_ok idx v : raw_ok (raw_at idx v).
Proof.
  split; [apply length_tab|]. intros k. unfold val, raw_at. rewrite nth_tab.
  destruct (k <? AFR_NUM_CHANGE_LOGS)%nat; [|lia]. destruct (k =? idx)%nat; [apply hton32_range | lia].
Qed.

Lemma raw_at_value v : changelog_value (raw_at 0 v) 0 = s32 v.
Proof.
  unfold changelog_value, raw_at. rewrite val_tab by (unfold AFR_NUM_CHANGE_LOGS; lia). cbn [Nat.eqb].
  rewrite hton32_involutive by apply u32_range. apply s32_u32.
Qed.

Lemma __add_array_ok d s : raw_ok d -> raw_ok (__add_array d s).
Proof.
  intros [Hl _]. split; [unfold __add_array; rewrite length_tab; exact Hl|]. intros k. unfold val, __add_array.
  rewrite nth_tab. destruct (k <? length d)%nat; [apply hton32_range | lia].
Qed.

Lemma __add_array_value d s :
  length d = AFR_NUM_CHANGE_LOGS ->
  changelog_value (__add_array d s) 0 = s32 (changelog_value d 0 + changelog_value s 0).
Proof.
  intros Hl. unfold changelog_value at 1, __add_array. rewrite val_tab by (rewrite Hl; unfold AFR_NUM_CHANGE_LOGS; lia).
  rewrite hton32_involutive by apply u32_range. rewrite s32_u32. reflexivity.
Qed.

Lemma zeros_ok : raw_ok (tab AFR_NUM_CHANGE_LOGS (fun _ => 0)).
Proof.
  split; [apply length_tab|]. intros k. unfold val. rewrite nth_tab. destruct (k <? AFR_NUM_CHANGE_LOGS)%nat; lia.
Qed.

Definition stored_value (s : option (list Z)) : Z := match s with Some raw => changelog_value raw 0 | None => 0 end.

(** One key of an xattrop adds a number, in 32 bits. *)
Lemma keyvalue_pair s v :
  (forall raw, s = Some raw -> raw_ok raw) ->
  (forall raw, _posix_handle_xattr_keyvalue_pair s (raw_at 0 v) = Some raw -> raw_ok raw)
  /\ stored_value (_posix_handle_xattr_keyvalue_pair s (raw_at 0 v)) = s32 (stored_value s + v).
Proof.
  intros Hs. unfold _posix_handle_xattr_keyvalue_pair. destruct (mem_0filled (raw_at 0 v)) eqn:E.
  - split; [exact Hs|]. unfold mem_0filled, raw_at in E. cbn in E. apply andb_true_iff in E as [E _].
    apply Z.eqb_eq in E. assert (Hu : u32 v = 0).
    { rewrite <- (hton32_involutive (u32 v)) by apply u32_range. rewrite E. reflexivity. }
    assert (Hr : s32 (stored_value s + v) = s32 (stored_value s)).
    { apply s32_congr. unfold u32 in Hu. rewrite Z.add_mod, Hu, Z.add_0_r, Zmod_mod by lia. reflexivity. }
    rewrite Hr. symmetry. apply s32_id. destruct s; [apply s32_range | cbn; lia].
  - assert (Hd : raw_ok (default (tab (length (raw_at 0 v)) (fun _ => 0)) s)).
    { destruct s; [apply Hs; reflexivity | unfold raw_at at 1; cbn; apply zeros_ok]. }
    split; [intros raw [= <-]; apply __add_array_ok, Hd|]. cbn [stored_value].
    rewrite __add_array_value by apply Hd. rewrite raw_at_value, s32_add_s32. f_equal. f_equal.
    destruct s; [reflexivity | vm_compute; reflexivity].
Qed.

Lemma do_xattrop_acc n c x v :
  logs_ok n c -> (forall j, (j < n)%nat -> nth j (a_pending x) [] = raw_at 0 (v j)) ->
  logs_ok n (do_xattrop c x) /\ forall j, (j < n)%nat -> acc (do_xattrop c x) j = s32 (acc c j + v j).
Proof.
  intros [Hl Hraw] Hx. unfold do_xattrop. split; [split|]; cbn [x_pending].
  - rewrite length_tab. exact Hl.
  - intros j raw. rewrite nth_tab, Hl. destruct (Nat.ltb_spec j n); [|discriminate]. rewrite Hx by assumption.
    apply keyvalue_pair. apply Hraw.
  - intros j Hj. unfold acc. cbn [x_pending]. rewrite nth_tab, Hl. destruct (Nat.ltb_spec j n); [|lia].
    rewrite Hx by assumption. apply (keyvalue_pair (nth j (x_pending c) None) (v j)), Hraw.
Qed.
