(* ===== verification/AfrDecide.v ===== *)
(** * Replication: what the choice of a source gives

    The sources and sinks of a data heal in terms of the numbers that the bricks
    keep, without an arbiter and without a policy for split brain. *)

From S2P Require Import Prelude Words AfrHeal AfrTxn AfrFacts.
Open Scope Z_scope.

(** Brick [k] accuses [j], and does not accuse itself. *)
Definition blames (matrix : list (list Z)) (k j : nat) : Prop := cell matrix k j <> 0 /\ cell matrix k k = 0.

Definition data_matrix (priv : afr_private) (replies : list afr_reply) : list (list Z) :=
  (afr_selfheal_extract_xattr priv replies AFR_DATA_TRANSACTION).2.

Lemma nonzero_true z : nonzero z = true <-> z <> 0.
Proof. unfold nonzero. rewrite negb_true_iff, Z.eqb_neq. reflexivity. Qed.

Lemma nonzero_false z : nonzero z = false <-> z = 0.
Proof. unfold nonzero. rewrite negb_false_iff, Z.eqb_eq. reflexivity. Qed.

Section decide.
Context (priv : afr_private).
Abbreviation n := (child_count priv).

Lemma data_matrix_cell replies i j :
  (i < n)%nat -> (j < n)%nat ->
  cell (data_matrix priv replies) i j =
  if succeeded (reply_of replies i) then match xdata (reply_of replies i) with Some x => acc x j | None => 0 end else 0.
Proof.
  intros Hi Hj. unfold data_matrix, afr_selfheal_extract_xattr. cbn [snd]. rewrite cell_tab by exact Hi.
  destruct (succeeded _); [|apply val_tab, Hj]. destruct (xdata _); [|apply val_tab, Hj].
  unfold afr_selfheal_fill_matrix. rewrite val_tab by exact Hj. reflexivity.
Qed.

Lemma accused_spec matrix j :
  on (find_accused priv matrix) j = true <-> (j < n)%nat /\ exists k, (k < n)%nat /\ blames matrix k j.
Proof.
  unfold find_accused. rewrite on_tab, andb_true_iff, Nat.ltb_lt, existsb_seq. apply and_iff_compat_l.
  split; intros (k & Hk & H); exists k; (split; [exact Hk|]).
  - apply andb_true_iff in H as [H1 H2]. split; [apply nonzero_true, H1|]. unfold find_self_accused in H2.
    rewrite on_tab_lt, negb_true_iff, nonzero_false in H2 by exact Hk. exact H2.
  - destruct H as [H1 H2]. apply nonzero_true in H1. rewrite H1. unfold find_self_accused.
    rewrite on_tab_lt by exact Hk. apply nonzero_false in H2. rewrite H2. reflexivity.
Qed.

(** Sources are the locked bricks that nobody blames; what a source blames is a
    sink. *)
Lemma direction_spec replies locked d :
  afr_selfheal_find_direction priv replies AFR_DATA_TRANSACTION locked = Some d ->
  (forall i, on (sources d) i = true <->
     (i < n)%nat /\ on locked i = true /\ ~ exists k, (k < n)%nat /\ blames (data_matrix priv replies) k i)
  /\ (forall i j, (j < n)%nat -> on (sources d) i = true -> blames (data_matrix priv replies) i j ->
        on (sinks d) j = true).
Proof.
  unfold afr_selfheal_find_direction. unfold data_matrix.
  destruct (afr_selfheal_extract_xattr priv replies AFR_DATA_TRANSACTION) as [dirty matrix]. cbn [snd].
  destruct (_ <? _)%nat; [discriminate|]. intros [= <-]. cbn [sources sinks].
  assert (Hs : forall i, on (tab n (fun i => negb (on (find_accused priv matrix) i) && on locked i)) i = true <->
    (i < n)%nat /\ on locked i = true /\ ~ exists k, (k < n)%nat /\ blames matrix k i).
  { intros i. rewrite on_tab, !andb_true_iff, Nat.ltb_lt, negb_true_iff, <- not_true_iff_false, accused_spec. tauto. }
  split; [exact Hs|]. intros i j Hj Hi [Hb Hd].
  assert (Hin : (i < n)%nat) by apply Hs, Hi.
  assert (Hc : AFR_COUNT (tab n (fun i => negb (on (find_accused priv matrix) i) && on locked i)) n <> 0%nat)
    by (apply count_pos; eauto).
  apply Nat.eqb_neq in Hc. rewrite Hc. rewrite on_tab_lt by exact Hj. apply existsb_seq. exists i.
  split; [exact Hin|]. rewrite Hi. apply nonzero_true in Hb. rewrite Hb. unfold find_self_accused.
  rewrite on_tab_lt by exact Hin. apply nonzero_false in Hd. rewrite Hd. reflexivity.
Qed.

(** ** Narrowing the sources *)

Lemma largest_sub srcs replies i : on (afr_mark_largest_file_as_source priv srcs replies) i = true -> on srcs i = true.
Proof.
  unfold afr_mark_largest_file_as_source. rewrite on_tab, !andb_true_iff. intros (Hi & H & _).
  rewrite on_tab, !andb_true_iff in H. tauto.
Qed.

Lemma witness_sub srcs wit i : on (afr_mark_biggest_witness_as_source priv srcs wit) i = true -> on srcs i = true.
Proof. unfold afr_mark_biggest_witness_as_source. rewrite on_tab, !andb_true_iff. tauto. Qed.

(** A fold that keeps the largest of the values of some elements. *)
Lemma fold_max (f : nat -> bool) (g : nat -> Z) (cmp : Z -> Z -> bool) l z :
  (forall a b, cmp a b = true -> a <= b) -> (forall a b, a < b -> cmp a b = true) ->
  let r := foldl (fun s i => if f i && cmp s (g i) then g i else s) z l in
  z <= r /\ (forall i, In i l -> f i = true -> g i <= r) /\ (r = z \/ exists i, In i l /\ f i = true /\ g i = r).
Proof.
  intros Hc Hc'. revert z. induction l as [|x l IH]; intros z; cbn.
  - split; [lia|]. split; [tauto | auto].
  - destruct (f x) eqn:Ef, (cmp z (g x)) eqn:Ec; cbn.
    + destruct (IH (g x)) as (H1 & H2 & H3). assert (Hz := Hc _ _ Ec). split; [lia|]. split.
      * intros i [<- | Hi]; [intros _; exact H1 | apply H2, Hi].
      * right. destruct H3 as [-> | (i & Hi & E)]; [exists x; auto | exists i; auto].
    + destruct (IH z) as (H1 & H2 & H3). split; [exact H1|]. split.
      * intros i [<- | Hi]; [|apply H2, Hi]. intros _. destruct (Z.lt_ge_cases z (g x)) as [Hl | Hl]; [|lia].
        rewrite (Hc' _ _ Hl) in Ec. discriminate.
      * destruct H3 as [-> | (i & Hi & E)]; [auto | right; exists i; auto].
    + destruct (IH z) as (H1 & H2 & H3). split; [exact H1|]. split.
      * intros i [<- | Hi]; [congruence | apply H2, Hi].
      * destruct H3 as [-> | (i & Hi & E)]; [auto | right; exists i; auto].
    + destruct (IH z) as (H1 & H2 & H3). split; [exact H1|]. split.
      * intros i [<- | Hi]; [congruence | apply H2, Hi].
      * destruct H3 as [-> | (i & Hi & E)]; [auto | right; exists i; auto].
Qed.

(** When the values are not negative, some element is not below the largest. *)
Lemma fold_max_attained (f : nat -> bool) (g : nat -> Z) (cmp : Z -> Z -> bool) k :
  (forall a b, cmp a b = true -> a <= b) -> (forall a b, a < b -> cmp a b = true) ->
  (forall i, (i < n)%nat -> f i = true -> 0 <= g i) -> (k < n)%nat -> f k = true ->
  exists i, (i < n)%nat /\ f i = true
    /\ (g i <? foldl (fun s i => if f i && cmp s (g i) then g i else s) 0 (seq 0 n)) = false.
Proof.
  intros Hc Hc' Hpos Hk Hf. destruct (fold_max f g cmp (seq 0 n) 0 Hc Hc') as (_ & _ & [H | (i & Hi & Hfi & E)]).
  - exists k. split; [exact Hk|]. split; [exact Hf|]. rewrite H. apply Z.ltb_ge. apply Hpos; assumption.
  - apply in_seq in Hi. exists i. split; [lia|]. split; [exact Hfi|]. rewrite E. apply Z.ltb_irrefl.
Qed.

Lemma largest_some srcs replies k :
  (forall i, (i < n)%nat -> 0 <= size_of replies i) -> (k < n)%nat -> on srcs k = true ->
  (forall i, on srcs i = true -> succeeded (reply_of replies i) = true) ->
  exists i, (i < n)%nat /\ on (afr_mark_largest_file_as_source priv srcs replies) i = true.
Proof.
  intros Hsz Hk Hon Hans.
  set (f := on (tab n (fun i => on srcs i && succeeded (reply_of replies i)))).
  assert (Hf : f k = true) by (unfold f; rewrite on_tab_lt, Hon, (Hans k Hon) by exact Hk; reflexivity).
  destruct (fold_max_attained f (size_of replies) Z.leb k) as (i & Hi & Hfi & E); try assumption.
  - intros a b H. apply Z.leb_le, H.
  - intros a b H. apply Z.leb_le. lia.
  - intros i Hi _. apply Hsz, Hi.
  - exists i. split; [exact Hi|]. unfold afr_mark_largest_file_as_source. rewrite on_tab_lt by exact Hi.
    fold f. rewrite Hfi. cbn [andb]. apply negb_true_iff. exact E.
Qed.

Lemma witness_some srcs wit k :
  (forall i, (i < n)%nat -> 0 <= val wit i) -> (k < n)%nat -> on srcs k = true ->
  exists i, (i < n)%nat /\ on (afr_mark_biggest_witness_as_source priv srcs wit) i = true.
Proof.
  intros Hw Hk Hon. destruct (fold_max_attained (on srcs) (val wit) Z.ltb k) as (i & Hi & Hfi & E); try assumption.
  - intros a b H. apply Z.ltb_lt in H. lia.
  - intros a b H. apply Z.ltb_lt, H.
  - intros i Hi _. apply Hw, Hi.
  - exists i. split; [exact Hi|]. unfold afr_mark_biggest_witness_as_source. rewrite on_tab_lt, Hfi by exact Hi.
    cbn [andb]. apply negb_true_iff. exact E.
Qed.

(** The loop of [afr_mark_newest_file_as_source]. *)
Lemma newest_fold srcs replies l acc0 :
  let r := foldl (fun '(source, max_ctime) i =>
      let c := ia_ctime (poststat (reply_of replies i)) in
      if on srcs i && (max_ctime <=? c) then (Some i, u32 c) else (source, max_ctime)) acc0 l in
  (forall s, r.1 = Some s -> acc0.1 = Some s \/ (In s l /\ on srcs s = true))
  /\ (acc0.1 <> None -> r.1 <> None)
  /\ ((forall i, 0 <= ia_ctime (poststat (reply_of replies i))) -> acc0.2 = 0 -> acc0.1 = None ->
      (exists k, In k l /\ on srcs k = true) -> r.1 <> None).
Proof.
  revert acc0. induction l as [|x l IH]; intros [src mx]; cbn.
  - split; [auto|]. split; [auto|]. intros _ _ _ (k & [] & _).
  - destruct (on srcs x) eqn:Ex, (mx <=? ia_ctime (poststat (reply_of replies x))) eqn:El; cbn.
    + destruct (IH (Some x, u32 (ia_ctime (poststat (reply_of replies x))))) as (H1 & H2 & _). cbn in H1, H2.
      split; [|split].
      * intros s Hs. destruct (H1 s Hs) as [[= <-] | [Hi Ho]]; auto.
      * intros _. apply H2. discriminate.
      * intros _ _ _ _. apply H2. discriminate.
    + destruct (IH (src, mx)) as (H1 & H2 & H3). split; [|split; [exact H2|]].
      * intros s Hs. destruct (H1 s Hs) as [E | [Hi Ho]]; auto.
      * intros Hc Hm _. cbn in Hm. apply Z.leb_gt in El. specialize (Hc x). lia.
    + destruct (IH (src, mx)) as (H1 & H2 & H3). split; [|split; [exact H2|]].
      * intros s Hs. destruct (H1 s Hs) as [E | [Hi Ho]]; auto.
      * intros Hc Hm Hn (k & [<- | Hk] & Ho); [congruence|]. apply H3; eauto.
    + destruct (IH (src, mx)) as (H1 & H2 & H3). split; [|split; [exact H2|]].
      * intros s Hs. destruct (H1 s Hs) as [E | [Hi Ho]]; auto.
      * intros Hc Hm Hn (k & [<- | Hk] & Ho); [congruence|]. apply H3; eauto.
Qed.

Lemma newest_spec srcs replies r :
  afr_mark_newest_file_as_source priv srcs replies = Some r ->
  exists s, (s < n)%nat /\ on srcs s = true /\ forall i, on r i = true <-> i = s.
Proof.
  unfold afr_mark_newest_file_as_source. assert (H := newest_fold srcs replies (seq 0 n) (None, 0)).
  destruct (foldl _ _ _) as [[s|] mx]; [|discriminate]. cbn in H. destruct H as (H & _ & _). intros [= <-].
  exists s. destruct (H s eq_refl) as [[=] | [Hi Ho]]. apply in_seq in Hi. split; [lia|]. split; [exact Ho|].
  intros i. rewrite on_tab, andb_true_iff, Nat.ltb_lt, Nat.eqb_eq. split; [tauto | intros ->; split; [lia | reflexivity]].
Qed.

Lemma newest_some srcs replies k :
  (forall i, 0 <= ia_ctime (poststat (reply_of replies i))) -> (k < n)%nat -> on srcs k = true ->
  exists r, afr_mark_newest_file_as_source priv srcs replies = Some r.
Proof.
  intros Hc Hk Ho. unfold afr_mark_newest_file_as_source. assert (H := newest_fold srcs replies (seq 0 n) (None, 0)).
  destruct (foldl _ _ _) as [[s|] mx]; [eauto|]. cbn in H. destruct H as (_ & _ & H). exfalso.
  apply H; auto. exists k. split; [apply in_seq; lia | exact Ho].
Qed.

Lemma choose_spec srcs s : afr_choose_source_by_policy priv srcs AFR_DATA_TRANSACTION = Some s ->
  (s < n)%nat /\ on srcs s = true.
Proof.
  unfold afr_choose_source_by_policy. destruct (List.find _ _) as [i|] eqn:E.
  - intros [= <-]. apply find_seq in E as [Hi E]. rewrite !andb_true_iff in E. tauto.
  - intros H. apply find_seq in H. exact H.
Qed.

Lemma choose_some srcs k : (k < n)%nat -> on srcs k = true ->
  exists s, afr_choose_source_by_policy priv srcs AFR_DATA_TRANSACTION = Some s.
Proof.
  intros Hk Ho. unfold afr_choose_source_by_policy. destruct (List.find _ _) as [i|]; [eauto|].
  destruct (List.find (on srcs) (seq 0 n)) as [i|] eqn:E; [eauto|].
  assert (H := find_none _ _ E k ltac:(apply in_seq; lia)). cbn in H. congruence.
Qed.

(** ** The source of a heal *)

Definition plain : Prop := arbiter_count priv = 0%nat /\ fav_child_policy priv = AFR_FAV_CHILD_NONE.

(** The file is not empty on every brick. *)
Definition not_empty (replies : list afr_reply) : Prop := exists i, (i < n)%nat /\ size_of replies i <> 0.

(** Sizes and times of the answers are not negative. *)
Definition stats_ok (replies : list afr_reply) : Prop :=
  forall i, 0 <= size_of replies i /\ 0 <= ia_ctime (poststat (reply_of replies i)).

Definition all_answered (locked : list bool) (replies : list afr_reply) : Prop :=
  forall i, (i < n)%nat -> on locked i = true -> succeeded (reply_of replies i) = true.

Lemma not_empty_unresolved m locked replies :
  plain -> not_empty replies ->
  (afr_mark_split_brain_source_sinks priv m locked replies AFR_DATA_TRANSACTION None).1.1 = None.
Proof.
  intros [_ Hfav] (i & Hi & Hsz). unfold afr_mark_split_brain_source_sinks, afr_mark_source_sinks_if_file_empty.
  rewrite Hfav. destruct (_ || _); [reflexivity|]. cbn [is_data].
  destruct (forallb _ _) eqn:E; [|reflexivity]. exfalso. rewrite forallb_forall in E.
  specialize (E i ltac:(apply in_seq; lia)). apply Z.eqb_eq in E. contradiction.
Qed.

Lemma finalize_out_source m locked by_policy s m' b :
  finalize_out priv m locked by_policy = FZ_source s m' b ->
  (s < n)%nat /\ on (m_sources m) s = true /\ b = by_policy
  /\ m' = mk_marks (m_sources m) (m_sinks m) (afr_mark_active_sinks priv (m_sources m) locked).
Proof.
  unfold finalize_out. cbn [m_sources]. destruct (afr_choose_source_by_policy _ _ _) as [k|] eqn:E; [|discriminate].
  intros [= <- <- <-]. apply choose_spec in E as [Hk Ho]. auto.
Qed.

(** The chosen source is one of the sources, and the healed bricks are the
    locked ones that are not sources in the end. *)
Lemma prepare_source locked replies s m b :
  plain -> not_empty replies ->
  __afr_selfheal_data_prepare priv locked replies None = Some (FZ_source s m b) ->
  exists d, afr_selfheal_find_direction priv replies AFR_DATA_TRANSACTION locked = Some d
    /\ (s < n)%nat /\ on (m_sources m) s = true /\ (forall i, on (m_sources m) i = true -> on (sources d) i = true)
    /\ m_sinks m = sinks d /\ m_healed m = afr_mark_active_sinks priv (m_sources m) locked /\ b = false.
Proof.
  intros Hp He. unfold __afr_selfheal_data_prepare.
  destruct (afr_selfheal_find_direction _ _ _ _) as [d|] eqn:Ed; [|discriminate]. intros [= H]. exists d.
  split; [reflexivity|]. unfold __afr_selfheal_data_finalize_source in H. cbn [m_sources m_healed] in H.
  destruct (_ || _) in H.
  - assert (Hn := not_empty_unresolved
      (mk_marks (sources d) (sinks d) (AFR_INTERSECT (sinks d) locked n)) locked replies Hp He).
    destruct (afr_mark_split_brain_source_sinks _ _ _ _ _ _) as [[[x|] m1] bp]; cbn in Hn; discriminate.
  - destruct (_ && _) in H.
    + apply finalize_out_source in H as (Hs & Ho & -> & ->). cbn in *. repeat split; auto.
    + destruct (afr_mark_newest_file_as_source _ _ _) as [r|] eqn:Er in H; [|discriminate].
      destruct Hp as [Ha _]. rewrite Ha in H. cbn [Nat.ltb Nat.leb] in H.
      apply finalize_out_source in H as (Hs & Ho & -> & ->). cbn in *.
      apply newest_spec in Er as (k & Hk & Hko & Hr). split; [exact Hs|]. split; [exact Ho|]. split; [|auto].
      intros i Hi. apply Hr in Hi. subst i. eapply largest_sub, witness_sub, Hko.
Qed.

Lemma finalize_out_some m locked by_policy k :
  (k < n)%nat -> on (m_sources m) k = true -> exists s m', finalize_out priv m locked by_policy = FZ_source s m' by_policy.
Proof.
  intros Hk Ho. unfold finalize_out. cbn [m_sources]. destruct (choose_some (m_sources m) k Hk Ho) as [s ->]. eauto.
Qed.

Lemma direction_witness replies locked d i :
  afr_selfheal_find_direction priv replies AFR_DATA_TRANSACTION locked = Some d -> (i < n)%nat -> 0 <= val (witness d) i.
Proof.
  unfold afr_selfheal_find_direction. destruct (afr_selfheal_extract_xattr _ _ _) as [dirty matrix].
  destruct (_ <? _)%nat; [discriminate|]. intros [= <-] Hi. cbn [witness]. unfold find_witness.
  rewrite val_tab by exact Hi. apply u64_range.
Qed.

Lemma cmp_differ a b i : (i < n)%nat -> on a i <> on b i -> AFR_CMP a b n = true.
Proof.
  intros Hi H. unfold AFR_CMP. apply existsb_seq. exists i. split; [exact Hi|].
  destruct (on a i), (on b i); cbn; congruence.
Qed.

(** A source is not a sink. *)
Lemma source_not_sink replies locked d i :
  afr_selfheal_find_direction priv replies AFR_DATA_TRANSACTION locked = Some d ->
  on (sources d) i = true -> on (sinks d) i = false.
Proof.
  intros Hd Hi. assert (Hin : (i < n)%nat) by (eapply direction_spec; eassumption).
  assert (Hb : ~ exists k, (k < n)%nat /\ blames (data_matrix priv replies) k i) by (eapply direction_spec; eassumption).
  revert Hd Hi Hb. unfold afr_selfheal_find_direction, data_matrix.
  destruct (afr_selfheal_extract_xattr _ _ _) as [dirty matrix]. cbn [snd].
  destruct (_ <? _)%nat; [discriminate|]. intros [= <-] Hi Hb. cbn [sources sinks] in *.
  assert (Hc := proj2 (count_pos _ n) (ex_intro _ i (conj Hin Hi))). apply Nat.eqb_neq in Hc. rewrite Hc.
  rewrite on_tab_lt by exact Hin. apply existsb_seq_false. intros k Hk. apply not_true_iff_false. intros H.
  rewrite !andb_true_iff in H. destruct H as [[_ H1] H2]. apply Hb. exists k. split; [exact Hk|].
  unfold find_self_accused in H1. rewrite on_tab_lt, negb_true_iff, nonzero_false in H1 by exact Hk.
  split; [apply nonzero_true, H2 | exact H1].
Qed.

(** When some locked brick is not blamed, there is a source. *)
Lemma prepare_defined locked replies d k :
  plain -> stats_ok replies -> all_answered locked replies ->
  afr_selfheal_find_direction priv replies AFR_DATA_TRANSACTION locked = Some d -> on (sources d) k = true ->
  exists s m, __afr_selfheal_data_prepare priv locked replies None = Some (FZ_source s m false).
Proof.
  intros Hp Hst Hans Hd Hk. unfold __afr_selfheal_data_prepare. rewrite Hd.
  assert (Hsrc : forall i, on (sources d) i = true -> (i < n)%nat /\ on locked i = true)
    by (intros i Hi; destruct (proj1 (proj1 (direction_spec _ _ _ Hd) i) Hi) as (H1 & H2 & _); auto).
  destruct (Hsrc k Hk) as [Hkn Hkl].
  unfold __afr_selfheal_data_finalize_source. cbn [m_sources m_healed m_sinks].
  assert (Hc : AFR_COUNT (sources d) n <> 0%nat) by (apply count_pos; eauto).
  apply Nat.eqb_neq in Hc. rewrite Hc.
  rewrite (cmp_differ locked (AFR_INTERSECT (sinks d) locked n) k Hkn); cycle 1.
  { unfold AFR_INTERSECT. rewrite on_tab_lt, (source_not_sink replies locked d k Hd Hk), Hkl by exact Hkn. discriminate. }
  cbn [negb orb]. destruct (_ && _).
  - destruct (finalize_out_some (mk_marks (sources d) (sinks d) (AFR_INTERSECT (sinks d) locked n)) locked false k Hkn Hk)
      as (s & m & ->). eauto.
  - destruct (largest_some (sources d) replies k) as (i & Hi & Hoi); auto.
    { intros i _. apply Hst. } { intros i Hi. destruct (Hsrc i Hi). apply Hans; assumption. }
    destruct (witness_some _ (witness d) i (fun j Hj => direction_witness _ _ _ j Hd Hj) Hi Hoi) as (j & Hj & Hoj).
    destruct (newest_some _ replies j (fun i => proj2 (Hst i)) Hj Hoj) as [r Hr]. rewrite Hr.
    destruct Hp as [Ha _]. rewrite Ha. cbn [Nat.ltb Nat.leb].
    apply newest_spec in Hr as (s & Hs & _ & Hrs).
    destruct (finalize_out_some (mk_marks r (sinks d) (AFR_INTERSECT (sinks d) locked n)) locked false s Hs) as (s' & m & ->);
      [apply Hrs; reflexivity | eauto].
Qed.
End decide.
