(* ===== verification/AfrSystem.v ===== *)
(** * Replication: a file on its bricks

    The bricks of one file under write transactions and data heals.  A brick has
    the writes it holds and its changelogs; transactions and heals send what
    [AfrTxn] and [AfrHeal] say, and any of it may be lost.  A write is known by a
    number; [extent] is the offset where its data ends, so that a sink that a heal
    truncates to a size has the writes of the source that end before it.

    A write is committed when the application was told that it succeeded and its
    post-op reached every brick it was sent to.  Transactions and heals are
    single steps here, as their locks exclude each other, but a client can die
    at any moment of one. *)

From S2P Require Import Prelude Words AfrHeal AfrTxn AfrFacts AfrDecide.
Open Scope Z_scope.

Record brick := mk_brick { content : list nat; logs : changelogs }.
Record volume := mk_volume { bricks : list brick; committed : list nat }.

Definition no_logs : changelogs := mk_changelogs None [] [].
Definition brick_at (v : volume) (i : nat) : brick := nth i (bricks v) (mk_brick [] no_logs).

Section volume.
Context (priv : afr_private).
Abbreviation n := (child_count priv).

(** A new file. *)
Definition new_file : volume := mk_volume (tab n (fun _ => mk_brick [] (mk_changelogs None (tab n (fun _ => None)) []))) [].

(** An xattrop that was sent, where it arrives. *)
Definition arrives (m : option (list bool * xattrop)) (there : list bool) (i : nat) (c : changelogs) : changelogs :=
  match m with
  | Some (targets, x) => if on targets i && on there i then do_xattrop c x else c
  | None => c
  end.

(** Write [w] on brick [i]: [pre], [fop] and [post] tell where its parts arrive. *)
Definition brick_write (s : sent) (w : nat) (pre fop post : list bool) (i : nat) (b : brick) : brick :=
  mk_brick (if on (s_fop s) i && on fop i then w :: content b else content b)
    (arrives (s_post s) post i (arrives (s_pre s) pre i (logs b))).

Definition commits (s : sent) (post : list bool) : bool :=
  s_ack s && match s_post s with
             | Some (targets, _) => forallb (fun i => implb (on targets i) (on post i)) (seq 0 n)
             | None => false
             end.

Definition volume_write (v : volume) (o : outcome) (w : nat) (pre fop post : list bool) : volume :=
  let s := afr_writev priv o in
  mk_volume (tab n (fun i => brick_write s w pre fop post i (brick_at v i)))
    (if commits s post then w :: committed v else committed v).

(** A heal in which every sink is healed, under the locks [locked]. *)
Definition whole (locked : list bool) : heal_run := mk_run (tab n (fun _ => true)) Some locked.

Definition sent_to (i : nat) (l : list (nat * xattrop)) : list xattrop :=
  map snd (List.filter (fun p => (p.1 =? i)%nat) l).

Section extent.
Context (extent : nat -> Z).

(** A sink is truncated to [h_size] and gets the data of the source up to there. *)
Definition brick_heal (v : volume) (r : heal_result) (i : nat) : brick :=
  let b := brick_at v i in
  mk_brick (match h_source r with
            | Some s => if on (h_copied r) i then List.filter (fun w => extent w <=? h_size r) (content (brick_at v s))
                        else content b
            | None => content b
            end) (foldl do_xattrop (logs b) (sent_to i (h_xattrops r))).

Definition volume_heal (v : volume) (r : heal_result) : volume := mk_volume (tab n (brick_heal v r)) (committed v).

(** The answers of the bricks carry their changelogs, and a size that all their
    writes are within. *)
Definition answers_of (v : volume) (replies : list afr_reply) : Prop :=
  forall i, (i < n)%nat -> succeeded (reply_of replies i) = true ->
    xdata (reply_of replies i) = Some (logs (brick_at v i))
    /\ forall w, w ∈ content (brick_at v i) -> extent w <= size_of replies i.

(** The locked bricks all answer, and the file is not empty everywhere. *)
Definition inspected (v : volume) (locked : list bool) (replies : list afr_reply) : Prop :=
  all_answered priv locked replies /\ answers_of v replies /\ not_empty priv replies.

Inductive volume_step : volume -> volume -> Prop :=
| Step_write v o w pre fop post :
    (forall i, (i < n)%nat -> on (s_fop (afr_writev priv o)) i = true -> 0 <= (nth i (o_rets o) (-1, ENOTCONN)).1 ->
       on fop i = true) ->
    volume_step v (volume_write v o w pre fop post)
| Step_heal v locked replies r :
    inspected v locked replies ->
    __afr_selfheal_data priv locked replies None (whole locked) = Some r ->
    volume_step v (volume_heal v r)
(** The client dies while it copies: the sinks are left with some of their own
    data and some of the source's. *)
| Step_cut v locked replies s m b mix :
    inspected v locked replies ->
    __afr_selfheal_data_prepare priv locked replies None = Some (FZ_source s m b) ->
    (forall i, on (m_healed m) i = false -> mix i = content (brick_at v i)) ->
    (forall i w, on (m_healed m) i = true -> w ∈ content (brick_at v i) -> w ∈ content (brick_at v s) -> w ∈ mix i) ->
    (forall i w, on (m_healed m) i = true -> w ∈ mix i -> w ∈ content (brick_at v i) \/ w ∈ content (brick_at v s)) ->
    volume_step v (mk_volume (tab n (fun i => mk_brick (mix i) (logs (brick_at v i)))) (committed v)).

(** After [k] steps. *)
Inductive volume_after : nat -> volume -> Prop :=
| After_0 : volume_after 0 new_file
| After_S k v v' : volume_after k v -> volume_step v v' -> volume_after (S k) v'.
End extent.

(** ** What is kept *)

(** A quorum of bricks holds [w], and each of them accuses all others. *)
Definition held_by (v : volume) (w : nat) (X : list bool) : Prop :=
  (exists i, (i < n)%nat /\ on X i = true)
  /\ (quorum_count priv <> 0 -> afr_has_quorum priv X = true)
  /\ (forall g, (g < n)%nat -> on X g = true -> w ∈ content (brick_at v g))
  /\ (forall g b, (g < n)%nat -> (b < n)%nat -> on X g = true -> on X b = false -> acc (logs (brick_at v g)) b <> 0).

Record volume_ok (k : Z) (v : volume) : Prop := mk_volume_ok {
  ok_logs : forall i, (i < n)%nat -> logs_ok n (logs (brick_at v i));
  ok_range : forall i j, (i < n)%nat -> (j < n)%nat -> 0 <= acc (logs (brick_at v i)) j <= k;
  ok_self : forall i, (i < n)%nat -> acc (logs (brick_at v i)) i = 0;
  ok_held : forall w, w ∈ committed v -> exists X, held_by v w X
}.

(** ** Transactions *)

Lemma uninherit_keeps type fd t r fd' t' :
  afr_changelog_pre_op_uninherit priv type fd t = (r, fd', t') ->
  pre_op t' = pre_op t /\ failed_subvols t' = failed_subvols t /\ op_ret t' = op_ret t /\ in_flight_sb t' = in_flight_sb t.
Proof.
  unfold afr_changelog_pre_op_uninherit. intros H.
  repeat match type of H with
         | context [match ?x with _ => _ end] => destruct x
         end; injection H as <- <- <-; repeat split.
Qed.

Lemma alive_spec t i : on (alive priv t) i = true <-> (i < n)%nat /\ on (pre_op t) i = true /\ on (failed_subvols t) i = false.
Proof. unfold alive. rewrite on_tab, !andb_true_iff, Nat.ltb_lt, negb_true_iff. tauto. Qed.

Lemma alive_congr t t' : pre_op t' = pre_op t -> failed_subvols t' = failed_subvols t -> alive priv t' = alive priv t.
Proof. unfold alive. intros -> ->. reflexivity. Qed.

Lemma fops_failed_spec f t i : (i < n)%nat ->
  on (failed_subvols (fops_failed priv f t)) i = on (failed_subvols t) i || f i.
Proof. intros Hi. unfold fops_failed, set_failed. cbn [failed_subvols]. apply on_tab_lt, Hi. Qed.

(** Quorum is kept, or no brick is left. *)
Lemma handle_quorum_spec t :
  arbiter_count priv = 0%nat -> (exists i, on (alive priv (afr_handle_quorum priv t)) i = true) ->
  afr_handle_quorum priv t = t
  /\ (op_ret t <> -1 -> quorum_count priv <> 0 -> afr_has_quorum priv (alive priv t) = true).
Proof.
  intros Ha [i Hi]. unfold afr_handle_quorum in *. rewrite Ha in *. cbn [Nat.ltb Nat.leb] in *.
  destruct (Z.eqb_spec (quorum_count priv) 0); cbn [orb] in *; [split; [reflexivity | lia]|].
  destruct (Z.eqb_spec (op_ret t) (-1)); [split; [reflexivity | lia]|].
  unfold afr_has_fop_cbk_quorum in *. destruct (afr_has_quorum priv (alive priv t)) eqn:E; [auto|].
  exfalso. apply alive_spec in Hi as (Hn & Hp & Hf). cbn [pre_op failed_subvols set_op_ret fops_failed set_failed] in Hp, Hf.
  rewrite on_tab_lt, Hp, orb_true_r in Hf by exact Hn. discriminate.
Qed.

Lemma post_op_now_spec type fd t x fd' t' :
  arbiter_count priv = 0%nat -> afr_changelog_post_op_now priv type fd t = (Some x, fd', t') ->
  pre_op t' = pre_op t /\ failed_subvols t' = failed_subvols t /\ op_ret t' = op_ret t
  /\ (exists i, on (alive priv t) i = true)
  /\ (op_ret t <> -1 -> quorum_count priv <> 0 -> afr_has_quorum priv (alive priv t) = true)
  /\ a_pending x = tab n (fun i => raw_at (afr_index_for_transaction_type type) (if on (failed_subvols t) i then 1 else 0)).
Proof.
  intros Ha. unfold afr_changelog_post_op_now.
  destruct (afr_changelog_pre_op_uninherit priv type fd (afr_handle_quorum priv t)) as [[u fd1] t1] eqn:Eu.
  apply uninherit_keeps in Eu as (E1 & E2 & E3 & _).
  destruct (_ && _); [discriminate|]. destruct (_ && _); [discriminate|]. destruct (in_flight_sb t1); [discriminate|].
  destruct (Nat.eqb_spec (AFR_COUNT (alive priv t1) n) 0) as [|Hc]; [discriminate|].
  rewrite (alive_congr _ _ E1 E2) in Hc. apply count_pos in Hc as (i & _ & Hi).
  destruct (handle_quorum_spec t Ha (ex_intro _ i Hi)) as [Hq Hquorum]. rewrite Hq in *.
  intros [= <- <- <-]. cbn [a_pending]. rewrite E1, E2, E3. repeat split; eauto.
Qed.

(** [t'] comes after [t], with more bricks failed. *)
Definition grew (t t' : transaction) : Prop :=
  pre_op t' = pre_op t /\ op_ret t' = op_ret t
  /\ forall i, (i < n)%nat -> on (failed_subvols t) i = true -> on (failed_subvols t') i = true.

Lemma grew_trans t1 t2 t3 : grew t1 t2 -> grew t2 t3 -> grew t1 t3.
Proof. intros (A1 & B1 & C1) (A2 & B2 & C2). split; [congruence|]. split; [congruence | auto]. Qed.

Lemma grew_fops f t : grew t (fops_failed priv f t).
Proof. split; [reflexivity|]. split; [reflexivity|]. intros i Hi H. rewrite fops_failed_spec, H by exact Hi. reflexivity. Qed.

Lemma grew_same t t' : pre_op t' = pre_op t -> failed_subvols t' = failed_subvols t -> op_ret t' = op_ret t -> grew t t'.
Proof. intros E1 E2 E3. split; [exact E1|]. split; [exact E3|]. rewrite E2. auto. Qed.

Lemma grew_alive t t' i : grew t t' -> on (alive priv t') i = true -> on (alive priv t) i = true.
Proof.
  intros (E & _ & H). rewrite !alive_spec, E. intros (Hi & Hp & Hf). repeat split; try assumption.
  apply not_true_iff_false. intros Ht. rewrite (H i Hi Ht) in Hf. discriminate.
Qed.

(** The transaction [t'] after a post-op [x]. *)
Definition posted (t' : transaction) (x : xattrop) : Prop :=
  (exists i, on (alive priv t') i = true)
  /\ (op_ret t' <> -1 -> quorum_count priv <> 0 -> afr_has_quorum priv (alive priv t') = true)
  /\ a_pending x = tab n (fun i => raw_at 0 (if on (failed_subvols t') i then 1 else 0)).

Lemma post_op_now_posted fd t x fd' t' :
  arbiter_count priv = 0%nat -> afr_changelog_post_op_now priv AFR_DATA_TRANSACTION fd t = (Some x, fd', t') ->
  grew t t' /\ posted t' x.
Proof.
  intros Ha H. destruct (post_op_now_spec _ _ _ _ _ _ Ha H) as (E1 & E2 & E3 & H1 & H2 & H3).
  split; [apply grew_same; assumption|]. unfold posted. rewrite (alive_congr _ _ E1 E2), E2, E3. auto.
Qed.

Lemma post_op_safe_posted unstable synced fd t x fd' t' :
  arbiter_count priv = 0%nat ->
  afr_changelog_post_op_safe priv unstable synced AFR_DATA_TRANSACTION fd t = (Some x, fd', t') ->
  grew t t' /\ posted t' x.
Proof.
  intros Ha. unfold afr_changelog_post_op_safe. destruct fd as [c|]; [|apply post_op_now_posted, Ha]. cbn [is_data negb].
  destruct (afr_changelog_pre_op_uninherit priv AFR_DATA_TRANSACTION (Some c) t) as [[u fd1] t1] eqn:Eu.
  apply uninherit_keeps in Eu as (E1 & E2 & E3 & _). assert (G := grew_same _ _ E1 E2 E3).
  destruct (_ && _); [|destruct unstable]; intros H; apply post_op_now_posted in H as [G' H]; try exact Ha;
    (split; [|exact H]).
  - eapply grew_trans; eassumption.
  - eapply grew_trans; [exact G|]. eapply grew_trans; [apply grew_fops | exact G'].
  - eapply grew_trans; eassumption.
Qed.

Lemma resume_posted o replies t x t' :
  arbiter_count priv = 0%nat -> afr_transaction_resume priv o replies t = (Some x, t') ->
  grew (afr_handle_symmetric_errors priv replies t) t' /\ posted t' x.
Proof.
  intros Ha. unfold afr_transaction_resume.
  destruct (is_afr_delayed_changelog_post_op_needed _ _ _); intros H;
    match type of H with context [match ?e with _ => _ end] => destruct e as [[y fd] t1] eqn:E end;
    injection H as -> ->; [eapply post_op_now_posted | eapply post_op_safe_posted]; eassumption.
Qed.

(** ** The answers to a write *)

Definition best_of (replies : answers) (l : list nat) (z : Z) : Z :=
  foldl (fun r i => match answer replies i with
                    | Some (ret, _) => if (0 <=? ret) && (r <? ret) then ret else r
                    | None => r
                    end) z l.

Lemma best_attained replies l z :
  best_of replies l z = z \/ exists i ret e, In i l /\ answer replies i = Some (ret, e) /\ 0 <= ret.
Proof.
  revert z. induction l as [|x l IH]; intros z; cbn; [auto|].
  assert (Hr : forall z', (best_of replies l z' = z' \/ exists i ret e, In i l /\ answer replies i = Some (ret, e) /\ 0 <= ret) ->
    z' = z \/ (exists ret e, answer replies x = Some (ret, e) /\ 0 <= ret) ->
    best_of replies l z' = z \/ exists i ret e, (x = i \/ In i l) /\ answer replies i = Some (ret, e) /\ 0 <= ret).
  { intros z' [-> | (i & ret & e & Hi & H)] Hz; [|right; exists i, ret, e; auto].
    destruct Hz as [-> | (ret & e & H)]; [auto | right; exists x, ret, e; auto]. }
  destruct (answer replies x) as [[ret e]|]; [|apply Hr; auto].
  destruct (Z.leb_spec 0 ret); cbn [andb]; [|apply Hr; auto].
  destruct (z <? ret); apply Hr; auto. right. eauto.
Qed.

(** An answer that is not an error is not a symmetric error. *)
Lemma not_symmetric replies i ret e :
  (i < n)%nat -> answer replies i = Some (ret, e) -> 0 <= ret -> afr_is_symmetric_error priv replies = false.
Proof.
  intros Hi Ha Hret. unfold afr_is_symmetric_error.
  set (f := fun _ _ => _). assert (Hnone : forall l, foldl f None l = None).
  { induction l as [|x l IH]; [reflexivity|]. cbn [foldl]. unfold f at 2. exact IH. }
  assert (H : forall l acc0, In i l -> foldl f acc0 l = None).
  { induction l as [|x l IH]; intros acc0 Hin; [destruct Hin|]. destruct Hin as [-> | Hin].
    - cbn [foldl]. enough (f acc0 i = None) as -> by apply Hnone. unfold f. rewrite Ha. destruct acc0; [|reflexivity].
      destruct (Z.eqb_spec ret (-1)); [lia | reflexivity].
    - cbn [foldl]. apply IH, Hin. }
  rewrite H by (apply in_seq; lia). reflexivity.
Qed.

Lemma finalize_keeps replies datamap t :
  let t' := __afr_inode_write_finalize priv replies datamap t in
  pre_op t' = pre_op t /\ failed_subvols t' = failed_subvols t /\ op_ret t' = best_of replies (seq 0 n) (-1).
Proof.
  unfold __afr_inode_write_finalize, afr_set_in_flight_sb_status, __afr_set_in_flight_sb_status.
  destruct (_ || _); [repeat split|]. destruct (_ && _); repeat split.
Qed.

Lemma update_keeps fd t :
  let t' := (afr_changelog_pre_op_update priv fd t).2 in
  pre_op t' = pre_op t /\ failed_subvols t' = failed_subvols t /\ op_ret t' = op_ret t.
Proof.
  unfold afr_changelog_pre_op_update. destruct fd as [c|]; [|repeat split].
  destruct (_ || _); [repeat split|]. destruct (_ =? _)%nat; [repeat split|]. destruct (same_bricks _ _ _); repeat split.
Qed.

(** A brick that is sent the write and is not failed by its answer succeeded. *)
Lemma write_fop_spec rets size t replies t' :
  arbiter_count priv = 0%nat -> __afr_txn_write_fop priv rets size t = (replies, t') ->
  grew t t'
  /\ (forall i, on (alive priv t') i = true -> on (alive priv t) i = true /\ 0 <= (nth i rets (-1, ENOTCONN)).1)
  /\ (forall i ret e, answer replies i = Some (ret, e) -> (i < n)%nat /\ on (alive priv t) i = true).
Proof.
  intros Ha. unfold __afr_txn_write_fop. intros [= <- <-]. set (replies := tab n _).
  assert (Hrep : forall i, answer replies i = if on (alive priv t) i then Some (nth i rets (-1, ENOTCONN)) else None).
  { intros i. unfold answer, replies. rewrite nth_tab. unfold __afr_inode_write_fill, AFR_IS_ARBITER_BRICK. rewrite Ha. cbn [Nat.eqb andb].
    destruct (Nat.ltb_spec i n) as [Hi | Hi].
    - destruct (on (alive priv t) i); [|reflexivity]. destruct (nth i rets _). reflexivity.
    - unfold alive. rewrite on_tab. apply Nat.ltb_ge in Hi. rewrite Hi. reflexivity. }
  split; [apply grew_fops|]. split.
  - intros i Hi. assert (Hal := grew_alive _ _ _ (grew_fops _ t) Hi). split; [exact Hal|].
    apply alive_spec in Hi as (Hn & _ & Hf). rewrite fops_failed_spec, Hrep, Hal in Hf by exact Hn.
    apply orb_false_iff in Hf as [_ Hf]. destruct (nth i rets _) as [ret e]. apply Z.ltb_ge in Hf. exact Hf.
  - intros i ret e. rewrite Hrep. destruct (on (alive priv t) i) eqn:E; [|discriminate]. intros _.
    split; [|reflexivity]. apply alive_spec in E. apply E.
Qed.

(** The bricks without a lock count as failed. *)
Definition covered (t : transaction) : Prop :=
  op_ret t = -1 /\ forall i, (i < n)%nat -> on (pre_op t) i = false -> on (failed_subvols t) i = true.

(** A post-op and its bricks, in an acknowledged write: every other brick is
    accused, and those that are not hold the write and have quorum. *)
Definition post_ok (o : outcome) (s : sent) (T : list bool) (x : xattrop) : Prop :=
  exists f, a_pending x = tab n (fun i => raw_at 0 (if on f i then 1 else 0))
    /\ (forall i, on T i = true -> on f i = false)
    /\ (s_ack s = true ->
        (forall i, (i < n)%nat -> on T i = false -> on f i = true)
        /\ (exists i, (i < n)%nat /\ on T i = true)
        /\ (quorum_count priv <> 0 -> afr_has_quorum priv T = true)
        /\ (forall i, on T i = true -> on (s_fop s) i = true /\ 0 <= (nth i (o_rets o) (-1, ENOTCONN)).1)).

Lemma wind_cbk_spec o replies t told t' :
  covered t -> (forall i ret e, answer replies i = Some (ret, e) -> (i < n)%nat) ->
  afr_writev_wind_cbk priv o replies t = (told, t') ->
  pre_op t' = pre_op t
  /\ (forall i, (i < n)%nat -> on (failed_subvols t) i = true -> on (failed_subvols t') i = true)
  /\ (forall b, told = Some b -> b = (0 <=? op_ret t'))
  /\ (0 <= op_ret t' -> afr_is_symmetric_error priv replies = false).
Proof.
  intros [Hop Hcov] Hans. unfold afr_writev_wind_cbk, afr_process_post_writev, afr_writev_handle_short_writes.
  destruct (finalize_keeps replies (o_datamap o) t) as (E1 & E2 & E3). cbn zeta in E1, E2, E3.
  set (t1 := __afr_inode_write_finalize _ _ _ _) in *. destruct (grew_fops (fun i => match answer replies i with
    | Some (ret, _) => negb (ret =? -1) && (ret <? op_ret t1) | None => false end) t1) as (G1 & G2 & G3).
  intros [= <- <-]. split; [congruence|]. split; [rewrite E2 in G3; exact G3|]. split.
  - intros b H. destruct (afr_txn_nothing_failed _ _); congruence.
  - rewrite G2, E3. intros H. destruct (best_attained replies (seq 0 n) (-1)) as [E | (i & ret & e & _ & Hi & Hret)].
    + rewrite E in H. lia.
    + eapply not_symmetric; [eapply Hans, Hi | exact Hi | exact Hret].
Qed.

Lemma writev_fop_spec o pre t T x :
  arbiter_count priv = 0%nat -> covered t -> s_post (afr_writev_fop priv o pre t) = Some (T, x) ->
  post_ok o (afr_writev_fop priv o pre t) T x.
Proof.
  intros Ha Hc. unfold afr_writev_fop, afr_transaction_perform_fop.
  destruct (update_keeps (Some (o_fd_mid o)) t) as (U1 & U2 & U3). cbn zeta in U1, U2, U3.
  destruct (afr_changelog_pre_op_update _ _ _) as [fd t0]. cbn [snd] in *. rewrite Ha. cbn [Nat.eqb].
  assert (Hc0 : covered t0) by (unfold covered; rewrite U1, U2, U3; exact Hc). clear Hc U1 U2 U3 t.
  destruct (__afr_txn_write_fop _ _ _ _) as [replies t1] eqn:Ew.
  apply write_fop_spec in Ew as (G1 & Hret & Hans); [|exact Ha].
  assert (Hc1 : covered t1).
  { destruct G1 as (E1 & E2 & E3), Hc0 as [Ho Hf]. split; [congruence|]. rewrite E1. auto. }
  destruct (if (AFR_COUNT (alive priv t0) n =? 0)%nat then _ else _) as [told t2] eqn:Et.
  assert (H2 : pre_op t2 = pre_op t1
    /\ (forall i, (i < n)%nat -> on (failed_subvols t1) i = true -> on (failed_subvols t2) i = true)
    /\ (forall b, told = Some b -> b = (0 <=? op_ret t2))
    /\ (0 <= op_ret t2 -> afr_is_symmetric_error priv replies = false)).
  { destruct (_ =? _)%nat in Et.
    - injection Et as <- <-. split; [reflexivity|]. split; [auto|]. split; [discriminate|].
      destruct Hc1 as [Ho _]. rewrite Ho. lia.
    - eapply wind_cbk_spec; [exact Hc1 | | exact Et]. intros i ret e H. apply (Hans i ret e H). }
  destruct H2 as (P1 & P2 & P3 & P4). clear Et.
  destruct (afr_transaction_resume _ _ _ _) as [[y|] t3] eqn:Er; cbn; [|discriminate]. intros [= <- <-].
  apply resume_posted in Er as (G3 & (i & Hi) & Hq & Hpend); [|exact Ha].
  exists (failed_subvols t3). split; [exact Hpend|]. split; [intros j Hj; apply alive_spec in Hj; apply Hj|]. cbn [s_ack].
  intros Hack. assert (Hret2 : 0 <= op_ret t2).
  { destruct G3 as (_ & G3 & _). assert (op_ret t3 = op_ret t2) as E
      by (rewrite G3; unfold afr_handle_symmetric_errors; destruct (afr_is_symmetric_error _ _); reflexivity).
    destruct told as [b|]; cbn in Hack; [rewrite (P3 b eq_refl) in Hack | rewrite E in Hack]; apply Z.leb_le, Hack. }
  unfold afr_handle_symmetric_errors in G3. rewrite (P4 Hret2) in G3.
  assert (F : forall j, (j < n)%nat -> on (failed_subvols t1) j = true -> on (failed_subvols t3) j = true)
    by (intros j Hj H; apply G3, P2; assumption).
  assert (Hpre : pre_op t3 = pre_op t1) by (destruct G3 as (E & _); congruence).
  split; [|split; [|split]].
  - intros j Hj Hno. destruct (on (failed_subvols t3) j) eqn:E; [reflexivity|]. exfalso.
    destruct (on (pre_op t3) j) eqn:Ep.
    + rewrite (proj2 (alive_spec t3 j) (conj Hj (conj Ep E))) in Hno. discriminate.
    + rewrite Hpre in Ep. destruct Hc1 as [_ Hc1]. rewrite (F j Hj (Hc1 j Hj Ep)) in E. discriminate.
  - exists i. split; [|exact Hi]. apply alive_spec in Hi. apply Hi.
  - apply Hq. destruct G3 as (_ & E & _). rewrite E. lia.
  - intros j Hj. apply Hret. apply alive_spec in Hj as (Hn & Hp & Hf). apply alive_spec. rewrite <- Hpre.
    repeat split; try assumption. apply not_true_iff_false. intros H. rewrite (F j Hn H) in Hf. discriminate.
Qed.

Lemma writev_pre o T x : s_pre (afr_writev priv o) = Some (T, x) -> a_pending x = tab n (fun _ => raw_at 0 0).
Proof.
  unfold afr_writev, afr_changelog_pre_op.
  assert (Hp : forall o pre t, s_pre (afr_writev_fop priv o pre t) = pre).
  { intros o' pre t. unfold afr_writev_fop. destruct (afr_transaction_perform_fop _ _ _ _ _) as [[[|] fd] t0]; [|reflexivity].
    destruct (__afr_txn_write_fop _ _ _ _) as [replies t1].
    destruct (if (AFR_COUNT (alive priv t0) n =? 0)%nat then _ else _) as [told t2].
    destruct (afr_transaction_resume _ _ _ _). reflexivity. }
  destruct (_ =? _)%nat; [discriminate|]. destruct (_ && _); [discriminate|].
  destruct (afr_changelog_pre_op_inherit _ _ _ _) as [[[|] fd] t]; [rewrite Hp; discriminate|].
  cbn [afr_needs_changelog_update is_data orb]. rewrite Hp. intros [= _ <-]. reflexivity.
Qed.

Lemma writev_post o T x :
  arbiter_count priv = 0%nat -> s_post (afr_writev priv o) = Some (T, x) -> post_ok o (afr_writev priv o) T x.
Proof.
  intros Ha. unfold afr_writev, afr_changelog_pre_op.
  assert (Hnew : covered (new_txn priv (o_locked o))).
  { split; [reflexivity|]. intros i Hi. cbn [new_txn pre_op failed_subvols]. rewrite !on_tab_lt by exact Hi.
    intros ->. reflexivity. }
  destruct (_ =? _)%nat; [discriminate|]. destruct (_ && _); [discriminate|].
  assert (Hin : (afr_changelog_pre_op_inherit priv AFR_DATA_TRANSACTION (Some (o_fd_pre o)) (new_txn priv (o_locked o))).2
                = new_txn priv (o_locked o)
    \/ (afr_changelog_pre_op_inherit priv AFR_DATA_TRANSACTION (Some (o_fd_pre o)) (new_txn priv (o_locked o))).2
                = set_inherited (new_txn priv (o_locked o)))
    by (unfold afr_changelog_pre_op_inherit; destruct (_ && _); auto).
  destruct (afr_changelog_pre_op_inherit _ _ _ _) as [[[|] fd] t]; cbn [snd] in Hin;
    assert (Ht : covered t) by (destruct Hin as [-> | ->]; exact Hnew).
  - apply writev_fop_spec; assumption.
  - cbn [afr_needs_changelog_update is_data orb]. apply writev_fop_spec; [exact Ha|].
    destruct (grew_fops (fun i => on (alive priv (set_dirtied t)) i && negb (on (o_pre_ok o) i)) (set_dirtied t)) as (E1 & E2 & E3).
    destruct Ht as [Ho Hf]. split; [exact Ho|]. intros i Hi Hp. apply E3; [exact Hi | apply Hf; assumption].
Qed.
End volume.
