(* ===== verification/AfrKept.v ===== *)
(** * Replication: committed writes are kept

    Every step of a volume keeps the bricks that hold a committed write, and
    keeps them accusing all others. *)

From S2P Require Import Prelude Words AfrHeal AfrTxn AfrFacts AfrDecide AfrSystem.
Open Scope Z_scope.

Section volume.
Context (priv : afr_private).
Abbreviation n := (child_count priv).

Lemma brick_at_tab f c i : (i < n)%nat -> brick_at (mk_volume (tab n f) c) i = f i.
Proof. intros Hi. unfold brick_at. cbn [bricks]. rewrite nth_tab. apply Nat.ltb_lt in Hi. rewrite Hi. reflexivity. Qed.

(** ** Writes *)

Lemma nth_pending (f : nat -> list Z) j : (j < n)%nat -> nth j (tab n f) [] = f j.
Proof. intros Hj. rewrite nth_tab. apply Nat.ltb_lt in Hj. rewrite Hj. reflexivity. Qed.

Lemma arrives_pre o pre i c :
  logs_ok n c -> logs_ok n (arrives (s_pre (afr_writev priv o)) pre i c)
  /\ forall j, (j < n)%nat -> acc (arrives (s_pre (afr_writev priv o)) pre i c) j = acc c j.
Proof.
  intros Hc. unfold arrives. destruct (s_pre (afr_writev priv o)) as [[T x]|] eqn:E; [|auto].
  destruct (_ && _); [|auto]. apply writev_pre in E.
  destruct (do_xattrop_acc n c x (fun _ => 0) Hc) as [H1 H2].
  { intros j Hj. rewrite E. apply (nth_pending (fun _ => raw_at 0 0)), Hj. }
  split; [exact H1|]. intros j Hj. rewrite H2, Z.add_0_r by exact Hj. apply s32_id, acc_range.
Qed.

(** What the post-op adds to the number that brick [i] keeps for [j]. *)
Definition post_adds (o : outcome) (post : list bool) (i j : nat) (d : Z) : Prop :=
  match s_post (afr_writev priv o) with
  | Some (T, x) => exists f, post_ok priv o (afr_writev priv o) T x
      /\ a_pending x = tab n (fun i => raw_at 0 (if on f i then 1 else 0))
      /\ d = (if on T i && on post i then if on f j then 1 else 0 else 0)
      /\ (on T i = true -> on f i = false)
      /\ (s_ack (afr_writev priv o) = true -> forall i, (i < n)%nat -> on T i = false -> on f i = true)
  | None => d = 0
  end.

Lemma write_brick o w pre fop post i b k :
  arbiter_count priv = 0%nat -> k + 1 < 2 ^ 31 -> logs_ok n (logs b) ->
  (forall j, (j < n)%nat -> 0 <= acc (logs b) j <= k) ->
  let b' := brick_write (afr_writev priv o) w pre fop post i b in
  logs_ok n (logs b') /\ forall j, (j < n)%nat -> exists d, post_adds o post i j d /\ acc (logs b') j = acc (logs b) j + d.
Proof.
  intros Ha Hk Hok Hr. cbn zeta. unfold brick_write. cbn [logs].
  destruct (arrives_pre o pre i (logs b) Hok) as [H1 H2].
  set (c := arrives (s_pre (afr_writev priv o)) pre i (logs b)) in *. unfold post_adds, arrives.
  destruct (s_post (afr_writev priv o)) as [[T x]|] eqn:E.
  2: { split; [exact H1|]. intros j Hj. exists 0. split; [reflexivity|]. rewrite H2 by exact Hj. lia. }
  assert (Hpost := writev_post priv o T x Ha E). assert (Hpost' := Hpost). destruct Hpost' as (f & Hf & Hd & Hack).
  assert (Hadd : forall j, post_adds o post i j (if on T i && on post i then if on f j then 1 else 0 else 0)).
  { intros j. unfold post_adds. rewrite E. exists f. repeat split; try assumption; [apply Hd | intros H; apply Hack, H]. }
  unfold post_adds in Hadd. rewrite E in Hadd.
  destruct (on T i && on post i).
  - destruct (do_xattrop_acc n c x (fun j => if on f j then 1 else 0) H1) as [H3 H4].
    { intros j Hj. rewrite Hf. apply (nth_pending (fun i => raw_at 0 (if on f i then 1 else 0))), Hj. }
    split; [exact H3|]. intros j Hj. eexists. split; [apply (Hadd j)|]. rewrite H4, H2 by exact Hj.
    apply s32_id. specialize (Hr j Hj). destruct (on f j); lia.
  - split; [exact H1|]. intros j Hj. eexists. split; [apply (Hadd j)|]. rewrite H2 by exact Hj. lia.
Qed.

Lemma post_adds_range o post i j d : post_adds o post i j d -> 0 <= d <= 1.
Proof.
  unfold post_adds. destruct (s_post _) as [[T x]|]; [|lia]. intros (f & _ & _ & -> & _).
  destruct (_ && _); [destruct (on f j); lia | lia].
Qed.

Lemma post_adds_self o post i d : post_adds o post i i d -> d = 0.
Proof.
  unfold post_adds. destruct (s_post _) as [[T x]|]; [|auto]. intros (f & _ & _ & -> & H & _).
  destruct (on T i); cbn; [|reflexivity]. rewrite H by reflexivity. destruct (on post i); reflexivity.
Qed.

(** The bricks of the post-op hold a write that is committed by it. *)
Lemma write_commits v o w pre fop post k :
  arbiter_count priv = 0%nat -> k + 1 < 2 ^ 31 -> volume_ok priv k v ->
  (forall i, (i < n)%nat -> on (s_fop (afr_writev priv o)) i = true -> 0 <= (nth i (o_rets o) (-1, ENOTCONN)).1 ->
     on fop i = true) ->
  commits priv (afr_writev priv o) post = true ->
  exists X, held_by priv (volume_write priv v o w pre fop post) w X.
Proof.
  intros Ha Hk Hok Hfop Hcom. unfold commits in Hcom. apply andb_true_iff in Hcom as [Hack Hcom].
  destruct (s_post (afr_writev priv o)) as [[T x]|] eqn:E; [|discriminate]. rewrite forallb_forall in Hcom.
  destruct (writev_post priv o T x Ha E) as (f & Hf & Hd & H). destruct (H Hack) as (Hall & Hex & Hq & Hret).
  exists T. split; [exact Hex|]. split; [exact Hq|]. unfold volume_write. split.
  - intros g Hg HT. rewrite brick_at_tab by exact Hg. unfold brick_write. cbn [content].
    destruct (Hret g HT) as [H1 H2]. rewrite H1, (Hfop g Hg H1 H2). apply elem_of_cons. auto.
  - intros g b Hg Hb HTg HTb. rewrite brick_at_tab by exact Hg.
    destruct (write_brick o w pre fop post g (brick_at v g) k Ha Hk (ok_logs _ _ _ Hok g Hg)) as [_ Hadd].
    { intros j Hj. apply Hok; assumption. }
    destruct (Hadd b Hb) as (d & Hdd & ->). unfold post_adds in Hdd. rewrite E in Hdd.
    destruct Hdd as (f' & _ & _ & -> & _ & Hf'). rewrite HTg, (Hf' Hack b Hb HTb).
    assert (Hp := Hcom g ltac:(apply in_seq; lia)). rewrite HTg in Hp. cbn in Hp. rewrite Hp. cbn.
    assert (R := ok_range _ _ _ Hok g b Hg Hb). lia.
Qed.

Lemma write_step v o w pre fop post k :
  arbiter_count priv = 0%nat -> k + 1 < 2 ^ 31 -> volume_ok priv k v ->
  (forall i, (i < n)%nat -> on (s_fop (afr_writev priv o)) i = true -> 0 <= (nth i (o_rets o) (-1, ENOTCONN)).1 ->
     on fop i = true) ->
  volume_ok priv (k + 1) (volume_write priv v o w pre fop post).
Proof.
  intros Ha Hk Hok Hfop.
  assert (Hb : forall i, (i < n)%nat -> brick_at (volume_write priv v o w pre fop post) i
                         = brick_write (afr_writev priv o) w pre fop post i (brick_at v i))
    by (intros i Hi; apply (brick_at_tab (fun i => brick_write _ w pre fop post i (brick_at v i))), Hi).
  assert (Hw : forall i, (i < n)%nat -> _)
    by (intros i Hi; exact (write_brick o w pre fop post i (brick_at v i) k Ha Hk (ok_logs _ _ _ Hok i Hi)
                              (fun j Hj => ok_range _ _ _ Hok i j Hi Hj))).
  cbn zeta in Hw. split.
  - intros i Hi. rewrite Hb by exact Hi. apply Hw, Hi.
  - intros i j Hi Hj. rewrite Hb by exact Hi. destruct (proj2 (Hw i Hi) j Hj) as (d & Hd & ->).
    apply post_adds_range in Hd. assert (R := ok_range _ _ _ Hok i j Hi Hj). lia.
  - intros i Hi. rewrite Hb by exact Hi. destruct (proj2 (Hw i Hi) i Hi) as (d & Hd & ->).
    rewrite (post_adds_self _ _ _ _ Hd), (ok_self _ _ _ Hok i Hi). reflexivity.
  - intros w' Hw'. cbn [volume_write committed] in Hw'.
    assert (Hold : w' ∈ committed v -> exists X, held_by priv (volume_write priv v o w pre fop post) w' X).
    { intros Hin. destruct (ok_held _ _ _ Hok w' Hin) as (X & Hex & Hq & Hc & Hm). exists X.
      split; [exact Hex|]. split; [exact Hq|]. split.
      - intros g Hg HX. rewrite Hb by exact Hg. unfold brick_write. cbn [content].
        destruct (_ && _); [apply elem_of_cons; right|]; apply Hc; assumption.
      - intros g b Hg Hbn HX HXb. rewrite Hb by exact Hg. destruct (proj2 (Hw g Hg) b Hbn) as (d & Hd & ->).
        apply post_adds_range in Hd. assert (R := ok_range _ _ _ Hok g b Hg Hbn). specialize (Hm g b Hg Hbn HX HXb). lia. }
    destruct (commits priv (afr_writev priv o) post) eqn:E; [|apply Hold, Hw'].
    apply elem_of_cons in Hw' as [-> | Hw']; [|apply Hold, Hw']. eapply write_commits; eassumption.
Qed.

(** ** Heals *)

(** The number that a heal adds on brick [i] for [j]. *)
Definition heal_adds (m : marks) (locked : list bool) (matrix : list (list Z)) (i j : nat) : Z :=
  if on (m_sinks m) j && negb (on (m_healed m) j) then 1 else if on locked j then - cell matrix i j else 0.

Lemma filter_key (f : nat -> xattrop) (g : nat -> bool) l i :
  NoDup l -> sent_to i (map (fun i => (i, f i)) (List.filter g l)) = if decide (i ∈ l) then if g i then [f i] else [] else [].
Proof.
  unfold sent_to. induction 1 as [|x l Hx Hl IH]; [reflexivity|]. cbn [List.filter].
  assert (Hnone : forall k, (k ∉ l) -> List.filter (fun p : nat * xattrop => (p.1 =? k)%nat)
                             (map (fun i => (i, f i)) (List.filter g l)) = []).
  { intros k Hk. clear IH Hx. induction l as [|y l IH]; [reflexivity|]. rewrite not_elem_of_cons in Hk. cbn.
    apply NoDup_cons in Hl as [_ Hl]. destruct (g y); cbn; [|apply IH; tauto].
    destruct (Nat.eqb_spec y k); [destruct Hk; congruence | apply IH; tauto]. }
  destruct (Nat.eq_dec x i) as [-> | Hne].
  - destruct (decide (i ∈ i :: l)) as [_ | H]; [|destruct H; left]. destruct (g i); cbn.
    + rewrite Nat.eqb_refl, Hnone by exact Hx. reflexivity.
    + rewrite Hnone by exact Hx. reflexivity.
  - assert (Hd : (i ∈ x :: l) <-> i ∈ l) by (rewrite elem_of_cons; split; [intros [|]; congruence | auto]).
    destruct (g x); cbn; [apply Nat.eqb_neq in Hne; rewrite Hne|]; rewrite IH;
      destruct (decide (i ∈ l)), (decide (i ∈ x :: l)); tauto.
Qed.

Lemma undo_sent m replies locked i :
  (i < n)%nat ->
  exists x, sent_to i (afr_selfheal_undo_pending priv m (tab n (fun _ => false)) AFR_DATA_TRANSACTION replies locked)
            = (if on locked i then [x] else [])
    /\ forall j, (j < n)%nat -> nth j (a_pending x) [] = raw_at 0 (heal_adds m locked (data_matrix priv replies) i j).
Proof.
  intros Hi. unfold afr_selfheal_undo_pending, data_matrix.
  destruct (afr_selfheal_extract_xattr _ _ _) as [dirty matrix]. cbn [snd].
  eexists. split.
  - rewrite filter_key by (apply NoDup_ListNoDup, seq_NoDup).
    rewrite decide_True by (apply list_elem_of_In, in_seq; lia). rewrite on_tab_lt, andb_true_r by exact Hi. reflexivity.
  - intros j Hj. cbn [afr_selfheal_output_xattr a_pending afr_index_for_transaction_type].
    rewrite nth_pending, cell_tab, val_tab, on_tab_lt by assumption. reflexivity.
Qed.

(** A heal does nothing, or copies from the source and undoes the changelogs. *)
Lemma heal_whole locked replies r :
  plain priv -> not_empty priv replies ->
  __afr_selfheal_data priv locked replies None (whole priv locked) = Some r ->
  (h_source r = None /\ h_xattrops r = [])
  \/ exists s m, __afr_selfheal_data_prepare priv locked replies None = Some (FZ_source s m false)
       /\ h_source r = Some s /\ h_size r = size_of replies s /\ (forall i, (i < n)%nat -> on (h_copied r) i = on (m_healed m) i)
       /\ forall i, (i < n)%nat -> exists x, sent_to i (h_xattrops r) = (if on locked i then [x] else [])
            /\ forall j, (j < n)%nat -> nth j (a_pending x) [] = raw_at 0 (heal_adds m locked (data_matrix priv replies) i j).
Proof.
  intros Hp He. unfold __afr_selfheal_data. assert (Ha := proj1 Hp).
  destruct (_ <? _)%nat eqn:E2 in |- *; [intros [= <-]; auto|].
  destruct (__afr_selfheal_data_prepare priv locked replies None) as [[| |s m b]|] eqn:Epr;
    [intros [= <-]; auto | discriminate | | intros [= <-]; auto].
  destruct (prepare_source priv _ _ _ _ _ Hp He Epr) as (d & _ & _ & _ & _ & _ & _ & ->).
  cbn [_afr_fav_child_reset_sink_xattrs negb]. unfold with_arbiter, without_arbiter. rewrite Ha.
  cbn [Nat.ltb Nat.leb andb whole truncate_ok copy relock].
  destruct (_ || _); [intros [= <-]; auto|]. intros [= <-]. right. exists s, m. cbn [h_source h_size h_copied h_xattrops app].
  set (healed := tab n _).
  assert (Hh : forall i, (i < n)%nat -> on healed i = on (m_healed m) i)
    by (intros i Hi; unfold healed; rewrite on_tab_lt, on_tab_lt by exact Hi; apply andb_true_r).
  split; [reflexivity|]. split; [reflexivity|]. split; [reflexivity|]. split; [exact Hh|]. intros i Hi.
  destruct (undo_sent (mk_marks (m_sources m) (m_sinks m) healed) replies locked i Hi) as (x & Hx & Hp').
  exists x. split; [exact Hx|]. intros j Hj. rewrite Hp' by exact Hj. unfold heal_adds. cbn [m_sinks m_healed].
  rewrite Hh by exact Hj. reflexivity.
Qed.

Section extent.
Context (extent : nat -> Z).

(** The matrix that a heal sees, on the bricks it locks. *)
Lemma inspected_cell v locked replies i j :
  inspected priv extent v locked replies -> (i < n)%nat -> (j < n)%nat -> on locked i = true ->
  cell (data_matrix priv replies) i j = acc (logs (brick_at v i)) j.
Proof.
  intros (Hall & Hans & _) Hi Hj Hl. rewrite data_matrix_cell by assumption.
  rewrite (Hall i Hi Hl), (proj1 (Hans i Hi (Hall i Hi Hl))). reflexivity.
Qed.

(** With a locked brick that holds a write and accuses all others, the sources
    are among the holders, and the others are sinks. *)
Lemma holder_decides k v w X locked replies s m b x :
  plain priv -> volume_ok priv k v -> held_by priv v w X -> inspected priv extent v locked replies ->
  __afr_selfheal_data_prepare priv locked replies None = Some (FZ_source s m b) ->
  (x < n)%nat -> on X x = true -> on locked x = true ->
  (s < n)%nat /\ on X s = true /\ (forall i, on (m_sources m) i = true -> (i < n)%nat /\ on X i = true)
  /\ (forall i, (i < n)%nat -> on X i = false -> on (m_sinks m) i = true).
Proof.
  intros Hp Hok (_ & _ & _ & Hm) Hins Hprep Hx HX Hl.
  destruct (prepare_source priv _ _ _ _ _ Hp (proj2 (proj2 Hins)) Hprep) as (d & Hd & Hs & Hss & Hsub & Hsk & _ & _).
  assert (Hsrc : forall i, on (sources d) i = true -> (i < n)%nat /\ on locked i = true /\ on X i = true).
  { intros i Hi. destruct (proj1 (proj1 (direction_spec priv _ _ _ Hd) i) Hi) as (Hin & Hil & Hb).
    split; [exact Hin|]. split; [exact Hil|]. destruct (on X i) eqn:E; [reflexivity|]. exfalso. apply Hb. exists x.
    split; [exact Hx|]. split; rewrite (inspected_cell v locked replies) by assumption;
      [apply Hm; assumption | apply Hok; assumption]. }
  assert (Hsd := Hsrc s (Hsub s Hss)). split; [exact Hs|]. split; [apply Hsd|].
  split; [intros i Hi; split; apply Hsrc, Hsub, Hi|].
  intros i Hi HXi. rewrite Hsk. apply (proj2 (direction_spec priv _ _ _ Hd) s i Hi (Hsub s Hss)).
  split; rewrite (inspected_cell v locked replies) by (try assumption; apply Hsd);
    [apply Hm; try assumption; apply Hsd | apply Hok, Hs].
Qed.

(** The numbers of a brick after a heal. *)
Lemma heal_brick k v locked replies s m r i :
  k + 1 < 2 ^ 31 -> volume_ok priv k v -> inspected priv extent v locked replies -> (i < n)%nat ->
  (exists x, sent_to i (h_xattrops r) = (if on locked i then [x] else [])
     /\ forall j, (j < n)%nat -> nth j (a_pending x) [] = raw_at 0 (heal_adds m locked (data_matrix priv replies) i j)) ->
  h_source r = Some s ->
  logs_ok n (logs (brick_heal extent v r i))
  /\ forall j, (j < n)%nat -> acc (logs (brick_heal extent v r i)) j =
       if on locked i then
         if on (m_sinks m) j && negb (on (m_healed m) j) then acc (logs (brick_at v i)) j + 1
         else if on locked j then 0 else acc (logs (brick_at v i)) j
       else acc (logs (brick_at v i)) j.
Proof.
  intros Hk Hok Hins Hi (x & Hx & Hp) Hs. unfold brick_heal. cbn [logs]. rewrite Hx.
  assert (Hlogs := ok_logs _ _ _ Hok i Hi). destruct (on locked i) eqn:Hl; [|auto]. cbn [foldl].
  destruct (do_xattrop_acc n _ x (heal_adds m locked (data_matrix priv replies) i) Hlogs Hp) as [H1 H2].
  split; [exact H1|]. intros j Hj. rewrite H2 by exact Hj. unfold heal_adds.
  rewrite (inspected_cell v locked replies i j) by assumption. assert (R := ok_range _ _ _ Hok i j Hi Hj).
  destruct (_ && _); [apply s32_id; lia|]. destruct (on locked j).
  - rewrite Z.add_opp_diag_r. reflexivity.
  - rewrite Z.add_0_r. apply s32_id. lia.
Qed.

(** A locked brick is healed or is a source in the end, and then is not a sink. *)
Lemma locked_not_pending locked replies s m b i :
  plain priv -> not_empty priv replies ->
  __afr_selfheal_data_prepare priv locked replies None = Some (FZ_source s m b) ->
  (i < n)%nat -> on locked i = true -> on (m_healed m) i = false ->
  on (m_sources m) i = true /\ on (m_sinks m) i = false.
Proof.
  intros Hp He Hprep Hi Hl Hh.
  destruct (prepare_source priv _ _ _ _ _ Hp He Hprep) as (d & Hd & _ & _ & Hsub & Hsk & Hheal & _).
  rewrite Hheal in Hh. unfold afr_mark_active_sinks in Hh. rewrite on_tab_lt, Hl, andb_true_r in Hh by exact Hi.
  apply negb_false_iff in Hh. split; [exact Hh|]. rewrite Hsk. eapply source_not_sink; [exact Hd | apply Hsub, Hh].
Qed.

Lemma healed_locked locked replies s m b i :
  plain priv -> not_empty priv replies ->
  __afr_selfheal_data_prepare priv locked replies None = Some (FZ_source s m b) ->
  on (m_healed m) i = true -> (i < n)%nat /\ on locked i = true.
Proof.
  intros Hp He Hprep. destruct (prepare_source priv _ _ _ _ _ Hp He Hprep) as (d & _ & _ & _ & _ & _ & -> & _).
  unfold afr_mark_active_sinks. rewrite on_tab, !andb_true_iff, Nat.ltb_lt. tauto.
Qed.

Section heal.
Context (k : Z) (v : volume) (locked : list bool) (replies : list afr_reply) (s : nat) (m : marks) (r : heal_result).
Hypothesis Hplain : plain priv.
Hypothesis Hk : k + 1 < 2 ^ 31.
Hypothesis Hok : volume_ok priv k v.
Hypothesis Hins : inspected priv extent v locked replies.
Hypothesis Hprep : __afr_selfheal_data_prepare priv locked replies None = Some (FZ_source s m false).
Hypothesis Hsrc : h_source r = Some s.
Hypothesis Hsize : h_size r = size_of replies s.
Hypothesis Hcopied : forall i, (i < n)%nat -> on (h_copied r) i = on (m_healed m) i.
Hypothesis Hsent : forall i, (i < n)%nat -> exists x, sent_to i (h_xattrops r) = (if on locked i then [x] else [])
  /\ forall j, (j < n)%nat -> nth j (a_pending x) [] = raw_at 0 (heal_adds m locked (data_matrix priv replies) i j).

Lemma heal_at i : (i < n)%nat -> brick_at (volume_heal priv extent v r) i = brick_heal extent v r i.
Proof. intros Hi. apply (brick_at_tab (brick_heal extent v r)), Hi. Qed.

(** The source answers with a size that covers its writes. *)
Lemma source_covers w : w ∈ content (brick_at v s) -> extent w <= h_size r.
Proof.
  intros Hw. destruct (prepare_source priv _ _ _ _ _ Hplain (proj2 (proj2 Hins)) Hprep) as (d & Hd & _ & Hss & Hsub & _).
  destruct (proj1 (proj1 (direction_spec priv _ _ _ Hd) s) (Hsub s Hss)) as (Hs & Hl & _).
  rewrite Hsize. apply Hins; [exact Hs | apply Hins; assumption | exact Hw].
Qed.

Lemma heal_pending j : (j < n)%nat -> on (m_sinks m) j && negb (on (m_healed m) j) = true -> on locked j = false.
Proof.
  intros Hj H. apply andb_true_iff in H as [H1 H2]. apply negb_true_iff in H2. apply not_true_iff_false. intros Hl.
  destruct (locked_not_pending _ _ _ _ _ j Hplain (proj2 (proj2 Hins)) Hprep Hj Hl H2). congruence.
Qed.

Lemma heal_numbers i j : (i < n)%nat -> (j < n)%nat -> 0 <= acc (logs (brick_at (volume_heal priv extent v r) i)) j <= k + 1
  /\ (i = j -> acc (logs (brick_at (volume_heal priv extent v r) i)) j = 0).
Proof.
  intros Hi Hj. rewrite heal_at by exact Hi.
  rewrite (proj2 (heal_brick k v locked replies s m r i Hk Hok Hins Hi (Hsent i Hi) Hsrc) j Hj).
  assert (R := ok_range _ _ _ Hok i j Hi Hj). assert (S0 := ok_self _ _ _ Hok i Hi).
  destruct (on locked i) eqn:Hl; [|split; [lia | intros <-; exact S0]].
  destruct (_ && _) eqn:Hpend.
  - split; [lia|]. intros <-. rewrite (heal_pending i Hi Hpend) in Hl. discriminate.
  - destruct (on locked j); (split; [lia|]); [auto | intros <-; exact S0].
Qed.

(** The bricks outside of the heal are as they were. *)
Lemma heal_outside i : (i < n)%nat -> on locked i = false ->
  content (brick_at (volume_heal priv extent v r) i) = content (brick_at v i)
  /\ forall j, (j < n)%nat -> acc (logs (brick_at (volume_heal priv extent v r) i)) j = acc (logs (brick_at v i)) j.
Proof.
  intros Hi Hl. rewrite heal_at by exact Hi. split.
  - unfold brick_heal. cbn [content]. rewrite Hsrc, Hcopied by exact Hi. destruct (on (m_healed m) i) eqn:Hh; [|reflexivity].
    destruct (healed_locked _ _ _ _ _ i Hplain (proj2 (proj2 Hins)) Hprep Hh). congruence.
  - intros j Hj. rewrite (proj2 (heal_brick k v locked replies s m r i Hk Hok Hins Hi (Hsent i Hi) Hsrc) j Hj), Hl. reflexivity.
Qed.

(** A heal that locks a holder makes holders of all the locked bricks. *)
Lemma heal_holders w X x :
  held_by priv v w X -> (x < n)%nat -> on X x = true -> on locked x = true ->
  held_by priv (volume_heal priv extent v r) w (tab n (fun i => on X i || on locked i)).
Proof.
  intros HX Hx Hon Hl. assert (HX' := HX). destruct HX' as ((i0 & Hi0 & HX0) & Hq & Hc & Hm).
  destruct (holder_decides k v w X locked replies s m false x Hplain Hok HX Hins Hprep Hx Hon Hl) as (Hs & HXs & HXm & Hsk).
  split; [exists i0; rewrite on_tab_lt, HX0 by exact Hi0; auto|]. split; [|split].
  - intros Hq0. eapply quorum_mono; [| lia | apply Hq, Hq0]. intros i Hi H. rewrite on_tab_lt, H by exact Hi. reflexivity.
  - intros g Hg H. rewrite on_tab_lt in H by exact Hg. rewrite heal_at by exact Hg. unfold brick_heal. cbn [content].
    rewrite Hsrc, Hcopied by exact Hg. destruct (on (m_healed m) g) eqn:Hh.
    { apply list_elem_of_In, filter_In. rewrite <- list_elem_of_In, Z.leb_le. split; [|apply source_covers]; apply Hc; assumption. }
    apply Hc; [exact Hg|]. destruct (on locked g) eqn:Hlg; [|rewrite orb_false_r in H; exact H].
    apply HXm. eapply locked_not_pending; [exact Hplain | apply Hins | exact Hprep | exact Hg | exact Hlg | exact Hh].
  - intros g b Hg Hb. rewrite !on_tab_lt by assumption. intros H Hb'. apply orb_false_iff in Hb' as [Hb1 Hb2].
    rewrite heal_at by exact Hg.
    rewrite (proj2 (heal_brick k v locked replies s m r g Hk Hok Hins Hg (Hsent g Hg) Hsrc) b Hb).
    assert (R := ok_range _ _ _ Hok g b Hg Hb).
    destruct (on locked g); [|rewrite orb_false_r in H; apply Hm; assumption].
    rewrite (Hsk b Hb Hb1). destruct (on (m_healed m) b) eqn:Hh; cbn [andb negb]; [|lia].
    destruct (healed_locked _ _ _ _ _ b Hplain (proj2 (proj2 Hins)) Hprep Hh). congruence.
Qed.

Lemma heal_keeps : volume_ok priv (k + 1) (volume_heal priv extent v r).
Proof.
  split.
  - intros i Hi. rewrite heal_at by exact Hi. apply (heal_brick k v locked replies s m r i Hk Hok Hins Hi (Hsent i Hi) Hsrc).
  - intros i j Hi Hj. apply heal_numbers; assumption.
  - intros i Hi. apply heal_numbers; auto.
  - intros w Hw. cbn [volume_heal committed] in Hw. destruct (ok_held _ _ _ Hok w Hw) as [X HX].
    destruct (existsb (fun i => on X i && on locked i) (seq 0 n)) eqn:E.
    + apply existsb_seq in E as (x & Hx & E). apply andb_true_iff in E as [HXx Hl].
      eexists. eapply heal_holders; eassumption.
    + rewrite existsb_seq_false in E. exists X. destruct HX as (Hex & Hq & Hc & Hm).
      assert (Hout : forall g, (g < n)%nat -> on X g = true -> on locked g = false)
        by (intros g Hg H; specialize (E g Hg); rewrite H in E; exact E).
      split; [exact Hex|]. split; [exact Hq|]. split.
      * intros g Hg H. rewrite (proj1 (heal_outside g Hg (Hout g Hg H))). apply Hc; assumption.
      * intros g b Hg Hb H Hb'. rewrite (proj2 (heal_outside g Hg (Hout g Hg H)) b Hb). apply Hm; assumption.
Qed.
End heal.

(** Steps that leave the changelogs alone. *)
Lemma same_logs_keep k v v' :
  volume_ok priv k v -> committed v' = committed v ->
  (forall i, (i < n)%nat -> logs (brick_at v' i) = logs (brick_at v i)) ->
  (forall w X g, held_by priv v w X -> (g < n)%nat -> on X g = true -> w ∈ content (brick_at v' g)) ->
  volume_ok priv (k + 1) v'.
Proof.
  intros Hok Hcom Hlogs Hcont. split.
  - intros i Hi. rewrite Hlogs by exact Hi. apply Hok, Hi.
  - intros i j Hi Hj. rewrite Hlogs by exact Hi. assert (R := ok_range _ _ _ Hok i j Hi Hj). lia.
  - intros i Hi. rewrite Hlogs by exact Hi. apply Hok, Hi.
  - intros w Hw. rewrite Hcom in Hw. destruct (ok_held _ _ _ Hok w Hw) as [X HX]. exists X.
    assert (HX' := HX). destruct HX' as (Hex & Hq & Hc & Hm). split; [exact Hex|]. split; [exact Hq|]. split.
    + intros g Hg H. eapply Hcont; eassumption.
    + intros g b Hg Hb. rewrite Hlogs by exact Hg. apply Hm; assumption.
Qed.

Lemma cut_keeps k v locked replies s m b mix :
  plain priv -> volume_ok priv k v -> inspected priv extent v locked replies ->
  __afr_selfheal_data_prepare priv locked replies None = Some (FZ_source s m b) ->
  (forall i, on (m_healed m) i = false -> mix i = content (brick_at v i)) ->
  (forall i w, on (m_healed m) i = true -> w ∈ content (brick_at v i) -> w ∈ content (brick_at v s) -> w ∈ mix i) ->
  volume_ok priv (k + 1) (mk_volume (tab n (fun i => mk_brick (mix i) (logs (brick_at v i)))) (committed v)).
Proof.
  intros Hp Hok Hins Hprep Hmix1 Hmix2.
  apply (same_logs_keep k v); [exact Hok | reflexivity | intros i Hi; rewrite brick_at_tab by exact Hi; reflexivity |].
  intros w X g HX Hg Hon. rewrite brick_at_tab by exact Hg. cbn [content]. assert (HX' := HX). destruct HX' as (_ & _ & Hc & _).
  destruct (on (m_healed m) g) eqn:Hh; [|rewrite Hmix1 by exact Hh; apply Hc; assumption].
  destruct (healed_locked _ _ _ _ _ g Hp (proj2 (proj2 Hins)) Hprep Hh) as [_ Hl].
  destruct (holder_decides k v w X locked replies s m b g Hp Hok HX Hins Hprep Hg Hon Hl) as (Hs & HXs & _).
  apply Hmix2; [exact Hh | |]; apply Hc; assumption.
Qed.

Lemma step_keeps k v v' : plain priv -> k + 1 < 2 ^ 31 -> volume_ok priv k v -> volume_step priv extent v v' -> volume_ok priv (k + 1) v'.
Proof.
  intros Hp Hk Hok Hstep. destruct Hstep as [v o w pre fop post Hfop | v locked replies r Hins Hheal | v locked replies s m b mix Hins Hprep Hm1 Hm2 _].
  - apply write_step; [apply Hp | | |]; assumption.
  - destruct (heal_whole locked replies r Hp (proj2 (proj2 Hins)) Hheal) as [[Hs Hx] | (s & m & Hprep & Hs & Hsz & Hcp & Hsent)].
    + apply (same_logs_keep k v); [exact Hok | reflexivity | |].
      * intros i Hi. rewrite heal_at by exact Hi. unfold brick_heal. rewrite Hx. reflexivity.
      * intros w X g (_ & _ & Hc & _) Hg H. rewrite heal_at by exact Hg. unfold brick_heal. rewrite Hs. apply Hc; assumption.
    + eapply heal_keeps; eassumption.
  - eapply cut_keeps; eassumption.
Qed.

Lemma new_file_ok : volume_ok priv 0 (new_file priv).
Proof.
  assert (Hb : forall i, (i < n)%nat -> logs (brick_at (new_file priv) i) = mk_changelogs None (tab n (fun _ => None)) [])
    by (intros i Hi; unfold new_file; rewrite brick_at_tab by exact Hi; reflexivity).
  assert (Hnth : forall j, nth j (tab n (fun _ => @None (list Z))) None = None)
    by (intros j; rewrite nth_tab; destruct (j <? n)%nat; reflexivity).
  assert (Hacc : forall i j, (i < n)%nat -> acc (logs (brick_at (new_file priv) i)) j = 0)
    by (intros i j Hi; rewrite Hb by exact Hi; unfold acc; cbn [x_pending]; rewrite Hnth; reflexivity).
  split.
  - intros i Hi. rewrite Hb by exact Hi. split; [apply length_tab|]. cbn [x_pending]. intros j raw. rewrite Hnth. discriminate.
  - intros i j Hi _. rewrite Hacc by exact Hi. lia.
  - intros i Hi. apply Hacc, Hi.
  - intros w Hw. apply not_elem_of_nil in Hw. destruct Hw.
Qed.

Lemma after_ok k v : plain priv -> Z.of_nat k < 2 ^ 31 -> volume_after priv extent k v -> volume_ok priv (Z.of_nat k) v.
Proof.
  intros Hp Hk H. induction H as [|k v v' H IH Hstep]; [apply new_file_ok|].
  rewrite Nat2Z.inj_succ in *. unfold Z.succ in *. eapply step_keeps; [exact Hp | exact Hk | apply IH; lia | exact Hstep].
Qed.
End extent.
End volume.
