(* ===== verification/AfrShare.v ===== *)
(** * Replication: writes that share a dirty mark

    The writes on one descriptor in progress, with the dirty marks they have on
    the bricks: a write may inherit the mark of another
    ([afr_changelog_pre_op_inherit]), and the last one to go removes it
    ([afr_changelog_pre_op_uninherit]).  The steps of different writes interleave
    freely.  A brick is always marked while a write on it is in progress. *)

From S2P Require Import Prelude Words AfrHeal AfrTxn AfrFacts AfrSystem.
Open Scope Z_scope.

(** Where a transaction is: its pre-op is sent; it writes; its post-op is sent. *)
Inductive phase := Ph_pre (x : xattrop) | Ph_fop | Ph_post (x : xattrop).

(** [dirt]: the marks on each brick. *)
Record descriptor := mk_descriptor { ctx : afr_fd_ctx; txns : list (phase * transaction); dirt : nat -> Z }.

(** What an xattrop adds to [trusted.afr.dirty]. *)
Definition dirty_of (x : xattrop) : Z := changelog_value (a_dirty x) 0.
Definition add_dirt (targets : list bool) (x : xattrop) (d : nat -> Z) (i : nat) : Z :=
  d i + (if on targets i then dirty_of x else 0).

Section descriptor.
Context (priv : afr_private).
Abbreviation n := (child_count priv).

Definition new_descriptor : descriptor := mk_descriptor (mk_fd_ctx 0 0 (tab n (fun _ => false))) [] (fun _ => 0).

(** What the write does to a transaction: bricks fail, and a result is set. *)
Definition fop_changes (t t' : transaction) : Prop :=
  pre_op t' = pre_op t /\ dirtied t' = dirtied t /\ no_uninherit t' = no_uninherit t
  /\ uninherit_done t' = uninherit_done t /\ txn_inherited t' = txn_inherited t.

Definition after_post (x : option xattrop) (t : transaction) : list (phase * transaction) :=
  match x with Some x => [(Ph_post x, t)] | None => [] end.

Inductive descriptor_step : descriptor -> descriptor -> Prop :=
| Fd_begin c l d locked x c' t :
    afr_changelog_pre_op priv AFR_DATA_TRANSACTION true (Some c) locked = Pre_do x (Some c') t ->
    descriptor_step (mk_descriptor c l d) (mk_descriptor c' (l ++ [(Ph_pre x, t)]) d)
| Fd_inherit c l d locked c' t xs c'' t' :
    afr_changelog_pre_op priv AFR_DATA_TRANSACTION true (Some c) locked = Pre_next (Some c') t ->
    afr_transaction_perform_fop priv AFR_DATA_TRANSACTION xs (Some c') t = (true, Some c'', t') ->
    descriptor_step (mk_descriptor c l d) (mk_descriptor c'' (l ++ [(Ph_fop, t')]) d)
(** The pre-op succeeds on all its bricks. *)
| Fd_pre_done c l1 x t l2 d xs c' t' :
    afr_transaction_perform_fop priv AFR_DATA_TRANSACTION xs (Some c) t = (true, Some c', t') ->
    descriptor_step (mk_descriptor c (l1 ++ (Ph_pre x, t) :: l2) d)
      (mk_descriptor c' (l1 ++ (Ph_fop, t') :: l2) (add_dirt (alive priv t) x d))
| Fd_post c l1 t l2 d t1 unstable synced x c' t' :
    fop_changes t t1 ->
    afr_changelog_post_op_safe priv unstable synced AFR_DATA_TRANSACTION (Some c) t1 = (x, Some c', t') ->
    descriptor_step (mk_descriptor c (l1 ++ (Ph_fop, t) :: l2) d) (mk_descriptor c' (l1 ++ after_post x t' ++ l2) d)
(** The post-op of a delayed transaction. *)
| Fd_post_delayed c l1 t l2 d t1 x c' t' :
    fop_changes t t1 ->
    afr_changelog_post_op_now priv AFR_DATA_TRANSACTION (Some c) t1 = (x, Some c', t') ->
    descriptor_step (mk_descriptor c (l1 ++ (Ph_fop, t) :: l2) d) (mk_descriptor c' (l1 ++ after_post x t' ++ l2) d)
| Fd_post_done c l1 x t l2 d :
    descriptor_step (mk_descriptor c (l1 ++ (Ph_post x, t) :: l2) d)
      (mk_descriptor c (l1 ++ l2) (add_dirt (alive priv t) x d)).

(** [afr_pre_op_writev_cbk]: with compound operations, the answer of brick [i] to
    pre-op and write; the context is updated at every answer. *)
Definition afr_pre_op_writev_cbk (i : nat) (failed : bool) (p : option afr_fd_ctx * transaction)
    : option afr_fd_ctx * transaction :=
  let '(fd, t) := afr_changelog_pre_op_update priv p.1 p.2 in
  (fd, if failed then fops_failed priv (Nat.eqb i) t else t).

(** ** Invariant *)

(** The marks that a transaction is to remove itself. *)
Definition owed (i : nat) (p : phase * transaction) : Z :=
  match p.1 with
  | Ph_pre _ => 0
  | Ph_fop => if no_uninherit p.2 && on (pre_op p.2) i then 1 else 0
  | Ph_post x => if on (alive priv p.2) i then - dirty_of x else 0
  end.
Definition total (i : nat) (l : list (phase * transaction)) : Z := foldr (fun p z => owed i p + z) 0 l.

(** The transactions that share. *)
Definition sharing (p : phase * transaction) : bool := match p.1 with Ph_fop => negb (no_uninherit p.2) | _ => false end.
Definition sharers (l : list (phase * transaction)) : nat := length (List.filter sharing l).

Definition txn_ok (c : afr_fd_ctx) (p : phase * transaction) : Prop :=
  match p.1 with
  | Ph_pre x => dirty_of x = 1 /\ exists locked, p.2 = set_dirtied (new_txn priv locked)
  | Ph_fop => uninherit_done p.2 = None
      /\ (no_uninherit p.2 = false -> forall i, (i < n)%nat -> on (pre_op p.2) i = on (pre_op_done c) i)
  | Ph_post x => dirty_of x <= 0
  end.

Record share_ok (f : descriptor) : Prop := mk_share_ok {
  sh_txns : Forall (txn_ok (ctx f)) (txns f);
  sh_count : sharers (txns f) = (on_disk (ctx f) + inherited (ctx f))%nat;
  sh_disk : on_disk (ctx f) = 0%nat -> inherited (ctx f) = 0%nat;
  sh_dirt : forall i, (i < n)%nat ->
    (if on (pre_op_done (ctx f)) i then Z.of_nat (on_disk (ctx f)) else 0) + total i (txns f) <= dirt f i
}.

Lemma total_app i l1 l2 : total i (l1 ++ l2) = total i l1 + total i l2.
Proof. unfold total. induction l1 as [|p l IH]; cbn; lia. Qed.

Lemma total_cons i p l : total i (p :: l) = owed i p + total i l.
Proof. reflexivity. Qed.

Lemma sharers_app l1 l2 : sharers (l1 ++ l2) = (sharers l1 + sharers l2)%nat.
Proof. unfold sharers. rewrite List.filter_app, length_app. reflexivity. Qed.

Lemma sharers_cons p l : sharers (p :: l) = ((if sharing p then 1 else 0) + sharers l)%nat.
Proof. unfold sharers. cbn. destruct (sharing p); reflexivity. Qed.

Lemma same_bricks_spec a b : same_bricks priv a b = true <-> forall i, (i < n)%nat -> on a i = on b i.
Proof.
  unfold same_bricks, AFR_CMP. rewrite negb_true_iff, existsb_seq_false. split; intros H i Hi; specialize (H i Hi).
  - apply negb_false_iff in H. apply Bool.eqb_prop, H.
  - rewrite H. destruct (on b i); reflexivity.
Qed.

(** When nobody shares, the context may name other bricks. *)
Lemma txns_rebase c c' l :
  (pre_op_done c' = pre_op_done c \/ sharers l = 0%nat) -> Forall (txn_ok c) l -> Forall (txn_ok c') l.
Proof.
  intros Hc H. rewrite Forall_forall in *. intros p Hp. specialize (H p Hp). unfold txn_ok in *.
  destruct p as [[x | | x] t]; cbn [fst snd] in *; [exact H | | exact H]. destruct H as [H1 H2]. split; [exact H1|].
  intros Hn. destruct Hc as [-> | Hs]; [apply H2, Hn|]. exfalso. unfold sharers in Hs.
  apply nil_length_inv in Hs. assert (Hin : In (Ph_fop, t) (List.filter sharing l)).
  { apply filter_In. split; [apply list_elem_of_In, Hp|]. unfold sharing. cbn. rewrite Hn. reflexivity. }
  rewrite Hs in Hin. destruct Hin.
Qed.

Lemma Forall_middle {A} (P : A -> Prop) l1 x l2 : Forall P (l1 ++ x :: l2) <-> P x /\ Forall P (l1 ++ l2).
Proof. rewrite !Forall_app, Forall_cons. tauto. Qed.

(** ** Beginning *)

Lemma perform_spec xs c t c' t' :
  afr_transaction_perform_fop priv AFR_DATA_TRANSACTION xs (Some c) t = (true, Some c', t') ->
  exists t0, afr_changelog_pre_op_update priv (Some c) t = (Some c', t0)
    /\ pre_op t' = pre_op t0 /\ no_uninherit t' = no_uninherit t0 /\ uninherit_done t' = uninherit_done t0.
Proof.
  unfold afr_transaction_perform_fop. destruct (afr_changelog_pre_op_update priv (Some c) t) as [fd t0].
  destruct (_ =? _)%nat; [|intros [= -> <-]; exists t0; auto]. unfold afr_txn_arbitrate_fop.
  destruct (_ && _); [discriminate|]. intros [= -> <-]. exists t0. auto.
Qed.

Lemma pre_op_cases c locked :
  match afr_changelog_pre_op priv AFR_DATA_TRANSACTION true (Some c) locked with
  | Pre_err => True
  | Pre_next fd t => fd = Some (mk_fd_ctx (on_disk c) (S (inherited c)) (pre_op_done c))
      /\ t = set_inherited (new_txn priv locked) /\ on_disk c <> 0%nat
      /\ forall i, (i < n)%nat -> on (pre_op t) i = on (pre_op_done c) i
  | Pre_do x fd t => fd = Some c /\ t = set_dirtied (new_txn priv locked) /\ dirty_of x = 1
  end.
Proof.
  unfold afr_changelog_pre_op. destruct (_ =? _)%nat; [exact I|]. destruct (_ && _); [exact I|].
  unfold afr_changelog_pre_op_inherit. destruct (_ && _ && _) eqn:E.
  - rewrite !andb_true_iff in E. destruct E as [[_ E1] E2]. apply negb_true_iff, Nat.eqb_neq in E1.
    split; [reflexivity|]. split; [reflexivity|]. split; [exact E1|]. apply same_bricks_spec, E2.
  - cbn [afr_needs_changelog_update is_data orb]. split; [reflexivity|]. split; [reflexivity|].
    unfold dirty_of. cbn [a_dirty]. apply raw_at_value.
Qed.

Lemma begin_ok c l d locked x c' t :
  share_ok (mk_descriptor c l d) ->
  afr_changelog_pre_op priv AFR_DATA_TRANSACTION true (Some c) locked = Pre_do x (Some c') t ->
  share_ok (mk_descriptor c' (l ++ [(Ph_pre x, t)]) d).
Proof.
  intros [H1 H2 H3 H4] E. assert (Hc := pre_op_cases c locked). rewrite E in Hc. destruct Hc as ([= ->] & -> & Hx).
  cbn [ctx txns dirt] in *. split; cbn [ctx txns dirt].
  - apply Forall_app. split; [exact H1|]. apply Forall_singleton. split; [exact Hx | eauto].
  - rewrite sharers_app. cbn. lia.
  - exact H3.
  - intros i Hi. rewrite total_app. specialize (H4 i Hi). cbn. lia.
Qed.

Lemma inherit_ok c l d locked c' t xs c'' t' :
  share_ok (mk_descriptor c l d) ->
  afr_changelog_pre_op priv AFR_DATA_TRANSACTION true (Some c) locked = Pre_next (Some c') t ->
  afr_transaction_perform_fop priv AFR_DATA_TRANSACTION xs (Some c') t = (true, Some c'', t') ->
  share_ok (mk_descriptor c'' (l ++ [(Ph_fop, t')]) d).
Proof.
  intros [H1 H2 H3 H4] E Ep. assert (Hc := pre_op_cases c locked). rewrite E in Hc.
  destruct Hc as ([= ->] & -> & Hd & Hsame). apply perform_spec in Ep as (t0 & Eu & E1 & E2 & E3).
  cbn in Eu. injection Eu as <- <-. cbn in E2, E3. cbn [ctx txns dirt] in *. split; cbn [ctx txns dirt on_disk inherited pre_op_done].
  - apply Forall_app. split; [revert H1; apply txns_rebase; left; reflexivity|]. apply Forall_singleton.
    split; cbn [snd]; [exact E3|]. intros _ i Hi. rewrite E1. apply Hsame, Hi.
  - rewrite sharers_app, sharers_cons. unfold sharing. cbn [fst snd]. rewrite E2. cbn. lia.
  - lia.
  - intros i Hi. rewrite total_app. cbn. unfold owed. cbn [fst snd]. rewrite E2. specialize (H4 i Hi). cbn. lia.
Qed.

(** ** The pre-op is done *)

Lemma new_txn_good locked i : (i < n)%nat ->
  on (tab n (fun i => negb (on (failed_subvols (new_txn priv locked)) i))) i = on (pre_op (new_txn priv locked)) i.
Proof. intros Hi. cbn [new_txn failed_subvols pre_op]. rewrite !on_tab_lt by exact Hi. apply negb_involutive. Qed.

Lemma new_txn_alive locked i : (i < n)%nat ->
  on (alive priv (set_dirtied (new_txn priv locked))) i = on (pre_op (new_txn priv locked)) i.
Proof.
  intros Hi. unfold alive. rewrite on_tab_lt by exact Hi. cbn [set_dirtied pre_op failed_subvols new_txn].
  rewrite !on_tab_lt by exact Hi. destruct (on locked i); reflexivity.
Qed.

(** The context counts the new mark, or the transaction keeps it to itself. *)
Lemma update_cases c locked c' t0 :
  (on_disk c = 0%nat -> inherited c = 0%nat) ->
  afr_changelog_pre_op_update priv (Some c) (set_dirtied (new_txn priv locked)) = (Some c', t0) ->
  pre_op t0 = pre_op (new_txn priv locked) /\ uninherit_done t0 = None
  /\ ((no_uninherit t0 = false /\ on_disk c' = S (on_disk c) /\ inherited c' = inherited c
        /\ (forall i, (i < n)%nat -> on (pre_op_done c') i = on (pre_op t0) i)
        /\ (pre_op_done c' = pre_op_done c \/ on_disk c = 0%nat))
      \/ (no_uninherit t0 = true /\ c' = c)).
Proof.
  intros Hd. unfold afr_changelog_pre_op_update. cbn [set_dirtied txn_inherited dirtied negb orb].
  destruct (negb (afr_txn_nothing_failed _ _)) eqn:En.
  { exfalso. apply negb_true_iff in En. unfold afr_txn_nothing_failed in En. apply negb_false_iff, existsb_seq in En.
    destruct En as (i & Hi & En). cbn [new_txn set_dirtied pre_op failed_subvols] in En.
    rewrite !on_tab_lt in En by exact Hi. destruct (on locked i); discriminate. }
  destruct (Nat.eqb_spec (on_disk c) 0) as [E0 | E0].
  - intros [= <- <-]. split; [reflexivity|]. split; [reflexivity|]. left. cbn [on_disk inherited pre_op_done].
    split; [reflexivity|]. split; [lia|]. split; [reflexivity|]. split; [|auto]. apply new_txn_good.
  - destruct (same_bricks _ _ _) eqn:Es; intros [= <- <-]; (split; [reflexivity|]); (split; [reflexivity|]); [left | auto].
    cbn [on_disk inherited pre_op_done]. split; [reflexivity|]. split; [lia|]. split; [reflexivity|]. split; [|auto].
    intros i Hi. rewrite same_bricks_spec in Es. rewrite Es by exact Hi. apply new_txn_good, Hi.
Qed.

Lemma pre_done_ok c l1 x t l2 d xs c' t' :
  share_ok (mk_descriptor c (l1 ++ (Ph_pre x, t) :: l2) d) ->
  afr_transaction_perform_fop priv AFR_DATA_TRANSACTION xs (Some c) t = (true, Some c', t') ->
  share_ok (mk_descriptor c' (l1 ++ (Ph_fop, t') :: l2) (add_dirt (alive priv t) x d)).
Proof.
  intros [H1 H2 H3 H4] Ep. apply perform_spec in Ep as (t0 & Eu & E1 & E2 & E3). cbn [ctx txns dirt] in *.
  apply Forall_middle in H1 as [[Hx (locked & Ht)] H1]. cbn [snd] in Ht. subst t.
  destruct (update_cases c locked c' t0 H3 Eu) as (P1 & P2 & Hcase).
  rewrite sharers_app, sharers_cons in H2. cbn [sharing fst Nat.add] in H2. rewrite <- sharers_app in H2.
  assert (Hdirt : forall i, (i < n)%nat -> add_dirt (alive priv (set_dirtied (new_txn priv locked))) x d i
                            = d i + if on (pre_op t') i then 1 else 0)
    by (intros i Hi; unfold add_dirt; rewrite new_txn_alive, Hx, E1, P1 by exact Hi; reflexivity).
  destruct Hcase as [(N & D1 & D2 & D3 & D4) | [N ->]]; split; cbn [ctx txns dirt].
  - apply Forall_middle. split.
    + split; cbn [snd]; [congruence|]. intros _ i Hi. rewrite E1, D3 by exact Hi. reflexivity.
    + revert H1. apply txns_rebase. destruct D4 as [D4 | D4]; [left; exact D4 | right]. rewrite H2, D4, H3; auto.
  - rewrite sharers_app, sharers_cons. unfold sharing. cbn [fst snd]. rewrite E2, N. rewrite sharers_app in H2. cbn. lia.
  - rewrite D1. discriminate.
  - intros i Hi. rewrite Hdirt by exact Hi. specialize (H4 i Hi). revert H4. rewrite !total_app, !total_cons. cbn [owed fst snd].
    rewrite E2, N, D1, D3, E1 by exact Hi. cbn [andb]. destruct (on (pre_op t0) i) eqn:Eo; [|destruct (on (pre_op_done c) i); lia].
    destruct D4 as [D4 | D4]; [rewrite <- D4, D3, Eo by exact Hi; lia|]. rewrite D4. destruct (on (pre_op_done c) i); lia.
  - apply Forall_middle. split; [|exact H1]. split; cbn [snd]; [congruence|]. rewrite E2, N. discriminate.
  - rewrite sharers_app, sharers_cons. unfold sharing. cbn [fst snd]. rewrite E2, N. rewrite sharers_app in H2. cbn. lia.
  - exact H3.
  - intros i Hi. rewrite Hdirt by exact Hi. specialize (H4 i Hi). revert H4. rewrite !total_app, !total_cons. cbn [owed fst snd].
    rewrite E2, N. cbn [andb]. destruct (on (pre_op t') i); lia.
Qed.

(** ** The post-op *)

(** The fields that sharing looks at. *)
Definition same_fields (t t' : transaction) : Prop :=
  pre_op t' = pre_op t /\ dirtied t' = dirtied t /\ no_uninherit t' = no_uninherit t /\ uninherit_done t' = uninherit_done t.

Lemma quorum_fields t : same_fields t (afr_handle_quorum priv t).
Proof.
  unfold afr_handle_quorum, afr_has_arbiter_fop_cbk_quorum. destruct (_ || _); [repeat split|].
  destruct (0 <? arbiter_count priv)%nat;
    match goal with |- context [if ?b then _ else set_op_ret _ _] => destruct b end; repeat split.
Qed.

Lemma uninherit_fields fd t1 t2 r fd' t1' :
  same_fields t1 t2 -> afr_changelog_pre_op_uninherit priv AFR_DATA_TRANSACTION fd t1 = (r, fd', t1') ->
  exists t2', afr_changelog_pre_op_uninherit priv AFR_DATA_TRANSACTION fd t2 = (r, fd', t2') /\ same_fields t1' t2'.
Proof.
  intros (E1 & E2 & E3 & E4). unfold afr_changelog_pre_op_uninherit. rewrite E1, E2, E3, E4.
  destruct fd as [c|]; [|intros [= <- <- <-]; eexists; repeat split; assumption]. cbn [is_data negb].
  destruct (no_uninherit t1) eqn:En; [intros [= <- <- <-]; eexists; repeat split; congruence|].
  destruct (uninherit_done t1) eqn:Eu; [intros [= <- <- <-]; eexists; repeat split; congruence|].
  destruct (negb (same_bricks _ _ _)); [intros [= <- <- <-]; eexists; repeat split; cbn; congruence|].
  destruct (inherited c) as [|k]; [destruct (on_disk c) as [|k]|];
    intros [= <- <- <-]; eexists; repeat split; cbn; congruence.
Qed.

(** [afr_changelog_pre_op_uninherit] can be called again. *)
Lemma uninherit_again c t r fd t' t'' :
  afr_changelog_pre_op_uninherit priv AFR_DATA_TRANSACTION (Some c) t = (r, fd, t') -> same_fields t' t'' ->
  afr_changelog_pre_op_uninherit priv AFR_DATA_TRANSACTION fd t'' = (r, fd, t'').
Proof.
  unfold afr_changelog_pre_op_uninherit. cbn [is_data negb].
  destruct (no_uninherit t) eqn:En; [intros [= <- <- <-] (_ & _ & E & _); rewrite E, En; reflexivity|].
  destruct (uninherit_done t) eqn:Eu; [intros [= <- <- <-] (_ & _ & E & E'); rewrite E, En, E', Eu; reflexivity|].
  destruct (negb (same_bricks _ _ _)).
  - intros [= <- <- <-] (_ & _ & E & E'). cbn in E, E'. rewrite E, En, E'. reflexivity.
  - destruct (inherited c) as [|k]; [destruct (on_disk c) as [|k]|];
      intros [= <- <- <-] (_ & _ & E & E'); cbn in E, E'; rewrite E, En, E'; reflexivity.
Qed.

(** What the post-op of [t] does: [c'] comes of giving up the share, and the
    xattrop removes a mark when the share was the last. *)
Definition post_effect (c : afr_fd_ctx) (t : transaction) (x : option xattrop) (c' : afr_fd_ctx) (t' : transaction) : Prop :=
  exists r t2, afr_changelog_pre_op_uninherit priv AFR_DATA_TRANSACTION (Some c) t = (r, Some c', t2)
    /\ (forall y, x = Some y -> dirty_of y = if r then 0 else -1)
    /\ (forall i, on (alive priv t') i = true -> on (pre_op t) i = true).

Lemma post_now_effect c t x c' t' :
  afr_changelog_post_op_now priv AFR_DATA_TRANSACTION (Some c) t = (x, Some c', t') -> post_effect c t x c' t'.
Proof.
  unfold afr_changelog_post_op_now.
  destruct (afr_changelog_pre_op_uninherit _ _ _ (afr_handle_quorum priv t)) as [[r fd] t1] eqn:Eu.
  assert (Hq := quorum_fields t). assert (Hpre : pre_op t1 = pre_op t)
    by (apply uninherit_keeps in Eu as (E & _); destruct Hq as (E' & _); congruence).
  assert (Hq' : same_fields (afr_handle_quorum priv t) t)
    by (destruct Hq as (A & B & C & D); repeat split; symmetry; assumption).
  destruct (uninherit_fields _ _ t _ _ _ Hq' Eu) as (t2 & Et & _).
  assert (Hal : forall t3, pre_op t3 = pre_op t1 -> forall i, on (alive priv t3) i = true -> on (pre_op t) i = true)
    by (intros t3 E3 i Hi; apply alive_spec in Hi as (_ & Hp & _); congruence).
  unfold post_effect. intros H. exists r, t2.
  destruct (_ && _) in H; [injection H as <- -> <-; repeat split; [assumption | discriminate | apply Hal; reflexivity]|].
  destruct (_ && _) in H; [injection H as <- -> <-; repeat split; [assumption | discriminate | apply Hal; reflexivity]|].
  destruct (in_flight_sb t1); [injection H as <- -> <-; repeat split; [assumption | discriminate | apply Hal; reflexivity]|].
  destruct (_ =? _)%nat in H; [injection H as <- -> <-; repeat split; [assumption | discriminate | apply Hal; reflexivity]|].
  injection H as <- -> <-. repeat split; [assumption | | apply Hal; reflexivity]. intros y [= <-].
  unfold dirty_of. cbn [a_dirty afr_index_for_transaction_type]. rewrite raw_at_value. destruct r; reflexivity.
Qed.

Lemma post_safe_effect unstable synced c t x c' t' :
  afr_changelog_post_op_safe priv unstable synced AFR_DATA_TRANSACTION (Some c) t = (x, Some c', t') ->
  post_effect c t x c' t'.
Proof.
  unfold afr_changelog_post_op_safe. cbn [is_data negb].
  destruct (afr_changelog_pre_op_uninherit priv AFR_DATA_TRANSACTION (Some c) t) as [[r fd] t1] eqn:Eu.
  assert (Hpre : pre_op t1 = pre_op t) by (apply uninherit_keeps in Eu; apply Eu).
  assert (Hfd : exists c1, fd = Some c1).
  { revert Eu. unfold afr_changelog_pre_op_uninherit. intros H. repeat match type of H with
      | context [match ?e with _ => _ end] => destruct e end; injection H as <- <- <-; eauto. }
  destruct Hfd as [c1 ->].
  assert (Hgo : forall t3, same_fields t1 t3 ->
    afr_changelog_post_op_now priv AFR_DATA_TRANSACTION (Some c1) t3 = (x, Some c', t') -> post_effect c t x c' t').
  { intros t3 Hs H. destruct (post_now_effect _ _ _ _ _ H) as (r3 & t4 & E3 & Hx & Hal).
    rewrite (uninherit_again c t r (Some c1) t1 t3 Eu Hs) in E3. injection E3 as <- <- <-.
    exists r, t1. split; [exact Eu|]. split; [exact Hx|]. destruct Hs as (E & _). rewrite E, Hpre in Hal. exact Hal. }
  destruct (_ && _); [|destruct unstable]; apply Hgo; repeat split.
Qed.

(** What giving up a share does to the context. *)
Lemma uninherit_cases c t r c' t' :
  uninherit_done t = None -> (on_disk c = 0%nat -> inherited c = 0%nat) ->
  (no_uninherit t = false -> (0 < on_disk c + inherited c)%nat /\ forall i, (i < n)%nat -> on (pre_op t) i = on (pre_op_done c) i) ->
  afr_changelog_pre_op_uninherit priv AFR_DATA_TRANSACTION (Some c) t = (r, Some c', t') ->
  (no_uninherit t = true /\ r = false /\ c' = c)
  \/ (no_uninherit t = false /\ r = true /\ on_disk c' = on_disk c /\ inherited c = S (inherited c') /\ pre_op_done c' = pre_op_done c)
  \/ (no_uninherit t = false /\ r = false /\ on_disk c = S (on_disk c') /\ inherited c' = 0%nat /\ inherited c = 0%nat
      /\ (pre_op_done c' = pre_op_done c \/ on_disk c' = 0%nat)).
Proof.
  intros Hu Hd Hsame. unfold afr_changelog_pre_op_uninherit. cbn [is_data negb]. rewrite Hu.
  destruct (no_uninherit t) eqn:En; [intros [= <- <- <-]; auto|]. destruct (Hsame eq_refl) as [Hpos Hb].
  rewrite (proj2 (same_bricks_spec _ _) Hb). cbn [negb].
  destruct (inherited c) as [|k] eqn:Ei; [destruct (on_disk c) as [|k] eqn:Eo|]; [lia | |]; intros [= <- <- <-];
    cbn [on_disk inherited pre_op_done].
  - right. right. repeat split; auto. destruct k; auto.
  - right. left. repeat split; auto. destruct (on_disk c) eqn:Eo; [discriminate (Hd eq_refl)|].
    rewrite andb_false_r. reflexivity.
Qed.

Lemma owed_after x t' t (r : bool) i :
  (forall y, x = Some y -> dirty_of y = if r then 0 else -1) ->
  (forall i, on (alive priv t') i = true -> on (pre_op t) i = true) ->
  total i (after_post x t') <= if r then 0 else if on (pre_op t) i then 1 else 0.
Proof.
  intros Hx Hal. destruct x as [y|]; cbn [after_post]; [|destruct r, (on (pre_op t) i); cbn; lia].
  rewrite total_cons. cbn [owed fst snd total foldr]. rewrite (Hx y eq_refl). specialize (Hal i).
  destruct (on (alive priv t') i); [rewrite Hal by reflexivity|]; destruct r, (on (pre_op t) i); lia.
Qed.

Lemma after_post_sharers x t' : sharers (after_post x t') = 0%nat.
Proof. destruct x; reflexivity. Qed.

Lemma after_post_ok c x t' (r : bool) :
  (forall y, x = Some y -> dirty_of y = if r then 0 else -1) -> Forall (txn_ok c) (after_post x t').
Proof.
  intros Hx. destruct x as [y|]; cbn; [|apply Forall_nil_2]. apply Forall_singleton. unfold txn_ok. cbn [fst].
  rewrite (Hx y eq_refl). destruct r; lia.
Qed.

Lemma post_ok_share c l1 t l2 d t1 x c' t' :
  share_ok (mk_descriptor c (l1 ++ (Ph_fop, t) :: l2) d) -> fop_changes t t1 -> post_effect c t1 x c' t' ->
  share_ok (mk_descriptor c' (l1 ++ after_post x t' ++ l2) d).
Proof.
  intros [H1 H2 H3 H4] (F1 & F2 & F3 & F4 & _) (r & t2 & Eu & Hx & Hal). cbn [ctx txns dirt] in *.
  apply Forall_middle in H1 as [[Hu Hsame] H1]. cbn [snd] in Hu, Hsame.
  rewrite sharers_app, sharers_cons in H2. unfold sharing in H2. cbn [fst snd] in H2.
  rewrite F1 in Hal. rewrite <- F4 in Hu. rewrite <- F3 in *. rewrite <- F1 in Hsame.
  assert (Hpost : forall c, Forall (txn_ok c) (after_post x t')) by (intros c0; exact (after_post_ok c0 x t' r Hx)).
  assert (Howed := fun i => owed_after x t' t r i Hx Hal). clear Hx.
  destruct (uninherit_cases c t1 r c' t2 Hu H3) as [(N & -> & ->) | [(N & -> & D1 & D2 & D3) | (N & -> & D1 & D2 & D2' & D3)]].
  1: { intros N. rewrite N in H2. cbn in H2. split; [lia | apply Hsame, N]. }
  1: exact Eu.
  all: rewrite N in H2; cbn [negb] in H2; split; cbn [ctx txns dirt].
  all: try (rewrite !sharers_app, after_post_sharers; lia).
  all: try (intros i Hi; specialize (H4 i Hi); assert (Ho := Howed i); revert H4;
    rewrite !total_app, total_cons; cbn [owed fst snd]; rewrite <- F3, N; cbn [andb negb]).
  - apply Forall_app. apply Forall_app in H1 as [Ha Hb]. split; [exact Ha|]. apply Forall_app. split; [apply Hpost | exact Hb].
  - exact H3.
  - destruct (on (pre_op t) i); lia.
  - apply Forall_app in H1 as [Ha Hb]. apply Forall_app. split; [revert Ha; apply txns_rebase; auto|].
    apply Forall_app. split; [apply Hpost | revert Hb; apply txns_rebase; auto].
  - lia.
  - rewrite D1, D3. lia.
  - apply Forall_app in H1 as [Ha Hb]. apply Forall_app. split; [revert Ha; apply txns_rebase|].
    + destruct D3 as [D3 | D3]; [auto | right; lia].
    + apply Forall_app. split; [apply Hpost | revert Hb; apply txns_rebase].
      destruct D3 as [D3 | D3]; [auto | right; lia].
  - intros _. exact D2.
  - assert (Hb := Hsame N i Hi). rewrite F1 in Hb. rewrite D1. destruct D3 as [-> | ->]; [|destruct (on (pre_op_done c') i)];
      destruct (on (pre_op_done c) i); rewrite Hb in Ho; lia.
Qed.

Lemma post_done_ok c l1 x t l2 d :
  share_ok (mk_descriptor c (l1 ++ (Ph_post x, t) :: l2) d) ->
  share_ok (mk_descriptor c (l1 ++ l2) (add_dirt (alive priv t) x d)).
Proof.
  intros [H1 H2 H3 H4]. cbn [ctx txns dirt] in *. apply Forall_middle in H1 as [_ H1].
  rewrite sharers_app, sharers_cons in H2. cbn [sharing fst Nat.add] in H2. split; cbn [ctx txns dirt].
  - exact H1.
  - rewrite sharers_app. lia.
  - exact H3.
  - intros i Hi. specialize (H4 i Hi). rewrite total_app, total_cons in H4. cbn [owed fst snd] in H4. rewrite total_app.
    unfold add_dirt. destruct (on (alive priv t) i); lia.
Qed.

Lemma step_share f f' : descriptor_step f f' -> share_ok f -> share_ok f'.
Proof.
  intros Hs Hok. destruct Hs.
  - eapply begin_ok; eassumption.
  - eapply inherit_ok; eassumption.
  - eapply pre_done_ok; eassumption.
  - eapply post_ok_share; [exact Hok | eassumption | eapply post_safe_effect; eassumption].
  - eapply post_ok_share; [exact Hok | eassumption | eapply post_now_effect; eassumption].
  - eapply post_done_ok; eassumption.
Qed.

Lemma new_share : share_ok new_descriptor.
Proof.
  split; cbn; [apply Forall_nil_2 | reflexivity | reflexivity |]. intros i Hi.
  match goal with |- context [if ?b then _ else _] => destruct b end; lia.
Qed.

Lemma reach_share f : rtc descriptor_step new_descriptor f -> share_ok f.
Proof.
  intros H. assert (G : forall a b, rtc descriptor_step a b -> share_ok a -> share_ok b).
  { clear f H. intros a b H. induction H; [auto|]. intros Ha. eauto using step_share. }
  exact (G _ _ H new_share).
Qed.

Lemma share_marked f t i :
  share_ok f -> (Ph_fop, t) ∈ txns f -> (i < n)%nat -> on (pre_op t) i = true ->
  1 <= dirt f i.
Proof.
  intros [H1 H2 H3 H4] Hin Hi Hon.
  assert (Hpos : forall p, p ∈ txns f -> 0 <= owed i p).
  { intros p Hp. rewrite Forall_forall in H1. specialize (H1 p Hp). unfold owed, txn_ok in *.
    destruct p as [[x | | x] t0]; cbn [fst snd] in *; [lia | destruct (_ && _); lia | destruct (on (alive priv t0) i); lia]. }
  specialize (H4 i Hi). apply list_elem_of_split in Hin as (l1 & l2 & E). rewrite E in *.
  apply Forall_middle in H1 as [[_ Hsame] _]. cbn [snd] in Hsame.
  rewrite total_app, total_cons in H4. cbn [owed fst snd] in H4. rewrite Hon in H4.
  assert (Ht : forall l, (forall p, p ∈ l -> 0 <= owed i p) -> 0 <= total i l).
  { induction l as [|p l IH]; intros H; [cbn; lia|]. rewrite total_cons.
    assert (0 <= owed i p) by (apply H; left). assert (0 <= total i l) by (apply IH; intros q Hq; apply H; right; exact Hq). lia. }
  assert (0 <= total i l1) by (apply Ht; intros p Hp; apply Hpos, elem_of_app; auto).
  assert (0 <= total i l2) by (apply Ht; intros p Hp; apply Hpos, elem_of_app; right; right; exact Hp).
  destruct (no_uninherit t) eqn:N; cbn [andb] in H4; [destruct (on (pre_op_done (ctx f)) i); lia|].
  rewrite sharers_app, sharers_cons in H2. unfold sharing in H2. cbn [fst snd] in H2. rewrite N in H2. cbn [negb] in H2.
  rewrite <- (Hsame eq_refl i Hi), Hon in H4. lia.
Qed.
End descriptor.
