(* ===== verification/AfrClean.v ===== *)
(** * Replication: dirty marks are removed

    When the writes on a descriptor succeed on the bricks they were sent to, the
    marks on the bricks are exactly those of the writes that are left; so none
    are left when all writes are done, whichever of them shared marks. *)

From S2P Require Import Prelude Words AfrHeal AfrTxn AfrFacts AfrSystem AfrShare.
Open Scope Z_scope.

Section descriptor.
Context (priv : afr_private).
Abbreviation n := (child_count priv).

(** A transaction after its write: the answers [rets] of the bricks, what the readable
    bricks [datamap] say of a split brain, short writes, and symmetric errors. *)
Definition written (rets : list (Z * Z)) (size : Z) (datamap : list bool) (t : transaction) : transaction :=
  let '(replies, t) := __afr_txn_write_fop priv rets size t in
  afr_handle_symmetric_errors priv replies (afr_process_post_writev priv replies datamap t).

(** The write succeeds: all its bricks write [size] bytes, and if only one brick is
    readable that one takes part. *)
Definition succeeds (rets : list (Z * Z)) (size : Z) (datamap : list bool) (t : transaction) : Prop :=
  0 <= size /\ (forall i, on (alive priv t) i = true -> (nth i rets (-1, ENOTCONN)).1 = size)
  /\ (AFR_COUNT datamap n = 1%nat -> exists i, (i < n)%nat /\ on datamap i = true /\ on (alive priv t) i = true).

(** The steps in which pre-ops, writes and syncs succeed. *)
Inductive clean_step : descriptor -> descriptor -> Prop :=
| Clean_begin c l d locked x c' t :
    afr_changelog_pre_op priv AFR_DATA_TRANSACTION true (Some c) locked = Pre_do x (Some c') t ->
    clean_step (mk_descriptor c l d) (mk_descriptor c' (l ++ [(Ph_pre x, t)]) d)
| Clean_inherit c l d locked c' t xs c'' t' :
    afr_changelog_pre_op priv AFR_DATA_TRANSACTION true (Some c) locked = Pre_next (Some c') t ->
    afr_transaction_perform_fop priv AFR_DATA_TRANSACTION xs (Some c') t = (true, Some c'', t') ->
    clean_step (mk_descriptor c l d) (mk_descriptor c'' (l ++ [(Ph_fop, t')]) d)
| Clean_pre_done c l1 x t l2 d xs c' t' :
    afr_transaction_perform_fop priv AFR_DATA_TRANSACTION xs (Some c) t = (true, Some c', t') ->
    clean_step (mk_descriptor c (l1 ++ (Ph_pre x, t) :: l2) d)
      (mk_descriptor c' (l1 ++ (Ph_fop, t') :: l2) (add_dirt (alive priv t) x d))
| Clean_post c l1 t l2 d rets size datamap unstable synced x c' t' :
    succeeds rets size datamap t -> (forall i, on (alive priv t) i = true -> on synced i = true) ->
    afr_changelog_post_op_safe priv unstable synced AFR_DATA_TRANSACTION (Some c) (written rets size datamap t) = (x, Some c', t') ->
    clean_step (mk_descriptor c (l1 ++ (Ph_fop, t) :: l2) d) (mk_descriptor c' (l1 ++ after_post x t' ++ l2) d)
| Clean_post_delayed c l1 t l2 d rets size datamap x c' t' :
    succeeds rets size datamap t ->
    afr_changelog_post_op_now priv AFR_DATA_TRANSACTION (Some c) (written rets size datamap t) = (x, Some c', t') ->
    clean_step (mk_descriptor c (l1 ++ (Ph_fop, t) :: l2) d) (mk_descriptor c' (l1 ++ after_post x t' ++ l2) d)
| Clean_post_done c l1 x t l2 d :
    clean_step (mk_descriptor c (l1 ++ (Ph_post x, t) :: l2) d)
      (mk_descriptor c (l1 ++ l2) (add_dirt (alive priv t) x d)).

Lemma written_changes rets size datamap t : fop_changes t (written rets size datamap t).
Proof.
  unfold written, __afr_txn_write_fop, afr_process_post_writev, __afr_inode_write_finalize, afr_set_in_flight_sb_status,
    __afr_set_in_flight_sb_status, afr_handle_symmetric_errors.
  destruct (afr_is_symmetric_error _ _); [rewrite orb_true_r; repeat split|]. destruct (_ || _); [repeat split|].
  destruct (_ && _); repeat split.
Qed.

Lemma clean_is_step f f' : clean_step f f' -> descriptor_step priv f f'.
Proof.
  destruct 1.
  - eapply Fd_begin; eassumption.
  - eapply Fd_inherit; eassumption.
  - eapply Fd_pre_done; eassumption.
  - eapply Fd_post; [apply written_changes | eassumption].
  - eapply Fd_post_delayed; [apply written_changes | eassumption].
  - apply Fd_post_done.
Qed.

(** A transaction in which no brick that was locked failed. *)
Definition clean_txn (p : phase * transaction) : Prop :=
  match p.1 with
  | Ph_post _ => True
  | _ => in_flight_sb p.2 = false /\ exists locked,
      pre_op p.2 = pre_op (new_txn priv locked) /\ (forall i, (i < n)%nat -> on (failed_subvols p.2) i = negb (on locked i))
      /\ AFR_COUNT (pre_op p.2) n <> 0%nat /\ (quorum_count priv <> 0 -> afr_has_quorum priv locked = true)
  end.

Record clean_ok (f : descriptor) : Prop := mk_clean_ok {
  cl_share : share_ok priv f;
  cl_txns : Forall clean_txn (txns f);
  cl_dirt : forall i, (i < n)%nat ->
    dirt f i = (if on (pre_op_done (ctx f)) i then Z.of_nat (on_disk (ctx f)) else 0) + total priv i (txns f)
}.

Lemma clean_alive locked i t : (i < n)%nat -> pre_op t = pre_op (new_txn priv locked) ->
  on (failed_subvols t) i = negb (on locked i) -> on (alive priv t) i = on locked i.
Proof.
  intros Hi E1 E2. unfold alive. rewrite on_tab_lt, E1, E2 by exact Hi. cbn [new_txn pre_op].
  rewrite !on_tab_lt by exact Hi. destruct (on locked i); reflexivity.
Qed.

Lemma clean_pre_on locked i : (i < n)%nat -> on (pre_op (new_txn priv locked)) i = on locked i.
Proof. intros Hi. cbn [new_txn pre_op]. apply on_tab_lt, Hi. Qed.

Lemma clean_failed_on locked i : (i < n)%nat -> on (failed_subvols (new_txn priv locked)) i = negb (on locked i).
Proof. intros Hi. cbn [new_txn failed_subvols]. apply on_tab_lt, Hi. Qed.

Lemma pre_op_clean c locked :
  match afr_changelog_pre_op priv AFR_DATA_TRANSACTION true (Some c) locked with
  | Pre_err => True
  | Pre_next _ t | Pre_do _ _ t =>
      AFR_COUNT (pre_op (new_txn priv locked)) n <> 0%nat /\ (quorum_count priv <> 0 -> afr_has_quorum priv locked = true)
  end.
Proof.
  unfold afr_changelog_pre_op. destruct (Nat.eqb_spec (AFR_COUNT (pre_op (new_txn priv locked)) n) 0) as [|Hc]; [exact I|].
  destruct (negb (quorum_count priv =? 0) && negb (afr_has_quorum priv locked)) eqn:Eq; [exact I|].
  assert (Hq : quorum_count priv <> 0 -> afr_has_quorum priv locked = true).
  { intros Hne. apply Z.eqb_neq in Hne. rewrite Hne in Eq. apply negb_false_iff, Eq. }
  destruct (afr_changelog_pre_op_inherit _ _ _ _) as [[[|] fd] t]; [auto|]. cbn. auto.
Qed.

(** The best of answers that are all the same. *)
Lemma best_same replies size l : forall z,
  z = -1 \/ z = size -> 0 <= size -> (forall i ret e, In i l -> answer replies i = Some (ret, e) -> ret = size) ->
  best_of replies l z = size \/ (best_of replies l z = -1 /\ forall i, In i l -> answer replies i = None).
Proof.
  induction l as [|x l IH]; intros z Hz Hs Hall; cbn.
  { destruct Hz as [-> | ->]; [right | left]; auto. split; [reflexivity | intros i []]. }
  assert (Hl : forall i ret e, In i l -> answer replies i = Some (ret, e) -> ret = size) by (intros i ret e Hi; apply Hall; right; exact Hi).
  destruct (answer replies x) as [[ret e]|] eqn:E.
  - rewrite (Hall x ret e (or_introl eq_refl) E). rewrite (proj2 (Z.leb_le 0 size) Hs). cbn [andb].
    replace (if z <? size then size else z) with size by (destruct (Z.ltb_spec z size); lia).
    assert (Hb : forall l, (forall i ret e, In i l -> answer replies i = Some (ret, e) -> ret = size) -> best_of replies l size = size).
    { clear. induction l as [|x l IH]; intros H; cbn; [reflexivity|]. destruct (answer replies x) as [[ret e]|] eqn:E.
      - rewrite (H x ret e (or_introl eq_refl) E), Z.ltb_irrefl, andb_false_r. apply IH. intros i r0 e0 Hi. apply H. right. exact Hi.
      - apply IH. intros i r0 e0 Hi. apply H. right. exact Hi. }
    left. apply Hb, Hl.
  - destruct (IH z Hz Hs Hl) as [H | [H Hn]]; [auto|]. right. split; [exact H|]. intros i [<- | Hi]; auto.
Qed.

(** A write that succeeds changes only its result. *)
Lemma written_clean rets size datamap t :
  arbiter_count priv = 0%nat -> clean_txn (Ph_fop, t) -> succeeds rets size datamap t ->
  op_ret (written rets size datamap t) = size /\ clean_txn (Ph_fop, written rets size datamap t)
  /\ forall i, on (alive priv (written rets size datamap t)) i = true -> on (alive priv t) i = true.
Proof.
  intros Ha [Hsb (locked & E1 & E2 & Hcount & Hq)] (Hz & Hrets & Hmap). cbn [snd] in *. unfold written.
  destruct (__afr_txn_write_fop priv rets size t) as [replies t0] eqn:Ew.
  assert (Hrep : forall i ret e, answer replies i = Some (ret, e) -> (i < n)%nat /\ ret = size).
  { intros i ret e. unfold __afr_txn_write_fop in Ew. injection Ew as <- _. unfold answer. rewrite nth_tab.
    destruct (Nat.ltb_spec i n) as [Hi|]; [|discriminate]. destruct (on (alive priv t) i) eqn:E; [|discriminate].
    intros [= <- _]. unfold AFR_IS_ARBITER_BRICK. rewrite Ha. split; [exact Hi | apply Hrets, E]. }
  assert (Hone : exists i r, (i < n)%nat /\ answer replies i = Some r).
  { apply count_pos in Hcount as (i & Hi & Hon). rewrite E1 in Hon. cbn [new_txn pre_op] in Hon. rewrite on_tab_lt in Hon by exact Hi.
    unfold __afr_txn_write_fop in Ew. injection Ew as <- _. eexists i, _. split; [exact Hi|]. unfold answer. rewrite nth_tab.
    rewrite (proj2 (Nat.ltb_lt _ _) Hi), (clean_alive locked i t Hi E1 (E2 i Hi)), Hon. reflexivity. }
  destruct Hone as (i0 & [r0 e0] & Hi0 & Hr0). destruct (Hrep _ _ _ Hr0) as [_ ->].
  unfold afr_handle_symmetric_errors. rewrite (not_symmetric priv replies i0 size e0 Hi0 Hr0 Hz).
  assert (K : pre_op t0 = pre_op t /\ in_flight_sb t0 = in_flight_sb t /\ forall i, (i < n)%nat -> on (failed_subvols t0) i = on (failed_subvols t) i).
  { unfold __afr_txn_write_fop in Ew. injection Ew as Er <-. split; [reflexivity|]. split; [reflexivity|]. intros i Hi.
    rewrite fops_failed_spec, Er by exact Hi. destruct (answer replies i) as [[ret e]|] eqn:E; [|apply orb_false_r].
    destruct (Hrep _ _ _ E) as [_ ->]. rewrite (proj2 (Z.ltb_ge size 0) Hz). apply orb_false_r. }
  destruct K as (K1 & K2 & K3). unfold afr_process_post_writev, afr_writev_handle_short_writes.
  assert (F : in_flight_sb (__afr_inode_write_finalize priv replies datamap t0) = false).
  { unfold __afr_inode_write_finalize, afr_set_in_flight_sb_status, __afr_set_in_flight_sb_status. destruct (_ || _); [cbn; congruence|].
    destruct (Nat.eqb_spec (AFR_COUNT datamap n) 1) as [Hc|]; [|cbn [andb set_op_ret in_flight_sb]; congruence]. destruct (Hmap Hc) as (i & Hi & Hd & Hal).
    rewrite (proj2 (existsb_seq _ _)); [cbn; congruence|]. exists i. split; [exact Hi|]. rewrite Hd. cbn [andb set_op_ret failed_subvols].
    rewrite K3 by exact Hi. apply alive_spec in Hal as (_ & _ & ->). reflexivity. }
  destruct (finalize_keeps priv replies datamap t0) as (G1 & G2 & G3). cbn zeta in G1, G2, G3.
  set (t1 := __afr_inode_write_finalize _ _ _ _) in *.
  assert (Hret : op_ret t1 = size).
  { rewrite G3. destruct (best_same replies size (seq 0 n) (-1)) as [H | [_ H]]; [auto | exact Hz | | exact H |].
    - intros i ret e _ H. apply (Hrep i ret e H).
    - rewrite (H i0) in Hr0; [discriminate|]. apply in_seq. lia. }
  set (t2 := fops_failed priv _ t1).
  assert (Hf : forall i, (i < n)%nat -> on (failed_subvols t2) i = on (failed_subvols t) i).
  { intros i Hi. unfold t2. rewrite fops_failed_spec, G2, K3, Hret by exact Hi. destruct (answer replies i) as [[ret e]|] eqn:E; [|apply orb_false_r].
    destruct (Hrep _ _ _ E) as [_ ->]. rewrite Z.ltb_irrefl, andb_false_r. apply orb_false_r. }
  assert (Hp : pre_op t2 = pre_op t) by (unfold t2; cbn [fops_failed set_failed pre_op]; congruence).
  split; [exact Hret|]. split.
  - split; [exact F|]. exists locked. cbn [snd]. rewrite Hp. split; [exact E1|]. split; [|auto]. intros i Hi. rewrite Hf by exact Hi. auto.
  - intros i H. apply alive_spec in H as (Hi & A & B). apply alive_spec. rewrite Hf in B by exact Hi. repeat split; congruence.
Qed.

(** The post-op of such a transaction removes a mark from all its bricks, unless
    the mark is left to another. *)
Lemma clean_post t c x c' t' :
  arbiter_count priv = 0%nat -> clean_txn (Ph_fop, t) -> 0 <= op_ret t ->
  afr_changelog_post_op_now priv AFR_DATA_TRANSACTION (Some c) t = (x, Some c', t') ->
  exists r t2, afr_changelog_pre_op_uninherit priv AFR_DATA_TRANSACTION (Some c) t = (r, Some c', t2)
    /\ forall i, (i < n)%nat -> total priv i (after_post x t') = if r then 0 else if on (pre_op t) i then 1 else 0.
Proof.
  intros Ha [Hsb (locked & E1 & E2 & Hcount & Hq)] Hz. cbn [snd] in *. unfold afr_changelog_post_op_now.
  assert (Hal : forall s, pre_op s = pre_op t -> failed_subvols s = failed_subvols t ->
    forall i, (i < n)%nat -> on (alive priv s) i = on (pre_op t) i)
    by (intros s A B i Hi; rewrite (clean_alive locked i s) by (congruence || rewrite B; auto); rewrite E1, clean_pre_on by exact Hi; reflexivity).
  assert (Hquorum : afr_handle_quorum priv t = t).
  { unfold afr_handle_quorum. rewrite Ha. cbn [Nat.ltb Nat.leb]. destruct (Z.eqb_spec (quorum_count priv) 0) as [|Hq0]; [reflexivity|].
    cbn [orb]. destruct (Z.eqb_spec (op_ret t) (-1)) as [|_]; [lia|]. unfold afr_has_fop_cbk_quorum.
    assert (Hn : (0 < n)%nat) by (apply count_pos in Hcount as (i & Hi & _); lia).
    rewrite (quorum_mono priv locked (alive priv t)); [reflexivity | | exact Hn | apply Hq; assumption].
    intros i Hi H. rewrite (clean_alive locked i) by auto. exact H. }
  rewrite Hquorum. destruct (afr_changelog_pre_op_uninherit _ _ _ t) as [[r fd] t1] eqn:Eu.
  assert (Hk := uninherit_keeps priv _ _ _ _ _ _ Eu). destruct Hk as (K1 & K2 & K3 & K4).
  assert (Hnf : afr_txn_nothing_failed priv t = true).
  { unfold afr_txn_nothing_failed. apply negb_true_iff, existsb_seq_false. intros i Hi.
    rewrite E1, E2 by exact Hi. cbn [new_txn pre_op]. rewrite !on_tab_lt by exact Hi. destruct (on locked i); reflexivity. }
  assert (Hcnt : (AFR_COUNT (alive priv t1) n =? 0)%nat = false).
  { apply Nat.eqb_neq, count_pos. apply count_pos in Hcount as (i & Hi & Hon). exists i. split; [exact Hi|].
    rewrite (Hal t1 K1 K2 i Hi). exact Hon. }
  rewrite Hnf, K3, K4, Hsb, Hcnt. cbn [negb andb]. rewrite andb_false_r.
  destruct r; cbn [negb]; intros [= <- -> <-]; eexists _, t1; (split; [reflexivity|]); [reflexivity|].
  intros i Hi. cbn [after_post]. rewrite total_cons. unfold owed. cbn [fst snd]. rewrite (Hal t1 K1 K2 i Hi). unfold dirty_of.
  cbn [a_dirty afr_index_for_transaction_type]. rewrite raw_at_value. cbn [total foldr].
  destruct (on (pre_op t) i); reflexivity.
Qed.

(** A transaction that differs only in what such a post-op does not look at. *)
Lemma clean_same t t1 :
  clean_txn (Ph_fop, t) -> pre_op t1 = pre_op t -> in_flight_sb t1 = in_flight_sb t ->
  (forall i, (i < n)%nat -> on (failed_subvols t1) i = on (failed_subvols t) i) -> clean_txn (Ph_fop, t1).
Proof.
  intros [Hsb (locked & E1 & E2 & Hcount & Hq)] K1 K2 K3. split; cbn [snd] in *; [congruence|]. exists locked. rewrite K1.
  split; [exact E1|]. split; [|auto]. intros i Hi. rewrite K3 by exact Hi. auto.
Qed.

Lemma clean_post_safe t c unstable synced x c' t' :
  arbiter_count priv = 0%nat -> clean_txn (Ph_fop, t) -> 0 <= op_ret t -> (forall i, on (alive priv t) i = true -> on synced i = true) ->
  afr_changelog_post_op_safe priv unstable synced AFR_DATA_TRANSACTION (Some c) t = (x, Some c', t') ->
  exists r t2, afr_changelog_pre_op_uninherit priv AFR_DATA_TRANSACTION (Some c) t = (r, Some c', t2)
    /\ forall i, (i < n)%nat -> total priv i (after_post x t') = if r then 0 else if on (pre_op t) i then 1 else 0.
Proof.
  intros Ha Hcl Hz Hsync. unfold afr_changelog_post_op_safe. cbn [is_data negb].
  destruct (afr_changelog_pre_op_uninherit priv AFR_DATA_TRANSACTION (Some c) t) as [[r fd] t1] eqn:Eu.
  destruct (uninherit_keeps priv _ _ _ _ _ _ Eu) as (K1 & K2 & K3 & K4).
  assert (Hgo : forall t3, same_fields t1 t3 -> clean_txn (Ph_fop, t3) -> op_ret t3 = op_ret t ->
    afr_changelog_post_op_now priv AFR_DATA_TRANSACTION fd t3 = (x, Some c', t') ->
    exists r' t2, (r, fd, t1) = (r', Some c', t2)
      /\ forall i, (i < n)%nat -> total priv i (after_post x t') = if r' then 0 else if on (pre_op t) i then 1 else 0).
  { intros t3 Hs Hc3 Hr3 H. assert (Hag := uninherit_again priv c t r fd t1 t3 Eu Hs). destruct fd as [c1|].
    - destruct (clean_post t3 c1 x c' t' Ha Hc3 ltac:(lia) H) as (r3 & t4 & E3 & Hown). rewrite Hag in E3. injection E3 as <- <- <-.
      exists r, t1. split; [reflexivity|]. destruct Hs as (Hp & _). rewrite Hp, K1 in Hown. exact Hown.
    - exfalso. revert Eu. unfold afr_changelog_pre_op_uninherit. intros Eu. repeat match type of Eu with
        | context [match ?e with _ => _ end] => destruct e end; discriminate. }
  assert (Hc1 : clean_txn (Ph_fop, t1)) by (apply (clean_same t); auto; intros i _; rewrite K2; reflexivity).
  destruct (_ && _); [apply Hgo; auto; repeat split|]. destruct unstable; [|apply Hgo; auto; repeat split].
  apply Hgo; [repeat split | | cbn; congruence]. apply (clean_same t1); [exact Hc1 | reflexivity..|]. intros i Hi.
  unfold afr_changelog_fsync. rewrite fops_failed_spec by exact Hi. destruct (on (failed_subvols t1) i) eqn:Ef; [reflexivity|].
  destruct (on (pre_op t1) i) eqn:Ep; [|reflexivity]. rewrite Hsync; [reflexivity|]. apply alive_spec. repeat split; congruence.
Qed.

Lemma perform_keeps xs c t c' t' :
  arbiter_count priv = 0%nat -> afr_transaction_perform_fop priv AFR_DATA_TRANSACTION xs (Some c) t = (true, Some c', t') ->
  pre_op t' = pre_op t /\ failed_subvols t' = failed_subvols t /\ in_flight_sb t' = in_flight_sb t.
Proof.
  intros Ha. unfold afr_transaction_perform_fop. rewrite Ha. cbn [Nat.eqb].
  destruct (update_keeps priv (Some c) t) as (U1 & U2 & _). cbn zeta in U1, U2.
  assert (U3 : in_flight_sb (afr_changelog_pre_op_update priv (Some c) t).2 = in_flight_sb t).
  { unfold afr_changelog_pre_op_update. destruct (_ || _); [reflexivity|]. destruct (_ =? _)%nat; [reflexivity|].
    destruct (same_bricks _ _ _); reflexivity. }
  destruct (afr_changelog_pre_op_update priv (Some c) t) as [fd t0]. cbn [snd] in *. intros [= _ <-]. auto.
Qed.

(** What the end of a transaction does to the marks. *)
Lemma post_dirt c l1 t l2 d rets size datamap x c' t' :
  clean_ok (mk_descriptor c (l1 ++ (Ph_fop, t) :: l2) d) ->
  (exists r t2, afr_changelog_pre_op_uninherit priv AFR_DATA_TRANSACTION (Some c) (written rets size datamap t) = (r, Some c', t2)
    /\ forall i, (i < n)%nat -> total priv i (after_post x t') = if r then 0 else if on (pre_op (written rets size datamap t)) i then 1 else 0) ->
  Forall clean_txn (l1 ++ after_post x t' ++ l2) /\ forall i, (i < n)%nat ->
    d i = (if on (pre_op_done c') i then Z.of_nat (on_disk c') else 0) + total priv i (l1 ++ after_post x t' ++ l2).
Proof.
  intros [[S1 S2 S3 _] Htx Hd] (r & t2 & Eu & Hown). cbn [ctx txns dirt] in *. apply Forall_middle in Htx as [Hcl Htx].
  apply Forall_middle in S1 as [[Hu Hsame] _]. cbn [snd] in Hu, Hsame.
  destruct (written_changes rets size datamap t) as (F1 & _ & F3 & F4 & _). rewrite F1 in Hown. split.
  - apply Forall_app in Htx as [Ha1 Ha2]. apply Forall_app. split; [exact Ha1|]. apply Forall_app. split; [|exact Ha2].
    destruct x; cbn; [apply Forall_singleton; exact I | apply Forall_nil_2].
  - intros i Hi. rewrite Hd by exact Hi. rewrite !total_app, total_cons, (Hown i Hi). cbn [owed fst snd].
    rewrite sharers_app, sharers_cons in S2. unfold sharing in S2. cbn [fst snd] in S2.
    apply uninherit_cases in Eu; [|congruence | exact S3|].
    + rewrite F3 in Eu. destruct Eu as [(N & -> & ->) | [(N & -> & D1 & _ & D3) | (N & -> & D1 & _ & _ & D3)]]; rewrite N; cbn [andb];
        [lia | rewrite D1, D3; lia |].
      rewrite (Hsame N i Hi), D1. destruct D3 as [-> | ->]; [|destruct (on (pre_op_done c') i)]; destruct (on (pre_op_done c) i); lia.
    + rewrite F1, F3. intros N. rewrite N in S2. cbn in S2. split; [lia | apply Hsame, N].
Qed.

(** What a step does to the marks. *)
Lemma clean_dirt f f' :
  arbiter_count priv = 0%nat -> clean_step f f' -> clean_ok f -> share_ok priv f' ->
  Forall clean_txn (txns f') /\ forall i, (i < n)%nat ->
    dirt f' i = (if on (pre_op_done (ctx f')) i then Z.of_nat (on_disk (ctx f')) else 0) + total priv i (txns f').
Proof.
  intros Ha Hstep Hok Hsh'. assert (Hok' := Hok). destruct Hok' as [Hsh Htx Hd].
  destruct Hstep as [c l d locked x c' t E | c l d locked c' t xs c'' t' E Ep | c l1 x t l2 d xs c' t' Ep
    | c l1 t l2 d rets size datamap unstable synced x c' t' Hw Hsy E | c l1 t l2 d rets size datamap x c' t' Hw E
    | c l1 x t l2 d]; cbn [ctx txns dirt] in *.
  - assert (Hcl := pre_op_clean c locked). assert (Hca := pre_op_cases priv c locked). rewrite E in Hcl, Hca.
    destruct Hca as ([= ->] & -> & _). split.
    + apply Forall_app. split; [exact Htx|]. apply Forall_singleton. split; [reflexivity|]. exists locked.
      split; [reflexivity|]. split; [exact (clean_failed_on locked) | exact Hcl].
    + intros i Hi. rewrite total_app. cbn. rewrite Hd by exact Hi. lia.
  - assert (Hcl := pre_op_clean c locked). assert (Hca := pre_op_cases priv c locked). rewrite E in Hcl, Hca.
    destruct Hca as ([= ->] & -> & _). assert (K := perform_keeps _ _ _ _ _ Ha Ep). destruct K as (K1 & K2 & K3).
    apply perform_spec in Ep as (t0 & Eu & _ & E2 & _). cbn in Eu. injection Eu as <- <-. cbn in E2. split.
    + apply Forall_app. split; [exact Htx|]. apply Forall_singleton. split; [exact K3|]. exists locked. cbn [snd].
      rewrite K1, K2. split; [reflexivity|]. split; [exact (clean_failed_on locked) | exact Hcl].
    + intros i Hi. cbn [on_disk pre_op_done]. rewrite total_app, total_cons. unfold owed. cbn [fst snd]. rewrite E2.
      cbn [andb total foldr]. rewrite Hd by exact Hi. lia.
  - apply Forall_middle in Htx as [Hcl Htx]. destruct Hsh as [S1 S2 S3 _]. cbn [ctx txns dirt] in *.
    apply Forall_middle in S1 as [[Hx (locked & Ht)] _]. cbn [snd] in Ht. subst t.
    assert (K := perform_keeps _ _ _ _ _ Ha Ep). destruct K as (K1 & K2 & K3).
    apply perform_spec in Ep as (t0 & Eu & E1 & E2 & _).
    destruct (update_cases priv c locked c' t0 S3 Eu) as (P1 & _ & Hcase). split.
    + apply Forall_middle. split; [|exact Htx]. unfold clean_txn in *. cbn [fst snd] in *. rewrite K1, K2, K3. exact Hcl.
    + intros i Hi. unfold add_dirt. rewrite new_txn_alive, Hx, Hd by exact Hi. rewrite !total_app, !total_cons.
      cbn [owed fst snd]. rewrite E1, E2, P1.
      destruct Hcase as [(N & D1 & _ & D3 & D4) | [N ->]]; rewrite N; cbn [andb].
      * rewrite D1, D3, P1 by exact Hi. destruct D4 as [D4 | D4].
        -- rewrite <- D4, D3, P1 by exact Hi. destruct (on (pre_op (new_txn priv locked)) i); lia.
        -- rewrite D4. destruct (on (pre_op_done c) i), (on (pre_op (new_txn priv locked)) i); lia.
      * destruct (on (pre_op (new_txn priv locked)) i); lia.
  - eapply post_dirt; try eassumption. apply Forall_middle in Htx as [Hcl Htx].
    destruct (written_clean rets size datamap t Ha Hcl Hw) as (Hr & Hc1 & Hal). eapply clean_post_safe; [exact Ha|exact Hc1| | |exact E].
    + rewrite Hr. apply Hw.
    + intros i Hi. apply Hsy, Hal, Hi.
  - eapply post_dirt; try eassumption. apply Forall_middle in Htx as [Hcl Htx].
    destruct (written_clean rets size datamap t Ha Hcl Hw) as (Hr & Hc1 & Hal). eapply clean_post; [exact Ha|exact Hc1| |exact E].
    rewrite Hr. apply Hw.
  - apply Forall_middle in Htx as [_ Htx]. split; [exact Htx|]. intros i Hi. unfold add_dirt. rewrite Hd by exact Hi.
    rewrite !total_app, total_cons. cbn [owed fst snd]. destruct (on (alive priv t) i); lia.
Qed.

Lemma clean_reach f : arbiter_count priv = 0%nat -> rtc clean_step (new_descriptor priv) f -> clean_ok f.
Proof.
  intros Ha H. assert (G : forall a b, rtc clean_step a b -> clean_ok a -> clean_ok b).
  { clear f H. intros a b H. induction H as [|a b c Hs _ IH]; [auto|]. intros Hok. apply IH.
    assert (Hsh := step_share priv _ _ (clean_is_step _ _ Hs) (cl_share _ Hok)).
    destruct (clean_dirt a b Ha Hs Hok Hsh). split; assumption. }
  apply (G _ _ H). split; [apply new_share | apply Forall_nil_2 |]. intros i Hi. cbn.
  match goal with |- context [if ?b then _ else _] => destruct b end; reflexivity.
Qed.
End descriptor.
