(* ===== verification/AfrProps.v ===== *)
(** * Replication: what it promises

    Committed writes stay on a quorum of bricks and a heal that locks a quorum
    takes them from its source; a heal always has a defined source; a brick is
    marked dirty while it is written.  The last part has runs in which
    acknowledged writes or accusations are lost. *)

From S2P Require Import Prelude Words AfrHeal AfrTxn AfrFacts AfrDecide AfrSystem AfrKept AfrShare AfrClean.
Open Scope Z_scope.

(** The bricks that hold [w]. *)
Definition holders (priv : afr_private) (v : volume) (w : nat) : list bool :=
  tab (child_count priv) (fun i => bool_decide (w ∈ content (brick_at v i))).

(** ** Concrete volumes *)

Definition replica3 : afr_private := mk_priv 3 [] 0 AFR_QUORUM_AUTO AFR_FAV_CHILD_NONE.
Definition replica2 : afr_private := mk_priv 2 [] 0 0 AFR_FAV_CHILD_NONE.

Definition no_ctx : afr_fd_ctx := mk_fd_ctx 0 0 [false; false; false].
Definition size_4k : Z := 4096.
Definition all_4k (_ : nat) : Z := size_4k.
Definition wrote : Z * Z := (size_4k, 0).

(** A write with the bricks [locked], which all do it. *)
Definition plain_write (locked : list bool) : outcome :=
  mk_outcome locked no_ctx locked [] no_ctx size_4k [wrote; wrote; wrote] [] false false [] no_ctx.

Definition all3 : list bool := [true; true; true].
Definition first2 : list bool := [true; true; false].

(** Write 7 while the third brick is away. *)
Definition degraded : volume := volume_write replica3 (new_file replica3) (plain_write first2) 7 first2 first2 first2.

Definition stat_of (size : Z) : iatt := mk_iatt 1 0 0 420 size 10 0 10 0.
Definition reply_with (v : volume) (i : nat) (size : Z) : afr_reply :=
  mk_reply true 0 0 (Some (logs (brick_at v i))) (stat_of size).
Definition degraded_replies : list afr_reply :=
  [reply_with degraded 0 size_4k; reply_with degraded 1 size_4k; reply_with degraded 2 0].

(** ** Committed writes *)

Lemma held_holders priv v w X :
  held_by priv v w X ->
  (exists i, on (holders priv v w) i = true) /\ (quorum_count priv <> 0 -> afr_has_quorum priv (holders priv v w) = true).
Proof.
  intros ((i & Hi & HX) & Hq & Hc & _).
  assert (Hsub : forall g, (g < child_count priv)%nat -> on X g = true -> on (holders priv v w) g = true).
  { intros g Hg H. unfold holders. rewrite on_tab_lt by exact Hg. apply bool_decide_eq_true, Hc; assumption. }
  split; [exists i; apply Hsub; assumption|]. intros H. eapply quorum_mono; [exact Hsub | lia | apply Hq, H].
Qed.

(** C8: a write that was acknowledged and whose post-op reached its bricks stays
    on the file: after any sequence of writes, with bricks that fail and clients
    that die at any moment, and of heals, whole or cut short, some brick holds it,
    and with quorum enforced ([quorum_count] not 0) a quorum of bricks does.  The
    volume is [plain]: it has no arbiter and no policy for split brain.  Every heal is
    [inspected]: all the bricks that it has locked answer (see [silent_source]), with
    their changelogs and with a size that their writes are within, and some answer
    has a size that is not 0.  There are fewer than 2^31 steps, so that the counters
    do not wrap. *)
Theorem committed_writes_survive priv extent k v w :
  plain priv -> Z.of_nat k < 2 ^ 31 -> volume_after priv extent k v -> w ∈ committed v ->
  (exists i, on (holders priv v w) i = true) /\ (quorum_count priv <> 0 -> afr_has_quorum priv (holders priv v w) = true).
Proof.
  intros Hp Hk Ha Hw. destruct (ok_held _ _ _ (after_ok priv extent k v Hp Hk Ha) w Hw) as [X HX].
  eapply held_holders, HX.
Qed.

Lemma degraded_after : volume_after replica3 all_4k 1 degraded.
Proof.
  apply (After_S replica3 all_4k 0 (new_file replica3)); [apply After_0|]. apply Step_write.
  intros i _ H _. vm_compute in H |- *. destruct i as [|[|[|i]]]; [reflexivity | reflexivity | discriminate H | destruct i; discriminate H].
Qed.

Lemma committed_writes_survive_witness :
  (exists i, on (holders replica3 degraded 7) i = true) /\ (quorum_count replica3 <> 0 -> afr_has_quorum replica3 (holders replica3 degraded 7) = true).
Proof.
  apply (committed_writes_survive replica3 all_4k 1 degraded 7); [split; reflexivity | reflexivity | exact degraded_after |].
  vm_compute. left.
Defined.

(** C9: with automatic quorum and on a [plain] volume (no arbiter, no policy for split
    brain), a heal that locks a quorum of bricks and is [inspected] has a source that
    holds every committed write, and afterwards, with the sinks truncated to the size
    that the source answered, all the bricks it locked hold them.  [inspected] is: the
    locked bricks all answer, with their changelogs and a size that their writes are
    within, and not all sizes are 0.  When a locked brick does not answer this fails
    ([silent_source]). *)
Theorem heal_has_committed_writes priv extent k v locked replies r s w :
  plain priv -> quorum_count priv = AFR_QUORUM_AUTO -> Z.of_nat k + 1 < 2 ^ 31 -> volume_after priv extent k v ->
  inspected priv extent v locked replies -> afr_has_quorum priv locked = true ->
  __afr_selfheal_data priv locked replies None (whole priv locked) = Some r -> h_source r = Some s -> w ∈ committed v ->
  w ∈ content (brick_at v s)
  /\ forall i, (i < child_count priv)%nat -> on locked i = true -> w ∈ content (brick_at (volume_heal priv extent v r) i).
Proof.
  intros Hp Hq Hk Ha Hins Hql Hheal Hs Hw. assert (Hok := after_ok priv extent k v Hp ltac:(lia) Ha).
  destruct (ok_held _ _ _ Hok w Hw) as [X HX]. assert (HX' := HX). destruct HX' as ((i0 & Hi0 & _) & Hqx & Hc & _).
  destruct (heal_whole priv locked replies r Hp (proj2 (proj2 Hins)) Hheal)
    as [[Hs' _] | (s' & m & Hprep & Hs' & Hsz & Hcp & Hsent)]; [congruence|].
  assert (s' = s) as -> by congruence.
  destruct (quorum_meet priv X locked Hq ltac:(lia) (Hqx ltac:(rewrite Hq; discriminate)) Hql) as (x & Hx & HXx & Hl).
  destruct (holder_decides priv extent _ v w X locked replies s m false x Hp Hok HX Hins Hprep Hx HXx Hl) as (Hsn & HXs & _).
  split; [apply Hc; assumption|]. intros i Hi Hli.
  destruct (heal_holders priv extent (Z.of_nat k) v locked replies s m r Hp Hk Hok Hins Hprep Hs Hsz Hcp Hsent w X x HX Hx HXx Hl)
    as (_ & _ & Hc' & _).
  apply Hc'; [exact Hi|]. rewrite on_tab_lt, Hli, orb_true_r by exact Hi. reflexivity.
Qed.

Lemma degraded_inspected : inspected replica3 all_4k degraded all3 degraded_replies.
Proof.
  split; [|split].
  - intros i Hi _. cbn in Hi. destruct i as [|[|[|i]]]; [reflexivity.. | lia].
  - intros i Hi _. cbn in Hi. destruct i as [|[|[|i]]]; [..|lia]; (split; [reflexivity|]); intros w; vm_compute; [discriminate..|].
    intros []%not_elem_of_nil.
  - exists 0%nat. split; [cbn; lia | vm_compute; discriminate].
Qed.

Lemma heal_has_committed_writes_witness :
  exists r, __afr_selfheal_data replica3 all3 degraded_replies None (whole replica3 all3) = Some r
    /\ 7%nat ∈ content (brick_at degraded 0)
    /\ forall i, (i < 3)%nat -> on all3 i = true -> 7%nat ∈ content (brick_at (volume_heal replica3 all_4k degraded r) i).
Proof.
  destruct (__afr_selfheal_data replica3 all3 degraded_replies None (whole replica3 all3)) as [r|] eqn:E;
    [|vm_compute in E; discriminate].
  exists r. split; [reflexivity|].
  apply (heal_has_committed_writes replica3 all_4k 1 degraded all3 degraded_replies r 0 7);
    [split; reflexivity | reflexivity | reflexivity | exact degraded_after | exact degraded_inspected | reflexivity
    | exact E | | vm_compute; left].
  vm_compute in E. injection E as <-. reflexivity.
Defined.

(** ** The choice of a source *)

(** C16: a data heal whose locked bricks all answer, two at least, is decided without
    leaving the arrays: if some locked brick is not blamed by a brick that does not
    blame itself, there is a source, it is such a brick, and exactly the locked
    bricks that are not sources in the end are healed; otherwise the file is in split
    brain.  This is for a [plain] volume (no arbiter, no policy for split brain) and a
    file that is [not_empty], since an empty file takes brick 0 as its source whoever
    blames it ([afr_mark_source_sinks_if_file_empty]); sizes and times in the answers
    are not negative. *)
Theorem heal_source_is_blameless priv locked replies :
  plain priv -> not_empty priv replies -> stats_ok replies -> all_answered priv locked replies ->
  (AFR_SH_MIN_PARTICIPANTS <= afr_success_count replies (child_count priv))%nat ->
  let blameless i := (i < child_count priv)%nat /\ on locked i = true
    /\ ~ exists k, (k < child_count priv)%nat /\ blames (data_matrix priv replies) k i in
  (exists s m, __afr_selfheal_data_prepare priv locked replies None = Some (FZ_source s m false)
     /\ blameless s /\ on (m_sources m) s = true /\ (forall i, on (m_sources m) i = true -> blameless i)
     /\ forall i, on (m_healed m) i = true <->
          (i < child_count priv)%nat /\ on locked i = true /\ on (m_sources m) i = false)
  \/ ((forall i, ~ blameless i) /\ __afr_selfheal_data_prepare priv locked replies None = Some FZ_eio).
Proof.
  intros Hp He Hst Hans Hcount blameless.
  destruct (afr_selfheal_find_direction priv replies AFR_DATA_TRANSACTION locked) as [d|] eqn:Hd; cycle 1.
  { exfalso. unfold afr_selfheal_find_direction in Hd. destruct (afr_selfheal_extract_xattr _ _ _).
    destruct (Nat.ltb_spec (afr_success_count replies (child_count priv)) AFR_SH_MIN_PARTICIPANTS); [lia | discriminate]. }
  assert (Hsrc := proj1 (direction_spec priv _ _ _ Hd)).
  destruct (existsb (on (sources d)) (seq 0 (child_count priv))) eqn:E.
  - left. apply existsb_seq in E as (i0 & Hi0 & Hon).
    destruct (prepare_defined priv locked replies d i0 Hp Hst Hans Hd Hon) as (s & m & Hprep).
    destruct (prepare_source priv _ _ _ _ _ Hp He Hprep) as (d' & Hd' & Hs & Hms & Hsub & _ & Hheal & _).
    rewrite Hd in Hd'. injection Hd' as <-. exists s, m. split; [exact Hprep|]. split; [apply Hsrc, Hsub, Hms|].
    split; [exact Hms|]. split; [intros i Hi; apply Hsrc, Hsub, Hi|]. intros i. rewrite Hheal. unfold afr_mark_active_sinks.
    rewrite on_tab, !andb_true_iff, Nat.ltb_lt, negb_true_iff. tauto.
  - right. rewrite existsb_seq_false in E.
    assert (Hno : forall i, ~ blameless i).
    { intros i Hi. assert (H := proj2 (Hsrc i) Hi). rewrite (E i (proj1 Hi)) in H. discriminate. }
    split; [exact Hno|]. unfold __afr_selfheal_data_prepare. rewrite Hd. unfold __afr_selfheal_data_finalize_source.
    cbn [m_sources m_healed]. rewrite (proj2 (count_zero _ _) E), orb_true_r.
    assert (Hn := not_empty_unresolved priv
      (mk_marks (sources d) (sinks d) (AFR_INTERSECT (sinks d) locked (child_count priv))) locked replies Hp He).
    destruct (afr_mark_split_brain_source_sinks _ _ _ _ _ _) as [[[x|] m1] bp]; cbn in Hn; [discriminate | reflexivity].
Qed.

Lemma heal_source_is_blameless_witness :
  exists s m, __afr_selfheal_data_prepare replica3 all3 degraded_replies None = Some (FZ_source s m false)
    /\ on (m_healed m) 2 = true.
Proof.
  destruct (heal_source_is_blameless replica3 all3 degraded_replies) as [(s & m & H & _ & _ & _ & Hh) | [H _]].
  - split; reflexivity.
  - exists 0%nat. split; [cbn; lia | vm_compute; discriminate].
  - intros [|[|[|[|i]]]]; vm_compute; split; discriminate.
  - apply degraded_inspected.
  - vm_compute. lia.
  - exists s, m. split; [exact H|]. vm_compute in H. injection H as <- <-. reflexivity.
  - exfalso. apply (H 0%nat). split; [cbn; lia|]. split; [reflexivity|].
    intros ([|[|[|k]]] & Hk & Hb & _); [apply Hb; reflexivity.. | cbn in Hk; lia].
Defined.

(** ** Dirty marks *)

(** C15: whatever the writes on one descriptor are, and however their pre-ops,
    writes and post-ops interleave, every brick that a write in progress was sent
    to has a dirty mark, although writes inherit the marks of others.  This is for
    pre-ops that succeed on all the bricks they are sent to, and without compound
    operations; otherwise a mark may be missing ([unaccounted_pre_op],
    [compound_mark_missing]). *)
Theorem write_in_progress_is_marked priv f t i :
  rtc (descriptor_step priv) (new_descriptor priv) f -> (Ph_fop, t) ∈ txns f ->
  (i < child_count priv)%nat -> on (pre_op t) i = true -> 1 <= dirt f i.
Proof. intros H Hin Hi Hon. eapply share_marked; [apply reach_share, H | exact Hin | exact Hi | exact Hon]. Qed.

Definition down0 : list bool := [false; true].

Definition marked_run : descriptor :=
  mk_descriptor (mk_fd_ctx 1 0 down0) [(Ph_fop, set_dirtied (new_txn replica2 down0))]
    (add_dirt (alive replica2 (set_dirtied (new_txn replica2 down0))) (mk_xattrop (raw_at 0 1) [zeros; zeros]) (fun _ => 0)).

Lemma write_in_progress_is_marked_witness : 1 <= dirt marked_run 1.
Proof.
  apply (write_in_progress_is_marked replica2 marked_run (set_dirtied (new_txn replica2 down0)) 1);
    [| left | cbn; lia | reflexivity].
  eapply rtc_l; [apply (Fd_begin replica2 _ [] (fun _ => 0) down0); reflexivity|].
  eapply rtc_l; [apply (Fd_pre_done replica2 _ [] _ _ [] (fun _ => 0) []); reflexivity|].
  apply rtc_refl.
Defined.

(** C17: when the writes on a descriptor succeed on the bricks they were sent to, in
    any interleaving, with delayed post-ops or not, and whichever of them shared a
    mark, every mark is removed once they are done: no brick is left dirty.  There is
    no arbiter; pre-ops and syncs succeed on the bricks of the write, all of these
    write the same number of bytes, and a brick that is the only readable one is among
    them: without it the write is a split brain in the making and its post-op is left
    out ([split_brain_acknowledged]). *)
Theorem marks_removed_when_done priv f i :
  arbiter_count priv = 0%nat -> rtc (clean_step priv) (new_descriptor priv) f -> txns f = [] ->
  (i < child_count priv)%nat -> dirt f i = 0.
Proof.
  intros Ha H Hnil Hi. destruct (clean_reach priv f Ha H) as [[_ Hc _ _] _ Hd]. rewrite Hd, Hnil by exact Hi. cbn.
  rewrite Hnil in Hc. destruct (on_disk (ctx f)); [|discriminate Hc]. destruct (on (pre_op_done (ctx f)) i); reflexivity.
Qed.

(** Two writes, of which the second inherits the mark of the first. *)
Definition shared_run : descriptor :=
  mk_descriptor (mk_fd_ctx 0 0 [false; false]) []
    (add_dirt (alive replica2 (new_txn replica2 down0)) (mk_xattrop (raw_at 0 (-1)) [zeros; zeros])
       (add_dirt (alive replica2 (set_dirtied (new_txn replica2 down0))) (mk_xattrop (raw_at 0 1) [zeros; zeros]) (fun _ => 0))).

Lemma both_succeed t : alive replica2 t = down0 -> succeeds replica2 [wrote; wrote] size_4k down0 t.
Proof.
  intros E. split; [discriminate|]. rewrite E. split.
  - intros [|[|i]]; [discriminate | reflexivity | destruct i; discriminate].
  - intros _. exists 1%nat. split; [cbn; lia | split; reflexivity].
Qed.

Lemma marks_removed_when_done_witness : dirt shared_run 1 = 0.
Proof.
  apply (marks_removed_when_done replica2 shared_run 1); [reflexivity | | reflexivity | cbn; lia].
  eapply rtc_l; [eapply (Clean_begin replica2 _ [] (fun _ => 0) down0); reflexivity|].
  eapply rtc_l; [eapply (Clean_pre_done replica2 _ [] _ _ [] (fun _ => 0) []); reflexivity|].
  eapply rtc_l; [eapply (Clean_inherit replica2 _ [(Ph_fop, set_dirtied (new_txn replica2 down0))] _ down0 _ _ []); reflexivity|].
  eapply rtc_l; [eapply (Clean_post replica2 _ [] (set_dirtied (new_txn replica2 down0))
                          [(Ph_fop, set_inherited (new_txn replica2 down0))] _ [wrote; wrote] size_4k down0 false down0);
                   [apply both_succeed; reflexivity | intros [|[|i]]; [discriminate | reflexivity | destruct i; discriminate] | reflexivity]|].
  eapply rtc_l; [eapply (Clean_post_delayed replica2 _ [] (set_inherited (new_txn replica2 down0)) [] _ [wrote; wrote] size_4k down0);
                   [apply both_succeed; reflexivity | reflexivity]|].
  eapply rtc_l; [eapply (Clean_post_done replica2 _ [] _ _ [])|]. apply rtc_refl.
Defined.

(** ** What can be lost *)

(** Two writes on one descriptor while brick 0 is away.  The second inherits the
    mark of the first, whose post-op is then left out; the second fails on the
    bricks that are there with the same error, so that all bricks count as good
    and its post-op accuses none.  The first was acknowledged, only brick 1 has
    it, and no changelog shows it. *)
Definition ENOSPC : Z := 28.
Definition ctx_marked : afr_fd_ctx := mk_fd_ctx 1 0 down0.
Definition ctx_shared : afr_fd_ctx := mk_fd_ctx 1 1 down0.
Definition shared_first : outcome :=
  mk_outcome down0 no_ctx down0 [] no_ctx size_4k [wrote; wrote] [] true false [] ctx_shared.
Definition shared_second : outcome :=
  mk_outcome down0 ctx_marked down0 [] ctx_shared size_4k [(-1, ENOSPC); (-1, ENOSPC)] [] true false [] ctx_marked.
Definition shared_volume : volume :=
  volume_write replica2 (volume_write replica2 (new_file replica2) shared_first 1 down0 down0 down0)
    shared_second 2 down0 [false; false] down0.

Lemma shared_accusation_lost :
  (* the contexts are those of the code *)
  (afr_changelog_pre_op_update replica2 (Some no_ctx) (set_dirtied (new_txn replica2 down0))).1 = Some ctx_marked
  /\ afr_changelog_pre_op replica2 AFR_DATA_TRANSACTION true (Some ctx_marked) down0
     = Pre_next (Some ctx_shared) (set_inherited (new_txn replica2 down0))
  /\ (afr_changelog_pre_op_uninherit replica2 AFR_DATA_TRANSACTION (Some ctx_shared) (set_dirtied (new_txn replica2 down0))).1
     = (true, Some ctx_marked)
  (* and the first write is lost to the changelogs *)
  /\ s_ack (afr_writev replica2 shared_first) = true
  /\ holders replica2 shared_volume 1 = [false; true]
  /\ map (fun b => (map (fun j => acc (logs b) j) [0; 1]%nat, option_map (fun raw => changelog_value raw 0) (x_dirty (logs b))))
       (bricks shared_volume) = [([0; 0], None); ([0; 0], Some 0)].
Proof. vm_compute. repeat split. Qed.

(** The readable brick is away, so the write is found to be a split brain in the
    making and its post-op is left out; but nothing failed on the bricks that are
    there, and the application has been told of success. *)
Definition stale_write : outcome :=
  mk_outcome down0 no_ctx down0 [] no_ctx size_4k [wrote; wrote] [true; false] false false [] ctx_marked.

Lemma split_brain_acknowledged :
  s_ack (afr_writev replica2 stale_write) = true /\ s_post (afr_writev replica2 stale_write) = None.
Proof. vm_compute. split; reflexivity. Qed.

(** With compound operations the context is updated once for every brick: after
    one write it counts two marks, and when its post-op has removed the only one,
    the next write inherits a mark that is not there. *)
Definition both : list bool := [true; true].

Lemma compound_mark_missing :
  let p := afr_pre_op_writev_cbk replica2 1 false
             (afr_pre_op_writev_cbk replica2 0 false (Some no_ctx, set_dirtied (new_txn replica2 both))) in
  exists t x c, p = (Some (mk_fd_ctx 2 0 both), t)
    /\ afr_changelog_post_op_now replica2 AFR_DATA_TRANSACTION (Some (mk_fd_ctx 2 0 both)) (set_op_ret size_4k t)
       = (Some x, Some c, set_uninherit false (set_op_ret size_4k t))
    /\ dirty_of x = -1
    /\ match afr_changelog_pre_op replica2 AFR_DATA_TRANSACTION true (Some c) both with
       | Pre_next _ _ => True
       | _ => False
       end.
Proof. eexists _, _, _. split; [reflexivity|]. split; [reflexivity|]. vm_compute. split; [reflexivity | exact I]. Qed.

(** A write is in progress on both bricks with the only mark, and a second one has
    inherited it.  The pre-op of a third fails on brick 1; it is not counted, and
    yet takes the inherited share when it ends.  So the second write removes the
    mark, while the first goes on. *)
Definition third : transaction := fops_failed replica2 (Nat.eqb 1) (set_dirtied (new_txn replica2 both)).

Lemma unaccounted_pre_op :
  let c := mk_fd_ctx 1 1 both in
  afr_changelog_pre_op_update replica2 (Some c) third = (Some c, third)
  /\ (afr_changelog_pre_op_uninherit replica2 AFR_DATA_TRANSACTION (Some c) third).1 = (true, Some (mk_fd_ctx 1 0 both))
  /\ exists x t, afr_changelog_post_op_now replica2 AFR_DATA_TRANSACTION (Some (mk_fd_ctx 1 0 both))
         (set_op_ret size_4k (set_inherited (new_txn replica2 both))) = (Some x, Some (mk_fd_ctx 0 0 [false; false]), t)
     /\ dirty_of x = -1 /\ alive replica2 t = both.
Proof. split; [reflexivity|]. split; [reflexivity|]. eexists _, _. split; [reflexivity|]. split; reflexivity. Qed.

(** When the pre-op fails on every brick there are no answers to the write, which
    counts as the same error everywhere: the post-op takes a mark off bricks that
    have none. *)
Definition pre_op_fails : outcome :=
  mk_outcome both no_ctx [false; false] [] no_ctx size_4k [] [] false false [] no_ctx.

Lemma mark_below_zero :
  exists x, s_post (afr_writev replica2 pre_op_fails) = Some (both, x) /\ dirty_of x = -1
    /\ s_ack (afr_writev replica2 pre_op_fails) = false.
Proof. eexists. split; [reflexivity|]. vm_compute. split; reflexivity. Qed.

(** Write 9 is acknowledged by brick 1 alone, and the client dies before its
    post-op.  Brick 0 comes back with two marks that dead clients have left only
    there, is the bigger witness, and is taken as the source. *)
Definition leave_mark (v : volume) (w : nat) : volume :=
  volume_write replica2 v (plain_write both) w [true; false] [false; false] [false; false].
Definition acked_volume : volume :=
  volume_write replica2 (leave_mark (leave_mark (new_file replica2) 3) 4) (plain_write down0) 9 down0 down0 [false; false].
Definition acked_replies : list afr_reply := [reply_with acked_volume 0 size_4k; reply_with acked_volume 1 size_4k].

Lemma acknowledged_write_lost :
  s_ack (afr_writev replica2 (plain_write down0)) = true
  /\ holders replica2 acked_volume 9 = [false; true]
  /\ exists r, __afr_selfheal_data replica2 both acked_replies None (whole replica2 both) = Some r
     /\ holders replica2 (volume_heal replica2 all_4k acked_volume r) 9 = [false; false].
Proof. split; [reflexivity|]. split; [reflexivity|]. eexists. split; [vm_compute; reflexivity|]. vm_compute. reflexivity. Qed.

(** A brick that is locked but does not answer is a source as good as others: the
    sink is truncated to the size of the missing answer, does not get the write 7,
    and is declared good. *)
Definition silent_replies : list afr_reply :=
  [no_reply; reply_with degraded 1 size_4k; reply_with degraded 2 0].

Lemma silent_source :
  exists r, __afr_selfheal_data replica3 all3 silent_replies None (whole replica3 all3) = Some r
    /\ h_source r = Some 0%nat /\ h_size r = 0 /\ on (h_copied r) 2 = true
    /\ holders replica3 (volume_heal replica3 all_4k degraded r) 7 = [true; true; false]
    /\ acc (logs (brick_at (volume_heal replica3 all_4k degraded r) 1)) 2 = 0.
Proof. eexists. split; [vm_compute; reflexivity|]. vm_compute. repeat split. Qed.
