(* ===== verification/Shard.v ===== *)
(** * Sharding

    Models [xlators/features/shard/src/shard.c]: a file is cut into blocks of
    equal size; block 0 is the file itself, block [n] is the file
    [/.shard/<gfid>.<n>], and the size of the whole is an extended attribute of
    block 0.

    An object of the bricks is named by the gfid of the file and the number of
    the block.  The state has the objects and attributes on the bricks, and what
    the client remembers: the contexts of the files, the inode table below
    [/.shard] and the list of the shards that are in use.  A file operation is a
    function from the state to the new state and its answer: the handlers of the
    code, which it passes as function pointers, are called where the code calls
    them.  The answers of the child translator are given by an environment: each
    call may fail.  The callbacks of the calls to several shards come in the
    order of the blocks; another order changes only which of several errors is
    reported.

    Allocations that fail, the time stamps and the identity of the caller are
    not part of the model.  A table entry stands for the name and the inode that
    is linked at it. *)

From S2P Require Import Prelude Words Bytes.
From stdpp Require Import gmap.
Open Scope Z_scope.

Definition ENOENT : Z := 2.
Definition EIO : Z := 5.
Definition ENOMEM : Z := 12.
Definition EEXIST : Z := 17.
Definition EINVAL : Z := 22.
Definition ENOTSUP : Z := 95.
Definition FALLOC_FL_KEEP_SIZE : Z := 1.
Definition FALLOC_FL_PUNCH_HOLE : Z := 2.
Definition FALLOC_FL_ZERO_RANGE : Z := 16.
Definition SHARD_MAX_INODES : Z := 16384.

(** ** Contents of a file *)

(** pwrite, truncate, fallocate and pread on a regular file. *)
Definition pwrite (l : list Z) (off : Z) (d : list Z) : list Z :=
  if zlen d =? 0 then l else ztake off (pad l off) ++ d ++ zdrop (off + zlen d) l.
Definition ptruncate (l : list Z) (n : Z) : list Z := ztake n (pad l n).
Definition pzero (l : list Z) (off len : Z) : list Z := pwrite l off (zeros len).
Definition ppunch (l : list Z) (off len : Z) : list Z := ztake (zlen l) (pzero l off len).
Definition pallocate (l : list Z) (off len : Z) : list Z := pad l (off + len).
Definition pread (l : list Z) (off len : Z) : list Z := ztake len (zdrop off l).

(** [iov_subset] of common-utils.h, from the vector at [offset] on. *)
Fixpoint iov_subset (orig : list (list Z)) (offset src_offset dst_offset : Z) : list (list Z) :=
  match orig with
  | [] => []
  | v :: orig' =>
    let rest := iov_subset orig' (offset + zlen v) src_offset dst_offset in
    if (offset + zlen v <? src_offset) || (dst_offset <? offset) then rest else
    let start_offset := if offset <=? src_offset then src_offset - offset else 0 in
    let end_offset := if dst_offset <=? offset + zlen v then dst_offset - offset else zlen v in
    ztake (end_offset - start_offset) (zdrop start_offset v) :: rest
  end.

(** ** State *)

Abbreviation obj := (Z * Z)%type.

Record iatt := mk_iatt { ia_size : Z; ia_blocks : Z }.

(** What is used of [shard_inode_ctx_t] for a file, and for a shard in the list
    of those in use, with the inode it belongs to. *)
Record shard_inode_ctx := mk_ctx { block_size : Z; stat : iatt; refresh : bool }.
Record ientry := mk_entry { e_inode : obj; base_gfid : Z; block_num : Z }.

(** The attributes of a sharded file: the size of its blocks, and the four
    numbers of the attribute of its size. *)
Record xattr := mk_xattr { x_block_size : Z; x_size : list Z }.

(** The inode table, [priv->ilist_head] and [priv->inode_count]. *)
Record cache := mk_cache { itable : gmap obj obj; ilist : list ientry; inode_count : Z }.

(** [dot_shard] says whether /.shard is a directory, if it exists. *)
Record state := mk_state {
  objs : gmap obj (list Z);
  xattrs : gmap Z xattr;
  dot_shard : option bool;
  dot_linked : bool;
  dot_refreshed : bool;
  ctxs : gmap Z shard_inode_ctx;
  cached : cache
}.

Definition set_objs v s := mk_state v (xattrs s) (dot_shard s) (dot_linked s) (dot_refreshed s) (ctxs s) (cached s).
Definition set_xattrs v s := mk_state (objs s) v (dot_shard s) (dot_linked s) (dot_refreshed s) (ctxs s) (cached s).
Definition set_dot_shard v s := mk_state (objs s) (xattrs s) v (dot_linked s) (dot_refreshed s) (ctxs s) (cached s).
Definition set_linked v s := mk_state (objs s) (xattrs s) (dot_shard s) v (dot_refreshed s) (ctxs s) (cached s).
Definition set_refreshed v s := mk_state (objs s) (xattrs s) (dot_shard s) (dot_linked s) v (ctxs s) (cached s).
Definition set_ctxs v s := mk_state (objs s) (xattrs s) (dot_shard s) (dot_linked s) (dot_refreshed s) v (cached s).
Definition set_cached v s := mk_state (objs s) (xattrs s) (dot_shard s) (dot_linked s) (dot_refreshed s) (ctxs s) v.

(** What is used of [shard_local_t] while the shards of a range are found. *)
Record local := mk_local {
  op_ret : Z;
  op_errno : Z;
  first_block : Z;
  last_block : Z;
  num_blocks : Z;
  call_count : Z;
  create_count : Z;
  eexist_count : Z;
  inode_list : list (option obj)
}.

Definition set_op ret errno l := mk_local ret errno (first_block l) (last_block l) (num_blocks l)
  (call_count l) (create_count l) (eexist_count l) (inode_list l).
Definition set_call_count v l := mk_local (op_ret l) (op_errno l) (first_block l) (last_block l) (num_blocks l)
  v (create_count l) (eexist_count l) (inode_list l).
Definition set_create_count v l := mk_local (op_ret l) (op_errno l) (first_block l) (last_block l) (num_blocks l)
  (call_count l) v (eexist_count l) (inode_list l).
Definition set_eexist_count v l := mk_local (op_ret l) (op_errno l) (first_block l) (last_block l) (num_blocks l)
  (call_count l) (create_count l) v (inode_list l).
Definition set_inode (block : Z) (o : obj) l := mk_local (op_ret l) (op_errno l) (first_block l) (last_block l) (num_blocks l)
  (call_count l) (create_count l) (eexist_count l) (<[Z.to_nat (block - first_block l) := Some o]> (inode_list l)).

Inductive shard_fop :=
| GF_FOP_WRITE | GF_FOP_FALLOCATE | GF_FOP_ZEROFILL | GF_FOP_DISCARD | GF_FOP_READ
| GF_FOP_TRUNCATE | GF_FOP_FTRUNCATE | GF_FOP_UNLINK | GF_FOP_RENAME.

#[global] Instance shard_fop_eq_dec : EqDecision shard_fop.
Proof. solve_decision. Defined.

(** The answer of an operation: the unwind, with the attributes before and after
    and the data read; no unwind at all; or undefined behaviour. *)
Inductive reply :=
| Unwind (ret errno : Z) (pre post : option iatt) (data : list Z)
| Never
| Undefined.

Definition failed (l : local) : reply := Unwind (op_ret l) (op_errno l) None None [].

(** ** The child translator *)

Inductive call :=
| C_lookup_base (g : Z) | C_mkdir | C_lookup_dot | C_lookup (o : obj) | C_lookup_again (o : obj)
| C_mknod (o : obj) | C_write (o : obj) | C_read (o : obj) | C_truncate (o : obj) | C_unlink (o : obj)
| C_xattrop (g : Z) | C_stat (g : Z) | C_create (g : Z) | C_rename.

Inductive answer := A_ok | A_short (n : Z) | A_err (errno : Z).

(** How the child answers: the outcome of a call, the change of [ia_blocks] it
    reports, the vectors the data of a read come in, and the link count that is
    asked for on unlink and rename. *)
Record env := mk_env {
  ans : call -> answer;
  blocks : call -> Z;
  vectors : call -> list Z -> list (list Z);
  link_count : option Z
}.

Definition fault (e : env) (c : call) : option Z := match ans e c with A_err x => Some x | _ => None end.

Definition contents (s : state) (o : obj) : list Z := default [] (objs s !! o).
Definition put (o : obj) (d : list Z) (s : state) : state := set_objs (<[o := d]> (objs s)) s.

Definition child_lookup (e : env) (c : call) (s : state) (o : obj) : option Z :=
  match fault e c, objs s !! o with
  | Some x, _ => Some x
  | None, Some _ => None
  | None, None => Some ENOENT
  end.

Definition child_lookup_dot (e : env) (s : state) : option Z :=
  match fault e C_lookup_dot, dot_shard s with
  | Some x, _ => Some x
  | None, Some _ => None
  | None, None => Some ENOENT
  end.

Definition child_mknod (e : env) (s : state) (o : obj) : state * option Z :=
  match fault e (C_mknod o), objs s !! o with
  | Some x, _ => (s, Some x)
  | None, Some _ => (s, Some EEXIST)
  | None, None => (put o [] s, None)
  end.

Definition child_truncate (e : env) (s : state) (o : obj) (n : Z) : state * option Z :=
  match fault e (C_truncate o), objs s !! o with
  | Some x, _ => (s, Some x)
  | None, Some d => (put o (ptruncate d n) s, None)
  | None, None => (s, Some ENOENT)
  end.

Definition child_unlink (e : env) (s : state) (o : obj) : state * option Z :=
  match fault e (C_unlink o), objs s !! o with
  | Some x, _ => (s, Some x)
  | None, Some _ => (set_objs (delete o (objs s)) s, None)
  | None, None => (s, Some ENOENT)
  end.

(** GF_XATTROP_ADD_ARRAY64: the new value, or an error. *)
Definition add_array64 (a b : list Z) : list Z := zip_with (fun x y => u64 (x + y)) a b.

Definition child_xattrop (e : env) (s : state) (g : Z) (attr : list Z) : state * (Z + list Z) :=
  match fault e (C_xattrop g), xattrs s !! g with
  | Some x, _ => (s, inl x)
  | None, Some x =>
    let new := add_array64 (x_size x) attr in
    (set_xattrs (<[g := mk_xattr (x_block_size x) new]> (xattrs s)) s, inr new)
  | None, None => (s, inl ENOENT)
  end.

(** ** Contexts and attributes *)

(** [__shard_inode_ctx_set] with the size and the block count, [refresh] reset
    if [reset]; the context is made if there is none. *)
Definition shard_inode_ctx_set (s : state) (g : Z) (st : iatt) (reset : bool) : state :=
  let c := default (mk_ctx 0 (mk_iatt 0 0) false) (ctxs s !! g) in
  set_ctxs (<[g := mk_ctx (block_size c) st (if reset then false else refresh c)]> (ctxs s)) s.

Definition shard_inode_ctx_get_block_size (s : state) (g : Z) : option Z := block_size <$> ctxs s !! g.

Definition shard_inode_ctx_invalidate (s : state) (g : Z) (st : iatt) : state :=
  let c := default (mk_ctx 0 (mk_iatt 0 0) false) (ctxs s !! g) in
  let differs := negb (ia_size st =? ia_size (stat c)) || negb (ia_blocks st =? ia_blocks (stat c)) in
  set_ctxs (<[g := mk_ctx (block_size c) (stat c) (differs || refresh c)]> (ctxs s)) s.

Definition shard_inode_ctx_fill_iatt_from_cache (s : state) (g : Z) : option iatt :=
  match ctxs s !! g with
  | Some c => if refresh c then None else Some (stat c)
  | None => None
  end.

Definition shard_set_size_attrs (size block_count : Z) : list Z := [u64 size; 0; u64 block_count; 0].

Definition shard_modify_size_and_block_count (attr : list Z) : iatt := mk_iatt (nth 0 attr 0) (nth 2 attr 0).

(** The attributes of the whole file as the bricks have them. *)
Definition xattr_iatt (s : state) (g : Z) : option iatt :=
  (fun x => shard_modify_size_and_block_count (x_size x)) <$> xattrs s !! g.

(** [shard_update_file_size] and its callback: the attributes after, or the
    error. *)
Definition shard_update_file_size (e : env) (s : state) (g : Z) (delta_size hole_size delta_blocks : Z)
    (postbuf : iatt) : state * (Z + iatt) :=
  if (u64 (delta_size + hole_size) =? 0) && (delta_blocks =? 0) then (s, inr postbuf) else
  let '(s, r) := child_xattrop e s g (shard_set_size_attrs (delta_size + hole_size) delta_blocks) in
  match r with
  | inl x => (s, inl x)
  | inr attr => (s, inr (shard_modify_size_and_block_count attr))
  end.

(** [shard_lookup_base_file] and its callback: [local->prebuf], or the error. *)
Definition shard_lookup_base_file (e : env) (s : state) (g : Z) : state * (Z + iatt) :=
  match shard_inode_ctx_fill_iatt_from_cache s g with
  | Some st => (s, inr st)
  | None =>
    match child_lookup e (C_lookup_base g) s (g, 0) with
    | Some x => (s, inl x)
    | None =>
      match xattr_iatt s g with
      | None => (s, inl EINVAL)
      | Some st => (shard_inode_ctx_set s g st true, inr st)
      end
    end
  end.

(** ** The shards in use *)

Definition in_ilist (c : cache) (o : obj) : bool := existsb (fun x => bool_decide (e_inode x = o)) (ilist c).
Definition list_del (c : cache) (o : obj) : list ientry := List.filter (fun x => negb (bool_decide (e_inode x = o))) (ilist c).

(** [inode_unlink]: the name goes if it is a name of this inode. *)
Definition inode_unlink (t : gmap obj obj) (o name : obj) : gmap obj obj :=
  if decide (t !! name = Some o) then delete name t else t.

Definition __shard_update_shards_inode_list (c : cache) (linked_inode : obj) (base block : Z) : cache :=
  if in_ilist c linked_inode then
    let mine := List.filter (fun x => bool_decide (e_inode x = linked_inode)) (ilist c) in
    mk_cache (itable c) (list_del c linked_inode ++ mine) (inode_count c)
  else
    let new := mk_entry linked_inode base block in
    if inode_count c + 1 <=? SHARD_MAX_INODES then
      mk_cache (itable c) (ilist c ++ [new]) (inode_count c + 1)
    else
      match ilist c with
      | lru :: rest =>
        mk_cache (inode_unlink (itable c) (e_inode lru) (base_gfid lru, block_num lru)) (rest ++ [new]) (inode_count c)
      | [] => mk_cache (itable c) [new] (inode_count c)
      end.

(** [loc_gfid] is that of [local->loc.inode]. *)
Definition shard_link_block_inode (s : state) (l : local) (loc_gfid block : Z) (inode : obj) : state * local :=
  let c := cached s in
  let c := mk_cache (<[(loc_gfid, block) := inode]> (itable c)) (ilist c) (inode_count c) in
  (set_cached (__shard_update_shards_inode_list c inode loc_gfid block) s, set_inode block inode l).

Definition shard_unlink_block_inode (s : state) (l : local) (loc_gfid block : Z) : state :=
  match nth (Z.to_nat (block - first_block l)) (inode_list l) None with
  | None => s
  | Some inode =>
    let c := cached s in
    let t := inode_unlink (itable c) inode (loc_gfid, block) in
    set_cached (if in_ilist c inode then mk_cache t (list_del c inode) (inode_count c - 1)
                else mk_cache t (ilist c) (inode_count c)) s
  end.

(** [shard_forget], after the table has dropped the inode with its names. *)
Definition shard_forget (s : state) (inode : obj) : state :=
  let c := cached s in
  let t := filter (fun kv => kv.2 <> inode) (itable c) in
  set_cached (if in_ilist c inode then mk_cache t (list_del c inode) (inode_count c - 1)
              else mk_cache t (ilist c) (inode_count c)) s.

(** ** Finding the shards of a range *)

Definition get_lowest_block (off shard_size : Z) : Z := u64 off / shard_size.
Definition get_highest_block (off len shard_size : Z) : Z :=
  (if u64 (off + len) =? 0 then 0 else u64 (off + len - 1)) / shard_size.

(** The blocks of a loop from [first] up while [cur <= last], for [cur] of type
    int and of type uint32_t. *)
Definition loop_int (first last : Z) : list Z := seqZ first (last - first + 1).
Definition loop_uint32 (first last : Z) : list Z := if u32 first <=? u32 last then seqZ first (last - first + 1) else [].

(** A fresh [local] with its range of blocks; no memory for a negative number. *)
Definition set_range (lowest highest : Z) : option local :=
  let first := s32 lowest in
  let last := s32 highest in
  let num := s32 (last - first + 1) in
  if num <? 0 then None else Some (mk_local 0 0 first last num 0 0 0 (replicate (Z.to_nat num) None)).

Definition resolve_step (gfid : Z) (sl : state * local) (idx : Z) : state * local :=
  let '(s, l) := sl in
  if idx =? 0 then (s, set_inode idx (gfid, 0) l) else
  match itable (cached s) !! (gfid, idx) with
  | Some inode => (set_cached (__shard_update_shards_inode_list (cached s) inode gfid (idx + 1)) s, set_inode idx inode l)
  | None => (s, set_call_count (call_count l + 1) l)
  end.

(** [gfid] is that of [local->resolver_base_inode]. *)
Definition shard_common_resolve_shards (gfid : Z) (s : state) (l : local) : state * local :=
  if op_ret l <? 0 then (s, l) else
  foldl (resolve_step gfid) (s, l) (loop_uint32 (first_block l) (last_block l)).

Definition shard_link_dot_shard_inode (s : state) : state := set_linked true s.

Definition shard_refresh_dot_shard (e : env) (gfid : Z) (s : state) (l : local) : state * local :=
  if dot_refreshed s then shard_common_resolve_shards gfid s (set_op 0 (op_errno l) l) else
  match child_lookup_dot e s with
  | Some x => shard_common_resolve_shards gfid s (set_op (-1) x l)
  | None => shard_common_resolve_shards gfid (set_refreshed true (shard_link_dot_shard_inode s)) l
  end.

Definition shard_lookup_dot_shard (e : env) (gfid : Z) (s : state) (l : local) : state * local :=
  match child_lookup_dot e s, dot_shard s with
  | Some x, _ => (s, set_op (-1) x l)
  | None, Some true => shard_common_resolve_shards gfid (set_refreshed true (shard_link_dot_shard_inode s)) l
  | None, _ => (s, set_op (-1) EIO l)
  end.

Definition shard_mkdir_dot_shard (e : env) (gfid : Z) (s : state) (l : local) : state * local :=
  match fault e C_mkdir, dot_shard s with
  | Some x, _ =>
    if x =? EEXIST then shard_lookup_dot_shard e gfid s l
    else shard_common_resolve_shards gfid s (set_op (-1) x l)
  | None, Some _ => shard_lookup_dot_shard e gfid s l
  | None, None =>
    let s := set_refreshed true (shard_link_dot_shard_inode (set_dot_shard (Some true) s)) in
    shard_common_resolve_shards gfid s l
  end.

(** Those of the range that are not found yet. *)
Definition missing (l : local) : list Z :=
  List.filter (fun idx => bool_decide (nth (Z.to_nat (idx - first_block l)) (inode_list l) None = None))
    (loop_int (first_block l) (last_block l)).

(** One wind of [shard_common_lookup_shards] and [shard_common_lookup_shards_cbk];
    [again] is [local->first_lookup_done]. *)
Definition shard_common_lookup_shards_cbk (fop : shard_fop) (again : bool) (loc_gfid : Z) (inode : obj)
    (r : option Z) (s : state) (l : local) (idx : Z) : state * local :=
  match r with
  | None => shard_link_block_inode s l loc_gfid idx inode
  | Some x =>
    match fop with
    | GF_FOP_TRUNCATE | GF_FOP_FTRUNCATE | GF_FOP_RENAME | GF_FOP_UNLINK =>
      if x =? ENOENT then (s, l) else (s, set_op (-1) x l)
    | _ =>
      if negb again && (x =? ENOENT) then (s, set_create_count (create_count l + 1) l)
      else (s, set_op (-1) x l)
    end
  end.

Definition lookup_step (e : env) (fop : shard_fop) (again : bool) (gfid loc_gfid : Z) (sl : state * local) (idx : Z)
    : state * local :=
  let '(s, l) := sl in
  let o := (gfid, idx) in
  let r := child_lookup e (if again then C_lookup_again o else C_lookup o) s o in
  shard_common_lookup_shards_cbk fop again loc_gfid o r s l idx.

Definition shard_common_lookup_shards (e : env) (fop : shard_fop) (again : bool) (gfid loc_gfid : Z)
    (s : state) (l : local) : state * local :=
  foldl (lookup_step e fop again gfid loc_gfid) (s, l) (missing l).

(** One wind of [shard_common_resume_mknod] and [shard_common_mknod_cbk]. *)
Definition mknod_step (e : env) (gfid : Z) (sl : state * local) (idx : Z) : state * local :=
  let '(s, l) := sl in
  let '(s, r) := child_mknod e s (gfid, idx) in
  match r with
  | None => shard_link_block_inode s l gfid idx (gfid, idx)
  | Some x =>
    if x =? EEXIST then (s, set_eexist_count (eexist_count l + 1) l) else (s, set_op (-1) x l)
  end.

Definition shard_common_resume_mknod (e : env) (gfid : Z) (s : state) (l : local) : state * local :=
  let '(s, l) := foldl (mknod_step e gfid) (s, l) (missing l) in
  (s, set_create_count 0 l).

(** ** Writing: writev, fallocate, zerofill and discard *)

(** The arguments: [append_flag] is O_APPEND in the flags of the call and
    [append_fd] in those of the fd; [keep_size] the mode of fallocate; [gsyncd]
    whether the caller is the geo-replication daemon. *)
Record write_req := mk_write {
  w_fop : shard_fop;
  w_gfid : Z;
  w_bs : Z;
  w_offset : Z;
  w_size : Z;
  w_vector : list (list Z);
  keep_size : Z;
  append_flag : bool;
  append_fd : bool
}.

Definition set_offset v r :=
  mk_write (w_fop r) (w_gfid r) (w_bs r) v (w_size r) (w_vector r) (keep_size r) (append_flag r) (append_fd r).

Definition shard_is_appending_write (r : write_req) : bool :=
  bool_decide (w_fop r = GF_FOP_WRITE) && (append_flag r || append_fd r).

(** A call of [shard_common_inode_write_wind]: block, offset in it, size, and
    offset in the vectors. *)
Record piece := mk_piece { p_block : Z; p_offset : Z; p_size : Z; p_vec : Z }.

(** The loop of [shard_common_inode_write_do] over its blocks. *)
Fixpoint cut_pieces (bs : Z) (bl : list Z) (orig_offset remaining_size vec_offset : Z) : list piece :=
  match bl with
  | [] => []
  | cur :: bl' =>
    let shard_offset := u64 orig_offset mod bs in
    let room := bs - shard_offset in
    let size := if remaining_size <? room then remaining_size else room in
    mk_piece cur shard_offset size vec_offset
      :: cut_pieces bs bl' (orig_offset + size) (remaining_size - size) (vec_offset + size)
  end.

(** What the child does to the object: a write through an fd that is opened with
    O_APPEND goes to its end. *)
Definition child_store (r : write_req) (p : piece) (short : option Z) (old : list Z) : list Z :=
  match w_fop r with
  | GF_FOP_WRITE =>
    let d := concat (iov_subset (w_vector r) 0 (p_vec p) (p_vec p + p_size p)) in
    let d := match short with Some n => ztake n d | None => d end in
    pwrite old (if append_fd r && (p_block p =? 0) then zlen old else p_offset p) d
  | GF_FOP_FALLOCATE =>
    if keep_size r =? 0 then pallocate old (p_offset p) (p_size p)
    else if keep_size r =? FALLOC_FL_ZERO_RANGE then pzero old (p_offset p) (p_size p)
    else ppunch old (p_offset p) (p_size p)
  | GF_FOP_ZEROFILL => pzero old (p_offset p) (p_size p)
  | _ => ppunch old (p_offset p) (p_size p)
  end.

Definition child_write (e : env) (s : state) (o : obj) (r : write_req) (p : piece) : state * (Z + Z) :=
  match ans e (C_write o), objs s !! o with
  | A_err x, _ => (s, inl x)
  | _, None => (s, inl ENOENT)
  | a, Some old =>
    let short := match a with A_short n => Some n | _ => None end in
    (put o (child_store r p short old) s,
     inr (if decide (w_fop r = GF_FOP_WRITE) then default (p_size p) short else 0))
  end.

(** [local->op_ret], [op_errno], [written_size] and [delta_blocks] while the
    callbacks come in. *)
Record sums := mk_sums { t_ret : Z; t_errno : Z; written_size : Z; delta_blocks : Z }.

Definition shard_common_inode_write_do_cbk (r : Z + Z) (dblocks : Z) (t : sums) : sums :=
  match r with
  | inl x => mk_sums (-1) x (written_size t) (delta_blocks t)
  | inr n => mk_sums (t_ret t) (t_errno t) (u64 (written_size t + n)) (s32 (delta_blocks t + dblocks))
  end.

(** The object a piece goes to: the file of the fd for block 0, else the inode
    found; an anonymous fd on no inode is undefined behaviour. *)
Definition piece_obj (l : local) (gfid block : Z) : option obj :=
  if block =? 0 then Some (gfid, 0) else nth (Z.to_nat (block - first_block l)) (inode_list l) None.

Definition write_step (e : env) (r : write_req) (l : local) (acc : option (state * sums)) (p : piece)
    : option (state * sums) :=
  '(s, t) ← acc;
  o ← piece_obj l (w_gfid r) (p_block p);
  let '(s, res) := child_write e s o r p in
  Some (s, shard_common_inode_write_do_cbk res (blocks e (C_write o)) t).

(** [__shard_get_delta_size_from_inode_ctx]: the growth; the context and
    [local->postbuf] have the new size. *)
Definition shard_get_delta_size_from_inode_ctx (s : state) (r : write_req) : state * Z * iatt :=
  match ctxs s !! w_gfid r with
  | None => (s, 0, mk_iatt 0 0)
  | Some c =>
    let size := ia_size (stat c) in
    let delta := if shard_is_appending_write r then w_size r
                 else if size <? u64 (w_offset r + w_size r) then u64 (w_offset r + w_size r) - size else 0 in
    let st := mk_iatt (u64 (size + delta)) (ia_blocks (stat c)) in
    (set_ctxs (<[w_gfid r := mk_ctx (block_size c) st (refresh c)]> (ctxs s)) s, delta, st)
  end.

(** The end of [shard_common_inode_write_do_cbk], and
    [shard_common_inode_write_post_update_size_handler]. *)
Definition write_done (e : env) (r : write_req) (prebuf : iatt) (s : state) (t : sums) : state * reply :=
  if t_ret t <? 0 then (s, Unwind (t_ret t) (t_errno t) None None []) else
  let '(s, delta, postbuf) := shard_get_delta_size_from_inode_ctx s r in
  let '(s, u) := shard_update_file_size e s (w_gfid r) delta 0 (delta_blocks t) postbuf in
  match u with
  | inl x => (s, Unwind (-1) x None None [])
  | inr postbuf => (s, Unwind (s32 (written_size t)) 0 (Some prebuf) (Some postbuf) [])
  end.

(** [local->flags] after the calls: a call to another block than block 0 sets them to
    those of an anonymous fd, which have no O_APPEND. *)
Definition flags_after (r : write_req) (ps : list piece) : write_req :=
  if bool_decide (w_fop r = GF_FOP_WRITE) && existsb (fun p => negb (p_block p =? 0)) ps
  then mk_write (w_fop r) (w_gfid r) (w_bs r) (w_offset r) (w_size r) (w_vector r) (keep_size r) false (append_fd r)
  else r.

(** The last of [num_blocks] callbacks ends the operation. *)
Definition shard_common_inode_write_do (e : env) (r : write_req) (prebuf : iatt) (s : state) (l : local) : state * reply :=
  let ps := cut_pieces (w_bs r) (loop_uint32 (first_block l) (last_block l)) (w_offset r) (w_size r) 0 in
  match foldl (write_step e r l) (Some (s, mk_sums (op_ret l) (op_errno l) 0 0)) ps with
  | None => (s, Undefined)
  | Some (s, t) => if (num_blocks l =? 0) || negb (zlen ps =? num_blocks l) then (s, Never)
    else write_done e (flags_after r ps) prebuf s t
  end.

Definition shard_common_inode_write_post_mknod_handler (e : env) (r : write_req) (prebuf : iatt) (s : state) (l : local)
    : state * reply :=
  if op_ret l <? 0 then (s, failed l)
  else if eexist_count l =? 0 then shard_common_inode_write_do e r prebuf s l
  else
    let '(s, l) := shard_common_lookup_shards e (w_fop r) true (w_gfid r) (w_gfid r) s l in
    if op_ret l <? 0 then (s, failed l) else shard_common_inode_write_do e r prebuf s l.

Definition shard_common_inode_write_post_lookup_shards_handler (e : env) (r : write_req) (prebuf : iatt)
    (s : state) (l : local) : state * reply :=
  if op_ret l <? 0 then (s, failed l)
  else if create_count l =? 0 then shard_common_inode_write_do e r prebuf s l
  else
    let '(s, l) := shard_common_resume_mknod e (w_gfid r) s l in
    shard_common_inode_write_post_mknod_handler e r prebuf s l.

Definition shard_common_inode_write_post_resolve_handler (e : env) (r : write_req) (prebuf : iatt)
    (s : state) (l : local) : state * reply :=
  if op_ret l <? 0 then (s, failed l)
  else if call_count l =? 0 then shard_common_inode_write_do e r prebuf s l
  else
    let '(s, l) := shard_common_lookup_shards e (w_fop r) false (w_gfid r) (w_gfid r) s l in
    shard_common_inode_write_post_lookup_shards_handler e r prebuf s l.

Definition shard_common_inode_write_post_lookup_handler (e : env) (r : write_req) (s : state) (prebuf : iatt)
    : state * reply :=
  let r := if shard_is_appending_write r then set_offset (ia_size prebuf) r else r in
  match set_range (get_lowest_block (w_offset r) (w_bs r)) (get_highest_block (w_offset r) (w_size r) (w_bs r)) with
  | None => (s, Unwind (-1) ENOMEM None None [])
  | Some l =>
    let '(s, l) := if dot_linked s then shard_refresh_dot_shard e (w_gfid r) s l
                   else shard_mkdir_dot_shard e (w_gfid r) s l in
    shard_common_inode_write_post_resolve_handler e r prebuf s l
  end.

(** A file that is not sharded, and every file for gsyncd, is written as the
    child has it. *)
Definition pass_write (e : env) (r : write_req) (s : state) : state * reply :=
  let p := mk_piece 0 (w_offset r) (w_size r) 0 in
  let '(s, res) := child_write e s (w_gfid r, 0) r p in
  (s, match res with inl x => Unwind (-1) x None None [] | inr n => Unwind n 0 None None [] end).

Definition shard_common_inode_write_begin (e : env) (gsyncd : bool) (fop : shard_fop) (g : Z) (vector : list (list Z))
    (offset keep len : Z) (aflag afd : bool) (s : state) : state * reply :=
  match shard_inode_ctx_get_block_size s g with
  | None => (s, Unwind (-1) ENOMEM None None [])
  | Some bs =>
    let size := if decide (fop = GF_FOP_WRITE) then zlen (concat vector) else len in
    let r := mk_write fop g bs offset size vector keep aflag afd in
    if (bs =? 0) || gsyncd then pass_write e r s else
    let '(s, b) := shard_lookup_base_file e s g in
    match b with
    | inl x => (s, Unwind (-1) x None None [])
    | inr prebuf => shard_common_inode_write_post_lookup_handler e r s prebuf
    end
  end.

Definition shard_writev (e : env) (gsyncd : bool) (g : Z) (vector : list (list Z)) (offset : Z) (aflag afd : bool)
    (s : state) : state * reply :=
  shard_common_inode_write_begin e gsyncd GF_FOP_WRITE g vector offset 0 0 aflag afd s.

Definition shard_fallocate (e : env) (gsyncd : bool) (g keep offset len : Z) (s : state) : state * reply :=
  if negb (keep =? 0) && negb (keep =? FALLOC_FL_ZERO_RANGE)
     && negb (keep =? Z.lor FALLOC_FL_KEEP_SIZE FALLOC_FL_PUNCH_HOLE)
  then (s, Unwind (-1) ENOTSUP None None [])
  else shard_common_inode_write_begin e gsyncd GF_FOP_FALLOCATE g [] offset keep len false false s.

Definition shard_zerofill (e : env) (gsyncd : bool) (g offset len : Z) (s : state) : state * reply :=
  shard_common_inode_write_begin e gsyncd GF_FOP_ZEROFILL g [] offset 0 len false false s.

Definition shard_discard (e : env) (gsyncd : bool) (g offset len : Z) (s : state) : state * reply :=
  shard_common_inode_write_begin e gsyncd GF_FOP_DISCARD g [] offset 0 len false false s.

(** ** Reading *)

(** memcpy to [address] in the buffer of the answer. *)
Definition memcpy (buf : list Z) (address : Z) (d : list Z) : option (list Z) :=
  if (0 <=? address) && (address + zlen d <=? zlen buf) then Some (pwrite buf address d) else None.

(** The loop of [shard_readv_do_cbk] over the vectors. *)
Fixpoint copy_vectors (buf : list Z) (address off : Z) (vs : list (list Z)) : option (list Z) :=
  match vs with
  | [] => Some buf
  | v :: vs' =>
    let address := address + off in
    buf ← memcpy buf address v;
    copy_vectors buf address (off + zlen v) vs'
  end.

Definition read_address (bs offset first block : Z) : Z :=
  if block =? first then 0 else (bs - u64 offset mod bs) + (block - first - 1) * bs.

Definition child_read (e : env) (s : state) (o : obj) (off size : Z) : Z + list (list Z) :=
  match fault e (C_read o), objs s !! o with
  | Some x, _ => inl x
  | None, Some d => inr (vectors e (C_read o) (pread d off size))
  | None, None => inl ENOENT
  end.

(** [local->op_ret], [op_errno] and the buffer. *)
Record gather := mk_gather { g_ret : Z; g_errno : Z; g_buf : list Z }.

Definition shard_readv_do_cbk (bs offset first block : Z) (r : Z + list (list Z)) (t : gather) : option gather :=
  if g_ret t <? 0 then Some t else
  match r with
  | inl x => Some (mk_gather (-1) x (g_buf t))
  | inr vs =>
    buf ← copy_vectors (g_buf t) (read_address bs offset first block) 0 vs;
    Some (mk_gather (g_ret t + zlen (concat vs)) (g_errno t) buf)
  end.

Definition read_step (e : env) (s : state) (l : local) (g bs offset : Z) (acc : option gather) (p : piece) : option gather :=
  t ← acc;
  o ← piece_obj l g (p_block p);
  shard_readv_do_cbk bs offset (first_block l) (p_block p) (child_read e s o (p_offset p) (p_size p)) t.

Definition shard_readv_do (e : env) (g bs offset total_size : Z) (prebuf : iatt) (s : state) (l : local) : state * reply :=
  let ps := cut_pieces bs (loop_int (first_block l) (last_block l)) offset total_size 0 in
  (s, match foldl (read_step e s l g bs offset) (Some (mk_gather (op_ret l) (op_errno l) (zeros total_size))) ps with
      | None => Undefined
      | Some t =>
        if (num_blocks l =? 0) || negb (zlen ps =? num_blocks l) then Never
        else if g_ret t <? 0 then Unwind (g_ret t) (g_errno t) None None []
        else Unwind total_size (g_errno t) (Some prebuf) None (g_buf t)
      end).

Definition shard_post_mknod_readv_handler (e : env) (g bs offset total_size : Z) (prebuf : iatt) (s : state) (l : local)
    : state * reply :=
  if op_ret l <? 0 then (s, failed l)
  else if eexist_count l =? 0 then shard_readv_do e g bs offset total_size prebuf s l
  else
    let '(s, l) := shard_common_lookup_shards e GF_FOP_READ true g g s l in
    if op_ret l <? 0 then (s, failed l) else shard_readv_do e g bs offset total_size prebuf s l.

Definition shard_post_lookup_shards_readv_handler (e : env) (g bs offset total_size : Z) (prebuf : iatt)
    (s : state) (l : local) : state * reply :=
  if op_ret l <? 0 then (s, failed l)
  else if create_count l =? 0 then shard_readv_do e g bs offset total_size prebuf s l
  else
    let '(s, l) := shard_common_resume_mknod e g s l in
    shard_post_mknod_readv_handler e g bs offset total_size prebuf s l.

Definition shard_post_resolve_readv_handler (e : env) (g bs offset total_size : Z) (prebuf : iatt)
    (s : state) (l : local) : state * reply :=
  if op_ret l <? 0 then
    if op_errno l =? ENOENT then (s, Unwind total_size 0 (Some prebuf) None (zeros total_size))
    else (s, failed l)
  else if call_count l =? 0 then shard_readv_do e g bs offset total_size prebuf s l
  else
    let '(s, l) := shard_common_lookup_shards e GF_FOP_READ false g g s l in
    shard_post_lookup_shards_readv_handler e g bs offset total_size prebuf s l.

Definition shard_post_lookup_readv_handler (e : env) (g bs req_size offset : Z) (s : state) (prebuf : iatt)
    : state * reply :=
  if ia_size prebuf <=? u64 offset then (s, Unwind 0 0 (Some prebuf) None []) else
  match set_range (get_lowest_block offset bs) (get_highest_block offset req_size bs) with
  | None => (s, Unwind (-1) ENOMEM None None [])
  | Some l =>
    let '(s, l) := if dot_linked s then shard_refresh_dot_shard e g s l else shard_lookup_dot_shard e g s l in
    shard_post_resolve_readv_handler e g bs offset req_size prebuf s l
  end.

Definition shard_readv (e : env) (gsyncd : bool) (g size offset : Z) (s : state) : state * reply :=
  match shard_inode_ctx_get_block_size s g with
  | None => (s, Unwind (-1) ENOMEM None None [])
  | Some bs =>
    if (bs =? 0) || gsyncd then
      (s, match child_read e s (g, 0) offset size with
          | inl x => Unwind (-1) x None None []
          | inr vs => Unwind (zlen (concat vs)) 0 None None (concat vs)
          end)
    else
      let '(s, b) := shard_lookup_base_file e s g in
      match b with
      | inl x => (s, Unwind (-1) x None None [])
      | inr prebuf => shard_post_lookup_readv_handler e g bs size offset s prebuf
      end
  end.

(** ** Truncating *)

(** The arguments and what [local] has of the operation. *)
Record trunc_req := mk_trunc { tr_fop : shard_fop; tr_gfid : Z; tr_bs : Z; tr_offset : Z; tr_prebuf : iatt }.

Definition shard_post_update_size_truncate_handler (q : trunc_req) (l : local) (postbuf : iatt) (u : state * (Z + iatt))
    : state * reply :=
  let '(s, u) := u in
  match u with
  | inl x => (s, Unwind (-1) x (Some (tr_prebuf q)) (Some postbuf) [])
  | inr postbuf => (s, Unwind (op_ret l) (op_errno l) (Some (tr_prebuf q)) (Some postbuf) [])
  end.

Definition shard_truncate_last_shard_cbk (e : env) (q : trunc_req) (o : obj) (l : local) (r : state * option Z)
    : state * reply :=
  let '(s, r) := r in
  match r with
  | Some x => (s, Unwind (-1) x None None [])
  | None =>
    let dblocks := blocks e (C_truncate o) in
    let postbuf := mk_iatt (u64 (tr_offset q)) (u64 (ia_blocks (tr_prebuf q) + dblocks)) in
    let delta_size := wrap_s64 (ia_size postbuf - ia_size (tr_prebuf q)) in
    shard_post_update_size_truncate_handler q l postbuf
      (shard_update_file_size e s (tr_gfid q) delta_size 0 (s32 dblocks) postbuf)
  end.

(** Without an inode the code logs the gfid of NULL. *)
Definition shard_truncate_last_shard (e : env) (q : trunc_req) (s : state) (l : local) (inode : option obj) : state * reply :=
  match inode with
  | None => (s, Undefined)
  | Some o =>
    shard_truncate_last_shard_cbk e q o l (child_truncate e s o (u64 (tr_offset q) mod tr_bs q))
  end.

(** The wind of an unlink of shard [cur] of the file [gfid], and
    [shard_unlink_shards_do_cbk] up to its end. *)
Definition unlink_step (e : env) (gfid loc_gfid : Z) (sl : state * local) (cur : Z) : state * local :=
  let '(s, l) := sl in
  let '(s, r) := child_unlink e s (gfid, cur) in
  match r with
  | Some x => (s, set_op (-1) x l)
  | None => (shard_unlink_block_inode s l loc_gfid cur, l)
  end.

(** The shards of the range after its first that are there. *)
Definition to_unlink (l : local) : list Z :=
  List.filter (fun idx => negb (bool_decide (nth (Z.to_nat (idx - first_block l)) (inode_list l) None = None)))
    (loop_uint32 (first_block l + 1) (last_block l)).

Definition shard_truncate_htol (e : env) (q : trunc_req) (s : state) (l : local) : state * reply :=
  if zlen (to_unlink l) =? 0 then
    let postbuf := mk_iatt (u64 (tr_offset q)) (ia_blocks (tr_prebuf q)) in
    let delta_size := wrap_s64 (ia_size postbuf - ia_size (tr_prebuf q)) in
    shard_post_update_size_truncate_handler q l postbuf (shard_update_file_size e s (tr_gfid q) delta_size 0 0 postbuf)
  else
    let '(s, l) := foldl (unlink_step e (tr_gfid q) (tr_gfid q)) (s, l) (to_unlink l) in
    shard_truncate_last_shard e q s l (nth 0 (inode_list l) None).

Definition shard_truncate_do (e : env) (q : trunc_req) (s : state) (l : local) : state * reply :=
  if num_blocks l =? 1 then shard_truncate_last_shard e q s l (nth 0 (inode_list l) None)
  else shard_truncate_htol e q s l.

Definition shard_post_lookup_shards_truncate_handler (e : env) (q : trunc_req) (s : state) (l : local) : state * reply :=
  if op_ret l <? 0 then (s, failed l) else shard_truncate_do e q s l.

Definition shard_post_resolve_truncate_handler (e : env) (q : trunc_req) (s : state) (l : local) : state * reply :=
  if op_ret l <? 0 then
    if op_errno l =? ENOENT then
      let delta_size := wrap_s64 (tr_offset q - ia_size (tr_prebuf q)) in
      let postbuf := mk_iatt (u64 (tr_offset q)) (ia_blocks (tr_prebuf q)) in
      shard_post_update_size_truncate_handler q (set_op 0 (op_errno l) l) postbuf
        (shard_update_file_size e s (tr_gfid q) delta_size 0 0 postbuf)
    else (s, failed l)
  else if call_count l =? 0 then shard_truncate_do e q s l
  else
    let '(s, l) := shard_common_lookup_shards e (tr_fop q) false (tr_gfid q) (tr_gfid q) s l in
    shard_post_lookup_shards_truncate_handler e q s l.

Definition shard_truncate_begin (e : env) (q : trunc_req) (s : state) : state * reply :=
  let lowest := if tr_offset q =? 0 then 0 else get_lowest_block (tr_offset q - 1) (tr_bs q) in
  let highest := get_highest_block 0 (ia_size (tr_prebuf q)) (tr_bs q) in
  let g := tr_gfid q in
  if (s32 lowest =? 0) && (s32 (s32 highest - s32 lowest + 1) =? 1) then
    shard_truncate_last_shard_cbk e q (g, 0) (mk_local 0 0 0 0 1 0 0 0 []) (child_truncate e s (g, 0) (tr_offset q))
  else
    match set_range lowest highest with
    | None => (s, Unwind (-1) ENOMEM None None [])
    | Some l =>
      let '(s, l) := if dot_linked s then shard_refresh_dot_shard e g s l else shard_lookup_dot_shard e g s l in
      shard_post_resolve_truncate_handler e q s l
    end.

Definition shard_post_lookup_truncate_handler (e : env) (q : trunc_req) (s : state) : state * reply :=
  let prebuf := tr_prebuf q in
  if ia_size prebuf =? u64 (tr_offset q) then (s, Unwind 0 0 (Some prebuf) (Some prebuf) []) else
  let tmp_stbuf := mk_iatt (u64 (tr_offset q)) (ia_blocks prebuf) in
  let s := shard_inode_ctx_set s (tr_gfid q) tmp_stbuf false in
  if ia_size prebuf <? u64 (tr_offset q) then
    let hole_size := u64 (tr_offset q - ia_size prebuf) in
    shard_post_update_size_truncate_handler q (mk_local 0 0 0 0 0 0 0 0 []) tmp_stbuf
      (shard_update_file_size e s (tr_gfid q) 0 hole_size 0 tmp_stbuf)
  else shard_truncate_begin e q s.

(** [shard_truncate] and [shard_ftruncate]. *)
Definition truncate_common (fop : shard_fop) (e : env) (gsyncd : bool) (g offset : Z) (s : state) : state * reply :=
  match shard_inode_ctx_get_block_size s g with
  | None => (s, Unwind (-1) ENOMEM None None [])
  | Some bs =>
    if (bs =? 0) || gsyncd then
      let '(s, r) := child_truncate e s (g, 0) offset in
      (s, match r with Some x => Unwind (-1) x None None [] | None => Unwind 0 0 None None [] end)
    else
      let '(s, b) := shard_lookup_base_file e s g in
      match b with
      | inl x => (s, Unwind (-1) x None None [])
      | inr prebuf => shard_post_lookup_truncate_handler e (mk_trunc fop g bs offset prebuf) s
      end
  end.

Definition shard_truncate := truncate_common GF_FOP_TRUNCATE.
Definition shard_ftruncate := truncate_common GF_FOP_FTRUNCATE.

(** ** Removing and renaming *)

(** The answer of [shard_unlink_cbk] and of [shard_rename_cbk]. *)
Definition shard_unlink_cbk (l : local) : reply := Unwind (op_ret l) (op_errno l) None None [].

Definition shard_unlink_shards_do (e : env) (gfid loc_gfid : Z) (s : state) (l : local) : state * reply :=
  if zlen (to_unlink l) =? 0 then (s, shard_unlink_cbk l)
  else
    let '(s, l) := foldl (unlink_step e gfid loc_gfid) (s, l) (to_unlink l) in
    (s, shard_unlink_cbk l).

Definition shard_post_lookup_shards_unlink_handler (e : env) (gfid loc_gfid : Z) (s : state) (l : local) : state * reply :=
  if (op_ret l <? 0) && negb (op_errno l =? ENOENT) then (s, failed l)
  else shard_unlink_shards_do e gfid loc_gfid s (set_op 0 0 l).

Definition shard_post_resolve_unlink_handler (e : env) (fop : shard_fop) (gfid loc_gfid : Z) (s : state) (l : local)
    : state * reply :=
  if op_ret l <? 0 then
    if op_errno l =? ENOENT then (s, shard_unlink_cbk (set_op 0 (op_errno l) l)) else (s, failed l)
  else if call_count l =? 0 then shard_unlink_shards_do e gfid loc_gfid s l
  else
    let '(s, l) := shard_common_lookup_shards e fop false gfid loc_gfid s l in
    shard_post_lookup_shards_unlink_handler e gfid loc_gfid s l.

Definition linked_elsewhere (e : env) : bool := match link_count e with Some n => 1 <? n | None => false end.

(** The shards of the file [gfid] of size [size]; [local->loc] is [loc_gfid]. *)
Definition remove_shards (e : env) (fop : shard_fop) (gfid loc_gfid bs size : Z) (s : state) : state * reply :=
  match set_range (get_lowest_block 0 bs) (get_highest_block 0 size bs) with
  | None => (s, Unwind 0 0 None None [])
  | Some l =>
    if num_blocks l =? 1 then (s, Unwind 0 0 None None []) else
    let '(s, l) := if dot_linked s then shard_refresh_dot_shard e gfid s l else shard_lookup_dot_shard e gfid s l in
    shard_post_resolve_unlink_handler e fop gfid loc_gfid s l
  end.

(** The bricks remove the file with its last link. *)
Definition child_unlink_base (e : env) (s : state) (g : Z) : state * option Z :=
  if linked_elsewhere e then (s, fault e (C_unlink (g, 0))) else child_unlink e s (g, 0).

Definition shard_unlink_base_file_cbk (e : env) (g bs size : Z) (s : state) (r : option Z) : state * reply :=
  match r with
  | Some x => (s, Unwind (-1) x None None [])
  | None => if linked_elsewhere e then (s, Unwind 0 0 None None []) else remove_shards e GF_FOP_UNLINK g g bs size s
  end.

Definition shard_unlink_base_file (e : env) (g bs size : Z) (s : state) : state * reply :=
  let '(s, r) := child_unlink_base e s g in
  shard_unlink_base_file_cbk e g bs size s r.

Definition shard_unlink (e : env) (gsyncd : bool) (g : Z) (s : state) : state * reply :=
  match shard_inode_ctx_get_block_size s g with
  | None => (s, Unwind (-1) ENOMEM None None [])
  | Some bs =>
    if (bs =? 0) || gsyncd then
      let '(s, r) := child_unlink_base e s g in
      (s, match r with Some x => Unwind (-1) x None None [] | None => Unwind 0 0 None None [] end)
    else
      let '(s, b) := shard_lookup_base_file e s g in
      match b with
      | inl x => (s, Unwind (-1) x None None [])
      | inr prebuf => shard_unlink_base_file e g bs (ia_size prebuf) s
      end
  end.

(** [dst] is the file that has the new name, if there is one. *)
Definition child_rename (e : env) (s : state) (dst : option Z) : state * option Z :=
  match fault e C_rename, dst with
  | Some x, _ => (s, Some x)
  | None, Some d => if linked_elsewhere e then (s, None) else (set_objs (delete (d, 0) (objs s)) s, None)
  | None, None => (s, None)
  end.

Definition shard_rename_unlink_dst_shards_do (e : env) (src dst dst_bs size : Z) (s : state) : state * reply :=
  if linked_elsewhere e then (s, Unwind 0 0 None None []) else remove_shards e GF_FOP_RENAME dst src dst_bs size s.

(** The callback of the rename, the lookup of the source by its gfid (its inode is new,
    and has no context) and [shard_post_rename_lookup_handler]. *)
Definition shard_rename_src_cbk (e : env) (src bs : Z) (dst : option (Z * Z * Z)) (s : state) (r : option Z) : state * reply :=
  match r with
  | Some x => (s, Unwind (-1) x None None [])
  | None =>
    let looked := if bs =? 0 then None else
      match child_lookup e (C_lookup_base src) s (src, 0) with
      | Some x => Some x
      | None => if decide (xattrs s !! src = None) then Some EINVAL else None
      end in
    match looked, dst with
    | Some x, _ => (s, Unwind (-1) x None None [])
    | None, Some (d, dst_bs, size) => shard_rename_unlink_dst_shards_do e src d dst_bs size s
    | None, None => (s, Unwind 0 0 None None [])
    end
  end.

Definition shard_rename_src_base_file (e : env) (src bs : Z) (d : option Z) (dst : option (Z * Z * Z)) (s : state)
    : state * reply :=
  let '(s, r) := child_rename e s d in
  shard_rename_src_cbk e src bs dst s r.

Definition shard_rename (e : env) (gsyncd : bool) (src : Z) (d : option Z) (s : state) : state * reply :=
  match shard_inode_ctx_get_block_size s src with
  | None => (s, Unwind (-1) ENOMEM None None [])
  | Some bs =>
    let dst_bs := default 0 (d ≫= shard_inode_ctx_get_block_size s) in
    if ((bs =? 0) && (dst_bs =? 0)) || gsyncd then
      let '(s, r) := child_rename e s d in
      (s, match r with Some x => Unwind (-1) x None None [] | None => Unwind 0 0 None None [] end)
    else
      match d with
      | Some dst =>
        if dst_bs =? 0 then shard_rename_src_base_file e src bs d None s else
        let '(s, b) := shard_lookup_base_file e s dst in
        match b with
        | inl x => (s, Unwind (-1) x None None [])
        | inr prebuf => shard_rename_src_base_file e src bs d (Some (dst, dst_bs, ia_size prebuf)) s
        end
      | None => shard_rename_src_base_file e src bs d None s
      end
  end.

(** ** Creating, looking up and stat *)

(** [shard_create] and [shard_mknod] of a new file, with their callbacks; [bs] is
    [priv->block_size]. *)
Definition shard_create (e : env) (bs g : Z) (s : state) : state * reply :=
  match fault e (C_create g), objs s !! (g, 0) with
  | Some x, _ => (s, Unwind (-1) x None None [])
  | None, Some _ => (s, Unwind (-1) EEXIST None None [])
  | None, None =>
    let s := put (g, 0) [] s in
    let s := set_xattrs (<[g := mk_xattr bs (shard_set_size_attrs 0 0)]> (xattrs s)) s in
    (set_ctxs (<[g := mk_ctx bs (mk_iatt 0 0) false]> (ctxs s)) s, Unwind 0 0 None (Some (mk_iatt 0 0)) [])
  end.

(** [buf] has the size and blocks of block 0, [blocks] of the call. *)
Definition shard_inode_ctx_update (s : state) (g : Z) (bs : option Z) (buf : iatt) : state :=
  let '(s, size) :=
    match shard_inode_ctx_get_block_size s g with
    | Some size => (s, size)
    | None =>
      let size := default 0 bs in
      (set_ctxs (<[g := mk_ctx size (mk_iatt 0 0) false]> (ctxs s)) s, size)
    end in
  if size =? 0 then s else shard_inode_ctx_invalidate s g buf.

Definition shard_lookup (e : env) (g : Z) (s : state) : state * reply :=
  match child_lookup e (C_lookup_base g) s (g, 0) with
  | Some x => (s, Unwind (-1) x None None [])
  | None =>
    let buf := mk_iatt (zlen (contents s (g, 0))) (blocks e (C_lookup_base g)) in
    let buf := default buf (xattr_iatt s g) in
    (shard_inode_ctx_update s g (x_block_size <$> xattrs s !! g) buf, Unwind 0 0 None (Some buf) [])
  end.

(** [shard_stat] and [shard_fstat] of a regular file, with
    [shard_common_stat_cbk]. *)
Definition shard_stat (e : env) (gsyncd : bool) (g : Z) (s : state) : state * reply :=
  match shard_inode_ctx_get_block_size s g with
  | None => (s, Unwind (-1) ENOMEM None None [])
  | Some bs =>
    match child_lookup e (C_stat g) s (g, 0) with
    | Some x => (s, Unwind (-1) x None None [])
    | None =>
      if (bs =? 0) || gsyncd then
        (s, Unwind 0 0 (Some (mk_iatt (zlen (contents s (g, 0))) (blocks e (C_stat g)))) None [])
      else
        match xattr_iatt s g with
        | None => (s, Unwind (-1) EINVAL None None [])
        | Some st => (shard_inode_ctx_invalidate s g st, Unwind 0 0 (Some st) None [])
        end
    end
  end.

(** ** Operations *)

Inductive op :=
| O_writev (g : Z) (vector : list (list Z)) (offset : Z) (aflag afd : bool)
| O_fallocate (g keep offset len : Z)
| O_zerofill (g offset len : Z)
| O_discard (g offset len : Z)
| O_readv (g size offset : Z)
| O_truncate (g offset : Z)
| O_ftruncate (g offset : Z)
| O_unlink (g : Z)
| O_rename (src : Z) (dst : option Z)
| O_create (bs g : Z)
| O_lookup (g : Z)
| O_stat (g : Z)
| O_forget (o : obj).

Definition run (e : env) (gsyncd : bool) (o : op) (s : state) : state * reply :=
  match o with
  | O_writev g vector offset aflag afd => shard_writev e gsyncd g vector offset aflag afd s
  | O_fallocate g keep offset len => shard_fallocate e gsyncd g keep offset len s
  | O_zerofill g offset len => shard_zerofill e gsyncd g offset len s
  | O_discard g offset len => shard_discard e gsyncd g offset len s
  | O_readv g size offset => shard_readv e gsyncd g size offset s
  | O_truncate g offset => shard_truncate e gsyncd g offset s
  | O_ftruncate g offset => shard_ftruncate e gsyncd g offset s
  | O_unlink g => shard_unlink e gsyncd g s
  | O_rename src dst => shard_rename e gsyncd src dst s
  | O_create bs g => shard_create e bs g s
  | O_lookup g => shard_lookup e g s
  | O_stat g => shard_stat e gsyncd g s
  | O_forget o => (shard_forget s o, Unwind 0 0 None None [])
  end.

Definition init : state := mk_state ∅ ∅ None false false ∅ (mk_cache ∅ [] 0).
