(* ===== verification/ShardFacts.v ===== *)
(** * Sharding: contents, pieces and vectors

    The bytes of a file after the operations of the bricks, the bytes
    [iov_subset] selects, the copy of vectors into a buffer, and how a range is
    cut into the pieces of its blocks. *)

From S2P Require Import Prelude Words Bytes Shard.
From stdpp Require Import gmap.
Open Scope Z_scope.

(** ** Bytes *)

Lemma zlen_pwrite l off d : 0 <= off -> 0 < zlen d -> zlen (pwrite l off d) = Z.max (zlen l) (off + zlen d).
Proof.
  intros Ho Hd. unfold pwrite. rewrite (proj2 (Z.eqb_neq _ _)) by lia.
  rewrite !zlen_app, zlen_ztake, zlen_pad, zlen_zdrop. pose proof (zlen_nonneg l). lia.
Qed.

Lemma byte_pwrite l off d p :
  0 <= off -> byte (pwrite l off d) p = if (off <=? p) && (p <? off + zlen d) then byte d (p - off) else byte l p.
Proof.
  intros Ho. unfold pwrite. pose proof (zlen_nonneg d) as Hd. pose proof (zlen_nonneg l) as Hl.
  destruct (Z.eqb_spec (zlen d) 0) as [Hz|Hz].
  { rewrite Hz. destruct (Z.leb_spec off p), (Z.ltb_spec p (off + 0)); cbn; try reflexivity; lia. }
  rewrite byte_app, zlen_ztake, zlen_pad. rewrite (Z.min_l (Z.max 0 off)) by lia. rewrite Z.max_r by lia.
  destruct (Z.ltb_spec p off).
  { rewrite (proj2 (Z.leb_gt off p)) by lia. cbn. rewrite byte_ztake, byte_pad, (proj2 (Z.ltb_lt p off)) by lia. reflexivity. }
  rewrite (proj2 (Z.leb_le off p)) by lia. cbn [andb]. rewrite byte_app.
  destruct (Z.ltb_spec (p - off) (zlen d)), (Z.ltb_spec p (off + zlen d)); try lia.
  rewrite byte_zdrop by lia. f_equal. lia.
Qed.

Lemma zlen_ptruncate l n : 0 <= n -> zlen (ptruncate l n) = n.
Proof. intros Hn. unfold ptruncate. rewrite zlen_ztake, zlen_pad. lia. Qed.

Lemma byte_ptruncate l n p : byte (ptruncate l n) p = if p <? n then byte l p else 0.
Proof. unfold ptruncate. rewrite byte_ztake, byte_pad. reflexivity. Qed.

Lemma byte_pzero l off len p :
  0 <= off -> byte (pzero l off len) p = if (off <=? p) && (p <? off + len) then 0 else byte l p.
Proof.
  intros Ho. unfold pzero. rewrite byte_pwrite, zlen_zeros, byte_zeros by lia.
  destruct (Z.leb_spec off p), (Z.ltb_spec p (off + Z.max 0 len)), (Z.ltb_spec p (off + len)); cbn; try reflexivity; lia.
Qed.

Lemma zlen_pzero l off len : 0 <= off -> 0 < len -> zlen (pzero l off len) = Z.max (zlen l) (off + len).
Proof. intros Ho Hl. unfold pzero. rewrite zlen_pwrite; rewrite ?zlen_zeros; lia. Qed.

Lemma byte_ppunch l off len p :
  0 <= off -> byte (ppunch l off len) p = if (off <=? p) && (p <? off + len) then 0 else byte l p.
Proof.
  intros Ho. unfold ppunch. rewrite byte_ztake, byte_pzero by lia.
  destruct (Z.ltb_spec p (zlen l)); [reflexivity|]. rewrite (byte_over l p) by lia. destruct (_ && _); reflexivity.
Qed.

Lemma zlen_ppunch l off len : 0 <= off -> zlen (ppunch l off len) = zlen l.
Proof.
  intros Ho. unfold ppunch. rewrite zlen_ztake. pose proof (zlen_nonneg l).
  destruct (Z_lt_le_dec 0 len); [rewrite zlen_pzero by lia; lia|].
  unfold pzero, pwrite. rewrite zlen_zeros, (proj2 (Z.eqb_eq _ _)) by lia. lia.
Qed.

Lemma byte_pread l off len p : 0 <= off -> 0 <= p -> byte (pread l off len) p = if p <? len then byte l (off + p) else 0.
Proof. intros Ho Hp. unfold pread. rewrite byte_ztake. destruct (p <? len); [|reflexivity]. apply byte_zdrop; lia. Qed.

Lemma zlen_pread l off len : 0 <= off -> 0 <= len -> zlen (pread l off len) = Z.max 0 (Z.min len (zlen l - off)).
Proof. intros Ho Hl. unfold pread. rewrite zlen_ztake, zlen_zdrop. pose proof (zlen_nonneg l). lia. Qed.

(** ** Vectors *)

Lemma ztake_app {A} n (l k : list A) : 0 <= n -> ztake n (l ++ k) = ztake n l ++ ztake (n - zlen l) k.
Proof. intros Hn. unfold ztake, zlen. rewrite take_app. do 2 f_equal. lia. Qed.

Lemma zdrop_app {A} n (l k : list A) : 0 <= n -> zdrop n (l ++ k) = zdrop n l ++ zdrop (n - zlen l) k.
Proof. intros Hn. unfold zdrop, zlen. rewrite drop_app. do 2 f_equal. lia. Qed.

Lemma ztake_nonpos {A} n (l : list A) : n <= 0 -> ztake n l = [].
Proof. intros Hn. unfold ztake. replace (Z.to_nat n) with 0%nat by lia. reflexivity. Qed.

Lemma zdrop_nonpos {A} n (l : list A) : n <= 0 -> zdrop n l = l.
Proof. intros Hn. unfold zdrop. replace (Z.to_nat n) with 0%nat by lia. reflexivity. Qed.

Lemma zdrop_over {A} n (l : list A) : zlen l <= n -> zdrop n l = [].
Proof. intros Hn. unfold zdrop, zlen in *. apply drop_ge. lia. Qed.

Lemma ztake_over {A} n (l : list A) : zlen l <= n -> ztake n l = l.
Proof. intros Hn. unfold ztake, zlen in *. apply take_ge. lia. Qed.

(** [iov_subset] selects the bytes from [src] to [dst] of what is left. *)
Lemma iov_subset_from vs : forall offset src dst,
  src <= dst ->
  concat (iov_subset vs offset src dst) = ztake (dst - Z.max offset src) (zdrop (src - offset) (concat vs)).
Proof.
  induction vs as [|v vs IH]; intros offset src dst Hd.
  { cbn. unfold ztake, zdrop. rewrite drop_nil, take_nil. reflexivity. }
  pose proof (zlen_nonneg v) as Hv. cbn [iov_subset concat].
  destruct (Z.ltb_spec (offset + zlen v) src) as [H1|H1]; cbn [orb].
  { rewrite IH by lia. rewrite zdrop_app, (zdrop_over (src - offset) v) by lia. cbn [app].
    f_equal; [lia|]. f_equal. lia. }
  destruct (Z.ltb_spec dst offset) as [H2|H2].
  { rewrite IH by lia. rewrite !ztake_nonpos by lia. reflexivity. }
  cbn [concat]. rewrite IH by lia.
  assert (Hs : ztake (dst - Z.max offset src) (zdrop (src - offset) (v ++ concat vs))
    = ztake (dst - Z.max offset src) (zdrop (src - offset) v)
      ++ ztake (dst - Z.max offset src - zlen (zdrop (src - offset) v)) (concat vs)).
  { destruct (Z_le_dec src offset).
    - rewrite !(zdrop_nonpos (src - offset)) by lia. apply ztake_app. lia.
    - rewrite zdrop_app, (zdrop_nonpos (src - offset - zlen v)) by lia. apply ztake_app. lia. }
  rewrite Hs. rewrite zlen_zdrop. rewrite (zdrop_nonpos (src - (offset + zlen v))) by lia.
  f_equal; [|f_equal; lia].
  destruct (Z.leb_spec offset src), (Z.leb_spec dst (offset + zlen v)).
  - f_equal. lia.
  - rewrite !ztake_over by (rewrite zlen_zdrop; lia). reflexivity.
  - rewrite !zdrop_nonpos by lia. f_equal. lia.
  - rewrite !zdrop_nonpos, !ztake_over by lia. reflexivity.
Qed.

Lemma iov_subset_slice vs src dst :
  0 <= src <= dst -> concat (iov_subset vs 0 src dst) = ztake (dst - src) (zdrop src (concat vs)).
Proof. intros H. rewrite iov_subset_from by lia. rewrite Z.max_r, Z.sub_0_r by lia. reflexivity. Qed.

(** Two vectors are copied one after the other. *)
Lemma memcpy_ok buf a d : 0 <= a -> a + zlen d <= zlen buf -> memcpy buf a d = Some (pwrite buf a d).
Proof. intros Ha Hd. unfold memcpy. rewrite (proj2 (Z.leb_le 0 a)), (proj2 (Z.leb_le _ _)) by lia. reflexivity. Qed.

Lemma zlen_pwrite_inside buf a d : 0 <= a -> a + zlen d <= zlen buf -> zlen (pwrite buf a d) = zlen buf.
Proof.
  intros Ha Hd. pose proof (zlen_nonneg d). destruct (Z.eq_dec (zlen d) 0) as [Hz|Hz].
  - unfold pwrite. rewrite Hz. reflexivity.
  - rewrite zlen_pwrite by lia. lia.
Qed.

Lemma copy_two_vectors buf a vs :
  0 <= a -> a + zlen (concat vs) <= zlen buf -> (length vs <= 2)%nat ->
  exists buf', copy_vectors buf a 0 vs = Some buf' /\ zlen buf' = zlen buf /\
    forall p, byte buf' p = if (a <=? p) && (p <? a + zlen (concat vs)) then byte (concat vs) (p - a) else byte buf p.
Proof.
  intros Ha Hl Hn. destruct vs as [|v [|w [|x vs]]]; [| | |cbn in Hn; lia].
  - exists buf. split; [reflexivity|split; [reflexivity|]]. intros p.
    change (zlen (concat [])) with 0. destruct (Z.leb_spec a p), (Z.ltb_spec p (a + 0)); try lia; reflexivity.
  - cbn [concat] in *. rewrite app_nil_r in *. exists (pwrite buf a v). cbn [copy_vectors]. rewrite Z.add_0_r.
    rewrite memcpy_ok by lia. split; [reflexivity|]. split; [apply zlen_pwrite_inside; lia|].
    intros p. apply byte_pwrite. lia.
  - cbn [concat] in *. rewrite app_nil_r, zlen_app in *. pose proof (zlen_nonneg v). pose proof (zlen_nonneg w).
    cbn [copy_vectors]. rewrite Z.add_0_r, Z.add_0_l, memcpy_ok by lia. cbn [mbind option_bind].
    rewrite memcpy_ok by (rewrite ?zlen_pwrite_inside; lia). cbn.
    eexists. split; [reflexivity|]. split; [rewrite !zlen_pwrite_inside; rewrite ?zlen_pwrite_inside; lia|].
    intros p. rewrite !byte_pwrite, byte_app by lia.
    destruct (Z.leb_spec (a + zlen v) p), (Z.ltb_spec p (a + zlen v + zlen w)), (Z.leb_spec a p),
      (Z.ltb_spec p (a + zlen v)), (Z.ltb_spec p (a + (zlen v + zlen w))), (Z.ltb_spec (p - a) (zlen v));
      cbn; try lia; try reflexivity; f_equal; lia.
Qed.

(** ** Pieces *)

Section pieces.
Context (bs : Z) (Hbs : 0 < bs).

(** The byte at [p] of the whole file is byte [p mod bs] of block [p / bs]. *)
Lemma div_mod_unique p b q : 0 <= q < bs -> p = b * bs + q -> p / bs = b /\ p mod bs = q.
Proof.
  intros Hq ->. split.
  - rewrite Z.div_add_l, (Z.div_small q) by lia. lia.
  - rewrite Z.add_comm, Z.mod_add, Z.mod_small by lia. reflexivity.
Qed.

Lemma in_block p b : p / bs = b -> b * bs <= p < b * bs + bs.
Proof. intros <-. pose proof (Z.div_mod p bs ltac:(lia)). pose proof (Z.mod_pos_bound p bs Hbs). lia. Qed.

(** A range that starts in block [b] and ends in block [b'], cut at its first
    block boundary. *)
Lemma range_last_block orig rem :
  0 < rem -> rem <= bs - orig mod bs -> (orig + rem - 1) / bs = orig / bs.
Proof.
  intros Hr Hs. pose proof (Z.div_mod orig bs ltac:(lia)). pose proof (Z.mod_pos_bound orig bs Hbs).
  symmetry. apply Z.div_unique with (orig mod bs + rem - 1); lia.
Qed.

Lemma range_next_block orig rem :
  bs - orig mod bs < rem ->
  (orig + (bs - orig mod bs)) / bs = orig / bs + 1 /\ (orig + (bs - orig mod bs)) mod bs = 0 /\
  orig / bs + 1 <= (orig + rem - 1) / bs.
Proof.
  intros Hs. pose proof (Z.div_mod orig bs ltac:(lia)). pose proof (Z.mod_pos_bound orig bs Hbs).
  destruct (div_mod_unique (orig + (bs - orig mod bs)) (orig / bs + 1) 0); [lia|lia|].
  split; [assumption|]. split; [assumption|]. apply Z.div_le_lower_bound; lia.
Qed.

Lemma seqZ_head first n : 0 < n -> seqZ first n = first :: seqZ (first + 1) (n - 1).
Proof. intros Hn. rewrite seqZ_cons by lia. reflexivity. Qed.

(** Induction over the pieces of a range: in each block the piece goes up to the
    end of the block or of the range. *)
Lemma cut_pieces_ind (P : Z -> Z -> Z -> list piece -> Prop) :
  (forall orig rem vec, 0 <= orig -> 0 < rem -> rem <= bs - orig mod bs -> orig + rem < 2 ^ 64 ->
     P orig rem vec [mk_piece (orig / bs) (orig mod bs) rem vec]) ->
  (forall orig rem vec ps, 0 <= orig -> 0 < rem -> bs - orig mod bs < rem -> orig + rem < 2 ^ 64 ->
     P (orig + (bs - orig mod bs)) (rem - (bs - orig mod bs)) (vec + (bs - orig mod bs)) ps ->
     P orig rem vec (mk_piece (orig / bs) (orig mod bs) (bs - orig mod bs) vec :: ps)) ->
  forall orig rem vec, 0 <= orig -> 0 < rem -> orig + rem < 2 ^ 64 ->
  P orig rem vec (cut_pieces bs (seqZ (orig / bs) ((orig + rem - 1) / bs - orig / bs + 1)) orig rem vec).
Proof.
  intros Hlast Hmore orig rem vec Ho Hr H64.
  remember (Z.to_nat ((orig + rem - 1) / bs - orig / bs)) as n eqn:Hn.
  revert orig rem vec Ho Hr H64 Hn. induction n as [n IH] using lt_wf_ind. intros orig rem vec Ho Hr H64 ->.
  assert (orig / bs <= (orig + rem - 1) / bs) by (apply Z.div_le_mono; lia).
  pose proof (Z.mod_pos_bound orig bs Hbs).
  rewrite seqZ_head by lia. cbn [cut_pieces]. rewrite (u64_id orig) by lia.
  destruct (Z_le_dec rem (bs - orig mod bs)) as [Hle|Hgt].
  - pose proof (range_last_block orig rem Hr Hle) as Heq.
    replace ((orig + rem - 1) / bs - orig / bs + 1 - 1) with 0 by lia. rewrite seqZ_nil by lia. cbn [cut_pieces].
    replace (if rem <? bs - orig mod bs then rem else bs - orig mod bs) with rem by (destruct (Z.ltb_spec rem (bs - orig mod bs)); lia).
    apply Hlast; lia.
  - destruct (range_next_block orig rem ltac:(lia)) as (Hd & Hm & Hl).
    rewrite (proj2 (Z.ltb_ge rem (bs - orig mod bs))) by lia. apply Hmore; [lia..|].
    replace (orig / bs + 1) with ((orig + (bs - orig mod bs)) / bs) by lia.
    set (o := orig + (bs - orig mod bs)) in *.
    replace ((orig + rem - 1) / bs) with ((o + (rem - (bs - orig mod bs)) - 1) / bs) by (f_equal; lia).
    replace ((o + (rem - (bs - orig mod bs)) - 1) / bs - orig / bs + 1 - 1)
      with ((o + (rem - (bs - orig mod bs)) - 1) / bs - o / bs + 1) by lia.
    eapply IH; [|lia..|reflexivity].
    replace (o + (rem - (bs - orig mod bs)) - 1) with (orig + rem - 1) by lia. lia.
Qed.

Lemma cut_pieces_length bl : forall orig rem vec, zlen (cut_pieces bs bl orig rem vec) = zlen bl.
Proof.
  induction bl as [|b bl IH]; intros orig rem vec; [reflexivity|]. cbn [cut_pieces].
  unfold zlen in *. cbn [length]. rewrite !Nat2Z.inj_succ. rewrite IH. reflexivity.
Qed.

End pieces.
