(* ===== verification/ShardScan.v ===== *)
(** * Sharding: finding the shards of a range

    What looking up and creating the shards of a range does, whatever the child
    answers: no byte of any file changes, objects of other files are not
    touched, and an inode that is found belongs to the block it is used for.
    When no error is left, every block of the range has been found. *)

From S2P Require Import Prelude Words Bytes Shard ShardFacts.
From stdpp Require Import gmap.
Open Scope Z_scope.

(** A name below /.shard is linked to the inode of the object it names, which is
    there, and the inode of /.shard is known only if it is a directory. *)
Record wf (s : state) : Prop := {
  wf_itable : forall nm o : obj, itable (cached s) !! nm = Some o -> o = nm /\ (nm.2 <> 0 -> is_Some (objs s !! nm));
  wf_dot : dot_linked s = true -> dot_shard s = Some true
}.

(** From [s] to [s'] only empty objects of the file [g] are made. *)
Record ext (g : Z) (s s' : state) : Prop := {
  ext_contents : forall o, contents s' o = contents s o;
  ext_objs : forall o, is_Some (objs s !! o) -> is_Some (objs s' !! o);
  ext_other : forall o : obj, o.1 <> g -> objs s' !! o = objs s !! o;
  ext_xattrs : xattrs s' = xattrs s;
  ext_ctxs : ctxs s' = ctxs s;
  ext_dot : dot_shard s' = dot_shard s \/ (dot_shard s = None /\ dot_shard s' = Some true)
}.

Definition found (l : local) (idx : Z) : option obj := nth (Z.to_nat (idx - first_block l)) (inode_list l) None.
Definition in_range (l : local) (idx : Z) : Prop := first_block l <= idx <= last_block l.

Record scan (g : Z) (s : state) (l : local) : Prop := {
  sc_range : 0 <= first_block l <= last_block l /\ last_block l < 2 ^ 31;
  sc_num : num_blocks l = last_block l - first_block l + 1;
  sc_len : zlen (inode_list l) = num_blocks l;
  sc_count : 0 <= call_count l /\ 0 <= create_count l /\ 0 <= eexist_count l;
  sc_found : forall idx o, in_range l idx -> found l idx = Some o -> o = (g, idx) /\ (idx <> 0 -> is_Some (objs s !! o))
}.

Definition same_range (l l' : local) : Prop :=
  first_block l' = first_block l /\ last_block l' = last_block l /\ num_blocks l' = num_blocks l.

Record good (g : Z) (s : state) (l : local) (sl : state * local) : Prop := {
  good_wf : wf sl.1;
  good_ext : ext g s sl.1;
  good_scan : scan g sl.1 sl.2;
  good_range : same_range l sl.2
}.

Definition complete (g : Z) (l : local) : Prop := forall idx, in_range l idx -> found l idx = Some (g, idx).

Lemma ext_refl g s : ext g s s.
Proof. split; auto. Qed.

Lemma ext_trans g s1 s2 s3 : ext g s1 s2 -> ext g s2 s3 -> ext g s1 s3.
Proof.
  intros [c1 o1 t1 x1 k1 d1] [c2 o2 t2 x2 k2 d2]. split.
  - intros o. rewrite c2. apply c1.
  - auto.
  - intros o Ho. rewrite t2, t1 by assumption. reflexivity.
  - congruence.
  - congruence.
  - destruct d2 as [->|[H2 ->]]; [assumption|]. right. split; [|reflexivity].
    destruct d1 as [<-|[H1 _]]; assumption.
Qed.

Lemma good_start g s l : wf s -> scan g s l -> good g s l (s, l).
Proof. intros Hw Hs. split; auto using ext_refl. unfold same_range. auto. Qed.

Lemma good_trans g s l s1 l1 sl : good g s l (s1, l1) -> good g s1 l1 sl -> good g s l sl.
Proof.
  intros [Hw He Hs Hr] [Hw' He' Hs' Hr']. split; [assumption|eapply ext_trans; eassumption|assumption|].
  unfold same_range in *. cbn in *. destruct Hr as (-> & -> & ->) in Hr'. exact Hr'.
Qed.

(** ** Setting an inode *)

Lemma found_set_inode g s l idx j o :
  scan g s l -> in_range l idx -> in_range l j -> found (set_inode idx o l) j = if j =? idx then Some o else found l j.
Proof.
  intros Hs Hi Hj. unfold found, set_inode, in_range in *. cbn. rewrite !nth_lookup.
  pose proof (sc_len g s l Hs) as Hl. pose proof (sc_num g s l Hs) as Hn. unfold zlen in Hl.
  destruct (Z.eqb_spec j idx) as [->|Hne].
  - rewrite list_lookup_insert_eq by lia. reflexivity.
  - rewrite list_lookup_insert_ne by lia. reflexivity.
Qed.

Lemma scan_set_inode g s l idx :
  scan g s l -> in_range l idx -> (idx <> 0 -> is_Some (objs s !! (g, idx))) -> scan g s (set_inode idx (g, idx) l).
Proof.
  intros Hs Hi Ho. split; try apply Hs.
  - unfold set_inode. cbn. unfold zlen. rewrite length_insert. apply Hs.
  - intros j o Hj. change (in_range l j) in Hj. rewrite (found_set_inode g s) by assumption.
    destruct (Z.eqb_spec j idx) as [->|Hne]; [intros [= <-]; auto|]. apply Hs. exact Hj.
Qed.

Lemma scan_weaken g s s' l l' :
  scan g s l -> (forall o, is_Some (objs s !! o) -> is_Some (objs s' !! o)) ->
  same_range l l' -> inode_list l' = inode_list l ->
  0 <= call_count l' /\ 0 <= create_count l' /\ 0 <= eexist_count l' -> scan g s' l'.
Proof.
  intros Hs Ho (H1 & H2 & H3) Hi Hc. destruct Hs as [A B C D F]. split; rewrite ?H1, ?H2, ?H3, ?Hi; auto.
  intros idx o Hj Hf. unfold in_range, found in *. rewrite H1, H2, ?Hi in *. destruct (F idx o Hj Hf). auto.
Qed.

(** ** The cache *)

Lemma inode_unlink_sub t o nm k x : inode_unlink t o nm !! k = Some x -> t !! k = Some x.
Proof. unfold inode_unlink. case_decide; [|auto]. intros H'. apply lookup_delete_Some in H'. tauto. Qed.

Lemma update_list_itable c o b n k x :
  itable (__shard_update_shards_inode_list c o b n) !! k = Some x -> itable c !! k = Some x.
Proof.
  unfold __shard_update_shards_inode_list. destruct (in_ilist c o); [auto|].
  destruct (_ <=? _); [auto|]. destruct (ilist c); [auto|]. cbn. apply inode_unlink_sub.
Qed.

(** A change of the client's cache alone. *)
Lemma set_cached_wf s c :
  wf s -> (forall nm o : obj, itable c !! nm = Some o -> o = nm /\ (nm.2 <> 0 -> is_Some (objs s !! nm))) -> wf (set_cached c s).
Proof. intros Hw Hc. split; [exact Hc|apply Hw]. Qed.

Lemma set_cached_ext g s c : ext g s (set_cached c s).
Proof. split; auto. Qed.

Lemma link_block_good g s l idx :
  wf s -> scan g s l -> in_range l idx -> is_Some (objs s !! (g, idx)) ->
  good g s l (shard_link_block_inode s l g idx (g, idx)).
Proof.
  intros Hw Hs Hi Ho. unfold shard_link_block_inode. split; cbn [fst snd].
  - apply set_cached_wf; [assumption|]. intros nm o Hn. apply update_list_itable in Hn. cbn in Hn.
    apply lookup_insert_Some in Hn as [[<- <-]|[_ Hn]]; [auto|]. apply Hw. assumption.
  - apply set_cached_ext.
  - eapply (scan_weaken _ s _ (set_inode idx (g, idx) l)); [apply scan_set_inode; auto|auto|repeat split|reflexivity|apply Hs].
  - repeat split.
Qed.

(** A change of the results and counts alone. *)
Lemma set_local_good g s l l' :
  wf s -> scan g s l -> same_range l l' -> inode_list l' = inode_list l ->
  0 <= call_count l' /\ 0 <= create_count l' /\ 0 <= eexist_count l' -> good g s l (s, l').
Proof. intros Hw Hs Hr Hi Hc. split; auto using ext_refl. eapply scan_weaken; eauto. Qed.

Ltac local_good := apply set_local_good; [assumption|assumption|repeat split|reflexivity|];
  match goal with H : scan _ _ _ |- _ => pose proof (sc_count _ _ _ H); cbn; lia end.

(** ** Steps *)

Lemma resolve_step_good g s l idx : wf s -> scan g s l -> in_range l idx -> good g s l (resolve_step g (s, l) idx).
Proof.
  intros Hw Hs Hi. unfold resolve_step. destruct (Z.eqb_spec idx 0) as [->|Hne].
  { split; auto using ext_refl; [|repeat split]. apply scan_set_inode; auto. lia. }
  destruct (itable (cached s) !! (g, idx)) as [o|] eqn:Ht; [|local_good].
  destruct (wf_itable s Hw _ _ Ht) as [-> Ho]. specialize (Ho Hne). split; cbn [fst snd].
  - apply set_cached_wf; [assumption|]. intros nm o Hn. apply update_list_itable in Hn. apply Hw. assumption.
  - apply set_cached_ext.
  - eapply (scan_weaken _ s _ (set_inode idx (g, idx) l)); [apply scan_set_inode; auto|auto|repeat split|reflexivity|apply Hs].
  - repeat split.
Qed.

Lemma child_lookup_found e c s o : child_lookup e c s o = None -> is_Some (objs s !! o).
Proof. unfold child_lookup. destruct (fault e c); [discriminate|]. destruct (objs s !! o); [eauto|discriminate]. Qed.

Lemma lookup_step_good e fop again g s l idx :
  wf s -> scan g s l -> in_range l idx -> good g s l (lookup_step e fop again g g (s, l) idx).
Proof.
  intros Hw Hs Hi. unfold lookup_step. destruct (child_lookup _ _ _ _) as [x|] eqn:Hx.
  - unfold shard_common_lookup_shards_cbk. destruct fop; repeat case_match; local_good.
  - cbn. apply link_block_good; auto. eapply child_lookup_found. eassumption.
Qed.

Lemma put_empty_ext g s (o : obj) : objs s !! o = None -> o.1 = g -> ext g s (put o [] s).
Proof.
  intros Hn Hg. split; auto; unfold contents, put; cbn [objs set_objs].
  - intros k. destruct (decide (k = o)) as [->|Hne]; [rewrite lookup_insert_eq, Hn; reflexivity|].
    rewrite lookup_insert_ne by congruence. reflexivity.
  - intros k Hk. destruct (decide (k = o)) as [->|Hne]; [rewrite lookup_insert_eq; eauto|].
    rewrite lookup_insert_ne by congruence. assumption.
  - intros k Hk. apply lookup_insert_ne. congruence.
Qed.

Lemma ext_wf g s s' : wf s -> ext g s s' -> cached s' = cached s -> dot_linked s' = dot_linked s -> wf s'.
Proof.
  intros Hw He Hc Hd. split.
  - rewrite Hc. intros nm o Hn. destruct (wf_itable s Hw _ _ Hn) as [? Hx]. split; [assumption|]. intros Hb. apply He. auto.
  - rewrite Hd. intros Hl. pose proof (wf_dot s Hw Hl). destruct (ext_dot _ _ _ He); intuition congruence.
Qed.

Lemma mknod_step_good e g s l idx : wf s -> scan g s l -> in_range l idx -> good g s l (mknod_step e g (s, l) idx).
Proof.
  intros Hw Hs Hi. unfold mknod_step, child_mknod. destruct (fault e _) as [x|]; [case_match; local_good|].
  destruct (objs s !! (g, idx)) eqn:Ho; [local_good|].
  assert (He : ext g s (put (g, idx) [] s)) by (apply put_empty_ext; auto).
  assert (Hw' : wf (put (g, idx) [] s)) by (eapply ext_wf; eauto).
  assert (Hs' : scan g (put (g, idx) [] s) l).
  { eapply scan_weaken; [eassumption|apply He|repeat split|reflexivity|apply Hs]. }
  eapply (good_trans _ _ _ (put (g, idx) [] s) l).
  - split; auto. repeat split.
  - apply link_block_good; auto. unfold put. cbn. rewrite lookup_insert_eq. eauto.
Qed.

Lemma fold_good g (step : state * local -> Z -> state * local) :
  (forall s l idx, wf s -> scan g s l -> in_range l idx -> good g s l (step (s, l) idx)) ->
  forall ms s l, wf s -> scan g s l -> Forall (in_range l) ms -> good g s l (foldl step (s, l) ms).
Proof.
  intros Hstep ms. induction ms as [|idx ms IH]; intros s l Hw Hs Hms; [apply good_start; assumption|].
  apply Forall_cons in Hms as [Hi Hms]. cbn [foldl]. pose proof (Hstep s l idx Hw Hs Hi) as Hg.
  destruct (step (s, l) idx) as [s1 l1]. eapply good_trans; [exact Hg|]. destruct Hg as [Hw1 _ Hs1 (H1 & H2 & _)].
  apply IH; try assumption. eapply Forall_impl; [exact Hms|]. unfold in_range. cbn in *. intros j. lia.
Qed.

(** The blocks of the loops. *)
Lemma loops_agree g s l : scan g s l -> loop_uint32 (first_block l) (last_block l) = loop_int (first_block l) (last_block l).
Proof.
  intros Hs. unfold loop_uint32, loop_int. destruct (sc_range _ _ _ Hs). rewrite !u32_id by lia.
  rewrite (proj2 (Z.leb_le _ _)) by lia. reflexivity.
Qed.

Lemma in_range_loop l idx : idx ∈ loop_int (first_block l) (last_block l) <-> in_range l idx.
Proof. unfold loop_int, in_range. rewrite elem_of_seqZ. lia. Qed.

Lemma loop_in_range l : Forall (in_range l) (loop_int (first_block l) (last_block l)).
Proof. apply Forall_forall. intros idx. apply in_range_loop. Qed.

Lemma elem_of_missing l idx : idx ∈ missing l <-> in_range l idx /\ found l idx = None.
Proof.
  unfold missing. rewrite list_elem_of_In, filter_In, <- list_elem_of_In, in_range_loop, bool_decide_eq_true. reflexivity.
Qed.

Lemma missing_in_range l : Forall (in_range l) (missing l).
Proof. apply Forall_forall. intros idx Hi. apply elem_of_missing in Hi. tauto. Qed.

(** ** What is found *)

(** Over a list of blocks, each step finds the inode of its block or leaves a
    mark ([bad]) that stays. *)
Lemma fold_found g (step : state * local -> Z -> state * local) (bad : local -> Prop) :
  (forall s l idx, wf s -> scan g s l -> in_range l idx -> good g s l (step (s, l) idx)) ->
  (forall s l idx, wf s -> scan g s l -> in_range l idx ->
     let l' := (step (s, l) idx).2 in
     (l' = set_inode idx (g, idx) l \/ (bad l' /\ inode_list l' = inode_list l)) /\ (bad l -> bad l')) ->
  forall ms s l, wf s -> scan g s l -> Forall (in_range l) ms ->
  let l' := (foldl step (s, l) ms).2 in
  (bad l -> bad l') /\
  (forall j, in_range l j -> found l j <> None -> found l' j <> None) /\
  (bad l' \/ forall j, j ∈ ms -> found l' j <> None).
Proof.
  intros Hgood Hstep ms. induction ms as [|idx ms IH]; intros s l Hw Hs Hms.
  { cbn. split; [auto|]. split; [auto|]. right. intros j Hj. apply elem_of_nil in Hj as []. }
  apply Forall_cons in Hms as [Hi Hms]. cbn [foldl]. pose proof (Hgood s l idx Hw Hs Hi) as Hg.
  destruct (Hstep s l idx Hw Hs Hi) as [Hl Hb]. destruct (step (s, l) idx) as [s1 l1]. cbn [snd] in *.
  destruct Hg as [Hw1 _ Hs1 (H1 & H2 & _)]. cbn in *.
  assert (Hr : forall j, in_range l j <-> in_range l1 j) by (unfold in_range; rewrite H1, H2; reflexivity).
  destruct (IH s1 l1 Hw1 Hs1) as (Hb' & Hm & Hf); [eapply Forall_impl; [exact Hms|]; apply Hr|].
  assert (Hm1 : forall j, in_range l j -> found l j <> None -> found l1 j <> None).
  { intros j Hj Hn. destruct Hl as [->|[_ E]].
    - rewrite (found_set_inode g s) by assumption. destruct (j =? idx); congruence.
    - unfold found in *. rewrite H1, E. exact Hn. }
  split; [auto|]. split; [intros j Hj Hn; apply Hm; [apply Hr, Hj|auto]|].
  destruct Hf as [Hf|Hf]; [left; assumption|]. destruct Hl as [Hl|[Hl _]]; [|left; auto].
  right. intros j [->|Hj]%elem_of_cons; [|auto]. apply Hm; [apply Hr, Hi|].
  rewrite Hl, (found_set_inode g s), Z.eqb_refl by assumption. discriminate.
Qed.

Definition count_bad (f : local -> Z) (l : local) : Prop := op_ret l < 0 \/ 0 < f l.

Lemma resolve_found g s l :
  wf s -> scan g s l -> 0 <= op_ret l ->
  let l' := (shard_common_resolve_shards g s l).2 in
  op_ret l' < 0 \/ 0 < call_count l' \/ complete g l'.
Proof.
  intros Hw Hs Ho. unfold shard_common_resolve_shards. rewrite (proj2 (Z.ltb_ge _ _) Ho).
  rewrite (loops_agree g s) by assumption.
  pose proof (fold_good g _ (resolve_step_good g) _ s l Hw Hs (loop_in_range l)) as Hg.
  destruct (fold_found g (resolve_step g) (count_bad call_count) (resolve_step_good g)) with
    (ms := loop_int (first_block l) (last_block l)) (s := s) (l := l) as (_ & _ & Hf); auto using loop_in_range.
  { clear. intros s l idx Hw Hs Hi. unfold resolve_step. destruct (Z.eqb_spec idx 0) as [->|]; [cbn; auto|].
    destruct (itable (cached s) !! (g, idx)) eqn:Ht.
    - destruct (wf_itable s Hw _ _ Ht) as [-> _]. cbn. auto.
    - unfold count_bad. cbn. pose proof (sc_count _ _ _ Hs). split; [right; split; [lia|reflexivity]|lia]. }
  destruct (foldl _ _ _) as [s' l']. cbn [fst snd] in *. destruct Hg as [_ _ Hs' (H1 & H2 & _)]. cbn in *.
  unfold count_bad in Hf. destruct Hf as [[Hf|Hf]|Hf]; auto. right. right. intros idx Hi.
  destruct (found l' idx) as [o|] eqn:E; [destruct (sc_found _ _ _ Hs' idx o Hi E); congruence|].
  exfalso. revert E. apply Hf. rewrite in_range_loop. unfold in_range in *. lia.
Qed.

(** After a pass over the blocks that are missing. *)
Lemma pass_complete g s l step (bad : local -> Prop) :
  (forall s l idx, wf s -> scan g s l -> in_range l idx -> good g s l (step (s, l) idx)) ->
  (forall s l idx, wf s -> scan g s l -> in_range l idx ->
     let l' := (step (s, l) idx).2 in
     (l' = set_inode idx (g, idx) l \/ (bad l' /\ inode_list l' = inode_list l)) /\ (bad l -> bad l')) ->
  wf s -> scan g s l ->
  let l' := (foldl step (s, l) (missing l)).2 in bad l' \/ complete g l'.
Proof.
  intros Hgood Hstep Hw Hs. pose proof (fold_good g step Hgood _ s l Hw Hs (missing_in_range l)) as Hg.
  destruct (fold_found g step bad Hgood Hstep _ s l Hw Hs (missing_in_range l)) as (_ & Hm & Hf).
  destruct (foldl _ _ _) as [s' l']. cbn [fst snd] in *. destruct Hg as [_ _ Hs' (H1 & H2 & _)]. cbn in *.
  destruct Hf as [Hf|Hf]; [auto|]. right. intros idx Hi.
  assert (Hi' : in_range l idx) by (unfold in_range in *; lia).
  destruct (found l' idx) as [o|] eqn:E; [destruct (sc_found _ _ _ Hs' idx o Hi E); congruence|].
  exfalso. destruct (found l idx) eqn:E'; [apply (Hm idx Hi'); congruence|].
  apply (Hf idx); [|assumption]. apply elem_of_missing. auto.
Qed.

(** Operations that create the shards they miss. *)
Definition creates (fop : shard_fop) : bool :=
  match fop with GF_FOP_TRUNCATE | GF_FOP_FTRUNCATE | GF_FOP_UNLINK | GF_FOP_RENAME => false | _ => true end.

Lemma lookup_first_complete e fop g s l :
  creates fop = true -> wf s -> scan g s l ->
  let l' := (shard_common_lookup_shards e fop false g g s l).2 in count_bad create_count l' \/ complete g l'.
Proof.
  intros Hc Hw Hs. apply pass_complete; auto using lookup_step_good.
  clear s l Hw Hs. intros s l idx Hw Hs Hi. unfold lookup_step, count_bad. destruct (child_lookup _ _ _ _) as [x|].
  - pose proof (sc_count _ _ _ Hs). unfold shard_common_lookup_shards_cbk. destruct fop; try discriminate; cbn [negb andb];
      destruct (x =? ENOENT); cbn; (split; [right; split; [lia|reflexivity]|lia]).
  - cbn. auto.
Qed.

Lemma lookup_again_complete e fop g s l :
  creates fop = true -> wf s -> scan g s l ->
  let l' := (shard_common_lookup_shards e fop true g g s l).2 in op_ret l' < 0 \/ complete g l'.
Proof.
  intros Hc Hw Hs. apply (pass_complete g s l _ (fun l => op_ret l < 0)); auto using lookup_step_good.
  clear s l Hw Hs. intros s l idx Hw Hs Hi. unfold lookup_step. destruct (child_lookup _ _ _ _) as [x|].
  - unfold shard_common_lookup_shards_cbk. destruct fop; try discriminate; cbn; (split; [right; split; [lia|reflexivity]|lia]).
  - cbn. auto.
Qed.

Lemma mknod_complete e g s l :
  wf s -> scan g s l ->
  let l' := (shard_common_resume_mknod e g s l).2 in count_bad eexist_count l' \/ complete g l'.
Proof.
  intros Hw Hs. unfold shard_common_resume_mknod.
  enough (H : let l' := (foldl (mknod_step e g) (s, l) (missing l)).2 in count_bad eexist_count l' \/ complete g l').
  { destruct (foldl _ _ _) as [s' l']. exact H. }
  apply pass_complete; auto using mknod_step_good.
  clear s l Hw Hs. intros s l idx Hw Hs Hi. unfold mknod_step, count_bad. pose proof (sc_count _ _ _ Hs).
  destruct (child_mknod _ _ _) as [s' [x|]]; [|cbn; auto].
  destruct (x =? EEXIST); cbn; (split; [right; split; [lia|reflexivity]|lia]).
Qed.

(** ** The directory of the shards *)

(** The ways to it in the handlers: [mk] for those that make the directory. *)
Definition open_dot (e : env) (mk : bool) (g : Z) (s : state) (l : local) : state * local :=
  if dot_linked s then shard_refresh_dot_shard e g s l
  else if mk then shard_mkdir_dot_shard e g s l else shard_lookup_dot_shard e g s l.

Lemma resolve_good g s l : wf s -> scan g s l -> good g s l (shard_common_resolve_shards g s l).
Proof.
  intros Hw Hs. unfold shard_common_resolve_shards. destruct (op_ret l <? 0); [apply good_start; assumption|].
  rewrite (loops_agree g s) by assumption. apply fold_good; auto using resolve_step_good, loop_in_range.
Qed.

Lemma resolve_keeps g s l :
  let r := shard_common_resolve_shards g s l in
  op_ret r.2 = op_ret l /\ op_errno r.2 = op_errno l /\ create_count r.2 = create_count l /\
  eexist_count r.2 = eexist_count l /\ objs r.1 = objs s /\ dot_shard r.1 = dot_shard s.
Proof.
  unfold shard_common_resolve_shards. destruct (op_ret l <? 0); [cbn; tauto|].
  generalize (loop_uint32 (first_block l) (last_block l)). intros ms. revert s l.
  induction ms as [|idx ms IH]; intros s l; [cbn; tauto|]. cbn [foldl].
  destruct (resolve_step g (s, l) idx) as [s1 l1] eqn:E. destruct (IH s1 l1) as (-> & -> & -> & -> & -> & ->).
  unfold resolve_step in E. repeat case_match; simplify_eq; cbn; tauto.
Qed.

Lemma link_dot_good g s l : wf s -> scan g s l -> dot_shard s = Some true ->
  good g s l (set_refreshed true (shard_link_dot_shard_inode s), l).
Proof.
  intros Hw Hs Hd. split; [split; [apply Hw|intros _; exact Hd]|split; auto| |repeat split].
  eapply scan_weaken; [eassumption|auto|repeat split|reflexivity|apply Hs].
Qed.

Lemma make_dot_good g s l : wf s -> scan g s l -> dot_shard s = None ->
  good g s l (set_refreshed true (shard_link_dot_shard_inode (set_dot_shard (Some true) s)), l).
Proof.
  intros Hw Hs Hd. split; [split; [apply Hw|reflexivity]|split; auto| |repeat split].
  eapply scan_weaken; [eassumption|auto|repeat split|reflexivity|apply Hs].
Qed.

Lemma resolve_after g s l s1 l1 : good g s l (s1, l1) -> good g s l (shard_common_resolve_shards g s1 l1).
Proof. intros Hg. eapply good_trans; [exact Hg|]. apply resolve_good; apply Hg. Qed.

Definition opened (g : Z) (l : local) : Prop := op_ret l < 0 \/ 0 < call_count l \/ complete g l.

Lemma set_op_good g s l ret errno : wf s -> scan g s l -> good g s l (s, set_op ret errno l).
Proof. intros Hw Hs. local_good. Qed.

Lemma resolve_opened g s l s1 l1 :
  good g s l (s1, l1) -> opened g (shard_common_resolve_shards g s1 l1).2.
Proof.
  intros Hg. destruct (Z_lt_le_dec (op_ret l1) 0).
  - left. destruct (resolve_keeps g s1 l1) as [-> _]. assumption.
  - apply resolve_found; [apply Hg|apply Hg|assumption].
Qed.

Lemma lookup_dot_good e g s l : wf s -> scan g s l ->
  good g s l (shard_lookup_dot_shard e g s l) /\ opened g (shard_lookup_dot_shard e g s l).2.
Proof.
  intros Hw Hs. unfold shard_lookup_dot_shard.
  destruct (child_lookup_dot e s); [split; [apply set_op_good; assumption|left; reflexivity]|].
  destruct (dot_shard s) as [[|]|] eqn:Hd; try (split; [apply set_op_good; assumption|left; reflexivity]).
  split; [apply resolve_after|eapply resolve_opened]; apply link_dot_good; assumption.
Qed.

Lemma open_dot_good e mk g s l : wf s -> scan g s l ->
  good g s l (open_dot e mk g s l) /\ opened g (open_dot e mk g s l).2.
Proof.
  intros Hw Hs. unfold open_dot. destruct (dot_linked s) eqn:Hl.
  - unfold shard_refresh_dot_shard.
    assert (Hd : dot_shard s = Some true) by (apply wf_dot; assumption).
    destruct (dot_refreshed s).
    { split; [apply resolve_after|eapply resolve_opened]; apply set_op_good; eassumption. }
    destruct (child_lookup_dot e s).
    + split; [apply resolve_after|eapply resolve_opened]; apply set_op_good; eassumption.
    + split; [apply resolve_after|eapply resolve_opened]; apply link_dot_good; eassumption.
  - destruct mk; [|apply lookup_dot_good; assumption]. unfold shard_mkdir_dot_shard.
    destruct (fault e C_mkdir).
    { case_match; [apply lookup_dot_good; assumption|].
      split; [apply resolve_after|eapply resolve_opened]; apply set_op_good; eassumption. }
    destruct (dot_shard s) eqn:Hd; [apply lookup_dot_good; assumption|].
    split; [apply resolve_after|eapply resolve_opened]; apply make_dot_good; eassumption.
Qed.

(** ** Looking up and creating *)

Definition prepare (e : env) (fop : shard_fop) (g : Z) (s : state) (l : local) : state * local :=
  if op_ret l <? 0 then (s, l) else if call_count l =? 0 then (s, l) else
  let '(s, l) := shard_common_lookup_shards e fop false g g s l in
  if op_ret l <? 0 then (s, l) else if create_count l =? 0 then (s, l) else
  let '(s, l) := shard_common_resume_mknod e g s l in
  if op_ret l <? 0 then (s, l) else if eexist_count l =? 0 then (s, l) else
  shard_common_lookup_shards e fop true g g s l.

Lemma lookup_shards_good e fop again g s l : wf s -> scan g s l ->
  good g s l (shard_common_lookup_shards e fop again g g s l).
Proof. intros Hw Hs. apply fold_good; auto using lookup_step_good, missing_in_range. Qed.

Lemma resume_mknod_good e g s l : wf s -> scan g s l -> good g s l (shard_common_resume_mknod e g s l).
Proof.
  intros Hw Hs. unfold shard_common_resume_mknod.
  pose proof (fold_good g _ (mknod_step_good e g) _ s l Hw Hs (missing_in_range l)) as Hg.
  destruct (foldl _ _ _) as [s1 l1]. eapply good_trans; [exact Hg|]. destruct Hg as [Hw1 _ Hs1 _].
  cbn [fst snd] in *. local_good.
Qed.

Lemma prepare_good e fop g s l :
  creates fop = true -> wf s -> scan g s l -> opened g l ->
  good g s l (prepare e fop g s l) /\ (op_ret (prepare e fop g s l).2 < 0 \/ complete g (prepare e fop g s l).2).
Proof.
  intros Hc Hw Hs Hop. unfold prepare. pose proof (sc_count _ _ _ Hs) as Hcnt.
  destruct (Z.ltb_spec (op_ret l) 0); [split; [apply good_start; assumption|left; assumption]|].
  destruct (Z.eqb_spec (call_count l) 0).
  { split; [apply good_start; assumption|]. unfold opened in Hop. cbn. intuition lia. }
  pose proof (lookup_shards_good e fop false g s l Hw Hs) as Hg1.
  pose proof (lookup_first_complete e fop g s l Hc Hw Hs) as Hf1.
  destruct (shard_common_lookup_shards e fop false g g s l) as [s1 l1]. cbn [snd] in Hf1.
  pose proof (good_wf _ _ _ _ Hg1) as Hw1. pose proof (good_scan _ _ _ _ Hg1) as Hs1. cbn [fst snd] in *.
  destruct (Z.ltb_spec (op_ret l1) 0); [split; [assumption|left; assumption]|].
  destruct (Z.eqb_spec (create_count l1) 0).
  { split; [assumption|]. unfold count_bad in Hf1. cbn. intuition lia. }
  pose proof (resume_mknod_good e g s1 l1 Hw1 Hs1) as Hg2. pose proof (mknod_complete e g s1 l1 Hw1 Hs1) as Hf2.
  destruct (shard_common_resume_mknod e g s1 l1) as [s2 l2]. cbn [snd] in Hf2.
  pose proof (good_trans _ _ _ _ _ _ Hg1 Hg2) as Hg3.
  pose proof (good_wf _ _ _ _ Hg2) as Hw2. pose proof (good_scan _ _ _ _ Hg2) as Hs2. cbn [fst snd] in *.
  pose proof (sc_count _ _ _ Hs2).
  destruct (Z.ltb_spec (op_ret l2) 0); [split; [assumption|left; assumption]|].
  destruct (Z.eqb_spec (eexist_count l2) 0).
  { split; [assumption|]. unfold count_bad in Hf2. cbn. intuition lia. }
  split; [eapply good_trans; [exact Hg3|]; apply lookup_shards_good; assumption|].
  apply lookup_again_complete; assumption.
Qed.

(** ** Without failures *)

Definition clean (e : env) : Prop := forall c, ans e c = A_ok.

Lemma clean_fault e c : clean e -> fault e c = None.
Proof. intros He. unfold fault. rewrite He. reflexivity. Qed.

Lemma clean_lookup e c s o : clean e -> child_lookup e c s o = match objs s !! o with Some _ => None | None => Some ENOENT end.
Proof. intros He. unfold child_lookup. rewrite clean_fault by assumption. destruct (objs s !! o); reflexivity. Qed.

Lemma clean_lookup_dot e s : clean e -> child_lookup_dot e s = match dot_shard s with Some _ => None | None => Some ENOENT end.
Proof. intros He. unfold child_lookup_dot. rewrite clean_fault by assumption. destruct (dot_shard s); reflexivity. Qed.

Lemma open_dot_clean e mk g s l :
  clean e -> wf s -> dot_shard s <> Some false -> op_ret l = 0 -> mk = true \/ dot_shard s <> None ->
  let r := open_dot e mk g s l in
  op_ret r.2 = 0 /\ eexist_count r.2 = eexist_count l /\ objs r.1 = objs s /\ dot_shard r.1 = Some true.
Proof.
  intros He Hw Hf Hop Hmk. unfold open_dot.
  assert (Hlook : dot_shard s = Some true ->
    let r := shard_lookup_dot_shard e g s l in
    op_ret r.2 = 0 /\ eexist_count r.2 = eexist_count l /\ objs r.1 = objs s /\ dot_shard r.1 = Some true).
  { intros Hd. unfold shard_lookup_dot_shard. rewrite clean_lookup_dot, Hd by assumption.
    destruct (resolve_keeps g (set_refreshed true (shard_link_dot_shard_inode s)) l) as (-> & _ & _ & -> & -> & ->). auto. }
  destruct (dot_linked s) eqn:Hl.
  - pose proof (wf_dot s Hw Hl) as Hd. unfold shard_refresh_dot_shard. rewrite clean_lookup_dot, Hd by assumption.
    destruct (dot_refreshed s).
    + destruct (resolve_keeps g s (set_op 0 (op_errno l) l)) as (-> & _ & _ & -> & -> & ->). auto.
    + destruct (resolve_keeps g (set_refreshed true (shard_link_dot_shard_inode s)) l) as (-> & _ & _ & -> & -> & ->). auto.
  - destruct (dot_shard s) as [[|]|] eqn:Hd; [|congruence|].
    + destruct mk; [|apply Hlook; reflexivity]. unfold shard_mkdir_dot_shard. rewrite clean_fault, Hd by assumption.
      apply Hlook. reflexivity.
    + destruct mk; [|intuition congruence]. unfold shard_mkdir_dot_shard. rewrite clean_fault, Hd by assumption.
      destruct (resolve_keeps g (set_refreshed true (shard_link_dot_shard_inode (set_dot_shard (Some true) s))) l)
        as (-> & _ & _ & -> & -> & ->). auto.
Qed.

Lemma lookup_step_clean e fop g s l idx :
  clean e ->
  let r := lookup_step e fop false g g (s, l) idx in
  objs r.1 = objs s /\ op_ret r.2 = op_ret l /\ eexist_count r.2 = eexist_count l /\ dot_shard r.1 = dot_shard s /\
  (objs s !! (g, idx) <> None -> r.2 = set_inode idx (g, idx) l) /\
  (objs s !! (g, idx) = None -> inode_list r.2 = inode_list l).
Proof.
  intros He. unfold lookup_step. rewrite clean_lookup by assumption.
  destruct (objs s !! (g, idx)) eqn:Ho; [cbn; split_and!; auto; congruence|].
  unfold shard_common_lookup_shards_cbk. destruct fop; cbn; split_and!; auto; congruence.
Qed.

(** After the first pass an inode is missing only if the bricks have no object. *)
Lemma lookup_shards_clean e fop g s l :
  clean e -> wf s -> scan g s l ->
  let r := shard_common_lookup_shards e fop false g g s l in
  objs r.1 = objs s /\ op_ret r.2 = op_ret l /\ eexist_count r.2 = eexist_count l /\ dot_shard r.1 = dot_shard s /\
  (forall j, in_range l j -> found r.2 j = None -> objs s !! (g, j) = None).
Proof.
  intros He Hw Hs. unfold shard_common_lookup_shards.
  enough (H : forall ms, Forall (in_range l) ms ->
    let r := foldl (lookup_step e fop false g g) (s, l) ms in
    objs r.1 = objs s /\ op_ret r.2 = op_ret l /\ eexist_count r.2 = eexist_count l /\ dot_shard r.1 = dot_shard s /\
    (forall j, in_range l j -> found r.2 j = None -> found l j = None /\ (j ∈ ms -> objs s !! (g, j) = None))).
  { destruct (H (missing l) (missing_in_range l)) as (A & B & C & D & F). split_and!; auto.
    intros j Hj Hn. destruct (F j Hj Hn) as [F1 F2]. apply F2. apply elem_of_missing. auto. }
  intros ms. revert s l Hw Hs. induction ms as [|idx ms IH]; intros s l Hw Hs Hms.
  { cbn. split_and!; auto. intros j _ Hn. split; [assumption|]. intros Hj. apply elem_of_nil in Hj as []. }
  apply Forall_cons in Hms as [Hi Hms]. cbn [foldl]. pose proof (lookup_step_good e fop false g s l idx Hw Hs Hi) as Hg.
  destruct (lookup_step_clean e fop g s l idx He) as (A & B & C & D & F1 & F2).
  destruct (lookup_step e fop false g g (s, l) idx) as [s1 l1]. cbn [fst snd] in *.
  destruct Hg as [Hw1 _ Hs1 (H1 & H2 & _)]. cbn [fst snd] in *.
  assert (Hr : forall j, in_range l j -> in_range l1 j) by (unfold in_range; intros j; lia).
  destruct (IH s1 l1 Hw1 Hs1) as (A' & B' & C' & D' & F'); [eapply Forall_impl; [exact Hms|auto]|].
  split_and!; [congruence..|]. intros j Hj Hn. destruct (F' j (Hr j Hj) Hn) as [G1 G2]. rewrite A in G2.
  destruct (decide (objs s !! (g, idx) = None)) as [Hx|Hx].
  - specialize (F2 Hx). unfold found in G1 |- *. rewrite H1, F2 in G1. split; [exact G1|].
    intros [->|Hj']%elem_of_cons; auto.
  - rewrite (F1 Hx), (found_set_inode g s) in G1 by assumption. destruct (Z.eqb_spec j idx); [congruence|].
    split; [exact G1|]. intros [->|Hj']%elem_of_cons; [congruence|auto].
Qed.

Lemma mknod_fold_clean e g ms : forall s l,
  clean e -> NoDup ms -> (forall j, j ∈ ms -> objs s !! (g, j) = None) ->
  let r := foldl (mknod_step e g) (s, l) ms in
  op_ret r.2 = op_ret l /\ eexist_count r.2 = eexist_count l /\ dot_shard r.1 = dot_shard s.
Proof.
  induction ms as [|idx ms IH]; intros s l He Hn Hm; [cbn; auto|]. apply NoDup_cons in Hn as [Hi Hn]. cbn [foldl].
  unfold mknod_step at 2 4 6. unfold child_mknod. rewrite clean_fault, (Hm idx) by (auto; left).
  unfold shard_link_block_inode.
  match goal with |- context [foldl _ (?s1, ?l1) ms] => destruct (IH s1 l1) as (A & B & C); auto end.
  intros j Hj. cbn. rewrite lookup_insert_ne; [apply Hm; right; assumption|]. intros [= ->]. contradiction.
Qed.

Lemma NoDup_missing l : NoDup (missing l).
Proof. unfold missing. apply NoDup_ListNoDup, List.NoDup_filter, NoDup_ListNoDup. apply NoDup_seqZ. Qed.

Lemma prepare_clean e fop g s l :
  clean e -> wf s -> scan g s l -> op_ret l = 0 -> eexist_count l = 0 ->
  let r := prepare e fop g s l in op_ret r.2 = 0 /\ dot_shard r.1 = dot_shard s.
Proof.
  intros He Hw Hs Ho Hx. unfold prepare. rewrite Ho. cbn [Z.ltb Z.compare].
  destruct (call_count l =? 0); [cbn; auto|].
  pose proof (lookup_shards_good e fop false g s l Hw Hs) as Hg.
  destruct (lookup_shards_clean e fop g s l He Hw Hs) as (A & B & C & D & F).
  destruct (shard_common_lookup_shards e fop false g g s l) as [s1 l1]. cbn [fst snd] in *.
  rewrite B, Ho. cbn [Z.ltb Z.compare]. destruct (create_count l1 =? 0); [cbn; split; congruence|].
  unfold shard_common_resume_mknod.
  destruct (mknod_fold_clean e g (missing l1) s1 l1 He (NoDup_missing l1)) as (B2 & C2 & D2).
  { intros j [Hj Hn]%elem_of_missing. rewrite A. apply F; [|assumption].
    destruct (good_range _ _ _ _ Hg) as (H1 & H2 & _). unfold in_range in *. cbn in *. lia. }
  destruct (foldl (mknod_step e g) (s1, l1) (missing l1)) as [s2 l2]. cbn [fst snd] in *. cbn [op_ret eexist_count set_create_count].
  rewrite B2, B, Ho, C2, C, Hx. cbn. split; congruence.
Qed.

(** ** Results *)

(** An error is -1, and nothing but mkdir makes the directory. *)
Definition tame (s : state) (l : local) (sl : state * local) : Prop :=
  dot_shard sl.1 = dot_shard s /\ (op_ret sl.2 = op_ret l \/ op_ret sl.2 = -1).

Lemma fold_tame (step : state * local -> Z -> state * local) :
  (forall s l idx, tame s l (step (s, l) idx)) -> forall ms s l, tame s l (foldl step (s, l) ms).
Proof.
  intros Hstep ms. induction ms as [|idx ms IH]; intros s l; [unfold tame; cbn; auto|]. cbn [foldl].
  pose proof (Hstep s l idx) as [H1 H2]. destruct (step (s, l) idx) as [s1 l1]. destruct (IH s1 l1) as [H3 H4].
  cbn [fst snd] in *. split; [congruence|]. destruct H4 as [-> | ->]; auto.
Qed.

Lemma lookup_tame e fop again g s l : tame s l (shard_common_lookup_shards e fop again g g s l).
Proof.
  apply fold_tame. clear s l. intros s l idx. unfold lookup_step, shard_common_lookup_shards_cbk, tame.
  destruct (child_lookup _ _ _ _); [|cbn; auto]. destruct fop; repeat case_match; cbn; auto.
Qed.

Lemma mknod_tame e g s l : tame s l (shard_common_resume_mknod e g s l).
Proof.
  unfold shard_common_resume_mknod. enough (H : tame s l (foldl (mknod_step e g) (s, l) (missing l))).
  { destruct (foldl _ _ _). exact H. }
  apply fold_tame. clear s l. intros s l idx. unfold mknod_step, child_mknod, tame.
  destruct (fault e _); [case_match; cbn; auto|]. destruct (objs s !! _); cbn; auto.
Qed.

Lemma prepare_ret e fop g s l :
  (op_ret l <= 0 -> op_ret (prepare e fop g s l).2 <= 0) /\
  (0 <= op_ret (prepare e fop g s l).2 -> op_ret (prepare e fop g s l).2 = op_ret l).
Proof.
  unfold prepare. destruct (op_ret l <? 0); [cbn; auto|]. destruct (call_count l =? 0); [cbn; auto|].
  pose proof (lookup_tame e fop false g s l) as [_ H1].
  destruct (shard_common_lookup_shards e fop false g g s l) as [s1 l1]. cbn [fst snd] in *.
  destruct (op_ret l1 <? 0); [cbn; lia|]. destruct (create_count l1 =? 0); [cbn; lia|].
  pose proof (mknod_tame e g s1 l1) as [_ H2]. destruct (shard_common_resume_mknod e g s1 l1) as [s2 l2]. cbn [fst snd] in *.
  destruct (op_ret l2 <? 0); [cbn; lia|]. destruct (eexist_count l2 =? 0); [cbn; lia|].
  pose proof (lookup_tame e fop true g s2 l2) as [_ H3]. lia.
Qed.

Lemma prepare_dot e fop g s l : dot_shard (prepare e fop g s l).1 = dot_shard s.
Proof.
  unfold prepare. destruct (op_ret l <? 0); [reflexivity|]. destruct (call_count l =? 0); [reflexivity|].
  pose proof (lookup_tame e fop false g s l) as [H1 _].
  destruct (shard_common_lookup_shards e fop false g g s l) as [s1 l1]. cbn [fst snd] in *.
  destruct (op_ret l1 <? 0); [assumption|]. destruct (create_count l1 =? 0); [assumption|].
  pose proof (mknod_tame e g s1 l1) as [H2 _]. destruct (shard_common_resume_mknod e g s1 l1) as [s2 l2]. cbn [fst snd] in *.
  destruct (op_ret l2 <? 0); [cbn; congruence|]. destruct (eexist_count l2 =? 0); [cbn; congruence|].
  pose proof (lookup_tame e fop true g s2 l2) as [H3 _]. congruence.
Qed.

Lemma lookup_dot_ret e g s l :
  let r := shard_lookup_dot_shard e g s l in
  (op_ret r.2 = op_ret l /\ dot_shard r.1 = dot_shard s /\ dot_shard s <> None) \/ op_ret r.2 = -1.
Proof.
  unfold shard_lookup_dot_shard. destruct (child_lookup_dot e s); [right; reflexivity|].
  destruct (dot_shard s) as [[|]|] eqn:Hd; [|right; reflexivity|right; reflexivity].
  left. destruct (resolve_keeps g (set_refreshed true (shard_link_dot_shard_inode s)) l) as (-> & _ & _ & _ & _ & ->).
  cbn. rewrite Hd. auto.
Qed.

Lemma open_dot_outcome e mk g s l :
  wf s -> op_ret l = 0 ->
  let r := open_dot e mk g s l in (op_ret r.2 = 0 /\ dot_shard r.1 <> None) \/ op_ret r.2 = -1.
Proof.
  intros Hw Ho. unfold open_dot.
  assert (Hlook : let r := shard_lookup_dot_shard e g s l in (op_ret r.2 = 0 /\ dot_shard r.1 <> None) \/ op_ret r.2 = -1).
  { destruct (lookup_dot_ret e g s l) as [(H1 & H2 & H3)|H]; [left|right; assumption]. cbn zeta in *. split; congruence. }
  destruct (dot_linked s) eqn:Hl.
  - pose proof (wf_dot s Hw Hl) as Hd. unfold shard_refresh_dot_shard. destruct (dot_refreshed s).
    { destruct (resolve_keeps g s (set_op 0 (op_errno l) l)) as (-> & _ & _ & _ & _ & ->). left. cbn. rewrite Hd. split; [reflexivity|discriminate]. }
    destruct (child_lookup_dot e s) as [x|].
    { destruct (resolve_keeps g s (set_op (-1) x l)) as (-> & _). right. reflexivity. }
    destruct (resolve_keeps g (set_refreshed true (shard_link_dot_shard_inode s)) l) as (-> & _ & _ & _ & _ & ->).
    left. cbn. rewrite Hd. split; [assumption|discriminate].
  - destruct mk; [|exact Hlook]. unfold shard_mkdir_dot_shard. destruct (fault e C_mkdir) as [x|].
    { destruct (x =? EEXIST); [exact Hlook|]. destruct (resolve_keeps g s (set_op (-1) x l)) as (-> & _). right. reflexivity. }
    destruct (dot_shard s) eqn:Hd; [exact Hlook|].
    destruct (resolve_keeps g (set_refreshed true (shard_link_dot_shard_inode (set_dot_shard (Some true) s))) l) as (-> & _ & _ & _ & _ & ->).
    left. cbn. split; [assumption|discriminate].
Qed.
