(* ===== verification/ShardOps.v ===== *)
(** * Sharding: the effect of the operations

    What writing, reading and truncating do to the bytes of the whole file,
    whatever the child answers, and that they succeed when it does. *)

From S2P Require Import Prelude Words Bytes Shard ShardFacts ShardScan.
From stdpp Require Import gmap.
Open Scope Z_scope.

(** The byte at [p] of the whole file. *)
Definition view (s : state) (bs g p : Z) : Z := byte (contents s (g, p / bs)) (p mod bs).

Lemma contents_put s o d k : contents (put o d s) k = if decide (k = o) then d else contents s k.
Proof.
  unfold contents, put. cbn [objs set_objs]. case_decide as H; [subst; rewrite lookup_insert_eq; reflexivity|].
  rewrite lookup_insert_ne by congruence. reflexivity.
Qed.

Lemma view_ext g h bs s s' p : ext g s s' -> view s' bs h p = view s bs h p.
Proof. intros He. unfold view. rewrite (ext_contents g s s' He). reflexivity. Qed.

(** ** Writing *)

(** The byte at [v] of a request, where the file has [old]. *)
Definition new_byte (r : write_req) (v old : Z) : Z :=
  match w_fop r with
  | GF_FOP_WRITE => byte (concat (w_vector r)) v
  | GF_FOP_FALLOCATE => if keep_size r =? 0 then old else 0
  | _ => 0
  end.

Definition fits (r : write_req) (v : Z) : Prop := w_fop r = GF_FOP_WRITE -> v <= zlen (concat (w_vector r)).

Lemma piece_data r v n :
  0 <= v -> 0 <= n -> v + n <= zlen (concat (w_vector r)) ->
  zlen (concat (iov_subset (w_vector r) 0 v (v + n))) = n /\
  forall q, 0 <= q < n -> byte (concat (iov_subset (w_vector r) 0 v (v + n))) q = byte (concat (w_vector r)) (v + q).
Proof.
  intros Hv Hn Hl. rewrite iov_subset_slice by lia. replace (v + n - v) with n by lia. split.
  - rewrite zlen_ztake, zlen_zdrop. lia.
  - intros q Hq. rewrite byte_ztake, (proj2 (Z.ltb_lt q n)) by lia. apply byte_zdrop; lia.
Qed.

(** The object of a piece: the bytes outside of it stay, those inside are new. *)
Lemma child_store_outside r p short old q :
  0 <= p_offset p -> 0 <= p_size p -> 0 <= p_vec p -> fits r (p_vec p + p_size p) ->
  (append_fd r = true -> p_block p = 0 -> zlen old = p_offset p) ->
  ~ p_offset p <= q < p_offset p + p_size p -> byte (child_store r p short old) q = byte old q.
Proof.
  intros Ho Hs Hv Hf Ha Hq. unfold child_store.
  assert (Hz : (p_offset p <=? q) && (q <? p_offset p + p_size p) = false).
  { destruct (Z.leb_spec (p_offset p) q), (Z.ltb_spec q (p_offset p + p_size p)); auto; lia. }
  destruct (w_fop r) eqn:Hop; try (rewrite ?byte_pzero, ?byte_ppunch, Hz by lia; reflexivity).
  - destruct (piece_data r (p_vec p) (p_size p) Hv Hs (Hf Hop)) as [Hd _].
    replace (if append_fd r && (p_block p =? 0) then zlen old else p_offset p) with (p_offset p).
    2:{ destruct (append_fd r); [|reflexivity]. destruct (Z.eqb_spec (p_block p) 0); [|reflexivity]. cbn. symmetry. auto. }
    rewrite byte_pwrite by lia. set (d := concat _) in *.
    assert (Hl : zlen (match short with Some n => ztake n d | None => d end) <= p_size p)
      by (destruct short; [rewrite zlen_ztake|]; lia).
    destruct (Z.leb_spec (p_offset p) q); [|reflexivity].
    destruct (Z.ltb_spec q (p_offset p + zlen (match short with Some n => ztake n d | None => d end))); [lia|reflexivity].
  - case_match; [apply byte_pad|]. case_match; rewrite ?byte_pzero, ?byte_ppunch, Hz by lia; reflexivity.
Qed.

Lemma child_store_inside r p old q :
  0 <= p_offset p -> 0 <= p_vec p -> fits r (p_vec p + p_size p) ->
  (append_fd r = true -> p_block p = 0 -> zlen old = p_offset p) ->
  p_offset p <= q < p_offset p + p_size p ->
  byte (child_store r p None old) q = new_byte r (p_vec p + (q - p_offset p)) (byte old q).
Proof.
  intros Ho Hv Hf Ha Hq. unfold child_store, new_byte.
  assert (Hz : (p_offset p <=? q) && (q <? p_offset p + p_size p) = true).
  { destruct (Z.leb_spec (p_offset p) q), (Z.ltb_spec q (p_offset p + p_size p)); auto; lia. }
  destruct (w_fop r) eqn:Hop; try (rewrite ?byte_pzero, ?byte_ppunch, Hz by lia; reflexivity).
  - destruct (piece_data r (p_vec p) (p_size p) Hv ltac:(lia) (Hf Hop)) as [Hd Hb].
    replace (if append_fd r && (p_block p =? 0) then zlen old else p_offset p) with (p_offset p).
    2:{ destruct (append_fd r); [|reflexivity]. destruct (Z.eqb_spec (p_block p) 0); [|reflexivity]. cbn. symmetry. auto. }
    rewrite byte_pwrite, Hd, Hz by lia. apply Hb. lia.
  - case_match; [apply byte_pad|]. case_match; rewrite ?byte_pzero, ?byte_ppunch, Hz by lia; reflexivity.
Qed.

(** From [s] to [s'] only bytes of [g] in the [n] bytes at [a] have changed. *)
Record touched (g bs a n : Z) (s s' : state) : Prop := {
  tc_view : forall p, 0 <= p -> ~ a <= p < a + n -> view s' bs g p = view s bs g p;
  tc_objs : forall o, is_Some (objs s !! o) -> is_Some (objs s' !! o);
  tc_other : forall o : obj, o.1 <> g -> objs s' !! o = objs s !! o;
  tc_xattrs : xattrs s' = xattrs s;
  tc_ctxs : ctxs s' = ctxs s;
  tc_dot : dot_shard s' = dot_shard s /\ dot_linked s' = dot_linked s;
  tc_cached : cached s' = cached s
}.

Lemma touched_refl g bs a n s : touched g bs a n s s.
Proof. split; auto. Qed.

Lemma touched_app g bs a n m s1 s2 s3 :
  0 <= n -> 0 <= m -> touched g bs a n s1 s2 -> touched g bs (a + n) m s2 s3 -> touched g bs a (n + m) s1 s3.
Proof.
  intros Hn Hm [v1 o1 t1 x1 c1 [d1 l1] k1] [v2 o2 t2 x2 c2 [d2 l2] k2]. split; try congruence; auto.
  - intros p Hp Hr. rewrite v2, v1 by lia. reflexivity.
  - intros o Ho. rewrite t2, t1 by assumption. reflexivity.
  - split; congruence.
Qed.

Lemma put_touched g bs b off n d s :
  0 < bs -> 0 <= off -> off + n <= bs -> is_Some (objs s !! (g, b)) ->
  (forall q, ~ off <= q < off + n -> byte d q = byte (contents s (g, b)) q) ->
  touched g bs (b * bs + off) n s (put (g, b) d s).
Proof.
  intros Hbs Ho Hn Hs Hd. split; auto.
  - intros p Hp Hr. unfold view. rewrite contents_put. case_decide as H; [|reflexivity]. injection H as Hb.
    rewrite Hb. apply Hd. pose proof (in_block bs Hbs p b Hb). pose proof (Z.mod_eq p bs ltac:(lia)). subst b. lia.
  - intros o Hoo. unfold put. cbn. destruct (decide (o = (g, b))) as [->|]; [rewrite lookup_insert_eq; eauto|].
    rewrite lookup_insert_ne by congruence. assumption.
  - intros o Hne. unfold put. cbn. apply lookup_insert_ne. intros <-. apply Hne. reflexivity.
Qed.

Section write.
Context (e : env) (r : write_req) (l : local).
Abbreviation g := (w_gfid r).
Abbreviation bs := (w_bs r).
Context (Hbs : 0 < bs).

Definition no_short : Prop := forall o n, ans e (C_write o) <> A_short n.

(** The bytes that a request makes at [orig], from its byte [vec] on. *)
Definition stored (orig rem vec : Z) (s s' : state) : Prop :=
  forall p, orig <= p < orig + rem -> view s' bs g p = new_byte r (vec + (p - orig)) (view s bs g p).

Definition at_end (orig : Z) (s : state) : Prop := append_fd r = true -> orig / bs = 0 -> zlen (contents s (g, 0)) = orig.

Lemma child_write_step s orig n vec :
  0 <= orig -> 0 < n -> n <= bs - orig mod bs -> 0 <= vec -> fits r (vec + n) -> at_end orig s ->
  let p := mk_piece (orig / bs) (orig mod bs) n vec in
  let '(s', res) := child_write e s (g, orig / bs) r p in
  touched g bs orig n s s' /\
  (forall k, res = inr k -> no_short -> stored orig n vec s s' /\ k = if decide (w_fop r = GF_FOP_WRITE) then n else 0) /\
  (clean e -> is_Some (objs s !! (g, orig / bs)) -> exists k, res = inr k).
Proof.
  intros Ho Hn Hr Hv Hf Ha p. unfold child_write.
  pose proof (Z.div_mod orig bs ltac:(lia)) as Hdm. pose proof (Z.mod_pos_bound orig bs Hbs) as Hm.
  assert (Hend : forall old, objs s !! (g, orig / bs) = Some old -> append_fd r = true -> p_block p = 0 -> zlen old = p_offset p).
  { intros old Hold Hap Hb. cbn in *. rewrite Hb in *. specialize (Ha Hap Hb). unfold contents in Ha. rewrite Hold in Ha.
    cbn in Ha. lia. }
  assert (Hput : forall old sh, objs s !! (g, orig / bs) = Some old ->
    touched g bs orig n s (put (g, orig / bs) (child_store r p sh old) s)).
  { intros old sh Hold. replace orig with (orig / bs * bs + orig mod bs) at 1 by lia.
    apply put_touched; [lia|lia|lia|eauto|]. intros q Hq. unfold contents. rewrite Hold.
    apply child_store_outside; [cbn; lia|cbn; lia|exact Hv|exact Hf|apply (Hend old Hold)|exact Hq]. }
  assert (Hin : forall old, objs s !! (g, orig / bs) = Some old -> stored orig n vec s (put (g, orig / bs) (child_store r p None old) s)).
  { intros old Hold q Hq. assert (Hqb : q / bs = orig / bs /\ q mod bs = orig mod bs + (q - orig)).
    { apply (div_mod_unique bs Hbs q (orig / bs)); lia. }
    destruct Hqb as [Hq1 Hq2]. unfold view. rewrite Hq1, contents_put, decide_True by reflexivity.
    unfold contents. rewrite Hold. cbn [default from_option id].
    rewrite child_store_inside; cbn [p p_offset p_vec p_size]; [f_equal; lia|lia|lia|assumption|apply (Hend old Hold)|lia]. }
  destruct (ans e (C_write (g, orig / bs))) eqn:Hans.
  - destruct (objs s !! (g, orig / bs)) as [old|] eqn:Hold.
    + split; [auto|]. split; [intros k [= <-] _; auto|eauto].
    + split; [apply touched_refl|]. split; [discriminate|intros _ [? [=]]].
  - destruct (objs s !! (g, orig / bs)) as [old|] eqn:Hold.
    + split; [auto|]. split; [intros k _ Hns; destruct (Hns _ _ Hans)|eauto].
    + split; [apply touched_refl|]. split; [discriminate|intros _ [? [=]]].
  - split; [apply touched_refl|]. split; [discriminate|]. intros Hc. rewrite Hc in Hans. discriminate.
Qed.

Definition outcome (orig rem vec : Z) (s : state) (t : sums) (s' : state) (t' : sums) : Prop :=
  touched g bs orig rem s s' /\
  (t_ret t < 0 -> t_ret t' < 0) /\
  (0 <= t_ret t' -> no_short -> stored orig rem vec s s' /\
     u64 (written_size t') = u64 (written_size t + if decide (w_fop r = GF_FOP_WRITE) then rem else 0)) /\
  (clean e -> (forall j, in_range l j -> is_Some (objs s !! (g, j))) -> t_ret t' = t_ret t) /\
  (0 <= written_size t < 2 ^ 64 -> 0 <= written_size t' < 2 ^ 64).

Lemma write_step_outcome s t orig n vec :
  complete g l -> in_range l (orig / bs) ->
  0 <= orig -> 0 < n -> n <= bs - orig mod bs -> 0 <= vec -> fits r (vec + n) -> at_end orig s ->
  exists s' t', write_step e r l (Some (s, t)) (mk_piece (orig / bs) (orig mod bs) n vec) = Some (s', t') /\
    outcome orig n vec s t s' t'.
Proof.
  intros Hc Hi Ho Hn Hr Hv Hf Ha. unfold write_step. cbn [mbind option_bind].
  replace (piece_obj l g (p_block (mk_piece (orig / bs) (orig mod bs) n vec))) with (Some (g, orig / bs)).
  2:{ unfold piece_obj. cbn. destruct (Z.eqb_spec (orig / bs) 0) as [E|E]; [rewrite E; reflexivity|]. symmetry. apply Hc. assumption. }
  pose proof (child_write_step s orig n vec Ho Hn Hr Hv Hf Ha) as Hw. cbn zeta in Hw. cbn [mbind option_bind].
  destruct (child_write e s (g, orig / bs) r _) as [s' res]. destruct Hw as (Ht & Hin & Hcl).
  do 2 eexists. split; [reflexivity|]. unfold outcome. destruct res as [x|k]; cbn.
  - split; [assumption|]. split; [lia|]. split; [lia|].
    split; [|auto]. intros Hc' Hex. destruct (Hcl Hc' (Hex _ Hi)). discriminate.
  - split; [assumption|]. split; [auto|]. split; [|split; [auto|intros _; apply u64_range]].
    intros _ Hns. destruct (Hin k eq_refl Hns) as [H1 ->].
    split; [assumption|]. unfold u64. rewrite Z.mod_mod by lia. reflexivity.
Qed.

Lemma outcome_app orig n m vec s t s1 t1 s2 t2 :
  0 <= orig -> 0 <= n -> 0 <= m -> outcome orig n vec s t s1 t1 -> outcome (orig + n) m (vec + n) s1 t1 s2 t2 ->
  outcome orig (n + m) vec s t s2 t2.
Proof.
  intros Ho Hn Hm (T1 & R1 & S1 & C1 & W1) (T2 & R2 & S2 & C2 & W2). split; [eapply touched_app; eauto|]. split; [auto|].
  split; [|split; [|auto]].
  - intros Ht Hns. destruct (S2 Ht Hns) as [V2 X2].
    destruct (S1 ltac:(destruct (Z_lt_le_dec (t_ret t1) 0); [lia|assumption]) Hns) as [V1 X1].
    split.
    + intros p Hp. destruct (Z_lt_le_dec p (orig + n)).
      * rewrite (tc_view _ _ _ _ _ _ T2) by lia. apply V1. lia.
      * rewrite V2 by lia. rewrite (tc_view _ _ _ _ _ _ T1 p) by lia. f_equal. lia.
    + rewrite X2. unfold u64 in *. rewrite <- Zplus_mod_idemp_l, X1, Zplus_mod_idemp_l. f_equal. case_decide; lia.
  - intros Hc Hex. rewrite C2, C1; auto. intros j Hj. apply (tc_objs _ _ _ _ _ _ T1). auto.
Qed.

Lemma write_fold_outcome orig rem :
  complete g l -> 0 <= orig -> 0 < rem -> orig + rem < 2 ^ 64 ->
  forall vec, 0 <= vec -> fits r (vec + rem) ->
  (forall j, orig / bs <= j <= (orig + rem - 1) / bs -> in_range l j) ->
  forall s t, at_end orig s ->
  exists s' t', foldl (write_step e r l) (Some (s, t))
      (cut_pieces bs (seqZ (orig / bs) ((orig + rem - 1) / bs - orig / bs + 1)) orig rem vec) = Some (s', t') /\
    outcome orig rem vec s t s' t'.
Proof.
  intros Hc Ho Hr H64 vec. revert orig rem vec Ho Hr H64.
  apply (cut_pieces_ind bs Hbs (fun orig rem vec ps => 0 <= vec -> fits r (vec + rem) ->
    (forall j, orig / bs <= j <= (orig + rem - 1) / bs -> in_range l j) -> forall s t, at_end orig s ->
    exists s' t', foldl (write_step e r l) (Some (s, t)) ps = Some (s', t') /\ outcome orig rem vec s t s' t')).
  - intros orig rem vec Ho Hr Hle _ Hv Hf Hin s t Ha. cbn [foldl].
    apply write_step_outcome; auto. apply Hin. rewrite range_last_block; lia.
  - intros orig rem vec ps Ho Hr Hgt H64 IH Hv Hf Hin s t Ha. cbn [foldl].
    pose proof (Z.mod_pos_bound orig bs Hbs) as Hm. destruct (range_next_block bs Hbs orig rem Hgt) as (Hd & _ & Hl).
    destruct (write_step_outcome s t orig (bs - orig mod bs) vec) as (s1 & t1 & E1 & O1); auto; try lia.
    { apply Hin. lia. }
    { intros Hop. specialize (Hf Hop). lia. }
    rewrite E1. destruct (IH ltac:(lia)) with (s := s1) (t := t1) as (s2 & t2 & E2 & O2).
    + replace (vec + (bs - orig mod bs) + (rem - (bs - orig mod bs))) with (vec + rem) by lia. assumption.
    + intros j Hj. apply Hin. rewrite Hd in Hj.
      replace (orig + (bs - orig mod bs) + (rem - (bs - orig mod bs)) - 1) with (orig + rem - 1) in Hj by lia. lia.
    + intros _ Hz. rewrite Hd in Hz. pose proof (Z.div_pos orig bs). lia.
    + exists s2, t2. split; [assumption|]. replace rem with (bs - orig mod bs + (rem - (bs - orig mod bs))) by lia.
      eapply outcome_app; eauto; lia.
Qed.

End write.

(** ** Ranges *)

(** Block numbers are of type int, offsets of type off_t. *)
Definition limit (bs : Z) : Z := Z.min ((2 ^ 31 - 1) * bs) (2 ^ 63 - 1).

Lemma set_range_scan g s first last :
  0 <= first <= last -> last < 2 ^ 31 - 1 ->
  exists l, set_range first last = Some l /\ scan g s l /\ first_block l = first /\ last_block l = last /\
    op_ret l = 0 /\ call_count l = 0 /\ create_count l = 0 /\ eexist_count l = 0.
Proof.
  intros Hf Hl. unfold set_range. rewrite !s32_id by (rewrite ?s32_id; lia).
  rewrite (proj2 (Z.ltb_ge _ _)) by lia. eexists. split; [reflexivity|]. split; [|cbn; split_and!; reflexivity].
  split; cbn; auto; try lia.
  - unfold zlen. rewrite length_replicate. lia.
  - intros idx o Hi. unfold found. cbn. rewrite nth_lookup. destruct (replicate _ _ !! _) eqn:E; [|discriminate].
    apply lookup_replicate in E as [-> _]. discriminate.
Qed.

Lemma range_blocks bs off size :
  0 < bs -> 0 <= off -> 0 < size -> off + size <= limit bs ->
  get_lowest_block off bs = off / bs /\ get_highest_block off size bs = (off + size - 1) / bs /\
  0 <= off / bs <= (off + size - 1) / bs /\ (off + size - 1) / bs < 2 ^ 31 - 1.
Proof.
  intros Hb Ho Hs Hl. unfold limit in Hl. unfold get_lowest_block, get_highest_block.
  rewrite !u64_id by lia. rewrite (proj2 (Z.eqb_neq _ _)) by lia.
  split; [reflexivity|]. split; [reflexivity|]. split; [split; [apply Z.div_pos; lia|apply Z.div_le_mono; lia]|].
  apply Z.div_lt_upper_bound; lia.
Qed.

(** ** The size *)

Definition xsize (x : xattr) : Z := nth 0 (x_size x) 0.
Definition x_ok (x : xattr) : Prop := length (x_size x) = 4%nat /\ 0 <= xsize x < 2 ^ 64.

Lemma add_size x size bl :
  x_ok x -> length (add_array64 (x_size x) (shard_set_size_attrs size bl)) = 4%nat /\
  nth 0 (add_array64 (x_size x) (shard_set_size_attrs size bl)) 0 = u64 (xsize x + size).
Proof.
  intros [Hl Hr]. unfold xsize in *. destruct (x_size x) as [|a [|b [|c [|d [|]]]]]; try discriminate. cbn.
  split; [reflexivity|]. unfold u64. rewrite Zplus_mod_idemp_r. reflexivity.
Qed.

(** The attribute after [shard_update_file_size]. *)
Lemma update_file_size_spec e s g x delta hole db post :
  xattrs s !! g = Some x -> x_ok x ->
  let '(s', u) := shard_update_file_size e s g delta hole db post in
  match u with
  | inl _ => s' = s
  | inr post' => exists x', s' = set_xattrs (<[g := x']> (xattrs s)) s /\ x_ok x' /\ x_block_size x' = x_block_size x /\
      xsize x' = u64 (xsize x + (delta + hole)) /\ (post' = post \/ ia_size post' = xsize x')
  end /\ (clean e -> exists post', u = inr post').
Proof.
  intros Hx Hok. unfold shard_update_file_size. destruct (_ && _) eqn:Hz.
  - split; [|eauto]. apply andb_true_iff in Hz as [Hz _]. apply Z.eqb_eq in Hz. exists x.
    pose proof (proj2 Hok) as Hr. split_and!; auto.
    + rewrite insert_id by assumption. destruct s. reflexivity.
    + unfold u64 in *. rewrite <- Zplus_mod_idemp_r, Hz, Z.add_0_r, Z.mod_small by lia. reflexivity.
  - unfold child_xattrop. destruct (fault e (C_xattrop g)) eqn:Hf.
    { split; [reflexivity|]. intros He. rewrite clean_fault in Hf by assumption. discriminate. }
    rewrite Hx. cbn. destruct (add_size x (delta + hole) db Hok) as [A B].
    split; [|eauto]. eexists. split; [reflexivity|]. unfold x_ok, xsize. cbn [x_size x_block_size]. rewrite A, B.
    split_and!; auto; try apply u64_range.
Qed.

(** ** A file and its contents *)

(** The sharded file [g] with blocks of [bs] bytes has the contents [f]. *)
Record represents (bs g : Z) (s : state) (f : list Z) : Prop := {
  rp_bs : 0 < bs;
  rp_wf : wf s;
  rp_dir : dot_shard s <> Some false;
  rp_base : is_Some (objs s !! (g, 0));
  rp_ctx : exists c, ctxs s !! g = Some c /\ block_size c = bs /\ (refresh c = false -> ia_size (stat c) = zlen f);
  rp_xattr : exists x, xattrs s !! g = Some x /\ x_ok x /\ xsize x = zlen f;
  rp_bytes : forall p, 0 <= p -> view s bs g p = byte f p;
  rp_empty : dot_shard s = None -> forall p, byte f p = 0;
  rp_limit : zlen f <= limit bs
}.

(** What an operation on [g] leaves alone, and keeps well-formed. *)
Record kept (g : Z) (s s' : state) : Prop := {
  kp_objs : forall o : obj, o.1 <> g -> objs s' !! o = objs s !! o;
  kp_xattrs : forall h, h <> g -> xattrs s' !! h = xattrs s !! h;
  kp_ctxs : forall h, h <> g -> ctxs s' !! h = ctxs s !! h;
  kp_dot : dot_shard s' = dot_shard s \/ (dot_shard s = None /\ dot_shard s' = Some true);
  kp_wf : wf s'
}.

Lemma kept_refl g s : wf s -> kept g s s.
Proof. split; auto. Qed.

Lemma kept_trans g s1 s2 s3 : kept g s1 s2 -> kept g s2 s3 -> kept g s1 s3.
Proof.
  intros [o1 x1 c1 d1 _] [o2 x2 c2 d2 w2]. split; auto.
  - intros o Ho. rewrite o2, o1 by assumption. reflexivity.
  - intros h Hh. rewrite x2, x1 by assumption. reflexivity.
  - intros h Hh. rewrite c2, c1 by assumption. reflexivity.
  - destruct d2 as [->|[H2 ->]]; [assumption|]. right. split; [|reflexivity].
    destruct d1 as [<-|[H1 _]]; assumption.
Qed.

Lemma good_kept g s l sl : good g s l sl -> kept g s sl.1.
Proof.
  intros [Hw He _ _]. split; [apply He| | |apply He|assumption]; intros h _;
    rewrite ?(ext_xattrs _ _ _ He), ?(ext_ctxs _ _ _ He); reflexivity.
Qed.

Lemma touched_wf g bs a n s s' : wf s -> touched g bs a n s s' -> wf s'.
Proof.
  intros Hw Ht. split.
  - rewrite (tc_cached _ _ _ _ _ _ Ht). intros nm o Hn. destruct (wf_itable s Hw _ _ Hn) as [? Hx]. split; [assumption|].
    intros Hb. apply (tc_objs _ _ _ _ _ _ Ht). auto.
  - destruct (tc_dot _ _ _ _ _ _ Ht) as [-> ->]. apply Hw.
Qed.

Lemma touched_kept g bs a n s s' : wf s -> touched g bs a n s s' -> kept g s s'.
Proof.
  intros Hw Ht. split; [apply Ht| | |left; apply Ht|eapply touched_wf; eauto]; intros h _;
    rewrite ?(tc_xattrs _ _ _ _ _ _ Ht), ?(tc_ctxs _ _ _ _ _ _ Ht); reflexivity.
Qed.

Lemma set_ctx_kept g s c : wf s -> kept g s (set_ctxs (<[g := c]> (ctxs s)) s).
Proof. intros Hw. split; auto; [|destruct Hw; split; auto]. intros h Hh. cbn. apply lookup_insert_ne. congruence. Qed.

Lemma set_xattr_kept g s x : wf s -> kept g s (set_xattrs (<[g := x]> (xattrs s)) s).
Proof. intros Hw. split; auto; [|destruct Hw; split; auto]. intros h Hh. cbn. apply lookup_insert_ne. congruence. Qed.

(** The context after [shard_lookup_base_file]. *)
Lemma lookup_base_spec e bs g s f :
  represents bs g s f ->
  let '(s1, b) := shard_lookup_base_file e s g in
  represents bs g s1 f /\ kept g s s1 /\ objs s1 = objs s /\ xattrs s1 = xattrs s /\ dot_linked s1 = dot_linked s /\
  match b with
  | inl _ => True
  | inr st => ia_size st = zlen f /\ exists c, ctxs s1 !! g = Some c /\ block_size c = bs /\ stat c = st /\ refresh c = false
  end /\ (clean e -> exists st, b = inr st).
Proof.
  intros R. destruct (rp_ctx _ _ _ _ R) as (c & Hc & Hb & Hr). destruct (rp_xattr _ _ _ _ R) as (x & Hx & Hok & Hsz).
  unfold shard_lookup_base_file, shard_inode_ctx_fill_iatt_from_cache. rewrite Hc.
  destruct (refresh c) eqn:Href.
  2:{ split_and!; eauto using kept_refl, rp_wf. }
  destruct (child_lookup e _ s (g, 0)) eqn:Hl.
  { split_and!; eauto using kept_refl, rp_wf. intros He. rewrite clean_lookup in Hl by assumption.
    destruct (rp_base _ _ _ _ R) as [d Hd]. rewrite Hd in Hl. discriminate. }
  unfold xattr_iatt. rewrite Hx. cbn [fmap option_fmap option_map]. unfold shard_inode_ctx_set. rewrite Hc. cbn [default from_option id].
  assert (K : kept g s (set_ctxs (<[g := mk_ctx (block_size c) (shard_modify_size_and_block_count (x_size x)) false]> (ctxs s)) s))
    by (apply set_ctx_kept, R).
  split_and!; auto.
  - destruct R. split; auto; [apply K|]. eexists. cbn. rewrite lookup_insert_eq. split; [reflexivity|]. cbn. auto.
  - eexists. cbn. rewrite lookup_insert_eq. split; [reflexivity|]. cbn. auto.
  - eauto.
Qed.

(** ** The write operations *)

Lemma write_post_resolve_eq e r prebuf s l :
  shard_common_inode_write_post_resolve_handler e r prebuf s l =
  let '(s, l) := prepare e (w_fop r) (w_gfid r) s l in
  if op_ret l <? 0 then (s, failed l) else shard_common_inode_write_do e r prebuf s l.
Proof.
  unfold shard_common_inode_write_post_resolve_handler, shard_common_inode_write_post_lookup_shards_handler,
    shard_common_inode_write_post_mknod_handler, prepare.
  destruct (op_ret l <? 0) eqn:E0; [rewrite E0; reflexivity|]. destruct (call_count l =? 0); [rewrite E0; reflexivity|].
  destruct (shard_common_lookup_shards e (w_fop r) false _ _ s l) as [s1 l1].
  destruct (op_ret l1 <? 0) eqn:E1; [rewrite E1; reflexivity|]. destruct (create_count l1 =? 0); [rewrite E1; reflexivity|].
  destruct (shard_common_resume_mknod e _ s1 l1) as [s2 l2].
  destruct (op_ret l2 <? 0) eqn:E2; [rewrite E2; reflexivity|]. destruct (eexist_count l2 =? 0); [rewrite E2; reflexivity|].
  reflexivity.
Qed.

(** The objects of the blocks that have been found. *)
Lemma complete_objs bs g s0 s l f j :
  represents bs g s0 f -> ext g s0 s -> scan g s l -> complete g l -> in_range l j -> is_Some (objs s !! (g, j)).
Proof.
  intros R He Hs Hc Hj. destruct (Z.eq_dec j 0) as [->|Hne]; [apply (ext_objs _ _ _ He), R|].
  apply (sc_found _ _ _ Hs j); auto.
Qed.

Definition grown (r : write_req) (size : Z) : Z :=
  if shard_is_appending_write r then w_size r
  else if size <? w_offset r + w_size r then w_offset r + w_size r - size else 0.

Section write_ops.
Context (e : env) (r : write_req) (f : list Z).
Abbreviation g := (w_gfid r).
Abbreviation bs := (w_bs r).
Abbreviation off := (w_offset r).
Context (Hns : no_short e) (Hcreates : creates (w_fop r) = true).
Context (Hoff : 0 <= off) (Hsize : 0 < w_size r) (Hlim : off + w_size r <= limit bs) (Hint : w_size r < 2 ^ 31).
Context (Hfits : fits r (w_size r)) (Happ : shard_is_appending_write r = true -> off = zlen f).

(** The new contents of the file. *)
Definition becomes (f' : list Z) : Prop :=
  zlen f' = Z.max (zlen f) (off + w_size r) /\
  forall p, 0 <= p -> byte f' p = if (off <=? p) && (p <? off + w_size r) then new_byte r (p - off) (byte f p) else byte f p.

Definition write_result (s : state) (res : state * reply) : Prop :=
  exists s' ret errno pre post, res = (s', Unwind ret errno pre post []) /\ kept g s s' /\
    (forall p, 0 <= p -> ~ off <= p < off + w_size r -> view s' bs g p = view s bs g p) /\
    (ret < 0 -> xattrs s' = xattrs s) /\
    (0 <= ret -> ret = (if decide (w_fop r = GF_FOP_WRITE) then w_size r else 0) /\
       (exists st, post = Some st /\ ia_size st = Z.max (zlen f) (off + w_size r)) /\
       forall f', becomes f' -> represents bs g s' f') /\
    (clean e -> 0 <= ret).

Lemma grown_size : zlen f + grown r (zlen f) = Z.max (zlen f) (off + w_size r) /\ 0 <= grown r (zlen f).
Proof.
  unfold grown. destruct (shard_is_appending_write r); [specialize (Happ eq_refl); lia|].
  destruct (Z.ltb_spec (zlen f) (off + w_size r)); lia.
Qed.

(** An append grows the file by as much when its flag is gone. *)
Lemma grown_flags_after ps : grown (flags_after r ps) (zlen f) = grown r (zlen f).
Proof.
  unfold flags_after. destruct (_ && _); [|reflexivity]. unfold grown at 1. cbn [w_size w_offset].
  destruct grown_size as [Hg _]. unfold grown in *. unfold shard_is_appending_write at 1. cbn [append_flag append_fd w_fop orb].
  destruct (bool_decide _ && append_fd r) eqn:E; [|destruct (Z.ltb_spec (zlen f) (off + w_size r)); lia].
  apply andb_true_iff in E as [E1 E2]. unfold shard_is_appending_write. rewrite E1, E2, orb_true_r. reflexivity.
Qed.

Lemma flags_after_gfid ps : w_gfid (flags_after r ps) = g.
Proof. unfold flags_after. destruct (_ && _); reflexivity. Qed.

Lemma delta_size_spec ps s c :
  ctxs s !! g = Some c -> ia_size (stat c) = zlen f -> zlen f <= limit bs ->
  shard_get_delta_size_from_inode_ctx s (flags_after r ps) =
    (set_ctxs (<[g := mk_ctx (block_size c) (mk_iatt (zlen f + grown r (zlen f)) (ia_blocks (stat c))) (refresh c)]> (ctxs s)) s,
     grown r (zlen f), mk_iatt (zlen f + grown r (zlen f)) (ia_blocks (stat c))).
Proof.
  intros Hc Hz Hl. unfold shard_get_delta_size_from_inode_ctx. unfold limit in *.
  pose proof grown_size as [Hg _]. pose proof (zlen_nonneg f). rewrite flags_after_gfid, Hc, Hz.
  assert (Hsame : w_offset (flags_after r ps) = off /\ w_size (flags_after r ps) = w_size r) by (unfold flags_after; destruct (_ && _); auto).
  rewrite (u64_id (w_offset _ + _)) by lia. fold (grown (flags_after r ps) (zlen f)). rewrite grown_flags_after, (u64_id (zlen f + _)) by lia. reflexivity.
Qed.

(** After the pieces are written. *)
Lemma write_done_spec ps prebuf s0 s t c :
  represents bs g s0 f -> ctxs s0 !! g = Some c -> ia_size (stat c) = zlen f -> block_size c = bs ->
  kept g s0 s -> ctxs s = ctxs s0 -> xattrs s = xattrs s0 -> is_Some (objs s !! (g, 0)) -> dot_shard s = Some true ->
  (forall p, 0 <= p -> ~ off <= p < off + w_size r -> view s bs g p = view s0 bs g p) ->
  (0 <= t_ret t -> (forall p, off <= p < off + w_size r -> view s bs g p = new_byte r (p - off) (view s0 bs g p)) /\
     u64 (written_size t) = if decide (w_fop r = GF_FOP_WRITE) then w_size r else 0) ->
  0 <= written_size t < 2 ^ 64 -> (clean e -> 0 <= t_ret t) ->
  write_result s0 (write_done e (flags_after r ps) prebuf s t).
Proof.
  intros R Hc Hz Hcb K Hctx Hxs Hbase Hdot Hout Hin Hw Hcl. unfold write_done.
  destruct (Z.ltb_spec (t_ret t) 0) as [Hlt|Hge].
  { do 5 eexists. split; [reflexivity|]. split; [assumption|]. split; [assumption|].
    split; [auto|]. split; [lia|]. intros He. specialize (Hcl He). lia. }
  destruct (Hin Hge) as [Hnew Hwr]. rewrite u64_id in Hwr by assumption.
  rewrite (delta_size_spec ps s c), flags_after_gfid by (rewrite ?Hctx; auto; apply R).
  set (s1 := set_ctxs _ s). destruct (rp_xattr _ _ _ _ R) as (x & Hx & Hok & Hxz).
  assert (K1 : kept g s0 s1) by (eapply kept_trans; [exact K|]; apply set_ctx_kept, K).
  pose proof (update_file_size_spec e s1 g x (grown r (zlen f)) 0 (delta_blocks t)
    (mk_iatt (zlen f + grown r (zlen f)) (ia_blocks (stat c)))) as Hu.
  destruct (shard_update_file_size _ _ _ _ _ _ _) as [s2 u]. destruct Hu as [Hu Hucl].
  { unfold s1. cbn. rewrite Hxs. assumption. }
  { assumption. }
  pose proof grown_size as [Hg Hg0]. pose proof (zlen_nonneg f) as Hf0. pose proof (rp_limit _ _ _ _ R) as Hl. unfold limit in *.
  destruct u as [x'|post].
  { subst s2. do 5 eexists. split; [reflexivity|]. split; [assumption|]. split; [intros p Hp Hr; apply Hout; assumption|].
    split; [intros _; exact Hxs|]. split; [lia|]. intros He. destruct (Hucl He). discriminate. }
  destruct Hu as (x' & -> & Hok' & Hxb & Hsz & Hpost). rewrite Hxz, Z.add_0_r, Hg, u64_id in Hsz by lia.
  assert (K2 : kept g s0 (set_xattrs (<[g := x']> (xattrs s1)) s1)) by (eapply kept_trans; [exact K1|]; apply set_xattr_kept, K1).
  do 5 eexists. split; [reflexivity|]. split; [assumption|]. split; [intros p Hp Hr; apply Hout; assumption|].
  rewrite Hwr. rewrite s32_id by (case_decide; lia). split; [case_decide; lia|]. split; [|case_decide; lia].
  intros _. split; [reflexivity|]. split.
  { exists post. split; [reflexivity|]. destruct Hpost as [-> | ->]; cbn; lia. }
  intros f' [Hlen Hbytes]. split; auto.
  - apply R.
  - apply K2.
  - cbn. congruence.
  - exists (mk_ctx (block_size c) (mk_iatt (zlen f + grown r (zlen f)) (ia_blocks (stat c))) (refresh c)).
    cbn. rewrite lookup_insert_eq. split_and!; auto. intros _. lia.
  - exists x'. cbn. rewrite lookup_insert_eq. split_and!; auto. lia.
  - intros p Hp. change (view s bs g p = byte f' p). rewrite Hbytes by assumption.
    destruct (Z.leb_spec off p), (Z.ltb_spec p (off + w_size r)); cbn [andb];
      try (rewrite Hout by lia; apply R; assumption). rewrite Hnew by lia. f_equal. apply R. assumption.
  - cbn. congruence.
  - unfold limit. lia.
Qed.

Lemma write_do_spec prebuf s0 l0 s l c :
  represents bs g s0 f -> ctxs s0 !! g = Some c -> ia_size (stat c) = zlen f -> block_size c = bs ->
  good g s0 l0 (s, l) -> complete g l -> dot_shard s <> None -> at_end r off s ->
  first_block l = off / bs -> last_block l = (off + w_size r - 1) / bs -> op_ret l = 0 ->
  write_result s0 (shard_common_inode_write_do e r prebuf s l).
Proof.
  intros R Hc Hz Hcb Hg Hcomp Hdot Hend Hf Hl Hop. pose proof (good_wf _ _ _ _ Hg) as Hw. pose proof (good_scan _ _ _ _ Hg) as Hs.
  pose proof (good_ext _ _ _ _ Hg) as He. cbn [fst snd] in *. pose proof (rp_bs _ _ _ _ R) as Hbs.
  pose proof (sc_num _ _ _ Hs) as Hnum. pose proof (proj1 (sc_range _ _ _ Hs)) as Hrng.
  unfold shard_common_inode_write_do. rewrite (loops_agree g s) by assumption. unfold loop_int. rewrite Hf, Hl in *.
  destruct (write_fold_outcome e r l Hbs off (w_size r) Hcomp Hoff Hsize) with
    (vec := 0) (s := s) (t := mk_sums (op_ret l) (op_errno l) 0 0) as (s' & t & E & Ht & _ & Hst & Hcl & Hwr); auto.
  { unfold limit in Hlim. lia. }
  { lia. }
  { intros j Hj. unfold in_range. lia. }
  rewrite E, cut_pieces_length. unfold zlen at 1. rewrite length_seqZ, Hnum.
  rewrite Z2Nat.id by lia. rewrite (proj2 (Z.eqb_neq _ 0)), Z.eqb_refl by lia. cbn [negb orb].
  assert (Hd : dot_shard s' = Some true).
  { rewrite (proj1 (tc_dot _ _ _ _ _ _ Ht)). pose proof (rp_dir _ _ _ _ R).
    destruct (ext_dot _ _ _ He) as [E'|[_ E']]; [|assumption]. destruct (dot_shard s) as [[|]|]; congruence. }
  eapply write_done_spec; eauto.
  - eapply kept_trans; [apply (good_kept _ _ _ _ Hg)|]. eapply touched_kept; eauto.
  - rewrite (tc_ctxs _ _ _ _ _ _ Ht). apply He.
  - rewrite (tc_xattrs _ _ _ _ _ _ Ht). apply He.
  - apply (tc_objs _ _ _ _ _ _ Ht), (ext_objs _ _ _ He), R.
  - intros p Hp Hr. rewrite (tc_view _ _ _ _ _ _ Ht) by assumption. apply (view_ext _ _ _ _ _ _ He).
  - intros Hge. destruct (Hst Hge Hns) as [Hv Hw']. cbn in Hw'. split.
    + intros p Hp. rewrite Hv by assumption. rewrite (view_ext _ _ _ _ _ _ He). reflexivity.
    + rewrite Hw'. apply u64_id. case_decide; lia.
  - apply Hwr. cbn. lia.
  - intros Hce. rewrite Hcl; [cbn; lia|assumption|]. intros j Hj. apply (complete_objs bs g s0 s l f); assumption.
Qed.

Lemma failed_result s0 s l : kept g s0 s -> op_ret l < 0 -> xattrs s = xattrs s0 -> ~ clean e ->
  (forall p, 0 <= p -> view s bs g p = view s0 bs g p) -> write_result s0 (s, failed l).
Proof.
  intros K Hop Hx Hc Hv. do 5 eexists. split; [reflexivity|]. split; [assumption|]. split; [auto|]. split; [auto|].
  split; [lia|]. intros He. contradiction.
Qed.

Lemma write_dispatch_spec prebuf s c :
  represents bs g s f -> ctxs s !! g = Some c -> ia_size (stat c) = zlen f -> block_size c = bs -> at_end r off s ->
  write_result s
    match set_range (get_lowest_block off bs) (get_highest_block off (w_size r) bs) with
    | None => (s, Unwind (-1) ENOMEM None None [])
    | Some l =>
      let '(s, l) := open_dot e true g s l in
      shard_common_inode_write_post_resolve_handler e r prebuf s l
    end.
Proof.
  intros R Hc Hz Hcb Hend. pose proof (rp_bs _ _ _ _ R) as Hbs. pose proof (rp_wf _ _ _ _ R) as Hw.
  destruct (range_blocks bs off (w_size r) Hbs Hoff Hsize Hlim) as (-> & -> & H1 & H2).
  destruct (set_range_scan g s _ _ H1 H2) as (l & -> & Hs & Hf & Hl & Ho & _ & _ & Hx).
  destruct (open_dot_good e true g s l Hw Hs) as [G1 O1].
  assert (C1 : clean e -> op_ret (open_dot e true g s l).2 = 0 /\ eexist_count (open_dot e true g s l).2 = 0).
  { intros He. destruct (open_dot_clean e true g s l He Hw (rp_dir _ _ _ _ R) Ho) as (A & B & _); [auto|]. split; congruence. }
  pose proof (open_dot_outcome e true g s l Hw Ho) as D1.
  destruct (open_dot e true g s l) as [s1 l1]. cbn [fst snd] in *. rewrite write_post_resolve_eq.
  pose proof (good_wf _ _ _ _ G1) as Hw1. pose proof (good_scan _ _ _ _ G1) as Hs1. cbn [fst snd] in *.
  destruct (prepare_good e (w_fop r) g s1 l1 Hcreates Hw1 Hs1 O1) as [G2 O2].
  assert (C2 : clean e -> op_ret (prepare e (w_fop r) g s1 l1).2 = 0).
  { intros He. destruct (C1 He). apply prepare_clean; assumption. }
  pose proof (prepare_ret e (w_fop r) g s1 l1) as [Z2 N2]. pose proof (prepare_dot e (w_fop r) g s1 l1) as D2.
  destruct (prepare e (w_fop r) g s1 l1) as [s2 l2]. cbn [fst snd] in *.
  pose proof (good_trans _ _ _ _ _ _ G1 G2) as G. pose proof (good_ext _ _ _ _ G) as He. cbn [fst] in He.
  destruct (Z.ltb_spec (op_ret l2) 0) as [Hneg|Hpos].
  - apply failed_result; [apply (good_kept _ _ _ _ G)|assumption|apply He| |intros; apply (view_ext _ _ _ _ _ _ He)].
    intros Hce. specialize (C2 Hce). lia.
  - destruct O2 as [O2|O2]; [lia|]. destruct (good_range _ _ _ _ G) as (R1 & R2 & _). cbn [snd] in *.
    eapply write_do_spec; eauto; try congruence; try lia.
    + rewrite D2. intuition lia.
    + intros Ha Hd. rewrite (ext_contents _ _ _ He). apply Hend; assumption.
Qed.

End write_ops.

Lemma write_result_from e r f s s1 res :
  kept (w_gfid r) s s1 -> objs s1 = objs s -> xattrs s1 = xattrs s -> write_result e r f s1 res -> write_result e r f s res.
Proof.
  intros K Ho Hx (s' & ret & errno & pre & post & E & K' & V & X & S & C). exists s', ret, errno, pre, post.
  split; [assumption|]. split; [eapply kept_trans; eauto|]. split; [|split; [|auto]].
  - intros p Hp Hr. rewrite V by assumption. unfold view, contents. rewrite Ho. reflexivity.
  - intros Hneg. rewrite X by assumption. assumption.
Qed.

(** The four write operations on a sharded file; [off] is where they write. *)
Lemma write_begin_spec e fop bs g vector offset keep len aflag afd s f :
  let size := if decide (fop = GF_FOP_WRITE) then zlen (concat vector) else len in
  let off := if bool_decide (fop = GF_FOP_WRITE) && (aflag || afd) then zlen f else offset in
  let r := mk_write fop g bs off size vector keep aflag afd in
  represents bs g s f -> no_short e -> creates fop = true ->
  0 <= off -> 0 < size -> off + size <= limit bs -> size < 2 ^ 31 -> at_end r off s ->
  write_result e r f s (shard_common_inode_write_begin e false fop g vector offset keep len aflag afd s).
Proof.
  intros size off r R Hns Hcr Hoff Hsize Hlim Hint Hend. destruct (rp_ctx _ _ _ _ R) as (c & Hc & Hb & _).
  pose proof (rp_bs _ _ _ _ R) as Hbs. unfold shard_common_inode_write_begin, shard_inode_ctx_get_block_size.
  rewrite Hc. cbn [fmap option_fmap option_map]. rewrite Hb, (proj2 (Z.eqb_neq bs 0)) by lia. cbn [orb].
  pose proof (lookup_base_spec e bs g s f R) as Hl. destruct (shard_lookup_base_file e s g) as [s1 b].
  destruct Hl as (R1 & K1 & Ho1 & Hx1 & _ & Hst & Hcl). destruct b as [x|st].
  { do 5 eexists. split; [reflexivity|]. split; [assumption|]. split; [|split; [auto|split; [lia|]]].
    - intros p _ _. unfold view, contents. rewrite Ho1. reflexivity.
    - intros He. destruct (Hcl He). discriminate. }
  destruct Hst as [Hz (c1 & Hc1 & Hb1 & Hs1 & _)].
  apply (write_result_from _ _ _ _ s1); [assumption..|].
  assert (E : shard_common_inode_write_post_lookup_handler e (mk_write fop g bs offset size vector keep aflag afd) s1 st =
    match set_range (get_lowest_block (w_offset r) (w_bs r)) (get_highest_block (w_offset r) (w_size r) (w_bs r)) with
    | None => (s1, Unwind (-1) ENOMEM None None [])
    | Some l => let '(s, l) := open_dot e true (w_gfid r) s1 l in shard_common_inode_write_post_resolve_handler e r st s l
    end).
  { unfold shard_common_inode_write_post_lookup_handler.
    replace (if shard_is_appending_write _ then _ else _) with r; [reflexivity|].
    unfold r, off, shard_is_appending_write. cbn. rewrite Hz. destruct (_ && _); reflexivity. }
  fold size. rewrite E. apply (write_dispatch_spec e r f) with c1; auto.
  - intros Hop. cbn in *. subst fop. unfold size. rewrite decide_True by reflexivity. lia.
  - intros Ha. unfold off, shard_is_appending_write in *. cbn in *. rewrite Ha. reflexivity.
  - congruence.
  - intros Ha Hd. unfold contents. rewrite Ho1. apply Hend; assumption.
Qed.

(** ** Reading *)

(** The data of a read come in at most two vectors. *)
Definition two_vectors (e : env) : Prop := forall c d, concat (vectors e c d) = d /\ (length (vectors e c d) <= 2)%nat.

Section read.
Context (e : env) (s : state) (l : local) (g bs offset : Z).
Context (Hbs : 0 < bs) (Hoff : 0 <= offset < 2 ^ 64) (Hvec : two_vectors e).
Context (Hcomp : complete g l) (Hfirst : first_block l = offset / bs).

(** The state of the buffer when the bytes up to [orig] have been read. *)
Record filled (orig total : Z) (t : gather) : Prop := {
  fl_len : zlen (g_buf t) = total;
  fl_done : forall q, 0 <= q < orig - offset -> byte (g_buf t) q = view s bs g (offset + q);
  fl_rest : forall q, orig - offset <= q -> byte (g_buf t) q = 0
}.

Definition aligned (orig : Z) : Prop := orig = offset \/ (orig mod bs = 0 /\ offset / bs < orig / bs).

Lemma address_spec orig : aligned orig -> read_address bs offset (first_block l) (orig / bs) = orig - offset.
Proof.
  intros Ha. unfold read_address. rewrite Hfirst, u64_id by lia.
  pose proof (Z.div_mod orig bs ltac:(lia)). pose proof (Z.div_mod offset bs ltac:(lia)).
  destruct Ha as [->|[Hm Hlt]]; [rewrite Z.eqb_refl; lia|]. rewrite (proj2 (Z.eqb_neq _ _)) by lia. lia.
Qed.

Definition read_outcome (orig n total : Z) (t t' : gather) : Prop :=
  (g_ret t < 0 -> g_ret t' < 0) /\ (0 <= g_ret t' -> filled (orig + n) total t' /\ g_errno t' = g_errno t) /\
  (clean e -> 0 <= g_ret t -> (forall j, in_range l j -> is_Some (objs s !! (g, j))) -> 0 <= g_ret t').

Lemma read_step_outcome orig n total vec t :
  aligned orig -> in_range l (orig / bs) -> offset <= orig -> 0 < n -> n <= bs - orig mod bs -> orig - offset + n <= total ->
  (0 <= g_ret t -> filled orig total t) ->
  exists t', read_step e s l g bs offset (Some t) (mk_piece (orig / bs) (orig mod bs) n vec) = Some t' /\
    read_outcome orig n total t t'.
Proof.
  intros Hal Hi Ho Hn Hr Ht Hfill. unfold read_step. cbn [mbind option_bind p_block p_offset p_size].
  assert (Hobj : piece_obj l g (orig / bs) = Some (g, orig / bs)).
  { unfold piece_obj. destruct (Z.eqb_spec (orig / bs) 0) as [E|E]; [rewrite E; reflexivity|]. apply Hcomp. assumption. }
  rewrite Hobj. cbn [mbind option_bind p_block p_offset p_size]. unfold shard_readv_do_cbk.
  destruct (Z.ltb_spec (g_ret t) 0) as [Hneg|Hpos].
  { exists t. split; [reflexivity|]. split; [auto|]. split; lia. }
  pose proof (Z.mod_pos_bound orig bs Hbs) as Hm. pose proof (Z.div_mod orig bs ltac:(lia)) as Hdm.
  destruct (child_read e s (g, orig / bs) (orig mod bs) n) as [x|vs] eqn:Hread.
  { eexists. split; [reflexivity|]. split; [cbn; lia|]. split; [cbn; lia|]. intros He _ Hex. unfold child_read in Hread.
    rewrite clean_fault in Hread by assumption. destruct (Hex _ Hi) as [d Hd]. rewrite Hd in Hread. discriminate. }
  specialize (Hfill Hpos). destruct Hfill as [Fl Fd Fr].
  assert (Hvs : exists d, objs s !! (g, orig / bs) = Some d /\ concat vs = pread d (orig mod bs) n /\ (length vs <= 2)%nat).
  { unfold child_read in Hread. destruct (fault e _); [discriminate|]. destruct (objs s !! (g, orig / bs)) as [d|]; [|discriminate].
    injection Hread as <-. exists d. split; [reflexivity|]. apply Hvec. }
  destruct Hvs as (d & Hd & Hcat & Hlen).
  assert (Hsz : zlen (concat vs) <= n) by (rewrite Hcat, zlen_pread; lia).
  pose proof (zlen_nonneg (concat vs)) as Hsz0. rewrite address_spec by assumption.
  destruct (copy_two_vectors (g_buf t) (orig - offset) vs) as (buf & E & Hbl & Hb); [lia|lia|assumption|].
  rewrite E. cbn [mbind option_bind]. eexists. split; [reflexivity|]. split; [cbn; lia|].
  split; [|intros _ _ _; cbn; lia]. intros _. split; [|reflexivity]. split; cbn [g_buf].
  - congruence.
  - intros q Hq. rewrite Hb. destruct (Z.leb_spec (orig - offset) q) as [Hge|Hlt]; cbn [andb].
    2:{ apply Fd. lia. }
    assert (Hv : view s bs g (offset + q) = byte d (orig mod bs + (q - (orig - offset)))).
    { unfold view. destruct (div_mod_unique bs Hbs (offset + q) (orig / bs) (orig mod bs + (q - (orig - offset)))) as [-> ->]; [lia|lia|].
      unfold contents. rewrite Hd. reflexivity. }
    rewrite Hv. destruct (Z.ltb_spec q (orig - offset + zlen (concat vs))) as [H1|H1].
    + rewrite Hcat, byte_pread, (proj2 (Z.ltb_lt _ n)) by lia. reflexivity.
    + rewrite Fr by lia. rewrite Hcat, zlen_pread in H1 by lia. rewrite byte_over by lia. reflexivity.
  - intros q Hq. rewrite Hb. destruct (Z.ltb_spec q (orig - offset + zlen (concat vs))); [lia|].
    rewrite andb_false_r. apply Fr. lia.
Qed.

Lemma read_fold_outcome orig rem :
  0 <= orig -> 0 < rem -> orig + rem < 2 ^ 64 -> forall vec total t,
  aligned orig -> offset <= orig -> orig - offset + rem <= total ->
  (forall j, orig / bs <= j <= (orig + rem - 1) / bs -> in_range l j) ->
  (0 <= g_ret t -> filled orig total t) ->
  exists t', foldl (read_step e s l g bs offset) (Some t)
      (cut_pieces bs (seqZ (orig / bs) ((orig + rem - 1) / bs - orig / bs + 1)) orig rem vec) = Some t' /\
    read_outcome orig rem total t t'.
Proof.
  intros Ho Hr H64 vec. revert orig rem vec Ho Hr H64.
  apply (cut_pieces_ind bs Hbs (fun orig rem vec ps => forall total t, aligned orig -> offset <= orig ->
    orig - offset + rem <= total -> (forall j, orig / bs <= j <= (orig + rem - 1) / bs -> in_range l j) ->
    (0 <= g_ret t -> filled orig total t) ->
    exists t', foldl (read_step e s l g bs offset) (Some t) ps = Some t' /\ read_outcome orig rem total t t')).
  - intros orig rem vec Ho Hr Hle _ total t Hal Hge Ht Hin Hf. cbn [foldl].
    apply read_step_outcome; auto. apply Hin. rewrite range_last_block; lia.
  - intros orig rem vec ps Ho Hr Hgt H64 IH total t Hal Hge Ht Hin Hf. cbn [foldl].
    pose proof (Z.mod_pos_bound orig bs Hbs) as Hm. destruct (range_next_block bs Hbs orig rem Hgt) as (Hd & Hm0 & Hl).
    destruct (read_step_outcome orig (bs - orig mod bs) total vec t) as (t1 & -> & R1 & F1 & C1); auto; try lia.
    { apply Hin. lia. }
    destruct (IH total t1) as (t2 & -> & R2 & F2 & C2); try lia.
    + right. split; [assumption|]. destruct Hal as [->|[_ ?]]; lia.
    + intros j Hj. apply Hin. rewrite Hd in Hj.
      replace (orig + (bs - orig mod bs) + (rem - (bs - orig mod bs)) - 1) with (orig + rem - 1) in Hj by lia. lia.
    + intros H0. apply F1. assumption.
    + exists t2. split; [reflexivity|]. split; [auto|]. split; [|auto].
      intros H0. destruct (F2 H0) as [G1 G2]. destruct (F1 ltac:(destruct (Z_lt_le_dec (g_ret t1) 0); [lia|assumption])) as [_ G3].
      split; [|congruence]. replace (orig + rem) with (orig + (bs - orig mod bs) + (rem - (bs - orig mod bs))) by lia. assumption.
Qed.

End read.

Lemma represents_ext bs g s s' f : represents bs g s f -> wf s' -> ext g s s' -> represents bs g s' f.
Proof.
  intros R Hw He. pose proof (ext_dot _ _ _ He) as Hd. split; try apply R.
  - assumption.
  - pose proof (rp_dir _ _ _ _ R). destruct Hd as [->|[_ ->]]; [assumption|discriminate].
  - apply He, R.
  - rewrite (ext_ctxs _ _ _ He). apply R.
  - rewrite (ext_xattrs _ _ _ He). apply R.
  - intros p Hp. rewrite (view_ext _ _ _ _ _ _ He). apply R. assumption.
  - intros Hn. apply (rp_empty _ _ _ _ R). destruct Hd as [<-|[? ?]]; [assumption|congruence].
Qed.

Lemma open_dot_enoent e g s l :
  wf s -> op_ret l = 0 -> fault e C_lookup_dot <> Some ENOENT ->
  let r := open_dot e false g s l in op_ret r.2 < 0 -> op_errno r.2 = ENOENT -> dot_shard s = None /\ r.1 = s.
Proof.
  intros Hw Ho Hf. unfold open_dot.
  assert (Hlk : forall x, child_lookup_dot e s = Some x -> x = ENOENT -> dot_shard s = None).
  { unfold child_lookup_dot. intros x Hx ->. destruct (fault e C_lookup_dot); [congruence|]. destruct (dot_shard s); congruence. }
  destruct (dot_linked s) eqn:Hl.
  - pose proof (wf_dot s Hw Hl) as Hd. unfold shard_refresh_dot_shard. destruct (dot_refreshed s).
    { destruct (resolve_keeps g s (set_op 0 (op_errno l) l)) as (-> & _). cbn. lia. }
    destruct (child_lookup_dot e s) as [x|].
    + destruct (resolve_keeps g s (set_op (-1) x l)) as (-> & -> & _). cbn. intros _ Hx. specialize (Hlk x eq_refl Hx). congruence.
    + destruct (resolve_keeps g (set_refreshed true (shard_link_dot_shard_inode s)) l) as (-> & _). lia.
  - unfold shard_lookup_dot_shard. destruct (child_lookup_dot e s) as [x|]; [cbn; eauto|].
    destruct (dot_shard s) as [[|]|]; [|cbn; discriminate|cbn; discriminate].
    destruct (resolve_keeps g (set_refreshed true (shard_link_dot_shard_inode s)) l) as (-> & _). lia.
Qed.

Lemma read_post_resolve_eq e g bs offset total prebuf s l :
  0 <= op_ret l ->
  shard_post_resolve_readv_handler e g bs offset total prebuf s l =
  let '(s, l) := prepare e GF_FOP_READ g s l in
  if op_ret l <? 0 then (s, failed l) else shard_readv_do e g bs offset total prebuf s l.
Proof.
  intros Ho. unfold shard_post_resolve_readv_handler, shard_post_lookup_shards_readv_handler,
    shard_post_mknod_readv_handler, prepare. assert (E0 : (op_ret l <? 0) = false) by (apply Z.ltb_ge; assumption). rewrite E0.
  destruct (call_count l =? 0); [rewrite E0; reflexivity|].
  destruct (shard_common_lookup_shards e GF_FOP_READ false _ _ s l) as [s1 l1].
  destruct (op_ret l1 <? 0) eqn:E1; [rewrite E1; reflexivity|]. destruct (create_count l1 =? 0); [rewrite E1; reflexivity|].
  destruct (shard_common_resume_mknod e _ s1 l1) as [s2 l2].
  destruct (op_ret l2 <? 0) eqn:E2; [rewrite E2; reflexivity|]. destruct (eexist_count l2 =? 0); [rewrite E2; reflexivity|].
  reflexivity.
Qed.

Section read_ops.
Context (e : env) (bs g size offset : Z) (f : list Z).
Context (Hvec : two_vectors e) (Hdot : fault e C_lookup_dot <> Some ENOENT).
Context (Hoff : 0 <= offset) (Hsize : 0 < size) (Hlim : offset + size <= limit bs).

(** What is answered: nothing from the end of the file on, else [size] bytes. *)
Definition read_answer (ret : Z) (data : list Z) : Prop :=
  (zlen f <= offset /\ ret = 0 /\ data = []) \/
  (offset < zlen f /\ ret = size /\ zlen data = size /\ forall q, 0 <= q < size -> byte data q = byte f (offset + q)).

Definition read_result (s : state) (res : state * reply) : Prop :=
  exists s' ret errno pre data, res = (s', Unwind ret errno pre None data) /\ kept g s s' /\ represents bs g s' f /\
    xattrs s' = xattrs s /\ (0 <= ret -> read_answer ret data) /\ (clean e -> 0 <= ret).

Lemma read_do_spec prebuf s0 l0 s l :
  represents bs g s0 f -> offset < zlen f -> good g s0 l0 (s, l) -> complete g l ->
  first_block l = offset / bs -> last_block l = (offset + size - 1) / bs -> op_ret l = 0 ->
  read_result s0 (shard_readv_do e g bs offset size prebuf s l).
Proof.
  intros R Hlt Hg Hcomp Hf Hl Hop. pose proof (good_wf _ _ _ _ Hg) as Hw. pose proof (good_scan _ _ _ _ Hg) as Hs.
  pose proof (good_ext _ _ _ _ Hg) as He. cbn [fst snd] in *. pose proof (rp_bs _ _ _ _ R) as Hbs.
  pose proof (sc_num _ _ _ Hs) as Hnum. pose proof (proj1 (sc_range _ _ _ Hs)) as Hrng.
  pose proof (represents_ext _ _ _ _ _ R Hw He) as R'. unfold limit in Hlim.
  unfold shard_readv_do, loop_int. rewrite Hf, Hl in *.
  destruct (read_fold_outcome e s l g bs offset Hbs ltac:(lia) Hvec Hcomp Hf offset size Hoff Hsize ltac:(lia) 0 size
    (mk_gather (op_ret l) (op_errno l) (zeros size))) as (t & -> & _ & Hfill & Hcl); try lia.
  { left. reflexivity. }
  { intros j Hj. unfold in_range. lia. }
  { intros _. split; cbn [g_buf]; [rewrite zlen_zeros; lia|intros q Hq; lia|intros q _; apply byte_zeros]. }
  rewrite cut_pieces_length. unfold zlen at 1. rewrite length_seqZ, Hnum, Z2Nat.id by lia.
  rewrite (proj2 (Z.eqb_neq _ 0)), Z.eqb_refl by lia. cbn [negb orb].
  assert (Hc : clean e -> 0 <= g_ret t).
  { intros Hce. apply Hcl; [assumption|cbn; lia|]. intros j Hj. apply (complete_objs bs g s0 s l f); assumption. }
  destruct (Z.ltb_spec (g_ret t) 0).
  - do 5 eexists. split; [reflexivity|]. split; [apply (good_kept _ _ _ _ Hg)|]. split; [assumption|]. split; [apply He|].
    split; [lia|]. intros Hce. specialize (Hc Hce). lia.
  - destruct (Hfill ltac:(assumption)) as [[Fl Fd _] _]. do 5 eexists. split; [reflexivity|].
    split; [apply (good_kept _ _ _ _ Hg)|]. split; [assumption|]. split; [apply He|]. split; [|intros; lia].
    intros _. right. split_and!; auto. intros q Hq. rewrite Fd by lia. apply R'. lia.
Qed.

Lemma read_handler_spec s st :
  represents bs g s f -> ia_size st = zlen f ->
  read_result s (shard_post_lookup_readv_handler e g bs size offset s st).
Proof.
  intros R Hz. pose proof (rp_bs _ _ _ _ R) as Hbs. pose proof (rp_wf _ _ _ _ R) as Hw.
  unfold shard_post_lookup_readv_handler. rewrite Hz, u64_id by (unfold limit in Hlim; lia).
  destruct (Z.leb_spec (zlen f) offset) as [Hle|Hlt].
  { do 5 eexists. split; [reflexivity|]. split_and!; auto using kept_refl; [|lia]. intros _. left. auto. }
  destruct (range_blocks bs offset size Hbs Hoff Hsize Hlim) as (-> & -> & H1 & H2).
  destruct (set_range_scan g s _ _ H1 H2) as (l & -> & Hs & Hf & Hl & Ho & _ & _ & Hx).
  change (if dot_linked s then shard_refresh_dot_shard e g s l else shard_lookup_dot_shard e g s l) with (open_dot e false g s l).
  destruct (open_dot_good e false g s l Hw Hs) as [G1 O1].
  pose proof (open_dot_outcome e false g s l Hw Ho) as D1. pose proof (open_dot_enoent e g s l Hw Ho Hdot) as N1.
  assert (C1 : clean e -> dot_shard s <> None -> op_ret (open_dot e false g s l).2 = 0 /\ eexist_count (open_dot e false g s l).2 = 0).
  { intros He Hd. destruct (open_dot_clean e false g s l He Hw (rp_dir _ _ _ _ R) Ho) as (A & B & _); [auto|]. split; congruence. }
  assert (X1 : clean e -> dot_shard s = None -> op_ret (open_dot e false g s l).2 = -1 /\ op_errno (open_dot e false g s l).2 = ENOENT).
  { intros He Hd. unfold open_dot. destruct (dot_linked s) eqn:E; [rewrite (wf_dot s Hw E) in Hd; discriminate|].
    unfold shard_lookup_dot_shard. rewrite clean_lookup_dot, Hd by assumption. auto. }
  destruct (open_dot e false g s l) as [s1 l1]. cbn [fst snd] in *.
  pose proof (good_wf _ _ _ _ G1) as Hw1. pose proof (good_scan _ _ _ _ G1) as Hs1. cbn [fst snd] in *.
  destruct D1 as [[Z1 D1]|Z1].
  2:{ unfold shard_post_resolve_readv_handler. rewrite Z1. cbn [Z.ltb Z.compare].
    destruct (Z.eqb_spec (op_errno l1) ENOENT) as [Hen|Hen].
    - destruct (N1 ltac:(lia) Hen) as [Hd ->]. do 5 eexists. split; [reflexivity|]. split_and!; auto using kept_refl; [|lia].
      intros _. right. split_and!; auto; [rewrite zlen_zeros; lia|]. intros q _.
      rewrite byte_zeros. symmetry. apply (rp_empty _ _ _ _ R). assumption.
    - do 5 eexists. split; [reflexivity|]. split; [apply (good_kept _ _ _ _ G1)|].
      split; [apply (represents_ext _ _ _ _ _ R Hw1), G1|]. split; [apply (good_ext _ _ _ _ G1)|]. split; [lia|].
      intros He. destruct (decide (dot_shard s = None)) as [Hn|Hn]; [destruct (X1 He Hn)|destruct (C1 He Hn)]; lia. }
  rewrite read_post_resolve_eq by lia.
  destruct (prepare_good e GF_FOP_READ g s1 l1 eq_refl Hw1 Hs1 O1) as [G2 O2].
  assert (C2 : clean e -> op_ret (prepare e GF_FOP_READ g s1 l1).2 = 0).
  { intros He. apply prepare_clean; auto. apply C1; [assumption|]. intros Hn. destruct (X1 He Hn). lia. }
  pose proof (prepare_ret e GF_FOP_READ g s1 l1) as [Z2 N2].
  destruct (prepare e GF_FOP_READ g s1 l1) as [s2 l2]. cbn [fst snd] in *.
  pose proof (good_trans _ _ _ _ _ _ G1 G2) as G. pose proof (good_ext _ _ _ _ G) as He. cbn [fst] in He.
  destruct (Z.ltb_spec (op_ret l2) 0) as [Hneg|Hpos].
  - do 5 eexists. split; [reflexivity|]. split; [apply (good_kept _ _ _ _ G)|].
    split; [apply (represents_ext _ _ _ _ _ R); [apply G|assumption]|]. split; [apply He|]. split; [lia|].
    intros Hce. specialize (C2 Hce). lia.
  - destruct O2 as [O2|O2]; [lia|]. destruct (good_range _ _ _ _ G) as (R1 & R2 & _). cbn [snd] in *.
    eapply read_do_spec; eauto; try congruence; try lia.
Qed.

Lemma readv_spec s : represents bs g s f -> read_result s (shard_readv e false g size offset s).
Proof.
  intros R. destruct (rp_ctx _ _ _ _ R) as (c & Hc & Hb & _). pose proof (rp_bs _ _ _ _ R) as Hbs.
  unfold shard_readv, shard_inode_ctx_get_block_size. rewrite Hc. cbn [fmap option_fmap option_map].
  rewrite Hb, (proj2 (Z.eqb_neq bs 0)) by lia. cbn [orb].
  pose proof (lookup_base_spec e bs g s f R) as Hl. destruct (shard_lookup_base_file e s g) as [s1 b].
  destruct Hl as (R1 & K1 & Ho1 & Hx1 & _ & Hst & Hcl). destruct b as [x|st].
  - do 5 eexists. split; [reflexivity|]. split; [assumption|]. split; [assumption|]. split; [assumption|]. split; [lia|].
    intros He. destruct (Hcl He). discriminate.
  - destruct (read_handler_spec s1 st R1 (proj1 Hst)) as (s2 & ret & errno & pre & data & -> & K2 & R2 & X2 & A & C).
    exists s2, ret, errno, pre, data. split; [reflexivity|]. split; [eapply kept_trans; eauto|]. split_and!; auto. congruence.
Qed.

End read_ops.
