(* ===== verification/ShardTrunc.v ===== *)
(** * Sharding: truncating and removing

    The removal of the shards of a file, and what truncating does to the bytes of
    the whole file. *)

From S2P Require Import Prelude Words Bytes Shard ShardFacts ShardScan ShardOps.
From stdpp Require Import gmap.
Open Scope Z_scope.

(** ** Removing shards *)

(** Only objects of [g] with a number in [ms] may have gone. *)
Record removed (g : Z) (ms : list Z) (s s' : state) : Prop := {
  rm_objs : forall o : obj, o.1 <> g \/ o.2 ∉ ms -> objs s' !! o = objs s !! o;
  rm_gone : forall o, objs s' !! o = objs s !! o \/ objs s' !! o = None;
  rm_xattrs : xattrs s' = xattrs s;
  rm_ctxs : ctxs s' = ctxs s;
  rm_dot : dot_shard s' = dot_shard s /\ dot_linked s' = dot_linked s;
  rm_wf : wf s'
}.

Lemma removed_kept g ms s s' : removed g ms s s' -> kept g s s'.
Proof.
  intros H. split; [intros o Ho; apply H; auto| | |left; apply H|apply H]; intros h _;
    rewrite ?(rm_xattrs _ _ _ _ H), ?(rm_ctxs _ _ _ _ H); reflexivity.
Qed.

Definition same_list (l l' : local) : Prop := inode_list l' = inode_list l /\ same_range l l'.

Lemma unlink_step_removed e g s l j :
  wf s -> found l j = Some (g, j) -> j <> 0 ->
  let r := unlink_step e g g (s, l) j in
  removed g [j] s r.1 /\ same_list l r.2 /\ (op_ret r.2 = op_ret l \/ op_ret r.2 = -1) /\
  (clean e -> is_Some (objs s !! (g, j)) -> op_ret r.2 = op_ret l /\ op_errno r.2 = op_errno l /\ objs r.1 !! (g, j) = None).
Proof.
  intros Hw Hf Hj. unfold unlink_step, child_unlink.
  assert (Hrefl : removed g [j] s s) by (split; auto).
  assert (Hrng : forall a b, same_list l (set_op a b l)) by (repeat split).
  destruct (fault e (C_unlink (g, j))) eqn:Hfl.
  { cbn. split_and!; auto. intros He. rewrite clean_fault in Hfl by assumption. discriminate. }
  destruct (objs s !! (g, j)) eqn:Ho.
  2:{ cbn. split_and!; auto. intros _ [? [=]]. }
  unfold shard_unlink_block_inode. change (nth (Z.to_nat (j - first_block l)) (inode_list l) None) with (found l j).
  rewrite Hf. cbn [fst snd]. split; [|split; [repeat split|split; [auto|]]].
  - set (c := if in_ilist _ _ then _ else _).
    assert (Ht : itable c = inode_unlink (itable (cached s)) (g, j) (g, j)) by (unfold c; destruct (in_ilist _ _); reflexivity).
    split; auto; cbn [objs set_objs set_cached].
    + intros o [Hne|Hne]; apply lookup_delete_ne; intros <-; [auto|]. apply Hne. left.
    + intros o. destruct (decide (o = (g, j))) as [->|Hne]; [rewrite lookup_delete_eq; auto|].
      rewrite lookup_delete_ne by congruence. auto.
    + split; [|apply Hw]. cbn [cached objs set_objs set_cached]. rewrite Ht. intros nm o Hn.
      pose proof (inode_unlink_sub _ _ _ _ _ Hn) as Hn'. destruct (wf_itable s Hw _ _ Hn') as [-> Hx].
      split; [reflexivity|]. intros Hz. rewrite lookup_delete_ne; [auto|]. intros <-.
      unfold inode_unlink in Hn. rewrite decide_True in Hn by assumption. rewrite lookup_delete_eq in Hn. discriminate.
  - intros _ _. cbn [objs set_objs set_cached]. rewrite lookup_delete_eq. auto.
Qed.

Lemma same_list_found l l' j : same_list l l' -> found l' j = found l j.
Proof. intros [Hi (Hf & _)]. unfold found. rewrite Hi, Hf. reflexivity. Qed.

Lemma unlink_fold_removed e g ms : forall s l,
  wf s -> (forall j, j ∈ ms -> found l j = Some (g, j) /\ j <> 0) ->
  let r := foldl (unlink_step e g g) (s, l) ms in
  removed g ms s r.1 /\ same_list l r.2 /\ (op_ret r.2 = op_ret l \/ op_ret r.2 = -1) /\
  (clean e -> NoDup ms -> (forall j, j ∈ ms -> is_Some (objs s !! (g, j))) ->
     op_ret r.2 = op_ret l /\ op_errno r.2 = op_errno l /\ forall j, j ∈ ms -> objs r.1 !! (g, j) = None).
Proof.
  induction ms as [|j ms IH]; intros s l Hw Hms.
  { cbn. split_and!; auto; [split; auto|repeat split|]. intros _ _ _. split_and!; auto. intros j Hj. apply elem_of_nil in Hj as []. }
  destruct (Hms j ltac:(left)) as [Hf Hj]. cbn [foldl]. destruct (unlink_step_removed e g s l j Hw Hf Hj) as (R1 & L1 & O1 & C1).
  destruct (unlink_step e g g (s, l) j) as [s1 l1]. cbn [fst snd] in *.
  destruct (IH s1 l1) as (R2 & L2 & O2 & C2); [apply R1|intros k Hk; rewrite (same_list_found _ _ _ L1); apply Hms; right; assumption|].
  destruct (foldl _ (s1, l1) ms) as [s2 l2]. cbn [fst snd] in *. split_and!.
  - split.
    + intros o Ho. assert (o.1 <> g \/ (o.2 <> j /\ o.2 ∉ ms)) as Hd by (rewrite not_elem_of_cons in Ho; exact Ho).
      rewrite (rm_objs _ _ _ _ R2), (rm_objs _ _ _ _ R1) by (rewrite ?list_elem_of_singleton; tauto). reflexivity.
    + intros o. destruct (rm_gone _ _ _ _ R2 o) as [-> | ->]; [apply R1|auto].
    + rewrite (rm_xattrs _ _ _ _ R2). apply R1.
    + rewrite (rm_ctxs _ _ _ _ R2). apply R1.
    + destruct (rm_dot _ _ _ _ R2), (rm_dot _ _ _ _ R1). split; congruence.
    + apply R2.
  - unfold same_list, same_range in *. intuition congruence.
  - intuition congruence.
  - intros He [Hn1 Hn2]%NoDup_cons Hex. destruct (C1 He) as (A1 & B1 & D1); [apply Hex; left|].
    destruct (C2 He Hn2) as (A2 & B2 & D2).
    { intros k Hk. rewrite (rm_objs _ _ _ _ R1); [apply Hex; right; assumption|]. right. cbn. rewrite list_elem_of_singleton. intros ->. contradiction. }
    split_and!; [congruence..|]. intros k [->|Hk]%elem_of_cons; [|auto].
    destruct (rm_gone _ _ _ _ R2 (g, j)); congruence.
Qed.

Lemma elem_of_to_unlink g s l j :
  scan g s l -> j ∈ to_unlink l <-> first_block l < j <= last_block l /\ found l j <> None.
Proof.
  intros Hs. unfold to_unlink. rewrite list_elem_of_In, filter_In, <- list_elem_of_In, negb_true_iff, bool_decide_eq_false.
  destruct (sc_range _ _ _ Hs). unfold loop_uint32. rewrite !u32_id by lia.
  destruct (Z.leb_spec (first_block l + 1) (last_block l)).
  - rewrite elem_of_seqZ. fold (found l j). split; intros [? ?]; (split; [lia|assumption]).
  - rewrite elem_of_nil. split; [tauto|lia].
Qed.

Lemma NoDup_to_unlink l : NoDup (to_unlink l).
Proof.
  unfold to_unlink. apply NoDup_ListNoDup, List.NoDup_filter, NoDup_ListNoDup. unfold loop_uint32.
  destruct (_ <=? _); [apply NoDup_seqZ|constructor].
Qed.

(** What is unlinked was found. *)
Lemma to_unlink_ready g s l j : scan g s l -> j ∈ to_unlink l -> found l j = Some (g, j) /\ j <> 0 /\ is_Some (objs s !! (g, j)).
Proof.
  intros Hs [Hr Hf]%(elem_of_to_unlink g s); [|assumption]. destruct (sc_range _ _ _ Hs).
  destruct (found l j) as [o|] eqn:E; [|congruence]. destruct (sc_found _ _ _ Hs j o) as [-> Ho]; [unfold in_range; lia|assumption|].
  split_and!; auto; [lia|]. apply Ho. lia.
Qed.

(** ** Truncating a file *)

(** The blocks of [shard_truncate_begin], and that the shards it has to cut and to
    remove are there. *)
Definition trunc_first (bs off : Z) : Z := if off =? 0 then 0 else (off - 1) / bs.
Definition trunc_last (bs size : Z) : Z := (size - 1) / bs.

Definition covered (bs g : Z) (s : state) (off size : Z) : Prop :=
  let first := trunc_first bs off in
  let last := trunc_last bs size in
  last = 0 \/
  (is_Some (objs s !! (g, first)) /\ (first = last \/ exists j, first < j <= last /\ is_Some (objs s !! (g, j)))).

(** What is left of the bytes of a file that is made shorter: the first block of the
    range is cut to [off mod bs] bytes, that is to none at a block boundary. *)
Definition cut_end (bs off : Z) : Z := trunc_first bs off * bs + off mod bs.

Definition cut_file (bs off : Z) (f : list Z) : list Z :=
  if off <? zlen f then ptruncate (ptruncate f (cut_end bs off)) off else ptruncate f off.

Lemma zlen_cut_file bs off f : 0 <= off -> zlen (cut_file bs off f) = off.
Proof. intros Ho. unfold cut_file. destruct (off <? zlen f); apply zlen_ptruncate, Ho. Qed.

(** The first of the blocks and what is left of it. *)
Lemma trunc_first_spec bs off : 0 < bs -> 0 <= off ->
  0 <= trunc_first bs off <= off / bs /\
  ((cut_end bs off = off /\ trunc_first bs off = off / bs) \/
   (cut_end bs off = off - bs /\ off mod bs = 0 /\ trunc_first bs off = off / bs - 1 /\ 0 < off)).
Proof.
  intros Hbs Ho. unfold cut_end, trunc_first. pose proof (Z.div_mod off bs ltac:(lia)). pose proof (Z.mod_pos_bound off bs Hbs).
  destruct (Z.eqb_spec off 0) as [->|Hne]; [rewrite Z.div_0_l, Z.mod_0_l by lia; lia|].
  assert (0 <= off / bs) by (apply Z.div_pos; lia). destruct (Z.eq_dec (off mod bs) 0) as [Hm|Hm].
  - assert (E : (off - 1) / bs = off / bs - 1) by (symmetry; apply Z.div_unique with (bs - 1); lia).
    rewrite E. split; [nia|right]. nia.
  - assert (E : (off - 1) / bs = off / bs) by (symmetry; apply Z.div_unique with (off mod bs - 1); lia).
    rewrite E. split; [lia|left]. lia.
Qed.

Lemma byte_cut_file bs off f p : 0 < bs -> 0 <= off < zlen f ->
  byte (cut_file bs off f) p = if p <? cut_end bs off then byte f p else 0.
Proof.
  intros Hbs Ho. unfold cut_file. rewrite (proj2 (Z.ltb_lt _ _)), !byte_ptruncate by lia.
  destruct (trunc_first_spec bs off Hbs ltac:(lia)) as (_ & H).
  destruct (Z.ltb_spec p off), (Z.ltb_spec p (cut_end bs off)); try reflexivity; lia.
Qed.

(** Away from the block boundaries this is what truncation means. *)
Lemma cut_file_exact bs off f : 0 < bs -> 0 <= off -> (off < zlen f -> off = 0 \/ off mod bs <> 0) -> cut_file bs off f = ptruncate f off.
Proof.
  intros Hbs Ho Hb. destruct (Z_lt_le_dec off (zlen f)) as [Hlt|Hge]; [|unfold cut_file; rewrite (proj2 (Z.ltb_ge _ _)) by lia; reflexivity].
  apply byte_ext; rewrite zlen_cut_file, ?zlen_ptruncate by assumption; [reflexivity|]. intros p _.
  rewrite byte_cut_file, byte_ptruncate by lia. destruct (trunc_first_spec bs off Hbs Ho) as (_ & [[-> _]|H]); [reflexivity|].
  specialize (Hb Hlt). lia.
Qed.

(** At a block boundary the last block that is left has lost its bytes. *)
Lemma cut_file_boundary bs m f : 0 < bs -> 0 < m -> m * bs < zlen f ->
  cut_file bs (m * bs) f = ztake ((m - 1) * bs) f ++ zeros bs.
Proof.
  intros Hbs Hm Hl. assert (E : cut_end bs (m * bs) = (m - 1) * bs).
  { assert (E : (m * bs - 1) / bs = m - 1) by (symmetry; apply Z.div_unique with (bs - 1); lia).
    unfold cut_end, trunc_first. rewrite (proj2 (Z.eqb_neq _ _)), E, Z.mod_mul by nia. lia. }
  assert (Hz : zlen (ztake ((m - 1) * bs) f) = (m - 1) * bs) by (rewrite zlen_ztake; nia).
  apply byte_ext; rewrite zlen_cut_file by nia; [rewrite zlen_app, zlen_zeros; lia|]. intros p Hp.
  rewrite byte_cut_file, E, byte_app, Hz, byte_zeros, byte_ztake by nia. destruct (p <? _); reflexivity.
Qed.

Section truncate.
Context (e : env) (bs g off : Z) (f : list Z) (fop : shard_fop).
Context (Hclean : clean e) (Hoff : 0 <= off) (Hlim : off <= limit bs).

Definition truncated (s : state) (res : state * reply) : Prop :=
  exists s' errno pre post, res = (s', Unwind 0 errno pre post []) /\ kept g s s' /\ represents bs g s' (cut_file bs off f).

(** The state when the sizes of the context and of the attribute are set, and the
    bytes are those of the shorter file. *)
Lemma represents_truncated s s' x :
  represents bs g s f -> kept g s s' -> is_Some (objs s' !! (g, 0)) -> dot_shard s' = dot_shard s ->
  (exists c, ctxs s' !! g = Some c /\ block_size c = bs /\ ia_size (stat c) = off) ->
  xattrs s' !! g = Some x -> x_ok x -> xsize x = off ->
  (forall p, 0 <= p -> view s' bs g p = byte (cut_file bs off f) p) ->
  represents bs g s' (cut_file bs off f).
Proof.
  intros R K Hb Hd (c & Hc & Hcb & Hcs) Hx Hok Hxs Hv. pose proof (zlen_cut_file bs off f Hoff) as Hl. split; auto.
  - apply R.
  - apply K.
  - rewrite Hd. apply R.
  - exists c. rewrite Hl. auto.
  - exists x. rewrite Hl. auto.
  - rewrite Hd. intros Hn p. unfold cut_file. destruct (off <? zlen f); rewrite !byte_ptruncate, (rp_empty _ _ _ _ R Hn);
      repeat destruct (p <? _); reflexivity.
  - lia.
Qed.

(** [s1] is [s] with the new size in the context. *)
Lemma finish_truncate s s1 x q l postbuf dsize db :
  represents bs g s f -> kept g s s1 -> is_Some (objs s1 !! (g, 0)) -> dot_shard s1 = dot_shard s ->
  (exists c, ctxs s1 !! g = Some c /\ block_size c = bs /\ ia_size (stat c) = off) ->
  xattrs s1 !! g = Some x -> x_ok x -> u64 (xsize x + (dsize + 0)) = off ->
  (forall p, 0 <= p -> view s1 bs g p = byte (cut_file bs off f) p) -> op_ret l = 0 ->
  truncated s (shard_post_update_size_truncate_handler q l postbuf (shard_update_file_size e s1 g dsize 0 db postbuf)).
Proof.
  intros R K Hb Hd Hc Hx Hok Hxs Hv Hop. pose proof (update_file_size_spec e s1 g x dsize 0 db postbuf Hx Hok) as Hu.
  destruct (shard_update_file_size e s1 g dsize 0 db postbuf) as [s2 u]. destruct Hu as [Hu Hcl].
  destruct (Hcl Hclean) as [post ->]. destruct Hu as (x' & -> & Hok' & _ & Hsz & _).
  unfold shard_post_update_size_truncate_handler. do 4 eexists. rewrite Hop. split; [reflexivity|].
  assert (K2 : kept g s (set_xattrs (<[g := x']> (xattrs s1)) s1)) by (eapply kept_trans; [exact K|]; apply set_xattr_kept, K).
  split; [assumption|]. apply (represents_truncated s _ x'); auto; [cbn; apply lookup_insert_eq|congruence].
Qed.

(** [s1] is on the way from [s]: the context has the new size. *)
Record midway (s s1 : state) : Prop := {
  mw_kept : kept g s s1;
  mw_dot : dot_shard s1 = dot_shard s;
  mw_ctx : exists c, ctxs s1 !! g = Some c /\ block_size c = bs /\ ia_size (stat c) = off;
  mw_xattrs : xattrs s1 = xattrs s
}.

Context (prebuf : iatt) (Hpre : ia_size prebuf = zlen f).
Abbreviation q := (mk_trunc fop g bs off prebuf).

Lemma size_delta s : represents bs g s f -> wrap_s64 (u64 off - zlen f) = off - zlen f /\ u64 (zlen f + (off - zlen f + 0)) = off.
Proof.
  intros R. pose proof (rp_limit _ _ _ _ R). pose proof (zlen_nonneg f). unfold limit in *. rewrite (u64_id off) by lia.
  split; [apply wrap_s64_id; lia|]. rewrite u64_id; lia.
Qed.

Lemma cut_block s s1 b n l :
  represents bs g s f -> midway s s1 -> is_Some (objs s1 !! (g, 0)) -> is_Some (objs s1 !! (g, b)) ->
  0 <= n <= bs -> off < zlen f -> cut_end bs off = b * bs + n -> op_ret l = 0 ->
  (forall p, 0 <= p -> p / bs <= b -> view s1 bs g p = byte f p) ->
  (forall p, 0 <= p -> b < p / bs -> view s1 bs g p = 0) ->
  truncated s (shard_truncate_last_shard_cbk e q (g, b) l (child_truncate e s1 (g, b) n)).
Proof.
  intros R [K Hd Hc Hxs] Hb0 [d Hb] Hn Hlt Ho Hop Hlow Hhigh. pose proof (rp_bs _ _ _ _ R) as Hbs.
  destruct (rp_xattr _ _ _ _ R) as (x & Hx & Hok & Hxz).
  unfold child_truncate. rewrite clean_fault, Hb by assumption. unfold shard_truncate_last_shard_cbk. cbn [tr_gfid tr_offset tr_prebuf ia_size].
  destruct (size_delta s R) as [Hw Hu]. rewrite Hpre, Hw. apply (finish_truncate s _ x); auto.
  - eapply kept_trans; [exact K|]. split; auto.
    + intros o Hne. unfold put. cbn. apply lookup_insert_ne. intros <-. apply Hne. reflexivity.
    + destruct (kp_wf _ _ _ K) as [Wi Wd]. split; [|assumption]. intros nm o Hn'. destruct (Wi nm o Hn') as [-> Hex].
      split; [reflexivity|]. intros Hz. specialize (Hex Hz). unfold put. cbn.
      destruct (decide (nm = (g, b))) as [->|]; [rewrite lookup_insert_eq; eauto|]. rewrite lookup_insert_ne by congruence. assumption.
  - unfold put. cbn. destruct (decide (((g, 0) : obj) = (g, b))) as [<-|]; [rewrite lookup_insert_eq; eauto|].
    rewrite lookup_insert_ne by congruence. assumption.
  - cbn. rewrite Hxs. assumption.
  - rewrite Hxz. assumption.
  - intros p Hp. rewrite byte_cut_file by lia. unfold view. rewrite contents_put. pose proof (Z.div_mod p bs ltac:(lia)) as Hdm.
    pose proof (Z.mod_pos_bound p bs Hbs). case_decide as Heq.
    + injection Heq as Heq. rewrite byte_ptruncate.
      assert (Hv : view s1 bs g p = byte f p) by (apply Hlow; lia). unfold view, contents in Hv. rewrite Heq, Hb in Hv. cbn in Hv.
      rewrite Hv. destruct (Z.ltb_spec (p mod bs) n), (Z.ltb_spec p (cut_end bs off)); try reflexivity; nia.
    + assert (p / bs <> b) by congruence. fold (view s1 bs g p).
      destruct (Z.ltb_spec p (cut_end bs off)).
      * apply Hlow; [assumption|]. assert (p / bs < b + 1); [|lia]. apply Z.div_lt_upper_bound; nia.
      * apply Hhigh; [assumption|]. assert (b <= p / bs) by (apply Z.div_le_lower_bound; nia). lia.
Qed.

(** Past the last block of the file there is nothing. *)
Lemma view_past s p : represents bs g s f -> 0 < zlen f -> 0 <= p -> trunc_last bs (zlen f) < p / bs -> view s bs g p = 0.
Proof.
  intros R Hz Hp Hl. pose proof (rp_bs _ _ _ _ R) as Hbs. rewrite (rp_bytes _ _ _ _ R) by assumption. apply byte_over.
  unfold trunc_last in Hl. destruct (Z_lt_le_dec p (zlen f)); [|assumption].
  assert (p / bs <= (zlen f - 1) / bs) by (apply Z.div_le_mono; lia). lia.
Qed.

Record ready (s s2 : state) (l : local) : Prop := {
  rd_mid : midway s s2;
  rd_view : forall o, contents s2 o = contents s o;
  rd_objs : forall o, is_Some (objs s !! o) -> is_Some (objs s2 !! o);
  rd_scan : scan g s2 l;
  rd_first : first_block l = trunc_first bs off;
  rd_last : last_block l = trunc_last bs (zlen f);
  rd_ret : op_ret l = 0;
  rd_none : forall j, in_range l j -> found l j = None -> objs s2 !! (g, j) = None
}.

Lemma ready_found s s2 l j : ready s s2 l -> in_range l j -> is_Some (objs s !! (g, j)) -> found l j = Some (g, j).
Proof.
  intros Hr Hj Hex. destruct (found l j) as [o|] eqn:E.
  - destruct (sc_found _ _ _ (rd_scan _ _ _ Hr) j o Hj E) as [-> _]. reflexivity.
  - pose proof (rd_objs _ _ _ Hr _ Hex) as [d Hd]. rewrite (rd_none _ _ _ Hr j Hj E) in Hd. discriminate.
Qed.

Lemma ready_view s s2 l p : ready s s2 l -> view s2 bs g p = view s bs g p.
Proof. intros Hr. unfold view. rewrite (rd_view _ _ _ Hr). reflexivity. Qed.

Lemma truncate_last_spec s s2 l l' b :
  represents bs g s f -> ready s s2 l -> forall s3, midway s s3 -> is_Some (objs s3 !! (g, 0)) -> is_Some (objs s3 !! (g, b)) ->
  b = trunc_first bs off -> off < zlen f -> op_ret l' = 0 ->
  (forall p, 0 <= p -> p / bs <= b -> view s3 bs g p = byte f p) ->
  (forall p, 0 <= p -> b < p / bs -> view s3 bs g p = 0) ->
  truncated s (shard_truncate_last_shard e q s3 l' (Some (g, b))).
Proof.
  intros R Hr s3 M H0 Hb -> Hlt Hop Hlow Hhigh. pose proof (rp_bs _ _ _ _ R) as Hbs. unfold shard_truncate_last_shard.
  cbn [tr_offset tr_bs]. unfold limit in Hlim. rewrite u64_id by lia.
  pose proof (Z.mod_pos_bound off bs Hbs). apply cut_block; auto; lia.
Qed.

(** When there are shards to cut and to remove. *)
Section multi.
Context (s s2 : state) (l : local).
Context (R : represents bs g s f) (Hr : ready s s2 l) (Hlt : off < zlen f).
Context (Hex : is_Some (objs s !! (g, first_block l))).

Lemma ready_head : nth 0 (inode_list l) None = Some (g, first_block l).
Proof.
  pose proof (proj1 (sc_range _ _ _ (rd_scan _ _ _ Hr))).
  rewrite <- (ready_found s s2 l (first_block l) Hr ltac:(unfold in_range; lia) Hex). unfold found. do 2 f_equal. lia.
Qed.

Lemma ready_past p : 0 <= p -> last_block l < p / bs -> view s2 bs g p = 0.
Proof.
  intros Hp Hgt. rewrite (ready_view s s2 l) by assumption. apply view_past; auto; [lia|].
  rewrite <- (rd_last _ _ _ Hr). assumption.
Qed.

Lemma ready_low p : 0 <= p -> view s2 bs g p = byte f p.
Proof. intros Hp. rewrite (ready_view s s2 l) by assumption. apply R. assumption. Qed.

(** The bytes once the shards after the first of the range are gone. *)
Lemma unlinked_view s3 p :
  removed g (to_unlink l) s2 s3 -> (forall j, j ∈ to_unlink l -> objs s3 !! (g, j) = None) -> 0 <= p ->
  view s3 bs g p = if p / bs <=? first_block l then byte f p else 0.
Proof.
  intros Rm Hgone Hp. pose proof (rd_scan _ _ _ Hr) as Hs. pose proof (rp_bs _ _ _ _ R) as Hbs.
  assert (Hsame : forall k, k ∉ to_unlink l -> contents s3 (g, k) = contents s2 (g, k)).
  { intros k Hk. unfold contents. rewrite (rm_objs _ _ _ _ Rm); [reflexivity|auto]. }
  assert (Hzero : byte [] (p mod bs) = 0) by (apply byte_over; change (zlen []) with 0; apply Z.mod_pos_bound; assumption).
  destruct (decide (p / bs ∈ to_unlink l)) as [Hk|Hk].
  - unfold view, contents. rewrite Hgone by assumption. apply (elem_of_to_unlink g s2) in Hk; [|assumption].
    rewrite (proj2 (Z.leb_gt _ _)) by lia. exact Hzero.
  - unfold view. rewrite Hsame by assumption. fold (view s2 bs g p). destruct (Z.leb_spec (p / bs) (first_block l)).
    + apply ready_low. assumption.
    + destruct (Z_le_dec (p / bs) (last_block l)) as [Hle|Hle]; [|apply ready_past; lia].
      unfold view, contents. rewrite (rd_none _ _ _ Hr (p / bs)); [exact Hzero|unfold in_range; lia|].
      destruct (found l (p / bs)) eqn:E; [|reflexivity]. exfalso. apply Hk.
      apply (elem_of_to_unlink g s2); [assumption|]. split; [lia|congruence].
Qed.

Lemma truncate_htol_spec j :
  first_block l < j <= last_block l -> is_Some (objs s !! (g, j)) -> truncated s (shard_truncate_htol e q s2 l).
Proof.
  intros Hj Hjex. pose proof (rd_scan _ _ _ Hr) as Hs. pose proof (proj1 (sc_range _ _ _ Hs)) as Hrng. unfold shard_truncate_htol.
  assert (Hin : j ∈ to_unlink l).
  { apply (elem_of_to_unlink g s2); [assumption|]. split; [assumption|].
    rewrite (ready_found s s2 l j Hr) by (auto; unfold in_range; lia). discriminate. }
  rewrite (proj2 (Z.eqb_neq (zlen (to_unlink l)) 0)) by (destruct (to_unlink l); [apply elem_of_nil in Hin as []|discriminate]).
  cbn [tr_gfid]. destruct (unlink_fold_removed e g (to_unlink l) s2 l) as (Rm & Sl & _ & Hcl).
  { apply (rd_mid _ _ _ Hr). }
  { intros k Hk. destruct (to_unlink_ready g s2 l k Hs Hk) as (A & B & _). auto. }
  destruct (Hcl Hclean (NoDup_to_unlink l)) as (Ho3 & _ & Hgone).
  { intros k Hk. apply (to_unlink_ready g s2 l k Hs Hk). }
  destruct (foldl _ (s2, l) (to_unlink l)) as [s3 l3]. cbn [fst snd] in *. destruct Sl as [-> _]. rewrite ready_head.
  assert (Hnot : forall k, k <= first_block l -> k ∉ to_unlink l).
  { intros k Hk Hk'. apply (elem_of_to_unlink g s2) in Hk'; [lia|assumption]. }
  apply (truncate_last_spec s s2 l l3 (first_block l) R Hr s3); [| | |apply Hr|exact Hlt|rewrite Ho3; apply Hr| |].
  - destruct (rd_mid _ _ _ Hr) as [K D C X]. split.
    + eapply kept_trans; [exact K|]. eapply removed_kept. exact Rm.
    + destruct (rm_dot _ _ _ _ Rm). congruence.
    + rewrite (rm_ctxs _ _ _ _ Rm). assumption.
    + rewrite (rm_xattrs _ _ _ _ Rm). assumption.
  - rewrite (rm_objs _ _ _ _ Rm); [apply (rd_objs _ _ _ Hr), R|]. right. apply Hnot. cbn. lia.
  - rewrite (rm_objs _ _ _ _ Rm); [apply (rd_objs _ _ _ Hr); assumption|]. right. apply Hnot. cbn. lia.
  - intros p Hp Hle. rewrite (unlinked_view s3 p), (proj2 (Z.leb_le _ _)) by assumption. reflexivity.
  - intros p Hp Hgt. rewrite (unlinked_view s3 p), (proj2 (Z.leb_gt _ _)) by assumption. reflexivity.
Qed.

Lemma truncate_do_spec :
  first_block l = last_block l \/ (exists j, first_block l < j <= last_block l /\ is_Some (objs s !! (g, j))) ->
  truncated s (shard_truncate_do e q s2 l).
Proof.
  intros Hmore. pose proof (rd_scan _ _ _ Hr) as Hs. pose proof (proj1 (sc_range _ _ _ Hs)) as Hrng.
  pose proof (sc_num _ _ _ Hs) as Hnum. unfold shard_truncate_do. destruct (Z.eqb_spec (num_blocks l) 1) as [H1|H1].
  - rewrite ready_head. apply (truncate_last_spec s s2 l l (first_block l) R Hr s2);
      [apply Hr|apply (rd_objs _ _ _ Hr), R|apply (rd_objs _ _ _ Hr); assumption|apply Hr|exact Hlt|apply Hr| |].
    + intros p Hp _. apply ready_low. assumption.
    + intros p Hp Hgt. apply ready_past; [assumption|lia].
  - destruct Hmore as [Heq|(j & Hj & Hjex)]; [lia|]. eapply truncate_htol_spec; eauto.
Qed.

End multi.

Lemma midway_ext s s1 s2 : midway s s1 -> ext g s1 s2 -> wf s2 -> dot_shard s2 = dot_shard s1 -> midway s s2.
Proof.
  intros [K D C X] He Hw Hd. split; [|congruence|rewrite (ext_ctxs _ _ _ He); assumption|rewrite (ext_xattrs _ _ _ He); assumption].
  eapply kept_trans; [exact K|]. split; [apply He| | |apply He|assumption]; intros h _;
    rewrite ?(ext_xattrs _ _ _ He), ?(ext_ctxs _ _ _ He); reflexivity.
Qed.

(** The shards that are missing after the directory has been opened are looked up. *)
Lemma truncate_found s s1 l :
  represents bs g s f -> midway s s1 -> objs s1 = objs s -> dot_shard s <> None -> dot_linked s1 = dot_linked s ->
  scan g s1 l -> first_block l = trunc_first bs off -> last_block l = trunc_last bs (zlen f) -> op_ret l = 0 ->
  exists s2 l2, ready s s2 l2 /\ first_block l2 = first_block l /\ last_block l2 = last_block l /\
    (let '(s, l) := open_dot e false g s1 l in shard_post_resolve_truncate_handler e q s l) = shard_truncate_do e q s2 l2.
Proof.
  intros R M Ho Hd Hli Hs Hf Hl Hop. pose proof (mw_kept _ _ M) as K. pose proof (kp_wf _ _ _ K) as Hw.
  assert (Hdir : dot_shard s1 <> Some false) by (rewrite (mw_dot _ _ M); apply R).
  destruct (open_dot_good e false g s1 l Hw Hs) as [G1 O1].
  destruct (open_dot_clean e false g s1 l Hclean Hw Hdir Hop) as (Z1 & _ & Ob1 & D1); [right; rewrite (mw_dot _ _ M); assumption|].
  destruct (open_dot e false g s1 l) as [s2 l2]. cbn [fst snd] in *.
  pose proof (good_wf _ _ _ _ G1) as Hw2. pose proof (good_scan _ _ _ _ G1) as Hs2. pose proof (good_ext _ _ _ _ G1) as He.
  destruct (good_range _ _ _ _ G1) as (F2 & L2 & _). cbn [fst snd] in *.
  assert (Ddir : dot_shard s2 = dot_shard s1).
  { rewrite D1. pose proof (mw_dot _ _ M). destruct (dot_shard s1) as [[|]|]; congruence. }
  assert (M2 : midway s s2) by (eapply midway_ext; eauto).
  unfold shard_post_resolve_truncate_handler. rewrite Z1. cbn [Z.ltb Z.compare].
  destruct (Z.eqb_spec (call_count l2) 0) as [Hc|Hc].
  - exists s2, l2. split; [|split; [assumption|split; [assumption|reflexivity]]].
    assert (Hcomp : complete g l2) by (unfold opened in O1; intuition lia).
    split; auto; try congruence.
    + intros o. rewrite (ext_contents _ _ _ He). unfold contents. rewrite Ho. reflexivity.
    + intros j Hj Hn. rewrite Hcomp in Hn by assumption. discriminate.
  - pose proof (lookup_shards_good e fop false g s2 l2 Hw2 Hs2) as G2.
    destruct (lookup_shards_clean e fop g s2 l2 Hclean Hw2 Hs2) as (A & B & _ & D & N).
    cbn [tr_fop tr_gfid]. destruct (shard_common_lookup_shards e fop false g g s2 l2) as [s3 l3]. cbn [fst snd] in *.
    unfold shard_post_lookup_shards_truncate_handler. rewrite B, Z1. cbn [Z.ltb Z.compare].
    destruct (good_range _ _ _ _ G2) as (F3 & L3 & _). cbn [snd] in *.
    exists s3, l3. split; [|split; [congruence|split; [congruence|reflexivity]]].
    split; try congruence.
    + eapply midway_ext; [exact M2|apply G2|apply G2|assumption].
    + intros o. unfold contents. rewrite A, Ob1, Ho. reflexivity.
    + apply G2.
    + intros j Hj Hn. rewrite A. apply N; [unfold in_range in *; lia|assumption].
Qed.

(** The context has the new size from the start. *)
Lemma set_size_midway s c st :
  represents bs g s f -> ctxs s !! g = Some c -> block_size c = bs -> ia_size st = off ->
  midway s (shard_inode_ctx_set s g st false).
Proof.
  intros R Hc Hb Hst. unfold shard_inode_ctx_set. rewrite Hc. cbn [default from_option id].
  split; [apply set_ctx_kept, R|reflexivity| |reflexivity]. eexists. cbn. rewrite lookup_insert_eq. split; [reflexivity|]. cbn. auto.
Qed.

Lemma truncate_no_shards s s1 l :
  represents bs g s f -> midway s s1 -> objs s1 = objs s -> dot_linked s1 = dot_linked s -> dot_shard s = None -> op_ret l = 0 ->
  truncated s (let '(s, l) := open_dot e false g s1 l in shard_post_resolve_truncate_handler e q s l).
Proof.
  intros R M Ho Hli Hd Hop. pose proof (mw_dot _ _ M) as Hd1. unfold open_dot.
  destruct (dot_linked s1) eqn:E; [rewrite (wf_dot s (rp_wf _ _ _ _ R)) in Hd by congruence; discriminate|].
  unfold shard_lookup_dot_shard. rewrite clean_lookup_dot, Hd1, Hd by assumption.
  unfold shard_post_resolve_truncate_handler. cbn [op_ret op_errno set_op Z.ltb Z.compare ENOENT Z.eqb Pos.eqb tr_offset tr_prebuf tr_gfid].
  destruct (rp_xattr _ _ _ _ R) as (x & Hx & Hok & Hxz). destruct (size_delta s R) as [Hw Hu].
  pose proof (rp_limit _ _ _ _ R). pose proof (zlen_nonneg f). unfold limit in *.
  rewrite (u64_id off) in Hw by lia. rewrite Hpre, Hw. eapply (finish_truncate s _ x); auto; try apply M.
  - rewrite Ho. apply R.
  - rewrite (mw_xattrs _ _ M). assumption.
  - rewrite Hxz. assumption.
  - intros p Hp. unfold view, contents. rewrite Ho. fold (contents s (g, p / bs)). fold (view s bs g p).
    rewrite (rp_bytes _ _ _ _ R) by assumption. unfold cut_file. destruct (off <? zlen f);
      rewrite !byte_ptruncate, (rp_empty _ _ _ _ R Hd); repeat destruct (p <? _); reflexivity.
Qed.

Lemma truncate_down_spec s c :
  represents bs g s f -> ctxs s !! g = Some c -> block_size c = bs -> off < zlen f -> covered bs g s off (zlen f) ->
  truncated s (shard_post_lookup_truncate_handler e q s).
Proof.
  intros R Hc Hb Hlt Hcov. pose proof (rp_bs _ _ _ _ R) as Hbs. pose proof (rp_limit _ _ _ _ R) as Hl. unfold limit in Hl, Hlim.
  unfold shard_post_lookup_truncate_handler. cbn [tr_prebuf tr_offset tr_gfid]. rewrite Hpre, (u64_id off) by lia.
  rewrite (proj2 (Z.eqb_neq _ _)), (proj2 (Z.ltb_ge _ _)) by lia.
  set (s1 := shard_inode_ctx_set _ _ _ _).
  assert (M : midway s s1) by (apply (set_size_midway s c); auto).
  assert (Ho : objs s1 = objs s) by reflexivity. assert (Hv : forall p, view s1 bs g p = view s bs g p) by reflexivity.
  unfold shard_truncate_begin. cbn [tr_prebuf tr_offset tr_gfid tr_bs]. rewrite Hpre.
  destruct (range_blocks bs 0 (zlen f) Hbs) as (_ & -> & _ & Hl1); [lia|lia|unfold limit; lia|].
  replace (if off =? 0 then 0 else get_lowest_block (off - 1) bs) with (trunc_first bs off).
  2:{ unfold trunc_first, get_lowest_block. destruct (Z.eqb_spec off 0); [reflexivity|]. rewrite u64_id by lia. reflexivity. }
  change ((0 + zlen f - 1) / bs) with (trunc_last bs (zlen f)) in *.
  assert (Hfl : 0 <= trunc_first bs off <= trunc_last bs (zlen f)).
  { destruct (trunc_first_spec bs off Hbs Hoff) as ([? ?] & _). split; [assumption|].
    assert (off / bs <= trunc_last bs (zlen f)) by (apply Z.div_le_mono; lia). lia. }
  rewrite (s32_id (trunc_first bs off)), (s32_id (trunc_last bs (zlen f))), s32_id by lia.
  destruct (_ && _) eqn:Hone.
  - apply andb_true_iff in Hone as [H1%Z.eqb_eq H2%Z.eqb_eq]. apply cut_block; auto; try apply R; try lia.
    + assert (zlen f - 1 < bs); [|lia]. assert (Hz : (zlen f - 1) / bs = 0) by (unfold trunc_last in *; lia).
      apply Z.div_small_iff in Hz; lia.
    + unfold cut_end. rewrite H1. cbn [Z.mul Z.add]. apply Z.mod_small. split; [lia|].
      assert (Hz : (zlen f - 1) / bs = 0) by (unfold trunc_last in *; lia). apply Z.div_small_iff in Hz; lia.
    + intros p Hp _. rewrite Hv. apply R. assumption.
    + intros p Hp Hgt. rewrite Hv. apply view_past; auto; lia.
  - assert (Hne : trunc_last bs (zlen f) <> 0).
    { intros Hz. rewrite andb_false_iff, !Z.eqb_neq in Hone. lia. }
    destruct Hcov as [?|[Hex Hmore]]; [contradiction|].
    destruct (set_range_scan g s1 _ _ Hfl Hl1) as (l & -> & Hs & Hf & Hlast & Hop & _).
    change (if dot_linked s1 then shard_refresh_dot_shard e g s1 l else shard_lookup_dot_shard e g s1 l) with (open_dot e false g s1 l).
    destruct (decide (dot_shard s = None)) as [Hd|Hd]; [apply truncate_no_shards; auto|].
    destruct (truncate_found s s1 l) as (s2 & l2 & Hr & F2 & L2 & ->); auto.
    apply truncate_do_spec; auto; [rewrite F2, Hf; assumption|rewrite F2, L2, Hf, Hlast; assumption].
Qed.

Lemma truncate_up_spec s c :
  represents bs g s f -> ctxs s !! g = Some c -> block_size c = bs -> refresh c = false -> ia_size (stat c) = zlen f ->
  zlen f <= off -> truncated s (shard_post_lookup_truncate_handler e q s).
Proof.
  intros R Hc Hb Href Hcs Hge. pose proof (rp_limit _ _ _ _ R) as Hl. unfold limit in Hl, Hlim. pose proof (zlen_nonneg f).
  unfold shard_post_lookup_truncate_handler. cbn [tr_prebuf tr_offset tr_gfid]. rewrite Hpre, (u64_id off) by lia.
  destruct (Z.eqb_spec (zlen f) off) as [Heq|Hne].
  { do 4 eexists. split; [reflexivity|]. split; [apply kept_refl, R|].
    replace (cut_file bs off f) with f; [assumption|]. unfold cut_file. rewrite (proj2 (Z.ltb_ge _ _)) by lia.
    symmetry. apply byte_ext; rewrite zlen_ptruncate by assumption; [lia|].
    intros p Hp. rewrite byte_ptruncate, (proj2 (Z.ltb_lt _ _)) by lia. reflexivity. }
  rewrite (proj2 (Z.ltb_lt _ _)) by lia. set (s1 := shard_inode_ctx_set _ _ _ _).
  assert (M : midway s s1) by (apply (set_size_midway s c); auto).
  destruct (rp_xattr _ _ _ _ R) as (x & Hx & Hok & Hxz). rewrite u64_id by lia.
  pose proof (update_file_size_spec e s1 g x 0 (off - zlen f) 0 (mk_iatt off (ia_blocks prebuf))) as Hu.
  destruct (shard_update_file_size e s1 g 0 (off - zlen f) 0 _) as [s2 u]. destruct Hu as [Hu Hcl]; [exact Hx|assumption|].
  destruct (Hcl Hclean) as [post ->]. destruct Hu as (x' & -> & Hok' & _ & Hsz & _).
  unfold shard_post_update_size_truncate_handler. do 4 eexists. split; [reflexivity|].
  assert (K2 : kept g s (set_xattrs (<[g := x']> (xattrs s1)) s1)).
  { eapply kept_trans; [apply M|]. apply set_xattr_kept, M. }
  split; [assumption|]. apply (represents_truncated s _ x'); auto; try apply R; try apply M.
  - cbn. apply lookup_insert_eq.
  - rewrite Hsz, Hxz. rewrite u64_id; lia.
  - intros p Hp. unfold cut_file. rewrite (proj2 (Z.ltb_ge _ _)), byte_ptruncate by lia.
    change (view s bs g p = if p <? off then byte f p else 0). rewrite (rp_bytes _ _ _ _ R) by assumption.
    destruct (Z.ltb_spec p off); [reflexivity|]. apply byte_over. lia.
Qed.

End truncate.

Lemma truncated_from bs g off f s s1 res : kept g s s1 -> truncated bs g off f s1 res -> truncated bs g off f s res.
Proof.
  intros K (s' & errno & pre & post & -> & K' & R). exists s', errno, pre, post. split; [reflexivity|].
  split; [eapply kept_trans; eauto|assumption].
Qed.

(** Truncating when the child does not fail. *)
Lemma truncate_spec e fop bs g off f s :
  clean e -> 0 <= off -> off <= limit bs -> represents bs g s f ->
  (off < zlen f -> covered bs g s off (zlen f)) ->
  truncated bs g off f s (truncate_common fop e false g off s).
Proof.
  intros He Hoff Hlim R Hdown. destruct (rp_ctx _ _ _ _ R) as (c & Hc & Hb & _). pose proof (rp_bs _ _ _ _ R) as Hbs.
  unfold truncate_common, shard_inode_ctx_get_block_size. rewrite Hc. cbn [fmap option_fmap option_map].
  rewrite Hb, (proj2 (Z.eqb_neq bs 0)) by lia. cbn [orb].
  pose proof (lookup_base_spec e bs g s f R) as Hl. destruct (shard_lookup_base_file e s g) as [s1 b].
  destruct Hl as (R1 & K1 & Ho1 & _ & _ & Hst & Hcl). destruct (Hcl He) as [st ->].
  destruct Hst as (Hz & c1 & Hc1 & Hb1 & Hs1 & Href). apply (truncated_from _ _ _ _ _ s1 _ K1).
  destruct (Z_lt_le_dec off (zlen f)) as [Hlt|Hge].
  - pose proof (Hdown Hlt) as Hcov. eapply truncate_down_spec; eauto. unfold covered in *. rewrite Ho1. assumption.
  - eapply truncate_up_spec; eauto. congruence.
Qed.
