(* ===== verification/ShardKept.v ===== *)
(** * Sharding: what operations leave alone

    Whatever the child answers, truncating and removing a file changes no other
    file; removing it removes its shards; and the list of the shards in use stays
    within its bound in every operation. *)

From S2P Require Import Prelude Words Bytes Shard ShardFacts ShardScan ShardOps ShardTrunc.
From stdpp Require Import gmap.
Open Scope Z_scope.

(** ** Other files *)

Lemma kept_represents g h bs s s' f : kept g s s' -> h <> g -> represents bs h s f -> represents bs h s' f.
Proof.
  intros K Hne R. pose proof (kp_dot _ _ _ K) as Hd. split; try apply R.
  - apply K.
  - pose proof (rp_dir _ _ _ _ R). destruct Hd as [->|[_ ->]]; [assumption|discriminate].
  - rewrite (kp_objs _ _ _ K) by assumption. apply R.
  - rewrite (kp_ctxs _ _ _ K) by assumption. apply R.
  - rewrite (kp_xattrs _ _ _ K) by assumption. apply R.
  - intros p Hp. unfold view, contents. rewrite (kp_objs _ _ _ K) by assumption. apply R. assumption.
  - intros Hn. apply (rp_empty _ _ _ _ R). destruct Hd as [<-|[? ?]]; [assumption|congruence].
Qed.

Lemma update_size_kept e s g d h b p : wf s -> kept g s (shard_update_file_size e s g d h b p).1.
Proof.
  intros Hw. unfold shard_update_file_size, child_xattrop. destruct (_ && _); [apply kept_refl; assumption|].
  destruct (fault e _); [apply kept_refl; assumption|]. destruct (xattrs s !! g); [|apply kept_refl; assumption].
  apply set_xattr_kept. assumption.
Qed.

Lemma put_kept g b d s : wf s -> is_Some (objs s !! (g, b)) -> kept g s (put (g, b) d s).
Proof.
  intros Hw Hex. split; auto; unfold put; cbn [objs set_objs cached].
  - intros o Hne. apply lookup_insert_ne. intros <-. apply Hne. reflexivity.
  - destruct Hw as [Wi Wd]. split; [|assumption]. cbn [objs set_objs cached]. intros nm o Hn.
    destruct (Wi nm o Hn) as [-> Ho]. split; [reflexivity|]. intros Hz. specialize (Ho Hz).
    destruct (decide (nm = (g, b))) as [->|]; [rewrite lookup_insert_eq; eauto|]. rewrite lookup_insert_ne by congruence. assumption.
Qed.

Lemma child_truncate_kept e g s b n : wf s -> kept g s (child_truncate e s (g, b) n).1.
Proof.
  intros Hw. unfold child_truncate. destruct (fault e _); [apply kept_refl; assumption|].
  destruct (objs s !! (g, b)) eqn:E; [apply put_kept; eauto|apply kept_refl; assumption].
Qed.

(** ** Truncating *)

Section trunc_kept.
Context (e : env) (q : trunc_req).
Abbreviation g := (tr_gfid q).

Lemma post_update_kept s l post u : kept g s u.1 -> kept g s (shard_post_update_size_truncate_handler q l post u).1.
Proof. intros K. destruct u as [s1 [x|p]]; exact K. Qed.

Lemma last_cbk_kept s b l r : kept g s r.1 -> kept g s (shard_truncate_last_shard_cbk e q (g, b) l r).1.
Proof.
  intros K. destruct r as [s1 [x|]]; [exact K|]. apply post_update_kept.
  eapply kept_trans; [exact K|]. apply update_size_kept, K.
Qed.

Lemma last_shard_kept s l b : wf s -> kept g s (shard_truncate_last_shard e q s l (Some (g, b))).1.
Proof. intros Hw. apply last_cbk_kept, child_truncate_kept, Hw. Qed.

Lemma unlink_fold_kept s l ms :
  wf s -> (forall j, j ∈ ms -> found l j = Some (g, j) /\ j <> 0) ->
  kept g s (foldl (unlink_step e g g) (s, l) ms).1 /\ inode_list (foldl (unlink_step e g g) (s, l) ms).2 = inode_list l.
Proof.
  intros Hw Hms. destruct (unlink_fold_removed e g ms s l Hw Hms) as (Rm & Sl & _). split; [eapply removed_kept, Rm|apply Sl].
Qed.

Lemma truncate_do_kept s l : wf s -> scan g s l -> kept g s (shard_truncate_do e q s l).1.
Proof.
  intros Hw Hs. pose proof (sc_range _ _ _ Hs). pose proof (sc_num _ _ _ Hs) as Hn.
  assert (Hhead : forall s', kept g s s' -> forall l', kept g s (shard_truncate_last_shard e q s' l' (nth 0 (inode_list l) None)).1).
  { intros s' K l'. destruct (nth 0 (inode_list l) None) as [o|] eqn:E; [|exact K].
    destruct (sc_found _ _ _ Hs (first_block l) o) as [-> _]; [unfold in_range; lia|unfold found; rewrite Z.sub_diag; exact E|].
    eapply kept_trans; [exact K|]. apply last_shard_kept, K. }
  unfold shard_truncate_do. destruct (num_blocks l =? 1); [apply Hhead, kept_refl, Hw|].
  unfold shard_truncate_htol. destruct (zlen (to_unlink l) =? 0); [apply post_update_kept, update_size_kept, Hw|].
  destruct (unlink_fold_kept s l (to_unlink l) Hw) as [K Hl].
  { intros j Hj. destruct (to_unlink_ready g s l j Hs Hj) as (A & B & _). auto. }
  destruct (foldl _ (s, l) (to_unlink l)) as [s1 l1]. cbn [fst snd] in *. rewrite Hl. apply Hhead. assumption.
Qed.

Lemma post_resolve_truncate_kept s l : wf s -> scan g s l -> kept g s (shard_post_resolve_truncate_handler e q s l).1.
Proof.
  intros Hw Hs. unfold shard_post_resolve_truncate_handler. destruct (op_ret l <? 0).
  { destruct (_ =? _); [apply post_update_kept, update_size_kept, Hw|apply kept_refl, Hw]. }
  destruct (call_count l =? 0); [apply truncate_do_kept; assumption|].
  pose proof (lookup_shards_good e (tr_fop q) false g s l Hw Hs) as G.
  destruct (shard_common_lookup_shards e (tr_fop q) false g g s l) as [s1 l1].
  eapply kept_trans; [apply (good_kept _ _ _ _ G)|]. destruct G as [Hw1 _ Hs1 _]. cbn [fst snd] in *.
  unfold shard_post_lookup_shards_truncate_handler. destruct (op_ret l1 <? 0); [apply kept_refl, Hw1|].
  apply truncate_do_kept; assumption.
Qed.

Lemma truncate_begin_kept s :
  wf s -> 0 < tr_bs q -> 0 <= tr_offset q < ia_size (tr_prebuf q) -> ia_size (tr_prebuf q) <= limit (tr_bs q) ->
  kept g s (shard_truncate_begin e q s).1.
Proof.
  intros Hw Hbs Ho Hl. set (size := ia_size (tr_prebuf q)) in *.
  destruct (range_blocks (tr_bs q) 0 size Hbs) as (_ & Hh & _ & Hh1); [lia|lia|lia|]. unfold limit in Hl.
  assert (Hlow : (if tr_offset q =? 0 then 0 else get_lowest_block (tr_offset q - 1) (tr_bs q)) = trunc_first (tr_bs q) (tr_offset q)).
  { unfold trunc_first, get_lowest_block. destruct (Z.eqb_spec (tr_offset q) 0); [reflexivity|]. rewrite u64_id by lia. reflexivity. }
  assert (Hr : 0 <= trunc_first (tr_bs q) (tr_offset q) <= (size - 1) / tr_bs q).
  { unfold trunc_first. destruct (Z.eqb_spec (tr_offset q) 0); (split; [try (apply Z.div_pos; lia); lia|]).
    - apply Z.div_pos; lia.
    - apply Z.div_le_mono; lia. }
  unfold shard_truncate_begin. fold size. rewrite Hh, Hlow. change (0 + size - 1) with (size - 1) in *.
  destruct (_ && _); [apply last_cbk_kept, child_truncate_kept, Hw|].
  destruct (set_range_scan g s _ _ Hr Hh1) as (l & -> & Hs & _).
  change (if dot_linked s then shard_refresh_dot_shard e g s l else shard_lookup_dot_shard e g s l) with (open_dot e false g s l).
  destruct (open_dot_good e false g s l Hw Hs) as [G _]. destruct (open_dot e false g s l) as [s1 l1].
  eapply kept_trans; [apply (good_kept _ _ _ _ G)|]. apply post_resolve_truncate_kept; apply G.
Qed.

End trunc_kept.

Lemma truncate_kept e fop bs g off f s :
  0 <= off -> off <= limit bs -> represents bs g s f -> kept g s (truncate_common fop e false g off s).1.
Proof.
  intros Hoff Hlim R. destruct (rp_ctx _ _ _ _ R) as (c & Hc & Hb & _). pose proof (rp_bs _ _ _ _ R) as Hbs.
  unfold truncate_common, shard_inode_ctx_get_block_size. rewrite Hc. cbn [fmap option_fmap option_map].
  rewrite Hb, (proj2 (Z.eqb_neq bs 0)) by lia. cbn [orb].
  pose proof (lookup_base_spec e bs g s f R) as Hl. destruct (shard_lookup_base_file e s g) as [s1 b].
  destruct Hl as (R1 & K1 & _ & _ & _ & Hst & _). destruct b as [x|st]; [exact K1|]. destruct Hst as [Hz _].
  eapply kept_trans; [exact K1|]. pose proof (kp_wf _ _ _ K1) as Hw. pose proof (rp_limit _ _ _ _ R) as Hf. unfold limit in Hlim.
  unfold shard_post_lookup_truncate_handler. cbn [tr_prebuf tr_offset tr_gfid]. rewrite Hz, (u64_id off) by lia.
  destruct (Z.eqb_spec (zlen f) off); [apply kept_refl, Hw|].
  assert (K2 : kept g s1 (shard_inode_ctx_set s1 g (mk_iatt off (ia_blocks st)) false)) by (apply set_ctx_kept, Hw).
  eapply kept_trans; [exact K2|]. destruct (Z.ltb_spec (zlen f) off).
  - apply (post_update_kept (mk_trunc fop g bs off st)), update_size_kept, K2.
  - apply (truncate_begin_kept e (mk_trunc fop g bs off st)); cbn; [apply K2|lia|lia|lia].
Qed.

(** ** Removing a file *)

Definition last_of (bs size : Z) : Z := if size =? 0 then 0 else (size - 1) / bs.

Section remove.
Context (e : env) (fop : shard_fop) (g bs size : Z).
Context (Hbs : 0 < bs) (Hsize : 0 <= size <= limit bs).

(** From [s] on, shards of [g] with a number from 1 to [last] may have gone, and
    all of them have if the child does not fail and has [/.shard]. *)
Definition shards_gone (last : Z) (s : state) (res : state * reply) : Prop :=
  kept g s res.1 /\
  (clean e -> dot_shard s <> Some false -> exists errno, res.2 = Unwind 0 errno None None [] /\
     forall j, (1 <= j <= last /\ dot_shard s <> None) \/ objs s !! (g, j) = None -> objs res.1 !! (g, j) = None).

Lemma open_dot_absent s l :
  clean e -> wf s -> dot_shard s = None -> open_dot e false g s l = (s, set_op (-1) ENOENT l).
Proof.
  intros He Hw Hd. unfold open_dot. destruct (dot_linked s) eqn:Hl; [rewrite (wf_dot s Hw Hl) in Hd; discriminate|].
  unfold shard_lookup_dot_shard. rewrite clean_lookup_dot, Hd by assumption. reflexivity.
Qed.

Lemma unlink_shards_spec s l :
  wf s -> scan g s l -> first_block l = 0 ->
  kept g s (shard_unlink_shards_do e g g s l).1 /\
  (clean e -> op_ret l = 0 -> (forall j, in_range l j -> found l j = None -> objs s !! (g, j) = None) ->
   exists errno, (shard_unlink_shards_do e g g s l).2 = Unwind 0 errno None None [] /\
     forall j, 1 <= j <= last_block l \/ objs s !! (g, j) = None -> objs (shard_unlink_shards_do e g g s l).1 !! (g, j) = None).
Proof.
  intros Hw Hs Hf. unfold shard_unlink_shards_do.
  destruct (unlink_fold_removed e g (to_unlink l) s l Hw) as (Rm & _ & _ & Hcl).
  { intros j Hj. destruct (to_unlink_ready g s l j Hs Hj) as (A & B & _). auto. }
  assert (Hnot : forall j, 1 <= j <= last_block l -> j ∉ to_unlink l -> found l j = None).
  { intros j Hj Hn. destruct (found l j) eqn:E; [|reflexivity]. exfalso. apply Hn. apply (elem_of_to_unlink g s); [assumption|].
    split; [lia|congruence]. }
  destruct (Z.eqb_spec (zlen (to_unlink l)) 0) as [Hz|Hz].
  { split; [apply kept_refl, Hw|]. intros _ Ho Hn. exists (op_errno l). cbn. split; [unfold shard_unlink_cbk; rewrite Ho; reflexivity|].
    intros j [Hj|Hj]; [|exact Hj]. apply Hn; [unfold in_range; lia|]. apply Hnot; [assumption|].
    destruct (to_unlink l); [apply not_elem_of_nil|discriminate]. }
  destruct (foldl _ (s, l) (to_unlink l)) as [s1 l1]. cbn [fst snd] in *. split; [eapply removed_kept, Rm|].
  intros He Ho Hn. destruct (Hcl He (NoDup_to_unlink l)) as (A & _ & C).
  { intros j Hj. apply (to_unlink_ready g s l j Hs Hj). }
  exists (op_errno l1). split; [unfold shard_unlink_cbk; rewrite A, Ho; reflexivity|]. intros j Hj.
  destruct (decide (j ∈ to_unlink l)) as [Hin|Hin]; [auto|]. rewrite (rm_objs _ _ _ _ Rm) by auto.
  destruct Hj as [Hj|Hj]; [|exact Hj]. apply Hn; [unfold in_range; lia|auto].
Qed.

Lemma remove_shards_spec s : creates fop = false -> wf s -> shards_gone (last_of bs size) s (remove_shards e fop g g bs size s).
Proof.
  intros Hfop Hw. unfold remove_shards. unfold limit in Hsize.
  assert (Hb : get_lowest_block 0 bs = 0 /\ get_highest_block 0 size bs = last_of bs size /\ 0 <= 0 <= last_of bs size /\ last_of bs size < 2 ^ 31 - 1).
  { unfold get_lowest_block, get_highest_block, last_of. rewrite (u64_id 0), Z.div_0_l by lia.
    destruct (Z.eqb_spec size 0) as [->|Hne]; [cbn; rewrite Z.div_0_l by lia; lia|].
    rewrite !u64_id, (proj2 (Z.eqb_neq (0 + size) 0)) by lia.
    split; [reflexivity|]. split; [reflexivity|]. split; [split; [lia|apply Z.div_pos; lia]|]. apply Z.div_lt_upper_bound; lia. }
  destruct Hb as (-> & -> & H1 & H2).
  destruct (set_range_scan g s _ _ H1 H2) as (l & -> & Hs & Hf & Hl & Hop & Hc0 & _).
  pose proof (sc_num _ _ _ Hs) as Hnum. destruct (Z.eqb_spec (num_blocks l) 1) as [H1'|H1'].
  { split; [apply kept_refl, Hw|]. intros _ _. exists 0. split; [reflexivity|]. intros j [[Hj _]|Hj]; [lia|exact Hj]. }
  assert (A1 := fun He => open_dot_absent s l He Hw).
  change (if dot_linked s then shard_refresh_dot_shard e g s l else shard_lookup_dot_shard e g s l) with (open_dot e false g s l).
  destruct (open_dot_good e false g s l Hw Hs) as [G1 O1].
  assert (C1 : clean e -> dot_shard s <> Some false -> dot_shard s <> None ->
    op_ret (open_dot e false g s l).2 = 0 /\ objs (open_dot e false g s l).1 = objs s).
  { intros He Hd Hd'. destruct (open_dot_clean e false g s l He Hw Hd Hop) as (A & _ & B & _); auto. }
  destruct (open_dot e false g s l) as [s1 l1]. cbn [fst snd] in *.
  pose proof (good_wf _ _ _ _ G1) as Hw1. pose proof (good_scan _ _ _ _ G1) as Hs1. destruct (good_range _ _ _ _ G1) as (F1 & L1 & _).
  pose proof (good_kept _ _ _ _ G1) as K1. cbn [fst snd] in *. unfold shard_post_resolve_unlink_handler, shards_gone.
  destruct (Z.ltb_spec (op_ret l1) 0) as [Hneg|Hpos].
  { split; [destruct (_ =? _); exact K1|]. intros He Hd. destruct (decide (dot_shard s = None)) as [Hn|Hn].
    - specialize (A1 He Hn). injection A1 as -> ->. cbn. exists ENOENT. split; [reflexivity|]. intros j [[_ Hj]|Hj]; [contradiction|exact Hj].
    - destruct (C1 He Hd Hn). lia. }
  assert (D : clean e -> dot_shard s <> None) by (intros He Hn; specialize (A1 He Hn); injection A1 as _ ->; cbn in Hpos; lia).
  destruct (Z.eqb_spec (call_count l1) 0) as [Hc|Hc].
  - destruct (unlink_shards_spec s1 l1 Hw1 Hs1) as [K2 C2]; [congruence|]. split; [eapply kept_trans; eauto|].
    intros He Hd. destruct (C1 He Hd (D He)) as [C1' O1']. rewrite <- O1', <- Hl, <- L1.
    destruct C2 as (errno & E & C2); [assumption..| |exists errno; split; [exact E|]; intros j Hj; apply C2; tauto]. intros j Hj Hn.
    destruct O1 as [?|[?|O1]]; [lia|lia|]. rewrite O1 in Hn by assumption. discriminate.
  - pose proof (lookup_shards_good e fop false g s1 l1 Hw1 Hs1) as G2.
    assert (C3 := fun He => lookup_shards_clean e fop g s1 l1 He Hw1 Hs1).
    destruct (shard_common_lookup_shards e fop false g g s1 l1) as [s2 l2]. cbn [fst snd] in *.
    destruct (good_range _ _ _ _ G2) as (F2 & L2 & _). pose proof (good_kept _ _ _ _ G2) as K2. cbn [fst snd] in *.
    unfold shard_post_lookup_shards_unlink_handler. destruct (_ && _) eqn:Hbad.
    { split; [eapply kept_trans; eauto|]. intros He Hd. destruct (C1 He Hd (D He)) as [C1' _]. destruct (C3 He) as (_ & B & _).
      rewrite B, C1' in Hbad. discriminate. }
    pose proof (good_scan _ _ _ _ G2) as Hs2. cbn [fst snd] in *.
    destruct (unlink_shards_spec s2 (set_op 0 0 l2)) as [K3 C2].
    { apply G2. }
    { eapply scan_weaken; [exact Hs2|auto|repeat split|reflexivity|apply Hs2]. }
    { cbn. congruence. }
    split; [eapply kept_trans; [exact K1|]; eapply kept_trans; eauto|].
    intros He Hd. destruct (C3 He) as (A & _ & _ & _ & N). destruct (C1 He Hd (D He)) as [_ O1']. rewrite <- O1', <- A, <- Hl, <- L1, <- L2.
    destruct C2 as (errno & E & C2); [auto..| |exists errno; split; [exact E|]; intros j Hj; apply C2; cbn; tauto].
    intros j Hj Hn. rewrite A. apply N; [unfold in_range in *; cbn in *; lia|exact Hn].
Qed.

End remove.

Lemma child_unlink_base_kept e g s : wf s -> kept g s (child_unlink_base e s g).1.
Proof.
  intros Hw. unfold child_unlink_base, child_unlink. destruct (linked_elsewhere e); [apply kept_refl, Hw|].
  destruct (fault e _); [apply kept_refl, Hw|]. destruct (objs s !! (g, 0)); [|apply kept_refl, Hw]. split; auto; cbn [fst objs set_objs cached].
  - intros o Hne. apply lookup_delete_ne. intros <-. apply Hne. reflexivity.
  - destruct Hw as [Wi Wd]. split; [|assumption]. cbn [fst objs set_objs cached]. intros nm o Hn. destruct (Wi nm o Hn) as [-> Ho].
    split; [reflexivity|]. intros Hz. rewrite lookup_delete_ne; [auto|]. intros <-. contradiction.
Qed.

(** Removing the last link of a file removes block 0 and every shard up to the
    end of the file. *)
Lemma unlink_spec e bs g f s :
  represents bs g s f ->
  kept g s (shard_unlink e false g s).1 /\
  (clean e -> linked_elsewhere e = false -> exists errno,
     (shard_unlink e false g s).2 = Unwind 0 errno None None [] /\
     forall j, j = 0 \/ (1 <= j <= last_of bs (zlen f) /\ dot_shard s <> None) \/ objs s !! (g, j) = None -> objs (shard_unlink e false g s).1 !! (g, j) = None).
Proof.
  intros R. destruct (rp_ctx _ _ _ _ R) as (c & Hc & Hb & _). pose proof (rp_bs _ _ _ _ R) as Hbs.
  unfold shard_unlink, shard_inode_ctx_get_block_size. rewrite Hc. cbn [fmap option_fmap option_map].
  rewrite Hb, (proj2 (Z.eqb_neq bs 0)) by lia. cbn [orb].
  pose proof (lookup_base_spec e bs g s f R) as Hl. destruct (shard_lookup_base_file e s g) as [s1 b].
  destruct Hl as (R1 & K1 & Ho1 & _ & _ & Hst & Hcl). destruct b as [x|st].
  { split; [exact K1|]. intros He. destruct (Hcl He). discriminate. }
  destruct Hst as [Hz _]. rewrite Hz. unfold shard_unlink_base_file.
  pose proof (child_unlink_base_kept e g s1 (kp_wf _ _ _ K1)) as K2.
  assert (Hbase : clean e -> linked_elsewhere e = false -> exists s', child_unlink_base e s1 g = (s', None) /\ objs s' !! (g, 0) = None /\ dot_shard s' = dot_shard s1 /\
    forall o, objs s1 !! o = None -> objs s' !! o = None).
  { intros He Hlk. unfold child_unlink_base, child_unlink. rewrite Hlk, clean_fault by assumption.
    destruct (rp_base _ _ _ _ R1) as [d ->]. eexists. split; [reflexivity|]. cbn. rewrite lookup_delete_eq. split_and!; auto.
    intros o Ho. apply lookup_delete_None. auto. }
  destruct (child_unlink_base e s1 g) as [s2 r]. cbn [fst] in K2. pose proof (kept_trans _ _ _ _ K1 K2) as K.
  unfold shard_unlink_base_file_cbk. destruct r as [x|].
  { split; [exact K|]. intros He Hlk. destruct (Hbase He Hlk) as (? & [=] & _). }
  destruct (linked_elsewhere e) eqn:Hlk; [split; [exact K|discriminate]|].
  destruct (remove_shards_spec e GF_FOP_UNLINK g bs (zlen f) Hbs) with (s := s2) as [K3 C3].
  { split; [apply zlen_nonneg|apply R]. }
  { reflexivity. }
  { apply K2. }
  split; [eapply kept_trans; [exact K|exact K3]|]. intros He _.
  destruct (Hbase He eq_refl) as (s' & [= <-] & Hgone & Hdot & Hobjs).
  assert (Hd2 : dot_shard s2 <> Some false /\ (dot_shard s <> None -> dot_shard s2 <> None)).
  { pose proof (rp_dir _ _ _ _ R). destruct (kp_dot _ _ _ K) as [E|[E1 E2]]; rewrite ?E, ?E1, ?E2; auto. }
  destruct (C3 He (proj1 Hd2)) as (errno & Hr & Hj). exists errno. split; [exact Hr|]. intros j Hj'.
  apply Hj. destruct Hj' as [-> | [[H1 H2]|H]]; [right; assumption|left; tauto|right]. apply Hobjs. rewrite Ho1. exact H.
Qed.
