(* ===== verification/ShardLru.v ===== *)
(** * Sharding: the list of the shards in use

    [priv->inode_count] is the length of [priv->ilist_head], which has no inode
    twice and at most [SHARD_MAX_INODES] of them, after every operation and
    whatever the child answers. *)

From S2P Require Import Prelude Words Bytes Shard ShardFacts.
From stdpp Require Import gmap.
Open Scope Z_scope.

Definition cache_ok (c : cache) : Prop :=
  inode_count c = zlen (ilist c) /\ NoDup (map e_inode (ilist c)) /\ inode_count c <= SHARD_MAX_INODES.

Definition mine (c : cache) (o : obj) : list ientry := List.filter (fun x => bool_decide (e_inode x = o)) (ilist c).

(** ** List operations *)

Lemma list_del_perm c o : ilist c ≡ₚ list_del c o ++ mine c o.
Proof.
  unfold list_del, mine. induction (ilist c) as [|x l IH]; [reflexivity|]. cbn. destruct (bool_decide (e_inode x = o)); cbn.
  - rewrite <- Permutation_middle. constructor. exact IH.
  - constructor. exact IH.
Qed.

Lemma in_ilist_elem c o : in_ilist c o = true <-> o ∈ map e_inode (ilist c).
Proof.
  unfold in_ilist. rewrite existsb_exists, list_elem_of_In, in_map_iff. split; intros [x Hx]; exists x.
  - rewrite bool_decide_eq_true in Hx. tauto.
  - rewrite bool_decide_eq_true. tauto.
Qed.

Lemma mine_inodes c o x : x ∈ map e_inode (mine c o) -> x = o.
Proof.
  unfold mine. rewrite list_elem_of_In, in_map_iff. intros (y & <- & Hy). apply filter_In in Hy as [_ Hy].
  apply bool_decide_eq_true in Hy. exact Hy.
Qed.

Lemma mine_one c o : NoDup (map e_inode (ilist c)) -> in_ilist c o = true -> zlen (mine c o) = 1.
Proof.
  intros Hn Hi. rewrite (list_del_perm c o) in Hn. rewrite map_app in Hn. apply NoDup_app in Hn as (_ & _ & Hn).
  apply in_ilist_elem in Hi. pose proof (mine_inodes c o) as Hall.
  assert (Hm : o ∈ map e_inode (mine c o)).
  { rewrite (list_del_perm c o), map_app, elem_of_app in Hi. destruct Hi as [Hi|Hi]; [|assumption]. exfalso.
    unfold list_del in Hi. rewrite list_elem_of_In, in_map_iff in Hi. destruct Hi as (y & <- & Hy).
    apply filter_In in Hy as [_ Hy]. apply negb_true_iff, bool_decide_eq_false in Hy. congruence. }
  destruct (mine c o) as [|x [|y l]]; [apply elem_of_nil in Hm as []|reflexivity|]. exfalso.
  cbn in Hn, Hall. apply NoDup_cons in Hn as [Hx _]. apply Hx.
  rewrite (Hall (e_inode x)) by left. rewrite (Hall (e_inode y)) by (right; left). left.
Qed.

Lemma list_del_ok c o :
  NoDup (map e_inode (ilist c)) -> NoDup (map e_inode (list_del c o)) /\
  (in_ilist c o = true -> zlen (list_del c o) = zlen (ilist c) - 1).
Proof.
  intros Hn. split.
  - rewrite (list_del_perm c o), map_app in Hn. apply NoDup_app in Hn. tauto.
  - intros Hi. pose proof (mine_one c o Hn Hi). pose proof (Permutation_length (list_del_perm c o)) as Hl.
    rewrite length_app in Hl. unfold zlen in *. lia.
Qed.

Lemma append_ok l x : NoDup (map e_inode l) -> e_inode x ∉ map e_inode l -> NoDup (map e_inode (l ++ [x])).
Proof.
  intros Hn Hx. rewrite map_app. apply NoDup_app. cbn. split; [assumption|]. split.
  - intros y Hy ->%list_elem_of_singleton. contradiction.
  - apply NoDup_singleton.
Qed.

(** ** The changes *)

Lemma update_list_ok c o b n : cache_ok c -> cache_ok (__shard_update_shards_inode_list c o b n).
Proof.
  intros (Hc & Hn & Hm). unfold __shard_update_shards_inode_list. destruct (in_ilist c o) eqn:Hi.
  { fold (mine c o). unfold cache_ok. cbn [ilist inode_count].
    unfold zlen. rewrite <- (list_del_perm c o). auto. }
  assert (Hout : o ∉ map e_inode (ilist c)).
  { intros Ho%in_ilist_elem. congruence. }
  destruct (Z.leb_spec (inode_count c + 1) SHARD_MAX_INODES).
  { split; cbn [ilist inode_count]; [rewrite zlen_app; unfold zlen in *; cbn [length]; lia|]. split; [apply append_ok; auto|lia]. }
  destruct (ilist c) as [|lru rest] eqn:El; [unfold zlen, SHARD_MAX_INODES in *; cbn in Hc; lia|].
  cbn in Hn, Hout. apply NoDup_cons in Hn as [_ Hn]. apply not_elem_of_cons in Hout as [_ Hout].
  split; cbn [ilist inode_count]; [rewrite zlen_app; unfold zlen in *; cbn in *; lia|]. split; [apply append_ok; auto|lia].
Qed.

Lemma drop_ok c o t : cache_ok c ->
  cache_ok (if in_ilist c o then mk_cache t (list_del c o) (inode_count c - 1) else mk_cache t (ilist c) (inode_count c)).
Proof.
  intros (Hc & Hn & Hm). destruct (list_del_ok c o Hn) as [Hd Hl]. destruct (in_ilist c o); [|split; auto].
  split; cbn [ilist inode_count]; [rewrite Hl by reflexivity; lia|]. split; [assumption|lia].
Qed.

Definition lru_ok (s : state) : Prop := cache_ok (cached s).

Create HintDb lru.

Lemma link_block_ok s l g n o : lru_ok s -> lru_ok (shard_link_block_inode s l g n o).1.
Proof. intros H. apply update_list_ok. exact H. Qed.

Lemma unlink_block_ok s l g n : lru_ok s -> lru_ok (shard_unlink_block_inode s l g n).
Proof. intros H. unfold shard_unlink_block_inode. destruct (nth _ _ _); [|exact H]. apply drop_ok. exact H. Qed.

Lemma forget_ok s o : lru_ok s -> lru_ok (shard_forget s o).
Proof. intros H. apply drop_ok. exact H. Qed.

#[export] Hint Resolve link_block_ok unlink_block_ok forget_ok : lru.

Lemma fold_ok (step : state * local -> Z -> state * local) :
  (forall s l i, lru_ok s -> lru_ok (step (s, l) i).1) -> forall ms s l, lru_ok s -> lru_ok (foldl step (s, l) ms).1.
Proof.
  intros Hs ms. induction ms as [|i ms IH]; intros s l H; [exact H|]. cbn [foldl]. specialize (Hs s l i H).
  destruct (step (s, l) i) as [s1 l1]. apply IH. exact Hs.
Qed.

(** ** The operations *)

(** The next call of a handler keeps the list in order. *)
Ltac lru_call :=
  match goal with
  | |- context [let '(_, _) := ?x in _] =>
    let H := fresh in
    assert (H : lru_ok x.1) by eauto with lru; destruct x as [? ?]; cbn [fst snd] in H |- *
  end.

Ltac lru_case := match goal with |- lru_ok (match ?x with _ => _ end).1 => destruct x end.

Ltac lru := repeat first [assumption | lru_call | lru_case | progress cbn [fst] | solve [eauto with lru]].

Lemma child_lookup_base_ok e s g : lru_ok s -> lru_ok (shard_lookup_base_file e s g).1.
Proof. intros H. unfold shard_lookup_base_file. repeat case_match; exact H. Qed.

Lemma update_size_ok e s g d h b p : lru_ok s -> lru_ok (shard_update_file_size e s g d h b p).1.
Proof. intros H. unfold shard_update_file_size, child_xattrop. repeat case_match; simplify_eq; exact H. Qed.

Lemma child_truncate_ok e s o n : lru_ok s -> lru_ok (child_truncate e s o n).1.
Proof. intros H. unfold child_truncate. repeat case_match; exact H. Qed.

Lemma child_unlink_ok e s o : lru_ok s -> lru_ok (child_unlink e s o).1.
Proof. intros H. unfold child_unlink. repeat case_match; exact H. Qed.

Lemma child_mknod_ok e s o : lru_ok s -> lru_ok (child_mknod e s o).1.
Proof. intros H. unfold child_mknod. repeat case_match; exact H. Qed.

Lemma child_write_ok e s o r p : lru_ok s -> lru_ok (child_write e s o r p).1.
Proof. intros H. unfold child_write. repeat case_match; exact H. Qed.

#[export] Hint Resolve child_lookup_base_ok update_size_ok child_truncate_ok child_unlink_ok child_mknod_ok child_write_ok : lru.

Lemma resolve_ok g s l : lru_ok s -> lru_ok (shard_common_resolve_shards g s l).1.
Proof.
  intros H. unfold shard_common_resolve_shards. destruct (op_ret l <? 0); [exact H|]. apply fold_ok; [|exact H].
  clear. intros s l i H. unfold resolve_step. repeat case_match; try exact H. apply update_list_ok, H.
Qed.

Lemma link_dot_ok s b : lru_ok s -> lru_ok (set_refreshed b (shard_link_dot_shard_inode s)).
Proof. intros H. exact H. Qed.

Lemma make_dot_ok s b d : lru_ok s -> lru_ok (set_refreshed b (shard_link_dot_shard_inode (set_dot_shard d s))).
Proof. intros H. exact H. Qed.

#[export] Hint Resolve resolve_ok link_dot_ok make_dot_ok : lru.

Lemma lookup_dot_ok e g s l : lru_ok s -> lru_ok (shard_lookup_dot_shard e g s l).1.
Proof. intros H. unfold shard_lookup_dot_shard. lru. Qed.

#[export] Hint Resolve lookup_dot_ok : lru.

Lemma refresh_dot_ok e g s l : lru_ok s -> lru_ok (shard_refresh_dot_shard e g s l).1.
Proof. intros H. unfold shard_refresh_dot_shard. lru. Qed.

Lemma mkdir_dot_ok e g s l : lru_ok s -> lru_ok (shard_mkdir_dot_shard e g s l).1.
Proof. intros H. unfold shard_mkdir_dot_shard. lru. Qed.

Lemma lookup_shards_ok e fop again g h s l : lru_ok s -> lru_ok (shard_common_lookup_shards e fop again g h s l).1.
Proof.
  intros H. apply fold_ok; [|exact H]. clear. intros s l i H. unfold lookup_step, shard_common_lookup_shards_cbk. lru.
Qed.

Lemma resume_mknod_ok e g s l : lru_ok s -> lru_ok (shard_common_resume_mknod e g s l).1.
Proof.
  intros H. unfold shard_common_resume_mknod.
  assert (F : lru_ok (foldl (mknod_step e g) (s, l) (missing l)).1).
  { apply fold_ok; [|exact H]. clear. intros s l i H. unfold mknod_step. lru. }
  destruct (foldl _ _ _). exact F.
Qed.

Lemma unlink_fold_ok e g h ms s l : lru_ok s -> lru_ok (foldl (unlink_step e g h) (s, l) ms).1.
Proof. intros H. apply fold_ok; [|exact H]. clear. intros s l i H. unfold unlink_step. lru. Qed.

#[export] Hint Resolve refresh_dot_ok mkdir_dot_ok lookup_shards_ok resume_mknod_ok unlink_fold_ok : lru.

Lemma ite_ok (b : bool) (x y : state * local) : lru_ok x.1 -> lru_ok y.1 -> lru_ok (if b then x else y).1.
Proof. destruct b; auto. Qed.

#[export] Hint Resolve ite_ok : lru.

Lemma write_done_ok e r p s t : lru_ok s -> lru_ok (write_done e r p s t).1.
Proof.
  intros H. unfold write_done. destruct (t_ret t <? 0); [exact H|]. unfold shard_get_delta_size_from_inode_ctx.
  destruct (ctxs s !! _); cbn [fst]; lru_call; lru.
Qed.

Lemma write_fold_ok e r l ps s t :
  lru_ok s -> match foldl (write_step e r l) (Some (s, t)) ps with Some (s', _) => lru_ok s' | None => True end.
Proof.
  revert s t. induction ps as [|p ps IH]; intros s t H; [exact H|]. cbn [foldl]. unfold write_step at 2. cbn [mbind option_bind].
  destruct (piece_obj l (w_gfid r) (p_block p)) as [o|].
  - cbn [mbind option_bind]. pose proof (child_write_ok e s o r p H) as H1. destruct (child_write e s o r p) as [s1 res]. apply IH. exact H1.
  - clear. induction ps as [|q ps IH]; [exact I|exact IH].
Qed.

Lemma write_do_ok e r p s l : lru_ok s -> lru_ok (shard_common_inode_write_do e r p s l).1.
Proof.
  intros H. unfold shard_common_inode_write_do.
  match goal with |- context [foldl ?f (Some (s, ?t)) ?ps] => pose proof (write_fold_ok e r l ps s t H) as F; destruct (foldl f (Some (s, t)) ps) as [[s1 t1]|] end;
    [|exact H]. destruct (_ || _); [exact F|]. apply write_done_ok, F.
Qed.

#[export] Hint Resolve write_do_ok : lru.

Lemma write_handler_ok e r p s l : lru_ok s -> lru_ok (shard_common_inode_write_post_resolve_handler e r p s l).1.
Proof.
  intros H. unfold shard_common_inode_write_post_resolve_handler, shard_common_inode_write_post_lookup_shards_handler,
    shard_common_inode_write_post_mknod_handler. lru.
Qed.

#[export] Hint Resolve write_handler_ok : lru.

Lemma write_begin_ok e gs fop g v off keep len a b s : lru_ok s -> lru_ok (shard_common_inode_write_begin e gs fop g v off keep len a b s).1.
Proof.
  intros H. unfold shard_common_inode_write_begin, pass_write, shard_common_inode_write_post_lookup_handler. lru.
Qed.

Lemma readv_ok e gs g size off s : lru_ok s -> lru_ok (shard_readv e gs g size off s).1.
Proof.
  intros H. unfold shard_readv, shard_post_lookup_readv_handler, shard_post_resolve_readv_handler,
    shard_post_lookup_shards_readv_handler, shard_post_mknod_readv_handler, shard_readv_do. lru.
Qed.

Lemma post_update_ok q l post u : lru_ok u.1 -> lru_ok (shard_post_update_size_truncate_handler q l post u).1.
Proof. intros H. destruct u as [s [x|p]]; exact H. Qed.

#[export] Hint Resolve post_update_ok : lru.

Lemma last_cbk_ok e q o l r : lru_ok r.1 -> lru_ok (shard_truncate_last_shard_cbk e q o l r).1.
Proof. intros H. destruct r as [s [x|]]; [exact H|]. cbn in H. unfold shard_truncate_last_shard_cbk. lru. Qed.

Lemma last_shard_ok e q s l o : lru_ok s -> lru_ok (shard_truncate_last_shard e q s l o).1.
Proof. intros H. destruct o; [|exact H]. apply last_cbk_ok, child_truncate_ok, H. Qed.

#[export] Hint Resolve last_cbk_ok last_shard_ok : lru.

Lemma truncate_ok fop e gs g off s : lru_ok s -> lru_ok (truncate_common fop e gs g off s).1.
Proof.
  intros H. unfold truncate_common, shard_post_lookup_truncate_handler, shard_truncate_begin, shard_post_resolve_truncate_handler,
    shard_post_lookup_shards_truncate_handler, shard_truncate_do, shard_truncate_htol. lru.
Qed.

Lemma remove_shards_ok e fop g h bs size s : lru_ok s -> lru_ok (remove_shards e fop g h bs size s).1.
Proof.
  intros H. unfold remove_shards, shard_post_resolve_unlink_handler, shard_post_lookup_shards_unlink_handler, shard_unlink_shards_do. lru.
Qed.

#[export] Hint Resolve remove_shards_ok : lru.

Lemma child_unlink_base_ok e s g : lru_ok s -> lru_ok (child_unlink_base e s g).1.
Proof. intros H. unfold child_unlink_base. lru. Qed.

Lemma child_rename_ok e s d : lru_ok s -> lru_ok (child_rename e s d).1.
Proof. intros H. unfold child_rename. repeat case_match; exact H. Qed.

#[export] Hint Resolve child_unlink_base_ok child_rename_ok : lru.

Lemma unlink_ok e gs g s : lru_ok s -> lru_ok (shard_unlink e gs g s).1.
Proof. intros H. unfold shard_unlink, shard_unlink_base_file, shard_unlink_base_file_cbk. lru. Qed.

Lemma rename_ok e gs src d s : lru_ok s -> lru_ok (shard_rename e gs src d s).1.
Proof.
  intros H. unfold shard_rename, shard_rename_src_base_file, shard_rename_src_cbk, shard_rename_unlink_dst_shards_do. lru.
Qed.

Lemma lookup_ok e g s : lru_ok s -> lru_ok (shard_lookup e g s).1.
Proof. intros H. unfold shard_lookup, shard_inode_ctx_update. repeat case_match; simplify_eq; exact H. Qed.

Lemma stat_ok e gs g s : lru_ok s -> lru_ok (shard_stat e gs g s).1.
Proof. intros H. unfold shard_stat. repeat case_match; exact H. Qed.

Lemma create_ok e bs g s : lru_ok s -> lru_ok (shard_create e bs g s).1.
Proof. intros H. unfold shard_create. repeat case_match; exact H. Qed.

Lemma run_ok e gs o s : lru_ok s -> lru_ok (run e gs o s).1.
Proof.
  intros H. destruct o; cbn [run fst]; unfold shard_writev, shard_fallocate, shard_zerofill, shard_discard, shard_truncate, shard_ftruncate;
    auto using write_begin_ok, readv_ok, truncate_ok, unlink_ok, rename_ok, lookup_ok, stat_ok, create_ok, forget_ok.
  destruct (_ && _); [exact H|]. apply write_begin_ok, H.
Qed.
