(* ===== verification/ShardVolume.v ===== *)
(** * Sharding: a volume of sharded files

    A file as one list of bytes, a volume as a map from gfids to such files, and
    for one operation on the volume that the model of the translator does to its
    state what the operation does to the map. *)

From S2P Require Import Prelude Words Bytes Shard ShardFacts ShardScan ShardOps ShardTrunc ShardKept.
From stdpp Require Import gmap.
Open Scope Z_scope.

(** ** Flat files *)

(** What the caller gets: [op_ret], the data read, the size of the file in the
    reply where the reply has it. *)
Record outcome := mk_outcome { o_ret : Z; o_data : list Z; o_size : option Z }.

Definition done (f : list Z) (ret : Z) : list Z * outcome := (f, mk_outcome ret [] (Some (zlen f))).

(** An operation on a file with the contents [f]: the new contents and the outcome. *)
Definition flat_run (f : list Z) (o : op) : list Z * outcome :=
  match o with
  | O_writev _ v off a b => done (pwrite f (if a || b then zlen f else off) (concat v)) (zlen (concat v))
  | O_fallocate _ keep off len =>
    done (if keep =? 0 then pallocate f off len
          else if keep =? FALLOC_FL_ZERO_RANGE then pzero f off len else ppunch f off len) 0
  | O_zerofill _ off len => done (pzero f off len) 0
  | O_discard _ off len => done (ppunch f off len) 0
  | O_readv _ size off => (f, mk_outcome (zlen (pread f off size)) (pread f off size) None)
  | O_truncate _ off | O_ftruncate _ off => (ptruncate f off, mk_outcome 0 [] None)
  | O_stat _ | O_lookup _ => done f 0
  | _ => (f, mk_outcome 0 [] None)
  end.

(** The operations on [g] for which the sharded file is a flat file: not empty,
    within the limits, without short reads at the end of the file, without holes
    punched past it, and with shorter lengths inside a block whose shards exist.
    [ShardProps] has what happens otherwise. *)
Definition allowed (bs g : Z) (s : state) (f : list Z) (o : op) : Prop :=
  match o with
  | O_writev h v off a b =>
    let off := if a || b then zlen f else off in
    h = g /\ 0 <= off /\ 0 < zlen (concat v) < 2 ^ 31 /\ off + zlen (concat v) <= limit bs /\
    (b = true -> off / bs = 0 -> zlen (contents s (g, 0)) = off)
  | O_fallocate h keep off len =>
    h = g /\ 0 <= off /\ 0 < len < 2 ^ 31 /\ off + len <= limit bs /\
    (keep = 0 \/ keep = FALLOC_FL_ZERO_RANGE \/
     (keep = Z.lor FALLOC_FL_KEEP_SIZE FALLOC_FL_PUNCH_HOLE /\ off + len <= zlen f))
  | O_zerofill h off len => h = g /\ 0 <= off /\ 0 < len < 2 ^ 31 /\ off + len <= limit bs
  | O_discard h off len => h = g /\ 0 <= off /\ 0 < len < 2 ^ 31 /\ off + len <= zlen f
  | O_readv h size off => h = g /\ 0 <= off /\ 0 < size /\ off + size <= limit bs /\ (zlen f <= off \/ off + size <= zlen f)
  | O_truncate h off | O_ftruncate h off =>
    h = g /\ 0 <= off <= limit bs /\ (off < zlen f -> covered bs g s off (zlen f) /\ (off = 0 \/ off mod bs <> 0))
  | O_lookup h | O_stat h => h = g
  | _ => False
  end.

(** [a] is the outcome in the reply; stat gives one [iatt], which is [pre]. *)
Definition agrees (o : op) (a : outcome) (rep : reply) : Prop :=
  exists errno pre post, rep = Unwind (o_ret a) errno pre post (o_data a) /\
    forall z, o_size a = Some z -> exists st, (match o with O_stat _ => pre | _ => post end) = Some st /\ ia_size st = z.

Definition step_ok (bs g : Z) (s : state) (o : op) (a : list Z * outcome) (res : state * reply) : Prop :=
  kept g s res.1 /\ represents bs g res.1 a.1 /\ agrees o a.2 res.2.

(** ** One operation *)

Section one.
Context (e : env) (bs g : Z) (s : state) (f : list Z).
Context (He : clean e) (Hv : two_vectors e) (R : represents bs g s f).

Abbreviation ok o := (step_ok bs g s o (flat_run f o) (run e false o s)).

Lemma clean_no_short : no_short e.
Proof. intros o n. rewrite He. discriminate. Qed.

(** From the result of a write to the contents [f']. *)
Lemma write_step_ok o r f' ret res :
  write_result e r f s res -> w_gfid r = g -> w_bs r = bs -> becomes r f f' -> (forall h, o <> O_stat h) ->
  ret = (if decide (w_fop r = GF_FOP_WRITE) then w_size r else 0) -> step_ok bs g s o (done f' ret) res.
Proof.
  intros (s' & ret' & errno & pre & post & -> & K & _ & _ & Hs & Hc) <- <- Hf Ho ->.
  destruct (Hs (Hc He)) as (-> & (st & -> & Hz) & Hr). split; [exact K|]. split; [apply Hr, Hf|].
  do 3 eexists. split; [reflexivity|]. cbn. intros z [= <-]. exists st. rewrite (proj1 Hf). destruct o; try (split; [reflexivity|exact Hz]).
  exfalso. eapply Ho. reflexivity.
Qed.

Lemma writev_ok v off a b : allowed bs g s f (O_writev g v off a b) -> ok (O_writev g v off a b).
Proof.
  cbn [allowed flat_run]. set (o := if a || b then zlen f else off). intros (_ & Ho & Hl & Hlim & Hend).
  assert (W := write_begin_spec e GF_FOP_WRITE bs g v off 0 0 a b s f). cbn zeta in W.
  rewrite decide_True, bool_decide_eq_true_2 in W by reflexivity. cbn [andb] in W. fold o in W.
  specialize (W R clean_no_short eq_refl Ho ltac:(lia) Hlim ltac:(lia) Hend).
  apply (write_step_ok _ _ _ _ _ W); [reflexivity|reflexivity| |discriminate|reflexivity].
  split; cbn [w_offset w_size]; [apply zlen_pwrite; lia|]. intros p Hp. rewrite byte_pwrite by lia. reflexivity.
Qed.

(** Zeroing, punching and allocating. *)
Lemma ranged_ok o fop keep off len f' :
  creates fop = true -> fop <> GF_FOP_WRITE -> 0 <= off -> 0 < len < 2 ^ 31 -> off + len <= limit bs -> (forall h, o <> O_stat h) ->
  becomes (mk_write fop g bs off len [] keep false false) f f' ->
  step_ok bs g s o (done f' 0) (shard_common_inode_write_begin e false fop g [] off keep len false false s).
Proof.
  intros Hc Hne Ho Hl Hlim Hst Hb. assert (W := write_begin_spec e fop bs g [] off keep len false false s f). cbn zeta in W.
  rewrite decide_False, bool_decide_eq_false_2 in W by assumption. cbn [andb] in W.
  specialize (W R clean_no_short Hc Ho ltac:(lia) Hlim ltac:(lia) ltac:(intros [=])).
  apply (write_step_ok _ _ _ _ _ W); [reflexivity|reflexivity|assumption|assumption|]. cbn. rewrite decide_False by assumption. reflexivity.
Qed.

Lemma zero_becomes fop keep off len :
  new_byte (mk_write fop g bs off len [] keep false false) = (fun _ _ => 0) -> 0 <= off -> 0 < len ->
  becomes (mk_write fop g bs off len [] keep false false) f (pzero f off len).
Proof.
  intros Hn Ho Hl. split; cbn [w_offset w_size]; [apply zlen_pzero; lia|]. intros p Hp. rewrite Hn, byte_pzero by lia. reflexivity.
Qed.

Lemma punch_becomes fop keep off len :
  new_byte (mk_write fop g bs off len [] keep false false) = (fun _ _ => 0) -> 0 <= off -> 0 < len -> off + len <= zlen f ->
  becomes (mk_write fop g bs off len [] keep false false) f (ppunch f off len).
Proof.
  intros Hn Ho Hl Hz. split; cbn [w_offset w_size]; [rewrite zlen_ppunch; lia|]. intros p Hp. rewrite Hn, byte_ppunch by lia. reflexivity.
Qed.

Lemma fallocate_ok keep off len : allowed bs g s f (O_fallocate g keep off len) -> ok (O_fallocate g keep off len).
Proof.
  intros (_ & Ho & Hl & Hlim & Hk). cbn [run flat_run]. unfold shard_fallocate.
  destruct Hk as [-> | [-> | [-> Hz]]]; apply ranged_ok; auto; try discriminate.
  - split; cbn [w_offset w_size]; [apply zlen_pad|]. intros p Hp. cbn. unfold pallocate. rewrite byte_pad. destruct (_ && _); reflexivity.
  - apply zero_becomes; auto. lia.
  - apply punch_becomes; auto. lia.
Qed.

Lemma zerofill_ok off len : allowed bs g s f (O_zerofill g off len) -> ok (O_zerofill g off len).
Proof. intros (_ & Ho & Hl & Hlim). apply ranged_ok; auto; try discriminate. apply zero_becomes; auto. lia. Qed.

Lemma discard_ok off len : allowed bs g s f (O_discard g off len) -> ok (O_discard g off len).
Proof.
  intros (_ & Ho & Hl & Hz). pose proof (rp_limit _ _ _ _ R). apply ranged_ok; auto; try discriminate; [lia|].
  apply punch_becomes; auto. lia.
Qed.

Lemma read_data size off ret data :
  0 <= off -> 0 < size -> zlen f <= off \/ off + size <= zlen f -> read_answer size off f ret data ->
  data = pread f off size /\ ret = zlen data.
Proof.
  intros Ho Hs Hin [(Hz & -> & ->)|(Hlt & -> & Hl & Hb)].
  - split; [|reflexivity]. pose proof (zlen_pread f off size Ho ltac:(lia)) as Hp.
    destruct (pread f off size); [reflexivity|]. unfold zlen in *. cbn in Hp. lia.
  - split; [|auto]. apply byte_ext; [rewrite zlen_pread by lia; lia|]. intros p Hp.
    rewrite Hb, byte_pread, (proj2 (Z.ltb_lt _ _)) by lia. reflexivity.
Qed.

Lemma read_step_ok size off : allowed bs g s f (O_readv g size off) -> ok (O_readv g size off).
Proof.
  intros (_ & Ho & Hs & Hlim & Hin).
  destruct (readv_spec e bs g size off f Hv) with (s := s) as (s' & ret & errno & pre & data & E & K & R' & _ & Ha & Hc); auto.
  { rewrite clean_fault by assumption. discriminate. }
  cbn [run]. rewrite E. destruct (read_data size off ret data Ho Hs Hin (Ha (Hc He))) as [-> ->].
  split; [exact K|]. split; [exact R'|]. do 3 eexists. split; [reflexivity|discriminate].
Qed.

Lemma truncate_step_ok o fop off :
  0 <= off <= limit bs -> (off < zlen f -> covered bs g s off (zlen f) /\ (off = 0 \/ off mod bs <> 0)) ->
  step_ok bs g s o (ptruncate f off, mk_outcome 0 [] None) (truncate_common fop e false g off s).
Proof.
  intros Ho Hd. destruct (truncate_spec e fop bs g off f s He ltac:(lia) ltac:(lia) R) as (s' & errno & pre & post & E & K & R').
  { intros Hlt. apply Hd, Hlt. }
  rewrite cut_file_exact in R' by (try apply R; try lia; intros Hlt; apply Hd, Hlt).
  rewrite E. split; [exact K|]. split; [exact R'|]. do 3 eexists. split; [reflexivity|discriminate].
Qed.

Lemma invalidate_ok st : kept g s (shard_inode_ctx_invalidate s g st) /\ represents bs g (shard_inode_ctx_invalidate s g st) f.
Proof.
  destruct (rp_ctx _ _ _ _ R) as (c & Hc & Hb & Hr). unfold shard_inode_ctx_invalidate. rewrite Hc. cbn [default from_option id].
  assert (K := set_ctx_kept g s (mk_ctx (block_size c) (stat c)
    (negb (ia_size st =? ia_size (stat c)) || negb (ia_blocks st =? ia_blocks (stat c)) || refresh c)) (rp_wf _ _ _ _ R)).
  split; [exact K|]. destruct R. split; auto; [apply K|]. eexists. cbn. rewrite lookup_insert_eq. split; [reflexivity|]. cbn.
  split; [assumption|]. intros [_ Hf]%orb_false_iff. auto.
Qed.

Lemma xattr_size : exists st, xattr_iatt s g = Some st /\ ia_size st = zlen f.
Proof.
  destruct (rp_xattr _ _ _ _ R) as (x & Hx & _ & Hz). unfold xattr_iatt. rewrite Hx. eexists. split; [reflexivity|]. exact Hz.
Qed.

Lemma stat_step_ok : ok (O_stat g).
Proof.
  cbn [run]. unfold shard_stat, shard_inode_ctx_get_block_size.
  destruct (rp_ctx _ _ _ _ R) as (c & Hc & Hb & _). rewrite Hc. cbn [fmap option_fmap option_map]. rewrite clean_lookup by assumption.
  destruct (rp_base _ _ _ _ R) as [d ->]. pose proof (rp_bs _ _ _ _ R). rewrite Hb, (proj2 (Z.eqb_neq bs 0)) by lia. cbn [orb].
  destruct xattr_size as (st & -> & Hz). destruct (invalidate_ok st) as [K R']. split; [exact K|]. split; [exact R'|].
  do 3 eexists. split; [reflexivity|]. cbn. intros z [= <-]. eauto.
Qed.

Lemma lookup_step_ok : ok (O_lookup g).
Proof.
  cbn [run]. unfold shard_lookup. rewrite clean_lookup by assumption.
  destruct (rp_base _ _ _ _ R) as [d ->]. destruct xattr_size as (st & -> & Hz). cbn [default from_option id fst snd].
  destruct (rp_ctx _ _ _ _ R) as (c & Hc & Hb & _). pose proof (rp_bs _ _ _ _ R).
  unfold shard_inode_ctx_update, shard_inode_ctx_get_block_size. rewrite Hc. cbn [fmap option_fmap option_map].
  rewrite Hb, (proj2 (Z.eqb_neq bs 0)) by lia. destruct (invalidate_ok st) as [K R']. split; [exact K|]. split; [exact R'|].
  do 3 eexists. split; [reflexivity|]. cbn. intros z [= <-]. eauto.
Qed.

End one.

Lemma op_ok e bs g s f o :
  clean e -> two_vectors e -> represents bs g s f -> allowed bs g s f o -> step_ok bs g s o (flat_run f o) (run e false o s).
Proof.
  intros He Hv R Ha.
  destruct o; try contradiction Ha; try (assert (g0 = g) as -> by apply Ha);
    auto using writev_ok, fallocate_ok, zerofill_ok, discard_ok, read_step_ok, stat_step_ok, lookup_step_ok.
  - apply truncate_step_ok; auto; apply Ha.
  - apply truncate_step_ok; auto; apply Ha.
Qed.

(** ** A volume of files *)

(** Per gfid, the block size and the contents. *)
Abbreviation volume := (gmap Z (Z * list Z)).

Record holds (s : state) (V : volume) : Prop := {
  hl_wf : wf s;
  hl_dir : dot_shard s <> Some false;
  hl_files : forall g bs f, V !! g = Some (bs, f) -> represents bs g s f
}.

(** The file that an operation is on. *)
Definition target (o : op) : option Z :=
  match o with
  | O_writev g _ _ _ _ | O_fallocate g _ _ _ | O_zerofill g _ _ | O_discard g _ _ | O_readv g _ _
  | O_truncate g _ | O_ftruncate g _ | O_unlink g | O_rename g _ | O_create _ g | O_lookup g | O_stat g => Some g
  | O_forget _ => None
  end.

Definition none : outcome := mk_outcome 0 [] None.

Definition volume_run (o : op) (V : volume) : volume * outcome :=
  match o with
  | O_create bs g => (<[g := (bs, [])]> V, mk_outcome 0 [] (Some 0))
  | O_unlink g => (delete g V, none)
  | O_rename _ _ | O_forget _ => (V, none)
  | _ =>
    match target o with
    | Some g =>
      match V !! g with
      | Some (bs, f) => let '(f, a) := flat_run f o in (<[g := (bs, f)]> V, a)
      | None => (V, none)
      end
    | None => (V, none)
    end
  end.

(** Operations on the files of the volume: a new file has a gfid that has never
    had an object, a removed one has no other link, a new name has no file. *)
Definition permitted (e : env) (s : state) (V : volume) (o : op) : Prop :=
  match o with
  | O_create bs g => 0 < bs /\ V !! g = None /\ forall j, objs s !! (g, j) = None
  | O_unlink g => is_Some (V !! g) /\ linked_elsewhere e = false
  | O_rename g None => is_Some (V !! g)
  | O_rename _ (Some _) => False
  | O_forget _ => True
  | _ => exists g bs f, target o = Some g /\ V !! g = Some (bs, f) /\ allowed bs g s f o
  end.

Fixpoint run_all (tr : list (env * op)) (s : state) : state * list reply :=
  match tr with
  | [] => (s, [])
  | (e, o) :: tr => let '(s, r) := run e false o s in let '(s, rs) := run_all tr s in (s, r :: rs)
  end.

Fixpoint volume_run_all (tr : list (env * op)) (V : volume) : volume * list (op * outcome) :=
  match tr with
  | [] => (V, [])
  | (_, o) :: tr => let '(V, a) := volume_run o V in let '(V, l) := volume_run_all tr V in (V, (o, a) :: l)
  end.

Fixpoint permitted_all (tr : list (env * op)) (s : state) (V : volume) : Prop :=
  match tr with
  | [] => True
  | (e, o) :: tr =>
    clean e /\ two_vectors e /\ permitted e s V o /\ permitted_all tr (run e false o s).1 (volume_run o V).1
  end.

(** ** Steps of the volume *)

Lemma holds_kept g s s' V V' :
  kept g s s' -> holds s V -> (forall h, h <> g -> V' !! h = V !! h) ->
  (forall bs f, V' !! g = Some (bs, f) -> represents bs g s' f) -> holds s' V'.
Proof.
  intros K [Hw Hd Hf] Ho Hg. split; [apply K| |].
  - destruct (kp_dot _ _ _ K) as [-> | [_ ->]]; [assumption|discriminate].
  - intros h bs f Hh. destruct (decide (h = g)) as [-> | Hne]; [auto|]. rewrite Ho in Hh by assumption.
    eapply kept_represents; eauto.
Qed.

Definition volume_step_ok (e : env) (s : state) (V : volume) (o : op) : Prop :=
  holds (run e false o s).1 (volume_run o V).1 /\ agrees o (volume_run o V).2 (run e false o s).2.

Lemma file_step_ok e s V o g bs f :
  clean e -> two_vectors e -> holds s V -> target o = Some g -> V !! g = Some (bs, f) -> allowed bs g s f o -> volume_step_ok e s V o.
Proof.
  intros He Hv H Ht Hg Ha. destruct (op_ok e bs g s f o He Hv (hl_files _ _ H _ _ _ Hg) Ha) as (K & R & A).
  assert (E : volume_run o V = (<[g := (bs, (flat_run f o).1)]> V, (flat_run f o).2)).
  { destruct o; cbn [target] in Ht; try contradiction Ha; try (injection Ht as ->); unfold volume_run, target; try rewrite Hg; reflexivity. }
  unfold volume_step_ok. rewrite E. split; [|exact A]. cbn. eapply holds_kept; [exact K|exact H| |].
  - intros h Hh. apply lookup_insert_ne. congruence.
  - intros bs' f'. rewrite lookup_insert_eq. intros [= <- <-]. exact R.
Qed.

Lemma create_kept e bs g s : wf s -> kept g s (shard_create e bs g s).1.
Proof.
  intros [Wi Wd]. unfold shard_create. destruct (fault e _); [apply kept_refl; split; assumption|].
  destruct (objs s !! (g, 0)) eqn:E; [apply kept_refl; split; assumption|]. split; cbn; auto.
  - intros o Ho. apply lookup_insert_ne. intros <-. apply Ho. reflexivity.
  - intros h Hh. apply lookup_insert_ne. congruence.
  - intros h Hh. apply lookup_insert_ne. congruence.
  - split; cbn; [|assumption]. intros nm o Ho. destruct (Wi nm o Ho) as [-> Hx].
    split; [reflexivity|]. intros Hz. rewrite lookup_insert_ne; [auto|]. intros <-. contradiction.
Qed.

Lemma create_step_ok e s V bs g :
  clean e -> holds s V -> 0 < bs -> (forall j, objs s !! (g, j) = None) -> volume_step_ok e s V (O_create bs g).
Proof.
  intros He H Hbs Hn. pose proof (create_kept e bs g s (hl_wf _ _ H)) as K. unfold volume_step_ok. cbn [run volume_run].
  revert K. unfold shard_create. rewrite clean_fault, Hn by assumption. cbn [fst snd].
  set (s1 := put _ _ _). set (s2 := set_xattrs _ _). set (s3 := set_ctxs _ _).
  intros K.
  split; [eapply holds_kept; [exact K|exact H| |]|].
  - intros h Hh. apply lookup_insert_ne. congruence.
  - intros bs' f'. rewrite lookup_insert_eq. intros [= <- <-]. split; auto; [apply K|apply H|..].
    + cbn. rewrite lookup_insert_eq. eauto.
    + eexists. cbn. rewrite lookup_insert_eq. split; [reflexivity|]. auto.
    + eexists. cbn. rewrite lookup_insert_eq. split; [reflexivity|]. split; [split; [reflexivity|split; [discriminate|reflexivity]]|reflexivity].
    + intros p Hp. unfold view, contents. cbn. rewrite (byte_zeros 0 p : byte [] p = 0).
      destruct (decide (p / bs = 0)) as [-> | Hne]; [rewrite lookup_insert_eq|rewrite lookup_insert_ne, Hn by congruence]; apply (byte_zeros 0).
    + intros _ p. apply (byte_zeros 0).
    + unfold zlen, limit. cbn [length]. lia.
  - do 3 eexists. split; [reflexivity|]. cbn. intros z [= <-]. eauto.
Qed.

Lemma unlink_step_ok e s V g : clean e -> holds s V -> is_Some (V !! g) -> linked_elsewhere e = false -> volume_step_ok e s V (O_unlink g).
Proof.
  intros He H [[bs f] Hg] Hl. destruct (unlink_spec e bs g f s (hl_files _ _ H _ _ _ Hg)) as [K C].
  destruct (C He Hl) as (errno & Hr & _). split; cbn [run volume_run fst snd].
  - eapply holds_kept; [exact K|exact H| |]; [intros h Hh; apply lookup_delete_ne; congruence|].
    intros bs' f'. rewrite lookup_delete_eq. discriminate.
  - rewrite Hr. do 3 eexists. split; [reflexivity|discriminate].
Qed.

Lemma rename_step_ok e s V g : clean e -> holds s V -> is_Some (V !! g) -> volume_step_ok e s V (O_rename g None).
Proof.
  intros He H [[bs f] Hg]. pose proof (hl_files _ _ H _ _ _ Hg) as R. split; cbn [run volume_run fst snd];
    unfold shard_rename, shard_inode_ctx_get_block_size; destruct (rp_ctx _ _ _ _ R) as (c & -> & Hb & _);
    cbn [fmap option_fmap option_map mbind option_bind]; rewrite Hb, (proj2 (Z.eqb_neq bs 0)) by (pose proof (rp_bs _ _ _ _ R); lia);
    cbn [andb orb]; unfold shard_rename_src_base_file, child_rename; rewrite clean_fault by assumption;
    unfold shard_rename_src_cbk; rewrite (proj2 (Z.eqb_neq bs 0)), clean_lookup by (assumption || (pose proof (rp_bs _ _ _ _ R); lia));
    destruct (rp_base _ _ _ _ R) as [d ->]; destruct (rp_xattr _ _ _ _ R) as (x & -> & _); cbn.
  - exact H.
  - do 3 eexists. split; [reflexivity|discriminate].
Qed.

Lemma forget_wf s o : wf s -> wf (shard_forget s o).
Proof.
  intros Hw. unfold shard_forget. set (c := if in_ilist _ _ then _ else _).
  assert (Hc : itable c = filter (fun kv => kv.2 <> o) (itable (cached s))) by (unfold c; destruct (in_ilist _ _); reflexivity).
  apply set_cached_wf; [exact Hw|]. rewrite Hc. intros nm x Hn. apply map_lookup_filter_Some in Hn as [Hn _]. apply Hw. exact Hn.
Qed.

Lemma forget_represents bs g s f o : represents bs g s f -> represents bs g (shard_forget s o) f.
Proof. intros R. pose proof (forget_wf s o (rp_wf _ _ _ _ R)). destruct R. split; auto. Qed.

Lemma forget_step_ok e s V o : holds s V -> volume_step_ok e s V (O_forget o).
Proof.
  intros H. split; [|do 3 eexists; split; [reflexivity|discriminate]]. cbn [run volume_run fst snd].
  split; [apply forget_wf, H|apply H|]. intros g bs f Hg. apply forget_represents, H, Hg.
Qed.

Lemma permitted_step_ok e s V o : clean e -> two_vectors e -> holds s V -> permitted e s V o -> volume_step_ok e s V o.
Proof.
  intros He Hv H Hp. destruct o; cbn [permitted] in Hp; try (destruct Hp as (h & bs' & f & Ht & Hg & Ha); eapply file_step_ok; eassumption).
  - apply unlink_step_ok; tauto.
  - destruct dst; [contradiction|]. apply rename_step_ok; assumption.
  - apply create_step_ok; tauto.
  - apply forget_step_ok, H.
Qed.

Lemma run_all_ok tr s V :
  holds s V -> permitted_all tr s V ->
  holds (run_all tr s).1 (volume_run_all tr V).1 /\
  Forall2 (fun a rep => agrees a.1 a.2 rep) (volume_run_all tr V).2 (run_all tr s).2.
Proof.
  revert s V. induction tr as [|[e o] tr IH]; cbn; intros s V H Hp; [split; [exact H|constructor]|].
  destruct Hp as (He & Hv & Ho & Hp). destruct (permitted_step_ok e s V o He Hv H Ho) as [H1 A1].
  destruct (run e false o s) as [s1 r], (volume_run o V) as [V1 a]. cbn [fst snd] in *.
  destruct (IH s1 V1 H1 Hp) as [H2 A2]. destruct (run_all tr s1), (volume_run_all tr V1). split; [exact H2|]. constructor; assumption.
Qed.

Lemma init_holds : holds init ∅.
Proof. split; [|discriminate|]; [split; [|discriminate]|]; intros *; cbn; rewrite lookup_empty; discriminate. Qed.

(** ** Operations with any answers of the child *)

(** The arguments of an operation on the file [g] are within the limits, and a rename
    is not over another file. *)
Definition in_bounds (bs g : Z) (s : state) (f : list Z) (o : op) : Prop :=
  match o with
  | O_writev _ v off a b =>
    let off := if a || b then zlen f else off in
    0 <= off /\ 0 < zlen (concat v) < 2 ^ 31 /\ off + zlen (concat v) <= limit bs /\
    (b = true -> off / bs = 0 -> zlen (contents s (g, 0)) = off)
  | O_fallocate _ _ off len | O_zerofill _ off len | O_discard _ off len => 0 <= off /\ 0 < len < 2 ^ 31 /\ off + len <= limit bs
  | O_readv _ size off => 0 <= off /\ 0 < size /\ off + size <= limit bs
  | O_truncate _ off | O_ftruncate _ off => 0 <= off <= limit bs
  | O_unlink _ | O_lookup _ | O_stat _ | O_rename _ None => True
  | _ => False
  end.

(** An operation of any kind but a rename over another file: a creation of any file,
    a forget of any inode, or an operation on a file within the limits. *)
Definition proper (s : state) (o : op) : Prop :=
  match o with
  | O_create _ _ | O_forget _ => True
  | _ => exists bs g f, target o = Some g /\ represents bs g s f /\ in_bounds bs g s f o
  end.

Section any_answer.
Context (e : env) (bs g : Z) (s : state) (f : list Z).
Context (Hns : no_short e) (Hv : two_vectors e) (Hdot : fault e C_lookup_dot <> Some ENOENT) (R : represents bs g s f).

Lemma write_kept fop v off keep len a b :
  let size := if decide (fop = GF_FOP_WRITE) then zlen (concat v) else len in
  let off' := if bool_decide (fop = GF_FOP_WRITE) && (a || b) then zlen f else off in
  creates fop = true -> 0 <= off' -> 0 < size < 2 ^ 31 -> off' + size <= limit bs ->
  at_end (mk_write fop g bs off' size v keep a b) off' s ->
  kept g s (shard_common_inode_write_begin e false fop g v off keep len a b s).1.
Proof.
  cbn zeta. intros Hc Ho Hl Hlim Hend.
  destruct (write_begin_spec e fop bs g v off keep len a b s f) as (s' & ret & errno & pre & post & -> & K & _); auto; lia.
Qed.

Lemma in_bounds_kept o : target o = Some g -> in_bounds bs g s f o -> kept g s (run e false o s).1.
Proof.
  assert (Kst : forall st, kept g s (shard_inode_ctx_invalidate s g st)) by (intros st; apply set_ctx_kept, R).
  pose proof (kept_refl g s (rp_wf _ _ _ _ R)) as K0.
  destruct o; cbn [target]; intros [= ->] Hb; cbn [in_bounds] in Hb; try contradiction Hb; cbn [run].
  - apply write_kept; try reflexivity; rewrite ?decide_True, ?bool_decide_eq_true_2 by reflexivity; try apply Hb.
    intros H1 H2. apply Hb; assumption.
  - unfold shard_fallocate. destruct (_ && _); [exact K0|]. apply write_kept; try reflexivity; try apply Hb. discriminate.
  - apply write_kept; try reflexivity; try apply Hb. discriminate.
  - apply write_kept; try reflexivity; try apply Hb. discriminate.
  - destruct (readv_spec e bs g size offset f Hv Hdot) with (s := s) as (s' & ret & errno & pre & data & -> & K & _); auto; apply Hb.
  - eapply truncate_kept; [..|exact R]; apply Hb.
  - eapply truncate_kept; [..|exact R]; apply Hb.
  - eapply unlink_spec, R.
  - destruct dst; [contradiction|]. unfold shard_rename, shard_rename_src_base_file, shard_rename_src_cbk, child_rename.
    repeat case_match; simplify_eq; exact K0.
  - unfold shard_lookup, shard_inode_ctx_update. destruct (child_lookup _ _ _ _); [exact K0|].
    destruct (rp_ctx _ _ _ _ R) as (c & Hc & _). unfold shard_inode_ctx_get_block_size. rewrite Hc. cbn.
    destruct (_ =? 0); [exact K0|apply Kst].
  - unfold shard_stat. repeat case_match; cbn [fst]; auto.
Qed.

End any_answer.
