(* ===== verification/ShardProps.v ===== *)
(** * Sharding: properties

    Sharded files behave as flat files; what a failing write leaves; other files;
    removal; the bound on the shards in use.  The last section has runs in which
    the translator does not do what it should. *)

From S2P Require Import Prelude Words Bytes Shard ShardFacts ShardScan ShardOps ShardTrunc ShardKept ShardLru ShardVolume.
From stdpp Require Import gmap.
Open Scope Z_scope.

(** ** Concrete runs *)

(** A child that answers as [a] says, with the data of a read in one vector. *)
Definition child (a : call -> answer) : env := mk_env a (fun _ => 0) (fun _ d => [d]) (Some 1).
Definition sound : env := child (fun _ => A_ok).

Lemma sound_clean : clean sound /\ two_vectors sound.
Proof. split; [intros c; reflexivity|]. intros c d. cbn. rewrite app_nil_r. split; [reflexivity|lia]. Qed.

Definition then_run (s : state) (os : list op) : state := (run_all (map (fun o => (sound, o)) os) s).1.

(** The file 7 in blocks of 4 bytes, with the bytes 1 to 10. *)
Definition ten : list Z := [1; 2; 3; 4; 5; 6; 7; 8; 9; 10].
Definition seven : state := then_run init [O_create 4 7; O_writev 7 [ten] 0 false false].
Definition shows (s : state) (o : op) : reply := (run sound false o s).2.

(** ** Sharded files are flat files *)

(** C4: Sharding is not visible.  Take any sequence of creations, writes, appends,
    allocations, zeroings, hole punches, reads, truncations, removals, renames,
    lookups, stats and inode forgets over any number of files that starts on an
    empty volume, where the calls to the bricks succeed.  Then every reply (return
    value, data, size) is that of the same sequence on files that are single byte
    lists, and at the end the blocks, the size attribute and the cached size of every
    file represent its byte list.  The operations are those that [permitted] and
    [allowed] describe.  A new file has an unused gfid, a removed one no other link,
    no rename is over a file.  Ranges are not empty and within the limits (2^31 - 1
    bytes but for reads, 2^31 - 1 blocks, 2^63 - 1 bytes).  A read does not cross the
    end of the file, a hole does not end past it, an [O_APPEND] write goes into block
    0 only when that ends where the file ends.  A cut is not at a block boundary and
    its shards exist: the one to cut and one to remove.  A block is read in at most
    two vectors. *)
Theorem sharded_files_are_flat (tr : list (env * op)) :
  permitted_all tr init ∅ ->
  holds (run_all tr init).1 (volume_run_all tr ∅).1 /\
  Forall2 (fun a rep => agrees a.1 a.2 rep) (volume_run_all tr ∅).2 (run_all tr init).2.
Proof. apply run_all_ok, init_holds. Qed.

(** Two files whose operations alternate. *)
Definition session : list (env * op) := map (fun o => (sound, o))
  [O_create 4 7; O_create 4 8; O_writev 7 [[1; 2; 3]; [4; 5; 6; 7; 8]; [9; 10]] 2 false false; O_writev 8 [[31; 32]] 0 false false;
   O_writev 8 [[33; 34; 35]] 0 true false; O_zerofill 7 3 4; O_readv 7 9 1; O_forget (7, 1); O_discard 7 10 1; O_readv 8 5 0;
   O_truncate 7 6; O_rename 7 None; O_ftruncate 7 14; O_lookup 7; O_readv 7 14 0; O_unlink 8; O_stat 7].

Lemma created_objs : objs (run sound false (O_create 4 7) init).1 = {[(7, 0) := []]}.
Proof. vm_compute. reflexivity. Qed.

(** Discharges the conditions of an operation by evaluation. *)
Ltac by_evaluation :=
  repeat match goal with
  | H : ?x < ?y |- _ => exfalso; vm_compute in H; discriminate H
  | |- _ /\ _ => split
  | |- _ -> _ => intro
  | |- is_Some _ => eexists
  | |- covered _ _ _ _ _ => right
  end; try discriminate; try (vm_compute; (reflexivity || discriminate)).

Ltac permits := cbn [map permitted_all];
  repeat match goal with
  | |- clean _ /\ _ => split; [apply sound_clean|split; [apply sound_clean|split]]
  | |- True => exact I
  | |- permitted _ _ _ (O_create _ _) => split_and!; [lia|reflexivity|intros j; try reflexivity]
  | |- permitted _ _ _ (O_unlink _) => split; [eexists; vm_compute; reflexivity|reflexivity]
  | |- permitted _ _ _ (O_rename _ _) => eexists; vm_compute; reflexivity
  | |- permitted _ _ _ (O_forget _) => exact I
  | |- permitted _ _ _ _ => eexists _, _, _; split; [reflexivity|]; split; [vm_compute; reflexivity|]; cbn [allowed]; by_evaluation
  end.

Lemma session_permitted : permitted_all session init ∅.
Proof.
  unfold session. permits.
  - rewrite created_objs. apply lookup_singleton_ne. discriminate.
  - right. vm_compute. discriminate.
  - right. vm_compute. discriminate.
  - right. exists 2. by_evaluation.
  - right. vm_compute. discriminate.
  - right. vm_compute. discriminate.
Qed.

Lemma sharded_files_are_flat_witness :
  permitted_all session init ∅ /\
  (volume_run_all session ∅).1 = {[7 := (4, [0; 0; 1; 0; 0; 0; 0; 0; 0; 0; 0; 0; 0; 0])]} /\
  holds (run_all session init).1 (volume_run_all session ∅).1 /\
  Forall2 (fun a rep => agrees a.1 a.2 rep) (volume_run_all session ∅).2 (run_all session init).2.
Proof.
  split; [exact session_permitted|]. split; [vm_compute; reflexivity|]. apply (sharded_files_are_flat session session_permitted).
Defined.

(** The file 7 alone, and beside a file 8. *)
Lemma seven_ten : represents 4 7 seven ten.
Proof.
  assert (H : permitted_all (map (fun o => (sound, o)) [O_create 4 7; O_writev 7 [ten] 0 false false]) init ∅) by permits.
  apply (hl_files _ _ (proj1 (run_all_ok _ _ _ init_holds H))). vm_compute. reflexivity.
Qed.

Definition pair_ops : list op := [O_create 4 7; O_create 4 8; O_writev 7 [ten] 0 false false; O_writev 8 [[31; 32; 33; 34; 35]] 0 false false].
Definition pair_files : state := then_run init pair_ops.

Lemma pair_holds : represents 4 7 pair_files ten /\ represents 4 8 pair_files [31; 32; 33; 34; 35].
Proof.
  assert (H : permitted_all (map (fun o => (sound, o)) pair_ops) init ∅).
  { unfold pair_ops. permits. rewrite created_objs. apply lookup_singleton_ne. discriminate. }
  split; apply (hl_files _ _ (proj1 (run_all_ok _ _ _ init_holds H))); vm_compute; reflexivity.
Qed.

(** ** Whatever the bricks answer *)

(** C14: A write without O_APPEND, not empty and within the limits, to a sharded file,
    whichever of its calls fail: it is always
    answered; a successful answer means that every byte has been written, in
    whatever blocks, that the size attribute has the new size and that the answer
    is the full length; an error leaves the size attribute as it was; and in both
    cases every byte outside the range of the write is as it was.  Excluded are short
    writes, where a brick reports success for less of a block than was asked for
    ([short_write_full_size]). *)
Theorem write_complete_or_failed (e : env) (bs g : Z) (s : state) (f : list Z) (v : list (list Z)) (off : Z) :
  represents bs g s f -> no_short e -> 0 <= off -> 0 < zlen (concat v) < 2 ^ 31 -> off + zlen (concat v) <= limit bs ->
  exists s' ret errno pre post, shard_writev e false g v off false false s = (s', Unwind ret errno pre post []) /\
    (forall p, 0 <= p -> ~ off <= p < off + zlen (concat v) -> view s' bs g p = view s bs g p) /\
    ((ret < 0 /\ xattrs s' = xattrs s) \/ (ret = zlen (concat v) /\ represents bs g s' (pwrite f off (concat v)))).
Proof.
  intros R Hns Ho Hl Hlim. assert (W := write_begin_spec e GF_FOP_WRITE bs g v off 0 0 false false s f). cbn zeta in W.
  rewrite decide_True, bool_decide_eq_true_2 in W by reflexivity. cbn [andb orb] in W.
  destruct (W R Hns eq_refl Ho ltac:(lia) Hlim ltac:(lia) ltac:(discriminate)) as (s' & ret & errno & pre & post & E & _ & Hv & Hx & Hs & _).
  exists s', ret, errno, pre, post. split; [exact E|]. split; [exact Hv|]. destruct (Z_lt_le_dec ret 0) as [Hr|Hr]; [left; auto|right].
  destruct (Hs Hr) as (-> & _ & Hrep). split; [reflexivity|]. apply Hrep.
  split; cbn [w_offset w_size]; [apply zlen_pwrite; lia|]. intros p Hp. rewrite byte_pwrite by lia. reflexivity.
Qed.

Definition no_space : env := child (fun c => match c with C_write (7, 1) => A_err 28 | _ => A_ok end).

Lemma write_complete_or_failed_witness :
  exists s' ret errno pre post, shard_writev no_space false 7 [[41; 42; 43]] 3 false false seven = (s', Unwind ret errno pre post []) /\
    (forall p, 0 <= p -> ~ 3 <= p < 3 + 3 -> view s' 4 7 p = view seven 4 7 p) /\
    ((ret < 0 /\ xattrs s' = xattrs seven) \/ (ret = 3 /\ represents 4 7 s' (pwrite ten 3 [41; 42; 43]))).
Proof.
  apply (write_complete_or_failed no_space 4 7 seven ten [[41; 42; 43]] 3); try (vm_compute; intuition discriminate).
  - exact seven_ten.
  - intros [a b] n. cbn. repeat case_match; discriminate.
Defined.

(** C18: A create, lookup, stat, write, fallocate, zerofill, discard, read, truncation
    or removal of one sharded file, its rename to a name that no file has, and a
    forget leave every other sharded file as it was, contents, size and cached
    context, whichever calls to the bricks fail.  Excluded are renames over a file
    ([rename_reads_other_file]), empty ranges, ranges of 2^31 bytes or over the
    [limit], [O_APPEND] writes to a block 0 that is shorter than the file, and of
    the answers of the bricks a short write, a block read in more than two vectors
    and a failure of the lookup of /.shard with ENOENT where the directory exists. *)
Theorem other_files_kept (e : env) (s : state) (o : op) (bs h : Z) (f : list Z) :
  no_short e -> two_vectors e -> fault e C_lookup_dot <> Some ENOENT -> proper s o ->
  target o <> Some h -> represents bs h s f -> represents bs h (run e false o s).1 f.
Proof.
  intros Hns Hv Hdot Hp Hne R. destruct o; cbn [proper] in Hp; try (destruct Hp as (bs' & g' & f' & Ht & R' & Hb);
    apply (kept_represents g' _ _ s); [eapply in_bounds_kept; eassumption|congruence|exact R]).
  - apply (kept_represents g _ _ s); [apply create_kept, R|cbn in Hne; congruence|exact R].
  - apply forget_represents, R.
Qed.

Definition no_unlink : env := child (fun c => match c with C_unlink _ => A_err EIO | _ => A_ok end).

Lemma other_files_kept_witness :
  (run no_unlink false (O_truncate 7 2) pair_files).2 = Unwind (-1) EIO (Some (mk_iatt 10 0)) (Some (mk_iatt 2 0)) [] /\
  represents 4 8 (run no_unlink false (O_truncate 7 2) pair_files).1 [31; 32; 33; 34; 35].
Proof.
  split; [vm_compute; reflexivity|]. apply (other_files_kept no_unlink pair_files (O_truncate 7 2)); try apply pair_holds; try discriminate.
  - intros c d. cbn. rewrite app_nil_r. split; [reflexivity|lia].
  - exists 4, 7, ten. split; [reflexivity|]. split; [apply pair_holds|]. vm_compute. split; discriminate.
Defined.

(** ** Removal *)

(** C27: When the last link of a sharded file is removed and the bricks do not fail,
    the answer is success and neither block 0 nor any shard up to the end of the
    file is left; objects of other files are as they were. *)
Theorem unlink_leaves_nothing (e : env) (bs g : Z) (s : state) (f : list Z) :
  represents bs g s f -> clean e -> linked_elsewhere e = false -> dot_shard s <> None ->
  (exists errno, (shard_unlink e false g s).2 = Unwind 0 errno None None []) /\
  (forall j, 0 <= j -> j * bs < zlen f \/ j = 0 -> objs (shard_unlink e false g s).1 !! (g, j) = None) /\
  (forall o : obj, o.1 <> g -> objs (shard_unlink e false g s).1 !! o = objs s !! o).
Proof.
  intros R He Hl Hd. destruct (unlink_spec e bs g f s R) as [K C]. destruct (C He Hl) as (errno & Hr & Hj).
  split; [eauto|]. split; [|apply K]. pose proof (rp_bs _ _ _ _ R). intros j H0 Hz. apply Hj.
  destruct (Z.eq_dec j 0) as [E|Hne]; [left; exact E|]. right. left. split; [|exact Hd]. split; [lia|].
  unfold last_of. destruct (Z.eqb_spec (zlen f) 0); [nia|]. apply Z.div_le_lower_bound; nia.
Qed.

Lemma unlink_leaves_nothing_witness :
  (exists errno, (shard_unlink sound false 7 seven).2 = Unwind 0 errno None None []) /\
  (forall j, 0 <= j -> j * 4 < zlen ten \/ j = 0 -> objs (shard_unlink sound false 7 seven).1 !! (7, j) = None) /\
  (forall o : obj, o.1 <> 7 -> objs (shard_unlink sound false 7 seven).1 !! o = objs seven !! o).
Proof.
  apply (unlink_leaves_nothing sound 4 7 seven ten); [exact seven_ten|apply sound_clean|reflexivity|vm_compute; discriminate].
Defined.

(** ** The shards in use *)

(** C28: Whatever the operations and the answers of the bricks, the list of shards
    in use never holds a shard twice, [inode_count] is its length, and it is at
    most [SHARD_MAX_INODES]. *)
Theorem shards_in_use_bounded (tr : list (env * bool * op)) :
  let c := cached (foldl (fun s '(e, gsyncd, o) => (run e gsyncd o s).1) init tr) in
  inode_count c = zlen (ilist c) /\ NoDup (map e_inode (ilist c)) /\ inode_count c <= SHARD_MAX_INODES.
Proof.
  cbn zeta. assert (H : lru_ok init) by (split_and!; [reflexivity|constructor|discriminate]). revert H. generalize init.
  induction tr as [|[[e gs] o] tr IH]; cbn [foldl]; intros s H; [exact H|]. apply IH, run_ok, H.
Qed.

(** ** Runs that go wrong *)

(** C19: A file that is cut at a block boundary loses the last block that should be
    left.  Take any file of any block size with more than [m] > 0 blocks, whose shards
    to cut and to remove exist, and bricks that do not fail: the truncation to [m]
    blocks succeeds, the size is [m] blocks, the first [m - 1] blocks are as they
    were, and the last one is zeros, in the file that the blocks represent and in the
    reply to a read of it (when the block comes in at most two vectors): the shard is
    truncated to [(m * bs) mod bs] bytes. *)
Theorem cut_at_boundary_loses_block (e : env) (bs g : Z) (s : state) (f : list Z) (m : Z) :
  clean e -> two_vectors e -> represents bs g s f -> 0 < m -> m * bs < zlen f -> covered bs g s (m * bs) (zlen f) ->
  let s' := (run e false (O_truncate g (m * bs)) s).1 in
  (exists errno pre post, (run e false (O_truncate g (m * bs)) s).2 = Unwind 0 errno pre post []) /\
  represents bs g s' (ztake ((m - 1) * bs) f ++ zeros bs) /\
  (exists errno pre post, (run e false (O_readv g bs ((m - 1) * bs)) s').2 = Unwind bs errno pre post (zeros bs)).
Proof.
  intros He Hv R Hm Hlt Hcov. cbn zeta. pose proof (rp_bs _ _ _ _ R) as Hbs. pose proof (rp_limit _ _ _ _ R) as Hlim.
  destruct (truncate_spec e GF_FOP_TRUNCATE bs g (m * bs) f s He ltac:(nia) ltac:(lia) R (fun _ => Hcov))
    as (s' & errno & pre & post & E & K & R'). cbn [run]. unfold shard_truncate. rewrite E. cbn [fst snd].
  rewrite cut_file_boundary in R' by assumption. split; [eauto|]. split; [exact R'|].
  assert (Hz : zlen (ztake ((m - 1) * bs) f ++ zeros bs) = m * bs) by (rewrite zlen_app, zlen_ztake, zlen_zeros; nia).
  assert (Hrd : pread (ztake ((m - 1) * bs) f ++ zeros bs) ((m - 1) * bs) bs = zeros bs).
  { apply byte_ext; rewrite zlen_pread, Hz, ?zlen_zeros by nia; [lia|]. intros p Hp.
    rewrite byte_pread, byte_app, zlen_ztake, !byte_zeros, (proj2 (Z.ltb_ge _ (Z.min _ _))) by nia. destruct (p <? bs); reflexivity. }
  destruct (read_step_ok e bs g s' _ He Hv R' bs ((m - 1) * bs)) as (_ & _ & x & a & b & Hr & _).
  { cbn [allowed]. rewrite Hz. split_and!; nia. }
  cbn [flat_run o_ret o_data snd] in Hr. rewrite Hrd, zlen_zeros, Z.max_r in Hr by lia. exists x, a, b. exact Hr.
Qed.

Lemma cut_at_boundary_loses_block_witness :
  represents 4 7 seven [1; 2; 3; 4; 5; 6; 7; 8; 9; 10] /\
  represents 4 7 (run sound false (O_truncate 7 8) seven).1 [1; 2; 3; 4; 0; 0; 0; 0].
Proof.
  split; [exact seven_ten|]. apply (cut_at_boundary_loses_block sound 4 7 seven ten 2); try apply sound_clean; [exact seven_ten|lia|reflexivity|].
  right. vm_compute. split; [eauto|]. right. exists 2. split; [split; [reflexivity|discriminate]|eauto].
Defined.

(** When no shard after the one to cut exists, that one is not cut: bytes past the
    new end come back when the file grows. *)
Lemma cut_bytes_come_back :
  let s := then_run seven [O_truncate 7 20; O_truncate 7 9] in
  shows s (O_stat 7) = Unwind 0 0 (Some (mk_iatt 9 0)) None [] /\
  shows (then_run s [O_truncate 7 12]) (O_readv 7 4 8) = Unwind 4 0 (Some (mk_iatt 12 0)) None [9; 10; 0; 0].
Proof. vm_compute. auto. Qed.

(** The shard to cut lies in a hole: the gfid of a NULL inode is logged. *)
Lemma cut_in_hole_crashes :
  shows (then_run init [O_create 4 7; O_writev 7 [[1]] 0 false false; O_writev 7 [[2]] 12 false false]) (O_truncate 7 6) = Undefined.
Proof. vm_compute. reflexivity. Qed.

(** The data of a block in four vectors is copied past the end of the buffer. *)
Lemma many_vectors_overrun :
  (run (mk_env (fun _ => A_ok) (fun _ => 0) (fun _ d => map (fun x => [x]) d) (Some 1)) false (O_readv 7 4 0) seven).2 = Undefined.
Proof. vm_compute. reflexivity. Qed.

(** A read across the end of the file is answered with zeros past it. *)
Lemma read_across_end_padded : shows seven (O_readv 7 8 8) = Unwind 8 0 (Some (mk_iatt 10 0)) None [9; 10; 0; 0; 0; 0; 0; 0].
Proof. vm_compute. reflexivity. Qed.

(** An empty read or write at a block boundary is not answered; an empty write
    elsewhere past the end makes the file larger. *)
Lemma empty_range_unanswered :
  shows seven (O_readv 7 0 4) = Never /\ shows seven (O_writev 7 [] 4 false false) = Never /\
  shows (then_run seven [O_writev 7 [] 13 false false]) (O_stat 7) = Unwind 0 0 (Some (mk_iatt 13 0)) None [].
Proof. vm_compute. auto. Qed.

(** A hole that is punched past the end makes the file larger. *)
Lemma hole_past_end_grows :
  shows (then_run seven [O_discard 7 20 4]) (O_stat 7) = Unwind 0 0 (Some (mk_iatt 24 0)) None [] /\
  shows (then_run seven [O_fallocate 7 (Z.lor FALLOC_FL_KEEP_SIZE FALLOC_FL_PUNCH_HOLE) 20 4]) (O_stat 7)
    = Unwind 0 0 (Some (mk_iatt 24 0)) None [].
Proof. vm_compute. auto. Qed.

(** A write with [O_APPEND] to block 0 of a file that truncation has made larger
    lands where block 0 ends, not at the end of the file. *)
Lemma append_lands_early :
  shows (then_run init [O_create 4 7; O_writev 7 [[1]] 0 false false; O_truncate 7 3; O_writev 7 [[9]] 0 false true]) (O_readv 7 4 0)
    = Unwind 4 0 (Some (mk_iatt 4 0)) None [1; 9; 0; 0].
Proof. vm_compute. reflexivity. Qed.

(** A truncation that answers with an error has cut the file all the same. *)
Lemma failed_cut_still_cuts :
  (run no_unlink false (O_truncate 7 2) seven).2 = Unwind (-1) EIO (Some (mk_iatt 10 0)) (Some (mk_iatt 2 0)) [] /\
  shows (run no_unlink false (O_truncate 7 2) seven).1 (O_stat 7) = Unwind 0 0 (Some (mk_iatt 2 0)) None [].
Proof. vm_compute. auto. Qed.

(** After a truncation that failed the cached size is the one asked for, and the
    next write, inside the file, makes the size attribute larger. *)
Lemma failed_cut_wrong_size :
  let e := child (fun c => match c with C_truncate _ => A_err EIO | _ => A_ok end) in
  (run e false (O_truncate 7 9) seven).2 = Unwind (-1) EIO None None [] /\
  shows (then_run (run e false (O_truncate 7 9) seven).1 [O_writev 7 [[77]] 9 false false]) (O_stat 7)
    = Unwind 0 0 (Some (mk_iatt 11 0)) None [].
Proof. vm_compute. auto. Qed.

(** A short write of a block: the answer is the count of the bytes written, the size
    grows by the length asked for. *)
Lemma short_write_full_size :
  let e := child (fun c => match c with C_write _ => A_short 1 | _ => A_ok end) in
  (run e false (O_writev 7 [[1; 2; 3]] 10 false false) seven).2 = Unwind 2 0 (Some (mk_iatt 10 0)) (Some (mk_iatt 13 0)) [].
Proof. vm_compute. reflexivity. Qed.

(** A read past the end makes shards, which the removal of the file leaves. *)
Lemma read_leaves_shards :
  let s := then_run pair_files [O_create 4 9; O_writev 9 [[1; 2]] 0 false false; O_readv 9 12 0; O_unlink 9] in
  objs s !! (9, 0) = None /\ objs s !! (9, 2) = Some [].
Proof. vm_compute. auto. Qed.

(** A rename over a file links the shards of that file under the names of those of
    the renamed one.  When their removal fails the renamed file reads them. *)
Lemma rename_reads_other_file :
  let s := then_run pair_files [O_forget (7, 1); O_forget (8, 1)] in
  (run no_unlink false (O_rename 7 (Some 8)) s).2 = Unwind (-1) EIO None None [] /\
  shows (run no_unlink false (O_rename 7 (Some 8)) s).1 (O_readv 7 10 0)
    = Unwind 10 0 (Some (mk_iatt 10 0)) None [1; 2; 3; 4; 35; 0; 0; 0; 9; 10].
Proof. vm_compute. auto. Qed.
