(* ===== verification/Socket.v ===== *)
(** * RPC records on a socket

    Models [rpc/rpc-transport/socket/src/socket.c]: how messages are cut out of
    the bytes that arrive, and how they are sent.  Each message is a record of
    fragments with a header of four bytes (RFC 5531); the receiver reads whatever
    there is, stops anywhere and goes on with the next event.  The messages that
    carry data (WRITE calls, READ replies) are read into two buffers, which takes
    several states; small reads are served from a read-ahead of 1024 bytes.

    The state is that of [struct gf_sock_incoming] with its buffers.  Memory is
    explicit: a pointer is a buffer and an offset, bytes are undetermined until
    they are written, and an access outside of a buffer or to one that is freed
    is undefined behaviour, for which the monad has [None].  The buffers have
    the size that was asked for.  What the kernel gives to a read is a schedule
    over the bytes that arrive.  SSL, the thread per connection and allocations
    that fail are not part of the model. *)

From S2P Require Import Prelude Words Bytes.
From stdpp Require Import gmap.
Open Scope Z_scope.

Definition RPC_LASTFRAG (h : Z) : bool := negb (Z.land h 0x80000000 =? 0).
Definition RPC_FRAGSIZE (h : Z) : Z := Z.land h 0x7fffffff.
Definition RPC_MAX_FRAGMENT_SIZE : Z := 0x7fffffff.
Definition RPC_MSGTYPE_SIZE : Z := 8.
Definition RPC_CALL_BODY_SIZE : Z := 24.
Definition RPC_REPLY_STATUS_SIZE : Z := 4.
Definition RPC_AUTH_FLAVOUR_N_LENGTH_SIZE : Z := 8.
Definition RPC_ACCEPT_STATUS_LEN : Z := 4.
Definition GF_SOCKET_RA_MAX : Z := 1024.
Definition GF_UNIT_GB : Z := 2 ^ 30.
Definition GF_UNIVERSAL_ANSWER : Z := 42.
Definition CALL : Z := 0.
Definition REPLY : Z := 1.
Definition MSG_ACCEPTED : Z := 0.
Definition SUCCESS : Z := 0.
Definition MAX_IOVEC : Z := 16.

(** ** State *)

(** A pointer into a buffer, into [in->fraghdr], or NULL. *)
Inductive ptr := P (buffer offset : Z) | P_fraghdr (offset : Z) | P_null.
Record iovec := mk_iovec { iov_base : ptr; iov_len : Z }.

(** Where [in->pending_vector] points to: the two elements of [in->vector],
    [frag->vector], or past one of these arrays. *)
Inductive vecp := V_in0 | V_in1 | V_frag | V_end.

Inductive sp_rpcrecord_state := SP_STATE_NADA | SP_STATE_COMPLETE | SP_STATE_READING_FRAGHDR | SP_STATE_READ_FRAGHDR | SP_STATE_READING_FRAG.
Inductive sp_rpcfrag_state := SP_STATE_RPCFRAG_INIT | SP_STATE_READING_MSGTYPE | SP_STATE_READ_MSGTYPE | SP_STATE_NOTIFYING_XID.
Inductive sp_rpcfrag_simple_msg_state := SP_STATE_SIMPLE_MSG_INIT | SP_STATE_READING_SIMPLE_MSG.

(** The states in the two members of the union [call_body]. *)
Definition SP_STATE_REQUEST_HEADER_INIT : Z := 0.
Definition SP_STATE_READING_RPCHDR1 : Z := 1.
Definition SP_STATE_READ_RPCHDR1 : Z := 2.
Definition SP_STATE_VECTORED_REQUEST_INIT : Z := 0.
Definition SP_STATE_READING_CREDBYTES : Z := 1.
Definition SP_STATE_READ_CREDBYTES : Z := 2.
Definition SP_STATE_READING_VERFBYTES : Z := 3.
Definition SP_STATE_READ_VERFBYTES : Z := 4.
Definition SP_STATE_READING_PROGHDR : Z := 5.
Definition SP_STATE_READ_PROGHDR : Z := 6.
Definition SP_STATE_READING_PROGHDR_XDATA : Z := 7.
Definition SP_STATE_READ_PROGHDR_XDATA : Z := 8.
Definition SP_STATE_READING_PROG : Z := 9.
Definition SP_STATE_VECTORED_REPLY_STATUS_INIT : Z := 0.
Definition SP_STATE_READING_REPLY_STATUS : Z := 1.
Definition SP_STATE_READ_REPLY_STATUS : Z := 2.
Definition SP_STATE_ACCEPTED_SUCCESS_REPLY_INIT : Z := 0.
Definition SP_STATE_READING_PROC_HEADER : Z := 1.
Definition SP_STATE_READING_PROC_OPAQUE : Z := 2.
Definition SP_STATE_READ_PROC_OPAQUE : Z := 3.
Definition SP_STATE_READ_PROC_HEADER : Z := 4.
Definition SP_STATE_ACCEPTED_REPLY_INIT : Z := 0.
Definition SP_STATE_READING_REPLY_VERFLEN : Z := 1.
Definition SP_STATE_READ_REPLY_VERFLEN : Z := 2.
Definition SP_STATE_READING_REPLY_VERFBYTES : Z := 3.
Definition SP_STATE_READ_REPLY_VERFBYTES : Z := 4.

(** What the upcall for the xid of a reply gives: is the request a READ of the
    file system program, and the length of the buffer for the payload if the
    caller has given one. *)
Record info := mk_info { is_fop_read : bool; rsp_payload : option Z }.

(** [call_body], a union of [request] (header_state, vector_state,
    vector_sizer_state) and [reply] (accept_status, status_state, accepted_state,
    accepted_success_state): four words. *)
Record body := mk_body { w0 : Z; w1 : Z; w2 : Z; w3 : Z }.

Record frag := mk_frag {
  fragcurrent : ptr;
  bytes_read : Z;
  remaining_size : Z;
  frag_state : sp_rpcfrag_state;
  simple_state : sp_rpcfrag_simple_msg_state;
  call_body : body
}.

(** [in->pending_vector], [in->vector\[0\]] and [frag->vector]. *)
Record vectors := mk_vectors { pending_vector : vecp; in_vector : iovec; frag_vector : iovec }.

Record readahead := mk_ra { ra_read : Z; ra_max : Z; ra_served : Z; ra_buf : ptr }.

(** [payload_len] is undetermined where the code subtracts addresses of different
    buffers. *)
Record incoming := mk_incoming {
  record_state : sp_rpcrecord_state;
  in_frag : frag;
  in_vecs : vectors;
  in_ra : readahead;
  fraghdr : list Z;
  msg_type : Z;
  total_bytes_read : Z;
  iobuf : option Z;
  proghdr_base_addr : ptr;
  payload_base : ptr;
  payload_len : option Z;
  request_info : option info
}.

Record buffer := mk_buffer { b_size : Z; b_data : Z -> option Z }.
Record memory := mk_memory { heap : gmap Z buffer; next_id : Z }.

(** A read gets up to [k] bytes, or an error; without an event it would block. *)
Inductive event := E_give (k : Z) | E_again | E_intr | E_eof | E_fail.
(** [errno_again]: the last error is EAGAIN; [closed]: the peer has closed the
    connection or a read has failed. *)
Record kernel := mk_kernel { stream : list Z; sched : list event; errno_again : bool; closed : bool }.

Record sock := mk_sock { inc : incoming; mem : memory; kern : kernel }.

Definition set_frag v i := mk_incoming (record_state i) v (in_vecs i) (in_ra i) (fraghdr i) (msg_type i) (total_bytes_read i)
  (iobuf i) (proghdr_base_addr i) (payload_base i) (payload_len i) (request_info i).
Definition set_vecs v i := mk_incoming (record_state i) (in_frag i) v (in_ra i) (fraghdr i) (msg_type i) (total_bytes_read i)
  (iobuf i) (proghdr_base_addr i) (payload_base i) (payload_len i) (request_info i).
Definition set_ra v i := mk_incoming (record_state i) (in_frag i) (in_vecs i) v (fraghdr i) (msg_type i) (total_bytes_read i)
  (iobuf i) (proghdr_base_addr i) (payload_base i) (payload_len i) (request_info i).
Definition set_record_state v i := mk_incoming v (in_frag i) (in_vecs i) (in_ra i) (fraghdr i) (msg_type i) (total_bytes_read i)
  (iobuf i) (proghdr_base_addr i) (payload_base i) (payload_len i) (request_info i).
Definition set_fraghdr v i := mk_incoming (record_state i) (in_frag i) (in_vecs i) (in_ra i) v (msg_type i) (total_bytes_read i)
  (iobuf i) (proghdr_base_addr i) (payload_base i) (payload_len i) (request_info i).
Definition set_msg_type v i := mk_incoming (record_state i) (in_frag i) (in_vecs i) (in_ra i) (fraghdr i) v (total_bytes_read i)
  (iobuf i) (proghdr_base_addr i) (payload_base i) (payload_len i) (request_info i).
Definition set_total v i := mk_incoming (record_state i) (in_frag i) (in_vecs i) (in_ra i) (fraghdr i) (msg_type i) v
  (iobuf i) (proghdr_base_addr i) (payload_base i) (payload_len i) (request_info i).
Definition set_iobuf v i := mk_incoming (record_state i) (in_frag i) (in_vecs i) (in_ra i) (fraghdr i) (msg_type i)
  (total_bytes_read i) v (proghdr_base_addr i) (payload_base i) (payload_len i) (request_info i).
Definition set_proghdr v i := mk_incoming (record_state i) (in_frag i) (in_vecs i) (in_ra i) (fraghdr i) (msg_type i)
  (total_bytes_read i) (iobuf i) v (payload_base i) (payload_len i) (request_info i).
Definition set_payload b l i := mk_incoming (record_state i) (in_frag i) (in_vecs i) (in_ra i) (fraghdr i) (msg_type i)
  (total_bytes_read i) (iobuf i) (proghdr_base_addr i) b l (request_info i).
Definition set_info v i := mk_incoming (record_state i) (in_frag i) (in_vecs i) (in_ra i) (fraghdr i) (msg_type i)
  (total_bytes_read i) (iobuf i) (proghdr_base_addr i) (payload_base i) (payload_len i) v.

Definition set_current v f := mk_frag v (bytes_read f) (remaining_size f) (frag_state f) (simple_state f) (call_body f).
Definition set_bytes v f := mk_frag (fragcurrent f) v (remaining_size f) (frag_state f) (simple_state f) (call_body f).
Definition set_remaining v f := mk_frag (fragcurrent f) (bytes_read f) v (frag_state f) (simple_state f) (call_body f).
Definition set_frag_state v f := mk_frag (fragcurrent f) (bytes_read f) (remaining_size f) v (simple_state f) (call_body f).
Definition set_simple_state v f := mk_frag (fragcurrent f) (bytes_read f) (remaining_size f) (frag_state f) v (call_body f).
Definition set_body v f := mk_frag (fragcurrent f) (bytes_read f) (remaining_size f) (frag_state f) (simple_state f) v.
Definition set_w0 v b := mk_body v (w1 b) (w2 b) (w3 b).
Definition set_w1 v b := mk_body (w0 b) v (w2 b) (w3 b).
Definition set_w2 v b := mk_body (w0 b) (w1 b) v (w3 b).
Definition set_w3 v b := mk_body (w0 b) (w1 b) (w2 b) v.

(** ** Effects *)

(** [None]: undefined behaviour. *)
Definition M (A : Type) : Type := sock -> option (A * sock).

#[global] Instance M_ret : MRet M := fun _ x s => Some (x, s).
#[global] Instance M_bind : MBind M := fun _ _ k m s => match m s with Some (x, s') => k x s' | None => None end.

Definition undefined {A} : M A := fun _ => None.
Definition gets {A} (f : sock -> A) : M A := fun s => Some (f s, s).
Definition modify (f : sock -> sock) : M unit := fun s => Some (tt, f s).
Definition get_in {A} (f : incoming -> A) : M A := gets (fun s => f (inc s)).
Definition get_frag {A} (f : frag -> A) : M A := get_in (fun i => f (in_frag i)).
Definition get_body (f : body -> Z) : M Z := get_frag (fun g => f (call_body g)).
Definition upd (f : incoming -> incoming) : M unit := modify (fun s => mk_sock (f (inc s)) (mem s) (kern s)).
Definition upd_frag (f : frag -> frag) : M unit := upd (fun i => set_frag (f (in_frag i)) i).
Definition upd_body (f : body -> body) : M unit := upd_frag (fun g => set_body (f (call_body g)) g).
Definition upd_vecs (f : vectors -> vectors) : M unit := upd (fun i => set_vecs (f (in_vecs i)) i).
Definition set_mem (m : memory) : M unit := modify (fun s => mk_sock (inc s) m (kern s)).
Definition set_kern (k : kernel) : M unit := modify (fun s => mk_sock (inc s) (mem s) k).

(** The header as the host reads it, and the sizes in it. *)
Definition hdr (i : incoming) : Z := match fraghdr i with [a; b; c; d] => load32 a b c d | _ => 0 end.
Definition fragsize (i : incoming) : Z := RPC_FRAGSIZE (hdr i).
Definition lastfrag (i : incoming) : bool := RPC_LASTFRAG (hdr i).
(** [RPC_FRAGSIZE (in->fraghdr) - frag->bytes_read], of type uint32_t. *)
Definition left_in_frag (i : incoming) : Z := u32 (fragsize i - bytes_read (in_frag i)).

(** ** Memory *)

Definition padd (p : ptr) (n : Z) : ptr :=
  match p with P b o => P b (o + n) | P_fraghdr o => P_fraghdr (o + n) | P_null => P_null end.

Definition iobuf_get2 (n : Z) : M Z :=
  m ← gets mem;
  set_mem (mk_memory (<[next_id m := mk_buffer n (fun _ => None)]> (heap m)) (next_id m + 1)) ;;
  mret (next_id m).

Definition iobuf_unref (b : Z) : M unit := m ← gets mem; set_mem (mk_memory (delete b (heap m)) (next_id m)).

Definition in_bounds (bf : buffer) (o n : Z) : bool := (0 <=? o) && (0 <=? n) && (o + n <=? b_size bf).

Definition overwrite (f : Z -> option Z) (o : Z) (d : list Z) : Z -> option Z :=
  fun i => if (o <=? i) && (i <? o + zlen d) then Some (byte d (i - o)) else f i.

Definition store (p : ptr) (d : list Z) : M unit :=
  match p with
  | P b o =>
    m ← gets mem;
    match heap m !! b with
    | Some bf =>
      if in_bounds bf o (zlen d) then set_mem (mk_memory (<[b := mk_buffer (b_size bf) (overwrite (b_data bf) o d)]> (heap m)) (next_id m))
      else undefined
    | None => undefined
    end
  | P_fraghdr o =>
    if (0 <=? o) && (o + zlen d <=? 4) then upd (fun i => set_fraghdr (ztake o (fraghdr i) ++ d ++ zdrop (o + zlen d) (fraghdr i)) i)
    else undefined
  | P_null => undefined
  end.

(** The [n] bytes at [p]; [fetch] needs them determined. *)
Definition fetch_raw (p : ptr) (n : Z) : M (list (option Z)) :=
  match p with
  | P b o =>
    m ← gets mem;
    match heap m !! b with
    | Some bf => if in_bounds bf o n then mret (map (fun i => b_data bf (o + i)) (seqZ 0 n)) else undefined
    | None => undefined
    end
  | _ => undefined
  end.

Fixpoint determined (l : list (option Z)) : option (list Z) :=
  match l with
  | [] => Some []
  | Some x :: l' => match determined l' with Some r => Some (x :: r) | None => None end
  | None :: _ => None
  end.

Definition fetch (p : ptr) (n : Z) : M (list Z) :=
  l ← fetch_raw p n; match determined l with Some r => mret r | None => undefined end.

(** [ntoh32] of the word at [p]. *)
Definition fetch32 (p : ptr) : M Z :=
  l ← fetch p 4; match l with [a; b; c; d] => mret (hton32 (load32 a b c d)) | _ => undefined end.

(** From [p] to [q], which are in the same buffer. *)
Definition span (p q : ptr) : M (list Z) :=
  match p, q with P b o, P b' o' => if b =? b' then fetch p (o' - o) else undefined | _, _ => undefined end.

Definition distance (p q : ptr) : option Z :=
  match p, q with P b o, P b' o' => if b =? b' then Some (o' - o) else None | _, _ => None end.

Definition iobuf_ptr : M ptr := b ← get_in iobuf; match b with Some b => mret (P b 0) | None => undefined end.

(** ** Reading from the socket *)

Inductive answer := A_got (d : list Z) | A_again | A_intr | A_eof | A_fail.
Inductive rd := R_got (n : Z) | R_again | R_intr | R_eof | R_fail.

Definition sys_readv (n : Z) : M answer :=
  k ← gets kern;
  match sched k with
  | [] => set_kern (mk_kernel (stream k) [] true (closed k)) ;; mret A_again
  | E_give j :: l =>
    match stream k with
    | [] => set_kern (mk_kernel [] l true (closed k)) ;; mret A_again
    | _ =>
      let d := ztake (Z.min n (Z.max 1 j)) (stream k) in
      set_kern (mk_kernel (zdrop (zlen d) (stream k)) l (errno_again k) (closed k)) ;; mret (A_got d)
    end
  | E_again :: l => set_kern (mk_kernel (stream k) l true (closed k)) ;; mret A_again
  | E_intr :: l => set_kern (mk_kernel (stream k) l false (closed k)) ;; mret A_intr
  | E_eof :: l => set_kern (mk_kernel (stream k) l false true) ;; mret A_eof
  | E_fail :: l => set_kern (mk_kernel (stream k) l false true) ;; mret A_fail
  end.

Definition __socket_ssl_readv (v : iovec) : M rd :=
  a ← sys_readv (iov_len v);
  match a with
  | A_got d => store (iov_base v) d ;; mret (R_got (zlen d))
  | A_again => mret R_again
  | A_intr => mret R_intr
  | A_eof => mret R_eof
  | A_fail => mret R_fail
  end.

(** The part of [__socket_cached_read] after the state of the record is tested. *)
Definition serve_cached (v : iovec) : M rd :=
  r ← (a ← get_in in_ra;
       if ra_read a <? ra_max a then
         r ← __socket_ssl_readv (mk_iovec (padd (ra_buf a) (ra_read a)) (ra_max a - ra_read a));
         match r with
         | R_got n => upd (fun i => let a := in_ra i in set_ra (mk_ra (ra_read a + n) (ra_max a) (ra_served a) (ra_buf a)) i)
         | _ => mret tt
         end ;;
         mret r
       else mret R_fail);
  a ← get_in in_ra;
  if ra_served a <? ra_read a then
    let n := Z.min (iov_len v) (ra_read a - ra_served a) in
    d ← fetch (padd (ra_buf a) (ra_served a)) n;
    store (iov_base v) d ;;
    upd (fun i => let a := in_ra i in set_ra (mk_ra (ra_read a) (ra_max a) (ra_served a + n) (ra_buf a)) i) ;;
    mret (R_got n)
  else if ra_read a <? ra_max a then mret r
  else __socket_ssl_readv v.

Definition __socket_cached_read (v : iovec) : M rd :=
  rs ← get_in record_state;
  match rs with
  | SP_STATE_READING_FRAGHDR => upd (set_ra (mk_ra 0 0 0 P_null)) ;; __socket_ssl_readv v
  | _ =>
    upd (fun i =>
      let a := in_ra i in
      if ra_max a =? 0 then set_ra (mk_ra (ra_read a) (Z.min (fragsize i) GF_SOCKET_RA_MAX) (ra_served a) (fragcurrent (in_frag i))) i
      else i) ;;
    serve_cached v
  end.

Definition pending : M iovec :=
  v ← get_in in_vecs;
  match pending_vector v with
  | V_in0 => mret (in_vector v)
  | V_in1 => mret (mk_iovec P_null 0)
  | V_frag => mret (frag_vector v)
  | V_end => undefined
  end.

Definition next_vec (p : vecp) : vecp := match p with V_in0 => V_in1 | _ => V_end end.

Definition advance_vec (n : Z) (v : vectors) : vectors :=
  let move w := mk_iovec (padd (iov_base w) n) (iov_len w - n) in
  match pending_vector v with
  | V_in0 => mk_vectors V_in0 (move (in_vector v)) (frag_vector v)
  | V_frag => mk_vectors V_frag (in_vector v) (move (frag_vector v))
  | p => mk_vectors p (in_vector v) (frag_vector v)
  end.

Definition skip_vec (v : vectors) : vectors := mk_vectors (next_vec (pending_vector v)) (in_vector v) (frag_vector v).

(** The loop of [__socket_rwv] for a read of one vector, [in->pending_vector]: what
    is returned (0 when all is read, 1 when some is missing, -1 for an error), and
    the number of bytes. *)
Fixpoint readv_loop (fuel : nat) (bytes : Z) : M (Z * Z) :=
  match fuel with
  | O => undefined
  | S fuel =>
    v ← pending;
    if iov_len v =? 0 then upd_vecs skip_vec ;; mret (0, bytes)
    else
      r ← __socket_cached_read v;
      match r with
      | R_again => mret (1, bytes)
      | R_intr => readv_loop fuel bytes
      | R_eof | R_fail => mret (-1, bytes)
      | R_got n =>
        if iov_len v <=? n then upd_vecs skip_vec ;; mret (0, bytes + n)
        else upd_vecs (advance_vec n) ;; readv_loop fuel (bytes + n)
      end
  end.

Definition __socket_readv : M (Z * Z) := n ← gets (fun s => length (sched (kern s))); readv_loop (2 * n + 3) 0.

(** ** Waiting for parts of a fragment *)

Definition __socket_proto_reset_pending : M unit :=
  p ← get_frag fragcurrent;
  upd_vecs (fun v => mk_vectors V_frag (in_vector v) (mk_iovec p 0)).

Definition set_frag_len (n : Z) : M unit :=
  upd_vecs (fun v => mk_vectors (pending_vector v) (in_vector v) (mk_iovec (iov_base (frag_vector v)) n)).

Definition __socket_proto_update_pending : M unit :=
  v ← get_in in_vecs;
  if iov_len (frag_vector v) =? 0 then
    remaining ← get_in left_in_frag;
    size ← get_frag remaining_size;
    let len := if size <? remaining then size else remaining in
    set_frag_len len ;; upd_frag (set_remaining (u32 (size - len)))
  else mret tt.

(** [true]: go on with the next state; [false]: leave the switch. *)
Definition __socket_proto_update_priv_after_read (r bytes : Z) : M bool :=
  upd_frag (fun f => set_bytes (u32 (bytes_read f + bytes)) (set_current (padd (fragcurrent f) bytes) f)) ;;
  rest ← get_frag remaining_size;
  if (0 <? r) || negb (rest =? 0) then
    (if negb (rest =? 0) && (r =? 0) then __socket_proto_reset_pending else mret tt) ;; mret false
  else mret true.

Definition __socket_proto_init_pending (size : Z) : M unit :=
  remaining ← get_in left_in_frag;
  __socket_proto_reset_pending ;;
  let len := if size <? remaining then size else remaining in
  set_frag_len len ;; upd_frag (set_remaining (u32 (size - len))).

Definition __socket_proto_read : M (Z * bool) :=
  __socket_proto_update_pending ;;
  '(r, bytes) ← __socket_readv;
  if r =? -1 then mret (-1, false)
  else c ← __socket_proto_update_priv_after_read r bytes; mret (r, c).

(** Reads with [__socket_proto_read] and goes on with [k] when all is there. *)
Definition then_read (k : M Z) : M Z := '(r, c) ← __socket_proto_read; if (c : bool) then k else mret r.

Definition reading_simple_msg : M Z :=
  remaining ← get_in left_in_frag;
  '(r, bytes) ← (if 0 <? remaining then __socket_readv else mret (0, 0));
  if r =? -1 then mret (-1)
  else
    upd_frag (fun f => set_current (padd (fragcurrent f) bytes) (set_bytes (u32 (bytes_read f + bytes)) f)) ;;
    (if r =? 0 then upd_frag (set_simple_state SP_STATE_SIMPLE_MSG_INIT) else mret tt) ;;
    mret r.

Definition __socket_read_simple_msg : M Z :=
  st ← get_frag simple_state;
  match st with
  | SP_STATE_SIMPLE_MSG_INIT =>
    remaining ← get_in left_in_frag;
    __socket_proto_init_pending remaining ;;
    upd_frag (set_simple_state SP_STATE_READING_SIMPLE_MSG) ;;
    reading_simple_msg
  | SP_STATE_READING_SIMPLE_MSG => reading_simple_msg
  end.

(** ** Calls *)

(** A vector sizer: from its state and the bytes of the program header so far to
    the next state and the number of bytes to read next. *)
Abbreviation sizer := (Z -> list Z -> Z * Z).

(** What the transport is used with: programs on the server side, the sizes and
    decoding that the generated XDR code gives, and the upcall for an xid. *)
Record rpc := mk_rpc {
  is_server : bool;
  program_vector_sizer : Z -> Z -> Z -> option sizer;
  read_rsp_size : Z;
  read_rsp_xdata_len : list Z -> Z;
  map_xid : Z -> option info
}.

Definition roof4 (n : Z) : Z := (n + 3) / 4 * 4.

(** [server3_3_writev_vecsizer], with [xdr_sizeof] and the length of the xdata that
    decoding gives. *)
Definition server3_3_writev_vecsizer (size : Z) (xdata_len : list Z -> Z) : sizer := fun state hd =>
  if state =? 0 then (1, size)
  else if state =? 1 then let n := roof4 (xdata_len hd) in (if n =? 0 then 0 else 2, n)
  else (0, 0).

(** The end of the part that was waited for, and that of the message. *)
Definition finished (r : Z) : M bool :=
  remaining ← get_in left_in_frag;
  last ← get_in lastfrag;
  mret ((r =? -1) || ((r =? 0) && (remaining =? 0) && last)).

Definition read_payload_call : M Z :=
  r ← __socket_read_simple_msg;
  f ← finished r;
  (if (f : bool) then
     upd_body (set_w1 SP_STATE_VECTORED_REQUEST_INIT) ;;
     upd (fun i => set_payload (payload_base i) (distance (payload_base i) (fragcurrent (in_frag i))) i)
   else mret tt) ;;
  mret r.

Definition read_proghdr_xdata : M Z :=
  base ← get_in payload_base;
  match base with
  | P_null =>
    size ← get_in left_in_frag;
    b ← iobuf_get2 size;
    upd (fun i => set_payload (P b 0) (payload_len i) i) ;; upd_frag (set_current (P b 0))
  | _ => mret tt
  end ;;
  upd_body (set_w1 SP_STATE_READING_PROG) ;;
  read_payload_call.

(** The header of the program as the sizer asks for it; [reading]: some of it is
    being read. *)
Fixpoint read_proghdr (sz : sizer) (fuel : nat) (reading : bool) : M Z :=
  match fuel with
  | O => undefined
  | S fuel =>
    if reading then then_read (upd_body (set_w1 SP_STATE_READ_PROGHDR) ;; read_proghdr sz fuel false)
    else
      base ← get_in proghdr_base_addr;
      cur ← get_frag fragcurrent;
      hd ← span base cur;
      st ← get_body w2;
      let '(st', readsize) := sz st hd in
      upd_body (set_w2 st') ;;
      if readsize =? 0 then upd_body (set_w1 SP_STATE_READ_PROGHDR_XDATA) ;; read_proghdr_xdata
      else
        __socket_proto_init_pending readsize ;;
        upd_body (set_w1 SP_STATE_READING_PROGHDR_XDATA) ;;
        read_proghdr sz fuel true
  end.

(** Every turn of the loop reads a byte of the fragment. *)
Definition proghdr_loop (sz : sizer) (reading : bool) : M Z :=
  n ← get_in fragsize; read_proghdr sz (2 * Z.to_nat n + 3) reading.

Definition reading_proghdr (sz : sizer) : M Z :=
  then_read (upd_body (set_w1 SP_STATE_READ_PROGHDR) ;; proghdr_loop sz false).

Definition read_verfbytes (sz : sizer) : M Z :=
  cur ← get_frag fragcurrent;
  upd (set_proghdr cur) ;;
  hd ← span cur cur;
  st ← get_body w2;
  let '(st', readsize) := sz st hd in
  upd_body (set_w2 st') ;;
  __socket_proto_init_pending readsize ;;
  upd_body (set_w1 SP_STATE_READING_PROGHDR) ;;
  reading_proghdr sz.

Definition reading_verfbytes (sz : sizer) : M Z :=
  then_read (upd_body (set_w1 SP_STATE_READ_VERFBYTES) ;; read_verfbytes sz).

Definition read_credbytes (sz : sizer) : M Z :=
  cur ← get_frag fragcurrent;
  verflen ← fetch32 (padd cur (-4));
  if verflen =? 0 then upd_body (set_w1 SP_STATE_READ_VERFBYTES) ;; read_verfbytes sz
  else
    __socket_proto_init_pending verflen ;;
    upd_body (set_w1 SP_STATE_READING_VERFBYTES) ;;
    reading_verfbytes sz.

Definition reading_credbytes (sz : sizer) : M Z :=
  then_read (upd_body (set_w1 SP_STATE_READ_CREDBYTES) ;; read_credbytes sz).

Definition vectored_request_init (sz : sizer) : M Z :=
  upd_body (set_w2 0) ;;
  base ← iobuf_ptr;
  cred ← fetch32 (padd base (RPC_MSGTYPE_SIZE + RPC_CALL_BODY_SIZE - 4));
  __socket_proto_init_pending (u32 (cred + RPC_AUTH_FLAVOUR_N_LENGTH_SIZE)) ;;
  upd_body (set_w1 SP_STATE_READING_CREDBYTES) ;;
  reading_credbytes sz.

Definition __socket_read_vectored_request (sz : sizer) : M Z :=
  st ← get_body w1;
  if st =? SP_STATE_VECTORED_REQUEST_INIT then vectored_request_init sz
  else if st =? SP_STATE_READING_CREDBYTES then reading_credbytes sz
  else if st =? SP_STATE_READ_CREDBYTES then read_credbytes sz
  else if st =? SP_STATE_READING_VERFBYTES then reading_verfbytes sz
  else if st =? SP_STATE_READ_VERFBYTES then read_verfbytes sz
  else if st =? SP_STATE_READING_PROGHDR then reading_proghdr sz
  else if st =? SP_STATE_READ_PROGHDR then proghdr_loop sz false
  else if st =? SP_STATE_READING_PROGHDR_XDATA then proghdr_loop sz true
  else if st =? SP_STATE_READ_PROGHDR_XDATA then read_proghdr_xdata
  else if st =? SP_STATE_READING_PROG then read_payload_call
  else mret 0.

Definition read_rpchdr1 (e : rpc) : M Z :=
  base ← iobuf_ptr;
  prognum ← fetch32 (padd base (RPC_MSGTYPE_SIZE + 4));
  progver ← fetch32 (padd base (RPC_MSGTYPE_SIZE + 8));
  procnum ← fetch32 (padd base (RPC_MSGTYPE_SIZE + 12));
  r ← match (if is_server e then program_vector_sizer e prognum progver procnum else None) with
      | Some sz => __socket_read_vectored_request sz
      | None => __socket_read_simple_msg
      end;
  f ← finished r;
  (if (f : bool) then upd_body (set_w0 SP_STATE_REQUEST_HEADER_INIT) else mret tt) ;;
  mret r.

Definition reading_rpchdr1 (e : rpc) : M Z := then_read (upd_body (set_w0 SP_STATE_READ_RPCHDR1) ;; read_rpchdr1 e).

Definition __socket_read_request (e : rpc) : M Z :=
  st ← get_body w0;
  if st =? SP_STATE_REQUEST_HEADER_INIT then
    __socket_proto_init_pending RPC_CALL_BODY_SIZE ;;
    upd_body (set_w0 SP_STATE_READING_RPCHDR1) ;;
    reading_rpchdr1 e
  else if st =? SP_STATE_READING_RPCHDR1 then reading_rpchdr1 e
  else if st =? SP_STATE_READ_RPCHDR1 then read_rpchdr1 e
  else mret (-1).

(** ** Replies *)

Definition read_proc_header : M Z :=
  r ← __socket_read_simple_msg;
  last ← get_in lastfrag;
  (if (r =? -1) || ((r =? 0) && last) then upd_body (set_w3 SP_STATE_ACCEPTED_SUCCESS_REPLY_INIT) else mret tt) ;;
  mret r.

Definition read_proc_opaque : M Z :=
  base ← get_in payload_base;
  match base with
  | P_null =>
    size ← get_in left_in_frag;
    b ← iobuf_get2 size;
    upd (set_payload (P b 0) (Some size))
  | _ => mret tt
  end ;;
  base ← get_in payload_base;
  upd_frag (set_current base) ;;
  upd_body (set_w3 SP_STATE_READ_PROC_HEADER) ;;
  read_proc_header.

Definition reading_proc_opaque : M Z := then_read (upd_body (set_w3 SP_STATE_READ_PROC_OPAQUE) ;; read_proc_opaque).

Definition reading_proc_header (e : rpc) : M Z :=
  then_read (
    base ← get_in proghdr_base_addr;
    cur ← get_frag fragcurrent;
    hd ← span base cur;
    let size := roof4 (read_rsp_xdata_len e hd) in
    if size =? 0 then upd_body (set_w3 SP_STATE_READ_PROC_OPAQUE) ;; read_proc_opaque
    else
      __socket_proto_init_pending size ;;
      upd_body (set_w3 SP_STATE_READING_PROC_OPAQUE) ;;
      reading_proc_opaque).

Definition __socket_read_accepted_successful_reply (e : rpc) : M Z :=
  st ← get_body w3;
  if st =? SP_STATE_ACCEPTED_SUCCESS_REPLY_INIT then
    cur ← get_frag fragcurrent;
    upd (set_proghdr cur) ;;
    __socket_proto_init_pending (read_rsp_size e) ;;
    upd_body (set_w3 SP_STATE_READING_PROC_HEADER) ;;
    reading_proc_header e
  else if st =? SP_STATE_READING_PROC_HEADER then reading_proc_header e
  else if st =? SP_STATE_READING_PROC_OPAQUE then reading_proc_opaque
  else if st =? SP_STATE_READ_PROC_OPAQUE then read_proc_opaque
  else if st =? SP_STATE_READ_PROC_HEADER then read_proc_header
  else mret 0.

Definition read_reply_verfbytes (e : rpc) : M Z :=
  st ← get_body w0;
  r ← (if st =? SUCCESS then __socket_read_accepted_successful_reply e else __socket_read_simple_msg);
  f ← finished r;
  (if (f : bool) then upd_body (set_w2 SP_STATE_ACCEPTED_REPLY_INIT) else mret tt) ;;
  mret r.

Definition reading_reply_verfbytes (e : rpc) : M Z :=
  then_read (
    upd_body (set_w2 SP_STATE_READ_REPLY_VERFBYTES) ;;
    cur ← get_frag fragcurrent;
    st ← fetch32 (padd cur (-4));
    upd_body (set_w0 st) ;;
    read_reply_verfbytes e).

Definition read_reply_verflen (e : rpc) : M Z :=
  cur ← get_frag fragcurrent;
  verflen ← fetch32 (padd cur (-4));
  __socket_proto_init_pending (u32 (verflen + RPC_ACCEPT_STATUS_LEN)) ;;
  upd_body (set_w2 SP_STATE_READING_REPLY_VERFBYTES) ;;
  reading_reply_verfbytes e.

Definition reading_reply_verflen (e : rpc) : M Z :=
  then_read (upd_body (set_w2 SP_STATE_READ_REPLY_VERFLEN) ;; read_reply_verflen e).

Definition __socket_read_accepted_reply (e : rpc) : M Z :=
  st ← get_body w2;
  if st =? SP_STATE_ACCEPTED_REPLY_INIT then
    __socket_proto_init_pending RPC_AUTH_FLAVOUR_N_LENGTH_SIZE ;;
    upd_body (set_w2 SP_STATE_READING_REPLY_VERFLEN) ;;
    reading_reply_verflen e
  else if st =? SP_STATE_READING_REPLY_VERFLEN then reading_reply_verflen e
  else if st =? SP_STATE_READ_REPLY_VERFLEN then read_reply_verflen e
  else if st =? SP_STATE_READING_REPLY_VERFBYTES then reading_reply_verfbytes e
  else if st =? SP_STATE_READ_REPLY_VERFBYTES then read_reply_verfbytes e
  else mret (-1).

Definition read_reply_status (e : rpc) : M Z :=
  st ← get_body w0;
  r ← (if st =? MSG_ACCEPTED then __socket_read_accepted_reply e else __socket_read_simple_msg);
  f ← finished r;
  (if (f : bool) then
     upd_body (set_w1 SP_STATE_VECTORED_REPLY_STATUS_INIT) ;;
     upd (fun i => set_payload (payload_base i) (distance (payload_base i) (fragcurrent (in_frag i))) i)
   else mret tt) ;;
  mret r.

Definition reading_reply_status (e : rpc) : M Z :=
  then_read (
    cur ← get_frag fragcurrent;
    st ← fetch32 (padd cur (-4));
    upd_body (set_w0 st) ;;
    upd_body (set_w1 SP_STATE_READ_REPLY_STATUS) ;;
    read_reply_status e).

Definition __socket_read_vectored_reply (e : rpc) : M Z :=
  st ← get_body w1;
  if st =? SP_STATE_VECTORED_REPLY_STATUS_INIT then
    __socket_proto_init_pending RPC_REPLY_STATUS_SIZE ;;
    upd_body (set_w1 SP_STATE_READING_REPLY_STATUS) ;;
    reading_reply_status e
  else if st =? SP_STATE_READING_REPLY_STATUS then reading_reply_status e
  else if st =? SP_STATE_READ_REPLY_STATUS then read_reply_status e
  else mret 0.

(** The upcall gives the caller's buffer for the payload, if it has one. *)
Definition __socket_read_reply (e : rpc) : M Z :=
  base ← iobuf_ptr;
  ri ← get_in request_info;
  got ← match ri with
        | Some x => mret (Some x)
        | None =>
          xid ← fetch32 base;
          match map_xid e xid with
          | None => upd (set_info (Some (mk_info false None))) ;; mret None
          | Some x =>
            upd (set_info (Some x)) ;;
            (if is_fop_read x then
               match rsp_payload x with
               | Some n => b ← iobuf_get2 n; upd (set_payload (P b 0) (Some n))
               | None => mret tt
               end
             else mret tt) ;;
            mret (Some x)
          end
        end;
  match got with
  | None => mret (-1)
  | Some x => if is_fop_read x then __socket_read_vectored_reply e else __socket_read_simple_msg
  end.

(** ** Records *)

Definition read_msgtype (e : rpc) : M Z :=
  base ← iobuf_ptr;
  t ← fetch32 (padd base 4);
  upd (set_msg_type t) ;;
  r ← (if t =? CALL then __socket_read_request e
       else if t =? REPLY then __socket_read_reply e
       else mret (if t =? GF_UNIVERSAL_ANSWER then 0 else -1));
  f ← finished r;
  (if (f : bool) then upd_frag (set_frag_state SP_STATE_RPCFRAG_INIT) else mret tt) ;;
  mret r.

Definition reading_msgtype (e : rpc) : M Z :=
  then_read (upd_frag (set_frag_state SP_STATE_READ_MSGTYPE) ;; read_msgtype e).

(** Another thread's upcall is seen as EAGAIN. *)
Definition __socket_read_frag (e : rpc) : M Z :=
  st ← get_frag frag_state;
  match st with
  | SP_STATE_RPCFRAG_INIT =>
    __socket_proto_init_pending RPC_MSGTYPE_SIZE ;;
    upd_frag (set_frag_state SP_STATE_READING_MSGTYPE) ;;
    reading_msgtype e
  | SP_STATE_READING_MSGTYPE => reading_msgtype e
  | SP_STATE_READ_MSGTYPE => read_msgtype e
  | SP_STATE_NOTIFYING_XID =>
    k ← gets kern; set_kern (mk_kernel (stream k) (sched k) true (closed k)) ;; mret (-1)
  end.

(** What the upper layers are notified with. *)
Record pollin := mk_pollin { p_vector : list (list (option Z)); is_reply : bool; p_info : option info }.

(** How an iteration of the loop ends: it goes to [out] with a value, it starts
    again, or the record is complete. *)
Inductive turn := T_out (r : Z) | T_again | T_complete (r : Z) (p : pollin).

Definition __socket_reset_priv : M unit :=
  b ← get_in iobuf;
  match b with Some b => iobuf_unref b | None => mret tt end ;;
  upd (fun i => set_info None (set_payload P_null (Some 0) (set_iobuf None i))).

Definition want_fraghdr : M unit :=
  upd_vecs (fun v => mk_vectors V_in0 (mk_iovec (P_fraghdr 0) 4) (frag_vector v)) ;;
  upd (set_record_state SP_STATE_READING_FRAGHDR).

Definition deliver (r : Z) : M turn :=
  i ← gets inc;
  match payload_len i, iobuf i with
  | Some pl, Some b =>
    v0 ← fetch_raw (P b 0) (total_bytes_read i - pl);
    vs ← match payload_base i with P_null => mret [v0] | p => v1 ← fetch_raw p pl; mret [v0; v1] end;
    upd (fun i => set_info None (set_iobuf None (set_record_state SP_STATE_COMPLETE i))) ;;
    mret (T_complete r (mk_pollin vs (msg_type i =? REPLY) (request_info i)))
  | _, _ => undefined
  end.

Definition reading_frag (e : rpc) : M turn :=
  r ← __socket_read_frag e;
  i ← gets inc;
  if (r =? -1) || negb (bytes_read (in_frag i) =? fragsize i) then mret (T_out r)
  else
    upd_frag (set_bytes 0) ;;
    if negb (lastfrag i) then want_fraghdr ;; mret T_again
    else deliver r.

(** The header is there: a buffer for the record up to the end of the fragment. *)
Definition read_fraghdr (e : rpc) : M turn :=
  upd (fun i => set_fraghdr (store32 (hton32 (hdr i))) i) ;;
  upd (fun i => set_total (total_bytes_read i + fragsize i) i) ;;
  i ← gets inc;
  if GF_UNIT_GB <=? total_bytes_read i then mret (T_out (-12))
  else
    b ← iobuf_get2 (total_bytes_read i + 4);
    match iobuf i with
    | None => upd_frag (set_current (P b 0))
    | Some old =>
      let n := total_bytes_read i - fragsize i in
      m ← gets mem;
      match heap m !! old with
      | Some bf =>
        if in_bounds bf 0 n then
          set_mem (mk_memory (<[b := mk_buffer (total_bytes_read i + 4) (fun j => if (0 <=? j) && (j <? n) then b_data bf j else None)]> (heap m)) (next_id m)) ;;
          iobuf_unref old ;;
          upd_frag (set_current (P b n)) ;;
          upd_vecs (fun v => mk_vectors V_frag (in_vector v) (mk_iovec (P b n) (iov_len (frag_vector v))))
        else undefined
      | None => undefined
      end
    end ;;
    upd (fun i => set_record_state SP_STATE_READING_FRAG (set_iobuf (Some b) i)) ;;
    reading_frag e.

Definition reading_fraghdr (e : rpc) : M turn :=
  '(r, bytes) ← __socket_readv;
  if negb (r =? 0) then mret (T_out r)
  else upd (set_record_state SP_STATE_READ_FRAGHDR) ;; read_fraghdr e.

(** The loop of [__socket_proto_state_machine]; every turn reads a header. *)
Fixpoint machine_loop (e : rpc) (fuel : nat) : M (Z * option pollin) :=
  match fuel with
  | O => undefined
  | S fuel =>
    st ← get_in record_state;
    t ← match st with
        | SP_STATE_NADA =>
          upd (fun i => set_payload (payload_base i) (Some 0) (set_total 0 i)) ;;
          want_fraghdr ;; reading_fraghdr e
        | SP_STATE_READING_FRAGHDR => reading_fraghdr e
        | SP_STATE_READ_FRAGHDR => read_fraghdr e
        | SP_STATE_READING_FRAG => reading_frag e
        | SP_STATE_COMPLETE => undefined
        end;
    match t with
    | T_out r => mret (r, None)
    | T_again => machine_loop e fuel
    | T_complete r p => upd (set_record_state SP_STATE_NADA) ;; __socket_reset_priv ;; mret (r, Some p)
    end
  end.

Definition __socket_proto_state_machine (e : rpc) : M (Z * option pollin) :=
  n ← gets (fun s => length (stream (kern s)));
  '(r, p) ← machine_loop e (n + 2);
  k ← gets kern;
  mret (if (r =? -1) && errno_again k then 0 else r, p).

(** One event on the socket, for which the reads go as [events] say. *)
Definition socket_event_poll_in (e : rpc) (events : list event) (s : sock) : option (Z * option pollin * sock) :=
  __socket_proto_state_machine e
    (mk_sock (inc s) (mem s) (mk_kernel (stream (kern s)) events (errno_again (kern s)) (closed (kern s)))).

(** After [__socket_reset], when the peer is going to send [bytes]. *)
Definition just_connected (bytes : list Z) : sock :=
  mk_sock
    (mk_incoming SP_STATE_NADA
      (mk_frag P_null 0 0 SP_STATE_RPCFRAG_INIT SP_STATE_SIMPLE_MSG_INIT (mk_body 0 0 0 0))
      (mk_vectors V_end (mk_iovec P_null 0) (mk_iovec P_null 0)) (mk_ra 0 0 0 P_null)
      [0; 0; 0; 0] 0 0 None P_null P_null (Some 0) None)
    (mk_memory ∅ 0) (mk_kernel bytes [] false false).
