(* ===== verification/SocketRead.v ===== *)
(** * RPC records: reading

    Weakest preconditions for the effects of [Socket]; then what a read does when
    a message is being read: it takes some of the next bytes of the message,
    whether they come from the kernel or from the read-ahead. *)

From S2P Require Import Prelude Words Bytes Socket.
From stdpp Require Import gmap.
Open Scope Z_scope.

(** ** Weakest preconditions *)

Definition wp {A} (m : M A) (Q : A -> sock -> Prop) (s : sock) : Prop :=
  match m s with Some (x, s') => Q x s' | None => False end.

Lemma wp_ret {A} (x : A) Q s : Q x s -> wp (mret x) Q s.
Proof. intros H. exact H. Qed.

Lemma wp_bind {A B} (m : M A) (k : A -> M B) Q s : wp m (fun x => wp (k x) Q) s -> wp (m ≫= k) Q s.
Proof. unfold wp, mbind, M_bind. destruct (m s) as [[x s']|]; intros H; exact H. Qed.

Lemma wp_gets {A} (f : sock -> A) Q s : Q (f s) s -> wp (gets f) Q s.
Proof. intros H. exact H. Qed.

Lemma wp_modify f Q s : Q tt (f s) -> wp (modify f) Q s.
Proof. intros H. exact H. Qed.

Lemma wp_mono {A} (m : M A) (P Q : A -> sock -> Prop) s : wp m P s -> (forall x s', P x s' -> Q x s') -> wp m Q s.
Proof. unfold wp. destruct (m s) as [[x s']|]; auto. Qed.

(** Runs through the effects that cannot fail. *)
Ltac wp_step :=
    match goal with
    | |- wp (mbind _ _) _ _ => apply wp_bind
    | |- wp (mret _) _ _ => apply wp_ret
    | |- wp (gets _) _ _ => apply wp_gets
    | |- wp (get_in _) _ _ => apply wp_gets
    | |- wp (get_frag _) _ _ => apply wp_gets
    | |- wp (get_body _) _ _ => apply wp_gets
    | |- wp (modify _) _ _ => apply wp_modify
    | |- wp (upd _) _ _ => apply wp_modify
    | |- wp (upd_frag _) _ _ => apply wp_modify
    | |- wp (upd_body _) _ _ => apply wp_modify
    | |- wp (upd_vecs _) _ _ => apply wp_modify
    | |- wp (set_mem _) _ _ => apply wp_modify
    | |- wp (set_kern _) _ _ => apply wp_modify
    | |- wp (set_frag_len _) _ _ => apply wp_modify
    end.
Ltac wp_go := repeat (wp_step; cbn beta).

(** ** Memory *)

Definition holds_at (f : Z -> option Z) (o : Z) (d : list Z) : Prop := forall i, 0 <= i < zlen d -> f (o + i) = Some (byte d i).

Lemma overwrite_same f o d : holds_at (overwrite f o d) o d.
Proof.
  intros i Hi. unfold overwrite. destruct (Z.leb_spec o (o + i)), (Z.ltb_spec (o + i) (o + zlen d)); try lia. cbn. do 2 f_equal. lia.
Qed.

Lemma overwrite_other f o d i : ~ o <= i < o + zlen d -> overwrite f o d i = f i.
Proof. intros Hi. unfold overwrite. destruct (Z.leb_spec o i), (Z.ltb_spec i (o + zlen d)); try lia; reflexivity. Qed.

Lemma determined_some (d : list Z) : determined (map Some d) = Some d.
Proof. induction d as [|x d IH]; cbn; [reflexivity|]. rewrite IH. reflexivity. Qed.

Lemma raw_bytes f o (d : list Z) : holds_at f o d -> map (fun i => f (o + i)) (seqZ 0 (zlen d)) = map Some d.
Proof.
  intros H. apply list_eq. intros i. rewrite !list_lookup_fmap. destruct (Nat.lt_ge_cases i (length d)) as [Hi|Hi].
  - rewrite (lookup_seqZ_lt 0) by (unfold zlen; lia). destruct (lookup_lt_is_Some_2 d i Hi) as [x Hx]. rewrite Hx. cbn.
    rewrite Z.add_0_l, H by (unfold zlen; lia). f_equal. rewrite byte_lookup, Nat2Z.id, Hx by lia. reflexivity.
  - rewrite (lookup_seqZ_ge 0) by (unfold zlen; lia). rewrite lookup_ge_None_2 by lia. reflexivity.
Qed.

Definition has (s : sock) (b : Z) (bf : buffer) : Prop := heap (mem s) !! b = Some bf.

Definition put (b : Z) (bf : buffer) (s : sock) : sock :=
  mk_sock (inc s) (mk_memory (<[b := bf]> (heap (mem s))) (next_id (mem s))) (kern s).

Lemma wp_store b o d bf Q s :
  has s b bf -> 0 <= o -> o + zlen d <= b_size bf ->
  Q tt (put b (mk_buffer (b_size bf) (overwrite (b_data bf) o d)) s) -> wp (store (P b o) d) Q s.
Proof.
  intros Hb Ho Hd HQ. unfold store. wp_go. unfold has in Hb. rewrite Hb. unfold in_bounds. pose proof (zlen_nonneg d).
  rewrite !(proj2 (Z.leb_le _ _)) by lia. cbn [andb]. wp_go. exact HQ.
Qed.

Lemma wp_fetch_raw b o d bf Q s :
  has s b bf -> 0 <= o -> o + zlen d <= b_size bf -> holds_at (b_data bf) o d -> Q (map Some d) s -> wp (fetch_raw (P b o) (zlen d)) Q s.
Proof.
  intros Hb Ho Hd Hh HQ. unfold fetch_raw. wp_go. unfold has in Hb. rewrite Hb. unfold in_bounds. pose proof (zlen_nonneg d).
  rewrite !(proj2 (Z.leb_le _ _)) by lia. cbn [andb]. wp_go. rewrite raw_bytes by assumption. exact HQ.
Qed.

Lemma wp_fetch b o d bf Q s :
  has s b bf -> 0 <= o -> o + zlen d <= b_size bf -> holds_at (b_data bf) o d -> Q d s -> wp (fetch (P b o) (zlen d)) Q s.
Proof.
  intros Hb Ho Hd Hh HQ. unfold fetch. apply wp_bind. eapply wp_fetch_raw; eauto. rewrite determined_some. exact HQ.
Qed.

(** ** Parts of a message *)

Definition slice (l : list Z) (o n : Z) : list Z := ztake n (zdrop o l).

Lemma zlen_slice l o n : 0 <= o -> 0 <= n -> o + n <= zlen l -> zlen (slice l o n) = n.
Proof. intros. unfold slice. rewrite zlen_ztake, zlen_zdrop. lia. Qed.

Lemma byte_slice l o n i : 0 <= o -> 0 <= i < n -> byte (slice l o n) i = byte l (o + i).
Proof. intros. unfold slice. rewrite byte_ztake, (proj2 (Z.ltb_lt _ _)), byte_zdrop by lia. reflexivity. Qed.

Lemma zdrop_zdrop {A} (l : list A) o n : 0 <= o -> 0 <= n -> zdrop n (zdrop o l) = zdrop (o + n) l.
Proof. intros. unfold zdrop. rewrite drop_drop. f_equal. lia. Qed.

(** A part of the stream that is in the message. *)
Lemma take_stream m rest o d :
  0 <= o <= zlen m -> d = ztake (zlen d) (zdrop o m ++ rest) -> zlen d <= zlen m - o ->
  d = slice m o (zlen d) /\ zdrop (zlen d) (zdrop o m ++ rest) = zdrop (o + zlen d) m ++ rest.
Proof.
  intros Ho Hd Hl. pose proof (zlen_nonneg d). assert (Hlen : (Z.to_nat (zlen d) <= length (zdrop o m))%nat).
  { assert (zlen (zdrop o m) = zlen m - o) as E by (rewrite zlen_zdrop; lia). unfold zlen in *. lia. }
  split; [rewrite Hd at 1; unfold ztake, slice; rewrite take_app_le by lia; reflexivity|].
  rewrite <- zdrop_zdrop by lia. unfold zdrop at 1 3. rewrite drop_app_le by lia. reflexivity.
Qed.

(** ** A message that is being read *)

(** Where its bytes go: into the buffer of the record, with or without a buffer [pb]
    of [n] bytes that waits for the payload; from [h] on into the buffer [pb]. *)
Inductive dest := D_record | D_waiting (pb n : Z) | D_payload (pb h : Z).

Lemma set_ra_id i : set_ra (in_ra i) i = i.
Proof. destruct i. reflexivity. Qed.

Lemma set_vecs_id i : set_vecs (in_vecs i) i = i.
Proof. destruct i. reflexivity. Qed.

Section message.
Context (m rest : list Z) (b : Z).

Definition cur (d : dest) (k : Z) : ptr := match d with D_payload pb h => P pb (k - h) | _ => P b k end.

(** How much of it is in the buffer of the record. *)
Definition in_record (d : dest) (k : Z) : Z := match d with D_payload _ h => h | _ => k end.

Definition ra_started (k : Z) (a : readahead) : Prop :=
  ra_max a = Z.min (zlen m) GF_SOCKET_RA_MAX /\ ra_buf a = P b 0 /\ ra_served a = Z.min k (ra_max a) /\
  0 <= ra_read a <= ra_max a /\ (k <= ra_read a \/ ra_read a = ra_max a).

Definition ra_fresh (k : Z) (s : sock) : Prop :=
  let a := in_ra (inc s) in ra_max a = 0 /\ ra_read a = 0 /\ ra_served a = 0 /\ k = 0 /\ fragcurrent (in_frag (inc s)) = P b 0.

Definition in_payload (s : sock) (k pb h : Z) : Prop :=
  pb <> b /\ 0 <= h <= k /\ exists pf, has s pb pf /\ zlen m - h <= b_size pf /\ forall i, h <= i < k -> b_data pf (i - h) = Some (byte m i).

Definition waits (s : sock) (pb n : Z) : Prop := pb <> b /\ exists pf, has s pb pf /\ b_size pf = n.

(** The memory when [k] bytes have been read and [r] bytes read ahead. *)
Record mem_ok (d : dest) (k r : Z) (s : sock) : Prop := {
  mo_main : exists bf, has s b bf /\ b_size bf = zlen m + 4 /\
    forall i, 0 <= i < Z.max (in_record d k) r -> b_data bf i = Some (byte m i);
  mo_dest : match d with D_record => True | D_waiting pb n => waits s pb n | D_payload pb h => in_payload s k pb h end
}.

Record core (d : dest) (k : Z) (s : sock) : Prop := {
  c_pos : 0 <= k <= zlen m;
  c_state : record_state (inc s) = SP_STATE_READING_FRAG;
  c_size : fragsize (inc s) = zlen m;
  c_mem : mem_ok d k (ra_read (in_ra (inc s))) s;
  c_ra : ra_started k (in_ra (inc s)) \/ ra_fresh k s;
  c_stream : stream (kern s) = zdrop (Z.max k (ra_read (in_ra (inc s)))) m ++ rest
}.

(** What a read changes: the buffers, the read-ahead and the kernel. *)
Definition only_ra (s s' : sock) : Prop :=
  (exists a, inc s' = set_ra a (inc s)) /\ next_id (mem s') = next_id (mem s) /\
  (length (sched (kern s')) <= length (sched (kern s)))%nat.

(** ** The kernel *)

(** A read has failed, and that is what [errno] tells. *)
Definition broken (s : sock) : Prop := closed (kern s) = true /\ errno_again (kern s) = false.

(** The last read would have blocked. *)
Definition blocked (s : sock) : Prop := errno_again (kern s) = true.

Lemma wp_sys_readv n Q s :
  0 < n ->
  (forall a sc er cl, let s' := mk_sock (inc s) (mem s) (mk_kernel (stream (kern s)) sc er cl) in
     (a = A_eof \/ a = A_fail -> broken s') -> (a = A_again -> blocked s') ->
     (a = A_again \/ (length sc < length (sched (kern s)))%nat /\ (a = A_intr \/ a = A_eof \/ a = A_fail)) ->
     (length sc <= length (sched (kern s)))%nat -> Q a s') ->
  (forall d sc er cl, let s' := mk_sock (inc s) (mem s) (mk_kernel (zdrop (zlen d) (stream (kern s))) sc er cl) in
     d = ztake (zlen d) (stream (kern s)) -> 0 < zlen d <= n -> (length sc < length (sched (kern s)))%nat -> Q (A_got d) s') ->
  wp (sys_readv n) Q s.
Proof.
  intros Hn H1 H2. unfold sys_readv. wp_go. destruct (sched (kern s)) as [|[j| | | |] l] eqn:Hs; wp_go.
  1, 3: apply H1; [intros [[=]|[=]]|reflexivity|left; reflexivity|cbn [length]; lia].
  2: apply H1; [intros [[=]|[=]]|discriminate|right; split; [cbn [length]; lia|auto]|cbn [length]; lia].
  2, 3: apply H1; [intros _; split; reflexivity|discriminate|right; split; [cbn [length]; lia|auto]|cbn [length]; lia].
  destruct (stream (kern s)) as [|x st] eqn:Hst; wp_go; [apply H1; [intros [[=]|[=]]|reflexivity|left; reflexivity|cbn [length]; lia]|].
  apply H2; cbn [length]; try lia.
  - unfold ztake, zlen. rewrite length_take, Nat2Z.id. set (N := Z.to_nat _). set (l0 := x :: st).
    destruct (Nat.le_ge_cases N (length l0)); [f_equal; lia|rewrite !take_ge by lia; reflexivity].
  - rewrite zlen_ztake. unfold zlen. cbn [length]. lia.
Qed.

Lemma mem_ok_same d k r s s' : mem s' = mem s -> mem_ok d k r s -> mem_ok d k r s'.
Proof. intros E [H1 H2]. split; unfold in_payload, waits, has in *; rewrite E; assumption. Qed.

(** ** Storing what is read *)

Definition same_but_data (s s' : sock) : Prop := inc s' = inc s /\ kern s' = kern s /\ next_id (mem s') = next_id (mem s).

Lemma in_record_overwrite d k r n bf :
  d = D_record \/ (exists pb z, d = D_waiting pb z) -> 0 <= k -> 0 <= n -> k + n <= zlen m ->
  (forall i, 0 <= i < Z.max (in_record d k) r -> b_data bf i = Some (byte m i)) ->
  forall i, 0 <= i < Z.max (in_record d (k + n)) r -> overwrite (b_data bf) k (slice m k n) i = Some (byte m i).
Proof.
  intros Hd Hk Hn Hkn Hc i Hi. pose proof (zlen_slice m k n Hk Hn Hkn) as Hl.
  assert (E : in_record d k = k /\ in_record d (k + n) = k + n) by (destruct Hd as [-> | (pb & z & ->)]; split; reflexivity). destruct E as [E1 E2].
  destruct (decide (k <= i < k + n)); [|rewrite overwrite_other by lia; apply Hc; lia].
  pose proof (overwrite_same (b_data bf) k (slice m k n) (i - k) ltac:(lia)) as E. replace (k + (i - k)) with i in E by lia.
  rewrite E, byte_slice by lia. do 2 f_equal. lia.
Qed.

Lemma wp_store_next d k r n Q s :
  mem_ok d k r s -> 0 <= k -> 0 <= n -> k + n <= zlen m -> (forall s', mem_ok d (k + n) r s' -> same_but_data s s' -> Q tt s') ->
  wp (store (cur d k) (slice m k n)) Q s.
Proof.
  intros [(bf & Hb & Hsz & Hc) Hd] Hk Hn Hkn HQ. pose proof (zlen_slice m k n Hk Hn Hkn) as Hl. destruct d as [|pb z|pb h]; cbn [cur in_record] in *.
  - eapply wp_store; [exact Hb|lia|lia|]. apply HQ; [|repeat split]. split; [|exact I].
    eexists. split; [apply lookup_insert_eq|]. split; [exact Hsz|]. cbn [b_data]. eapply in_record_overwrite; eauto.
  - eapply wp_store; [exact Hb|lia|lia|]. apply HQ; [|repeat split]. split.
    + eexists. split; [apply lookup_insert_eq|]. split; [exact Hsz|]. cbn [b_data]. eapply in_record_overwrite; eauto.
    + destruct Hd as (Hne & pf & Hp & Hz). split; [exact Hne|]. exists pf. split; [|exact Hz]. unfold has, put. cbn. rewrite lookup_insert_ne by auto. exact Hp.
  - destruct Hd as (Hne & Hh & pf & Hp & Hps & Hpc). eapply wp_store; [exact Hp|lia|lia|]. apply HQ; [|repeat split].
    split; [exists bf; split; [|auto]|].
    + unfold has, put. cbn. rewrite lookup_insert_ne by auto. exact Hb.
    + split; [exact Hne|]. split; [lia|]. eexists. split; [apply lookup_insert_eq|]. split; [exact Hps|]. cbn [b_data]. intros i Hi.
      destruct (Z_lt_le_dec i k); [rewrite overwrite_other by lia; apply Hpc; lia|].
      pose proof (overwrite_same (b_data pf) (k - h) (slice m k n) (i - k) ltac:(lia)) as E. replace (k - h + (i - k)) with (i - h) in E by lia.
      rewrite E, byte_slice by lia. do 2 f_equal. lia.
Qed.

Lemma wp_store_ahead d k r n Q s :
  mem_ok d k r s -> 0 <= r -> 0 <= n -> r + n <= zlen m -> in_record d k <= r -> (forall s', mem_ok d k (r + n) s' -> same_but_data s s' -> Q tt s') ->
  wp (store (P b r) (slice m r n)) Q s.
Proof.
  intros [(bf & Hb & Hsz & Hc) Hd] Hr Hn Hrn Hin HQ. pose proof (zlen_slice m r n Hr Hn Hrn) as Hl.
  eapply wp_store; [exact Hb|lia|lia|]. apply HQ; [|repeat split]. split.
  - eexists. split; [apply lookup_insert_eq|]. split; [exact Hsz|]. cbn [b_data]. intros i Hi.
    destruct (decide (r <= i < r + n)); [|rewrite overwrite_other by lia; apply Hc; lia].
    pose proof (overwrite_same (b_data bf) r (slice m r n) (i - r) ltac:(lia)) as E. replace (r + (i - r)) with i in E by lia.
    rewrite E, byte_slice by lia. do 2 f_equal. lia.
  - destruct d as [|pb z|pb h]; [exact I| |].
    + destruct Hd as (Hne & pf & Hp & Hz). split; [exact Hne|]. exists pf. split; [|exact Hz].
      unfold has, put. cbn. rewrite lookup_insert_ne by auto. exact Hp.
    + destruct Hd as (Hne & Hh & pf & Hp & Hps). split; [exact Hne|]. split; [exact Hh|].
      exists pf. split; [|exact Hps]. unfold has, put. cbn. rewrite lookup_insert_ne by auto. exact Hp.
Qed.

Lemma wp_fetch_record d k r o n Q s :
  mem_ok d k r s -> 0 <= o -> 0 <= n -> o + n <= Z.max (in_record d k) r -> o + n <= zlen m -> Q (slice m o n) s -> wp (fetch (P b o) n) Q s.
Proof.
  intros [(bf & Hb & Hsz & Hc) _] Ho Hn Hin Hon HQ. rewrite <- (zlen_slice m o n Ho Hn Hon) at 1.
  eapply wp_fetch; [exact Hb|lia|rewrite zlen_slice; lia| |exact HQ].
  intros i Hi. rewrite zlen_slice in Hi by lia. rewrite Hc, byte_slice by lia. reflexivity.
Qed.

(** ** The read-ahead *)

Definition missed (r : rd) : Prop := r = R_again \/ r = R_intr \/ r = R_eof \/ r = R_fail.

(** A read of the kernel that gives nothing. *)
Definition nothing (s s' : sock) (r : rd) : Prop :=
  inc s' = inc s /\ mem s' = mem s /\ stream (kern s') = stream (kern s) /\
  (length (sched (kern s')) <= length (sched (kern s)))%nat /\ (r = R_intr -> length (sched (kern s')) < length (sched (kern s)))%nat /\ (r = R_eof \/ r = R_fail -> broken s') /\ (r = R_again -> blocked s').

Definition something (s s' : sock) : Prop :=
  inc s' = inc s /\ next_id (mem s') = next_id (mem s) /\ (length (sched (kern s')) < length (sched (kern s)))%nat.

Lemma wp_ssl_readv p o n (X : Z -> sock -> Prop) Q s :
  0 <= o -> 0 < n -> o + n <= zlen m -> stream (kern s) = zdrop o m ++ rest ->
  (forall j s0 (R : unit -> sock -> Prop), inc s0 = inc s -> mem s0 = mem s -> 0 < j <= n ->
     (forall s', X j s' -> same_but_data s0 s' -> R tt s') -> wp (store p (slice m o j)) R s0) ->
  (forall r s', missed r -> nothing s s' r -> Q r s') ->
  (forall j s', 0 < j <= n -> X j s' -> something s s' -> stream (kern s') = zdrop (o + j) m ++ rest -> Q (R_got j) s') ->
  wp (__socket_ssl_readv (mk_iovec p n)) Q s.
Proof.
  intros Ho Hn Hon Hst Hstore H1 H2. unfold __socket_ssl_readv. apply wp_bind. cbn [iov_len iov_base]. apply wp_sys_readv; [assumption| |].
  - intros a sc er cl s' Hbr Hbl Ha Hsc.
    assert (N : forall r, (r = R_intr -> a = A_intr) -> (r = R_eof \/ r = R_fail -> a = A_eof \/ a = A_fail) -> (r = R_again -> a = A_again) -> nothing s s' r).
    { intros r Hr Hr' Hr2. split; [reflexivity|]. split; [reflexivity|]. split; [reflexivity|]. split; [exact Hsc|]. split; [|split; auto].
      intros E. specialize (Hr E). subst a. destruct Ha as [[=]|[Ha _]]. exact Ha. }
    destruct Ha as [-> | [_ [-> | [-> | ->]]]]; wp_go; apply H1; unfold missed; auto; apply N; try congruence; try (intros [? | ?]; try congruence; auto).
  - intros d sc er cl s' Hd Hl Hsc. rewrite Hst in Hd. destruct (take_stream m rest o d) as [E1 E2]; [lia|exact Hd|lia|].
    rewrite E1. apply wp_bind. apply Hstore; [reflexivity|reflexivity|lia|]. intros s2 HX (I2 & K2 & N2). wp_go.
    rewrite zlen_slice by lia. apply H2; [lia|exact HX| |].
    + repeat split; [rewrite I2; reflexivity|rewrite N2; reflexivity|rewrite K2; exact Hsc].
    + rewrite K2. unfold s'. cbn [stream kern]. rewrite Hst. exact E2.
Qed.

Definition measure (s : sock) : nat :=
  2 * length (sched (kern s)) + (if ra_served (in_ra (inc s)) <? ra_read (in_ra (inc s)) then 1 else 0).

Definition read_post (d : dest) (k n : Z) (s : sock) (r : rd) (s' : sock) : Prop :=
  only_ra s s' /\
  match r with
  | R_got j => 0 < j <= n /\ core d (k + j) s' /\ (j < n -> (measure s' < measure s)%nat)
  | R_again => core d k s' /\ stream (kern s') = zdrop k m ++ rest /\ blocked s'
  | R_intr => core d k s' /\ (measure s' < measure s)%nat
  | _ => broken s'
  end.

Definition serve (v : iovec) (a : readahead) : M rd :=
  let n := Z.min (iov_len v) (ra_read a - ra_served a) in
  dd ← fetch (padd (ra_buf a) (ra_served a)) n;
  store (iov_base v) dd ;;
  upd (fun i => let a := in_ra i in set_ra (mk_ra (ra_read a) (ra_max a) (ra_served a + n) (ra_buf a)) i) ;;
  mret (R_got n).

(** Serving from the read-ahead. *)
Lemma serve_spec d k n s :
  core d k s -> ra_started k (in_ra (inc s)) -> 0 < n -> k + n <= zlen m -> ra_served (in_ra (inc s)) < ra_read (in_ra (inc s)) ->
  wp (serve (mk_iovec (cur d k) n) (in_ra (inc s))) (fun r s' => read_post d k n s r s' /\ exists j, r = R_got j) s.
Proof.
  intros C (Hmax & Hbuf & Hsv & Hr & Hkr) Hn Hkn Hlt. destruct C. unfold serve. cbn [iov_len iov_base].
  set (a := in_ra (inc s)) in *. rewrite Hbuf. cbn [padd]. rewrite Z.add_0_l.
  assert (Hs : ra_served a = k) by lia. rewrite Hs. set (j := Z.min n (ra_read a - k)). assert (Hj : 0 < j <= n) by lia.
  apply wp_bind. eapply wp_fetch_record; [exact c_mem0|lia|lia|lia|lia|]. apply wp_bind. eapply wp_store_next; [exact c_mem0|lia|lia|lia|].
  intros s' M (I & K & N). wp_go. rewrite I. fold a. split; [|eauto]. split.
  - split; [|split; [exact N|cbn; rewrite K; lia]]. exists (mk_ra (ra_read a) (ra_max a) (ra_served a + j) (ra_buf a)). reflexivity.
  - split; [exact Hj|]. split.
    + split; cbn; rewrite ?K; auto; [lia|destruct M; split; auto| |].
      * left. repeat split; cbn; auto; lia.
      * rewrite c_stream0. f_equal. f_equal. fold a. lia.
    + intros Hjn. unfold measure. cbn. rewrite K. fold a.
      rewrite (proj2 (Z.ltb_lt _ _) Hlt), (proj2 (Z.ltb_ge _ _)) by lia. lia.
Qed.

Lemma only_ra_trans s1 s2 s3 : only_ra s1 s2 -> only_ra s2 s3 -> only_ra s1 s3.
Proof.
  intros ([a Ha] & Hn & Hl) ([a' Ha'] & Hn' & Hl'). split; [exists a'; rewrite Ha', Ha; reflexivity|]. split; [congruence|lia].
Qed.

Lemma only_ra_nothing s s' r : nothing s s' r -> only_ra s s'.
Proof.
  intros (I & Mm & K & L & _). split; [exists (in_ra (inc s)); rewrite I, set_ra_id; reflexivity|]. rewrite Mm. auto.
Qed.

Lemma core_nothing d k s s' r : core d k s -> nothing s s' r -> core d k s'.
Proof.
  intros C (I & Mm & K & _). destruct C. split; rewrite ?I, ?K; auto.
  - eapply mem_ok_same; eassumption.
  - destruct c_ra0 as [H|H]; [left; assumption|right]. unfold ra_fresh in *. rewrite I. exact H.
Qed.

(** Reading past the read-ahead. *)
Lemma read_direct_spec d k n s :
  core d k s -> ra_started k (in_ra (inc s)) -> 0 < n -> k + n <= zlen m -> ra_read (in_ra (inc s)) = ra_max (in_ra (inc s)) ->
  ra_read (in_ra (inc s)) <= ra_served (in_ra (inc s)) ->
  wp (__socket_ssl_readv (mk_iovec (cur d k) n)) (read_post d k n s) s.
Proof.
  intros C (Hmax & Hbuf & Hsv & Hr & Hkr) Hn Hkn Hfull Hall. pose proof (c_pos _ _ _ C) as Hk. pose proof (c_stream _ _ _ C) as Hst.
  rewrite Z.max_l in Hst by lia.
  apply (wp_ssl_readv _ k n (fun j s' => mem_ok d (k + j) (ra_read (in_ra (inc s))) s')); auto; [lia| | |].
  - intros j s0 R I Mm Hj HX. apply (wp_store_next d k (ra_read (in_ra (inc s)))); auto; [|lia|lia|lia].
    eapply mem_ok_same; [exact Mm|apply C].
  - intros r s' Hr' N. split; [eapply only_ra_nothing, N|]. pose proof (core_nothing _ _ _ _ _ C N) as C'. destruct N as (I & Mm & K & L & Li & Lb & Lk).
    destruct Hr' as [-> | [-> | [-> | ->]]]; auto; [split; [exact C'|split; [congruence|auto]]|]. split; [exact C'|]. unfold measure. rewrite I. specialize (Li eq_refl). lia.
  - intros j s' Hj HX (I & N & L) Hst'. split; [split; [exists (in_ra (inc s)); rewrite I, set_ra_id; reflexivity|split; [exact N|lia]]|].
    split; [exact Hj|]. split; [|intros _; unfold measure; rewrite I; lia]. destruct C. split; rewrite ?I; auto; [lia| |].
    + left. repeat split; auto; lia.
    + rewrite Hst'. f_equal. f_equal. lia.
Qed.

(** The state after some bytes were read ahead. *)
Lemma read_ahead_core d k j s s' :
  core d k s -> ra_started k (in_ra (inc s)) -> k <= ra_read (in_ra (inc s)) -> 0 < j -> ra_read (in_ra (inc s)) + j <= ra_max (in_ra (inc s)) ->
  mem_ok d k (ra_read (in_ra (inc s)) + j) s' -> inc s' = inc s -> stream (kern s') = zdrop (ra_read (in_ra (inc s)) + j) m ++ rest ->
  let a := in_ra (inc s) in
  let s2 := mk_sock (set_ra (mk_ra (ra_read a + j) (ra_max a) (ra_served a) (ra_buf a)) (inc s')) (mem s') (kern s') in
  core d k s2 /\ ra_started k (in_ra (inc s2)).
Proof.
  intros C (Hmax & Hbuf & Hsv & Hr & Hkr) Hkr' Hj Hjm Mm I Hst a s2. assert (S2 : ra_started k (in_ra (inc s2))).
  { unfold s2, a. cbn. repeat split; cbn; auto; lia. }
  split; [|exact S2]. destruct C. split; unfold s2; cbn; rewrite ?I; auto.
  - destruct Mm as [H1 H2]. split; assumption.
  - unfold a. rewrite Hst. f_equal. f_equal. lia.
Qed.

Lemma serve_cached_spec d k n s :
  core d k s -> ra_started k (in_ra (inc s)) -> 0 < n -> k + n <= zlen m ->
  wp (serve_cached (mk_iovec (cur d k) n)) (read_post d k n s) s.
Proof.
  intros C St Hn Hkn. pose proof (c_pos _ _ _ C) as Hk. pose proof St as (Hmax & Hbuf & Hsv & Hr & Hkr).
  unfold serve_cached. apply wp_bind. wp_go. set (a := in_ra (inc s)) in *.
  destruct (Z.ltb_spec (ra_read a) (ra_max a)) as [Hlt|Hge].
  2:{ wp_go. fold a. destruct (Z.ltb_spec (ra_served a) (ra_read a)) as [Hs|Hs].
    - eapply wp_mono; [apply (serve_spec d k n s C St Hn Hkn Hs)|]. intros r s' [H _]. exact H.
    - rewrite (proj2 (Z.ltb_ge _ _)) by lia. apply read_direct_spec; auto; fold a; lia. }
  assert (Hk' : k <= ra_read a) by lia. apply wp_bind. rewrite Hbuf. cbn [padd]. rewrite Z.add_0_l.
  assert (Hst : stream (kern s) = zdrop (ra_read a) m ++ rest) by (rewrite (c_stream _ _ _ C), Z.max_r by (fold a; lia); reflexivity).
  assert (Hml : ra_max a <= zlen m) by lia.
  assert (Hin : in_record d k <= ra_read a).
  { pose proof (mo_dest _ _ _ _ (c_mem _ _ _ C)) as Hd. destruct d as [|pb z|pb h]; cbn; [lia|lia|destruct Hd as (_ & ? & _); lia]. }
  apply (wp_ssl_readv _ (ra_read a) (ra_max a - ra_read a) (fun j s' => mem_ok d k (ra_read a + j) s')); auto; [lia|lia|lia| | |].
  - intros j s0 R I Mm Hj HX. apply (wp_store_ahead d k (ra_read a)); auto; [|lia|lia|lia].
    eapply mem_ok_same; [exact Mm|apply C].
  - intros r s' Hr' N. pose proof (core_nothing _ _ _ _ _ C N) as C'. pose proof (only_ra_nothing _ _ _ N) as O1. destruct N as (I & Mm & K & L & Li & Lb & Lk).
    apply wp_bind. assert (E : forall Q : unit -> sock -> Prop, Q tt s' ->
      wp (match r with R_got n => upd (fun i => set_ra (mk_ra (ra_read (in_ra i) + n) (ra_max (in_ra i)) (ra_served (in_ra i)) (ra_buf (in_ra i))) i) | _ => mret tt end) Q s').
    { intros Q HQ. destruct Hr' as [-> | [-> | [-> | ->]]]; exact HQ. }
    apply E. wp_go. rewrite I. fold a. destruct (Z.ltb_spec (ra_served a) (ra_read a)) as [Hs|Hs].
    + pose proof (serve_spec d k n s' C') as Sv. rewrite I in Sv. fold a in Sv. eapply wp_mono; [apply Sv; auto|]. intros r' s2 [[O2 P2] [j ->]]. split; [eapply only_ra_trans; eauto|].
      destruct P2 as (Hj & C2 & Hms). split; [exact Hj|]. split; [exact C2|]. intros Hjn. specialize (Hms Hjn). unfold measure in *. rewrite I in Hms. lia.
    + rewrite (proj2 (Z.ltb_lt _ _) Hlt). wp_go. split; [exact O1|].
      destruct Hr' as [-> | [-> | [-> | ->]]]; auto; [split; [exact C'|split; [rewrite K, Hst; do 2 f_equal; lia|auto]]|].
      split; [exact C'|]. unfold measure. rewrite I. specialize (Li eq_refl). lia.
  - intros j s' Hj Mm (I & N & L) Hst'. apply wp_bind. wp_go. rewrite I. fold a.
    destruct (read_ahead_core d k j s s') as [C2 St2]; auto; [lia|fold a; lia|]. fold a in C2, St2. rewrite I in C2, St2.
    set (s2 := mk_sock _ _ _) in *.
    assert (Hlt2 : ra_served (in_ra (inc s2)) < ra_read (in_ra (inc s2))) by (unfold s2; cbn; lia). rewrite (proj2 (Z.ltb_lt _ _) Hlt2).
    eapply wp_mono; [apply (serve_spec d k n s2 C2 St2 Hn Hkn Hlt2)|]. intros r' s3 [[O3 P3] [j' ->]].
    assert (O2 : only_ra s s2).
    { split; [eexists; reflexivity|]. split; [exact N|unfold s2; cbn; lia]. }
    split; [eapply only_ra_trans; eauto|]. destruct P3 as (Hj' & C3 & Hms). split; [exact Hj'|]. split; [exact C3|].
    intros Hjn. specialize (Hms Hjn). unfold measure in *. unfold s2 in Hms. cbn in Hms. fold a.
    destruct (_ <? ra_read a + j), (ra_served a <? ra_read a); lia.
Qed.

Lemma cached_read_spec d k n s :
  core d k s -> 0 < n -> k + n <= zlen m -> wp (__socket_cached_read (mk_iovec (cur d k) n)) (read_post d k n s) s.
Proof.
  intros C Hn Hkn. pose proof (c_pos _ _ _ C) as Hk. unfold __socket_cached_read. wp_go. rewrite (c_state _ _ _ C).
  apply wp_bind. wp_go. destruct (c_ra _ _ _ C) as [St|(Hmax & Hrd & Hsv & Hk0 & Hcur)].
  - pose proof St as (Hmax & _). rewrite (proj2 (Z.eqb_neq (ra_max (in_ra (inc s))) 0)) by (unfold GF_SOCKET_RA_MAX in *; lia).
    destruct s. apply serve_cached_spec; assumption.
  - rewrite Hmax, Hrd, Hsv, Hcur, (c_size _ _ _ C). cbn [Z.eqb]. set (s1 := mk_sock _ _ _).
    assert (C1 : core d k s1 /\ ra_started k (in_ra (inc s1))).
    { assert (St : ra_started k (in_ra (inc s1))) by (repeat split; cbn; unfold GF_SOCKET_RA_MAX; try lia). split; [|exact St].
      destruct C. split; cbn; auto; [rewrite Hrd in c_mem0; exact (mem_ok_same d k 0 s s1 eq_refl c_mem0)|rewrite c_stream0, Hrd; reflexivity]. }
    eapply wp_mono; [apply serve_cached_spec; [apply C1|apply C1|assumption|assumption]|]. intros r s' [O P].
    assert (Hms : measure s1 = measure s) by (unfold measure; cbn; rewrite Hrd, Hsv; reflexivity).
    split; [|unfold read_post in P; rewrite Hms in P; exact P].
    eapply only_ra_trans; [|exact O]. split; [eexists; reflexivity|]. split; [reflexivity|cbn; lia].
Qed.

(** ** Reading up to a position *)

(** The pending vector asks for the bytes from [k] to [g]. *)
Definition aim (d : dest) (k g : Z) (v : vectors) : Prop := pending_vector v = V_frag /\ frag_vector v = mk_iovec (cur d k) (g - k).

(** Only the vectors and what a read changes. *)
Definition only_read (s s' : sock) : Prop :=
  (exists a v, inc s' = set_vecs v (set_ra a (inc s)) /\ in_vector v = in_vector (in_vecs (inc s))) /\ next_id (mem s') = next_id (mem s).

Definition readv_post (d : dest) (k g : Z) (s : sock) (rn : Z * Z) (s' : sock) : Prop :=
  let '(r, n) := rn in
  (r = 0 /\ k + n = g /\ core d g s' /\ only_read s s') \/
  (r = 1 /\ k <= k + n < g /\ core d (k + n) s' /\ aim d (k + n) g (in_vecs (inc s')) /\ stream (kern s') = zdrop (k + n) m ++ rest /\ blocked s' /\ only_read s s') \/
  (r = -1 /\ broken s').

Lemma core_vecs d k s v : core d k s -> core d k (mk_sock (set_vecs v (inc s)) (mem s) (kern s)).
Proof. intros C. destruct C. split; auto. destruct c_mem0. split; assumption. Qed.

Lemma padd_cur d k n : padd (cur d k) n = cur d (k + n).
Proof. destruct d; cbn; f_equal; lia. Qed.

Lemma readv_loop_spec d k g fuel bytes s :
  core d (k + bytes) s -> 0 <= bytes -> k + bytes <= g <= zlen m -> aim d (k + bytes) g (in_vecs (inc s)) -> (measure s + 2 <= fuel)%nat ->
  wp (readv_loop fuel bytes) (readv_post d k g s) s.
Proof.
  revert bytes s. induction fuel as [|fuel IH]; intros bytes s C Hb Hg [Hp Hv] Hf; [lia|]. cbn [readv_loop].
  unfold pending. wp_go. rewrite Hp. wp_go. rewrite Hv. cbn [iov_len].
  destruct (Z.eqb_spec (g - (k + bytes)) 0) as [Hz|Hz].
  { wp_go. left. split; [reflexivity|]. split; [lia|]. replace (k + bytes) with g in C by lia. split; [apply core_vecs, C|].
    split; [|reflexivity]. exists (in_ra (inc s)). eexists. rewrite set_ra_id. split; reflexivity. }
  apply wp_bind. eapply wp_mono; [apply cached_read_spec; [exact C|lia|lia]|]. intros r s1 [([a Ha] & Hn1 & Hl1) HP].
  assert (Hv1 : in_vecs (inc s1) = in_vecs (inc s)) by (rewrite Ha; reflexivity).
  assert (O1 : only_read s s1).
  { split; [|exact Hn1]. exists a, (in_vecs (inc s)). split; [rewrite Ha, <- (set_vecs_id (set_ra a (inc s))) at 1; reflexivity|reflexivity]. }
  destruct r as [j| | | |]; cbn [read_post] in HP; try (right; right; split; [reflexivity|exact HP]).
  - destruct HP as (Hj & C1 & Hms). destruct (Z.leb_spec (g - (k + bytes)) j) as [Hfull|Hpart].
    + wp_go. assert (Ej : j = g - (k + bytes)) by lia. left. split; [reflexivity|]. split; [lia|].
      replace (k + bytes + j) with g in C1 by lia. split; [apply core_vecs, C1|].
      split; [|exact Hn1]. exists a. eexists. split; [cbn; rewrite Ha; reflexivity|reflexivity].
    + apply wp_bind. wp_go. set (s2 := mk_sock _ _ _).
      assert (C2 : core d (k + (bytes + j)) s2) by (replace (k + (bytes + j)) with (k + bytes + j) by lia; apply core_vecs, C1).
      assert (A2 : aim d (k + (bytes + j)) g (in_vecs (inc s2))).
      { unfold s2. cbn. rewrite Hv1. unfold advance_vec. rewrite Hp, Hv. cbn. split; [reflexivity|]. cbn. rewrite padd_cur. f_equal; [f_equal|]; lia. }
      eapply wp_mono; [apply (IH (bytes + j) s2 C2); [lia|lia|exact A2|]|].
      { specialize (Hms Hpart). unfold measure, s2 in *. cbn. lia. }
      intros [r n] s3 HP3. assert (Tr : only_read s2 s3 -> only_read s s3).
      { intros ([a3 [v3 [H3 H4]]] & N3). split; [|rewrite N3; exact Hn1]. exists a3, v3. split; [rewrite H3; unfold s2; cbn; rewrite Ha; reflexivity|].
        rewrite H4. unfold s2. cbn. rewrite Hv1. unfold advance_vec. rewrite Hp. reflexivity. }
      unfold readv_post in *. intuition auto.
  - destruct HP as (C1 & Hst & Hbl). wp_go. right. left. split; [reflexivity|]. split; [lia|]. split; [exact C1|]. split; [|split; [exact Hst|split; [exact Hbl|exact O1]]].
    rewrite Hv1. split; assumption.
  - destruct HP as (C1 & Hms). eapply wp_mono; [apply (IH bytes s1 C1); [lia|lia|rewrite Hv1; split; assumption|lia]|].
    intros [r n] s3 HP3. assert (Tr : only_read s1 s3 -> only_read s s3).
    { intros ([a3 [v3 [H3 H4]]] & N3). split; [|rewrite N3; exact Hn1]. exists a3, v3. split; [rewrite H3, Ha; reflexivity|]. rewrite H4, Hv1. reflexivity. }
    unfold readv_post in *. intuition auto.
Qed.

Lemma socket_readv_spec d k g s :
  core d k s -> k <= g <= zlen m -> aim d k g (in_vecs (inc s)) -> wp __socket_readv (readv_post d k g s) s.
Proof.
  intros C Hg A. unfold __socket_readv. wp_go. apply (readv_loop_spec d k g _ 0 s); rewrite ?Z.add_0_r; auto; [lia|].
  unfold measure. destruct (_ <? _); lia.
Qed.
End message.
