(* ===== verification/SocketParse.v ===== *)
(** * RPC records: the states of a message

    The messages the transport can cut, and what each state of [Socket] does with
    them: it stops in a state from which the next call goes on, or ends with the
    message in its buffers. *)

From S2P Require Import Prelude Words Bytes Socket SocketRead.
From stdpp Require Import gmap.
Open Scope Z_scope.

(** ** Messages *)

Definition word (m : list Z) (o : Z) : Z := hton32 (load32 (byte m o) (byte m (o + 1)) (byte m (o + 2)) (byte m (o + 3))).

(** The ends of the credentials and of the verifier of a call, and the end of the
    header of an accepted reply. *)
Definition cred_end (m : list Z) : Z := 40 + word m 28.
Definition verf_end (m : list Z) : Z := cred_end m + word m (cred_end m - 4).
Definition accept_end (m : list Z) : Z := 24 + word m 16.

Definition sizer_of (e : rpc) (m : list Z) : option sizer :=
  if is_server e then program_vector_sizer e (word m 12) (word m 16) (word m 20) else None.

(** The header of a program ends at [h]: the sizer asks for parts of it and then
    for nothing, and is back in its first state. *)
Inductive walks (m : list Z) (sz : sizer) (base : Z) : Z -> Z -> Z -> Prop :=
| walks_end st cur : sz st (slice m base (cur - base)) = (0, 0) -> walks m sz base st cur cur
| walks_more st cur st' n h :
    sz st (slice m base (cur - base)) = (st', n) -> 0 < n -> cur + n <= zlen m -> walks m sz base st' (cur + n) h -> walks m sz base st cur h.

(** The end of the header of a READ reply. *)
Definition read_rsp_end (e : rpc) (m : list Z) : Z :=
  accept_end m + read_rsp_size e + roof4 (read_rsp_xdata_len e (slice m (accept_end m) (read_rsp_size e))).

(** The message is delivered whole, or as a header of [h] bytes and a payload. *)
Inductive well_formed (e : rpc) (m : list Z) : option Z -> option info -> Prop :=
| wf_call :
    32 <= zlen m -> word m 4 = CALL -> sizer_of e m = None -> well_formed e m None None
| wf_vectored_call sz st n h :
    32 <= zlen m -> word m 4 = CALL -> sizer_of e m = Some sz -> cred_end m <= zlen m -> verf_end m <= zlen m ->
    sz 0 [] = (st, n) -> 0 <= n -> verf_end m + n <= zlen m -> walks m sz (verf_end m) st (verf_end m + n) h ->
    well_formed e m (Some h) None
| wf_reply x :
    8 <= zlen m -> word m 4 = REPLY -> map_xid e (word m 0) = Some x -> is_fop_read x = false -> well_formed e m None (Some x)
| wf_read_reply x :
    20 <= zlen m -> word m 4 = REPLY -> map_xid e (word m 0) = Some x -> is_fop_read x = true ->
    word m 8 = MSG_ACCEPTED -> accept_end m <= zlen m -> word m (accept_end m - 4) = SUCCESS ->
    0 <= read_rsp_size e -> 0 <= read_rsp_xdata_len e (slice m (accept_end m) (read_rsp_size e)) -> read_rsp_end e m <= zlen m ->
    (forall n, rsp_payload x = Some n -> zlen m - read_rsp_end e m <= n) ->
    well_formed e m (Some (read_rsp_end e m)) (Some x).

Lemma word_range m o : 0 <= word m o < 2 ^ 32.
Proof. apply hton32_range. Qed.

Lemma slice4 m o : 0 <= o -> o + 4 <= zlen m -> slice m o 4 = [byte m o; byte m (o + 1); byte m (o + 2); byte m (o + 3)].
Proof.
  intros Ho Hl. apply byte_ext; [rewrite zlen_slice by lia; reflexivity|]. rewrite zlen_slice by lia. intros p Hp. rewrite byte_slice by lia.
  assert (p = 0 \/ p = 1 \/ p = 2 \/ p = 3) as [-> | [-> | [-> | ->]]] by lia; rewrite ?Z.add_0_r; reflexivity.
Qed.

(** ** Positions *)

(** What the states are made of besides the position. *)
Record control := mk_control {
  k_state : sp_rpcfrag_state;
  k_simple : sp_rpcfrag_simple_msg_state;
  k_body : body;
  k_type : Z;
  k_proghdr : ptr;
  k_base : ptr;
  k_len : option Z;
  k_info : option info
}.

Definition ctl (s : sock) : control :=
  let i := inc s in
  mk_control (frag_state (in_frag i)) (simple_state (in_frag i)) (call_body (in_frag i)) (msg_type i) (proghdr_base_addr i)
    (payload_base i) (payload_len i) (request_info i).

Definition with_simple v c := mk_control (k_state c) v (k_body c) (k_type c) (k_proghdr c) (k_base c) (k_len c) (k_info c).
Definition with_body v c := mk_control (k_state c) (k_simple c) v (k_type c) (k_proghdr c) (k_base c) (k_len c) (k_info c).

Lemma with_simple_id v w c : k_simple c = v -> with_simple v (with_simple w c) = c.
Proof. destruct c. intros <-. reflexivity. Qed.

(** Where the reader is; the updates of states keep it. *)
Definition position (i : incoming) :=
  (record_state i, fraghdr i, in_ra i, iobuf i, total_bytes_read i, fragcurrent (in_frag i), bytes_read (in_frag i)).
Definition wanted (i : incoming) := (in_vecs i, remaining_size (in_frag i)).

Section message.
Context (m rest : list Z) (b : Z).
Context (Hm : 8 <= zlen m < 2 ^ 30).

Abbreviation core := (SocketRead.core m rest b).
Abbreviation cur := (SocketRead.cur b).
Abbreviation aim := (SocketRead.aim b).

Record reading (d : dest) (k : Z) (s : sock) : Prop := {
  rd_core : core d k s;
  rd_bytes : bytes_read (in_frag (inc s)) = k;
  rd_cur : fragcurrent (in_frag (inc s)) = cur d k;
  rd_iobuf : iobuf (inc s) = Some b;
  rd_total : total_bytes_read (inc s) = zlen m;
  rd_last : lastfrag (inc s) = true;
  rd_next : b < next_id (mem s)
}.

Record waiting (d : dest) (k g : Z) (s : sock) : Prop := {
  wt_reading : reading d k s;
  wt_aim : aim d k g (in_vecs (inc s));
  wt_rest : remaining_size (in_frag (inc s)) = 0
}.

Lemma left_spec d k s : reading d k s -> left_in_frag (inc s) = zlen m - k.
Proof.
  intros [C Hb _ _ _ _ _]. unfold left_in_frag. destruct C. rewrite c_size, Hb. apply u32_id. lia.
Qed.

Lemma reading_upd d k s i : reading d k s -> position i = position (inc s) -> reading d k (mk_sock i (mem s) (kern s)).
Proof.
  intros [C Hb Hc Hi Ht Hl Hn] [= P1 P2 P3 P4 P5 P6 P7]. split; cbn; try congruence.
  - destruct C. split; cbn; try congruence; unfold fragsize, hdr in *; rewrite ?P2, ?P3 in *; auto.
    + destruct c_mem. split; assumption.
    + destruct c_ra as [H|H]; [left; exact H|right]. unfold ra_fresh in *. cbn. rewrite P3, P6. exact H.
  - unfold lastfrag, hdr in *. rewrite P2. exact Hl.
Qed.

Lemma waiting_upd d k g s i :
  waiting d k g s -> position i = position (inc s) -> wanted i = wanted (inc s) -> waiting d k g (mk_sock i (mem s) (kern s)).
Proof. intros [R A W] P [= W1 W2]. split; cbn; [apply reading_upd; assumption|rewrite W1; exact A|congruence]. Qed.

(** ** The macros *)

Lemma init_pending_spec d k n s (Q : unit -> sock -> Prop) :
  reading d k s -> 0 <= n -> k + n <= zlen m ->
  (forall s', waiting d k (k + n) s' -> ctl s' = ctl s -> Q tt s') -> wp (__socket_proto_init_pending n) Q s.
Proof.
  intros R Hn Hk HQ. unfold __socket_proto_init_pending, __socket_proto_reset_pending. wp_go. rewrite (left_spec _ _ _ R), (rd_cur _ _ _ R).
  pose proof (c_pos _ _ _ _ _ _ (rd_core _ _ _ R)) as Hp.
  assert (E : (if n <? zlen m - k then n else zlen m - k) = n) by (destruct (Z.ltb_spec n (zlen m - k)); lia). rewrite E.
  apply HQ; [|reflexivity]. rewrite Z.sub_diag. split; cbn; [apply (reading_upd d k s _ R); reflexivity| |reflexivity].
  split; cbn; [reflexivity|]. f_equal. lia.
Qed.

Lemma only_read_reading d k n s s' (R : reading d k s) :
  0 <= n -> core d (k + n) s' -> only_read s s' ->
  let f f0 := set_bytes (u32 (bytes_read f0 + n)) (set_current (padd (fragcurrent f0) n) f0) in
  let s2 := mk_sock (set_frag (f (in_frag (inc s'))) (inc s')) (mem s') (kern s') in
  reading d (k + n) s2 /\ ctl s2 = ctl s /\ in_vecs (inc s2) = in_vecs (inc s') /\ remaining_size (in_frag (inc s2)) = remaining_size (in_frag (inc s)).
Proof.
  intros Hn0 C ([a [v [Hi Hv]]] & Hn) f s2. pose proof (c_pos _ _ _ _ _ _ C) as Hp.
  assert (Eb : u32 (bytes_read (in_frag (inc s')) + n) = k + n).
  { rewrite Hi. cbn. rewrite (rd_bytes _ _ _ R). apply u32_id. lia. }
  assert (Ec : padd (fragcurrent (in_frag (inc s'))) n = cur d (k + n)).
  { rewrite Hi. cbn. rewrite (rd_cur _ _ _ R). apply padd_cur. }
  split; [|unfold s2, ctl; rewrite Hi; cbn; auto].
  split; unfold s2; cbn; auto; try (rewrite Hi; cbn; apply R).
  - destruct C. split; cbn; auto; [destruct c_mem; split; assumption|].
    destruct c_ra as [H|(H1 & H2 & H3 & H4 & H5)]; [left; exact H|right]. repeat split; auto. cbn. rewrite H5. cbn.
    f_equal. rewrite Hi in H5. cbn in H5. rewrite (rd_cur _ _ _ R) in H5.
    destruct (rd_core _ _ _ R). lia.
  - rewrite Hn. apply R.
Qed.

(** What waiting for the bytes up to [g] can give. *)
Definition more (d : dest) (k g : Z) (s s' : sock) : Prop :=
  exists k', k <= k' < g /\ waiting d k' g s' /\ ctl s' = ctl s /\ stream (kern s') = zdrop k' m ++ rest /\ blocked s'.

Lemma proto_read_spec d k g s (Q : Z * bool -> sock -> Prop) :
  waiting d k g s -> k <= g <= zlen m ->
  (forall s', reading d g s' -> ctl s' = ctl s -> Q (0, true) s') -> (forall s', more d k g s s' -> Q (1, false) s') ->
  (forall s', broken s' -> Q (-1, false) s') -> wp __socket_proto_read Q s.
Proof.
  intros [R A W] Hg H1 H2 H3. unfold __socket_proto_read, __socket_proto_update_pending. pose proof A as [Ap Av].
  pose proof (c_pos _ _ _ _ _ _ (rd_core _ _ _ R)) as Hp. wp_go.
  assert (Hs : forall X : unit -> sock -> Prop, (forall s1, waiting d k g s1 -> ctl s1 = ctl s -> X tt s1) ->
    wp (if iov_len (frag_vector (in_vecs (inc s))) =? 0 then
      remaining ← get_in left_in_frag; size ← get_frag remaining_size;
      let len := if size <? remaining then size else remaining in set_frag_len len ;; upd_frag (set_remaining (u32 (size - len)))
    else mret tt) X s).
  { intros X HX. rewrite Av. cbn [iov_len]. destruct (Z.eqb_spec (g - k) 0) as [Hz|Hz]; wp_go; [|apply HX; [split; auto|reflexivity]].
    rewrite (left_spec _ _ _ R), W. assert (E : (if 0 <? zlen m - k then 0 else zlen m - k) = 0) by (destruct (Z.ltb_spec 0 (zlen m - k)); lia).
    rewrite E. apply HX; [|reflexivity]. split; cbn; [apply (reading_upd d k s _ R); reflexivity| |reflexivity].
    split; cbn; [exact Ap|]. rewrite Av. cbn. f_equal. lia. }
  apply Hs. intros s1 [R1 A1 W1] E1. apply wp_bind. eapply wp_mono; [apply (socket_readv_spec m rest b d k g s1 (rd_core _ _ _ R1)); auto|].
  intros [r n] s2 [(-> & Hn & C2 & O2)|[(-> & Hn & C2 & A2 & Hst & Hbl & O2)|(-> & Hbr)]]; cbn [Z.eqb].
  - unfold __socket_proto_update_priv_after_read. replace g with (k + n) in C2 by lia.
    destruct (only_read_reading d k n s1 s2 R1 ltac:(lia) C2 O2) as (R3 & E3 & V3 & W3). wp_go. rewrite W3, W1. cbn. wp_go. apply H1; [|congruence].
    replace g with (k + n) by lia. exact R3.
  - unfold __socket_proto_update_priv_after_read. destruct (only_read_reading d k n s1 s2 R1 ltac:(lia) C2 O2) as (R3 & E3 & V3 & W3).
    wp_go. rewrite W3, W1. cbn. wp_go. apply H2. exists (k + n). split; [lia|]. split; [|split; [congruence|split; [exact Hst|exact Hbl]]].
    split; [exact R3|rewrite V3; exact A2|congruence].
  - wp_go. apply H3. exact Hbr.
Qed.

Lemma then_read_spec d k g s (K : M Z) (Q : Z -> sock -> Prop) :
  waiting d k g s -> k <= g <= zlen m ->
  (forall s', reading d g s' -> ctl s' = ctl s -> wp K Q s') -> (forall s', more d k g s s' -> Q 1 s') -> (forall s', broken s' -> Q (-1) s') ->
  wp (then_read K) Q s.
Proof.
  intros Hw Hg H1 H2 H3. unfold then_read. apply wp_bind. apply (proto_read_spec d k g); auto.
Qed.

(** The rest of a message into the current buffer. *)
Lemma reading_simple_spec d k s (Q : Z -> sock -> Prop) :
  waiting d k (zlen m) s ->
  (forall s', reading d (zlen m) s' -> ctl s' = with_simple SP_STATE_SIMPLE_MSG_INIT (ctl s) -> Q 0 s') ->
  (forall s', more d k (zlen m) s s' -> Q 1 s') -> (forall s', broken s' -> Q (-1) s') -> wp reading_simple_msg Q s.
Proof.
  intros [R A W] H1 H2 H3. unfold reading_simple_msg. wp_go.
  rewrite (left_spec _ _ _ R). pose proof (c_pos _ _ _ _ _ _ (rd_core _ _ _ R)) as Hp.
  assert (Hdone : forall s', reading d (zlen m) s' -> ctl s' = ctl s ->
    wp (upd_frag (set_simple_state SP_STATE_SIMPLE_MSG_INIT) ;; mret 0) Q s').
  { intros s' R' E'. wp_go. apply H1; [apply (reading_upd d (zlen m) s' _ R'); reflexivity|]. rewrite <- E'. reflexivity. }
  destruct (Z.ltb_spec 0 (zlen m - k)) as [Hlt|Hle].
  - eapply wp_mono; [apply (socket_readv_spec m rest b d k (zlen m) s (rd_core _ _ _ R)); auto; lia|].
    intros [r n] s2 [(-> & Hn & C2 & O2)|[(-> & Hn & C2 & A2 & Hst & Hbl & O2)|(-> & Hbr)]]; cbn [Z.eqb].
    + rewrite <- Hn in C2. destruct (only_read_reading d k n s s2 R ltac:(lia) C2 O2) as (R3 & E3 & V3 & W3). rewrite Hn in R3. apply wp_bind. wp_go.
      apply Hdone; assumption.
    + destruct (only_read_reading d k n s s2 R ltac:(lia) C2 O2) as (R3 & E3 & V3 & W3). wp_go. apply H2. exists (k + n). split; [lia|].
      split; [|split; [exact E3|split; [exact Hst|exact Hbl]]]. split; [exact R3|exact (eq_rect_r (fun v => aim d (k + n) (zlen m) v) A2 V3)|rewrite <- W; exact W3].
    + wp_go. apply H3. exact Hbr.
  - wp_go. cbn [Z.eqb]. wp_go. assert (k = zlen m) as -> by lia.
    destruct (only_read_reading d (zlen m) 0 s s R ltac:(lia)) as (R3 & E3 & _).
    { rewrite Z.add_0_r. apply R. }
    { split; [|reflexivity]. exists (in_ra (inc s)), (in_vecs (inc s)). rewrite set_ra_id, set_vecs_id. auto. }
    rewrite Z.add_0_r in R3. apply (Hdone _ R3 E3).
Qed.

Lemma simple_msg_start d k s (Q : Z -> sock -> Prop) :
  reading d k s -> k_simple (ctl s) = SP_STATE_SIMPLE_MSG_INIT ->
  (forall s', reading d (zlen m) s' -> ctl s' = ctl s -> Q 0 s') ->
  (forall s1 s', ctl s1 = with_simple SP_STATE_READING_SIMPLE_MSG (ctl s) -> more d k (zlen m) s1 s' -> Q 1 s') ->
  (forall s', broken s' -> Q (-1) s') -> wp __socket_read_simple_msg Q s.
Proof.
  intros R Hs H1 H2 H3. unfold __socket_read_simple_msg. wp_go.
  assert (Es : simple_state (in_frag (inc s)) = SP_STATE_SIMPLE_MSG_INIT) by exact Hs. rewrite Es. wp_go.
  rewrite (left_spec _ _ _ R). pose proof (c_pos _ _ _ _ _ _ (rd_core _ _ _ R)) as Hp.
  apply (init_pending_spec d k (zlen m - k) s _ R); [lia|lia|]. replace (k + (zlen m - k)) with (zlen m) by lia. intros s1 W1 E1. wp_go.
  set (s2 := mk_sock _ _ _). assert (E2 : ctl s2 = with_simple SP_STATE_READING_SIMPLE_MSG (ctl s)) by (rewrite <- E1; reflexivity).
  apply (reading_simple_spec d k s2).
  - apply (waiting_upd d k (zlen m) s1 _ W1); reflexivity.
  - intros s' R' E'. apply H1; [exact R'|]. rewrite E', E2. apply with_simple_id. exact Hs.
  - intros s' Hmore. apply (H2 s2); assumption.
  - exact H3.
Qed.

Lemma simple_msg_resume d k s (Q : Z -> sock -> Prop) :
  waiting d k (zlen m) s -> k_simple (ctl s) = SP_STATE_READING_SIMPLE_MSG ->
  (forall s', reading d (zlen m) s' -> ctl s' = with_simple SP_STATE_SIMPLE_MSG_INIT (ctl s) -> Q 0 s') ->
  (forall s', more d k (zlen m) s s' -> Q 1 s') -> (forall s', broken s' -> Q (-1) s') -> wp __socket_read_simple_msg Q s.
Proof.
  intros W Hs H1 H2 H3. unfold __socket_read_simple_msg. wp_go.
  assert (Es : simple_state (in_frag (inc s)) = SP_STATE_READING_SIMPLE_MSG) by exact Hs. rewrite Es. eapply reading_simple_spec; eassumption.
Qed.

(** ** Words of the record *)

Lemma fetch32_spec d k o s (Q : Z -> sock -> Prop) :
  reading d k s -> 0 <= o -> o + 4 <= in_record d k -> Q (word m o) s -> wp (fetch32 (P b o)) Q s.
Proof.
  intros R Ho Hk HQ. unfold fetch32. apply wp_bind. pose proof (rd_core _ _ _ R) as C. pose proof (c_pos _ _ _ _ _ _ C) as Hp.
  assert (Hd : in_record d k <= k).
  { pose proof (mo_dest _ _ _ _ _ _ (c_mem _ _ _ _ _ _ C)) as Hd. destruct d as [|pb z|pb h]; cbn; [lia|lia|destruct Hd as (_ & ? & _); lia]. }
  eapply wp_fetch_record; [apply (c_mem _ _ _ _ _ _ C)|lia|lia|lia|lia|]. rewrite slice4 by lia. wp_go. exact HQ.
Qed.

Lemma span_spec d k o o' s (Q : list Z -> sock -> Prop) :
  reading d k s -> 0 <= o <= o' -> o' <= in_record d k -> in_record d k <= k -> Q (slice m o (o' - o)) s -> wp (span (P b o) (P b o')) Q s.
Proof.
  intros R Ho Hk Hd HQ. unfold span. rewrite Z.eqb_refl. pose proof (rd_core _ _ _ R) as C. pose proof (c_pos _ _ _ _ _ _ C) as Hp.
  eapply wp_fetch_record; [apply (c_mem _ _ _ _ _ _ C)|lia|lia|lia|lia|exact HQ].
Qed.

Lemma iobuf_ptr_spec d k s (Q : ptr -> sock -> Prop) : reading d k s -> Q (P b 0) s -> wp iobuf_ptr Q s.
Proof. intros R HQ. unfold iobuf_ptr. wp_go. rewrite (rd_iobuf _ _ _ R). exact HQ. Qed.

(** The end of the message. *)
Lemma finished_spec d k s r (Q : bool -> sock -> Prop) :
  reading d k s -> (r = 0 -> k = zlen m) -> (r = 0 \/ r = 1) -> Q (r =? 0) s -> wp (finished r) Q s.
Proof.
  intros R Hk Hr HQ. unfold finished. wp_go. rewrite (left_spec _ _ _ R), (rd_last _ _ _ R). destruct Hr as [-> | ->]; [|exact HQ].
  rewrite Hk by reflexivity. rewrite Z.sub_diag. exact HQ.
Qed.

End message.
