(* ===== verification/SocketCalls.v ===== *)
(** * RPC records: calls and replies

    The states in which the reader can stop inside of a message, and for every
    function of the parser that it goes on from them. *)

From S2P Require Import Prelude Words Bytes Socket SocketRead SocketParse.
From stdpp Require Import gmap.
Open Scope Z_scope.

(** ** States *)

Abbreviation ctl_msgtype := (mk_control SP_STATE_READING_MSGTYPE SP_STATE_SIMPLE_MSG_INIT (mk_body 0 0 0 0)).
Abbreviation ctl_at := (mk_control SP_STATE_READ_MSGTYPE SP_STATE_SIMPLE_MSG_INIT).
Abbreviation ctl_rest := (mk_control SP_STATE_READ_MSGTYPE SP_STATE_READING_SIMPLE_MSG).

(** The four kinds of messages. *)
Definition plain_call (e : rpc) (m : list Z) : Prop := 32 <= zlen m /\ word m 4 = CALL /\ sizer_of e m = None.

Record vectored_call (e : rpc) (m : list Z) (sz : sizer) (h : Z) : Prop := {
  vc_len : 32 <= zlen m;
  vc_type : word m 4 = CALL;
  vc_sizer : sizer_of e m = Some sz;
  vc_cred : cred_end m <= zlen m;
  vc_verf : verf_end m <= zlen m;
  vc_walk : exists st n, sz 0 [] = (st, n) /\ 0 <= n /\ verf_end m + n <= zlen m /\ walks m sz (verf_end m) st (verf_end m + n) h
}.

Definition plain_reply (e : rpc) (m : list Z) (x : info) : Prop :=
  word m 4 = REPLY /\ map_xid e (word m 0) = Some x /\ is_fop_read x = false.

Record read_reply (e : rpc) (m : list Z) (x : info) : Prop := {
  rr_len : 20 <= zlen m;
  rr_type : word m 4 = REPLY;
  rr_xid : map_xid e (word m 0) = Some x;
  rr_read : is_fop_read x = true;
  rr_accepted : word m 8 = MSG_ACCEPTED;
  rr_accept : accept_end m <= zlen m;
  rr_success : word m (accept_end m - 4) = SUCCESS;
  rr_size : 0 <= read_rsp_size e;
  rr_xdata : 0 <= read_rsp_xdata_len e (slice m (accept_end m) (read_rsp_size e));
  rr_end : read_rsp_end e m <= zlen m;
  rr_room : forall n, rsp_payload x = Some n -> zlen m - read_rsp_end e m <= n
}.

Section message.
Context (e : rpc) (m rest : list Z) (b : Z).
Context (Hm : 8 <= zlen m < 2 ^ 30).

Abbreviation L := (zlen m).
Abbreviation reading := (SocketParse.reading m rest b).
Abbreviation waiting := (SocketParse.waiting m rest b).
Abbreviation more := (SocketParse.more m rest b).

(** The buffer for the payload of a READ reply before the payload is read. *)
Definition user_dest (x : info) (d : dest) (base : ptr) (len : option Z) : Prop :=
  match rsp_payload x with
  | None => d = D_record /\ base = P_null /\ len = Some 0
  | Some n => exists pb, d = D_waiting pb n /\ base = P pb 0 /\ len = Some n
  end.

(** The states in which bytes up to a position are waited for, for a message of one
    of the four kinds. *)
Section kinds.
Context (plain : Prop) (vectored : sizer -> Z -> Prop) (answer_to read_answer_to : info -> Prop).

Inductive stage_of : control -> dest -> Z -> Prop :=
| s_msgtype t p : stage_of (ctl_msgtype t p P_null (Some 0) None) D_record 8
| s_rpchdr p : plain \/ (exists sz h, vectored sz h) -> stage_of (ctl_at (mk_body 1 0 0 0) CALL p P_null (Some 0) None) D_record 32
| s_call p : plain -> stage_of (ctl_rest (mk_body 2 0 0 0) CALL p P_null (Some 0) None) D_record L
| s_cred sz h p : vectored sz h -> stage_of (ctl_at (mk_body 2 1 0 0) CALL p P_null (Some 0) None) D_record (cred_end m)
| s_verf sz h p : vectored sz h -> stage_of (ctl_at (mk_body 2 3 0 0) CALL p P_null (Some 0) None) D_record (verf_end m)
| s_proghdr sz h st n : vectored sz h -> sz 0 [] = (st, n) ->
    stage_of (ctl_at (mk_body 2 5 st 0) CALL (P b (verf_end m)) P_null (Some 0) None) D_record (verf_end m + n)
| s_xdata sz h st g : vectored sz h -> verf_end m <= g -> walks m sz (verf_end m) st g h ->
    stage_of (ctl_at (mk_body 2 7 st 0) CALL (P b (verf_end m)) P_null (Some 0) None) D_record g
| s_prog sz h pb p len : vectored sz h -> stage_of (ctl_rest (mk_body 2 9 0 0) CALL p (P pb 0) len None) (D_payload pb h) L
| s_reply x p : answer_to x -> stage_of (ctl_rest (mk_body 0 0 0 0) REPLY p P_null (Some 0) (Some x)) D_record L
| s_status x d p base len : read_answer_to x -> user_dest x d base len ->
    stage_of (ctl_at (mk_body 0 1 0 0) REPLY p base len (Some x)) d 12
| s_verflen x d p base len : read_answer_to x -> user_dest x d base len ->
    stage_of (ctl_at (mk_body 0 2 1 0) REPLY p base len (Some x)) d 20
| s_verfbytes x d p base len : read_answer_to x -> user_dest x d base len ->
    stage_of (ctl_at (mk_body 0 2 3 0) REPLY p base len (Some x)) d (accept_end m)
| s_prochdr x d base len : read_answer_to x -> user_dest x d base len ->
    stage_of (ctl_at (mk_body 0 2 4 1) REPLY (P b (accept_end m)) base len (Some x)) d (accept_end m + read_rsp_size e)
| s_opaque x d base len : read_answer_to x -> user_dest x d base len ->
    stage_of (ctl_at (mk_body 0 2 4 2) REPLY (P b (accept_end m)) base len (Some x)) d (read_rsp_end e m)
| s_payload x pb p len : read_answer_to x ->
    stage_of (ctl_rest (mk_body 0 2 4 4) REPLY p (P pb 0) len (Some x)) (D_payload pb (read_rsp_end e m)) L.

End kinds.

Abbreviation stage := (stage_of (plain_call e m) (vectored_call e m) (plain_reply e m) (read_reply e m)).

(** What has been read for sure in a state. *)
Definition reached (c : control) : Z :=
  match k_state c with
  | SP_STATE_READ_MSGTYPE => if (k_type c =? CALL) && (w0 (k_body c) =? SP_STATE_READ_RPCHDR1) then 32 else 8
  | _ => 0
  end.

(** The reader has stopped inside of the message. *)
Definition stopped (s : sock) : Prop :=
  exists d k g, waiting d k g s /\ k < g <= L /\ stage (ctl s) d g /\ reached (ctl s) <= in_record d k /\ stream (kern s) = zdrop k m ++ rest.

(** What a function of the parser ends with. *)
Definition post (Done : sock -> Prop) (r : Z) (s' : sock) : Prop := (r = 1 /\ stopped s' /\ blocked s') \/ (r = 0 /\ Done s') \/ (r = -1 /\ broken s').

Lemma in_record_mono d k k' : k <= k' -> in_record d k <= in_record d k'.
Proof. destruct d; cbn; lia. Qed.

Lemma post_more Done d k g s s' c :
  more d k g s s' -> g <= L -> ctl s = c -> reached c <= in_record d k -> stage c d g -> post Done 1 s'.
Proof.
  intros (k' & Hk & W & E & St & Bl) Hg <- Hf Hs. left. split; [reflexivity|]. split; [|exact Bl]. exists d, k', g. rewrite E. pose proof (in_record_mono d k k').
  split; [exact W|]. split; [lia|]. split; [exact Hs|]. split; [lia|exact St].
Qed.

Lemma post_error Done s' : broken s' -> post Done (-1) s'.
Proof. intros H. right. right. split; [reflexivity|exact H]. Qed.

(** The last lines of most functions: what is done when the message has ended. *)
Lemma wrap_spec (Inner Done : sock -> Prop) (f : M unit) r s :
  post Inner r s ->
  (Inner s -> exists d, reading d L s) -> (Inner s -> wp f (fun _ s' => Done s') s) -> (forall s0, wp f (fun _ s' => kern s' = kern s0) s0) ->
  wp (x ← finished r; (if (x : bool) then f else mret tt) ;; mret r) (post Done) s.
Proof.
  intros [(-> & Hs & Bl)|[(-> & Hi)|(-> & Hb)]] Hr Hf Ht.
  - destruct Hs as (d & k & g & W & Hk & Hst). apply wp_bind. eapply (finished_spec m rest b Hm d k); [apply W|discriminate|auto|]. cbn [Z.eqb]. wp_go.
    left. split; [reflexivity|]. split; [|exact Bl]. exists d, k, g. tauto.
  - destruct (Hr Hi) as [d R]. apply wp_bind. eapply (finished_spec m rest b Hm d L); [exact R|auto|auto|]. cbn [Z.eqb]. apply wp_bind.
    eapply wp_mono; [apply Hf, Hi|]. intros u s' Hd. wp_go. right. left. auto.
  - apply wp_bind. unfold finished. wp_go. destruct (_ || _); wp_go; [|apply post_error, Hb].
    eapply wp_mono; [apply Ht|]. intros u s' Ek. wp_go. apply post_error. unfold broken. rewrite Ek. exact Hb.
Qed.

(** ** Updates of the states *)

Lemma wp_body f d k s c (Q : unit -> sock -> Prop) :
  reading d k s -> ctl s = c -> (forall s', reading d k s' -> ctl s' = with_body (f (k_body c)) c -> Q tt s') -> wp (upd_body f) Q s.
Proof.
  intros R E HQ. wp_go. apply HQ; [apply (reading_upd m rest b d k s _ R); reflexivity|]. subst c. reflexivity.
Qed.

Lemma wp_body_waiting f d k g s c (Q : unit -> sock -> Prop) :
  waiting d k g s -> ctl s = c -> (forall s', waiting d k g s' -> ctl s' = with_body (f (k_body c)) c -> Q tt s') -> wp (upd_body f) Q s.
Proof.
  intros R E HQ. wp_go. apply HQ; [apply (waiting_upd m rest b d k g s _ R); reflexivity|]. subst c. reflexivity.
Qed.

(** Starting to wait for [n] bytes in a new state. *)
Lemma wp_want f d k n s c (K : M Z) (Q : Z -> sock -> Prop) :
  reading d k s -> ctl s = c -> 0 <= n -> k + n <= L ->
  (forall s', waiting d k (k + n) s' -> ctl s' = with_body (f (k_body c)) c -> wp K Q s') ->
  wp (__socket_proto_init_pending n ;; upd_body f ;; K) Q s.
Proof.
  intros R E Hn Hk HK. apply wp_bind. apply (init_pending_spec m rest b Hm d k n s _ R Hn Hk). intros s1 W1 E1. apply wp_bind.
  eapply wp_body_waiting; [exact W1|rewrite E1; exact E|exact HK].
Qed.

Lemma reading_pos d k s : reading d k s -> 0 <= k <= L.
Proof. intros R. apply (c_pos _ _ _ _ _ _ (rd_core _ _ _ _ _ _ R)). Qed.

Lemma waiting_pos d k g s : waiting d k g s -> 0 <= k <= L.
Proof. intros W. eapply reading_pos, W. Qed.

(** ** Calls with a payload *)

Section vectored.
Context (sz : sizer) (h : Z) (V : vectored_call e m sz h).

Lemma cred_end_pos : 40 <= cred_end m.
Proof. unfold cred_end. pose proof (word_range m 28). lia. Qed.

Lemma verf_end_pos : 40 <= verf_end m.
Proof. unfold verf_end. pose proof cred_end_pos. pose proof (word_range m (cred_end m - 4)). lia. Qed.

Lemma walks_le base st k h' : walks m sz base st k h' -> k <= h'.
Proof. intros W. induction W; lia. Qed.

Lemma header_pos : 40 <= h.
Proof. destruct (vc_walk _ _ _ _ V) as (st & n & _ & Hn & _ & Wk). pose proof (walks_le _ _ _ _ Wk). pose proof verf_end_pos. lia. Qed.

Definition done_vectored (s : sock) : Prop :=
  exists pb p, reading (D_payload pb h) L s /\ ctl s = ctl_at (mk_body 2 0 0 0) CALL p (P pb 0) (Some (L - h)) None.

(** What the end of [read_payload_call] does. *)
Definition end_payload_call : M unit :=
  upd_body (set_w1 SP_STATE_VECTORED_REQUEST_INIT) ;;
  upd (fun i => set_payload (payload_base i) (distance (payload_base i) (fragcurrent (in_frag i))) i).

Lemma end_payload_spec pb p len s :
  reading (D_payload pb h) L s -> ctl s = ctl_at (mk_body 2 9 0 0) CALL p (P pb 0) len None -> wp end_payload_call (fun _ => done_vectored) s.
Proof.
  intros R E. unfold end_payload_call. apply wp_bind. eapply wp_body; [exact R|exact E|]. intros s1 R1 E1. wp_go.
  exists pb, p. split; [apply (reading_upd m rest b _ _ s1 _ R1); reflexivity|].
  unfold ctl in E1 |- *. injection E1 as C1 C2 C3 C4 C5 C6 C7 C8. cbn. rewrite C1, C2, C3, C4, C5, C6, C8, (rd_cur _ _ _ _ _ _ R1). cbn.
  rewrite Z.eqb_refl. do 2 f_equal. lia.
Qed.

Lemma payload_call_spec pb s :
  (exists p len, reading (D_payload pb h) h s /\ ctl s = ctl_at (mk_body 2 9 0 0) CALL p (P pb 0) len None) \/
  (exists p len k, waiting (D_payload pb h) k L s /\ ctl s = ctl_rest (mk_body 2 9 0 0) CALL p (P pb 0) len None) ->
  wp read_payload_call (post done_vectored) s.
Proof.
  intros H. unfold read_payload_call. pose proof header_pos as Hh. apply wp_bind.
  set (Inner s' := exists p len, reading (D_payload pb h) L s' /\ ctl s' = ctl_at (mk_body 2 9 0 0) CALL p (P pb 0) len None).
  assert (HI : wp __socket_read_simple_msg (post Inner) s).
  { destruct H as [(p & len & R & E)|(p & len & k & W & E)].
    - eapply (simple_msg_start m rest b Hm (D_payload pb h) h); [exact R|rewrite E; reflexivity| | |apply post_error].
      + intros s' R' E'. right. left. split; [reflexivity|]. exists p, len. split; [exact R'|congruence].
      + intros s1 s' E1 Mo. eapply post_more; [exact Mo|lia|rewrite E1, E; reflexivity|cbn; lia|eapply s_prog, V].
    - eapply (simple_msg_resume m rest b Hm (D_payload pb h) k); [exact W|rewrite E; reflexivity| | |apply post_error].
      + intros s' R' E'. right. left. split; [reflexivity|]. exists p, len. split; [exact R'|]. rewrite E', E. reflexivity.
      + intros s' Mo. eapply post_more; [exact Mo|lia|exact E|cbn; lia|eapply s_prog, V]. }
  eapply wp_mono; [exact HI|]. intros r s' Hp. apply (wrap_spec Inner done_vectored end_payload_call); [exact Hp| | |].
  - intros (p & len & R & _). eauto.
  - intros (p & len & R & E). eapply end_payload_spec; eassumption.
  - intros s0. unfold end_payload_call. wp_go. reflexivity.
Qed.

(** A buffer for the payload. *)
Lemma payload_buffer k s :
  reading D_record k s -> 0 < k ->
  let pb := next_id (mem s) in
  let s' := mk_sock (set_frag (set_current (P pb 0) (in_frag (inc s))) (set_payload (P pb 0) (payload_len (inc s)) (inc s)))
    (mk_memory (<[pb := mk_buffer (L - k) (fun _ => None)]> (heap (mem s))) (pb + 1)) (kern s) in
  reading (D_payload pb k) k s'.
Proof.
  intros R Hk pb s'. destruct R as [C R2 R3 R4 R5 R6 R7]. assert (Hne : pb <> b) by (unfold pb; lia).
  split; cbn; auto; [|f_equal; lia|lia]. destruct C. split; cbn; auto.
  - destruct c_mem as [(bf & Hb & Hs & Hc) _]. split.
    + exists bf. split; [unfold has; cbn; rewrite lookup_insert_ne by auto; exact Hb|]. split; [exact Hs|]. exact Hc.
    + split; [exact Hne|]. split; [lia|]. eexists. split; [apply lookup_insert_eq|]. cbn. split; [lia|]. intros i Hi. lia.
  - left. destruct c_ra as [H|H]; [exact H|]. destruct H as (_ & _ & _ & H & _). lia.
Qed.

Lemma proghdr_xdata_spec p w s :
  reading D_record h s -> 0 < h -> ctl s = ctl_at (mk_body 2 w 0 0) CALL p P_null (Some 0) None -> wp read_proghdr_xdata (post done_vectored) s.
Proof.
  intros R Hh E. unfold read_proghdr_xdata. apply wp_bind. wp_go. assert (Eb : payload_base (inc s) = P_null) by (unfold ctl in E; congruence).
  rewrite Eb. unfold iobuf_get2. wp_go. rewrite (left_spec m rest b Hm _ _ _ R).
  pose proof (payload_buffer h s R Hh) as R2. set (pb := next_id (mem s)) in *. cbn zeta in R2.
  match goal with |- wp _ _ ?s2 => assert (R3 : reading (D_payload pb h) h s2); [apply (reading_upd m rest b _ _ _ _ R2); reflexivity|]; assert (E3 : ctl s2 = ctl_at (mk_body 2 SP_STATE_READING_PROG 0 0) CALL p (P pb 0) (Some 0) None) end.
  { unfold ctl in E |- *. injection E as C1 C2 C3 C4 C5 C6 C7 C8. cbn. rewrite C1, C2, C3, C4, C5, C7, C8. reflexivity. }
  apply (payload_call_spec pb). left. exists p, (Some 0). auto.
Qed.

(** The two entries of the loop over the parts of the program header. *)
Definition at_proghdr (k st : Z) (s : sock) : Prop :=
  reading D_record k s /\ verf_end m <= k /\ walks m sz (verf_end m) st k h /\
  exists w, ctl s = ctl_at (mk_body 2 w st 0) CALL (P b (verf_end m)) P_null (Some 0) None.

Definition in_proghdr (k g st : Z) (s : sock) : Prop :=
  waiting D_record k g s /\ 32 <= k <= g /\ g <= L /\ verf_end m <= g /\ walks m sz (verf_end m) st g h /\
  ctl s = ctl_at (mk_body 2 7 st 0) CALL (P b (verf_end m)) P_null (Some 0) None.

Lemma proghdr_spec fuel :
  (forall k st s, at_proghdr k st s -> 2 * (L - k) + 1 <= Z.of_nat fuel -> wp (read_proghdr sz fuel false) (post done_vectored) s) /\
  (forall k g st s, in_proghdr k g st s -> 2 * (L - g) + 2 <= Z.of_nat fuel -> wp (read_proghdr sz fuel true) (post done_vectored) s).
Proof.
  induction fuel as [|fuel [IH1 IH2]].
  { split; [intros k st s (R & _) Hf; pose proof (reading_pos _ _ _ R)|intros k g st s (_ & Hk & Hg & _) Hf]; lia. }
  split; cbn [read_proghdr].
  - intros k st s (R & Hv & Wk & w & E) Hf. pose proof (reading_pos _ _ _ R) as Hp. pose proof verf_end_pos as Hv0. wp_go.
    pose proof E as E0. unfold ctl in E0. injection E0 as _ _ C3 _ C5 _ _ _. rewrite C5, (rd_cur _ _ _ _ _ _ R). cbn [cur].
    apply (span_spec m rest b D_record k); [exact R|lia|cbn; lia|cbn; lia|]. wp_go. rewrite C3. cbn [w2].
    inversion Wk as [st0 cur0 Hsz|st0 cur0 st' n h0 Hsz Hn Hcn Wk']; subst; rewrite Hsz; apply wp_bind; (eapply wp_body; [exact R|exact E|]); intros s1 R1 E1.
    + cbn [Z.eqb]. apply wp_bind. eapply wp_body; [exact R1|exact E1|]. intros s2 R2 E2. eapply proghdr_xdata_spec; [exact R2|lia|exact E2].
    + rewrite (proj2 (Z.eqb_neq n 0)) by lia. eapply wp_want; [exact R1|exact E1|lia|lia|]. intros s2 W2 E2.
      apply (IH2 k (k + n) st'); [|lia]. unfold in_proghdr. split; [exact W2|]. split; [lia|]. split; [lia|]. split; [lia|]. split; [exact Wk'|exact E2].
  - intros k g st s (W & Hk & HgL & Hv & Wk & E) Hf. eapply (then_read_spec m rest b Hm D_record k g); [exact W|lia| | |apply post_error].
    + intros s1 R1 E1. rewrite E in E1. apply wp_bind. eapply wp_body; [exact R1|exact E1|]. intros s2 R2 E2.
      apply (IH1 g st); [|lia]. split; [exact R2|]. split; [exact Hv|]. split; [exact Wk|]. eexists. exact E2.
    + intros s' Mo. eapply post_more; [exact Mo|lia|exact E|cbn; lia|eapply s_xdata; eassumption].
Qed.

Lemma proghdr_loop_spec s (r : bool) :
  (if r then exists k g st, in_proghdr k g st s else exists k st, at_proghdr k st s) -> wp (proghdr_loop sz r) (post done_vectored) s.
Proof.
  intros H. unfold proghdr_loop. wp_go. destruct r.
  - destruct H as (k & g & st & H). assert (Ef : fragsize (inc s) = L) by apply H. rewrite Ef. eapply proghdr_spec; [exact H|]. destruct H as (_ & _ & Hg & Hv & _).
    pose proof verf_end_pos. lia.
  - destruct H as (k & st & H). assert (Ef : fragsize (inc s) = L) by apply H. rewrite Ef. eapply proghdr_spec; [exact H|]. destruct H as (R & Hv & _).
    pose proof verf_end_pos. lia.
Qed.

Lemma reading_proghdr_spec k g st s :
  waiting D_record k g s -> 32 <= k <= g -> g <= L -> verf_end m <= g -> sz 0 [] = (st, g - verf_end m) -> walks m sz (verf_end m) st g h ->
  ctl s = ctl_at (mk_body 2 5 st 0) CALL (P b (verf_end m)) P_null (Some 0) None -> wp (reading_proghdr sz) (post done_vectored) s.
Proof.
  intros W Hk HgL Hv Hsz Wk E. unfold reading_proghdr. eapply (then_read_spec m rest b Hm D_record k g); [exact W|lia| | |apply post_error].
  - intros s1 R1 E1. rewrite E in E1. apply wp_bind. eapply wp_body; [exact R1|exact E1|]. intros s2 R2 E2.
    apply (proghdr_loop_spec s2 false). exists g, st. split; [exact R2|]. split; [exact Hv|]. split; [exact Wk|]. eexists. exact E2.
  - intros s' Mo. eapply post_more; [exact Mo|lia|exact E|cbn; lia|]. replace g with (verf_end m + (g - verf_end m)) by lia. eapply s_proghdr; eassumption.
Qed.

Lemma read_verfbytes_spec w p s :
  reading D_record (verf_end m) s -> ctl s = ctl_at (mk_body 2 w 0 0) CALL p P_null (Some 0) None -> wp (read_verfbytes sz) (post done_vectored) s.
Proof.
  intros R E. unfold read_verfbytes. pose proof verf_end_pos as Hv. destruct (vc_walk _ _ _ _ V) as (st & n & Hsz & Hn & Hvn & Wk). wp_go.
  rewrite (rd_cur _ _ _ _ _ _ R). cbn [cur]. set (s1 := mk_sock _ _ _).
  assert (R1 : reading D_record (verf_end m) s1) by (apply (reading_upd m rest b _ _ s _ R); reflexivity).
  assert (E1 : ctl s1 = ctl_at (mk_body 2 w 0 0) CALL (P b (verf_end m)) P_null (Some 0) None).
  { unfold ctl in E |- *. injection E as C1 C2 C3 C4 C5 C6 C7 C8. cbn. rewrite C1, C2, C3, C4, C6, C7, C8. reflexivity. }
  apply (span_spec m rest b D_record (verf_end m)); [exact R1|lia|cbn; lia|cbn; lia|]. wp_go.
  assert (E3 : w2 (call_body (in_frag (inc s1))) = 0) by (change (w2 (k_body (ctl s1)) = 0); rewrite E1; reflexivity).
  rewrite E3. replace (slice m (verf_end m) (verf_end m - verf_end m)) with (@nil Z) by (unfold slice, ztake; rewrite Z.sub_diag; reflexivity).
  rewrite Hsz. apply wp_bind. eapply wp_body; [exact R1|exact E1|]. intros s2 R2 E2. eapply wp_want; [exact R2|exact E2|lia|lia|].
  intros s4 W4 E4. eapply reading_proghdr_spec; [exact W4|lia|lia|lia| |exact Wk|exact E4]. rewrite Hsz. f_equal. lia.
Qed.

Lemma reading_verfbytes_spec k p s :
  waiting D_record k (verf_end m) s -> 32 <= k <= verf_end m -> ctl s = ctl_at (mk_body 2 3 0 0) CALL p P_null (Some 0) None ->
  wp (reading_verfbytes sz) (post done_vectored) s.
Proof.
  intros W Hk E. pose proof (vc_verf _ _ _ _ V). unfold reading_verfbytes. eapply (then_read_spec m rest b Hm D_record k (verf_end m)); [exact W|lia| | |apply post_error].
  - intros s1 R1 E1. rewrite E in E1. apply wp_bind. eapply wp_body; [exact R1|exact E1|]. intros s2 R2 E2. eapply read_verfbytes_spec; [exact R2|exact E2].
  - intros s' Mo. eapply post_more; [exact Mo|lia|exact E|cbn; lia|eapply s_verf, V].
Qed.

Lemma read_credbytes_spec w p s :
  reading D_record (cred_end m) s -> ctl s = ctl_at (mk_body 2 w 0 0) CALL p P_null (Some 0) None -> wp (read_credbytes sz) (post done_vectored) s.
Proof.
  intros R E. unfold read_credbytes. pose proof cred_end_pos as Hc. pose proof (vc_verf _ _ _ _ V) as Hv. wp_go. rewrite (rd_cur _ _ _ _ _ _ R). cbn [cur padd].
  apply (fetch32_spec m rest b D_record (cred_end m)); [exact R|lia|cbn; lia|]. change (cred_end m + -4) with (cred_end m - 4).
  assert (Ev : verf_end m = cred_end m + word m (cred_end m - 4)) by reflexivity. pose proof (word_range m (cred_end m - 4)) as Hw.
  destruct (Z.eqb_spec (word m (cred_end m - 4)) 0) as [Hz|Hz].
  - apply wp_bind. eapply wp_body; [exact R|exact E|]. intros s2 R2 E2. eapply read_verfbytes_spec; [|exact E2]. rewrite Ev, Hz, Z.add_0_r. exact R2.
  - eapply wp_want; [exact R|exact E|lia|lia|]. rewrite <- Ev. intros s2 W2 E2. eapply reading_verfbytes_spec; [exact W2|lia|exact E2].
Qed.

Lemma reading_credbytes_spec k p s :
  waiting D_record k (cred_end m) s -> 32 <= k <= cred_end m -> ctl s = ctl_at (mk_body 2 1 0 0) CALL p P_null (Some 0) None ->
  wp (reading_credbytes sz) (post done_vectored) s.
Proof.
  intros W Hk E. pose proof (vc_cred _ _ _ _ V). unfold reading_credbytes. eapply (then_read_spec m rest b Hm D_record k (cred_end m)); [exact W|lia| | |apply post_error].
  - intros s1 R1 E1. rewrite E in E1. apply wp_bind. eapply wp_body; [exact R1|exact E1|]. intros s2 R2 E2. eapply read_credbytes_spec; [exact R2|exact E2].
  - intros s' Mo. eapply post_more; [exact Mo|lia|exact E|cbn; lia|eapply s_cred, V].
Qed.

Lemma vectored_init_spec p s :
  reading D_record 32 s -> ctl s = ctl_at (mk_body 2 0 0 0) CALL p P_null (Some 0) None -> wp (vectored_request_init sz) (post done_vectored) s.
Proof.
  intros R E. unfold vectored_request_init. pose proof (vc_cred _ _ _ _ V) as Hc. apply wp_bind. eapply wp_body; [exact R|exact E|]. intros s1 R1 E1.
  apply wp_bind. eapply iobuf_ptr_spec; [exact R1|]. apply wp_bind. cbn [padd]. change (0 + (RPC_MSGTYPE_SIZE + RPC_CALL_BODY_SIZE - 4)) with 28.
  apply (fetch32_spec m rest b D_record 32); [exact R1|lia|cbn; lia|]. pose proof (word_range m 28) as Hw. unfold RPC_AUTH_FLAVOUR_N_LENGTH_SIZE.
  assert (Hce : cred_end m = 40 + word m 28) by reflexivity. rewrite u32_id by lia. eapply wp_want; [exact R1|exact E1|lia|lia|].
  intros s2 W2 E2. replace (32 + (word m 28 + 8)) with (cred_end m) in W2 by lia. eapply reading_credbytes_spec; [exact W2|lia|exact E2].
Qed.

End vectored.

(** ** Requests *)

(** The message is in the buffers. *)
Definition holds (st : sp_rpcfrag_state) (bd : body) (sp : option Z) (inf : option info) (s : sock) : Prop :=
  exists p, match sp with
  | None => reading D_record L s /\ ctl s = mk_control st SP_STATE_SIMPLE_MSG_INIT bd (word m 4) p P_null (Some 0) inf
  | Some h => exists pb, reading (D_payload pb h) L s /\ ctl s = mk_control st SP_STATE_SIMPLE_MSG_INIT bd (word m 4) p (P pb 0) (Some (L - h)) inf
  end.

Definition arrived (st : sp_rpcfrag_state) (bd : body) (s : sock) : Prop := exists sp inf, well_formed e m sp inf /\ holds st bd sp inf s.

Lemma arrived_reading st bd s : arrived st bd s -> exists d, reading d L s.
Proof. intros ([h|] & inf & _ & p & H); [destruct H as (pb & R & _)|destruct H as (R & _)]; eauto. Qed.

Lemma arrived_body st bd f s : arrived st bd s -> wp (upd_body f) (fun _ => arrived st (f bd)) s.
Proof.
  intros ([h|] & inf & W & p & H); [destruct H as (pb & R & E)|destruct H as (R & E)]; (eapply wp_body; [exact R|exact E|]); intros s' R' E'.
  - exists (Some h), inf. split; [exact W|]. exists p, pb. auto.
  - exists None, inf. split; [exact W|]. exists p. auto.
Qed.

Lemma post_mono (D D' : sock -> Prop) r s : (D s -> D' s) -> post D r s -> post D' r s.
Proof. unfold post. tauto. Qed.

Lemma vectored_well_formed sz h : vectored_call e m sz h -> well_formed e m (Some h) None.
Proof. intros [? ? ? ? ? (st & n & ? & ? & ? & ?)]. eapply wf_vectored_call; eassumption. Qed.

Lemma done_vectored_arrived sz h s : vectored_call e m sz h -> done_vectored h s -> arrived SP_STATE_READ_MSGTYPE (mk_body 2 0 0 0) s.
Proof.
  intros V (pb & p & R & E). exists (Some h), None. split; [eapply vectored_well_formed, V|]. exists p, pb. split; [exact R|].
  rewrite E, (vc_type _ _ _ _ V). reflexivity.
Qed.

(** Going on in a call whose fixed header has been read. *)
Definition resumes (s : sock) (w : Z) (t : Z) (d : dest) (k g : Z) : Prop :=
  waiting d k g s /\ k < g <= L /\ stage (ctl s) d g /\ reached (ctl s) <= in_record d k /\ k_state (ctl s) = SP_STATE_READ_MSGTYPE /\
  k_type (ctl s) = t /\ w0 (k_body (ctl s)) = w.

Lemma vectored_request_resume sz d k g s :
  sizer_of e m = Some sz -> resumes s 2 CALL d k g -> wp (__socket_read_vectored_request sz) (post (arrived SP_STATE_READ_MSGTYPE (mk_body 2 0 0 0))) s.
Proof.
  intros Hsz (W & Hk & Hst & Hf & Hs & Ht & Hw). unfold __socket_read_vectored_request. wp_go.
  change (w1 (call_body (in_frag (inc s)))) with (w1 (k_body (ctl s))). remember (ctl s) as c eqn:Ec.
  destruct Hst as [t p|p|p Hp|sz' h p V|sz' h p V|sz' h st n V Hn|sz' h st g V Hg Wk|sz' h pb p len V|x p|x d p base len|x d p base len|x d p base len|x d base len|x d base len|x pb p len];
    cbn in Hs, Ht, Hw, Hf; try discriminate; try (destruct Hp as (_ & _ & Hp); congruence);
    assert (sz' = sz) as -> by (pose proof (vc_sizer _ _ _ _ V); congruence); cbn [w1 k_body Z.eqb SP_STATE_VECTORED_REQUEST_INIT SP_STATE_READING_CREDBYTES SP_STATE_READ_CREDBYTES
      SP_STATE_READING_VERFBYTES SP_STATE_READ_VERFBYTES SP_STATE_READING_PROGHDR SP_STATE_READ_PROGHDR SP_STATE_READING_PROGHDR_XDATA SP_STATE_READ_PROGHDR_XDATA SP_STATE_READING_PROG];
    (eapply wp_mono; [|intros r s' Hp; eapply post_mono; [intros Hd; eapply done_vectored_arrived; [exact V|exact Hd]|exact Hp]]).
  - eapply reading_credbytes_spec; [exact V|exact W|lia|symmetry; exact Ec].
  - eapply reading_verfbytes_spec; [exact V|exact W|lia|symmetry; exact Ec].
  - destruct (vc_walk _ _ _ _ V) as (st2 & n2 & Hn2 & Hp2 & Hv2 & Wk). rewrite Hn in Hn2. injection Hn2 as <- <-.
    eapply reading_proghdr_spec; [exact V|exact W|lia|lia|lia| |exact Wk|symmetry; exact Ec]. rewrite Hn. f_equal. lia.
  - apply (proghdr_loop_spec sz h V s true). exists k, g, st. split; [exact W|]. split; [lia|]. split; [lia|]. split; [exact Hg|]. split; [exact Wk|symmetry; exact Ec].
  - apply (payload_call_spec sz h V pb). right. exists p, len, k. auto.
Qed.

Lemma plain_arrived p s :
  plain_call e m -> reading D_record L s -> ctl s = ctl_at (mk_body 2 0 0 0) CALL p P_null (Some 0) None -> arrived SP_STATE_READ_MSGTYPE (mk_body 2 0 0 0) s.
Proof.
  intros (Hl & Ht & Hs) R E. exists None, None. split; [apply wf_call; assumption|]. exists p. rewrite E, Ht. auto.
Qed.

(** After the fixed header: at its end, or somewhere later. *)
Definition after_rpchdr (s : sock) : Prop :=
  (exists p, reading D_record 32 s /\ ctl s = ctl_at (mk_body 2 0 0 0) CALL p P_null (Some 0) None /\
    (plain_call e m \/ exists sz h, vectored_call e m sz h)) \/
  exists d k g, resumes s 2 CALL d k g.

Lemma after_rpchdr_in_record s : after_rpchdr s -> exists d k, reading d k s /\ 32 <= in_record d k.
Proof.
  intros [(p & R & _)|(d & k & g & W & _ & _ & Hf & Hs & Ht & Hw)]; [exists D_record, 32; cbn; auto with lia|].
  exists d, k. split; [apply W|]. unfold reached in Hf. rewrite Hs, Ht, Hw in Hf. exact Hf.
Qed.

Lemma call_body_spec s :
  after_rpchdr s ->
  wp (match sizer_of e m with Some sz => __socket_read_vectored_request sz | None => __socket_read_simple_msg end)
    (post (arrived SP_STATE_READ_MSGTYPE (mk_body 2 0 0 0))) s.
Proof.
  intros [(p & R & E & [Hp|(sz & h & V)])|(d & k & g & Hr)].
  - pose proof Hp as (_ & _ & Hs). rewrite Hs. eapply (simple_msg_start m rest b Hm D_record 32); [exact R|rewrite E; reflexivity| | |apply post_error].
    + intros s' R' E'. right. left. split; [reflexivity|]. eapply plain_arrived; [exact Hp|exact R'|]. rewrite E'. exact E.
    + intros s1 s' E1 Mo. eapply post_more; [exact Mo|lia|rewrite E1, E; reflexivity|cbn; lia|apply s_call; exact Hp].
  - rewrite (vc_sizer _ _ _ _ V). unfold __socket_read_vectored_request. wp_go.
    change (w1 (call_body (in_frag (inc s)))) with (w1 (k_body (ctl s))). rewrite E. cbn.
    eapply wp_mono; [eapply vectored_init_spec; [exact V|exact R|exact E]|]. intros r s'. apply post_mono. eapply done_vectored_arrived, V.
  - destruct (sizer_of e m) as [sz|] eqn:Hs; [eapply vectored_request_resume; eassumption|].
    destruct Hr as (W & Hk & Hst & Hf & Hs' & Ht & Hw). remember (ctl s) as c eqn:Ec. symmetry in Ec.
    destruct Hst as [t p|p|p Hp|sz' h p V|sz' h p V|sz' h st n V Hn|sz' h st g V Hg Wk|sz' h pb p len V|x p|x d p base len|x d p base len|x d p base len|x d base len|x d base len|x pb p len];
    cbn in Hs', Ht, Hw, Hf; try discriminate; try (pose proof (vc_sizer _ _ _ _ V); congruence).
    eapply (simple_msg_resume m rest b Hm D_record k); [exact W|rewrite Ec; reflexivity| | |apply post_error].
    + intros s' R' E'. right. left. split; [reflexivity|]. eapply plain_arrived; [exact Hp|exact R'|]. rewrite E', Ec. reflexivity.
    + intros s' Mo. eapply post_more; [exact Mo|lia|exact Ec|cbn; lia|apply s_call; exact Hp].
Qed.

Lemma read_rpchdr1_spec s : after_rpchdr s -> wp (read_rpchdr1 e) (post (arrived SP_STATE_READ_MSGTYPE (mk_body 0 0 0 0))) s.
Proof.
  intros H. destruct (after_rpchdr_in_record s H) as (d & k & R & Hin). unfold read_rpchdr1. apply wp_bind. eapply iobuf_ptr_spec; [exact R|]. cbn [padd].
  do 3 (apply wp_bind; eapply fetch32_spec; [exact R|cbv; discriminate|unfold RPC_MSGTYPE_SIZE; lia|]).
  change (0 + (RPC_MSGTYPE_SIZE + 4)) with 12. change (0 + (RPC_MSGTYPE_SIZE + 8)) with 16. change (0 + (RPC_MSGTYPE_SIZE + 12)) with 20.
  fold (sizer_of e m). apply wp_bind. eapply wp_mono; [apply call_body_spec, H|]. intros r s' Hp.
  apply (wrap_spec (arrived SP_STATE_READ_MSGTYPE (mk_body 2 0 0 0))); [exact Hp|apply arrived_reading| |].
  - intros Ha. exact (arrived_body _ _ (set_w0 0) _ Ha).
  - intros s0. wp_go. reflexivity.
Qed.

Lemma reading_rpchdr1_spec k p s :
  waiting D_record k 32 s -> 8 <= k <= 32 -> plain_call e m \/ (exists sz h, vectored_call e m sz h) ->
  ctl s = ctl_at (mk_body 1 0 0 0) CALL p P_null (Some 0) None -> wp (reading_rpchdr1 e) (post (arrived SP_STATE_READ_MSGTYPE (mk_body 0 0 0 0))) s.
Proof.
  intros W Hk Hc E. assert (Hl : 32 <= L) by (destruct Hc as [(H & _)|(sz & h & V)]; [exact H|apply (vc_len _ _ _ _ V)]).
  unfold reading_rpchdr1. eapply (then_read_spec m rest b Hm D_record k 32); [exact W|lia| | |apply post_error].
  - intros s1 R1 E1. rewrite E in E1. apply wp_bind. eapply wp_body; [exact R1|exact E1|]. intros s2 R2 E2. apply read_rpchdr1_spec.
    left. exists p. auto.
  - intros s' Mo. eapply post_more; [exact Mo|lia|exact E|cbn; lia|apply s_rpchdr; exact Hc].
Qed.

(** Going on in a call. *)
Lemma read_request_resume d k g w s : resumes s w CALL d k g -> wp (__socket_read_request e) (post (arrived SP_STATE_READ_MSGTYPE (mk_body 0 0 0 0))) s.
Proof.
  intros Hr. pose proof Hr as (W & Hk & Hst & Hf & Hs & Ht & Hw). unfold __socket_read_request. wp_go.
  change (w0 (call_body (in_frag (inc s)))) with (w0 (k_body (ctl s))).
  destruct (Z.eq_dec w 2) as [-> | Hne]; [rewrite Hw; cbn; apply read_rpchdr1_spec; right; eauto|].
  remember (ctl s) as c eqn:Ec. symmetry in Ec.
  destruct Hst as [t p|p Hp|p Hp|sz' h p V|sz' h p V|sz' h st n V Hn|sz' h st g V Hg Wk|sz' h pb p len V|x p|x d p base len|x d p base len|x d p base len|x d base len|x d base len|x pb p len];
    cbn in Hs, Ht, Hw, Hf; try discriminate; try congruence.
  cbn. eapply reading_rpchdr1_spec; [exact W|lia|exact Hp|exact Ec].
Qed.

Lemma read_request_start p s :
  reading D_record 8 s -> plain_call e m \/ (exists sz h, vectored_call e m sz h) -> ctl s = ctl_at (mk_body 0 0 0 0) CALL p P_null (Some 0) None ->
  wp (__socket_read_request e) (post (arrived SP_STATE_READ_MSGTYPE (mk_body 0 0 0 0))) s.
Proof.
  intros R Hc E. unfold __socket_read_request. wp_go. change (w0 (call_body (in_frag (inc s)))) with (w0 (k_body (ctl s))). rewrite E. cbn [w0 k_body Z.eqb SP_STATE_REQUEST_HEADER_INIT].
  assert (Hl : 32 <= L) by (destruct Hc as [(H & _)|(sz & h & V)]; [exact H|apply (vc_len _ _ _ _ V)]).
  eapply wp_want; [exact R|exact E|unfold RPC_CALL_BODY_SIZE; lia|unfold RPC_CALL_BODY_SIZE; lia|]. intros s2 W2 E2. eapply reading_rpchdr1_spec; [exact W2|lia|exact Hc|exact E2].
Qed.

End message.
