(* ===== verification/SocketReplies.v ===== *)
(** * RPC records: replies

    The same for replies; those to a READ have a header that is decoded and a
    payload that goes to a buffer of its own, which the caller may have given. *)

From S2P Require Import Prelude Words Bytes Socket SocketRead SocketParse SocketCalls.
From stdpp Require Import gmap.
Open Scope Z_scope.

Section message.
Context (e : rpc) (m rest : list Z) (b : Z).
Context (Hm : 8 <= zlen m < 2 ^ 30).

Abbreviation L := (zlen m).
Abbreviation reading := (SocketParse.reading m rest b).
Abbreviation waiting := (SocketParse.waiting m rest b).
Abbreviation more := (SocketParse.more m rest b).
Abbreviation post := (SocketCalls.post e m rest b).
Abbreviation arrived := (SocketCalls.arrived e m rest b).
Abbreviation post_more := (SocketCalls.post_more e m rest b).
Abbreviation post_error := (SocketCalls.post_error e m rest b).

Section read_reply.
Context (x : info) (RR : read_reply e m x).
Abbreviation hd_end := (read_rsp_end e m).

Definition in_payload_buffer (bd : body) (s : sock) : Prop :=
  exists pb p len, reading (D_payload pb hd_end) L s /\ ctl s = ctl_at bd REPLY p (P pb 0) len (Some x).

Lemma accept_end_pos : 24 <= accept_end m.
Proof. unfold accept_end. pose proof (word_range m 16). lia. Qed.

Lemma rsp_end_pos : accept_end m + read_rsp_size e <= hd_end.
Proof.
  unfold read_rsp_end, roof4. pose proof (rr_xdata _ _ _ RR). pose proof (Z.div_pos (read_rsp_xdata_len e (slice m (accept_end m) (read_rsp_size e)) + 3) 4). lia.
Qed.

Lemma read_proc_header_spec pb p len s :
  (reading (D_payload pb hd_end) hd_end s /\ ctl s = ctl_at (mk_body 0 2 4 4) REPLY p (P pb 0) len (Some x)) \/
  (exists k, waiting (D_payload pb hd_end) k L s /\ ctl s = ctl_rest (mk_body 0 2 4 4) REPLY p (P pb 0) len (Some x)) ->
  wp read_proc_header (post (in_payload_buffer (mk_body 0 2 4 0))) s.
Proof.
  intros Hs. unfold read_proc_header. apply wp_bind. pose proof accept_end_pos. pose proof rsp_end_pos. pose proof (rr_size _ _ _ RR).
  assert (HI : wp __socket_read_simple_msg (post (in_payload_buffer (mk_body 0 2 4 4))) s).
  { destruct Hs as [(R & E)|(k & W & E)].
    - eapply (simple_msg_start m rest b Hm (D_payload pb hd_end) hd_end); [exact R|rewrite E; reflexivity| | |apply post_error].
      + intros s' R' E'. right. left. split; [reflexivity|]. exists pb, p, len. split; [exact R'|congruence].
      + intros s1 s' E1 Mo. eapply post_more; [exact Mo|lia|rewrite E1, E; reflexivity|cbn; lia|apply s_payload, RR].
    - eapply (simple_msg_resume m rest b Hm (D_payload pb hd_end) k); [exact W|rewrite E; reflexivity| | |apply post_error].
      + intros s' R' E'. right. left. split; [reflexivity|]. exists pb, p, len. split; [exact R'|]. rewrite E', E. reflexivity.
      + intros s' Mo. eapply post_more; [exact Mo|lia|exact E|cbn; lia|apply s_payload, RR]. }
  eapply wp_mono; [exact HI|]. intros r s' [(-> & St)|[(-> & pb' & p' & len' & R' & E')|(-> & Hb)]]; wp_go.
  - cbn. wp_go. left. auto.
  - rewrite (rd_last _ _ _ _ _ _ R'). cbn [Z.eqb orb andb]. eapply wp_body; [exact R'|exact E'|]. intros s2 R2 E2. wp_go. right. left. split; [reflexivity|].
    exists pb', p', len'. auto.
  - cbn [Z.eqb orb]. wp_go. apply post_error. exact Hb.
Qed.

(** The payload goes to its buffer from here on. *)
Lemma to_payload pb n k s :
  reading (D_waiting pb n) k s -> 0 < k -> L - k <= n ->
  reading (D_payload pb k) k (mk_sock (set_frag (set_current (P pb 0) (in_frag (inc s))) (inc s)) (mem s) (kern s)).
Proof.
  intros R Hk0 Hn. destruct R as [C R2 R3 R4 R5 R6 R7]. destruct C. split; cbn; auto; [|f_equal; lia]. split; cbn; auto.
  - destruct c_mem as [Hmain (Hne & pf & Hp & Hz)]. split; [exact Hmain|]. split; [exact Hne|]. split; [lia|].
    exists pf. split; [exact Hp|]. split; [lia|]. intros i Hi. lia.
  - left. destruct c_ra as [St|(Hmx & Hrd & Hsv & Hk & _)]; [exact St|]. lia.
Qed.

Lemma user_cur d base len k : user_dest x d base len -> cur b d k = P b k /\ in_record d k = k.
Proof. unfold user_dest. destruct (rsp_payload x); [intros (pb & -> & _)|intros (-> & _)]; auto. Qed.

Lemma read_proc_opaque_spec d w p base len s :
  user_dest x d base len -> reading d hd_end s -> ctl s = ctl_at (mk_body 0 2 4 w) REPLY p base len (Some x) ->
  wp read_proc_opaque (post (in_payload_buffer (mk_body 0 2 4 0))) s.
Proof.
  intros Hu R E. unfold read_proc_opaque. pose proof accept_end_pos. pose proof rsp_end_pos. pose proof (rr_size _ _ _ RR). pose proof (rr_end _ _ _ RR).
  pose proof E as E0. unfold ctl in E0. injection E0 as C1 C2 C3 C4 C5 C6 C7 C8. apply wp_bind. wp_go. rewrite C6.
  unfold user_dest in Hu. destruct (rsp_payload x) as [n|] eqn:Hx.
  - destruct Hu as (pb & -> & -> & ->). wp_go. rewrite C6. set (s2 := mk_sock _ _ _).
    apply (read_proc_header_spec pb p (Some n)). left. split.
    + eapply (reading_upd m rest b _ _ _ _ (to_payload pb n hd_end s R ltac:(lia) ltac:(apply RR, Hx))). reflexivity.
    + unfold ctl, s2. cbn. rewrite C1, C2, C3, C4, C5, C6, C7, C8. reflexivity.
  - destruct Hu as (-> & -> & ->). unfold iobuf_get2. wp_go. rewrite (left_spec m rest b Hm _ _ _ R). set (s2 := mk_sock _ _ _).
    apply (read_proc_header_spec (next_id (mem s)) p (Some (L - hd_end))). left. split.
    + eapply (reading_upd m rest b _ _ _ _ (payload_buffer m rest b hd_end s R ltac:(lia))). reflexivity.
    + unfold ctl, s2. cbn. rewrite C1, C2, C3, C4, C5, C8. reflexivity.
Qed.

Lemma reading_proc_opaque_spec d k base len s :
  user_dest x d base len -> waiting d k hd_end s -> 8 <= k <= hd_end ->
  ctl s = ctl_at (mk_body 0 2 4 2) REPLY (P b (accept_end m)) base len (Some x) -> wp reading_proc_opaque (post (in_payload_buffer (mk_body 0 2 4 0))) s.
Proof.
  intros Hu W Hk E. pose proof (rr_end _ _ _ RR). destruct (user_cur d base len k Hu) as [Hc Hi]. unfold reading_proc_opaque.
  eapply (then_read_spec m rest b Hm d k hd_end); [exact W|lia| | |apply post_error].
  - intros s1 R1 E1. rewrite E in E1. apply wp_bind. eapply wp_body; [exact R1|exact E1|]. intros s2 R2 E2. eapply read_proc_opaque_spec; [exact Hu|exact R2|exact E2].
  - intros s' Mo. eapply post_more; [exact Mo|lia|exact E|rewrite Hi; cbn; lia|apply s_opaque; assumption].
Qed.

Lemma reading_proc_header_spec d k base len s :
  user_dest x d base len -> waiting d k (accept_end m + read_rsp_size e) s -> 8 <= k <= accept_end m + read_rsp_size e ->
  ctl s = ctl_at (mk_body 0 2 4 1) REPLY (P b (accept_end m)) base len (Some x) ->
  wp (reading_proc_header e) (post (in_payload_buffer (mk_body 0 2 4 0))) s.
Proof.
  intros Hu W Hk E. pose proof (rr_end _ _ _ RR). pose proof rsp_end_pos. pose proof accept_end_pos. pose proof (rr_size _ _ _ RR).
  destruct (user_cur d base len k Hu) as [_ Hi]. destruct (user_cur d base len (accept_end m + read_rsp_size e) Hu) as [Hc' Hi'].
  unfold reading_proc_header. eapply (then_read_spec m rest b Hm d k); [exact W|lia| | |apply post_error].
  - intros s1 R1 E1. rewrite E in E1. wp_go. pose proof E1 as E0. unfold ctl in E0. injection E0 as C1 C2 C3 C4 C5 C6 C7 C8.
    rewrite C5, (rd_cur _ _ _ _ _ _ R1), Hc'. eapply span_spec; [exact R1|lia|lia|lia|].
    replace (accept_end m + read_rsp_size e - accept_end m) with (read_rsp_size e) by lia.
    set (size := roof4 _). assert (He : hd_end = accept_end m + read_rsp_size e + size) by reflexivity.
    destruct (Z.eqb_spec size 0) as [Hz|Hz].
    + apply wp_bind. eapply wp_body; [exact R1|exact E1|]. intros s2 R2 E2. eapply read_proc_opaque_spec; [exact Hu| |exact E2].
      rewrite He, Hz, Z.add_0_r. exact R2.
    + eapply (wp_want m rest b Hm); [exact R1|exact E1|lia|lia|]. rewrite <- He. intros s2 W2 E2. eapply reading_proc_opaque_spec; [exact Hu|exact W2|lia|exact E2].
  - intros s' Mo. eapply post_more; [exact Mo|lia|exact E|rewrite Hi; cbn; lia|apply s_prochdr; assumption].
Qed.

Lemma accepted_start_spec d p base len s :
  user_dest x d base len -> reading d (accept_end m) s -> ctl s = ctl_at (mk_body 0 2 4 0) REPLY p base len (Some x) ->
  wp (__socket_read_accepted_successful_reply e) (post (in_payload_buffer (mk_body 0 2 4 0))) s.
Proof.
  intros Hu R E. pose proof (rr_end _ _ _ RR). pose proof rsp_end_pos. pose proof accept_end_pos. pose proof (rr_size _ _ _ RR).
  destruct (user_cur d base len (accept_end m) Hu) as [Hc Hi]. pose proof E as E0. unfold ctl in E0. injection E0 as C1 C2 C3 C4 C5 C6 C7 C8.
  unfold __socket_read_accepted_successful_reply. wp_go. rewrite C3. cbn [w3 Z.eqb SP_STATE_ACCEPTED_SUCCESS_REPLY_INIT].
  apply wp_bind. wp_go. rewrite (rd_cur _ _ _ _ _ _ R), Hc. set (s1 := mk_sock _ _ _).
  assert (R1 : reading d (accept_end m) s1) by (apply (reading_upd m rest b _ _ s _ R); reflexivity).
  assert (E1 : ctl s1 = ctl_at (mk_body 0 2 4 0) REPLY (P b (accept_end m)) base len (Some x)).
  { unfold ctl, s1. cbn. rewrite C1, C2, C3, C4, C6, C7, C8. reflexivity. }
  apply (init_pending_spec m rest b Hm d (accept_end m) _ s1 _ R1); [lia|lia|]. intros s2 W2 E2. apply wp_bind.
  eapply wp_body_waiting; [exact W2|rewrite E2; exact E1|]. intros s3 W3 E3. eapply reading_proc_header_spec; [exact Hu|exact W3|lia|exact E3].
Qed.

(** Going on in the reply. *)
Record goes_on (w : body -> Prop) (d : dest) (k g : Z) (s : sock) : Prop := {
  go_waiting : waiting d k g s;
  go_pos : k < g <= L;
  go_stage : stage_of e m b (plain_call e m) (vectored_call e m) (plain_reply e m) (read_reply e m) (ctl s) d g;
  go_floor : reached (ctl s) <= in_record d k;
  go_state : k_state (ctl s) = SP_STATE_READ_MSGTYPE;
  go_type : k_type (ctl s) = REPLY;
  go_info : k_info (ctl s) = Some x;
  go_body : w (k_body (ctl s))
}.

Ltac destruct_stage G Hw :=
  let c := fresh "c" in let Ec := fresh "Ec" in let Hst := fresh "Hst" in let Hs := fresh "Hs" in let Ht := fresh "Ht" in let Hi := fresh "Hi" in
  destruct G as [W Hk Hst Hf Hs Ht Hi Hw]; remember (ctl _) as c eqn:Ec in *; symmetry in Ec;
  destruct Hst as [t p|p Hp|p Hp|sz' h p V|sz' h p V|sz' h st n V Hn|sz' h st g V Hg Wk|sz' h pb p len V|y p PR|y d p base len RR' Hu|y d p base len RR' Hu
    |y d p base len RR' Hu|y d base len RR' Hu|y d base len RR' Hu|y pb p len RR'];
  cbn in Hs, Ht, Hi, Hw, Hf; try discriminate; injection Hi as ->; try (exfalso; destruct PR as (_ & _ & PR); pose proof (rr_read _ _ _ RR); congruence).

Lemma accepted_successful_resume d k g s :
  goes_on (fun bd => w1 bd = 2 /\ w2 bd = 4) d k g s -> wp (__socket_read_accepted_successful_reply e) (post (in_payload_buffer (mk_body 0 2 4 0))) s.
Proof.
  intros G. unfold __socket_read_accepted_successful_reply. wp_go. change (w3 (call_body (in_frag (inc s)))) with (w3 (k_body (ctl s))).
  destruct_stage G Hw; destruct Hw as [Hw1 Hw2]; try discriminate; cbn -[reading_proc_header reading_proc_opaque read_proc_header].
  - destruct (user_cur d base len k Hu) as [_ Hi]. eapply reading_proc_header_spec; [exact Hu|exact W|lia|exact Ec].
  - destruct (user_cur d base len k Hu) as [_ Hi]. eapply reading_proc_opaque_spec; [exact Hu|exact W|lia|exact Ec].
  - apply (read_proc_header_spec pb p len). right. eauto.
Qed.

Lemma goes_on_reading w d k g s : goes_on w d k g s -> reading d k s.
Proof. intros G. apply (wt_reading _ _ _ _ _ _ _ (go_waiting _ _ _ _ _ G)). Qed.

Lemma payload_body bd f s : in_payload_buffer bd s -> wp (upd_body f) (fun _ => in_payload_buffer (f bd)) s.
Proof. intros (pb & p & len & R & E). eapply wp_body; [exact R|exact E|]. intros s' R' E'. exists pb, p, len. auto. Qed.

Lemma payload_reading bd s : in_payload_buffer bd s -> exists d, reading d L s.
Proof. intros (pb & p & len & R & E). eauto. Qed.

Lemma verfbytes_spec s :
  (exists d p base len, user_dest x d base len /\ reading d (accept_end m) s /\ ctl s = ctl_at (mk_body 0 2 4 0) REPLY p base len (Some x)) \/
  (exists d k g, goes_on (fun bd => w1 bd = 2 /\ w2 bd = 4) d k g s) ->
  wp (read_reply_verfbytes e) (post (in_payload_buffer (mk_body 0 2 0 0))) s.
Proof.
  intros Hs. unfold read_reply_verfbytes. apply wp_bind. wp_go. assert (H0 : w0 (call_body (in_frag (inc s))) = 0).
  { change (w0 (k_body (ctl s)) = 0). destruct Hs as [(d & p & base & len & _ & _ & E)|(d & k & g & G)]; [rewrite E; reflexivity|].
    destruct_stage G Hw; try (destruct Hw; discriminate); reflexivity. }
  rewrite H0. cbn [Z.eqb SUCCESS]. eapply wp_mono; [|intros r s' Hp; apply (wrap_spec e m rest b Hm (in_payload_buffer (mk_body 0 2 4 0))); [exact Hp|apply payload_reading| |]].
  - destruct Hs as [(d & p & base & len & Hu & R & E)|(d & k & g & G)]; [eapply accepted_start_spec; eassumption|eapply accepted_successful_resume, G].
  - intros Hi. exact (payload_body _ (set_w2 0) _ Hi).
  - intros s0. wp_go. reflexivity.
Qed.

Lemma reading_reply_verf_spec d k p base len s :
  user_dest x d base len -> waiting d k (accept_end m) s -> 8 <= k <= accept_end m -> ctl s = ctl_at (mk_body 0 2 3 0) REPLY p base len (Some x) ->
  wp (reading_reply_verfbytes e) (post (in_payload_buffer (mk_body 0 2 0 0))) s.
Proof.
  intros Hu W Hk E. pose proof (rr_accept _ _ _ RR). pose proof accept_end_pos. destruct (user_cur d base len k Hu) as [_ Hi].
  destruct (user_cur d base len (accept_end m) Hu) as [Hc Hi']. unfold reading_reply_verfbytes.
  eapply (then_read_spec m rest b Hm d k); [exact W|lia| | |apply post_error].
  - intros s1 R1 E1. rewrite E in E1. apply wp_bind. eapply wp_body; [exact R1|exact E1|]. intros s2 R2 E2. wp_go. rewrite (rd_cur _ _ _ _ _ _ R2), Hc. cbn [padd].
    eapply fetch32_spec; [exact R2|lia|lia|]. change (accept_end m + -4) with (accept_end m - 4). rewrite (rr_success _ _ _ RR).
    apply wp_bind. eapply wp_body; [exact R2|exact E2|]. intros s3 R3 E3. apply verfbytes_spec. left. exists d, p, base, len. auto.
  - intros s' Mo. eapply post_more; [exact Mo|lia|exact E|rewrite Hi; cbn; lia|apply s_verfbytes; assumption].
Qed.

Lemma verflen_spec d p w base len s :
  user_dest x d base len -> reading d 20 s -> ctl s = ctl_at (mk_body 0 2 w 0) REPLY p base len (Some x) ->
  wp (read_reply_verflen e) (post (in_payload_buffer (mk_body 0 2 0 0))) s.
Proof.
  intros Hu R E. pose proof (rr_accept _ _ _ RR). pose proof accept_end_pos. destruct (user_cur d base len 20 Hu) as [Hc Hi].
  unfold read_reply_verflen. wp_go. rewrite (rd_cur _ _ _ _ _ _ R), Hc. cbn [padd]. eapply fetch32_spec; [exact R|lia|lia|]. change (20 + -4) with 16.
  assert (Ha : accept_end m = 24 + word m 16) by reflexivity. pose proof (word_range m 16). unfold RPC_ACCEPT_STATUS_LEN. rewrite u32_id by lia.
  eapply (wp_want m rest b Hm); [exact R|exact E|lia|lia|]. replace (20 + (word m 16 + 4)) with (accept_end m) by lia. intros s2 W2 E2.
  eapply reading_reply_verf_spec; [exact Hu|exact W2|lia|exact E2].
Qed.

Lemma reading_verflen_spec d k p base len s :
  user_dest x d base len -> waiting d k 20 s -> 8 <= k <= 20 -> ctl s = ctl_at (mk_body 0 2 1 0) REPLY p base len (Some x) ->
  wp (reading_reply_verflen e) (post (in_payload_buffer (mk_body 0 2 0 0))) s.
Proof.
  intros Hu W Hk E. pose proof (rr_len _ _ _ RR). destruct (user_cur d base len k Hu) as [_ Hi]. unfold reading_reply_verflen.
  eapply (then_read_spec m rest b Hm d k); [exact W|lia| | |apply post_error].
  - intros s1 R1 E1. rewrite E in E1. apply wp_bind. eapply wp_body; [exact R1|exact E1|]. intros s2 R2 E2. eapply verflen_spec; [exact Hu|exact R2|exact E2].
  - intros s' Mo. eapply post_more; [exact Mo|lia|exact E|rewrite Hi; cbn; lia|apply s_verflen; assumption].
Qed.

(** The header of the accepted reply: at its start, or later. *)
Lemma accepted_reply_spec s :
  (exists d p base len, user_dest x d base len /\ reading d 12 s /\ ctl s = ctl_at (mk_body 0 2 0 0) REPLY p base len (Some x)) \/
  (exists d k g, goes_on (fun bd => w1 bd = 2) d k g s) ->
  wp (__socket_read_accepted_reply e) (post (in_payload_buffer (mk_body 0 2 0 0))) s.
Proof.
  intros Hs. unfold __socket_read_accepted_reply. wp_go. change (w2 (call_body (in_frag (inc s)))) with (w2 (k_body (ctl s))). pose proof (rr_len _ _ _ RR).
  destruct Hs as [(d & p & base & len & Hu & R & E)|(d & k & g & G)].
  - rewrite E. cbn [w2 k_body Z.eqb SP_STATE_ACCEPTED_REPLY_INIT]. unfold RPC_AUTH_FLAVOUR_N_LENGTH_SIZE.
    eapply (wp_want m rest b Hm); [exact R|exact E|lia|lia|]. intros s2 W2 E2. eapply reading_verflen_spec; [exact Hu|exact W2|lia|exact E2].
  - destruct (Z.eq_dec (w2 (k_body (ctl s))) 4) as [H4|H4].
    + rewrite H4. cbn -[read_reply_verfbytes]. apply verfbytes_spec. right. exists d, k, g. destruct G. split; auto.
    + destruct_stage G Hw; try discriminate; try (exfalso; apply H4; reflexivity); destruct (user_cur d base len k Hu) as [_ Hi].
      * cbn -[reading_reply_verflen]. eapply reading_verflen_spec; [exact Hu|exact W|lia|exact Ec].
      * cbn -[reading_reply_verfbytes]. eapply reading_reply_verf_spec; [exact Hu|exact W|lia|exact Ec].
Qed.

Lemma payload_arrived s : in_payload_buffer (mk_body 0 2 0 0) s ->
  wp (upd_body (set_w1 SP_STATE_VECTORED_REPLY_STATUS_INIT) ;;
      upd (fun i => set_payload (payload_base i) (distance (payload_base i) (fragcurrent (in_frag i))) i))
    (fun _ => arrived SP_STATE_READ_MSGTYPE (mk_body 0 0 0 0)) s.
Proof.
  intros (pb & p & len & R & E). apply wp_bind. eapply wp_body; [exact R|exact E|]. intros s1 R1 E1. wp_go.
  exists (Some hd_end), (Some x). split; [destruct RR; apply wf_read_reply; assumption|]. exists p, pb.
  split; [apply (reading_upd m rest b _ _ s1 _ R1); reflexivity|].
  unfold ctl in E1 |- *. injection E1 as C1 C2 C3 C4 C5 C6 C7 C8. cbn. rewrite C1, C2, C3, C4, C5, C6, C8, (rd_cur _ _ _ _ _ _ R1), (rr_type _ _ _ RR). cbn.
  rewrite Z.eqb_refl. do 2 f_equal. lia.
Qed.

Lemma reply_status_spec s :
  (exists d p base len, user_dest x d base len /\ reading d 12 s /\ ctl s = ctl_at (mk_body 0 2 0 0) REPLY p base len (Some x)) \/
  (exists d k g, goes_on (fun bd => w1 bd = 2) d k g s) ->
  wp (read_reply_status e) (post (arrived SP_STATE_READ_MSGTYPE (mk_body 0 0 0 0))) s.
Proof.
  intros Hs. unfold read_reply_status. apply wp_bind. wp_go. assert (H0 : w0 (call_body (in_frag (inc s))) = 0).
  { change (w0 (k_body (ctl s)) = 0). destruct Hs as [(d & p & base & len & _ & _ & E)|(d & k & g & G)]; [rewrite E; reflexivity|].
    destruct_stage G Hw; reflexivity. }
  rewrite H0. cbn [Z.eqb MSG_ACCEPTED].
  eapply wp_mono; [apply accepted_reply_spec, Hs|]. intros r s' Hp.
  apply (wrap_spec e m rest b Hm (in_payload_buffer (mk_body 0 2 0 0))); [exact Hp|apply payload_reading|apply payload_arrived|].
  intros s0. wp_go. reflexivity.
Qed.

Lemma reading_reply_status_spec d k p base len s :
  user_dest x d base len -> waiting d k 12 s -> 8 <= k <= 12 -> ctl s = ctl_at (mk_body 0 1 0 0) REPLY p base len (Some x) ->
  wp (reading_reply_status e) (post (arrived SP_STATE_READ_MSGTYPE (mk_body 0 0 0 0))) s.
Proof.
  intros Hu W Hk E. pose proof (rr_len _ _ _ RR). destruct (user_cur d base len k Hu) as [_ Hi]. destruct (user_cur d base len 12 Hu) as [Hc Hi'].
  unfold reading_reply_status. eapply (then_read_spec m rest b Hm d k); [exact W|lia| | |apply post_error].
  - intros s1 R1 E1. rewrite E in E1. wp_go. rewrite (rd_cur _ _ _ _ _ _ R1), Hc. cbn [padd]. eapply fetch32_spec; [exact R1|lia|lia|]. change (12 + -4) with 8.
    rewrite (rr_accepted _ _ _ RR). apply wp_bind. eapply wp_body; [exact R1|exact E1|]. intros s2 R2 E2.
    apply wp_bind. eapply wp_body; [exact R2|exact E2|]. intros s3 R3 E3. apply reply_status_spec. left. exists d, p, base, len. auto.
  - intros s' Mo. eapply post_more; [exact Mo|lia|exact E|rewrite Hi; cbn; lia|apply s_status; assumption].
Qed.

Lemma vectored_reply_start d p base len s :
  user_dest x d base len -> reading d 8 s -> ctl s = ctl_at (mk_body 0 0 0 0) REPLY p base len (Some x) ->
  wp (__socket_read_vectored_reply e) (post (arrived SP_STATE_READ_MSGTYPE (mk_body 0 0 0 0))) s.
Proof.
  intros Hu R E. pose proof (rr_len _ _ _ RR). unfold __socket_read_vectored_reply. wp_go.
  change (w1 (call_body (in_frag (inc s)))) with (w1 (k_body (ctl s))). rewrite E. cbn [w1 k_body Z.eqb SP_STATE_VECTORED_REPLY_STATUS_INIT].
  unfold RPC_REPLY_STATUS_SIZE. eapply (wp_want m rest b Hm); [exact R|exact E|lia|lia|]. intros s2 W2 E2.
  eapply reading_reply_status_spec; [exact Hu|exact W2|lia|exact E2].
Qed.

Lemma vectored_reply_resume d k g s :
  goes_on (fun _ => True) d k g s -> wp (__socket_read_vectored_reply e) (post (arrived SP_STATE_READ_MSGTYPE (mk_body 0 0 0 0))) s.
Proof.
  intros G. unfold __socket_read_vectored_reply. wp_go. change (w1 (call_body (in_frag (inc s)))) with (w1 (k_body (ctl s))).
  destruct (Z.eq_dec (w1 (k_body (ctl s))) 2) as [H2|H2].
  - rewrite H2. cbn -[read_reply_status]. apply reply_status_spec. right. exists d, k, g. destruct G. split; auto.
  - destruct_stage G Hw; try (exfalso; apply H2; reflexivity). destruct (user_cur d base len k Hu) as [_ Hi].
    cbn -[reading_reply_status]. eapply reading_reply_status_spec; [exact Hu|exact W|lia|exact Ec].
Qed.

(** The buffer of the caller. *)
Lemma user_buffer n s :
  reading D_record 8 s ->
  let pb := next_id (mem s) in
  let s' := mk_sock (inc s) (mk_memory (<[pb := mk_buffer n (fun _ => None)]> (heap (mem s))) (pb + 1)) (kern s) in
  reading (D_waiting pb n) 8 s'.
Proof.
  intros R pb s'. destruct R as [C R2 R3 R4 R5 R6 R7]. assert (Hne : pb <> b) by (unfold pb; lia).
  split; cbn; auto; [|lia]. destruct C. split; cbn; auto. destruct c_mem as [(bf & Hb & Hs & Hc) _]. split.
  - exists bf. split; [unfold has; cbn; rewrite lookup_insert_ne by auto; exact Hb|]. split; [exact Hs|]. exact Hc.
  - split; [exact Hne|]. eexists. split; [apply lookup_insert_eq|]. reflexivity.
Qed.

End read_reply.

(** ** Replies *)

Lemma plain_reply_arrived x p s :
  plain_reply e m x -> reading D_record L s -> ctl s = ctl_at (mk_body 0 0 0 0) REPLY p P_null (Some 0) (Some x) ->
  arrived SP_STATE_READ_MSGTYPE (mk_body 0 0 0 0) s.
Proof.
  intros (Ht & Hx & Hr) R E. exists None, (Some x). split; [apply wf_reply; [lia|assumption..]|]. exists p. rewrite E, Ht. auto.
Qed.

Lemma read_reply_start p s :
  reading D_record 8 s -> (exists x, plain_reply e m x \/ read_reply e m x) -> ctl s = ctl_at (mk_body 0 0 0 0) REPLY p P_null (Some 0) None ->
  wp (__socket_read_reply e) (post (arrived SP_STATE_READ_MSGTYPE (mk_body 0 0 0 0))) s.
Proof.
  intros R (x & Hx) E. unfold __socket_read_reply. apply wp_bind. eapply iobuf_ptr_spec; [exact R|]. wp_go.
  pose proof E as E0. unfold ctl in E0. injection E0 as C1 C2 C3 C4 C5 C6 C7 C8. rewrite C8. apply wp_bind.
  eapply fetch32_spec; [exact R|lia|cbn; lia|].
  assert (Hxid : map_xid e (word m 0) = Some x) by (destruct Hx as [(_ & H & _)|H]; [exact H|apply H]). rewrite Hxid. wp_go.
  set (s1 := mk_sock _ _ _).
  assert (R1 : reading D_record 8 s1) by (apply (reading_upd m rest b _ _ s _ R); reflexivity).
  assert (E1 : ctl s1 = ctl_at (mk_body 0 0 0 0) REPLY p P_null (Some 0) (Some x)).
  { unfold ctl, s1. cbn. rewrite C1, C2, C3, C4, C5, C6, C7. reflexivity. }
  destruct Hx as [PR|RR].
  - pose proof PR as (_ & _ & Hr). rewrite Hr. wp_go. rewrite Hr.
    eapply (simple_msg_start m rest b Hm D_record 8); [exact R1|rewrite E1; reflexivity| | |apply post_error].
    + intros s' R' E'. right. left. split; [reflexivity|]. eapply plain_reply_arrived; [exact PR|exact R'|]. rewrite E'. exact E1.
    + intros s2 s' E2 Mo. eapply post_more; [exact Mo|lia|rewrite E2, E1; reflexivity|cbn; lia|apply s_reply; exact PR].
  - rewrite (rr_read _ _ _ RR). destruct (rsp_payload x) as [n|] eqn:Hn.
    + unfold iobuf_get2. wp_go. rewrite (rr_read _ _ _ RR). pose proof (user_buffer n s1 R1) as R2. cbn zeta in R2. set (s2 := mk_sock (set_payload _ _ _) _ _).
      apply (vectored_reply_start x RR (D_waiting (next_id (mem s1)) n) p (P (next_id (mem s1)) 0) (Some n)).
      * unfold user_dest. rewrite Hn. eauto.
      * apply (reading_upd m rest b _ _ _ _ R2). reflexivity.
      * unfold ctl, s2 in *. cbn in *. rewrite C1, C2, C3, C4, C5. reflexivity.
    + wp_go. rewrite (rr_read _ _ _ RR). apply (vectored_reply_start x RR D_record p P_null (Some 0)); [|exact R1|exact E1]. unfold user_dest. rewrite Hn. auto.
Qed.

Lemma read_reply_resume d k g s :
  waiting d k g s -> k < g <= L -> stage_of e m b (plain_call e m) (vectored_call e m) (plain_reply e m) (read_reply e m) (ctl s) d g ->
  reached (ctl s) <= in_record d k -> k_state (ctl s) = SP_STATE_READ_MSGTYPE -> k_type (ctl s) = REPLY ->
  wp (__socket_read_reply e) (post (arrived SP_STATE_READ_MSGTYPE (mk_body 0 0 0 0))) s.
Proof.
  intros W Hk Hst Hf Hs Ht. unfold __socket_read_reply. apply wp_bind. eapply iobuf_ptr_spec; [apply W|]. wp_go.
  change (request_info (inc s)) with (k_info (ctl s)).
  assert (Hx : exists x, k_info (ctl s) = Some x /\ (read_reply e m x \/ plain_reply e m x /\ exists p, d = D_record /\ g = L /\
    ctl s = ctl_rest (mk_body 0 0 0 0) REPLY p P_null (Some 0) (Some x))).
  { remember (ctl s) as c eqn:Ec. destruct Hst; cbn in Hs, Ht |- *; try discriminate; eexists; (split; [reflexivity|]); auto. right. eauto 6. }
  destruct Hx as (x & Hx & [RR|(PR & p & -> & -> & E)]); rewrite Hx; wp_go.
  - rewrite (rr_read _ _ _ RR). apply (vectored_reply_resume x RR d k g). split; auto.
  - pose proof PR as (_ & _ & Hr). rewrite Hr. rewrite E in Hf. cbn in Hf.
    eapply (simple_msg_resume m rest b Hm D_record k); [exact W|rewrite E; reflexivity| | |apply post_error].
    + intros s' R' E'. right. left. split; [reflexivity|]. eapply plain_reply_arrived; [exact PR|exact R'|]. rewrite E', E. reflexivity.
    + intros s' Mo. eapply post_more; [exact Mo|lia|exact E|cbn; lia|apply s_reply; exact PR].
Qed.

(** ** Fragments *)

Definition cuttable : Prop := exists sp inf, well_formed e m sp inf.

Definition after_msgtype (s : sock) : Prop :=
  (exists t p, reading D_record 8 s /\ ctl s = ctl_at (mk_body 0 0 0 0) t p P_null (Some 0) None) \/
  exists d k g, waiting d k g s /\ k < g <= L /\
    stage_of e m b (plain_call e m) (vectored_call e m) (plain_reply e m) (read_reply e m) (ctl s) d g /\
    reached (ctl s) <= in_record d k /\ k_state (ctl s) = SP_STATE_READ_MSGTYPE.

Lemma cuttable_kinds :
  cuttable ->
  (word m 4 = CALL /\ (plain_call e m \/ exists sz h, vectored_call e m sz h)) \/ (word m 4 = REPLY /\ exists x, plain_reply e m x \/ read_reply e m x).
Proof.
  intros (sp & inf & []); [left|left|right|right]; (split; [assumption|]).
  - left. repeat split; assumption.
  - right. exists sz, h. split; eauto 6.
  - exists x. left. repeat split; assumption.
  - exists x. right. split; assumption.
Qed.

Lemma stage_type c d g :
  stage_of e m b (plain_call e m) (vectored_call e m) (plain_reply e m) (read_reply e m) c d g -> k_state c = SP_STATE_READ_MSGTYPE -> k_type c = word m 4.
Proof.
  intros [t p|p [Hp|(sz & h & V)]|p Hp|sz' h p V|sz' h p V|sz' h st n V Hn|sz' h st g' V Hg Wk|sz' h pb p len V|y p PR|y d' p base len RR' Hu|y d' p base len RR' Hu
    |y d' p base len RR' Hu|y d' base len RR' Hu|y d' base len RR' Hu|y pb p len RR'] Hs; cbn; try discriminate;
  try (symmetry; apply (vc_type _ _ _ _ V)); try (symmetry; apply (rr_type _ _ _ RR')); try (destruct Hp as (_ & ? & _); auto); destruct PR as (? & _); auto.
Qed.

Lemma after_msgtype_in_record s : after_msgtype s -> exists d k, reading d k s /\ 8 <= in_record d k.
Proof.
  intros [(t & p & R & _)|(d & k & g & W & _ & _ & Hf & Hs)]; [exists D_record, 8; cbn; auto with lia|].
  exists d, k. split; [apply W|]. unfold reached in Hf. rewrite Hs in Hf. destruct (_ && _); lia.
Qed.

(** The type that is read again is the one that was read before. *)
Lemma set_type_spec s (s1 := mk_sock (set_msg_type (word m 4) (inc s)) (mem s) (kern s)) :
  after_msgtype s -> after_msgtype s1 /\ k_type (ctl s1) = word m 4.
Proof.
  intros H. split; [|reflexivity]. destruct H as [(t & p & R & E)|(d & k & g & W & Hk & Hst & Hf & Hs)].
  - left. exists (word m 4), p. split; [apply (reading_upd m rest b _ _ s _ R); reflexivity|].
    unfold ctl in E. injection E as C1 C2 C3 C4 C5 C6 C7 C8. unfold ctl, s1. cbn. rewrite C1, C2, C3, C5, C6, C7, C8. reflexivity.
  - right. exists d, k, g. assert (E : ctl s1 = ctl s).
    { pose proof (stage_type _ _ _ Hst Hs) as Ht. unfold ctl in *. cbn in *. rewrite <- Ht. reflexivity. }
    rewrite E. split; [apply (waiting_upd m rest b _ _ _ s _ W); reflexivity|auto].
Qed.

Lemma message_spec s :
  cuttable -> after_msgtype s -> k_type (ctl s) = word m 4 ->
  wp (if word m 4 =? CALL then __socket_read_request e else if word m 4 =? REPLY then __socket_read_reply e
      else mret (if word m 4 =? GF_UNIVERSAL_ANSWER then 0 else -1)) (post (arrived SP_STATE_READ_MSGTYPE (mk_body 0 0 0 0))) s.
Proof.
  intros Hc H Ht. destruct (cuttable_kinds Hc) as [(Hw & Hk)|(Hw & Hk)]; rewrite Hw in *; cbn [Z.eqb CALL REPLY].
  - destruct H as [(t & p & R & E)|(d & k & g & W & Hk' & Hst & Hf & Hs)].
    + eapply (read_request_start e m rest b Hm p); [exact R|exact Hk|]. rewrite E in Ht |- *. cbn in Ht. rewrite Ht. reflexivity.
    + eapply (read_request_resume e m rest b Hm d k g); split; eauto 7.
  - destruct H as [(t & p & R & E)|(d & k & g & W & Hk' & Hst & Hf & Hs)].
    + eapply (read_reply_start p); [exact R|exact Hk|]. rewrite E in Ht |- *. cbn in Ht. rewrite Ht. reflexivity.
    + eapply read_reply_resume; eauto.
Qed.

Lemma arrived_state st st' bd s : arrived st bd s -> wp (upd_frag (set_frag_state st')) (fun _ => arrived st' bd) s.
Proof.
  intros ([h|] & inf & W & p & H); [destruct H as (pb & R & E)|destruct H as (R & E)]; wp_go; [exists (Some h), inf|exists None, inf]; (split; [exact W|]);
    [exists p, pb|exists p]; (split; [apply (reading_upd m rest b _ _ s _ R); reflexivity|]);
    unfold ctl in E; injection E as C1 C2 C3 C4 C5 C6 C7 C8; unfold ctl; cbn; rewrite C2, C3, C4, C5, C6, C7, C8; reflexivity.
Qed.

Lemma read_msgtype_spec s : cuttable -> after_msgtype s -> wp (read_msgtype e) (post (arrived SP_STATE_RPCFRAG_INIT (mk_body 0 0 0 0))) s.
Proof.
  intros Hc H. destruct (after_msgtype_in_record s H) as (d & k & R & Hin). unfold read_msgtype. apply wp_bind. eapply iobuf_ptr_spec; [exact R|]. cbn [padd].
  apply wp_bind. eapply fetch32_spec; [exact R|lia|lia|]. change (0 + 4) with 4. wp_go. destruct (set_type_spec s H) as [H1 Ht].
  eapply wp_mono; [apply message_spec; assumption|]. intros r s' Hp.
  apply (wrap_spec e m rest b Hm (arrived SP_STATE_READ_MSGTYPE (mk_body 0 0 0 0))); [exact Hp|apply arrived_reading| |].
  - intros Ha. exact (arrived_state _ _ _ _ Ha).
  - intros s0. wp_go. reflexivity.
Qed.

Lemma reading_msgtype_spec k t p s :
  cuttable -> waiting D_record k 8 s -> k <= 8 -> ctl s = ctl_msgtype t p P_null (Some 0) None ->
  wp (reading_msgtype e) (post (arrived SP_STATE_RPCFRAG_INIT (mk_body 0 0 0 0))) s.
Proof.
  intros Hc W Hk E. unfold reading_msgtype. pose proof (waiting_pos _ _ _ _ _ _ _ W). eapply (then_read_spec m rest b Hm D_record k); [exact W|lia| | |apply post_error].
  - intros s1 R1 E1. rewrite E in E1. wp_go. apply read_msgtype_spec; [exact Hc|]. left. exists t, p. split; [apply (reading_upd m rest b _ _ s1 _ R1); reflexivity|].
    unfold ctl in E1. injection E1 as C1 C2 C3 C4 C5 C6 C7 C8. unfold ctl. cbn. rewrite C2, C3, C4, C5, C6, C7, C8. reflexivity.
  - intros s' Mo. eapply post_more; [exact Mo|lia|exact E|cbn; lia|apply s_msgtype].
Qed.

(** At the start of a message, or where the reader has stopped in it. *)
Definition in_message (s : sock) : Prop :=
  (exists t p, reading D_record 0 s /\ ctl s = mk_control SP_STATE_RPCFRAG_INIT SP_STATE_SIMPLE_MSG_INIT (mk_body 0 0 0 0) t p P_null (Some 0) None) \/
  stopped e m rest b s.

Lemma read_frag_spec s : cuttable -> in_message s -> wp (__socket_read_frag e) (post (arrived SP_STATE_RPCFRAG_INIT (mk_body 0 0 0 0))) s.
Proof.
  intros Hc H. unfold __socket_read_frag. wp_go. change (frag_state (in_frag (inc s))) with (k_state (ctl s)).
  destruct H as [(t & p & R & E)|(d & k & g & W & Hk & Hst & Hf & _)].
  - rewrite E. cbn [k_state]. apply wp_bind. unfold RPC_MSGTYPE_SIZE. apply (init_pending_spec m rest b Hm D_record 0 8 s _ R); [lia|lia|]. intros s1 W1 E1. wp_go.
    eapply reading_msgtype_spec; [exact Hc|apply (waiting_upd m rest b _ _ _ s1 _ W1); reflexivity|lia|].
    rewrite E in E1. unfold ctl in E1. injection E1 as C1 C2 C3 C4 C5 C6 C7 C8. unfold ctl. cbn. rewrite C2, C3, C4, C5, C6, C7, C8. reflexivity.
  - destruct (k_state (ctl s)) eqn:Hs.
    + exfalso. destruct Hst; discriminate.
    + remember (ctl s) as c eqn:Ec. destruct Hst; try discriminate. eapply reading_msgtype_spec; [exact Hc|exact W|lia|symmetry; exact Ec].
    + apply read_msgtype_spec; [exact Hc|]. right. exists d, k, g. auto.
    + exfalso. destruct Hst; discriminate.
Qed.

End message.
