(* ===== verification/SocketRecords.v ===== *)
(** * RPC records: the state machine

    The loop over the headers and the fragments.  A connection is in one of three
    states: between two messages, in the header of one, or inside of one; each
    event leads from such a state to such a state, and delivers at most one
    message. *)

From S2P Require Import Prelude Words Bytes Socket SocketRead SocketParse SocketCalls SocketReplies.
From stdpp Require Import gmap.
Open Scope Z_scope.

(** ** Frames *)

Definition frame (m : list Z) : list Z := store32 (hton32 (Z.lor 0x80000000 (zlen m))) ++ m.
Definition frames (ms : list (list Z)) : list Z := concat (map frame ms).

(** Messages that the reader cuts. *)
Definition fine (e : rpc) (m : list Z) : Prop := 8 <= zlen m < 2 ^ 30 /\ cuttable e m.

Lemma zlen_frame m : zlen (frame m) = 4 + zlen m.
Proof. unfold frame. rewrite zlen_app. reflexivity. Qed.

(** The word in the header and what the macros make of it. *)
Lemma header_word n : 0 <= n < 2 ^ 31 ->
  Z.lor 0x80000000 n = 2 ^ 31 + n /\ RPC_FRAGSIZE (2 ^ 31 + n) = n /\ RPC_LASTFRAG (2 ^ 31 + n) = true.
Proof.
  intros Hn. pose proof (lor_shiftl_add 1 n 31 ltac:(lia) Hn) as E. change (Z.shiftl 1 31) with 0x80000000 in E.
  split; [rewrite E; lia|]. unfold RPC_FRAGSIZE, RPC_LASTFRAG. split.
  - change 0x7fffffff with (Z.ones 31). rewrite Z.land_ones by lia. replace (2 ^ 31 + n) with (n + 1 * 2 ^ 31) by lia.
    rewrite Z.mod_add, Z.mod_small by lia. reflexivity.
  - apply negb_true_iff, Z.eqb_neq. intros H0. assert (Hb : Z.testbit (Z.land (2 ^ 31 + n) 0x80000000) 31 = false) by (rewrite H0; apply Z.bits_0).
    rewrite Z.land_spec in Hb. change (Z.testbit 0x80000000 31) with true in Hb. rewrite andb_true_r in Hb.
    replace (2 ^ 31 + n) with (Z.lor 0x80000000 n) in Hb by (rewrite E; lia). rewrite Z.lor_spec in Hb. discriminate.
Qed.

(** ** The header *)

Definition no_readahead : readahead := mk_ra 0 0 0 P_null.

(** Nothing of a message is left. *)
Definition idle (i : incoming) : Prop :=
  (frag_state (in_frag i), simple_state (in_frag i), call_body (in_frag i), bytes_read (in_frag i)) =
    (SP_STATE_RPCFRAG_INIT, SP_STATE_SIMPLE_MSG_INIT, mk_body 0 0 0 0, 0) /\
  (iobuf i, payload_base i, payload_len i, request_info i) = (None, P_null, Some 0, None).

Section header.
Context (F : list Z).

(** [j] bytes of the header have been read; [F] are the bytes from it on. *)
Record heading (j : Z) (s : sock) : Prop := {
  hg_pos : 0 <= j <= 4;
  hg_some : j <= zlen F;
  hg_state : record_state (inc s) = SP_STATE_READING_FRAGHDR;
  hg_len : zlen (fraghdr (inc s)) = 4;
  hg_bytes : ztake j (fraghdr (inc s)) = ztake j F;
  hg_stream : stream (kern s) = zdrop j F;
  hg_idle : idle (inc s);
  hg_total : total_bytes_read (inc s) = 0
}.

Definition aims (j : Z) (s : sock) : Prop :=
  pending_vector (in_vecs (inc s)) = V_in0 /\ in_vector (in_vecs (inc s)) = mk_iovec (P_fraghdr j) (4 - j).

Definition header_read (j : Z) (s : sock) (r : rd) (s' : sock) : Prop :=
  match r with
  | R_got n => 0 < n <= 4 - j /\ heading (j + n) s' /\ in_ra (inc s') = no_readahead /\ (length (sched (kern s')) < length (sched (kern s)))%nat
  | R_again => heading j s' /\ blocked s'
  | R_intr => heading j s' /\ (length (sched (kern s')) < length (sched (kern s)))%nat
  | _ => broken s'
  end /\ in_vecs (inc s') = in_vecs (inc s).

Lemma store_header f j d :
  zlen f = 4 -> 0 <= j -> j + zlen d <= 4 -> j <= zlen F -> ztake j f = ztake j F -> d = ztake (zlen d) (zdrop j F) ->
  let f' := ztake j f ++ d ++ zdrop (j + zlen d) f in zlen f' = 4 /\ ztake (j + zlen d) f' = ztake (j + zlen d) F.
Proof.
  intros Hf Hj Hd HF Et Ed f'. pose proof (zlen_nonneg d) as Hd0. split.
  - unfold f'. rewrite !zlen_app, zlen_ztake, zlen_zdrop. lia.
  - unfold f'. rewrite Et. assert (El : zlen (ztake j F) = j) by (rewrite zlen_ztake; lia). unfold zlen in *. unfold ztake, zdrop in *.
    rewrite (take_app_ge (take (Z.to_nat j) F)) by lia. rewrite take_app_le by lia.
    rewrite (take_ge d) by lia. assert (E : take (Z.to_nat j) F ++ d = take (Z.to_nat j + length d) F).
    { rewrite <- take_take_drop. f_equal. rewrite Nat2Z.id in Ed. exact Ed. }
    rewrite E. f_equal. lia.
Qed.

Lemma header_read_spec j s : heading j s -> j < 4 -> wp (__socket_cached_read (mk_iovec (P_fraghdr j) (4 - j))) (header_read j s) s.
Proof.
  intros [Hp HF Hst Hl Hb Hs Hi Ht] Hj. unfold __socket_cached_read. wp_go. rewrite Hst. apply wp_bind. wp_go. unfold __socket_ssl_readv.
  apply wp_bind. cbn [iov_len iov_base]. set (s1 := mk_sock _ _ _). apply wp_sys_readv; [lia| |].
  - intros a sc er cl s' Hbr Hbl Ha Hsc. assert (Hg : heading j s') by (split; auto). assert (Hv : in_vecs (inc s') = in_vecs (inc s)) by reflexivity.
    destruct Ha as [-> | [Hsc' [-> | [-> | ->]]]]; wp_go; split; auto.
  - intros d sc er cl s' Hd Hn Hsc. unfold s1 in Hd. cbn [kern] in Hd. rewrite Hs in Hd.
    assert (HF' : j + zlen d <= zlen F).
    { assert (El : zlen d = zlen (ztake (zlen d) (zdrop j F))) by congruence. rewrite zlen_ztake, zlen_zdrop in El. lia. }
    apply wp_bind. unfold store. rewrite (proj2 (Z.leb_le 0 j)), (proj2 (Z.leb_le _ 4)) by lia. cbn [andb]. wp_go.
    destruct (store_header (fraghdr (inc s)) j d) as [H1 H2]; auto; [lia|lia|].
    split; [|reflexivity]. split; [lia|]. split; [|split; [reflexivity|exact Hsc]]. split; auto; [lia|].
    change (zdrop (zlen d) (stream (kern s)) = zdrop (j + zlen d) F). rewrite Hs. apply zdrop_zdrop; lia.
Qed.

(** What reading the header ends with. *)
Definition header_post (rn : Z * Z) (s' : sock) : Prop :=
  let '(r, _) := rn in
  (r = 0 /\ heading 4 s' /\ in_ra (inc s') = no_readahead) \/ (r = 1 /\ blocked s' /\ exists j, j < 4 /\ heading j s' /\ aims j s') \/ (r = -1 /\ broken s').

Lemma heading_vecs j s v : heading j s -> heading j (mk_sock (set_vecs v (inc s)) (mem s) (kern s)).
Proof. intros []. split; auto. Qed.

Lemma header_loop fuel bytes j s :
  heading j s -> aims j s -> j < 4 -> (length (sched (kern s)) < fuel)%nat -> wp (readv_loop fuel bytes) header_post s.
Proof.
  revert bytes j s. induction fuel as [|fuel IH]; intros bytes j s Hg [Ap Av] Hj Hf; [lia|]. cbn [readv_loop]. unfold pending. wp_go. rewrite Ap. wp_go. rewrite Av.
  cbn [iov_len]. rewrite (proj2 (Z.eqb_neq (4 - j) 0)) by lia. apply wp_bind. eapply wp_mono; [apply header_read_spec; assumption|].
  intros r s1 [HP Hv]. destruct r as [n| | | |].
  - destruct HP as (Hn & Hg1 & Hra & Hsc). destruct (Z.leb_spec (4 - j) n) as [Hle|Hlt]; wp_go.
    + left. split; [reflexivity|]. replace (j + n) with 4 in Hg1 by lia. split; [apply heading_vecs, Hg1|exact Hra].
    + apply (IH (bytes + n) (j + n)); [apply heading_vecs, Hg1| |lia|cbn; lia]. split; cbn; rewrite Hv; unfold advance_vec; rewrite Ap, Av; cbn; [reflexivity|].
      f_equal. lia.
  - destruct HP as (HP & Hbl). wp_go. right. left. split; [reflexivity|]. split; [exact Hbl|]. exists j. split; [lia|]. split; [exact HP|]. unfold aims. rewrite Hv. auto.
  - destruct HP as (Hg1 & Hsc). apply (IH bytes j); auto; [unfold aims; rewrite Hv; auto|lia].
  - wp_go. right. right. auto.
  - wp_go. right. right. auto.
Qed.

Lemma header_spec j s : heading j s -> aims j s -> j < 4 -> wp __socket_readv header_post s.
Proof. intros Hg Ha Hj. unfold __socket_readv. wp_go. eapply header_loop; eauto. lia. Qed.

End header.

(** The header is there. *)
Lemma header_bytes m rest s : zlen m < 2 ^ 31 -> heading (frame m ++ rest) 4 s -> hdr (inc s) = hton32 (2 ^ 31 + zlen m) /\ stream (kern s) = m ++ rest.
Proof.
  intros Hm [_ _ _ Hl Hb Hs _ _]. pose proof (zlen_nonneg m). destruct (header_word (zlen m) ltac:(lia)) as (Hw & _).
  unfold frame in *. rewrite Hw in *. change (ztake 4 ((store32 (hton32 (2 ^ 31 + zlen m)) ++ m) ++ rest)) with (store32 (hton32 (2 ^ 31 + zlen m))) in Hb.
  change (zdrop 4 ((store32 (hton32 (2 ^ 31 + zlen m)) ++ m) ++ rest)) with (m ++ rest) in Hs. split; [|exact Hs].
  assert (E : fraghdr (inc s) = store32 (hton32 (2 ^ 31 + zlen m))) by (rewrite <- Hb; unfold ztake; rewrite take_ge; [reflexivity|unfold zlen in Hl; lia]).
  unfold hdr. rewrite E. unfold store32 at 1. eapply load_store32; [apply hton32_range|reflexivity].
Qed.

Lemma hdr_store w i : 0 <= w < 2 ^ 32 -> hdr (set_fraghdr (store32 w) i) = w.
Proof. intros Hw. unfold hdr. cbn. unfold store32. eapply load_store32; [exact Hw|reflexivity]. Qed.

(** ** Messages *)

(** What the upper layers are given for a message. *)
Definition cut_as (m : list Z) (sp : option Z) (inf : option info) : pollin :=
  mk_pollin (match sp with None => [map Some m] | Some h => [map Some (ztake h m); map Some (zdrop h m)] end) (word m 4 =? REPLY) inf.
Definition cut (e : rpc) (m : list Z) (p : pollin) : Prop := exists sp inf, well_formed e m sp inf /\ p = cut_as m sp inf.

(** The state machine before it is reset, and between messages. *)
Definition emptied (F : list Z) (s : sock) : Prop :=
  (frag_state (in_frag (inc s)), simple_state (in_frag (inc s)), call_body (in_frag (inc s)), bytes_read (in_frag (inc s))) =
    (SP_STATE_RPCFRAG_INIT, SP_STATE_SIMPLE_MSG_INIT, mk_body 0 0 0 0, 0) /\
  iobuf (inc s) = None /\ zlen (fraghdr (inc s)) = 4 /\ stream (kern s) = F.

Definition between (F : list Z) (s : sock) : Prop :=
  record_state (inc s) = SP_STATE_NADA /\ idle (inc s) /\ zlen (fraghdr (inc s)) = 4 /\ stream (kern s) = F.

Section message.
Context (e : rpc) (m rest : list Z).
Context (Hf : fine e m).

Abbreviation L := (zlen m).

Definition turn_post (t : turn) (s' : sock) : Prop :=
  (t = T_out 1 /\ blocked s' /\ (exists b, stopped e m rest b s')) \/ (exists p, t = T_complete 0 p /\ cut e m p /\ emptied rest s') \/ (t = T_out (-1) /\ broken s').

Lemma fraghdr_len i : fragsize i = L -> zlen (fraghdr i) = 4.
Proof.
  destruct Hf as [Hm _]. unfold fragsize, hdr. destruct (fraghdr i) as [|a [|b [|c [|d [|? ?]]]]]; intros E; try reflexivity; change (0 = L) in E; lia.
Qed.

Section arrived.
Context (b : Z).

Lemma record_bytes d n s (Q : list (option Z) -> sock -> Prop) :
  SocketRead.core m rest b d L s -> n <= in_record d L -> 0 <= n <= L -> Q (map Some (ztake n m)) s -> wp (fetch_raw (P b 0) n) Q s.
Proof.
  intros C Hn Hl HQ. destruct (mo_main _ _ _ _ _ _ (c_mem _ _ _ _ _ _ C)) as (bf & Hb & Hs & Hc).
  assert (E : n = zlen (ztake n m)) by (rewrite zlen_ztake; lia). rewrite E at 1. eapply wp_fetch_raw; [exact Hb|lia|lia| |exact HQ].
  intros i Hi. rewrite <- E in Hi. rewrite Z.add_0_l, Hc by lia. rewrite byte_ztake, (proj2 (Z.ltb_lt _ _)) by lia. reflexivity.
Qed.

Lemma payload_bytes pb h s (Q : list (option Z) -> sock -> Prop) :
  SocketRead.core m rest b (D_payload pb h) L s -> Q (map Some (zdrop h m)) s -> wp (fetch_raw (P pb 0) (L - h)) Q s.
Proof.
  intros C HQ. destruct (mo_dest _ _ _ _ _ _ (c_mem _ _ _ _ _ _ C)) as (Hne & Hh & pf & Hp & Hs & Hc).
  assert (E : L - h = zlen (zdrop h m)) by (rewrite zlen_zdrop; lia). rewrite E at 1. eapply wp_fetch_raw; [exact Hp|lia|lia| |exact HQ].
  intros i Hi. rewrite <- E in Hi. rewrite Z.add_0_l. replace i with (h + i - h) at 1 by lia. rewrite Hc by lia. rewrite byte_zdrop by lia. reflexivity.
Qed.

Lemma ztake_all : ztake L m = m.
Proof. unfold ztake, zlen. rewrite Nat2Z.id. apply take_ge. lia. Qed.

Lemma all_read d s : SocketRead.core m rest b d L s -> stream (kern s) = rest.
Proof.
  intros C. rewrite (c_stream _ _ _ _ _ _ C). unfold zdrop. rewrite drop_ge; [reflexivity|]. unfold zlen. lia.
Qed.

(** The whole message is there: it is given to the upper layers. *)
Lemma deliver_spec s :
  SocketCalls.arrived e m rest b SP_STATE_RPCFRAG_INIT (mk_body 0 0 0 0) s ->
  wp (deliver 0) turn_post (mk_sock (set_frag (set_bytes 0 (in_frag (inc s))) (inc s)) (mem s) (kern s)).
Proof.
  intros (sp & inf & Hw & p & H). unfold deliver. wp_go.
  assert (D : forall d v base pl (R : SocketParse.reading m rest b d L s),
    ctl s = mk_control SP_STATE_RPCFRAG_INIT SP_STATE_SIMPLE_MSG_INIT (mk_body 0 0 0 0) (word m 4) p base (Some pl) inf -> v = cut_as m sp inf ->
    turn_post (T_complete 0 v) (mk_sock (set_info None (set_iobuf None (set_record_state SP_STATE_COMPLETE
      (set_frag (set_bytes 0 (in_frag (inc s))) (inc s))))) (mem s) (kern s))).
  { intros d v base pl R E ->. right. left. eexists. split; [reflexivity|]. split; [exists sp, inf; auto|].
    unfold ctl in E. injection E as C1 C2 C3 C4 C5 C6 C7 C8. unfold emptied. cbn. rewrite C1, C2, C3.
    split; [reflexivity|]. split; [reflexivity|]. split; [|eapply all_read, R]. apply (fraghdr_len (inc s)). apply R. }
  assert (C1 : forall d, SocketParse.reading m rest b d L s ->
    SocketRead.core m rest b d L (mk_sock (set_frag (set_bytes 0 (in_frag (inc s))) (inc s)) (mem s) (kern s))).
  { intros d [C _ _ _ _ _ _]. destruct C. split; auto. destruct c_mem. split; assumption. }
  set (s1 := mk_sock (set_frag (set_bytes 0 (in_frag (inc s))) (inc s)) (mem s) (kern s)) in *.
  destruct sp as [h|]; [destruct H as (pb & R & E)|destruct H as (R & E)]; pose proof (D _ (cut_as m _ inf) _ _ R E eq_refl) as Hd; pose proof (C1 _ R) as C;
    unfold ctl in E; injection E as E1 E2 E3 E4 E5 E6 E7 E8; rewrite (E4 : msg_type (inc s1) = _), (E6 : payload_base (inc s1) = _), (E7 : payload_len (inc s1) = _), (E8 : request_info (inc s1) = _),
      (rd_iobuf _ _ _ _ _ _ R : iobuf (inc s1) = _), (rd_total _ _ _ _ _ _ R : total_bytes_read (inc s1) = _).
  - pose proof (mo_dest _ _ _ _ _ _ (c_mem _ _ _ _ _ _ C)) as (_ & Hh & _). apply wp_bind. replace (L - (L - h)) with h by lia.
    eapply record_bytes; [exact C|cbn [in_record]; lia|lia|]. apply wp_bind. eapply wp_bind, payload_bytes; [exact C|]. wp_go. exact Hd.
  - apply wp_bind. rewrite Z.sub_0_r. pose proof (zlen_nonneg m). eapply record_bytes; [exact C|cbn [in_record]; lia|lia|]. wp_go. rewrite ztake_all. exact Hd.
Qed.

(** A fragment, from its start or from where the reader has stopped. *)
Lemma reading_frag_spec s : in_message e m rest b s -> wp (reading_frag e) turn_post s.
Proof.
  intros H. destruct Hf as [Hm Hc]. unfold reading_frag. apply wp_bind. eapply wp_mono; [apply (read_frag_spec e m rest b Hm s Hc H)|].
  intros r s' [(-> & St & Bl)|[(-> & Ha)|(-> & Hb)]]; wp_go.
  - pose proof St as (d & k & g & W & Hk & _). pose proof (wt_reading _ _ _ _ _ _ _ W) as R.
    rewrite (rd_bytes _ _ _ _ _ _ R), (c_size _ _ _ _ _ _ (rd_core _ _ _ _ _ _ R)). rewrite (proj2 (Z.eqb_neq k L)) by lia. cbn. wp_go. left. eauto.
  - destruct (arrived_reading _ _ _ _ _ _ _ Ha) as [d R].
    rewrite (rd_bytes _ _ _ _ _ _ R), (c_size _ _ _ _ _ _ (rd_core _ _ _ _ _ _ R)), Z.eqb_refl. cbn [Z.eqb orb negb]. wp_go.
    rewrite (rd_last _ _ _ _ _ _ R). cbn [negb]. apply deliver_spec, Ha.
  - cbn [Z.eqb orb]. wp_go. right. right. auto.
Qed.

End arrived.
Lemma read_fraghdr_spec (s : sock) : heading (frame m ++ rest) 4 s -> in_ra (inc s) = no_readahead ->
  wp (read_fraghdr e) turn_post (mk_sock (set_record_state SP_STATE_READ_FRAGHDR (inc s)) (mem s) (kern s)).
Proof.
  intros Hg Hra. pose proof Hf as [Hm _]. destruct (header_bytes m rest s ltac:(lia) Hg) as [Hh Hst]. destruct Hg as [_ _ _ _ _ _ [Hi1 Hi2] Ht].
  destruct (header_word L ltac:(lia)) as (_ & Hfs & Hlf). assert (Hr : 0 <= 2 ^ 31 + L < 2 ^ 32) by lia.
  unfold read_fraghdr, iobuf_get2. wp_go. cbn [inc mem kern].
  set (i0 := set_record_state SP_STATE_READ_FRAGHDR (inc s)). rewrite (Hh : hdr i0 = _), (hton32_involutive _ Hr).
  injection Hi1 as C1 C2 C3 C4. injection Hi2 as C5 C6 C7 C8.
  set (i1 := set_fraghdr (store32 (2 ^ 31 + L)) i0).
  assert (Hsz : fragsize i1 = L) by (unfold fragsize, i1; rewrite hdr_store by exact Hr; exact Hfs).
  assert (Htot : total_bytes_read i1 + fragsize i1 = L) by (rewrite Hsz; unfold i1, i0; cbn [total_bytes_read set_fraghdr set_record_state]; rewrite Ht; lia). rewrite Htot.
  set (i2 := set_total L i1). change (total_bytes_read i2) with L. change (iobuf i2) with (iobuf (inc s)). rewrite C5.
  rewrite (proj2 (Z.leb_gt GF_UNIT_GB L)) by (unfold GF_UNIT_GB; lia). apply wp_bind. wp_go.
  apply (reading_frag_spec (next_id (mem s))). left. exists (msg_type (inc s)), (proghdr_base_addr (inc s)).
  split; [|unfold ctl; cbn; rewrite C1, C2, C3, C6, C7, C8; reflexivity].
  split; cbn; auto; [|change (RPC_LASTFRAG (hdr i1) = true); unfold i1; rewrite hdr_store by exact Hr; exact Hlf|lia].
  split; cbn; auto; [lia| | |rewrite Hra, Hst; reflexivity].
  - split; [|exact I]. eexists. split; [apply lookup_insert_eq|]. split; [reflexivity|]. rewrite Hra. cbn. intros i Hi. lia.
  - right. unfold ra_fresh. cbn. rewrite Hra. cbn. auto.
Qed.

End message.

(** A message that the sender may send can be too long for the receiver. *)
Lemma too_long_spec e m rest s :
  2 ^ 30 <= zlen m < 2 ^ 31 -> heading (frame m ++ rest) 4 s -> wp (read_fraghdr e) (fun t _ => t = T_out (-12)) s.
Proof.
  intros Hm Hg. destruct (header_bytes m rest s ltac:(lia) Hg) as [Hh _]. pose proof (hg_total _ _ _ Hg) as Ht.
  destruct (header_word (zlen m) ltac:(lia)) as (_ & Hfs & _). assert (Hr : 0 <= 2 ^ 31 + zlen m < 2 ^ 32) by lia.
  unfold read_fraghdr. wp_go. cbn [inc mem kern]. rewrite Hh, (hton32_involutive _ Hr). set (i1 := set_fraghdr (store32 (2 ^ 31 + zlen m)) (inc s)).
  assert (Htot : total_bytes_read i1 + fragsize i1 = zlen m).
  { unfold fragsize, i1. rewrite hdr_store, Hfs by exact Hr. cbn [total_bytes_read set_fraghdr]. lia. }
  rewrite Htot. change (total_bytes_read (set_total (zlen m) i1)) with (zlen m).
  rewrite (proj2 (Z.leb_le GF_UNIT_GB _)) by (unfold GF_UNIT_GB; lia). wp_go. reflexivity.
Qed.

(** ** Connections *)

(** The messages [ms] are still to be delivered. *)
Definition conn (e : rpc) (ms : list (list Z)) (s : sock) : Prop :=
  between (frames ms) s \/ (exists j, j < 4 /\ heading (frames ms) j s /\ aims j s) \/
  (exists m ms' b, ms = m :: ms' /\ stopped e m (frames ms') b s).

Definition machine_post (e : rpc) (ms : list (list Z)) (rp : Z * option pollin) (s' : sock) : Prop :=
  (rp = (1, None) /\ blocked s' /\ conn e ms s') \/ (exists m ms' v, ms = m :: ms' /\ rp = (0, Some v) /\ cut e m v /\ conn e ms' s') \/ (rp = (-1, None) /\ broken s').

(** How a turn of the loop ends. *)
Definition round_post (e : rpc) (ms : list (list Z)) (t : turn) (s' : sock) : Prop :=
  (t = T_out 1 /\ blocked s' /\ conn e ms s') \/ (exists m ms' v, ms = m :: ms' /\ t = T_complete 0 v /\ cut e m v /\ emptied (frames ms') s') \/ (t = T_out (-1) /\ broken s').

Lemma turn_round e m ms t s : turn_post e m (frames ms) t s -> round_post e (m :: ms) t s.
Proof.
  intros [(-> & Bl & b & St)|[(v & -> & Hc & He)|(-> & Hb)]]; [left|right; left|right; right]; auto.
  - split; [reflexivity|]. split; [exact Bl|]. right. right. exists m, ms, b. auto.
  - exists m, ms, v. auto.
Qed.

Lemma heading_4 ms s : heading (frames ms) 4 s -> exists m ms', ms = m :: ms'.
Proof. intros Hg. destruct ms as [|m ms']; [|eauto]. pose proof (hg_some _ _ _ Hg) as H. cbv in H. congruence. Qed.

Lemma reading_fraghdr_spec e ms j s :
  Forall (fine e) ms -> j < 4 -> heading (frames ms) j s -> aims j s -> wp (reading_fraghdr e) (round_post e ms) s.
Proof.
  intros Hf Hj Hg Ha. unfold reading_fraghdr. apply wp_bind. eapply wp_mono; [eapply header_spec; eassumption|].
  intros [r n] s' [(-> & Hg' & Hra)|[(-> & Bl & j' & Hj' & Hg' & Ha')|(-> & Hb)]]; cbn [Z.eqb negb]; wp_go.
  - destruct (heading_4 ms s' Hg') as (m & ms' & ->). apply Forall_cons in Hf as [Hf _].
    eapply wp_mono; [apply (read_fraghdr_spec e m (frames ms') Hf s' Hg' Hra)|intros t s2; apply turn_round].
  - left. split; [reflexivity|]. split; [exact Bl|]. right. left. eauto.
  - right. right. auto.
Qed.

(** One turn of the loop, from any state of a connection. *)
Definition round (e : rpc) (st : sp_rpcrecord_state) : M turn :=
  match st with
  | SP_STATE_NADA =>
    upd (fun i => set_payload (payload_base i) (Some 0) (set_total 0 i)) ;;
    want_fraghdr ;; reading_fraghdr e
  | SP_STATE_READING_FRAGHDR => reading_fraghdr e
  | SP_STATE_READ_FRAGHDR => read_fraghdr e
  | SP_STATE_READING_FRAG => reading_frag e
  | SP_STATE_COMPLETE => undefined
  end.

Lemma round_spec e ms s : Forall (fine e) ms -> conn e ms s -> wp (round e (record_state (inc s))) (round_post e ms) s.
Proof.
  intros Hf [(Hst & Hi & Hl & Hs)|[(j & Hj & Hg & Ha)|(m & ms' & b & -> & St)]].
  - rewrite Hst. cbn [round]. unfold want_fraghdr. wp_go. apply (reading_fraghdr_spec e ms 0); auto; [lia| |split; reflexivity].
    split; auto; [lia|apply zlen_nonneg|]. destruct Hi as [Hi1 Hi2]. split; [exact Hi1|]. injection Hi2 as C1 C2 C3 C4. cbn. congruence.
  - rewrite (hg_state _ _ _ Hg). eapply reading_fraghdr_spec; eassumption.
  - assert (Hst : record_state (inc s) = SP_STATE_READING_FRAG).
    { destruct St as (d & k & g & W & _). apply W. }
    rewrite Hst. cbn [round]. apply Forall_cons in Hf as [Hf _].
    eapply wp_mono; [apply (reading_frag_spec e m (frames ms') Hf b); right; exact St|intros t s2; apply turn_round].
Qed.

Lemma reset_spec F (s : sock) (Q : unit -> sock -> Prop) :
  emptied F s -> (forall s', between F s' -> Q tt s') -> 
  wp __socket_reset_priv Q (mk_sock (set_record_state SP_STATE_NADA (inc s)) (mem s) (kern s)).
Proof.
  intros (H1 & H2 & H3 & H4) HQ. unfold __socket_reset_priv. wp_go. cbn [inc iobuf set_record_state]. rewrite H2. wp_go.
  apply HQ. split; [reflexivity|]. split; [|split; [exact H3|exact H4]]. split; [exact H1|reflexivity].
Qed.

Lemma machine_loop_spec e ms fuel s : Forall (fine e) ms -> conn e ms s -> wp (machine_loop e (S fuel)) (machine_post e ms) s.
Proof.
  intros Hf Hc. cbn [machine_loop]. wp_go. fold (round e (record_state (inc s))).
  eapply wp_mono; [apply round_spec; eassumption|]. intros t s' [(-> & Bl & Hc')|[(m & ms' & v & -> & -> & Hcut & He)|(-> & Hb)]]; wp_go.
  - left. auto.
  - apply (reset_spec (frames ms')); [exact He|]. intros s2 Hbt. wp_go. right. left. exists m, ms', v. split; [reflexivity|]. split; [reflexivity|].
    split; [exact Hcut|]. left. exact Hbt.
  - right. right. auto.
Qed.

Lemma state_machine_spec e ms s : Forall (fine e) ms -> conn e ms s -> wp (__socket_proto_state_machine e) (machine_post e ms) s.
Proof.
  intros Hf Hc. unfold __socket_proto_state_machine. wp_go. rewrite Nat.add_comm. cbn [Nat.add].
  eapply wp_mono; [apply machine_loop_spec; eassumption|]. intros [r p] s' H. wp_go.
  assert (E : (if (r =? -1) && errno_again (kern s') then 0 else r) = r).
  { destruct H as [([= -> ->] & _)|[(m & ms' & v & _ & [= -> ->] & _)|([= -> ->] & _ & Hb)]]; [reflexivity|reflexivity|rewrite Hb; reflexivity]. }
  rewrite E. exact H.
Qed.

(** ** Events *)

Lemma core_kern m rest b d k s kn : SocketRead.core m rest b d k s -> stream kn = stream (kern s) -> SocketRead.core m rest b d k (mk_sock (inc s) (mem s) kn).
Proof. intros C E. destruct C. split; auto; [destruct c_mem; split; assumption|]. cbn. rewrite E. exact c_stream. Qed.

Lemma stopped_kern e m rest b s kn : stopped e m rest b s -> stream kn = stream (kern s) -> stopped e m rest b (mk_sock (inc s) (mem s) kn).
Proof.
  intros (d & k & g & W & Hk & Hst & Hr & Hs) E. exists d, k, g. split.
  - destruct W as [R A Wr]. split; auto. destruct R. split; auto. apply core_kern; auto.
  - split; [exact Hk|]. split; [exact Hst|]. split; [exact Hr|]. cbn. congruence.
Qed.

Lemma conn_kern e ms s kn : conn e ms s -> stream kn = stream (kern s) -> conn e ms (mk_sock (inc s) (mem s) kn).
Proof.
  intros [(H1 & H2 & H3 & H4)|[(j & Hj & Hg & Ha)|(m & ms' & b & -> & St)]] E.
  - left. split; [exact H1|]. split; [exact H2|]. split; [exact H3|]. cbn. congruence.
  - right. left. exists j. split; [exact Hj|]. split; [|exact Ha]. destruct Hg. split; auto. cbn. congruence.
  - right. right. exists m, ms', b. split; [reflexivity|]. apply stopped_kern; assumption.
Qed.

Lemma poll_in_spec e ms events s :
  Forall (fine e) ms -> conn e ms s -> exists rp s', socket_event_poll_in e events s = Some (rp, s') /\ machine_post e ms rp s'.
Proof.
  intros Hf Hc. unfold socket_event_poll_in. set (s0 := mk_sock _ _ _).
  pose proof (state_machine_spec e ms s0 Hf (conn_kern _ _ _ (kern s0) Hc eq_refl)) as H. unfold wp in H.
  destruct (__socket_proto_state_machine e s0) as [[rp s']|]; [eauto|contradiction].
Qed.

(** A connection that has no more bytes to come has delivered everything. *)
Lemma conn_drained e ms s : conn e ms s -> stream (kern s) = [] -> ms = [].
Proof.
  intros Hc Hs. destruct ms as [|m ms]; [reflexivity|exfalso].
  assert (Hl : 4 <= zlen (frames (m :: ms))).
  { unfold frames. cbn [map concat]. rewrite zlen_app, zlen_frame. pose proof (zlen_nonneg m). pose proof (zlen_nonneg (concat (map frame ms))). lia. }
  destruct Hc as [(_ & _ & _ & H)|[(j & Hj & Hg & _)|(m' & ms' & b & _ & d & k & g & W & Hk & _ & _ & H)]].
  - rewrite Hs in H. rewrite <- H in Hl. cbv in Hl. congruence.
  - pose proof (hg_stream _ _ _ Hg) as H. pose proof (hg_pos _ _ _ Hg). rewrite Hs in H. apply (f_equal zlen) in H. rewrite zlen_zdrop in H. change (zlen []) with 0 in H. lia.
  - rewrite Hs in H. apply (f_equal zlen) in H. pose proof (c_pos _ _ _ _ _ _ (rd_core _ _ _ _ _ _ (wt_reading _ _ _ _ _ _ _ W))) as Hp.
    rewrite zlen_app, zlen_zdrop in H. pose proof (zlen_nonneg (frames ms')). change (zlen []) with 0 in H. lia.
Qed.

Lemma just_connected_conn e ms : conn e ms (just_connected (frames ms)).
Proof. left. repeat split. Qed.
