(* ===== verification/SocketSend.v ===== *)
(** * RPC records: sending

    Models the way out in [rpc/rpc-transport/socket/src/socket.c]: a message gets a
    header and is written at once when nothing waits; what the kernel does not take
    waits in a queue for the socket to become writable.  The state is the part of
    [socket_private_t] that this uses, with the bytes the kernel has taken.

    The buffers of a message are not changed while it is queued (the queue has a
    reference to them), so a vector is its bytes.  How much each write takes is a
    schedule.  The transport with a thread of its own is not part of the model. *)

From S2P Require Import Prelude Words Bytes Socket.
Open Scope Z_scope.

(** ** State *)

(** [msg->rpchdr], [msg->proghdr] and [msg->progpayload]. *)
Record rpc_transport_msg := mk_msg { rpchdr : list (list Z); proghdr : list (list Z); progpayload : list (list Z) }.

(** What is left to be written of an entry; the count is -1 after a failure. *)
Record ioq := mk_ioq { pending_vectors : list (list Z); pending_count : Z }.

(** A write takes up to [k] bytes, or none. *)
Inductive wevent := W_take (k : Z) | W_zero | W_again | W_intr | W_fail.

(** [select_out]: the event loop waits for the socket to become writable. *)
Record outgoing := mk_outgoing { connected : Z; ioqs : list ioq; select_out : bool; wire : list Z }.

Definition set_connected v o := mk_outgoing v (ioqs o) (select_out o) (wire o).
Definition set_ioqs v o := mk_outgoing (connected o) v (select_out o) (wire o).
Definition set_select v o := mk_outgoing (connected o) (ioqs o) v (wire o).
Definition set_wire v o := mk_outgoing (connected o) (ioqs o) (select_out o) v.

(** ** Entries *)

(** [iov_length] adds sizes and returns an int. *)
Definition iov_length (vs : list (list Z)) : Z := s32 (u64 (zlen (concat vs))).

Definition socket_set_lastfrag (size : Z) : Z := Z.lor 0x80000000 size.
Definition socket_set_last_frag_header_size (size : Z) : list Z := store32 (hton32 (socket_set_lastfrag size)).

(** [None]: the sum of the lengths overflows, or the vectors of the message do not
    fit into the entry; [Some None]: the message is refused. *)
Definition __socket_ioq_new (m : rpc_transport_msg) : option (option ioq) :=
  let vs := rpchdr m ++ proghdr m ++ progpayload m in
  if zlen vs <=? MAX_IOVEC - 1 then
    let sum := iov_length (rpchdr m) + iov_length (proghdr m) + iov_length (progpayload m) in
    if (- 2 ^ 31 <=? iov_length (rpchdr m) + iov_length (proghdr m)) && (iov_length (rpchdr m) + iov_length (proghdr m) <? 2 ^ 31) &&
       (- 2 ^ 31 <=? sum) && (sum <? 2 ^ 31) then
      let size := u32 sum in
      if RPC_MAX_FRAGMENT_SIZE <? size then Some None
      else Some (Some (mk_ioq (socket_set_last_frag_header_size size :: vs) (1 + zlen vs)))
    else None
  else None.

(** ** Writing *)

Fixpoint skip_empty (vs : list (list Z)) : list (list Z) :=
  match vs with [] => [] | v :: vs' => if zlen v =? 0 then skip_empty vs' else vs end.

(** The inner loop: [n] bytes were written. *)
Fixpoint move_on (n : Z) (vs : list (list Z)) : list (list Z) :=
  if n <=? 0 then vs
  else
    match vs with
    | [] => []
    | v :: vs' =>
      if zlen v =? 0 then move_on n vs'
      else if zlen v <=? n then move_on (n - zlen v) vs'
      else zdrop n v :: vs'
    end.

(** The loop of [__socket_rwv] for a write: the value and what is pending, then the
    bytes that the kernel has. *)
Fixpoint writev_loop (events : list wevent) (vs : list (list Z)) (w : list Z) : Z * list (list Z) * list Z :=
  match skip_empty vs with
  | [] => (0, [], w)
  | vs =>
    match events with
    | [] => (zlen vs, vs, w)
    | W_take k :: l =>
      let n := Z.min (Z.max 1 k) (zlen (concat vs)) in
      writev_loop l (move_on n vs) (w ++ ztake n (concat vs))
    | W_zero :: _ | W_again :: _ => (zlen vs, vs, w)
    | W_intr :: l => writev_loop l vs w
    | W_fail :: _ => (-1, vs, w)
    end
  end.

Definition __socket_writev (events : list wevent) (q : ioq) (w : list Z) : Z * ioq * list Z :=
  if 0 <? pending_count q then
    let '(r, vs, w') := writev_loop events (pending_vectors q) w in (r, mk_ioq vs r, w')
  else (pending_count q, q, w).

(** ** The queue *)

(** [None]: the entry was written and freed. *)
Definition __socket_ioq_churn_entry (events : list wevent) (q : ioq) (w : list Z) : Z * option ioq * list Z :=
  let '(r, q', w') := __socket_writev events q w in (r, if r =? 0 then None else Some q', w').

(** The writes of an entry go as the first list of [events] says, those of the next
    one as the second, and so on. *)
Fixpoint churn_loop (events : list (list wevent)) (qs : list ioq) (w : list Z) : Z * list ioq * list Z :=
  match qs with
  | [] => (0, [], w)
  | q :: qs' =>
    match __socket_ioq_churn_entry (hd [] events) q w with
    | (r, None, w') => churn_loop (tl events) qs' w'
    | (r, Some q', w') => (r, q' :: qs', w')
    end
  end.

Definition __socket_ioq_churn (events : list (list wevent)) (o : outgoing) : Z * outgoing :=
  let '(r, qs, w) := churn_loop events (ioqs o) (wire o) in
  let o' := set_wire w (set_ioqs qs o) in
  (r, if bool_decide (qs = []) then set_select false o' else o').

Definition __socket_ioq_flush (o : outgoing) : outgoing := set_ioqs [] o.

Definition __socket_disconnect (o : outgoing) : outgoing := set_connected (-1) o.

(** The part of it that concerns the way out. *)
Definition socket_event_poll_err (o : outgoing) : outgoing := set_connected (-1) (__socket_ioq_flush o).

(** The value before the upper layers are notified that the queue is empty. *)
Definition socket_event_poll_out (events : list (list wevent)) (o : outgoing) : Z * outgoing :=
  if connected o =? 1 then
    let '(r, o') := __socket_ioq_churn events o in
    (r, if r =? -1 then __socket_disconnect o' else o')
  else (-1, o).

(** [socket_submit_request] and [socket_submit_reply] are the same. *)
Definition socket_submit (events : list wevent) (m : rpc_transport_msg) (o : outgoing) : option (Z * outgoing) :=
  if connected o =? 1 then
    match __socket_ioq_new m with
    | None => None
    | Some None => Some (-1, o)
    | Some (Some q) =>
      match ioqs o with
      | [] =>
        match __socket_ioq_churn_entry events q (wire o) with
        | (r, None, w) => Some (r, set_wire w o)
        | (r, Some q', w) => Some (0, set_select (select_out o || (0 <? r)) (set_wire w (set_ioqs [q'] o)))
        end
      | qs => Some (0, set_ioqs (qs ++ [q]) o)
      end
    end
  else Some (-1, o).

Definition socket_submit_request := socket_submit.
Definition socket_submit_reply := socket_submit.

Definition fresh_out : outgoing := mk_outgoing 1 [] false [].
