(* ===== verification/SocketOut.v ===== *)
(** * RPC records: what is on the wire

    What the kernel has taken and what waits in the queue are always the frames of
    the messages that were accepted, in their order. *)

From S2P Require Import Prelude Words Bytes Socket SocketRead SocketParse SocketCalls SocketReplies SocketRecords SocketSend.
Open Scope Z_scope.

(** ** Writing *)

Lemma concat_skip vs : concat (skip_empty vs) = concat vs.
Proof.
  induction vs as [|v vs IH]; cbn; [reflexivity|]. destruct (Z.eqb_spec (zlen v) 0) as [Hz|Hz]; [|reflexivity].
  destruct v; [exact IH|]. unfold zlen in Hz. cbn in Hz. lia.
Qed.

Lemma skip_first vs v vs' : skip_empty vs = v :: vs' -> 0 < zlen v.
Proof.
  induction vs as [|x vs IH]; cbn; [discriminate|]. destruct (Z.eqb_spec (zlen x) 0) as [Hz|Hz]; [exact IH|]. intros [= -> ->]. pose proof (zlen_nonneg v). lia.
Qed.

Lemma zdrop_app_over {A} (l k : list A) n : zlen l <= n -> zdrop n (l ++ k) = zdrop (n - zlen l) k.
Proof. intros Hn. unfold zdrop, zlen in *. rewrite drop_app_ge by lia. f_equal. lia. Qed.

Lemma zdrop_app_in {A} (l k : list A) n : n <= zlen l -> zdrop n (l ++ k) = zdrop n l ++ k.
Proof. intros Hn. unfold zdrop, zlen in *. apply drop_app_le. lia. Qed.

Lemma zdrop_0 {A} (l : list A) n : n <= 0 -> zdrop n l = l.
Proof. intros Hn. unfold zdrop. replace (Z.to_nat n) with 0%nat by lia. reflexivity. Qed.

Lemma ztake_zdrop {A} (l : list A) n : ztake n l ++ zdrop n l = l.
Proof. apply take_drop. Qed.

Lemma move_on_spec n vs : n <= zlen (concat vs) -> concat (move_on n vs) = zdrop n (concat vs).
Proof.
  revert n. induction vs as [|v vs IH]; intros n Hn; cbn [move_on]; destruct (Z.leb_spec n 0) as [H0|H0].
  - rewrite zdrop_0; auto.
  - change (zlen (concat [])) with 0 in Hn. lia.
  - rewrite zdrop_0; auto.
  - cbn [concat] in Hn. rewrite zlen_app in Hn. destruct (Z.eqb_spec (zlen v) 0) as [Hz|Hz]; [|destruct (Z.leb_spec (zlen v) n) as [Hl|Hl]].
    + cbn [concat]. rewrite IH, zdrop_app_over by lia. f_equal. lia.
    + cbn [concat]. rewrite IH, zdrop_app_over by lia. reflexivity.
    + cbn [concat]. rewrite zdrop_app_in by lia. reflexivity.
Qed.

(** What a write leaves: everything is on the wire, or the rest is pending. *)
Definition left_by (r : Z) (vs : list (list Z)) : Prop := (r = 0 /\ vs = []) \/ (r = zlen vs /\ 0 < r) \/ r = -1.

Lemma writev_loop_spec events vs w :
  let '(r, vs', w') := writev_loop events vs w in w' ++ concat vs' = w ++ concat vs /\ left_by r vs'.
Proof.
  revert vs w. induction events as [|ev events IH]; intros vs w; cbn [writev_loop]; rewrite <- (concat_skip vs);
    destruct (skip_empty vs) as [|v vs'] eqn:Hs; try solve [split; [reflexivity|left; auto]]; pose proof (skip_first _ _ _ Hs) as Hv; set (vs2 := v :: vs') in *.
  - split; [reflexivity|]. right. left. split; [reflexivity|]. unfold vs2, zlen. cbn [length]. lia.
  - assert (Hagain : left_by (zlen vs2) vs2) by (right; left; split; [reflexivity|unfold vs2, zlen; cbn [length]; lia]).
    destruct ev as [k| | | |]; try (split; [reflexivity|exact Hagain]).
    + set (n := Z.min (Z.max 1 k) (zlen (concat vs2))). specialize (IH (move_on n vs2) (w ++ ztake n (concat vs2))).
      destruct (writev_loop events (move_on n vs2) _) as [[r vs3] w3]. rewrite move_on_spec in IH by lia. rewrite <- app_assoc, ztake_zdrop in IH. exact IH.
    + specialize (IH vs2 w). exact IH.
    + split; [reflexivity|]. right. right. reflexivity.
Qed.

(** ** Entries *)

Definition entry_ok (q : ioq) : Prop := pending_count q = -1 \/ (pending_count q = zlen (pending_vectors q) /\ 0 < pending_count q).
Definition pending_bytes (qs : list ioq) : list Z := concat (map (fun q => concat (pending_vectors q)) qs).

Lemma churn_entry_spec events q w :
  entry_ok q ->
  let '(r, oq, w') := __socket_ioq_churn_entry events q w in
  match oq with
  | None => r = 0 /\ w' = w ++ concat (pending_vectors q)
  | Some q' => w' ++ concat (pending_vectors q') = w ++ concat (pending_vectors q) /\ entry_ok q' /\ pending_count q' = r /\ (r = -1 \/ 0 < r)
  end.
Proof.
  intros Hq. unfold __socket_ioq_churn_entry, __socket_writev. destruct (Z.ltb_spec 0 (pending_count q)) as [Hc|Hc].
  - pose proof (writev_loop_spec events (pending_vectors q) w) as H. destruct (writev_loop events (pending_vectors q) w) as [[r vs'] w'].
    destruct H as [Hw [(-> & ->)|[(Hr & Hp)| ->]]]; cbn.
    + split; [reflexivity|]. rewrite app_nil_r in Hw. exact Hw.
    + rewrite (proj2 (Z.eqb_neq r 0)) by lia. split; [exact Hw|]. split; [right; auto|]. auto.
    + split; [exact Hw|]. split; [left; reflexivity|]. auto.
  - destruct Hq as [Hq|Hq]; [|lia]. rewrite Hq. cbn. split; [reflexivity|]. split; [left; exact Hq|]. auto.
Qed.

Lemma churn_loop_spec events qs w :
  Forall entry_ok qs ->
  let '(r, qs', w') := churn_loop events qs w in
  w' ++ pending_bytes qs' = w ++ pending_bytes qs /\ Forall entry_ok qs' /\
  ((r = 0 /\ qs' = []) \/ exists q l, qs' = q :: l /\ pending_count q = r /\ (r = -1 \/ 0 < r)).
Proof.
  revert events w. induction qs as [|q qs IH]; intros events w Hqs; cbn [churn_loop].
  { split; [reflexivity|]. split; [constructor|]. left. auto. }
  apply Forall_cons in Hqs as [Hq Hqs]. pose proof (churn_entry_spec (hd [] events) q w Hq) as H.
  destruct (__socket_ioq_churn_entry (hd [] events) q w) as [[r [q'|]] w'].
  - destruct H as (Hw & Hq' & Hr & Hr'). split; [|split; [constructor; assumption|right; eauto]].
    unfold pending_bytes. cbn [map concat]. rewrite !app_assoc, Hw. reflexivity.
  - destruct H as (-> & ->). specialize (IH (tl events) (w ++ concat (pending_vectors q)) Hqs).
    destruct (churn_loop (tl events) qs _) as [[r qs'] w']. destruct IH as (Hw & Hrest). split; [|exact Hrest].
    rewrite Hw. unfold pending_bytes. cbn [map concat]. rewrite app_assoc. reflexivity.
Qed.

Lemma churn_failed events q qs w : pending_count q = -1 -> churn_loop events (q :: qs) w = (-1, q :: qs, w).
Proof. intros Hq. cbn. unfold __socket_ioq_churn_entry, __socket_writev. rewrite Hq. reflexivity. Qed.

(** ** Messages *)

Definition msg_vectors (m : rpc_transport_msg) : list (list Z) := rpchdr m ++ proghdr m ++ progpayload m.
Definition msg_bytes (m : rpc_transport_msg) : list Z := concat (msg_vectors m).
Definition sendable (m : rpc_transport_msg) : Prop := zlen (msg_vectors m) <= 15 /\ zlen (msg_bytes m) < 2 ^ 31.

Lemma iov_length_id vs : zlen (concat vs) < 2 ^ 31 -> iov_length vs = zlen (concat vs).
Proof. intros H. pose proof (zlen_nonneg (concat vs)). unfold iov_length. rewrite u64_id, s32_id by lia. reflexivity. Qed.

Lemma ioq_new_spec m :
  sendable m -> exists q, __socket_ioq_new m = Some (Some q) /\ concat (pending_vectors q) = frame (msg_bytes m) /\ entry_ok q.
Proof.
  intros [Hn Hl]. unfold __socket_ioq_new. fold (msg_vectors m). unfold MAX_IOVEC. rewrite (proj2 (Z.leb_le _ (16 - 1))) by lia.
  assert (Hz : zlen (msg_bytes m) = zlen (concat (rpchdr m)) + zlen (concat (proghdr m)) + zlen (concat (progpayload m))).
  { unfold msg_bytes, msg_vectors. rewrite !concat_app, !zlen_app. lia. }
  pose proof (zlen_nonneg (concat (rpchdr m))). pose proof (zlen_nonneg (concat (proghdr m))). pose proof (zlen_nonneg (concat (progpayload m))).
  rewrite !iov_length_id by lia. rewrite <- Hz. rewrite !(proj2 (Z.leb_le _ _)), !(proj2 (Z.ltb_lt _ _)) by lia. cbn [andb].
  rewrite u32_id by lia. rewrite (proj2 (Z.ltb_ge RPC_MAX_FRAGMENT_SIZE _)) by (unfold RPC_MAX_FRAGMENT_SIZE; lia).
  eexists. split; [reflexivity|]. split; [reflexivity|]. right. cbn [pending_count pending_vectors]. pose proof (zlen_nonneg (msg_vectors m)).
  unfold zlen in *. cbn [length]. lia.
Qed.

(** ** Sequences *)

Inductive op := O_submit (events : list wevent) (m : rpc_transport_msg) | O_poll_out (events : list (list wevent)) | O_poll_err.

(** The messages that were accepted, and the state. *)
Fixpoint send (ops : list op) (acc : list (list Z)) (o : outgoing) : option (list (list Z) * outgoing) :=
  match ops with
  | [] => Some (acc, o)
  | O_submit events m :: ops =>
    match socket_submit events m o with
    | Some (r, o') => send ops (if r =? 0 then acc ++ [msg_bytes m] else acc) o'
    | None => None
    end
  | O_poll_out events :: ops => send ops acc (socket_event_poll_out events o).2
  | O_poll_err :: ops => send ops acc (socket_event_poll_err o)
  end.

Definition op_ok (x : op) : Prop := match x with O_submit _ m => sendable m | _ => True end.

(** Someone will see to the queue: the event loop, or an error. *)
Definition attended (o : outgoing) : Prop :=
  match ioqs o with [] => True | q :: _ => select_out o = true \/ pending_count q = -1 end.

Record sending (acc : list (list Z)) (o : outgoing) : Prop := {
  sd_entries : Forall entry_ok (ioqs o);
  sd_wire : exists lost, wire o ++ pending_bytes (ioqs o) ++ lost = frames acc /\ (connected o = 1 -> lost = []);
  sd_attended : attended o
}.

Lemma frames_snoc acc m : frames (acc ++ [m]) = frames acc ++ frame m.
Proof. unfold frames. rewrite map_app, concat_app. cbn. rewrite app_nil_r. reflexivity. Qed.

Lemma pending_snoc qs q : pending_bytes (qs ++ [q]) = pending_bytes qs ++ concat (pending_vectors q).
Proof. unfold pending_bytes. rewrite map_app, concat_app. cbn. rewrite app_nil_r. reflexivity. Qed.

Lemma submit_spec acc o events m :
  sending acc o -> sendable m ->
  exists r o', socket_submit events m o = Some (r, o') /\ sending (if r =? 0 then acc ++ [msg_bytes m] else acc) o'.
Proof.
  intros [He (lost & Hw & Hl) Ha] Hm. unfold socket_submit. destruct (Z.eqb_spec (connected o) 1) as [Hc|Hc].
  2:{ exists (-1), o. split; [reflexivity|]. split; [exact He|exists lost; auto|exact Ha]. }
  specialize (Hl Hc) as ->. rewrite app_nil_r in Hw. destruct (ioq_new_spec m Hm) as (q & -> & Hq & Hok).
  destruct (ioqs o) as [|q0 qs] eqn:Hqs.
  - pose proof (churn_entry_spec events q (wire o) Hok) as H. change (pending_bytes []) with (@nil Z) in Hw. rewrite app_nil_r in Hw.
    destruct (__socket_ioq_churn_entry events q (wire o)) as [[r [q'|]] w].
    + destruct H as (Hw' & Hok' & Hr & Hr'). exists 0. eexists. split; [reflexivity|]. cbn [Z.eqb].
      split; cbn; [constructor; [exact Hok'|constructor]| |].
      * exists []. unfold pending_bytes. cbn. rewrite !app_nil_r, frames_snoc, <- Hw, <- Hq. auto.
      * unfold attended. cbn. destruct Hr' as [Hr'|Hr']; [right; congruence|left]. rewrite (proj2 (Z.ltb_lt _ _) Hr'). apply orb_true_r.
    + destruct H as (-> & ->). exists 0. eexists. split; [reflexivity|]. cbn [Z.eqb]. split; cbn.
      * rewrite Hqs. constructor.
      * exists []. rewrite Hqs. cbn. rewrite app_nil_r, frames_snoc, Hw, Hq. auto.
      * unfold attended. cbn. rewrite Hqs. exact I.
  - exists 0. eexists. split; [reflexivity|]. cbn [Z.eqb]. split; cbn [ioqs wire connected set_ioqs].
    + apply Forall_app. split; [exact He|constructor; [exact Hok|constructor]].
    + exists []. rewrite app_nil_r, pending_snoc, app_assoc, frames_snoc, Hq, Hw. auto.
    + unfold attended in *. cbn. rewrite Hqs in Ha. exact Ha.
Qed.

Lemma poll_out_spec acc o events : sending acc o -> sending acc (socket_event_poll_out events o).2.
Proof.
  intros [He (lost & Hw & Hl) Ha]. unfold socket_event_poll_out. destruct (connected o =? 1); [|split; [exact He|exists lost; auto|exact Ha]].
  unfold __socket_ioq_churn. pose proof (churn_loop_spec events (ioqs o) (wire o) He) as H. destruct (churn_loop events (ioqs o) (wire o)) as [[r qs'] w'] eqn:Ech.
  destruct H as (Hw' & He' & Hr). rewrite app_assoc, <- Hw', <- app_assoc in Hw. cbn.
  destruct Hr as [(-> & ->)|(q & l & -> & Hq & Hr)].
  - rewrite bool_decide_eq_true_2 by reflexivity. cbn. split; cbn; [constructor|exists lost; auto|exact I].
  - rewrite bool_decide_eq_false_2 by discriminate. assert (Hat : select_out o = true \/ pending_count q = -1).
    { rewrite Hq. destruct Hr as [-> | Hr]; [auto|left]. unfold attended in Ha. destruct (ioqs o) as [|q0 l0]; [discriminate|]. destruct Ha as [Ha|Ha]; [exact Ha|].
      rewrite (churn_failed events q0 l0 (wire o) Ha) in Ech. injection Ech as <- _ _. lia. }
    destruct (r =? -1); (split; cbn; [exact He'| |exact Hat]); exists lost; (split; [exact Hw|]); auto. discriminate.
Qed.

Lemma poll_err_spec acc o : sending acc o -> sending acc (socket_event_poll_err o).
Proof.
  intros [He (lost & Hw & Hl) Ha]. split; cbn; [constructor| |exact I]. exists (pending_bytes (ioqs o) ++ lost). split; [exact Hw|discriminate].
Qed.

Lemma send_spec ops acc o :
  Forall op_ok ops -> sending acc o -> exists acc' o', send ops acc o = Some (acc', o') /\ sending acc' o'.
Proof.
  revert acc o. induction ops as [|x ops IH]; intros acc o Hops Hs; cbn [send]; [eauto|]. apply Forall_cons in Hops as [Hx Hops]. destruct x as [events m|events|].
  - destruct (submit_spec acc o events m Hs Hx) as (r & o' & -> & Hs'). apply IH; assumption.
  - apply IH; [exact Hops|]. apply poll_out_spec, Hs.
  - apply IH; [exact Hops|]. apply poll_err_spec, Hs.
Qed.

Lemma sending_fresh : sending [] fresh_out.
Proof. split; cbn; [constructor|exists []; auto|exact I]. Qed.
