(* ===== verification/SocketProps.v ===== *)
(** * RPC records: properties

    Every connection that carries well-formed messages delivers them in order and
    whole, however the kernel cuts them up; what is sent is what was accepted; and
    the two together.  At the end the messages for which this does not hold. *)

From S2P Require Import Prelude Words Bytes Socket SocketRead SocketParse SocketCalls SocketReplies SocketRecords SocketSend SocketOut.
From stdpp Require Import gmap.
Open Scope Z_scope.

(** ** Sequences of events *)

(** The messages that the events on a socket deliver; [false] when the connection was
    given up with an error. *)
Fixpoint polls (e : rpc) (evs : list (list event)) (s : sock) : option (list pollin * bool * sock) :=
  match evs with
  | [] => Some ([], true, s)
  | ev :: evs =>
    match socket_event_poll_in e ev s with
    | None => None
    | Some (r, p, s') =>
      let got := match p with Some v => [v] | None => [] end in
      if r <? 0 then Some (got, false, s')
      else match polls e evs s' with None => None | Some (ps, alive, s2) => Some (got ++ ps, alive, s2) end
    end
  end.

(** What has been delivered of [ms], and what the state is then. *)
Definition delivered (e : rpc) (ms : list (list Z)) (ps : list pollin) (alive : bool) (s : sock) : Prop :=
  exists done todo, ms = done ++ todo /\ Forall2 (cut e) done ps /\ (if alive then conn e todo s else broken s).

Lemma polls_spec e ms evs s :
  Forall (fine e) ms -> conn e ms s -> exists ps alive s', polls e evs s = Some (ps, alive, s') /\ delivered e ms ps alive s'.
Proof.
  revert ms s. induction evs as [|ev evs IH]; intros ms s Hf Hc; cbn [polls].
  { exists [], true, s. split; [reflexivity|]. exists [], ms. auto. }
  destruct (poll_in_spec e ms ev s Hf Hc) as ([r p] & s1 & -> & [([= -> ->] & _ & Hc1)|[(m & ms' & v & -> & [= -> ->] & Hcut & Hc1)|([= -> ->] & Hb)]]).
  - destruct (IH ms s1 Hf Hc1) as (ps & alive & s2 & -> & Hd). exists ps, alive, s2. split; [reflexivity|exact Hd].
  - apply Forall_cons in Hf as [_ Hf]. destruct (IH ms' s1 Hf Hc1) as (ps & alive & s2 & -> & done & todo & -> & HF & Ha).
    exists (v :: ps), alive, s2. split; [reflexivity|]. exists (m :: done), todo. split; [reflexivity|]. split; [constructor; assumption|exact Ha].
  - exists [], false, s1. split; [reflexivity|]. exists [], ms. auto.
Qed.

(** ** The message determines what is delivered *)

Lemma walks_unique m sz base st cur h h' : walks m sz base st cur h -> walks m sz base st cur h' -> h = h'.
Proof.
  intros H. revert h'. induction H as [st cur Hsz|st cur st' n h Hsz Hn Hc H IH]; intros h' H'; inversion H' as [? ? Hsz'|? ? ? ? ? Hsz' Hn' Hc' H2]; subst; auto.
  - rewrite Hsz in Hsz'. injection Hsz' as <- <-. lia.
  - rewrite Hsz in Hsz'. injection Hsz' as -> ->. lia.
  - rewrite Hsz in Hsz'. injection Hsz' as <- <-. auto.
Qed.

Lemma well_formed_unique e m sp inf sp' inf' : well_formed e m sp inf -> well_formed e m sp' inf' -> sp = sp' /\ inf = inf'.
Proof.
  intros [Hl Ht Hs|sz st n h Hl Ht Hs Hc Hv Hz Hn Hvn Hw|x Hl Ht Hx Hr|x Hl Ht Hx Hr Ha Hae Hsu Hsz Hxd He Hro] H'; destruct H' as [Hl' Ht' Hs'|sz' st' n' h' Hl' Ht' Hs' Hc' Hv' Hz' Hn' Hvn' Hw'|x' Hl' Ht' Hx' Hr'|x' Hl' Ht' Hx' Hr' Ha' Hae' Hsu' Hsz' Hxd' He' Hro'];
    rewrite ?Ht in Ht'; try discriminate Ht'; split; try congruence; auto.
  rewrite Hs in Hs'. injection Hs' as <-. rewrite Hz in Hz'. injection Hz' as <- <-. f_equal. eapply walks_unique; eassumption.
Qed.

Lemma cut_unique e m p p' : cut e m p -> cut e m p' -> p = p'.
Proof.
  intros (sp & inf & H & ->) (sp' & inf' & H' & ->). destruct (well_formed_unique _ _ _ _ _ _ H H') as [-> ->]. reflexivity.
Qed.

(** ** Receiving *)

(** C5: A connection on which the frames of [fine] messages arrive (well-formed calls
    and replies of 8 bytes to below 1 GiB) never reaches undefined behaviour, whatever the kernel gives to each read.  What it delivers
    are the messages in their order, each whole and cut at the end of its header;
    it is given up only when the peer has closed it or a read has failed; and when
    all bytes have been read, all messages have been delivered. *)
Theorem messages_delivered e ms evs :
  Forall (fine e) ms ->
  exists ps alive s', polls e evs (just_connected (frames ms)) = Some (ps, alive, s') /\
    Forall2 (cut e) (take (length ps) ms) ps /\
    (alive = false -> closed (kern s') = true) /\
    (alive = true -> stream (kern s') = [] -> length ps = length ms).
Proof.
  intros Hf. destruct (polls_spec e ms evs _ Hf (just_connected_conn e ms)) as (ps & alive & s' & E & done & todo & -> & HF & Ha).
  exists ps, alive, s'. split; [exact E|]. pose proof (Forall2_length _ _ _ HF) as Hl. split; [rewrite <- Hl, take_app_length; exact HF|].
  split; intros ->; [apply Ha|]. intros Hs. rewrite (conn_drained _ _ _ Ha Hs), app_nil_r. auto.
Qed.

(** C20: On a connection on which the frames of [fine] messages arrive (well-formed
    calls and replies of 8 bytes to below 1 GiB), an event delivers the next message,
    or the last read of the kernel would have blocked, or the connection is broken:
    no event ends early.  For messages of another type see [old_protocol_spins]. *)
Theorem event_waits_for_the_kernel e ms evs ev ps s :
  Forall (fine e) ms -> polls e evs (just_connected (frames ms)) = Some (ps, true, s) ->
  exists r p s', socket_event_poll_in e ev s = Some (r, p, s') /\
    ((exists m v, ms !! length ps = Some m /\ cut e m v /\ r = 0 /\ p = Some v) \/
     (r = 1 /\ p = None /\ errno_again (kern s') = true) \/ (r = -1 /\ p = None /\ closed (kern s') = true)).
Proof.
  intros Hf Hp. destruct (polls_spec e ms evs _ Hf (just_connected_conn e ms)) as (ps' & alive & s1 & E & done & todo & -> & HF & Ha).
  rewrite Hp in E. injection E as <- <- <-. apply Forall_app in Hf as [_ Hf]. pose proof (Forall2_length _ _ _ HF) as Hl.
  destruct (poll_in_spec e todo ev s Hf Ha) as ([r p] & s2 & E2 & [([= -> ->] & Hb & _)|[(m & ms' & v & -> & [= -> ->] & Hcut & _)|([= -> ->] & Hb)]]).
  - exists 1, None, s2. split; [exact E2|]. right. left. auto.
  - exists 0, (Some v), s2. split; [exact E2|]. left. exists m, v. split; [|auto]. rewrite lookup_app_r by lia. rewrite Hl, Nat.sub_diag. reflexivity.
  - exists (-1), None, s2. split; [exact E2|]. right. right. repeat split. apply Hb.
Qed.

(** ** Sending *)

(** C13: When the messages that are submitted are [sendable] (at most 15 vectors, below
    2^31 bytes) and while the connection is up, what the kernel has taken, followed by
    what waits in the queue, are the frames of the accepted messages in their order:
    nothing is lost, repeated or mixed up by partial writes.  After a disconnection it
    is a prefix of the frames: [lost], what had waited in the queue, is dropped.  A
    queue that is not empty is waited for by the event loop, unless a write has
    failed. *)
Theorem accepted_messages_are_sent ops :
  Forall op_ok ops ->
  exists acc o, send ops [] fresh_out = Some (acc, o) /\
    (exists lost, wire o ++ pending_bytes (ioqs o) ++ lost = frames acc /\ (connected o = 1 -> lost = [])) /\
    match ioqs o with [] => True | q :: _ => select_out o = true \/ pending_count q = -1 end.
Proof.
  intros Hops. destruct (send_spec ops [] fresh_out Hops sending_fresh) as (acc & o & E & [_ Hw Ha]). exists acc, o. auto.
Qed.

(** C10: From one end to the other, for [sendable] messages of which the accepted ones
    are [fine] for the receiver: when the sender is connected and its queue is empty,
    what the receiver delivers is what the sender has accepted, in that order, and
    all of it once the receiver has read everything on a connection that is not given
    up. *)
Theorem sent_messages_are_delivered e ops evs acc o :
  Forall op_ok ops -> send ops [] fresh_out = Some (acc, o) -> connected o = 1 -> ioqs o = [] -> Forall (fine e) acc ->
  exists ps alive s', polls e evs (just_connected (wire o)) = Some (ps, alive, s') /\
    Forall2 (cut e) (take (length ps) acc) ps /\ (alive = true -> stream (kern s') = [] -> length ps = length acc).
Proof.
  intros Hops Hs Hc Hq Hf. destruct (send_spec ops [] fresh_out Hops sending_fresh) as (acc' & o' & E & [_ (lost & Hw & Hl) _]).
  rewrite Hs in E. injection E as <- <-. rewrite (Hl Hc), Hq in Hw. cbn in Hw. rewrite app_nil_r in Hw. rewrite Hw.
  destruct (polls_spec e acc evs _ Hf (just_connected_conn e acc)) as (ps & alive & s' & E & done & todo & -> & HF & Ha).
  exists ps, alive, s'. split; [exact E|]. pose proof (Forall2_length _ _ _ HF) as Hll. split; [rewrite <- Hll, take_app_length; exact HF|].
  intros -> Hst. rewrite (conn_drained _ _ _ Ha Hst), app_nil_r. auto.
Qed.

(** C34: The length of a payload is taken modulo 2^32 before it is compared with the
    limit: a message with such a payload is accepted under a header for the rest of
    it, and the receiver takes the payload for the next records. *)
Theorem long_payload_accepted h payload k :
  0 < k -> 2 ^ 32 * k < 2 ^ 64 -> zlen payload = 2 ^ 32 * k -> zlen h < 2 ^ 31 ->
  exists q, __socket_ioq_new (mk_msg [h] [] [payload]) = Some (Some q) /\
    concat (pending_vectors q) = store32 (hton32 (Z.lor 0x80000000 (zlen h))) ++ h ++ payload.
Proof.
  intros Hk Hk2 Hp Hh. pose proof (zlen_nonneg h) as Hh0. unfold __socket_ioq_new. cbn [rpchdr proghdr progpayload app].
  change (zlen [h; payload]) with 2. change (iov_length []) with 0. unfold MAX_IOVEC.
  assert (E1 : iov_length [h] = zlen h) by (rewrite iov_length_id; cbn [concat]; rewrite app_nil_r; auto).
  assert (E2 : iov_length [payload] = 0).
  { unfold iov_length. cbn [concat]. rewrite app_nil_r, Hp, u64_id by lia. unfold s32. replace (2 ^ 32 * k + 2 ^ 31) with (2 ^ 31 + k * 2 ^ 32) by lia.
    rewrite Z.mod_add by lia. reflexivity. }
  rewrite E1, E2, !Z.add_0_r. rewrite !(proj2 (Z.leb_le _ _)), !(proj2 (Z.ltb_lt _ _)) by lia. cbn [andb].
  rewrite u32_id by lia. rewrite (proj2 (Z.ltb_ge RPC_MAX_FRAGMENT_SIZE _)) by (unfold RPC_MAX_FRAGMENT_SIZE; lia).
  eexists. split; [reflexivity|]. cbn [pending_vectors concat]. rewrite app_nil_r. reflexivity.
Qed.

(** ** Examples *)

Module Example.

Definition words (l : list Z) : list Z := concat (map (fun x => store32 (hton32 x)) l).

(** A server for whose procedure 13 the header is read apart, as for WRITE; the
    request with xid 5 is a READ, that with xid 7 too, with a buffer of 4 bytes. *)
Definition env : rpc :=
  mk_rpc true (fun _ _ proc => if proc =? 13 then Some (server3_3_writev_vecsizer 8 (fun l => byte l 7)) else None) 8 (fun l => byte l 7)
    (fun xid => if xid =? 9 then None else Some (mk_info ((xid =? 5) || (xid =? 7)) (if xid =? 7 then Some 4 else None))).

Definition call : list Z := words [1; 0; 2; 100; 3; 12; 7; 4; 77; 0; 0; 9; 8].
Definition write_call : list Z := words [2; 0; 2; 100; 3; 13; 7; 4; 77; 0; 0; 1; 4; 55; 600; 601; 602].
Definition read_answer : list Z := words [5; 1; 0; 0; 0; 0; 1; 4; 55; 700; 701].
Definition answer : list Z := words [6; 1; 0; 0; 0; 0; 1; 4; 55].
Definition messages : list (list Z) := [call; write_call; read_answer; answer].

Lemma messages_fine : Forall (fine env) messages.
Proof.
  repeat constructor; try (vm_compute; congruence); do 2 eexists.
  - apply wf_call; vm_compute; congruence.
  - eapply (wf_vectored_call env write_call (server3_3_writev_vecsizer 8 (fun l => byte l 7)) 1 8); try (vm_compute; congruence).
    eapply walks_more; [vm_compute; reflexivity|lia|vm_compute; congruence|]. apply walks_end. vm_compute. reflexivity.
  - apply (wf_read_reply env read_answer (mk_info true None)); try (vm_compute; congruence).
  - apply (wf_reply env answer (mk_info false None)); vm_compute; congruence.
Qed.

(** Reads of three bytes, and then of two. *)
Definition trickle : list (list event) := repeat [E_give 3; E_intr; E_give 2] 60.

Definition sizes (r : option (list pollin * bool * sock)) : option (list (list nat) * bool) :=
  match r with Some (ps, alive, _) => Some (map (fun p => map length (p_vector p)) ps, alive) | None => None end.

Lemma trickle_delivers : sizes (polls env trickle (just_connected (frames messages))) = Some ([[52%nat]; [56%nat; 12%nat]; [36%nat; 8%nat]; [36%nat]], true).
Proof. vm_compute. reflexivity. Qed.

Lemma messages_delivered_witness :
  Forall (fine env) messages /\
  exists ps alive s', polls env trickle (just_connected (frames messages)) = Some (ps, alive, s') /\
    Forall2 (cut env) (take (length ps) messages) ps /\
    (alive = false -> closed (kern s') = true) /\
    (alive = true -> stream (kern s') = [] -> length ps = length messages).
Proof. split; [exact messages_fine|]. exact (messages_delivered env messages trickle messages_fine). Defined.

Lemma event_waits_for_the_kernel_witness :
  Forall (fine env) messages /\
  exists r p s', socket_event_poll_in env [E_give 9] (just_connected (frames messages)) = Some (r, p, s') /\
    ((exists m v, messages !! 0%nat = Some m /\ cut env m v /\ r = 0 /\ p = Some v) \/
     (r = 1 /\ p = None /\ errno_again (kern s') = true) \/ (r = -1 /\ p = None /\ closed (kern s') = true)).
Proof.
  split; [exact messages_fine|].
  exact (event_waits_for_the_kernel env messages [] [E_give 9] [] (just_connected (frames messages)) messages_fine eq_refl).
Defined.

(** Two calls; the first write takes ten bytes. *)
Definition ops : list op := [O_submit [W_take 10; W_again] (mk_msg [ztake 44 call] [zdrop 44 call] []); O_submit [] (mk_msg [call] [] []); O_poll_out [[W_take 7; W_intr; W_take 99]; [W_take 99]]].

Lemma ops_ok : Forall op_ok ops.
Proof. repeat constructor; vm_compute; congruence. Qed.

Lemma accepted_messages_are_sent_witness :
  Forall op_ok ops /\
  exists acc o, send ops [] fresh_out = Some (acc, o) /\
    (exists lost, wire o ++ pending_bytes (ioqs o) ++ lost = frames acc /\ (connected o = 1 -> lost = [])) /\
    match ioqs o with [] => True | q :: _ => select_out o = true \/ pending_count q = -1 end.
Proof. split; [exact ops_ok|]. exact (accepted_messages_are_sent ops ops_ok). Defined.

Definition sent : outgoing := mk_outgoing 1 [] false (frames [call; call]).

Lemma sent_messages_are_delivered_witness :
  send ops [] fresh_out = Some ([call; call], sent) /\
  exists ps alive s', polls env trickle (just_connected (wire sent)) = Some (ps, alive, s') /\
    Forall2 (cut env) (take (length ps) [call; call]) ps /\ (alive = true -> stream (kern s') = [] -> length ps = length [call; call]).
Proof.
  assert (E : send ops [] fresh_out = Some ([call; call], sent)) by (vm_compute; reflexivity). split; [exact E|].
  apply (sent_messages_are_delivered env ops trickle [call; call] sent ops_ok E eq_refl eq_refl).
  pose proof messages_fine as H. apply Forall_cons in H as [H _]. repeat constructor; apply H.
Defined.

Lemma long_payload_accepted_witness :
  exists q, __socket_ioq_new (mk_msg [call] [] [zeros (2 ^ 32)]) = Some (Some q) /\
    concat (pending_vectors q) = store32 (hton32 (Z.lor 0x80000000 (zlen call))) ++ call ++ zeros (2 ^ 32).
Proof.
  apply (long_payload_accepted call (zeros (2 ^ 32)) 1); [lia|lia|rewrite zlen_zeros; lia|vm_compute; reflexivity].
Defined.

(** ** Messages that are not well formed *)

Definition one (m : list Z) : option (list (list nat) * bool) := sizes (polls env [repeat (E_give 100) 30] (just_connected m)).

(** A READ reply that is denied, or accepted with an error: the length of the payload
    is the difference of two addresses that have nothing to do with each other. *)
Lemma denied_read : one (frame (words [5; 1; 1; 1; 0; 0])) = None.
Proof. vm_compute. reflexivity. Qed.

Lemma failed_read : one (frame (words [5; 1; 0; 0; 0; 2])) = None.
Proof. vm_compute. reflexivity. Qed.

(** A READ reply with more data than the caller's buffer takes is written past it. *)
Lemma overrun_by_read : one (frame (words [7; 1; 0; 0; 0; 0; 1; 4; 55; 700; 701])) = None.
Proof. vm_compute. reflexivity. Qed.

(** A record that ends inside of the header of a call is delivered, and the next one is
    parsed from the state in which it was left. *)
Lemma short_record :
  sizes (polls env (repeat (repeat (E_give 100) 30) 1) (just_connected (frame (ztake 20 write_call) ++ frame write_call))) = Some ([[20%nat]], true) /\
  sizes (polls env (repeat (repeat (E_give 100) 30) 2) (just_connected (frame (ztake 20 write_call) ++ frame write_call))) = None.
Proof. split; vm_compute; reflexivity. Qed.

(** A WRITE in two fragments: the buffer that the header was read into is freed. *)
Lemma write_in_fragments :
  one (store32 (hton32 52) ++ ztake 52 write_call ++ frame (zdrop 52 write_call)) = None.
Proof. vm_compute. reflexivity. Qed.

(** A message of the old protocol: every event ends at once and nothing is read. *)
Lemma old_protocol_spins :
  let old := frame (words [3; 42; 0; 0; 0; 0]) in
  match polls env (repeat (repeat (E_give 100) 30) 1) (just_connected old), polls env (repeat (repeat (E_give 100) 30) 9) (just_connected old) with
  | Some ([], true, s), Some ([], true, s') => stream (kern s) = stream (kern s')
  | _, _ => False
  end.
Proof. vm_compute. reflexivity. Qed.

(** A wrong type is an error, but not when an earlier read would have blocked. *)
Lemma wrong_type_forgotten :
  let wrong := frame (words [3; 5; 0; 0; 0; 0]) in
  sizes (polls env [[E_give 100; E_give 100]] (just_connected wrong)) = Some ([], false) /\
  sizes (polls env [[]; [E_give 100; E_give 100]] (just_connected wrong)) = Some ([], true).
Proof. split; vm_compute; reflexivity. Qed.

End Example.
